(* ===== verification/_CoqProject ===== *)
-Q . S2P
Prelude.v
SafeMath.v
Vlint.v
Packet.v
WPacket.v
Wire.v
Frames.v
PktHdr.v
PktHdrTheory.v
HdrProt.v
PktFlow.v
PktExamples.v
UintSet.v
FlowControl.v
RingBuf.v
SStream.v
Statm.v
NewReno.v
SFrameList.v
RStream.v
LHash.v
Ackm.v
AckmTheory.v
AckmInv.v
AckmTx.v
AckmRuns.v
Cfq.v
Txpim.v
Fifd.v
FifdTheory.v
FifdRuns.v
FifdExamples.v
StreamList.v
StreamMap.v
StreamMapTheory.v
StreamMapOps.v
StreamMapLife.v
StreamMapEvents.v
StreamMapRuns.v
StreamMapExamples.v
StreamMapCaller.v
