(* ===== verification/Prelude.v ===== *)
(** * The transport core of the QUIC stack in OpenSSL: a verification development

    ** What the program is

    The repository is OpenSSL (libcrypto, libssl, providers, applications). This
    development covers the part of libssl that moves the bytes of QUIC streams, with
    the code of libcrypto that it stands on. From the bottom up:

    - checked arithmetic and saturating times, with which every other part counts;
    - variable-length integers, the packet reader (PACKET) and the packet writer
      (WPACKET) over a growing buffer (BUF_MEM);
    - the encoding and decoding of QUIC frames and transport parameters with them;
    - packet headers and packet numbers, their protection by a cipher, and the
      integrity tag of Retry packets;
    - sets of ranges of 64-bit numbers, the ring buffer, and the list of received
      stream frames: the containers of the stream code;
    - send streams (bytes that are new, in flight or acknowledged) and receive
      streams (reassembly of frames that arrive in any order);
    - flow control for both directions, the statistics of the round trip time, and
      congestion control;
    - the acknowledgement manager, which remembers the packets in flight in lists and
      hash tables, decides which are acknowledged or lost and tells the rest through
      callbacks, remembers which packets were received and generates ACK frames;
    - the bookkeeping of frames in flight: a queue of control frames, a store with what
      each packet carried, and the dispatcher that turns the fate of a packet into
      calls on the streams and the queue;
    - the stream map, which owns the streams of a connection: their state machines,
      the table that finds them, and the circular lists of the streams that have
      frames to send, wait to be accepted or wait to be collected.

    A send stream keeps its bytes in a ring buffer and two range sets; what it sends
    is encoded as STREAM frames and limited by the transmit flow controller and the
    congestion controller. On the other side a decoded STREAM frame is checked by
    the receive flow controller, inserted into the frame list of the receive stream,
    perhaps moved to its ring buffer, and read in order; a read retires the bytes in
    the flow controller, whose window depends on the round trip time. The
    acknowledgement manager feeds the statistics and the congestion controller, and its
    callbacks reach the send streams and the control frames through the dispatcher. The
    connection creates streams in the map, the API writes, concludes and frees them, the
    packetiser goes round the active ones, and each of them then has the map update the
    state of the stream.

    ** How the code is modelled

    Unsigned C integers are [Z] with the wrap-around written out ([u8] .. [u64]);
    [size_t] is 64 bits wide. Byte strings are lists of [Z]. A C function that reads
    and changes an object is a function of the monad [M] below: the object before
    gives an outcome and the object after; the outcome is a result ([Ok]), the
    failure value of the function ([Err]), or undefined behaviour ([Ub]: a null
    dereference, an access outside an object, a failed debug assertion, a release
    of a reference that is not held). A theorem that a run is [Ok] or [Err] hence
    includes that it is memory safe. The answers of the allocator are a list of
    booleans; the contents of fresh memory and the readings of the clock are
    parameters. Doubly linked lists are lists; objects that point to one another
    (the flow controllers of a connection) are in a finite map. [ossl_assert] is its
    value, as in release builds.

    - [Prelude] (this file): machine integers, outcomes and the monad with its
      notations, the allocator, byte buffers with integer offsets, network byte
      order, tactics and hint databases.
    - [SafeMath]: include/internal/safe_math.h and include/internal/time.h.
    - [Vlint]: include/internal/quic_vlint.h, crypto/quic_vlint.c.
    - [Packet]: the reader of include/internal/packet.h and packet_quic.h; a PACKET
      is the list of bytes that remain, and a read beyond them is undefined.
    - [WPacket]: crypto/packet.c and BUF_MEM of crypto/buffer/buffer.c; the state is
      the WPACKET with its stack of sub-packets and the buffer.
    - [Wire]: ssl/quic/quic_wire.c, one definition for each function, over [Packet]
      and [WPacket]. [Frames]: the theorems about it, and frames as one type.
    - [PktHdr]: ssl/quic/quic_wire_pkt.c without the ciphers, over [Packet] and
      [WPacket]; a pointer into a packet is an offset. [PktHdrTheory]: the wire format
      of headers and the theorems about their coding.
    - [HdrProt]: the header protector and the Retry tag of the same file. The EVP
      functions are a parameter, the class [EVP]; that a cipher is a function of key,
      IV and input, and AES-GCM a function of key, nonce and data, are the classes
      [HpCipherLaws] and [RetryAeadLaws]. [PktFlow]: packets from the sender to the
      receiver, and the Retry packet of ssl/quic/quic_port.c ([port_send_retry]).
      [PktExamples]: an executable instance of the classes and sample packets.
    - [UintSet]: ssl/quic/uint_set.c; the set with the number of live items.
    - [FlowControl]: ssl/quic/quic_fc.c; a map of controllers for each direction.
    - [RingBuf]: include/internal/ring_buf.h.
    - [SStream]: ssl/quic/quic_sstream.c over [RingBuf] and [UintSet].
    - [Statm]: ssl/quic/quic_statm.c.
    - [NewReno]: the interface of include/internal/quic_cc.h as a class with laws,
      and ssl/quic/cc_newreno.c, which is shown to be an instance.
    - [SFrameList]: ssl/quic/quic_sf_list.c; the side storage that data is moved to
      is a class, of which the ring buffer is an instance.
    - [RStream]: ssl/quic/quic_rstream.c over [SFrameList], [RingBuf], [FlowControl]
      and [Statm].
    - [LHash]: crypto/lhash/lhash.c, for any type of data with a hash and a
      comparison, a class; the laws that make them a key are another class.
    - [Ackm]: ssl/quic/quic_ackm.c over [LHash], [UintSet], [Statm] and the class of
      [NewReno]; the three packet number spaces are a record of three, the callbacks
      a log. [AckmTheory] has the lemmas on the histories of packets, [AckmInv] the
      invariant of the manager and the steps of its operations, [AckmTx] the
      operations of the transmit side, [AckmRuns] those of the receive side, runs and
      the theorems about them.
    - [Cfq]: ssl/quic/quic_cfq.c; the items are a store of objects and three lists of
      their addresses, the calls that free buffers a log. [Txpim]:
      ssl/quic/quic_txpim.c; the packets are a store; [qsort] is a class.
    - [Fifd]: ssl/quic/quic_fifd.c over [Ackm], [Cfq], [Txpim] and [SStream], with
      [get_sstream_by_id] of ssl/quic/quic_txp.c; the functions that it notifies are
      the class [Caller], whose laws let them free the streams that are finished.
      [FifdTheory]: what its callbacks do to each of the four.
      [FifdRuns]: the system of the four, in which the callbacks that an operation of
      the manager logs are dispatched in order, and the theorems about it.
      [FifdExamples]: instances of the classes and concrete runs.
    - [StreamList]: the circular lists of ssl/quic/quic_stream_map.c, with the pointers
      of the nodes in a store, and when a store represents a list.
    - [StreamMap]: the rest of that file and include/internal/quic_stream_map.h, over
      [StreamList], [LHash], [FlowControl], [SStream] and [RStream]; streams are objects
      in a store. With it the operations of its callers on the state of a stream: stream
      creation of ssl/quic/quic_channel.c, the callbacks and the commit of
      ssl/quic/quic_txp.c, and writing, concluding and freeing of ssl/quic/quic_impl.c.
      [StreamMapTheory]: the invariant. [StreamMapOps]: the state machines of the two
      parts and the operations that follow them. [StreamMapLife]: the accept queue,
      creation and release. [StreamMapEvents]: the calls of the API and the packetiser,
      the flush, and iteration. [StreamMapRuns]: sequences of calls ([sm_call]) mixed
      with what other components do to buffers and credit ([env_step]), and the
      theorems. [StreamMapExamples]: a concrete connection. [StreamMapCaller]: the
      callbacks of ssl/quic/quic_txp.c on this map do what the class [Caller] of [Fifd]
      asks for.

    Names are those of the source. A function whose loop or tail is a definition of
    its own in the model has the name of the function with a suffix ([read_loop],
    [push_loop]); what is a pointer comparison in the source is a list pattern.

    ** What the theorems show

    - Refinement: the range set is a set of numbers ([uint_set_refines_sets]), the
      ring buffer is a queue ([ring_buf_refines_queue]), a send stream is a map from
      offsets to byte states ([sstream_refines_byte_states]), a receive stream is
      the set of offsets that arrived and a read offset ([rstream_refines_contract]),
      a hash table is a finite map ([lhash_refines_map]).
    - End to end: reads deliver the stream in order and completely
      ([rstream_delivers_stream]); the next frame of a send stream is right and
      there is one whenever there should be ([sstream_next_frame]); a decoder
      inverts the encoder for frames, transport parameters and integers
      ([quic_payload_roundtrip], [quic_transport_param_roundtrip], [vlint_roundtrip]).
    - Packets: a protected packet is received as it was sent
      ([quic_protected_roundtrip], [quic_pkt_hdr_roundtrip], [quic_pn_roundtrip]); a
      Retry packet is accepted exactly when its tag is right, and so is the one that
      the server sends ([quic_retry_tag_spec], [quic_retry_accepted]); the
      demultiplexer and the decoder agree ([quic_demux_dcid]); no datagram makes the
      receiver leave the packet ([quic_receive_safe], [quic_partial_decode_spec]).
    - Invariants: flow control conserves bytes between streams and connection
      ([rxfc_conserved], [txfc_credit_conserved], [rstream_read_retires]), the
      congestion window stays within its bounds ([newreno_window_bounds]), and the
      acknowledgement manager accounts for every packet and every byte
      ([ackm_packet_fates], [ackm_bytes_conserved]).
    - Acknowledgements: which packets a frame acknowledges and which are lost then
      ([ackm_ack_frame_spec]), what a timeout does ([ackm_timeout_spec]), that no
      packet number is processed twice ([ackm_no_duplicates]), that generated frames
      are true and report what was received ([ackm_ack_frames_sound]), that no assertion
      fails and that the loss detection timer expires in time
      ([ackm_no_assertion_fails]).
    - Frames in flight: whatever is sent, acknowledged, lost or discarded, every byte of
      a send stream is new, acknowledged or in exactly one packet in flight, and every
      transmitted control frame is in one ([fifd_nothing_forgotten]); what happens to
      the contents of a packet ([fifd_packet_fate]); nothing is undefined although streams
      are freed meanwhile ([fifd_never_undefined]), and the caller frees only those it
      may free ([stream_callbacks_release]); the order of control frames
      ([cfq_priority_order]), which is not the documented one.
    - Streams: whatever the sequence of calls, a stream goes through the states of RFC
      9000 only and keeps its final size ([stream_lifecycle]), has the buffers of its
      states ([stream_buffers_match_states]), the lists, counters and the table agree
      with the flags ([stream_map_consistent]) and nothing is undefined
      ([stream_map_never_undefined]); what an update, a reset, the creation of a stream
      and the start of a flush do ([update_state_spec], [reset_send_part_spec],
      [new_stream_local_spec], [begin_flush_spec]); iterations are complete, fair and
      finite ([iteration_visits_active_once], [rotation_is_fair],
      [find_in_accept_queue_terminates]).
    - Safety and errors: the writer never leaves its buffer, if its caller cleans up
      after a sub-packet that could not be opened ([WPACKET_memory_safe]; without that
      [WPACKET_close_after_failed_start]), decoding any bytes terminates within them
      ([quic_decode_safe]), failures of the allocator and of the peer have exactly
      the documented effect ([uint_set_insert_outcome], [sframe_list_insert_spec],
      [rxfc_frame_errors]).
    - Arithmetic: exactness, saturation and agreement of the portable and builtin
      variants ([safe_muldiv_exact], [ossl_time_saturates],
      [safe_math_portable_equiv]), estimates within the samples
      ([statm_estimates_bounded]).
    - Divergences: some theorems are concrete runs in which the code does not do
      what its documentation says, e.g. [uint_set_insert_leaves_borders],
      [rstream_release_overcounts] and [ackm_frames_three_ranges]; others are general
      ([fifd_lost_reset_forgotten], [gc_collects_nothing]).

    ** Bounds and fuel

    Loops over lists are structural. The copying loops of the ring buffer make at
    most two rounds, since the second one starts at the beginning of the memory;
    their fuel (2, 3 and 4 for write, push and resize) covers them and the final
    test, and running out of it is [Ub], which the theorems exclude. The loops over
    the frames of a receive stream have the number of frames as fuel. Stream offsets
    are below 2^62, the limit of the protocol; the bytes sent and the base of the
    congestion window (14720 bytes, or two of the largest datagrams configured) are
    below 2^64; the exponent of the ACK delay is below 64, where the code would shift
    out of range (the protocol allows 20); RTT samples are below 2^60 ns. A
    hash table has fewer than 2^29 entries, so that the 32-bit numbers of its chains
    do not wrap, and packet numbers are below 2^62. The loop that trims the ranges of
    received packets has their number as fuel. Payloads and tokens of headers are
    shorter than 2^61 bytes, Retry packets shorter than 2^31, the range of [int]. The
    loops over the control frames of a packet have the number of items as fuel, since
    no item is in two places; a packet has at most 512 chunks, the limit of the code.
    The loops over the circular lists of the stream map have the number of streams as
    fuel; a map has fewer than 2^28 streams, so that its table has fewer than 2^29
    entries.

    ** Not modelled

    - The connection id managers.
    - The dispatcher and the stream map are verified beside one another: in the system of
      [FifdRuns] the streams are created by the caller and freed by its reactions, in
      the runs of [StreamMapRuns] acknowledgements and losses are steps of the
      environment, and [StreamMapCaller] relates the two through the laws of [Caller].
    - The generation of packets, the depacketiser, the handshake, the event loop and the
      rest of the connection and of the public API: they tie the parts together through
      callbacks and I/O.
    - The encryption of payloads in the record layer and the TLS handshake; the
      algorithms of libcrypto are verification projects of their own.
    - Erasing memory before it is released, except in the ring buffer, where later
      reads could see it; recycling of received packets behind the reference count;
      secure-heap buffers; locking (the modelled code runs under one lock). *)

From stdpp Require Import base list numbers option.
From Stdlib Require Import ZArith Lia Btauto.

#[global] Open Scope Z_scope.
#[global] Set Default Goal Selector "!".

(** ** Machine integers

    A C unsigned integer of width [w] is a [Z] in [0, 2^w); every arithmetic
    result that the C code can wrap is wrapped explicitly. *)

Definition U8_MOD : Z := 256.
Definition U16_MOD : Z := 65536.
Definition U32_MOD : Z := 4294967296.
Definition U64_MOD : Z := 18446744073709551616.
Definition UINT64_MAX : Z := 18446744073709551615.
Definition SIZE_MAX : Z := 18446744073709551615.

Definition u8 (x : Z) : Z := x mod U8_MOD.
Definition u16 (x : Z) : Z := x mod U16_MOD.
Definition u32 (x : Z) : Z := x mod U32_MOD.
Definition u64 (x : Z) : Z := x mod U64_MOD.

Definition is_u8 (x : Z) : Prop := 0 <= x < U8_MOD.
Definition is_u32 (x : Z) : Prop := 0 <= x < U32_MOD.
Definition is_u64 (x : Z) : Prop := 0 <= x < U64_MOD.

(** ** Outcomes and the state monad

    [Ok a]: the C function succeeded with result [a];
    [Err]: it returned its failure value (0 or NULL);
    [Ub]: the execution dereferences a null pointer, reads or stores outside an object,
    so the C standard says nothing about it. *)

Inductive res (A : Type) : Type :=
| Ok (a : A)
| Err
| Ub.
Arguments Ok {A} a.
Arguments Err {A}.
Arguments Ub {A}.

(** A stateful C function over an object of type [S]: the outcome, and the
    object as the call left it (also when the call failed). *)
Definition M (S A : Type) : Type := S -> res A * S.

Definition ret {S A} (a : A) : M S A := fun s => (Ok a, s).
Definition fail {S A} : M S A := fun s => (Err, s).
Definition undef {S A} : M S A := fun s => (Ub, s).

Definition bind {S A B} (m : M S A) (k : A -> M S B) : M S B :=
  fun s =>
    match m s with
    | (Ok a, s') => k a s'
    | (Err, s') => (Err, s')
    | (Ub, s') => (Ub, s')
    end.

Definition guard {S} (b : bool) : M S unit := if b then ret tt else fail.
(** A debug assertion. *)
Definition assert_ {S} (b : bool) : M S unit := if b then ret tt else undef.
Definition get {S} : M S S := fun s => (Ok s, s).
Definition put {S} (s' : S) : M S unit := fun _ => (Ok tt, s').
Definition modify {S} (f : S -> S) : M S unit := fun s => (Ok tt, f s).

(** Run [m] on a part of the state: [PACKET tmp = *pkt] style local copies. *)
Definition local_run {S T A} (m : M T A) (t : T) : M S (A * T) :=
  fun s =>
    match m t with
    | (Ok a, t') => (Ok (a, t'), s)
    | (Err, _) => (Err, s)
    | (Ub, _) => (Ub, s)
    end.

(** Run [m] on a component of the state, which it updates. *)
Definition zoom {S T A} (sel : S -> T) (upd : T -> S -> S) (m : M T A) : M S A :=
  fun s => let (r, t) := m (sel s) in (r, upd t s).

Declare Scope cfun_scope.
Delimit Scope cfun_scope with cfun.
Notation "'let!' x := m 'in' k" := (bind m (fun x => k))
  (at level 10, x name, m at level 100, k at level 200) : cfun_scope.
Notation "'let!' ' pat := m 'in' k" := (bind m (fun x => match x with pat => k end))
  (at level 10, pat strict pattern, m at level 100, k at level 200) : cfun_scope.
Notation "m ;;; k" := (bind m (fun _ => k))
  (at level 100, k at level 200, right associativity) : cfun_scope.

(** ** The allocator

    [OPENSSL_malloc] and friends are code the models do not look into: the
    outcome of each allocation is the next element of a list of booleans, and
    an exhausted list means that every further allocation succeeds. *)
Definition oracle : Type := list bool.

Definition alloc (o : oracle) : bool * oracle :=
  match o with
  | [] => (true, [])
  | b :: o' => (b, o')
  end.

(** ** Byte buffers with integer offsets *)

Definition zlen {A} (l : list A) : Z := Z.of_nat (length l).

(** [ztake n l]/[zdrop n l]: the first [n] elements, and what follows them. The
    recursion is on the list, so a huge [n] costs nothing. *)
Fixpoint ztake {A} (n : Z) (l : list A) : list A :=
  match l with
  | [] => []
  | x :: l' => if n <=? 0 then [] else x :: ztake (n - 1) l'
  end.

Fixpoint zdrop {A} (n : Z) (l : list A) : list A :=
  match l with
  | [] => []
  | x :: l' => if n <=? 0 then l else zdrop (n - 1) l'
  end.

Fixpoint zrepeat_nat {A} (x : A) (n : nat) : list A :=
  match n with
  | O => []
  | S n' => x :: zrepeat_nat x n'
  end.

(** [memset]-style fill. *)
Definition zrepeat {A} (x : A) (n : Z) : list A := zrepeat_nat x (Z.to_nat n).

(** [memcpy] of [bs] to offset [off] of the buffer [l]. *)
Definition write_at {A} (off : Z) (bs l : list A) : list A :=
  ztake off l ++ bs ++ zdrop (off + zlen bs) l.

(** The byte at offset [i]. *)
Fixpoint znth (i : Z) (l : list Z) : Z :=
  match l with
  | [] => 0
  | x :: l' => if i <=? 0 then x else znth (i - 1) l'
  end.

(** ** Network byte order: the reference the bit operations are compared with *)

(** The [n] low-order bytes of [v], most significant first. *)
Fixpoint be_bytes (n : nat) (v : Z) : list Z :=
  match n with
  | O => []
  | S n' => (v / 256 ^ Z.of_nat n') mod 256 :: be_bytes n' v
  end.

Fixpoint be_value (bs : list Z) : Z :=
  match bs with
  | [] => 0
  | b :: bs' => b * 256 ^ zlen bs' + be_value bs'
  end.

(** ** Lemmas: machine integers *)

Ltac unfold_widths :=
  unfold is_u8, is_u32, is_u64, u8, u16, u32, u64,
    U8_MOD, U16_MOD, U32_MOD, U64_MOD, UINT64_MAX, SIZE_MAX in *.

(** Linear arithmetic over wrapped integers. *)
Ltac ulia := unfold_widths; Z.div_mod_to_equations; lia.

Create HintDb width.
Create Rewrite HintDb width_simpl.

Lemma u8_range x : is_u8 (u8 x).
Proof. ulia. Qed.

Lemma u64_range x : is_u64 (u64 x).
Proof. ulia. Qed.

Lemma u8_id x : 0 <= x < 256 -> u8 x = x.
Proof. intros. apply Z.mod_small. exact H. Qed.

Lemma u16_id x : 0 <= x < 65536 -> u16 x = x.
Proof. intros. apply Z.mod_small. exact H. Qed.

Lemma u32_id x : 0 <= x < 4294967296 -> u32 x = x.
Proof. intros. apply Z.mod_small. exact H. Qed.

Lemma u64_id x : 0 <= x < 18446744073709551616 -> u64 x = x.
Proof. intros. apply Z.mod_small. exact H. Qed.

Lemma u64_idem x : u64 (u64 x) = u64 x.
Proof. apply Z.mod_mod. discriminate. Qed.

#[export] Hint Resolve u8_range u64_range : width.
#[export] Hint Rewrite u8_id u16_id u32_id u64_id using lia : width_simpl.

(** ** Lemmas: buffers *)

Section Buffers.
Context {A : Type}.
Implicit Types l k : list A.

Lemma zlen_nonneg l : 0 <= zlen l.
Proof. unfold zlen. lia. Qed.

Lemma zlen_nil : zlen (@nil A) = 0.
Proof. reflexivity. Qed.

Lemma zlen_cons x l : zlen (x :: l) = 1 + zlen l.
Proof. unfold zlen. simpl. lia. Qed.

Lemma zlen_app l k : zlen (l ++ k) = zlen l + zlen k.
Proof. unfold zlen. rewrite length_app. lia. Qed.

Lemma zlen_zero_nil l : zlen l = 0 -> l = [].
Proof. destruct l; [done|]. rewrite zlen_cons. pose proof (zlen_nonneg l). lia. Qed.

Lemma ztake_take n l : ztake n l = take (Z.to_nat n) l.
Proof.
  revert n. induction l as [|x l IH]; intros n; simpl.
  - by rewrite take_nil.
  - case (Z.leb_spec n 0); intros H.
    + by replace (Z.to_nat n) with 0%nat by lia.
    + replace (Z.to_nat n) with (S (Z.to_nat (n - 1))) by lia. simpl. by rewrite IH.
Qed.

Lemma zdrop_drop n l : zdrop n l = drop (Z.to_nat n) l.
Proof.
  revert n. induction l as [|x l IH]; intros n; simpl.
  - by rewrite drop_nil.
  - case (Z.leb_spec n 0); intros H.
    + by replace (Z.to_nat n) with 0%nat by lia.
    + replace (Z.to_nat n) with (S (Z.to_nat (n - 1))) by lia. simpl. by rewrite IH.
Qed.

Lemma ztake_zdrop n l : ztake n l ++ zdrop n l = l.
Proof. rewrite ztake_take, zdrop_drop. apply take_drop. Qed.

Lemma zlen_ztake n l : 0 <= n <= zlen l -> zlen (ztake n l) = n.
Proof. intros. rewrite ztake_take. unfold zlen in *. rewrite length_take. lia. Qed.

Lemma zlen_zdrop n l : 0 <= n <= zlen l -> zlen (zdrop n l) = zlen l - n.
Proof. intros. rewrite zdrop_drop. unfold zlen in *. rewrite length_drop. lia. Qed.

Lemma ztake_le_zero n l : n <= 0 -> ztake n l = [].
Proof. intros. rewrite ztake_take. by replace (Z.to_nat n) with 0%nat by lia. Qed.

Lemma zdrop_le_zero n l : n <= 0 -> zdrop n l = l.
Proof. intros. rewrite zdrop_drop. by replace (Z.to_nat n) with 0%nat by lia. Qed.

Lemma ztake_ge n l : zlen l <= n -> ztake n l = l.
Proof. intros. rewrite ztake_take. apply take_ge. unfold zlen in *. lia. Qed.

Lemma zdrop_ge n l : zlen l <= n -> zdrop n l = [].
Proof. intros. rewrite zdrop_drop. apply drop_ge. unfold zlen in *. lia. Qed.

Lemma ztake_app n l k :
  ztake n (l ++ k) = ztake n l ++ ztake (n - zlen l) k.
Proof.
  rewrite !ztake_take, take_app. f_equal. f_equal. unfold zlen. lia.
Qed.

Lemma zdrop_app n l k :
  zdrop n (l ++ k) = zdrop n l ++ zdrop (n - zlen l) k.
Proof.
  rewrite !zdrop_drop, drop_app. f_equal. f_equal. unfold zlen. lia.
Qed.

Lemma ztake_app_exact l k : ztake (zlen l) (l ++ k) = l.
Proof.
  rewrite ztake_app, ztake_ge by lia. rewrite ztake_le_zero by lia. apply app_nil_r.
Qed.

Lemma zdrop_app_exact l k : zdrop (zlen l) (l ++ k) = k.
Proof. rewrite zdrop_app, zdrop_ge by lia. rewrite zdrop_le_zero by lia. done. Qed.

Lemma zdrop_zdrop n m l : 0 <= n -> 0 <= m -> zdrop n (zdrop m l) = zdrop (m + n) l.
Proof. intros. rewrite !zdrop_drop, drop_drop. f_equal. lia. Qed.

Lemma ztake_ztake n m l : ztake n (ztake m l) = ztake (Z.min n m) l.
Proof. rewrite !ztake_take, take_take. f_equal. lia. Qed.

Lemma zlen_zrepeat (x : A) n : 0 <= n -> zlen (zrepeat x n) = n.
Proof.
  intros. unfold zrepeat, zlen.
  assert (forall m, length (zrepeat_nat x m) = m) as ->; [|lia].
  induction m; simpl; congruence.
Qed.

Lemma zlen_write_at off bs l :
  0 <= off -> off + zlen bs <= zlen l -> zlen (write_at off bs l) = zlen l.
Proof.
  intros. pose proof (zlen_nonneg bs). unfold write_at.
  rewrite !zlen_app, zlen_ztake, zlen_zdrop by lia. lia.
Qed.

(** What was written so far, followed by the new bytes. *)
Lemma ztake_write_at off bs l :
  0 <= off -> off + zlen bs <= zlen l ->
  ztake (off + zlen bs) (write_at off bs l) = ztake off l ++ bs.
Proof.
  intros. pose proof (zlen_nonneg bs). unfold write_at.
  rewrite ztake_app, zlen_ztake by lia.
  rewrite (ztake_ge (off + zlen bs)) by (rewrite zlen_ztake; lia).
  replace (off + zlen bs - off) with (zlen bs) by lia.
  by rewrite ztake_app_exact.
Qed.

Lemma ztake_write_at_before n off bs l :
  n <= off -> off <= zlen l -> ztake n (write_at off bs l) = ztake n l.
Proof.
  intros. unfold write_at. destruct (decide (n <= 0)).
  { by rewrite !ztake_le_zero. }
  rewrite ztake_app, zlen_ztake, ztake_ztake by lia.
  rewrite (ztake_le_zero (n - off)), app_nil_r by lia. f_equal. lia.
Qed.

Lemma write_at_nil off l : 0 <= off -> write_at off [] l = l.
Proof.
  intros. unfold write_at. rewrite zlen_nil, Z.add_0_r. apply ztake_zdrop.
Qed.

Lemma write_at_app off bs cs l :
  0 <= off -> off + zlen bs + zlen cs <= zlen l ->
  write_at (off + zlen bs) cs (write_at off bs l) = write_at off (bs ++ cs) l.
Proof.
  intros. pose proof (zlen_nonneg bs). pose proof (zlen_nonneg cs).
  unfold write_at at 1. rewrite ztake_write_at by lia.
  unfold write_at. rewrite !zdrop_app, zlen_ztake by lia.
  rewrite (zdrop_ge _ (ztake off l)) by (rewrite zlen_ztake; lia).
  rewrite (zdrop_ge _ bs) by lia. simpl. rewrite zdrop_zdrop by lia.
  rewrite <- !app_assoc. do 4 f_equal. rewrite zlen_app. lia.
Qed.

Lemma zlen_length l : zlen l = Z.of_nat (length l).
Proof. reflexivity. Qed.

End Buffers.

(** Proofs go through the lemmas above; [vm_compute] still evaluates [zlen]. *)
#[global] Opaque zlen.

(** Compute lengths of concatenations. The empty list is rewritten at its
    type: [zlen []] is convertible with [0]. *)
Ltac zsimpl :=
  rewrite ?zlen_app, ?zlen_cons in *;
  repeat match goal with
  | |- context [zlen (@nil ?T)] => rewrite (@zlen_nil T)
  | H : context [zlen (@nil ?T)] |- _ => rewrite (@zlen_nil T) in H
  end.

#[export] Hint Resolve zlen_nonneg : width.

Lemma znth_app_l i l k : 0 <= i < zlen l -> znth i (l ++ k) = znth i l.
Proof.
  revert i. induction l as [|x l IH]; intros i.
  - zsimpl. lia.
  - rewrite zlen_cons. intros H. simpl. case_match; [done|]. apply IH. lia.
Qed.

Lemma znth_app_r i l k : zlen l <= i -> znth i (l ++ k) = znth (i - zlen l) k.
Proof.
  revert i. induction l as [|x l IH]; intros i H.
  - zsimpl. by rewrite Z.sub_0_r.
  - pose proof (zlen_nonneg l). rewrite zlen_cons in H |- *. simpl.
    replace (i <=? 0) with false by lia. rewrite IH by lia. f_equal. lia.
Qed.

Lemma znth_zdrop i n l : 0 <= i -> 0 <= n -> znth i (zdrop n l) = znth (n + i) l.
Proof.
  revert n i. induction l as [|x l IH]; intros n i ? ?; [done|]. simpl.
  case (Z.leb_spec n 0); intros.
  - by replace (n + i) with i by lia.
  - replace (n + i <=? 0) with false by lia. rewrite IH by lia. f_equal. lia.
Qed.

Lemma znth_ztake i n l : 0 <= i < n -> znth i (ztake n l) = znth i l.
Proof.
  revert n i. induction l as [|x l IH]; intros n i ?; [done|]. simpl.
  case_match; [lia|]. simpl. case_match; [done|]. apply IH. lia.
Qed.

Lemma znth_write_at_in i off bs l :
  0 <= off -> off <= zlen l -> off <= i < off + zlen bs ->
  znth i (write_at off bs l) = znth (i - off) bs.
Proof.
  intros. unfold write_at. rewrite znth_app_r, zlen_ztake by (rewrite ?zlen_ztake; lia).
  apply znth_app_l. lia.
Qed.

Lemma znth_write_at_out i off bs l :
  0 <= off -> off <= zlen l -> 0 <= i -> i < off \/ off + zlen bs <= i ->
  znth i (write_at off bs l) = znth i l.
Proof.
  intros ? ? ? [?|?]; unfold write_at; pose proof (zlen_nonneg bs).
  - rewrite znth_app_l by (rewrite zlen_ztake; lia). apply znth_ztake. lia.
  - rewrite znth_app_r, zlen_ztake, znth_app_r by (rewrite ?zlen_ztake; lia).
    rewrite znth_zdrop by lia. f_equal. lia.
Qed.

(** Two lists of the same length with the same elements at every offset. *)
Lemma znth_ext (l k : list Z) :
  zlen l = zlen k -> (forall i, 0 <= i < zlen l -> znth i l = znth i k) -> l = k.
Proof.
  revert k. induction l as [|x l IH]; intros [|y k]; zsimpl;
    intros Hlen H; [done| | |].
  - pose proof (zlen_nonneg k). lia.
  - pose proof (zlen_nonneg l). lia.
  - pose proof (zlen_nonneg l). f_equal.
    + apply (H 0). lia.
    + apply IH; [lia|]. intros i Hi. specialize (H (i + 1)). simpl in H.
      replace (i + 1 <=? 0) with false in H by lia.
      replace (i + 1 - 1) with i in H by lia. apply H. lia.
Qed.

(** ** Lemmas: bit fields and byte order *)

(** Or-ing disjoint bit fields is addition. *)
Lemma lor_add_small a b k :
  0 <= k -> 0 <= b < 2 ^ k -> Z.lor (a * 2 ^ k) b = a * 2 ^ k + b.
Proof.
  intros Hk Hb. rewrite <- Z.add_lor_land.
  assert (Z.land (a * 2 ^ k) b = 0) as ->; [|lia].
  apply Z.bits_inj'. intros i Hi. rewrite Z.land_spec, Z.bits_0.
  destruct (decide (i < k)).
  - by rewrite Z.mul_pow2_bits_low.
  - rewrite <- (Z.mod_small b (2 ^ k)), Z.mod_pow2_bits_high by lia.
    apply andb_false_r.
Qed.

Lemma lor_shiftl_add a b k :
  0 <= k -> 0 <= b < 2 ^ k -> Z.lor (Z.shiftl a k) b = a * 2 ^ k + b.
Proof. intros. rewrite Z.shiftl_mul_pow2 by lia. by apply lor_add_small. Qed.

Lemma land_ones_mod x k m :
  m = Z.ones k -> 0 <= k -> Z.land x m = x mod 2 ^ k.
Proof. intros -> ?. by apply Z.land_ones. Qed.

Lemma length_be_bytes n v : zlen (be_bytes n v) = Z.of_nat n.
Proof. induction n; cbn [be_bytes]; zsimpl; lia. Qed.

Lemma be_bytes_range n v : Forall is_u8 (be_bytes n v).
Proof. induction n; constructor; [|done]. ulia. Qed.

Lemma be_value_be_bytes n v : be_value (be_bytes n v) = v mod 256 ^ Z.of_nat n.
Proof.
  induction n as [|n IH]; cbn [be_bytes be_value]; [by rewrite Z.mod_1_r|].
  rewrite length_be_bytes, IH, Nat2Z.inj_succ, Z.pow_succ_r by lia.
  rewrite (Z.mul_comm 256), Z.rem_mul_r by lia. lia.
Qed.

Lemma be_bytes_mod n v : be_bytes n (v mod 256 ^ Z.of_nat n) = be_bytes n v.
Proof.
  assert (forall m, (m <= n)%nat -> be_bytes m (v mod 256 ^ Z.of_nat n) = be_bytes m v) as H;
    [|by apply H].
  induction m as [|m IH]; intros Hm; cbn [be_bytes]; [done|].
  f_equal; [|apply IH; lia].
  replace (Z.of_nat n) with (Z.of_nat m + 1 + (Z.of_nat n - Z.of_nat m - 1)) by lia.
  rewrite !Z.pow_add_r by lia. rewrite <- Z.mul_assoc.
  set (k := 256 ^ (Z.of_nat n - Z.of_nat m - 1)).
  assert (0 < k) by (apply Z.pow_pos_nonneg; lia).
  rewrite Z.rem_mul_r by lia.
  rewrite Z.mul_comm, Z.div_add by lia.
  rewrite Z.div_small by (apply Z.mod_pos_bound; lia). rewrite Z.add_0_l.
  rewrite Z.pow_1_r, Z.rem_mul_r by lia.
  rewrite Z.mul_comm, Z.mod_add, Z.mod_mod by lia. done.
Qed.

Lemma be_value_range bs : Forall is_u8 bs -> 0 <= be_value bs < 256 ^ zlen bs.
Proof.
  induction 1 as [|b bs Hb _ IH]; cbn [be_value]; [done|].
  zsimpl. rewrite Z.pow_add_r by (try lia; apply zlen_nonneg).
  unfold is_u8, U8_MOD in Hb. rewrite Z.pow_1_r.
  set (P := 256 ^ zlen bs) in *. nia.
Qed.

Lemma be_bytes_be_value bs n :
  Forall is_u8 bs -> zlen bs = Z.of_nat n -> be_bytes n (be_value bs) = bs.
Proof.
  revert n. induction bs as [|b bs IH]; intros n Hbs Hn; zsimpl.
  - by replace n with 0%nat by lia.
  - pose proof (zlen_nonneg bs). destruct n as [|n]; [lia|]. cbn [be_bytes be_value].
    inversion Hbs as [|?? Hb Hbs']; subst. assert (zlen bs = Z.of_nat n) as Hl by lia.
    pose proof (be_value_range _ Hbs') as Hv. rewrite Hl in *.
    assert (0 < 256 ^ Z.of_nat n) by (apply Z.pow_pos_nonneg; lia).
    f_equal.
    + rewrite Z.add_comm, Z.div_add, Z.div_small, Z.add_0_l by lia. by apply u8_id.
    + rewrite <- (IH n Hbs' eq_refl) at 2.
      rewrite <- be_bytes_mod, Z.add_comm, Z.mod_add, be_bytes_mod by lia. done.
Qed.

(** ** Lemmas: the monad *)

Section Monad.
Context {S A B : Type}.

Lemma bind_ok (m : M S A) (k : A -> M S B) s a s' :
  m s = (Ok a, s') -> bind m k s = k a s'.
Proof. unfold bind. by intros ->. Qed.

Lemma bind_err (m : M S A) (k : A -> M S B) s s' :
  m s = (Err, s') -> bind m k s = (Err, s').
Proof. unfold bind. by intros ->. Qed.

Lemma bind_ok_inv (m : M S A) (k : A -> M S B) s b s' :
  bind m k s = (Ok b, s') -> exists a s1, m s = (Ok a, s1) /\ k a s1 = (Ok b, s').
Proof. unfold bind. destruct (m s) as [[a| |] s1]; intros; simplify_eq; eauto. Qed.

Lemma guard_ok (b : bool) (s s' : S) :
  guard b s = (Ok tt, s') -> b = true /\ s' = s.
Proof. destruct b; unfold guard, ret, fail; intros; simplify_eq; done. Qed.

End Monad.

(** Step through a successful run of a monadic computation in hypothesis [H]. *)
Ltac mrun H :=
  repeat match type of H with
  | bind _ _ _ = (Ok _, _) =>
      let a := fresh "a" in let s := fresh "s" in let E := fresh "E" in
      apply bind_ok_inv in H as (a & s & E & H)
  end.
