(* ===== verification/SafeMath.v ===== *)
(** Checked 64-bit arithmetic (include/internal/safe_math.h) and the saturating
    time type built on it (include/internal/time.h).

    The C macros generate one function per type; the sources modelled here only
    instantiate them at [uint64_t]. Each helper returns the value and whether it
    raised the error flag; [*err |= 1] is a disjunction of the flags. *)

From stdpp Require Import base list numbers.
From Stdlib Require Import ZArith Lia.
From S2P Require Import Prelude.

(** ** Definitions: the helpers as compiled with the overflow builtins *)

Definition safe_add (a b : Z) : Z * bool :=
  if a + b <? U64_MOD then (a + b, false) else (u64 (a + b), true).

Definition safe_sub (a b : Z) : Z * bool := (u64 (a - b), b >? a).

Definition safe_mul (a b : Z) : Z * bool :=
  if a * b <? U64_MOD then (a * b, false) else (u64 (a * b), true).

Definition safe_div (a b : Z) : Z * bool :=
  if negb (b =? 0) then (a / b, false) else (UINT64_MAX, true).

Definition safe_mod (a b : Z) : Z * bool :=
  if negb (b =? 0) then (a mod b, false) else (0, true).

Definition safe_neg (a : Z) : Z * bool :=
  if a =? 0 then (a, false) else (u64 (1 + Z.lxor UINT64_MAX a), true).

Definition safe_muldiv (a b c : Z) : Z * bool :=
  if c =? 0 then (if (a =? 0) || (b =? 0) then 0 else UINT64_MAX, true)
  else
    let (x, e2) := safe_mul a b in
    if negb e2 then (x / c, false)
    else
      let (a, b) := if b >? a then (b, a) else (a, b) in
      let (x, ex) := safe_mul (a mod c) b in
      let (y, ey) := safe_mul (a / c) b in
      let (r, er) := safe_add y (x / c) in
      (r, ex || ey || er).

Definition safe_div_round_up (a b : Z) : Z * bool :=
  if (b >? 0) && (a >? 0) then
    if a <? UINT64_MAX - b then (u64 (a + b - 1) / b, false)
    else (u64 (a / b + (if a mod b =? 0 then 0 else 1)), false)
  else if b =? 0 then (if a =? 0 then 0 else UINT64_MAX, true)
  else if a =? 0 then (0, false)
  else
    let (x, ex) := safe_mod a b in
    let (q, eq) := safe_div a b in
    let (r, er) := safe_add q (if x =? 0 then 0 else 1) in
    (r, ex || eq || er).

(** The portable versions, compiled when the overflow builtins are missing. *)
Definition safe_add_portable (a b : Z) : Z * bool :=
  (u64 (a + b), b >? u64 (UINT64_MAX - a)).

Definition safe_mul_portable (a b : Z) : Z * bool :=
  (u64 (a * b), negb (b =? 0) && (a >? UINT64_MAX / b)).

(** ** Definitions: OSSL_TIME, a tick count *)

Definition OSSL_TIME : Type := Z.

Definition OSSL_TIME_SECOND : Z := 1000000000.
Definition OSSL_TIME_MS : Z := OSSL_TIME_SECOND / 1000.
Definition OSSL_TIME_US : Z := OSSL_TIME_MS / 1000.

Definition ossl_ticks2time (ticks : Z) : OSSL_TIME := ticks.
Definition ossl_time2ticks (t : OSSL_TIME) : Z := t.
Definition ossl_ms2time (ms : Z) : OSSL_TIME := ossl_ticks2time (u64 (ms * OSSL_TIME_MS)).
Definition ossl_time_zero : OSSL_TIME := ossl_ticks2time 0.
Definition ossl_time_infinite : OSSL_TIME := ossl_ticks2time UINT64_MAX.

Definition ossl_time_compare (a b : OSSL_TIME) : Z :=
  if a >? b then 1 else if a <? b then -1 else 0.

Definition ossl_time_is_zero (t : OSSL_TIME) : bool :=
  ossl_time_compare t ossl_time_zero =? 0.

Definition ossl_time_is_infinite (t : OSSL_TIME) : bool :=
  ossl_time_compare t ossl_time_infinite =? 0.

Definition ossl_time_add (a b : OSSL_TIME) : OSSL_TIME :=
  let (r, err) := safe_add a b in if err : bool then ossl_time_infinite else r.

Definition ossl_time_subtract (a b : OSSL_TIME) : OSSL_TIME :=
  let (r, err) := safe_sub a b in if err : bool then ossl_time_zero else r.

Definition ossl_time_abs_difference (a b : OSSL_TIME) : OSSL_TIME :=
  if a >? b then ossl_time_subtract a b else ossl_time_subtract b a.

Definition ossl_time_multiply (a : OSSL_TIME) (b : Z) : OSSL_TIME :=
  let (r, err) := safe_mul a b in if err : bool then ossl_time_infinite else r.

Definition ossl_time_divide (a : OSSL_TIME) (b : Z) : OSSL_TIME :=
  let (r, err) := safe_div a b in if err : bool then ossl_time_zero else r.

Definition ossl_time_muldiv (a : OSSL_TIME) (b c : Z) : OSSL_TIME :=
  let (r, err) := safe_muldiv a b c in if err : bool then ossl_time_zero else r.

Definition ossl_time_max (a b : OSSL_TIME) : OSSL_TIME := if a >? b then a else b.
Definition ossl_time_min (a b : OSSL_TIME) : OSSL_TIME := if a <? b then a else b.

(** [struct timeval] conversion (tv_sec, tv_usec); [time_t] is 64 bits wide. *)
Definition ossl_time_to_timeval (t : OSSL_TIME) : Z * Z :=
  let (r, err) := safe_add t (OSSL_TIME_US - 1) in
  let t := if err : bool then ossl_time_infinite else r in
  (t / OSSL_TIME_SECOND, (t mod OSSL_TIME_SECOND) / OSSL_TIME_US).

Definition ossl_time_from_timeval (tv_sec tv_usec : Z) : OSSL_TIME :=
  if tv_sec <? 0 then ossl_time_zero
  else u64 (u64 (tv_sec * OSSL_TIME_SECOND) + u64 (tv_usec * OSSL_TIME_US)).

(** The conversion to [time_t] does not change a number of seconds, and back a negative
    one becomes an unsigned number first. *)
Definition ossl_time_to_time_t (t : OSSL_TIME) : Z := t / OSSL_TIME_SECOND.
Definition ossl_time_from_time_t (t : Z) : OSSL_TIME := u64 (u64 t * OSSL_TIME_SECOND).

(** ** Lemmas *)

Section Arith.

Lemma safe_add_spec a b :
  safe_add a b = (u64 (a + b), U64_MOD <=? a + b) \/ a + b < 0.
Proof.
  unfold safe_add. destruct (Z.ltb_spec (a + b) U64_MOD).
  - destruct (decide (a + b < 0)); [by right|left].
    rewrite u64_id by (unfold_widths; lia). f_equal. symmetry. lia.
  - left. f_equal. symmetry. lia.
Qed.

Lemma safe_mul_ok a b : a * b < U64_MOD -> safe_mul a b = (a * b, false).
Proof. intros. unfold safe_mul. by rewrite (proj2 (Z.ltb_lt _ _)). Qed.

Lemma safe_mul_false a b x : safe_mul a b = (x, false) -> x = a * b /\ a * b < U64_MOD.
Proof. unfold safe_mul. case_match; intros; simplify_eq. lia. Qed.

Lemma safe_add_false a b x : safe_add a b = (x, false) -> x = a + b /\ a + b < U64_MOD.
Proof. unfold safe_add. case_match; intros; simplify_eq. lia. Qed.

(** The remainder correction of [OSSL_SAFE_MATH_MULDIVU]. *)
Lemma muldiv_split a b c :
  0 < c -> a * b / c = (a / c) * b + (a mod c) * b / c.
Proof.
  intros. rewrite (Z.div_mod a c) at 1 by lia.
  replace ((c * (a / c) + a mod c) * b) with ((a mod c) * b + ((a / c) * b) * c) by ring.
  rewrite Z.div_add by lia. lia.
Qed.

Lemma safe_muldiv_false a b c x :
  is_u64 a -> is_u64 b -> is_u64 c ->
  safe_muldiv a b c = (x, false) -> c <> 0 /\ x = a * b / c /\ is_u64 x.
Proof.
  intros Ha Hb Hc. unfold safe_muldiv.
  destruct (Z.eqb_spec c 0); [intros; simplify_eq|].
  assert (0 < c) by ulia.
  destruct (safe_mul a b) as [p e2] eqn:E2. destruct e2; simpl.
  - clear E2.
    assert (forall a b, is_u64 a -> is_u64 b ->
      (let (x, ex) := safe_mul (a mod c) b in
       let (y, ey) := safe_mul (a / c) b in
       let (r, er) := safe_add y (x / c) in (r, ex || ey || er)) = (x, false) ->
      c <> 0 /\ x = a * b / c /\ is_u64 x) as K.
    { clear a b Ha Hb. intros a b Ha Hb.
      destruct (safe_mul (a mod c) b) as [x1 ex] eqn:Ex.
      destruct (safe_mul (a / c) b) as [y1 ey] eqn:Ey.
      destruct (safe_add y1 (x1 / c)) as [r er] eqn:Er.
      intros [= -> Herr]. apply orb_false_iff in Herr as [[-> ->]%orb_false_iff ->].
      apply safe_mul_false in Ex as [-> ?]. apply safe_mul_false in Ey as [-> ?].
      apply safe_add_false in Er as [-> Hr].
      split; [done|]. split; [by rewrite (muldiv_split a b c)|].
      rewrite <- muldiv_split in Hr |- * by done. split; [|done].
      apply Z.div_pos; [|done]. apply Z.mul_nonneg_nonneg; ulia. }
    destruct (Z.gtb_spec b a).
    + intros Hx. rewrite (Z.mul_comm a b). by apply K.
    + by apply K.
  - intros; simplify_eq. apply safe_mul_false in E2 as [-> ?].
    split; [done|]. split; [done|].
    assert (0 <= a * b) by (apply Z.mul_nonneg_nonneg; ulia).
    split; [by apply Z.div_pos|].
    apply Z.le_lt_trans with (a * b); [|done]. apply Z.div_le_upper_bound; nia.
Qed.

Lemma safe_muldiv_true a b c x :
  is_u64 a -> is_u64 b -> safe_muldiv a b c = (x, true) -> c = 0 \/ U64_MOD <= a * b.
Proof.
  intros Ha Hb. unfold safe_muldiv. destruct (Z.eqb_spec c 0); [by left|].
  destruct (safe_mul a b) as [p e2] eqn:E2. destruct e2; simpl; [|by intros; simplify_eq].
  intros _. right. unfold safe_mul in E2. case_match; simplify_eq. lia.
Qed.

Lemma ossl_time_add_sat a b :
  is_u64 a -> is_u64 b -> ossl_time_add a b = Z.min (a + b) UINT64_MAX.
Proof.
  intros. unfold ossl_time_add, safe_add, ossl_time_infinite, ossl_ticks2time.
  unfold_widths. case_match; simplify_eq; repeat case_match; simplify_eq; lia.
Qed.

Lemma ossl_time_subtract_sat a b :
  is_u64 a -> is_u64 b -> ossl_time_subtract a b = Z.max (a - b) 0.
Proof.
  intros. unfold ossl_time_subtract, safe_sub, ossl_time_zero, ossl_ticks2time.
  destruct (Z.gtb_spec b a); [lia|]. rewrite u64_id by (unfold_widths; lia). lia.
Qed.

Lemma ossl_time_multiply_sat a b :
  is_u64 a -> is_u64 b -> ossl_time_multiply a b = Z.min (a * b) UINT64_MAX.
Proof.
  intros. unfold ossl_time_multiply, safe_mul, ossl_time_infinite, ossl_ticks2time.
  unfold_widths. case_match; simplify_eq; repeat case_match; simplify_eq; lia.
Qed.

Lemma ossl_time_divide_spec a b : b <> 0 -> ossl_time_divide a b = a / b.
Proof. intros. unfold ossl_time_divide, safe_div. by destruct (Z.eqb_spec b 0). Qed.

(** A time is rounded down to seconds. *)
Lemma ossl_time_t_roundtrip (t : OSSL_TIME) : is_u64 t ->
  ossl_time_from_time_t (ossl_time_to_time_t t) = t - t mod OSSL_TIME_SECOND.
Proof.
  intros Ht. unfold ossl_time_from_time_t, ossl_time_to_time_t, is_u64, OSSL_TIME in *.
  assert (Hs : 0 < OSSL_TIME_SECOND) by reflexivity.
  pose proof (Z.div_mod t OSSL_TIME_SECOND ltac:(lia)). pose proof (Z.mod_pos_bound t OSSL_TIME_SECOND Hs).
  pose proof (Z.div_pos t OSSL_TIME_SECOND ltac:(lia) Hs).
  unfold OSSL_TIME_SECOND, U64_MOD in *. set (q := t / _) in *. set (r := t mod _) in *. rewrite (u64_id q) by lia. rewrite u64_id; lia.
Qed.

Lemma ossl_time_max_spec a b : ossl_time_max a b = Z.max a b.
Proof. unfold ossl_time_max. destruct (Z.gtb_spec a b); lia. Qed.

Lemma ossl_time_compare_le a b : (ossl_time_compare a b <=? 0) = (a <=? b).
Proof.
  unfold ossl_time_compare. destruct (Z.gtb_spec a b), (Z.ltb_spec a b); simpl;
    symmetry; lia.
Qed.

Lemma ossl_time_compare_lt a b : (ossl_time_compare a b <? 0) = (a <? b).
Proof.
  unfold ossl_time_compare. destruct (Z.gtb_spec a b), (Z.ltb_spec a b); simpl; lia.
Qed.

Lemma ossl_time_is_zero_spec t : ossl_time_is_zero t = (t =? 0).
Proof.
  unfold ossl_time_is_zero, ossl_time_compare, ossl_time_zero, ossl_ticks2time.
  destruct (Z.gtb_spec t 0), (Z.ltb_spec t 0); simpl; symmetry; lia.
Qed.

Lemma ossl_time_abs_difference_spec a b :
  is_u64 a -> is_u64 b -> ossl_time_abs_difference a b = Z.abs (a - b).
Proof.
  intros. unfold ossl_time_abs_difference.
  destruct (Z.gtb_spec a b); rewrite ossl_time_subtract_sat by done; lia.
Qed.

End Arith.

(** ** Properties *)

(** [safe_muldiv] computes the exact 64-bit value of floor(a*b/c) whenever it
    raises no error, although a*b need not fit 64 bits; and it raises an error
    only when c = 0 or the product overflows. *)
Theorem safe_muldiv_exact a b c :
  is_u64 a -> is_u64 b -> is_u64 c ->
  match safe_muldiv a b c with
  | (x, false) => c <> 0 /\ x = a * b / c /\ is_u64 x
  | (_, true) => c = 0 \/ U64_MOD <= a * b
  end.
Proof.
  intros. destruct (safe_muldiv a b c) as [x []] eqn:E.
  - by eapply safe_muldiv_true.
  - by apply safe_muldiv_false.
Qed.

Lemma safe_muldiv_exact_witness :
  match safe_muldiv (2 ^ 63) 6 4 with
  | (x, false) => 4 <> 0 /\ x = 2 ^ 63 * 6 / 4 /\ is_u64 x
  | (_, true) => 4 = 0 \/ U64_MOD <= 2 ^ 63 * 6
  end.
Proof. apply (safe_muldiv_exact (2 ^ 63) 6 4); ulia. Defined.

(** the helpers compiled with the compiler's overflow builtins and the
    portable ones give the same value and the same error flag on every pair of
    64-bit inputs. *)
Theorem safe_math_portable_equiv a b :
  is_u64 a -> is_u64 b ->
  safe_add a b = safe_add_portable a b /\ safe_mul a b = safe_mul_portable a b.
Proof.
  intros Ha Hb. split.
  - unfold safe_add, safe_add_portable.
    rewrite (u64_id (UINT64_MAX - a)) by ulia.
    destruct (Z.ltb_spec (a + b) U64_MOD); f_equal; try (symmetry; apply u64_id);
      unfold_widths; lia.
  - unfold safe_mul, safe_mul_portable.
    assert (0 <= a * b) by (apply Z.mul_nonneg_nonneg; ulia).
    assert ((negb (b =? 0) && (a >? UINT64_MAX / b)) = (U64_MOD <=? a * b)) as ->.
    { unfold_widths. destruct (Z.eqb_spec b 0) as [->|]; simpl; [lia|].
      destruct (Z.gtb_spec a (18446744073709551615 / b)) as [Hgt|Hle].
      - symmetry. apply Z.leb_le.
        assert (18446744073709551615 < a * b); [|lia].
        pose proof (Z.mul_succ_div_gt 18446744073709551615 b ltac:(lia)). nia.
      - symmetry. apply Z.leb_gt.
        pose proof (Z.mul_div_le 18446744073709551615 b ltac:(lia)). nia. }
    destruct (Z.ltb_spec (a * b) U64_MOD); f_equal; try (symmetry; apply u64_id);
      unfold_widths; lia.
Qed.

Lemma safe_math_portable_equiv_witness :
  safe_add UINT64_MAX 1 = safe_add_portable UINT64_MAX 1 /\
  safe_mul UINT64_MAX 1 = safe_mul_portable UINT64_MAX 1.
Proof. apply (safe_math_portable_equiv UINT64_MAX 1); ulia. Defined.

(** addition, subtraction and multiplication of times saturate at the ends of
    the 64-bit tick range and are exact inside it. *)
Theorem ossl_time_saturates a b :
  is_u64 a -> is_u64 b ->
  ossl_time_add a b = Z.min (a + b) UINT64_MAX /\
  ossl_time_subtract a b = Z.max (a - b) 0 /\
  ossl_time_multiply a b = Z.min (a * b) UINT64_MAX.
Proof.
  intros. auto using ossl_time_add_sat, ossl_time_subtract_sat, ossl_time_multiply_sat.
Qed.

Lemma ossl_time_saturates_witness :
  ossl_time_add UINT64_MAX 5 = Z.min (UINT64_MAX + 5) UINT64_MAX /\
  ossl_time_subtract UINT64_MAX 5 = Z.max (UINT64_MAX - 5) 0 /\
  ossl_time_multiply UINT64_MAX 5 = Z.min (UINT64_MAX * 5) UINT64_MAX.
Proof. apply (ossl_time_saturates UINT64_MAX 5); ulia. Defined.

(** [ossl_time_muldiv] does not saturate upwards: on a product that overflows
    even the split computation, the result is the zero time, not the infinite
    one. *)
Theorem ossl_time_muldiv_overflow_is_zero :
  ossl_time_muldiv UINT64_MAX UINT64_MAX 1 = ossl_time_zero /\
  UINT64_MAX < UINT64_MAX * UINT64_MAX / 1.
Proof. split; vm_compute; reflexivity. Qed.
