(* ===== verification/Vlint.v ===== *)
(** QUIC variable-length integers (crypto/quic_vlint.c and
    include/internal/quic_vlint.h): the two most significant bits of the first
    byte give the length of the encoding, the rest is the big-endian value. *)

From stdpp Require Import base list numbers.
From Stdlib Require Import ZArith Lia.
From S2P Require Import Prelude.

(** ** Definitions *)

Definition OSSL_QUIC_VLINT_2B_MIN : Z := 64.
Definition OSSL_QUIC_VLINT_4B_MIN : Z := 16384.
Definition OSSL_QUIC_VLINT_8B_MIN : Z := 1073741824.
Definition OSSL_QUIC_VLINT_8B_MAX : Z := Z.shiftl 1 62 - 1.
Definition OSSL_QUIC_VLINT_MAX : Z := OSSL_QUIC_VLINT_8B_MAX.

Definition ossl_quic_vlint_encode_len (v : Z) : Z :=
  if v <? OSSL_QUIC_VLINT_2B_MIN then 1
  else if v <? OSSL_QUIC_VLINT_4B_MIN then 2
  else if v <? OSSL_QUIC_VLINT_8B_MIN then 4
  else if v <=? OSSL_QUIC_VLINT_MAX then 8
  else 0.

(** The bytes that [ossl_quic_vlint_encode_n] stores from [buf] on. *)
Definition ossl_quic_vlint_encode_n (v n : Z) : list Z :=
  if n =? 1 then [u8 v]
  else if n =? 2 then
    [u8 (Z.lor 64 (Z.land (Z.shiftr v 8) 63)); u8 v]
  else if n =? 4 then
    [u8 (Z.lor 128 (Z.land (Z.shiftr v 24) 63));
     u8 (Z.shiftr v 16); u8 (Z.shiftr v 8); u8 v]
  else
    [u8 (Z.lor 192 (Z.land (Z.shiftr v 56) 63));
     u8 (Z.shiftr v 48); u8 (Z.shiftr v 40); u8 (Z.shiftr v 32);
     u8 (Z.shiftr v 24); u8 (Z.shiftr v 16); u8 (Z.shiftr v 8); u8 v].

Definition ossl_quic_vlint_encode (v : Z) : list Z :=
  ossl_quic_vlint_encode_n v (ossl_quic_vlint_encode_len v).

Definition ossl_quic_vlint_decode_len (first_byte : Z) : Z :=
  Z.shiftl 1 (Z.shiftr (Z.land first_byte 192) 6).

(** Undefined when [buf] ends before the encoding does. *)
Definition ossl_quic_vlint_decode_unchecked (buf : list Z) : res Z :=
  if zlen buf <? 1 then Ub else
  let first_byte := znth 0 buf in
  let sz := ossl_quic_vlint_decode_len first_byte in
  if zlen buf <? sz then Ub
  else if sz =? 1 then Ok (Z.land first_byte 63)
  else if sz =? 2 then
    Ok (Z.lor (Z.shiftl (Z.land first_byte 63) 8) (znth 1 buf))
  else if sz =? 4 then
    Ok (Z.lor (Z.lor (Z.lor (Z.shiftl (Z.land first_byte 63) 24)
                            (Z.shiftl (znth 1 buf) 16))
                     (Z.shiftl (znth 2 buf) 8))
              (znth 3 buf))
  else
    Ok (Z.lor (Z.lor (Z.lor (Z.lor (Z.lor (Z.lor (Z.lor
      (Z.shiftl (Z.land first_byte 63) 56)
      (Z.shiftl (znth 1 buf) 48))
      (Z.shiftl (znth 2 buf) 40))
      (Z.shiftl (znth 3 buf) 32))
      (Z.shiftl (znth 4 buf) 24))
      (Z.shiftl (znth 5 buf) 16))
      (Z.shiftl (znth 6 buf) 8))
      (znth 7 buf)).

(** [Ok (consumed, v)], or [Err] for the return value 0. *)
Definition ossl_quic_vlint_decode (buf : list Z) : res (Z * Z) :=
  if zlen buf <? 1 then Err
  else
    let dec_len := ossl_quic_vlint_decode_len (znth 0 buf) in
    if zlen buf <? dec_len then Err
    else match ossl_quic_vlint_decode_unchecked buf with
         | Ok x => Ok (dec_len, x)
         | Err => Err
         | Ub => Ub
         end.

(** ** Lemmas *)


(** The length class of an encoding: [n] bytes carry prefix [p] and 8n-2 value
    bits. *)
Inductive vlint_class : Z -> Z -> Z -> Prop :=
| class_1 : vlint_class 1 0 64
| class_2 : vlint_class 2 1 16384
| class_4 : vlint_class 4 2 1073741824
| class_8 : vlint_class 8 3 4611686018427387904.

Ltac bits_to_arith :=
  rewrite ?(land_ones_mod _ 6 63 eq_refl) by lia;
  rewrite ?Z.shiftr_div_pow2 by lia.

Lemma lor_prefix p x : 0 <= x < 64 -> Z.lor (64 * p) x = 64 * p + x.
Proof. intros. rewrite Z.mul_comm. by apply (lor_add_small p x 6). Qed.

(** Encoding in [n] bytes is the big-endian form of the value with the prefix in
    the two top bits. *)
Lemma encode_n_be n p lim v :
  vlint_class n p lim -> 0 <= v < lim ->
  ossl_quic_vlint_encode_n v n = be_bytes (Z.to_nat n) (p * lim + v).
Proof.
  intros Hc Hv. unfold ossl_quic_vlint_encode_n.
  destruct Hc; simpl; bits_to_arith;
    rewrite ?(lor_prefix 1), ?(lor_prefix 2), ?(lor_prefix 3)
      by (apply Z.mod_pos_bound; lia);
    repeat (f_equal; try (unfold u8, U8_MOD; Z.div_mod_to_equations; lia)).
Qed.

Lemma decode_len_div b : is_u8 b -> ossl_quic_vlint_decode_len b = 2 ^ (b / 64).
Proof.
  intros Hb. unfold ossl_quic_vlint_decode_len.
  rewrite Z.shiftl_mul_pow2, Z.mul_1_l by (apply Z.shiftr_nonneg, Z.land_nonneg; lia).
  f_equal. change 192 with (Z.shiftl 3 6).
  rewrite Z.shiftr_land, Z.shiftr_shiftl_l, Z.shiftl_0_r by lia.
  rewrite (land_ones_mod _ 2 3 eq_refl), Z.shiftr_div_pow2 by lia.
  apply Z.mod_small. ulia.
Qed.

Lemma lor_disjoint k x y m :
  0 <= k -> x = m * 2 ^ k -> 0 <= y < 2 ^ k -> Z.lor x y = x + y.
Proof. intros ? -> ?. by apply lor_add_small. Qed.

(** Rewrite the innermost [Z.lor], whose left operand is [m * 2 ^ k]. *)
Ltac lor_step k m :=
  match goal with
  | |- context [Z.lor ?x ?y] =>
      lazymatch x with
      | context [Z.lor _ _] => fail
      | _ => rewrite (lor_disjoint k x y m) by lia
      end
  end.

(** The tests of the length of an explicit list of bytes. *)
Ltac unchecked_len rest :=
  simpl; rewrite ?zlen_cons; pose proof (zlen_nonneg rest);
  repeat match goal with |- context [?x <? ?y] => replace (x <? y) with false by lia end.

Lemma decode_unchecked_1 b0 rest :
  is_u8 b0 -> b0 / 64 = 0 -> ossl_quic_vlint_decode_unchecked (b0 :: rest) = Ok b0.
Proof.
  intros H0 Hp. unfold ossl_quic_vlint_decode_unchecked. unchecked_len rest.
  rewrite decode_len_div, Hp by done. unchecked_len rest. f_equal. bits_to_arith. ulia.
Qed.

Lemma decode_unchecked_2 b0 b1 rest :
  is_u8 b0 -> is_u8 b1 -> b0 / 64 = 1 ->
  ossl_quic_vlint_decode_unchecked (b0 :: b1 :: rest) = Ok (be_value [b0; b1] - 16384).
Proof.
  intros H0 H1 Hp. unfold ossl_quic_vlint_decode_unchecked. unchecked_len rest.
  rewrite decode_len_div, Hp by done. unchecked_len rest. f_equal. bits_to_arith.
  rewrite lor_shiftl_add by ulia. zsimpl. ulia.
Qed.

Lemma decode_unchecked_4 b0 b1 b2 b3 rest :
  is_u8 b0 -> is_u8 b1 -> is_u8 b2 -> is_u8 b3 -> b0 / 64 = 2 ->
  ossl_quic_vlint_decode_unchecked (b0 :: b1 :: b2 :: b3 :: rest)
  = Ok (be_value [b0; b1; b2; b3] - 2 * 1073741824).
Proof.
  intros H0 H1 H2 H3 Hp. unfold ossl_quic_vlint_decode_unchecked. unchecked_len rest.
  rewrite decode_len_div, Hp by done. unchecked_len rest. f_equal. bits_to_arith.
  assert (b0 mod 2 ^ 6 = b0 - 128) as -> by ulia. clear Hp.
  rewrite !Z.shiftl_mul_pow2 by lia. unfold is_u8, U8_MOD in *.
  lor_step 24 (b0 - 128).
  lor_step 16 ((b0 - 128) * 256 + b1).
  lor_step 8 (((b0 - 128) * 256 + b1) * 256 + b2).
  zsimpl. lia.
Qed.

Lemma decode_unchecked_8 b0 b1 b2 b3 b4 b5 b6 b7 rest :
  is_u8 b0 -> is_u8 b1 -> is_u8 b2 -> is_u8 b3 ->
  is_u8 b4 -> is_u8 b5 -> is_u8 b6 -> is_u8 b7 -> b0 / 64 = 3 ->
  ossl_quic_vlint_decode_unchecked
    (b0 :: b1 :: b2 :: b3 :: b4 :: b5 :: b6 :: b7 :: rest)
  = Ok (be_value [b0; b1; b2; b3; b4; b5; b6; b7] - 3 * 4611686018427387904).
Proof.
  intros H0 H1 H2 H3 H4 H5 H6 H7 Hp. unfold ossl_quic_vlint_decode_unchecked. unchecked_len rest.
  rewrite decode_len_div, Hp by done. unchecked_len rest. f_equal. bits_to_arith.
  assert (b0 mod 2 ^ 6 = b0 - 192) as -> by ulia. clear Hp.
  rewrite !Z.shiftl_mul_pow2 by lia. unfold is_u8, U8_MOD in *.
  lor_step 56 (b0 - 192).
  lor_step 48 ((b0 - 192) * 256 + b1).
  lor_step 40 (((b0 - 192) * 256 + b1) * 256 + b2).
  lor_step 32 ((((b0 - 192) * 256 + b1) * 256 + b2) * 256 + b3).
  lor_step 24 (((((b0 - 192) * 256 + b1) * 256 + b2) * 256 + b3) * 256 + b4).
  lor_step 16 ((((((b0 - 192) * 256 + b1) * 256 + b2) * 256 + b3) * 256 + b4) * 256 + b5).
  lor_step 8 (((((((b0 - 192) * 256 + b1) * 256 + b2) * 256 + b3) * 256 + b4) * 256 + b5) * 256 + b6).
  zsimpl. lia.
Qed.

Lemma zlen_split {A} (l : list A) n :
  zlen l = 1 + n -> 0 <= n -> exists x l', l = x :: l' /\ zlen l' = n.
Proof. destruct l as [|x l']; zsimpl; [lia|]. intros. exists x, l'. split; [done|lia]. Qed.

Lemma decode_be n p lim buf rest :
  vlint_class n p lim -> zlen buf = n -> Forall is_u8 buf -> znth 0 buf / 64 = p ->
  ossl_quic_vlint_decode (buf ++ rest) = Ok (n, be_value buf - p * lim).
Proof.
  intros Hc Hlen Hb Hp.
  assert (0 < n) by (destruct Hc; lia).
  pose proof (zlen_nonneg rest).
  assert (is_u8 (znth 0 buf)) by (destruct Hb; [zsimpl; lia|done]).
  unfold ossl_quic_vlint_decode.
  rewrite znth_app_l, decode_len_div, Hp by (done || lia).
  assert (2 ^ p = n) as -> by (by destruct Hc). zsimpl.
  replace (zlen buf + zlen rest <? 1) with false by lia.
  replace (zlen buf + zlen rest <? n) with false by lia.
  destruct Hc.
  - apply (zlen_split _ 0) in Hlen as (b0 & l & -> & Hl); [|lia].
    apply zlen_zero_nil in Hl as ->. decompose_Forall_hyps.
    simpl. rewrite decode_unchecked_1 by done. do 2 f_equal. zsimpl. lia.
  - apply (zlen_split _ 1) in Hlen as (b0 & l & -> & Hl); [|lia].
    apply (zlen_split _ 0) in Hl as (b1 & l' & -> & Hl); [|lia].
    apply zlen_zero_nil in Hl as ->. decompose_Forall_hyps.
    simpl app. by rewrite decode_unchecked_2.
  - apply (zlen_split _ 3) in Hlen as (b0 & l & -> & Hl); [|lia].
    apply (zlen_split _ 2) in Hl as (b1 & l1 & -> & Hl); [|lia].
    apply (zlen_split _ 1) in Hl as (b2 & l2 & -> & Hl); [|lia].
    apply (zlen_split _ 0) in Hl as (b3 & l3 & -> & Hl); [|lia].
    apply zlen_zero_nil in Hl as ->. decompose_Forall_hyps.
    simpl app. by rewrite decode_unchecked_4.
  - apply (zlen_split _ 7) in Hlen as (b0 & l & -> & Hl); [|lia].
    apply (zlen_split _ 6) in Hl as (b1 & l1 & -> & Hl); [|lia].
    apply (zlen_split _ 5) in Hl as (b2 & l2 & -> & Hl); [|lia].
    apply (zlen_split _ 4) in Hl as (b3 & l3 & -> & Hl); [|lia].
    apply (zlen_split _ 3) in Hl as (b4 & l4 & -> & Hl); [|lia].
    apply (zlen_split _ 2) in Hl as (b5 & l5 & -> & Hl); [|lia].
    apply (zlen_split _ 1) in Hl as (b6 & l6 & -> & Hl); [|lia].
    apply (zlen_split _ 0) in Hl as (b7 & l7 & -> & Hl); [|lia].
    apply zlen_zero_nil in Hl as ->. decompose_Forall_hyps.
    simpl app. by rewrite decode_unchecked_8.
Qed.

Lemma class_pos n p lim : vlint_class n p lim -> 0 < n /\ 0 <= p <= 3 /\ 64 <= lim.
Proof. destruct 1; lia. Qed.

Lemma class_pow n p lim : vlint_class n p lim -> 4 * lim = 256 ^ n.
Proof. by destruct 1. Qed.

Lemma class_first_byte n p lim v :
  vlint_class n p lim -> 0 <= v < lim ->
  znth 0 (be_bytes (Z.to_nat n) (p * lim + v)) / 64 = p.
Proof. destruct 1; simpl; intros; Z.div_mod_to_equations; lia. Qed.

Lemma encode_n_length n p lim v :
  vlint_class n p lim -> zlen (ossl_quic_vlint_encode_n v n) = n.
Proof. by destruct 1. Qed.

Lemma encode_n_bytes v n : Forall is_u8 (ossl_quic_vlint_encode_n v n).
Proof.
  unfold ossl_quic_vlint_encode_n. repeat case_match; repeat constructor; apply u8_range.
Qed.

Lemma decode_encode_n n p lim v rest :
  vlint_class n p lim -> 0 <= v < lim ->
  ossl_quic_vlint_decode (ossl_quic_vlint_encode_n v n ++ rest) = Ok (n, v).
Proof.
  intros Hc Hv. pose proof (class_pos _ _ _ Hc). pose proof (class_pow _ _ _ Hc) as Hpow.
  rewrite (encode_n_be n p lim v) by done. rewrite (decode_be n p lim); [|done| | |].
  - rewrite be_value_be_bytes, Z2Nat.id, <- Hpow by lia.
    rewrite Z.mod_small by nia. do 2 f_equal. lia.
  - rewrite length_be_bytes. lia.
  - apply be_bytes_range.
  - by apply class_first_byte.
Qed.

(** The smallest length class that holds [v]. *)
Lemma encode_len_class v :
  0 <= v <= OSSL_QUIC_VLINT_MAX ->
  exists p lim, vlint_class (ossl_quic_vlint_encode_len v) p lim /\ 0 <= v < lim.
Proof.
  unfold ossl_quic_vlint_encode_len, OSSL_QUIC_VLINT_2B_MIN, OSSL_QUIC_VLINT_4B_MIN,
    OSSL_QUIC_VLINT_8B_MIN. change OSSL_QUIC_VLINT_MAX with 4611686018427387903.
  intros Hv. repeat case_match; first
    [ eexists _, _; split; [apply class_1|lia]
    | eexists _, _; split; [apply class_2|lia]
    | eexists _, _; split; [apply class_4|lia]
    | eexists _, _; split; [apply class_8|lia]
    | lia ].
Qed.

Lemma encode_len_minimal v n p lim :
  0 <= v -> vlint_class n p lim -> v < lim -> ossl_quic_vlint_encode_len v <= n.
Proof.
  unfold ossl_quic_vlint_encode_len, OSSL_QUIC_VLINT_2B_MIN, OSSL_QUIC_VLINT_4B_MIN,
    OSSL_QUIC_VLINT_8B_MIN. change OSSL_QUIC_VLINT_MAX with 4611686018427387903.
  destruct 2; intros; repeat case_match; lia.
Qed.

Lemma encode_len_zero v : 0 <= v -> ossl_quic_vlint_encode_len v = 0 <-> OSSL_QUIC_VLINT_MAX < v.
Proof.
  unfold ossl_quic_vlint_encode_len, OSSL_QUIC_VLINT_2B_MIN, OSSL_QUIC_VLINT_4B_MIN,
    OSSL_QUIC_VLINT_8B_MIN. change OSSL_QUIC_VLINT_MAX with 4611686018427387903.
  intros. repeat case_match; lia.
Qed.

Lemma encode_len_bounds v :
  0 <= v <= OSSL_QUIC_VLINT_MAX -> 1 <= ossl_quic_vlint_encode_len v <= 8.
Proof.
  intros Hv. destruct (encode_len_class v Hv) as (p & lim & Hc & _). destruct Hc; lia.
Qed.

Lemma zlen_encode v :
  0 <= v <= OSSL_QUIC_VLINT_MAX ->
  zlen (ossl_quic_vlint_encode v) = ossl_quic_vlint_encode_len v.
Proof.
  intros Hv. destruct (encode_len_class v Hv) as (p & lim & Hc & _).
  by eapply encode_n_length.
Qed.

Lemma decode_encode v rest :
  0 <= v <= OSSL_QUIC_VLINT_MAX ->
  ossl_quic_vlint_decode (ossl_quic_vlint_encode v ++ rest)
  = Ok (ossl_quic_vlint_encode_len v, v).
Proof.
  intros Hv. destruct (encode_len_class v Hv) as (p & lim & Hc & Hl).
  by eapply decode_encode_n.
Qed.

Lemma decode_len_class b :
  is_u8 b -> exists lim, vlint_class (ossl_quic_vlint_decode_len b) (b / 64) lim.
Proof.
  intros Hb. rewrite decode_len_div by done.
  assert (b / 64 = 0 \/ b / 64 = 1 \/ b / 64 = 2 \/ b / 64 = 3) as [-> | [-> | [-> | -> ] ] ]
    by ulia; eexists; constructor.
Qed.

(** Every accepted encoding is the encoding of its value in as many bytes. *)
Lemma decode_inv buf n v :
  Forall is_u8 buf -> ossl_quic_vlint_decode buf = Ok (n, v) ->
  exists p lim, vlint_class n p lim /\ 0 <= v < lim /\ n <= zlen buf /\
    buf = ossl_quic_vlint_encode_n v n ++ zdrop n buf.
Proof.
  intros Hb. unfold ossl_quic_vlint_decode at 1.
  destruct (Z.ltb_spec (zlen buf) 1); [done|].
  assert (is_u8 (znth 0 buf)) as H0 by (destruct Hb; [zsimpl; lia|done]).
  destruct (decode_len_class _ H0) as [lim Hc].
  destruct (Z.ltb_spec (zlen buf) (ossl_quic_vlint_decode_len (znth 0 buf))); [done|].
  destruct (ossl_quic_vlint_decode_unchecked buf) as [u| |] eqn:Eu; try done.
  intros [= Hn Hv]. rewrite Hn in Hc, H1.
  set (p := znth 0 buf / 64) in *. pose proof (class_pos _ _ _ Hc) as (? & ? & ?).
  assert (Forall is_u8 (ztake n buf)) as Htb by (rewrite ztake_take; by apply Forall_take).
  assert (zlen (ztake n buf) = n) as Htl by (apply zlen_ztake; lia).
  assert (znth 0 (ztake n buf) / 64 = p) as Htp by (by rewrite znth_ztake by lia).
  pose proof (decode_be n p lim (ztake n buf) (zdrop n buf) Hc Htl Htb Htp) as Hd.
  rewrite ztake_zdrop in Hd. unfold ossl_quic_vlint_decode in Hd. rewrite Eu, Hn, Hv in Hd.
  replace (zlen buf <? 1) with false in Hd by lia.
  replace (zlen buf <? n) with false in Hd by lia. injection Hd as ->.
  pose proof (be_value_range _ Htb) as Hr. rewrite Htl, <- (class_pow _ _ _ Hc) in Hr.
  assert (be_value (ztake n buf) / lim = p) as Hdiv.
  { (* the prefix bits are the top of the value *)
    assert (exists t, ztake n buf = znth 0 buf :: t /\ zlen t = n - 1 /\ Forall is_u8 t)
      as (t & Ht & Hlt & Hft).
    { destruct Hb as [|x l Hx Hl]; [zsimpl; lia|]. cbn [ztake znth].
      replace (n <=? 0) with false by lia. exists (ztake (n - 1) l).
      split; [done|]. zsimpl. split; [apply zlen_ztake; lia|].
      rewrite ztake_take. by apply Forall_take. }
    rewrite Ht. cbn [be_value]. rewrite Hlt. pose proof (be_value_range _ Hft) as Hrt.
    rewrite Hlt in Hrt. subst p. clear - Hn Hc H0 Hrt.
    set (b := znth 0 buf) in *. clearbody b. unfold is_u8, U8_MOD in H0.
    remember (b / 64) as p eqn:Hp. clear Hn.
    destruct Hc; simpl in *; Z.div_mod_to_equations; lia. }
  exists p, lim. split; [done|].
  assert (p * lim <= be_value (ztake n buf) < p * lim + lim) as Hpl.
  { rewrite <- Hdiv. Z.div_mod_to_equations. nia. }
  split; [lia|]. split; [lia|].
  rewrite (encode_n_be n p lim) by (done || lia).
  replace (p * lim + (be_value (ztake n buf) - p * lim)) with (be_value (ztake n buf)) by lia.
  rewrite be_bytes_be_value by (done || lia). by rewrite ztake_zdrop.
Qed.

(** ** Properties *)

(** encoding a value of at most 62 bits takes [ossl_quic_vlint_encode_len]
    bytes, decoding gives the value and that length back whatever follows in the
    buffer, and no shorter length class can hold the value. *)
Theorem vlint_roundtrip v rest :
  0 <= v <= OSSL_QUIC_VLINT_MAX ->
  ossl_quic_vlint_decode (ossl_quic_vlint_encode v ++ rest)
    = Ok (ossl_quic_vlint_encode_len v, v) /\
  zlen (ossl_quic_vlint_encode v) = ossl_quic_vlint_encode_len v /\
  (forall n p lim, vlint_class n p lim -> v < lim -> ossl_quic_vlint_encode_len v <= n).
Proof.
  intros Hv. split; [by apply decode_encode|]. split; [by apply zlen_encode|].
  intros. eapply encode_len_minimal; eauto. lia.
Qed.

Lemma vlint_roundtrip_witness :
  ossl_quic_vlint_decode (ossl_quic_vlint_encode 16384 ++ [7]) = Ok (4, 16384).
Proof. apply (vlint_roundtrip 16384 [7]). vm_compute. split; discriminate. Defined.

(** whatever [ossl_quic_vlint_decode] accepts is the [n]-byte encoding of the
    value it returns: the value fits the length class, the length does not exceed
    the buffer, and re-encoding reproduces the consumed bytes. *)
Theorem vlint_decode_canonical buf n v :
  Forall is_u8 buf -> ossl_quic_vlint_decode buf = Ok (n, v) ->
  0 <= v <= OSSL_QUIC_VLINT_MAX /\ ossl_quic_vlint_encode_len v <= n <= zlen buf /\
  buf = ossl_quic_vlint_encode_n v n ++ zdrop n buf.
Proof.
  intros Hb Hd. destruct (decode_inv _ _ _ Hb Hd) as (p & lim & Hc & Hv & Hn & Heq).
  split; [|split; [split; [eapply encode_len_minimal; eauto; lia|done]|done]].
  change OSSL_QUIC_VLINT_MAX with 4611686018427387903. destruct Hc; lia.
Qed.

Lemma vlint_decode_canonical_witness :
  [64; 5; 9] = ossl_quic_vlint_encode_n 5 2 ++ zdrop 2 [64; 5; 9].
Proof.
  apply (vlint_decode_canonical [64; 5; 9] 2 5); [|reflexivity].
  repeat constructor; vm_compute; intros; discriminate.
Defined.
