(* ===== verification/Packet.v ===== *)
(** Reading packets: PACKET (include/internal/packet.h) and its QUIC additions
    (include/internal/packet_quic.h).

    A PACKET is a pointer into a buffer and the number of bytes that remain; the
    model is the list of the remaining bytes. A reader that moves the position is
    a computation over that list; when it fails, the final list is what the C code
    leaves in [*pkt].

    The bytes past the packet belong to someone else, if they exist at all: to read
    one, to move past the end, or to hand out a pointer to more bytes than remain is
    undefined, whatever the caller has checked. *)

From stdpp Require Import base list numbers.
From Stdlib Require Import ZArith Lia.
From S2P Require Import Prelude Vlint.

#[local] Open Scope cfun_scope.

(** ** Definitions *)

Definition PACKET : Type := list Z.

(** [pkt->curr[i]]. *)
Definition byte_at (i : Z) : M PACKET Z :=
  let! pkt := get in
  if zlen pkt <=? i then undef else ret (znth i pkt).

(** The [len] bytes at [pkt->curr]. *)
Definition bytes_at (len : Z) : M PACKET (list Z) :=
  let! pkt := get in
  if zlen pkt <? len then undef else ret (ztake len pkt).

Definition packet_forward (len : Z) : M PACKET unit :=
  let! pkt := get in
  if zlen pkt <? len then undef else put (zdrop len pkt).

Definition PACKET_remaining (pkt : PACKET) : Z := zlen pkt.

(** [PACKET_data] and the bytes up to [PACKET_end]: what remains to be read. *)
Definition PACKET_data (pkt : PACKET) : list Z := pkt.

(** [buf] is what may be read from the pointer on. *)
Definition PACKET_buf_init (buf : list Z) (len : Z) : res PACKET :=
  if len >? SIZE_MAX / 2 then Err
  else if zlen buf <? len then Ub
  else Ok (ztake len buf).

Definition PACKET_null_init : PACKET := [].

(** crypto/cpuid.c: the accumulated differences of the bytes of [a] and [b]. *)
Fixpoint CRYPTO_memcmp_loop (a b : list Z) (n : nat) (x : Z) : Z :=
  match n with
  | O => x
  | S n' => CRYPTO_memcmp_loop (zdrop 1 a) (zdrop 1 b) n'
              (Z.lor x (Z.lxor (znth 0 a) (znth 0 b)))
  end.

Definition CRYPTO_memcmp (a b : list Z) (len : Z) : Z :=
  CRYPTO_memcmp_loop a b (Z.to_nat len) 0.

Definition PACKET_equal (pkt : PACKET) (ptr : list Z) (num : Z) : bool :=
  if negb (PACKET_remaining pkt =? num) then false
  else CRYPTO_memcmp pkt ptr num =? 0.

Definition PACKET_peek_sub_packet (len : Z) : M PACKET PACKET :=
  let! pkt := get in
  if PACKET_remaining pkt <? len then fail
  else fun s => (PACKET_buf_init pkt len, s).

Definition PACKET_get_sub_packet (len : Z) : M PACKET PACKET :=
  let! subpkt := PACKET_peek_sub_packet len in
  packet_forward len ;;; ret subpkt.

Definition PACKET_peek_net_2 : M PACKET Z :=
  let! pkt := get in
  if PACKET_remaining pkt <? 2 then fail
  else let! b0 := byte_at 0 in
       let! b1 := byte_at 1 in
       ret (Z.lor (Z.shiftl b0 8) b1).

Definition PACKET_get_net_2 : M PACKET Z :=
  let! data := PACKET_peek_net_2 in packet_forward 2 ;;; ret data.

Definition PACKET_get_net_2_len : M PACKET Z := PACKET_get_net_2.

Definition PACKET_peek_net_3 : M PACKET Z :=
  let! pkt := get in
  if PACKET_remaining pkt <? 3 then fail
  else let! b0 := byte_at 0 in
       let! b1 := byte_at 1 in
       let! b2 := byte_at 2 in
       ret (Z.lor (Z.lor (Z.shiftl b0 16) (Z.shiftl b1 8)) b2).

Definition PACKET_get_net_3 : M PACKET Z :=
  let! data := PACKET_peek_net_3 in packet_forward 3 ;;; ret data.

Definition PACKET_get_net_3_len : M PACKET Z := PACKET_get_net_3.

Definition PACKET_peek_net_4 : M PACKET Z :=
  let! pkt := get in
  if PACKET_remaining pkt <? 4 then fail
  else let! b0 := byte_at 0 in
       let! b1 := byte_at 1 in
       let! b2 := byte_at 2 in
       let! b3 := byte_at 3 in
       ret (Z.lor (Z.lor (Z.lor (Z.shiftl b0 24) (Z.shiftl b1 16)) (Z.shiftl b2 8)) b3).

Definition PACKET_peek_net_8 : M PACKET Z :=
  let! pkt := get in
  if PACKET_remaining pkt <? 8 then fail
  else let! b0 := byte_at 0 in
       let! b1 := byte_at 1 in
       let! b2 := byte_at 2 in
       let! b3 := byte_at 3 in
       let! b4 := byte_at 4 in
       let! b5 := byte_at 5 in
       let! b6 := byte_at 6 in
       let! b7 := byte_at 7 in
       ret (Z.lor (Z.lor (Z.lor (Z.lor (Z.lor (Z.lor (Z.lor
         (Z.shiftl b0 56) (Z.shiftl b1 48)) (Z.shiftl b2 40)) (Z.shiftl b3 32))
         (Z.shiftl b4 24)) (Z.shiftl b5 16)) (Z.shiftl b6 8)) b7).

Definition PACKET_get_net_4 : M PACKET Z :=
  let! data := PACKET_peek_net_4 in packet_forward 4 ;;; ret data.

Definition PACKET_get_net_4_len : M PACKET Z := PACKET_get_net_4.

Definition PACKET_get_net_4_len_u32 : M PACKET Z :=
  let! i := PACKET_get_net_4_len in ret (u32 i).

Definition PACKET_get_net_8 : M PACKET Z :=
  let! data := PACKET_peek_net_8 in packet_forward 8 ;;; ret data.

Definition PACKET_peek_1 : M PACKET Z :=
  let! pkt := get in
  if PACKET_remaining pkt =? 0 then fail else byte_at 0.

Definition PACKET_get_1 : M PACKET Z :=
  let! data := PACKET_peek_1 in packet_forward 1 ;;; ret data.

Definition PACKET_get_1_len : M PACKET Z := PACKET_get_1.

(** Reverse network order. *)
Definition PACKET_peek_4 : M PACKET Z :=
  let! pkt := get in
  if PACKET_remaining pkt <? 4 then fail
  else let! b0 := byte_at 0 in
       let! b1 := byte_at 1 in
       let! b2 := byte_at 2 in
       let! b3 := byte_at 3 in
       ret (Z.lor (Z.lor (Z.lor b0 (Z.shiftl b1 8)) (Z.shiftl b2 16)) (Z.shiftl b3 24)).

Definition PACKET_get_4 : M PACKET Z :=
  let! data := PACKET_peek_4 in packet_forward 4 ;;; ret data.

(** The pointer handed out is modelled by the [len] bytes it may be read for. *)
Definition PACKET_peek_bytes (len : Z) : M PACKET (list Z) :=
  let! pkt := get in
  if PACKET_remaining pkt <? len then fail else bytes_at len.

Definition PACKET_get_bytes (len : Z) : M PACKET (list Z) :=
  let! data := PACKET_peek_bytes len in packet_forward len ;;; ret data.

Definition PACKET_peek_copy_bytes (len : Z) : M PACKET (list Z) :=
  let! pkt := get in
  if PACKET_remaining pkt <? len then fail else bytes_at len.

Definition PACKET_copy_bytes (len : Z) : M PACKET (list Z) :=
  let! data := PACKET_peek_copy_bytes len in packet_forward len ;;; ret data.

(** (return value, the copied bytes; their number is [*len]). *)
Definition PACKET_copy_all (pkt : PACKET) (dest_len : Z) : bool * list Z :=
  if PACKET_remaining pkt >? dest_len then (false, []) else (true, pkt).

(** (return value, [*data] ([None] for NULL)); [*len] is the length of the data. *)
Definition PACKET_memdup (pkt : PACKET) (o : oracle) : bool * option (list Z) * oracle :=
  if PACKET_remaining pkt =? 0 then (true, None, o)
  else let (ok, o') := alloc o in
       if ok : bool then (true, Some pkt, o') else (false, None, o').

Definition PACKET_contains_zero_byte (pkt : PACKET) : bool :=
  existsb (fun b => b =? 0) pkt.

Definition PACKET_forward (len : Z) : M PACKET unit :=
  let! pkt := get in
  if PACKET_remaining pkt <? len then fail else packet_forward len.

(** [PACKET tmp = *pkt; ...; *pkt = tmp]: the position moves only on success. *)
Definition on_copy {A} (m : M PACKET A) : M PACKET A :=
  let! pkt := get in
  let! '(a, tmp) := local_run m pkt in
  put tmp ;;; ret a.

Definition PACKET_get_length_prefixed_1 : M PACKET PACKET :=
  on_copy (let! length := PACKET_get_1 in PACKET_get_bytes length).

Definition PACKET_as_length_prefixed_1 : M PACKET PACKET :=
  on_copy (let! length := PACKET_get_1 in
           let! data := PACKET_get_bytes length in
           let! tmp := get in
           guard (PACKET_remaining tmp =? 0) ;;; ret data).

Definition PACKET_get_length_prefixed_2 : M PACKET PACKET :=
  on_copy (let! length := PACKET_get_net_2 in PACKET_get_bytes length).

Definition PACKET_as_length_prefixed_2 : M PACKET PACKET :=
  on_copy (let! length := PACKET_get_net_2 in
           let! data := PACKET_get_bytes length in
           let! tmp := get in
           guard (PACKET_remaining tmp =? 0) ;;; ret data).

Definition PACKET_get_length_prefixed_3 : M PACKET PACKET :=
  on_copy (let! length := PACKET_get_net_3 in PACKET_get_bytes length).

(** ** Definitions: packet_quic.h *)

(** [ossl_quic_vlint_decode_unchecked(pkt->curr)]. *)
Definition vlint_at : M PACKET Z := fun pkt => (ossl_quic_vlint_decode_unchecked pkt, pkt).

Definition PACKET_get_quic_vlint : M PACKET Z :=
  let! pkt := get in
  if PACKET_remaining pkt <? 1 then fail
  else
    let! b0 := byte_at 0 in
    let enclen := ossl_quic_vlint_decode_len b0 in
    if PACKET_remaining pkt <? enclen then fail
    else
      let! data := vlint_at in
      packet_forward enclen ;;; ret data.

(** The value and [was_minimal]. *)
Definition PACKET_peek_quic_vlint_ex : M PACKET (Z * bool) :=
  let! pkt := get in
  if PACKET_remaining pkt <? 1 then fail
  else
    let! b0 := byte_at 0 in
    let enclen := ossl_quic_vlint_decode_len b0 in
    if PACKET_remaining pkt <? enclen then fail
    else
      let! data := vlint_at in
      ret (data, enclen =? ossl_quic_vlint_encode_len data).

Definition PACKET_peek_quic_vlint : M PACKET Z :=
  let! r := PACKET_peek_quic_vlint_ex in ret (fst r).

Definition PACKET_skip_quic_vlint : M PACKET unit :=
  let! pkt := get in
  if PACKET_remaining pkt <? 1 then fail
  else
    let! b0 := byte_at 0 in
    let enclen := ossl_quic_vlint_decode_len b0 in
    if PACKET_remaining pkt <? enclen then fail
    else packet_forward enclen.

Definition PACKET_get_quic_length_prefixed : M PACKET PACKET :=
  on_copy (let! length := PACKET_get_quic_vlint in
           guard (negb (length >? SIZE_MAX)) ;;;
           PACKET_get_bytes length).

(** ** Specifications of readers *)

(** [m] reads [bs] from the front of the packet and returns [a], leaving
    exactly what follows. *)
Definition parses {A} (m : M PACKET A) (bs : list Z) (a : A) : Prop :=
  forall rest, m (bs ++ rest) = (Ok a, rest).

(** A reader is memory safe: whatever its outcome, the packet it leaves is a
    suffix of the packet it was given, and it reads nothing outside it. *)
Class Reader {A} (m : M PACKET A) : Prop :=
  reader_suffix : forall p r p', m p = (r, p') -> r <> Ub /\ exists pre, p = pre ++ p'.

(** ** Lemmas *)

#[global] Instance reader_ret {A} (a : A) : Reader (ret a).
Proof. intros p r p' [= <- <-]. split; [done|]. by exists []. Qed.

#[global] Instance reader_fail {A} : Reader (@fail PACKET A).
Proof. intros p r p' [= <- <-]. split; [done|]. by exists []. Qed.

#[global] Instance reader_get : Reader (@get PACKET).
Proof. intros p r p' [= <- <-]. split; [done|]. by exists []. Qed.

#[global] Instance reader_bind {A B} (m : M PACKET A) (k : A -> M PACKET B) :
  Reader m -> (forall a, Reader (k a)) -> Reader (bind m k).
Proof.
  intros Hm Hk p r p'. unfold bind.
  destruct (m p) as [[a| |] p1] eqn:E; apply Hm in E as [? [pre ->]].
  - intros E'. apply Hk in E' as [? [pre' ->]]. split; [done|].
    exists (pre ++ pre'). by rewrite (assoc_L (++)).
  - intros [= <- <-]. split; [done|]. by exists pre.
  - done.
Qed.

#[global] Instance reader_guard b : Reader (@guard PACKET b).
Proof. destruct b; simpl; apply _. Qed.

#[global] Instance reader_if {A} (b : bool) (m m' : M PACKET A) :
  Reader m -> Reader m' -> Reader (if b then m else m').
Proof. by destruct b. Qed.

#[global] Instance reader_on_copy {A} (m : M PACKET A) : Reader m -> Reader (on_copy m).
Proof.
  intros Hm p r p'. unfold on_copy, bind, get, local_run, put, ret.
  destruct (m p) as [[a| |] p1] eqn:E; apply Hm in E as [? [pre E]];
    intros [= <- <-]; (split; [done|]); eauto; by exists [].
Qed.

Lemma parses_ret {A} (a : A) : parses (ret a) [] a.
Proof. intros rest. done. Qed.

Lemma parses_bind {A B} (m : M PACKET A) (k : A -> M PACKET B) bs cs a b :
  parses m bs a -> parses (k a) cs b -> parses (bind m k) (bs ++ cs) b.
Proof. intros Hm Hk rest. rewrite <- (assoc_L (++)), (bind_ok _ _ _ _ _ (Hm _)). apply Hk. Qed.

Lemma parses_bind_nil {A B} (m : M PACKET A) (k : A -> M PACKET B) bs a b :
  parses m bs a -> parses (k a) [] b -> parses (bind m k) bs b.
Proof. intros Hm Hk. rewrite <- (app_nil_r bs). by eapply parses_bind. Qed.

Lemma parses_guard b : b = true -> parses (guard b) [] tt.
Proof. intros -> rest. done. Qed.

Lemma parses_on_copy {A} (m : M PACKET A) bs a : parses m bs a -> parses (on_copy m) bs a.
Proof.
  intros Hm rest. unfold on_copy, bind, get, local_run, put, ret. by rewrite Hm.
Qed.

(** A computation on a copy leaves the packet alone when it fails. *)
Lemma on_copy_err {A} (m : M PACKET A) p p' : m p = (Err, p') -> on_copy m p = (Err, p).
Proof. intros E. unfold on_copy, bind, get, local_run. by rewrite E. Qed.

Lemma on_copy_ok {A} (m : M PACKET A) p a p' : m p = (Ok a, p') -> on_copy m p = (Ok a, p').
Proof. intros E. unfold on_copy, bind, get, local_run, put, ret. by rewrite E. Qed.

#[global] Instance reader_match_pair {A B C} (x : A * B) (f : A -> B -> M PACKET C) :
  (forall a b, Reader (f a b)) -> Reader (let (a, b) := x in f a b).
Proof. by destruct x. Qed.

#[global] Instance reader_match_option {A C} (x : option A) (f : A -> M PACKET C) (m : M PACKET C) :
  (forall a, Reader (f a)) -> Reader m ->
  Reader (match x with Some a => f a | None => m end).
Proof. by destruct x. Qed.

Ltac solve_reader := repeat intro; simpl; apply _.

(** Case analysis on the tests of a program; [lia] refutes the cases in which a read
    out of range follows a check that excludes it. *)
Ltac decide_tests :=
  cbv beta iota zeta;
  repeat match goal with
  | |- context [if ?b then _ else _] =>
      lazymatch b with
      | context [if _ then _ else _] => fail
      | _ => destruct b eqn:?; cbv beta iota; try (exfalso; lia)
      end
  end.

(** A reader that leaves the packet alone, or moves [n] bytes, and that has checked
    that what it reads is there. *)
Ltac checked_reader :=
  intros p r p'; pose proof (zlen_nonneg p);
  unfold byte_at, bytes_at, vlint_at, packet_forward, PACKET_remaining,
    ossl_quic_vlint_decode_unchecked, bind, get, put, ret, fail, undef;
  decide_tests; intros; simplify_eq; (split; [done|]);
  first [ by exists [] | eexists (ztake _ _); by rewrite ztake_zdrop ].

#[global] Instance reader_get_quic_vlint : Reader PACKET_get_quic_vlint.
Proof. unfold PACKET_get_quic_vlint. checked_reader. Qed.

#[global] Instance reader_skip_quic_vlint : Reader PACKET_skip_quic_vlint.
Proof. unfold PACKET_skip_quic_vlint. checked_reader. Qed.

#[global] Instance reader_peek_quic_vlint_ex : Reader PACKET_peek_quic_vlint_ex.
Proof. unfold PACKET_peek_quic_vlint_ex. checked_reader. Qed.

#[global] Instance reader_get_net_2 : Reader PACKET_get_net_2.
Proof. unfold PACKET_get_net_2, PACKET_peek_net_2. checked_reader. Qed.

#[global] Instance reader_get_net_3 : Reader PACKET_get_net_3.
Proof. unfold PACKET_get_net_3, PACKET_peek_net_3. checked_reader. Qed.

#[global] Instance reader_get_net_4 : Reader PACKET_get_net_4.
Proof. unfold PACKET_get_net_4, PACKET_peek_net_4. checked_reader. Qed.

#[global] Instance reader_get_net_8 : Reader PACKET_get_net_8.
Proof. unfold PACKET_get_net_8, PACKET_peek_net_8. checked_reader. Qed.

#[global] Instance reader_get_1 : Reader PACKET_get_1.
Proof. unfold PACKET_get_1, PACKET_peek_1. checked_reader. Qed.

#[global] Instance reader_get_4 : Reader PACKET_get_4.
Proof. unfold PACKET_get_4, PACKET_peek_4. checked_reader. Qed.

#[global] Instance reader_get_bytes n : Reader (PACKET_get_bytes n).
Proof. unfold PACKET_get_bytes, PACKET_peek_bytes. checked_reader. Qed.

#[global] Instance reader_copy_bytes n : Reader (PACKET_copy_bytes n).
Proof. unfold PACKET_copy_bytes, PACKET_peek_copy_bytes. checked_reader. Qed.

#[global] Instance reader_PACKET_forward n : Reader (PACKET_forward n).
Proof. unfold PACKET_forward. checked_reader. Qed.

#[global] Instance reader_get_sub_packet n : Reader (PACKET_get_sub_packet n).
Proof.
  unfold PACKET_get_sub_packet, PACKET_peek_sub_packet, PACKET_buf_init. checked_reader.
Qed.

(** *** Bytes *)

Lemma parses_get_bytes bs : parses (PACKET_get_bytes (zlen bs)) bs bs.
Proof.
  intros rest. unfold PACKET_get_bytes, PACKET_peek_bytes, bytes_at, packet_forward,
    bind, get, put, PACKET_remaining, ret. pose proof (zlen_app bs rest). pose proof (zlen_nonneg rest).
  decide_tests. by rewrite ztake_app_exact, zdrop_app_exact.
Qed.

Lemma parses_copy_bytes bs : parses (PACKET_copy_bytes (zlen bs)) bs bs.
Proof. exact (parses_get_bytes bs). Qed.

Lemma parses_forward bs : parses (PACKET_forward (zlen bs)) bs tt.
Proof.
  intros rest. unfold PACKET_forward, packet_forward, bind, get, put,
    PACKET_remaining. pose proof (zlen_app bs rest). pose proof (zlen_nonneg rest).
  decide_tests. by rewrite zdrop_app_exact.
Qed.

Lemma get_bytes_spec n p :
  0 <= n ->
  PACKET_get_bytes n p
  = if n <=? zlen p then (Ok (ztake n p), zdrop n p) else (Err, p).
Proof.
  intros. unfold PACKET_get_bytes, PACKET_peek_bytes, bytes_at, packet_forward, bind, get, put,
    PACKET_remaining, ret, fail. decide_tests; done.
Qed.

(** *** Variable-length integers *)

Lemma get_quic_vlint_decode p :
  PACKET_get_quic_vlint p
  = match ossl_quic_vlint_decode p with
    | Ok (n, v) => (Ok v, zdrop n p)
    | Err => (Err, p)
    | Ub => (Ub, p)
    end.
Proof.
  unfold PACKET_get_quic_vlint, ossl_quic_vlint_decode, vlint_at, ossl_quic_vlint_decode_unchecked,
    byte_at, packet_forward, bind, get, PACKET_remaining, put, ret, fail, undef.
  decide_tests; done.
Qed.

Lemma parses_get_quic_vlint v :
  0 <= v <= OSSL_QUIC_VLINT_MAX -> parses PACKET_get_quic_vlint (ossl_quic_vlint_encode v) v.
Proof.
  intros Hv rest. rewrite get_quic_vlint_decode, decode_encode by done.
  by rewrite <- (zlen_encode v), zdrop_app_exact.
Qed.

Lemma skip_quic_vlint_decode p :
  PACKET_skip_quic_vlint p
  = match ossl_quic_vlint_decode p with
    | Ok (n, v) => (Ok tt, zdrop n p)
    | Err => (Err, p)
    | Ub => (Ub, p)
    end.
Proof.
  unfold PACKET_skip_quic_vlint, ossl_quic_vlint_decode, ossl_quic_vlint_decode_unchecked,
    byte_at, packet_forward, bind, get, PACKET_remaining, put, ret, fail, undef.
  decide_tests; done.
Qed.

Lemma parses_skip_quic_vlint v :
  0 <= v <= OSSL_QUIC_VLINT_MAX -> parses PACKET_skip_quic_vlint (ossl_quic_vlint_encode v) tt.
Proof.
  intros Hv rest. rewrite skip_quic_vlint_decode, decode_encode by done.
  by rewrite <- (zlen_encode v), zdrop_app_exact.
Qed.

(** *** Integers in network order *)

Lemma net_2_value b0 b1 :
  is_u8 b0 -> is_u8 b1 -> Z.lor (Z.shiftl b0 8) b1 = be_value [b0; b1].
Proof. intros. simpl. zsimpl. rewrite lor_shiftl_add by ulia. lia. Qed.

Lemma net_3_value b0 b1 b2 :
  is_u8 b0 -> is_u8 b1 -> is_u8 b2 ->
  Z.lor (Z.lor (Z.shiftl b0 16) (Z.shiftl b1 8)) b2 = be_value [b0; b1; b2].
Proof.
  intros. simpl. zsimpl. rewrite !Z.shiftl_mul_pow2 by lia. unfold is_u8, U8_MOD in *.
  lor_step 16 b0. lor_step 8 (b0 * 256 + b1). lia.
Qed.

Lemma net_4_value b0 b1 b2 b3 :
  is_u8 b0 -> is_u8 b1 -> is_u8 b2 -> is_u8 b3 ->
  Z.lor (Z.lor (Z.lor (Z.shiftl b0 24) (Z.shiftl b1 16)) (Z.shiftl b2 8)) b3
  = be_value [b0; b1; b2; b3].
Proof.
  intros. simpl. zsimpl. rewrite !Z.shiftl_mul_pow2 by lia. unfold is_u8, U8_MOD in *.
  lor_step 24 b0. lor_step 16 (b0 * 256 + b1). lor_step 8 ((b0 * 256 + b1) * 256 + b2). lia.
Qed.

Lemma net_8_value b0 b1 b2 b3 b4 b5 b6 b7 :
  is_u8 b0 -> is_u8 b1 -> is_u8 b2 -> is_u8 b3 ->
  is_u8 b4 -> is_u8 b5 -> is_u8 b6 -> is_u8 b7 ->
  Z.lor (Z.lor (Z.lor (Z.lor (Z.lor (Z.lor (Z.lor
      (Z.shiftl b0 56) (Z.shiftl b1 48)) (Z.shiftl b2 40)) (Z.shiftl b3 32))
      (Z.shiftl b4 24)) (Z.shiftl b5 16)) (Z.shiftl b6 8)) b7
  = be_value [b0; b1; b2; b3; b4; b5; b6; b7].
Proof.
  intros. simpl. zsimpl. rewrite !Z.shiftl_mul_pow2 by lia. unfold is_u8, U8_MOD in *.
  lor_step 56 b0. lor_step 48 (b0 * 256 + b1). lor_step 40 ((b0 * 256 + b1) * 256 + b2).
  lor_step 32 (((b0 * 256 + b1) * 256 + b2) * 256 + b3).
  lor_step 24 ((((b0 * 256 + b1) * 256 + b2) * 256 + b3) * 256 + b4).
  lor_step 16 (((((b0 * 256 + b1) * 256 + b2) * 256 + b3) * 256 + b4) * 256 + b5).
  lor_step 8 ((((((b0 * 256 + b1) * 256 + b2) * 256 + b3) * 256 + b4) * 256 + b5) * 256 + b6).
  lia.
Qed.

(** Read [n] bytes as a network-order integer, or fail without moving. *)
Definition net_read (n : Z) (p : PACKET) : res Z * PACKET :=
  if n <=? zlen p then (Ok (be_value (ztake n p)), zdrop n p) else (Err, p).

(** Reduce a reader applied to a packet whose first bytes are explicit. *)
Ltac net_reader :=
  unfold net_read, byte_at, packet_forward, bind, get, PACKET_remaining, put, ret, fail, undef;
  cbv beta iota; zsimpl;
  repeat (match goal with
  | |- context [?x <? ?y] =>
      first [ replace (x <? y) with true by (pose_lens; lia)
            | replace (x <? y) with false by (pose_lens; lia) ]
  | |- context [?x <=? ?y] =>
      first [ replace (x <=? y) with true by (pose_lens; lia)
            | replace (x <=? y) with false by (pose_lens; lia) ]
  | |- context [?x =? ?y] =>
      first [ replace (x =? y) with true by (pose_lens; lia)
            | replace (x =? y) with false by (pose_lens; lia) ]
  end; cbv beta iota; zsimpl)
with pose_lens :=
  repeat match goal with
  | |- context [zlen ?l] =>
      lazymatch goal with
      | _ : 0 <= zlen l |- _ => fail
      | _ => pose proof (zlen_nonneg l)
      end
  end.

Ltac net_bytes :=
  cbn [ztake zdrop znth Z.leb Z.compare Z.sub Z.add Z.opp Z.pos_sub Pos.compare Pos.compare_cont];
  simpl; rewrite ?ztake_le_zero, ?zdrop_le_zero by lia.

Lemma get_1_net p : Forall is_u8 p -> PACKET_get_1 p = net_read 1 p.
Proof.
  intros Hp. unfold PACKET_get_1, PACKET_peek_1.
  destruct Hp as [|b0 p H0 Hp]; net_reader; [done|]. net_bytes.
  do 2 f_equal. simpl. zsimpl. lia.
Qed.

Lemma get_net_2_net p : Forall is_u8 p -> PACKET_get_net_2 p = net_read 2 p.
Proof.
  intros Hp. unfold PACKET_get_net_2, PACKET_peek_net_2.
  destruct p as [|b0 [|b1 p]]; net_reader; try done. decompose_Forall_hyps.
  net_bytes. by rewrite net_2_value.
Qed.

Lemma get_net_3_net p : Forall is_u8 p -> PACKET_get_net_3 p = net_read 3 p.
Proof.
  intros Hp. unfold PACKET_get_net_3, PACKET_peek_net_3.
  destruct p as [|b0 [|b1 [|b2 p]]]; net_reader; try done. decompose_Forall_hyps.
  net_bytes. by rewrite net_3_value.
Qed.

Lemma get_net_4_net p : Forall is_u8 p -> PACKET_get_net_4 p = net_read 4 p.
Proof.
  intros Hp. unfold PACKET_get_net_4, PACKET_peek_net_4.
  destruct p as [|b0 [|b1 [|b2 [|b3 p]]]]; net_reader; try done. decompose_Forall_hyps.
  net_bytes. by rewrite net_4_value.
Qed.

Lemma get_net_8_net p : Forall is_u8 p -> PACKET_get_net_8 p = net_read 8 p.
Proof.
  intros Hp. unfold PACKET_get_net_8, PACKET_peek_net_8.
  destruct p as [|b0 [|b1 [|b2 [|b3 [|b4 [|b5 [|b6 [|b7 p]]]]]]]]; net_reader; try done.
  decompose_Forall_hyps. net_bytes. by rewrite net_8_value.
Qed.

Lemma parses_get_1 v : 0 <= v < 256 -> parses PACKET_get_1 [v] v.
Proof.
  intros Hv rest. unfold PACKET_get_1, PACKET_peek_1. simpl app. net_reader. by net_bytes.
Qed.

Lemma parses_get_net_2 v : 0 <= v < 65536 -> parses PACKET_get_net_2 (be_bytes 2 v) v.
Proof.
  intros Hv rest. pose proof (be_bytes_range 2 v) as Hr. revert Hr.
  unfold PACKET_get_net_2, PACKET_peek_net_2. cbn [be_bytes]. intros Hr.
  decompose_Forall_hyps. net_reader. net_bytes. rewrite net_2_value by done.
  do 2 f_equal. etransitivity; [exact (be_value_be_bytes 2 v)|]. by apply Z.mod_small.
Qed.

Lemma parses_get_net_8 v : is_u64 v -> parses PACKET_get_net_8 (be_bytes 8 v) v.
Proof.
  intros Hv rest. pose proof (be_bytes_range 8 v) as Hr. revert Hr.
  unfold PACKET_get_net_8, PACKET_peek_net_8. cbn [be_bytes]. intros Hr.
  decompose_Forall_hyps. net_reader. net_bytes. rewrite net_8_value by done.
  do 2 f_equal. etransitivity; [exact (be_value_be_bytes 8 v)|]. by apply Z.mod_small.
Qed.

(** *** Comparison *)

Lemma memcmp_loop_zero a b n x :
  zlen a = Z.of_nat n -> zlen b = Z.of_nat n ->
  CRYPTO_memcmp_loop a b n x = 0 <-> x = 0 /\ a = b.
Proof.
  revert a b x. induction n as [|n IH]; intros a b x Ha Hb; cbn [CRYPTO_memcmp_loop].
  - apply zlen_zero_nil in Ha as ->. apply zlen_zero_nil in Hb as ->. naive_solver.
  - destruct a as [|a0 a], b as [|b0 b]; zsimpl; try lia.
    cbn [zdrop znth]. simpl. rewrite !zdrop_le_zero by lia.
    rewrite IH, Z.lor_eq_0_iff, Z.lxor_eq_0_iff by lia. naive_solver.
Qed.

Lemma memcmp_zero a b :
  zlen a = zlen b -> CRYPTO_memcmp a b (zlen b) = 0 <-> a = b.
Proof.
  intros Hl. unfold CRYPTO_memcmp. pose proof (zlen_nonneg b).
  rewrite memcmp_loop_zero by lia. naive_solver.
Qed.

(** ** Properties *)

(** the network-order readers read exactly their width: with enough bytes the
    result is the big-endian value of the first [n] bytes and the packet moves past
    them, otherwise the read fails and the packet is left as it was. *)
Theorem PACKET_get_net_spec p :
  Forall is_u8 p ->
  PACKET_get_1 p = net_read 1 p /\ PACKET_get_net_2 p = net_read 2 p /\
  PACKET_get_net_3 p = net_read 3 p /\ PACKET_get_net_4 p = net_read 4 p /\
  PACKET_get_net_8 p = net_read 8 p.
Proof.
  intros Hp. auto 6 using get_1_net, get_net_2_net, get_net_3_net, get_net_4_net, get_net_8_net.
Qed.

Lemma PACKET_get_net_spec_witness : PACKET_get_net_3 [1; 2; 3; 4] = net_read 3 [1; 2; 3; 4].
Proof.
  apply (PACKET_get_net_spec [1; 2; 3; 4]).
  repeat constructor; vm_compute; intros; discriminate.
Defined.

(** [p] splits into a [n]-byte length header, the vector of that length, and the
    rest. *)
Definition prefixed (n : Z) (p sub rest : PACKET) : Prop :=
  n <= zlen p /\ zlen sub = be_value (ztake n p) /\ p = ztake n p ++ sub ++ rest.

Lemma get_prefixed (n : Z) (m : M PACKET Z) p :
  (forall p, Forall is_u8 p -> m p = net_read n p) -> 0 <= n -> Forall is_u8 p ->
  match on_copy (let! l := m in PACKET_get_bytes l) p with
  | (Ok sub, rest) => prefixed n p sub rest
  | (Err, p') => p' = p /\ ~ exists sub rest, prefixed n p sub rest
  | (Ub, _) => False
  end.
Proof.
  intros Hm Hn Hp. specialize (Hm p Hp). unfold net_read in Hm.
  destruct (Z.leb_spec n (zlen p)) as [Hl|Hl].
  - assert (Forall is_u8 (ztake n p)) as Ht by (rewrite ztake_take; by apply Forall_take).
    pose proof (be_value_range _ Ht) as [Hv _]. set (l := be_value (ztake n p)) in *.
    pose proof (get_bytes_spec l (zdrop n p) Hv) as Hb.
    assert (bind m (fun l => PACKET_get_bytes l) p = PACKET_get_bytes l (zdrop n p)) as E
      by (by apply bind_ok).
    rewrite Hb in E. destruct (Z.leb_spec l (zlen (zdrop n p))) as [Hs|Hs].
    + rewrite (on_copy_ok _ _ _ _ E). split; [done|]. split; [by apply zlen_ztake|].
      by rewrite !ztake_zdrop.
    + rewrite (on_copy_err _ _ _ E). split; [done|]. intros (sub & rest & _ & Hsub & Heq).
      rewrite zlen_zdrop in Hs by lia. assert (zlen p = n + l + zlen rest) as Hz.
      { rewrite Heq at 1. zsimpl. rewrite zlen_ztake by lia. lia. }
      pose proof (zlen_nonneg rest). lia.
  - rewrite (on_copy_err _ p p); [|by apply bind_err].
    split; [done|]. intros (sub & rest & H & _). lia.
Qed.

(** a length-prefixed read (1, 2 and 3 byte lengths) succeeds exactly when the
    packet holds the announced number of bytes, then splits the packet into header,
    vector and rest; when it fails the packet is not modified. *)
Theorem PACKET_get_length_prefixed_spec p :
  Forall is_u8 p ->
  Forall (fun nm =>
    match snd nm p with
    | (Ok sub, rest) => prefixed (fst nm) p sub rest
    | (Err, p') => p' = p /\ ~ exists sub rest, prefixed (fst nm) p sub rest
    | (Ub, _) => False
    end)
    [(1, PACKET_get_length_prefixed_1); (2, PACKET_get_length_prefixed_2);
     (3, PACKET_get_length_prefixed_3)].
Proof.
  intros Hp. repeat constructor; simpl; apply get_prefixed; auto; try lia;
    auto using get_1_net, get_net_2_net, get_net_3_net.
Qed.

Lemma PACKET_get_length_prefixed_spec_witness :
  Forall (fun nm =>
    match snd nm [0; 1; 7; 8] with
    | (Ok sub, rest) => prefixed (fst nm) [0; 1; 7; 8] sub rest
    | (Err, p') => p' = [0; 1; 7; 8] /\ ~ exists sub rest, prefixed (fst nm) [0; 1; 7; 8] sub rest
    | (Ub, _) => False
    end)
    [(1, PACKET_get_length_prefixed_1); (2, PACKET_get_length_prefixed_2);
     (3, PACKET_get_length_prefixed_3)].
Proof.
  apply (PACKET_get_length_prefixed_spec [0; 1; 7; 8]).
  repeat constructor; vm_compute; intros; discriminate.
Defined.

(** [PACKET_equal] holds exactly when the packet's bytes are the given bytes,
    although it is computed without branching on them. *)
Theorem PACKET_equal_spec p bs : PACKET_equal p bs (zlen bs) = true <-> p = bs.
Proof.
  unfold PACKET_equal, PACKET_remaining. destruct (Z.eqb_spec (zlen p) (zlen bs)) as [E|E]; simpl.
  - rewrite Z.eqb_eq. by apply memcmp_zero.
  - split; [done|]. by intros ->.
Qed.
