(* ===== verification/WPacket.v ===== *)
(** Writing packets: WPACKET (crypto/packet.c, include/internal/packet.h) over
    growable buffers (BUF_MEM, crypto/buffer/buffer.c) or fixed ones.

    The state of a WPACKET function is the WPACKET and the allocator. A pointer
    into the packet's buffer is an offset, [None] for NULL; a store outside the
    buffer, or through NULL, is the outcome [Ub]. *)

From stdpp Require Import base list numbers.
From Stdlib Require Import ZArith Lia.
From S2P Require Import Prelude Vlint.

#[local] Open Scope cfun_scope.

(** ** Definitions: BUF_MEM *)

Definition LIMIT_BEFORE_EXPANSION : Z := 1610612732.
Definition BUF_MEM_FLAG_SECURE : Z := 1.

Record BUF_MEM := mkBufMem {
  bm_length : Z;
  bm_data : option (list Z);   (* the allocation, [bm_max] bytes; None for NULL *)
  bm_max : Z;
  bm_flags : Z
}.

Definition BUF_MEM_new (o : oracle) : option BUF_MEM * oracle :=
  let (ok, o') := alloc o in
  (if ok : bool then Some (mkBufMem 0 None 0 0) else None, o').

Definition BUF_MEM_new_ex (flags : Z) (o : oracle) : option BUF_MEM * oracle :=
  match BUF_MEM_new o with
  | (Some b, o') => (Some (mkBufMem (bm_length b) (bm_data b) (bm_max b) flags), o')
  | (None, o') => (None, o')
  end.

Definition buf_bytes (b : BUF_MEM) : list Z := default [] (bm_data b).

(** The secure-heap reallocation copies the used part only. The bytes of fresh
    memory are indeterminate in C and are overwritten before they are read; the
    model fills them with zeros. *)
Definition sec_alloc_realloc (str : BUF_MEM) (len : Z) : list Z :=
  ztake (bm_length str) (buf_bytes str) ++ zrepeat 0 (len - bm_length str).

Definition openssl_realloc (str : BUF_MEM) (len : Z) : list Z :=
  buf_bytes str ++ zrepeat 0 (len - zlen (buf_bytes str)).

(** [memset(&data[off], 0, n)]. *)
Definition zero_fill (off n : Z) (d : list Z) : list Z := write_at off (zrepeat 0 n) d.

(** (returned length, the buffer, the allocator). *)
Definition BUF_MEM_grow (str : BUF_MEM) (len : Z) (o : oracle) : Z * BUF_MEM * oracle :=
  if bm_length str >=? len then
    (len, mkBufMem len (bm_data str) (bm_max str) (bm_flags str), o)
  else if bm_max str >=? len then
    (len, mkBufMem len (zero_fill (bm_length str) (len - bm_length str) <$> bm_data str)
            (bm_max str) (bm_flags str), o)
  else if len >? LIMIT_BEFORE_EXPANSION then (0, str, o)
  else
    let n := (len + 3) / 3 * 4 in
    let (ok, o') := alloc o in
    if ok : bool then
      let d := if negb (Z.land (bm_flags str) BUF_MEM_FLAG_SECURE =? 0)
               then sec_alloc_realloc str n else openssl_realloc str n in
      (len, mkBufMem len (Some (zero_fill (bm_length str) (len - bm_length str) d))
              n (bm_flags str), o')
    else (0, str, o').

(** OPENSSL_clear_realloc to a larger size copies the [max] old bytes. *)
Definition BUF_MEM_grow_clean (str : BUF_MEM) (len : Z) (o : oracle) : Z * BUF_MEM * oracle :=
  if bm_length str >=? len then
    (len, mkBufMem len (zero_fill len (bm_length str - len) <$> bm_data str)
            (bm_max str) (bm_flags str), o)
  else if bm_max str >=? len then
    (len, mkBufMem len (zero_fill (bm_length str) (len - bm_length str) <$> bm_data str)
            (bm_max str) (bm_flags str), o)
  else if len >? LIMIT_BEFORE_EXPANSION then (0, str, o)
  else
    let n := (len + 3) / 3 * 4 in
    let (ok, o') := alloc o in
    if ok : bool then
      let d := if negb (Z.land (bm_flags str) BUF_MEM_FLAG_SECURE =? 0)
               then sec_alloc_realloc str n else openssl_realloc str n in
      (len, mkBufMem len (Some (zero_fill (bm_length str) (len - bm_length str) d))
              n (bm_flags str), o')
    else (0, str, o').

(** ** Definitions: the WPACKET state *)

Definition DEFAULT_BUF_SIZE : Z := 256.
Definition SIZEOF_SIZE_T : Z := 8.

Definition WPACKET_FLAGS_NON_ZERO_LENGTH : Z := 1.
Definition WPACKET_FLAGS_ABANDON_ON_ZERO_LENGTH : Z := 2.
Definition WPACKET_FLAGS_QUIC_VLINT : Z := 4.

Record WPACKET_SUB := mkSub {
  packet_len : Z;
  lenbytes : Z;
  pwritten : Z;
  flags : Z
}.

(** [subs] is the chain of sub-packets from the innermost to the outermost. *)
Record WPACKET := mkWPacket {
  buf : option BUF_MEM;
  staticbuf : option (list Z);
  curr : Z;
  written : Z;
  maxsize : Z;
  subs : list WPACKET_SUB;
  endfirst : bool
}.

Definition WS : Type := WPACKET * oracle.

Definition upd (f : WPACKET -> WPACKET) : M WS unit :=
  modify (fun s => (f (fst s), snd s)).

Definition set_buf b (w : WPACKET) : WPACKET :=
  mkWPacket b (staticbuf w) (curr w) (written w) (maxsize w) (subs w) (endfirst w).
Definition set_staticbuf b (w : WPACKET) : WPACKET :=
  mkWPacket (buf w) b (curr w) (written w) (maxsize w) (subs w) (endfirst w).
Definition set_pos c n (w : WPACKET) : WPACKET :=
  mkWPacket (buf w) (staticbuf w) c n (maxsize w) (subs w) (endfirst w).
Definition set_maxsize m (w : WPACKET) : WPACKET :=
  mkWPacket (buf w) (staticbuf w) (curr w) (written w) m (subs w) (endfirst w).
Definition set_subs s (w : WPACKET) : WPACKET :=
  mkWPacket (buf w) (staticbuf w) (curr w) (written w) (maxsize w) s (endfirst w).

(** OPENSSL_zalloc. *)
Definition wp_alloc : M WS bool :=
  fun s => let (ok, o') := alloc (snd s) in (Ok ok, (fst s, o')).

Definition wp_grow (b : BUF_MEM) (newlen : Z) : M WS Z :=
  fun s => let '(n, b', o') := BUF_MEM_grow b newlen (snd s) in
           (Ok n, (set_buf (Some b') (fst s), o')).

(** GETBUF: the bytes behind the buffer pointer, [None] for NULL. *)
Definition GETBUF (w : WPACKET) : option (list Z) :=
  match staticbuf w with
  | Some d => Some d
  | None => match buf w with
            | Some b => bm_data b
            | None => None
            end
  end.

Definition set_GETBUF (d : list Z) (w : WPACKET) : WPACKET :=
  match staticbuf w with
  | Some _ => set_staticbuf (Some d) w
  | None => match buf w with
            | Some b => set_buf (Some (mkBufMem (bm_length b) (Some d) (bm_max b) (bm_flags b))) w
            | None => w
            end
  end.

(** A store of [bs] at offset [p] of the buffer. *)
Definition store (p : Z) (bs : list Z) : M WS unit :=
  let! s := get in
  match GETBUF (fst s) with
  | Some d =>
      if (0 <=? p) && (p + zlen bs <=? zlen d) then upd (set_GETBUF (write_at p bs d))
      else undef
  | None => undef
  end.

(** ** Definitions: operations *)

Definition WPACKET_get_curr (w : WPACKET) : option Z :=
  match GETBUF w with
  | None => None
  | Some _ => if endfirst w then Some (u64 (maxsize w - curr w)) else Some (curr w)
  end.

Definition WPACKET_is_null_buf (w : WPACKET) : bool :=
  match buf w, staticbuf w with None, None => true | _, _ => false end.

Definition WPACKET_reserve_bytes (len : Z) : M WS (option Z) :=
  let! s := get in
  let pkt := fst s in
  guard (negb (bool_decide (subs pkt = [])) && negb (len =? 0)) ;;;
  guard (negb (u64 (maxsize pkt - written pkt) <? len)) ;;;
  match buf pkt with
  | Some b =>
      if u64 (bm_length b - written pkt) <? len then
        let reflen := if len >? bm_length b then len else bm_length b in
        let newlen :=
          if reflen >? SIZE_MAX / 2 then SIZE_MAX
          else let n := u64 (reflen * 2) in
               if n <? DEFAULT_BUF_SIZE then DEFAULT_BUF_SIZE else n in
        let! r := wp_grow b newlen in guard (negb (r =? 0))
      else ret tt
  | None => ret tt
  end ;;;
  let! s := get in
  let pkt := fst s in
  ret (match WPACKET_get_curr pkt with
       | Some p => Some (if endfirst pkt then p - len else p)
       | None => None
       end).

Definition WPACKET_allocate_bytes (len : Z) : M WS (option Z) :=
  let! p := WPACKET_reserve_bytes len in
  upd (fun w => set_pos (u64 (curr w + len)) (u64 (written w + len)) w) ;;;
  ret p.

Definition WPACKET_sub_reserve_bytes__ (len lenbytes : Z) : M WS (option Z) :=
  let! s := get in
  guard (negb (endfirst (fst s) && (lenbytes >? 0))) ;;;
  let! p := WPACKET_reserve_bytes (u64 (lenbytes + len)) in
  ret (match p with Some p => Some (p + lenbytes) | None => None end).

Definition maxmaxsize (lenbytes : Z) : Z :=
  if (lenbytes >=? SIZEOF_SIZE_T) || (lenbytes =? 0) then SIZE_MAX
  else Z.shiftl 1 (lenbytes * 8) - 1 + lenbytes.

(** The bytes written by the loop of [put_value], and the rest of the value. *)
Fixpoint put_value_loop (value : Z) (len : nat) (acc : list Z) : list Z * Z :=
  match len with
  | O => (acc, value)
  | S n => put_value_loop (Z.shiftr value 8) n (Z.land value 255 :: acc)
  end.

Definition put_value (data : option Z) (value len : Z) : M WS unit :=
  match data with
  | None => ret tt
  | Some p =>
      let (bs, rest) := put_value_loop value (Z.to_nat len) [] in
      store p bs ;;; guard (negb (rest >? 0))
  end.

Definition put_quic_value (data : option Z) (value len : Z) : M WS unit :=
  match data with
  | None => ret tt
  | Some p =>
      guard (negb (ossl_quic_vlint_encode_len value >? len)) ;;;
      store p (ossl_quic_vlint_encode_n value len)
  end.

Definition wpacket_intern_init_len (lenbytes : Z) : M WS unit :=
  upd (set_pos 0 0) ;;;
  let! ok := wp_alloc in
  if negb ok then upd (set_subs []) ;;; fail
  else
    upd (set_subs [mkSub 0 0 0 0]) ;;;
    if lenbytes =? 0 then ret tt
    else
      upd (set_subs [mkSub 0 lenbytes lenbytes 0]) ;;;
      fun s =>
        match WPACKET_allocate_bytes lenbytes s with
        | (Ok _, s') => (Ok tt, s')
        | (Err, s') => (Err, (set_subs [] (fst s'), snd s'))
        | (Ub, s') => (Ub, s')
        end.

Definition WPACKET_init_static_len (buf : list Z) (len lenbytes : Z) : M WS unit :=
  let max := maxmaxsize lenbytes in
  guard (len >? 0) ;;;
  upd (fun w => mkWPacket None (Some buf) (curr w) (written w)
                  (if max <? len then max else len) (subs w) false) ;;;
  wpacket_intern_init_len lenbytes.

Definition WPACKET_init_der (buf : list Z) (len : Z) : M WS unit :=
  guard (len >? 0) ;;;
  upd (fun w => mkWPacket None (Some buf) (curr w) (written w) len (subs w) true) ;;;
  wpacket_intern_init_len 0.

Definition WPACKET_init_len (buf : BUF_MEM) (lenbytes : Z) : M WS unit :=
  upd (fun w => mkWPacket (Some buf) None (curr w) (written w) (maxmaxsize lenbytes)
                  (subs w) false) ;;;
  wpacket_intern_init_len lenbytes.

Definition WPACKET_init (buf : BUF_MEM) : M WS unit := WPACKET_init_len buf 0.

Definition WPACKET_init_null (lenbytes : Z) : M WS unit :=
  upd (fun w => mkWPacket None None (curr w) (written w) (maxmaxsize lenbytes)
                  (subs w) false) ;;;
  wpacket_intern_init_len 0.

Definition WPACKET_init_null_der : M WS unit :=
  upd (fun w => mkWPacket None None (curr w) (written w) SIZE_MAX (subs w) true) ;;;
  wpacket_intern_init_len 0.

Definition WPACKET_set_flags (fl : Z) : M WS unit :=
  let! s := get in
  match subs (fst s) with
  | [] => fail
  | sub :: parent =>
      upd (set_subs (mkSub (packet_len sub) (lenbytes sub) (pwritten sub) fl :: parent))
  end.

Definition WPACKET_put_bytes__ (val size : Z) : M WS unit :=
  guard (size <=? 8) ;;;
  let! data := WPACKET_allocate_bytes size in
  put_value data val size.

(** [while ((tmplen = tmplen >> 8) > 0) numlenbytes++]; a size_t has 8 bytes. *)
Fixpoint count_len_bytes (fuel : nat) (tmplen numlenbytes : Z) : Z :=
  match fuel with
  | O => numlenbytes
  | S fuel' =>
      let tmplen := Z.shiftr tmplen 8 in
      if tmplen >? 0 then count_len_bytes fuel' tmplen (numlenbytes + 1) else numlenbytes
  end.

Arguments count_len_bytes : simpl never.

Definition has_flag (fl f : Z) : bool := negb (Z.land fl f =? 0).

(** The part of [wpacket_intern_close] that writes the length of the sub-packet. *)
Definition write_sub_len (sub : WPACKET_SUB) (parent : list WPACKET_SUB)
    (packlen : Z) : M WS unit :=
  let! s := get in
  let pkt := fst s in
  if lenbytes sub >? 0 then
    match GETBUF pkt with
    | Some _ =>
        if negb (has_flag (flags sub) WPACKET_FLAGS_QUIC_VLINT) then
          put_value (Some (packet_len sub)) packlen (lenbytes sub)
        else put_quic_value (Some (packet_len sub)) packlen (lenbytes sub)
    | None => ret tt
    end
  else if endfirst pkt && negb (bool_decide (parent = []))
          && (negb (packlen =? 0)
              || negb (has_flag (flags sub) WPACKET_FLAGS_ABANDON_ON_ZERO_LENGTH)) then
    let numlenbytes := count_len_bytes 8 packlen 1 in
    WPACKET_put_bytes__ packlen numlenbytes ;;;
    if packlen >? 127 then WPACKET_put_bytes__ (Z.lor numlenbytes 128) 1 else ret tt
  else ret tt.

(** [sub] with its chain of parents; with [doclose] it is the innermost one. *)
Definition wpacket_intern_close (sub : WPACKET_SUB) (parent : list WPACKET_SUB)
    (doclose : bool) : M WS unit :=
  let! s := get in
  let packlen := u64 (written (fst s) - pwritten sub) in
  guard (negb ((packlen =? 0) && has_flag (flags sub) WPACKET_FLAGS_NON_ZERO_LENGTH)) ;;;
  let! sub :=
    (if (packlen =? 0) && has_flag (flags sub) WPACKET_FLAGS_ABANDON_ON_ZERO_LENGTH then
       guard doclose ;;;
       upd (fun w => if u64 (curr w - lenbytes sub) =? packet_len sub
                     then set_pos (u64 (curr w - lenbytes sub))
                            (u64 (written w - lenbytes sub)) w
                     else w) ;;;
       ret (mkSub 0 0 (pwritten sub) (flags sub))
     else ret sub) in
  write_sub_len sub parent packlen ;;;
  if doclose then upd (set_subs parent) else ret tt.

Fixpoint fill_lengths_loop (subs : list WPACKET_SUB) : M WS unit :=
  match subs with
  | [] => ret tt
  | sub :: parent => wpacket_intern_close sub parent false ;;; fill_lengths_loop parent
  end.

Definition WPACKET_fill_lengths : M WS unit :=
  let! s := get in
  guard (negb (bool_decide (subs (fst s) = []))) ;;;
  fill_lengths_loop (subs (fst s)).

Definition WPACKET_close : M WS unit :=
  let! s := get in
  match subs (fst s) with
  | sub :: (_ :: _) as parent => wpacket_intern_close sub parent true
  | _ => fail
  end.

Definition WPACKET_finish : M WS unit :=
  let! s := get in
  match subs (fst s) with
  | [sub] => wpacket_intern_close sub [] true ;;; upd (set_subs [])
  | _ => fail
  end.

Definition WPACKET_start_sub_packet_len__ (lenbytes : Z) : M WS unit :=
  let! s := get in
  let pkt := fst s in
  guard (negb (bool_decide (subs pkt = []))) ;;;
  guard (negb ((lenbytes >? 0) && endfirst pkt)) ;;;
  let! ok := wp_alloc in
  guard ok ;;;
  upd (set_subs (mkSub (if lenbytes =? 0 then 0 else written pkt) lenbytes
                   (u64 (written pkt + lenbytes)) 0 :: subs pkt)) ;;;
  if lenbytes =? 0 then ret tt
  else WPACKET_allocate_bytes lenbytes ;;; ret tt.

Definition WPACKET_start_sub_packet : M WS unit := WPACKET_start_sub_packet_len__ 0.

Definition WPACKET_sub_allocate_bytes__ (len lenbytes : Z) : M WS (option Z) :=
  WPACKET_start_sub_packet_len__ lenbytes ;;;
  let! p := WPACKET_allocate_bytes len in
  WPACKET_close ;;; ret p.

(** The top-level sub-packet is the last of the chain. *)
Definition WPACKET_set_max_size (max : Z) : M WS unit :=
  let! s := get in
  let pkt := fst s in
  match list.last (subs pkt) with
  | None => fail
  | Some sub =>
      let lenbytes := if lenbytes sub =? 0 then SIZEOF_SIZE_T else lenbytes sub in
      guard (negb ((maxmaxsize lenbytes <? max) || (max <? written pkt))) ;;;
      upd (set_maxsize max)
  end.

Definition WPACKET_memset (ch len : Z) : M WS unit :=
  if len =? 0 then ret tt
  else
    let! dest := WPACKET_allocate_bytes len in
    match dest with
    | Some p => store p (zrepeat (u8 ch) len)
    | None => ret tt
    end.

(** [src] holds the [len] bytes to copy. *)
Definition WPACKET_memcpy (src : list Z) (len : Z) : M WS unit :=
  if len =? 0 then ret tt
  else
    let! dest := WPACKET_allocate_bytes len in
    match dest with
    | Some p => store p (ztake len src)
    | None => ret tt
    end.

Definition WPACKET_sub_memcpy__ (src : list Z) (len lenbytes : Z) : M WS unit :=
  WPACKET_start_sub_packet_len__ lenbytes ;;;
  WPACKET_memcpy src len ;;;
  WPACKET_close.

Definition WPACKET_get_total_written (w : WPACKET) : Z := written w.

Definition WPACKET_get_length (w : WPACKET) : option Z :=
  match subs w with
  | [] => None
  | sub :: _ => Some (u64 (written w - pwritten sub))
  end.

Definition WPACKET_cleanup : M WS unit := upd (set_subs []).

(** ** Definitions: QUIC additions *)

Definition WPACKET_start_quic_sub_packet_bound (max_len : Z) : M WS unit :=
  let enclen := ossl_quic_vlint_encode_len max_len in
  guard (negb (enclen =? 0)) ;;;
  WPACKET_start_sub_packet_len__ enclen ;;;
  upd (fun w => match subs w with
                | [] => w
                | sub :: parent =>
                    set_subs (mkSub (packet_len sub) (lenbytes sub) (pwritten sub)
                                (Z.lor (flags sub) WPACKET_FLAGS_QUIC_VLINT) :: parent) w
                end).

Definition WPACKET_start_quic_sub_packet : M WS unit :=
  WPACKET_start_quic_sub_packet_bound OSSL_QUIC_VLINT_4B_MIN.

Definition WPACKET_quic_sub_allocate_bytes (len : Z) : M WS (option Z) :=
  WPACKET_start_quic_sub_packet_bound len ;;;
  let! p := WPACKET_allocate_bytes len in
  WPACKET_close ;;; ret p.

(** The encoder is called with the pointer the allocation gave, NULL included. *)
Definition WPACKET_quic_write_vlint (v : Z) : M WS unit :=
  let enclen := ossl_quic_vlint_encode_len v in
  guard (negb (enclen =? 0)) ;;;
  let! b := WPACKET_allocate_bytes enclen in
  match b with
  | Some p => store p (ossl_quic_vlint_encode v)
  | None => undef
  end.

(** ** Lemmas: growing a buffer *)

Definition buf_wf (b : BUF_MEM) : Prop :=
  (0 <= bm_length b <= bm_max b /\ bm_max b < 2147483648)
  /\ zlen (buf_bytes b) = bm_max b
  /\ (bm_data b = None -> bm_max b = 0).

(** The bytes in use. *)
Definition buf_used (b : BUF_MEM) : list Z := ztake (bm_length b) (buf_bytes b).

Lemma zlen_buf_used b : buf_wf b -> zlen (buf_used b) = bm_length b.
Proof. intros (? & ? & ?). apply zlen_ztake. lia. Qed.

Lemma zlen_zero_fill off n d :
  0 <= off -> 0 <= n -> off + n <= zlen d -> zlen (zero_fill off n d) = zlen d.
Proof. intros. unfold zero_fill. apply zlen_write_at; rewrite ?zlen_zrepeat; lia. Qed.

Lemma ztake_zero_fill off n d :
  0 <= off -> 0 <= n -> off + n <= zlen d ->
  ztake (off + n) (zero_fill off n d) = ztake off d ++ zrepeat 0 n.
Proof.
  intros. unfold zero_fill.
  replace (off + n) with (off + zlen (zrepeat 0 n)) by (rewrite zlen_zrepeat; lia).
  apply ztake_write_at; rewrite ?zlen_zrepeat; lia.
Qed.

(** Both reallocations give [n] bytes that start with the used ones. *)
Lemma realloc_spec (sec : bool) b n :
  buf_wf b -> bm_max b <= n ->
  let d := if sec then sec_alloc_realloc b n else openssl_realloc b n in
  zlen d = n /\ ztake (bm_length b) d = buf_used b.
Proof.
  intros Hwf Hn. pose proof (zlen_buf_used b Hwf) as Hu.
  destruct Hwf as (? & Hd & ?). destruct sec; simpl.
  - unfold sec_alloc_realloc. fold (buf_used b).
    rewrite zlen_app, zlen_zrepeat, Hu by lia. split; [lia|].
    rewrite <- Hu. apply ztake_app_exact.
  - unfold openssl_realloc. rewrite zlen_app, zlen_zrepeat by lia. split; [lia|].
    rewrite ztake_app, (ztake_le_zero (_ - _)), app_nil_r by lia. done.
Qed.

(** The two facts every branch of [BUF_MEM_grow] establishes. *)
Lemma grown_wf b d len n fl :
  buf_wf b -> bm_length b <= len <= n -> n < 2147483648 ->
  zlen d = n -> ztake (bm_length b) d = buf_used b ->
  let b' := mkBufMem len (Some (zero_fill (bm_length b) (len - bm_length b) d)) n fl in
  buf_wf b' /\ buf_used b' = buf_used b ++ zrepeat 0 (len - bm_length b).
Proof.
  intros (? & ? & ?) ? ? Hd Hpre. unfold buf_wf, buf_used, buf_bytes. simpl.
  rewrite zlen_zero_fill by lia. split; [split; [lia|]; split; [lia|done]|].
  pose proof (ztake_zero_fill (bm_length b) (len - bm_length b) d) as Hz.
  replace (bm_length b + (len - bm_length b)) with len in Hz by lia.
  rewrite Hz by lia. by rewrite Hpre.
Qed.

(** The bound that the comment in [BUF_MEM_grow] states. *)
Lemma expansion_bounds len :
  0 <= len <= LIMIT_BEFORE_EXPANSION -> len <= (len + 3) / 3 * 4 < 2147483648.
Proof. unfold LIMIT_BEFORE_EXPANSION. ulia. Qed.

(** Everything a caller may rely on when it grows a buffer. *)
Lemma BUF_MEM_grow_ok b len o n b' o' :
  buf_wf b -> bm_length b < len -> BUF_MEM_grow b len o = (n, b', o') ->
  (n = 0 /\ b' = b) \/
  (n = len /\ bm_length b' = len /\ buf_wf b' /\
   buf_used b' = buf_used b ++ zrepeat 0 (len - bm_length b)).
Proof.
  intros Hwf Hlen. pose proof Hwf as (? & Hd & Hnull). unfold BUF_MEM_grow.
  case_match; [lia|]. case_match.
  - intros [= <- <- <-]. right. destruct (bm_data b) as [d|] eqn:Ed; [|specialize (Hnull eq_refl); lia].
    unfold buf_bytes in Hd. rewrite Ed in Hd. simpl in *.
    destruct (grown_wf b d len (bm_max b) (bm_flags b) Hwf) as [? ?];
      [lia|lia|done| |done].
    unfold buf_used, buf_bytes. by rewrite Ed.
  - case_match; [intros [= <- <- <-]; by left|].
    destruct (alloc o) as [[|] o1]; intros [= <- <- <-]; [|by left].
    right. pose proof (expansion_bounds len ltac:(lia)).
    destruct (realloc_spec (negb (Z.land (bm_flags b) BUF_MEM_FLAG_SECURE =? 0)) b
                ((len + 3) / 3 * 4) Hwf) as [Hd' Hpre]; [lia|].
    by destruct (grown_wf b _ len ((len + 3) / 3 * 4) (bm_flags b) Hwf
                  ltac:(lia) ltac:(lia) Hd' Hpre) as [? ?].
Qed.

Lemma BUF_MEM_grow_succeeds b len n b' o' :
  bm_length b < len <= LIMIT_BEFORE_EXPANSION ->
  BUF_MEM_grow b len [] = (n, b', o') -> n = len /\ o' = [].
Proof.
  intros Hlen. unfold BUF_MEM_grow. repeat (case_match; try lia); simpl in *;
    intros [= <- <- <-]; simplify_eq; done.
Qed.

(** ** Lemmas: the packet invariant *)

(** Where a packet's bytes live: the length of its static buffer, and whether it
    has a growable one. *)
Definition kind (w : WPACKET) : option Z * bool :=
  (zlen <$> staticbuf w, match buf w with Some _ => true | None => false end).

Definition vlint_size (n : Z) : Prop := n = 1 \/ n = 2 \/ n = 4 \/ n = 8.

(** Sub-packets nest: a sub-packet's length field lies below [top] and above all
    that its parents have started. *)
Fixpoint subs_wf (top : Z) (l : list WPACKET_SUB) : Prop :=
  match l with
  | [] => True
  | s :: parent =>
      0 <= lenbytes s <= pwritten s /\ pwritten s <= top
      /\ (0 < lenbytes s -> packet_len s = pwritten s - lenbytes s)
      /\ (has_flag (flags s) WPACKET_FLAGS_QUIC_VLINT = true ->
          0 < lenbytes s -> vlint_size (lenbytes s))
      /\ subs_wf (pwritten s - lenbytes s) parent
  end.

Definition buffer_wf (w : WPACKET) : Prop :=
  match staticbuf w, buf w with
  | Some d, None => maxsize w <= zlen d
  | None, Some b => buf_wf b /\ written w <= bm_length b /\ endfirst w = false
  | None, None => True
  | Some _, Some _ => False
  end.

Definition wf (w : WPACKET) : Prop :=
  0 <= written w <= maxsize w /\ maxsize w <= SIZE_MAX /\ curr w = written w
  /\ buffer_wf w /\ subs_wf (written w) (subs w).

(** The bytes written so far, in the order in which they are sent. *)
Definition contents (w : WPACKET) : list Z :=
  let d := default [] (GETBUF w) in
  if endfirst w then zdrop (maxsize w - written w) (ztake (maxsize w) d)
  else ztake (written w) d.

Definition frame (w w' : WPACKET) : Prop :=
  kind w' = kind w /\ maxsize w' = maxsize w /\ endfirst w' = endfirst w.

#[export] Instance frame_preorder : PreOrder frame.
Proof. split; unfold frame; [done|]. intros ? ? ? (-> & -> & ->). done. Qed.

Lemma kind_null w w' :
  kind w' = kind w -> WPACKET_is_null_buf w' = WPACKET_is_null_buf w.
Proof.
  unfold kind, WPACKET_is_null_buf. destruct (buf w), (buf w'), (staticbuf w), (staticbuf w');
    simpl; congruence.
Qed.

Lemma subs_wf_mono t t' l : subs_wf t l -> t <= t' -> subs_wf t' l.
Proof. destruct l; simpl; [done|]. intros (? & ? & ?) ?. split; [done|]. split; [lia|tauto]. Qed.

(** ** Lemmas: running a packet writer

    [hoare w m Q]: from [w], whatever the allocator does, [m] does nothing
    undefined and establishes [Q] when it succeeds. [total w m Q]: when no
    allocation fails, [m] succeeds and establishes [Q]. *)

Definition hoare {A} (w : WPACKET) (m : M WS A) (Q : A -> WPACKET -> Prop) : Prop :=
  forall o, match m (w, o) with
            | (Ok a, s) => Q a (fst s)
            | (Err, _) => True
            | (Ub, _) => False
            end.

Definition total {A} (w : WPACKET) (m : M WS A) (Q : A -> WPACKET -> Prop) : Prop :=
  exists a w', m (w, [] : oracle) = (Ok a, (w', [] : oracle)) /\ Q a w'.

Section Triples.
Context {A B : Type}.
Implicit Types (m : M WS A) (k : A -> M WS B).

Lemma hoare_bind w m k Q R :
  hoare w m Q -> (forall a w', Q a w' -> hoare w' (k a) R) -> hoare w (bind m k) R.
Proof.
  intros Hm Hk o. unfold bind. specialize (Hm o).
  destruct (m (w, o)) as [[a| |] [w' o']]; try done. exact (Hk a w' Hm o').
Qed.

Lemma hoare_weaken w m (Q R : A -> WPACKET -> Prop) :
  hoare w m Q -> (forall a w', Q a w' -> R a w') -> hoare w m R.
Proof. intros Hm HQ o. specialize (Hm o). repeat case_match; eauto. Qed.

Lemma hoare_ret w (a : A) (Q : A -> WPACKET -> Prop) : Q a w -> hoare w (ret a) Q.
Proof. intros HQ o. exact HQ. Qed.

Lemma hoare_fail w (Q : A -> WPACKET -> Prop) : hoare w fail Q.
Proof. intros o. exact I. Qed.

Lemma total_bind w m k Q R :
  total w m Q -> (forall a w', Q a w' -> total w' (k a) R) -> total w (bind m k) R.
Proof.
  intros (a & w' & Hm & HQ) Hk. destruct (Hk a w' HQ) as (b & w'' & Hb & HR).
  exists b, w''. split; [|done]. unfold bind. by rewrite Hm.
Qed.

Lemma total_ret w (a : A) (Q : A -> WPACKET -> Prop) : Q a w -> total w (ret a) Q.
Proof. intros HQ. exists a, w. done. Qed.

Lemma total_weaken w m (Q R : A -> WPACKET -> Prop) :
  total w m Q -> (forall a w', Q a w' -> R a w') -> total w m R.
Proof. intros (a & w' & ? & ?) HR. exists a, w'. auto. Qed.

(** A writer that succeeds does what its partial specification says. *)
Lemma total_hoare w m Q :
  hoare w m Q -> total w m (fun _ _ => True) -> total w m Q.
Proof.
  intros Hm (a & w' & Hr & _). exists a, w'. split; [done|].
  pose proof (Hm []) as Hm0. by rewrite Hr in Hm0.
Qed.

End Triples.

Lemma hoare_get {B} w (k : WS -> M WS B) R :
  (forall o, hoare w (k (w, o)) R) -> hoare w (bind get k) R.
Proof. intros Hk o. exact (Hk o o). Qed.

Lemma total_get {B} w (k : WS -> M WS B) R :
  total w (k (w, [])) R -> total w (bind get k) R.
Proof. intros Hk. exact Hk. Qed.

Lemma hoare_guard {B} w (b : bool) (k : M WS B) R :
  (b = true -> hoare w k R) -> hoare w (guard b ;;; k) R.
Proof. intros Hk. destruct b; [exact (Hk eq_refl)|]. intros o. exact I. Qed.

Lemma hoare_guard_last w (b : bool) (R : unit -> WPACKET -> Prop) :
  (b = true -> R tt w) -> hoare w (guard b) R.
Proof. intros Hk. destruct b; intros o; [exact (Hk eq_refl)|exact I]. Qed.

Lemma total_guard {B} w (b : bool) (k : M WS B) R :
  b = true -> total w k R -> total w (guard b ;;; k) R.
Proof. intros -> Hk. exact Hk. Qed.

Lemma hoare_upd w f (R : unit -> WPACKET -> Prop) : R tt (f w) -> hoare w (upd f) R.
Proof. intros HR o. exact HR. Qed.

Lemma total_upd w f (R : unit -> WPACKET -> Prop) : R tt (f w) -> total w (upd f) R.
Proof. intros HR. exists tt, (f w). done. Qed.

Lemma hoare_upd_bind {B} w f (k : M WS B) R : hoare (f w) k R -> hoare w (upd f ;;; k) R.
Proof. intros Hk o. exact (Hk o). Qed.

Lemma total_upd_bind {B} w f (k : M WS B) R : total (f w) k R -> total w (upd f ;;; k) R.
Proof. intros Hk. exact Hk. Qed.

Lemma hoare_alloc w : hoare w wp_alloc (fun _ w' => w' = w).
Proof. intros o. unfold wp_alloc. simpl. by destruct (alloc o). Qed.

Lemma total_alloc w : total w wp_alloc (fun b w' => b = true /\ w' = w).
Proof. exists true, w. done. Qed.

Lemma hoare_wp_grow w b n :
  buf_wf b -> bm_length b < n ->
  hoare w (wp_grow b n) (fun r w' => exists b', w' = set_buf (Some b') w /\
    (r <> 0 -> bm_length b' = n /\ buf_wf b' /\
               buf_used b' = buf_used b ++ zrepeat 0 (n - bm_length b))).
Proof.
  intros Hwf Hn o. unfold wp_grow. destruct (BUF_MEM_grow b n o) as [[r b'] o'] eqn:E.
  simpl. rewrite E. simpl. exists b'. split; [done|]. intros Hr.
  destruct (BUF_MEM_grow_ok _ _ _ _ _ _ Hwf Hn E) as [[? _]|(? & ? & ? & ?)]; [done|].
  done.
Qed.

Lemma total_wp_grow w b n :
  bm_length b < n <= LIMIT_BEFORE_EXPANSION ->
  total w (wp_grow b n) (fun r _ => r = n).
Proof.
  intros Hn. unfold total, wp_grow. simpl.
  destruct (BUF_MEM_grow b n []) as [[r b'] o'] eqn:E.
  destruct (BUF_MEM_grow_succeeds _ _ _ _ _ Hn E) as [-> ->]. eauto.
Qed.

(** ** Lemmas: reserving, allocating and storing *)

Lemma GETBUF_set w d d' :
  GETBUF w = Some d -> GETBUF (set_GETBUF d' w) = Some d'.
Proof. unfold GETBUF, set_GETBUF. repeat (case_match; simpl in *; simplify_eq; try done). Qed.

Lemma set_GETBUF_fields d w :
  curr (set_GETBUF d w) = curr w /\ written (set_GETBUF d w) = written w
  /\ maxsize (set_GETBUF d w) = maxsize w /\ subs (set_GETBUF d w) = subs w
  /\ endfirst (set_GETBUF d w) = endfirst w.
Proof. unfold set_GETBUF. repeat case_match; done. Qed.

Lemma set_GETBUF_frame w d d' :
  GETBUF w = Some d -> zlen d' = zlen d -> frame w (set_GETBUF d' w).
Proof.
  intros Hd Hl. destruct (set_GETBUF_fields d' w) as (_ & _ & Hm & _ & He).
  split; [|by rewrite Hm, He]. unfold GETBUF, kind, set_GETBUF in *.
  destruct w as [[b|] [sb|] ? ? ? ? ?]; simpl in *; simplify_eq; by rewrite ?Hl.
Qed.

Lemma set_GETBUF_wf w d d' :
  wf w -> GETBUF w = Some d -> zlen d' = zlen d -> wf (set_GETBUF d' w).
Proof.
  intros (? & ? & ? & Hb & ?) Hd Hl. unfold wf.
  destruct (set_GETBUF_fields d' w) as (-> & -> & -> & -> & _).
  do 3 (split; [done|]). split; [|done].
  unfold buffer_wf, GETBUF, set_GETBUF in *.
  destruct w as [[b|] [sb|] ? ? ? ? ?]; simpl in *; simplify_eq; try lia; try done.
  unfold buf_wf, buf_bytes in *. rewrite Hd in Hb. simpl in *. rewrite Hl.
  naive_solver.
Qed.

(** The bytes that are behind a pointer exist. *)
Lemma wf_GETBUF w d : wf w -> GETBUF w = Some d -> written w <= zlen d.
Proof.
  intros (? & ? & ? & Hb & ?) Hd. unfold buffer_wf, GETBUF in *.
  destruct (staticbuf w), (buf w) as [b|]; simplify_eq; try done; [lia|].
  destruct Hb as ((? & Hz & ?) & ? & ?). unfold buf_bytes in Hz. rewrite Hd in Hz.
  simpl in Hz. lia.
Qed.

Lemma store_ok w o d p bs :
  GETBUF w = Some d -> 0 <= p -> p + zlen bs <= zlen d ->
  store p bs (w, o) = (Ok tt, (set_GETBUF (write_at p bs d) w, o)).
Proof.
  intros Hd ? ?. unfold store, bind, get. simpl. rewrite Hd.
  by replace ((0 <=? p) && (p + zlen bs <=? zlen d)) with true by lia.
Qed.

Lemma hoare_store w d p bs (R : unit -> WPACKET -> Prop) :
  GETBUF w = Some d -> 0 <= p -> p + zlen bs <= zlen d ->
  R tt (set_GETBUF (write_at p bs d) w) -> hoare w (store p bs) R.
Proof. intros Hd ? ? HR o. by rewrite (store_ok w o d). Qed.

Lemma total_store w d p bs (R : unit -> WPACKET -> Prop) :
  GETBUF w = Some d -> 0 <= p -> p + zlen bs <= zlen d ->
  R tt (set_GETBUF (write_at p bs d) w) -> total w (store p bs) R.
Proof. intros Hd ? ? HR. do 2 eexists. split; [by apply store_ok|done]. Qed.

(** Bytes are added at the end, or in front when writing backwards. *)
Definition cat (e : bool) (c bs : list Z) : list Z := if e then bs ++ c else c ++ bs.

(** The result of allocating [len] bytes at [p]. *)
Definition allocated (w : WPACKET) (len : Z) (p : option Z) (w' : WPACKET) : Prop :=
  0 < len /\ wf w' /\ frame w w' /\ subs w' = subs w /\ written w' = written w + len /\
  match p with
  | None => WPACKET_is_null_buf w = true
  | Some q =>
      exists d, GETBUF w' = Some d /\ 0 <= q /\ q + len <= zlen d
        /\ (endfirst w = false -> q = written w)
        /\ (forall bs, zlen bs = len ->
              contents (set_GETBUF (write_at q bs d) w') = cat (endfirst w) (contents w) bs)
  end.

(** What a writer that adds [bs] does to the packet. *)
Definition appended (w : WPACKET) (bs : list Z) (w' : WPACKET) : Prop :=
  wf w' /\ frame w w' /\ subs w' = subs w /\ written w' = written w + zlen bs
  /\ (WPACKET_is_null_buf w = false -> contents w' = cat (endfirst w) (contents w) bs).

Lemma allocated_store w bs q w' d :
  allocated w (zlen bs) (Some q) w' -> GETBUF w' = Some d ->
  appended w bs (set_GETBUF (write_at q bs d) w').
Proof.
  intros (? & Hwf & Hf & Hs & Hw & (d' & Hd' & ? & ? & _ & Hc)) Hd.
  rewrite Hd in Hd'. simplify_eq.
  assert (zlen (write_at q bs d') = zlen d') as Hl by (apply zlen_write_at; lia).
  destruct (set_GETBUF_fields (write_at q bs d') w') as (_ & Hw' & _ & Hs' & _).
  split; [by apply (set_GETBUF_wf _ d')|].
  split; [transitivity w'; [done|by apply (set_GETBUF_frame _ d')]|].
  rewrite Hw', Hs'. split; [done|]. split; [lia|]. intros _. by apply Hc.
Qed.

(** A write in front of [w0], which ends at offset [mx]. *)
Lemma write_at_end_first (w0 d bs : list Z) q mx :
  0 <= q -> q + zlen bs + zlen w0 = mx -> mx <= zlen d ->
  zdrop (q + zlen bs) (ztake mx d) = w0 ->
  zdrop q (ztake mx (write_at q bs d)) = bs ++ w0.
Proof.
  intros ? ? ? Hw. pose proof (zlen_nonneg bs). pose proof (zlen_nonneg w0).
  unfold write_at. rewrite ztake_app, zlen_ztake, zdrop_app by lia.
  rewrite (ztake_ge mx (ztake q d)), zlen_ztake by (rewrite ?zlen_ztake; lia).
  rewrite (zdrop_ge q (ztake q d)), zdrop_le_zero by (rewrite ?zlen_ztake; lia).
  rewrite ztake_app, (ztake_ge _ bs) by lia. simpl. f_equal. rewrite <- Hw.
  rewrite !ztake_take, !zdrop_drop, take_drop_commute. f_equal. f_equal. lia.
Qed.

Definition has_room (w : WPACKET) (n : Z) : Prop :=
  match buf w with
  | Some b => written w + n <= bm_length b
  | None => True
  end.

(** The offset of the next [len] bytes. *)
Definition wr_pos (w : WPACKET) (len : Z) : Z :=
  if endfirst w then maxsize w - written w - len else written w.

Definition reserved (w : WPACKET) (len : Z) (w' : WPACKET) : Prop :=
  wf w' /\ frame w w' /\ subs w' = subs w /\ written w' = written w
  /\ contents w' = contents w /\ has_room w' len.

(** Growing the buffer of a packet keeps its contents. *)
Lemma reserved_grow w b b' len :
  wf w -> buf w = Some b -> buf_wf b' -> 0 <= len -> written w + len <= bm_length b' ->
  buf_used b' = buf_used b ++ zrepeat 0 (bm_length b' - bm_length b) ->
  reserved w len (set_buf (Some b') w).
Proof.
  intros (? & ? & ? & Hb & ?) Eb Hb' ? ? Hu. unfold buffer_wf in Hb. rewrite Eb in Hb.
  destruct (staticbuf w) eqn:Es; [done|]. destruct Hb as (Hwf & ? & He).
  unfold reserved, wf, frame, buffer_wf, has_room, kind. simpl. rewrite Es, Eb, He.
  split; [split_and!; auto; lia|]. do 3 (split; [done|]). split; [|done].
  unfold contents, GETBUF. simpl. rewrite Es, Eb, He. simpl.
  fold (buf_bytes b) (buf_bytes b'). pose proof Hb' as (? & _ & _). pose proof Hwf as (? & _ & _).
  transitivity (ztake (written w) (buf_used b')).
  - unfold buf_used. rewrite ztake_ztake. f_equal. lia.
  - rewrite Hu, ztake_app, zlen_buf_used, (ztake_le_zero (_ - _)), app_nil_r by (done || lia).
    unfold buf_used. rewrite ztake_ztake. f_equal. lia.
Qed.

Lemma reserved_refl w len : wf w -> has_room w len -> reserved w len w.
Proof. intros. by unfold reserved, frame. Qed.

(** A packet with bytes in its buffer has a buffer. *)
Lemma has_room_GETBUF w len :
  wf w -> has_room w len -> 0 < len ->
  GETBUF w = None -> WPACKET_is_null_buf w = true.
Proof.
  intros (? & ? & ? & Hb & ?) Hr ? Hg.
  unfold buffer_wf, has_room, GETBUF, WPACKET_is_null_buf in *.
  destruct w as [[b|] [sb|] ? ? ? ? e]; simpl in *; try done.
  destruct Hb as ((? & ? & Hn) & ? & ?). specialize (Hn Hg). lia.
Qed.

Definition wcap (w : WPACKET) : Z :=
  match buf w with
  | Some _ => Z.min (maxsize w) (LIMIT_BEFORE_EXPANSION / 2)
  | None => maxsize w
  end.

(** The length that [WPACKET_reserve_bytes] grows the buffer to. *)
Definition grow_len (b : BUF_MEM) (len : Z) : Z :=
  let reflen := if len >? bm_length b then len else bm_length b in
  if reflen >? SIZE_MAX / 2 then SIZE_MAX
  else let n := u64 (reflen * 2) in
       if n <? DEFAULT_BUF_SIZE then DEFAULT_BUF_SIZE else n.

Lemma grow_len_enough b len :
  buf_wf b -> 0 < len <= SIZE_MAX ->
  bm_length b < grow_len b len
  /\ (grow_len b len < 2147483648 -> bm_length b + len <= grow_len b len).
Proof.
  intros ((? & ?) & _ & _) ?. unfold grow_len, DEFAULT_BUF_SIZE. cbv zeta.
  repeat case_match; ulia.
Qed.

Lemma grow_len_limit b len :
  0 <= bm_length b <= LIMIT_BEFORE_EXPANSION / 2 ->
  0 < len <= LIMIT_BEFORE_EXPANSION / 2 ->
  grow_len b len <= LIMIT_BEFORE_EXPANSION.
Proof.
  unfold LIMIT_BEFORE_EXPANSION. intros. unfold grow_len, DEFAULT_BUF_SIZE. cbv zeta.
  repeat case_match; ulia.
Qed.

Lemma hoare_reserve w len :
  wf w -> is_u64 len ->
  hoare w (WPACKET_reserve_bytes len) (fun p w' =>
    0 < len /\ written w + len <= maxsize w /\ reserved w len w'
    /\ p = match GETBUF w' with None => None | Some _ => Some (wr_pos w' len) end).
Proof.
  intros Hwf Hlen. pose proof Hwf as (? & ? & Hc & Hb & ?).
  apply hoare_get. intros o0. simpl. apply hoare_guard. intros Hne.
  apply hoare_guard. intros Hfit.
  assert (0 < len /\ written w + len <= maxsize w) as [Hpos Hroom] by ulia.
  apply (hoare_bind _ _ _ (fun _ w' => reserved w len w')).
  - unfold buffer_wf in Hb. destruct (buf w) as [b|] eqn:Eb.
    2: { apply hoare_ret, reserved_refl; [done|]. unfold has_room. by rewrite Eb. }
    destruct (staticbuf w); [done|]. destruct Hb as (Hbw & ? & He).
    pose proof Hbw as ((? & ?) & _ & _). rewrite (u64_id (_ - _)) by lia. case_match.
    2: { apply hoare_ret, reserved_refl; [done|]. unfold has_room. rewrite Eb. lia. }
    destruct (grow_len_enough b len Hbw) as [Hg1 Hg2]; [ulia|]. fold (grow_len b len).
    eapply hoare_bind; [by apply (hoare_wp_grow w b)|].
    intros r w' (b' & -> & Hr). apply hoare_guard_last. intros Hr0.
    destruct Hr as (Hl & Hb' & Hu); [intros ->; done|].
    pose proof Hb' as ((? & ?) & _ & _).
    apply (reserved_grow w b b'); try done; [lia| |by rewrite Hl].
    lia.
  - intros _ w' Hres. apply hoare_get. intros o1. simpl. apply hoare_ret.
    do 3 (split; [done|]). unfold WPACKET_get_curr, wr_pos.
    destruct Hres as ((? & ? & Hc' & ?) & (_ & Hm & _) & _ & Hw' & _).
    destruct (GETBUF w'); [|done]. rewrite Hc'. destruct (endfirst w'); [|done].
    by rewrite u64_id by ulia.
Qed.

Lemma total_reserve w len :
  wf w -> 0 < len -> subs w <> [] -> written w + len <= wcap w ->
  total w (WPACKET_reserve_bytes len) (fun _ _ => True).
Proof.
  intros Hwf Hlen Hs Hcap. pose proof Hwf as (? & ? & Hc & Hb & ?).
  apply total_get. simpl. apply total_guard; [rewrite bool_decide_false by done; lia|].
  assert (written w + len <= maxsize w) by (unfold wcap in Hcap; case_match; lia).
  apply total_guard; [rewrite u64_id by ulia; lia|].
  apply (total_bind _ _ _ (fun _ _ => True)).
  - unfold buffer_wf, wcap in *. destruct (buf w) as [b|] eqn:Eb; [|by apply total_ret].
    destruct (staticbuf w); [done|]. destruct Hb as (Hbw & ? & He).
    pose proof Hbw as ((? & ?) & _ & _). rewrite (u64_id (_ - _)) by lia.
    case_match; [|by apply total_ret].
    destruct (grow_len_enough b len Hbw) as [Hg1 Hg2]; [ulia|]. fold (grow_len b len).
    pose proof (grow_len_limit b len ltac:(lia) ltac:(lia)).
    eapply total_bind; [by apply (total_wp_grow w b)|].
    intros r w' ->. unfold guard.
    replace (grow_len b len =? 0) with false by lia. by apply total_ret.
  - intros _ w' _. apply total_get. by apply total_ret.
Qed.

(** Advancing over reserved bytes. *)
Lemma advance_wf w len :
  wf w -> 0 <= len -> written w + len <= maxsize w -> has_room w len ->
  wf (set_pos (written w + len) (written w + len) w).
Proof.
  intros (? & ? & ? & Hb & Hs) ? ? Hr. split; [simpl; lia|]. split; [done|]. split; [done|].
  split.
  - unfold buffer_wf, has_room in *. simpl. repeat case_match; try done.
    destruct Hb as (? & ? & ?). by split_and!.
  - simpl. apply (subs_wf_mono (written w)); [done|lia].
Qed.

(** Storing into the advanced-over bytes extends the contents. *)
Lemma advance_store w len d bs :
  wf w -> 0 < len -> written w + len <= maxsize w -> has_room w len -> zlen bs = len ->
  GETBUF w = Some d ->
  0 <= wr_pos w len /\ wr_pos w len + len <= zlen d /\
  contents (set_GETBUF (write_at (wr_pos w len) bs d)
              (set_pos (written w + len) (written w + len) w))
  = cat (endfirst w) (contents w) bs.
Proof.
  intros Hwf ? ? Hr Hbs Hd. pose proof (advance_wf w len Hwf) as Hwf'.
  specialize (Hwf' ltac:(lia) ltac:(done) Hr).
  set (w' := set_pos _ _ _) in *.
  assert (GETBUF w' = Some d) as Hd' by exact Hd.
  pose proof (wf_GETBUF _ _ Hwf' Hd') as Hlen. simpl in Hlen.
  unfold contents. rewrite (GETBUF_set w' d) by done.
  destruct (set_GETBUF_fields (write_at (wr_pos w len) bs d) w') as (_ & -> & -> & _ & ->).
  rewrite Hd. simpl. unfold wr_pos. pose proof Hwf as (? & ? & _ & Hb & _).
  destruct (endfirst w) eqn:He; simpl.
  - assert (maxsize w <= zlen d) as Hmax.
    { unfold buffer_wf, GETBUF in *. destruct (staticbuf w), (buf w); simplify_eq; try done.
      destruct Hb as (_ & _ & ?). congruence. }
    split; [lia|]. split; [lia|].
    replace (maxsize w - (written w + len)) with (maxsize w - written w - len) by lia.
    assert (zlen (zdrop (maxsize w - written w) (ztake (maxsize w) d)) = written w) as Hz.
    { rewrite zlen_zdrop; rewrite zlen_ztake; lia. }
    apply write_at_end_first; try lia. f_equal. lia.
  - split; [lia|]. split; [lia|]. rewrite <- Hbs. apply ztake_write_at; lia.
Qed.

Lemma reserved_allocated w len w' :
  wf w -> 0 < len -> written w + len <= maxsize w -> reserved w len w' ->
  allocated w len (match GETBUF w' with None => None | Some _ => Some (wr_pos w' len) end)
    (set_pos (u64 (curr w' + len)) (u64 (written w' + len)) w').
Proof.
  intros Hwf ? ? (Hwf' & Hf & Hs & Hw & Hc & Hr).
  pose proof Hwf' as (? & ? & -> & _). pose proof Hf as (Hk & Hm & He).
  rewrite u64_id by ulia. split; [done|].
  split; [apply advance_wf; [done|lia|lia|done]|].
  split; [done|]. split; [done|]. split; [simpl; lia|].
  destruct (GETBUF w') as [d|] eqn:Ed.
  - destruct (advance_store w' len d (zrepeat 0 len)) as (? & ? & _);
      rewrite ?zlen_zrepeat; try done; try lia.
    exists d. split; [done|]. split; [done|]. split; [done|]. split.
    + intros E. unfold wr_pos. by rewrite He, E, Hw.
    + intros bs Hbs.
      destruct (advance_store w' len d bs) as (_ & _ & ->); try done; [lia|].
      by rewrite He, Hc.
  - rewrite <- (kind_null w w' Hk). by apply (has_room_GETBUF w' len).
Qed.

Lemma hoare_allocate w len :
  wf w -> is_u64 len -> hoare w (WPACKET_allocate_bytes len) (allocated w len).
Proof.
  intros Hwf Hlen. eapply hoare_bind; [by apply hoare_reserve|].
  intros p w' (? & ? & Hres & ->). simpl.
  apply hoare_upd_bind, hoare_ret. by apply reserved_allocated.
Qed.

Lemma total_allocate w len :
  wf w -> 0 < len -> subs w <> [] -> written w + len <= wcap w ->
  total w (WPACKET_allocate_bytes len) (allocated w len).
Proof.
  intros Hwf ? Hs Hcap. pose proof Hwf as (? & ? & _). apply total_hoare.
  - apply hoare_allocate; [done|]. unfold wcap in Hcap. case_match; ulia.
  - eapply total_bind; [by apply total_reserve|]. intros p w' _. simpl.
    apply total_upd_bind. by apply total_ret.
Qed.

(** ** Lemmas: writers

    [emits m bs]: [m] adds exactly the bytes [bs] to a packet that has the room.
    [safe null m]: [m] keeps the packet well-formed and does nothing undefined;
    with [null] this includes the packets without a buffer. *)

Definition ready (w : WPACKET) : Prop :=
  wf w /\ WPACKET_is_null_buf w = false /\ subs w <> [].

Definition emits {A} (m : M WS A) (e : bool) (bs : list Z) : Prop :=
  forall w, ready w -> endfirst w = e -> written w + zlen bs <= wcap w ->
            total w m (fun _ w' => appended w bs w').

Definition safe {A} (null : bool) (m : M WS A) : Prop :=
  forall w, wf w -> (null = false -> WPACKET_is_null_buf w = false) ->
            hoare w m (fun _ w' => wf w' /\ kind w' = kind w).

Lemma wcap_frame w w' : frame w w' -> wcap w' = wcap w.
Proof.
  intros (Hk & Hm & _). unfold wcap, kind in *. rewrite Hm. by destruct (buf w), (buf w').
Qed.

Lemma appended_ready w bs w' : ready w -> appended w bs w' -> ready w'.
Proof.
  intros (_ & Hn & Hs) (Hwf & (Hk & _) & Hs' & _). split; [done|].
  rewrite (kind_null _ _ Hk), Hs'. done.
Qed.

Lemma appended_trans w bs w' cs w'' :
  ready w -> appended w bs w' -> appended w' cs w'' ->
  appended w (cat (endfirst w) bs cs) w''.
Proof.
  intros (_ & Hn & _) (? & Hf & Hs & Hw & Hc) (? & Hf' & Hs' & Hw' & Hc').
  split; [done|]. split; [by transitivity w'|]. split; [congruence|].
  pose proof Hf as (Hk & _ & He). rewrite (kind_null _ _ Hk), He in *.
  split.
  - rewrite Hw', Hw. unfold cat. destruct (endfirst w); rewrite zlen_app; lia.
  - intros _. rewrite Hc', Hc by done. unfold cat.
    destruct (endfirst w); by rewrite app_assoc.
Qed.

Section Writers.
Context {A B : Type}.

Lemma emits_bind (m : M WS A) (k : A -> M WS B) e bs cs :
  emits m e bs -> (forall a, emits (k a) e cs) -> emits (bind m k) e (cat e bs cs).
Proof.
  intros Hm Hk w Hr He Hcap.
  assert (zlen (cat e bs cs) = zlen bs + zlen cs) as Hl.
  { unfold cat. destruct e; rewrite zlen_app; lia. }
  pose proof (zlen_nonneg bs). pose proof (zlen_nonneg cs).
  eapply total_bind; [apply Hm; [done|done|lia]|]. simpl. intros a w' Happ.
  pose proof Happ as (_ & Hf & _ & Hw & _). pose proof Hf as (_ & _ & He').
  eapply total_weaken.
  - apply Hk; [by eapply appended_ready|congruence|]. rewrite (wcap_frame _ _ Hf). lia.
  - simpl. intros b w'' Happ'. rewrite <- He. by eapply appended_trans.
Qed.

Lemma emits_ret e (a : A) : emits (ret a) e [].
Proof.
  intros w Hr He _. apply total_ret. split; [apply Hr|]. split; [done|]. split; [done|].
  zsimpl. split; [lia|]. intros _. unfold cat. destruct (endfirst w); by rewrite ?app_nil_r.
Qed.

Lemma emits_guard (b : bool) (m : M WS A) e bs :
  b = true -> emits m e bs -> emits (guard b ;;; m) e bs.
Proof. intros -> Hm w Hr He Hcap. apply total_guard; [done|]. by apply Hm. Qed.

Lemma safe_bind n (m : M WS A) (k : A -> M WS B) :
  safe n m -> (forall a, safe n (k a)) -> safe n (bind m k).
Proof.
  intros Hm Hk w Hwf Hn. eapply hoare_bind; [by apply Hm|]. simpl.
  intros a w' [Hwf' Hk']. eapply hoare_weaken.
  - apply Hk; [done|]. by rewrite (kind_null _ _ Hk').
  - simpl. intros b w'' [? ?]. split; congruence.
Qed.

Lemma safe_ret n (a : A) : safe n (ret a).
Proof. intros w Hwf _. by apply hoare_ret. Qed.

Lemma safe_fail n : safe n (@fail WS A).
Proof. intros w Hwf _. apply hoare_fail. Qed.

Lemma safe_get n (k : WS -> M WS B) : (forall s, safe n (k s)) -> safe n (bind get k).
Proof. intros Hk w Hwf Hn. apply hoare_get. intros o. by apply Hk. Qed.

End Writers.

Lemma safe_guard n (b : bool) : safe n (@guard WS b).
Proof. destruct b; [apply safe_ret|apply safe_fail]. Qed.

Lemma safe_weaken {A} n (m : M WS A) : safe true m -> safe n m.
Proof. intros Hm w Hwf _. by apply Hm. Qed.

Lemma safe_allocate n len : is_u64 len -> safe n (WPACKET_allocate_bytes len).
Proof.
  intros Hl w Hwf _. eapply hoare_weaken; [by apply hoare_allocate|].
  simpl. by intros p w' (? & ? & (? & _) & _).
Qed.

(** Storing into freshly allocated bytes. *)
Definition put_at (p : option Z) (bs : list Z) : M WS unit :=
  match p with Some q => store q bs | None => ret tt end.

Lemma hoare_put_at w bs p w' :
  allocated w (zlen bs) p w' -> hoare w' (put_at p bs) (fun _ => appended w bs).
Proof.
  intros Ha. destruct p as [q|].
  - pose proof Ha as (_ & _ & _ & _ & _ & (d & Hd & ? & ? & _)).
    eapply hoare_store; try done. by apply allocated_store.
  - apply hoare_ret. destruct Ha as (? & ? & ? & ? & ? & Hn). split_and!; try done.
    by rewrite Hn.
Qed.

Lemma total_put_at w bs p w' :
  WPACKET_is_null_buf w = false ->
  allocated w (zlen bs) p w' -> total w' (put_at p bs) (fun _ => appended w bs).
Proof.
  intros Hn Ha. destruct p as [q|].
  - pose proof Ha as (_ & _ & _ & _ & _ & (d & Hd & ? & ? & _)).
    eapply total_store; try done. by apply allocated_store.
  - destruct Ha as (? & ? & ? & ? & ? & Hn'). congruence.
Qed.

Lemma be_bytes_snoc n v :
  be_bytes (S n) v = be_bytes n (v / 256) ++ [v mod 256].
Proof.
  induction n as [|n IH] in v |- *.
  - simpl. by rewrite Z.div_1_r.
  - change (be_bytes (S (S n)) v) with ((v / 256 ^ Z.of_nat (S n)) mod 256 :: be_bytes (S n) v).
    rewrite IH. simpl be_bytes. rewrite <- app_comm_cons. do 2 f_equal.
    rewrite Nat2Z.inj_succ, Z.pow_succ_r, Z.div_div by lia. done.
Qed.

Lemma put_value_loop_spec n v acc :
  0 <= v -> put_value_loop v n acc = (be_bytes n v ++ acc, v / 256 ^ Z.of_nat n).
Proof.
  revert v acc. induction n as [|n IH]; intros v acc Hv.
  - simpl. by rewrite Z.div_1_r.
  - cbn [put_value_loop]. rewrite Z.shiftr_div_pow2 by lia. change (2 ^ 8) with 256.
    rewrite IH, be_bytes_snoc by (apply Z.div_pos; lia). rewrite <- app_assoc. simpl app.
    rewrite Nat2Z.inj_succ, Z.pow_succ_r, Z.div_div by lia. do 3 f_equal.
    change 255 with (Z.ones 8). by rewrite Z.land_ones by lia.
Qed.

(** [put_value] stores the big-endian bytes of a value and reports whether it
    fitted. *)
Lemma put_value_spec p v len :
  0 <= v -> 0 <= len ->
  put_value p v len =
    match p with
    | None => ret tt
    | Some q => put_at p (be_bytes (Z.to_nat len) v) ;;;
                guard (bool_decide (v < 256 ^ len))
    end.
Proof.
  intros Hv Hl. unfold put_value. destruct p; [|done].
  rewrite put_value_loop_spec, app_nil_r by done. rewrite Z2Nat.id by done. simpl.
  assert (negb (v / 256 ^ len >? 0) = bool_decide (v < 256 ^ len)) as ->; [|done].
  assert (0 < 256 ^ len) by (apply Z.pow_pos_nonneg; lia).
  case_bool_decide as Hb.
  - by rewrite Z.div_small by lia.
  - assert (1 <= v / 256 ^ len); [|lia]. apply Z.div_le_lower_bound; lia.
Qed.

Lemma hoare_put_value w v len p w' :
  0 <= v -> allocated w len p w' ->
  hoare w' (put_value p v len) (fun _ => appended w (be_bytes (Z.to_nat len) v)).
Proof.
  intros Hv Ha. pose proof Ha as (Hl & _). rewrite put_value_spec by lia.
  assert (zlen (be_bytes (Z.to_nat len) v) = len) as Hz by (rewrite length_be_bytes; lia).
  rewrite <- Hz in Ha at 1. destruct p as [q|].
  - eapply hoare_bind; [by apply hoare_put_at|]. simpl. intros _ w2 Happ. by apply hoare_guard_last.
  - by apply (hoare_put_at w _ None).
Qed.

Lemma total_put_value w v len p w' :
  0 <= v < 256 ^ len -> WPACKET_is_null_buf w = false -> allocated w len p w' ->
  total w' (put_value p v len) (fun _ => appended w (be_bytes (Z.to_nat len) v)).
Proof.
  intros Hv Hn Ha. pose proof Ha as (Hl & _). rewrite put_value_spec by lia.
  assert (zlen (be_bytes (Z.to_nat len) v) = len) as Hz by (rewrite length_be_bytes; lia).
  rewrite <- Hz in Ha at 1. destruct p as [q|].
  - eapply total_bind; [by apply total_put_at|]. simpl. intros _ w2 Happ.
    rewrite bool_decide_true by lia. by apply total_ret.
  - destruct Ha as (? & ? & ? & ? & ? & Hn'). congruence.
Qed.

(** An allocation of the bytes that the continuation stores. *)
Lemma emits_alloc {A} (k : option Z -> M WS A) e bs :
  bs <> [] ->
  (forall w p w', WPACKET_is_null_buf w = false -> allocated w (zlen bs) p w' ->
     total w' (k p) (fun _ => appended w bs)) ->
  emits (bind (WPACKET_allocate_bytes (zlen bs)) k) e bs.
Proof.
  intros Hbs Hk w (Hwf & Hn & Hs) He Hcap. pose proof (zlen_nonneg bs).
  assert (zlen bs <> 0) by (intros ?; by apply Hbs, zlen_zero_nil).
  eapply total_bind; [apply total_allocate; [done|lia|done|done]|].
  simpl. intros p w' Ha. by apply Hk.
Qed.

Lemma emits_put_bytes e v n :
  0 < n <= 8 -> 0 <= v < 256 ^ n ->
  emits (WPACKET_put_bytes__ v n) e (be_bytes (Z.to_nat n) v).
Proof.
  intros Hn Hv. apply emits_guard; [lia|].
  assert (zlen (be_bytes (Z.to_nat n) v) = n) as Hz by (rewrite length_be_bytes; lia).
  replace (WPACKET_allocate_bytes n) with
    (WPACKET_allocate_bytes (zlen (be_bytes (Z.to_nat n) v))) by (by rewrite Hz).
  apply emits_alloc.
  - intros E. rewrite E in Hz. zsimpl. lia.
  - intros w p w' ? Ha. rewrite Hz in Ha. by apply total_put_value.
Qed.

Lemma hoare_put_bytes w v n :
  wf w -> 0 <= v -> 0 <= n ->
  hoare w (WPACKET_put_bytes__ v n) (fun _ => appended w (be_bytes (Z.to_nat n) v)).
Proof.
  intros Hwf Hv Hn. apply hoare_guard. intros Hb.
  eapply hoare_bind; [apply hoare_allocate; [done|ulia]|]. simpl. intros p w' Ha.
  by apply hoare_put_value.
Qed.

Lemma appended_safe w bs w' : appended w bs w' -> wf w' /\ kind w' = kind w.
Proof. by intros (? & (? & _) & _). Qed.

Lemma safe_put_bytes null v n : 0 <= v -> 0 <= n -> safe null (WPACKET_put_bytes__ v n).
Proof.
  intros Hv Hn w Hwf _. eapply hoare_weaken; [by apply hoare_put_bytes|].
  simpl. intros _ w'. apply appended_safe.
Qed.

Lemma emits_memcpy e src : emits (WPACKET_memcpy src (zlen src)) e src.
Proof.
  unfold WPACKET_memcpy. case_match eqn:E.
  - apply Z.eqb_eq in E. apply zlen_zero_nil in E as ->. apply emits_ret.
  - apply emits_alloc; [intros ->; zsimpl; done|]. intros w p w' ? Ha.
    rewrite ztake_ge by lia. by apply total_put_at.
Qed.

Lemma safe_memcpy null src len :
  is_u64 len -> len <= zlen src -> safe null (WPACKET_memcpy src len).
Proof.
  intros Hl Hs w Hwf _. unfold WPACKET_memcpy. case_match; [by apply hoare_ret|].
  eapply hoare_bind; [by apply hoare_allocate|]. simpl. intros p w' Ha.
  eapply hoare_weaken; [apply (hoare_put_at w (ztake len src)); rewrite zlen_ztake|].
  - done.
  - ulia.
  - intros ? w2. apply appended_safe.
Qed.

Lemma emits_memset e ch n :
  0 <= n -> emits (WPACKET_memset ch n) e (zrepeat (u8 ch) n).
Proof.
  intros Hn. unfold WPACKET_memset. case_match eqn:E.
  - apply Z.eqb_eq in E as ->. apply emits_ret.
  - assert (zlen (zrepeat (u8 ch) n) = n) as Hz by (by apply zlen_zrepeat).
    replace (WPACKET_allocate_bytes n) with
      (WPACKET_allocate_bytes (zlen (zrepeat (u8 ch) n))) by (by rewrite Hz).
    apply emits_alloc; [intros Hnil; rewrite Hnil in Hz; zsimpl; lia|].
    intros w p w' ? Ha. by apply total_put_at.
Qed.

Lemma safe_memset null ch n : is_u64 n -> safe null (WPACKET_memset ch n).
Proof.
  intros Hn w Hwf _. unfold WPACKET_memset. case_match; [by apply hoare_ret|].
  eapply hoare_bind; [by apply hoare_allocate|]. simpl. intros p w' Ha.
  eapply hoare_weaken; [apply (hoare_put_at w (zrepeat (u8 ch) n)); rewrite zlen_zrepeat|].
  - done.
  - ulia.
  - intros ? w2. apply appended_safe.
Qed.

Lemma emits_quic_vlint e v :
  0 <= v <= OSSL_QUIC_VLINT_MAX ->
  emits (WPACKET_quic_write_vlint v) e (ossl_quic_vlint_encode v).
Proof.
  intros Hv. pose proof (zlen_encode v Hv) as Hz. pose proof (encode_len_bounds v Hv) as Hb.
  apply emits_guard; [lia|]. rewrite <- Hz. apply emits_alloc.
  - intros E. rewrite E in Hz. zsimpl. lia.
  - intros w p w' ? Ha. destruct p as [q|]; [by apply (total_put_at w _ (Some q))|].
    destruct Ha as (? & ? & ? & ? & ? & Hn'). congruence.
Qed.

Lemma safe_quic_vlint v : 0 <= v -> safe false (WPACKET_quic_write_vlint v).
Proof.
  intros Hv w Hwf Hn. apply hoare_guard. intros Hg.
  assert (v <= OSSL_QUIC_VLINT_MAX) as Hm.
  { unfold ossl_quic_vlint_encode_len in Hg. repeat case_match; try done;
      unfold OSSL_QUIC_VLINT_MAX, OSSL_QUIC_VLINT_8B_MAX, OSSL_QUIC_VLINT_2B_MIN,
        OSSL_QUIC_VLINT_4B_MIN, OSSL_QUIC_VLINT_8B_MIN in *;
      change (Z.shiftl 1 62) with 4611686018427387904 in *; lia. }
  pose proof (zlen_encode v ltac:(lia)) as Hz. pose proof (encode_len_bounds v ltac:(lia)).
  eapply hoare_bind; [apply hoare_allocate; [done|ulia]|]. simpl. intros p w' Ha.
  destruct p as [q|].
  - rewrite <- Hz in Ha. eapply hoare_weaken; [by apply (hoare_put_at w _ (Some q))|].
    simpl. intros _ w2. apply appended_safe.
  - destruct Ha as (? & ? & ? & ? & ? & Hn'). rewrite Hn in Hn' by done. done.
Qed.

(** ** Lemmas: sub-packets *)

(** Allocating does not look at the sub-packets, except that there is one. *)
Lemma allocate_set_subs w s len o :
  subs w <> [] -> s <> [] ->
  WPACKET_allocate_bytes len (set_subs s w, o) =
    (let '(r, (w', o')) := WPACKET_allocate_bytes len (w, o) in (r, (set_subs s w', o'))).
Proof.
  intros Hw Hs. destruct w as [b sb c wr mx ss e].
  unfold WPACKET_allocate_bytes, WPACKET_reserve_bytes, bind, get, upd, modify, ret, wp_grow.
  simpl in *. rewrite !(bool_decide_false (_ = [])) by done. unfold guard, ret, fail.
  destruct (len =? 0); simpl; [done|].
  destruct (u64 (mx - wr) <? len); simpl; [done|].
  destruct b as [b|]; simpl; [|done].
  destruct (u64 (bm_length b - wr) <? len); simpl; [|done].
  fold (grow_len b len). destruct (BUF_MEM_grow b (grow_len b len) o) as [[r b'] o'].
  by destruct (r =? 0).
Qed.

(** A packet in which a sub-packet with an [n]-byte length has been opened. *)
Definition opened (w : WPACKET) (n : Z) (w' : WPACKET) : Prop :=
  exists w1, allocated w n (match GETBUF w1 with None => None | Some _ => Some (wr_pos w n) end) w1
    /\ w' = set_subs (mkSub (written w) n (written w + n) 0 :: subs w) w1.

Lemma allocated_pos w len p w' :
  allocated w len p w' ->
  endfirst w = false ->
  p = match GETBUF w' with None => None | Some _ => Some (wr_pos w len) end.
Proof.
  intros (? & Hwf & Hf & ? & ? & Hp) He. unfold wr_pos. rewrite He. destruct p as [q|].
  - destruct Hp as (d & -> & _ & _ & Hq & _). by rewrite Hq.
  - destruct Hf as (Hk & _). rewrite <- (kind_null _ _ Hk) in Hp.
    unfold WPACKET_is_null_buf, GETBUF in *. by destruct (buf w'), (staticbuf w').
Qed.

Lemma start_len_unfold w o n :
  subs w <> [] -> (n = 0 \/ endfirst w = false) -> 0 <= n ->
  WPACKET_start_sub_packet_len__ n (w, o) =
    (let (ok, o') := alloc o in
     if negb ok then (Err, (w, o'))
     else
       let s := mkSub (if n =? 0 then 0 else written w) n (u64 (written w + n)) 0 :: subs w in
       if n =? 0 then (Ok tt, (set_subs s w, o'))
       else (WPACKET_allocate_bytes n ;;; ret tt) (set_subs s w, o')).
Proof.
  intros Hs Hn Hn0. unfold WPACKET_start_sub_packet_len__, bind at 1, get. cbn [fst snd].
  rewrite (bool_decide_false (_ = [])) by done.
  assert ((n >? 0) && endfirst w = false) as Hg.
  { destruct Hn as [->| ->]; [done|]. by rewrite andb_false_r. }
  rewrite Hg. simpl. unfold bind at 1 2 3 4, guard, wp_alloc, ret, fail. simpl.
  destruct (alloc o) as [[|] o']; simpl; [|done].
  unfold upd, modify. simpl. by destruct (n =? 0).
Qed.

Lemma opened_wf w n w' : wf w -> opened w n w' -> wf w' /\ kind w' = kind w.
Proof.
  intros (? & ? & ? & _ & Hs) (w1 & (? & (? & ? & ? & ? & Hs1) & (Hk & _) & Es & Hw & _) & ->).
  split; [|done]. do 4 (split; [done|]). simpl. rewrite Hw.
  split_and!; try lia; [by intros [=]|].
  by replace (written w + n - n) with (written w) by lia.
Qed.

Lemma hoare_start_len w n :
  wf w -> is_u64 n ->
  hoare w (WPACKET_start_sub_packet_len__ n) (fun _ w' =>
    wf w' /\ kind w' = kind w /\ (0 < n -> endfirst w = false /\ opened w n w')).
Proof.
  intros Hwf Hn o. pose proof Hwf as (? & ? & ? & ? & ?).
  destruct (decide (subs w = [])) as [E|E].
  { unfold WPACKET_start_sub_packet_len__, bind at 1, get. simpl. by rewrite E. }
  destruct (decide (0 < n /\ endfirst w = true)) as [[? He]|He].
  { unfold WPACKET_start_sub_packet_len__, bind, get, guard, ret, fail. simpl.
    rewrite (bool_decide_false (_ = [])), He by done. simpl.
    by replace (n >? 0) with true by lia. }
  rewrite start_len_unfold; [|done| |ulia].
  2: { destruct (decide (n = 0)); [by left|right]. destruct (endfirst w); [|done].
       exfalso. apply He. ulia. }
  destruct (alloc o) as [[|] o1]; simpl; [|done].
  destruct (n =? 0) eqn:E0.
  { apply Z.eqb_eq in E0 as ->. simpl. split; [|split; [done|lia]].
    do 4 (split; [done|]). simpl. rewrite Z.add_0_r, u64_id, Z.sub_0_r by ulia.
    split_and!; try lia; done. }
  apply Z.eqb_neq in E0. unfold bind. rewrite allocate_set_subs by done.
  pose proof (hoare_allocate w n Hwf Hn o1) as Ha.
  destruct (WPACKET_allocate_bytes n (w, o1)) as [[p| |] [w1 o2]]; try done. simpl in *.
  assert (endfirst w = false) as Hef by (destruct (endfirst w); [exfalso; apply He; ulia|done]).
  pose proof Ha as (? & (? & ? & _) & (_ & ? & _) & _ & Hw1 & _).
  rewrite u64_id by ulia.
  assert (opened w n (set_subs (mkSub (written w) n (written w + n) 0 :: subs w) w1)) as Ho.
  { exists w1. split; [|done]. by rewrite <- (allocated_pos _ _ _ _ Ha Hef). }
  destruct (opened_wf w n _ Hwf Ho). done.
Qed.

Lemma total_start_len w n :
  ready w -> endfirst w = false -> 0 < n -> written w + n <= wcap w ->
  total w (WPACKET_start_sub_packet_len__ n) (fun _ w' => opened w n w').
Proof.
  intros (Hwf & Hnn & Hs) He Hn Hcap. pose proof Hwf as (? & ? & ? & ? & ?).
  assert (wcap w <= maxsize w) by (unfold wcap; case_match; lia).
  destruct (total_allocate w n Hwf Hn Hs Hcap) as (p & w1 & Hr & Ha).
  exists tt, (set_subs (mkSub (written w) n (written w + n) 0 :: subs w) w1).
  rewrite start_len_unfold by (auto; lia). simpl. replace (n =? 0) with false by lia.
  unfold bind. rewrite allocate_set_subs by done. simpl in Hr. rewrite Hr. simpl.
  rewrite u64_id by ulia. split; [done|].
  exists w1. split; [|done]. by rewrite <- (allocated_pos _ _ _ _ Ha He).
Qed.

(** The contents of an opened packet: the old ones and the length field, whose
    bytes are still indeterminate. *)
Lemma opened_contents w n w' :
  WPACKET_is_null_buf w = false -> endfirst w = false -> opened w n w' ->
  exists junk, zlen junk = n /\ contents w' = contents w ++ junk.
Proof.
  intros Hnn He (w1 & Ha & ->). pose proof Ha as (? & Hwf1 & (Hk & Hm & He1) & _ & Hw & Hp).
  destruct (GETBUF w1) as [d|] eqn:Ed; [|congruence].
  destruct Hp as (d' & Hd' & ? & Hlen & Hq & Hc). simplify_eq.
  unfold wr_pos in *. rewrite He in *.
  specialize (Hc (zrepeat 0 n) ltac:(rewrite zlen_zrepeat; lia)).
  unfold contents at 1 in Hc. rewrite (GETBUF_set w1 d') in Hc by done.
  destruct (set_GETBUF_fields (write_at (written w) (zrepeat 0 n) d') w1)
    as (_ & Hf1 & _ & _ & Hf2). rewrite Hf1, Hf2, He1, Hw in Hc. simpl in Hc.
  pose proof (ztake_write_at (written w) (zrepeat 0 n) d') as Hpre.
  rewrite zlen_zrepeat in Hpre by lia. rewrite Hpre in Hc by lia.
  apply app_inv_tail in Hc.
  exists (ztake n (zdrop (written w) d')).
  assert (zlen (zdrop (written w) d') = zlen d' - written w) as Hz by (rewrite zlen_zdrop; lia).
  split; [rewrite zlen_ztake; lia|].
  unfold contents at 1. change (GETBUF (set_subs _ w1)) with (GETBUF w1). simpl.
  rewrite He1, Ed, Hw. simpl. rewrite <- Hc.
  rewrite <- (ztake_zdrop (written w) d') at 1. rewrite ztake_app, zlen_ztake by lia.
  rewrite ztake_ge by (rewrite zlen_ztake; lia). do 2 f_equal. lia.
Qed.

Lemma encode_len_size v :
  ossl_quic_vlint_encode_len v <> 0 -> vlint_size (ossl_quic_vlint_encode_len v).
Proof. unfold vlint_size, ossl_quic_vlint_encode_len. repeat case_match; tauto. Qed.

Lemma zlen_encode_n v n : vlint_size n -> zlen (ossl_quic_vlint_encode_n v n) = n.
Proof. by intros [->|[->|[->| ->]]]. Qed.

Lemma count_len_bytes_bounds fuel v k :
  0 <= k -> k <= count_len_bytes fuel v k <= k + Z.of_nat fuel.
Proof.
  revert v k. induction fuel as [|fuel IH]; intros v k Hk;
    unfold count_len_bytes; fold count_len_bytes; [lia|].
  case_match; [|lia]. specialize (IH (Z.shiftr v 8) (k + 1) ltac:(lia)). lia.
Qed.

(** A store below the write position, into the length field of a sub-packet. *)
Lemma hoare_store_below w d p bs :
  wf w -> GETBUF w = Some d -> 0 <= p -> p + zlen bs <= written w ->
  hoare w (store p bs) (fun _ w' => wf w' /\ frame w w' /\ written w' = written w
                                    /\ subs w' = subs w).
Proof.
  intros Hwf Hd ? ?. pose proof (wf_GETBUF _ _ Hwf Hd).
  eapply hoare_store; [done|done|lia|].
  assert (zlen (write_at p bs d) = zlen d) as Hl by (apply zlen_write_at; lia).
  destruct (set_GETBUF_fields (write_at p bs d) w) as (_ & -> & _ & -> & _).
  split; [by apply (set_GETBUF_wf _ d)|]. split; [by apply (set_GETBUF_frame _ d)|]. done.
Qed.

(** Writing the length of a sub-packet of the chain. *)
Lemma hoare_write_sub_len w sub parent packlen :
  wf w -> subs_wf (written w) (sub :: parent) -> 0 <= packlen ->
  hoare w (write_sub_len sub parent packlen) (fun _ w' =>
    wf w' /\ kind w' = kind w /\ written w <= written w' /\ subs w' = subs w).
Proof.
  intros Hwf (Hl & Htop & Hp & Hv & _) Hpl. pose proof Hwf as (? & _).
  apply hoare_get. intros o. cbn [fst snd]. case_match.
  - destruct (GETBUF w) as [d|] eqn:Ed; [|by apply hoare_ret].
    specialize (Hp ltac:(lia)). case_match eqn:Ef.
    + rewrite put_value_spec by lia.
      eapply hoare_bind; [apply (hoare_store_below w d); rewrite ?length_be_bytes; (lia || assumption)|].
      simpl. intros _ w' (? & (? & _) & ? & ?). apply hoare_guard_last. intros _.
      split_and!; (lia || assumption).
    + unfold put_quic_value. apply hoare_guard. intros _.
      specialize (Hv ltac:(by destruct (has_flag _ _)) ltac:(lia)).
      eapply hoare_weaken; [apply (hoare_store_below w d); rewrite ?zlen_encode_n; (lia || assumption)|].
      simpl. intros _ w' (? & (? & _) & ? & ?). split_and!; (lia || assumption).
  - case_match; [|by apply hoare_ret].
    pose proof (count_len_bytes_bounds 8 packlen 1 ltac:(lia)).
    eapply hoare_bind; [apply hoare_put_bytes; (lia || assumption)|].
    cbv beta. intros _ w' (Hwf' & (Hk & _) & Hs & Hw & _).
    pose proof (zlen_nonneg (be_bytes (Z.to_nat (count_len_bytes 8 packlen 1)) packlen)).
    case_match; [|apply hoare_ret; split_and!; (lia || assumption)].
    eapply hoare_weaken; [apply hoare_put_bytes; [done| |lia]|].
    { apply Z.lor_nonneg. lia. }
    cbv beta. intros _ w2 (? & (? & _) & ? & Hw2 & _).
    rewrite length_be_bytes in *. split_and!; (lia || congruence).
Qed.

(** Giving back the length field of an abandoned sub-packet. *)
Lemma abandon_wf w sub parent :
  wf w -> subs w = sub :: parent -> written w = pwritten sub ->
  let w' := if u64 (curr w - lenbytes sub) =? packet_len sub
            then set_pos (u64 (curr w - lenbytes sub)) (u64 (written w - lenbytes sub)) w
            else w in
  subs_wf (written w') parent /\ wf (set_subs parent w') /\ kind w' = kind w
  /\ endfirst w' = endfirst w.
Proof.
  intros Hwf Hs Hw. pose proof Hwf as (? & ? & Hc & Hb & Hsub). rewrite Hs in Hsub.
  destruct Hsub as (Hl & Htop & Hp & Hv & Hpar).
  assert (subs_wf (written w) parent) as Hpar' by (apply (subs_wf_mono _ _ _ Hpar); lia).
  rewrite Hc, (u64_id (written w - _)) by ulia. case_match; simpl.
  - replace (written w - lenbytes sub) with (pwritten sub - lenbytes sub) by lia.
    split_and!; try done; unfold wf, buffer_wf in *; simpl.
    split_and!; try done; try lia.
    destruct (staticbuf w), (buf w); try done.
    destruct Hb as (? & ? & ?). split_and!; (done || lia).
  - by split_and!.
Qed.

Lemma hoare_intern_close w sub parent doclose :
  wf w -> (doclose = true -> subs w = sub :: parent) -> subs_wf (written w) (sub :: parent) ->
  hoare w (wpacket_intern_close sub parent doclose) (fun _ w' =>
    wf w' /\ kind w' = kind w /\ (doclose = false -> written w <= written w')
    /\ subs w' = if doclose then parent else subs w).
Proof.
  intros Hwf Hd Hsub. pose proof Hwf as (? & ? & _). pose proof Hsub as (? & ? & _ & _ & Hpar).
  apply hoare_get. intros o. cbn [fst snd]. rewrite (u64_id (_ - _)) by ulia.
  apply hoare_guard. intros _. case_match eqn:Ea.
  - destruct doclose; [|intros ?; exact I]. specialize (Hd eq_refl).
    assert (written w = pwritten sub) as Hw by (apply andb_prop in Ea; lia).
    destruct (abandon_wf w sub parent Hwf Hd Hw) as (Hp & Hwf' & Hk & He).
    intros o'. unfold bind, guard, ret, upd, modify, write_sub_len, get. cbn [fst snd].
    replace (written w - pwritten sub) with 0 by lia. simpl.
    apply andb_prop in Ea as [_ ->]. cbn [negb orb]. unfold bind at 1. rewrite andb_false_r. simpl.
    by rewrite <- Hk.
  - eapply hoare_bind; [by apply (hoare_ret w sub (fun a w' => a = sub /\ w' = w))|].
    cbv beta. intros a w' [-> ->].
    eapply hoare_bind; [apply hoare_write_sub_len; [done|done|lia]|].
    cbv beta. intros _ w1 (Hwf1 & Hk1 & Hw1 & Hs1). destruct doclose; [|by apply hoare_ret].
    apply hoare_upd. split; [|done].
    destruct Hwf1 as (? & ? & ? & ? & Hsub1). do 4 (split; [done|]). simpl.
    apply (subs_wf_mono _ _ _ Hpar). lia.
Qed.

Lemma safe_close null : safe null WPACKET_close.
Proof.
  intros w Hwf _. apply hoare_get. intros o. cbn [fst snd].
  destruct (subs w) as [|sub [|par l]] eqn:E; try apply hoare_fail.
  pose proof Hwf as (_ & _ & _ & _ & Hs). rewrite E in Hs.
  eapply hoare_weaken; [by apply hoare_intern_close|]. by intros _ w' (? & ? & _).
Qed.

Lemma safe_finish null : safe null WPACKET_finish.
Proof.
  intros w Hwf _. apply hoare_get. intros o. cbn [fst snd].
  destruct (subs w) as [|sub [|par l]] eqn:E; try apply hoare_fail.
  pose proof Hwf as (_ & _ & _ & _ & Hs). rewrite E in Hs.
  eapply hoare_bind; [by apply hoare_intern_close|].
  cbv beta. intros _ w' ((? & ? & ? & ? & ?) & ? & _). apply hoare_upd. done.
Qed.

Lemma hoare_fill_lengths_loop w l :
  wf w -> subs_wf (written w) l ->
  hoare w (fill_lengths_loop l) (fun _ w' => wf w' /\ kind w' = kind w).
Proof.
  revert w. induction l as [|sub parent IH]; intros w Hwf Hs; simpl; [by apply hoare_ret|].
  eapply hoare_bind; [by apply hoare_intern_close|]. cbv beta.
  intros _ w' (Hwf' & Hk & Hw & _). specialize (Hw eq_refl).
  eapply hoare_weaken; [apply IH; [done|]|].
  - destruct Hs as (? & ? & _ & _ & Hs). apply (subs_wf_mono _ _ _ Hs). lia.
  - cbv beta. intros _ w2 [? ?]. split; congruence.
Qed.

Lemma safe_fill_lengths null : safe null WPACKET_fill_lengths.
Proof.
  intros w Hwf _. apply hoare_get. intros o. cbn [fst snd]. apply hoare_guard. intros _.
  apply hoare_fill_lengths_loop; [done|apply Hwf].
Qed.

Lemma safe_start_len null n : is_u64 n -> safe null (WPACKET_start_sub_packet_len__ n).
Proof.
  intros Hn w Hwf _. eapply hoare_weaken; [by apply hoare_start_len|].
  by intros _ w' (? & ? & _).
Qed.

Lemma safe_set_flags null fl :
  has_flag fl WPACKET_FLAGS_QUIC_VLINT = false -> safe null (WPACKET_set_flags fl).
Proof.
  intros Hfl w Hwf _. apply hoare_get. intros o. cbn [fst snd].
  destruct (subs w) as [|sub parent] eqn:E; [apply hoare_fail|].
  apply hoare_upd. split; [|done]. destruct Hwf as (? & ? & ? & ? & Hs). rewrite E in Hs.
  do 4 (split; [done|]). simpl. rewrite Hfl. destruct Hs as (? & ? & ? & ? & ?).
  split; [done|]. split; [done|]. split; [done|]. by split.
Qed.

Lemma hoare_start_quic w max_len :
  wf w -> 0 <= max_len ->
  hoare w (WPACKET_start_quic_sub_packet_bound max_len) (fun _ w' =>
    wf w' /\ kind w' = kind w).
Proof.
  intros Hwf Hm. apply hoare_guard. intros Hg.
  assert (vlint_size (ossl_quic_vlint_encode_len max_len)) as Hv.
  { apply encode_len_size. intros E. by rewrite E in Hg. }
  eapply hoare_bind; [apply hoare_start_len; [done|]|].
  { destruct Hv as [->|[->|[->| ->]]]; done. }
  cbv beta. intros _ w' ((? & ? & ? & ? & Hs) & Hk & Ho). apply hoare_upd.
  destruct Ho as (_ & w1 & _ & ->); [destruct Hv as [->|[->|[->| ->]]]; lia|].
  simpl in *. split; [|done]. do 4 (split; [done|]). simpl. tauto.
Qed.

Lemma safe_start_quic null max_len :
  0 <= max_len -> safe null (WPACKET_start_quic_sub_packet_bound max_len).
Proof. intros Hm w Hwf _. by apply hoare_start_quic. Qed.

Lemma hoare_set_max_size w max :
  wf w -> (forall n b, kind w = (Some n, b) -> max <= n) ->
  hoare w (WPACKET_set_max_size max) (fun _ w' => wf w' /\ kind w' = kind w).
Proof.
  intros (? & ? & ? & Hb & Hs) Hcap. apply hoare_get. intros o. cbn [fst snd].
  destruct (list.last (subs w)) as [sub|]; [|apply hoare_fail].
  apply hoare_guard. intros Hg. apply hoare_upd. split; [|done].
  assert (max <= SIZE_MAX /\ written w <= max) as [? ?].
  { apply negb_true_iff, orb_false_elim in Hg as [Hg1 Hg2].
    unfold maxmaxsize in Hg1. split; [|lia].
    destruct (_ || _) eqn:Ec in Hg1; [lia|].
    apply orb_false_elim in Ec as [Ec _]. unfold SIZEOF_SIZE_T in *.
    set (n := if lenbytes sub =? 0 then 8 else lenbytes sub) in *.
    rewrite Z.shiftl_1_l in Hg1.
    assert (2 ^ (n * 8) <= 2 ^ 56).
    { destruct (decide (0 <= n)); [apply Z.pow_le_mono_r; lia|].
      rewrite (Z.pow_neg_r 2) by lia. lia. }
    change (2 ^ 56) with 72057594037927936 in *. ulia. }
  split_and!; simpl; try done; try lia. unfold buffer_wf in *. simpl.
  destruct (staticbuf w) as [d|] eqn:Ed, (buf w) as [b|] eqn:Eb; try done.
  apply (Hcap (zlen d) false). unfold kind. by rewrite Ed, Eb.
Qed.

Lemma total_and {A} w (m : M WS A) (Q R : A -> WPACKET -> Prop) :
  total w m Q -> hoare w m R -> total w m (fun a w' => Q a w' /\ R a w').
Proof.
  intros (a & w' & Hr & HQ) HR. exists a, w'. split; [done|]. split; [done|].
  specialize (HR ([] : oracle)). by rewrite Hr in HR.
Qed.

(** The bytes of a length field: [n] bytes, big-endian or as a QUIC integer. *)
Definition len_field (fl n v : Z) (h : list Z) : Prop :=
  0 < n /\
  ((fl = 0 /\ v < 256 ^ n /\ h = be_bytes (Z.to_nat n) v) \/
   (fl = WPACKET_FLAGS_QUIC_VLINT /\ vlint_size n /\ ossl_quic_vlint_encode_len v <= n
    /\ h = ossl_quic_vlint_encode_n v n)).

Lemma zlen_len_field fl n v h : len_field fl n v h -> zlen h = n.
Proof.
  intros (? & [(_ & _ & ->)|(_ & ? & _ & ->)]).
  - rewrite length_be_bytes. lia.
  - by apply zlen_encode_n.
Qed.

Lemma ztake_write_inside (p n : Z) (h d : list Z) :
  0 <= p -> p + zlen h <= n -> n <= zlen d ->
  ztake n (write_at p h d) = write_at p h (ztake n d).
Proof.
  intros. pose proof (zlen_nonneg h). unfold write_at.
  rewrite ztake_app, zlen_ztake by lia. rewrite (ztake_ge n (ztake p d)) by (rewrite zlen_ztake; lia).
  rewrite ztake_ztake. replace (Z.min p n) with p by lia. f_equal.
  rewrite ztake_app, (ztake_ge _ h) by lia. f_equal.
  rewrite !ztake_take, !zdrop_drop, skipn_firstn_comm. f_equal. lia.
Qed.

Lemma no_buffer_empty w :
  wf w -> WPACKET_is_null_buf w = false -> GETBUF w = None -> written w = 0.
Proof.
  intros (? & _ & _ & Hb & _) Hn Ed. unfold GETBUF, WPACKET_is_null_buf, buffer_wf in *.
  destruct (staticbuf w), (buf w) as [b|]; try done.
  destruct Hb as (((? & ?) & ? & Hd) & ? & _). specialize (Hd Ed). lia.
Qed.

Lemma total_close w p n fl par L h :
  wf w -> WPACKET_is_null_buf w = false -> endfirst w = false ->
  subs w = mkSub p n (p + n) fl :: par -> par <> [] -> 0 <= p -> 0 <= L ->
  written w = p + n + L -> len_field fl n L h ->
  total w WPACKET_close (fun _ w' =>
    (frame w w' /\ written w' = written w /\ contents w' = write_at p h (contents w))
    /\ (wf w' /\ kind w' = kind w /\ (true = false -> written w <= written w') /\ subs w' = par)).
Proof.
  intros Hwf Hnn He Hs Hpar Hp HL Hw Hh. pose proof (zlen_len_field _ _ _ _ Hh) as Hz.
  pose proof Hwf as (Hr1 & Hr2 & Hc & Hb & Hsub). rewrite Hs in Hsub.
  destruct Hh as (Hn & Hh). destruct par as [|par0 par]; [done|].
  unfold WPACKET_close. apply total_get. cbn [fst snd]. rewrite Hs.
  apply total_and; [|by apply hoare_intern_close].
  destruct (GETBUF w) as [d|] eqn:Ed.
  2: { pose proof (no_buffer_empty w Hwf Hnn Ed). lia. }
  pose proof (wf_GETBUF _ _ Hwf Ed).
  set (w1 := set_GETBUF (write_at p h d) w).
  assert (zlen (write_at p h d) = zlen d) as Hl by (apply zlen_write_at; lia).
  exists tt, (set_subs (par0 :: par) w1). split.
  - unfold wpacket_intern_close, bind at 1, get. cbn [fst snd pwritten flags].
    replace (written w - (p + n)) with L by lia. rewrite (u64_id L) by ulia.
    destruct Hh as [(-> & Hv & ->)|(-> & Hvs & Hv & ->)];
      rewrite !andb_false_r; cbn [negb]; unfold guard at 1, ret at 1, bind at 1, bind at 1, ret at 1;
      unfold write_sub_len, get, bind; cbn [fst snd lenbytes packet_len flags];
      replace (n >? 0) with true by lia; rewrite Ed; cbn [has_flag].
    + change (negb (has_flag 0 WPACKET_FLAGS_QUIC_VLINT)) with true. cbv iota.
      rewrite put_value_spec by lia. unfold put_at, bind.
      rewrite (store_ok w _ d) by (done || lia). by rewrite bool_decide_true by lia.
    + change (negb (has_flag WPACKET_FLAGS_QUIC_VLINT WPACKET_FLAGS_QUIC_VLINT)) with false.
      cbv iota. unfold put_quic_value, bind, guard.
      replace (ossl_quic_vlint_encode_len L >? n) with false by lia. simpl.
      by rewrite (store_ok w _ d) by (done || lia).
  - pose proof (set_GETBUF_frame w d _ Ed Hl) as Hf.
    destruct (set_GETBUF_fields (write_at p h d) w) as (_ & Hw1 & Hm1 & _ & He1).
    split; [exact Hf|]. split; [exact Hw1|].
    unfold contents. change (GETBUF (set_subs _ w1)) with (GETBUF w1).
    unfold w1. rewrite (GETBUF_set w d) by done. cbn [endfirst written maxsize set_subs].
    rewrite Hw1, He1, He, Ed. simpl. apply ztake_write_inside; lia.
Qed.

(** Replacing the indeterminate length field by its value. *)
Lemma write_at_field (c junk bs h : list Z) :
  zlen h = zlen junk -> write_at (zlen c) h ((c ++ junk) ++ bs) = c ++ h ++ bs.
Proof.
  intros Hl. unfold write_at. rewrite <- app_assoc, ztake_app_exact. do 2 f_equal.
  rewrite app_assoc, Hl, <- zlen_app. apply zdrop_app_exact.
Qed.

Lemma zlen_contents w :
  wf w -> WPACKET_is_null_buf w = false -> endfirst w = false -> zlen (contents w) = written w.
Proof.
  intros Hwf Hn He. unfold contents. rewrite He. pose proof Hwf as (? & _).
  destruct (GETBUF w) as [d|] eqn:Ed; simpl.
  - pose proof (wf_GETBUF _ _ Hwf Ed). apply zlen_ztake. lia.
  - pose proof (no_buffer_empty w Hwf Hn Ed). zsimpl. lia.
Qed.

(** From the opened packet to the closed one. *)
Lemma total_close_after w n fl w1 bs w2 h :
  ready w -> endfirst w = false -> opened w n w1 ->
  len_field fl n (zlen bs) h ->
  appended (set_subs (mkSub (written w) n (written w + n) fl :: subs w) w1) bs w2 ->
  total w2 WPACKET_close (fun _ w' => appended w (h ++ bs) w').
Proof.
  intros (Hwf & Hnn & Hs) He Ho Hh (Hwf2 & Hf2 & Hs2 & Hw2 & Hc2).
  destruct (opened_contents w n w1 Hnn He Ho) as (junk & Hj & Hc1).
  destruct Ho as (w0 & Ha & ->). pose proof Ha as (? & Hwf0 & Hf0 & _ & Hw0 & _).
  simpl in Hs2, Hw2. pose proof Hf0 as (Hk0 & Hm0 & He0).
  assert (frame w w2) as Hf by (transitivity w0; [exact Hf0|exact Hf2]).
  pose proof Hf as (Hk & Hm & He'). pose proof (zlen_nonneg bs). pose proof Hwf as (? & _).
  assert (contents w2 = (contents w ++ junk) ++ bs) as Hcw.
  { rewrite Hc2 by (rewrite <- Hnn; apply kind_null; exact Hk0).
    simpl. rewrite He0, He. simpl. by rewrite <- Hc1. }
  eapply total_weaken.
  - eapply (total_close w2 (written w) n fl (subs w) (zlen bs) h); try done; try lia.
    + rewrite <- Hnn. by apply kind_null.
    + congruence.
  - cbv beta. intros _ w' ((Hf' & Hw' & Hc') & (Hwf' & Hk' & _ & Hs')).
    pose proof (zlen_len_field _ _ _ _ Hh) as Hz.
    split; [done|]. split; [by transitivity w2|]. split; [done|].
    split; [rewrite zlen_app; lia|]. intros _. rewrite Hc', Hcw, He. simpl.
    rewrite <- (zlen_contents w Hwf Hnn He). apply write_at_field. lia.
Qed.

(** Opening and closing a sub-packet around a writer prefixes its output with
    the length. *)
Lemma emits_sub {A} (m : M WS A) n bs :
  emits m false bs -> 0 < n -> zlen bs < 256 ^ n ->
  emits (WPACKET_start_sub_packet_len__ n ;;; m ;;; WPACKET_close) false
    (be_bytes (Z.to_nat n) (zlen bs) ++ bs).
Proof.
  intros Hm Hn Hlt w Hr He Hcap. pose proof (zlen_nonneg bs).
  rewrite zlen_app, length_be_bytes, Z2Nat.id in Hcap by lia.
  eapply total_bind; [apply total_start_len; (done || lia)|]. cbv beta. intros _ w1 Ho.
  assert (len_field 0 n (zlen bs) (be_bytes (Z.to_nat n) (zlen bs))) as Hh.
  { split; [done|]. left. done. }
  destruct (opened_wf w n w1 (proj1 Hr) Ho) as [Hwf1 Hk1]. pose proof Ho as (w0 & Ha & Ew1).
  pose proof Ha as (_ & _ & Hf0 & _ & Hw0 & _).
  assert (frame w w1) as Hf1 by (rewrite Ew1; exact Hf0).
  eapply total_bind.
  - apply Hm.
    + split; [done|]. split; [rewrite (kind_null _ _ Hk1); apply Hr|by rewrite Ew1].
    + destruct Hf1 as (_ & _ & ->). done.
    + rewrite (wcap_frame _ _ Hf1), Ew1. simpl. lia.
  - cbv beta. intros a w2 Happ. apply (total_close_after w n 0 w1); try done.
    by rewrite Ew1 in Happ |- *.
Qed.

(** The same for a sub-packet whose length is a QUIC integer. *)
Lemma emits_quic_sub {A} (m : M WS A) max_len bs :
  emits m false bs -> 0 <= max_len <= OSSL_QUIC_VLINT_MAX ->
  ossl_quic_vlint_encode_len (zlen bs) <= ossl_quic_vlint_encode_len max_len ->
  emits (WPACKET_start_quic_sub_packet_bound max_len ;;; m ;;; WPACKET_close) false
    (ossl_quic_vlint_encode_n (zlen bs) (ossl_quic_vlint_encode_len max_len) ++ bs).
Proof.
  intros Hm Hmax Hlen w Hr He Hcap. pose proof (encode_len_bounds max_len Hmax) as Hn.
  set (n := ossl_quic_vlint_encode_len max_len) in *.
  assert (vlint_size n) as Hv by (apply encode_len_size; unfold n in *; lia).
  pose proof (zlen_nonneg bs). rewrite zlen_app, zlen_encode_n in Hcap by done.
  assert (len_field WPACKET_FLAGS_QUIC_VLINT n (zlen bs)
            (ossl_quic_vlint_encode_n (zlen bs) n)) as Hh by (split; [lia|by right]).
  eapply (total_bind _ _ _ (fun _ w' => exists w1, opened w n w1 /\
    w' = set_subs (mkSub (written w) n (written w + n) WPACKET_FLAGS_QUIC_VLINT :: subs w) w1)).
  - unfold WPACKET_start_quic_sub_packet_bound. fold n. apply total_guard; [lia|].
    eapply total_bind; [apply total_start_len; (done || lia)|]. cbv beta. intros _ w1 Ho.
    apply total_upd. exists w1. split; [done|]. by destruct Ho as (w0 & _ & ->).
  - cbv beta. intros _ w1' (w1 & Ho & ->).
    destruct (opened_wf w n w1 (proj1 Hr) Ho) as [Hwf1 Hk1]. pose proof Ho as (w0 & Ha & Ew1).
    pose proof Ha as (_ & _ & Hf0 & _ & Hw0 & _).
    assert (frame w w1) as Hf1 by (rewrite Ew1; exact Hf0).
    eapply total_bind.
    + apply Hm.
      * split; [|split; [|done]].
        -- rewrite Ew1 in Hwf1 |- *. destruct Hwf1 as (? & ? & ? & ? & Hsw).
           do 4 (split; [done|]). simpl in *. tauto.
        -- transitivity (WPACKET_is_null_buf w1); [done|].
           rewrite (kind_null _ _ Hk1). apply Hr.
      * destruct Hf1 as (_ & _ & Hf1). simpl. congruence.
      * change (wcap (set_subs _ w1)) with (wcap w1).
        rewrite (wcap_frame _ _ Hf1), Ew1. simpl. lia.
    + cbv beta. intros a w2 Happ. by apply (total_close_after w n WPACKET_FLAGS_QUIC_VLINT w1).
Qed.

(** ** Lemmas: DER lengths, written in front of the contents *)

(** The definite-form length octets of X.690, 8.1.3. *)
Definition der_length (v : Z) : list Z :=
  let k := count_len_bytes 8 v 1 in
  if v <=? 127 then [v] else (128 + k) :: be_bytes (Z.to_nat k) v.

Lemma count_len_bytes_spec fuel v k :
  0 <= v < 256 ^ (Z.of_nat fuel + 1) -> 1 <= k ->
  let r := count_len_bytes fuel v k in
  v < 256 ^ (r - k + 1) /\ (k < r -> 256 ^ (r - k) <= v).
Proof.
  revert v k. induction fuel as [|fuel IH]; intros v k Hv Hk;
    unfold count_len_bytes; fold count_len_bytes; cbv zeta.
  { rewrite Z.sub_diag. simpl in *. lia. }
  rewrite Z.shiftr_div_pow2 by lia. change (2 ^ 8) with 256.
  destruct (v / 256 >? 0) eqn:E.
  - rewrite Nat2Z.inj_succ in Hv. replace (Z.succ (Z.of_nat fuel) + 1) with
      (Z.succ (Z.of_nat fuel + 1)) in Hv by lia. rewrite Z.pow_succ_r in Hv by lia.
    destruct (IH (v / 256) (k + 1)) as [H1 H2]; [|lia|].
    { split; [lia|]. apply Z.div_lt_upper_bound; lia. }
    pose proof (count_len_bytes_bounds fuel (v / 256) (k + 1) ltac:(lia)).
    set (r := count_len_bytes fuel (v / 256) (k + 1)) in *.
    replace (r - k + 1) with (Z.succ (r - (k + 1) + 1)) by lia.
    replace (r - k) with (Z.succ (r - (k + 1))) by lia. rewrite !Z.pow_succ_r by lia.
    split; [ulia|]. intros _. destruct (decide (k + 1 < r)) as [Hlt|].
    + specialize (H2 Hlt). ulia.
    + replace (r - (k + 1)) with 0 by lia. ulia.
  - rewrite Z.sub_diag. simpl. split; [|lia]. change (256 ^ 1) with 256. ulia.
Qed.

Lemma count_len_bytes_64 v :
  is_u64 v -> let k := count_len_bytes 8 v 1 in
  1 <= k <= 8 /\ v < 256 ^ k /\ (v <= 127 -> k = 1) /\ (1 < k -> 256 ^ (k - 1) <= v).
Proof.
  intros Hv. pose proof (count_len_bytes_bounds 8 v 1 ltac:(lia)) as Hb. cbv zeta.
  destruct (count_len_bytes_spec 8 v 1) as [H1 H2]; [ulia|lia|].
  set (k := count_len_bytes 8 v 1) in *. replace (k - 1 + 1) with k in H1 by lia.
  assert (k <> 9).
  { intros ->. specialize (H2 ltac:(lia)). change (256 ^ (9 - 1)) with U64_MOD in H2. ulia. }
  split; [lia|]. split; [done|]. split; [|done]. intros Hs.
  destruct (decide (1 < k)) as [Hk|]; [|lia]. specialize (H2 Hk).
  assert (256 ^ 1 <= 256 ^ (k - 1)) by (apply Z.pow_le_mono_r; lia). lia.
Qed.

Lemma emits_len_octets v :
  is_u64 v ->
  emits (WPACKET_put_bytes__ v (count_len_bytes 8 v 1) ;;;
         if v >? 127 then WPACKET_put_bytes__ (Z.lor (count_len_bytes 8 v 1) 128) 1 else ret tt)
    true (der_length v).
Proof.
  intros Hv. destruct (count_len_bytes_64 v Hv) as (Hk & Hlt & H1 & _). unfold der_length.
  set (k := count_len_bytes 8 v 1) in *.
  assert (emits (WPACKET_put_bytes__ v k) true (be_bytes (Z.to_nat k) v)) as Hput
    by (apply emits_put_bytes; ulia).
  destruct (v <=? 127) eqn:E.
  - replace (v >? 127) with false by lia.
    replace [v] with (cat true (be_bytes (Z.to_nat k) v) []).
    { apply emits_bind; [done|]. intros _. apply emits_ret. }
    rewrite H1 by lia. simpl. rewrite Z.div_1_r, Z.mod_small by ulia. done.
  - replace (v >? 127) with true by lia.
    change ((128 + k) :: be_bytes (Z.to_nat k) v) with
      (cat true (be_bytes (Z.to_nat k) v) [128 + k]).
    apply emits_bind; [done|]. intros _.
    clearbody k. assert (Z.lor k 128 = 128 + k) as ->.
    { assert (k = 1 \/ k = 2 \/ k = 3 \/ k = 4 \/ k = 5 \/ k = 6 \/ k = 7 \/ k = 8) as Hd by lia.
      repeat (destruct Hd as [->|Hd]; [done|]). by rewrite Hd. }
    replace [128 + k] with (be_bytes (Z.to_nat 1) (128 + k)).
    { apply emits_put_bytes; lia. }
    simpl. rewrite Z.div_1_r, Z.mod_small by lia. done.
Qed.

(** Opening and closing a sub-packet around a backward writer. *)
Lemma emits_der {A} (m : M WS A) bs :
  emits m true bs ->
  emits (WPACKET_start_sub_packet ;;; m ;;; WPACKET_close) true
    (der_length (zlen bs) ++ bs).
Proof.
  intros Hm w Hr He Hcap. pose proof Hr as (Hwf & Hnn & Hs).
  pose proof Hwf as (? & ? & Hc & Hb & Hsw).
  pose proof (zlen_nonneg bs). pose proof (zlen_nonneg (der_length (zlen bs))).
  rewrite zlen_app in Hcap.
  assert (wcap w <= maxsize w) by (unfold wcap; case_match; lia).
  set (w1 := set_subs (mkSub 0 0 (written w) 0 :: subs w) w).
  assert (ready w1) as Hr1.
  { split; [|done]. do 4 (split; [done|]). simpl. rewrite Z.sub_0_r.
    split_and!; try lia; done. }
  destruct (Hm w1 Hr1 He) as (a & w2 & Hrun & Happ); [change (wcap w1) with (wcap w); simpl; lia|].
  pose proof Happ as (Hwf2 & Hf2 & Hs2 & Hw2 & Hc2). simpl in Hs2, Hw2.
  assert (frame w w2) as Hfw2 by exact Hf2.
  assert (endfirst w2 = true) as He2 by (destruct Hfw2 as (_ & _ & ->); done).
  assert (ready w2) as Hr2 by (by eapply appended_ready).
  destruct (emits_len_octets (zlen bs) ltac:(ulia) w2 Hr2 He2) as ([] & w3 & Hrun3 & Happ3).
  { rewrite (wcap_frame _ _ Hfw2). lia. }
  exists tt, (set_subs (subs w) w3). split.
  - unfold WPACKET_start_sub_packet, bind at 1. rewrite start_len_unfold by (done || auto).
    simpl. rewrite Z.add_0_r, u64_id by ulia. fold w1. unfold bind at 1.
    simpl in Hrun. rewrite Hrun. unfold WPACKET_close, bind at 1, get. cbn [fst snd].
    rewrite Hs2. destruct (subs w) as [|par0 par] eqn:Es; [done|].
    unfold wpacket_intern_close, bind at 1, get. cbn [fst snd pwritten flags].
    replace (written w2 - written w) with (zlen bs) by lia. rewrite (u64_id (zlen bs)) by ulia.
    change (has_flag 0 _) with false. rewrite !andb_false_r. cbn [negb].
    unfold guard at 1, bind at 1 2 3, ret at 1 2, write_sub_len, get at 1, bind at 1.
    cbn [fst snd lenbytes flags]. rewrite He2, orb_true_r.
    rewrite (bool_decide_false (_ :: _ = [])) by done.
    change (0 >? 0) with false. cbn [andb negb].
    simpl in Hrun3. by rewrite Hrun3.
  - destruct Happ3 as (Hwf3 & Hf3 & Hs3 & Hw3 & Hc3).
    assert (frame w w3) as Hf by (by transitivity w2).
    split; [|split; [exact Hf|split; [done|split]]].
    + destruct Hwf3 as (? & ? & ? & ? & ?). do 4 (split; [done|]). simpl.
      apply (subs_wf_mono _ _ _ Hsw). rewrite Hw3. lia.
    + simpl. rewrite zlen_app. lia.
    + intros _. transitivity (contents w3); [done|]. rewrite Hc3 by (by destruct Hr2 as (_ & ? & _)).
      rewrite He2, Hc2, He by done. simpl. rewrite He. simpl. by rewrite app_assoc.
Qed.

(** ** Lemmas: initialisation *)

Lemma maxmaxsize_bounds n : 0 <= n -> 0 <= maxmaxsize n <= SIZE_MAX.
Proof.
  intros Hn. unfold maxmaxsize, SIZEOF_SIZE_T. case_match eqn:E; [ulia|].
  apply orb_false_elim in E as [? ?]. rewrite Z.shiftl_1_l.
  assert (0 < 2 ^ (n * 8) <= 2 ^ 56).
  { split; [apply Z.pow_pos_nonneg; lia|apply Z.pow_le_mono_r; lia]. }
  change (2 ^ 56) with 72057594037927936 in *. ulia.
Qed.

(** The fields that the initialisers set before the common part. *)
Definition fresh (w : WPACKET) : Prop :=
  0 <= maxsize w <= SIZE_MAX /\
  match staticbuf w, buf w with
  | Some d, None => maxsize w <= zlen d
  | None, Some b => buf_wf b /\ endfirst w = false
  | None, None => True
  | Some _, Some _ => False
  end.

Lemma fresh_wf w : fresh w -> wf (set_subs [mkSub 0 0 0 0] (set_pos 0 0 w)).
Proof.
  intros (? & Hb). split; [simpl; lia|]. split; [simpl; lia|]. split; [done|].
  split; [|simpl; split_and!; try lia; done]. unfold buffer_wf. simpl. destruct (staticbuf w), (buf w); try done.
  destruct Hb as (Hbw & ?). split; [done|]. split; [apply Hbw|done].
Qed.

Lemma hoare_intern_init w n :
  fresh w -> is_u64 n ->
  hoare w (wpacket_intern_init_len n) (fun _ w' => wf w' /\ kind w' = kind w).
Proof.
  intros Hf Hn. apply hoare_upd_bind. eapply hoare_bind; [apply hoare_alloc|].
  cbv beta. intros ok w' ->. pose proof (fresh_wf w Hf) as Hwf.
  destruct ok; cbn [negb]; [|intros o; exact I].
  apply hoare_upd_bind. case_match eqn:E0; [by apply hoare_ret|]. apply Z.eqb_neq in E0.
  apply hoare_upd_bind. intros o.
  pose proof (hoare_allocate _ n Hwf Hn o) as Ha.
  change (set_subs [mkSub 0 n n 0] _) with
    (set_subs [mkSub 0 n n 0] (set_subs [mkSub 0 0 0 0] (set_pos 0 0 w))).
  rewrite allocate_set_subs by done.
  destruct (WPACKET_allocate_bytes n _) as [[p| |] [w1 o1]]; try done. simpl in *.
  destruct Ha as (? & (? & ? & ? & ? & _) & (Hk & _) & _ & Hw & _). simpl in Hw.
  split; [|done]. do 4 (split; [done|]). simpl.
  split_and!; try lia; done.
Qed.

Lemma total_intern_init w :
  fresh w -> WPACKET_is_null_buf w = false ->
  total w (wpacket_intern_init_len 0) (fun _ w' =>
    ready w' /\ kind w' = kind w /\ written w' = 0 /\ contents w' = []
    /\ maxsize w' = maxsize w /\ endfirst w' = endfirst w).
Proof.
  intros Hf Hn. eexists tt, _. split; [reflexivity|]. pose proof (fresh_wf w Hf).
  split; [by split_and!|]. split_and!; try done.
  unfold contents. simpl. case_match; [|by rewrite ztake_le_zero].
  rewrite Z.sub_0_r. apply zdrop_ge. destruct Hf as (? & _).
  set (d := default [] _). rewrite ztake_take, zlen_length, length_take. lia.
Qed.

(** ** Programs over the interface *)

Inductive winit :=
| InitStatic (buf : list Z) (lenbytes : Z)
| InitDer (buf : list Z)
| InitMem (b : BUF_MEM) (lenbytes : Z)
| InitNull (lenbytes : Z)
| InitNullDer.

Definition run_winit (i : winit) : M WS unit :=
  match i with
  | InitStatic d n => WPACKET_init_static_len d (zlen d) n
  | InitDer d => WPACKET_init_der d (zlen d)
  | InitMem b n => WPACKET_init_len b n
  | InitNull n => WPACKET_init_null n
  | InitNullDer => WPACKET_init_null_der
  end.

Inductive wop :=
| OpReserve (len : Z)
| OpAllocate (len : Z)
| OpSubAllocate (len n : Z)
| OpPutBytes (v n : Z)
| OpMemcpy (src : list Z) (len : Z)
| OpMemset (ch len : Z)
| OpSubMemcpy (src : list Z) (len n : Z)
| OpStartSub (n : Z)
| OpStartQuicSub (bound : Z)
| OpQuicSubAllocate (len : Z)
| OpVlint (v : Z)
| OpClose
| OpFillLengths
| OpFinish
| OpSetFlags (fl : Z)
| OpSetMaxSize (max : Z)
| OpCleanup.

Definition run_wop (op : wop) : M WS unit :=
  match op with
  | OpReserve len => WPACKET_reserve_bytes len ;;; ret tt
  | OpAllocate len => WPACKET_allocate_bytes len ;;; ret tt
  | OpSubAllocate len n => WPACKET_sub_allocate_bytes__ len n ;;; ret tt
  | OpPutBytes v n => WPACKET_put_bytes__ v n
  | OpMemcpy src len => WPACKET_memcpy src len
  | OpMemset ch len => WPACKET_memset ch len
  | OpSubMemcpy src len n => WPACKET_sub_memcpy__ src len n
  | OpStartSub n => WPACKET_start_sub_packet_len__ n
  | OpStartQuicSub bound => WPACKET_start_quic_sub_packet_bound bound
  | OpQuicSubAllocate len => WPACKET_quic_sub_allocate_bytes len ;;; ret tt
  | OpVlint v => WPACKET_quic_write_vlint v
  | OpClose => WPACKET_close
  | OpFillLengths => WPACKET_fill_lengths
  | OpFinish => WPACKET_finish
  | OpSetFlags fl => WPACKET_set_flags fl
  | OpSetMaxSize max => WPACKET_set_max_size max
  | OpCleanup => WPACKET_cleanup
  end.

(** The calls that open a sub-packet. When they fail it may remain open without room for its
    length. *)
Definition opens_sub (op : wop) : bool :=
  match op with
  | OpSubAllocate _ _ | OpSubMemcpy _ _ _ | OpStartSub _ | OpStartQuicSub _ | OpQuicSubAllocate _ => true
  | _ => false
  end.

(** A caller that goes on when a call fails, and cleans up when it was to open a
    sub-packet. *)
Fixpoint run_wops (ops : list wop) : M WS unit :=
  match ops with
  | [] => ret tt
  | op :: ops' => fun s =>
      match run_wop op s with
      | (Ok _, s') => run_wops ops' s'
      | (Err, s') => if opens_sub op then (WPACKET_cleanup ;;; run_wops ops') s' else run_wops ops' s'
      | (Ub, s') => (Ub, s')
      end
  end.

(** The capacity of a static buffer, and whether there is a buffer at all. *)
Definition winit_kind (i : winit) : option Z * bool :=
  match i with
  | InitStatic d _ | InitDer d => (Some (zlen d), false)
  | InitMem _ _ => (None, true)
  | InitNull _ | InitNullDer => (None, false)
  end.

(** What the caller of an initialiser has to provide. *)
Definition winit_ok (i : winit) : Prop :=
  match i with
  | InitStatic d n => is_u64 (zlen d) /\ is_u64 n
  | InitDer d => is_u64 (zlen d)
  | InitMem b n => buf_wf b /\ is_u64 n
  | InitNull n => is_u64 n
  | InitNullDer => True
  end.

(** What the caller of an operation has to provide: values in range, a source of
    the given length, a maximum within a static buffer, the QUIC flag set only
    through the QUIC interface, and integers written to a real buffer. *)
Definition wop_ok (k : option Z * bool) (op : wop) : Prop :=
  match op with
  | OpReserve len | OpAllocate len | OpQuicSubAllocate len => is_u64 len
  | OpSubAllocate len n => is_u64 len /\ is_u64 n
  | OpPutBytes v n => is_u64 v /\ is_u64 n
  | OpMemcpy src len => is_u64 len /\ len <= zlen src
  | OpMemset _ len => is_u64 len
  | OpSubMemcpy src len n => is_u64 len /\ len <= zlen src /\ is_u64 n
  | OpStartSub n | OpStartQuicSub n => is_u64 n
  | OpVlint v => is_u64 v /\ k <> (None, false)
  | OpClose | OpFillLengths | OpFinish | OpCleanup => True
  | OpSetFlags fl => has_flag fl WPACKET_FLAGS_QUIC_VLINT = false
  | OpSetMaxSize max => forall n, fst k = Some n -> max <= n
  end.

Lemma hoare_winit i w :
  winit_ok i -> hoare w (run_winit i) (fun _ w' => wf w' /\ kind w' = winit_kind i).
Proof.
  assert (is_u64 0) by ulia.
  destruct i as [d n|d|b n|n|]; simpl; intros Hok;
    unfold WPACKET_init_static_len, WPACKET_init_der, WPACKET_init_len, WPACKET_init_null,
      WPACKET_init_null_der; try (apply hoare_guard; intros ?); apply hoare_upd_bind;
    (eapply hoare_weaken;
      [apply hoare_intern_init; [|try ulia]|
       cbv beta; intros _ w' [? Hk]; split; [done|rewrite Hk; reflexivity]]).
  - destruct Hok as [? Hn]. pose proof (maxmaxsize_bounds n (proj1 Hn)).
    split; simpl; case_match; ulia.
  - split; simpl; ulia.
  - destruct Hok as [? Hn]. pose proof (maxmaxsize_bounds n (proj1 Hn)). by split.
  - pose proof (maxmaxsize_bounds n (proj1 Hok)). by split.
  - split; [simpl; ulia|done].
Qed.

Lemma safe_reserve null len : is_u64 len -> safe null (WPACKET_reserve_bytes len).
Proof.
  intros Hl w Hwf _. eapply hoare_weaken; [by apply hoare_reserve|].
  by intros p w' (_ & _ & (? & (? & _) & _) & _).
Qed.

Lemma safe_cleanup null : safe null WPACKET_cleanup.
Proof.
  intros w (? & ? & ? & ? & ?) _. apply hoare_upd. done.
Qed.

Create HintDb wpacket.
#[export] Hint Resolve safe_ret safe_reserve safe_allocate safe_put_bytes
  safe_memcpy safe_memset safe_start_len safe_start_quic safe_quic_vlint safe_close
  safe_fill_lengths safe_finish safe_set_flags safe_cleanup : wpacket.
#[export] Hint Extern 2 (is_u64 _) => ulia : wpacket.
#[export] Hint Extern 2 (_ <= _)%Z => ulia : wpacket.

(** Split a composed writer; its parts are left to the hints. *)
Ltac safe_split :=
  repeat match goal with
  | |- safe _ (bind _ _) => apply safe_bind; [|intros ?]
  end.

Lemma hoare_wop op w :
  wf w -> wop_ok (kind w) op ->
  hoare w (run_wop op) (fun _ w' => wf w' /\ kind w' = kind w).
Proof.
  intros Hwf Hok.
  assert (forall null (m : M WS unit), safe null m -> (null = false -> kind w <> (None, false)) ->
            hoare w m (fun _ w' => wf w' /\ kind w' = kind w)) as Hsafe.
  { intros null m Hm Hn. apply Hm; [done|]. intros E. specialize (Hn E).
    unfold kind, WPACKET_is_null_buf in *. by destruct (buf w), (staticbuf w). }
  assert (true = false -> kind w <> (None, false)) as Htf by done.
  destruct op; simpl in Hok |- *; destruct_and?;
    unfold WPACKET_sub_allocate_bytes__, WPACKET_quic_sub_allocate_bytes, WPACKET_sub_memcpy__;
    try (apply (Hsafe true); [|exact Htf];
         safe_split; by eauto with wpacket).
  - apply (Hsafe false); [apply safe_quic_vlint; ulia|tauto].
  - apply hoare_set_max_size; [done|]. intros n b E. apply Hok. unfold kind in E. congruence.
Qed.

(** ** Lemmas: failing calls

    [survives P w m]: when [m] fails from [w], the packet that it leaves satisfies [P]. *)

Definition survives {A} (P : WPACKET -> Prop) (w : WPACKET) (m : M WS A) : Prop :=
  forall o, match m (w, o) with (Err, s) => P (fst s) | _ => True end.

(** The packet is as good as before. *)
Definition kept (w w' : WPACKET) : Prop := wf w' /\ kind w' = kind w.

Section Survives.
Context {A B : Type} (P : WPACKET -> Prop).
Implicit Types (m : M WS A) (k : A -> M WS B).

Lemma survives_bind w m k (Q : A -> WPACKET -> Prop) :
  hoare w m Q -> survives P w m -> (forall a w', Q a w' -> survives P w' (k a)) -> survives P w (bind m k).
Proof.
  intros Hm Hs Hk o. specialize (Hm o). specialize (Hs o). unfold bind.
  destruct (m (w, o)) as [[a| |] [w' o']]; [exact (Hk a w' Hm o')|exact Hs|exact I].
Qed.

Lemma survives_ret w (a : A) : survives P w (ret a).
Proof. intros o. exact I. Qed.

Lemma survives_fail w : P w -> survives P w (@fail WS A).
Proof. intros HP o. exact HP. Qed.

Lemma survives_get w (k : WS -> M WS B) : (forall o, survives P w (k (w, o))) -> survives P w (bind get k).
Proof. intros Hk o. exact (Hk o o). Qed.

Lemma survives_guard w (b : bool) (k : M WS B) :
  P w -> (b = true -> survives P w k) -> survives P w (guard b ;;; k).
Proof. intros HP Hk. destruct b; [exact (Hk eq_refl)|]. intros o. exact HP. Qed.

Lemma survives_upd_bind w f (k : M WS B) : survives P (f w) k -> survives P w (upd f ;;; k).
Proof. intros Hk o. exact (Hk o). Qed.

End Survives.

Section Failing.
Context (P : WPACKET -> Prop).

Lemma survives_guard_last w (b : bool) : P w -> survives P w (guard b).
Proof. intros HP. destruct b; intros o; [exact I|exact HP]. Qed.

Lemma survives_upd w f : survives P w (upd f).
Proof. intros o. exact I. Qed.

Lemma survives_store w p bs : survives P w (store p bs).
Proof. intros o. unfold store, bind, get. cbn. by destruct (GETBUF w) as [d|]; [destruct (_ && _)|]. Qed.

Lemma survives_put_at w p bs : survives P w (put_at p bs).
Proof. destruct p; [apply survives_store|apply survives_ret]. Qed.

Lemma set_buf_same w b : buf w = Some b -> set_buf (Some b) w = w.
Proof. intros E. destruct w; cbn in *. by rewrite E. Qed.

Lemma survives_reserve w len : wf w -> is_u64 len -> P w -> survives P w (WPACKET_reserve_bytes len).
Proof.
  intros Hwf Hlen HP. pose proof Hwf as (? & ? & Hc & Hb & ?). unfold WPACKET_reserve_bytes.
  apply survives_get. intros o0. cbn [fst snd]. apply survives_guard; [done|]. intros Hne.
  apply survives_guard; [done|]. intros Hfit. unfold buffer_wf in Hb. intros o. unfold bind at 1.
  destruct (buf w) as [b|] eqn:Eb; [|exact I]. destruct (staticbuf w); [done|]. destruct Hb as (Hbw & ? & He).
  pose proof Hbw as ((? & ?) & _ & _). rewrite (u64_id (bm_length b - _)) by lia.
  destruct (bm_length b - written w <? len) eqn:El; [|exact I].
  destruct (grow_len_enough b len Hbw) as [Hg1 Hg2]; [ulia|]. fold (grow_len b len).
  unfold bind at 1, wp_grow. cbn [fst snd]. destruct (BUF_MEM_grow b (grow_len b len) o) as [[r b'] o'] eqn:E.
  destruct (BUF_MEM_grow_ok _ _ _ _ _ _ Hbw Hg1 E) as [[-> ->]|(-> & _)].
  - cbn. by rewrite set_buf_same.
  - replace (grow_len b len =? 0) with false by lia. exact I.
Qed.

Lemma survives_allocate w len : wf w -> is_u64 len -> P w -> survives P w (WPACKET_allocate_bytes len).
Proof.
  intros Hwf Hl HP. eapply survives_bind; [by apply hoare_reserve|by apply survives_reserve|].
  intros p w' _. apply survives_upd_bind, survives_ret.
Qed.

End Failing.

Lemma kept_allocated w len p w' : allocated w len p w' -> kept w w'.
Proof. by intros (_ & ? & (? & _) & _). Qed.

Lemma kept_appended w bs w' : appended w bs w' -> kept w w'.
Proof. apply appended_safe. Qed.

Lemma run_kept_refl w : wf w -> kept w w.
Proof. done. Qed.

Lemma survives_put_bytes w0 w v n : kept w0 w -> 0 <= v -> 0 <= n -> survives (kept w0) w (WPACKET_put_bytes__ v n).
Proof.
  intros Hk Hv Hn. pose proof Hk as [Hwf Hkd]. apply survives_guard; [done|]. intros Hb.
  eapply survives_bind; [apply hoare_allocate; [done|ulia]|apply survives_allocate; [done|ulia|done]|].
  intros p w' Ha. pose proof Ha as (Hl & _). rewrite put_value_spec by lia. destruct p as [q|]; [|apply survives_ret].
  assert (zlen (be_bytes (Z.to_nat n) v) = n) as Hz by (rewrite length_be_bytes; lia). rewrite <- Hz in Ha at 1.
  eapply survives_bind; [by apply hoare_put_at|apply survives_put_at|]. cbv beta. intros _ w2 Happ.
  apply survives_guard_last. apply kept_appended in Happ as [? ?]. split; congruence.
Qed.

Lemma survives_filled w len (k : option Z -> M WS unit) : wf w -> is_u64 len ->
  (forall p w', survives (kept w) w' (k p)) -> survives (kept w) w (bind (WPACKET_allocate_bytes len) k).
Proof.
  intros Hwf Hl Hk. eapply survives_bind; [by apply hoare_allocate|by apply survives_allocate|]. auto.
Qed.

Lemma survives_write_sub_len w0 w sub parent packlen :
  kept w0 w -> subs_wf (written w) (sub :: parent) -> 0 <= packlen ->
  survives (kept w0) w (write_sub_len sub parent packlen).
Proof.
  intros Hkp (Hl & Htop & Hp & Hv & _) Hpl. pose proof Hkp as [Hwf Hkd]. pose proof Hwf as (? & _).
  apply survives_get. intros o. cbn [fst snd]. case_match.
  - destruct (GETBUF w) as [d|] eqn:Ed; [|by apply survives_ret]. specialize (Hp ltac:(lia)). case_match eqn:Ef.
    + rewrite put_value_spec by lia.
      eapply survives_bind; [apply (hoare_store_below w d); rewrite ?length_be_bytes; (lia || assumption)|apply survives_store|].
      cbv beta. intros _ w' (? & (? & _) & ? & ?). apply survives_guard_last. split; congruence.
    + unfold put_quic_value. apply survives_guard; [done|]. intros _. apply survives_store.
  - case_match; [|by apply survives_ret]. pose proof (count_len_bytes_bounds 8 packlen 1 ltac:(lia)).
    eapply survives_bind; [apply hoare_put_bytes; (lia || assumption)|apply survives_put_bytes; (lia || assumption)|].
    cbv beta. intros _ w' Happ. apply kept_appended in Happ as [? ?]. case_match; [|by apply survives_ret].
    apply survives_put_bytes; [split; congruence|apply Z.lor_nonneg; lia|lia].
Qed.

Lemma survives_intern_close w0 w sub parent doclose :
  kept w0 w -> (doclose = true -> subs w = sub :: parent) -> subs_wf (written w) (sub :: parent) ->
  survives (kept w0) w (wpacket_intern_close sub parent doclose).
Proof.
  intros Hk Hd Hsub. pose proof Hk as [Hwf Hkd]. pose proof Hwf as (? & ? & _). pose proof Hsub as (? & ? & _ & _ & Hpar).
  apply survives_get. intros o. cbn [fst snd]. rewrite (u64_id (_ - _)) by ulia.
  apply survives_guard; [done|]. intros _. case_match eqn:Ea.
  - destruct doclose; [|intros ?; exact Hk]. intros o'. unfold bind, guard, ret, upd, modify, write_sub_len, get. cbn [fst snd].
    assert (written w - pwritten sub = 0) as -> by (apply andb_prop in Ea; lia). simpl.
    apply andb_prop in Ea as [_ ->]. cbn [negb orb]. unfold bind at 1. by rewrite andb_false_r.
  - eapply survives_bind; [by apply (hoare_ret w sub (fun a w' => a = sub /\ w' = w))|apply survives_ret|].
    cbv beta. intros a w' [-> ->].
    eapply survives_bind; [apply hoare_write_sub_len; [done|done|lia]|apply survives_write_sub_len; [done|done|lia]|].
    intros _ w1 _. destruct doclose; [apply survives_upd|apply survives_ret].
Qed.

Lemma survives_fill_lengths_loop w0 w l :
  kept w0 w -> subs_wf (written w) l -> survives (kept w0) w (fill_lengths_loop l).
Proof.
  revert w. induction l as [|sub parent IH]; intros w Hk Hs; simpl; [by apply survives_ret|]. pose proof Hk as [Hwf Hkd].
  eapply survives_bind; [by apply hoare_intern_close|by apply survives_intern_close|]. cbv beta.
  intros _ w' (Hwf' & Hk' & Hw & _). specialize (Hw eq_refl). apply IH; [split; congruence|].
  destruct Hs as (? & ? & _ & _ & Hs). apply (subs_wf_mono _ _ _ Hs). lia.
Qed.

(** A call that opens no sub-packet leaves a good packet when it fails. *)
Lemma survives_wop op w : wf w -> wop_ok (kind w) op -> opens_sub op = false -> survives (kept w) w (run_wop op).
Proof.
  intros Hwf Hok Ho. pose proof (run_kept_refl w Hwf) as Hk. pose proof Hwf as (_ & _ & _ & _ & Hs).
  destruct op; try discriminate Ho; simpl in Hok |- *.
  - eapply survives_bind; [by apply hoare_reserve|by apply survives_reserve|intros; apply survives_ret].
  - eapply survives_bind; [by apply hoare_allocate|by apply survives_allocate|intros; apply survives_ret].
  - destruct Hok as [[? _] [? _]]. by apply survives_put_bytes.
  - unfold WPACKET_memcpy. case_match; [apply survives_ret|]. apply survives_filled; [done|tauto|].
    intros [p|] w'; [apply survives_store|apply survives_ret].
  - unfold WPACKET_memset. case_match; [apply survives_ret|]. apply survives_filled; [done..|].
    intros [p|] w'; [apply survives_store|apply survives_ret].
  - unfold WPACKET_quic_write_vlint. apply survives_guard; [done|]. intros Hg. apply survives_filled; [done| |].
    + assert (vlint_size (ossl_quic_vlint_encode_len v)) as [->|[->|[->| ->]]]; [|done..].
      apply encode_len_size. intros E. by rewrite E in Hg.
    + intros [p|] w'; [apply survives_store|intros o; exact I].
  - apply survives_get. intros o. cbn [fst snd]. destruct (subs w) as [|sub [|par l]] eqn:E; try by apply survives_fail.
    by apply survives_intern_close.
  - apply survives_get. intros o. cbn [fst snd]. apply survives_guard; [done|]. intros _. by apply survives_fill_lengths_loop.
  - apply survives_get. intros o. cbn [fst snd]. destruct (subs w) as [|sub [|par l]] eqn:E; try by apply survives_fail.
    eapply survives_bind; [by apply hoare_intern_close|by apply survives_intern_close|intros; apply survives_upd].
  - apply survives_get. intros o. cbn [fst snd]. destruct (subs w); [by apply survives_fail|apply survives_upd].
  - apply survives_get. intros o. cbn [fst snd]. destruct (list.last (subs w)); [|by apply survives_fail].
    apply survives_guard; [done|]. intros _. apply survives_upd.
  - apply survives_upd.
Qed.

(** A packet without its sub-packets. *)
Definition cleaned (w w' : WPACKET) : Prop := wf (set_subs [] w') /\ kind w' = kind w.

Lemma kept_cleaned w w' : kept w w' -> cleaned w w'.
Proof. by intros [(? & ? & ? & ? & _) ?]. Qed.

Lemma survives_weaken {A} (P Q : WPACKET -> Prop) w (m : M WS A) :
  (forall w', P w' -> Q w') -> survives P w m -> survives Q w m.
Proof. intros HPQ Hm o. specialize (Hm o). destruct (m (w, o)) as [[] []]; auto. Qed.

Lemma survives_start_len w n : wf w -> is_u64 n -> survives (cleaned w) w (WPACKET_start_sub_packet_len__ n).
Proof.
  intros Hwf Hn. assert (Hc : cleaned w w) by (by apply kept_cleaned). unfold WPACKET_start_sub_packet_len__.
  apply survives_get. intros o. cbn [fst snd]. apply survives_guard; [done|]. intros Hs.
  apply survives_guard; [done|]. intros _. intros o1. unfold bind at 1, wp_alloc. cbn [fst snd].
  destruct (alloc o1) as [[|] o2]; [|exact Hc]. unfold bind at 1, guard, ret. unfold bind at 1, upd, modify. cbn [fst snd].
  destruct (n =? 0); [exact I|]. unfold bind. rewrite allocate_set_subs; [|intros E; by rewrite E in Hs|done].
  pose proof (survives_allocate (kept w) w n Hwf Hn (run_kept_refl w Hwf) o2) as Ha.
  destruct (WPACKET_allocate_bytes n (w, o2)) as [[] [w1 o3]]; [exact I| |exact I]. by apply kept_cleaned in Ha.
Qed.

Lemma survives_start_quic w n : wf w -> 0 <= n -> survives (cleaned w) w (WPACKET_start_quic_sub_packet_bound n).
Proof.
  intros Hwf Hn. apply survives_guard; [by apply kept_cleaned|]. intros Hg.
  assert (is_u64 (ossl_quic_vlint_encode_len n)) as Hu.
  { assert (vlint_size (ossl_quic_vlint_encode_len n)) as [->|[->|[->| ->]]]; [|done..].
    apply encode_len_size. intros E. by rewrite E in Hg. }
  eapply survives_bind; [by apply hoare_start_len|by apply survives_start_len|intros; apply survives_upd].
Qed.

(** The bytes of a sub-packet that was opened, and its end. *)
Lemma survives_sub_rest {A C} w (m : M WS unit) (b : M WS A) (c : A -> M WS C) :
  hoare w m (fun _ => kept w) -> survives (cleaned w) w m ->
  (forall w', kept w w' -> hoare w' b (fun _ => kept w) /\ survives (kept w) w' b) ->
  (forall a w', kept w w' -> survives (kept w) w' (c a)) -> survives (cleaned w) w (m ;;; let! p := b in c p).
Proof.
  intros Hm Hs Hb Hc. eapply survives_bind; [done|done|]. cbv beta. intros _ w1 H1. destruct (Hb w1 H1) as [B1 B2].
  apply (survives_weaken (kept w)); [apply kept_cleaned|]. eapply survives_bind; [done|done|]. auto.
Qed.

Lemma survives_close w0 w : kept w0 w -> survives (kept w0) w WPACKET_close.
Proof.
  intros Hk. pose proof Hk as [(_ & _ & _ & _ & Hs) _]. apply survives_get. intros o. cbn [fst snd].
  destruct (subs w) as [|sub [|par l]] eqn:E; try by apply survives_fail. by apply survives_intern_close.
Qed.

Lemma safe_kept {A} w w' (m : M WS A) : safe true m -> kept w w' -> hoare w' m (fun _ => kept w).
Proof. intros Hm [Hwf Hk]. eapply hoare_weaken; [by apply Hm|]. intros a w2 [? ?]. split; congruence. Qed.

Lemma survives_opens op w : wf w -> wop_ok (kind w) op -> opens_sub op = true -> survives (cleaned w) w (run_wop op).
Proof.
  intros Hwf Hok Ho. pose proof (run_kept_refl w Hwf) as Hk.
  assert (Hst : forall n, is_u64 n -> hoare w (WPACKET_start_sub_packet_len__ n) (fun _ => kept w)).
  { intros n Hn. eapply hoare_weaken; [by apply hoare_start_len|]. by intros _ w' (? & ? & _). }
  assert (Hal : forall len w', is_u64 len -> kept w w' ->
    hoare w' (WPACKET_allocate_bytes len) (fun _ => kept w) /\ survives (kept w) w' (WPACKET_allocate_bytes len)).
  { intros len w' Hl Hk'. split; [apply safe_kept; [by apply safe_allocate|done]|]. by apply survives_allocate; [apply Hk'| |]. }
  assert (Hcl : forall (p : option Z) w', kept w w' -> survives (kept w) w' (WPACKET_close ;;; ret p)).
  { intros p w' Hk'. eapply survives_bind; [apply (safe_kept w); [apply (safe_close true)|done]|by apply survives_close|].
    intros; apply survives_ret. }
  destruct op; try discriminate Ho; simpl in Hok |- *.
  - destruct Hok. unfold WPACKET_sub_allocate_bytes__.
    eapply survives_bind; [apply (safe_kept w); [|done]|apply survives_sub_rest; auto using survives_start_len|intros; apply survives_ret].
    safe_split; eauto with wpacket.
  - destruct Hok as (? & ? & ?). unfold WPACKET_sub_memcpy__.
    apply (survives_sub_rest w _ (WPACKET_memcpy src len) (fun _ => WPACKET_close)); auto using survives_start_len, survives_close.
    intros w' Hk'. pose proof Hk' as [Hwf' Hkd]. split; [apply safe_kept; [by apply safe_memcpy|done]|].
    unfold WPACKET_memcpy. case_match; [apply survives_ret|].
    eapply survives_bind; [by apply hoare_allocate|by apply survives_allocate|].
    intros [p|] w2 _; [apply survives_store|apply survives_ret].
  - by apply survives_start_len.
  - apply survives_start_quic; [done|ulia].
  - unfold WPACKET_quic_sub_allocate_bytes.
    eapply survives_bind; [apply (safe_kept w); [|done]|apply survives_sub_rest; auto|intros; apply survives_ret].
    + safe_split; eauto with wpacket.
    + apply hoare_start_quic; [done|ulia].
    + apply survives_start_quic; [done|ulia].
Qed.

Lemma run_wops_ok ops w : wf w -> Forall (wop_ok (kind w)) ops ->
  forall o, exists w' o', run_wops ops (w, o) = (Ok tt, (w', o')) /\ wf w'.
Proof.
  revert w. induction ops as [|op ops IH]; intros w Hwf Hok o; [by exists w, o|].
  inversion_clear Hok as [|? ? Hop Hops]. pose proof (hoare_wop op w Hwf Hop o) as Hh. cbn [run_wops].
  destruct (opens_sub op) eqn:Ho.
  - pose proof (survives_opens op w Hwf Hop Ho o) as Hs. destruct (run_wop op (w, o)) as [[[]| |] [w1 o1]]; [| |done].
    + destruct Hh as [Hw1 Hk1]. cbn [fst] in *. apply IH; [done|]. by rewrite Hk1.
    + destruct Hs as [Hw1 Hk1]. apply (IH (set_subs [] w1)); [done|]. by rewrite <- Hk1 in Hops.
  - pose proof (survives_wop op w Hwf Hop Ho o) as Hs. destruct (run_wop op (w, o)) as [[[]| |] [w1 o1]]; [| |done].
    + destruct Hh as [Hw1 Hk1]. cbn [fst] in *. apply IH; [done|]. by rewrite Hk1.
    + destruct Hs as [Hw1 Hk1]. cbn [fst] in *. apply IH; [done|]. by rewrite Hk1.
Qed.

(** ** Theorems *)

(** C21: (memory safety of the packet writer) A caller that initialises a WPACKET
    in any of the five ways and then makes any sequence of calls never makes the code store
    outside the buffer or through a null pointer, whichever calls and allocations fail; it only
    has to clean up after a call that failed to open a sub-packet. In the end the write position
    is within the maximum size, the buffer holds all that was written, and the open
    sub-packets are properly nested. *)
Theorem WPACKET_memory_safe i ops w o :
  winit_ok i -> Forall (wop_ok (winit_kind i)) ops ->
  match run_winit i (w, o) with
  | (Ok _, s) => exists w' o', run_wops ops s = (Ok tt, (w', o')) /\ wf w'
  | (Err, _) => True
  | (Ub, _) => False
  end.
Proof.
  intros Hi Hops. pose proof (hoare_winit i w Hi o) as Hh.
  destruct (run_winit i (w, o)) as [[[]| |] [w1 o1]]; [|done|done]. destruct Hh as [Hwf Hk]. cbn [fst] in *.
  apply run_wops_ok; [done|]. by rewrite Hk.
Qed.

Definition wpacket0 : WPACKET := mkWPacket None None 0 0 0 [] false.

Lemma WPACKET_memory_safe_witness :
  match run_winit (InitStatic (zrepeat 0 8) 1) (wpacket0, []) with
  | (Ok _, s) => exists w' o',
      run_wops [OpPutBytes 258 2; OpStartSub 2; OpMemcpy [7; 8] 2; OpClose; OpPutBytes 1 4; OpStartSub 2; OpClose] s
      = (Ok tt, (w', o')) /\ wf w'
  | (Err, _) => True
  | (Ub, _) => False
  end.
Proof.
  apply (WPACKET_memory_safe (InitStatic (zrepeat 0 8) 1)
    [OpPutBytes 258 2; OpStartSub 2; OpMemcpy [7; 8] 2; OpClose; OpPutBytes 1 4; OpStartSub 2; OpClose]).
  - split; split; vm_compute; congruence.
  - repeat constructor; vm_compute; congruence.
Defined.

(** Without the clean-up the length of the sub-packet would be stored outside the buffer. *)
Example WPACKET_close_after_failed_start :
  fst ((WPACKET_init_static_len (zrepeat 0 3) 3 0 ;;; WPACKET_put_bytes__ 258 2 ;;;
        fun s => match WPACKET_start_sub_packet_len__ 2 s with
                 | (Err, s') => WPACKET_close s'
                 | (_, s') => (Ok tt, s')
                 end) (wpacket0, [])) = Ub.
Proof. vm_compute. reflexivity. Qed.

(** (growing a buffer) A successful [BUF_MEM_grow] to a larger length keeps
    the bytes in use, follows them with zeros, keeps the buffer well-formed and
    returns the new length; a failed one returns 0 and leaves the buffer as it
    was. *)
Theorem BUF_MEM_grow_spec b len o :
  buf_wf b -> bm_length b < len ->
  let '(n, b', _) := BUF_MEM_grow b len o in
  (n = 0 /\ b' = b) \/
  (n = len /\ bm_length b' = len /\ buf_wf b' /\
   buf_used b' = buf_used b ++ zrepeat 0 (len - bm_length b)).
Proof.
  intros Hwf Hlen. destruct (BUF_MEM_grow b len o) as [[n b'] o'] eqn:E.
  by eapply BUF_MEM_grow_ok.
Qed.

Lemma BUF_MEM_grow_spec_witness :
  let b := mkBufMem 2 (Some [1; 2; 9; 9]) 4 0 in
  let '(n, b', _) := BUF_MEM_grow b 6 [] in
  (n = 0 /\ b' = b) \/
  (n = 6 /\ bm_length b' = 6 /\ buf_wf b' /\
   buf_used b' = buf_used b ++ zrepeat 0 (6 - bm_length b)).
Proof.
  apply (BUF_MEM_grow_spec (mkBufMem 2 (Some [1; 2; 9; 9]) 4 0) 6 []).
  - vm_compute. repeat split; try congruence.
  - reflexivity.
Defined.

(** (DER lengths) In a packet that is written backwards, a sub-packet opened
    before and closed after any writer of the bytes [bs] leaves in front of them
    the definite-form length: one byte up to 127, otherwise 128 + k and the k
    big-endian bytes of the length, with the least possible k. *)
Theorem WPACKET_der_sub_packet {A} (m : M WS A) bs :
  emits m true bs -> zlen bs <= SIZE_MAX ->
  emits (WPACKET_start_sub_packet ;;; m ;;; WPACKET_close) true
    (der_length (zlen bs) ++ bs)
  /\ (127 < zlen bs -> exists k, der_length (zlen bs) = (128 + k) :: be_bytes (Z.to_nat k) (zlen bs)
        /\ 1 <= k <= 8 /\ 256 ^ (k - 1) <= zlen bs < 256 ^ k)
  /\ (zlen bs <= 127 -> der_length (zlen bs) = [zlen bs]).
Proof.
  intros Hm Hlen. split; [by apply emits_der|]. pose proof (zlen_nonneg bs).
  destruct (count_len_bytes_64 (zlen bs) ltac:(ulia)) as (Hk & Hlt & H1 & Hmin).
  unfold der_length. split; intros Hc.
  - replace (zlen bs <=? 127) with false by lia. eexists. split; [done|]. split; [done|].
    split; [|done]. destruct (decide (1 < count_len_bytes 8 (zlen bs) 1)) as [?|?]; [auto|].
    replace (count_len_bytes 8 (zlen bs) 1) with 1 by lia. simpl. lia.
  - by replace (zlen bs <=? 127) with true by lia.
Qed.

Lemma WPACKET_der_sub_packet_witness :
  emits (WPACKET_start_sub_packet ;;; WPACKET_memcpy [5; 6] 2 ;;; WPACKET_close) true
    (der_length 2 ++ [5; 6])
  /\ (127 < 2 -> exists k, der_length 2 = (128 + k) :: be_bytes (Z.to_nat k) 2
        /\ 1 <= k <= 8 /\ 256 ^ (k - 1) <= 2 < 256 ^ k)
  /\ (2 <= 127 -> der_length 2 = [2]).
Proof.
  apply (WPACKET_der_sub_packet (WPACKET_memcpy [5; 6] 2) [5; 6]).
  - exact (emits_memcpy true [5; 6]).
  - vm_compute. congruence.
Defined.
