(* ===== verification/Wire.v ===== *)
(** The QUIC wire format: the frame and transport-parameter encoders and
    decoders of ssl/quic/quic_wire.c with the types of
    include/internal/quic_wire.h and quic_types.h.

    An encoder is a WPACKET writer, a decoder a PACKET reader whose result is the
    structure the C code fills in. What a decoder stored before it failed is not
    part of its outcome. *)

From stdpp Require Import base list numbers option.
From Stdlib Require Import ZArith Lia.
From S2P Require Import Prelude SafeMath Vlint Packet WPacket.

#[local] Open Scope cfun_scope.

(** ** Definitions: frame types *)

Definition OSSL_QUIC_FRAME_TYPE_PADDING : Z := 0.
Definition OSSL_QUIC_FRAME_TYPE_PING : Z := 1.
Definition OSSL_QUIC_FRAME_TYPE_ACK_WITHOUT_ECN : Z := 2.
Definition OSSL_QUIC_FRAME_TYPE_ACK_WITH_ECN : Z := 3.
Definition OSSL_QUIC_FRAME_TYPE_RESET_STREAM : Z := 4.
Definition OSSL_QUIC_FRAME_TYPE_STOP_SENDING : Z := 5.
Definition OSSL_QUIC_FRAME_TYPE_CRYPTO : Z := 6.
Definition OSSL_QUIC_FRAME_TYPE_NEW_TOKEN : Z := 7.
Definition OSSL_QUIC_FRAME_TYPE_STREAM : Z := 8.
Definition OSSL_QUIC_FRAME_TYPE_MAX_DATA : Z := 16.
Definition OSSL_QUIC_FRAME_TYPE_MAX_STREAM_DATA : Z := 17.
Definition OSSL_QUIC_FRAME_TYPE_MAX_STREAMS_BIDI : Z := 18.
Definition OSSL_QUIC_FRAME_TYPE_MAX_STREAMS_UNI : Z := 19.
Definition OSSL_QUIC_FRAME_TYPE_DATA_BLOCKED : Z := 20.
Definition OSSL_QUIC_FRAME_TYPE_STREAM_DATA_BLOCKED : Z := 21.
Definition OSSL_QUIC_FRAME_TYPE_STREAMS_BLOCKED_BIDI : Z := 22.
Definition OSSL_QUIC_FRAME_TYPE_STREAMS_BLOCKED_UNI : Z := 23.
Definition OSSL_QUIC_FRAME_TYPE_NEW_CONN_ID : Z := 24.
Definition OSSL_QUIC_FRAME_TYPE_RETIRE_CONN_ID : Z := 25.
Definition OSSL_QUIC_FRAME_TYPE_PATH_CHALLENGE : Z := 26.
Definition OSSL_QUIC_FRAME_TYPE_PATH_RESPONSE : Z := 27.
Definition OSSL_QUIC_FRAME_TYPE_CONN_CLOSE_TRANSPORT : Z := 28.
Definition OSSL_QUIC_FRAME_TYPE_CONN_CLOSE_APP : Z := 29.
Definition OSSL_QUIC_FRAME_TYPE_HANDSHAKE_DONE : Z := 30.

Definition OSSL_QUIC_FRAME_FLAG_STREAM_FIN : Z := 1.
Definition OSSL_QUIC_FRAME_FLAG_STREAM_LEN : Z := 2.
Definition OSSL_QUIC_FRAME_FLAG_STREAM_OFF : Z := 4.
Definition OSSL_QUIC_FRAME_FLAG_STREAM_MASK : Z := 7.

Definition ossl_quic_frame_type_is_ack_eliciting (frame_type : Z) : bool :=
  negb ((frame_type =? OSSL_QUIC_FRAME_TYPE_PADDING)
        || (frame_type =? OSSL_QUIC_FRAME_TYPE_ACK_WITHOUT_ECN)
        || (frame_type =? OSSL_QUIC_FRAME_TYPE_ACK_WITH_ECN)
        || (frame_type =? OSSL_QUIC_FRAME_TYPE_CONN_CLOSE_TRANSPORT)
        || (frame_type =? OSSL_QUIC_FRAME_TYPE_CONN_CLOSE_APP)).

(** [x & ~mask] in 64 bits. *)
Definition mask_out (x mask : Z) : Z := Z.land x (Z.lxor UINT64_MAX mask).

Definition OSSL_QUIC_FRAME_TYPE_IS_STREAM (x : Z) : bool :=
  mask_out x OSSL_QUIC_FRAME_FLAG_STREAM_MASK =? OSSL_QUIC_FRAME_TYPE_STREAM.
Definition OSSL_QUIC_FRAME_TYPE_IS_ACK (x : Z) : bool :=
  mask_out x 1 =? OSSL_QUIC_FRAME_TYPE_ACK_WITHOUT_ECN.
Definition OSSL_QUIC_FRAME_TYPE_IS_MAX_STREAMS (x : Z) : bool :=
  mask_out x 1 =? OSSL_QUIC_FRAME_TYPE_MAX_STREAMS_BIDI.
Definition OSSL_QUIC_FRAME_TYPE_IS_STREAMS_BLOCKED (x : Z) : bool :=
  mask_out x 1 =? OSSL_QUIC_FRAME_TYPE_STREAMS_BLOCKED_BIDI.
Definition OSSL_QUIC_FRAME_TYPE_IS_CONN_CLOSE (x : Z) : bool :=
  mask_out x 1 =? OSSL_QUIC_FRAME_TYPE_CONN_CLOSE_TRANSPORT.

(** ** Definitions: structures *)

Definition QUIC_PN_INVALID : Z := UINT64_MAX.
Definition QUIC_MAX_CONN_ID_LEN : Z := 20.
Definition QUIC_STATELESS_RESET_TOKEN_LEN : Z := 16.
Definition QUIC_MIN_ENCODED_PREFERRED_ADDR_LEN : Z := 41.
Definition QUIC_MAX_ENCODED_PREFERRED_ADDR_LEN : Z := 61.
Definition QUIC_TPARAM_PREFERRED_ADDR : Z := 13.

(** [id] is the whole array of QUIC_MAX_CONN_ID_LEN bytes. *)
Record QUIC_CONN_ID := mkConnId { id_len : Z; id : list Z }.

Definition ossl_quic_conn_id_eq (a b : QUIC_CONN_ID) : bool :=
  if negb (id_len a =? id_len b) || (id_len a >? QUIC_MAX_CONN_ID_LEN) then false
  else bool_decide (ztake (id_len a) (id a) = ztake (id_len a) (id b)).

Record OSSL_QUIC_ACK_RANGE := mkAckRange { ar_start : Z; ar_end : Z }.

(** [ack_ranges] is the array that the caller provides. *)
Record OSSL_QUIC_FRAME_ACK := mkAck {
  ack_ranges : list OSSL_QUIC_ACK_RANGE;
  num_ack_ranges : Z;
  delay_time : OSSL_TIME;
  ect0 : Z;
  ect1 : Z;
  ecnce : Z;
  ecn_present : bool
}.

(** [data] is [None] for NULL. *)
Record OSSL_QUIC_FRAME_STREAM := mkStream {
  s_stream_id : Z;
  s_offset : Z;
  s_len : Z;
  s_data : option (list Z);
  has_explicit_len : bool;
  is_fin : bool
}.

Record OSSL_QUIC_FRAME_CRYPTO := mkCrypto {
  c_offset : Z;
  c_len : Z;
  c_data : option (list Z)
}.

Record OSSL_QUIC_FRAME_RESET_STREAM := mkResetStream {
  rs_stream_id : Z;
  rs_app_error_code : Z;
  rs_final_size : Z
}.

Record OSSL_QUIC_FRAME_STOP_SENDING := mkStopSending {
  ss_stream_id : Z;
  ss_app_error_code : Z
}.

Record OSSL_QUIC_FRAME_NEW_CONN_ID := mkNewConnId {
  seq_num : Z;
  retire_prior_to : Z;
  conn_id : QUIC_CONN_ID;
  stateless_reset : list Z
}.

Record OSSL_QUIC_FRAME_CONN_CLOSE := mkConnClose {
  is_app : bool;
  error_code : Z;
  cc_frame_type : Z;
  reason : list Z;
  reason_len : Z
}.

Record QUIC_PREFERRED_ADDR := mkPreferredAddr {
  ipv4_port : Z;
  ipv6_port : Z;
  ipv4 : list Z;
  ipv6 : list Z;
  pa_stateless_reset : list Z;
  pa_cid : QUIC_CONN_ID
}.

Fixpoint ranges_contain (l : list OSSL_QUIC_ACK_RANGE) (n : nat) (pn : Z) : bool :=
  match n, l with
  | S n', r :: l' => if (pn >=? ar_start r) && (pn <=? ar_end r) then true
                     else ranges_contain l' n' pn
  | _, _ => false
  end.

Definition ossl_quic_frame_ack_contains_pn (ack : OSSL_QUIC_FRAME_ACK) (pn : Z) : bool :=
  ranges_contain (ack_ranges ack) (Z.to_nat (num_ack_ranges ack)) pn.

(** ** Definitions: encoding *)

Definition ossl_quic_wire_encode_padding (num_bytes : Z) : M WS unit :=
  WPACKET_memset 0 num_bytes.

Definition encode_frame_hdr (frame_type : Z) : M WS unit :=
  WPACKET_quic_write_vlint frame_type.

Definition ossl_quic_wire_encode_frame_ping : M WS unit :=
  encode_frame_hdr OSSL_QUIC_FRAME_TYPE_PING.

(** The loop over the ranges after the first; [prev] is [ack_ranges[i - 1]]. *)
Fixpoint encode_ack_ranges (prev : OSSL_QUIC_ACK_RANGE) (l : list OSSL_QUIC_ACK_RANGE)
  : M WS unit :=
  match l with
  | [] => ret tt
  | r :: l' =>
      let gap := u64 (ar_start prev - ar_end r - 2) in
      let range_len := u64 (ar_end r - ar_start r) in
      WPACKET_quic_write_vlint gap ;;;
      WPACKET_quic_write_vlint range_len ;;;
      encode_ack_ranges r l'
  end.

(** [(uint64_t)1 << ack_delay_exponent]: a shift by the width or more is undefined. *)
Definition ack_delay_unit {S} (ack_delay_exponent : Z) : M S Z :=
  if (0 <=? ack_delay_exponent) && (ack_delay_exponent <? 64)
  then ret (Z.shiftl 1 ack_delay_exponent) else undef.

(** Reading [ack_ranges] below [num_ack_ranges] is in bounds by the type's
    invariant; an empty array with a positive count is a read out of bounds. *)
Definition ossl_quic_wire_encode_frame_ack (ack_delay_exponent : Z)
    (ack : OSSL_QUIC_FRAME_ACK) : M WS unit :=
  let frame_type := if ecn_present ack then OSSL_QUIC_FRAME_TYPE_ACK_WITH_ECN
                    else OSSL_QUIC_FRAME_TYPE_ACK_WITHOUT_ECN in
  guard (negb (num_ack_ranges ack =? 0)) ;;;
  let! unit := ack_delay_unit ack_delay_exponent in
  let delay := ossl_time_divide (ossl_time_divide (delay_time ack) OSSL_TIME_US) unit in
  let ack_delay_enc := ossl_time2ticks delay in
  match ztake (num_ack_ranges ack) (ack_ranges ack) with
  | [] => undef
  | r0 :: ranges =>
      let largest_ackd := ar_end r0 in
      let first_ack_range := u64 (ar_end r0 - ar_start r0) in
      encode_frame_hdr frame_type ;;;
      WPACKET_quic_write_vlint largest_ackd ;;;
      WPACKET_quic_write_vlint ack_delay_enc ;;;
      WPACKET_quic_write_vlint (u64 (num_ack_ranges ack - 1)) ;;;
      WPACKET_quic_write_vlint first_ack_range ;;;
      encode_ack_ranges r0 ranges ;;;
      if ecn_present ack then
        WPACKET_quic_write_vlint (ect0 ack) ;;;
        WPACKET_quic_write_vlint (ect1 ack) ;;;
        WPACKET_quic_write_vlint (ecnce ack)
      else ret tt
  end.

Definition ossl_quic_wire_encode_frame_reset_stream (f : OSSL_QUIC_FRAME_RESET_STREAM)
  : M WS unit :=
  encode_frame_hdr OSSL_QUIC_FRAME_TYPE_RESET_STREAM ;;;
  WPACKET_quic_write_vlint (rs_stream_id f) ;;;
  WPACKET_quic_write_vlint (rs_app_error_code f) ;;;
  WPACKET_quic_write_vlint (rs_final_size f).

Definition ossl_quic_wire_encode_frame_stop_sending (f : OSSL_QUIC_FRAME_STOP_SENDING)
  : M WS unit :=
  encode_frame_hdr OSSL_QUIC_FRAME_TYPE_STOP_SENDING ;;;
  WPACKET_quic_write_vlint (ss_stream_id f) ;;;
  WPACKET_quic_write_vlint (ss_app_error_code f).

Definition ossl_quic_wire_encode_frame_crypto_hdr (f : OSSL_QUIC_FRAME_CRYPTO) : M WS unit :=
  encode_frame_hdr OSSL_QUIC_FRAME_TYPE_CRYPTO ;;;
  WPACKET_quic_write_vlint (c_offset f) ;;;
  WPACKET_quic_write_vlint (c_len f).

Definition ossl_quic_wire_get_encoded_frame_len_crypto_hdr (f : OSSL_QUIC_FRAME_CRYPTO) : Z :=
  let a := ossl_quic_vlint_encode_len OSSL_QUIC_FRAME_TYPE_CRYPTO in
  let b := ossl_quic_vlint_encode_len (c_offset f) in
  let c := ossl_quic_vlint_encode_len (c_len f) in
  if (a =? 0) || (b =? 0) || (c =? 0) then 0 else a + b + c.

(** [if (data != NULL) memcpy(p, data, len)]. *)
Definition copy_data (p : option Z) (data : option (list Z)) (len : Z) : M WS unit :=
  match data with
  | None => ret tt
  | Some d => match p with
              | Some q => store q (ztake len d)
              | None => undef
              end
  end.

(** The pointer to the data area. *)
Definition ossl_quic_wire_encode_frame_crypto (f : OSSL_QUIC_FRAME_CRYPTO) : M WS (option Z) :=
  ossl_quic_wire_encode_frame_crypto_hdr f ;;;
  guard (negb (c_len f >? SIZE_MAX)) ;;;
  let! p := WPACKET_allocate_bytes (c_len f) in
  copy_data p (c_data f) (c_len f) ;;;
  ret p.

Definition ossl_quic_wire_encode_frame_new_token (token : list Z) (token_len : Z) : M WS unit :=
  encode_frame_hdr OSSL_QUIC_FRAME_TYPE_NEW_TOKEN ;;;
  WPACKET_quic_write_vlint token_len ;;;
  WPACKET_memcpy token token_len.

Definition stream_frame_type (f : OSSL_QUIC_FRAME_STREAM) : Z :=
  let frame_type := OSSL_QUIC_FRAME_TYPE_STREAM in
  let frame_type := if negb (s_offset f =? 0)
                    then Z.lor frame_type OSSL_QUIC_FRAME_FLAG_STREAM_OFF else frame_type in
  let frame_type := if has_explicit_len f
                    then Z.lor frame_type OSSL_QUIC_FRAME_FLAG_STREAM_LEN else frame_type in
  if is_fin f then Z.lor frame_type OSSL_QUIC_FRAME_FLAG_STREAM_FIN else frame_type.

Definition ossl_quic_wire_encode_frame_stream_hdr (f : OSSL_QUIC_FRAME_STREAM) : M WS unit :=
  encode_frame_hdr (stream_frame_type f) ;;;
  WPACKET_quic_write_vlint (s_stream_id f) ;;;
  (if negb (s_offset f =? 0) then WPACKET_quic_write_vlint (s_offset f) else ret tt) ;;;
  (if has_explicit_len f then WPACKET_quic_write_vlint (s_len f) else ret tt).

Definition ossl_quic_wire_get_encoded_frame_len_stream_hdr (f : OSSL_QUIC_FRAME_STREAM) : Z :=
  let a := ossl_quic_vlint_encode_len OSSL_QUIC_FRAME_TYPE_STREAM in
  let b := ossl_quic_vlint_encode_len (s_stream_id f) in
  if (a =? 0) || (b =? 0) then 0
  else
    let c := if s_offset f >? 0 then ossl_quic_vlint_encode_len (s_offset f) else 0 in
    if (s_offset f >? 0) && (c =? 0) then 0
    else
      let d := if has_explicit_len f then ossl_quic_vlint_encode_len (s_len f) else 0 in
      if has_explicit_len f && (d =? 0) then 0 else a + b + c + d.

Definition ossl_quic_wire_encode_frame_stream (f : OSSL_QUIC_FRAME_STREAM) : M WS (option Z) :=
  ossl_quic_wire_encode_frame_stream_hdr f ;;;
  guard (negb (s_len f >? SIZE_MAX)) ;;;
  let! p := WPACKET_allocate_bytes (s_len f) in
  copy_data p (s_data f) (s_len f) ;;;
  ret p.

Definition ossl_quic_wire_encode_frame_max_data (max_data : Z) : M WS unit :=
  encode_frame_hdr OSSL_QUIC_FRAME_TYPE_MAX_DATA ;;;
  WPACKET_quic_write_vlint max_data.

Definition ossl_quic_wire_encode_frame_max_stream_data (stream_id max_data : Z) : M WS unit :=
  encode_frame_hdr OSSL_QUIC_FRAME_TYPE_MAX_STREAM_DATA ;;;
  WPACKET_quic_write_vlint stream_id ;;;
  WPACKET_quic_write_vlint max_data.

Definition ossl_quic_wire_encode_frame_max_streams (is_uni : bool) (max_streams : Z) : M WS unit :=
  encode_frame_hdr (if is_uni then OSSL_QUIC_FRAME_TYPE_MAX_STREAMS_UNI
                    else OSSL_QUIC_FRAME_TYPE_MAX_STREAMS_BIDI) ;;;
  WPACKET_quic_write_vlint max_streams.

Definition ossl_quic_wire_encode_frame_data_blocked (max_data : Z) : M WS unit :=
  encode_frame_hdr OSSL_QUIC_FRAME_TYPE_DATA_BLOCKED ;;;
  WPACKET_quic_write_vlint max_data.

Definition ossl_quic_wire_encode_frame_stream_data_blocked (stream_id max_stream_data : Z)
  : M WS unit :=
  encode_frame_hdr OSSL_QUIC_FRAME_TYPE_STREAM_DATA_BLOCKED ;;;
  WPACKET_quic_write_vlint stream_id ;;;
  WPACKET_quic_write_vlint max_stream_data.

Definition ossl_quic_wire_encode_frame_streams_blocked (is_uni : bool) (max_streams : Z)
  : M WS unit :=
  encode_frame_hdr (if is_uni then OSSL_QUIC_FRAME_TYPE_STREAMS_BLOCKED_UNI
                    else OSSL_QUIC_FRAME_TYPE_STREAMS_BLOCKED_BIDI) ;;;
  WPACKET_quic_write_vlint max_streams.

Definition ossl_quic_wire_encode_frame_new_conn_id (f : OSSL_QUIC_FRAME_NEW_CONN_ID) : M WS unit :=
  guard (negb ((id_len (conn_id f) <? 1) || (id_len (conn_id f) >? QUIC_MAX_CONN_ID_LEN))) ;;;
  encode_frame_hdr OSSL_QUIC_FRAME_TYPE_NEW_CONN_ID ;;;
  WPACKET_quic_write_vlint (seq_num f) ;;;
  WPACKET_quic_write_vlint (retire_prior_to f) ;;;
  WPACKET_put_bytes__ (id_len (conn_id f)) 1 ;;;
  WPACKET_memcpy (id (conn_id f)) (id_len (conn_id f)) ;;;
  WPACKET_memcpy (stateless_reset f) QUIC_STATELESS_RESET_TOKEN_LEN.

Definition ossl_quic_wire_encode_frame_retire_conn_id (seq_num : Z) : M WS unit :=
  encode_frame_hdr OSSL_QUIC_FRAME_TYPE_RETIRE_CONN_ID ;;;
  WPACKET_quic_write_vlint seq_num.

Definition ossl_quic_wire_encode_frame_path_challenge (data : Z) : M WS unit :=
  encode_frame_hdr OSSL_QUIC_FRAME_TYPE_PATH_CHALLENGE ;;;
  WPACKET_put_bytes__ data 8.

Definition ossl_quic_wire_encode_frame_path_response (data : Z) : M WS unit :=
  encode_frame_hdr OSSL_QUIC_FRAME_TYPE_PATH_RESPONSE ;;;
  WPACKET_put_bytes__ data 8.

Definition ossl_quic_wire_encode_frame_conn_close (f : OSSL_QUIC_FRAME_CONN_CLOSE) : M WS unit :=
  encode_frame_hdr (if is_app f then OSSL_QUIC_FRAME_TYPE_CONN_CLOSE_APP
                    else OSSL_QUIC_FRAME_TYPE_CONN_CLOSE_TRANSPORT) ;;;
  WPACKET_quic_write_vlint (error_code f) ;;;
  (if negb (is_app f) then WPACKET_quic_write_vlint (cc_frame_type f) else ret tt) ;;;
  WPACKET_quic_write_vlint (reason_len f) ;;;
  WPACKET_memcpy (reason f) (reason_len f).

Definition ossl_quic_wire_encode_frame_handshake_done : M WS unit :=
  encode_frame_hdr OSSL_QUIC_FRAME_TYPE_HANDSHAKE_DONE.

(** The result is the pointer to the value, [None] for NULL. *)
Definition ossl_quic_wire_encode_transport_param_bytes (id : Z) (value : option (list Z))
    (value_len : Z) : M WS (option Z) :=
  WPACKET_quic_write_vlint id ;;;
  WPACKET_quic_write_vlint value_len ;;;
  let! b := (if value_len =? 0 then let! s := get in ret (WPACKET_get_curr (fst s))
             else WPACKET_allocate_bytes value_len) in
  copy_data b value value_len ;;;
  ret b.

Definition ossl_quic_wire_encode_transport_param_int (id value : Z) : M WS unit :=
  WPACKET_quic_write_vlint id ;;;
  WPACKET_quic_write_vlint (ossl_quic_vlint_encode_len value) ;;;
  WPACKET_quic_write_vlint value.

Definition ossl_quic_wire_encode_transport_param_cid (pid : Z) (cid : QUIC_CONN_ID) : M WS unit :=
  guard (negb (id_len cid >? QUIC_MAX_CONN_ID_LEN)) ;;;
  let! b := ossl_quic_wire_encode_transport_param_bytes pid (Some (id cid)) (id_len cid) in
  guard (match b with Some _ => true | None => false end).

(** ** Definitions: decoding *)

Definition ossl_quic_wire_peek_frame_header : M PACKET (Z * bool) := PACKET_peek_quic_vlint_ex.

Definition ossl_quic_wire_skip_frame_header : M PACKET Z := PACKET_get_quic_vlint.

Definition expect_frame_header_mask (expected_frame_type mask_bits : Z) : M PACKET Z :=
  let! actual_frame_type_ := ossl_quic_wire_skip_frame_header in
  guard (mask_out actual_frame_type_ mask_bits =? expected_frame_type) ;;;
  ret actual_frame_type_.

Definition expect_frame_header (expected_frame_type : Z) : M PACKET unit :=
  let! actual_frame_type := ossl_quic_wire_skip_frame_header in
  guard (actual_frame_type =? expected_frame_type).

(** [for (i = 0; i < ack_range_count; ++i)]. The loop stops at the first integer
    that is missing, so one more iteration than there are bytes is enough fuel;
    running out of it would be reported as [Ub]. *)
Fixpoint skip_ack_ranges (fuel : nat) (i ack_range_count : Z) : M PACKET unit :=
  if i <? ack_range_count then
    match fuel with
    | O => undef
    | S fuel' =>
        PACKET_skip_quic_vlint ;;;
        PACKET_skip_quic_vlint ;;;
        skip_ack_ranges fuel' (i + 1) ack_range_count
    end
  else ret tt.

(** Reads a copy of the packet. *)
Definition ossl_quic_wire_peek_frame_ack_num_ranges (orig_pkt : PACKET) : res Z :=
  fst ((expect_frame_header_mask OSSL_QUIC_FRAME_TYPE_ACK_WITHOUT_ECN 1 ;;;
        PACKET_skip_quic_vlint ;;;
        PACKET_skip_quic_vlint ;;;
        let! ack_range_count := PACKET_get_quic_vlint in
        let! pkt := get in
        skip_ack_ranges (S (length pkt)) 0 ack_range_count ;;;
        ret (u64 (ack_range_count + 1))) orig_pkt).

(** [ack->ack_ranges[i] = r]; a store outside the array is undefined. *)
Definition set_range (ack : OSSL_QUIC_FRAME_ACK) (i : Z) (r : OSSL_QUIC_ACK_RANGE)
  : M PACKET OSSL_QUIC_FRAME_ACK :=
  if i <? zlen (ack_ranges ack) then
    ret (mkAck (write_at i [r] (ack_ranges ack)) (num_ack_ranges ack) (delay_time ack)
           (ect0 ack) (ect1 ack) (ecnce ack) (ecn_present ack))
  else undef.

Fixpoint decode_ack_ranges (fuel : nat) (i ack_range_count start : Z)
    (ack : option OSSL_QUIC_FRAME_ACK) : M PACKET (option OSSL_QUIC_FRAME_ACK) :=
  if i <? ack_range_count then
    match fuel with
    | O => undef
    | S fuel' =>
        let! gap := PACKET_get_quic_vlint in
        let! len := PACKET_get_quic_vlint in
        let end_ := u64 (start - gap - 2) in
        guard (negb ((start <? u64 (gap + 2)) || (len >? end_))) ;;;
        let! '(start, ack) :=
          match ack with
          | Some a =>
              if u64 (i + 1) <? num_ack_ranges a then
                let start := u64 (end_ - len) in
                let! a := set_range a (i + 1) (mkAckRange start end_) in
                ret (start, Some a)
              else ret (start, Some a)
          | None => ret (start, None)
          end in
        decode_ack_ranges fuel' (i + 1) ack_range_count start ack
    end
  else ret ack.

Definition set_delay_time (a : OSSL_QUIC_FRAME_ACK) (t : OSSL_TIME) : OSSL_QUIC_FRAME_ACK :=
  mkAck (ack_ranges a) (num_ack_ranges a) t (ect0 a) (ect1 a) (ecnce a) (ecn_present a).

Definition set_num_ack_ranges (a : OSSL_QUIC_FRAME_ACK) (n : Z) : OSSL_QUIC_FRAME_ACK :=
  mkAck (ack_ranges a) n (delay_time a) (ect0 a) (ect1 a) (ecnce a) (ecn_present a).

Definition set_ecn (a : OSSL_QUIC_FRAME_ACK) (x y z : Z) : OSSL_QUIC_FRAME_ACK :=
  mkAck (ack_ranges a) (num_ack_ranges a) (delay_time a) x y z true.

Definition clear_ecn_present (a : OSSL_QUIC_FRAME_ACK) : OSSL_QUIC_FRAME_ACK :=
  mkAck (ack_ranges a) (num_ack_ranges a) (delay_time a) (ect0 a) (ect1 a) (ecnce a) false.

(** The delay and the first range, stored when [ack] is not NULL. *)
Definition store_first_range (ack : option OSSL_QUIC_FRAME_ACK)
    (ack_delay_exponent ack_delay_raw start largest_ackd : Z)
  : M PACKET (option OSSL_QUIC_FRAME_ACK) :=
  match ack with
  | None => ret None
  | Some a =>
      let! unit := ack_delay_unit ack_delay_exponent in
      let (raw, err) := safe_mul ack_delay_raw unit in
      let delay := ossl_time_multiply (ossl_ticks2time OSSL_TIME_US) raw in
      let a := set_delay_time a (if err : bool then ossl_time_infinite else delay) in
      if num_ack_ranges a >? 0 then
        let! a := set_range a 0 (mkAckRange start largest_ackd) in ret (Some a)
      else ret (Some a)
  end.

(** What follows the frame header. *)
Definition decode_ack_fields (ack_delay_exponent : Z) (ack : option OSSL_QUIC_FRAME_ACK)
    (frame_type : Z) : M PACKET (option OSSL_QUIC_FRAME_ACK * Z) :=
  let! largest_ackd := PACKET_get_quic_vlint in
  let! ack_delay_raw := PACKET_get_quic_vlint in
  let! ack_range_count := PACKET_get_quic_vlint in
  let! first_ack_range := PACKET_get_quic_vlint in
  guard (negb (first_ack_range >? largest_ackd)) ;;;
  guard (negb (ack_range_count >? SIZE_MAX)) ;;;
  let start := u64 (largest_ackd - first_ack_range) in
  let! ack := store_first_range ack ack_delay_exponent ack_delay_raw start largest_ackd in
  let! pkt := get in
  let! ack := decode_ack_ranges (S (length pkt)) 0 ack_range_count start ack in
  let ack := match ack with
             | Some a => Some (if u64 (ack_range_count + 1) <? num_ack_ranges a
                               then set_num_ack_ranges a (u64 (ack_range_count + 1)) else a)
             | None => None
             end in
  let total_ranges := u64 (ack_range_count + 1) in
  if frame_type =? OSSL_QUIC_FRAME_TYPE_ACK_WITH_ECN then
    let! ect0 := PACKET_get_quic_vlint in
    let! ect1 := PACKET_get_quic_vlint in
    let! ecnce := PACKET_get_quic_vlint in
    ret ((fun a => set_ecn a ect0 ect1 ecnce) <$> ack, total_ranges)
  else ret (clear_ecn_present <$> ack, total_ranges).

(** [ack] ([None] for NULL) as the caller set it up, with the capacity of its
    array in [num_ack_ranges]. The result is the structure and [*total_ranges]. *)
Definition ossl_quic_wire_decode_frame_ack (ack_delay_exponent : Z)
    (ack : option OSSL_QUIC_FRAME_ACK) : M PACKET (option OSSL_QUIC_FRAME_ACK * Z) :=
  let! frame_type := expect_frame_header_mask OSSL_QUIC_FRAME_TYPE_ACK_WITHOUT_ECN 1 in
  decode_ack_fields ack_delay_exponent ack frame_type.

Definition ossl_quic_wire_decode_frame_reset_stream : M PACKET OSSL_QUIC_FRAME_RESET_STREAM :=
  expect_frame_header OSSL_QUIC_FRAME_TYPE_RESET_STREAM ;;;
  let! stream_id := PACKET_get_quic_vlint in
  let! app_error_code := PACKET_get_quic_vlint in
  let! final_size := PACKET_get_quic_vlint in
  ret (mkResetStream stream_id app_error_code final_size).

Definition ossl_quic_wire_decode_frame_stop_sending : M PACKET OSSL_QUIC_FRAME_STOP_SENDING :=
  expect_frame_header OSSL_QUIC_FRAME_TYPE_STOP_SENDING ;;;
  let! stream_id := PACKET_get_quic_vlint in
  let! app_error_code := PACKET_get_quic_vlint in
  ret (mkStopSending stream_id app_error_code).

Definition QUIC_MAX_OFFSET : Z := Z.shiftl 1 62 - 1.

Definition ossl_quic_wire_decode_frame_crypto (nodata : bool) : M PACKET OSSL_QUIC_FRAME_CRYPTO :=
  expect_frame_header OSSL_QUIC_FRAME_TYPE_CRYPTO ;;;
  let! offset := PACKET_get_quic_vlint in
  let! len := PACKET_get_quic_vlint in
  guard (negb (len >? SIZE_MAX)) ;;;
  guard (negb (u64 (offset + len) >? QUIC_MAX_OFFSET)) ;;;
  if nodata then ret (mkCrypto offset len None)
  else
    let! pkt := get in
    guard (negb (PACKET_remaining pkt <? len)) ;;;
    let data := ztake len (PACKET_data pkt) in
    PACKET_forward len ;;;
    ret (mkCrypto offset len (Some data)).

(** The token; its length is [*token_len]. *)
Definition ossl_quic_wire_decode_frame_new_token : M PACKET (list Z) :=
  expect_frame_header OSSL_QUIC_FRAME_TYPE_NEW_TOKEN ;;;
  let! token_len_ := PACKET_get_quic_vlint in
  guard (negb (token_len_ >? SIZE_MAX)) ;;;
  let! pkt := get in
  let token := ztake token_len_ (PACKET_data pkt) in
  PACKET_forward token_len_ ;;;
  ret token.

Definition ossl_quic_wire_decode_frame_stream (nodata : bool) : M PACKET OSSL_QUIC_FRAME_STREAM :=
  let! frame_type := expect_frame_header_mask OSSL_QUIC_FRAME_TYPE_STREAM
                       OSSL_QUIC_FRAME_FLAG_STREAM_MASK in
  let! stream_id := PACKET_get_quic_vlint in
  let! offset := (if has_flag frame_type OSSL_QUIC_FRAME_FLAG_STREAM_OFF
                  then PACKET_get_quic_vlint else ret 0) in
  let has_explicit_len := has_flag frame_type OSSL_QUIC_FRAME_FLAG_STREAM_LEN in
  let is_fin := has_flag frame_type OSSL_QUIC_FRAME_FLAG_STREAM_FIN in
  let! len := (if has_explicit_len then PACKET_get_quic_vlint
               else if nodata then ret 0
               else let! pkt := get in ret (PACKET_remaining pkt)) in
  guard (negb (u64 (offset + len) >? QUIC_MAX_OFFSET)) ;;;
  if nodata then ret (mkStream stream_id offset len None has_explicit_len is_fin)
  else
    let! pkt := get in
    let data := ztake len (PACKET_data pkt) in
    guard (negb (len >? SIZE_MAX)) ;;;
    PACKET_forward len ;;;
    ret (mkStream stream_id offset len (Some data) has_explicit_len is_fin).

Definition ossl_quic_wire_decode_frame_max_data : M PACKET Z :=
  expect_frame_header OSSL_QUIC_FRAME_TYPE_MAX_DATA ;;;
  PACKET_get_quic_vlint.

Definition ossl_quic_wire_decode_frame_max_stream_data : M PACKET (Z * Z) :=
  expect_frame_header OSSL_QUIC_FRAME_TYPE_MAX_STREAM_DATA ;;;
  let! stream_id := PACKET_get_quic_vlint in
  let! max_stream_data := PACKET_get_quic_vlint in
  ret (stream_id, max_stream_data).

Definition ossl_quic_wire_decode_frame_max_streams : M PACKET Z :=
  expect_frame_header_mask OSSL_QUIC_FRAME_TYPE_MAX_STREAMS_BIDI 1 ;;;
  PACKET_get_quic_vlint.

Definition ossl_quic_wire_decode_frame_data_blocked : M PACKET Z :=
  expect_frame_header OSSL_QUIC_FRAME_TYPE_DATA_BLOCKED ;;;
  PACKET_get_quic_vlint.

Definition ossl_quic_wire_decode_frame_stream_data_blocked : M PACKET (Z * Z) :=
  expect_frame_header OSSL_QUIC_FRAME_TYPE_STREAM_DATA_BLOCKED ;;;
  let! stream_id := PACKET_get_quic_vlint in
  let! max_stream_data := PACKET_get_quic_vlint in
  ret (stream_id, max_stream_data).

Definition ossl_quic_wire_decode_frame_streams_blocked : M PACKET Z :=
  expect_frame_header_mask OSSL_QUIC_FRAME_TYPE_STREAMS_BLOCKED_BIDI 1 ;;;
  PACKET_get_quic_vlint.

Definition ossl_quic_wire_decode_frame_new_conn_id : M PACKET OSSL_QUIC_FRAME_NEW_CONN_ID :=
  expect_frame_header OSSL_QUIC_FRAME_TYPE_NEW_CONN_ID ;;;
  let! seq_num := PACKET_get_quic_vlint in
  let! retire_prior_to := PACKET_get_quic_vlint in
  guard (negb (seq_num <? retire_prior_to)) ;;;
  let! len := PACKET_get_1 in
  guard (negb (len <? 1)) ;;;
  guard (negb (len >? QUIC_MAX_CONN_ID_LEN)) ;;;
  let! data := PACKET_copy_bytes len in
  let id := if len <? QUIC_MAX_CONN_ID_LEN
            then data ++ zrepeat 0 (QUIC_MAX_CONN_ID_LEN - len) else data in
  let! token := PACKET_copy_bytes QUIC_STATELESS_RESET_TOKEN_LEN in
  ret (mkNewConnId seq_num retire_prior_to (mkConnId (u8 len) id) token).

Definition ossl_quic_wire_decode_frame_retire_conn_id : M PACKET Z :=
  expect_frame_header OSSL_QUIC_FRAME_TYPE_RETIRE_CONN_ID ;;;
  PACKET_get_quic_vlint.

Definition ossl_quic_wire_decode_frame_path_challenge : M PACKET Z :=
  expect_frame_header OSSL_QUIC_FRAME_TYPE_PATH_CHALLENGE ;;;
  PACKET_get_net_8.

Definition ossl_quic_wire_decode_frame_path_response : M PACKET Z :=
  expect_frame_header OSSL_QUIC_FRAME_TYPE_PATH_RESPONSE ;;;
  PACKET_get_net_8.

Definition ossl_quic_wire_decode_frame_conn_close : M PACKET OSSL_QUIC_FRAME_CONN_CLOSE :=
  let! frame_type := expect_frame_header_mask OSSL_QUIC_FRAME_TYPE_CONN_CLOSE_TRANSPORT 1 in
  let! error_code := PACKET_get_quic_vlint in
  let is_app := negb (Z.land frame_type 1 =? 0) in
  let! cc_frame_type := (if negb is_app then PACKET_get_quic_vlint else ret 0) in
  let! reason_len := PACKET_get_quic_vlint in
  guard (negb (reason_len >? SIZE_MAX)) ;;;
  let! reason := PACKET_get_bytes reason_len in
  ret (mkConnClose is_app error_code cc_frame_type reason reason_len).

Fixpoint count_zeros (p : list Z) : Z :=
  match p with
  | 0 :: p' => 1 + count_zeros p'
  | _ => 0
  end.

(** Never fails: the result 0 of a failing forward would be [Err]. *)
Definition ossl_quic_wire_decode_padding : M PACKET Z :=
  let! pkt := get in
  let n := count_zeros (PACKET_data pkt) in
  PACKET_forward n ;;;
  ret n.

Definition ossl_quic_wire_decode_frame_ping : M PACKET unit :=
  expect_frame_header OSSL_QUIC_FRAME_TYPE_PING.

Definition ossl_quic_wire_decode_frame_handshake_done : M PACKET unit :=
  expect_frame_header OSSL_QUIC_FRAME_TYPE_HANDSHAKE_DONE.

Definition ossl_quic_wire_peek_transport_param : M PACKET Z := PACKET_peek_quic_vlint.

(** The identifier and the value; the value's length is [*len]. *)
Definition ossl_quic_wire_decode_transport_param_bytes : M PACKET (Z * list Z) :=
  let! id_ := PACKET_get_quic_vlint in
  let! len_ := PACKET_get_quic_vlint in
  guard (negb (len_ >? SIZE_MAX)) ;;;
  let! b := PACKET_get_bytes len_ in
  ret (id_, b).

(** Run a reader on a packet of its own over [body]; the packet it leaves is
    part of the result. *)
Definition on_sub_packet {A} (body : list Z) (m : M PACKET A) : M PACKET (A * PACKET) :=
  match PACKET_buf_init body (zlen body) with
  | Ok sub => local_run m sub
  | Err => fail
  | Ub => undef
  end.

Definition ossl_quic_wire_decode_transport_param_int : M PACKET (Z * Z) :=
  let! '(id, body) := ossl_quic_wire_decode_transport_param_bytes in
  let! '(value, sub) := on_sub_packet body PACKET_get_quic_vlint in
  guard (negb (PACKET_remaining sub >? 0)) ;;;
  ret (id, value).

(** [cid] as the caller passed it: bytes past the identifier are kept. *)
Definition ossl_quic_wire_decode_transport_param_cid (cid : QUIC_CONN_ID)
  : M PACKET (Z * QUIC_CONN_ID) :=
  let! '(pid, body) := ossl_quic_wire_decode_transport_param_bytes in
  guard (negb (zlen body >? QUIC_MAX_CONN_ID_LEN)) ;;;
  ret (pid, mkConnId (u8 (zlen body)) (write_at 0 body (id cid))).

Definition ossl_quic_wire_decode_transport_param_preferred_addr (p : QUIC_PREFERRED_ADDR)
  : M PACKET QUIC_PREFERRED_ADDR :=
  let! '(pid, body) := ossl_quic_wire_decode_transport_param_bytes in
  guard (negb ((zlen body <? QUIC_MIN_ENCODED_PREFERRED_ADDR_LEN)
               || (zlen body >? QUIC_MAX_ENCODED_PREFERRED_ADDR_LEN)
               || negb (pid =? QUIC_TPARAM_PREFERRED_ADDR))) ;;;
  let! '(r, _) := on_sub_packet body
    (let! ipv4 := PACKET_copy_bytes 4 in
     let! ipv4_port := PACKET_get_net_2 in
     let! ipv6 := PACKET_copy_bytes 16 in
     let! ipv6_port := PACKET_get_net_2 in
     let! cidl := PACKET_get_1 in
     guard (negb (cidl >? QUIC_MAX_CONN_ID_LEN)) ;;;
     let! cid := PACKET_copy_bytes cidl in
     let! token := PACKET_copy_bytes QUIC_STATELESS_RESET_TOKEN_LEN in
     ret (mkPreferredAddr (u16 ipv4_port) (u16 ipv6_port) ipv4 ipv6 token
            (mkConnId (u8 cidl) (write_at 0 cid (id (pa_cid p)))))) in
  ret r.

(** ** Lemmas: the decoders are memory safe *)

#[global] Instance reader_skip_frame_header : Reader ossl_quic_wire_skip_frame_header.
Proof. unfold ossl_quic_wire_skip_frame_header. apply _. Qed.

#[global] Instance reader_expect_mask t m : Reader (expect_frame_header_mask t m).
Proof. unfold expect_frame_header_mask. apply _. Qed.

#[global] Instance reader_expect t : Reader (expect_frame_header t).
Proof. unfold expect_frame_header. apply _. Qed.

#[global] Instance reader_reset_stream : Reader ossl_quic_wire_decode_frame_reset_stream.
Proof. unfold ossl_quic_wire_decode_frame_reset_stream. apply _. Qed.

#[global] Instance reader_stop_sending : Reader ossl_quic_wire_decode_frame_stop_sending.
Proof. unfold ossl_quic_wire_decode_frame_stop_sending. apply _. Qed.

#[global] Instance reader_crypto nodata : Reader (ossl_quic_wire_decode_frame_crypto nodata).
Proof. unfold ossl_quic_wire_decode_frame_crypto. apply _. Qed.

#[global] Instance reader_new_token : Reader ossl_quic_wire_decode_frame_new_token.
Proof. unfold ossl_quic_wire_decode_frame_new_token. apply _. Qed.

#[global] Instance reader_stream nodata : Reader (ossl_quic_wire_decode_frame_stream nodata).
Proof. unfold ossl_quic_wire_decode_frame_stream. apply _. Qed.

#[global] Instance reader_max_data : Reader ossl_quic_wire_decode_frame_max_data.
Proof. unfold ossl_quic_wire_decode_frame_max_data. apply _. Qed.

#[global] Instance reader_max_stream_data : Reader ossl_quic_wire_decode_frame_max_stream_data.
Proof. unfold ossl_quic_wire_decode_frame_max_stream_data. apply _. Qed.

#[global] Instance reader_max_streams : Reader ossl_quic_wire_decode_frame_max_streams.
Proof. unfold ossl_quic_wire_decode_frame_max_streams. apply _. Qed.

#[global] Instance reader_data_blocked : Reader ossl_quic_wire_decode_frame_data_blocked.
Proof. unfold ossl_quic_wire_decode_frame_data_blocked. apply _. Qed.

#[global] Instance reader_stream_data_blocked :
  Reader ossl_quic_wire_decode_frame_stream_data_blocked.
Proof. unfold ossl_quic_wire_decode_frame_stream_data_blocked. apply _. Qed.

#[global] Instance reader_streams_blocked : Reader ossl_quic_wire_decode_frame_streams_blocked.
Proof. unfold ossl_quic_wire_decode_frame_streams_blocked. apply _. Qed.

#[global] Instance reader_new_conn_id : Reader ossl_quic_wire_decode_frame_new_conn_id.
Proof. unfold ossl_quic_wire_decode_frame_new_conn_id. apply _. Qed.

#[global] Instance reader_retire_conn_id : Reader ossl_quic_wire_decode_frame_retire_conn_id.
Proof. unfold ossl_quic_wire_decode_frame_retire_conn_id. apply _. Qed.

#[global] Instance reader_path_challenge : Reader ossl_quic_wire_decode_frame_path_challenge.
Proof. unfold ossl_quic_wire_decode_frame_path_challenge. apply _. Qed.

#[global] Instance reader_path_response : Reader ossl_quic_wire_decode_frame_path_response.
Proof. unfold ossl_quic_wire_decode_frame_path_response. apply _. Qed.

#[global] Instance reader_conn_close : Reader ossl_quic_wire_decode_frame_conn_close.
Proof. unfold ossl_quic_wire_decode_frame_conn_close. apply _. Qed.

#[global] Instance reader_padding : Reader ossl_quic_wire_decode_padding.
Proof. unfold ossl_quic_wire_decode_padding. apply _. Qed.

#[global] Instance reader_ping : Reader ossl_quic_wire_decode_frame_ping.
Proof. unfold ossl_quic_wire_decode_frame_ping. apply _. Qed.

#[global] Instance reader_handshake_done : Reader ossl_quic_wire_decode_frame_handshake_done.
Proof. unfold ossl_quic_wire_decode_frame_handshake_done. apply _. Qed.

#[global] Instance reader_transport_param_bytes :
  Reader ossl_quic_wire_decode_transport_param_bytes.
Proof. unfold ossl_quic_wire_decode_transport_param_bytes. apply _. Qed.

#[global] Instance reader_on_sub_packet {A} body (m : M PACKET A) :
  Reader m -> Reader (on_sub_packet body m).
Proof.
  intros Hm. unfold on_sub_packet, PACKET_buf_init. rewrite Z.ltb_irrefl.
  destruct (_ >? _); [apply _|]. generalize (ztake (zlen body) body). intros p.
  intros p0 r p' E. unfold local_run in E. destruct (m p) as [[a| |] t] eqn:Em; simplify_eq;
    (split; [done|by exists []]) || by apply Hm in Em as [? _].
Qed.

#[global] Instance reader_transport_param_int :
  Reader ossl_quic_wire_decode_transport_param_int.
Proof. unfold ossl_quic_wire_decode_transport_param_int. apply _. Qed.

#[global] Instance reader_transport_param_cid cid :
  Reader (ossl_quic_wire_decode_transport_param_cid cid).
Proof. unfold ossl_quic_wire_decode_transport_param_cid. apply _. Qed.

#[global] Instance reader_transport_param_preferred_addr p :
  Reader (ossl_quic_wire_decode_transport_param_preferred_addr p).
Proof. unfold ossl_quic_wire_decode_transport_param_preferred_addr. apply _. Qed.

(** ** Lemmas: the loops over acknowledged ranges have enough fuel *)

(** What [Reader] says, at one packet. *)
Definition reads_at {A} (m : M PACKET A) (p : PACKET) : Prop :=
  forall r p', m p = (r, p') -> r <> Ub /\ exists pre, p = pre ++ p'.

Lemma reader_get_at {A} (k : PACKET -> M PACKET A) :
  (forall p, reads_at (k p) p) -> Reader (bind get k).
Proof. intros Hk p r p' E. exact (Hk p r p' E). Qed.

Lemma reads_at_bind {A B} (m : M PACKET A) (k : A -> M PACKET B) p :
  reads_at m p -> (forall a p', m p = (Ok a, p') -> reads_at (k a) p') -> reads_at (bind m k) p.
Proof.
  intros Hm Hk r p' E. unfold bind in E.
  destruct (m p) as [[a| |] p1] eqn:Em; destruct (Hm _ _ Em) as [? [pre ->]].
  - destruct (Hk _ _ eq_refl _ _ E) as [? [pre' ->]]. split; [done|].
    exists (pre ++ pre'). by rewrite app_assoc.
  - simplify_eq. eauto.
  - done.
Qed.

Lemma reads_at_reader {A} (m : M PACKET A) p : Reader m -> reads_at m p.
Proof. intros Hm r p'. apply Hm. Qed.

(** A variable-length integer takes at least a byte. *)
Lemma get_vlint_consumes p v p' :
  PACKET_get_quic_vlint p = (Ok v, p') -> (length p' < length p)%nat.
Proof.
  rewrite get_quic_vlint_decode. unfold ossl_quic_vlint_decode.
  destruct (Z.ltb_spec (zlen p) 1); [done|].
  set (n := ossl_quic_vlint_decode_len (znth 0 p)).
  assert (0 < n).
  { unfold n, ossl_quic_vlint_decode_len. rewrite Z.shiftl_1_l.
    apply Z.pow_pos_nonneg; [lia|]. apply Z.shiftr_nonneg, Z.land_nonneg. lia. }
  destruct (Z.ltb_spec (zlen p) n); [done|].
  destruct (ossl_quic_vlint_decode_unchecked p); try done. intros [= <- <-].
  rewrite zdrop_drop, length_drop. rewrite zlen_length in *. lia.
Qed.

Lemma skip_vlint_consumes p p' :
  PACKET_skip_quic_vlint p = (Ok tt, p') -> (length p' < length p)%nat.
Proof.
  intros E. rewrite skip_quic_vlint_decode in E.
  pose proof (get_quic_vlint_decode p) as G.
  destruct (ossl_quic_vlint_decode p) as [[n v]| |]; simplify_eq.
  by apply (get_vlint_consumes p v).
Qed.

Lemma reads_skip_ack_ranges fuel i n p :
  (length p < fuel)%nat -> reads_at (skip_ack_ranges fuel i n) p.
Proof.
  revert i p. induction fuel as [|fuel IH]; intros i p Hf; [lia|]. simpl.
  case_match; [|apply reads_at_reader; apply _].
  apply reads_at_bind; [apply reads_at_reader; apply _|]. intros [] p1 E1.
  apply reads_at_bind; [apply reads_at_reader; apply _|]. intros [] p2 E2.
  apply skip_vlint_consumes in E1, E2. apply IH. lia.
Qed.

(** The caller's array has the announced capacity. *)
Definition ack_buffer_ok (ack : option OSSL_QUIC_FRAME_ACK) : Prop :=
  match ack with
  | Some a => num_ack_ranges a <= zlen (ack_ranges a)
  | None => True
  end.

Lemma set_range_ok a i r p :
  0 <= i < num_ack_ranges a -> ack_buffer_ok (Some a) ->
  exists a', set_range a i r p = (Ok a', p) /\ ack_buffer_ok (Some a')
    /\ num_ack_ranges a' = num_ack_ranges a.
Proof.
  intros Hi Hok. simpl in Hok. unfold set_range.
  replace (i <? zlen (ack_ranges a)) with true by lia. eexists. split; [done|].
  simpl. split; [|done]. rewrite zlen_write_at; zsimpl; lia.
Qed.

Lemma reads_decode_ack_ranges fuel i n start ack p :
  (length p < fuel)%nat -> 0 <= i -> n <= SIZE_MAX -> ack_buffer_ok ack ->
  reads_at (decode_ack_ranges fuel i n start ack) p.
Proof.
  revert i start ack p. induction fuel as [|fuel IH]; intros i start ack p Hf Hi Hn Hok; [lia|].
  simpl. case_match eqn:Ei; [|apply reads_at_reader; apply _].
  apply reads_at_bind; [apply reads_at_reader; apply _|]. intros gap p1 E1.
  apply reads_at_bind; [apply reads_at_reader; apply _|]. intros len p2 E2.
  apply get_vlint_consumes in E1, E2.
  apply reads_at_bind; [apply reads_at_reader; apply _|]. intros [] p3 E3.
  apply guard_ok in E3 as [_ ->].
  destruct ack as [a|].
  - destruct (u64 (i + 1) <? num_ack_ranges a) eqn:Eu.
    + rewrite u64_id in Eu by ulia.
      destruct (set_range_ok a (i + 1) (mkAckRange (u64 (u64 (start - gap - 2) - len))
        (u64 (start - gap - 2))) p2) as (a' & Ea' & Hok' & _); [lia|done|].
      intros r p'. unfold bind at 1. unfold bind at 1. rewrite Ea'. unfold ret at 1.
      apply IH; (done || lia).
    + intros r p'. unfold bind at 1, ret at 1. apply IH; (done || lia).
  - intros r p'. unfold bind at 1, ret at 1. apply IH; (done || lia).
Qed.

Lemma ack_delay_unit_ok {S} e (s : S) : 0 <= e < 64 -> ack_delay_unit e s = (Ok (2 ^ e), s).
Proof.
  intros He. unfold ack_delay_unit. rewrite Z.shiftl_1_l.
  by replace ((0 <=? e) && (e <? 64)) with true by lia.
Qed.

Lemma store_first_range_ok ack e raw start largest p :
  0 <= e < 64 -> ack_buffer_ok ack ->
  exists ack', store_first_range ack e raw start largest p = (Ok ack', p) /\ ack_buffer_ok ack'.
Proof.
  intros He Hok. destruct ack as [a|]; simpl; [|by eexists].
  rewrite (bind_ok _ _ _ _ _ (ack_delay_unit_ok e p He)). destruct (safe_mul raw _) as [x err]. cbv zeta. case_match; [|by eexists].
  set (a' := set_delay_time a _) in *.
  destruct (set_range_ok a' 0 (mkAckRange start largest) p) as (a2 & E & ? & _); [subst a'; simpl in *; lia|done|].
  exists (Some a2). unfold bind. by rewrite E.
Qed.

Lemma reader_ack_fields e ack t :
  0 <= e < 64 -> ack_buffer_ok ack -> Reader (decode_ack_fields e ack t).
Proof.
  intros He Hok. unfold decode_ack_fields.
  apply reader_bind; [apply _|intros largest]. apply reader_bind; [apply _|intros raw].
  apply reader_bind; [apply _|intros count]. apply reader_bind; [apply _|intros first].
  apply reader_bind; [apply _|intros _]. intros p.
  refine (reads_at_bind _ _ p _ _); [apply reads_at_reader; apply _|]. intros [] p1 E1.
  apply guard_ok in E1 as [Hn ->].
  destruct (store_first_range_ok ack e raw (u64 (largest - first)) largest p He Hok)
    as (ack1 & E1 & Hok1).
  refine (reads_at_bind _ _ p _ _).
  - intros r p' E. rewrite E1 in E. simplify_eq. split; [done|by exists []].
  - intros ack2 p1 E. rewrite E1 in E. simplify_eq. intros r p'. unfold bind at 1, get.
    revert r p'. refine (reads_at_bind _ _ p1 _ _).
    + apply reads_decode_ack_ranges; (done || lia).
    + intros ack3 p2 _. apply reads_at_reader. apply _.
Qed.

Lemma reader_frame_ack e ack :
  0 <= e < 64 -> ack_buffer_ok ack -> Reader (ossl_quic_wire_decode_frame_ack e ack).
Proof. intros He Hok. apply reader_bind; [apply _|]. intros t. by apply reader_ack_fields. Qed.

Lemma peek_ack_num_ranges_ok p : ossl_quic_wire_peek_frame_ack_num_ranges p <> Ub.
Proof.
  unfold ossl_quic_wire_peek_frame_ack_num_ranges.
  assert (forall (m : M PACKET Z), Reader m -> fst (m p) <> Ub) as H.
  { intros m Hm. destruct (m p) as [r p'] eqn:E. by apply Hm in E as [? _]. }
  apply H. do 4 (apply reader_bind; [apply _|intros ?]).
  apply reader_get_at. intros p0. apply reads_at_bind.
  - apply reads_skip_ack_ranges. lia.
  - intros [] p1 _. apply reads_at_reader. apply _.
Qed.
