(* ===== verification/Frames.v ===== *)
(** Frames as values: the bytes of every QUIC frame, the proofs that the encoders
    of Wire write exactly these bytes and that the decoders read them back, and
    the decoding of a packet payload as a sequence of frames. *)

From stdpp Require Import base list numbers option.
From Stdlib Require Import ZArith Lia.
From S2P Require Import Prelude SafeMath Vlint Packet WPacket Wire.

#[local] Open Scope cfun_scope.

(** ** Frames *)

Inductive frame :=
| F_PADDING (n : Z)
| F_PING
| F_ACK (a : OSSL_QUIC_FRAME_ACK)
| F_RESET_STREAM (f : OSSL_QUIC_FRAME_RESET_STREAM)
| F_STOP_SENDING (f : OSSL_QUIC_FRAME_STOP_SENDING)
| F_CRYPTO (f : OSSL_QUIC_FRAME_CRYPTO)
| F_NEW_TOKEN (token : list Z)
| F_STREAM (f : OSSL_QUIC_FRAME_STREAM)
| F_MAX_DATA (max_data : Z)
| F_MAX_STREAM_DATA (stream_id max_data : Z)
| F_MAX_STREAMS (is_uni : bool) (max_streams : Z)
| F_DATA_BLOCKED (max_data : Z)
| F_STREAM_DATA_BLOCKED (stream_id max_stream_data : Z)
| F_STREAMS_BLOCKED (is_uni : bool) (max_streams : Z)
| F_NEW_CONN_ID (f : OSSL_QUIC_FRAME_NEW_CONN_ID)
| F_RETIRE_CONN_ID (seq_num : Z)
| F_PATH_CHALLENGE (data : Z)
| F_PATH_RESPONSE (data : Z)
| F_CONN_CLOSE (f : OSSL_QUIC_FRAME_CONN_CLOSE)
| F_HANDSHAKE_DONE.

(** The encoder of each kind of frame. *)
Definition encode_frame (e : Z) (f : frame) : M WS unit :=
  match f with
  | F_PADDING n => ossl_quic_wire_encode_padding n
  | F_PING => ossl_quic_wire_encode_frame_ping
  | F_ACK a => ossl_quic_wire_encode_frame_ack e a
  | F_RESET_STREAM f => ossl_quic_wire_encode_frame_reset_stream f
  | F_STOP_SENDING f => ossl_quic_wire_encode_frame_stop_sending f
  | F_CRYPTO f => ossl_quic_wire_encode_frame_crypto f ;;; ret tt
  | F_NEW_TOKEN token => ossl_quic_wire_encode_frame_new_token token (zlen token)
  | F_STREAM f => ossl_quic_wire_encode_frame_stream f ;;; ret tt
  | F_MAX_DATA v => ossl_quic_wire_encode_frame_max_data v
  | F_MAX_STREAM_DATA s v => ossl_quic_wire_encode_frame_max_stream_data s v
  | F_MAX_STREAMS u v => ossl_quic_wire_encode_frame_max_streams u v
  | F_DATA_BLOCKED v => ossl_quic_wire_encode_frame_data_blocked v
  | F_STREAM_DATA_BLOCKED s v => ossl_quic_wire_encode_frame_stream_data_blocked s v
  | F_STREAMS_BLOCKED u v => ossl_quic_wire_encode_frame_streams_blocked u v
  | F_NEW_CONN_ID f => ossl_quic_wire_encode_frame_new_conn_id f
  | F_RETIRE_CONN_ID v => ossl_quic_wire_encode_frame_retire_conn_id v
  | F_PATH_CHALLENGE v => ossl_quic_wire_encode_frame_path_challenge v
  | F_PATH_RESPONSE v => ossl_quic_wire_encode_frame_path_response v
  | F_CONN_CLOSE f => ossl_quic_wire_encode_frame_conn_close f
  | F_HANDSHAKE_DONE => ossl_quic_wire_encode_frame_handshake_done
  end.

Definition empty_ack (n : Z) : OSSL_QUIC_FRAME_ACK :=
  mkAck (zrepeat (mkAckRange 0 0) n) n 0 0 0 0 false.

(** Decoding an ACK frame the way a receiver does: count the ranges, provide an
    array for them, decode. *)
Definition decode_ack (e : Z) : M PACKET frame :=
  let! p := get in
  match ossl_quic_wire_peek_frame_ack_num_ranges p with
  | Ok n =>
      let! r := ossl_quic_wire_decode_frame_ack e (Some (empty_ack n)) in
      match fst r with Some a => ret (F_ACK a) | None => fail end
  | Err => fail
  | Ub => undef
  end.

(** The decoder for a frame type. *)
Definition decode_by_type (e t : Z) : M PACKET frame :=
  if t =? OSSL_QUIC_FRAME_TYPE_PADDING then
    let! n := ossl_quic_wire_decode_padding in ret (F_PADDING n)
  else if t =? OSSL_QUIC_FRAME_TYPE_PING then
    ossl_quic_wire_decode_frame_ping ;;; ret F_PING
  else if OSSL_QUIC_FRAME_TYPE_IS_ACK t then decode_ack e
  else if t =? OSSL_QUIC_FRAME_TYPE_RESET_STREAM then
    let! f := ossl_quic_wire_decode_frame_reset_stream in ret (F_RESET_STREAM f)
  else if t =? OSSL_QUIC_FRAME_TYPE_STOP_SENDING then
    let! f := ossl_quic_wire_decode_frame_stop_sending in ret (F_STOP_SENDING f)
  else if t =? OSSL_QUIC_FRAME_TYPE_CRYPTO then
    let! f := ossl_quic_wire_decode_frame_crypto false in ret (F_CRYPTO f)
  else if t =? OSSL_QUIC_FRAME_TYPE_NEW_TOKEN then
    let! f := ossl_quic_wire_decode_frame_new_token in ret (F_NEW_TOKEN f)
  else if OSSL_QUIC_FRAME_TYPE_IS_STREAM t then
    let! f := ossl_quic_wire_decode_frame_stream false in ret (F_STREAM f)
  else if t =? OSSL_QUIC_FRAME_TYPE_MAX_DATA then
    let! v := ossl_quic_wire_decode_frame_max_data in ret (F_MAX_DATA v)
  else if t =? OSSL_QUIC_FRAME_TYPE_MAX_STREAM_DATA then
    let! v := ossl_quic_wire_decode_frame_max_stream_data in
    ret (F_MAX_STREAM_DATA (fst v) (snd v))
  else if OSSL_QUIC_FRAME_TYPE_IS_MAX_STREAMS t then
    let! v := ossl_quic_wire_decode_frame_max_streams in
    ret (F_MAX_STREAMS (t =? OSSL_QUIC_FRAME_TYPE_MAX_STREAMS_UNI) v)
  else if t =? OSSL_QUIC_FRAME_TYPE_DATA_BLOCKED then
    let! v := ossl_quic_wire_decode_frame_data_blocked in ret (F_DATA_BLOCKED v)
  else if t =? OSSL_QUIC_FRAME_TYPE_STREAM_DATA_BLOCKED then
    let! v := ossl_quic_wire_decode_frame_stream_data_blocked in
    ret (F_STREAM_DATA_BLOCKED (fst v) (snd v))
  else if OSSL_QUIC_FRAME_TYPE_IS_STREAMS_BLOCKED t then
    let! v := ossl_quic_wire_decode_frame_streams_blocked in
    ret (F_STREAMS_BLOCKED (t =? OSSL_QUIC_FRAME_TYPE_STREAMS_BLOCKED_UNI) v)
  else if t =? OSSL_QUIC_FRAME_TYPE_NEW_CONN_ID then
    let! f := ossl_quic_wire_decode_frame_new_conn_id in ret (F_NEW_CONN_ID f)
  else if t =? OSSL_QUIC_FRAME_TYPE_RETIRE_CONN_ID then
    let! v := ossl_quic_wire_decode_frame_retire_conn_id in ret (F_RETIRE_CONN_ID v)
  else if t =? OSSL_QUIC_FRAME_TYPE_PATH_CHALLENGE then
    let! v := ossl_quic_wire_decode_frame_path_challenge in ret (F_PATH_CHALLENGE v)
  else if t =? OSSL_QUIC_FRAME_TYPE_PATH_RESPONSE then
    let! v := ossl_quic_wire_decode_frame_path_response in ret (F_PATH_RESPONSE v)
  else if OSSL_QUIC_FRAME_TYPE_IS_CONN_CLOSE t then
    let! f := ossl_quic_wire_decode_frame_conn_close in ret (F_CONN_CLOSE f)
  else if t =? OSSL_QUIC_FRAME_TYPE_HANDSHAKE_DONE then
    ossl_quic_wire_decode_frame_handshake_done ;;; ret F_HANDSHAKE_DONE
  else fail.

(** Decoding one frame: the decoder is chosen by the type in the frame header,
    which has to be encoded in the fewest bytes. *)
Definition decode_frame (e : Z) : M PACKET frame :=
  let! '(t, minimal) := ossl_quic_wire_peek_frame_header in
  guard minimal ;;; decode_by_type e t.

(** ** The wire format, independently of the code *)

#[global] Abbreviation vl := ossl_quic_vlint_encode.

Definition is_vl (v : Z) : Prop := 0 <= v <= OSSL_QUIC_VLINT_MAX.

(** The pairs of gap and length that follow the range [prev]. *)
Fixpoint ranges_bytes (prev : OSSL_QUIC_ACK_RANGE) (l : list OSSL_QUIC_ACK_RANGE) : list Z :=
  match l with
  | [] => []
  | r :: l' => vl (ar_start prev - ar_end r - 2) ++ vl (ar_end r - ar_start r)
               ++ ranges_bytes r l'
  end.

Definition ecn_bytes (a : OSSL_QUIC_FRAME_ACK) : list Z :=
  if ecn_present a then vl (ect0 a) ++ vl (ect1 a) ++ vl (ecnce a) else [].

(** The delay in units of 2^e microseconds; a tick is a nanosecond. *)
Definition delay_units (e t : Z) : Z := t / 1000 / 2 ^ e.

Definition ack_bytes (e : Z) (a : OSSL_QUIC_FRAME_ACK) : list Z :=
  match ack_ranges a with
  | [] => []
  | r0 :: l => vl (if ecn_present a then 3 else 2) ++ vl (ar_end r0) ++
               vl (delay_units e (delay_time a)) ++ vl (zlen l) ++
               vl (ar_end r0 - ar_start r0) ++ ranges_bytes r0 l ++ ecn_bytes a
  end.

Definition stream_bytes (f : OSSL_QUIC_FRAME_STREAM) : list Z :=
  vl (8 + (if s_offset f =? 0 then 0 else 4) + (if has_explicit_len f then 2 else 0)
      + (if is_fin f then 1 else 0)) ++
  vl (s_stream_id f) ++
  (if s_offset f =? 0 then [] else vl (s_offset f)) ++
  (if has_explicit_len f then vl (s_len f) else []) ++
  default [] (s_data f).

Definition frame_bytes (e : Z) (f : frame) : list Z :=
  match f with
  | F_PADDING n => zrepeat 0 n
  | F_PING => vl 1
  | F_ACK a => ack_bytes e a
  | F_RESET_STREAM f =>
      vl 4 ++ vl (rs_stream_id f) ++ vl (rs_app_error_code f) ++ vl (rs_final_size f)
  | F_STOP_SENDING f => vl 5 ++ vl (ss_stream_id f) ++ vl (ss_app_error_code f)
  | F_CRYPTO f => vl 6 ++ vl (c_offset f) ++ vl (c_len f) ++ default [] (c_data f)
  | F_NEW_TOKEN token => vl 7 ++ vl (zlen token) ++ token
  | F_STREAM f => stream_bytes f
  | F_MAX_DATA v => vl 16 ++ vl v
  | F_MAX_STREAM_DATA s v => vl 17 ++ vl s ++ vl v
  | F_MAX_STREAMS u v => vl (if u then 19 else 18) ++ vl v
  | F_DATA_BLOCKED v => vl 20 ++ vl v
  | F_STREAM_DATA_BLOCKED s v => vl 21 ++ vl s ++ vl v
  | F_STREAMS_BLOCKED u v => vl (if u then 23 else 22) ++ vl v
  | F_NEW_CONN_ID f =>
      vl 24 ++ vl (seq_num f) ++ vl (retire_prior_to f) ++ [id_len (conn_id f)] ++
      ztake (id_len (conn_id f)) (id (conn_id f)) ++ stateless_reset f
  | F_RETIRE_CONN_ID v => vl 25 ++ vl v
  | F_PATH_CHALLENGE v => vl 26 ++ be_bytes 8 v
  | F_PATH_RESPONSE v => vl 27 ++ be_bytes 8 v
  | F_CONN_CLOSE f =>
      vl (if is_app f then 29 else 28) ++ vl (error_code f) ++
      (if is_app f then [] else vl (cc_frame_type f)) ++ vl (reason_len f) ++ reason f
  | F_HANDSHAKE_DONE => vl 30
  end.

(** Ranges in descending order with at least one packet number between them, as
    the comment of OSSL_QUIC_FRAME_ACK demands. *)
Fixpoint ranges_ok (l : list OSSL_QUIC_ACK_RANGE) : Prop :=
  match l with
  | [] => True
  | r :: l' =>
      0 <= ar_start r <= ar_end r
      /\ match l' with r' :: _ => ar_end r' + 2 <= ar_start r | [] => True end
      /\ ranges_ok l'
  end.

(** The frames that can be sent: integers below 2^62, lengths that agree with the
    data, a connection identifier padded with zeros. *)
Definition frame_ok (f : frame) : Prop :=
  match f with
  | F_PADDING n => 0 < n
  | F_PING | F_HANDSHAKE_DONE => True
  | F_ACK a =>
      ack_ranges a <> [] /\ num_ack_ranges a = zlen (ack_ranges a) /\ is_vl (num_ack_ranges a)
      /\ ranges_ok (ack_ranges a)
      /\ (forall r, head (ack_ranges a) = Some r -> ar_end r <= OSSL_QUIC_VLINT_MAX)
      /\ is_u64 (delay_time a)
      /\ (if ecn_present a then is_vl (ect0 a) /\ is_vl (ect1 a) /\ is_vl (ecnce a)
          else ect0 a = 0 /\ ect1 a = 0 /\ ecnce a = 0)
  | F_RESET_STREAM f =>
      is_vl (rs_stream_id f) /\ is_vl (rs_app_error_code f) /\ is_vl (rs_final_size f)
  | F_STOP_SENDING f => is_vl (ss_stream_id f) /\ is_vl (ss_app_error_code f)
  | F_CRYPTO f =>
      is_vl (c_offset f) /\ 0 < c_len f /\ c_offset f + c_len f <= OSSL_QUIC_VLINT_MAX
      /\ exists d, c_data f = Some d /\ zlen d = c_len f
  | F_NEW_TOKEN token => is_vl (zlen token)
  | F_STREAM f =>
      is_vl (s_stream_id f) /\ is_vl (s_offset f) /\ 0 < s_len f
      /\ s_offset f + s_len f <= OSSL_QUIC_VLINT_MAX
      /\ exists d, s_data f = Some d /\ zlen d = s_len f
  | F_MAX_DATA v | F_MAX_STREAMS _ v | F_DATA_BLOCKED v | F_STREAMS_BLOCKED _ v
  | F_RETIRE_CONN_ID v => is_vl v
  | F_MAX_STREAM_DATA s v | F_STREAM_DATA_BLOCKED s v => is_vl s /\ is_vl v
  | F_NEW_CONN_ID f =>
      is_vl (seq_num f) /\ 0 <= retire_prior_to f <= seq_num f
      /\ 1 <= id_len (conn_id f) <= QUIC_MAX_CONN_ID_LEN
      /\ (exists d, zlen d = id_len (conn_id f)
            /\ id (conn_id f) = d ++ zrepeat 0 (QUIC_MAX_CONN_ID_LEN - zlen d))
      /\ zlen (stateless_reset f) = QUIC_STATELESS_RESET_TOKEN_LEN
  | F_PATH_CHALLENGE v | F_PATH_RESPONSE v => is_u64 v
  | F_CONN_CLOSE f =>
      is_vl (error_code f) /\ is_vl (reason_len f) /\ zlen (reason f) = reason_len f
      /\ (if is_app f then cc_frame_type f = 0 else is_vl (cc_frame_type f))
  end.

(** What the peer sees: only the delay of an ACK frame loses precision. *)
Definition peer_view (e : Z) (f : frame) : frame :=
  match f with
  | F_ACK a =>
      F_ACK (set_delay_time a (delay_units e (delay_time a) * 2 ^ e * 1000))
  | _ => f
  end.

(** ** Lemmas: the encoders *)

(** Arithmetic up to the largest QUIC integer. *)
Ltac vlia :=
  unfold is_vl in *; change OSSL_QUIC_VLINT_MAX with 4611686018427387903 in *; ulia.

Section Emits.
Context {A B : Type}.

Lemma emits_app (m : M WS A) (k : A -> M WS B) bs cs :
  emits m false bs -> (forall a, emits (k a) false cs) -> emits (bind m k) false (bs ++ cs).
Proof. exact (emits_bind m k false bs cs). Qed.

Lemma emits_nil (m : M WS A) (k : A -> M WS B) bs :
  emits m false bs -> (forall a, emits (k a) false []) -> emits (bind m k) false bs.
Proof. intros Hm Hk. rewrite <- (app_nil_r bs). by apply emits_app. Qed.

End Emits.

Lemma emits_vl v : is_vl v -> emits (WPACKET_quic_write_vlint v) false (vl v).
Proof. apply emits_quic_vlint. Qed.

Lemma emits_hdr t : is_vl t -> emits (encode_frame_hdr t) false (vl t).
Proof. apply emits_quic_vlint. Qed.

Lemma emits_memcpy_len src len :
  0 <= len <= zlen src -> emits (WPACKET_memcpy src len) false (ztake len src).
Proof.
  intros Hl. pose proof (emits_memcpy false (ztake len src)) as He.
  rewrite zlen_ztake in He by lia. unfold WPACKET_memcpy in *.
  by rewrite ztake_ztake, Z.min_id in He.
Qed.

Lemma emits_u8 v : 0 <= v < 256 -> emits (WPACKET_put_bytes__ v 1) false [v].
Proof.
  intros Hv. replace [v] with (be_bytes (Z.to_nat 1) v); [apply emits_put_bytes; lia|].
  simpl. by rewrite Z.div_1_r, Z.mod_small.
Qed.

Lemma emits_u64 v : is_u64 v -> emits (WPACKET_put_bytes__ v 8) false (be_bytes 8 v).
Proof. intros Hv. apply (emits_put_bytes false v 8); [lia|ulia]. Qed.

(** Allocate the data area and copy the data into it. *)
Lemma emits_data d len :
  0 < len -> zlen d = len ->
  emits (let! p := WPACKET_allocate_bytes len in copy_data p (Some d) len ;;; ret p) false d.
Proof.
  intros Hl <-. apply emits_alloc; [intros ->; zsimpl; lia|].
  intros w p w' Hn Ha. destruct p as [q|].
  - simpl copy_data. rewrite ztake_ge by lia.
    eapply total_bind; [by apply (total_put_at w d (Some q))|]. cbv beta. intros _ w2 Happ.
    by apply total_ret.
  - destruct Ha as (? & ? & ? & ? & ? & Hn'). congruence.
Qed.

Lemma vl_const t : 0 <= t <= 63 -> is_vl t.
Proof. vlia. Qed.

Create HintDb emits.
#[export] Hint Resolve emits_vl emits_hdr emits_u8 emits_u64 emits_ret : emits.
#[export] Hint Extern 1 (is_vl _) => (apply vl_const; lia) : emits.

(** Follow the structure of an encoder; the parts are left to the hints. *)
Ltac emit_step :=
  lazymatch goal with
  | |- emits (bind (guard _) _) _ _ => apply emits_guard
  | |- emits (bind _ _) _ (_ ++ _) => apply emits_app; [|intros ?]
  end.
Ltac emit := repeat emit_step; auto with emits.

Lemma ranges_ok_cons r l :
  ranges_ok (r :: l) -> 0 <= ar_start r <= ar_end r /\ ranges_ok l
    /\ forall r', head l = Some r' -> ar_end r' + 2 <= ar_start r.
Proof. simpl. intros (? & Hl & ?). split_and!; try done; [lia|lia|]. destruct l; naive_solver. Qed.

Lemma emits_ack_ranges prev l :
  ranges_ok (prev :: l) -> ar_end prev <= OSSL_QUIC_VLINT_MAX ->
  emits (encode_ack_ranges prev l) false (ranges_bytes prev l).
Proof.
  change OSSL_QUIC_VLINT_MAX with 4611686018427387903.
  revert prev. induction l as [|r l IH]; intros prev Hok Hmax; cbn [encode_ack_ranges ranges_bytes].
  - apply emits_ret.
  - apply ranges_ok_cons in Hok as (Hr & Hok & Hgap). specialize (Hgap r eq_refl).
    pose proof (ranges_ok_cons _ _ Hok) as (Hr' & _ & _).
    rewrite !u64_id by lia.
    assert (is_vl (ar_start prev - ar_end r - 2)) by vlia.
    assert (is_vl (ar_end r - ar_start r)) by vlia.
    emit. apply IH; [done|lia].
Qed.

Lemma time_divide_pos a b : 0 < b -> ossl_time_divide a b = a / b.
Proof. intros Hb. unfold ossl_time_divide, safe_div. by replace (b =? 0) with false by lia. Qed.

(** A computation that does not touch the packet being written. *)
Lemma emits_pure {A B} (m : M WS A) (k : A -> M WS B) a b bs :
  (forall w, m w = (Ok a, w)) -> emits (k a) b bs -> emits (bind m k) b bs.
Proof.
  intros Hm Hk w Hr He Hc. unfold total. rewrite (bind_ok _ _ _ _ _ (Hm _)). by apply Hk.
Qed.

Section Ack.
Context (e : Z) (He : 0 <= e < 64).

Lemma exponent_pow : 1 <= 2 ^ e <= 2 ^ 63.
Proof. change 1 with (2 ^ 0) at 1. split; apply Z.pow_le_mono_r; lia. Qed.

Lemma delay_units_vl t : is_u64 t -> is_vl (delay_units e t).
Proof.
  intros Ht. unfold is_vl, delay_units. change OSSL_QUIC_VLINT_MAX with 4611686018427387903.
  destruct exponent_pow as [? _].
  assert (0 <= t / 1000 <= 18446744073709551) by ulia.
  split; [apply Z.div_pos; lia|]. apply Z.div_le_upper_bound; nia.
Qed.

Lemma emits_ack a :
  frame_ok (F_ACK a) -> emits (ossl_quic_wire_encode_frame_ack e a) false (ack_bytes e a).
Proof.
  intros (Hne & Hnum & Hvl & Hok & Hmax & Ht & Hecn).
  unfold ossl_quic_wire_encode_frame_ack, ack_bytes.
  destruct (ack_ranges a) as [|r0 l] eqn:Er; [done|]. specialize (Hmax r0 eq_refl).
  pose proof (ranges_ok_cons _ _ Hok) as (Hr0 & _ & _). pose proof (zlen_nonneg l).
  rewrite Hnum, ztake_ge by lia. rewrite Hnum in Hvl. unfold is_vl in Hvl.
  change OSSL_QUIC_VLINT_MAX with 4611686018427387903 in *. zsimpl.
  apply emits_guard; [lia|].
  eapply emits_pure; [intros w; by apply ack_delay_unit_ok|].
  destruct exponent_pow as [? _]. change OSSL_TIME_US with 1000.
  rewrite !time_divide_pos by lia. fold (delay_units e (delay_time a)).
  unfold ossl_time2ticks. rewrite !u64_id by lia.
  replace (1 + zlen l - 1) with (zlen l) by lia.
  assert (is_vl (ar_end r0)) by vlia.
  assert (is_vl (zlen l)) by vlia.
  assert (is_vl (ar_end r0 - ar_start r0)) by vlia.
  pose proof (delay_units_vl _ Ht).
  emit; [destruct (ecn_present a); auto with emits|by apply emits_ack_ranges|].
  unfold ecn_bytes. destruct (ecn_present a); [|auto with emits].
  destruct Hecn as (? & ? & ?). emit.
Qed.

End Ack.

Lemma emits_crypto f :
  frame_ok (F_CRYPTO f) ->
  emits (ossl_quic_wire_encode_frame_crypto f) false
    (vl 6 ++ vl (c_offset f) ++ vl (c_len f) ++ default [] (c_data f)).
Proof.
  intros (? & Hl & Hmax & d & Hd & Hz). unfold ossl_quic_wire_encode_frame_crypto,
    ossl_quic_wire_encode_frame_crypto_hdr. rewrite Hd. simpl default.
  assert (is_vl (c_len f)) by vlia.
  rewrite !app_assoc. apply emits_app.
  - rewrite <- !app_assoc. emit.
  - intros _. apply emits_guard; [|by apply emits_data].
    vlia.
Qed.

Lemma stream_type_value f :
  stream_frame_type f =
    8 + (if s_offset f =? 0 then 0 else 4) + (if has_explicit_len f then 2 else 0)
    + (if is_fin f then 1 else 0).
Proof.
  unfold stream_frame_type. by destruct (s_offset f =? 0), (has_explicit_len f), (is_fin f).
Qed.

Lemma emits_stream f :
  frame_ok (F_STREAM f) ->
  emits (ossl_quic_wire_encode_frame_stream f) false (stream_bytes f).
Proof.
  intros (? & ? & Hl & Hmax & d & Hd & Hz). unfold ossl_quic_wire_encode_frame_stream,
    ossl_quic_wire_encode_frame_stream_hdr, stream_bytes. rewrite Hd, stream_type_value.
  simpl default. assert (is_vl (s_len f)) by vlia.
  rewrite !app_assoc. apply emits_app.
  - rewrite <- !app_assoc. emit.
    + apply emits_hdr, vl_const. repeat case_match; lia.
    + destruct (s_offset f =? 0); simpl; auto with emits.
    + destruct (has_explicit_len f); auto with emits.
  - intros _. apply emits_guard; [|by apply emits_data].
    vlia.
Qed.

Lemma emits_frame e f :
  0 <= e < 64 -> frame_ok f -> emits (encode_frame e f) false (frame_bytes e f).
Proof.
  intros He Hok. destruct f; cbn [encode_frame frame_bytes frame_ok] in *; destruct_and?;
    unfold ossl_quic_wire_encode_frame_reset_stream, ossl_quic_wire_encode_frame_stop_sending,
      ossl_quic_wire_encode_frame_new_token, ossl_quic_wire_encode_frame_max_data,
      ossl_quic_wire_encode_frame_max_stream_data, ossl_quic_wire_encode_frame_max_streams,
      ossl_quic_wire_encode_frame_data_blocked, ossl_quic_wire_encode_frame_stream_data_blocked,
      ossl_quic_wire_encode_frame_streams_blocked, ossl_quic_wire_encode_frame_retire_conn_id,
      ossl_quic_wire_encode_frame_path_challenge, ossl_quic_wire_encode_frame_path_response.
  - apply emits_memset. lia.
  - apply emits_hdr, vl_const. lia.
  - by apply emits_ack.
  - emit.
  - emit.
  - apply emits_nil; [by apply emits_crypto|auto with emits].
  - emit. apply emits_memcpy.
  - apply emits_nil; [by apply emits_stream|auto with emits].
  - emit.
  - emit.
  - emit; destruct is_uni; auto with emits.
  - emit.
  - emit.
  - emit; destruct is_uni; auto with emits.
  - match goal with H : exists d, _ |- _ => destruct H as (d & Hd & Hid) end.
    match goal with H : zlen (stateless_reset f) = _ |- _ => rename H into Htok end.
    rewrite Hid, <- Hd, ztake_app_exact.
    unfold ossl_quic_wire_encode_frame_new_conn_id. rewrite Hid, <- Hd.
    apply emits_guard; [lia|]. emit; try vlia.
    + apply emits_vl. vlia.
    + apply emits_u8. unfold QUIC_MAX_CONN_ID_LEN in *. lia.
    + set (pad := zrepeat 0 _). pose proof (emits_memcpy_len (d ++ pad) (zlen d)) as Hc.
      rewrite ztake_app_exact in Hc. apply Hc. rewrite zlen_app.
      pose proof (zlen_nonneg d). pose proof (zlen_nonneg pad). lia.
    + rewrite <- Htok. apply emits_memcpy.
  - emit.
  - emit.
  - emit.
  - unfold ossl_quic_wire_encode_frame_conn_close. emit.
    + destruct (is_app f); auto with emits.
    + destruct (is_app f); simpl; auto with emits.
    + match goal with H : zlen (reason f) = _ |- _ => rewrite <- H end. apply emits_memcpy.
  - apply emits_hdr, vl_const. lia.
Qed.

(** ** Lemmas: the decoders *)

Lemma parses_vl v : is_vl v -> parses PACKET_get_quic_vlint (vl v) v.
Proof. apply parses_get_quic_vlint. Qed.

Lemma parses_header t : is_vl t -> parses (expect_frame_header t) (vl t) tt.
Proof.
  intros Ht. eapply parses_bind_nil; [by apply parses_vl|]. apply parses_guard. lia.
Qed.

Lemma parses_header_mask x t m :
  is_vl x -> mask_out x m = t -> parses (expect_frame_header_mask t m) (vl x) x.
Proof.
  intros Hx <-. eapply parses_bind_nil; [by apply parses_vl|].
  eapply (parses_bind _ _ [] []); [by apply parses_guard, Z.eqb_refl|]. apply parses_ret.
Qed.

Lemma parses_guard_bind {A} (b : bool) (m : M PACKET A) bs a :
  b = true -> parses m bs a -> parses (guard b ;;; m) bs a.
Proof. intros -> Hm. exact Hm. Qed.

(** [m] reads [bs] and returns [a] when [rest] follows. *)
Definition parses_in {A} (rest : list Z) (m : M PACKET A) (bs : list Z) (a : A) : Prop :=
  m (bs ++ rest) = (Ok a, rest).

Section ParsesIn.
Context {A B : Type} (rest : list Z).

Lemma parses_in_of (m : M PACKET A) bs a : parses m bs a -> parses_in rest m bs a.
Proof. intros Hm. apply Hm. Qed.

Lemma parses_in_bind (m : M PACKET A) (k : A -> M PACKET B) bs cs a b :
  parses m bs a -> parses_in rest (k a) cs b -> parses_in rest (bind m k) (bs ++ cs) b.
Proof.
  intros Hm Hk. unfold parses_in, bind. rewrite <- app_assoc, Hm. exact Hk.
Qed.

Lemma parses_in_bind_nil (m : M PACKET A) (k : A -> M PACKET B) bs a b :
  parses_in rest m bs a -> k a rest = (Ok b, rest) -> parses_in rest (bind m k) bs b.
Proof. intros Hm Hk. unfold parses_in, bind. by rewrite Hm. Qed.

Lemma parses_in_skip (m : M PACKET A) (k : A -> M PACKET B) cs a b :
  parses m [] a -> parses_in rest (k a) cs b -> parses_in rest (bind m k) cs b.
Proof. intros Hm Hk. exact (parses_in_bind m k [] cs a b Hm Hk). Qed.

Lemma parses_in_guard (c : bool) (m : M PACKET A) bs a :
  c = true -> parses_in rest m bs a -> parses_in rest (guard c ;;; m) bs a.
Proof. intros -> Hm. exact Hm. Qed.

Lemma parses_in_get (k : PACKET -> M PACKET A) bs a :
  parses_in rest (k (bs ++ rest)) bs a -> parses_in rest (bind get k) bs a.
Proof. intros Hk. exact Hk. Qed.

Lemma parses_in_last (m : M PACKET A) (f : A -> B) bs a :
  parses m bs a -> parses_in rest (let! x := m in ret (f x)) bs (f a).
Proof. intros Hm. eapply parses_in_bind_nil; [by apply parses_in_of|done]. Qed.

End ParsesIn.

Create HintDb parses.
#[export] Hint Resolve parses_vl parses_header parses_get_1 parses_get_net_8
  parses_get_bytes parses_copy_bytes parses_forward parses_ret : parses.
#[export] Hint Extern 1 (is_vl _) => (apply vl_const; lia) : parses.
#[export] Hint Extern 2 (parses (expect_frame_header_mask _ _) (vl _) _) =>
  (apply parses_header_mask; [apply vl_const; lia|reflexivity]) : parses.

Ltac parse_step :=
  lazymatch goal with
  | |- parses_in _ (bind (guard _) _) _ _ => apply parses_in_guard
  | |- parses_in _ (bind get _) _ _ => apply parses_in_get
  | |- parses_in _ (bind _ _) (_ ++ _) _ => eapply parses_in_bind; [solve [eauto with parses]|]
  | |- parses_in _ (bind _ (fun x => ret _)) _ _ =>
      eapply parses_in_bind_nil; [apply parses_in_of; solve [eauto with parses]|reflexivity]
  | |- parses_in _ _ _ _ => apply parses_in_of; solve [eauto with parses]
  end.
Ltac parse := repeat parse_step.

Lemma parses_in_crypto rest f :
  frame_ok (F_CRYPTO f) ->
  parses_in rest (ossl_quic_wire_decode_frame_crypto false)
    (vl 6 ++ vl (c_offset f) ++ vl (c_len f) ++ default [] (c_data f)) f.
Proof.
  intros (? & ? & ? & d & Hd & Hz). destruct f as [off len data].
  cbn [c_offset c_len c_data] in *. subst.
  unfold ossl_quic_wire_decode_frame_crypto. change (default [] (Some d)) with d.
  assert (is_vl (zlen d)) by vlia. pose proof (zlen_nonneg rest).
  change QUIC_MAX_OFFSET with OSSL_QUIC_VLINT_MAX.
  eapply parses_in_bind; [by apply parses_header, vl_const|].
  parse; unfold PACKET_remaining, PACKET_data; rewrite ?u64_id by vlia; try vlia.
  { rewrite zlen_app. vlia. }
  rewrite ztake_app_exact. parse.
Qed.

Lemma parses_in_stream rest f :
  frame_ok (F_STREAM f) -> has_explicit_len f = true \/ rest = [] ->
  parses_in rest (ossl_quic_wire_decode_frame_stream false) (stream_bytes f) f.
Proof.
  intros (? & ? & ? & ? & d & Hd & Hz) Hend. destruct f as [sid off len data el fin].
  unfold stream_bytes, ossl_quic_wire_decode_frame_stream.
  cbn [s_stream_id s_offset s_len s_data has_explicit_len is_fin] in *. subst data len.
  change (default [] (Some d)) with d.
  assert (is_vl (zlen d)) by vlia. pose proof (zlen_nonneg rest).
  set (t := 8 + _ + _ + _).
  assert (parses (expect_frame_header_mask OSSL_QUIC_FRAME_TYPE_STREAM
            OSSL_QUIC_FRAME_FLAG_STREAM_MASK) (vl t) t) as Ht.
  { apply parses_header_mask; [apply vl_const; subst t; repeat case_match; lia|].
    subst t. by destruct (off =? 0), el, fin. }
  assert (has_flag t OSSL_QUIC_FRAME_FLAG_STREAM_OFF = negb (off =? 0)
          /\ has_flag t OSSL_QUIC_FRAME_FLAG_STREAM_LEN = el
          /\ has_flag t OSSL_QUIC_FRAME_FLAG_STREAM_FIN = fin) as (F1 & F2 & F3).
  { subst t. by destruct (off =? 0), el, fin. }
  eapply parses_in_bind; [exact Ht|]. rewrite F1, F2, F3.
  eapply parses_in_bind; [by apply parses_vl|].
  change QUIC_MAX_OFFSET with OSSL_QUIC_VLINT_MAX.
  eapply (parses_in_bind _ _ _ _ _ off).
  { destruct (Z.eqb_spec off 0) as [->|]; simpl; auto with parses. }
  destruct el.
  - eapply parses_in_bind; [by apply parses_vl|].
    parse; unfold PACKET_data; rewrite ?u64_id by vlia; try vlia.
    rewrite ztake_app_exact. parse.
  - destruct Hend as [?| ->]; [done|]. simpl app. unfold parses_in. rewrite app_nil_r.
    unfold PACKET_forward, packet_forward, guard, bind, get, put, ret, fail, undef,
      PACKET_remaining, PACKET_data. rewrite u64_id by vlia.
    replace (off + zlen d >? OSSL_QUIC_VLINT_MAX) with false by vlia.
    replace (zlen d >? SIZE_MAX) with false by vlia. cbn [negb].
    decide_tests. by rewrite ztake_ge, zdrop_ge by lia.
Qed.

Lemma bind_parses {A B} (m : M PACKET A) (k : A -> M PACKET B) bs a rest :
  parses m bs a -> bind m k (bs ++ rest) = k a rest.
Proof. intros Hm. unfold bind. by rewrite Hm. Qed.

(** *** ACK frames *)

(** The integers that describe the range [r] after [prev]. *)
Lemma range_vl prev r l :
  ranges_ok (prev :: r :: l) -> ar_end prev <= OSSL_QUIC_VLINT_MAX ->
  is_vl (ar_start prev - ar_end r - 2) /\ is_vl (ar_end r - ar_start r)
  /\ 0 <= ar_start r <= ar_end r /\ ar_end r + 2 <= ar_start prev
  /\ ar_start prev <= OSSL_QUIC_VLINT_MAX /\ ranges_ok (r :: l).
Proof.
  intros Hok Hmax. apply ranges_ok_cons in Hok as (Hp & Hok & Hgap).
  specialize (Hgap r eq_refl). pose proof (ranges_ok_cons _ _ Hok) as (Hr & _ & _).
  split_and!; (done || vlia).
Qed.

Lemma length_ranges_bytes prev l :
  ranges_ok (prev :: l) -> ar_end prev <= OSSL_QUIC_VLINT_MAX ->
  (length l <= length (ranges_bytes prev l))%nat.
Proof.
  revert prev. induction l as [|r l IH]; intros prev Hok Hmax; [simpl; lia|].
  destruct (range_vl _ _ _ Hok Hmax) as (Hg & Hl & ? & ? & ? & Hok').
  cbn [ranges_bytes length]. rewrite !length_app. specialize (IH r Hok' ltac:(lia)).
  pose proof (zlen_encode _ Hg) as Hz. pose proof (encode_len_bounds _ Hg).
  rewrite zlen_length in Hz. lia.
Qed.

(** The receiver counts two integers per range, starting with the length of the
    first range: the length of the last range is left. *)
Lemma skip_ranges_run prev l fuel i n x rest :
  ranges_ok (prev :: l) -> ar_end prev <= OSSL_QUIC_VLINT_MAX -> is_vl x ->
  n = i + zlen l -> (length l <= fuel)%nat ->
  exists y, skip_ack_ranges fuel i n (vl x ++ ranges_bytes prev l ++ rest) = (Ok tt, vl y ++ rest).
Proof.
  revert prev fuel i x. induction l as [|r l IH]; intros prev fuel i x Hok Hmax Hx -> Hf.
  - zsimpl. exists x. destruct fuel; simpl skip_ack_ranges; replace (i <? i + 0) with false by lia;
      reflexivity.
  - destruct (range_vl _ _ _ Hok Hmax) as (Hg & Hl & ? & ? & ? & Hok').
    cbn [length] in Hf. destruct fuel as [|fuel]; [lia|]. pose proof (zlen_nonneg l).
    cbn [skip_ack_ranges ranges_bytes]. zsimpl.
    replace (i <? i + (1 + zlen l)) with true by lia. rewrite <- !app_assoc.
    rewrite (bind_ok _ _ _ _ _ (parses_skip_quic_vlint x Hx _)).
    rewrite (bind_ok _ _ _ _ _ (parses_skip_quic_vlint _ Hg _)).
    apply IH; (done || lia).
Qed.

Definition set_ranges (a : OSSL_QUIC_FRAME_ACK) (l : list OSSL_QUIC_ACK_RANGE)
  : OSSL_QUIC_FRAME_ACK :=
  mkAck l (num_ack_ranges a) (delay_time a) (ect0 a) (ect1 a) (ecnce a) (ecn_present a).

(** The loop stores the ranges after the first one in their places. *)
Lemma parses_decode_ranges prev l fuel i n a :
  ranges_ok (prev :: l) -> ar_end prev <= OSSL_QUIC_VLINT_MAX ->
  0 <= i -> n = i + zlen l -> (length l <= fuel)%nat ->
  n + 1 <= num_ack_ranges a -> num_ack_ranges a <= zlen (ack_ranges a) -> n <= OSSL_QUIC_VLINT_MAX ->
  parses (decode_ack_ranges fuel i n (ar_start prev) (Some a)) (ranges_bytes prev l)
    (Some (set_ranges a (write_at (i + 1) l (ack_ranges a)))).
Proof.
  revert prev fuel i a. induction l as [|r l IH]; intros prev fuel i a Hok Hmax Hi -> Hf Hn Hbuf Hvl.
  - zsimpl. rewrite write_at_nil by lia.
    destruct fuel; simpl; replace (i <? i + 0) with false by lia; destruct a; apply parses_ret.
  - destruct (range_vl _ _ _ Hok Hmax) as (Hg & Hl & ? & ? & ? & Hok').
    cbn [length] in Hf. destruct fuel as [|fuel]; [lia|]. pose proof (zlen_nonneg l).
    cbn [decode_ack_ranges ranges_bytes]. zsimpl.
    replace (i <? i + (1 + zlen l)) with true by lia.
    eapply parses_bind; [by apply parses_vl|]. eapply parses_bind; [by apply parses_vl|].
    rewrite !u64_id by vlia.
    replace (ar_start prev - (ar_start prev - ar_end r - 2) - 2) with (ar_end r) by lia.
    apply parses_guard_bind; [lia|].
    replace (i + 1 <? num_ack_ranges a) with true by lia.
    replace (ar_end r - (ar_end r - ar_start r)) with (ar_start r) by lia.
    assert (parses (set_range a (i + 1) (mkAckRange (ar_start r) (ar_end r))) []
      (set_ranges a (write_at (i + 1) [r] (ack_ranges a)))) as Hset.
    { intros rest. unfold set_range. replace (i + 1 <? zlen (ack_ranges a)) with true by lia.
      by destruct r, a. }
    eapply (parses_bind _ _ [] _ (ar_start r, Some _)).
    { eapply parses_bind_nil; [exact Hset|]. apply parses_ret. }
    specialize (IH r fuel (i + 1) (set_ranges a (write_at (i + 1) [r] (ack_ranges a)))).
    cbn [ack_ranges num_ack_ranges set_ranges] in IH.
    assert (zlen (write_at (i + 1) [r] (ack_ranges a)) = zlen (ack_ranges a)) as Hz.
    { apply zlen_write_at; zsimpl; lia. }
    replace (write_at (i + 1) (r :: l) (ack_ranges a)) with
      (write_at (i + 1 + 1) l (write_at (i + 1) [r] (ack_ranges a))).
    { apply IH; try done; rewrite ?Hz; lia. }
    pose proof (write_at_app (i + 1) [r] l (ack_ranges a)) as Hw. zsimpl.
    replace (i + 1 + (1 + 0)) with (i + 1 + 1) in Hw by lia. apply Hw; lia.
Qed.

Lemma peek_num_ranges e a rest :
  0 <= e < 64 -> frame_ok (F_ACK a) ->
  ossl_quic_wire_peek_frame_ack_num_ranges (ack_bytes e a ++ rest) = Ok (zlen (ack_ranges a)).
Proof.
  intros He (Hne & Hnum & Hvl & Hok & Hmax & Ht & _). rewrite Hnum in Hvl. unfold ack_bytes.
  destruct (ack_ranges a) as [|r0 l]; [done|]. specialize (Hmax r0 eq_refl).
  pose proof (ranges_ok_cons _ _ Hok) as (Hr0 & _ & _). pose proof (zlen_nonneg l). zsimpl.
  unfold ossl_quic_wire_peek_frame_ack_num_ranges. rewrite <- !app_assoc.
  erewrite bind_parses; [|apply parses_header_mask; [apply vl_const|]; case_match; (lia || done)].
  erewrite bind_parses; [|apply parses_skip_quic_vlint; vlia].
  erewrite bind_parses; [|apply parses_skip_quic_vlint; by apply delay_units_vl].
  erewrite bind_parses; [|apply parses_vl; vlia].
  unfold bind at 1, get.
  destruct (skip_ranges_run r0 l (S (length (vl (ar_end r0 - ar_start r0) ++
    ranges_bytes r0 l ++ ecn_bytes a ++ rest))) 0 (zlen l) (ar_end r0 - ar_start r0)
    (ecn_bytes a ++ rest)) as (y & Hy); try done; [vlia| |].
  - pose proof (length_ranges_bytes r0 l Hok Hmax). rewrite !length_app. lia.
  - rewrite (bind_ok _ _ _ _ _ Hy). simpl. rewrite u64_id by vlia. f_equal. lia.
Qed.

(** The decoded delay: no overflow, since the encoder divided first. *)
Lemma decoded_delay e t :
  0 <= e < 64 -> is_u64 t ->
  safe_mul (delay_units e t) (2 ^ e) = (delay_units e t * 2 ^ e, false)
  /\ ossl_time_multiply (ossl_ticks2time OSSL_TIME_US) (delay_units e t * 2 ^ e)
     = delay_units e t * 2 ^ e * 1000.
Proof.
  intros He Ht. destruct (exponent_pow e He) as [? _]. pose proof (delay_units_vl e He t Ht).
  assert (0 <= delay_units e t * 2 ^ e <= t / 1000).
  { unfold delay_units. split; [unfold is_vl, delay_units in *; nia|].
    rewrite Z.mul_comm. apply Z.mul_div_le. lia. }
  assert (t / 1000 * 1000 <= t) by ulia.
  unfold safe_mul, ossl_time_multiply, ossl_ticks2time. change OSSL_TIME_US with 1000.
  replace (delay_units e t * 2 ^ e <? U64_MOD) with true by ulia. split; [done|].
  unfold safe_mul. replace (1000 * (delay_units e t * 2 ^ e) <? U64_MOD) with true by ulia. lia.
Qed.

Lemma write_ranges (r0 : OSSL_QUIC_ACK_RANGE) l x :
  write_at 1 l (write_at 0 [r0] (zrepeat x (1 + zlen l))) = r0 :: l.
Proof.
  pose proof (zlen_nonneg l). pose proof (write_at_app 0 [r0] l (zrepeat x (1 + zlen l))) as Hw.
  rewrite zlen_zrepeat in Hw by lia. zsimpl. change (0 + (1 + 0)) with 1 in Hw.
  rewrite Hw by lia. unfold write_at. rewrite ztake_le_zero by lia. zsimpl.
  rewrite zdrop_ge by (rewrite zlen_zrepeat; lia). by rewrite app_nil_r.
Qed.

(** What the receiver has stored before the remaining ranges are read, and
    after. *)
Definition first_stored (d : Z) (r0 : OSSL_QUIC_ACK_RANGE) (n : Z) : OSSL_QUIC_FRAME_ACK :=
  set_ranges (set_delay_time (empty_ack n) d) (write_at 0 [r0] (zrepeat (mkAckRange 0 0) n)).

Lemma store_first_run e t r0 n p :
  0 <= e < 64 -> is_u64 t -> 0 < n ->
  store_first_range (Some (empty_ack n)) e (delay_units e t) (ar_start r0) (ar_end r0) p
  = (Ok (Some (first_stored (delay_units e t * 2 ^ e * 1000) r0 n)), p).
Proof.
  intros He Ht Hn. destruct (decoded_delay e t He Ht) as [Hm1 Hm2].
  unfold store_first_range. rewrite (bind_ok _ _ _ _ _ (ack_delay_unit_ok e p He)), Hm1, Hm2. cbn [num_ack_ranges set_delay_time empty_ack].
  replace (n >? 0) with true by lia. unfold set_range, bind, ret.
  cbn [ack_ranges set_delay_time empty_ack]. rewrite zlen_zrepeat by lia.
  replace (0 <? n) with true by lia. by destruct r0.
Qed.

Lemma ranges_stored d r0 l :
  let a := first_stored d r0 (1 + zlen l) in
  set_ranges a (write_at 1 l (ack_ranges a)) = mkAck (r0 :: l) (1 + zlen l) d 0 0 0 false.
Proof. unfold first_stored, set_ranges. simpl. by rewrite write_ranges. Qed.

Lemma parses_frame_ack e a r0 l :
  0 <= e < 64 -> frame_ok (F_ACK a) -> ack_ranges a = r0 :: l ->
  parses (ossl_quic_wire_decode_frame_ack e (Some (empty_ack (1 + zlen l)))) (ack_bytes e a)
    (Some (set_delay_time a (delay_units e (delay_time a) * 2 ^ e * 1000)), 1 + zlen l).
Proof.
  intros He (Hne & Hnum & Hvl & Hok & Hmax & Ht & Hecn) Er rest. rewrite Hnum in Hvl.
  unfold ack_bytes. rewrite Er in *. specialize (Hmax r0 eq_refl). pose proof (zlen_nonneg l).
  pose proof (ranges_ok_cons _ _ Hok) as (Hr0 & _ & _). zsimpl.
  pose proof (delay_units_vl e He _ Ht).
  unfold ossl_quic_wire_decode_frame_ack, decode_ack_fields. rewrite <- !app_assoc.
  erewrite bind_parses; [|apply parses_header_mask; [apply vl_const|]; case_match; (lia || done)].
  do 4 (erewrite bind_parses; [|apply parses_vl; (done || vlia)]).
  unfold guard, ret at 1 2, bind at 1 2.
  replace (ar_end r0 - ar_start r0 >? ar_end r0) with false by lia.
  replace (zlen l >? SIZE_MAX) with false by vlia. cbn [negb]. rewrite u64_id by vlia.
  replace (ar_end r0 - (ar_end r0 - ar_start r0)) with (ar_start r0) by lia.
  unfold bind at 1. rewrite store_first_run by (done || lia). unfold bind at 1, get.
  set (fuel := S (length _)). set (a2 := first_stored _ r0 _).
  erewrite bind_parses.
  2: { apply (parses_decode_ranges r0 l fuel 0 (zlen l) a2); try done; try vlia.
       - pose proof (length_ranges_bytes r0 l Hok Hmax). unfold fuel. rewrite !length_app. lia.
       - unfold a2. cbn. lia.
       - unfold a2. cbn [ack_ranges num_ack_ranges set_ranges first_stored set_delay_time empty_ack].
         rewrite zlen_write_at; rewrite ?zlen_zrepeat; zsimpl; lia. }
  change (0 + 1) with 1. unfold a2. rewrite ranges_stored. cbn [num_ack_ranges]. rewrite u64_id by vlia.
  replace (zlen l + 1 <? 1 + zlen l) with false by lia.
  replace (zlen l + 1) with (1 + zlen l) by lia.
  unfold ecn_bytes, set_delay_time. rewrite Er, Hnum.
  destruct (ecn_present a) eqn:Ee.
  - destruct Hecn as (? & ? & ?). change (3 =? OSSL_QUIC_FRAME_TYPE_ACK_WITH_ECN) with true. cbv iota.
    rewrite <- !app_assoc. do 3 (erewrite bind_parses; [|by apply parses_vl]). reflexivity.
  - destruct Hecn as (-> & -> & ->). reflexivity.
Qed.

Lemma parses_in_ack e a rest :
  0 <= e < 64 -> frame_ok (F_ACK a) ->
  parses_in rest (decode_ack e) (ack_bytes e a) (peer_view e (F_ACK a)).
Proof.
  intros He Hf. unfold decode_ack. apply parses_in_get. rewrite peek_num_ranges by done.
  destruct (ack_ranges a) as [|r0 l] eqn:Er; [by destruct Hf|]. zsimpl.
  eapply parses_in_bind_nil; [by apply parses_in_of, (parses_frame_ack e a r0 l)|done].
Qed.

(** *** Choosing the decoder *)

Lemma peek_header_decode p :
  ossl_quic_wire_peek_frame_header p
  = match ossl_quic_vlint_decode p with
    | Ok (n, v) => (Ok (v, n =? ossl_quic_vlint_encode_len v), p)
    | Err => (Err, p)
    | Ub => (Ub, p)
    end.
Proof.
  unfold ossl_quic_wire_peek_frame_header, PACKET_peek_quic_vlint_ex, ossl_quic_vlint_decode,
    vlint_at, ossl_quic_vlint_decode_unchecked, byte_at, bind, get, PACKET_remaining, ret, fail, undef.
  decide_tests; done.
Qed.

Lemma peek_header t rest :
  is_vl t ->
  ossl_quic_wire_peek_frame_header (vl t ++ rest) = (Ok (t, true), vl t ++ rest).
Proof.
  intros Ht.
  rewrite peek_header_decode, decode_encode by done. by rewrite Z.eqb_refl.
Qed.

Lemma decode_frame_type e t bs rest f :
  is_vl t -> parses_in rest (decode_by_type e t) (vl t ++ bs) f ->
  parses_in rest (decode_frame e) (vl t ++ bs) f.
Proof.
  intros Ht Hp. unfold parses_in, decode_frame in *. rewrite <- app_assoc in *.
  rewrite (bind_ok _ _ _ _ _ (peek_header t _ Ht)). exact Hp.
Qed.

(** Nothing else is read as part of a padding frame or of a stream frame without
    a length. *)
Definition ends_before (f : frame) (rest : list Z) : Prop :=
  match f with
  | F_PADDING _ => head rest <> Some 0
  | F_STREAM f => has_explicit_len f = true \/ rest = []
  | _ => True
  end.

Lemma count_zeros_zrepeat n rest :
  0 <= n -> head rest <> Some 0 -> count_zeros (zrepeat 0 n ++ rest) = n.
Proof.
  intros Hn Hr. unfold zrepeat. rewrite <- (Z2Nat.id n) at 2 by done.
  induction (Z.to_nat n) as [|k IH].
  - destruct rest as [|[| |] rest]; done.
  - cbn [zrepeat_nat app count_zeros]. rewrite IH. lia.
Qed.

Lemma parses_in_padding rest n :
  0 <= n -> head rest <> Some 0 ->
  parses_in rest ossl_quic_wire_decode_padding (zrepeat 0 n) n.
Proof.
  intros Hn Hr. unfold ossl_quic_wire_decode_padding. apply parses_in_get.
  unfold PACKET_data. rewrite count_zeros_zrepeat by done.
  eapply parses_in_bind_nil; [|done]. rewrite <- (zlen_zrepeat 0 n Hn) at 1.
  apply parses_in_of, parses_forward.
Qed.

Lemma zrepeat_vl n : 0 < n -> zrepeat 0 n = vl 0 ++ zrepeat 0 (n - 1).
Proof.
  intros Hn. unfold zrepeat. replace (Z.to_nat n) with (S (Z.to_nat (n - 1))) by lia. done.
Qed.

Lemma decode_new_conn_id rest f :
  frame_ok (F_NEW_CONN_ID f) ->
  parses_in rest ossl_quic_wire_decode_frame_new_conn_id (frame_bytes 0 (F_NEW_CONN_ID f)) f.
Proof.
  destruct f as [seq ret_to [n bytes] tok]. cbn [frame_ok frame_bytes seq_num retire_prior_to conn_id
    id_len id stateless_reset]. intros (? & ? & ? & (d & Hd & Hid) & Htok).
  subst n bytes. rewrite ztake_app_exact. unfold QUIC_MAX_CONN_ID_LEN in *.
  unfold ossl_quic_wire_decode_frame_new_conn_id.
  eapply parses_in_bind; [apply parses_header, vl_const; lia|].
  eapply parses_in_bind; [apply parses_vl; vlia|].
  eapply parses_in_bind; [apply parses_vl; vlia|].
  apply parses_in_guard; [lia|].
  eapply parses_in_bind; [apply parses_get_1; lia|].
  apply parses_in_guard; [lia|]. apply parses_in_guard; [unfold QUIC_MAX_CONN_ID_LEN; lia|].
  eapply parses_in_bind; [apply parses_copy_bytes|].
  eapply parses_in_bind_nil; [apply parses_in_of; rewrite <- Htok; apply parses_copy_bytes|].
  unfold ret, QUIC_MAX_CONN_ID_LEN. rewrite u8_id by lia. do 4 f_equal. case_match; [done|].
  replace (20 - zlen d) with 0 by lia. unfold zrepeat. simpl. by rewrite app_nil_r.
Qed.

Lemma decode_conn_close rest f :
  frame_ok (F_CONN_CLOSE f) ->
  parses_in rest ossl_quic_wire_decode_frame_conn_close (frame_bytes 0 (F_CONN_CLOSE f)) f.
Proof.
  destruct f as [app code ft rsn len]. cbn [frame_ok frame_bytes is_app error_code cc_frame_type
    reason reason_len]. intros (? & ? & <- & ?).
  unfold ossl_quic_wire_decode_frame_conn_close. destruct app.
  - eapply parses_in_bind; [apply parses_header_mask; [apply vl_const; lia|done]|].
    eapply parses_in_bind; [apply parses_vl; vlia|]. subst ft.
    eapply (parses_in_bind _ _ _ [] _ 0); [apply parses_ret|].
    eapply parses_in_bind; [apply parses_vl; vlia|]. apply parses_in_guard; [vlia|].
    eapply parses_in_bind_nil; [apply parses_in_of, parses_get_bytes|reflexivity].
  - eapply parses_in_bind; [apply parses_header_mask; [apply vl_const; lia|done]|].
    eapply parses_in_bind; [apply parses_vl; vlia|].
    eapply parses_in_bind; [by apply parses_vl|].
    eapply parses_in_bind; [apply parses_vl; vlia|]. apply parses_in_guard; [vlia|].
    eapply parses_in_bind_nil; [apply parses_in_of, parses_get_bytes|reflexivity].
Qed.

(** A decoder whose result is wrapped by a constructor. *)
Lemma parses_in_wrap {A B} rest (m : M PACKET A) (f : A -> B) bs a :
  parses_in rest m bs a -> parses_in rest (let! x := m in ret (f x)) bs (f a).
Proof. intros Hm. eapply parses_in_bind_nil; [exact Hm|done]. Qed.

(** Choose the decoder: [t] is the type in the header of the frame. *)
Ltac by_type m :=
  apply decode_frame_type; [apply vl_const; lia|];
  lazymatch goal with |- parses_in ?rest _ ?bs ?f => change (parses_in rest m bs f) end.

Lemma decode_frame_bytes e f rest :
  0 <= e < 64 -> frame_ok f -> ends_before f rest ->
  parses_in rest (decode_frame e) (frame_bytes e f) (peer_view e f).
Proof.
  intros He Hok Hend. destruct f; cbn [frame_bytes peer_view ends_before] in *.
  - simpl in Hok. rewrite zrepeat_vl by done.
    by_type (let! n := ossl_quic_wire_decode_padding in ret (F_PADDING n)).
    rewrite <- zrepeat_vl by done. apply parses_in_wrap. apply parses_in_padding; (done || lia).
  - rewrite <- (app_nil_r (vl 1)). by_type (ossl_quic_wire_decode_frame_ping ;;; ret F_PING).
    rewrite app_nil_r. eapply parses_in_bind_nil; [|done].
    apply parses_in_of, parses_header, vl_const. lia.
  - pose proof (parses_in_ack e a rest He Hok) as Hp. unfold ack_bytes in *.
    destruct (ack_ranges a) eqn:Er; [destruct Hok; congruence|].
    destruct (ecn_present a); by_type (decode_ack e); exact Hp.
  - destruct f, Hok as (? & ? & ?).
    by_type (let! f := ossl_quic_wire_decode_frame_reset_stream in ret (F_RESET_STREAM f)).
    apply parses_in_wrap. unfold ossl_quic_wire_decode_frame_reset_stream. parse.
  - destruct f, Hok as (? & ?).
    by_type (let! f := ossl_quic_wire_decode_frame_stop_sending in ret (F_STOP_SENDING f)).
    apply parses_in_wrap. unfold ossl_quic_wire_decode_frame_stop_sending. parse.
  - by_type (let! f := ossl_quic_wire_decode_frame_crypto false in ret (F_CRYPTO f)).
    by apply parses_in_wrap, parses_in_crypto.
  - by_type (let! f := ossl_quic_wire_decode_frame_new_token in ret (F_NEW_TOKEN f)).
    apply parses_in_wrap. unfold ossl_quic_wire_decode_frame_new_token.
    simpl in Hok. parse; [vlia|]. unfold PACKET_data. rewrite ztake_app_exact. parse.
  - pose proof (parses_in_stream rest f Hok Hend) as Hp. unfold stream_bytes in *.
    destruct (s_offset f =? 0), (has_explicit_len f), (is_fin f);
      by_type (let! f := ossl_quic_wire_decode_frame_stream false in ret (F_STREAM f));
      apply parses_in_wrap; exact Hp.
  - by_type (let! v := ossl_quic_wire_decode_frame_max_data in ret (F_MAX_DATA v)).
    apply parses_in_wrap. unfold ossl_quic_wire_decode_frame_max_data. parse.
  - destruct Hok.
    by_type (let! v := ossl_quic_wire_decode_frame_max_stream_data in
             ret (F_MAX_STREAM_DATA (fst v) (snd v))).
    apply (parses_in_wrap rest _ (fun v => F_MAX_STREAM_DATA (fst v) (snd v)) _ (stream_id, max_data)).
    unfold ossl_quic_wire_decode_frame_max_stream_data. parse.
  - destruct is_uni.
    + by_type (let! v := ossl_quic_wire_decode_frame_max_streams in ret (F_MAX_STREAMS true v)).
      apply parses_in_wrap. unfold ossl_quic_wire_decode_frame_max_streams. parse.
    + by_type (let! v := ossl_quic_wire_decode_frame_max_streams in ret (F_MAX_STREAMS false v)).
      apply parses_in_wrap. unfold ossl_quic_wire_decode_frame_max_streams. parse.
  - by_type (let! v := ossl_quic_wire_decode_frame_data_blocked in ret (F_DATA_BLOCKED v)).
    apply parses_in_wrap. unfold ossl_quic_wire_decode_frame_data_blocked. parse.
  - destruct Hok.
    by_type (let! v := ossl_quic_wire_decode_frame_stream_data_blocked in
             ret (F_STREAM_DATA_BLOCKED (fst v) (snd v))).
    apply (parses_in_wrap rest _ (fun v => F_STREAM_DATA_BLOCKED (fst v) (snd v)) _
             (stream_id, max_stream_data)).
    unfold ossl_quic_wire_decode_frame_stream_data_blocked. parse.
  - destruct is_uni.
    + by_type (let! v := ossl_quic_wire_decode_frame_streams_blocked in
               ret (F_STREAMS_BLOCKED true v)).
      apply parses_in_wrap. unfold ossl_quic_wire_decode_frame_streams_blocked. parse.
    + by_type (let! v := ossl_quic_wire_decode_frame_streams_blocked in
               ret (F_STREAMS_BLOCKED false v)).
      apply parses_in_wrap. unfold ossl_quic_wire_decode_frame_streams_blocked. parse.
  - by_type (let! f := ossl_quic_wire_decode_frame_new_conn_id in ret (F_NEW_CONN_ID f)).
    by apply parses_in_wrap, decode_new_conn_id.
  - by_type (let! v := ossl_quic_wire_decode_frame_retire_conn_id in ret (F_RETIRE_CONN_ID v)).
    apply parses_in_wrap. unfold ossl_quic_wire_decode_frame_retire_conn_id. parse.
  - by_type (let! v := ossl_quic_wire_decode_frame_path_challenge in ret (F_PATH_CHALLENGE v)).
    apply parses_in_wrap. unfold ossl_quic_wire_decode_frame_path_challenge. parse.
  - by_type (let! v := ossl_quic_wire_decode_frame_path_response in ret (F_PATH_RESPONSE v)).
    apply parses_in_wrap. unfold ossl_quic_wire_decode_frame_path_response. parse.
  - pose proof (decode_conn_close rest f Hok) as Hp. cbn [frame_bytes] in Hp.
    destruct (is_app f);
      by_type (let! f := ossl_quic_wire_decode_frame_conn_close in ret (F_CONN_CLOSE f));
      apply parses_in_wrap; exact Hp.
  - rewrite <- (app_nil_r (vl 30)).
    by_type (ossl_quic_wire_decode_frame_handshake_done ;;; ret F_HANDSHAKE_DONE).
    rewrite app_nil_r. eapply parses_in_bind_nil; [|done].
    apply parses_in_of, parses_header, vl_const. lia.
Qed.

(** ** Payloads: sequences of frames *)

Fixpoint encode_frames (e : Z) (fs : list frame) : M WS unit :=
  match fs with
  | [] => ret tt
  | f :: fs' => encode_frame e f ;;; encode_frames e fs'
  end.

(** [while (PACKET_remaining(pkt) > 0)]: every frame takes at least a byte, so the
    length of the payload is enough fuel; running out of it would be [Ub]. *)
Fixpoint decode_frames (fuel : nat) (e : Z) : M PACKET (list frame) :=
  let! pkt := get in
  if PACKET_remaining pkt >? 0 then
    match fuel with
    | O => undef
    | S fuel' =>
        let! f := decode_frame e in
        let! fs := decode_frames fuel' e in
        ret (f :: fs)
    end
  else ret [].

Definition payload_bytes (e : Z) (fs : list frame) : list Z := concat (frame_bytes e <$> fs).

(** A padding frame takes all the zero bytes, a stream frame without a length
    takes the rest of the payload. *)
Fixpoint payload_ok (fs : list frame) : Prop :=
  match fs with
  | [] => True
  | f :: fs' =>
      frame_ok f
      /\ match f, fs' with
         | F_PADDING _, F_PADDING _ :: _ => False
         | F_STREAM s, _ => has_explicit_len s = true \/ fs' = []
         | _, _ => True
         end
      /\ payload_ok fs'
  end.

Lemma vl_byte t : 0 <= t <= 63 -> vl t = [t].
Proof.
  intros Ht. unfold ossl_quic_vlint_encode, ossl_quic_vlint_encode_len,
    OSSL_QUIC_VLINT_2B_MIN. replace (t <? 64) with true by lia.
  unfold ossl_quic_vlint_encode_n. simpl. by rewrite u8_id by lia.
Qed.

(** A frame starts with its type, which is zero for padding only. *)
Lemma frame_bytes_head e f :
  frame_ok f -> exists t bs, frame_bytes e f = t :: bs /\ (t = 0 -> exists n, f = F_PADDING n).
Proof.
  intros Hok. destruct f; cbn [frame_bytes]; try (by (eexists _, _; split; [reflexivity|done])).
  - simpl in Hok. rewrite zrepeat_vl by done. rewrite vl_byte by lia. eexists _, _. eauto.
  - unfold ack_bytes. destruct Hok as [Hne _]. destruct (ack_ranges a); [done|].
    destruct (ecn_present a); by (eexists _, _; split; [reflexivity|]).
  - unfold stream_bytes. destruct (s_offset f =? 0), (has_explicit_len f), (is_fin f);
      by (eexists _, _; split; [reflexivity|]).
  - destruct is_uni; by (eexists _, _; split; [reflexivity|]).
  - destruct is_uni; by (eexists _, _; split; [reflexivity|]).
  - destruct (is_app f); by (eexists _, _; split; [reflexivity|]).
Qed.

Lemma ends_before_payload e f fs :
  payload_ok (f :: fs) -> ends_before f (payload_bytes e fs).
Proof.
  intros (Hok & Hn & Hfs). destruct f; simpl; try done.
  - destruct fs as [|g fs]; [done|]. destruct Hfs as (Hg & _).
    destruct (frame_bytes_head e g Hg) as (t & bs & Hb & Ht).
    unfold payload_bytes. simpl. rewrite Hb. simpl. intros [= ->].
    destruct (Ht eq_refl) as [n' ->]. done.
  - destruct Hn as [?|Hnil]; [by left|right]. by rewrite Hnil.
Qed.

Lemma emits_frames e fs :
  0 <= e < 64 -> payload_ok fs -> emits (encode_frames e fs) false (payload_bytes e fs).
Proof.
  intros He. induction fs as [|f fs IH]; intros Hok; [apply emits_ret|].
  destruct Hok as (Hf & _ & Hfs). apply emits_app; [by apply emits_frame|]. intros _. by apply IH.
Qed.

Lemma decode_frames_bytes e fs fuel :
  0 <= e < 64 -> payload_ok fs -> (length (payload_bytes e fs) <= fuel)%nat ->
  decode_frames fuel e (payload_bytes e fs) = (Ok (peer_view e <$> fs), []).
Proof.
  intros He. revert fuel. induction fs as [|f fs IH]; intros fuel Hok Hf.
  - destruct fuel; reflexivity.
  - pose proof (ends_before_payload e f fs Hok) as Hend. destruct Hok as (Hfok & _ & Hfs).
    destruct (frame_bytes_head e f Hfok) as (t & bs & Hb & _).
    assert (payload_bytes e (f :: fs) = frame_bytes e f ++ payload_bytes e fs) as Hp by done.
    assert (0 < zlen (frame_bytes e f ++ payload_bytes e fs)) as Hpos.
    { rewrite Hb. zsimpl. pose proof (zlen_nonneg bs).
      pose proof (zlen_nonneg (payload_bytes e fs)). lia. }
    rewrite Hp, length_app in *. rewrite Hb in Hf. cbn [length] in Hf.
    destruct fuel as [|fuel]; [lia|].
    cbn [decode_frames]. unfold bind at 1, get, PACKET_remaining.
    replace (zlen (frame_bytes e f ++ payload_bytes e fs) >? 0) with true by lia.
    pose proof (decode_frame_bytes e f (payload_bytes e fs) He Hfok Hend) as Hd.
    rewrite (bind_ok _ _ _ _ _ Hd). rewrite (bind_ok _ _ _ _ _ (IH fuel Hfs ltac:(lia))). done.
Qed.

(** ** Lemmas: decoding arbitrary bytes *)

(** A reader that moves forward whenever it succeeds. *)
Definition consumes {A} (m : M PACKET A) : Prop :=
  forall p a p', m p = (Ok a, p') -> (length p' < length p)%nat.

Lemma reader_shorter {A} (m : M PACKET A) p r p' :
  Reader m -> m p = (r, p') -> (length p' <= length p)%nat.
Proof. intros Hm E. apply Hm in E as [_ [pre ->]]. rewrite length_app. lia. Qed.

Lemma consumes_bind {A B} (m : M PACKET A) (k : A -> M PACKET B) :
  consumes m -> (forall a, Reader (k a)) -> consumes (bind m k).
Proof.
  intros Hm Hk p b p' E. apply bind_ok_inv in E as (a & p1 & E1 & E2).
  apply Hm in E1. pose proof (reader_shorter _ _ _ _ (Hk a) E2). lia.
Qed.

Create HintDb consumes.

Lemma consumes_vlint : consumes PACKET_get_quic_vlint.
Proof. intros p v p'. apply get_vlint_consumes. Qed.

Lemma consumes_header t : consumes (expect_frame_header t).
Proof. apply consumes_bind; [apply consumes_vlint|]. intros a. apply _. Qed.

Lemma consumes_header_mask t m : consumes (expect_frame_header_mask t m).
Proof. apply consumes_bind; [apply consumes_vlint|]. intros a. apply _. Qed.

Lemma empty_ack_ok n : 0 <= n -> ack_buffer_ok (Some (empty_ack n)).
Proof. intros Hn. simpl. rewrite zlen_zrepeat; lia. Qed.

Lemma peek_num_nonneg p n :
  ossl_quic_wire_peek_frame_ack_num_ranges p = Ok n -> 0 <= n.
Proof.
  unfold ossl_quic_wire_peek_frame_ack_num_ranges.
  match goal with |- fst (?m p) = _ -> _ => destruct (m p) as [r p'] eqn:E end.
  intros Hr. simpl in Hr. subst r.
  do 4 (apply bind_ok_inv in E as (? & ? & _ & E)). unfold bind at 1, get in E.
  apply bind_ok_inv in E as (? & ? & _ & E). unfold ret in E. injection E as <- <-. ulia.
Qed.

(** The decoders shift by the exponent of the transport parameters, which is below
    the width of a 64-bit integer. *)
Section Exponent.
Context (e : Z) (He : 0 <= e < 64).

#[local] Instance reader_decode_ack : Reader (decode_ack e).
Proof.
  apply reader_get_at. intros p. destruct (ossl_quic_wire_peek_frame_ack_num_ranges p) eqn:E.
  - apply peek_num_nonneg in E. apply reads_at_reader. apply reader_bind.
    + by apply reader_frame_ack, empty_ack_ok.
    + intros [[a'|] t]; apply _.
  - apply reads_at_reader. apply _.
  - by apply peek_ack_num_ranges_ok in E.
Qed.

Lemma consumes_decode_ack : consumes (decode_ack e).
Proof.
  intros p f p'. unfold decode_ack, bind at 1, get.
  destruct (ossl_quic_wire_peek_frame_ack_num_ranges p) eqn:E; try done.
  apply peek_num_nonneg, empty_ack_ok in E.
  match goal with |- ?m p = _ -> _ => assert (consumes m) as Hc; [|exact (Hc p f p')] end.
  apply consumes_bind; [|intros [[?|] ?]; apply _].
  apply consumes_bind; [apply consumes_header_mask|]. intros t. by apply reader_ack_fields.
Qed.

#[local] Hint Resolve consumes_header consumes_header_mask consumes_decode_ack : consumes.

Lemma count_zeros_le p : 0 <= count_zeros p <= zlen p.
Proof.
  induction p as [|b p IH]; [by zsimpl|]. zsimpl. pose proof (zlen_nonneg p).
  destruct b; simpl; lia.
Qed.

(** The type 0 in its shortest form is a zero byte. *)
Lemma padding_first_byte p q :
  Forall is_u8 p -> ossl_quic_wire_peek_frame_header p = (Ok (0, true), q) ->
  exists p', p = 0 :: p'.
Proof.
  intros Hp. rewrite peek_header_decode.
  destruct (ossl_quic_vlint_decode p) as [[n v]| |] eqn:E; try done.
  intros [= -> Hn <-]. apply Z.eqb_eq in Hn as ->.
  destruct (decode_inv _ _ _ Hp E) as (pre & lim & _ & _ & _ & ->). by eexists.
Qed.

Lemma padding_consumes p n p' :
  ossl_quic_wire_decode_padding (0 :: p) = (Ok n, p') -> (length p' <= length p)%nat.
Proof.
  unfold ossl_quic_wire_decode_padding, PACKET_forward, packet_forward, bind, get, put, ret,
    PACKET_data, PACKET_remaining, fail. cbn [count_zeros]. pose proof (count_zeros_le p).
  decide_tests; [done|]. intros [= <- <-]. cbn [zdrop].
  replace (1 + count_zeros p <=? 0) with false by lia. rewrite zdrop_drop, length_drop. lia.
Qed.

#[local] Instance reader_decode_by_type t : Reader (decode_by_type e t).
Proof. unfold decode_by_type. apply _. Qed.

#[local] Instance reader_decode_frame : Reader (decode_frame e).
Proof.
  unfold decode_frame. apply reader_bind; [apply reader_peek_quic_vlint_ex|].
  intros [t b]. apply _.
Qed.

Lemma consumes_by_type t : t <> 0 -> consumes (decode_by_type e t).
Proof.
  intros Ht. unfold decode_by_type.
  change OSSL_QUIC_FRAME_TYPE_PADDING with 0. replace (t =? 0) with false by lia.
  unfold ossl_quic_wire_decode_frame_ping, ossl_quic_wire_decode_frame_reset_stream,
    ossl_quic_wire_decode_frame_stop_sending, ossl_quic_wire_decode_frame_crypto,
    ossl_quic_wire_decode_frame_new_token, ossl_quic_wire_decode_frame_stream,
    ossl_quic_wire_decode_frame_max_data, ossl_quic_wire_decode_frame_max_stream_data,
    ossl_quic_wire_decode_frame_max_streams, ossl_quic_wire_decode_frame_data_blocked,
    ossl_quic_wire_decode_frame_stream_data_blocked,
    ossl_quic_wire_decode_frame_streams_blocked, ossl_quic_wire_decode_frame_new_conn_id,
    ossl_quic_wire_decode_frame_retire_conn_id, ossl_quic_wire_decode_frame_path_challenge,
    ossl_quic_wire_decode_frame_path_response, ossl_quic_wire_decode_frame_conn_close,
    ossl_quic_wire_decode_frame_handshake_done.
  repeat lazymatch goal with
  | |- consumes (if ?b then _ else _) => destruct b
  | |- consumes (bind _ _) => apply consumes_bind; [|intros ?; apply _]
  | |- consumes fail => intros p a p' [=]
  | |- consumes _ => solve [auto with consumes]
  end.
Qed.

Lemma decode_frame_consumes p f p' :
  Forall is_u8 p -> decode_frame e p = (Ok f, p') -> (length p' < length p)%nat.
Proof.
  intros Hp E. unfold decode_frame in E. apply bind_ok_inv in E as ([t b] & p1 & E1 & E2).
  assert (p1 = p) as ->.
  { rewrite peek_header_decode in E1. repeat case_match; congruence. }
  unfold bind, guard, ret, fail in E2. destruct b; [|done].
  destruct (decide (t = 0)) as [->|Ht]; [|by apply (consumes_by_type t Ht) in E2].
  destruct (padding_first_byte _ _ Hp E1) as [q ->].
  change (decode_by_type e 0) with
    (let! n := ossl_quic_wire_decode_padding in ret (F_PADDING n)) in E2.
  apply bind_ok_inv in E2 as (n & p2 & E2 & E3). apply padding_consumes in E2.
  unfold ret in E3. simplify_eq. simpl. lia.
Qed.

Lemma reads_decode_frames fuel p :
  Forall is_u8 p -> (length p <= fuel)%nat -> reads_at (decode_frames fuel e) p.
Proof.
  revert p. induction fuel as [|fuel IH]; intros p Hp Hf.
  - destruct p; [|simpl in Hf; lia]. intros r p' [= <- <-]. split; [done|by exists []].
  - intros r p'. cbn [decode_frames]. unfold bind at 1, get. revert r p'.
    destruct (PACKET_remaining p >? 0); [|apply reads_at_reader; apply _].
    refine (reads_at_bind _ _ p _ _); [apply reads_at_reader; apply _|]. intros f p1 E1.
    pose proof (decode_frame_consumes _ _ _ Hp E1).
    assert (Forall is_u8 p1) as Hp1.
    { apply reader_decode_frame in E1 as [_ [pre ->]]. by apply Forall_app in Hp as [_ ?]. }
    apply reads_at_bind; [apply IH; [done|lia]|].
    intros fs p2 _. apply reads_at_reader. apply _.
Qed.

End Exponent.

(** ** Lemmas: what an accepted ACK frame contains *)

(** Ranges below [start], each at least two below the one before. *)
Fixpoint descending (start : Z) (l : list OSSL_QUIC_ACK_RANGE) : Prop :=
  match l with
  | [] => True
  | r :: l' => 0 <= ar_start r <= ar_end r /\ ar_end r + 2 <= start /\ descending (ar_start r) l'
  end.

Lemma descending_ranges_ok r l :
  0 <= ar_start r <= ar_end r -> descending (ar_start r) l -> ranges_ok (r :: l).
Proof.
  revert r. induction l as [|r' l IH]; intros r Hr Hd; simpl; [done|].
  destruct Hd as (? & ? & ?). split; [done|]. split; [done|]. by apply IH.
Qed.

(** Reading an integer from bytes. *)
Lemma get_vlint_ok p v p' :
  Forall is_u8 p -> PACKET_get_quic_vlint p = (Ok v, p') -> is_vl v /\ Forall is_u8 p'.
Proof.
  intros Hp. rewrite get_quic_vlint_decode.
  destruct (ossl_quic_vlint_decode p) as [[n w]| |] eqn:E; try done. intros [= -> <-].
  destruct (decode_inv _ _ _ Hp E) as (x & lim & Hc & Hv & _ & _). split.
  - destruct Hc; vlia.
  - rewrite zdrop_drop. by apply Forall_drop.
Qed.

Lemma decode_ranges_valid fuel i n start a p a' p' :
  Forall is_u8 p -> 0 <= i <= n -> 0 <= start <= OSSL_QUIC_VLINT_MAX ->
  n + 1 <= num_ack_ranges a -> num_ack_ranges a <= zlen (ack_ranges a) ->
  n <= OSSL_QUIC_VLINT_MAX ->
  decode_ack_ranges fuel i n start (Some a) p = (Ok a', p') ->
  exists l, zlen l = n - i /\ descending start l
    /\ a' = Some (set_ranges a (write_at (i + 1) l (ack_ranges a))).
Proof.
  revert i start a p. induction fuel as [|fuel IH]; intros i start a p Hp Hi Hst Hn Hbuf Hvl;
    cbn [decode_ack_ranges].
  { case_match; [done|]. intros [= <- <-]. exists []. zsimpl. split; [lia|]. split; [done|].
    rewrite write_at_nil by lia. by destruct a. }
  case_match eqn:Ei.
  2: { intros [= <- <-]. exists []. zsimpl. split; [lia|]. split; [done|].
       rewrite write_at_nil by lia. by destruct a. }
  intros E. apply bind_ok_inv in E as (gap & p1 & E1 & E).
  destruct (get_vlint_ok _ _ _ Hp E1) as [Hgap Hp1].
  apply bind_ok_inv in E as (len & p2 & E2 & E).
  destruct (get_vlint_ok _ _ _ Hp1 E2) as [Hlen Hp2].
  apply bind_ok_inv in E as ([] & p3 & E3 & E). apply guard_ok in E3 as [Hg ->].
  apply negb_true_iff, orb_false_elim in Hg as [Hg1 Hg2].
  rewrite (u64_id (gap + 2)) in Hg1 by vlia. rewrite (u64_id (start - gap - 2)) in Hg2, E by vlia.
  rewrite (u64_id (i + 1)) in E by vlia.
  replace (i + 1 <? num_ack_ranges a) with true in E by lia.
  rewrite (u64_id (start - gap - 2 - len)) in E by vlia.
  set (r := mkAckRange (start - gap - 2 - len) (start - gap - 2)) in *.
  unfold set_range in E. replace (i + 1 <? zlen (ack_ranges a)) with true in E by lia.
  fold (set_ranges a (write_at (i + 1) [r] (ack_ranges a))) in E.
  unfold bind at 1 2, ret at 1 2 in E.
  assert (zlen (write_at (i + 1) [r] (ack_ranges a)) = zlen (ack_ranges a)) as Hz.
  { apply zlen_write_at; zsimpl; lia. }
  apply IH in E as (l & Hl & Hd & ->);
    cbn [num_ack_ranges ack_ranges set_ranges]; try done; try vlia.
  exists (r :: l). zsimpl. split; [lia|]. split.
  - subst r. simpl in *. split; [vlia|]. split; [vlia|done].
  - cbn [set_ranges ack_ranges num_ack_ranges delay_time ect0 ect1 ecnce ecn_present].
    do 2 f_equal. pose proof (write_at_app (i + 1) [r] l (ack_ranges a)) as Hw. zsimpl.
    change (1 + 0) with 1 in Hw. apply Hw; lia.
Qed.

Lemma ztake_write_ranges (r0 : OSSL_QUIC_ACK_RANGE) l arr :
  1 + zlen l <= zlen arr ->
  ztake (1 + zlen l) (write_at 1 l (write_at 0 [r0] arr)) = r0 :: l.
Proof.
  intros Hl. pose proof (zlen_nonneg l). pose proof (write_at_app 0 [r0] l arr) as Hw.
  zsimpl. change (0 + (1 + 0)) with 1 in Hw. rewrite Hw by lia.
  pose proof (ztake_write_at 0 ([r0] ++ l) arr) as Ht. zsimpl.
  replace (0 + (1 + 0 + zlen l)) with (1 + zlen l) in Ht by lia. rewrite Ht by lia.
  by rewrite ztake_le_zero by lia.
Qed.

(** The header fields of an accepted frame, and what is left to read. *)
Lemma ack_fields_inv e ack t p x p' :
  Forall is_u8 p -> decode_ack_fields e ack t p = (Ok x, p') ->
  exists largest raw count first q ack1 ack2 q',
    is_vl largest /\ is_vl count /\ 0 <= first <= largest /\ Forall is_u8 q
    /\ store_first_range ack e raw (largest - first) largest q = (Ok ack1, q)
    /\ decode_ack_ranges (S (length q)) 0 count (largest - first) ack1 q = (Ok ack2, q')
    /\ snd x = count + 1
    /\ forall a, fst x = Some a -> exists a2, ack2 = Some a2 /\ ack_ranges a = ack_ranges a2
         /\ num_ack_ranges a = Z.min (count + 1) (num_ack_ranges a2).
Proof.
  intros Hp E. unfold decode_ack_fields in E.
  apply bind_ok_inv in E as (largest & p1 & E1 & E).
  destruct (get_vlint_ok _ _ _ Hp E1) as [Hla Hp1].
  apply bind_ok_inv in E as (raw & p2 & E2 & E).
  destruct (get_vlint_ok _ _ _ Hp1 E2) as [_ Hp2].
  apply bind_ok_inv in E as (count & p3 & E3 & E).
  destruct (get_vlint_ok _ _ _ Hp2 E3) as [Hco Hp3].
  apply bind_ok_inv in E as (first & p4 & E4 & E).
  destruct (get_vlint_ok _ _ _ Hp3 E4) as [Hfi Hp4].
  apply bind_ok_inv in E as ([] & p5 & E5 & E). apply guard_ok in E5 as [Hg ->].
  apply bind_ok_inv in E as ([] & p6 & E6 & E). apply guard_ok in E6 as [_ ->].
  rewrite (u64_id (count + 1)), (u64_id (largest - first)) in * by vlia.
  apply bind_ok_inv in E as (ack1 & p7 & E7 & E).
  assert (p7 = p4) as ->.
  { unfold store_first_range, ack_delay_unit, set_range, bind, ret, undef in E7. by repeat case_match; simplify_eq. }
  unfold bind at 1, get in E. apply bind_ok_inv in E as (ack2 & p8 & E8 & E).
  exists largest, raw, count, first, p4, ack1, ack2, p8.
  do 2 (split; [done|]). split; [vlia|]. do 3 (split; [done|]).
  set (ack3 := match ack2 with Some a => _ | None => None end) in E.
  assert (exists f, x = (f <$> ack3, count + 1)
    /\ forall a, ack_ranges (f a) = ack_ranges a /\ num_ack_ranges (f a) = num_ack_ranges a)
    as (f & -> & Hf).
  { destruct (t =? OSSL_QUIC_FRAME_TYPE_ACK_WITH_ECN).
    - do 3 (apply bind_ok_inv in E as (? & ? & _ & E)). injection E as <- <-.
      by exists (fun a => set_ecn a x0 x2 x4).
    - injection E as <- <-. by exists clear_ecn_present. }
  split; [done|]. intros a Ha. simpl in Ha. subst ack3.
  destruct ack2 as [a2|]; [|done]. simpl in Ha. injection Ha as <-.
  exists a2. split; [done|]. destruct (Hf (if count + 1 <? num_ack_ranges a2
    then set_num_ack_ranges a2 (count + 1) else a2)) as [-> ->].
  destruct (Z.ltb_spec (count + 1) (num_ack_ranges a2));
    cbn [ack_ranges num_ack_ranges set_num_ack_ranges]; (split; [done|lia]).
Qed.

Lemma store_first_ranges a0 e raw start largest q ack1 :
  0 < num_ack_ranges a0 <= zlen (ack_ranges a0) ->
  store_first_range (Some a0) e raw start largest q = (Ok ack1, q) ->
  exists a1, ack1 = Some a1 /\ num_ack_ranges a1 = num_ack_ranges a0
    /\ ack_ranges a1 = write_at 0 [mkAckRange start largest] (ack_ranges a0).
Proof.
  intros Hn. unfold store_first_range, ack_delay_unit, set_range, bind, ret, undef.
  destruct (_ && _); [|done]. destruct (safe_mul raw _) as [x err]. cbn [num_ack_ranges set_delay_time ack_ranges].
  replace (num_ack_ranges a0 >? 0) with true by lia.
  replace (0 <? zlen (ack_ranges a0)) with true by lia. intros [= <-]. by eexists.
Qed.

Lemma decode_ack_valid e a0 p a total p' :
  Forall is_u8 p -> 0 <= num_ack_ranges a0 <= zlen (ack_ranges a0) ->
  ossl_quic_wire_decode_frame_ack e (Some a0) p = (Ok (Some a, total), p') ->
  total <= num_ack_ranges a0 ->
  num_ack_ranges a = total /\ 1 <= total
  /\ ranges_ok (ztake total (ack_ranges a))
  /\ exists r, head (ztake total (ack_ranges a)) = Some r /\ ar_end r <= OSSL_QUIC_VLINT_MAX.
Proof.
  intros Hp Hbuf E Htot. apply bind_ok_inv in E as (t & p0 & E0 & E).
  assert (Forall is_u8 p0) as Hp0.
  { apply reader_expect_mask in E0 as [_ [pre ->]]. by apply Forall_app in Hp as [_ ?]. }
  destruct (ack_fields_inv _ _ _ _ _ _ Hp0 E)
    as (largest & raw & count & first & q & ack1 & ack2 & q' & Hla & Hco & Hfi & Hq & Es & El & Et & Ha).
  simpl in Et, Ha. subst total. destruct (Ha a eq_refl) as (a2 & -> & Hr & Hn).
  destruct (store_first_ranges a0 e raw (largest - first) largest q ack1)
    as (a1 & -> & Hn1 & Hr1); [vlia|done|].
  assert (zlen (ack_ranges a1) = zlen (ack_ranges a0)) as Hz1.
  { rewrite Hr1. apply zlen_write_at; zsimpl; vlia. }
  destruct (decode_ranges_valid (S (length q)) 0 count (largest - first) a1 q (Some a2) q')
    as (l & Hl & Hd & [= ->]); try done; try vlia.
  cbn [ack_ranges num_ack_ranges set_ranges] in Hr, Hn. rewrite Hr, Hr1. change (0 + 1) with 1.
  replace (count + 1) with (1 + zlen l) by lia. rewrite ztake_write_ranges by lia.
  split; [vlia|]. split; [vlia|]. split.
  - apply descending_ranges_ok; simpl; [lia|done].
  - eexists. split; [done|]. simpl. apply Hla.
Qed.

(** ** Lemmas: transport parameters *)

Definition tparam_bytes (pid : Z) (v : list Z) : list Z := vl pid ++ vl (zlen v) ++ v.

Lemma emits_tparam_bytes pid v :
  is_vl pid -> is_vl (zlen v) -> 0 < zlen v ->
  emits (ossl_quic_wire_encode_transport_param_bytes pid (Some v) (zlen v)) false
    (tparam_bytes pid v).
Proof.
  intros Hp Hv Hpos. unfold ossl_quic_wire_encode_transport_param_bytes, tparam_bytes.
  replace (zlen v =? 0) with false by lia. emit. by apply emits_data.
Qed.

Lemma parses_tparam_bytes pid v :
  is_vl pid -> is_vl (zlen v) ->
  parses ossl_quic_wire_decode_transport_param_bytes (tparam_bytes pid v) (pid, v).
Proof.
  intros Hp Hv. unfold ossl_quic_wire_decode_transport_param_bytes, tparam_bytes.
  eapply parses_bind; [by apply parses_vl|]. eapply parses_bind; [by apply parses_vl|].
  apply parses_guard_bind; [vlia|]. eapply parses_bind_nil; [apply parses_get_bytes|].
  apply parses_ret.
Qed.

Lemma encode_len_vl v : is_vl v -> is_vl (ossl_quic_vlint_encode_len v).
Proof. intros Hv. apply vl_const. pose proof (encode_len_bounds v Hv). lia. Qed.

Lemma emits_tparam_int pid v :
  is_vl pid -> is_vl v ->
  emits (ossl_quic_wire_encode_transport_param_int pid v) false (tparam_bytes pid (vl v)).
Proof.
  intros Hp Hv. unfold ossl_quic_wire_encode_transport_param_int, tparam_bytes.
  rewrite zlen_encode by done. pose proof (encode_len_vl v Hv). emit.
Qed.

Lemma on_sub_packet_run {A} (m : M PACKET A) body a rest p :
  m body = (Ok a, rest) -> zlen body <= SIZE_MAX / 2 ->
  on_sub_packet body m p = (Ok (a, rest), p).
Proof.
  intros Hm Hl. unfold on_sub_packet, PACKET_buf_init.
  replace (zlen body >? SIZE_MAX / 2) with false by lia. rewrite Z.ltb_irrefl, ztake_ge by lia.
  unfold local_run. by rewrite Hm.
Qed.

Lemma parses_tparam_int pid v :
  is_vl pid -> is_vl v ->
  parses ossl_quic_wire_decode_transport_param_int (tparam_bytes pid (vl v)) (pid, v).
Proof.
  intros Hp Hv rest. pose proof (encode_len_vl v Hv). pose proof (encode_len_bounds v Hv).
  unfold ossl_quic_wire_decode_transport_param_int.
  erewrite bind_parses; [|apply parses_tparam_bytes; [done|by rewrite zlen_encode]].
  cbv beta iota. unfold bind at 1.
  rewrite (on_sub_packet_run _ (vl v) v []).
  - reflexivity.
  - rewrite <- (app_nil_r (vl v)). by apply parses_vl.
  - rewrite zlen_encode by done. change (SIZE_MAX / 2) with 9223372036854775807. lia.
Qed.

(** The pointer returned for a value that is not empty is not NULL. *)
Lemma tparam_bytes_pointer w pid v len :
  wf w -> WPACKET_is_null_buf w = false -> 0 <= pid -> 0 < len <= zlen v -> is_u64 len ->
  hoare w (ossl_quic_wire_encode_transport_param_bytes pid (Some v) len)
    (fun b _ => is_Some b).
Proof.
  intros Hwf Hn Hp Hl Hu. unfold ossl_quic_wire_encode_transport_param_bytes.
  eapply hoare_bind; [by apply (safe_quic_vlint pid Hp w Hwf)|]. cbv beta. intros _ w1 [Hwf1 Hk1].
  eapply hoare_bind; [apply (safe_quic_vlint len ltac:(lia) w1 Hwf1); intros _;
    by rewrite (kind_null _ _ Hk1)|]. cbv beta. intros _ w2 [Hwf2 Hk2].
  replace (len =? 0) with false by lia.
  eapply hoare_bind; [by apply (hoare_allocate w2 len Hwf2)|]. cbv beta. intros b w3 Ha.
  destruct b as [q|].
  - cbn [copy_data]. destruct Ha as (_ & _ & _ & _ & _ & (d & Hd & ? & ? & _)).
    eapply hoare_bind; [by apply (hoare_store w3 d _ _ (fun _ _ => True)); rewrite ?zlen_ztake by lia|].
    intros _ w4 _. apply hoare_ret. by eexists.
  - destruct Ha as (_ & _ & _ & _ & _ & Hnull).
    rewrite (kind_null _ _ Hk2), (kind_null _ _ Hk1), Hn in Hnull. done.
Qed.

Lemma emits_tparam_cid pid d pad :
  is_vl pid -> 1 <= zlen d <= QUIC_MAX_CONN_ID_LEN ->
  emits (ossl_quic_wire_encode_transport_param_cid pid (mkConnId (zlen d) (d ++ pad))) false
    (tparam_bytes pid d).
Proof.
  intros Hp Hd. pose proof (zlen_nonneg pad).
  unfold ossl_quic_wire_encode_transport_param_cid. cbn [id_len id].
  apply emits_guard; [lia|]. intros w Hr He Hcap. pose proof Hr as (Hwf & Hn & _).
  unfold QUIC_MAX_CONN_ID_LEN in *. eapply total_bind.
  - apply total_and.
    + assert (ossl_quic_wire_encode_transport_param_bytes pid (Some (d ++ pad)) (zlen d)
        = ossl_quic_wire_encode_transport_param_bytes pid (Some d) (zlen d)) as ->.
      { unfold ossl_quic_wire_encode_transport_param_bytes, copy_data.
        by rewrite ztake_app_exact, (ztake_ge _ d) by lia. }
      by apply emits_tparam_bytes; try done; vlia.
    + apply tparam_bytes_pointer; try done; [vlia|rewrite zlen_app; lia|ulia].
  - cbv beta. intros b w' [Happ [q ->]]. by apply total_ret.
Qed.

Lemma parses_tparam_cid cid pid d :
  is_vl pid -> zlen d <= QUIC_MAX_CONN_ID_LEN -> zlen d <= zlen (id cid) ->
  parses (ossl_quic_wire_decode_transport_param_cid cid) (tparam_bytes pid d)
    (pid, mkConnId (zlen d) (write_at 0 d (id cid))).
Proof.
  intros Hp Hd Hid. pose proof (zlen_nonneg d). unfold QUIC_MAX_CONN_ID_LEN in *.
  eapply parses_bind_nil; [apply parses_tparam_bytes; [done|vlia]|]. cbv beta iota.
  apply parses_guard_bind; [unfold QUIC_MAX_CONN_ID_LEN; lia|]. rewrite u8_id by lia.
  apply parses_ret.
Qed.

(** ** Lemmas: header lengths and bounds *)

Definition crypto_hdr_bytes (f : OSSL_QUIC_FRAME_CRYPTO) : list Z :=
  vl 6 ++ vl (c_offset f) ++ vl (c_len f).

Definition stream_hdr_bytes (f : OSSL_QUIC_FRAME_STREAM) : list Z :=
  vl (8 + (if s_offset f =? 0 then 0 else 4) + (if has_explicit_len f then 2 else 0)
      + (if is_fin f then 1 else 0)) ++
  vl (s_stream_id f) ++
  (if s_offset f =? 0 then [] else vl (s_offset f)) ++
  (if has_explicit_len f then vl (s_len f) else []).

Lemma zlen_vl v : is_vl v -> zlen (vl v) = ossl_quic_vlint_encode_len v.
Proof. apply zlen_encode. Qed.

Lemma crypto_hdr_len f :
  is_vl (c_offset f) -> is_vl (c_len f) ->
  emits (ossl_quic_wire_encode_frame_crypto_hdr f) false (crypto_hdr_bytes f)
  /\ ossl_quic_wire_get_encoded_frame_len_crypto_hdr f = zlen (crypto_hdr_bytes f).
Proof.
  intros Ho Hl. unfold crypto_hdr_bytes. split.
  - unfold ossl_quic_wire_encode_frame_crypto_hdr. emit.
  - pose proof (encode_len_bounds _ Ho). pose proof (encode_len_bounds _ Hl).
    unfold ossl_quic_wire_get_encoded_frame_len_crypto_hdr.
    rewrite !zlen_app, !zlen_vl by (done || by apply vl_const).
    change (ossl_quic_vlint_encode_len OSSL_QUIC_FRAME_TYPE_CRYPTO) with 1.
    change (ossl_quic_vlint_encode_len 6) with 1.
    replace (1 =? 0) with false by lia.
    replace (ossl_quic_vlint_encode_len (c_offset f) =? 0) with false by lia.
    replace (ossl_quic_vlint_encode_len (c_len f) =? 0) with false by lia. simpl. lia.
Qed.

Lemma stream_hdr_len f :
  is_vl (s_stream_id f) -> is_vl (s_offset f) -> is_vl (s_len f) ->
  emits (ossl_quic_wire_encode_frame_stream_hdr f) false (stream_hdr_bytes f)
  /\ ossl_quic_wire_get_encoded_frame_len_stream_hdr f = zlen (stream_hdr_bytes f).
Proof.
  intros Hs Ho Hl. unfold stream_hdr_bytes. split.
  - unfold ossl_quic_wire_encode_frame_stream_hdr. rewrite stream_type_value. emit.
    + apply emits_hdr, vl_const. repeat case_match; lia.
    + destruct (s_offset f =? 0); simpl; auto with emits.
    + destruct (has_explicit_len f); auto with emits.
  - pose proof (encode_len_bounds _ Hs). pose proof (encode_len_bounds _ Ho).
    pose proof (encode_len_bounds _ Hl). unfold is_vl in Ho.
    unfold ossl_quic_wire_get_encoded_frame_len_stream_hdr. rewrite !zlen_app.
    rewrite (zlen_vl (s_stream_id f)), vl_byte by (done || (repeat case_match; lia)).
    change (ossl_quic_vlint_encode_len OSSL_QUIC_FRAME_TYPE_STREAM) with 1. zsimpl.
    replace (1 =? 0) with false by lia.
    replace (ossl_quic_vlint_encode_len (s_stream_id f) =? 0) with false by lia. cbn [orb].
    destruct (Z.eqb_spec (s_offset f) 0) as [E|E].
    + replace (s_offset f >? 0) with false by lia. cbn [andb].
      destruct (has_explicit_len f); rewrite ?zlen_vl by done; zsimpl; cbn [andb]; [|lia].
      replace (ossl_quic_vlint_encode_len (s_len f) =? 0) with false by lia. lia.
    + replace (s_offset f >? 0) with true by lia. cbn [andb].
      replace (ossl_quic_vlint_encode_len (s_offset f) =? 0) with false by lia.
      rewrite (zlen_vl (s_offset f)) by done.
      destruct (has_explicit_len f); rewrite ?zlen_vl by done; zsimpl; cbn [andb]; [|lia].
      replace (ossl_quic_vlint_encode_len (s_len f) =? 0) with false by lia. lia.
Qed.

(** Reading the data part: [PACKET_forward] checks the length. *)
Lemma forward_ok len p p' :
  0 <= len -> PACKET_forward len p = (Ok tt, p') ->
  len <= zlen p /\ p = ztake len p ++ p' /\ zlen (ztake len p) = len.
Proof.
  intros Hl. unfold PACKET_forward, packet_forward, bind, get, put, PACKET_remaining, fail.
  decide_tests; [done|]. intros [= <-].
  rewrite ztake_zdrop, zlen_ztake by lia. split_and!; done || lia.
Qed.

Lemma decode_stream_bounds p f p' :
  Forall is_u8 p -> zlen p <= OSSL_QUIC_VLINT_MAX ->
  ossl_quic_wire_decode_frame_stream false p = (Ok f, p') ->
  0 <= s_offset f /\ 0 <= s_len f /\ s_offset f + s_len f <= OSSL_QUIC_VLINT_MAX
  /\ (exists d, s_data f = Some d /\ zlen d = s_len f)
  /\ (has_explicit_len f = false -> p' = []).
Proof.
  intros Hp Hlen E. apply bind_ok_inv in E as (t & p1 & E1 & E).
  assert (Forall is_u8 p1 /\ zlen p1 <= zlen p) as [Hp1 Hl1].
  { apply reader_expect_mask in E1 as [_ [pre ->]]. rewrite zlen_app.
    pose proof (zlen_nonneg pre). apply Forall_app in Hp as [_ ?]. split; [done|lia]. }
  apply bind_ok_inv in E as (sid & p2 & E2 & E).
  destruct (get_vlint_ok _ _ _ Hp1 E2) as [_ Hp2]. apply get_vlint_consumes in E2.
  apply bind_ok_inv in E as (off & p3 & E3 & E).
  assert (is_vl off /\ Forall is_u8 p3 /\ (length p3 <= length p2)%nat) as (Ho & Hp3 & Hl3).
  { destruct (has_flag t OSSL_QUIC_FRAME_FLAG_STREAM_OFF).
    - destruct (get_vlint_ok _ _ _ Hp2 E3). apply get_vlint_consumes in E3.
      split_and!; (done || lia).
    - injection E3 as <- <-. split; [by apply vl_const|done]. }
  apply bind_ok_inv in E as (len & p4 & E4 & E).
  set (el := has_flag t OSSL_QUIC_FRAME_FLAG_STREAM_LEN) in *.
  assert (is_vl len /\ (el = false -> len = zlen p4)) as (Hl & Hel).
  { destruct el.
    - destruct (get_vlint_ok _ _ _ Hp3 E4). done.
    - unfold bind, get, ret, PACKET_remaining in E4. injection E4 as <- <-.
      rewrite !zlen_length in *. split; [vlia|done]. }
  apply bind_ok_inv in E as ([] & p5 & E5 & E). apply guard_ok in E5 as [Hg ->].
  rewrite u64_id in Hg by vlia. change QUIC_MAX_OFFSET with OSSL_QUIC_VLINT_MAX in Hg.
  unfold bind at 1, get in E.
  apply bind_ok_inv in E as ([] & p6 & E6 & E). apply guard_ok in E6 as [_ ->].
  apply bind_ok_inv in E as ([] & p7 & E7 & E). injection E as <- <-.
  cbn [s_offset s_len s_data has_explicit_len].
  destruct (forward_ok _ _ _ (proj1 Hl) E7) as (Hle & Heq & Hz).
  split; [apply Ho|]. split; [apply Hl|]. split; [vlia|]. split; [by eexists|].
  intros He. specialize (Hel He). rewrite Hel, ztake_ge in Heq by lia.
  apply (f_equal length) in Heq. rewrite length_app in Heq.
  destruct p7; [done|simpl in Heq; lia].
Qed.

(** ** Theorems *)

(** C20: (frames round-trip) A payload of valid frames of all twenty kinds is
    written by the encoders as exactly the bytes of the wire format, and decoding
    these bytes frame by frame, each by the decoder that its type selects, gives
    the same frames in the same order and leaves nothing; only the delay of an ACK
    frame is rounded to the unit that the exponent [e] prescribes. *)
Theorem quic_payload_roundtrip e fs :
  0 <= e < 64 -> payload_ok fs ->
  emits (encode_frames e fs) false (payload_bytes e fs)
  /\ decode_frames (length (payload_bytes e fs)) e (payload_bytes e fs)
     = (Ok (peer_view e <$> fs), []).
Proof.
  intros He Hok. split; [by apply emits_frames|]. by apply decode_frames_bytes.
Qed.

Definition example_ack : OSSL_QUIC_FRAME_ACK :=
  mkAck [mkAckRange 95 100; mkAckRange 90 92; mkAckRange 0 70] 3 123456789 0 0 0 false.

Definition example_payload : list frame :=
  [F_PING; F_PADDING 3; F_ACK example_ack;
   F_NEW_CONN_ID (mkNewConnId 7 2 (mkConnId 4 ([1; 2; 3; 4] ++ zrepeat 0 16)) (zrepeat 9 16));
   F_CRYPTO (mkCrypto 70 2 (Some [5; 6]));
   F_STREAM (mkStream 4 1000 3 (Some [7; 8; 9]) false true)].

Lemma quic_payload_roundtrip_witness :
  emits (encode_frames 3 example_payload) false (payload_bytes 3 example_payload)
  /\ decode_frames (length (payload_bytes 3 example_payload)) 3 (payload_bytes 3 example_payload)
     = (Ok (peer_view 3 <$> example_payload), []).
Proof.
  apply (quic_payload_roundtrip 3 example_payload); [lia|].
  cbn [payload_ok example_payload frame_ok example_ack ack_ranges ranges_ok ecn_present].
  unfold is_vl, is_u64. split_and!;
    lazymatch goal with
    | |- exists _, _ =>
        first [ exists [1; 2; 3; 4]; split; vm_compute; reflexivity
              | exists [5; 6]; split; vm_compute; reflexivity
              | exists [7; 8; 9]; split; vm_compute; reflexivity ]
    | |- _ \/ _ => right; reflexivity
    | |- forall r, _ => intros ? [= <-]; vm_compute; congruence
    | |- _ => vm_compute; (exact I || congruence)
    end.
Defined.

(** C36: (decoding is safe and terminates) On any bytes, decoding a payload frame
    by frame ends: it succeeds or reports an error after reading a prefix of the
    bytes. Nothing outside the packet is read, whichever frame the bytes break off
    in, nothing is stored outside the array for acknowledged ranges, and the fuel
    that the length of the packet gives does not run out. *)
Theorem quic_decode_safe e p :
  0 <= e < 64 -> Forall is_u8 p ->
  let '(r, p') := decode_frames (length p) e p in
  r <> Ub /\ exists pre, p = pre ++ p'.
Proof.
  intros He Hp. destruct (decode_frames (length p) e p) as [r p'] eqn:E.
  by apply (reads_decode_frames e He (length p) p Hp).
Qed.

Lemma quic_decode_safe_witness :
  let '(r, p') := decode_frames (length [1; 0; 6; 64; 5]) 3 [1; 0; 6; 64; 5] in
  r <> Ub /\ exists pre, [1; 0; 6; 64; 5] = pre ++ p'.
Proof.
  apply (quic_decode_safe 3 [1; 0; 6; 64; 5]); [done|].
  repeat constructor; vm_compute; congruence.
Defined.

(** (accepted ACK frames are well-formed) If [ossl_quic_wire_decode_frame_ack]
    accepts a frame into an array that is large enough, the array then holds the
    announced number of ranges, at least one, in descending order, each with
    start <= end and at least one packet number between neighbours, and no packet
    number exceeds 2^62 - 1: no subtraction in the decoder has wrapped. *)
Theorem quic_ack_decode_valid e a0 p a total p' :
  Forall is_u8 p -> 0 <= num_ack_ranges a0 <= zlen (ack_ranges a0) ->
  ossl_quic_wire_decode_frame_ack e (Some a0) p = (Ok (Some a, total), p') ->
  total <= num_ack_ranges a0 ->
  num_ack_ranges a = total /\ 1 <= total
  /\ ranges_ok (ztake total (ack_ranges a))
  /\ exists r, head (ztake total (ack_ranges a)) = Some r /\ ar_end r <= OSSL_QUIC_VLINT_MAX.
Proof. apply decode_ack_valid. Qed.

Lemma quic_ack_decode_valid_witness :
  let a := mkAck [mkAckRange 9 10; mkAckRange 4 5; mkAckRange 0 0] 2 16000 0 0 0 false in
  ossl_quic_wire_decode_frame_ack 3 (Some (empty_ack 3)) [2; 10; 2; 1; 1; 2; 1]
    = (Ok (Some a, 2), []) /\ ranges_ok (ztake 2 (ack_ranges a)).
Proof.
  split; [reflexivity|].
  apply (quic_ack_decode_valid 3 (empty_ack 3) [2; 10; 2; 1; 1; 2; 1]
    (mkAck [mkAckRange 9 10; mkAckRange 4 5; mkAckRange 0 0] 2 16000 0 0 0 false) 2 []).
  - repeat constructor; vm_compute; congruence.
  - split; vm_compute; congruence.
  - reflexivity.
  - vm_compute. congruence.
Defined.

(** (what the peer learns from an ACK frame) Decoding an encoded ACK frame,
    whatever follows it, gives the same ranges, hence the same set of
    acknowledged packet numbers, and a delay that is at most the real one and
    less than one unit of 2^e microseconds below it. *)
Theorem quic_ack_peer_view e a rest :
  0 <= e < 64 -> frame_ok (F_ACK a) ->
  exists a', decode_ack e (ack_bytes e a ++ rest) = (Ok (F_ACK a'), rest)
    /\ ack_ranges a' = ack_ranges a
    /\ (forall pn, ossl_quic_frame_ack_contains_pn a' pn = ossl_quic_frame_ack_contains_pn a pn)
    /\ delay_time a' <= delay_time a < delay_time a' + 2 ^ e * 1000.
Proof.
  intros He Hok. eexists. split; [by apply parses_in_ack|]. split; [done|]. split; [done|].
  cbn [delay_time set_delay_time]. destruct Hok as (_ & _ & _ & _ & _ & Ht & _).
  destruct (exponent_pow e He) as [? _]. unfold delay_units.
  pose proof (Z.div_mod (delay_time a) 1000 ltac:(lia)).
  pose proof (Z.mod_pos_bound (delay_time a) 1000 ltac:(lia)).
  pose proof (Z.div_mod (delay_time a / 1000) (2 ^ e) ltac:(lia)).
  pose proof (Z.mod_pos_bound (delay_time a / 1000) (2 ^ e) ltac:(lia)). nia.
Qed.

Lemma quic_ack_peer_view_witness :
  exists a', decode_ack 3 (ack_bytes 3 example_ack ++ [1]) = (Ok (F_ACK a'), [1])
    /\ ack_ranges a' = ack_ranges example_ack
    /\ (forall pn, ossl_quic_frame_ack_contains_pn a' pn
                   = ossl_quic_frame_ack_contains_pn example_ack pn)
    /\ delay_time a' <= delay_time example_ack < delay_time a' + 2 ^ 3 * 1000.
Proof.
  apply (quic_ack_peer_view 3 example_ack [1]); [lia|].
  cbn [frame_ok example_ack ack_ranges ranges_ok ecn_present]. unfold is_vl, is_u64. split_and!;
    lazymatch goal with
    | |- forall r, head _ = _ -> _ => intros ? [= <-]; vm_compute; congruence
    | |- _ => vm_compute; (exact I || congruence)
    end.
Defined.

(** (ACK decoding into a short array) The check of a range against the one
    before it relies on the previous range having been stored. With room for one
    range the decoder accepts, with room for all ranges it rejects, one and the
    same frame, in which the third range would have to lie below packet number 0. *)
Theorem quic_ack_short_array_diverges :
  exists p a total,
    ossl_quic_wire_decode_frame_ack 3 (Some (empty_ack 1)) p = (Ok (Some a, total), [])
    /\ ossl_quic_wire_decode_frame_ack 3 None p = (Ok (None, total), [])
    /\ fst (ossl_quic_wire_decode_frame_ack 3 (Some (empty_ack total)) p) = Err.
Proof.
  exists [2; 20; 0; 2; 0; 8; 9; 8; 2], (mkAck [mkAckRange 20 20] 1 0 0 0 0 false), 3.
  split_and!; vm_compute; reflexivity.
Qed.

(** (header lengths) The functions that predict the size of STREAM and CRYPTO
    frame headers return exactly the number of bytes that the header encoders
    write. *)
Theorem quic_header_len_exact f g :
  is_vl (s_stream_id f) -> is_vl (s_offset f) -> is_vl (s_len f) ->
  is_vl (c_offset g) -> is_vl (c_len g) ->
  (emits (ossl_quic_wire_encode_frame_stream_hdr f) false (stream_hdr_bytes f)
   /\ ossl_quic_wire_get_encoded_frame_len_stream_hdr f = zlen (stream_hdr_bytes f))
  /\ (emits (ossl_quic_wire_encode_frame_crypto_hdr g) false (crypto_hdr_bytes g)
      /\ ossl_quic_wire_get_encoded_frame_len_crypto_hdr g = zlen (crypto_hdr_bytes g)).
Proof. intros ? ? ? ? ?. split; [apply stream_hdr_len|apply crypto_hdr_len]; assumption. Qed.

Lemma quic_header_len_exact_witness :
  let f := mkStream 4 1000 3 None true true in
  let g := mkCrypto 70000 2 None in
  (emits (ossl_quic_wire_encode_frame_stream_hdr f) false (stream_hdr_bytes f)
   /\ ossl_quic_wire_get_encoded_frame_len_stream_hdr f = zlen (stream_hdr_bytes f))
  /\ (emits (ossl_quic_wire_encode_frame_crypto_hdr g) false (crypto_hdr_bytes g)
      /\ ossl_quic_wire_get_encoded_frame_len_crypto_hdr g = zlen (crypto_hdr_bytes g)).
Proof.
  apply (quic_header_len_exact (mkStream 4 1000 3 None true true) (mkCrypto 70000 2 None));
    split; vm_compute; congruence.
Defined.

(** (bounds of a decoded STREAM frame) In an accepted STREAM frame the final
    offset does not exceed 2^62 - 1 (the 64-bit addition in the check cannot
    wrap), the data has the announced length, and a frame without a length takes
    all that remains of the packet. *)
Theorem quic_stream_decode_bounds p f p' :
  Forall is_u8 p -> zlen p <= OSSL_QUIC_VLINT_MAX ->
  ossl_quic_wire_decode_frame_stream false p = (Ok f, p') ->
  0 <= s_offset f /\ 0 <= s_len f /\ s_offset f + s_len f <= OSSL_QUIC_VLINT_MAX
  /\ (exists d, s_data f = Some d /\ zlen d = s_len f)
  /\ (has_explicit_len f = false -> p' = []).
Proof. apply decode_stream_bounds. Qed.

Lemma quic_stream_decode_bounds_witness :
  let f := mkStream 4 5 2 (Some [8; 9]) true false in
  0 <= s_offset f /\ 0 <= s_len f /\ s_offset f + s_len f <= OSSL_QUIC_VLINT_MAX
  /\ (exists d, s_data f = Some d /\ zlen d = s_len f)
  /\ (has_explicit_len f = false -> [1] = []).
Proof.
  apply (quic_stream_decode_bounds [14; 4; 5; 2; 8; 9; 1]
           (mkStream 4 5 2 (Some [8; 9]) true false) [1]).
  - repeat constructor; vm_compute; congruence.
  - vm_compute. congruence.
  - reflexivity.
Defined.

(** (transport parameters round-trip) A byte-string, an integer and a
    connection-identifier parameter are written as identifier, length and value,
    and each decoder recovers the identifier and the value whatever follows. *)
Theorem quic_transport_param_roundtrip pid v n d pad cid :
  is_vl pid -> is_vl (zlen v) -> 0 < zlen v -> is_vl n ->
  1 <= zlen d <= QUIC_MAX_CONN_ID_LEN -> zlen (id cid) = QUIC_MAX_CONN_ID_LEN ->
  (emits (ossl_quic_wire_encode_transport_param_bytes pid (Some v) (zlen v)) false
     (tparam_bytes pid v)
   /\ parses ossl_quic_wire_decode_transport_param_bytes (tparam_bytes pid v) (pid, v))
  /\ (emits (ossl_quic_wire_encode_transport_param_int pid n) false (tparam_bytes pid (vl n))
      /\ parses ossl_quic_wire_decode_transport_param_int (tparam_bytes pid (vl n)) (pid, n))
  /\ (emits (ossl_quic_wire_encode_transport_param_cid pid (mkConnId (zlen d) (d ++ pad))) false
        (tparam_bytes pid d)
      /\ parses (ossl_quic_wire_decode_transport_param_cid cid) (tparam_bytes pid d)
           (pid, mkConnId (zlen d) (write_at 0 d (id cid)))).
Proof.
  intros Hp Hv Hpos Hn Hd Hcid.
  split; [split; [by apply emits_tparam_bytes|by apply parses_tparam_bytes]|].
  split; [split; [by apply emits_tparam_int|by apply parses_tparam_int]|].
  split; [by apply emits_tparam_cid|apply parses_tparam_cid; (done || lia)].
Qed.

Lemma quic_transport_param_roundtrip_witness :
  parses ossl_quic_wire_decode_transport_param_int (tparam_bytes 4 (vl 65536)) (4, 65536).
Proof.
  apply (quic_transport_param_roundtrip 4 [1] 65536 [1; 2] [] (mkConnId 0 (zrepeat 0 20)));
    try (split; vm_compute; congruence); vm_compute; congruence.
Defined.
