(* ===== verification/PktHdr.v ===== *)
(** QUIC packet headers and packet numbers: ssl/quic/quic_wire_pkt.c with the
    types of include/internal/quic_wire_pkt.h.

    The decoder is a PACKET reader that also keeps the cause of a failure, the
    encoder a WPACKET writer. A pointer into the packet being decoded is the
    offset from its first byte, a pointer into the packet being encoded an offset
    into the WPACKET's buffer; [None] is NULL. Header protection and the Retry
    integrity tag, which need a cipher, are in HdrProt. *)

From stdpp Require Import base list numbers option.
From Stdlib Require Import ZArith Lia .
From S2P Require Import Prelude Vlint Packet WPacket Wire Frames.

#[local] Open Scope cfun_scope.

(** ** Definitions: packet types *)

Definition QUIC_VERSION_1 : Z := 1.

Definition QUIC_PKT_TYPE_INITIAL : Z := 1.
Definition QUIC_PKT_TYPE_0RTT : Z := 2.
Definition QUIC_PKT_TYPE_HANDSHAKE : Z := 3.
Definition QUIC_PKT_TYPE_RETRY : Z := 4.
Definition QUIC_PKT_TYPE_1RTT : Z := 5.
Definition QUIC_PKT_TYPE_VERSION_NEG : Z := 6.

Definition QUIC_MIN_VALID_PKT_LEN_CRYPTO : Z := 21.
Definition QUIC_MIN_VALID_PKT_LEN_VERSION_NEG : Z := 7.
Definition QUIC_MIN_VALID_PKT_LEN : Z := QUIC_MIN_VALID_PKT_LEN_VERSION_NEG.

Definition QUIC_PKT_HDR_DECODE_DECODE_ERR : Z := 1.
Definition QUIC_PKT_HDR_DECODE_BAD_VERSION : Z := 2.

Definition ossl_quic_pkt_type_is_encrypted (pkt_type : Z) : bool :=
  if (pkt_type =? QUIC_PKT_TYPE_RETRY) || (pkt_type =? QUIC_PKT_TYPE_VERSION_NEG)
  then false else true.

Definition ossl_quic_pkt_type_has_pn (pkt_type : Z) : bool :=
  ossl_quic_pkt_type_is_encrypted pkt_type.

Definition ossl_quic_pkt_type_can_share_dgram (pkt_type : Z) : bool :=
  ossl_quic_pkt_type_is_encrypted pkt_type.

Definition ossl_quic_pkt_type_must_be_last (pkt_type : Z) : bool :=
  negb (ossl_quic_pkt_type_can_share_dgram pkt_type) || (pkt_type =? QUIC_PKT_TYPE_1RTT).

(** ** Definitions: structures *)

(** [h_pn] is the whole array of four bytes. [h_token] and [h_data] are what the
    pointers point at: the token itself, and the packet's bytes from the payload
    to the end of the datagram, of which [h_len] are the payload. *)
Record QUIC_PKT_HDR := mkPktHdr {
  h_type : Z;
  h_spin_bit : Z;
  h_key_phase : Z;
  h_pn_len : Z;
  h_partial : bool;
  h_fixed : bool;
  h_unused : Z;
  h_reserved : Z;
  h_version : Z;
  h_dst_conn_id : QUIC_CONN_ID;
  h_src_conn_id : QUIC_CONN_ID;
  h_pn : list Z;
  h_token : option (list Z);
  h_token_len : Z;
  h_len : Z;
  h_data : option (list Z)
}.

Record QUIC_PKT_HDR_PTRS := mkPtrs {
  raw_start : option Z;
  raw_sample : option Z;
  raw_sample_len : Z;
  raw_pn : option Z
}.

(** ** Definitions: decoding *)

(** The state of the decoder: the packet and [*fail_cause]. *)
Definition DS : Type := PACKET * Z.

Definition rd {A} (m : M PACKET A) : M DS A := zoom fst (fun p s => (p, snd s)) m.

Definition set_fail_cause (c : Z) : M DS unit := modify (fun s => (fst s, c)).

(** [sizeof(hdr->pn)]. *)
Definition SIZEOF_PN : Z := 4.

(** [memset(hdr->pn, 0, sizeof(hdr->pn))], then the packet number: skipped when
    its length is still protected, copied otherwise. *)
Definition decode_pn_field (partial : bool) (pn_len : Z) : M PACKET (list Z) :=
  if partial then PACKET_forward SIZEOF_PN ;;; ret (zrepeat 0 SIZEOF_PN)
  else let! bs := PACKET_copy_bytes pn_len in ret (write_at 0 bs (zrepeat 0 SIZEOF_PN)).

(** The header and the pointer [pn]. [l] is the length of the packet. *)
Definition decode_short_hdr (short_conn_id_len : Z) (partial : bool) (hdr : QUIC_PKT_HDR)
    (l b0 : Z) : M PACKET (QUIC_PKT_HDR * option Z) :=
  guard (negb (short_conn_id_len >? QUIC_MAX_CONN_ID_LEN)) ;;;
  guard (negb ((Z.land b0 0x40 =? 0) || (l <? QUIC_MIN_VALID_PKT_LEN_CRYPTO))) ;;;
  let spin_bit := if negb (Z.land b0 0x20 =? 0) then 1 else 0 in
  let key_phase := if partial then 0 else if negb (Z.land b0 0x04 =? 0) then 1 else 0 in
  let pn_len := if partial then 0 else Z.land b0 0x03 + 1 in
  let reserved := if partial then 0 else Z.shiftr (Z.land b0 0x18) 3 in
  let! dcid := PACKET_copy_bytes short_conn_id_len in
  let! pkt := get in
  let pn := l - PACKET_remaining pkt in
  let! pn_bytes := decode_pn_field partial pn_len in
  let! pkt := get in
  let len := PACKET_remaining pkt in
  let data := PACKET_data pkt in
  PACKET_forward len ;;;
  ret (mkPktHdr QUIC_PKT_TYPE_1RTT spin_bit key_phase pn_len partial true 0 reserved 0
         (mkConnId (u8 short_conn_id_len) (write_at 0 dcid (id (h_dst_conn_id hdr))))
         (mkConnId 0 (id (h_src_conn_id hdr)))
         pn_bytes None 0 len (Some data), Some pn).

Definition decode_version_neg (b0 version : Z) (dst src : QUIC_CONN_ID)
  : M PACKET (QUIC_PKT_HDR * option Z) :=
  let! pkt := get in
  let data := PACKET_data pkt in
  let len := PACKET_remaining pkt in
  guard (len mod 4 =? 0) ;;;
  PACKET_forward len ;;;
  ret (mkPktHdr QUIC_PKT_TYPE_VERSION_NEG 0 0 0 false (negb (Z.land b0 0x40 =? 0)) 0 0
         version dst src (zrepeat 0 SIZEOF_PN) None 0 len (Some data), None).

(** [switch (raw_type)]; [raw_type] has two bits. *)
Definition long_pkt_type (raw_type : Z) : Z :=
  if raw_type =? 0 then QUIC_PKT_TYPE_INITIAL
  else if raw_type =? 1 then QUIC_PKT_TYPE_0RTT
  else if raw_type =? 2 then QUIC_PKT_TYPE_HANDSHAKE
  else QUIC_PKT_TYPE_RETRY.

(** The token of an Initial packet, and its length. *)
Definition decode_token (type : Z) : M PACKET (option (list Z) * Z) :=
  if type =? QUIC_PKT_TYPE_INITIAL then
    let! token_len := PACKET_get_quic_vlint in
    guard (negb (token_len >? SIZE_MAX)) ;;;
    let! token := PACKET_get_bytes token_len in
    ret (if token_len =? 0 then None else Some token, token_len)
  else ret (None, 0).

Definition decode_retry (b0 version : Z) (dst src : QUIC_CONN_ID)
  : M PACKET (QUIC_PKT_HDR * option Z) :=
  let! pkt := get in
  let data := PACKET_data pkt in
  let len := PACKET_remaining pkt in
  PACKET_forward len ;;;
  ret (mkPktHdr QUIC_PKT_TYPE_RETRY 0 0 0 false true (Z.land b0 0x0f) 0 version dst src
         (zrepeat 0 SIZEOF_PN) None 0 len (Some data), None).

(** What follows the token of an Initial, 0-RTT or Handshake packet. *)
Definition decode_numbered (partial nodata : bool) (l b0 type version : Z)
    (dst src : QUIC_CONN_ID) (token : option (list Z)) (token_len : Z)
  : M PACKET (QUIC_PKT_HDR * option Z) :=
  let pn_len := if partial then 0 else Z.land b0 0x03 + 1 in
  let reserved := if partial then 0 else Z.shiftr (Z.land b0 0x0C) 2 in
  let! len := PACKET_get_quic_vlint in
  guard (negb (len <? SIZEOF_PN)) ;;;
  let! pkt := get in
  guard (negb (negb nodata && (len >? PACKET_remaining pkt))) ;;;
  let pn := l - PACKET_remaining pkt in
  let! pn_bytes := decode_pn_field partial pn_len in
  let hlen := if partial then len - SIZEOF_PN else len - pn_len in
  let! data := (if nodata then ret None
                else let! pkt := get in
                     let data := PACKET_data pkt in
                     PACKET_forward hlen ;;; ret (Some data)) in
  ret (mkPktHdr type 0 0 pn_len partial true 0 reserved version dst src pn_bytes
         token token_len hlen data, Some pn).

Definition decode_long_v1 (partial nodata : bool) (l b0 version : Z)
    (dst src : QUIC_CONN_ID) : M PACKET (QUIC_PKT_HDR * option Z) :=
  guard (negb (l <? QUIC_MIN_VALID_PKT_LEN_CRYPTO)) ;;;
  let type := long_pkt_type (Z.land (Z.shiftr b0 4) 0x3) in
  let! '(token, token_len) := decode_token type in
  if type =? QUIC_PKT_TYPE_RETRY then decode_retry b0 version dst src
  else decode_numbered partial nodata l b0 type version dst src token token_len.

(** A connection id with its length byte. *)
Definition decode_conn_id (old : QUIC_CONN_ID) : M PACKET QUIC_CONN_ID :=
  let! n := PACKET_get_1 in
  guard (negb (n >? QUIC_MAX_CONN_ID_LEN)) ;;;
  let! bs := PACKET_copy_bytes n in
  ret (mkConnId (u8 n) (write_at 0 bs (id old))).

Definition decode_long_hdr (partial nodata : bool) (hdr : QUIC_PKT_HDR) (l b0 : Z)
  : M DS (QUIC_PKT_HDR * option Z) :=
  let! version := rd PACKET_get_net_4 in
  guard (negb (negb (version =? 0) && (Z.land b0 0x40 =? 0))) ;;;
  let! dst := rd (decode_conn_id (h_dst_conn_id hdr)) in
  let! src := rd (decode_conn_id (h_src_conn_id hdr)) in
  let version := u32 version in
  if version =? 0 then rd (decode_version_neg b0 version dst src)
  else if negb (version =? QUIC_VERSION_1) then
    let! s := get in
    set_fail_cause (Z.lor (snd s) QUIC_PKT_HDR_DECODE_BAD_VERSION) ;;; fail
  else rd (decode_long_v1 partial nodata l b0 version dst src).

(** [hdr] is the structure to fill in: bytes of its arrays that the packet does
    not set keep their value. *)
Definition ossl_quic_wire_decode_pkt_hdr (short_conn_id_len : Z) (partial nodata : bool)
    (hdr : QUIC_PKT_HDR) : M DS (QUIC_PKT_HDR * QUIC_PKT_HDR_PTRS) :=
  let! s := get in
  let l := PACKET_remaining (fst s) in
  set_fail_cause QUIC_PKT_HDR_DECODE_DECODE_ERR ;;;
  guard (negb (l <? QUIC_MIN_VALID_PKT_LEN)) ;;;
  let! b0 := rd PACKET_get_1 in
  let! '(hdr, pn) :=
    (if Z.land b0 0x80 =? 0 then rd (decode_short_hdr short_conn_id_len partial hdr l b0)
     else decode_long_hdr partial nodata hdr l b0) in
  let ptrs := match pn with
              | None => mkPtrs (Some 0) None 0 None
              | Some p => mkPtrs (Some 0) (Some (p + 4)) (u64 (l - (p + 4))) (Some p)
              end in
  let! s := get in
  set_fail_cause (mask_out (snd s) QUIC_PKT_HDR_DECODE_DECODE_ERR) ;;;
  ret (hdr, ptrs).

(** ** Definitions: encoding *)

(** [WPACKET_memcpy(pkt, ptr, len)] from a pointer that may be NULL. *)
Definition memcpy_ptr (src : option (list Z)) (len : Z) : M WS unit :=
  match src with
  | Some bs => WPACKET_memcpy bs len
  | None => if len =? 0 then ret tt else undef
  end.

Definition total_written : M WS Z :=
  let! s := get in ret (WPACKET_get_total_written (fst s)).

(** [off_pn]. *)
Definition encode_short_hdr (short_conn_id_len : Z) (hdr : QUIC_PKT_HDR) : M WS Z :=
  guard (negb (negb (id_len (h_dst_conn_id hdr) =? short_conn_id_len)
               || (short_conn_id_len >? QUIC_MAX_CONN_ID_LEN)
               || (h_pn_len hdr <? 1) || (h_pn_len hdr >? 4))) ;;;
  let b0 := u8 (Z.lor (Z.lor (Z.lor (Z.lor (Z.shiftl (h_spin_bit hdr) 5)
                                            (Z.shiftl (h_key_phase hdr) 2))
                                     (h_pn_len hdr - 1))
                              (Z.shiftl (h_reserved hdr) 3))
                       0x40) in
  WPACKET_put_bytes__ b0 1 ;;;
  WPACKET_memcpy (id (h_dst_conn_id hdr)) short_conn_id_len ;;;
  let! off_pn := total_written in
  WPACKET_memcpy (h_pn hdr) (h_pn_len hdr) ;;;
  ret off_pn.

(** [switch (hdr->type)]; [None] for the types it refuses. *)
Definition raw_pkt_type (hdr : QUIC_PKT_HDR) : option Z :=
  let type := h_type hdr in
  if type =? QUIC_PKT_TYPE_VERSION_NEG then
    if negb (h_version hdr =? 0) then None else Some 0
  else if type =? QUIC_PKT_TYPE_INITIAL then Some 0
  else if type =? QUIC_PKT_TYPE_0RTT then Some 1
  else if type =? QUIC_PKT_TYPE_HANDSHAKE then Some 2
  else if type =? QUIC_PKT_TYPE_RETRY then Some 3
  else None.

Definition long_b0 (hdr : QUIC_PKT_HDR) (raw_type : Z) : Z :=
  let b0 := u8 (Z.lor (Z.shiftl raw_type 4) 0x80) in
  let b0 := if negb (h_type hdr =? QUIC_PKT_TYPE_VERSION_NEG) || h_fixed hdr
            then Z.lor b0 0x40 else b0 in
  let b0 := if ossl_quic_pkt_type_has_pn (h_type hdr)
            then u8 (Z.lor (u8 (Z.lor b0 (h_pn_len hdr - 1))) (Z.shiftl (h_reserved hdr) 2))
            else b0 in
  if h_type hdr =? QUIC_PKT_TYPE_RETRY then u8 (Z.lor b0 (h_unused hdr)) else b0.

(** [off_pn], or [None] where the C function returns 1 at once. *)
Definition encode_long_hdr (hdr : QUIC_PKT_HDR) : M WS (option Z) :=
  guard (negb ((id_len (h_dst_conn_id hdr) >? QUIC_MAX_CONN_ID_LEN)
               || (id_len (h_src_conn_id hdr) >? QUIC_MAX_CONN_ID_LEN))) ;;;
  guard (negb (ossl_quic_pkt_type_has_pn (h_type hdr)
               && ((h_pn_len hdr <? 1) || (h_pn_len hdr >? 4)))) ;;;
  match raw_pkt_type hdr with
  | None => fail
  | Some raw_type =>
      WPACKET_put_bytes__ (long_b0 hdr raw_type) 1 ;;;
      WPACKET_put_bytes__ (h_version hdr) 4 ;;;
      WPACKET_put_bytes__ (id_len (h_dst_conn_id hdr)) 1 ;;;
      WPACKET_memcpy (id (h_dst_conn_id hdr)) (id_len (h_dst_conn_id hdr)) ;;;
      WPACKET_put_bytes__ (id_len (h_src_conn_id hdr)) 1 ;;;
      WPACKET_memcpy (id (h_src_conn_id hdr)) (id_len (h_src_conn_id hdr)) ;;;
      if h_type hdr =? QUIC_PKT_TYPE_VERSION_NEG then
        (if h_len hdr >? 0 then WPACKET_reserve_bytes (h_len hdr) ;;; ret tt else ret tt) ;;;
        ret None
      else
        (if h_type hdr =? QUIC_PKT_TYPE_INITIAL then
           WPACKET_quic_write_vlint (h_token_len hdr) ;;;
           memcpy_ptr (h_token hdr) (h_token_len hdr)
         else ret tt) ;;;
        if h_type hdr =? QUIC_PKT_TYPE_RETRY then
          memcpy_ptr (h_token hdr) (h_token_len hdr) ;;; ret None
        else
          WPACKET_quic_write_vlint (u64 (h_len hdr + h_pn_len hdr)) ;;;
          let! off_pn := total_written in
          WPACKET_memcpy (h_pn hdr) (h_pn_len hdr) ;;;
          ret (Some off_pn)
  end.

(** [&p[n]]. *)
Definition ptr_add (p : option Z) (n : Z) : option Z :=
  match p with Some q => Some (q + n) | None => None end.

(** [want_ptrs]: [ptrs] is not NULL. The result is [*ptrs]. *)
Definition ossl_quic_wire_encode_pkt_hdr (short_conn_id_len : Z) (hdr : QUIC_PKT_HDR)
    (want_ptrs : bool) : M WS QUIC_PKT_HDR_PTRS :=
  let! s := get in
  let start := WPACKET_get_curr (fst s) in
  let off_start := WPACKET_get_total_written (fst s) in
  guard (negb (want_ptrs && match staticbuf (fst s) with Some _ => false | None => true end)) ;;;
  guard (negb (h_partial hdr
               || (h_type hdr =? QUIC_PKT_TYPE_1RTT)
                  && negb (id_len (h_dst_conn_id hdr) =? short_conn_id_len))) ;;;
  let! off_pn :=
    (if h_type hdr =? QUIC_PKT_TYPE_1RTT then
       let! off_pn := encode_short_hdr short_conn_id_len hdr in ret (Some off_pn)
     else encode_long_hdr hdr) in
  match off_pn with
  | None => ret (mkPtrs None None 0 None)
  | Some off_pn =>
      (if h_len hdr >? 0 then WPACKET_reserve_bytes (h_len hdr) ;;; ret tt else ret tt) ;;;
      let off_sample := off_pn + 4 in
      let! s := get in
      ret (if want_ptrs then
             let raw_sample := ptr_add start (off_sample - off_start) in
             mkPtrs start raw_sample
               (u64 (default 0 (WPACKET_get_curr (fst s)) + h_len hdr - default 0 raw_sample))
               (ptr_add start (off_pn - off_start))
           else mkPtrs None None 0 None)
  end.

Definition ossl_quic_wire_get_encoded_pkt_hdr_len (short_conn_id_len : Z)
    (hdr : QUIC_PKT_HDR) : Z :=
  let bad_pn_len := (h_pn_len hdr <? 1) || (h_pn_len hdr >? 4) in
  if h_partial hdr
     || (h_type hdr =? QUIC_PKT_TYPE_1RTT)
        && negb (id_len (h_dst_conn_id hdr) =? short_conn_id_len) then 0
  else if h_type hdr =? QUIC_PKT_TYPE_1RTT then
    if negb (id_len (h_dst_conn_id hdr) =? short_conn_id_len)
       || (short_conn_id_len >? QUIC_MAX_CONN_ID_LEN) || bad_pn_len then 0
    else 1 + short_conn_id_len + h_pn_len hdr
  else if (id_len (h_dst_conn_id hdr) >? QUIC_MAX_CONN_ID_LEN)
          || (id_len (h_src_conn_id hdr) >? QUIC_MAX_CONN_ID_LEN) then 0
  else
    let len := 1 + 4 + 1 + id_len (h_dst_conn_id hdr) + 1 + id_len (h_src_conn_id hdr) in
    if ossl_quic_pkt_type_has_pn (h_type hdr) && bad_pn_len then 0
    else
      let len := if ossl_quic_pkt_type_has_pn (h_type hdr) then len + h_pn_len hdr else len in
      let token_enclen := ossl_quic_vlint_encode_len (h_token_len hdr) in
      if (h_type hdr =? QUIC_PKT_TYPE_INITIAL) && (token_enclen =? 0) then 0
      else
        let len := if h_type hdr =? QUIC_PKT_TYPE_INITIAL
                   then u64 (len + (token_enclen + h_token_len hdr)) else len in
        if negb (ossl_quic_pkt_type_must_be_last (h_type hdr)) then
          let enclen := ossl_quic_vlint_encode_len (u64 (h_len hdr + h_pn_len hdr)) in
          if enclen =? 0 then 0 else u64 (len + enclen)
        else len.

(** [buf_len] is the length of [buf]. *)
Definition ossl_quic_wire_get_pkt_hdr_dst_conn_id (buf : list Z) (short_conn_id_len : Z)
    (dst_conn_id : QUIC_CONN_ID) : option QUIC_CONN_ID :=
  let buf_len := zlen buf in
  if (buf_len <? QUIC_MIN_VALID_PKT_LEN) || (short_conn_id_len >? QUIC_MAX_CONN_ID_LEN) then None
  else
    let b0 := znth 0 buf in
    if negb (Z.land b0 0x80 =? 0) then
      if (negb (znth 1 buf =? 0) || negb (znth 2 buf =? 0) || negb (znth 3 buf =? 0)
          || negb (znth 4 buf =? 0)) && (Z.land b0 0x40 =? 0) then None
      else
        let blen := znth 5 buf in
        if (blen >? QUIC_MAX_CONN_ID_LEN) || (buf_len <? QUIC_MIN_VALID_PKT_LEN + blen) then None
        else Some (mkConnId (u8 blen)
                     (write_at 0 (ztake blen (zdrop 6 buf)) (id dst_conn_id)))
    else if Z.land b0 0x40 =? 0 then None
    else if buf_len <? QUIC_MIN_VALID_PKT_LEN_CRYPTO + short_conn_id_len then None
    else Some (mkConnId (u8 short_conn_id_len)
                 (write_at 0 (ztake short_conn_id_len (zdrop 1 buf)) (id dst_conn_id))).

(** ** Definitions: packet numbers *)

(** Conversion to int64_t. *)
Definition s64 (x : Z) : Z :=
  let y := u64 x in if y <? 2 ^ 63 then y else y - 2 ^ 64.

Definition fits_s64 (x : Z) : bool := (- 2 ^ 63 <=? x) && (x <? 2 ^ 63).

Definition truncated_pn (enc_pn : list Z) (enc_pn_len : Z) : option Z :=
  let b i := znth i enc_pn in
  if enc_pn_len =? 1 then Some (b 0)
  else if enc_pn_len =? 2 then Some (Z.lor (Z.shiftl (b 0) 8) (b 1))
  else if enc_pn_len =? 3 then
    Some (Z.lor (Z.lor (Z.shiftl (b 0) 16) (Z.shiftl (b 1) 8)) (b 2))
  else if enc_pn_len =? 4 then
    Some (Z.lor (Z.lor (Z.lor (Z.shiftl (b 0) 24) (Z.shiftl (b 1) 16)) (Z.shiftl (b 2) 8)) (b 3))
  else None.

(** [Ub] is a signed overflow, or a read outside [enc_pn]. *)
Definition ossl_quic_wire_decode_pkt_hdr_pn (enc_pn : list Z) (enc_pn_len largest_pn : Z)
  : res Z :=
  match truncated_pn enc_pn enc_pn_len with
  | None => Err
  | Some truncated_pn =>
      if zlen enc_pn <? enc_pn_len then Ub
      else
        let expected_pn := s64 (u64 (largest_pn + 1)) in
        let pn_win := Z.shiftl 1 (enc_pn_len * 8) in
        let pn_hwin := pn_win / 2 in
        let pn_mask := pn_win - 1 in
        let candidate_pn := Z.lor (Z.land expected_pn (Z.lnot pn_mask)) truncated_pn in
        if negb (fits_s64 (expected_pn - pn_hwin)) then Ub
        else if (candidate_pn <=? expected_pn - pn_hwin)
                && (candidate_pn <? Z.shiftl 1 62 - pn_win)
        then Ok (u64 (candidate_pn + pn_win))
        else if negb (fits_s64 (expected_pn + pn_hwin)) then Ub
        else if (candidate_pn >? expected_pn + pn_hwin) && (candidate_pn >=? pn_win)
        then Ok (u64 (candidate_pn - pn_win))
        else Ok (u64 candidate_pn)
  end.

Definition ossl_quic_wire_determine_pn_len (pn largest_acked : Z) : Z :=
  let num_unacked := if largest_acked =? QUIC_PN_INVALID then u64 (pn + 1)
                     else u64 (pn - largest_acked) in
  if num_unacked <=? Z.shiftl 1 7 then 1
  else if num_unacked <=? Z.shiftl 1 15 then 2
  else if num_unacked <=? Z.shiftl 1 23 then 3
  else 4.

(** The bytes stored at [enc_pn]. *)
Definition ossl_quic_wire_encode_pkt_hdr_pn (pn : Z) (enc_pn : list Z) (enc_pn_len : Z)
  : res (list Z) :=
  let bytes :=
    if enc_pn_len =? 1 then Some [u8 pn]
    else if enc_pn_len =? 2 then Some [u8 (Z.shiftr pn 8); u8 pn]
    else if enc_pn_len =? 3 then Some [u8 (Z.shiftr pn 16); u8 (Z.shiftr pn 8); u8 pn]
    else if enc_pn_len =? 4 then
      Some [u8 (Z.shiftr pn 24); u8 (Z.shiftr pn 16); u8 (Z.shiftr pn 8); u8 pn]
    else None in
  match bytes with
  | None => Err
  | Some bs => if zlen enc_pn <? enc_pn_len then Ub else Ok (write_at 0 bs enc_pn)
  end.

(** ** Packet numbers *)

Ltac take_byte enc Hb :=
  destruct enc as [|? enc]; zsimpl; [lia|apply Forall_cons_1 in Hb as [? Hb]].

Lemma truncated_value enc n :
  1 <= n <= 4 -> n <= zlen enc -> Forall is_u8 enc ->
  truncated_pn enc n = Some (be_value (ztake n enc)).
Proof.
  intros Hn Hl Hb.
  assert (n = 1 \/ n = 2 \/ n = 3 \/ n = 4) as [-> | [-> | [-> | ->]]] by lia.
  - take_byte enc Hb. rewrite (ztake_app_exact [z] enc : ztake 1 (z :: enc) = [z]).
    cbn. zsimpl. f_equal. lia.
  - do 2 take_byte enc Hb. rewrite (ztake_app_exact [z; z0] enc : ztake 2 (z :: z0 :: enc) = _).
    by rewrite <- net_2_value.
  - do 3 take_byte enc Hb. rewrite (ztake_app_exact [z; z0; z1] enc : ztake 3 (z :: z0 :: z1 :: enc) = _).
    by rewrite <- net_3_value.
  - do 4 take_byte enc Hb. rewrite (ztake_app_exact [z; z0; z1; z2] enc
               : ztake 4 (z :: z0 :: z1 :: z2 :: enc) = _).
    by rewrite <- net_4_value.
Qed.

(** The candidate is the expected number with its low-order bits replaced. *)
Lemma candidate_value e k t :
  0 <= k -> 0 <= t < 2 ^ k ->
  Z.lor (Z.land e (Z.lnot (2 ^ k - 1))) t = e - e mod 2 ^ k + t.
Proof.
  intros Hk Ht. replace (2 ^ k - 1) with (Z.ones k) by (rewrite Z.ones_equiv; lia).
  rewrite <- Z.ldiff_land, Z.ldiff_ones_r, lor_shiftl_add, Z.shiftr_div_pow2 by lia.
  pose proof (Z.div_mod e (2 ^ k)). lia.
Qed.

(** Decoding yields the number in the window around the expected one. *)
Lemma decode_pn_window enc n largest pn :
  1 <= n <= 4 -> n <= zlen enc -> Forall is_u8 enc ->
  0 <= largest < 2 ^ 62 -> 0 <= pn < 2 ^ 62 ->
  be_value (ztake n enc) = pn mod 2 ^ (8 * n) ->
  largest + 1 - 2 ^ (8 * n - 1) < pn <= largest + 1 + 2 ^ (8 * n - 1) ->
  ossl_quic_wire_decode_pkt_hdr_pn enc n largest = Ok pn.
Proof.
  intros Hn Hl Hb Hlg Hpn Ht Hw. unfold ossl_quic_wire_decode_pkt_hdr_pn.
  rewrite truncated_value, Ht by done. clear Ht.
  replace (zlen enc <? n) with false by lia.
  replace (s64 (u64 (largest + 1))) with (largest + 1)
    by (unfold s64; rewrite !u64_id by (change (2 ^ 62) with 4611686018427387904 in *; rewrite ?u64_id; lia);
        case_match; lia).
  replace (Z.shiftl 1 (n * 8)) with (2 ^ (8 * n))
    by (rewrite Z.shiftl_mul_pow2, Z.mul_1_l, Z.mul_comm by lia; done).
  rewrite candidate_value by (try apply Z.mod_pos_bound; lia).
  unfold fits_s64. change (Z.shiftl 1 62) with 4611686018427387904.
  assert (n = 1 \/ n = 2 \/ n = 3 \/ n = 4) as [-> | [-> | [-> | ->]]] by lia;
    simpl in *; clear Hn Hl Hb; repeat case_match.
  all: try (f_equal; apply u64_id; Z.div_mod_to_equations; lia).
  all: try (exfalso; Z.div_mod_to_equations; lia).
  all: f_equal; rewrite u64_id by (Z.div_mod_to_equations; lia); Z.div_mod_to_equations; lia.
Qed.

Lemma encode_pn_bytes pn buf n :
  0 <= pn -> 1 <= n <= 4 -> n <= zlen buf ->
  ossl_quic_wire_encode_pkt_hdr_pn pn buf n = Ok (write_at 0 (be_bytes (Z.to_nat n) pn) buf).
Proof.
  intros Hpn Hn Hl. unfold ossl_quic_wire_encode_pkt_hdr_pn.
  assert (n = 1 \/ n = 2 \/ n = 3 \/ n = 4) as [-> | [-> | [-> | ->]]] by lia;
    cbn [Z.eqb Pos.eqb]; (replace (zlen buf <? _) with false by lia);
    rewrite ?Z.shiftr_div_pow2 by lia; 
    change (Z.to_nat 1) with 1%nat; change (Z.to_nat 2) with 2%nat;
    change (Z.to_nat 3) with 3%nat; change (Z.to_nat 4) with 4%nat; cbn [be_bytes];
    change (256 ^ Z.of_nat 0) with 1; rewrite Z.div_1_r; reflexivity.
Qed.

Lemma determine_pn_len_range pn la : 1 <= ossl_quic_wire_determine_pn_len pn la <= 4.
Proof. unfold ossl_quic_wire_determine_pn_len. repeat case_match; lia. Qed.

(** The sender has at most half a window of numbers in doubt. *)
Lemma determine_pn_len_enough pn la d :
  d = (if la =? QUIC_PN_INVALID then pn + 1 else pn - la) -> 0 <= d <= 2 ^ 31 ->
  d <= 2 ^ (8 * ossl_quic_wire_determine_pn_len pn la - 1).
Proof.
  intros -> Hd. unfold ossl_quic_wire_determine_pn_len, QUIC_PN_INVALID in *.
  destruct (la =? UINT64_MAX); rewrite u64_id by lia;
    rewrite !Z.shiftl_1_l; repeat case_match; lia.
Qed.

(** C24: A packet number survives the wire. The sender encodes [pn] in as many bytes
    as it chooses from the largest number acknowledged to it; the receiver, which
    has processed at least the packets it acknowledged, recovers [pn] from these
    bytes as long as at most 2^31 packets are in doubt and the number that it expects
    next is less than half a window above [pn]: of the packets that overtook this one, a
    window of one byte hence allows for the next 126 numbers. *)
Theorem quic_pn_roundtrip pn largest_acked largest_pn buf :
  let n := ossl_quic_wire_determine_pn_len pn largest_acked in
  0 <= pn < 2 ^ 62 -> 0 <= largest_pn < 2 ^ 62 -> zlen buf = 4 -> Forall is_u8 buf ->
  (largest_acked = QUIC_PN_INVALID /\ pn < 2 ^ 31
   \/ 0 <= largest_acked <= largest_pn /\ largest_acked <= pn <= largest_acked + 2 ^ 31) ->
  largest_pn + 1 < pn + 2 ^ (8 * n - 1) ->
  exists enc_pn, ossl_quic_wire_encode_pkt_hdr_pn pn buf n = Ok enc_pn
  /\ ossl_quic_wire_decode_pkt_hdr_pn enc_pn n largest_pn = Ok pn.
Proof.
  intros n Hpn Hlp Hbuf Hb Hla Hov. pose proof (determine_pn_len_range pn largest_acked) as Hn.
  assert (pn <= largest_pn + 1 + 2 ^ (8 * n - 1)) as Hup.
  { pose proof (determine_pn_len_enough pn largest_acked _ eq_refl) as He. fold n in He.
    unfold QUIC_PN_INVALID in *.
    destruct (Z.eqb_spec largest_acked UINT64_MAX) as [->|]; ulia. }
  exists (write_at 0 (be_bytes (Z.to_nat n) pn) buf). split; [by apply encode_pn_bytes; lia|].
  assert (zlen (be_bytes (Z.to_nat n) pn) = n) as Hlen by (rewrite length_be_bytes; lia).
  assert (write_at 0 (be_bytes (Z.to_nat n) pn) buf
          = be_bytes (Z.to_nat n) pn ++ zdrop n buf) as ->.
  { unfold write_at. rewrite ztake_le_zero, Hlen by lia. done. }
  pose proof (zlen_zdrop n buf). apply decode_pn_window; zsimpl; try lia.
  - apply Forall_app. split; [apply be_bytes_range|]. rewrite zdrop_drop. by apply Forall_drop.
  - rewrite <- Hlen at 1. rewrite ztake_app_exact, be_value_be_bytes. f_equal.
    rewrite Z2Nat.id, <- (Z.pow_mul_r 2 8) by lia. done.
Qed.

Lemma quic_pn_roundtrip_witness :
  exists enc_pn, ossl_quic_wire_encode_pkt_hdr_pn 0xac5c02 [0; 0; 0; 0] 2 = Ok enc_pn
  /\ ossl_quic_wire_decode_pkt_hdr_pn enc_pn 2 0xabe8b3 = Ok 0xac5c02.
Proof.
  apply (quic_pn_roundtrip 0xac5c02 0xabe8b3 0xabe8b3 [0; 0; 0; 0]);
    [lia|lia|reflexivity|repeat constructor; done|right; lia|vm_compute; reflexivity].
Defined.
