(* ===== verification/PktHdrTheory.v ===== *)
(** Packet headers: the wire format of PktHdr's headers as a function of the
    header, the proofs that the encoder writes it and the decoder reads it back,
    and what the decoder does on arbitrary bytes. *)

From stdpp Require Import base list numbers option.
From Stdlib Require Import ZArith Lia.
From S2P Require Import Prelude Vlint Packet WPacket Wire Frames PktHdr.

#[local] Open Scope cfun_scope.

(** ** The wire format of a header, independently of the code *)

Definition cid_bytes (c : QUIC_CONN_ID) : list Z := ztake (id_len c) (id c).

Record cid_ok (c : QUIC_CONN_ID) : Prop := mkCidOk {
  cid_len : 0 <= id_len c <= QUIC_MAX_CONN_ID_LEN;
  cid_array : zlen (id c) = QUIC_MAX_CONN_ID_LEN;
  cid_range : Forall is_u8 (id c)
}.

Definition token_bytes (h : QUIC_PKT_HDR) : list Z := default [] (h_token h).

Definition is_numbered (type : Z) : bool :=
  (type =? QUIC_PKT_TYPE_INITIAL) || (type =? QUIC_PKT_TYPE_0RTT)
  || (type =? QUIC_PKT_TYPE_HANDSHAKE).

(** The two type bits of a long header. *)
Definition type_bits (type : Z) : Z :=
  if type =? QUIC_PKT_TYPE_0RTT then 1
  else if type =? QUIC_PKT_TYPE_HANDSHAKE then 2
  else if type =? QUIC_PKT_TYPE_RETRY then 3
  else 0.

(** RFC 9000, section 17: the first byte as a sum of its fields. *)
Definition first_byte (h : QUIC_PKT_HDR) : Z :=
  if h_type h =? QUIC_PKT_TYPE_1RTT then
    64 + 32 * h_spin_bit h + 8 * h_reserved h + 4 * h_key_phase h + (h_pn_len h - 1)
  else
    128 + (if h_fixed h then 64 else 0) + 16 * type_bits (h_type h)
    + (if is_numbered (h_type h) then 4 * h_reserved h + (h_pn_len h - 1) else h_unused h).

Definition pn_bytes (h : QUIC_PKT_HDR) : list Z := ztake (h_pn_len h) (h_pn h).

(** A long header up to the connection ids. *)
Definition long_prefix (b0 version : Z) (dst src : QUIC_CONN_ID) : list Z :=
  [b0] ++ be_bytes 4 version ++ [id_len dst] ++ cid_bytes dst ++ [id_len src] ++ cid_bytes src.

(** Everything that precedes the packet number. *)
Definition before_pn (h : QUIC_PKT_HDR) : list Z :=
  if h_type h =? QUIC_PKT_TYPE_1RTT then [first_byte h] ++ cid_bytes (h_dst_conn_id h)
  else
    long_prefix (first_byte h) (h_version h) (h_dst_conn_id h) (h_src_conn_id h)
    ++ (if h_type h =? QUIC_PKT_TYPE_INITIAL
        then ossl_quic_vlint_encode (h_token_len h) ++ token_bytes h
        else if h_type h =? QUIC_PKT_TYPE_RETRY then token_bytes h
        else [])
    ++ (if is_numbered (h_type h)
        then ossl_quic_vlint_encode (h_len h + h_pn_len h) else []).

Definition hdr_bytes (h : QUIC_PKT_HDR) : list Z :=
  before_pn h ++ (if ossl_quic_pkt_type_has_pn (h_type h) then pn_bytes h else []).

(** A header that describes a packet: the fields are in range, and those its type
    does not have are zero. *)
Record hdr_ok (h : QUIC_PKT_HDR) : Prop := mkHdrOk {
  ho_partial : h_partial h = false;
  ho_dst : cid_ok (h_dst_conn_id h);
  ho_src : cid_ok (h_src_conn_id h);
  ho_pn : zlen (h_pn h) = SIZEOF_PN;
  ho_pn_range : Forall is_u8 (h_pn h);
  ho_token : h_token_len h = zlen (token_bytes h);
  ho_token_range : Forall is_u8 (token_bytes h);
  ho_len : 0 <= h_len h < 2 ^ 61;
  ho_token_len : h_token_len h < 2 ^ 61;
  ho_bits : 0 <= h_spin_bit h <= 1 /\ 0 <= h_key_phase h <= 1 /\ 0 <= h_reserved h <= 3
            /\ 0 <= h_unused h <= 15;
  ho_fields :
    (h_type h = QUIC_PKT_TYPE_1RTT /\ 1 <= h_pn_len h <= 4 /\ h_fixed h = true
     /\ h_unused h = 0 /\ h_version h = 0 /\ id_len (h_src_conn_id h) = 0 /\ h_token_len h = 0)
    \/ (is_numbered (h_type h) = true /\ 1 <= h_pn_len h <= 4 /\ h_fixed h = true
        /\ h_unused h = 0 /\ h_version h = QUIC_VERSION_1 /\ h_spin_bit h = 0
        /\ h_key_phase h = 0
        /\ (h_type h <> QUIC_PKT_TYPE_INITIAL -> h_token_len h = 0)
        /\ 4 <= h_len h + h_pn_len h)
    \/ (h_type h = QUIC_PKT_TYPE_RETRY /\ h_pn_len h = 0 /\ h_fixed h = true
        /\ h_version h = QUIC_VERSION_1 /\ h_spin_bit h = 0 /\ h_key_phase h = 0
        /\ h_reserved h = 0)
    \/ (h_type h = QUIC_PKT_TYPE_VERSION_NEG /\ h_pn_len h = 0 /\ h_unused h = 0
        /\ h_version h = 0 /\ h_spin_bit h = 0 /\ h_key_phase h = 0 /\ h_reserved h = 0
        /\ h_token_len h = 0 /\ h_len h mod 4 = 0)
}.

(** Two headers say the same: they agree in every field, as far as the fields
    with a length are in use. *)
Definition same_hdr (h k : QUIC_PKT_HDR) : Prop :=
  (h_type h, h_spin_bit h, h_key_phase h, h_pn_len h, h_partial h, h_fixed h, h_unused h,
   h_reserved h, h_version h)
  = (h_type k, h_spin_bit k, h_key_phase k, h_pn_len k, h_partial k, h_fixed k, h_unused k,
     h_reserved k, h_version k)
  /\ (id_len (h_dst_conn_id h), cid_bytes (h_dst_conn_id h))
     = (id_len (h_dst_conn_id k), cid_bytes (h_dst_conn_id k))
  /\ (id_len (h_src_conn_id h), cid_bytes (h_src_conn_id h))
     = (id_len (h_src_conn_id k), cid_bytes (h_src_conn_id k))
  /\ (pn_bytes h, h_token_len h, token_bytes h, h_len h)
     = (pn_bytes k, h_token_len k, token_bytes k, h_len k).

#[export] Instance same_hdr_equiv : Equivalence same_hdr.
Proof.
  unfold same_hdr. split.
  - intros h. done.
  - intros h k (?&?&?&?). by repeat split.
  - intros h k m (?&?&?&?) (?&?&?&?). repeat split; congruence.
Qed.

(** ** Lemmas: the decoder on the wire format *)

(** The bits of the first byte that the decoder looks at when the header is still
    protected ([partial]) or not. *)
Definition low_bits (partial : bool) (x : Z) : Z := if partial then 0 else x.

Definition pn_array (partial : bool) (pnf : list Z) : list Z :=
  if partial then zrepeat 0 SIZEOF_PN else write_at 0 pnf (zrepeat 0 SIZEOF_PN).

(** The length of the field that is read as the packet number. *)
Definition pn_field_len (partial : bool) (b0 : Z) : Z :=
  if partial then SIZEOF_PN else Z.land b0 0x03 + 1.

Lemma parses_pn_field partial b0 pnf :
  zlen pnf = pn_field_len partial b0 ->
  parses (decode_pn_field partial (if partial then 0 else Z.land b0 0x03 + 1)) pnf
    (pn_array partial pnf).
Proof.
  unfold pn_field_len, decode_pn_field, pn_array. intros Hl. destruct partial.
  - eapply parses_bind_nil; [|apply parses_ret]. rewrite <- Hl. apply parses_forward.
  - rewrite <- Hl. eapply parses_bind_nil; [apply parses_copy_bytes|apply parses_ret].
Qed.

(** The header that is decoded from a short packet. *)
Definition short_hdr (partial : bool) (hdr : QUIC_PKT_HDR) (b0 : Z) (cid pnf data : list Z)
  : QUIC_PKT_HDR :=
  mkPktHdr QUIC_PKT_TYPE_1RTT (if negb (Z.land b0 0x20 =? 0) then 1 else 0)
    (low_bits partial (if negb (Z.land b0 0x04 =? 0) then 1 else 0))
    (low_bits partial (Z.land b0 0x03 + 1)) partial true 0
    (low_bits partial (Z.shiftr (Z.land b0 0x18) 3)) 0
    (mkConnId (u8 (zlen cid)) (write_at 0 cid (id (h_dst_conn_id hdr))))
    (mkConnId 0 (id (h_src_conn_id hdr)))
    (pn_array partial pnf) None 0 (zlen data) (Some data).

Lemma decode_short_parses partial hdr b0 cid pnf data l :
  zlen cid <= QUIC_MAX_CONN_ID_LEN -> Z.land b0 0x40 <> 0 ->
  QUIC_MIN_VALID_PKT_LEN_CRYPTO <= l -> zlen pnf = pn_field_len partial b0 ->
  parses_in [] (decode_short_hdr (zlen cid) partial hdr l b0) (cid ++ pnf ++ data)
    (short_hdr partial hdr b0 cid pnf data, Some (l - zlen (pnf ++ data))).
Proof.
  intros Hc Hf Hl Hp. unfold decode_short_hdr. apply parses_in_guard; [lia|].
  apply parses_in_guard; [lia|]. cbv zeta.
  eapply parses_in_bind; [apply parses_copy_bytes|]. apply parses_in_get.
  eapply parses_in_bind; [by apply parses_pn_field|]. apply parses_in_get.
  rewrite !app_nil_r. unfold PACKET_remaining, PACKET_data.
  eapply parses_in_bind_nil; [apply parses_in_of, parses_forward|].
  unfold short_hdr, low_bits. by destruct partial.
Qed.

Lemma parses_conn_id old c :
  cid_ok c ->
  parses (decode_conn_id old) ([id_len c] ++ cid_bytes c)
    (mkConnId (id_len c) (write_at 0 (cid_bytes c) (id old))).
Proof.
  intros [Hl Ha _]. unfold QUIC_MAX_CONN_ID_LEN in *. unfold decode_conn_id.
  eapply parses_bind; [apply parses_get_1; lia|].
  apply parses_guard_bind; [unfold QUIC_MAX_CONN_ID_LEN; lia|].
  assert (zlen (cid_bytes c) = id_len c) as Hc by (unfold cid_bytes; rewrite zlen_ztake; lia).
  rewrite <- Hc at 1. eapply parses_bind_nil; [apply parses_copy_bytes|].
  rewrite u8_id by lia. apply parses_ret.
Qed.

(** The token field of a long header. *)
Definition token_field (type : Z) (token : list Z) : list Z :=
  if type =? QUIC_PKT_TYPE_INITIAL then vl (zlen token) ++ token else [].

Definition token_ptr (type : Z) (token : list Z) : option (list Z) :=
  if (type =? QUIC_PKT_TYPE_INITIAL) && negb (zlen token =? 0) then Some token else None.

Lemma parses_token type token :
  zlen token < 2 ^ 61 -> (type <> QUIC_PKT_TYPE_INITIAL -> token = []) ->
  parses (decode_token type) (token_field type token) (token_ptr type token, zlen token).
Proof.
  intros Hl Ht. unfold decode_token, token_field, token_ptr.
  destruct (Z.eqb_spec type QUIC_PKT_TYPE_INITIAL) as [->|Hn].
  - pose proof (zlen_nonneg token). eapply parses_bind; [apply parses_vl; vlia|].
    apply parses_guard_bind; [ulia|]. eapply parses_bind_nil; [apply parses_get_bytes|].
    simpl. case_match; apply parses_ret.
  - rewrite (Ht Hn). apply parses_ret.
Qed.

Lemma token_ptr_bytes type token :
  (type <> QUIC_PKT_TYPE_INITIAL -> token = []) -> default [] (token_ptr type token) = token.
Proof.
  intros Ht. unfold token_ptr. destruct (Z.eqb_spec type QUIC_PKT_TYPE_INITIAL) as [->|Hn].
  - simpl. destruct (Z.eqb_spec (zlen token) 0) as [E|]; [|done].
    simpl. symmetry. by apply zlen_zero_nil.
  - by rewrite (Ht Hn).
Qed.

Definition numbered_hdr (partial nodata : bool) (b0 type version : Z) (dst src : QUIC_CONN_ID)
    (token pnf data rest : list Z) : QUIC_PKT_HDR :=
  mkPktHdr type 0 0 (low_bits partial (Z.land b0 0x03 + 1)) partial true 0
    (low_bits partial (Z.shiftr (Z.land b0 0x0C) 2)) version dst src (pn_array partial pnf)
    (token_ptr type token) (zlen token) (zlen data)
    (if nodata then None else Some (data ++ rest)).

Lemma decode_numbered_parses partial b0 type version dst src token pnf data rest l :
  zlen pnf = pn_field_len partial b0 -> SIZEOF_PN <= zlen pnf + zlen data < 2 ^ 62 ->
  parses_in rest
    (decode_numbered partial false l b0 type version dst src (token_ptr type token) (zlen token))
    (vl (zlen pnf + zlen data) ++ pnf ++ data)
    (numbered_hdr partial false b0 type version dst src token pnf data rest,
     Some (l - zlen (pnf ++ data ++ rest))).
Proof.
  intros Hp Hl. unfold decode_numbered. cbv zeta. unfold SIZEOF_PN in *.
  eapply parses_in_bind; [apply parses_vl; vlia|]. apply parses_in_guard; [lia|].
  apply parses_in_get. pose proof (zlen_nonneg rest). unfold PACKET_remaining.
  apply parses_in_guard; [simpl; zsimpl; lia|].
  eapply parses_in_bind; [by apply parses_pn_field|].
  assert ((if partial then zlen pnf + zlen data - 4
           else zlen pnf + zlen data - (if partial then 0 else Z.land b0 0x03 + 1)) = zlen data)
    as ->.
  { unfold pn_field_len, SIZEOF_PN in Hp. destruct partial; lia. }
  eapply parses_in_bind_nil.
  - apply parses_in_get. eapply parses_in_bind_nil; [apply parses_in_of, parses_forward|done].
  - unfold ret, numbered_hdr, low_bits. rewrite <- app_assoc. by destruct partial.
Qed.

Lemma parses_get_net_4 v : 0 <= v < 4294967296 -> parses PACKET_get_net_4 (be_bytes 4 v) v.
Proof.
  intros Hv rest. pose proof (be_bytes_range 4 v) as Hr. revert Hr.
  unfold PACKET_get_net_4, PACKET_peek_net_4. cbn [be_bytes]. intros Hr.
  decompose_Forall_hyps. net_reader. net_bytes. rewrite net_4_value by done.
  do 2 f_equal. etransitivity; [exact (be_value_be_bytes 4 v)|]. by apply Z.mod_small.
Qed.

(** The decoder reads through [rd]. *)
Lemma rd_bind {A B} (m : M PACKET A) (k : A -> M DS B) p c a p' :
  m p = (Ok a, p') -> bind (rd m) k (p, c) = k a (p', c).
Proof. intros E. unfold bind, rd, zoom. simpl. by rewrite E. Qed.

Lemma rd_ok {A} (m : M PACKET A) p c a p' :
  m p = (Ok a, p') -> rd m (p, c) = (Ok a, (p', c)).
Proof. intros E. unfold rd, zoom. simpl. by rewrite E. Qed.

Lemma bind_get {S A} (k : S -> M S A) s : bind get k s = k s s.
Proof. done. Qed.

Lemma bind_guard {S A} (b : bool) (k : unit -> M S A) s :
  b = true -> bind (guard b) k s = k tt s.
Proof. by intros ->. Qed.

Lemma bind_cause {A} c (k : unit -> M DS A) p c0 :
  bind (set_fail_cause c) k (p, c0) = k tt (p, c).
Proof. done. Qed.

(** The pointers for a packet of [l] bytes whose packet number is at [off]. *)
Definition ptrs_at (off l : Z) : QUIC_PKT_HDR_PTRS :=
  mkPtrs (Some 0) (Some (off + 4)) (u64 (l - (off + 4))) (Some off).

Definition ptrs_of (pn : option Z) (l : Z) : QUIC_PKT_HDR_PTRS :=
  match pn with None => mkPtrs (Some 0) None 0 None | Some off => ptrs_at off l end.

(** What the decoder does around the short and the long form. *)
Lemma decode_pkt_hdr_ok n partial nodata hdr b0 p c h pn rest :
  is_u8 b0 -> QUIC_MIN_VALID_PKT_LEN <= 1 + zlen p ->
  (if Z.land b0 0x80 =? 0 then rd (decode_short_hdr n partial hdr (1 + zlen p) b0)
   else decode_long_hdr partial nodata hdr (1 + zlen p) b0)
    (p, QUIC_PKT_HDR_DECODE_DECODE_ERR) = (Ok (h, pn), (rest, QUIC_PKT_HDR_DECODE_DECODE_ERR)) ->
  ossl_quic_wire_decode_pkt_hdr n partial nodata hdr (b0 :: p, c)
  = (Ok (h, ptrs_of pn (1 + zlen p)), (rest, 0)).
Proof.
  intros Hb Hl Hk. unfold ossl_quic_wire_decode_pkt_hdr.
  rewrite bind_get. cbn [fst]. unfold PACKET_remaining. rewrite zlen_cons. cbv zeta.
  rewrite bind_cause, bind_guard by lia.
  rewrite (rd_bind _ _ _ _ _ _ (parses_get_1 b0 Hb p)).
  rewrite (bind_ok _ _ _ _ _ Hk). unfold ptrs_of. by destruct pn.
Qed.

Lemma decode_short_ok n partial nodata hdr b0 cid pnf data c :
  is_u8 b0 -> Z.land b0 0x80 = 0 -> Z.land b0 0x40 <> 0 ->
  zlen cid = n -> n <= QUIC_MAX_CONN_ID_LEN -> zlen pnf = pn_field_len partial b0 ->
  QUIC_MIN_VALID_PKT_LEN_CRYPTO <= zlen ([b0] ++ cid ++ pnf ++ data) ->
  ossl_quic_wire_decode_pkt_hdr n partial nodata hdr ([b0] ++ cid ++ pnf ++ data, c)
  = (Ok (short_hdr partial hdr b0 cid pnf data,
         ptrs_at (1 + zlen cid) (zlen ([b0] ++ cid ++ pnf ++ data))), ([], 0)).
Proof.
  intros Hb H80 H40 <- Hc Hp Hl. simpl app at 1 4. rewrite zlen_cons.
  pose proof (decode_short_parses partial hdr b0 cid pnf data (1 + zlen (cid ++ pnf ++ data))
                Hc H40) as Hd. unfold parses_in in Hd. rewrite app_nil_r in Hd.
  rewrite zlen_app, zlen_cons, zlen_nil in Hl.
  erewrite decode_pkt_hdr_ok;
    [|done|unfold QUIC_MIN_VALID_PKT_LEN, QUIC_MIN_VALID_PKT_LEN_VERSION_NEG,
             QUIC_MIN_VALID_PKT_LEN_CRYPTO in *; lia|].
  2: { rewrite H80. cbn [Z.eqb]. apply rd_ok, Hd; [exact Hl|exact Hp]. }
  unfold ptrs_of. do 4 f_equal. zsimpl. lia.
Qed.

(** A connection id stored over an old one. *)
Definition stored_cid (old c : QUIC_CONN_ID) : QUIC_CONN_ID :=
  mkConnId (id_len c) (write_at 0 (cid_bytes c) (id old)).

Lemma zlen_cid_bytes c : cid_ok c -> zlen (cid_bytes c) = id_len c.
Proof. intros [? Hz _]. unfold cid_bytes. rewrite zlen_ztake; lia. Qed.

Lemma stored_cid_same old c :
  cid_ok c -> cid_ok old ->
  (id_len c, cid_bytes c) = (id_len (stored_cid old c), cid_bytes (stored_cid old c)).
Proof.
  intros Hc Ho. pose proof (zlen_cid_bytes c Hc) as Hz. destruct Hc, Ho.
  unfold stored_cid, cid_bytes at 2. cbn [id_len id]. f_equal.
  pose proof (ztake_write_at 0 (cid_bytes c) (id old)) as Hw.
  rewrite Z.add_0_l, Hz, (ztake_le_zero 0) in Hw by lia. symmetry. apply Hw; lia.
Qed.

(** The long header up to the connection ids. *)
Lemma decode_long_prefix partial nodata hdr l b0 version dst src p c :
  0 <= version < 4294967296 -> (version <> 0 -> Z.land b0 0x40 <> 0) ->
  cid_ok dst -> cid_ok src ->
  decode_long_hdr partial nodata hdr l b0
    (be_bytes 4 version ++ ([id_len dst] ++ cid_bytes dst) ++ ([id_len src] ++ cid_bytes src) ++ p,
     c)
  = (let dst := stored_cid (h_dst_conn_id hdr) dst in
     let src := stored_cid (h_src_conn_id hdr) src in
     if version =? 0 then rd (decode_version_neg b0 version dst src) (p, c)
     else if negb (version =? QUIC_VERSION_1) then
       (Err, (p, Z.lor c QUIC_PKT_HDR_DECODE_BAD_VERSION))
     else rd (decode_long_v1 partial nodata l b0 version dst src) (p, c)).
Proof.
  intros Hv Hf Hd Hs. unfold decode_long_hdr.
  rewrite (rd_bind _ _ _ _ _ _ (parses_get_net_4 version Hv _)).
  rewrite bind_guard by (destruct (Z.eqb_spec version 0); [done|simpl; lia]).
  rewrite (rd_bind _ _ _ _ _ _ (parses_conn_id _ dst Hd _)).
  rewrite (rd_bind _ _ _ _ _ _ (parses_conn_id _ src Hs _)).
  rewrite u32_id by done. unfold stored_cid. cbv zeta.
  by destruct (version =? 0), (negb (version =? QUIC_VERSION_1)).
Qed.

Lemma long_prefix_assoc b0 version dst src p :
  long_prefix b0 version dst src ++ p
  = b0 :: be_bytes 4 version ++ ([id_len dst] ++ cid_bytes dst)
          ++ ([id_len src] ++ cid_bytes src) ++ p.
Proof. unfold long_prefix. by rewrite <- !app_assoc. Qed.

Lemma decode_numbered_ok n partial hdr b0 type dst src token pnf data rest c :
  let p := long_prefix b0 QUIC_VERSION_1 dst src
           ++ (token_field type token ++ vl (zlen pnf + zlen data) ++ pnf ++ data) ++ rest in
  is_u8 b0 -> Z.land b0 0x80 <> 0 -> Z.land b0 0x40 <> 0 ->
  long_pkt_type (Z.land (Z.shiftr b0 4) 0x3) = type -> is_numbered type = true ->
  cid_ok dst -> cid_ok src ->
  zlen token < 2 ^ 61 -> (type <> QUIC_PKT_TYPE_INITIAL -> token = []) ->
  zlen pnf = pn_field_len partial b0 -> SIZEOF_PN <= zlen pnf + zlen data < 2 ^ 62 ->
  QUIC_MIN_VALID_PKT_LEN_CRYPTO <= zlen p ->
  ossl_quic_wire_decode_pkt_hdr n partial false hdr (p, c)
  = (Ok (numbered_hdr partial false b0 type QUIC_VERSION_1
           (stored_cid (h_dst_conn_id hdr) dst) (stored_cid (h_src_conn_id hdr) src)
           token pnf data rest,
         ptrs_at (zlen p - zlen (pnf ++ data ++ rest)) (zlen p)), (rest, 0)).
Proof.
  intros p Hb H80 H40 Ht Hnum Hd Hs Htl Htk Hp Hlen Hl. subst p.
  rewrite long_prefix_assoc in *. set (q := be_bytes 4 QUIC_VERSION_1 ++ _) in *.
  rewrite zlen_cons in *.
  eapply (decode_pkt_hdr_ok n partial false hdr b0 q c _ (Some _) rest); [done| |].
  { unfold QUIC_MIN_VALID_PKT_LEN, QUIC_MIN_VALID_PKT_LEN_VERSION_NEG,
      QUIC_MIN_VALID_PKT_LEN_CRYPTO in *. lia. }
  replace (Z.land b0 0x80 =? 0) with false by lia.
  set (l := 1 + zlen q) in *. clearbody l. subst q.
  rewrite decode_long_prefix by (done || unfold QUIC_VERSION_1; lia).
  cbn [Z.eqb Pos.eqb QUIC_VERSION_1 negb]. cbv zeta. apply rd_ok. unfold decode_long_v1.
  rewrite bind_guard by lia. cbv zeta. rewrite Ht.
  rewrite <- !app_assoc. rewrite (bind_ok _ _ _ _ _ (parses_token type token Htl Htk _)).
  cbv iota beta. replace (type =? QUIC_PKT_TYPE_RETRY) with false.
  - pose proof (decode_numbered_parses partial b0 type QUIC_VERSION_1
      (stored_cid (h_dst_conn_id hdr) dst) (stored_cid (h_src_conn_id hdr) src) token pnf data rest)
      as Hq. unfold parses_in in Hq. rewrite <- !app_assoc in Hq. by rewrite Hq.
  - symmetry. apply Z.eqb_neq. intros ->. done.
Qed.

(** The header that is decoded from a Retry or Version Negotiation packet. *)
Definition plain_hdr (type : Z) (fixed : bool) (unused version : Z) (dst src : QUIC_CONN_ID)
    (data : list Z) : QUIC_PKT_HDR :=
  mkPktHdr type 0 0 0 false fixed unused 0 version dst src (zrepeat 0 SIZEOF_PN) None 0
    (zlen data) (Some data).

Lemma forward_all p : PACKET_forward (zlen p) p = (Ok tt, []).
Proof. pose proof (parses_forward p []) as Hp. by rewrite app_nil_r in Hp. Qed.

Lemma decode_retry_ok n partial nodata hdr b0 dst src data c :
  let p := long_prefix b0 QUIC_VERSION_1 dst src ++ data in
  is_u8 b0 -> Z.land b0 0x80 <> 0 -> Z.land b0 0x40 <> 0 -> Z.land (Z.shiftr b0 4) 0x3 = 3 ->
  cid_ok dst -> cid_ok src -> QUIC_MIN_VALID_PKT_LEN_CRYPTO <= zlen p ->
  ossl_quic_wire_decode_pkt_hdr n partial nodata hdr (p, c)
  = (Ok (plain_hdr QUIC_PKT_TYPE_RETRY true (Z.land b0 0x0f) QUIC_VERSION_1
           (stored_cid (h_dst_conn_id hdr) dst) (stored_cid (h_src_conn_id hdr) src) data,
         ptrs_of None (zlen p)), ([], 0)).
Proof.
  intros p Hb H80 H40 Ht Hd Hs Hl. subst p.
  rewrite long_prefix_assoc in *. set (q := be_bytes 4 QUIC_VERSION_1 ++ _) in *.
  rewrite zlen_cons in *.
  eapply (decode_pkt_hdr_ok n partial nodata hdr b0 q c _ None []); [done| |].
  { unfold QUIC_MIN_VALID_PKT_LEN, QUIC_MIN_VALID_PKT_LEN_VERSION_NEG,
      QUIC_MIN_VALID_PKT_LEN_CRYPTO in *. lia. }
  replace (Z.land b0 0x80 =? 0) with false by lia.
  set (l := 1 + zlen q) in *. clearbody l. subst q.
  rewrite decode_long_prefix by (done || unfold QUIC_VERSION_1; lia).
  cbn [Z.eqb Pos.eqb QUIC_VERSION_1 negb]. cbv zeta. apply rd_ok. unfold decode_long_v1.
  rewrite bind_guard by lia. cbv zeta. rewrite Ht.
  cbn [long_pkt_type Z.eqb Pos.eqb decode_token QUIC_PKT_TYPE_RETRY QUIC_PKT_TYPE_INITIAL].
  rewrite (bind_ok (ret _) _ _ _ _ eq_refl). cbv iota beta. unfold decode_retry.
  rewrite bind_get. cbv zeta. unfold PACKET_remaining, PACKET_data.
  by rewrite (bind_ok _ _ _ _ _ (forward_all data)).
Qed.

Lemma decode_version_neg_ok n partial nodata hdr b0 dst src data c :
  let p := long_prefix b0 0 dst src ++ data in
  is_u8 b0 -> Z.land b0 0x80 <> 0 -> cid_ok dst -> cid_ok src -> zlen data mod 4 = 0 ->
  ossl_quic_wire_decode_pkt_hdr n partial nodata hdr (p, c)
  = (Ok (plain_hdr QUIC_PKT_TYPE_VERSION_NEG (negb (Z.land b0 0x40 =? 0)) 0 0
           (stored_cid (h_dst_conn_id hdr) dst) (stored_cid (h_src_conn_id hdr) src) data,
         ptrs_of None (zlen p)), ([], 0)).
Proof.
  intros p Hb H80 Hd Hs Hm. subst p.
  rewrite long_prefix_assoc in *. set (q := be_bytes 4 0 ++ _) in *. rewrite zlen_cons.
  eapply (decode_pkt_hdr_ok n partial nodata hdr b0 q c _ None []); [done| |].
  { subst q. rewrite !zlen_app, length_be_bytes, !zlen_cons.
    pose proof (zlen_nonneg (cid_bytes dst)). pose proof (zlen_nonneg (cid_bytes src)).
    pose proof (zlen_nonneg data). zsimpl.
    unfold QUIC_MIN_VALID_PKT_LEN, QUIC_MIN_VALID_PKT_LEN_VERSION_NEG in *. lia. }
  replace (Z.land b0 0x80 =? 0) with false by lia.
  set (l := 1 + zlen q) in *. clearbody l. subst q.
  rewrite decode_long_prefix by (done || lia).
  cbn [Z.eqb]. cbv zeta. apply rd_ok. unfold decode_version_neg. rewrite bind_get. cbv zeta.
  unfold PACKET_remaining, PACKET_data. rewrite bind_guard by lia.
  by rewrite (bind_ok _ _ _ _ _ (forward_all data)).
Qed.

(** ** Lemmas: the first byte *)


Lemma first_byte_short s k r p :
  0 <= s <= 1 -> 0 <= k <= 1 -> 0 <= r <= 3 -> 1 <= p <= 4 ->
  let b0 := 64 + 32 * s + 8 * r + 4 * k + (p - 1) in
  (is_u8 b0 /\ Z.land b0 0x80 = 0 /\ Z.land b0 0x40 <> 0)
  /\ (if negb (Z.land b0 0x20 =? 0) then 1 else 0) = s
  /\ (if negb (Z.land b0 0x04 =? 0) then 1 else 0) = k
  /\ Z.land b0 0x03 + 1 = p /\ Z.shiftr (Z.land b0 0x18) 3 = r
  /\ u8 (Z.lor (Z.lor (Z.lor (Z.lor (Z.shiftl s 5) (Z.shiftl k 2)) (p - 1)) (Z.shiftl r 3)) 0x40)
     = b0.
Proof.
  intros Hs Hk Hr Hp.
  assert (s = 0 \/ s = 1) as [-> | ->] by lia; assert (k = 0 \/ k = 1) as [-> | ->] by lia;
    assert (r = 0 \/ r = 1 \/ r = 2 \/ r = 3) as [-> | [-> | [-> | ->]]] by lia;
    assert (p = 1 \/ p = 2 \/ p = 3 \/ p = 4) as [-> | [-> | [-> | ->]]] by lia;
    vm_compute; repeat split; congruence.
Qed.

Lemma first_byte_numbered t r p :
  0 <= t <= 2 -> 0 <= r <= 3 -> 1 <= p <= 4 ->
  let b0 := 128 + 64 + 16 * t + (4 * r + (p - 1)) in
  (is_u8 b0 /\ Z.land b0 0x80 <> 0 /\ Z.land b0 0x40 <> 0)
  /\ Z.land (Z.shiftr b0 4) 0x3 = t
  /\ Z.land b0 0x03 + 1 = p /\ Z.shiftr (Z.land b0 0x0C) 2 = r
  /\ u8 (Z.lor (u8 (Z.lor (Z.lor (u8 (Z.lor (Z.shiftl t 4) 0x80)) 0x40) (p - 1)))
           (Z.shiftl r 2)) = b0.
Proof.
  intros Ht Hr Hp.
  assert (t = 0 \/ t = 1 \/ t = 2) as [-> | [-> | ->]] by lia;
    assert (r = 0 \/ r = 1 \/ r = 2 \/ r = 3) as [-> | [-> | [-> | ->]]] by lia;
    assert (p = 1 \/ p = 2 \/ p = 3 \/ p = 4) as [-> | [-> | [-> | ->]]] by lia;
    vm_compute; repeat split; congruence.
Qed.

Lemma first_byte_retry u :
  0 <= u <= 15 ->
  let b0 := 128 + 64 + 16 * 3 + u in
  (is_u8 b0 /\ Z.land b0 0x80 <> 0 /\ Z.land b0 0x40 <> 0)
  /\ Z.land (Z.shiftr b0 4) 0x3 = 3 /\ Z.land b0 0x0f = u
  /\ u8 (Z.lor (Z.lor (u8 (Z.lor (Z.shiftl 3 4) 0x80)) 0x40) u) = b0.
Proof.
  intros Hu.
  assert (u = 0 \/ u = 1 \/ u = 2 \/ u = 3 \/ u = 4 \/ u = 5 \/ u = 6 \/ u = 7 \/ u = 8 \/ u = 9
          \/ u = 10 \/ u = 11 \/ u = 12 \/ u = 13 \/ u = 14 \/ u = 15) as Hc by lia.
  repeat destruct Hc as [-> | Hc]; subst; vm_compute; repeat split; congruence.
Qed.

(** The types with a packet number in a long header. *)
Lemma numbered_cases type :
  is_numbered type = true ->
  type = QUIC_PKT_TYPE_INITIAL \/ type = QUIC_PKT_TYPE_0RTT \/ type = QUIC_PKT_TYPE_HANDSHAKE.
Proof. unfold is_numbered. intros Ht. lia. Qed.

Lemma numbered_type_bits type :
  is_numbered type = true ->
  0 <= type_bits type <= 2 /\ long_pkt_type (type_bits type) = type.
Proof. intros [-> | [-> | ->]]%numbered_cases; vm_compute; repeat split; congruence. Qed.

(** ** The header round trip *)

Lemma hdr_bytes_retry h :
  h_type h = QUIC_PKT_TYPE_RETRY ->
  hdr_bytes h = long_prefix (first_byte h) (h_version h) (h_dst_conn_id h) (h_src_conn_id h)
                ++ token_bytes h.
Proof. intros Ht. unfold hdr_bytes, before_pn. rewrite Ht. cbn. by rewrite !app_nil_r. Qed.

Lemma pn_bytes_stored h :
  hdr_ok h -> 0 <= h_pn_len h <= 4 ->
  zlen (pn_bytes h) = h_pn_len h
  /\ ztake (h_pn_len h) (write_at 0 (pn_bytes h) (zrepeat 0 SIZEOF_PN)) = pn_bytes h.
Proof.
  intros Hok Hn. pose proof (ho_pn h Hok) as Hp. unfold SIZEOF_PN in *.
  assert (zlen (pn_bytes h) = h_pn_len h) as Hz by (unfold pn_bytes; rewrite zlen_ztake; lia).
  split; [done|]. pose proof (ztake_write_at 0 (pn_bytes h) (zrepeat 0 4)) as Hw.
  rewrite Z.add_0_l, Hz, (ztake_le_zero 0), zlen_zrepeat in Hw by lia. apply Hw; lia.
Qed.

Lemma before_pn_short h :
  h_type h = QUIC_PKT_TYPE_1RTT -> before_pn h = [first_byte h] ++ cid_bytes (h_dst_conn_id h).
Proof. intros Ht. unfold before_pn. by rewrite Ht. Qed.

Lemma before_pn_numbered h :
  is_numbered (h_type h) = true -> h_token_len h = zlen (token_bytes h) ->
  before_pn h = long_prefix (first_byte h) (h_version h) (h_dst_conn_id h) (h_src_conn_id h)
    ++ token_field (h_type h) (token_bytes h) ++ vl (h_len h + h_pn_len h).
Proof.
  intros Hn Htk. unfold before_pn, token_field.
  destruct (numbered_cases _ Hn) as [-> | [-> | ->]]; cbn; by rewrite ?Htk.
Qed.

Lemma hdr_bytes_numbered h :
  is_numbered (h_type h) = true -> h_token_len h = zlen (token_bytes h) ->
  hdr_bytes h = long_prefix (first_byte h) (h_version h) (h_dst_conn_id h) (h_src_conn_id h)
    ++ token_field (h_type h) (token_bytes h) ++ vl (h_len h + h_pn_len h) ++ pn_bytes h.
Proof.
  intros Hn Htk. unfold hdr_bytes. rewrite before_pn_numbered by done.
  rewrite <- !app_assoc. by destruct (numbered_cases _ Hn) as [-> | [-> | ->]].
Qed.

(** Decoding the bytes of [h], followed by its payload and by [rest]. *)
Definition decodes_to (h : QUIC_PKT_HDR) (payload rest : list Z) (hdr0 : QUIC_PKT_HDR) : Prop :=
  let p := hdr_bytes h ++ payload ++ rest in
  forall c, exists h',
    ossl_quic_wire_decode_pkt_hdr (id_len (h_dst_conn_id h)) false false hdr0 (p, c)
    = (Ok (h', ptrs_of (if ossl_quic_pkt_type_has_pn (h_type h)
                        then Some (zlen (before_pn h)) else None) (zlen p)), (rest, 0))
    /\ same_hdr h h' /\ h_data h' = Some (payload ++ rest).

Section RoundTrip.
Context (h hdr0 : QUIC_PKT_HDR) (payload rest : list Z).
Context (Hok : hdr_ok h) (Hlen : zlen payload = h_len h).
Context (Hdst0 : cid_ok (h_dst_conn_id hdr0)) (Hsrc0 : cid_ok (h_src_conn_id hdr0)).

Lemma same_stored_dst :
  (id_len (h_dst_conn_id h), cid_bytes (h_dst_conn_id h))
  = (id_len (stored_cid (h_dst_conn_id hdr0) (h_dst_conn_id h)),
     cid_bytes (stored_cid (h_dst_conn_id hdr0) (h_dst_conn_id h))).
Proof. apply stored_cid_same; [apply Hok|done]. Qed.

Lemma same_stored_src :
  (id_len (h_src_conn_id h), cid_bytes (h_src_conn_id h))
  = (id_len (stored_cid (h_src_conn_id hdr0) (h_src_conn_id h)),
     cid_bytes (stored_cid (h_src_conn_id hdr0) (h_src_conn_id h))).
Proof. apply stored_cid_same; [apply Hok|done]. Qed.

Lemma no_token : h_token_len h = 0 -> token_bytes h = [].
Proof. intros Ht. apply zlen_zero_nil. by rewrite <- (ho_token h Hok). Qed.

Lemma short_decodes :
  h_type h = QUIC_PKT_TYPE_1RTT -> rest = [] ->
  QUIC_MIN_VALID_PKT_LEN_CRYPTO <= zlen (hdr_bytes h ++ payload) ->
  decodes_to h payload rest hdr0.
Proof.
  intros Ht -> Hl c. rewrite app_nil_r in *. unfold ptrs_of. rewrite Ht. cbn [ossl_quic_pkt_type_has_pn].
  pose proof (ho_bits h Hok) as (Hs & Hk & Hr & _).
  destruct (ho_fields h Hok) as [(_ & Hn & Hf & Hu & Hv & Hsrc & Htk)
                                | [[Hn _]|[[Hn _]|[Hn _]]]]; try (rewrite Ht in Hn; done).
  destruct (pn_bytes_stored h Hok ltac:(lia)) as [Hpl Hpe].
  destruct (first_byte_short _ _ _ _ Hs Hk Hr Hn) as ((Hb & H80 & H40) & Hbs & Hbk & Hbp & Hbr & _).
  assert (first_byte h = 64 + 32 * h_spin_bit h + 8 * h_reserved h + 4 * h_key_phase h
                         + (h_pn_len h - 1)) as Hfb by (unfold first_byte; by rewrite Ht).
  rewrite <- Hfb in *.
  assert (hdr_bytes h ++ payload
          = [first_byte h] ++ cid_bytes (h_dst_conn_id h) ++ pn_bytes h ++ payload) as Heq.
  { unfold hdr_bytes. rewrite before_pn_short, Ht by done. cbn. by rewrite <- !app_assoc. }
  rewrite Heq in *. pose proof (ho_dst h Hok) as Hdst. pose proof (zlen_cid_bytes _ Hdst) as Hz.
  rewrite before_pn_short, zlen_app by done.
  eexists. split; [rewrite (decode_short_ok (id_len (h_dst_conn_id h)) false false hdr0
    (first_byte h) (cid_bytes (h_dst_conn_id h)) (pn_bytes h) payload c Hb H80 H40 Hz);
    [reflexivity|apply Hdst|simpl; lia|exact Hl]|].
  split; [|done]. set (h' := short_hdr _ _ _ _ _ _).
  assert (pn_bytes h' = pn_bytes h) as Hpn.
  { unfold pn_bytes at 1. cbn [h' short_hdr h_pn_len h_pn low_bits pn_array]. by rewrite Hbp. }
  assert (h_dst_conn_id h' = stored_cid (h_dst_conn_id hdr0) (h_dst_conn_id h)) as Hd.
  { destruct Hdst. unfold QUIC_MAX_CONN_ID_LEN in *. cbn [h' short_hdr h_dst_conn_id].
    by rewrite Hz, u8_id by lia. }
  unfold same_hdr. rewrite Hpn, Hd. split; [|split; [apply same_stored_dst|split]].
  - cbn [h' short_hdr h_type h_spin_bit h_key_phase h_pn_len h_partial h_fixed h_unused
         h_reserved h_version low_bits]. rewrite Hbs, Hbk, Hbp, Hbr, Ht, (ho_partial h Hok).
    congruence.
  - unfold cid_bytes. cbn [h' short_hdr h_src_conn_id id_len id]. rewrite Hsrc.
    by rewrite !(ztake_le_zero 0).
  - rewrite no_token, Htk, <- Hlen by done. done.
Qed.

Lemma first_byte_numbered_ok :
  is_numbered (h_type h) = true ->
  let b0 := first_byte h in
  (is_u8 b0 /\ Z.land b0 0x80 <> 0 /\ Z.land b0 0x40 <> 0)
  /\ long_pkt_type (Z.land (Z.shiftr b0 4) 0x3) = h_type h
  /\ Z.land b0 0x03 + 1 = h_pn_len h /\ Z.shiftr (Z.land b0 0x0C) 2 = h_reserved h.
Proof.
  intros Ht b0. destruct (numbered_type_bits _ Ht) as [Hb Hlt].
  pose proof (ho_bits h Hok) as (_ & _ & Hr & _).
  destruct (ho_fields h Hok) as [[E _] | [(_ & Hn & Hf & _) | [[E _] | [E _]]]];
    try (rewrite E in Ht; done).
  destruct (first_byte_numbered _ _ _ Hb Hr Hn) as (Hq & H1 & H2 & H3 & _).
  assert (b0 = 128 + 64 + 16 * type_bits (h_type h) + (4 * h_reserved h + (h_pn_len h - 1))) as ->.
  { unfold b0, first_byte. rewrite Hf, Ht.
    by destruct (numbered_cases _ Ht) as [-> | [-> | ->]]. }
  by rewrite H1.
Qed.

(** What being a well-formed header of a numbered type means. *)
Lemma numbered_fields :
  is_numbered (h_type h) = true ->
  1 <= h_pn_len h <= 4 /\ h_fixed h = true /\ h_unused h = 0 /\ h_version h = QUIC_VERSION_1
  /\ h_spin_bit h = 0 /\ h_key_phase h = 0
  /\ (h_type h <> QUIC_PKT_TYPE_INITIAL -> token_bytes h = [])
  /\ 4 <= h_len h + h_pn_len h /\ ossl_quic_pkt_type_has_pn (h_type h) = true.
Proof.
  intros Ht.
  destruct (ho_fields h Hok) as [[E _] | [(_ & ? & ? & ? & ? & ? & ? & Htk & ?)
    | [[E _] | [E _]]]]; try (rewrite E in Ht; done).
  split_and!; try done; try lia.
  - intros Hni. apply no_token, Htk, Hni.
  - by destruct (numbered_cases _ Ht) as [-> | [-> | ->]].
Qed.

Lemma numbered_same :
  is_numbered (h_type h) = true ->
  same_hdr h (numbered_hdr false false (first_byte h) (h_type h) QUIC_VERSION_1
                (stored_cid (h_dst_conn_id hdr0) (h_dst_conn_id h))
                (stored_cid (h_src_conn_id hdr0) (h_src_conn_id h))
                (token_bytes h) (pn_bytes h) payload rest).
Proof.
  intros Ht. destruct (first_byte_numbered_ok Ht) as (_ & _ & Hbp & Hbr).
  destruct (numbered_fields Ht) as (Hn & Hf & Hu & Hv & Hs & Hk & Htk & _ & _).
  destruct (pn_bytes_stored h Hok ltac:(lia)) as [_ Hpe]. set (h' := numbered_hdr _ _ _ _ _ _ _ _ _ _ _).
  assert (pn_bytes h' = pn_bytes h) as Hpn.
  { unfold pn_bytes at 1. cbn [h' numbered_hdr h_pn_len h_pn low_bits pn_array]. by rewrite Hbp. }
  assert (token_bytes h' = token_bytes h) as Htb by (by apply token_ptr_bytes).
  unfold same_hdr. rewrite Hpn, Htb.
  split; [|split; [apply same_stored_dst|split; [apply same_stored_src|]]].
  - cbn [h' numbered_hdr h_type h_spin_bit h_key_phase h_pn_len h_partial h_fixed h_unused
         h_reserved h_version low_bits]. rewrite Hbp, Hbr, (ho_partial h Hok). congruence.
  - cbn [h' numbered_hdr h_token_len h_len]. by rewrite (ho_token h Hok), Hlen.
Qed.

Lemma numbered_decodes :
  is_numbered (h_type h) = true ->
  QUIC_MIN_VALID_PKT_LEN_CRYPTO <= zlen (hdr_bytes h ++ payload ++ rest) ->
  decodes_to h payload rest hdr0.
Proof.
  intros Ht Hl c. destruct (first_byte_numbered_ok Ht) as ((Hb & H80 & H40) & Hbt & Hbp & Hbr).
  destruct (numbered_fields Ht) as (Hn & Hf & Hu & Hv & Hs & Hk & Htk & H4 & Hhas).
  destruct (pn_bytes_stored h Hok ltac:(lia)) as [Hpl Hpe].
  assert (zlen (hdr_bytes h ++ payload ++ rest) - zlen (pn_bytes h ++ payload ++ rest)
          = zlen (before_pn h)) as Hoff.
  { unfold hdr_bytes. rewrite Hhas. zsimpl. lia. }
  pose proof (ho_len h Hok). pose proof (ho_token h Hok) as Htok. pose proof (ho_token_len h Hok).
  assert (hdr_bytes h ++ payload ++ rest
    = long_prefix (first_byte h) QUIC_VERSION_1 (h_dst_conn_id h) (h_src_conn_id h)
      ++ (token_field (h_type h) (token_bytes h) ++ vl (zlen (pn_bytes h) + zlen payload)
          ++ pn_bytes h ++ payload) ++ rest) as Heq.
  { rewrite hdr_bytes_numbered by done. rewrite <- !app_assoc.
    by rewrite Hpl, Hlen, (Z.add_comm (h_pn_len h)), Hv. }
  rewrite Hhas. unfold ptrs_of. rewrite <- Hoff, Heq in *.
  eexists. split; [|split; [by apply numbered_same|done]].
  apply (decode_numbered_ok _ false); try done; try apply Hok; unfold SIZEOF_PN; simpl; lia.
Qed.

Lemma plain_same type fixed unused version :
  (h_type h, h_fixed h, h_unused h, h_version h) = (type, fixed, unused, version) ->
  (h_spin_bit h, h_key_phase h, h_pn_len h, h_reserved h, h_token_len h) = (0, 0, 0, 0, 0) ->
  same_hdr h (plain_hdr type fixed unused version
                (stored_cid (h_dst_conn_id hdr0) (h_dst_conn_id h))
                (stored_cid (h_src_conn_id hdr0) (h_src_conn_id h)) payload).
Proof.
  intros [= <- <- <- <-] [= Hs Hk Hp Hr Htk]. unfold same_hdr.
  split; [|split; [apply same_stored_dst|split; [apply same_stored_src|]]].
  - cbn [plain_hdr h_type h_spin_bit h_key_phase h_pn_len h_partial h_fixed h_unused
         h_reserved h_version]. rewrite (ho_partial h Hok). congruence.
  - unfold pn_bytes. cbn [plain_hdr h_pn_len h_pn h_token_len h_len].
    by rewrite Hp, !(ztake_le_zero 0), Htk, no_token, Hlen.
Qed.

Lemma hdr_bytes_plain :
  h_type h = QUIC_PKT_TYPE_RETRY \/ h_type h = QUIC_PKT_TYPE_VERSION_NEG ->
  h_token_len h = 0 ->
  hdr_bytes h
  = long_prefix (first_byte h) (h_version h) (h_dst_conn_id h) (h_src_conn_id h).
Proof.
  intros Ht Htk. unfold hdr_bytes, before_pn.
  destruct Ht as [-> | ->]; rewrite no_token by done; cbn; by rewrite !app_nil_r.
Qed.

Lemma retry_decodes :
  h_type h = QUIC_PKT_TYPE_RETRY -> h_token_len h = 0 ->
  QUIC_MIN_VALID_PKT_LEN_CRYPTO <= zlen (hdr_bytes h ++ payload) -> rest = [] ->
  decodes_to h payload rest hdr0.
Proof.
  intros Ht Htk Hl -> c. rewrite app_nil_r, Ht. cbn [ossl_quic_pkt_type_has_pn].
  pose proof (ho_bits h Hok) as (_ & _ & _ & Hub).
  destruct (ho_fields h Hok) as [[E _] | [[E _] | [(_ & Hp & Hf & Hv & Hs & Hk & Hr)
    | [E _]]]]; try (rewrite Ht in E; done).
  destruct (first_byte_retry _ Hub) as ((Hb & H80 & H40) & Hbt & Hbu & _).
  assert (first_byte h = 128 + 64 + 16 * 3 + h_unused h) as Hfb
    by (unfold first_byte; by rewrite Ht, Hf).
  rewrite <- Hfb, hdr_bytes_plain, Hv in * by auto.
  eexists. split; [apply decode_retry_ok; try done; apply Hok|].
  split; [|done]. apply plain_same; congruence.
Qed.

Lemma version_neg_decodes :
  h_type h = QUIC_PKT_TYPE_VERSION_NEG -> rest = [] -> decodes_to h payload rest hdr0.
Proof.
  intros Ht -> c. rewrite app_nil_r, Ht. cbn [ossl_quic_pkt_type_has_pn].
  destruct (ho_fields h Hok) as [[E _] | [[E _] | [[E _]
    | (_ & Hp & Hu & Hv & Hs & Hk & Hr & Htk & Hm)]]]; try (rewrite Ht in E; done).
  assert (is_u8 (first_byte h) /\ Z.land (first_byte h) 0x80 <> 0
          /\ negb (Z.land (first_byte h) 0x40 =? 0) = h_fixed h) as (Hb & H80 & H40).
  { unfold first_byte. rewrite Ht, Hu. by destruct (h_fixed h). }
  rewrite hdr_bytes_plain, Hv by auto.
  eexists. split; [apply decode_version_neg_ok; try done; try apply Hok; by rewrite Hlen|].
  split; [|done]. apply plain_same; congruence.
Qed.

End RoundTrip.

(** Decoding the bytes of a well-formed header gives it back, with the payload
    after it. Only packets with a length field can be followed by others. *)
Lemma hdr_decodes h hdr0 payload rest :
  hdr_ok h -> cid_ok (h_dst_conn_id hdr0) -> cid_ok (h_src_conn_id hdr0) ->
  zlen payload = h_len h ->
  (ossl_quic_pkt_type_must_be_last (h_type h) = true -> rest = []) ->
  (h_type h = QUIC_PKT_TYPE_RETRY -> h_token_len h = 0) ->
  (h_type h <> QUIC_PKT_TYPE_VERSION_NEG ->
   QUIC_MIN_VALID_PKT_LEN_CRYPTO <= zlen (hdr_bytes h ++ payload ++ rest)) ->
  decodes_to h payload rest hdr0.
Proof.
  intros Hok Hd Hs Hl Hlast Hr Hmin.
  destruct (ho_fields h Hok) as [[E _] | [[E _] | [[E _] | [E _]]]].
  - rewrite E in *. specialize (Hlast eq_refl) as ->. rewrite app_nil_r in Hmin.
    by apply short_decodes; try apply Hmin.
  - apply numbered_decodes; try done. apply Hmin. intros E'. by rewrite E' in E.
  - rewrite E in *. specialize (Hlast eq_refl) as ->. rewrite app_nil_r in Hmin.
    apply retry_decodes; try done; [by apply Hr|by apply Hmin].
  - rewrite E in *. specialize (Hlast eq_refl) as ->. by apply version_neg_decodes.
Qed.

(** ** Lemmas: the encoder *)

(** [m] writes [bs] and returns [f] of the position at which it started, provided
    that there is space for [room] more bytes. *)
Definition emits_at {A} (room : Z) (m : M WS A) (bs : list Z) (f : Z -> A) : Prop :=
  forall w, ready w -> endfirst w = false -> written w + zlen bs + room <= wcap w ->
            total w m (fun a w' => appended w bs w' /\ a = f (written w)).

Section EmitsAt.
Context {A : Type} (room : Z) (Hroom : 0 <= room).

Lemma emits_at_bind {B} (m : M WS B) (k : B -> M WS A) bs cs f g :
  emits m false bs -> (forall b, emits_at room (k b) cs f) ->
  (forall n, g n = f (n + zlen bs)) -> emits_at room (bind m k) (bs ++ cs) g.
Proof using Hroom.
  intros Hm Hk Hg w Hr He Hcap. rewrite zlen_app in Hcap. pose proof (zlen_nonneg cs).
  eapply total_bind; [apply Hm; [done|done|lia]|]. cbv beta. intros b w' Ha.
  pose proof Ha as (_ & (Hkd & Hmx & He') & _ & Hw & _).
  eapply total_weaken; [apply Hk; [by eapply appended_ready|congruence|]|].
  - rewrite (wcap_frame w w') by apply Ha. lia.
  - cbv beta. intros a w'' [Ha' ->]. rewrite Hg, Hw. split; [|done].
    pose proof (appended_trans w bs w' cs w'' Hr Ha Ha') as Ht. by rewrite He in Ht.
Qed.

Lemma emits_at_ext (m : M WS A) bs f g :
  emits_at room m bs f -> (forall n, g n = f n) -> emits_at room m bs g.
Proof.
  intros Hm Hg w Hr He Hcap. eapply total_weaken; [by apply Hm|]. cbv beta. by setoid_rewrite Hg.
Qed.

Lemma emits_at_seq {B} (m : M WS B) (k : B -> M WS A) bs cs f :
  emits m false bs -> (forall b, emits_at room (k b) cs f) ->
  emits_at room (bind m k) (bs ++ cs) (fun n => f (n + zlen bs)).
Proof using Hroom. intros Hm Hk. by apply (emits_at_bind m k bs cs f). Qed.

Lemma emits_at_ret {B} (m : M WS B) (a : A) bs f :
  emits m false bs -> (forall n, f n = a) -> emits_at room (m ;;; ret a) bs f.
Proof using Hroom.
  intros Hm Hf w Hr He Hcap. eapply total_bind; [apply Hm; [done|done|lia]|]. cbv beta.
  intros b w' Ha. by apply total_ret.
Qed.

Lemma emits_at_pos (k : Z -> M WS A) bs g :
  (forall n, emits_at room (k n) bs (fun _ => g n)) -> emits_at room (bind total_written k) bs g.
Proof.
  intros Hk w Hr He Hcap. unfold total_written.
  apply (total_bind _ _ _ (fun n w' => n = written w /\ w' = w)).
  - by apply total_get, total_ret.
  - intros n w' [-> ->]. by apply Hk.
Qed.

Lemma emits_at_guard (b : bool) (m : M WS A) bs f :
  b = true -> emits_at room m bs f -> emits_at room (guard b ;;; m) bs f.
Proof. intros -> Hm. exact Hm. Qed.

End EmitsAt.

(** Reserving space for the payload writes nothing. *)
Lemma reserved_appended w len w' : reserved w len w' -> appended w [] w'.
Proof.
  intros (Hwf & Hf & Hs & Hw & Hc & _). split_and!; try done.
  - zsimpl. lia.
  - intros _. unfold cat. rewrite Hc. destruct (endfirst w); by rewrite ?app_nil_r.
Qed.

Lemma total_reserve_spec w len :
  ready w -> 0 < len -> written w + len <= wcap w ->
  total w (WPACKET_reserve_bytes len ;;; ret tt) (fun _ w' => reserved w len w').
Proof.
  intros (Hwf & _ & Hs) Hl Hcap. pose proof Hwf as (? & ? & _).
  assert (is_u64 len) by (unfold wcap in Hcap; case_match; ulia).
  eapply total_bind; [apply total_hoare; [by apply hoare_reserve|by apply total_reserve]|].
  cbv beta. intros p w' (_ & _ & Hres & _). by apply total_ret.
Qed.

Lemma emits_at_reserve {A} (k : M WS A) len bs f :
  0 <= len -> emits_at len k bs f ->
  emits_at len ((if len >? 0 then WPACKET_reserve_bytes len ;;; ret tt else ret tt) ;;; k) bs f.
Proof.
  intros Hl Hk w Hr He Hcap. pose proof (zlen_nonneg bs).
  destruct (Z.gtb_spec len 0) as [Hp|Hp]; [|by apply Hk].
  eapply total_bind; [apply total_reserve_spec; [done|lia|lia]|].
  cbv beta. intros _ w' Ha%reserved_appended. pose proof Ha as (_ & (_ & _ & He') & _ & Hw & _).
  rewrite zlen_nil in Hw.
  eapply total_weaken; [apply Hk; [by eapply appended_ready|congruence|]|].
  - rewrite (wcap_frame w w') by apply Ha. lia.
  - cbv beta. intros a w'' [Ha' ->]. rewrite Hw, Z.add_0_r. split; [|done].
    pose proof (appended_trans w [] w' bs w'' Hr Ha Ha') as Ht. by rewrite He in Ht.
Qed.

Lemma emits_memcpy_ptr h :
  h_token_len h = zlen (token_bytes h) ->
  emits (memcpy_ptr (h_token h) (h_token_len h)) false (token_bytes h).
Proof.
  intros ->. unfold memcpy_ptr, token_bytes. destruct (h_token h); simpl.
  - apply emits_memcpy.
  - zsimpl. apply emits_ret.
Qed.

Lemma emits_u32 v : 0 <= v < 4294967296 ->
  emits (WPACKET_put_bytes__ v 4) false (be_bytes 4 v).
Proof. intros Hv. apply (emits_put_bytes false v 4); lia. Qed.

Lemma emits_cid c :
  cid_ok c -> emits (WPACKET_memcpy (id c) (id_len c)) false (cid_bytes c).
Proof. intros [? ? _]. apply emits_memcpy_len. lia. Qed.

#[local] Hint Resolve emits_memcpy_ptr emits_u32 emits_cid : emits.

Lemma emits_pn h :
  hdr_ok h -> 0 <= h_pn_len h <= 4 ->
  emits (WPACKET_memcpy (h_pn h) (h_pn_len h)) false (pn_bytes h).
Proof. intros Hok Hn. apply emits_memcpy_len. rewrite (ho_pn h Hok). unfold SIZEOF_PN. lia. Qed.

Lemma encode_short_emits h :
  hdr_ok h -> h_type h = QUIC_PKT_TYPE_1RTT ->
  emits_at (h_len h) (encode_short_hdr (id_len (h_dst_conn_id h)) h) (hdr_bytes h)
    (fun n => n + zlen (before_pn h)).
Proof.
  intros Hok Ht. assert (0 <= h_len h) as Hlen by apply Hok. pose proof (ho_bits h Hok) as (Hs & Hk & Hr & _).
  pose proof (ho_dst h Hok) as Hd.
  destruct (ho_fields h Hok) as [(_ & Hn & Hf & _)
                                | [[Hn _]|[[Hn _]|[Hn _]]]]; try (rewrite Ht in Hn; done).
  destruct (first_byte_short _ _ _ _ Hs Hk Hr Hn) as ((Hb & _) & _ & _ & _ & _ & Hfb).
  assert (hdr_bytes h = [first_byte h] ++ cid_bytes (h_dst_conn_id h) ++ pn_bytes h) as ->.
  { unfold hdr_bytes. rewrite before_pn_short, Ht by done. done. }
  unfold encode_short_hdr. apply emits_at_guard; [destruct Hd; lia|]. cbv zeta. rewrite Hfb.
  assert (64 + 32 * h_spin_bit h + 8 * h_reserved h + 4 * h_key_phase h + (h_pn_len h - 1)
          = first_byte h) as E by (unfold first_byte; by rewrite Ht).
  rewrite E in *. rewrite before_pn_short, zlen_app by done.
  apply (emits_at_bind _ Hlen _ _ _ _ (fun n => n + zlen (cid_bytes (h_dst_conn_id h))));
    [by apply emits_u8|intros _|intros n; lia].
  apply (emits_at_bind _ Hlen _ _ _ _ (fun n => n)); [by apply emits_cid|intros _|done].
  apply emits_at_pos. intros n. apply emits_at_ret; [lia|apply emits_pn; [done|lia]|done].
Qed.

Lemma long_b0_ok h :
  hdr_ok h -> h_type h <> QUIC_PKT_TYPE_1RTT ->
  raw_pkt_type h = Some (type_bits (h_type h)) /\
  long_b0 h (type_bits (h_type h)) = first_byte h /\ is_u8 (first_byte h).
Proof.
  intros Hok Hne. pose proof (ho_bits h Hok) as (_ & _ & Hr & Hub). unfold raw_pkt_type, long_b0.
  destruct (ho_fields h Hok) as [[E _] | [(Ht & Hn & Hf & _) | [(Ht & Hp & Hf & Hv & _)
    | (Ht & Hp & Hu & Hv & _)]]]; [done| | |].
  - destruct (numbered_type_bits _ Ht) as [Hb _].
    destruct (first_byte_numbered _ _ _ Hb Hr Hn) as ((H1 & _) & _ & _ & _ & H2).
    assert (first_byte h = 128 + 64 + 16 * type_bits (h_type h)
                           + (4 * h_reserved h + (h_pn_len h - 1))) as ->.
    { unfold first_byte. rewrite Hf, Ht. by destruct (numbered_cases _ Ht) as [-> | [-> | ->]]. }
    split; [by destruct (numbered_cases _ Ht) as [-> | [-> | ->]]|]. split; [|done].
    rewrite <- H2. by destruct (numbered_cases _ Ht) as [-> | [-> | ->]].
  - destruct (first_byte_retry _ Hub) as ((H1 & _) & _ & _ & H2). unfold first_byte.
    rewrite Ht, Hf. done.
  - unfold first_byte. rewrite Ht, Hv, Hu. by destruct (h_fixed h).
Qed.

(** The fields that every long header starts with. *)
Lemma long_prefix_emits {A} room b0 version dst src (k : M WS A) bs f g :
  0 <= room -> is_u8 b0 -> 0 <= version < 4294967296 -> cid_ok dst -> cid_ok src ->
  emits_at room k bs f -> (forall n, g n = f (n + zlen (long_prefix b0 version dst src))) ->
  emits_at room
    (WPACKET_put_bytes__ b0 1 ;;;
     WPACKET_put_bytes__ version 4 ;;;
     WPACKET_put_bytes__ (id_len dst) 1 ;;;
     WPACKET_memcpy (id dst) (id_len dst) ;;;
     WPACKET_put_bytes__ (id_len src) 1 ;;;
     WPACKET_memcpy (id src) (id_len src) ;;; k)
    (long_prefix b0 version dst src ++ bs) g.
Proof.
  intros Hroom Hb Hv Hd Hs Hk Hg. unfold long_prefix. rewrite <- !app_assoc.
  pose proof (cid_len _ Hd). pose proof (cid_len _ Hs). unfold QUIC_MAX_CONN_ID_LEN in *.
  eapply emits_at_ext.
  - apply emits_at_seq; [done|by apply emits_u8|intros _].
    apply emits_at_seq; [done|by apply emits_u32|intros _].
    apply emits_at_seq; [done|apply emits_u8; lia|intros _].
    apply emits_at_seq; [done|by apply emits_cid|intros _].
    apply emits_at_seq; [done|apply emits_u8; lia|intros _].
    apply emits_at_seq; [done|by apply emits_cid|intros _; exact Hk].
  - intros n. rewrite Hg. unfold long_prefix. rewrite !zlen_app. f_equal. lia.
Qed.

(** What follows the connection ids of an Initial, 0-RTT or Handshake packet. *)
Lemma numbered_tail_emits h :
  hdr_ok h -> is_numbered (h_type h) = true ->
  emits_at (h_len h)
    ((if h_type h =? QUIC_PKT_TYPE_INITIAL then
        WPACKET_quic_write_vlint (h_token_len h) ;;; memcpy_ptr (h_token h) (h_token_len h)
      else ret tt) ;;;
     WPACKET_quic_write_vlint (u64 (h_len h + h_pn_len h)) ;;;
     let! off_pn := total_written in
     WPACKET_memcpy (h_pn h) (h_pn_len h) ;;; ret (Some off_pn))
    (token_field (h_type h) (token_bytes h) ++ vl (h_len h + h_pn_len h) ++ pn_bytes h)
    (fun n => Some (n + zlen (token_field (h_type h) (token_bytes h))
                    + zlen (vl (h_len h + h_pn_len h)))).
Proof.
  intros Hok Ht. pose proof (ho_len h Hok). pose proof (ho_token_len h Hok).
  pose proof (ho_token h Hok) as Htk. pose proof (zlen_nonneg (token_bytes h)).
  destruct (numbered_fields h Hok Ht) as (Hn & _). rewrite u64_id by lia.
  eapply emits_at_ext.
  - apply emits_at_seq; [lia| |intros _].
    { unfold token_field. destruct (h_type h =? QUIC_PKT_TYPE_INITIAL); [|apply emits_ret].
      rewrite <- Htk. emit. apply emits_vl. vlia. }
    apply emits_at_seq; [lia|apply emits_vl; vlia|intros _].
    apply (emits_at_pos _ _ _ Some). intros n.
    apply emits_at_ret; [lia|apply emits_pn; [done|lia]|done].
  - intros n. done.
Qed.

Lemma encode_long_emits h :
  hdr_ok h -> h_type h <> QUIC_PKT_TYPE_1RTT ->
  emits_at (h_len h) (encode_long_hdr h) (hdr_bytes h)
    (fun n => if ossl_quic_pkt_type_has_pn (h_type h) then Some (n + zlen (before_pn h)) else None).
Proof.
  intros Hok Hne. pose proof (ho_len h Hok). pose proof (ho_dst h Hok) as Hd.
  pose proof (ho_src h Hok) as Hs. destruct (long_b0_ok h Hok Hne) as (Hraw & Hb0 & Hb).
  unfold encode_long_hdr. apply emits_at_guard; [destruct Hd, Hs; lia|].
  rewrite Hraw, Hb0.
  destruct (ho_fields h Hok) as [[E _] | [(Ht & Hn & Hf & Hu & Hv & _) | [(Ht & Hp & Hf & Hv & _)
    | (Ht & Hp & Hu & Hv & _ & _ & _ & Htk & _)]]]; [done| | |].
  - destruct (numbered_fields h Hok Ht) as (_ & _ & _ & _ & _ & _ & _ & _ & Hhas).
    apply emits_at_guard; [lia|]. rewrite hdr_bytes_numbered, Hhas by (done || apply Hok).
    replace (h_type h =? QUIC_PKT_TYPE_VERSION_NEG) with false
      by (by destruct (numbered_cases _ Ht) as [-> | [-> | ->]]).
    replace (h_type h =? QUIC_PKT_TYPE_RETRY) with false
      by (by destruct (numbered_cases _ Ht) as [-> | [-> | ->]]).
    eapply long_prefix_emits; try done; try lia; [rewrite Hv; done|by apply numbered_tail_emits|].
    intros n. cbv beta. rewrite before_pn_numbered, !zlen_app by (done || apply Hok).
    f_equal. lia.
  - rewrite Ht. apply emits_at_guard; [done|]. cbn [Z.eqb Pos.eqb QUIC_PKT_TYPE_RETRY
      QUIC_PKT_TYPE_VERSION_NEG QUIC_PKT_TYPE_INITIAL ossl_quic_pkt_type_has_pn
      ossl_quic_pkt_type_is_encrypted orb].
    rewrite hdr_bytes_retry by done. rewrite <- (app_nil_l (token_bytes h)).
    eapply (long_prefix_emits _ _ _ _ _ _ _ (fun _ => None)); try done; try lia; [by rewrite Hv|].
    apply (emits_at_bind _ (proj1 H) _ _ _ _ (fun _ => None)); [apply emits_ret|intros _|done].
    apply emits_at_ret; [lia|apply emits_memcpy_ptr, Hok|done].
  - rewrite Ht. apply emits_at_guard; [done|].
    rewrite hdr_bytes_plain, <- (app_nil_r (long_prefix _ _ _ _)) by auto.
    eapply (long_prefix_emits _ _ _ _ _ _ _ (fun _ => None)); try done; try lia.
    cbn [Z.eqb Pos.eqb QUIC_PKT_TYPE_VERSION_NEG]. apply emits_at_reserve; [lia|].
    exact (emits_at_ret _ (proj1 H) (ret tt) None [] _ (emits_ret false tt) (fun _ => eq_refl)).
Qed.

(** The pointers into the buffer, of a header written at [o]. *)
Definition hdr_ptrs (h : QUIC_PKT_HDR) (o : Z) : QUIC_PKT_HDR_PTRS :=
  let off := o + zlen (before_pn h) in
  mkPtrs (Some o) (Some (off + 4)) (u64 (zlen (hdr_bytes h) + h_len h - (zlen (before_pn h) + 4)))
    (Some off).

Lemma get_curr_static w :
  wf w -> staticbuf w <> None -> endfirst w = false -> WPACKET_get_curr w = Some (written w).
Proof.
  intros (_ & _ & Hc & _) Hs He. unfold WPACKET_get_curr, GETBUF.
  destruct (staticbuf w); [|done]. by rewrite He, Hc.
Qed.

Lemma frame_static w w' : WPacket.frame w w' -> staticbuf w <> None -> staticbuf w' <> None.
Proof.
  intros (Hk & _ & _). unfold kind in Hk. intros Hs E. rewrite E in Hk.
  destruct (staticbuf w); [|done]. simpl in Hk. congruence.
Qed.

Lemma total_reserve_payload w len :
  ready w -> 0 <= len -> written w + len <= wcap w ->
  total w (if len >? 0 then WPACKET_reserve_bytes len ;;; ret tt else ret tt)
    (fun _ w' => appended w [] w').
Proof.
  intros Hr Hl Hcap. destruct (Z.gtb_spec len 0).
  - eapply total_weaken; [by apply total_reserve_spec|]. cbv beta. intros _ w'. apply reserved_appended.
  - apply total_ret. destruct Hr as (? & _ & _). split_and!; try done; [zsimpl; lia|].
    intros _. unfold cat. destruct (endfirst w); by rewrite ?app_nil_r.
Qed.

Lemma encode_either_emits h :
  hdr_ok h ->
  emits_at (h_len h)
    (if h_type h =? QUIC_PKT_TYPE_1RTT then
       let! off_pn := encode_short_hdr (id_len (h_dst_conn_id h)) h in ret (Some off_pn)
     else encode_long_hdr h) (hdr_bytes h)
    (fun n => if ossl_quic_pkt_type_has_pn (h_type h) then Some (n + zlen (before_pn h)) else None).
Proof.
  intros Hok. destruct (Z.eqb_spec (h_type h) QUIC_PKT_TYPE_1RTT) as [E|E];
    [|by apply encode_long_emits].
  rewrite E. intros w Hr He Hcap. eapply total_bind; [by apply encode_short_emits|].
  cbv beta. intros off w' [Ha ->]. by apply total_ret.
Qed.

(** Encoding a well-formed header writes its bytes, leaves space for the payload
    and points at the packet number. *)
Lemma encode_pkt_hdr_ok h w (want_ptrs : bool) :
  hdr_ok h -> ready w -> endfirst w = false -> (want_ptrs = true -> staticbuf w <> None) ->
  written w + zlen (hdr_bytes h) + h_len h <= wcap w ->
  total w (ossl_quic_wire_encode_pkt_hdr (id_len (h_dst_conn_id h)) h want_ptrs) (fun ptrs w' =>
    appended w (hdr_bytes h) w'
    /\ ptrs = if want_ptrs && ossl_quic_pkt_type_has_pn (h_type h) then hdr_ptrs h (written w)
              else mkPtrs None None 0 None).
Proof.
  intros Hok Hr He Hst Hcap. pose proof (ho_len h Hok) as Hlen.
  unfold ossl_quic_wire_encode_pkt_hdr. apply total_get. cbn [fst]. cbv zeta.
  apply total_guard.
  { destruct want_ptrs; [|done]. specialize (Hst eq_refl). by destruct (staticbuf w). }
  apply total_guard; [rewrite (ho_partial h Hok), Z.eqb_refl; simpl; by rewrite andb_false_r|].
  eapply total_bind; [by apply encode_either_emits|]. cbv beta.
  intros off w' [Ha ->]. destruct (ossl_quic_pkt_type_has_pn (h_type h)).
  2: { apply total_ret. split; [done|]. by rewrite andb_false_r. }
  pose proof Ha as (_ & Hf & _ & Hw & _).
  eapply total_bind; [apply total_reserve_payload;
    [by eapply appended_ready|lia|rewrite (wcap_frame w w') by done; lia]|].
  cbv beta. intros _ w'' Ha'. pose proof Ha' as (Hwf & Hf' & _ & Hw' & _).
  pose proof (appended_trans w _ w' _ w'' Hr Ha Ha') as Ht. rewrite He in Ht. simpl in Ht.
  rewrite app_nil_r in Ht. apply total_get, total_ret. split; [done|]. cbn [fst].
  destruct want_ptrs; [|done]. specialize (Hst eq_refl). destruct Hr as (Hwfw & _ & _).
  rewrite (get_curr_static w), (get_curr_static w'').
  2: exact Hwf. 3: { destruct Hf as (_ & _ & E1), Hf' as (_ & _ & E2). congruence. }
  2: { eapply frame_static; [|exact Hst]. by transitivity w'. }
  2-4: done.
  unfold WPACKET_get_total_written, ptr_add, hdr_ptrs. simpl. rewrite zlen_nil in Hw'.
  f_equal; f_equal; lia.
Qed.

Lemma zlen_long_prefix b0 v dst src :
  cid_ok dst -> cid_ok src -> zlen (long_prefix b0 v dst src) = 7 + id_len dst + id_len src.
Proof.
  intros Hd Hs. unfold long_prefix.
  rewrite !zlen_app, length_be_bytes, zlen_cid_bytes, zlen_cid_bytes by done. zsimpl. lia.
Qed.

(** The predicted length is the encoded one, except that the token that the
    encoder writes in a Retry packet is not counted. *)
Lemma encoded_len_ok h :
  hdr_ok h ->
  ossl_quic_wire_get_encoded_pkt_hdr_len (id_len (h_dst_conn_id h)) h
  = zlen (hdr_bytes h) - (if h_type h =? QUIC_PKT_TYPE_RETRY then h_token_len h else 0).
Proof.
  intros Hok. pose proof (ho_len h Hok). pose proof (ho_token h Hok) as Htk.
  pose proof (ho_token_len h Hok). pose proof (zlen_nonneg (token_bytes h)).
  pose proof (ho_dst h Hok) as Hd. pose proof (ho_src h Hok) as Hs.
  pose proof (cid_len _ Hd). pose proof (cid_len _ Hs).
  unfold QUIC_MAX_CONN_ID_LEN in *. unfold ossl_quic_wire_get_encoded_pkt_hdr_len.
  rewrite (ho_partial h Hok), Z.eqb_refl, andb_false_r. unfold QUIC_MAX_CONN_ID_LEN. cbn [orb negb].
  destruct (ho_fields h Hok) as [(Ht & Hn & _) | [(Ht & Hn & _) | [(Ht & Hp & _)
    | (Ht & Hp & _ & _ & _ & _ & _ & Htl & _)]]].
  - destruct (pn_bytes_stored h Hok ltac:(lia)) as [Hpl _]. unfold hdr_bytes.
    rewrite before_pn_short, Ht, zlen_app, zlen_app, zlen_cid_bytes by done. cbn -[Z.add Z.gtb Z.ltb].
    replace (id_len (h_dst_conn_id h) >? 20) with false by lia.
    replace (h_pn_len h <? 1) with false by lia. replace (h_pn_len h >? 4) with false by lia.
    rewrite Hpl. zsimpl. simpl. lia.
  - destruct (pn_bytes_stored h Hok ltac:(lia)) as [Hpl _].
    rewrite hdr_bytes_numbered by done.
    rewrite !zlen_app, zlen_long_prefix, Hpl, zlen_encode by (done || vlia).
    pose proof (encode_len_bounds (h_len h + h_pn_len h) ltac:(vlia)) as He.
    pose proof (encode_len_bounds (h_token_len h) ltac:(vlia)) as He'.
    replace (id_len (h_dst_conn_id h) >? 20) with false by lia.
    replace (id_len (h_src_conn_id h) >? 20) with false by lia.
    replace (h_pn_len h <? 1) with false by lia. replace (h_pn_len h >? 4) with false by lia.
    rewrite u64_id by vlia. rewrite andb_false_r. unfold token_field.
    replace (ossl_quic_vlint_encode_len (h_len h + h_pn_len h) =? 0) with false by lia.
    replace (ossl_quic_vlint_encode_len (h_token_len h) =? 0) with false by lia.
    rewrite andb_false_r.
    destruct (numbered_cases _ Ht) as [-> | [-> | ->]]; cbn -[Z.add u64 zlen];
      rewrite ?zlen_app, ?zlen_encode, <- ?Htk by vlia; rewrite !u64_id by (rewrite ?u64_id; lia);
      zsimpl; lia.
  - rewrite hdr_bytes_retry, zlen_app, zlen_long_prefix, Ht by done. cbn -[Z.add Z.gtb].
    replace (id_len (h_dst_conn_id h) >? 20) with false by lia.
    replace (id_len (h_src_conn_id h) >? 20) with false by lia. simpl. lia.
  - rewrite hdr_bytes_plain, zlen_long_prefix, Ht by auto. cbn -[Z.add Z.gtb].
    replace (id_len (h_dst_conn_id h) >? 20) with false by lia.
    replace (id_len (h_src_conn_id h) >? 20) with false by lia. simpl. lia.
Qed.

(** ** Decoding arbitrary bytes *)

#[export] Instance reader_pn_field partial n : Reader (decode_pn_field partial n).
Proof. unfold decode_pn_field. apply _. Qed.

#[export] Instance reader_short n partial hdr l b0 : Reader (decode_short_hdr n partial hdr l b0).
Proof. unfold decode_short_hdr. apply _. Qed.

#[export] Instance reader_conn_id old : Reader (decode_conn_id old).
Proof. unfold decode_conn_id. apply _. Qed.

#[export] Instance reader_long_v1 partial nodata l b0 version dst src :
  Reader (decode_long_v1 partial nodata l b0 version dst src).
Proof.
  unfold decode_long_v1, decode_token, decode_retry, decode_numbered. apply _.
Qed.

#[export] Instance reader_version_neg b0 version dst src :
  Reader (decode_version_neg b0 version dst src).
Proof. unfold decode_version_neg. apply _. Qed.

(** A computation on the decoder's state is memory safe. *)
Definition dec_safe {A} (m : M DS A) : Prop :=
  forall p c r p' c', m (p, c) = (r, (p', c')) -> r <> Ub /\ exists pre, p = pre ++ p'.

Lemma dec_safe_rd {A} (m : M PACKET A) : Reader m -> dec_safe (rd m).
Proof.
  intros Hm p c r p' c'. unfold rd, zoom. simpl. destruct (m p) as [r1 p1] eqn:E.
  intros [= <- <- _]. exact (Hm _ _ _ E).
Qed.

Lemma dec_safe_bind {A B} (m : M DS A) (k : A -> M DS B) :
  dec_safe m -> (forall a, dec_safe (k a)) -> dec_safe (bind m k).
Proof.
  intros Hm Hk p c r p' c'. unfold bind. destruct (m (p, c)) as [[a| |] [p1 c1]] eqn:E;
    apply Hm in E as [? [pre ->]].
  - intros E'. apply Hk in E' as [? [pre' ->]]. split; [done|]. exists (pre ++ pre').
    by rewrite app_assoc.
  - intros [= <- <- _]. eauto.
  - done.
Qed.

Lemma dec_safe_ret {A} (a : A) : dec_safe (ret a).
Proof. intros p c r p' c' [= <- <- _]. split; [done|]. by exists []. Qed.

Lemma dec_safe_fail {A} : dec_safe (@fail DS A).
Proof. intros p c r p' c' [= <- <- _]. split; [done|]. by exists []. Qed.

Lemma dec_safe_get : dec_safe (@get DS).
Proof. intros p c r p' c' [= <- <- _]. split; [done|]. by exists []. Qed.

Lemma dec_safe_guard b : dec_safe (@guard DS b).
Proof. destruct b; [apply dec_safe_ret|apply dec_safe_fail]. Qed.

Lemma dec_safe_cause c : dec_safe (set_fail_cause c).
Proof. intros p c0 r p' c' [= <- <- _]. split; [done|]. by exists []. Qed.

Create HintDb dec_safe.
#[local] Hint Resolve dec_safe_ret dec_safe_fail dec_safe_get dec_safe_guard dec_safe_cause : dec_safe.
#[local] Hint Extern 1 (dec_safe (rd _)) => (apply dec_safe_rd; apply _) : dec_safe.

Lemma decode_long_safe partial nodata hdr l b0 : dec_safe (decode_long_hdr partial nodata hdr l b0).
Proof.
  unfold decode_long_hdr. repeat (apply dec_safe_bind; [auto with dec_safe|intros]).
  repeat case_match; auto with dec_safe. repeat (apply dec_safe_bind; [auto with dec_safe|intros]).
  auto with dec_safe.
Qed.

Lemma decode_pkt_hdr_safe n partial nodata hdr :
  dec_safe (ossl_quic_wire_decode_pkt_hdr n partial nodata hdr).
Proof.
  unfold ossl_quic_wire_decode_pkt_hdr. do 4 (apply dec_safe_bind; [auto with dec_safe|intros]).
  apply dec_safe_bind; [case_match; [auto with dec_safe|apply decode_long_safe]|].
  intros [h pn]. cbv zeta. do 2 (apply dec_safe_bind; [auto with dec_safe|intros]).
  auto with dec_safe.
Qed.

Lemma forward_inv n p u p' :
  PACKET_forward n p = (Ok u, p') -> n <= zlen p /\ p' = zdrop n p.
Proof.
  unfold PACKET_forward, packet_forward, bind, get, PACKET_remaining, put, fail.
  decide_tests; intros; simplify_eq. split; [lia|done].
Qed.

Lemma copy_bytes_inv n p bs p' :
  0 <= n -> PACKET_copy_bytes n p = (Ok bs, p') -> n <= zlen p /\ bs = ztake n p /\ p' = zdrop n p.
Proof.
  intros Hn E. change (PACKET_copy_bytes n p) with (PACKET_get_bytes n p) in E.
  rewrite get_bytes_spec in E by done. destruct (Z.leb_spec n (zlen p)); [|done].
  by injection E as <- <-.
Qed.

Lemma pn_field_inv partial b0 p a p' :
  decode_pn_field partial (if partial then 0 else Z.land b0 0x03 + 1) p = (Ok a, p') ->
  0 <= pn_field_len partial b0 <= zlen p /\ p' = zdrop (pn_field_len partial b0) p.
Proof.
  unfold decode_pn_field, pn_field_len, SIZEOF_PN. intros E. mrun E. destruct partial; mrun E.
  - apply forward_inv in E0 as [? ->]. by injection E as _ <-.
  - assert (0 <= Z.land b0 3) by (apply Z.land_nonneg; lia).
    apply copy_bytes_inv in E0 as (? & -> & ->); [|lia]. injection E as _ <-. split; [lia|done].
Qed.

(** Where the packet number is, in a packet of [l] bytes of which [p'] remain. *)
Definition pn_located (partial : bool) (l : Z) (h : QUIC_PKT_HDR) (pn : option Z) (p' : PACKET)
  : Prop :=
  match pn with
  | None => ossl_quic_pkt_type_has_pn (h_type h) = false
  | Some off =>
      ossl_quic_pkt_type_has_pn (h_type h) = true /\ h_partial h = partial /\ 1 <= off
      /\ off + (if partial then 4 else h_pn_len h) + h_len h + zlen p' = l
      /\ 0 <= h_len h /\ (partial = false -> 1 <= h_pn_len h <= 4)
      /\ (exists d, h_data h = Some d /\ zlen d = h_len h + zlen p')
  end.

Lemma pn_bits_range b0 : 1 <= Z.land b0 0x03 + 1 <= 4.
Proof. rewrite (land_ones_mod b0 2 3 eq_refl) by lia. pose proof (Z.mod_pos_bound b0 (2 ^ 2)). lia. Qed.

Lemma decode_short_inv n partial hdr b0 p h pn p' :
  0 <= n -> decode_short_hdr n partial hdr (1 + zlen p) b0 p = (Ok (h, pn), p') ->
  pn_located partial (1 + zlen p) h pn p'.
Proof.
  intros Hn E. unfold decode_short_hdr in E. mrun E. cbv zeta in E. mrun E.
  destruct a, a0. apply guard_ok in E0 as [_ ->]. apply guard_ok in E1 as [_ ->].
  apply copy_bytes_inv in E2 as (Hc & -> & ->); [|done]. injection E3 as <- <-.
  apply pn_field_inv in E4 as (Hf & ->). injection E5 as <- <-.
  apply forward_inv in E6 as [_ ->]. injection E as <- <- <-.
  pose proof (pn_bits_range b0). pose proof (zlen_zdrop n p ltac:(lia)) as Hz.
  pose proof (zlen_zdrop _ _ Hf) as Hq. unfold PACKET_remaining.
  set (q := zdrop (pn_field_len partial b0) (zdrop n p)) in *. pose proof (zlen_nonneg q).
  pose proof (zlen_zdrop (zlen q) q ltac:(lia)) as Hq'. unfold pn_located.
  cbn [h_type h_partial h_len h_pn_len h_data]. unfold PACKET_data, pn_field_len, SIZEOF_PN in *.
  split_and!; try done; try (eexists; split; [done|]); destruct partial; lia.
Qed.

(** A reader does not lengthen the packet. *)
Lemma reader_len {A} (m : M PACKET A) `{!Reader m} p r p' : m p = (r, p') -> zlen p' <= zlen p.
Proof.
  intros E. pose proof (reader_suffix p r p' E) as (_ & pre & ->).
  rewrite zlen_app. pose proof (zlen_nonneg pre). lia.
Qed.

Lemma decode_numbered_inv partial b0 type version dst src token token_len l p h pn p' :
  is_numbered type = true -> 1 + zlen p <= l ->
  decode_numbered partial false l b0 type version dst src token token_len p = (Ok (h, pn), p') ->
  pn_located partial l h pn p'.
Proof.
  intros Ht Hl E. unfold decode_numbered in E. cbv zeta in E. mrun E. mrun E5.
  apply reader_len in E0; [|apply _]. destruct a0, a2.
  apply guard_ok in E1 as [Hg1 ->]. injection E2 as <- <-. apply guard_ok in E3 as [Hg2 ->].
  apply pn_field_inv in E4 as (Hf & ->). injection E6 as <- <-.
  apply forward_inv in E7 as [Hw ->]. injection E5 as <- <-. injection E as <- <- <-.
  pose proof (pn_bits_range b0). pose proof (zlen_zdrop _ _ Hf) as Hq.
  unfold PACKET_remaining, PACKET_data in *. unfold pn_located.
  cbn [h_type h_partial h_len h_pn_len h_data].
  unfold pn_field_len, SIZEOF_PN in *.
  split; [by destruct (numbered_cases _ Ht) as [-> | [-> | ->]]|].
  destruct partial; (split_and!; try done; try lia); try (eexists; split; [done|]);
    rewrite !zlen_zdrop by (rewrite ?zlen_zdrop; lia); lia.
Qed.

Lemma decode_long_v1_inv partial l b0 version dst src p h pn p' :
  1 + zlen p <= l ->
  decode_long_v1 partial false l b0 version dst src p = (Ok (h, pn), p') ->
  pn_located partial l h pn p'.
Proof.
  intros Hl E. unfold decode_long_v1 in E. mrun E. destruct a0 as [tok tlen].
  destruct a. apply guard_ok in E0 as [_ ->]. apply reader_len in E1;
    [|unfold decode_token; apply _].
  destruct (Z.eqb_spec (long_pkt_type (Z.land (Z.shiftr b0 4) 0x3)) QUIC_PKT_TYPE_RETRY) as [Er|Er].
  - unfold decode_retry in E. mrun E. injection E as <- <- _. done.
  - eapply decode_numbered_inv; cycle 2; [exact E| |lia].
    unfold long_pkt_type in *. repeat case_match; done.
Qed.

Lemma rd_inv {A} (m : M PACKET A) p c a s :
  rd m (p, c) = (Ok a, s) -> exists p', m p = (Ok a, p') /\ s = (p', c).
Proof.
  unfold rd, zoom. simpl. destruct (m p) as [r p1]. intros [= -> <-]. by exists p1.
Qed.

Lemma guard_inv {S} (b : bool) (s s' : S) u : guard b s = (Ok u, s') -> b = true /\ s' = s.
Proof. destruct u. apply guard_ok. Qed.

Lemma decode_long_inv partial hdr l b0 p c h pn s :
  1 + zlen p <= l ->
  decode_long_hdr partial false hdr l b0 (p, c) = (Ok (h, pn), s) ->
  pn_located partial l h pn (fst s) /\ snd s = c.
Proof.
  intros Hl E. unfold decode_long_hdr in E. mrun E. cbv zeta in E.
  apply rd_inv in E0 as (p0 & E0 & ->). apply reader_len in E0; [|apply _].
  apply guard_inv in E1 as [_ ->].
  apply rd_inv in E2 as (p2 & E2 & ->). apply reader_len in E2; [|apply _].
  apply rd_inv in E3 as (p3 & E3 & ->). apply reader_len in E3; [|apply _].
  destruct (u32 a =? 0) in E; [|destruct (negb (u32 a =? QUIC_VERSION_1)) in E].
  - apply rd_inv in E as (p4 & E & ->). unfold decode_version_neg in E. mrun E.
    injection E as <- <- _. done.
  - done.
  - apply rd_inv in E as (p4 & E & ->). split; [|done]. eapply decode_long_v1_inv; [|exact E]. lia.
Qed.

Lemma get_1_inv p b p' : PACKET_get_1 p = (Ok b, p') -> p = b :: p'.
Proof.
  unfold PACKET_get_1, PACKET_peek_1. destruct p as [|x p]; [done|].
  unfold byte_at, packet_forward, bind, get, put, ret, fail, undef, PACKET_remaining.
  pose proof (zlen_nonneg p). pose proof (zlen_cons x p). decide_tests.
  intros [= <- <-]. simpl. by rewrite zdrop_le_zero.
Qed.

Lemma decode_pkt_hdr_top n partial nodata hdr p c h ptrs s :
  ossl_quic_wire_decode_pkt_hdr n partial nodata hdr (p, c) = (Ok (h, ptrs), s) ->
  exists b0 p1 pn s1, p = b0 :: p1 /\ QUIC_MIN_VALID_PKT_LEN <= 1 + zlen p1
  /\ (if Z.land b0 0x80 =? 0 then rd (decode_short_hdr n partial hdr (1 + zlen p1) b0)
      else decode_long_hdr partial nodata hdr (1 + zlen p1) b0)
       (p1, QUIC_PKT_HDR_DECODE_DECODE_ERR) = (Ok (h, pn), s1)
  /\ ptrs = ptrs_of pn (1 + zlen p1)
  /\ s = (fst s1, mask_out (snd s1) QUIC_PKT_HDR_DECODE_DECODE_ERR).
Proof.
  intros E. unfold ossl_quic_wire_decode_pkt_hdr in E. rewrite bind_get in E.
  cbn [fst] in E. cbv zeta in E. rewrite bind_cause in E.
  apply bind_ok_inv in E as (u & t0 & E0 & E). apply guard_inv in E0 as [Hg ->].
  apply bind_ok_inv in E as (b0 & t1 & E1 & E). apply rd_inv in E1 as (p1 & E1 & ->).
  apply get_1_inv in E1 as ->. apply bind_ok_inv in E as ([h1 pn] & t2 & E2 & E).
  unfold PACKET_remaining in *. rewrite zlen_cons in *.
  rewrite bind_get in E. destruct t2 as [p2 c2]. rewrite bind_cause in E. injection E as <- <- <-.
  exists b0, p1, pn, (p2, c2). split_and!; try done. lia.
Qed.

(** A successful decode, of whatever bytes: the causes of failure are cleared and
    the pointers locate the packet number inside the packet. *)
Lemma decode_pkt_hdr_inv n partial hdr p c h ptrs s :
  0 <= n -> ossl_quic_wire_decode_pkt_hdr n partial false hdr (p, c) = (Ok (h, ptrs), s) ->
  exists pn, ptrs = ptrs_of pn (zlen p) /\ pn_located partial (zlen p) h pn (fst s) /\ snd s = 0.
Proof.
  intros Hn E. apply decode_pkt_hdr_top in E as (b0 & p1 & pn & s1 & -> & _ & E & -> & ->).
  rewrite zlen_cons. exists pn. split; [done|].
  assert (pn_located partial (1 + zlen p1) h pn (fst s1)
          /\ snd s1 = QUIC_PKT_HDR_DECODE_DECODE_ERR) as [Hpn Hc].
  { destruct (Z.land b0 0x80 =? 0).
    - apply rd_inv in E as (p2 & E & ->). split; [by eapply decode_short_inv|done].
    - eapply decode_long_inv; [|exact E]. lia. }
  cbn [fst snd]. by rewrite Hc.
Qed.

(** ** The demultiplexer's shortcut *)

Lemma conn_id_inv old p c p' :
  Forall is_u8 p -> decode_conn_id old p = (Ok c, p') ->
  exists n q, p = n :: q /\ is_u8 n /\ n <= QUIC_MAX_CONN_ID_LEN /\ n <= zlen q
  /\ c = mkConnId (u8 n) (write_at 0 (ztake n q) (id old)) /\ p' = zdrop n q.
Proof.
  intros Hp E. unfold decode_conn_id in E. mrun E. apply get_1_inv in E0 as ->.
  apply Forall_cons_1 in Hp as [Hn Hq]. apply guard_inv in E1 as [Hg ->].
  apply copy_bytes_inv in E2 as (? & -> & ->); [|ulia]. injection E as <- <-.
  exists a, s. split_and!; try done. lia.
Qed.

Lemma get_net_4_inv p v p' :
  Forall is_u8 p -> PACKET_get_net_4 p = (Ok v, p') ->
  exists a b c d, p = a :: b :: c :: d :: p' /\ v = be_value [a; b; c; d]
  /\ Forall is_u8 [a; b; c; d] /\ Forall is_u8 p'.
Proof.
  intros Hp E. rewrite get_net_4_net in E by done. unfold net_read in E.
  destruct (Z.leb_spec 4 (zlen p)); [|done]. do 4 take_byte p Hp.
  rewrite (ztake_app_exact [z; z0; z1; z2] p : ztake 4 (z :: z0 :: z1 :: z2 :: p) = _),
    (zdrop_app_exact [z; z0; z1; z2] p : zdrop 4 (z :: z0 :: z1 :: z2 :: p) = _) in E.
  injection E as <- <-. exists z, z0, z1, z2. split_and!; try done.
  repeat (constructor; [done|]). constructor.
Qed.

Lemma be_value_4_zero a b c d :
  Forall is_u8 [a; b; c; d] -> 
  negb (a =? 0) || negb (b =? 0) || negb (c =? 0) || negb (d =? 0) = negb (be_value [a; b; c; d] =? 0).
Proof.
  intros Hb. cbn [be_value]. zsimpl. decompose_Forall_hyps. unfold is_u8, U8_MOD in *. lia.
Qed.

Lemma long_v1_dst partial nodata l b0 version dst src p h pn p' :
  decode_long_v1 partial nodata l b0 version dst src p = (Ok (h, pn), p') ->
  h_dst_conn_id h = dst /\ h_type h <> QUIC_PKT_TYPE_1RTT.
Proof.
  intros E. unfold decode_long_v1 in E. mrun E. destruct a0 as [tok tlen].
  destruct (_ =? QUIC_PKT_TYPE_RETRY) in E.
  - unfold decode_retry in E. mrun E. by injection E as <- _ _.
  - unfold decode_numbered in E. mrun E. injection E as <- _ _. split; [done|].
    unfold long_pkt_type. simpl. repeat case_match; done.
Qed.

Lemma long_dst partial nodata l b0 version dst src s0 h pn s :
  (if version =? 0 then rd (decode_version_neg b0 version dst src)
   else if negb (version =? QUIC_VERSION_1) then
     let! s := get in
     set_fail_cause (Z.lor (snd s) QUIC_PKT_HDR_DECODE_BAD_VERSION) ;;; fail
   else rd (decode_long_v1 partial nodata l b0 version dst src)) s0 = (Ok (h, pn), s) ->
  h_dst_conn_id h = dst /\ h_type h <> QUIC_PKT_TYPE_1RTT.
Proof.
  destruct s0 as [p c]. intros E.
  destruct (version =? 0) in E; [|destruct (negb (version =? QUIC_VERSION_1)) in E; [done|]].
  - apply rd_inv in E as (p' & E & _). unfold decode_version_neg in E. mrun E.
    by injection E as <- _ _.
  - apply rd_inv in E as (p' & E & _). by apply long_v1_dst in E.
Qed.

Lemma decode_long_dst partial nodata hdr l b0 p c h pn s :
  Forall is_u8 p -> decode_long_hdr partial nodata hdr l b0 (p, c) = (Ok (h, pn), s) ->
  exists v0 v1 v2 v3 n q, p = v0 :: v1 :: v2 :: v3 :: n :: q
  /\ is_u8 n /\ n <= QUIC_MAX_CONN_ID_LEN /\ n + 1 <= zlen q
  /\ (negb (v0 =? 0) || negb (v1 =? 0) || negb (v2 =? 0) || negb (v3 =? 0))
     && (Z.land b0 0x40 =? 0) = false
  /\ h_dst_conn_id h = mkConnId (u8 n) (write_at 0 (ztake n q) (id (h_dst_conn_id hdr)))
  /\ h_type h <> QUIC_PKT_TYPE_1RTT.
Proof.
  intros Hp E. unfold decode_long_hdr in E. mrun E. cbv zeta in E.
  apply rd_inv in E0 as (p0 & E0 & ->).
  apply get_net_4_inv in E0 as (v0 & v1 & v2 & v3 & -> & -> & Hv & Hp0); [|done].
  apply guard_inv in E1 as [Hg ->]. rewrite <- be_value_4_zero in Hg by done.
  apply rd_inv in E2 as (p2 & E2 & ->).
  apply conn_id_inv in E2 as (n & q & -> & Hn & Hn' & Hq & -> & ->); [|done].
  apply rd_inv in E3 as (p3 & E3 & ->). apply Forall_cons_1 in Hp0 as [_ Hq8].
  apply conn_id_inv in E3 as (m & q' & Hq' & _); [|rewrite zdrop_drop; by apply Forall_drop].
  apply long_dst in E as [-> Ht]. exists v0, v1, v2, v3, n, q. split_and!; try done.
  - pose proof (zlen_zdrop n q ltac:(ulia)) as Hz. rewrite Hq', zlen_cons in Hz.
    pose proof (zlen_nonneg q'). lia.
  - by apply negb_true_iff in Hg.
Qed.

Lemma decode_short_dst n partial hdr l b0 p h pn p' :
  0 <= n -> decode_short_hdr n partial hdr l b0 p = (Ok (h, pn), p') ->
  n <= QUIC_MAX_CONN_ID_LEN /\ Z.land b0 0x40 <> 0 /\ n <= zlen p
  /\ h_dst_conn_id h = mkConnId (u8 n) (write_at 0 (ztake n p) (id (h_dst_conn_id hdr)))
  /\ h_type h = QUIC_PKT_TYPE_1RTT /\ pn = Some (l - (zlen p - n)).
Proof.
  intros Hn E. unfold decode_short_hdr in E. mrun E. cbv zeta in E. mrun E.
  apply guard_inv in E0 as [Hg ->]. apply guard_inv in E1 as [Hg' ->].
  apply copy_bytes_inv in E2 as (Hc & -> & ->); [|done]. injection E3 as <- <-.
  injection E as <- <- _. unfold PACKET_remaining. rewrite zlen_zdrop by lia.
  split_and!; try done; lia.
Qed.

(** C38: The demultiplexer, which looks only at the start of a datagram, reads the
    destination connection id that the decoder reads: on every packet that the
    decoder accepts and that is long enough for header protection to be removed. *)
Theorem quic_demux_dcid n nodata hdr p c h ptrs s :
  Forall is_u8 p -> 0 <= n <= QUIC_MAX_CONN_ID_LEN ->
  ossl_quic_wire_decode_pkt_hdr n true nodata hdr (p, c) = (Ok (h, ptrs), s) ->
  (h_type h = QUIC_PKT_TYPE_1RTT -> 16 <= raw_sample_len ptrs) ->
  ossl_quic_wire_get_pkt_hdr_dst_conn_id p n (h_dst_conn_id hdr) = Some (h_dst_conn_id h).
Proof.
  intros Hp Hn E Hs. apply decode_pkt_hdr_top in E as (b0 & p1 & pn & s1 & -> & Hl & E & -> & _).
  apply Forall_cons_1 in Hp as [_ Hp]. unfold ossl_quic_wire_get_pkt_hdr_dst_conn_id.
  rewrite zlen_cons. replace (1 + zlen p1 <? QUIC_MIN_VALID_PKT_LEN) with false by lia.
  replace (n >? QUIC_MAX_CONN_ID_LEN) with false by lia. cbn [orb]. cbv zeta.
  change (znth 0 (b0 :: p1)) with b0. destruct (Z.land b0 0x80 =? 0); cbn [negb].
  - apply rd_inv in E as (p2 & E & ->). pose proof (decode_short_inv _ _ _ _ _ _ _ _ (proj1 Hn) E) as Hloc.
    apply decode_short_dst in E as (_ & Hf & Hz & -> & Ht & ->); [|lia].
    destruct Hloc as (_ & _ & _ & Hoff & Hlen & _). specialize (Hs Ht). cbn in Hs.
    pose proof (zlen_nonneg (fst (p2, QUIC_PKT_HDR_DECODE_DECODE_ERR))). cbn [fst] in *.
    assert (16 <= zlen p1 - n - 4).
    { etransitivity; [exact Hs|]. unfold u64, U64_MOD.
      etransitivity; [apply Z.mod_le; lia|lia]. }
    replace (Z.land b0 0x40 =? 0) with false by lia.
    unfold QUIC_MIN_VALID_PKT_LEN_CRYPTO.
    replace (1 + zlen p1 <? 21 + n) with false by lia.
    by rewrite (zdrop_app_exact [b0] p1 : zdrop 1 (b0 :: p1) = p1).
  - apply decode_long_dst in E as (v0 & v1 & v2 & v3 & m & q & -> & Hm & Hm' & Hq & Hg & -> & _);
      [|done].
    set (buf := b0 :: v0 :: v1 :: v2 :: v3 :: m :: q).
    change (znth 1 buf) with v0. change (znth 2 buf) with v1. change (znth 3 buf) with v2.
    change (znth 4 buf) with v3. change (znth 5 buf) with m. rewrite Hg.
    replace (m >? QUIC_MAX_CONN_ID_LEN) with false by lia. rewrite !zlen_cons.
    unfold QUIC_MIN_VALID_PKT_LEN, QUIC_MIN_VALID_PKT_LEN_VERSION_NEG.
    replace (_ <? 7 + m) with false by lia.
    by rewrite (zdrop_app_exact [b0; v0; v1; v2; v3; m] q : zdrop 6 buf = q).
Qed.

(** ** The theorems *)

(** What the decoder makes of a header. It cannot tell the token of a Retry packet
    from the integrity tag that follows it, and reports both as the payload. *)
Definition received (h : QUIC_PKT_HDR) : QUIC_PKT_HDR :=
  if h_type h =? QUIC_PKT_TYPE_RETRY then
    mkPktHdr (h_type h) (h_spin_bit h) (h_key_phase h) (h_pn_len h) (h_partial h) (h_fixed h)
      (h_unused h) (h_reserved h) (h_version h) (h_dst_conn_id h) (h_src_conn_id h) (h_pn h)
      None 0 (h_len h + h_token_len h) (h_data h)
  else h.

(** The token of a Retry packet; the other types have theirs in the header. *)
Definition retry_token (h : QUIC_PKT_HDR) : list Z :=
  if h_type h =? QUIC_PKT_TYPE_RETRY then token_bytes h else [].

Lemma received_id h : h_type h <> QUIC_PKT_TYPE_RETRY -> received h = h /\ retry_token h = [].
Proof. intros Ht. unfold received, retry_token. by replace (h_type h =? QUIC_PKT_TYPE_RETRY) with false by lia. Qed.

Lemma received_type h : h_type (received h) = h_type h /\ h_dst_conn_id (received h) = h_dst_conn_id h.
Proof. unfold received. by case_match. Qed.

Lemma received_bytes h :
  hdr_ok h -> h_len h + h_token_len h < 2 ^ 61 ->
  hdr_ok (received h) /\ hdr_bytes h = hdr_bytes (received h) ++ retry_token h
  /\ h_len (received h) = zlen (retry_token h) + h_len h
  /\ (h_type (received h) = QUIC_PKT_TYPE_RETRY -> h_token_len (received h) = 0).
Proof.
  intros Hok Hl. destruct (Z.eq_dec (h_type h) QUIC_PKT_TYPE_RETRY) as [Ht|Ht].
  - pose proof (zlen_nonneg (token_bytes h)). destruct Hok as [? ? ? ? ? Hk ? ? ? ? Hf].
    unfold received, retry_token. replace (h_type h =? _) with true by lia.
    split_and!; [|clear Hf|cbn; lia|done].
    + constructor; try done; [cbn; lia|].
      right; right; left. destruct Hf as [[Hn _]|[[Hn _]|[Hf|[Hn _]]]]; try done;
        by rewrite Ht in Hn.
    + unfold hdr_bytes, before_pn, first_byte. cbn. rewrite Ht. cbn. by rewrite !app_nil_r.
  - destruct (received_id h Ht) as [-> ->]. split_and!; try done. by rewrite app_nil_r.
Qed.

(** C25: Whatever header a sender describes, the encoder writes, and the decoder gives
    back: the same header, and the payload that was put after it. The header takes
    exactly the number of bytes that was predicted, and the payload has the length
    that was announced, except that a Retry token is predicted not at all and comes
    back in front of the payload. The decoder takes no packet of fewer than 21
    bytes, version negotiation apart. *)
Theorem quic_pkt_hdr_roundtrip h hdr0 w payload rest :
  hdr_ok h -> cid_ok (h_dst_conn_id hdr0) -> cid_ok (h_src_conn_id hdr0) ->
  ready w -> endfirst w = false ->
  written w + zlen (hdr_bytes h) + h_len h <= wcap w ->
  zlen payload = h_len h -> h_len h + h_token_len h < 2 ^ 61 ->
  (ossl_quic_pkt_type_must_be_last (h_type h) = true -> rest = []) ->
  (h_type h <> QUIC_PKT_TYPE_VERSION_NEG ->
   QUIC_MIN_VALID_PKT_LEN_CRYPTO <= zlen (hdr_bytes h ++ payload ++ rest)) ->
  total w (ossl_quic_wire_encode_pkt_hdr (id_len (h_dst_conn_id h)) h false) (fun _ w' =>
    exists bs, appended w bs w'
    /\ zlen bs = ossl_quic_wire_get_encoded_pkt_hdr_len (id_len (h_dst_conn_id h)) h
                 + zlen (retry_token h)
    /\ forall c, exists h' ptrs,
         ossl_quic_wire_decode_pkt_hdr (id_len (h_dst_conn_id h)) false false hdr0
           (bs ++ payload ++ rest, c) = (Ok (h', ptrs), (rest, 0))
         /\ same_hdr (received h) h' /\ h_data h' = Some (retry_token h ++ payload ++ rest)).
Proof.
  intros Hok Hd Hs Hr He Hcap Hl Hsum Hlast Hmin.
  eapply total_weaken; [by apply encode_pkt_hdr_ok|]. cbv beta.
  intros _ w' [Ha _]. exists (hdr_bytes h). split; [done|]. split.
  - rewrite encoded_len_ok by done. unfold retry_token. pose proof (ho_token h Hok).
    case_match; [lia|]. change (zlen []) with 0. lia.
  - intros c. destruct (received_bytes h Hok Hsum) as (Hok' & Hb & Hl' & Hretry).
    destruct (received_type h) as [Ht Hi]. rewrite Hb, <- app_assoc.
    destruct (hdr_decodes (received h) hdr0 (retry_token h ++ payload) rest Hok' Hd Hs)
      with (c := c) as (h' & E & Hsame & Hdata); rewrite ?Ht; try done.
    + rewrite zlen_app. lia.
    + by rewrite <- Ht.
    + intros Hv. specialize (Hmin Hv). rewrite Hb, <- app_assoc in Hmin. by rewrite <- app_assoc.
    + rewrite Hi, <- !app_assoc in E. rewrite <- app_assoc in Hdata. eauto.
Qed.

(** The encoded length is the predicted one plus, in a Retry packet, its token. *)
Theorem quic_pkt_hdr_len h w :
  hdr_ok h -> ready w -> endfirst w = false ->
  written w + zlen (hdr_bytes h) + h_len h <= wcap w ->
  total w (ossl_quic_wire_encode_pkt_hdr (id_len (h_dst_conn_id h)) h false) (fun _ w' =>
    written w' = written w + ossl_quic_wire_get_encoded_pkt_hdr_len (id_len (h_dst_conn_id h)) h
                 + (if h_type h =? QUIC_PKT_TYPE_RETRY then h_token_len h else 0)).
Proof.
  intros Hok Hr He Hcap. eapply total_weaken; [by apply encode_pkt_hdr_ok|]. cbv beta.
  intros _ w' [(_ & _ & _ & -> & _) _]. rewrite encoded_len_ok by done. lia.
Qed.

(** Removing header protection from a datagram starts with a partial decode of
    whatever bytes arrived. It reads only the packet, and when it succeeds and the
    packet has a number, at least four bytes are at [raw_pn], the sample range is
    the rest of the datagram, and the payload begins after the four bytes. *)
Theorem quic_partial_decode_spec n hdr p c r p' c' :
  0 <= n -> zlen p < 2 ^ 64 ->
  ossl_quic_wire_decode_pkt_hdr n true false hdr (p, c) = (r, (p', c')) ->
  r <> Ub /\ (exists pre, p = pre ++ p')
  /\ forall h ptrs, r = Ok (h, ptrs) ->
     c' = 0 /\ raw_start ptrs = Some 0
     /\ match raw_pn ptrs with
        | None => ossl_quic_pkt_type_has_pn (h_type h) = false
        | Some off =>
            ossl_quic_pkt_type_has_pn (h_type h) = true /\ 1 <= off /\ off + 4 <= zlen p
            /\ raw_sample ptrs = Some (off + 4) /\ raw_sample_len ptrs = zlen p - (off + 4)
            /\ exists data, h_data h = Some data /\ zlen p - zlen data = off + 4
               /\ zlen data = h_len h + zlen p'
        end.
Proof.
  intros Hn Hp E. destruct (decode_pkt_hdr_safe _ _ _ _ _ _ _ _ _ E) as [Hub Hpre].
  split; [done|]. split; [done|]. intros h ptrs ->.
  apply decode_pkt_hdr_inv in E as (pn & -> & Hloc & Hc); [|done]. cbn [fst snd] in *.
  split; [done|]. destruct pn as [off|]; simpl; [|done]. split; [done|].
  destruct Hloc as (Hh & _ & Ho & Hl & Hlen & _ & d & Hd & Hz). pose proof (zlen_nonneg p').
  rewrite u64_id by lia. split_and!; try done; try lia. exists d. split_and!; [done|lia|lia].
Qed.
