(* ===== verification/HdrProt.v ===== *)
(** QUIC header protection and the Retry integrity tag: the parts of
    ssl/quic/quic_wire_pkt.c that use a cipher.

    The ciphers are reached through EVP, which dispatches to providers loaded at
    run time: the class [EVP] has its calls and [EVPLaws] what the code relies on.
    A packet is a byte buffer that the protector changes in place; pointers are
    offsets into it, and an access outside the buffer is the outcome [Ub]. *)

From stdpp Require Import base list numbers option strings.
From Stdlib Require Import ZArith Lia.
From S2P Require Import Prelude Vlint Packet WPacket Wire Frames PktHdr PktHdrTheory.

#[local] Open Scope cfun_scope.
#[local] Open Scope Z_scope.

(** ** The interface to EVP *)

Class EVP := {
  EVP_CIPHER : Type;
  EVP_CIPHER_CTX : Type;
  EVP_CIPHER_fetch : string -> option EVP_CIPHER;
  EVP_CIPHER_get_key_length : EVP_CIPHER -> Z;
  (** What EVP_CIPHER_CTX_new returns when it does not fail. *)
  EVP_CIPHER_CTX_empty : EVP_CIPHER_CTX;
  (** The cipher, the key and the IV are None for NULL. *)
  EVP_CipherInit_ex :
    EVP_CIPHER_CTX -> option EVP_CIPHER -> option (list Z) -> option (list Z) ->
    bool * EVP_CIPHER_CTX;
  (** With an output buffer: the output, or None on failure. *)
  EVP_CipherUpdate : EVP_CIPHER_CTX -> list Z -> option (list Z) * EVP_CIPHER_CTX;
  (** Without one: additional data, of the given length. *)
  EVP_CipherUpdate_aad : EVP_CIPHER_CTX -> list Z -> Z -> bool * EVP_CIPHER_CTX;
  EVP_CipherFinal_ex : EVP_CIPHER_CTX -> bool * EVP_CIPHER_CTX;
  (** EVP_CIPHER_CTX_ctrl with EVP_CTRL_AEAD_GET_TAG. *)
  EVP_CTRL_AEAD_GET_TAG : EVP_CIPHER_CTX -> Z -> option (list Z)
}.

(** ** Definitions: the header protector *)

Definition QUIC_HDR_PROT_CIPHER_AES_128 : Z := 1.
Definition QUIC_HDR_PROT_CIPHER_AES_256 : Z := 2.
Definition QUIC_HDR_PROT_CIPHER_CHACHA : Z := 3.

Section HdrProt.
Context `{E : EVP}.

Record QUIC_HDR_PROTECTOR := mkHpr {
  cipher_ctx : option EVP_CIPHER_CTX;
  cipher : option EVP_CIPHER;
  cipher_id : Z
}.

(** [switch (cipher_id)]. *)
Definition hdr_prot_cipher_name (cipher_id : Z) : option string :=
  if cipher_id =? QUIC_HDR_PROT_CIPHER_AES_128 then Some "AES-128-ECB"%string
  else if cipher_id =? QUIC_HDR_PROT_CIPHER_AES_256 then Some "AES-256-ECB"%string
  else if cipher_id =? QUIC_HDR_PROT_CIPHER_CHACHA then Some "ChaCha20"%string
  else None.

Definition ossl_quic_hdr_protector_cleanup (hpr : QUIC_HDR_PROTECTOR) : QUIC_HDR_PROTECTOR :=
  mkHpr None None (cipher_id hpr).

(** (returned value, the protector, the allocator). *)
Definition ossl_quic_hdr_protector_init (hpr : QUIC_HDR_PROTECTOR) (id : Z)
    (quic_hp_key : list Z) (quic_hp_key_len : Z) (o : oracle)
  : bool * QUIC_HDR_PROTECTOR * oracle :=
  match hdr_prot_cipher_name id with
  | None => (false, hpr, o)
  | Some cipher_name =>
      let (ok, o) := alloc o in
      if negb ok then (false, mkHpr None (cipher hpr) (cipher_id hpr), o)
      else
        match EVP_CIPHER_fetch cipher_name with
        | None => (false, ossl_quic_hdr_protector_cleanup hpr, o)
        | Some c =>
            if negb (quic_hp_key_len =? u64 (EVP_CIPHER_get_key_length c)) then
              (false, ossl_quic_hdr_protector_cleanup hpr, o)
            else
              let (ok, ctx) := EVP_CipherInit_ex EVP_CIPHER_CTX_empty (Some c)
                                 (Some quic_hp_key) None in
              if ok then (true, mkHpr (Some ctx) (Some c) id, o)
              else (false, ossl_quic_hdr_protector_cleanup hpr, o)
        end
  end.

(** The packet buffer and the protector. *)
Definition HS : Type := list Z * QUIC_HDR_PROTECTOR.

Definition load (p : option Z) : M HS Z :=
  let! s := get in
  match p with
  | Some q => if (0 <=? q) && (q <? zlen (fst s)) then ret (znth q (fst s)) else undef
  | None => undef
  end.

Definition store_byte (p : option Z) (b : Z) : M HS unit :=
  let! s := get in
  match p with
  | Some q => if (0 <=? q) && (q <? zlen (fst s))
              then put (write_at q [b] (fst s), snd s) else undef
  | None => undef
  end.

(** [n] bytes at [p]. *)
Definition read_bytes (p : option Z) (n : Z) : M HS (list Z) :=
  let! s := get in
  match p with
  | Some q => if (0 <=? q) && (q + n <=? zlen (fst s)) then ret (ztake n (zdrop q (fst s)))
              else undef
  | None => undef
  end.

Definition set_ctx (ctx : EVP_CIPHER_CTX) : M HS unit :=
  modify (fun s => (fst s, mkHpr (Some ctx) (cipher (snd s)) (cipher_id (snd s)))).

(** EVP calls on the protector's context; a NULL context makes them fail. *)
Definition hpr_init (iv : option (list Z)) : M HS unit :=
  let! s := get in
  match cipher_ctx (snd s) with
  | None => fail
  | Some ctx =>
      let (ok, ctx) := EVP_CipherInit_ex ctx None None iv in set_ctx ctx ;;; guard ok
  end.

(** The output goes to a buffer of [size] bytes. *)
Definition hpr_update (inp : list Z) (size : Z) : M HS (list Z) :=
  let! s := get in
  match cipher_ctx (snd s) with
  | None => fail
  | Some ctx =>
      let (out, ctx) := EVP_CipherUpdate ctx inp in
      set_ctx ctx ;;;
      match out with
      | None => fail
      | Some bs => if zlen bs <=? size then ret (write_at 0 bs (zrepeat 0 size)) else undef
      end
  end.

(** The five bytes of the mask. *)
Definition hdr_generate_mask (sample : option Z) (sample_len : Z) : M HS (list Z) :=
  let! s := get in
  let id := cipher_id (snd s) in
  if (id =? QUIC_HDR_PROT_CIPHER_AES_128) || (id =? QUIC_HDR_PROT_CIPHER_AES_256) then
    guard (negb (sample_len <? 16)) ;;;
    hpr_init None ;;;
    let! bs := read_bytes sample 16 in
    let! dst := hpr_update bs 16 in
    ret (ztake 5 dst)
  else if id =? QUIC_HDR_PROT_CIPHER_CHACHA then
    guard (negb (sample_len <? 16)) ;;;
    let! bs := read_bytes sample 16 in
    hpr_init (Some bs) ;;;
    hpr_update (zrepeat 0 5) 5
  else undef.

(** [for (i = 0; i < pn_len; ++i) pn_bytes[i] ^= mask[i + 1]]. *)
Fixpoint mask_pn (n : nat) (i : Z) (pn_bytes : option Z) (mask : list Z) : M HS unit :=
  match n with
  | O => ret tt
  | S n' =>
      let! b := load (ptr_add pn_bytes i) in
      store_byte (ptr_add pn_bytes i) (Z.lxor b (znth (i + 1) mask)) ;;;
      mask_pn n' (i + 1) pn_bytes mask
  end.

(** The first byte [b] with the bits that are protected masked: four of them in a
    long header, five in a short one. *)
Definition mask_first_byte (b m0 : Z) : Z :=
  Z.lxor b (Z.land m0 (if negb (Z.land b 0x80 =? 0) then 0xf else 0x1f)).

Definition ossl_quic_hdr_protector_decrypt_fields (sample : option Z) (sample_len : Z)
    (first_byte pn_bytes : option Z) : M HS unit :=
  let! mask := hdr_generate_mask sample sample_len in
  let! b := load first_byte in
  let b := mask_first_byte b (znth 0 mask) in
  store_byte first_byte b ;;;
  let pn_len := Z.land b 0x3 + 1 in
  mask_pn (Z.to_nat pn_len) 0 pn_bytes mask.

Definition ossl_quic_hdr_protector_encrypt_fields (sample : option Z) (sample_len : Z)
    (first_byte pn_bytes : option Z) : M HS unit :=
  let! mask := hdr_generate_mask sample sample_len in
  let! b := load first_byte in
  let pn_len := Z.land b 0x3 + 1 in
  mask_pn (Z.to_nat pn_len) 0 pn_bytes mask ;;;
  let! b := load first_byte in
  store_byte first_byte (mask_first_byte b (znth 0 mask)).

Definition ossl_quic_hdr_protector_decrypt (ptrs : QUIC_PKT_HDR_PTRS) : M HS unit :=
  ossl_quic_hdr_protector_decrypt_fields (raw_sample ptrs) (raw_sample_len ptrs)
    (raw_start ptrs) (raw_pn ptrs).

Definition ossl_quic_hdr_protector_encrypt (ptrs : QUIC_PKT_HDR_PTRS) : M HS unit :=
  ossl_quic_hdr_protector_encrypt_fields (raw_sample ptrs) (raw_sample_len ptrs)
    (raw_start ptrs) (raw_pn ptrs).

(** ** Definitions: the Retry integrity tag *)

Definition QUIC_RETRY_INTEGRITY_TAG_LEN : Z := 16.

Definition retry_integrity_key : list Z :=
  [0xbe; 0x0c; 0x69; 0x0b; 0x9f; 0x66; 0x57; 0x5a;
   0x1d; 0x76; 0x6b; 0x54; 0xe3; 0x68; 0xc8; 0x4e].

Definition retry_integrity_nonce : list Z :=
  [0x46; 0x15; 0x99; 0xd3; 0x5d; 0x63; 0x2b; 0xf2; 0x23; 0x98; 0x25; 0xbb].

(** Conversion to int. *)
Definition to_int (x : Z) : Z := let y := u32 x in if y <? 2 ^ 31 then y else y - 2 ^ 32.

(** [hdr2 = *hdr; hdr2.len = 0]. *)
Definition without_payload (h : QUIC_PKT_HDR) : QUIC_PKT_HDR :=
  mkPktHdr (h_type h) (h_spin_bit h) (h_key_phase h) (h_pn_len h) (h_partial h) (h_fixed h)
    (h_unused h) (h_reserved h) (h_version h) (h_dst_conn_id h) (h_src_conn_id h) (h_pn h)
    (h_token h) (h_token_len h) 0 (h_data h).

(** The pseudo-packet in [buf]; the result is its length. *)
Definition assemble_retry_pseudo_packet (hdr : QUIC_PKT_HDR) (dcid : QUIC_CONN_ID) : M WS Z :=
  WPACKET_init_static_len (zrepeat 0 128) 128 0 ;;;
  WPACKET_put_bytes__ (id_len dcid) 1 ;;;
  WPACKET_memcpy (id dcid) (id_len dcid) ;;;
  ossl_quic_wire_encode_pkt_hdr (id_len (h_dst_conn_id (without_payload hdr)))
    (without_payload hdr) false ;;;
  let! s := get in ret (WPACKET_get_total_written (fst s)).

(** The AEAD over two pieces of additional data and no plaintext. *)
Definition retry_aead (aad : list Z) (aad_len : Z) (body : list Z) (body_len : Z) (o : oracle)
  : option (list Z) :=
  match EVP_CIPHER_fetch "AES-128-GCM" with
  | None => None
  | Some c =>
      let (ok, _) := alloc o in
      if negb ok then None
      else
        let (ok, ctx) := EVP_CipherInit_ex EVP_CIPHER_CTX_empty (Some c)
                           (Some retry_integrity_key) (Some retry_integrity_nonce) in
        if negb ok then None
        else
          let (ok, ctx) := EVP_CipherUpdate_aad ctx aad (to_int aad_len) in
          if negb ok then None
          else
            let (ok, ctx) := EVP_CipherUpdate_aad ctx body (to_int body_len) in
            if negb ok then None
            else
              let (ok, ctx) := EVP_CipherFinal_ex ctx in
              if negb ok then None
              else EVP_CTRL_AEAD_GET_TAG ctx QUIC_RETRY_INTEGRITY_TAG_LEN
  end.

(** [wpkt] is the uninitialised packet on the stack. *)
Definition ossl_quic_calculate_retry_integrity_tag (hdr : QUIC_PKT_HDR)
    (client_initial_dcid : option QUIC_CONN_ID) (wpkt : WPACKET) (o : oracle) : res (list Z) :=
  if negb (h_type hdr =? QUIC_PKT_TYPE_RETRY) || (h_version hdr =? 0)
     || (h_len hdr <? QUIC_RETRY_INTEGRITY_TAG_LEN) then Err
  else
    match h_data hdr, client_initial_dcid with
    | Some data, Some dcid =>
        if id_len dcid >? QUIC_MAX_CONN_ID_LEN then Err
        else
          match assemble_retry_pseudo_packet hdr dcid (wpkt, o) with
          | (Ok hdr_enc_len, (w, o)) =>
              if zlen data <? h_len hdr - QUIC_RETRY_INTEGRITY_TAG_LEN then Ub
              else
              match retry_aead (default [] (GETBUF w)) hdr_enc_len data
                      (u64 (h_len hdr - QUIC_RETRY_INTEGRITY_TAG_LEN)) o with
              | Some tag => Ok tag
              | None => Err
              end
          | (Err, _) => Err
          | (Ub, _) => Ub
          end
    | _, _ => Err
    end.

(** A NULL [hdr] is not modelled. *)
Definition ossl_quic_validate_retry_integrity_tag (hdr : QUIC_PKT_HDR)
    (client_initial_dcid : option QUIC_CONN_ID) (wpkt : WPACKET) (o : oracle) : res bool :=
  if h_len hdr <? QUIC_RETRY_INTEGRITY_TAG_LEN then Ok false
  else
    match ossl_quic_calculate_retry_integrity_tag hdr client_initial_dcid wpkt o with
    | Ok expected_tag =>
        let data := default [] (h_data hdr) in
        let actual_tag := zdrop (h_len hdr - QUIC_RETRY_INTEGRITY_TAG_LEN) data in
        if zlen data <? h_len hdr then Ub
        else Ok (CRYPTO_memcmp expected_tag actual_tag QUIC_RETRY_INTEGRITY_TAG_LEN =? 0)
    | Err => Ok false
    | Ub => Ub
    end.

End HdrProt.

(** ** What the code relies on *)

(** A block cipher in ECB mode is run on one block and without an IV, a stream
    cipher under an IV of 16 bytes. *)
Definition iv_ok (iv : option (list Z)) : Prop :=
  match iv with None => True | Some v => zlen v = 16 end.

Definition input_ok (iv : option (list Z)) (inp : list Z) : Prop :=
  match iv with None => zlen inp = 16 | Some _ => True end.

(** The header protection ciphers: a context that holds a cipher and a key can be
    restarted under an IV, and its output then depends on the cipher, the key, the
    IV and the input only, and has the length of the input. *)
Class HpCipherLaws (E : EVP) := {
  crypt : EVP_CIPHER -> list Z -> option (list Z) -> list Z -> list Z;
  keyed : EVP_CIPHER_CTX -> EVP_CIPHER -> list Z -> Prop;
  primed : EVP_CIPHER_CTX -> EVP_CIPHER -> list Z -> option (list Z) -> Prop;
  init_keyed ctx c k :
    zlen k = EVP_CIPHER_get_key_length c ->
    exists ctx', EVP_CipherInit_ex ctx (Some c) (Some k) None = (true, ctx') /\ keyed ctx' c k;
  init_primed ctx c k iv :
    keyed ctx c k -> iv_ok iv ->
    exists ctx', EVP_CipherInit_ex ctx None None iv = (true, ctx') /\ primed ctx' c k iv;
  update_crypt ctx c k iv inp :
    primed ctx c k iv -> input_ok iv inp ->
    exists ctx', EVP_CipherUpdate ctx inp = (Some (crypt c k iv inp), ctx') /\ keyed ctx' c k;
  crypt_len c k iv inp : zlen (crypt c k iv inp) = zlen inp;
  crypt_bytes c k iv inp : Forall is_u8 (crypt c k iv inp)
}.

(** AES-128-GCM as a message authentication code: the tag depends on the key, the
    nonce and the concatenation of the additional data. *)
Class RetryAeadLaws (E : EVP) := {
  aead_tag : list Z -> list Z -> list Z -> list Z;
  absorbing : EVP_CIPHER_CTX -> list Z -> list Z -> list Z -> Prop;
  gcm_cipher : EVP_CIPHER;
  gcm_fetch : EVP_CIPHER_fetch "AES-128-GCM"%string = Some gcm_cipher;
  gcm_init k n :
    zlen k = 16 -> zlen n = 12 ->
    exists ctx, EVP_CipherInit_ex EVP_CIPHER_CTX_empty (Some gcm_cipher) (Some k) (Some n)
                = (true, ctx) /\ absorbing ctx k n [];
  gcm_update ctx k n a bs len :
    absorbing ctx k n a -> 0 <= len <= zlen bs ->
    exists ctx', EVP_CipherUpdate_aad ctx bs len = (true, ctx')
                 /\ absorbing ctx' k n (a ++ ztake len bs);
  gcm_final ctx k n a :
    absorbing ctx k n a ->
    exists ctx', EVP_CipherFinal_ex ctx = (true, ctx')
                 /\ EVP_CTRL_AEAD_GET_TAG ctx' QUIC_RETRY_INTEGRITY_TAG_LEN = Some (aead_tag k n a);
  aead_tag_len k n a : zlen (aead_tag k n a) = QUIC_RETRY_INTEGRITY_TAG_LEN;
  aead_tag_bytes k n a : Forall is_u8 (aead_tag k n a)
}.

(** ** Lemmas: memory *)

Lemma znth_slice i q n (l : list Z) :
  0 <= i < n -> 0 <= q -> znth i (ztake n (zdrop q l)) = znth (q + i) l.
Proof. intros. rewrite znth_ztake by lia. apply znth_zdrop; lia. Qed.

(** Two buffers that agree on a range have the same bytes there. *)
Lemma slice_ext q n (l k : list Z) :
  0 <= q -> 0 <= n -> q + n <= zlen l -> zlen k = zlen l ->
  (forall j, q <= j < q + n -> znth j k = znth j l) ->
  ztake n (zdrop q k) = ztake n (zdrop q l).
Proof.
  intros Hq Hn Hl Hk Hj. apply znth_ext.
  - rewrite !zlen_ztake; rewrite ?zlen_zdrop by lia; lia.
  - intros i Hi. rewrite zlen_ztake in Hi by (rewrite zlen_zdrop; lia).
    rewrite !znth_slice by lia. apply Hj. lia.
Qed.

(** Masking with [x] leaves the bits outside [x]. *)
Lemma land_lxor_land b m x k :
  Z.land x k = 0 -> Z.land (Z.lxor b (Z.land m x)) k = Z.land b k.
Proof.
  intros Hx. apply Z.bits_inj'. intros i Hi. apply (f_equal (fun z => Z.testbit z i)) in Hx.
  rewrite Z.land_spec, Z.bits_0 in Hx. rewrite !Z.land_spec, Z.lxor_spec, Z.land_spec.
  destruct (Z.testbit x i), (Z.testbit k i), (Z.testbit b i), (Z.testbit m i); done.
Qed.

Lemma mask_first_byte_bit b m k :
  Z.land 0x1f k = 0 -> Z.land (mask_first_byte b m) k = Z.land b k.
Proof.
  intros Hk. apply land_lxor_land. case_match; [|done]. change 15 with (Z.land 15 31).
  by rewrite <- Z.land_assoc, Hk, Z.land_0_r.
Qed.

(** The type bits of a long header are not protected. *)
Lemma mask_first_byte_type b m :
  Z.land b 0x80 <> 0 ->
  Z.land (Z.shiftr (mask_first_byte b m) 4) 0x3 = Z.land (Z.shiftr b 4) 0x3.
Proof.
  intros Hb. change 0x3 with (Z.shiftr 0x30 4). rewrite <- !Z.shiftr_land. f_equal.
  apply land_lxor_land. case_match eqn:Hc; [done|lia].
Qed.

(** The first byte is masked and unmasked by the same operation. *)
Lemma mask_first_byte_involutive b m : mask_first_byte (mask_first_byte b m) m = b.
Proof.
  unfold mask_first_byte at 1. rewrite mask_first_byte_bit by done. unfold mask_first_byte.
  by rewrite Z.lxor_assoc, Z.lxor_nilpotent, Z.lxor_0_r.
Qed.

Lemma lxor_u8 a b : is_u8 a -> is_u8 b -> is_u8 (Z.lxor a b).
Proof.
  intros Ha Hb. change (0 <= a < 2 ^ 8) in Ha. change (0 <= b < 2 ^ 8) in Hb.
  assert (Z.lxor a b = Z.lxor a b mod 2 ^ 8) as ->.
  { apply Z.bits_inj'. intros i Hi. destruct (decide (i < 8)).
    - by rewrite Z.mod_pow2_bits_low.
    - rewrite Z.mod_pow2_bits_high, Z.lxor_spec by lia.
      rewrite <- (Z.mod_small a (2 ^ 8)), <- (Z.mod_small b (2 ^ 8)) by lia.
      by rewrite !Z.mod_pow2_bits_high by lia. }
  apply (Z.mod_pos_bound _ (2 ^ 8)). lia.
Qed.

Lemma mask_first_byte_range b m : is_u8 b -> is_u8 (mask_first_byte b m).
Proof.
  intros Hb. apply lxor_u8; [done|]. case_match.
  - rewrite (land_ones_mod m 4 15 eq_refl) by lia. pose proof (Z.mod_pos_bound m (2 ^ 4)). ulia.
  - rewrite (land_ones_mod m 5 31 eq_refl) by lia. pose proof (Z.mod_pos_bound m (2 ^ 5)). ulia.
Qed.

Lemma znth_range l i : Forall is_u8 l -> is_u8 (znth i l).
Proof.
  intros Hl. revert i. induction Hl as [|x l Hx _ IH]; intros i; simpl; [done|].
  case_match; [done|apply IH].
Qed.

Lemma write_at_all {A} (bs l : list A) : zlen bs = zlen l -> write_at 0 bs l = bs.
Proof.
  intros Hl. unfold write_at. by rewrite ztake_le_zero, zdrop_ge, app_nil_r by lia.
Qed.

(** ** Lemmas: the mask *)

Section Protector.
Context `{E : EVP} `{L : !HpCipherLaws E}.

(** The protector holds the key [k] of the cipher [c]. *)
Definition hpr_keyed (hpr : QUIC_HDR_PROTECTOR) (c : EVP_CIPHER) (k : list Z) : Prop :=
  cipher hpr = Some c /\ (exists ctx, cipher_ctx hpr = Some ctx /\ keyed ctx c k)
  /\ hdr_prot_cipher_name (cipher_id hpr) <> None.

Lemma protector_init_keyed hpr id c name key o o' :
  hdr_prot_cipher_name id = Some name -> EVP_CIPHER_fetch name = Some c ->
  zlen key = EVP_CIPHER_get_key_length c -> zlen key < 2 ^ 64 -> alloc o = (true, o') ->
  exists hpr', ossl_quic_hdr_protector_init hpr id key (zlen key) o = (true, hpr', o')
  /\ hpr_keyed hpr' c key /\ cipher_id hpr' = id.
Proof.
  intros Hn Hf Hk Hl Ho. unfold ossl_quic_hdr_protector_init. rewrite Hn, Ho. cbn [negb].
  pose proof (zlen_nonneg key). rewrite Hf, <- Hk, u64_id, Z.eqb_refl by lia. cbn [negb].
  destruct (init_keyed EVP_CIPHER_CTX_empty c key Hk) as (ctx & -> & Hctx).
  eexists. split; [reflexivity|]. split; [|done]. split; [done|]. split; [by exists ctx|].
  simpl. by rewrite Hn.
Qed.

(** The mask as a function of the key and the sample. *)
Definition hp_mask (id : Z) (c : EVP_CIPHER) (k sample : list Z) : list Z :=
  if (id =? QUIC_HDR_PROT_CIPHER_AES_128) || (id =? QUIC_HDR_PROT_CIPHER_AES_256)
  then ztake 5 (crypt c k None sample)
  else crypt c k (Some sample) (zrepeat 0 5).

Lemma hp_mask_range id c k sample : Forall is_u8 (hp_mask id c k sample).
Proof.
  unfold hp_mask. case_match; [rewrite ztake_take; apply Forall_take|]; apply crypt_bytes.
Qed.

(** One pass of the cipher: restart and update. *)
Lemma hpr_pass_ok mem hpr c k iv inp :
  hpr_keyed hpr c k -> iv_ok iv -> input_ok iv inp ->
  exists hpr1 hpr', hpr_init iv (mem, hpr) = (Ok tt, (mem, hpr1))
  /\ hpr_update inp (zlen inp) (mem, hpr1) = (Ok (crypt c k iv inp), (mem, hpr'))
  /\ hpr_keyed hpr' c k /\ cipher_id hpr' = cipher_id hpr.
Proof.
  intros (Hc & (ctx & Hctx & Hk) & Hid) Hiv Hin.
  destruct (init_primed ctx c k iv Hk Hiv) as (ctx1 & Ei & Hp).
  destruct (update_crypt ctx1 c k iv inp Hp Hin) as (ctx2 & Eu & Hk').
  exists (mkHpr (Some ctx1) (cipher hpr) (cipher_id hpr)), (mkHpr (Some ctx2) (cipher hpr) (cipher_id hpr)).
  split; [|split].
  - unfold hpr_init. rewrite bind_get. cbn [snd]. rewrite Hctx, Ei. done.
  - unfold hpr_update. rewrite bind_get. cbn [snd cipher_ctx]. rewrite Eu.
    rewrite (bind_ok (set_ctx ctx2) _ _ _ _ eq_refl). cbn [fst snd cipher cipher_id].
    rewrite crypt_len, Z.leb_refl, write_at_all; [done|].
    rewrite zlen_zrepeat, crypt_len by apply zlen_nonneg. done.
  - split; [|done]. split; [done|]. split; [by exists ctx2|done].
Qed.

Lemma read_bytes_ok q n mem hpr :
  0 <= q -> q + n <= zlen mem ->
  read_bytes (Some q) n (mem, hpr) = (Ok (ztake n (zdrop q mem)), (mem, hpr)).
Proof.
  intros Hq Hl. unfold read_bytes. rewrite bind_get. cbn [fst].
  by replace ((0 <=? q) && (q + n <=? zlen mem)) with true by lia.
Qed.

Lemma generate_mask_ok mem hpr c k q len :
  hpr_keyed hpr c k -> 16 <= len -> 0 <= q -> q + 16 <= zlen mem ->
  exists hpr', hdr_generate_mask (Some q) len (mem, hpr)
    = (Ok (hp_mask (cipher_id hpr) c k (ztake 16 (zdrop q mem))), (mem, hpr'))
  /\ hpr_keyed hpr' c k /\ cipher_id hpr' = cipher_id hpr.
Proof.
  intros Hk Hlen Hq Hm. unfold hdr_generate_mask, hp_mask. rewrite bind_get. cbn [snd]. cbv zeta.
  assert (zlen (ztake 16 (zdrop q mem)) = 16) as Hs by (rewrite zlen_ztake; rewrite ?zlen_zdrop; lia).
  set (sample := ztake 16 (zdrop q mem)) in *.
  destruct ((cipher_id hpr =? QUIC_HDR_PROT_CIPHER_AES_128)
            || (cipher_id hpr =? QUIC_HDR_PROT_CIPHER_AES_256)) eqn:Ea.
  - destruct (hpr_pass_ok mem hpr c k None sample Hk I Hs) as (h1 & h2 & Ei & Eu & Hk' & Hid).
    exists h2. split; [|done]. rewrite bind_guard by lia. rewrite (bind_ok _ _ _ _ _ Ei).
    rewrite (bind_ok _ _ _ _ _ (read_bytes_ok q 16 mem h1 Hq Hm)).
    rewrite Hs in Eu. by rewrite (bind_ok _ _ _ _ _ Eu).
  - destruct (hpr_pass_ok mem hpr c k (Some sample) (zrepeat 0 5) Hk Hs I)
      as (h1 & h2 & Ei & Eu & Hk' & Hid).
    exists h2. split; [|done]. destruct Hk as (_ & _ & Hname).
    replace (cipher_id hpr =? QUIC_HDR_PROT_CIPHER_CHACHA) with true.
    2: { unfold hdr_prot_cipher_name in Hname. repeat case_match; done. }
    rewrite bind_guard by lia. rewrite (bind_ok _ _ _ _ _ (read_bytes_ok q 16 mem hpr Hq Hm)).
    rewrite (bind_ok _ _ _ _ _ Ei). by rewrite zlen_zrepeat in Eu by lia.
Qed.

(** ** Lemmas: applying and removing the mask *)

Lemma load_byte_ok q mem hpr :
  0 <= q < zlen mem -> load (Some q) (mem, hpr) = (Ok (znth q mem), (mem, hpr)).
Proof.
  intros Hq. unfold load. rewrite bind_get. cbn [fst].
  by replace ((0 <=? q) && (q <? zlen mem)) with true by lia.
Qed.

Lemma store_byte_ok q b mem hpr :
  0 <= q < zlen mem -> store_byte (Some q) b (mem, hpr) = (Ok tt, (write_at q [b] mem, hpr)).
Proof.
  intros Hq. unfold store_byte. rewrite bind_get. cbn [fst snd].
  by replace ((0 <=? q) && (q <? zlen mem)) with true by lia.
Qed.

Lemma znth_write_byte q b mem j :
  0 <= q < zlen mem -> 0 <= j < zlen mem ->
  znth j (write_at q [b] mem) = if j =? q then b else znth j mem.
Proof.
  intros Hq Hj. destruct (Z.eqb_spec j q) as [->|Hn].
  - rewrite znth_write_at_in by (zsimpl; lia). by rewrite Z.sub_diag.
  - apply znth_write_at_out; zsimpl; lia.
Qed.

Lemma zlen_write_byte q b (mem : list Z) :
  0 <= q < zlen mem -> zlen (write_at q [b] mem) = zlen mem.
Proof. intros Hq. apply zlen_write_at; zsimpl; lia. Qed.

(** The loop masks the bytes [po + i] to [po + i + n - 1]. *)
Lemma mask_pn_ok n i po mask mem hpr :
  0 <= po -> 0 <= i -> po + i + Z.of_nat n <= zlen mem ->
  exists mem', mask_pn n i (Some po) mask (mem, hpr) = (Ok tt, (mem', hpr))
  /\ zlen mem' = zlen mem
  /\ forall j, 0 <= j < zlen mem ->
       znth j mem' = if (po + i <=? j) && (j <? po + i + Z.of_nat n)
                     then Z.lxor (znth j mem) (znth (j - po + 1) mask) else znth j mem.
Proof.
  intros Hpo. revert i mem. induction n as [|n IH]; intros i mem Hi Hl; cbn [mask_pn].
  - exists mem. split; [done|]. split; [done|]. intros j Hj.
    change (Z.of_nat 0) with 0. case_match; [lia|done].
  - rewrite Nat2Z.inj_succ in *. cbn [ptr_add].
    rewrite (bind_ok _ _ _ _ _ (load_byte_ok (po + i) mem hpr ltac:(lia))).
    rewrite (bind_ok _ _ _ _ _ (store_byte_ok (po + i) _ mem hpr ltac:(lia))).
    set (mem1 := write_at (po + i) _ mem).
    assert (zlen mem1 = zlen mem) as Hz by (apply zlen_write_byte; lia).
    destruct (IH (i + 1) mem1) as (mem' & E1 & Hz' & Hj'); [lia|lia|].
    exists mem'. split; [done|]. split; [lia|]. intros j Hj. rewrite Hj' by lia.
    unfold mem1. rewrite !znth_write_byte by lia. unfold Z.succ in *.
    destruct (Z.eqb_spec j (po + i)) as [->|]; repeat case_match; try lia; try done.
    do 2 f_equal. lia.
Qed.

(** [clear] and [prot] are the same packet without and with header protection:
    the first byte is at [fb], the packet number at [po]. *)
Record protected (mask : list Z) (fb po : Z) (clear prot : list Z) : Prop := mkProtected {
  pr_len : zlen prot = zlen clear;
  pr_first : znth fb prot = mask_first_byte (znth fb clear) (znth 0 mask);
  pr_pn j : po <= j <= po + Z.land (znth fb clear) 3 ->
            znth j prot = Z.lxor (znth j clear) (znth (j - po + 1) mask);
  pr_rest j : 0 <= j < zlen clear -> j <> fb ->
              ~ po <= j <= po + Z.land (znth fb clear) 3 -> znth j prot = znth j clear
}.

Section Masking.
Context (mem : list Z) (hpr : QUIC_HDR_PROTECTOR) (c : EVP_CIPHER) (k : list Z).
Context (ptrs : QUIC_PKT_HDR_PTRS) (fb po : Z).
Context (Hk : hpr_keyed hpr c k).
Context (Hstart : raw_start ptrs = Some fb) (Hpn : raw_pn ptrs = Some po).
Context (Hsample : raw_sample ptrs = Some (po + 4)) (Hlen : 16 <= raw_sample_len ptrs).
Context (Hfb : 0 <= fb < po) (Hroom : po + 20 <= zlen mem).

Let mask := hp_mask (cipher_id hpr) c k (ztake 16 (zdrop (po + 4) mem)).

Lemma encrypt_ok :
  exists mem' hpr', ossl_quic_hdr_protector_encrypt ptrs (mem, hpr) = (Ok tt, (mem', hpr'))
  /\ protected mask fb po mem mem' /\ hpr_keyed hpr' c k /\ cipher_id hpr' = cipher_id hpr.
Proof.
  unfold ossl_quic_hdr_protector_encrypt, ossl_quic_hdr_protector_encrypt_fields.
  rewrite Hstart, Hpn, Hsample.
  destruct (generate_mask_ok mem hpr c k (po + 4) (raw_sample_len ptrs) Hk Hlen)
    as (hpr' & Em & Hk' & Hid); [lia|lia|]. fold mask in Em.
  rewrite (bind_ok _ _ _ _ _ Em), (bind_ok _ _ _ _ _ (load_byte_ok fb mem hpr' ltac:(lia))). cbv zeta.
  set (b := znth fb mem). pose proof (pn_bits_range b) as Hb.
  destruct (mask_pn_ok (Z.to_nat (Z.land b 3 + 1)) 0 po mask mem hpr') as (mem1 & E1 & Hz & Hj);
    [lia|lia|lia|].
  rewrite (bind_ok _ _ _ _ _ E1), (bind_ok _ _ _ _ _ (load_byte_ok fb mem1 hpr' ltac:(lia))).
  rewrite store_byte_ok by lia. rewrite Z2Nat.id in Hj by lia.
  assert (znth fb mem1 = b) as Hb1.
  { rewrite Hj by lia. case_match; [lia|done]. }
  eexists _, _. split; [reflexivity|]. split; [|done]. rewrite Hb1. split.
  - rewrite zlen_write_byte by lia. done.
  - rewrite znth_write_byte, Z.eqb_refl by lia. done.
  - intros j Hjr. fold b in Hjr. rewrite znth_write_byte by lia.
    replace (j =? fb) with false by lia. rewrite Hj by lia. case_match; [done|lia].
  - intros j Hj0 Hjf Hjr. fold b in Hjr. rewrite znth_write_byte by lia.
    replace (j =? fb) with false by lia. rewrite Hj by lia. case_match; [lia|done].
Qed.

Lemma decrypt_ok :
  exists mem' hpr', ossl_quic_hdr_protector_decrypt ptrs (mem, hpr) = (Ok tt, (mem', hpr'))
  /\ protected mask fb po mem' mem /\ hpr_keyed hpr' c k /\ cipher_id hpr' = cipher_id hpr.
Proof.
  unfold ossl_quic_hdr_protector_decrypt, ossl_quic_hdr_protector_decrypt_fields.
  rewrite Hstart, Hpn, Hsample.
  destruct (generate_mask_ok mem hpr c k (po + 4) (raw_sample_len ptrs) Hk Hlen)
    as (hpr' & Em & Hk' & Hid); [lia|lia|]. fold mask in Em.
  rewrite (bind_ok _ _ _ _ _ Em), (bind_ok _ _ _ _ _ (load_byte_ok fb mem hpr' ltac:(lia))). cbv zeta.
  set (b := mask_first_byte (znth fb mem) (znth 0 mask)). pose proof (pn_bits_range b) as Hb.
  rewrite (bind_ok _ _ _ _ _ (store_byte_ok fb b mem hpr' ltac:(lia))).
  set (mem1 := write_at fb [b] mem).
  assert (zlen mem1 = zlen mem) as Hz1 by (apply zlen_write_byte; lia).
  destruct (mask_pn_ok (Z.to_nat (Z.land b 3 + 1)) 0 po mask mem1 hpr') as (mem' & E1 & Hz & Hj);
    [lia|lia|lia|]. rewrite Z2Nat.id in Hj by lia.
  assert (forall j, 0 <= j < zlen mem -> j <> fb -> znth j mem1 = znth j mem) as Hm1.
  { intros j Hj' Hn. unfold mem1. rewrite znth_write_byte by lia. case_match; [lia|done]. }
  assert (znth fb mem' = b) as Hb1.
  { rewrite Hj by lia. unfold mem1. rewrite znth_write_byte, Z.eqb_refl by lia.
    case_match; [lia|done]. }
  exists mem', hpr'. split; [done|]. split; [|done]. split.
  - lia.
  - rewrite Hb1. unfold b. by rewrite mask_first_byte_involutive.
  - rewrite Hb1. intros j Hjr. rewrite Hj, Hm1 by lia. case_match; [|lia].
    by rewrite Z.lxor_assoc, Z.lxor_nilpotent, Z.lxor_0_r.
  - rewrite Hb1. intros j Hj0 Hjf Hjr. rewrite Hj, Hm1 by lia. case_match; [lia|done].
Qed.

End Masking.

(** *** Protection can be undone *)

Lemma protected_sample mask fb po clear prot :
  protected mask fb po clear prot -> 0 <= fb < po -> po + 20 <= zlen clear ->
  ztake 16 (zdrop (po + 4) prot) = ztake 16 (zdrop (po + 4) clear).
Proof.
  intros [Hl _ _ Hr] Hf Hz. apply slice_ext; try lia. intros j Hj.
  pose proof (pn_bits_range (znth fb clear)). apply Hr; lia.
Qed.

Lemma protected_inj mask fb po a b prot :
  0 <= fb < po -> protected mask fb po a prot -> protected mask fb po b prot -> a = b.
Proof.
  intros Hf [Hla Hfa Hpa Hra] [Hlb Hfb Hpb Hrb].
  assert (znth fb a = znth fb b) as Hab.
  { rewrite <- (mask_first_byte_involutive (znth fb a) (znth 0 mask)), <- Hfa, Hfb.
    by rewrite mask_first_byte_involutive. }
  apply znth_ext; [lia|]. intros j Hj. destruct (decide (j = fb)) as [->|Hn]; [done|].
  rewrite <- Hab in *.
  destruct (decide (po <= j <= po + Z.land (znth fb a) 3)) as [Hin|Hout].
  - specialize (Hpa j Hin). rewrite (Hpb j Hin) in Hpa.
    apply (f_equal (fun x => Z.lxor x (znth (j - po + 1) mask))) in Hpa.
    by rewrite !Z.lxor_assoc, Z.lxor_nilpotent, !Z.lxor_0_r in Hpa.
  - rewrite <- (Hra j), <- (Hrb j) by (done || lia). done.
Qed.

Lemma protected_app mask fb po a prot rest :
  0 <= fb < po -> po + 4 <= zlen a ->
  protected mask fb po a prot -> protected mask fb po (a ++ rest) (prot ++ rest).
Proof.
  intros Hf Hz [Hl Hfb Hp Hr]. pose proof (pn_bits_range (znth fb a)) as Hb.
  assert (znth fb (a ++ rest) = znth fb a) as Ha by (apply znth_app_l; lia).
  split; rewrite ?Ha.
  - zsimpl. lia.
  - by rewrite znth_app_l by lia.
  - intros j Hj. rewrite !znth_app_l by lia. by apply Hp.
  - intros j Hj Hn Ho. rewrite zlen_app in Hj. destruct (decide (j < zlen a)).
    + rewrite !znth_app_l by lia. apply Hr; lia.
    + rewrite !znth_app_r by lia. by rewrite Hl.
Qed.

Lemma protected_take mask fb po a prot n :
  0 <= fb < po -> po + 4 <= n <= zlen a ->
  protected mask fb po a prot -> protected mask fb po (ztake n a) (ztake n prot).
Proof.
  intros Hf Hz [Hl Hfb Hp Hr]. pose proof (pn_bits_range (znth fb a)) as Hb.
  assert (znth fb (ztake n a) = znth fb a) as Ha by (apply znth_ztake; lia).
  split; rewrite ?Ha, ?zlen_ztake by lia.
  - done.
  - by rewrite znth_ztake by lia.
  - intros j Hj. rewrite !znth_ztake by lia. by apply Hp.
  - intros j Hj Hn Ho. rewrite !znth_ztake by lia. apply Hr; lia.
Qed.

(** A protected packet differs from the packet in the first byte and in the four
    bytes at the packet number. *)
Lemma protected_shape mask b0 a b prot :
  protected mask 0 (1 + zlen a) ([b0] ++ a ++ b) prot -> 4 <= zlen b ->
  exists x, zlen x = 4 /\ prot = [mask_first_byte b0 (znth 0 mask)] ++ a ++ x ++ zdrop 4 b.
Proof.
  intros [Hl Hf _ Hr] Hb. pose proof (pn_bits_range b0) as Hbits. pose proof (zlen_nonneg a).
  change (znth 0 ([b0] ++ a ++ b)) with b0 in *. rewrite !zlen_app, zlen_cons, zlen_nil in *.
  exists (ztake 4 (zdrop (1 + zlen a) prot)).
  assert (zlen (ztake 4 (zdrop (1 + zlen a) prot)) = 4) as Hx
    by (rewrite zlen_ztake; rewrite ?zlen_zdrop; lia).
  split; [done|]. apply znth_ext.
  - rewrite !zlen_app, Hx, zlen_zdrop, zlen_cons, zlen_nil by lia. lia.
  - intros j Hj. set (m0 := mask_first_byte b0 (znth 0 mask)) in *.
    assert (zlen [b0] = 1 /\ zlen [m0] = 1) as [H1 H2] by (zsimpl; done).
    destruct (decide (j = 0)) as [->|]; [by rewrite Hf|].
    destruct (decide (j < 1 + zlen a)); [|destruct (decide (j < 1 + zlen a + 4))].
    + rewrite Hr by (zsimpl; lia). rewrite !(znth_app_r j), H1, H2 by lia.
      by rewrite !znth_app_l by lia.
    + rewrite znth_app_r, H2, znth_app_r, znth_app_l, znth_slice by lia. f_equal. lia.
    + rewrite Hr by (zsimpl; lia). rewrite !(znth_app_r j), H1, H2 by lia.
      rewrite !(znth_app_r (j - 1)), (znth_app_r _ (ztake _ _)), Hx, znth_zdrop by lia.
      f_equal. lia.
Qed.

End Protector.
