(* ===== verification/PktFlow.v ===== *)
(** Packets from the sender to the receiver: header protection applied and removed
    around the encoding and decoding of headers, arbitrary datagrams, and Retry
    packets with their integrity tag. *)

From stdpp Require Import base list numbers option strings.
From Stdlib Require Import ZArith Lia.
From S2P Require Import Prelude Vlint Packet WPacket Wire Frames PktHdr PktHdrTheory HdrProt.

#[local] Open Scope cfun_scope.
#[local] Open Scope Z_scope.

(** ** Sending and receiving *)

Definition MARSHALLED_TOKEN_MAX_LEN : Z := 169.
Definition ENCRYPTED_TOKEN_MAX_LEN : Z := MARSHALLED_TOKEN_MAX_LEN + 16 + 12.

Section Flow.
Context `{E : EVP}.

(** What [qtx_write] does with a header and an encrypted payload: encode into a
    fixed buffer, put the payload at the cursor, protect the header. The result is
    the packet. [wpkt] is the uninitialised WPACKET. *)
Definition send_packet (buf : list Z) (h : QUIC_PKT_HDR) (payload : list Z)
    (hpr : QUIC_HDR_PROTECTOR) (wpkt : WPACKET) : res (list Z) :=
  match (WPACKET_init_static_len buf (zlen buf) 0 ;;;
         ossl_quic_wire_encode_pkt_hdr (id_len (h_dst_conn_id h)) h true) (wpkt, []) with
  | (Ok ptrs, (w, _)) =>
      let mem := write_at (written w) payload (default [] (GETBUF w)) in
      match ossl_quic_hdr_protector_encrypt ptrs (mem, hpr) with
      | (Ok _, (mem, _)) => Ok (ztake (written w + zlen payload) mem)
      | (Err, _) => Err
      | (Ub, _) => Ub
      end
  | (Err, _) => Err
  | (Ub, _) => Ub
  end.

(** What [port_send_retry] does once it has the encrypted token [ct], with space for
    the tag at its end: the tag goes into [ct], which is the body of the packet for
    the tag and its token for the encoder. The client's header gives the two ids, the
    server's own is [scid]; [o] and [o'] are the allocations of the two packets. *)
Definition retry_packet (client_dst client_src scid : QUIC_CONN_ID) (ct : list Z)
    (wpkt : WPACKET) (o o' : oracle) : res (list Z) :=
  let hdr token token_len data :=
    mkPktHdr QUIC_PKT_TYPE_RETRY 0 0 0 false true 0 0 1 client_src scid (zrepeat 0 SIZEOF_PN)
      token token_len (zlen ct) (Some data) in
  match ossl_quic_calculate_retry_integrity_tag (hdr None 0 ct) (Some client_dst) wpkt o with
  | Ok tag =>
      let ct := write_at (zlen ct - QUIC_RETRY_INTEGRITY_TAG_LEN) tag ct in
      match (WPACKET_init_static_len (zrepeat 0 512) 512 0 ;;;
             ossl_quic_wire_encode_pkt_hdr (id_len client_dst) (hdr (Some ct) (zlen ct) ct) false ;;;
             let! s := get in ret (WPACKET_get_total_written (fst s))) (wpkt, o') with
      | (Ok data_len, (w, _)) => Ok (ztake data_len (default [] (GETBUF w)))
      | (Err, _) => Err
      | (Ub, _) => Ub
      end
  | Err => Err
  | Ub => Ub
  end.

(** What [qrx_process_pkt] does with the packet at the start of [p]: decode the
    unprotected part of the header, remove the protection from packets that have
    it, and decode the header again, into the same structure. *)
Definition receive_packet (short_conn_id_len : Z) (hdr : QUIC_PKT_HDR)
    (hpr : QUIC_HDR_PROTECTOR) (p : list Z) : res QUIC_PKT_HDR :=
  match ossl_quic_wire_decode_pkt_hdr short_conn_id_len true false hdr (p, 0) with
  | (Ok (h, ptrs), _) =>
      if negb (ossl_quic_pkt_type_is_encrypted (h_type h)) then Ok h
      else
        match ossl_quic_hdr_protector_decrypt ptrs (p, hpr) with
        | (Ok _, (p, _)) =>
            match ossl_quic_wire_decode_pkt_hdr short_conn_id_len false false h (p, 0) with
            | (Ok (h, _), _) => Ok h
            | (Err, _) => Err
            | (Ub, _) => Ub
            end
        | (Err, _) => Err
        | (Ub, _) => Ub
        end
  | (Err, _) => Err
  | (Ub, _) => Ub
  end.

End Flow.

(** ** Lemmas: the partial decode of a protected packet *)

(** The decode of the unprotected part finds the packet number. *)
Definition finds_pn (n : Z) (hdr0 : QUIC_PKT_HDR) (p : list Z) (po : Z) : Prop :=
  exists h1 s, ossl_quic_wire_decode_pkt_hdr n true false hdr0 (p, 0)
               = (Ok (h1, ptrs_at po (zlen p)), s)
  /\ ossl_quic_pkt_type_is_encrypted (h_type h1) = true
  /\ cid_ok (h_dst_conn_id h1) /\ cid_ok (h_src_conn_id h1).

Lemma stored_cid_ok old bs :
  cid_ok old -> zlen bs <= QUIC_MAX_CONN_ID_LEN -> Forall is_u8 bs ->
  cid_ok (mkConnId (zlen bs) (write_at 0 bs (id old))).
Proof.
  intros [Hl Ha Hr] Hz Hb. pose proof (zlen_nonneg bs). unfold QUIC_MAX_CONN_ID_LEN in *. split; simpl.
  - unfold QUIC_MAX_CONN_ID_LEN. lia.
  - rewrite zlen_write_at by lia. done.
  - unfold write_at. rewrite ztake_le_zero, zdrop_drop by lia. simpl.
    apply Forall_app. split; [done|]. by apply Forall_drop.
Qed.

Lemma cid_bytes_range c : cid_ok c -> Forall is_u8 (cid_bytes c).
Proof. intros [_ _ Hr]. unfold cid_bytes. rewrite ztake_take. by apply Forall_take. Qed.

Section Partial.
Context (h hdr0 : QUIC_PKT_HDR) (m : Z) (x tail : list Z).
Context (Hok : hdr_ok h) (Hx : zlen x = 4) (Htail : 16 <= zlen tail).
Context (Hdst0 : cid_ok (h_dst_conn_id hdr0)) (Hsrc0 : cid_ok (h_src_conn_id hdr0)).

Let b0 := mask_first_byte (first_byte h) m.

Lemma short_finds_pn :
  h_type h = QUIC_PKT_TYPE_1RTT ->
  finds_pn (id_len (h_dst_conn_id h)) hdr0 ([b0] ++ cid_bytes (h_dst_conn_id h) ++ x ++ tail)
    (zlen (before_pn h)).
Proof.
  intros Ht. pose proof (ho_bits h Hok) as (Hs & Hk & Hr & _). pose proof (ho_dst h Hok) as Hd.
  destruct (ho_fields h Hok) as [(_ & Hn & _) | [[Hn _]|[[Hn _]|[Hn _]]]];
    try (rewrite Ht in Hn; done).
  destruct (first_byte_short _ _ _ _ Hs Hk Hr Hn) as ((Hb & H80 & H40) & _).
  assert (64 + 32 * h_spin_bit h + 8 * h_reserved h + 4 * h_key_phase h + (h_pn_len h - 1)
          = first_byte h) as Ef by (unfold first_byte; by rewrite Ht).
  rewrite Ef in *. pose proof (zlen_cid_bytes _ Hd) as Hz. pose proof (cid_len _ Hd).
  unfold finds_pn. rewrite before_pn_short, zlen_app by done.
  eexists _, _. split.
  - apply (decode_short_ok _ true); try done.
    + by apply mask_first_byte_range.
    + unfold b0. by rewrite mask_first_byte_bit.
    + unfold b0. by rewrite mask_first_byte_bit.
    + lia.
    + rewrite !zlen_app, zlen_cons, zlen_nil. unfold QUIC_MIN_VALID_PKT_LEN_CRYPTO. lia.
  - split; [done|]. split; simpl.
    + unfold QUIC_MAX_CONN_ID_LEN in *. rewrite u8_id by lia.
      apply stored_cid_ok; [done|unfold QUIC_MAX_CONN_ID_LEN; lia|by apply cid_bytes_range].
    + destruct Hsrc0. split; simpl; [done| |]; done.
Qed.

Lemma numbered_finds_pn d rest :
  is_numbered (h_type h) = true -> tail = d ++ rest -> zlen d = h_len h + h_pn_len h - 4 ->
  finds_pn (id_len (h_dst_conn_id h)) hdr0
    (long_prefix b0 (h_version h) (h_dst_conn_id h) (h_src_conn_id h)
     ++ (token_field (h_type h) (token_bytes h) ++ vl (h_len h + h_pn_len h)) ++ x ++ tail)
    (zlen (before_pn h)).
Proof.
  intros Ht -> Hd. destruct (numbered_fields h Hok Ht) as (Hn & _ & _ & Hv & _ & _ & Htk & _ & Hhas).
  destruct (first_byte_numbered_ok h Hok Ht) as ((Hb & H80 & H40) & Hbt & _ & _).
  pose proof (ho_dst h Hok) as Hdst. pose proof (ho_src h Hok) as Hsrc. pose proof (ho_len h Hok).
  pose proof (ho_token h Hok) as Htl. pose proof (ho_token_len h Hok).
  pose proof (zlen_nonneg (token_field (h_type h) (token_bytes h))).
  pose proof (zlen_encode (h_len h + h_pn_len h) ltac:(vlia)) as He.
  pose proof (encode_len_bounds (h_len h + h_pn_len h) ltac:(vlia)).
  assert (forall v, zlen (long_prefix b0 v (h_dst_conn_id h) (h_src_conn_id h))
                    = 7 + id_len (h_dst_conn_id h) + id_len (h_src_conn_id h)) as Hlp
    by (intros; by apply zlen_long_prefix).
  pose proof (cid_len _ Hdst). pose proof (cid_len _ Hsrc). pose proof (zlen_nonneg d).
  replace (h_len h + h_pn_len h) with (zlen x + zlen d) by lia. rewrite Hv.
  set (p := long_prefix _ _ _ _ ++ _).
  assert (p = long_prefix b0 QUIC_VERSION_1 (h_dst_conn_id h) (h_src_conn_id h)
              ++ (token_field (h_type h) (token_bytes h) ++ vl (zlen x + zlen d) ++ x ++ d) ++ rest)
    as Hp by (unfold p; rewrite <- !app_assoc; done).
  assert (zlen (before_pn h) = zlen p - zlen (x ++ d ++ rest)) as ->.
  { rewrite Hp, before_pn_numbered, !zlen_app, Hlp, zlen_long_prefix, He by done.
    replace (zlen x + zlen d) with (h_len h + h_pn_len h) by lia. lia. }
  clearbody p. subst p. eexists _, _. split; [apply (decode_numbered_ok _ true); try done|].
  - by apply mask_first_byte_range.
  - unfold b0. by rewrite mask_first_byte_bit.
  - unfold b0. by rewrite mask_first_byte_bit.
  - unfold b0. by rewrite mask_first_byte_type.
  - lia.
  - unfold SIZEOF_PN. lia.
  - pose proof (zlen_nonneg (vl (zlen x + zlen d))).
    rewrite !zlen_app, Hlp. unfold QUIC_MIN_VALID_PKT_LEN_CRYPTO. rewrite zlen_app in Htail. lia.
  - split; [done|]. split; simpl; unfold stored_cid; rewrite <- zlen_cid_bytes at 1 by done;
      apply stored_cid_ok; try done; try (by apply cid_bytes_range);
      rewrite zlen_cid_bytes by done; lia.
Qed.

End Partial.

Lemma has_pn_cases h :
  hdr_ok h -> ossl_quic_pkt_type_has_pn (h_type h) = true ->
  h_type h = QUIC_PKT_TYPE_1RTT \/ is_numbered (h_type h) = true.
Proof.
  intros Hok Hp. destruct (ho_fields h Hok) as [[Ht _]|[[Ht _]|[[Ht _]|[Ht _]]]]; auto;
    by rewrite Ht in Hp.
Qed.

Lemma hdr_bytes_pn h :
  ossl_quic_pkt_type_has_pn (h_type h) = true -> hdr_bytes h = before_pn h ++ pn_bytes h.
Proof. intros Hp. unfold hdr_bytes. by rewrite Hp. Qed.

(** The header up to the packet number, without its first byte. *)
Lemma before_pn_first h :
  hdr_ok h -> ossl_quic_pkt_type_has_pn (h_type h) = true ->
  exists a, before_pn h = [first_byte h] ++ a
  /\ forall b, [b] ++ a = if h_type h =? QUIC_PKT_TYPE_1RTT then [b] ++ cid_bytes (h_dst_conn_id h)
       else long_prefix b (h_version h) (h_dst_conn_id h) (h_src_conn_id h)
            ++ token_field (h_type h) (token_bytes h) ++ vl (h_len h + h_pn_len h).
Proof.
  intros Hok Hp. destruct (has_pn_cases h Hok Hp) as [Ht|Ht].
  - exists (cid_bytes (h_dst_conn_id h)). rewrite before_pn_short by done. by rewrite Ht.
  - rewrite before_pn_numbered by (done || apply Hok). unfold long_prefix.
    eexists. split; [rewrite <- app_assoc; reflexivity|]. intros b.
    replace (h_type h =? QUIC_PKT_TYPE_1RTT) with false; [by rewrite <- app_assoc|].
    by destruct (numbered_cases _ Ht) as [-> | [-> | ->]].
Qed.

Section Receive.
Context `{E : EVP} `{L : !HpCipherLaws E}.
Context (h hdr0 : QUIC_PKT_HDR) (payload rest prot mask : list Z).
Context (Hok : hdr_ok h) (Hlen : zlen payload = h_len h).
Context (Hdst0 : cid_ok (h_dst_conn_id hdr0)) (Hsrc0 : cid_ok (h_src_conn_id hdr0)).
Context (Hpn : ossl_quic_pkt_type_has_pn (h_type h) = true).
Context (Hsample : 20 <= h_pn_len h + h_len h).
Context (Hprot : protected mask 0 (zlen (before_pn h)) (hdr_bytes h ++ payload ++ rest) prot).

Lemma pn_len_ok : 1 <= h_pn_len h <= 4 /\ zlen (pn_bytes h) = h_pn_len h.
Proof.
  assert (1 <= h_pn_len h <= 4) as Hn.
  { destruct (ho_fields h Hok) as [(? & Hn & _)|[(? & Hn & _)|[[Ht _]|[Ht _]]]]; try done;
      by rewrite Ht in Hpn. }
  split; [done|]. apply pn_bytes_stored; [done|lia].
Qed.

Lemma protected_finds_pn :
  finds_pn (id_len (h_dst_conn_id h)) hdr0 prot (zlen (before_pn h)).
Proof.
  destruct pn_len_ok as [Hn Hz]. destruct (before_pn_first h Hok Hpn) as (a & Ha & Hab).
  assert (zlen (before_pn h) = 1 + zlen a) as Hb by (rewrite Ha; zsimpl; lia).
  pose proof Hprot as Hpr. rewrite Hb, hdr_bytes_pn, Ha in Hpr by done. rewrite <- !app_assoc in Hpr.
  pose proof (zlen_nonneg rest).
  apply protected_shape in Hpr as (x & Hx & ->); [|rewrite !zlen_app; lia].
  set (d := zdrop 4 (pn_bytes h ++ payload)).
  assert (zdrop 4 (pn_bytes h ++ payload ++ rest) = d ++ rest) as ->.
  { rewrite app_assoc, zdrop_app. rewrite (zdrop_le_zero (4 - _)); [done|]. rewrite zlen_app. lia. }
  assert (zlen d = h_len h + h_pn_len h - 4) as Hd.
  { unfold d. rewrite zlen_zdrop; rewrite zlen_app; lia. }
  rewrite (app_assoc [_] a), Hab. destruct (Z.eqb_spec (h_type h) QUIC_PKT_TYPE_1RTT) as [Ht|Ht].
  - rewrite <- app_assoc. apply short_finds_pn; try done. rewrite zlen_app. lia.
  - destruct (has_pn_cases h Hok Hpn) as [|Hnum]; [done|]. rewrite <- app_assoc.
    apply (numbered_finds_pn h hdr0 _ x _ Hok Hx) with d rest; try done. rewrite zlen_app. lia.
Qed.

Lemma receive_ok hpr c k :
  hpr_keyed hpr c k ->
  mask = hp_mask (cipher_id hpr) c k
           (ztake 16 (zdrop (zlen (before_pn h) + 4) (hdr_bytes h ++ payload ++ rest))) ->
  (ossl_quic_pkt_type_must_be_last (h_type h) = true -> rest = []) -> zlen prot < 2 ^ 64 ->
  exists h', receive_packet (id_len (h_dst_conn_id h)) hdr0 hpr prot = Ok h'
  /\ same_hdr h h' /\ h_data h' = Some (payload ++ rest).
Proof.
  intros Hk Hmask Hlast Hmax. destruct pn_len_ok as [Hn Hz]. pose proof (zlen_nonneg rest).
  destruct protected_finds_pn as (h1 & s & Ed & Henc & Hd1 & Hs1).
  set (po := zlen (before_pn h)) in *.
  assert (zlen (hdr_bytes h ++ payload ++ rest) = po + h_pn_len h + h_len h + zlen rest) as Hl.
  { rewrite hdr_bytes_pn by done. rewrite !zlen_app. lia. }
  assert (0 < po) as Hpo.
  { unfold po. destruct (before_pn_first h Hok Hpn) as (a & -> & _). pose proof (zlen_nonneg a).
    zsimpl. lia. }
  pose proof (pr_len _ _ _ _ _ Hprot) as Hpl.
  destruct (decrypt_ok prot hpr c k (ptrs_at po (zlen prot)) 0 po Hk) as (mem & hpr' & Edec & Hpr & _);
    try done; try lia.
  { simpl. rewrite u64_id; lia. }
  assert (mem = hdr_bytes h ++ payload ++ rest) as ->.
  { eapply protected_inj; [|exact Hpr|]; [lia|].
    rewrite (protected_sample mask 0 po _ _ Hprot) by lia. by rewrite <- Hmask. }
  destruct (hdr_decodes h h1 payload rest Hok Hd1 Hs1 Hlen Hlast) with (c := 0) as (h' & Ed2 & Hsame & Hdata).
  - intros Ht. by rewrite Ht in Hpn.
  - intros _. unfold QUIC_MIN_VALID_PKT_LEN_CRYPTO. lia.
  - exists h'. split; [|done]. unfold receive_packet. rewrite Ed, Henc. cbn [negb].
    by rewrite Edec, Ed2.
Qed.

End Receive.

(** ** Lemmas: the sender *)

(** A WPACKET over the buffer [buf], just initialised. *)
Definition static_packet (buf : list Z) : WPACKET :=
  mkWPacket None (Some buf) 0 0 (zlen buf) [mkSub 0 0 0 0] false.

Lemma init_static_ok buf w :
  0 < zlen buf <= SIZE_MAX ->
  WPACKET_init_static_len buf (zlen buf) 0 (w, [] : oracle)
  = (Ok tt, (static_packet buf, [] : oracle)).
Proof.
  intros Hl. unfold WPACKET_init_static_len. rewrite bind_guard by lia.
  change (maxmaxsize 0) with SIZE_MAX. cbv zeta. replace (SIZE_MAX <? zlen buf) with false by lia.
  done.
Qed.

Lemma static_packet_ready buf : zlen buf <= SIZE_MAX -> ready (static_packet buf).
Proof.
  intros Hl. pose proof (zlen_nonneg buf). split_and!; [|done|done].
  unfold wf, buffer_wf, static_packet. simpl. split_and!; try done; try lia.
Qed.

(** The bytes of a static packet that has been written to. *)
Lemma static_contents buf bs w :
  zlen buf <= SIZE_MAX -> appended (static_packet buf) bs w ->
  exists d, GETBUF w = Some d /\ zlen d = zlen buf /\ written w = zlen bs
  /\ zlen bs <= zlen buf /\ ztake (zlen bs) d = bs.
Proof.
  intros Hl (Hwf & (Hk & Hm & He) & _ & Hw & Hc). cbn [written static_packet] in Hw.
  specialize (Hc eq_refl). unfold contents in Hc. cbn in He. rewrite He in Hc.
  unfold kind in Hk. cbn in Hk. pose proof Hwf as ((Hw0 & Hwm) & _). rewrite Hm in Hwm. cbn in Hwm.
  unfold GETBUF in *. destruct (staticbuf w) as [d|]; simpl in Hk; [|congruence].
  injection Hk as Hd _. exists d. cbn in Hc. rewrite Hw in *. simpl in *.
  rewrite (ztake_le_zero 0) in Hc by lia. split_and!; try done; lia.
Qed.

Lemma slice_take q n m (l : list Z) :
  0 <= q -> 0 <= n -> q + n <= m <= zlen l ->
  ztake n (zdrop q (ztake m l)) = ztake n (zdrop q l).
Proof.
  intros Hq Hn Hm.
  assert (zlen (ztake m l) = m) as Hz by (apply zlen_ztake; lia).
  apply znth_ext.
  - rewrite !zlen_ztake by (rewrite zlen_zdrop; lia). done.
  - intros i Hi. rewrite zlen_ztake in Hi by (rewrite zlen_zdrop; lia).
    rewrite !znth_slice by lia. apply znth_ztake. lia.
Qed.

Lemma slice_app q n (l k : list Z) :
  0 <= q -> 0 <= n -> q + n <= zlen l -> ztake n (zdrop q (l ++ k)) = ztake n (zdrop q l).
Proof.
  intros Hq Hn Hl. pose proof (zlen_nonneg k).
  rewrite <- (slice_take q n (zlen l) (l ++ k)), ztake_app_exact by (rewrite ?zlen_app; lia). done.
Qed.

Section Send.
Context `{E : EVP} `{L : !HpCipherLaws E}.

Lemma send_ok buf h payload hpr c k w :
  hdr_ok h -> zlen payload = h_len h -> ossl_quic_pkt_type_has_pn (h_type h) = true ->
  20 <= h_pn_len h + h_len h -> zlen (hdr_bytes h) + h_len h <= zlen buf <= SIZE_MAX ->
  hpr_keyed hpr c k ->
  exists pkt, send_packet buf h payload hpr w = Ok pkt
  /\ protected (hp_mask (cipher_id hpr) c k
                  (ztake 16 (zdrop (zlen (before_pn h) + 4) (hdr_bytes h ++ payload))))
       0 (zlen (before_pn h)) (hdr_bytes h ++ payload) pkt.
Proof.
  intros Hok Hlen Hpn Hsample Hbuf Hk. destruct (pn_len_ok h Hok Hpn) as [Hn Hz].
  destruct (before_pn_first h Hok Hpn) as (a & Ha & _). pose proof (zlen_nonneg a).
  set (po := zlen (before_pn h)) in *. assert (po = 1 + zlen a) as Hpo by (unfold po; rewrite Ha; zsimpl; lia).
  assert (zlen (hdr_bytes h) = po + h_pn_len h) as Hhl by (rewrite hdr_bytes_pn, zlen_app by done; lia).
  destruct (encode_pkt_hdr_ok h (static_packet buf) true Hok) as (ptrs & w' & Ee & Happ & Hptrs);
    [apply static_packet_ready; lia|done|done|cbn; lia|].
  rewrite Hpn in Hptrs. cbn [andb written static_packet] in Hptrs.
  destruct (static_contents buf _ _ ltac:(lia) Happ) as (d & Hd & Hdl & Hw & Hle & Htk).
  unfold send_packet.
  rewrite (bind_ok _ _ _ _ _ (init_static_ok buf w ltac:(lia))), Ee, Hd, Hw.
  change (default [] (Some d)) with d.
  set (mem := write_at (zlen (hdr_bytes h)) payload d).
  assert (zlen mem = zlen buf) as Hml by (unfold mem; rewrite zlen_write_at; lia).
  assert (ztake (zlen (hdr_bytes h) + zlen payload) mem = hdr_bytes h ++ payload) as Hmt.
  { unfold mem. rewrite ztake_write_at by lia. by rewrite Htk. }
  assert (16 <= raw_sample_len ptrs) as Hsl.
  { rewrite Hptrs. simpl. fold po. rewrite u64_id; unfold SIZE_MAX in *; lia. }
  destruct (encrypt_ok mem hpr c k ptrs 0 po Hk) as (mem' & hpr' & Een & Hpr & _);
    try (by rewrite Hptrs); try lia.
  exists (ztake (zlen (hdr_bytes h) + zlen payload) mem'). rewrite Een. split; [done|].
  apply (protected_take _ _ _ _ _ (zlen (hdr_bytes h) + zlen payload)) in Hpr; [|lia|lia].
  rewrite Hmt in Hpr. rewrite <- Hmt at 1. by rewrite slice_take by lia.
Qed.

End Send.

(** ** The theorems *)

Section Theorems.
Context `{E : EVP} `{L : !HpCipherLaws E}.

(** C19: A packet crosses the network. Whatever header and payload the sender encodes
    and protects, whatever it knows about the buffers, a receiver that holds the
    same header protection key recovers the header and finds the payload, also
    when other packets follow in the datagram. *)
Theorem quic_protected_roundtrip h payload rest buf hpr hpr' c k w hdr0 :
  hdr_ok h -> ossl_quic_pkt_type_has_pn (h_type h) = true -> zlen payload = h_len h ->
  20 <= h_pn_len h + h_len h -> zlen (hdr_bytes h) + h_len h <= zlen buf <= SIZE_MAX ->
  hpr_keyed hpr c k -> hpr_keyed hpr' c k -> cipher_id hpr' = cipher_id hpr ->
  cid_ok (h_dst_conn_id hdr0) -> cid_ok (h_src_conn_id hdr0) ->
  (ossl_quic_pkt_type_must_be_last (h_type h) = true -> rest = []) ->
  zlen (hdr_bytes h ++ payload ++ rest) < 2 ^ 64 ->
  exists pkt h', send_packet buf h payload hpr w = Ok pkt
  /\ zlen pkt = ossl_quic_wire_get_encoded_pkt_hdr_len (id_len (h_dst_conn_id h)) h + h_len h
  /\ receive_packet (id_len (h_dst_conn_id h)) hdr0 hpr' (pkt ++ rest) = Ok h'
  /\ same_hdr h h' /\ h_data h' = Some (payload ++ rest).
Proof.
  intros Hok Hpn Hlen Hs Hbuf Hk Hk' Hid Hd Hsr Hlast Hmax.
  destruct (send_ok buf h payload hpr c k w Hok Hlen Hpn Hs Hbuf Hk) as (pkt & Es & Hpr).
  destruct (pn_len_ok h Hok Hpn) as [Hn Hz].
  destruct (before_pn_first h Hok Hpn) as (a & Ha & _). pose proof (zlen_nonneg a).
  assert (zlen (before_pn h) = 1 + zlen a) as Hpo by (rewrite Ha; zsimpl; lia).
  assert (zlen (hdr_bytes h ++ payload) = zlen (before_pn h) + h_pn_len h + h_len h) as Hl
    by (rewrite hdr_bytes_pn, !zlen_app by done; lia).
  exists pkt. pose proof (pr_len _ _ _ _ _ Hpr) as Hpl.
  assert (zlen pkt = ossl_quic_wire_get_encoded_pkt_hdr_len (id_len (h_dst_conn_id h)) h
                     + h_len h) as Hpk.
  { rewrite encoded_len_ok by done. replace (h_type h =? QUIC_PKT_TYPE_RETRY) with false.
    - rewrite zlen_app in Hpl. lia.
    - symmetry. apply Z.eqb_neq. intros Ht. by rewrite Ht in Hpn. }
  apply (protected_app _ _ _ _ _ rest) in Hpr; [|lia|lia]. rewrite <- app_assoc in Hpr.
  destruct (receive_ok h hdr0 payload rest (pkt ++ rest) _ Hok Hlen Hd Hsr Hpn Hs Hpr hpr' c k Hk')
    as (h' & Er & Hsame & Hdata); try done.
  - by rewrite Hid, app_assoc, (slice_app _ 16 (hdr_bytes h ++ payload) rest) by lia.
  - rewrite zlen_app, Hpl. rewrite app_assoc, zlen_app in Hmax. lia.
  - by exists h'.
Qed.

(** A sample that is too short is refused before anything is read. *)
Lemma generate_mask_short hpr c k sample len mem :
  hpr_keyed hpr c k -> len < 16 -> hdr_generate_mask sample len (mem, hpr) = (Err, (mem, hpr)).
Proof.
  intros (_ & _ & Hid) Hl. unfold hdr_generate_mask. rewrite bind_get. cbn [snd]. cbv zeta.
  unfold hdr_prot_cipher_name in Hid.
  replace (negb (len <? 16)) with false by lia. repeat case_match; try done; lia.
Qed.

(** C23: Whatever bytes arrive, removing header protection reads and writes only the
    packet: no access is out of bounds and no assertion fails. A packet that is
    accepted lies in the datagram: header, packet number, payload. *)
Theorem quic_receive_safe n hdr hpr c k p :
  0 <= n -> zlen p < 2 ^ 64 -> hpr_keyed hpr c k ->
  receive_packet n hdr hpr p <> Ub
  /\ forall h, receive_packet n hdr hpr p = Ok h -> ossl_quic_pkt_type_has_pn (h_type h) = true ->
     exists data, h_data h = Some data /\ 0 <= h_len h <= zlen data
     /\ 1 <= h_pn_len h <= 4 /\ 1 + h_pn_len h + zlen data <= zlen p.
Proof.
  intros Hn Hp Hk. unfold receive_packet.
  destruct (ossl_quic_wire_decode_pkt_hdr n true false hdr (p, 0)) as [[[h ptrs]| |] [p' c']] eqn:Ed;
    [|done|].
  2: { by destruct (decode_pkt_hdr_safe _ _ _ _ _ _ _ _ _ Ed). }
  destruct (decode_pkt_hdr_inv _ _ _ _ _ _ _ _ Hn Ed) as (pn & -> & Hloc & _).
  destruct (ossl_quic_pkt_type_is_encrypted (h_type h)) eqn:Het; cbn [negb].
  2: { split; [done|]. intros h' [= <-] Hh. unfold ossl_quic_pkt_type_has_pn in Hh. congruence. }
  destruct pn as [off|]; [|unfold pn_located, ossl_quic_pkt_type_has_pn in Hloc; congruence].
  destruct Hloc as (_ & _ & Ho & Hl & Hlen & _). pose proof (zlen_nonneg (fst (p', c'))).
  unfold ptrs_of. destruct (decide (16 <= zlen p - (off + 4))) as [Hs|Hs].
  - destruct (decrypt_ok p hpr c k (ptrs_at off (zlen p)) 0 off Hk) as (mem & hpr' & -> & Hpr & _);
      try done; try lia. { simpl. rewrite u64_id; lia. }
    pose proof (pr_len _ _ _ _ _ Hpr) as Hml.
    destruct (ossl_quic_wire_decode_pkt_hdr n false false h (mem, 0)) as [[[h2 ptrs2]| |] [p2 c2]] eqn:E2;
      [|done|by destruct (decode_pkt_hdr_safe _ _ _ _ _ _ _ _ _ E2)].
    split; [done|]. intros h' [= <-] Hh.
    destruct (decode_pkt_hdr_inv _ _ _ _ _ _ _ _ Hn E2) as (pn2 & -> & Hloc2 & _).
    destruct pn2 as [off2|]; [|unfold pn_located in Hloc2; congruence].
    destruct Hloc2 as (_ & _ & Ho2 & Hl2 & Hlen2 & Hpl & d & Hd & Hdl). cbn [fst] in *.
    pose proof (zlen_nonneg p2). specialize (Hpl eq_refl). exists d. split_and!; try done; lia.
  - unfold ossl_quic_hdr_protector_decrypt, ossl_quic_hdr_protector_decrypt_fields.
    cbn [ptrs_at raw_sample raw_sample_len raw_start raw_pn fst] in *.
    rewrite (bind_err _ _ _ _ (generate_mask_short hpr c k (Some (off + 4))
      (u64 (zlen p - (off + 4))) p Hk ltac:(rewrite u64_id; lia))). done.
Qed.

End Theorems.

(** ** Retry packets *)

(** Every accepted Retry packet is the bytes of the header that was decoded,
    followed by the data, down to the unused bits of the first byte. *)
Lemma retry_first_byte b0 :
  is_u8 b0 -> Z.land b0 0x80 <> 0 -> Z.land b0 0x40 <> 0 -> Z.land (Z.shiftr b0 4) 0x3 = 3 ->
  b0 = 128 + 64 + 16 * 3 + Z.land b0 0x0f /\ 0 <= Z.land b0 0x0f <= 15.
Proof.
  intros Hb H80 H40 Ht.
  assert (forall x, 0 <= x < 256 ->
    (if Z.land x 0x80 =? 0 then true else if Z.land x 0x40 =? 0 then true
     else if Z.land (Z.shiftr x 4) 0x3 =? 3
          then (x =? 240 + Z.land x 0x0f) && (0 <=? Z.land x 0x0f) && (Z.land x 0x0f <=? 15)
          else true) = true) as Hall.
  { intros x Hx. rewrite <- (Z2Nat.id x) by lia. assert (Z.to_nat x < 256)%nat as Hn by lia.
    revert Hn. generalize (Z.to_nat x). clear. intros n Hn.
    assert (n ∈ seq 0 256) as Hin by (apply elem_of_seq; lia). revert Hin. clear. revert n.
    apply Forall_forall. repeat (constructor; [reflexivity|]). constructor. }
  specialize (Hall b0 Hb). repeat case_match; lia.
Qed.

Lemma conn_id_inv_bytes old p c p' :
  Forall is_u8 p -> cid_ok old -> decode_conn_id old p = (Ok c, p') ->
  cid_ok c /\ p = ([id_len c] ++ cid_bytes c) ++ p' /\ Forall is_u8 p'.
Proof.
  intros Hp Ho Ec. apply conn_id_inv in Ec as (n & q & -> & Hn & Hn' & Hq & -> & ->); [|done].
  apply Forall_cons_1 in Hp as [_ Hp]. unfold QUIC_MAX_CONN_ID_LEN in *.
  assert (Forall is_u8 (ztake n q) /\ Forall is_u8 (zdrop n q)) as [Hb Hr].
  { rewrite ztake_take, zdrop_drop. split; [by apply Forall_take|by apply Forall_drop]. }
  assert (zlen (ztake n q) = n) as Hz by (apply zlen_ztake; ulia). rewrite u8_id by ulia.
  assert (cid_bytes (mkConnId n (write_at 0 (ztake n q) (id old))) = ztake n q) as Hc.
  { unfold cid_bytes. cbn [id_len id]. pose proof (ztake_write_at 0 (ztake n q) (id old)) as Hw.
    rewrite Z.add_0_l, Hz, (ztake_le_zero 0) in Hw by lia. apply Hw; [lia|].
    rewrite (cid_array _ Ho). done. }
  split; [|split; [|done]].
  - rewrite <- Hz at 1. apply stored_cid_ok; try done. rewrite Hz. done.
  - rewrite Hc. cbn [id_len]. simpl. by rewrite ztake_zdrop.
Qed.

Lemma long_v1_retry partial nodata l b0 version dst src p h pn p' :
  is_u8 b0 -> decode_long_v1 partial nodata l b0 version dst src p = (Ok (h, pn), p') ->
  h_type h = QUIC_PKT_TYPE_RETRY ->
  Z.land (Z.shiftr b0 4) 0x3 = 3
  /\ h = plain_hdr QUIC_PKT_TYPE_RETRY true (Z.land b0 0x0f) version dst src p.
Proof.
  intros Hb Ed Ht. unfold decode_long_v1 in Ed. mrun Ed. destruct a0 as [tok tl].
  apply guard_inv in E as [_ ->].
  destruct (Z.eqb_spec (long_pkt_type (Z.land (Z.shiftr b0 4) 0x3)) QUIC_PKT_TYPE_RETRY) as [Er|Er].
  - rewrite Er in E0. cbn in E0. injection E0 as _ _ <-.
    unfold decode_retry in Ed. rewrite bind_get in Ed. mrun Ed. injection Ed as <- _ _. split; [|done].
    unfold long_pkt_type in Er. rewrite (land_ones_mod _ 2 3 eq_refl) in * by lia.
    pose proof (Z.mod_pos_bound (Z.shiftr b0 4) (2 ^ 2)). repeat case_match; try done. lia.
  - unfold decode_numbered in Ed. mrun Ed. cbv zeta in Ed. mrun Ed. injection Ed as <- _ _. done.
Qed.

Lemma decode_retry_inv n partial nodata hdr p c h ptrs s :
  Forall is_u8 p -> cid_ok (h_dst_conn_id hdr) -> cid_ok (h_src_conn_id hdr) ->
  ossl_quic_wire_decode_pkt_hdr n partial nodata hdr (p, c) = (Ok (h, ptrs), s) ->
  h_type h = QUIC_PKT_TYPE_RETRY ->
  exists b0 dst src d, p = long_prefix b0 QUIC_VERSION_1 dst src ++ d /\ cid_ok dst /\ cid_ok src
  /\ b0 = 128 + 64 + 16 * 3 + Z.land b0 0x0f /\ 0 <= Z.land b0 0x0f <= 15
  /\ h = plain_hdr QUIC_PKT_TYPE_RETRY true (Z.land b0 0x0f) QUIC_VERSION_1 dst src d.
Proof.
  intros Hp Hd Hs Ed Ht.
  apply decode_pkt_hdr_top in Ed as (b0 & p1 & pn & s1 & -> & _ & Ed & _ & _).
  apply Forall_cons_1 in Hp as [Hb Hp]. destruct (Z.eqb_spec (Z.land b0 0x80) 0) as [E80|E80].
  { apply rd_inv in Ed as (p2 & Ed & _). unfold decode_short_hdr in Ed. mrun Ed.
    cbv zeta in Ed. mrun Ed. injection Ed as <- _ _. done. }
  unfold decode_long_hdr in Ed. apply bind_ok_inv in Ed as (v & t & E0 & Ed).
  apply rd_inv in E0 as (p2 & E0 & ->).
  apply get_net_4_inv in E0 as (v0 & v1 & v2 & v3 & -> & -> & Hv & Hp2); [|done].
  apply bind_ok_inv in Ed as (u & t & E0 & Ed). apply guard_inv in E0 as [Hg ->].
  apply bind_ok_inv in Ed as (dst & t & E0 & Ed). apply rd_inv in E0 as (p3 & E0 & ->).
  apply conn_id_inv_bytes in E0 as (Hdst & -> & Hp3); [|done|done].
  apply bind_ok_inv in Ed as (src & t & E0 & Ed). apply rd_inv in E0 as (p4 & E0 & ->).
  apply conn_id_inv_bytes in E0 as (Hsrc & -> & Hp4); [|done|done]. cbv zeta in Ed.
  pose proof (be_value_range [v0; v1; v2; v3] Hv) as Hvr. rewrite u32_id in Ed by exact Hvr.
  pose proof (be_bytes_be_value [v0; v1; v2; v3] 4 Hv eq_refl) as Hvb.
  destruct (Z.eqb_spec (be_value [v0; v1; v2; v3]) 0) as [E1|E1] in Ed.
  { apply rd_inv in Ed as (p5 & Ed & _). unfold decode_version_neg in Ed. mrun Ed.
    injection Ed as <- _ _. done. }
  destruct (Z.eqb_spec (be_value [v0; v1; v2; v3]) QUIC_VERSION_1) as [E2|E2] in Ed; [|done].
  cbn [negb] in Ed. apply rd_inv in Ed as (p5 & Ed & _). rewrite E2 in *.
  apply long_v1_retry in Ed as [Hbt ->]; [|done|done].
  destruct (retry_first_byte b0 Hb E80) as [Hb0 Hu]; [|done|].
  { simpl in Hg. lia. }
  exists b0, dst, src, p4. rewrite long_prefix_assoc, Hvb. done.
Qed.

(** ** The Retry integrity tag *)

(** What the tag of a Retry packet covers, as RFC 9001, section 5.8 has it: the
    original destination connection id, and the packet up to the tag. *)
Definition retry_pseudo_packet (odcid : QUIC_CONN_ID) (pkt : list Z) : list Z :=
  [id_len odcid] ++ cid_bytes odcid ++ ztake (zlen pkt - QUIC_RETRY_INTEGRITY_TAG_LEN) pkt.

(** The encoding of a header, and the number of bytes written so far. *)
Definition encode_written (n : Z) (h : QUIC_PKT_HDR) : M WS Z :=
  ossl_quic_wire_encode_pkt_hdr n h false ;;;
  let! s := get in ret (WPACKET_get_total_written (fst s)).

Lemma encode_written_emits n h :
  hdr_ok h -> h_type h = QUIC_PKT_TYPE_RETRY ->
  emits_at (h_len h) (encode_written n h) (hdr_bytes h) (fun m => m + zlen (hdr_bytes h)).
Proof.
  intros Hok Ht w Hr He Hcap.
  assert (ossl_quic_wire_encode_pkt_hdr n h false
          = ossl_quic_wire_encode_pkt_hdr (id_len (h_dst_conn_id h)) h false) as En
    by (unfold ossl_quic_wire_encode_pkt_hdr; by rewrite Ht).
  unfold encode_written. rewrite En.
  eapply total_bind; [apply (encode_pkt_hdr_ok h w false); done || lia|].
  cbv beta. intros ptrs w' [Ha _]. apply total_get, total_ret. split; [done|].
  destruct Ha as (_ & _ & _ & Hw & _). exact Hw.
Qed.

Section Retry.
Context `{E : EVP} `{L : !RetryAeadLaws E}.

Definition retry_tag (odcid : QUIC_CONN_ID) (pkt : list Z) : list Z :=
  aead_tag retry_integrity_key retry_integrity_nonce (retry_pseudo_packet odcid pkt).

Lemma retry_aead_ok aad n body m :
  0 <= n <= zlen aad -> 0 <= m <= zlen body -> n < 2 ^ 31 -> m < 2 ^ 31 ->
  retry_aead aad n body m [] =
  Some (aead_tag retry_integrity_key retry_integrity_nonce (ztake n aad ++ ztake m body)).
Proof.
  intros Hn Hm Hn31 Hm31. unfold retry_aead. rewrite gcm_fetch. cbn [alloc negb].
  destruct (gcm_init retry_integrity_key retry_integrity_nonce) as (c1 & -> & H1); [done..|].
  assert (forall x, 0 <= x < 2 ^ 31 -> to_int x = x) as Hint.
  { intros x Hx. unfold to_int. rewrite u32_id by lia. cbv zeta.
    by replace (x <? 2 ^ 31) with true by lia. }
  rewrite !Hint by lia. cbn [negb].
  destruct (gcm_update _ _ _ _ aad n H1) as (c2 & -> & H2); [lia|]. cbn [negb].
  destruct (gcm_update _ _ _ _ body m H2) as (c3 & -> & H3); [lia|]. cbn [negb].
  destruct (gcm_final _ _ _ _ H3) as (c4 & -> & Ht). exact Ht.
Qed.

Section Fixed.
Context (u : Z) (dst src odcid : QUIC_CONN_ID).
Context (Hu : 0 <= u <= 15) (Hdst : cid_ok dst) (Hsrc : cid_ok src) (Hod : cid_ok odcid).

Definition retry_prefix : list Z := long_prefix (240 + u) QUIC_VERSION_1 dst src.

(** A Retry header with its token, body and length. *)
Definition retry_hdr (token : option (list Z)) (len : Z) (data : option (list Z)) : QUIC_PKT_HDR :=
  mkPktHdr QUIC_PKT_TYPE_RETRY 0 0 0 false true u 0 QUIC_VERSION_1 dst src (zrepeat 0 SIZEOF_PN)
    token (zlen (default [] token)) len data.

Lemma retry_hdr_ok token len data :
  zlen (default [] token) < 2 ^ 61 -> Forall is_u8 (default [] token) -> 0 <= len < 2 ^ 61 ->
  hdr_ok (retry_hdr token len data).
Proof using Hu Hdst Hsrc.
  intros Htl Ht Hl. split; try done; cbn; try lia. unfold SIZEOF_PN. repeat constructor; done.
Qed.

Lemma retry_hdr_bytes token len data :
  hdr_bytes (retry_hdr token len data) = retry_prefix ++ default [] token.
Proof. by rewrite hdr_bytes_retry. Qed.

Lemma zlen_retry_prefix : zlen retry_prefix <= 47.
Proof using Hdst Hsrc.
  unfold retry_prefix. rewrite zlen_long_prefix by done.
  pose proof (cid_len dst Hdst). pose proof (cid_len src Hsrc). unfold QUIC_MAX_CONN_ID_LEN in *. lia.
Qed.

Lemma assemble_ok d w :
  exists n w' x, assemble_retry_pseudo_packet
    (plain_hdr QUIC_PKT_TYPE_RETRY true u QUIC_VERSION_1 dst src d) odcid (w, [] : oracle)
  = (Ok n, (w', [] : oracle)) /\ GETBUF w' = Some x /\ 0 <= n <= zlen x /\ n <= 68
  /\ ztake n x = [id_len odcid] ++ cid_bytes odcid ++ retry_prefix.
Proof using Hu Hdst Hsrc Hod.
  pose proof (cid_len odcid Hod) as Hol. unfold QUIC_MAX_CONN_ID_LEN in Hol.
  pose proof (zlen_cid_bytes odcid Hod) as Hcl. pose proof zlen_retry_prefix as Hpl.
  set (h := without_payload (plain_hdr QUIC_PKT_TYPE_RETRY true u QUIC_VERSION_1 dst src d)).
  assert (hdr_bytes h = retry_prefix) as Hb
    by (rewrite <- (app_nil_r retry_prefix); exact (retry_hdr_bytes None 0 (Some d))).
  assert (hdr_ok h) as Hok by (apply (retry_hdr_ok None 0 (Some d)); try done; constructor).
  assert (emits_at 0 (WPACKET_put_bytes__ (id_len odcid) 1 ;;;
    WPACKET_memcpy (id odcid) (id_len odcid) ;;; encode_written (id_len dst) h)
    ([id_len odcid] ++ cid_bytes odcid ++ retry_prefix)
    (fun n => n + 1 + zlen (cid_bytes odcid) + zlen retry_prefix)) as Hem.
  { eapply emits_at_ext.
    - apply emits_at_seq; [done|apply emits_u8; lia|intros _].
      apply emits_at_seq; [done|by apply emits_cid|intros _].
      rewrite <- Hb. by apply (encode_written_emits (id_len dst) h).
    - intros n. cbn beta. rewrite Hb. zsimpl. lia. }
  destruct (Hem (static_packet (zrepeat 0 128))) as (n & w' & Er & Ha & ->);
    [by apply static_packet_ready|done| |].
  { change (wcap _) with 128. cbn [written static_packet]. zsimpl. lia. }
  destruct (static_contents (zrepeat 0 128) _ _ ltac:(done) Ha) as (x & Hx & Hxl & Hw & Hle & Htk).
  eexists _, w', x. unfold assemble_retry_pseudo_packet. fold h.
  change (id_len (h_dst_conn_id h)) with (id_len dst). fold (encode_written (id_len dst) h).
  change 128 with (zlen (zrepeat 0 128)) at 2.
  rewrite (bind_ok _ _ _ _ _ (init_static_ok (zrepeat 0 128) w ltac:(done))), Er, Hxl.
  cbn [written static_packet] in *. pose proof (zlen_nonneg retry_prefix).
  change (zlen (zrepeat 0 128)) with 128.
  split_and!; try done; try lia. etrans; [|exact Htk].
  f_equal. zsimpl. lia.
Qed.

Lemma calculate_ok d w :
  16 <= zlen d < 2 ^ 31 ->
  ossl_quic_calculate_retry_integrity_tag
    (plain_hdr QUIC_PKT_TYPE_RETRY true u QUIC_VERSION_1 dst src d) (Some odcid) w []
  = Ok (retry_tag odcid (retry_prefix ++ d)).
Proof using Hu Hdst Hsrc Hod.
  intros Hd. destruct (assemble_ok d w) as (n & w' & x & Ea & Hx & Hn & Hn68 & Ht).
  unfold ossl_quic_calculate_retry_integrity_tag. unfold plain_hdr in *.
  cbn [h_type h_version h_len h_data].
  replace (zlen d <? QUIC_RETRY_INTEGRITY_TAG_LEN) with false
    by (unfold QUIC_RETRY_INTEGRITY_TAG_LEN; lia).
  change (negb (QUIC_PKT_TYPE_RETRY =? QUIC_PKT_TYPE_RETRY) || (QUIC_VERSION_1 =? 0) || false) with false.
  cbv iota. pose proof (cid_len odcid Hod).
  replace (id_len odcid >? QUIC_MAX_CONN_ID_LEN) with false by lia.
  rewrite Ea, Hx. change (default [] (Some x)) with x. unfold QUIC_RETRY_INTEGRITY_TAG_LEN.
  replace (zlen d <? zlen d - 16) with false by lia. rewrite u64_id by lia.
  rewrite retry_aead_ok, Ht by lia. unfold retry_tag, retry_pseudo_packet, QUIC_RETRY_INTEGRITY_TAG_LEN.
  pose proof (zlen_nonneg retry_prefix).
  rewrite (ztake_app _ retry_prefix), zlen_app, (ztake_ge _ retry_prefix) by lia.
  replace (zlen retry_prefix + zlen d - 16 - zlen retry_prefix) with (zlen d - 16) by lia.
  by rewrite <- !app_assoc.
Qed.

End Fixed.

(** The packet that the server sends. *)
Lemma retry_packet_ok dst src odcid ct w :
  cid_ok dst -> cid_ok src -> cid_ok odcid -> Forall is_u8 ct -> 16 <= zlen ct <= 200 ->
  retry_packet odcid dst src ct w [] []
  = Ok (retry_prefix 0 dst src ++ ztake (zlen ct - 16) ct
        ++ retry_tag odcid (retry_prefix 0 dst src ++ ct)).
Proof.
  intros Hdst Hsrc Hod Hct Hl. pose proof (zlen_nonneg (retry_prefix 0 dst src)).
  pose proof (zlen_retry_prefix 0 dst src Hdst Hsrc).
  set (tag := retry_tag odcid (retry_prefix 0 dst src ++ ct)).
  assert (zlen tag = 16) as Htl by apply aead_tag_len.
  set (body := ztake (zlen ct - 16) ct ++ tag).
  unfold retry_packet. cbv zeta.
  pose proof (calculate_ok 0 dst src odcid ltac:(lia) Hdst Hsrc Hod ct w ltac:(lia)) as Ec.
  unfold plain_hdr in Ec.
  change 1 with QUIC_VERSION_1. rewrite Ec. fold tag.
  assert (write_at (zlen ct - QUIC_RETRY_INTEGRITY_TAG_LEN) tag ct = body) as Hw.
  { unfold write_at, QUIC_RETRY_INTEGRITY_TAG_LEN.
    rewrite (zdrop_ge (zlen ct - 16 + zlen tag)) by lia. by rewrite app_nil_r. }
  rewrite Hw. assert (zlen body = zlen ct) as Hbl by (unfold body; rewrite zlen_app, zlen_ztake; lia).
  set (h := retry_hdr 0 dst src (Some body) (zlen ct) (Some body)).
  match goal with
  | |- context [ossl_quic_wire_encode_pkt_hdr _ ?x false] => change x with h
  end. fold (encode_written (id_len odcid) h).
  assert (hdr_ok h) as Hok.
  { apply retry_hdr_ok; change (default [] (Some body)) with body; try done; try lia.
    apply Forall_app. split; [rewrite ztake_take; by apply Forall_take|].
    apply aead_tag_bytes. }
  pose proof (encode_written_emits (id_len odcid) h Hok eq_refl) as Hem.
  unfold h in Hem at 3 4. rewrite retry_hdr_bytes in Hem.
  change (default [] (Some body)) with body in Hem.
  destruct (Hem (static_packet (zrepeat 0 512))) as (n & w' & Er & Ha & ->);
    [by apply static_packet_ready|done| |].
  { change (wcap _) with 512. cbn [written static_packet h h_len retry_hdr]. rewrite zlen_app. lia. }
  destruct (static_contents (zrepeat 0 512) _ _ ltac:(done) Ha) as (x & Hx & Hxl & Hwr & Hle & Htk).
  change 512 with (zlen (zrepeat 0 512)) at 2.
  rewrite (bind_ok _ _ _ _ _ (init_static_ok (zrepeat 0 512) w ltac:(done))), Er, Hx.
  f_equal. exact Htk.
Qed.

Lemma validate_ok u dst src odcid d w :
  0 <= u <= 15 -> cid_ok dst -> cid_ok src -> cid_ok odcid -> zlen d < 2 ^ 31 ->
  ossl_quic_validate_retry_integrity_tag
    (plain_hdr QUIC_PKT_TYPE_RETRY true u QUIC_VERSION_1 dst src d) (Some odcid) w []
  = Ok (bool_decide (16 <= zlen d /\ zdrop (zlen d - 16) d
                     = retry_tag odcid (retry_prefix u dst src ++ d))).
Proof.
  intros Hu Hdst Hsrc Hod Hd. unfold ossl_quic_validate_retry_integrity_tag.
  change (h_len _) with (zlen d). change (h_data _) with (Some d).
  change QUIC_RETRY_INTEGRITY_TAG_LEN with 16. destruct (Z.ltb_spec (zlen d) 16).
  { f_equal. symmetry. apply bool_decide_eq_false. lia. }
  rewrite calculate_ok by (done || lia). cbv zeta. change (default [] (Some d)) with d.
  replace (zlen d <? zlen d) with false by lia. f_equal.
  assert (zlen (zdrop (zlen d - 16) d) = 16) as Hl by (rewrite zlen_zdrop; lia).
  set (tag := retry_tag odcid (retry_prefix u dst src ++ d)).
  assert (zlen tag = 16) as Ht by apply aead_tag_len.
  pose proof (memcmp_zero tag (zdrop (zlen d - 16) d) ltac:(lia)) as Hm. rewrite Hl in Hm.
  destruct (Z.eqb_spec (CRYPTO_memcmp tag (zdrop (zlen d - 16) d) 16) 0) as [Hc|Hc]; symmetry.
  - apply bool_decide_eq_true. apply Hm in Hc. done.
  - apply bool_decide_eq_false. intros [_ He]. by apply Hc, Hm.
Qed.

(** A Retry packet is authenticated. Whatever bytes arrive, if they decode as a
    Retry packet then validation accepts them exactly when their last 16 bytes are
    the tag of what precedes them, prefixed by the connection id the client chose;
    the pseudo-packet that is rebuilt from the decoded header is byte for byte the
    packet received. *)
Theorem quic_retry_tag_spec n partial nodata hdr p c h ptrs s odcid w :
  Forall is_u8 p -> zlen p < 2 ^ 31 ->
  cid_ok (h_dst_conn_id hdr) -> cid_ok (h_src_conn_id hdr) -> cid_ok odcid ->
  ossl_quic_wire_decode_pkt_hdr n partial nodata hdr (p, c) = (Ok (h, ptrs), s) ->
  h_type h = QUIC_PKT_TYPE_RETRY ->
  ossl_quic_validate_retry_integrity_tag h (Some odcid) w []
  = Ok (bool_decide (16 <= h_len h /\ zdrop (zlen p - 16) p = retry_tag odcid p)).
Proof.
  intros Hp Hl Hd Hs Hod Ed Ht.
  destruct (decode_retry_inv _ _ _ _ _ _ _ _ _ Hp Hd Hs Ed Ht)
    as (b0 & dst & src & d & -> & Hdst & Hsrc & Hb0 & Hu & ->).
  set (u := Z.land b0 0x0f) in *. rewrite Hb0 in *.
  change (128 + 64 + 16 * 3) with 240 in *. fold (retry_prefix u dst src) in *.
  rewrite zlen_app in Hl. pose proof (zlen_nonneg (retry_prefix u dst src)).
  rewrite validate_ok by (done || lia). change (h_len _) with (zlen d). f_equal.
  apply bool_decide_ext. rewrite zlen_app, zdrop_app.
  replace (zlen (retry_prefix u dst src) + zlen d - 16 - zlen (retry_prefix u dst src))
    with (zlen d - 16) by lia.
  split; intros [H16 He]; (split; [done|]); by rewrite zdrop_ge in * by lia.
Qed.

(** The tag does not depend on the bytes it replaces. *)
Lemma retry_tag_ext odcid a b b' :
  zlen b = 16 -> zlen b' = 16 -> retry_tag odcid (a ++ b) = retry_tag odcid (a ++ b').
Proof.
  intros Hb Hb'. unfold retry_tag, retry_pseudo_packet, QUIC_RETRY_INTEGRITY_TAG_LEN.
  rewrite !zlen_app, Hb, Hb'. replace (zlen a + 16 - 16) with (zlen a) by lia.
  by rewrite !ztake_app_exact.
Qed.

Lemma stored_cid_ok_cid old c : cid_ok old -> cid_ok c -> cid_ok (stored_cid old c).
Proof.
  intros Ho Hc. unfold stored_cid. rewrite <- (zlen_cid_bytes c Hc). apply stored_cid_ok.
  - done.
  - rewrite zlen_cid_bytes by done. apply Hc.
  - by apply cid_bytes_range.
Qed.

(** C22: A Retry packet that the server sends is accepted by the client it answers: the
    header decodes, the tag validates under the connection id the client chose, and
    the token and the server's connection id are those the server sent. *)
Theorem quic_retry_accepted cdst csrc scid ct w w' n hdr0 :
  cid_ok cdst -> cid_ok csrc -> cid_ok scid -> Forall is_u8 ct ->
  QUIC_RETRY_INTEGRITY_TAG_LEN < zlen ct <= ENCRYPTED_TOKEN_MAX_LEN ->
  cid_ok (h_dst_conn_id hdr0) -> cid_ok (h_src_conn_id hdr0) ->
  exists pkt h ptrs s data, retry_packet cdst csrc scid ct w [] [] = Ok pkt
  /\ ossl_quic_wire_decode_pkt_hdr n false false hdr0 (pkt, 0) = (Ok (h, ptrs), s)
  /\ h_type h = QUIC_PKT_TYPE_RETRY
  /\ ossl_quic_validate_retry_integrity_tag h (Some cdst) w' [] = Ok true
  /\ h_data h = Some data
  /\ ztake (h_len h - QUIC_RETRY_INTEGRITY_TAG_LEN) data
     = ztake (zlen ct - QUIC_RETRY_INTEGRITY_TAG_LEN) ct
  /\ cid_bytes (h_src_conn_id h) = cid_bytes scid /\ cid_bytes (h_dst_conn_id h) = cid_bytes csrc.
Proof.
  intros Hcd Hcs Hsc Hct Hl Hd Hs. change QUIC_RETRY_INTEGRITY_TAG_LEN with 16 in *.
  change ENCRYPTED_TOKEN_MAX_LEN with 197 in Hl.
  set (token := ztake (zlen ct - 16) ct).
  set (tag := retry_tag cdst (retry_prefix 0 csrc scid ++ ct)).
  assert (zlen tag = 16) as Htl by apply aead_tag_len.
  assert (zlen token = zlen ct - 16) as Hkl by (unfold token; rewrite zlen_ztake; lia).
  destruct (first_byte_retry 0 ltac:(lia)) as ((Hu8 & H80 & H40) & Hbt & _ & _).
  pose proof (decode_retry_ok n false false hdr0 240 csrc scid (token ++ tag) 0) as Ed.
  cbv zeta in Ed. fold (retry_prefix 0 csrc scid) in Ed.
  eexists _, _, _, _, (token ++ tag). split; [by apply retry_packet_ok; [..|lia]|].
  fold token tag. change (retry_prefix 0 csrc scid) with (long_prefix 240 QUIC_VERSION_1 csrc scid).
  rewrite (Ed Hu8 H80 H40 Hbt Hcs Hsc).
  2: { unfold QUIC_MIN_VALID_PKT_LEN_CRYPTO. rewrite !zlen_app, zlen_long_prefix by done.
       pose proof (cid_len csrc Hcs). pose proof (cid_len scid Hsc). lia. }
  pose proof (stored_cid_same _ _ Hcs Hd) as [= Hcb].
  pose proof (stored_cid_same _ _ Hsc Hs) as [= Hsb].
  split; [reflexivity|]. split; [done|]. split; [|split; [done|split; [|done]]].
  - change (Z.land 240 15) with 0.
    rewrite validate_ok by (try apply stored_cid_ok_cid; try done; zsimpl; lia).
    f_equal. apply bool_decide_eq_true. rewrite zlen_app.
    replace (zlen token + zlen tag - 16) with (zlen token) by lia. rewrite zdrop_app_exact.
    split; [lia|].
    replace (retry_prefix 0 (stored_cid _ _) (stored_cid _ _)) with (retry_prefix 0 csrc scid)
      by (unfold retry_prefix, long_prefix; by rewrite <- Hcb, <- Hsb).
    rewrite app_assoc. unfold tag at 1. rewrite <- (ztake_zdrop (zlen ct - 16) ct), app_assoc.
    apply retry_tag_ext; [|done]. rewrite zlen_zdrop; lia.
  - change (h_len _) with (zlen (token ++ tag)). rewrite zlen_app.
    replace (zlen token + zlen tag - 16) with (zlen token) by lia. apply ztake_app_exact.
Qed.

End Retry.
