(* ===== verification/PktExamples.v ===== *)
(** The packet theorems at work: an executable instance of the cipher interface,
    two headers, a Retry exchange, and each theorem applied to them. *)

From stdpp Require Import base list numbers option strings.
From Stdlib Require Import ZArith Lia.
From S2P Require Import Prelude Vlint Packet WPacket Wire Frames PktHdr PktHdrTheory HdrProt PktFlow.

#[local] Open Scope cfun_scope.
#[local] Open Scope Z_scope.

(** ** A cipher library *)

Record toy_ctx : Type := mkToy {
  t_cipher : option Z;
  t_key : list Z;
  t_iv : option (list Z);
  t_aad : list Z
}.

(** A cipher is named by its key length, GCM apart. *)
Definition toy_fetch (name : string) : option Z :=
  if String.eqb name "AES-128-ECB" then Some 16
  else if String.eqb name "AES-256-ECB" then Some 32
  else if String.eqb name "ChaCha20" then Some 33
  else if String.eqb name "AES-128-GCM" then Some 17
  else None.

Definition toy_key_length (c : Z) : Z :=
  if c =? 33 then 32 else if c =? 17 then 16 else c.

Definition toy_crypt (c : Z) (k : list Z) (iv : option (list Z)) (inp : list Z) : list Z :=
  imap (fun i b => (b + c + znth (Z.of_nat i) k + znth (Z.of_nat i) (default [] iv)) mod 256) inp.

Definition toy_tag (k n a : list Z) : list Z :=
  be_bytes 16 (foldl (fun acc b => (acc * 257 + b) mod 2 ^ 127) 1 (k ++ n ++ a)).

#[export] Instance ToyEVP : EVP := {
  EVP_CIPHER := Z;
  EVP_CIPHER_CTX := toy_ctx;
  EVP_CIPHER_fetch := toy_fetch;
  EVP_CIPHER_get_key_length := toy_key_length;
  EVP_CIPHER_CTX_empty := mkToy None [] None [];
  EVP_CipherInit_ex ctx c k iv :=
    (true, mkToy (match c with Some c => Some c | None => t_cipher ctx end)
             (default (t_key ctx) k) iv []);
  EVP_CipherUpdate ctx inp :=
    (match t_cipher ctx with
     | Some c => Some (toy_crypt c (t_key ctx) (t_iv ctx) inp)
     | None => None
     end, ctx);
  EVP_CipherUpdate_aad ctx bs len :=
    (true, mkToy (t_cipher ctx) (t_key ctx) (t_iv ctx) (t_aad ctx ++ ztake len bs));
  EVP_CipherFinal_ex ctx := (true, ctx);
  EVP_CTRL_AEAD_GET_TAG ctx n :=
    Some (ztake n (toy_tag (t_key ctx) (default [] (t_iv ctx)) (t_aad ctx)))
}.

#[export, program] Instance ToyHp : HpCipherLaws ToyEVP := {
  crypt := toy_crypt;
  keyed ctx c k := t_cipher ctx = Some c /\ t_key ctx = k;
  primed ctx c k iv := t_cipher ctx = Some c /\ t_key ctx = k /\ t_iv ctx = iv
}.
Next Obligation. intros ctx c k _. eexists. by split. Qed.
Next Obligation. intros ctx c k iv [Hc Hk] _. eexists. split; [done|]. cbn. by rewrite Hc. Qed.
Next Obligation.
  intros ctx c k iv inp (Hc & Hk & Hi) _. exists ctx. cbn. rewrite Hc, Hk, Hi. done.
Qed.
Next Obligation.
  intros c k iv inp. rewrite !zlen_length. unfold toy_crypt. by rewrite length_imap.
Qed.
Next Obligation.
  intros c k iv inp. unfold toy_crypt. apply Forall_lookup. intros i x Hx.
  rewrite list_lookup_imap in Hx. destruct (inp !! i); [|done]. injection Hx as <-.
  by apply (Z.mod_pos_bound _ 256).
Qed.

#[export, program] Instance ToyAead : RetryAeadLaws ToyEVP := {
  aead_tag := toy_tag;
  absorbing ctx k n a := t_key ctx = k /\ t_iv ctx = Some n /\ t_aad ctx = a;
  gcm_cipher := 17
}.
Next Obligation. reflexivity. Qed.
Next Obligation. intros k n _ _. eexists. by split. Qed.
Next Obligation.
  intros ctx k n a bs len (Hk & Hn & Ha) _. eexists. split; [done|]. cbn. by rewrite Ha.
Qed.
Next Obligation.
  intros ctx k n a (Hk & Hn & Ha). exists ctx. split; [done|]. cbn -[ztake toy_tag].
  by rewrite Hk, Hn, Ha.
Qed.
Next Obligation. intros k n a. apply length_be_bytes. Qed.
Next Obligation. intros k n a. apply be_bytes_range. Qed.

(** ** Sample packets *)

Definition cid_a : QUIC_CONN_ID :=
  mkConnId 8 ([0x83; 0x94; 0xc8; 0xf0; 0x3e; 0x51; 0x57; 0x08] ++ zrepeat 0 12).
Definition cid_b : QUIC_CONN_ID := mkConnId 4 ([1; 2; 3; 4] ++ zrepeat 9 16).
Definition cid_0 : QUIC_CONN_ID := mkConnId 0 (zrepeat 0 20).

(** A zeroed header structure. *)
Definition hdr_0 : QUIC_PKT_HDR :=
  mkPktHdr 0 0 0 0 false false 0 0 0 cid_0 cid_0 (zrepeat 0 4) None 0 0 None.

Definition payload_24 : list Z := zrepeat 0xc5 24.

Definition initial_hdr : QUIC_PKT_HDR :=
  mkPktHdr QUIC_PKT_TYPE_INITIAL 0 0 2 false true 0 0 QUIC_VERSION_1 cid_a cid_b [0xac; 0x5c; 0; 0]
    (Some [7; 7; 7]) 3 24 None.

Definition short_hdr_1 : QUIC_PKT_HDR :=
  mkPktHdr QUIC_PKT_TYPE_1RTT 1 1 3 false true 0 0 0 cid_a cid_0 [1; 2; 3; 0] None 0 24 None.

Definition retry_hdr_1 : QUIC_PKT_HDR :=
  mkPktHdr QUIC_PKT_TYPE_RETRY 0 0 0 false true 5 0 QUIC_VERSION_1 cid_a cid_b (zrepeat 0 4)
    (Some (zrepeat 3 20)) 20 0 None.

Definition protector_1 : QUIC_HDR_PROTECTOR := mkHpr None None 0.

(** The protector after initialisation. *)
Definition protector (id : Z) (key : list Z) : QUIC_HDR_PROTECTOR :=
  snd (fst (ossl_quic_hdr_protector_init protector_1 id key (zlen key) [])).

Ltac bytes := repeat (apply Forall_cons_2; [done|]); apply Forall_nil_2.

Lemma cid_a_ok : cid_ok cid_a.
Proof. split; [done|done|bytes]. Qed.

Lemma cid_b_ok : cid_ok cid_b.
Proof. split; [done|done|bytes]. Qed.

Lemma cid_0_ok : cid_ok cid_0.
Proof. split; [done|done|bytes]. Qed.

#[local] Hint Resolve cid_a_ok cid_b_ok cid_0_ok : core.

Lemma initial_hdr_ok : hdr_ok initial_hdr.
Proof. split; try done; try bytes. right. left. done. Qed.

Lemma short_hdr_1_ok : hdr_ok short_hdr_1.
Proof. split; try done; try bytes. left. done. Qed.

Lemma retry_hdr_1_ok : hdr_ok retry_hdr_1.
Proof. split; try done; try bytes. right. right. left. done. Qed.

(** A fixed buffer of 512 bytes. *)
Lemma packet_512_ready : ready (static_packet (zrepeat 0 512)).
Proof. by apply static_packet_ready. Qed.

(** ** The theorems applied *)

(** The demultiplexer on a 1-RTT packet and on an Initial packet. *)
Lemma quic_demux_dcid_witness :
  option_map cid_bytes (ossl_quic_wire_get_pkt_hdr_dst_conn_id
    (hdr_bytes short_hdr_1 ++ payload_24) 8 cid_0) = Some (cid_bytes cid_a)
  /\ option_map cid_bytes (ossl_quic_wire_get_pkt_hdr_dst_conn_id
       (hdr_bytes initial_hdr ++ payload_24) 8 cid_0) = Some (cid_bytes cid_a).
Proof.
  split.
  - refine (eq_trans (f_equal (option_map cid_bytes)
      (quic_demux_dcid 8 false hdr_0 (hdr_bytes short_hdr_1 ++ payload_24) 0 _ _ _
         _ _ ltac:(vm_compute; reflexivity) _)) _).
    + vm_compute. bytes.
    + done.
    + done.
    + done.
  - refine (eq_trans (f_equal (option_map cid_bytes)
      (quic_demux_dcid 8 false hdr_0 (hdr_bytes initial_hdr ++ payload_24) 0 _ _ _
         _ _ ltac:(vm_compute; reflexivity) _)) _).
    + vm_compute. bytes.
    + done.
    + done.
    + done.
Defined.

(** An Initial packet with another packet behind it, and a Retry packet, whose
    token comes back in front of what followed it. *)
Lemma quic_pkt_hdr_roundtrip_witness :
  total (static_packet (zrepeat 0 512))
    (ossl_quic_wire_encode_pkt_hdr 8 initial_hdr false) (fun _ w' =>
    exists bs, appended (static_packet (zrepeat 0 512)) bs w'
    /\ zlen bs = ossl_quic_wire_get_encoded_pkt_hdr_len 8 initial_hdr + 0
    /\ forall c, exists h' ptrs,
         ossl_quic_wire_decode_pkt_hdr 8 false false hdr_0 (bs ++ payload_24 ++ [0x40; 0], c)
         = (Ok (h', ptrs), ([0x40; 0], 0))
         /\ same_hdr initial_hdr h' /\ h_data h' = Some (payload_24 ++ [0x40; 0]))
  /\ total (static_packet (zrepeat 0 512))
       (ossl_quic_wire_encode_pkt_hdr 8 retry_hdr_1 false) (fun _ w' =>
       exists bs, appended (static_packet (zrepeat 0 512)) bs w'
       /\ zlen bs = ossl_quic_wire_get_encoded_pkt_hdr_len 8 retry_hdr_1 + 20
       /\ forall c, exists h' ptrs,
            ossl_quic_wire_decode_pkt_hdr 8 false false hdr_0 (bs, c)
            = (Ok (h', ptrs), ([], 0))
            /\ same_hdr (received retry_hdr_1) h' /\ h_data h' = Some (zrepeat 3 20)).
Proof.
  split.
  - apply (quic_pkt_hdr_roundtrip initial_hdr hdr_0 (static_packet (zrepeat 0 512)) payload_24
      [0x40; 0]); try done; auto using initial_hdr_ok, packet_512_ready.
  - eapply total_weaken; [apply (quic_pkt_hdr_roundtrip retry_hdr_1 hdr_0
      (static_packet (zrepeat 0 512)) [] []); try done; auto using retry_hdr_1_ok, packet_512_ready|].
    intros _ w' (bs & Ha & Hz & Hd). exists bs. split; [done|]. split; [done|].
    intros c. destruct (Hd c) as (h' & ptrs & E & Hs). rewrite app_nil_r in E.
    exists h', ptrs. done.
Defined.

(** A Retry header with a token of 20 bytes takes 20 bytes more than predicted. *)
Lemma quic_pkt_hdr_len_witness :
  total (static_packet (zrepeat 0 512))
    (ossl_quic_wire_encode_pkt_hdr 8 retry_hdr_1 false) (fun _ w' =>
    written w' = 0 + ossl_quic_wire_get_encoded_pkt_hdr_len 8 retry_hdr_1 + 20).
Proof.
  apply (quic_pkt_hdr_len retry_hdr_1 (static_packet (zrepeat 0 512)));
    try done; auto using retry_hdr_1_ok, packet_512_ready.
Defined.

(** The number of the short header is at offset 9, after the connection id. *)
Lemma quic_partial_decode_spec_witness :
  exists h ptrs p', ossl_quic_wire_decode_pkt_hdr 8 true false hdr_0
    (hdr_bytes short_hdr_1 ++ payload_24, 0) = (Ok (h, ptrs), (p', 0))
  /\ raw_start ptrs = Some 0 /\ raw_pn ptrs = Some 9
  /\ match raw_pn ptrs with
     | None => False
     | Some off => raw_sample ptrs = Some (off + 4) /\ raw_sample_len ptrs = 36 - (off + 4)
     end.
Proof.
  destruct (quic_partial_decode_spec 8 hdr_0 (hdr_bytes short_hdr_1 ++ payload_24) 0 _ _ _
              ltac:(lia) ltac:(done) ltac:(vm_compute; reflexivity)) as (_ & _ & Hs).
  eexists _, _, _. split; [vm_compute; reflexivity|].
  destruct (Hs _ _ eq_refl) as (_ & Hst & _ & _ & _ & Hr & Hl & _). done.
Defined.

Lemma protector_keyed :
  hpr_keyed (protector QUIC_HDR_PROT_CIPHER_AES_128 (zrepeat 7 16)) 16 (zrepeat 7 16).
Proof. split; [done|]. split; [|done]. eexists. split; [reflexivity|]. done. Qed.

(** An Initial packet followed by another packet in the datagram. *)
Lemma quic_protected_roundtrip_witness :
  exists pkt h', send_packet (zrepeat 0 512) initial_hdr payload_24
      (protector QUIC_HDR_PROT_CIPHER_AES_128 (zrepeat 7 16)) (static_packet []) = Ok pkt
  /\ zlen pkt = ossl_quic_wire_get_encoded_pkt_hdr_len 8 initial_hdr + 24
  /\ receive_packet 8 hdr_0 (protector QUIC_HDR_PROT_CIPHER_AES_128 (zrepeat 7 16))
       (pkt ++ [0x40; 0]) = Ok h'
  /\ same_hdr initial_hdr h' /\ h_data h' = Some (payload_24 ++ [0x40; 0]).
Proof.
  apply (@quic_protected_roundtrip ToyEVP ToyHp initial_hdr payload_24 [0x40; 0]
           (zrepeat 0 512) _ _ 16 (zrepeat 7 16));
    try done; auto using initial_hdr_ok, protector_keyed.
Defined.

(** A datagram of 40 bytes that no sender produced. *)
Lemma quic_receive_safe_witness :
  receive_packet 8 hdr_0 (protector QUIC_HDR_PROT_CIPHER_AES_128 (zrepeat 7 16)) (zrepeat 0x5a 40)
  <> Ub.
Proof.
  apply (@quic_receive_safe ToyEVP ToyHp 8 hdr_0 _ 16 (zrepeat 7 16) (zrepeat 0x5a 40)); [done|done|].
  apply protector_keyed.
Defined.

(** The packet that answers a client whose ids are [cid_a] and [cid_b]. *)
Lemma quic_retry_accepted_witness :
  exists pkt h ptrs s data,
    retry_packet cid_a cid_b cid_a (zrepeat 0x11 60) (static_packet []) [] [] = Ok pkt
  /\ ossl_quic_wire_decode_pkt_hdr 0 false false hdr_0 (pkt, 0) = (Ok (h, ptrs), s)
  /\ h_type h = QUIC_PKT_TYPE_RETRY
  /\ ossl_quic_validate_retry_integrity_tag h (Some cid_a) (static_packet []) [] = Ok true
  /\ h_data h = Some data
  /\ ztake (h_len h - QUIC_RETRY_INTEGRITY_TAG_LEN) data = ztake 44 (zrepeat 0x11 60)
  /\ cid_bytes (h_src_conn_id h) = cid_bytes cid_a /\ cid_bytes (h_dst_conn_id h) = cid_bytes cid_b.
Proof.
  apply (quic_retry_accepted cid_a cid_b cid_a (zrepeat 0x11 60)); try done; auto. bytes.
Defined.

(** Twenty bytes that are not the tag are refused. *)
Definition forged_retry : list Z := hdr_bytes retry_hdr_1.

Lemma quic_retry_tag_spec_witness :
  exists h ptrs s, ossl_quic_wire_decode_pkt_hdr 0 false false hdr_0 (forged_retry, 0)
    = (Ok (h, ptrs), s)
  /\ ossl_quic_validate_retry_integrity_tag h (Some cid_b) (static_packet []) []
     = Ok (bool_decide (16 <= h_len h
                        /\ zdrop (zlen forged_retry - 16) forged_retry = retry_tag cid_b forged_retry))
  /\ ossl_quic_validate_retry_integrity_tag h (Some cid_b) (static_packet []) [] = Ok false.
Proof.
  eexists _, _, _. split; [vm_compute; reflexivity|]. split; [|vm_compute; reflexivity].
  apply (quic_retry_tag_spec 0 false false hdr_0 forged_retry 0 _ _ _ cid_b (static_packet [])
           ltac:(vm_compute; bytes) ltac:(done) cid_0_ok cid_0_ok cid_b_ok
           ltac:(vm_compute; reflexivity)).
  done.
Defined.
