(* ===== verification/UintSet.v ===== *)
(** Sets of 64-bit integers as sorted lists of ranges: ssl/quic/uint_set.c and
    include/internal/uint_set.h.

    The doubly linked list of range items is a list of ranges in ascending order;
    a walk from the tail towards the head is a function of the items still to be
    visited, nearest first, and the items already passed. The number of items
    that are allocated is part of the state, so that the model shows which items
    are freed. *)

From stdpp Require Import base list numbers sorting.
From Stdlib Require Import ZArith Lia.
From S2P Require Import Prelude.

#[local] Open Scope cfun_scope.

(** ** Definitions *)

Record UINT_RANGE := mkRange { start : Z; end_ : Z }.

Record UINT_SET := mkUintSet {
  items : list UINT_RANGE;
  live : Z
}.

Definition US : Type := UINT_SET * oracle.

Definition ossl_uint_set_init : UINT_SET := mkUintSet [] 0.

(** Every item of the list is freed. *)
Definition ossl_uint_set_destroy (s : UINT_SET) : UINT_SET :=
  mkUintSet (items s) (live s - zlen (items s)).

Definition u64_min (x y : Z) : Z := if x <? y then x else y.
Definition u64_max (x y : Z) : Z := if x >? y then x else y.

Definition uint_range_overlaps (a b : UINT_RANGE) : bool :=
  u64_min (end_ a) (end_ b) >=? u64_max (start a) (start b).

(** [None] for NULL. *)
Definition create_set_item (start end_ : Z) : M US (option UINT_RANGE) :=
  fun s => let (ok, o') := alloc (snd s) in
           if ok : bool
           then (Ok (Some (mkRange start end_)), (mkUintSet (items (fst s)) (live (fst s) + 1), o'))
           else (Ok None, (fst s, o')).

Definition set_items (l : list UINT_RANGE) : M US unit :=
  modify (fun s => (mkUintSet l (live (fst s)), snd s)).

(** [n] calls of OPENSSL_free on items. *)
Definition free_items (n : Z) : M US unit :=
  modify (fun s => (mkUintSet (items (fst s)) (live (fst s) - n), snd s)).

(** Possible merge of [x] with the item before it; [before] holds the preceding
    items, nearest first, [after] the following ones. *)
Definition uint_set_merge_adjacent (before : list UINT_RANGE) (x : UINT_RANGE)
    (after : list UINT_RANGE) : M US unit :=
  match before with
  | [] => set_items (x :: after)
  | xprev :: before' =>
      if negb (u64 (start x - 1) =? end_ xprev) then set_items (reverse before ++ x :: after)
      else
        set_items (reverse before' ++ mkRange (start xprev) (end_ x) :: after) ;;;
        free_items 1
  end.

(** From [z], the earliest overlapping range, what precedes it, and the number of
    steps. *)
Fixpoint earliest_overlapping (range z : UINT_RANGE) (before : list UINT_RANGE) (n : Z)
  : UINT_RANGE * list UINT_RANGE * Z :=
  match before with
  | zprev :: before' =>
      if uint_range_overlaps zprev range then earliest_overlapping range zprev before' (n + 1)
      else (z, before, n)
  | [] => (z, [], n)
  end.

(** The backward walk of the insertion: [back] are [z] and the items before it,
    [after] the items after [z]. *)
Fixpoint insert_walk (range : UINT_RANGE) (back after : list UINT_RANGE) : M US unit :=
  match back with
  | [] => ret tt
  | z :: before =>
      if (start z <=? start range) && (end_ z >=? end_ range) then ret tt
      else if uint_range_overlaps z range then
        let ovend_end := u64_max (end_ range) (end_ z) in
        let '(z', before', n) := earliest_overlapping range z before 0 in
        let ovend_start := u64_min (start range) (start z') in
        set_items (reverse before' ++ mkRange ovend_start ovend_end :: after) ;;;
        free_items n
      else if (end_ range <? start z)
              && match before with
                 | [] => true
                 | zprev :: _ => start range >? end_ zprev
                 end then
        if start z =? u64 (end_ range + 1) then
          uint_set_merge_adjacent before (mkRange (start range) (end_ z)) after
        else
          match before with
          | zprev :: before' =>
              if u64 (end_ zprev + 1) =? start range then
                uint_set_merge_adjacent (mkRange (start zprev) (end_ range) :: before') z after
              else
                let! x := create_set_item (start range) (end_ range) in
                match x with
                | None => fail
                | Some x => set_items (reverse before ++ x :: z :: after)
                end
          | [] =>
              let! x := create_set_item (start range) (end_ range) in
              match x with
              | None => fail
              | Some x => set_items (reverse before ++ x :: z :: after)
              end
          end
      else insert_walk range before (z :: after)
  end.

Definition ossl_uint_set_insert (range : UINT_RANGE) : M US unit :=
  guard (start range <=? end_ range) ;;;
  let! s := get in
  match items (fst s), reverse (items (fst s)) with
  | f :: rest, z :: before =>
      if start range >? end_ z then
        if u64 (end_ z + 1) =? start range then
          set_items (reverse before ++ [mkRange (start z) (end_ range)])
        else
          let! x := create_set_item (start range) (end_ range) in
          match x with
          | None => fail
          | Some x => set_items (items (fst s) ++ [x])
          end
      else if (start range <=? start f) && (end_ range >=? end_ z) then
        set_items [mkRange (start range) (end_ range)]
      else if end_ range <? start f then insert_walk range [f] rest
      else insert_walk range (z :: before) []
  | _, _ =>
      let! x := create_set_item (start range) (end_ range) in
      match x with
      | None => fail
      | Some x => set_items [x]
      end
  end.

(** The backward walk of the removal. The new item of a split is used without a
    check for NULL. *)
Fixpoint remove_walk (range : UINT_RANGE) (back after : list UINT_RANGE) : M US unit :=
  match back with
  | [] => set_items after
  | z :: before =>
      if start range >? end_ z then set_items (reverse back ++ after)
      else if (start range <=? start z) && (end_ range >=? end_ z) then
        free_items 1 ;;; remove_walk range before after
      else if (start range <=? start z) && (end_ range >=? start z) then
        remove_walk range before (mkRange (u64 (end_ range + 1)) (end_ z) :: after)
      else if end_ range >=? end_ z then
        set_items (reverse before ++ mkRange (start z) (u64 (start range - 1)) :: after)
      else if (start range >? start z) && (end_ range <? end_ z) then
        let! y := create_set_item (u64 (end_ range + 1)) (end_ z) in
        match y with
        | None => undef
        | Some y => set_items (reverse before ++ mkRange (start z) (u64 (start range - 1)) :: y :: after)
        end
      else remove_walk range before (z :: after)
  end.

Definition ossl_uint_set_remove (range : UINT_RANGE) : M US unit :=
  guard (start range <=? end_ range) ;;;
  let! s := get in
  remove_walk range (reverse (items (fst s))) [].

Fixpoint query_walk (v : Z) (back : list UINT_RANGE) : bool :=
  match back with
  | [] => false
  | x :: before =>
      if (start x <=? v) && (end_ x >=? v) then true
      else if end_ x <? v then false
      else query_walk v before
  end.

Definition ossl_uint_set_query (s : UINT_SET) (v : Z) : bool :=
  match items s with
  | [] => false
  | _ => query_walk v (reverse (items s))
  end.

(** ** The abstract set and the invariants *)

Definition in_range (v : Z) (r : UINT_RANGE) : Prop := start r <= v <= end_ r.

(** The integers that the list represents. *)
Definition contains (l : list UINT_RANGE) (v : Z) : Prop := exists r, r ∈ l /\ in_range v r.

Definition range_ok (r : UINT_RANGE) : Prop := 0 <= start r <= end_ r /\ end_ r < U64_MOD.

(** [a] is before [b] with at least [gap - 1] integers between them. *)
Definition before (gap : Z) (a b : UINT_RANGE) : Prop := end_ a + gap <= start b.

(** With [gap = 1]: sorted, no range empty, no two ranges overlap. With
    [gap = 2] also: no two ranges border one another. *)
Definition inv (gap : Z) (l : list UINT_RANGE) : Prop :=
  Forall range_ok l /\ StronglySorted (before gap) l.

(** ** Lemmas on lists of ranges *)

Lemma sorted_app {A} (R : A -> A -> Prop) (l k : list A) :
  StronglySorted R (l ++ k) <->
  StronglySorted R l /\ StronglySorted R k /\ forall a b, a ∈ l -> b ∈ k -> R a b.
Proof.
  induction l as [|x l IH]; cbn [app].
  - split; [intros H|tauto]. split_and!; [constructor|done|]. by intros a b ?%elem_of_nil.
  - split.
    + intros Hs. inversion Hs as [|? ? H1 H2]; subst. apply IH in H1 as (Hl & Hk & Hlk).
      apply Forall_app in H2 as [H2l H2k]. rewrite Forall_forall in H2k.
      split_and!; [by constructor|done|]. intros a b [->|Ha]%elem_of_cons Hb; eauto.
    + intros (Hs & Hk & Hlk). inversion Hs as [|? ? Hl Hx]; subst. constructor.
      * apply IH. split_and!; [done|done|]. intros; apply Hlk; [by right|done].
      * apply Forall_app; split; [done|]. apply Forall_forall.
        intros b Hb. apply Hlk; [by left|done].
Qed.

Lemma inv_nil g : inv g [].
Proof. split; constructor. Qed.

Lemma inv_app g l k :
  inv g (l ++ k) <-> inv g l /\ inv g k /\ forall a b, a ∈ l -> b ∈ k -> end_ a + g <= start b.
Proof. unfold inv, before. rewrite Forall_app, sorted_app. tauto. Qed.

Lemma inv_cons g r l :
  inv g (r :: l) <-> range_ok r /\ inv g l /\ forall b, b ∈ l -> end_ r + g <= start b.
Proof.
  change (r :: l) with ([r] ++ l). rewrite inv_app. unfold inv at 1.
  rewrite Forall_singleton. split.
  - intros ((Hr0 & _) & Hr1 & H). split_and!; [done|done|]. intros; apply H; [by apply list_elem_of_singleton|done].
  - intros (Hr0 & Hr1 & H). split_and!; [done|repeat constructor|done|].
    intros a b ->%list_elem_of_singleton Hb; auto.
Qed.

Lemma inv_snoc g r l :
  inv g (l ++ [r]) <-> inv g l /\ range_ok r /\ forall a, a ∈ l -> end_ a + g <= start r.
Proof.
  rewrite inv_app, inv_cons. setoid_rewrite list_elem_of_singleton. split.
  - intros (Hr0 & (Hr1 & _) & H). split_and!; [done|done|]. intros; by apply H.
  - intros (Hr0 & Hr1 & H). split_and!; [done|done|apply inv_nil| |].
    + by intros b ?%elem_of_nil.
    + intros a b Ha ->; auto.
Qed.

Lemma inv_weaken g l : inv 2 l -> 1 <= g <= 2 -> inv g l.
Proof.
  intros H Hg. induction l as [|r l IH]; [apply inv_nil|]. apply inv_cons in H as (Hr0 & Hr1 & H).
  apply inv_cons. split_and!; [done|auto|]. intros b Hb. specialize (H b Hb). lia.
Qed.

Lemma inv_range_ok g l r : inv g l -> r ∈ l -> range_ok r.
Proof. intros [H _]. by rewrite Forall_forall in H; apply H. Qed.

Lemma contains_nil v : contains [] v <-> False.
Proof. split; [intros (r & H & _); by apply elem_of_nil in H|done]. Qed.

Lemma contains_app l k v : contains (l ++ k) v <-> contains l v \/ contains k v.
Proof. unfold contains. setoid_rewrite elem_of_app. naive_solver. Qed.

Lemma contains_cons r l v : contains (r :: l) v <-> in_range v r \/ contains l v.
Proof. unfold contains. setoid_rewrite elem_of_cons. naive_solver. Qed.

Lemma contains_reverse l v : contains (reverse l) v <-> contains l v.
Proof. unfold contains. by setoid_rewrite elem_of_reverse. Qed.

Create Rewrite HintDb ranges.
#[export] Hint Rewrite contains_nil contains_app contains_cons contains_reverse : ranges.

Create Rewrite HintDb mem.
#[export] Hint Rewrite @elem_of_app @elem_of_cons @elem_of_reverse : mem.

Ltac unfold_range :=
  unfold in_range, range_ok, uint_range_overlaps, u64_min, u64_max, before in *;
  cbn [start end_ fst snd items live] in *.

(** Case analysis on the comparisons of the code. *)
Ltac zcases :=
  repeat match goal with
  | H : context [?a <? ?b] |- _ => destruct (Z.ltb_spec a b)
  | H : context [?a >? ?b] |- _ => destruct (Z.gtb_spec a b)
  | |- context [?a <? ?b] => destruct (Z.ltb_spec a b)
  | |- context [?a >? ?b] => destruct (Z.gtb_spec a b)
  end.

Lemma overlaps_spec a b :
  uint_range_overlaps a b = true <-> start a <= end_ b /\ start b <= end_ a /\
                                      start a <= end_ a /\ start b <= end_ b.
Proof.
  unfold uint_range_overlaps, u64_min, u64_max.
  rewrite Z.geb_le. zcases; lia.
Qed.

Lemma overlaps_false a b :
  start a <= end_ a -> start b <= end_ b ->
  uint_range_overlaps a b = false -> end_ a < start b \/ end_ b < start a.
Proof.
  intros Ha Hb H. destruct (decide (end_ a < start b \/ end_ b < start a)) as [|Hn]; [done|].
  assert (uint_range_overlaps a b = true) by (apply overlaps_spec; lia). congruence.
Qed.

Lemma u64_min_min x y : u64_min x y = Z.min x y.
Proof. unfold u64_min. zcases; lia. Qed.

Lemma u64_max_max x y : u64_max x y = Z.max x y.
Proof. unfold u64_max. zcases; lia. Qed.

(** ** Correctness of the insertion *)

(** What an operation on the set [s] that may run out of memory shows: on success
    the new items satisfy [Q]; on failure an allocation failed and the set is
    unchanged; it is never undefined. *)
Definition outcome (m : M US unit) (s : US) (Q : list UINT_RANGE -> Prop) : Prop :=
  match m s with
  | (Ok _, s') => Q (items (fst s'))
  | (Err, s') => fst s' = fst s /\ fst (alloc (snd s)) = false
  | (Ub, _) => False
  end.

Lemma outcome_guard b m s Q : b = true -> outcome m s Q -> outcome (guard b ;;; m) s Q.
Proof. by intros ->. Qed.

Lemma outcome_get (k : US -> M US unit) s Q : outcome (k s) s Q -> outcome (let! x := get in k x) s Q.
Proof. done. Qed.

Lemma outcome_set_items l s (Q : list UINT_RANGE -> Prop) : Q l -> outcome (set_items l) s Q.
Proof. done. Qed.

Lemma outcome_set_free l n s (Q : list UINT_RANGE -> Prop) :
  Q l -> outcome (set_items l ;;; free_items n) s Q.
Proof. done. Qed.

Lemma outcome_create a b (k : UINT_RANGE -> list UINT_RANGE) s (Q : list UINT_RANGE -> Prop) :
  Q (k (mkRange a b)) ->
  outcome (let! x := create_set_item a b in
           match x with None => fail | Some x => set_items (k x) end) s Q.
Proof.
  unfold outcome, bind, create_set_item. destruct s as [s o]. cbn [snd fst].
  destruct (alloc o) as [[|] o'] eqn:Ho; cbn; [done|auto].
Qed.

(** The list that results from inserting a range represents the union. *)
Definition is_union (g : Z) (range : UINT_RANGE) (l l' : list UINT_RANGE) : Prop :=
  inv g l' /\ forall v, contains l' v <-> contains l v \/ in_range v range.

Ltac mem :=
  lazymatch goal with
  | |- _ \/ _ => first [left; mem | right; mem]
  | |- _ = _ => reflexivity
  | _ => assumption
  end.

(** Closes a goal about the items of a list from the facts known of each item. *)
Ltac ritems :=
  try assumption; intros;
  repeat match goal with
  | H : _ ∈ _ |- _ => progress autorewrite with mem in H
  | H : _ \/ _ |- _ => destruct H
  | H : _ /\ _ |- _ => destruct H
  | H : ?a ∈ [] |- _ => by apply elem_of_nil in H
  | H : ?a = mkRange _ _ |- _ => subst a
  end; subst;
  repeat match goal with
  | H : forall x, x ∈ _ -> _, Hx : ?a ∈ _ |- _ =>
      lazymatch goal with
      | _ : (H = H) /\ (a = a) |- _ => fail
      | _ => pose proof (H a ltac:(autorewrite with mem; mem)); assert ((H = H) /\ (a = a)) by done
      end
  end; unfold_range; try lia.

Lemma outcome_merge g bf x af s (Q : list UINT_RANGE -> Prop) :
  1 <= g <= 2 -> inv g (reverse bf) -> inv g af -> range_ok x ->
  (forall b, b ∈ bf -> end_ b + 1 <= start x) ->
  (forall a, a ∈ af -> end_ x + g <= start a) ->
  (forall l', inv g l' ->
     (forall v, contains l' v <-> contains bf v \/ in_range v x \/ contains af v) -> Q l') ->
  outcome (uint_set_merge_adjacent bf x af) s Q.
Proof.
  intros Hg Hbf Haf Hx Hb Ha HQ. destruct bf as [|p bf]; cbn [uint_set_merge_adjacent].
  - apply outcome_set_items, HQ; [by apply inv_cons|].
    intros v. rewrite contains_cons, contains_nil. tauto.
  - rewrite reverse_cons in Hbf. apply inv_snoc in Hbf as (Hbf & Hp & Hbp).
    assert (Hpx := Hb p ltac:(left)). assert (Hu : u64 (start x - 1) = start x - 1)
      by (apply u64_id; unfold range_ok, U64_MOD in *; lia).
    rewrite Hu. destruct (Z.eqb_spec (start x - 1) (end_ p)) as [He|He]; cbn [negb].
    + apply outcome_set_free, HQ.
      * apply inv_app. split_and!; [done|apply inv_cons; split_and!; [unfold_range; lia|done|ritems]|].
        ritems.
      * intros v. autorewrite with ranges. unfold_range.
        split; [|intuition lia]. intros [?|[?|?]]; [tauto| |tauto].
        destruct (decide (v <= end_ p)); [left; left; lia|right; left; lia].
    + apply outcome_set_items, HQ.
      * rewrite reverse_cons, <-app_assoc. apply inv_app.
        split_and!; [done|cbn [app]; rewrite !inv_cons; split_and!; ritems|ritems].
      * intros v. autorewrite with ranges. tauto.
Qed.

Lemma earliest_overlapping_spec g range bf : forall z n,
  1 <= g -> range_ok range -> inv g (reverse (z :: bf)) -> uint_range_overlaps z range = true ->
  let '(z', bf', _) := earliest_overlapping range z bf n in
  inv g (reverse bf') /\ range_ok z' /\ start z' <= start z /\
  (forall b, b ∈ bf' -> end_ b < start range /\ end_ b + g <= start z') /\
  forall v, contains (z :: bf) v \/ in_range v range <->
            contains bf' v \/ Z.min (start range) (start z') <= v <= Z.max (end_ range) (end_ z).
Proof.
  induction bf as [|p bf IH]; intros z n Hg Hr Hinv Ho;
    rewrite reverse_cons in Hinv; apply inv_snoc in Hinv as (Hbf & Hz & Hbz);
    apply overlaps_spec in Ho; cbn [earliest_overlapping].
  - split_and!; [done|done|lia|by intros b ?%elem_of_nil|].
    intros v. autorewrite with ranges. unfold_range. lia.
  - assert (Hpz := Hbz p ltac:(rewrite elem_of_reverse; left)).
    assert (Hp : range_ok p) by (eapply inv_range_ok; [exact Hbf|rewrite elem_of_reverse; left]).
    destruct (uint_range_overlaps p range) eqn:Hop.
    + specialize (IH p (n + 1) Hg Hr Hbf Hop).
      destruct (earliest_overlapping range p bf (n + 1)) as [[z' bf'] n'].
      destruct IH as (H1 & H2 & H3 & H4 & H5). apply overlaps_spec in Hop.
      split_and!; [done|done|unfold_range; lia|done|].
      intros v. specialize (H5 v). rewrite (contains_cons z). unfold_range.
      assert (start z <= v <= end_ z \/ Z.min (start range) (start z') <= v <= Z.max (end_ range) (end_ p)
              <-> Z.min (start range) (start z') <= v <= Z.max (end_ range) (end_ z)) by lia.
      tauto.
    + apply overlaps_false in Hop; [|unfold_range; lia..].
      rewrite reverse_cons in Hbf. pose proof Hbf as (Hb' & _ & Hbp)%inv_snoc.
      split_and!; [by rewrite reverse_cons|done|lia|ritems|].
      intros v. rewrite contains_cons. unfold_range.
      assert (start z <= v <= end_ z \/ start range <= v <= end_ range <->
              Z.min (start range) (start z) <= v <= Z.max (end_ range) (end_ z)) by lia.
      tauto.
Qed.

(** For the stronger form of the invariant, the range may overlap an item only if
    the item covers it. *)
Definition covered (g : Z) (range : UINT_RANGE) (l : list UINT_RANGE) : Prop :=
  g = 1 \/ forall r, r ∈ l -> uint_range_overlaps r range = true ->
                     start r <= start range /\ end_ range <= end_ r.

Lemma outcome_overlap range z bf af s :
  range_ok range -> inv 1 (reverse (z :: bf) ++ af) ->
  (forall a, a ∈ af -> end_ range < start a) ->
  uint_range_overlaps z range = true ->
  outcome (let '(z', before', n) := earliest_overlapping range z bf 0 in
           set_items (reverse before' ++ mkRange (u64_min (start range) (start z'))
                                                 (u64_max (end_ range) (end_ z)) :: af) ;;;
           free_items n) s (is_union 1 range (reverse (z :: bf) ++ af)).
Proof.
  intros Hr Hinv Ha Ho. pose proof Hinv as (Hb & Haf & Hba)%inv_app.
  pose proof (earliest_overlapping_spec 1 range bf z 0 ltac:(lia) Hr Hb Ho) as Hs.
  destruct (earliest_overlapping range z bf 0) as [[z' bf'] n].
  destruct Hs as (H1 & H2 & H3 & H4 & H5). apply overlaps_spec in Ho.
  assert (Hzin : z ∈ reverse (z :: bf)) by (rewrite elem_of_reverse; left).
  assert (Hz := inv_range_ok _ _ _ Hb Hzin).
  assert (Hza := fun a => Hba z a Hzin). clear Hba.
  rewrite u64_min_min, u64_max_max. apply outcome_set_free. split.
  - apply inv_app. split_and!; [done|apply inv_cons; split_and!; [unfold_range; lia|done|ritems]|ritems].
  - intros v. specialize (H5 v). autorewrite with ranges in *. unfold_range. tauto.
Qed.

(** The range fits between the items [bf] and [z :: af]. *)
Lemma outcome_between g range z bf af s :
  1 <= g <= 2 -> range_ok range -> inv g (reverse (z :: bf) ++ af) ->
  end_ range < start z -> (forall b, b ∈ bf -> end_ b < start range) ->
  outcome
    (if start z =? u64 (end_ range + 1) then
       uint_set_merge_adjacent bf (mkRange (start range) (end_ z)) af
     else
       match bf with
       | zprev :: before' =>
           if u64 (end_ zprev + 1) =? start range then
             uint_set_merge_adjacent (mkRange (start zprev) (end_ range) :: before') z af
           else
             let! x := create_set_item (start range) (end_ range) in
             match x with
             | None => fail
             | Some x => set_items (reverse bf ++ x :: z :: af)
             end
       | [] =>
           let! x := create_set_item (start range) (end_ range) in
           match x with
           | None => fail
           | Some x => set_items (reverse bf ++ x :: z :: af)
           end
       end) s (is_union g range (reverse (z :: bf) ++ af)).
Proof.
  intros Hg Hr Hinv Hlt Hb. rewrite reverse_cons, <-app_assoc in *. cbn [app] in *.
  pose proof Hinv as (Hbf & (Hz & Haf & Hza)%inv_cons & Hbz)%inv_app.
  assert (Hbz' := fun b Hx => Hbz b z Hx ltac:(left)). clear Hbz.
  rewrite u64_id by (unfold range_ok, U64_MOD in *; lia).
  destruct (Z.eqb_spec (start z) (end_ range + 1)) as [He|He].
  { apply (outcome_merge g); [done..|unfold_range; lia|ritems|ritems|].
    intros l' Hl' Hc. split; [done|]. intros v. rewrite Hc. autorewrite with ranges.
    unfold_range. assert (start range <= v <= end_ z <->
      start z <= v <= end_ z \/ start range <= v <= end_ range) by lia. tauto. }
  assert (Hnew : inv g (reverse bf ++ range :: z :: af) ->
                 is_union g range (reverse bf ++ z :: af) (reverse bf ++ range :: z :: af)).
  { intros H. split; [done|]. intros v. autorewrite with ranges. tauto. }
  destruct bf as [|p bf].
  { apply (outcome_create (start range) (end_ range) (fun x => reverse [] ++ x :: z :: af)).
    destruct range as [sr er]. cbn [start end_] in *. apply Hnew. cbn.
    rewrite !inv_cons. split_and!; ritems. }
  rewrite reverse_cons in Hbf. pose proof Hbf as (Hbf' & Hp & Hbp)%inv_snoc.
  assert (Hpr := Hb p ltac:(left)).
  rewrite u64_id by (unfold range_ok, U64_MOD in *; lia).
  destruct (Z.eqb_spec (end_ p + 1) (start range)) as [Hpe|Hpe].
  - apply (outcome_merge g); [done|rewrite reverse_cons; apply inv_snoc; split_and!; [done|unfold_range; lia|ritems]
      |done|done|ritems|done|].
    intros l' Hl' Hc. split; [done|]. intros v. rewrite Hc. autorewrite with ranges. unfold_range.
    assert (start p <= v <= end_ range <->
      start p <= v <= end_ p \/ start range <= v <= end_ range) by lia. tauto.
  - apply (outcome_create (start range) (end_ range) (fun x => reverse (p :: bf) ++ x :: z :: af)).
    destruct range as [sr er]. cbn [start end_] in *. apply Hnew.
    rewrite inv_app, !inv_cons, reverse_cons. split_and!; ritems.
Qed.

Lemma outcome_insert_walk g range l s back : forall after,
  1 <= g <= 2 -> range_ok range -> l = reverse back ++ after ->
  items (fst s) = l -> inv g l -> covered g range l ->
  (forall a, a ∈ after -> end_ range < start a) ->
  (exists z bf, back = z :: bf /\ start range <= end_ z) ->
  outcome (insert_walk range back after) s (is_union g range l).
Proof.
  induction back as [|z bf IH]; intros after Hg Hr Hl Hs Hinv Hcov Ha (z0 & bf0 & [= <- <-] & Hzr).
  cbn [insert_walk].
  assert (Hin : z ∈ l) by (subst l; autorewrite with mem; mem).
  pose proof (inv_range_ok _ _ _ Hinv Hin) as Hz.
  destruct ((start z <=? start range) && (end_ z >=? end_ range)) eqn:Hd.
  { unfold outcome, ret. rewrite Hs. split; [done|]. intros v. split; [tauto|].
    intros [H|H]; [done|]. exists z. split; [done|]. unfold_range; lia. }
  destruct (uint_range_overlaps z range) eqn:Ho.
  { destruct Hcov as [->|Hcov]; [subst l; by apply outcome_overlap|].
    specialize (Hcov z Hin Ho). lia. }
  apply overlaps_false in Ho; [|unfold_range; lia..].
  assert (Hlt : end_ range < start z) by lia. clear Ho.
  rewrite (proj2 (Z.ltb_lt _ _) Hlt). cbn [andb].
  destruct (match bf with [] => true | zprev :: _ => start range >? end_ zprev end) eqn:Hp.
  - subst l. apply outcome_between; [done..|]. destruct bf as [|p bf]; [by intros b ?%elem_of_nil|].
    rewrite !reverse_cons in Hinv. apply inv_app in Hinv as (Hinv & _).
    apply inv_snoc in Hinv as (Hinv & _). apply inv_snoc in Hinv as (_ & Hpo & Hbp).
    intros b [->|Hb]%elem_of_cons; [lia|]. specialize (Hbp b ltac:(by rewrite elem_of_reverse)).
    unfold_range; lia.
  - destruct bf as [|p bf]; [done|]. apply IH; try done.
    + rewrite Hl, reverse_cons, <-app_assoc. done.
    + intros a [->|?]%elem_of_cons; auto.
    + exists p, bf. split; [done|lia].
Qed.

(** The items are those of [reverse], last first. *)
Lemma reverse_eq_cons {A} (l : list A) z k : reverse l = z :: k -> l = reverse k ++ [z].
Proof. intros H. rewrite <-(reverse_involutive l), H. apply reverse_cons. Qed.

Lemma reverse_eq_nil {A} (l : list A) : reverse l = [] -> l = [].
Proof. intros H. by rewrite <-(reverse_involutive l), H. Qed.

(** An insertion after the last item. *)
Lemma outcome_append g range z bf s :
  1 <= g <= 2 -> range_ok range -> inv g (reverse bf ++ [z]) -> end_ z < start range ->
  outcome (if u64 (end_ z + 1) =? start range then
             set_items (reverse bf ++ [mkRange (start z) (end_ range)])
           else
             let! x := create_set_item (start range) (end_ range) in
             match x with
             | None => fail
             | Some x => set_items ((reverse bf ++ [z]) ++ [x])
             end) s (is_union g range (reverse bf ++ [z])).
Proof.
  intros Hg Hr Hinv Hlt. pose proof Hinv as (Hb & Hz & Hbz)%inv_snoc.
  rewrite u64_id by (unfold range_ok, U64_MOD in *; lia).
  destruct (Z.eqb_spec (end_ z + 1) (start range)) as [He|He].
  - apply outcome_set_items. split.
    + apply inv_snoc. split_and!; [done|unfold_range; lia|ritems].
    + intros v. autorewrite with ranges. unfold_range.
      assert (start z <= v <= end_ range <-> start z <= v <= end_ z \/ start range <= v <= end_ range)
        by lia. tauto.
  - apply (outcome_create (start range) (end_ range) (fun x => (reverse bf ++ [z]) ++ [x])).
    destruct range as [sr er]. split.
    + apply inv_snoc. split_and!; [done|done|ritems].
    + intros v. autorewrite with ranges. tauto.
Qed.

Lemma outcome_insert g range s o :
  1 <= g <= 2 -> range_ok range -> inv g (items s) ->
  (covered g range (items s) \/ forall r, r ∈ items s -> start range <= start r /\ end_ r <= end_ range) ->
  outcome (ossl_uint_set_insert range) (s, o) (is_union g range (items s)).
Proof.
  intros Hg Hr Hinv Hcov. unfold ossl_uint_set_insert.
  apply outcome_guard; [unfold_range; lia|]. apply outcome_get. cbn [fst].
  destruct (items s) as [|f rest] eqn:Hi.
  { apply (outcome_create (start range) (end_ range) (fun x => [x])).
    destruct range as [sr er]. split; [apply inv_cons; split_and!; [done|done|ritems]|].
    intros v. autorewrite with ranges. tauto. }
  destruct (reverse (f :: rest)) as [|z bf] eqn:Hrev; [by apply reverse_eq_nil in Hrev|].
  apply reverse_eq_cons in Hrev. destruct (Z.gtb_spec (start range) (end_ z)) as [Hgt|Hgt].
  { rewrite Hrev in *. by apply outcome_append. }
  pose proof Hinv as Hinv'. rewrite Hrev in Hinv'. apply inv_snoc in Hinv' as (Hb & Hz & Hbz).
  apply inv_cons in Hinv as Hinv''. destruct Hinv'' as (Hf & Hrest & Hfr).
  assert (Hfz : start f <= start z).
  { assert (Hfin : f ∈ reverse bf ++ [z]) by (rewrite <-Hrev; left).
    apply elem_of_app in Hfin as [Hfin| ->%list_elem_of_singleton]; [|lia].
    specialize (Hbz f Hfin). unfold_range; lia. }
  destruct ((start range <=? start f) && (end_ range >=? end_ z)) eqn:Hd.
  { apply outcome_set_items. split; [apply inv_cons; split_and!; [destruct range; done|apply inv_nil|ritems]|].
    intros v. rewrite contains_cons, contains_nil. unfold_range. split; [tauto|].
    intros [(r & Hrr & Hv)|H]; [left|tauto].
    assert (start f <= start r).
    { apply elem_of_cons in Hrr as [->|Hrr]; [lia|]. specialize (Hfr r Hrr). unfold_range; lia. }
    rewrite Hrev in Hrr. apply elem_of_app in Hrr as [Hrr| ->%list_elem_of_singleton]; unfold_range; [|lia].
    specialize (Hbz r Hrr). lia. }
  assert (Hcov' : covered g range (f :: rest)).
  { destruct Hcov as [Hcov|Hcov]; [done|]. assert (H1 := Hcov f ltac:(left)).
    assert (H2 := Hcov z ltac:(rewrite Hrev, elem_of_app; right; by apply list_elem_of_singleton)). lia. }
  destruct (Z.ltb_spec (end_ range) (start f)) as [Hlt|Hlt].
  - apply outcome_insert_walk; try done.
    + ritems.
    + exists f, []. split; [done|unfold_range; lia].
  - apply outcome_insert_walk; try done.
    + rewrite Hrev, reverse_cons, app_nil_r. done.
    + ritems.
    + exists z, bf. split; [done|lia].
Qed.

(** ** Correctness of the removal and of the query *)

(** On success the new items satisfy [Q]; the only other outcome is the use of a
    NULL item after a failed allocation. *)
Definition removal (m : M US unit) (s : US) (Q : list UINT_RANGE -> Prop) : Prop :=
  match m s with
  | (Ok _, s') => Q (items (fst s'))
  | (Err, _) => False
  | (Ub, _) => fst (alloc (snd s)) = false
  end.

Definition is_difference (g : Z) (range : UINT_RANGE) (l l' : list UINT_RANGE) : Prop :=
  inv g l' /\ forall v, contains l' v <-> contains l v /\ ~ in_range v range.

Lemma is_difference_intro g range l k l' :
  is_difference g range k l' ->
  (forall v, ~ in_range v range -> contains l v <-> contains k v) -> is_difference g range l l'.
Proof. intros [H1 H2] H. split; [done|]. intros v. rewrite H2. specialize (H v). tauto. Qed.

(** Nothing is left to remove. *)
Lemma is_difference_same g range l :
  inv g l -> (forall r, r ∈ l -> end_ r < start range \/ end_ range < start r) ->
  is_difference g range l l.
Proof.
  intros Hi H. split; [done|]. intros v. split; [|tauto]. intros (r & Hr & Hv).
  split; [by exists r|]. specialize (H r Hr). unfold_range. lia.
Qed.

Lemma removal_create a b (k : UINT_RANGE -> list UINT_RANGE) s (Q : list UINT_RANGE -> Prop) :
  Q (k (mkRange a b)) ->
  removal (let! y := create_set_item a b in
           match y with None => undef | Some y => set_items (k y) end) s Q.
Proof.
  unfold removal, bind, create_set_item. destruct s as [s o]. cbn [snd fst].
  destruct (alloc o) as [[|] o'] eqn:Ho; cbn; [done|auto].
Qed.

Lemma removal_set_items l s (Q : list UINT_RANGE -> Prop) : Q l -> removal (set_items l) s Q.
Proof. done. Qed.

Lemma removal_mono m s (P Q : list UINT_RANGE -> Prop) :
  (forall l, P l -> Q l) -> removal m s P -> removal m s Q.
Proof. unfold removal. destruct (m s) as [[]?]; auto. Qed.

Lemma removal_free n m s Q :
  (forall s', snd s' = snd s -> removal m s' Q) -> removal (free_items n ;;; m) s Q.
Proof. intros H. apply (H (mkUintSet (items (fst s)) (live (fst s) - n), snd s)). done. Qed.

Lemma removal_walk g range back : forall after s,
  1 <= g <= 2 -> range_ok range -> inv g (reverse back ++ after) ->
  (forall a, a ∈ after -> end_ range < start a) ->
  removal (remove_walk range back after) s (is_difference g range (reverse back ++ after)).
Proof.
  induction back as [|z bf IH]; intros after s Hg Hr Hinv Ha; cbn [remove_walk].
  { apply removal_set_items, is_difference_same; [done|]. intros r ?; right; auto. }
  rewrite (reverse_cons bf z), <-app_assoc in *. cbn [app] in *.
  pose proof Hinv as (Hb & (Hz & Haf & Hza)%inv_cons & Hbz)%inv_app.
  assert (Hbz' := fun b Hx => Hbz b z Hx ltac:(left)).
  assert (Hba : forall a, a ∈ after -> forall b, b ∈ reverse bf -> end_ b + g <= start a)
    by (intros; apply Hbz; [done|by right]). clear Hbz.
  assert (Hu1 : end_ range < end_ z -> u64 (end_ range + 1) = end_ range + 1)
    by (intros; apply u64_id; unfold range_ok, U64_MOD in *; lia).
  assert (Hu2 : start z < start range -> u64 (start range - 1) = start range - 1)
    by (intros; apply u64_id; unfold range_ok, U64_MOD in *; lia).
  destruct (Z.gtb_spec (start range) (end_ z)) as [Hgt|Hgt].
  { apply removal_set_items, is_difference_same; [done|]. ritems. }
  destruct ((start range <=? start z) && (end_ range >=? end_ z)) eqn:Hc1.
  { apply removal_free. intros s' Hs'. eapply removal_mono, IH; [|done..|apply inv_app; split_and!; ritems|done].
    intros l Hl. eapply is_difference_intro; [exact Hl|]. intros v Hv. autorewrite with ranges.
    unfold_range. assert (~ (start z <= v <= end_ z)) by lia. tauto. }
  destruct ((start range <=? start z) && (end_ range >=? start z)) eqn:Hc2.
  { rewrite Hu1 by lia. eapply removal_mono, IH; [|done..|apply inv_app; rewrite inv_cons; split_and!; ritems|ritems].
    intros l Hl. eapply is_difference_intro; [exact Hl|]. intros v Hv. autorewrite with ranges.
    unfold_range. assert (start z <= v <= end_ z <-> end_ range + 1 <= v <= end_ z) by lia. tauto. }
  destruct (end_ range >=? end_ z) eqn:Hc3.
  { rewrite Hu2 by lia. apply removal_set_items. eapply is_difference_intro.
    - apply is_difference_same; [apply inv_app; rewrite inv_cons; split_and!; ritems|ritems].
    - intros v Hv. autorewrite with ranges. unfold_range.
      assert (start z <= v <= end_ z <-> start z <= v <= start range - 1) by lia. tauto. }
  destruct ((start range >? start z) && (end_ range <? end_ z)) eqn:Hc4.
  { rewrite Hu1, Hu2 by lia.
    apply (removal_create _ _ (fun y => reverse bf ++ mkRange (start z) (start range - 1) :: y :: after)).
    eapply is_difference_intro.
    - apply is_difference_same; [apply inv_app; rewrite !inv_cons; split_and!; ritems|ritems].
    - intros v Hv. autorewrite with ranges. unfold_range.
      assert (start z <= v <= end_ z <->
              start z <= v <= start range - 1 \/ end_ range + 1 <= v <= end_ z) by lia. tauto. }
  apply IH; [done..|]. ritems.
Qed.

Lemma removal_remove g range s o :
  1 <= g <= 2 -> range_ok range -> inv g (items s) ->
  removal (ossl_uint_set_remove range) (s, o) (is_difference g range (items s)).
Proof.
  intros Hg Hr Hi. unfold ossl_uint_set_remove.
  assert (Hle : (start range <=? end_ range) = true) by (unfold_range; lia). rewrite Hle.
  change (removal (remove_walk range (reverse (items s)) []) (s, o) (is_difference g range (items s))).
  assert (H : items s = reverse (reverse (items s)) ++ []) by by rewrite app_nil_r, reverse_involutive.
  rewrite H at 2. apply removal_walk; [done..|by rewrite <-H|ritems].
Qed.

Lemma query_walk_spec g v back :
  1 <= g -> inv g (reverse back) -> query_walk v back = true <-> contains back v.
Proof.
  intros Hg. induction back as [|x bf IH]; intros Hi; cbn [query_walk].
  { rewrite contains_nil. done. }
  rewrite reverse_cons in Hi. apply inv_snoc in Hi as (Hb & Hx & Hbx). rewrite contains_cons.
  destruct ((start x <=? v) && (end_ x >=? v)) eqn:H1; [unfold_range; split; [left; lia|done]|].
  assert (Hnx : ~ in_range v x) by (unfold_range; lia).
  destruct (Z.ltb_spec (end_ x) v) as [Hlt|Hlt]; [|rewrite (IH Hb); tauto].
  split; [done|]. intros [?|(r & Hr & Hv)]; [done|].
  specialize (Hbx r ltac:(by rewrite elem_of_reverse)). unfold_range; lia.
Qed.

Lemma query_spec g s v : 1 <= g -> inv g (items s) -> ossl_uint_set_query s v = true <-> contains (items s) v.
Proof.
  intros Hg Hi. unfold ossl_uint_set_query. rewrite <-(contains_reverse (items s)).
  destruct (items s) as [|f l] eqn:Hl; [by rewrite contains_reverse, contains_nil|].
  eapply query_walk_spec; [done|by rewrite reverse_involutive].
Qed.

(** ** Refinement of sets of integers *)

Inductive set_op :=
  | op_insert (r : UINT_RANGE)
  | op_remove (r : UINT_RANGE).

Definition op_range (op : set_op) : UINT_RANGE :=
  match op with op_insert r | op_remove r => r end.

Definition exec_op (op : set_op) : M US unit :=
  match op with
  | op_insert r => ossl_uint_set_insert r
  | op_remove r => ossl_uint_set_remove r
  end.

Fixpoint exec_ops (ops : list set_op) : M US unit :=
  match ops with
  | [] => ret tt
  | op :: ops' => exec_op op ;;; exec_ops ops'
  end.

(** The same operations on mathematical sets. *)
Definition spec_op (op : set_op) (P : Z -> Prop) (v : Z) : Prop :=
  match op with
  | op_insert r => P v \/ in_range v r
  | op_remove r => P v /\ ~ in_range v r
  end.

Fixpoint spec_ops (ops : list set_op) (P : Z -> Prop) : Z -> Prop :=
  match ops with
  | [] => P
  | op :: ops' => spec_ops ops' (spec_op op P)
  end.

Lemma spec_ops_proper ops : forall P Q,
  (forall v, P v <-> Q v) -> forall v, spec_ops ops P v <-> spec_ops ops Q v.
Proof.
  induction ops as [|[r|r] ops IH]; intros P Q H v; cbn [spec_ops]; [apply H|apply IH..];
    intros u; cbn [spec_op]; rewrite H; done.
Qed.

(** With no failing allocation ahead, none is ahead afterwards. *)
Definition stays {A} (m : M US A) : Prop := forall s, snd s = [] -> snd (snd (m s)) = [].

Lemma stays_bind {A B} (m : M US A) (k : A -> M US B) :
  stays m -> (forall a, stays (k a)) -> stays (bind m k).
Proof.
  intros Hm Hk s Hs. specialize (Hm s Hs). unfold bind.
  destruct (m s) as [[a| |] s1]; [by apply Hk|done|done].
Qed.

Lemma stays_create a b : stays (create_set_item a b).
Proof. intros [s o] Ho. cbn in Ho. by subst o. Qed.

Lemma stays_pure {A} (m : M US A) : (forall s, snd (snd (m s)) = snd s) -> stays m.
Proof. intros H s Hs. by rewrite H. Qed.

Create HintDb stays.
#[export] Hint Resolve stays_create : stays.
#[export] Hint Extern 1 (stays (set_items _)) => apply stays_pure; done : stays.
#[export] Hint Extern 1 (stays (free_items _)) => apply stays_pure; done : stays.
#[export] Hint Extern 1 (stays (ret _)) => apply stays_pure; done : stays.
#[export] Hint Extern 1 (stays fail) => apply stays_pure; done : stays.
#[export] Hint Extern 1 (stays undef) => apply stays_pure; done : stays.
#[export] Hint Extern 1 (stays get) => apply stays_pure; done : stays.
#[export] Hint Extern 1 (stays (guard ?b)) => apply stays_pure; destruct b; done : stays.
#[export] Hint Extern 2 (stays (bind _ _)) => apply stays_bind; [|intros] : stays.
#[export] Hint Extern 3 (stays (match ?x with _ => _ end)) => destruct x : stays.

Lemma stays_insert_walk range back : forall after, stays (insert_walk range back after).
Proof.
  induction back as [|z bf IH]; intros after; cbn [insert_walk]; [auto with stays|].
  unfold uint_set_merge_adjacent. auto 20 with stays.
Qed.

Lemma stays_remove_walk range back : forall after, stays (remove_walk range back after).
Proof. induction back as [|z bf IH]; intros after; cbn [remove_walk]; auto 20 with stays. Qed.

#[export] Hint Resolve stays_insert_walk stays_remove_walk : stays.

Lemma stays_exec_op op : stays (exec_op op).
Proof.
  destruct op; cbn [exec_op]; unfold ossl_uint_set_insert, ossl_uint_set_remove; auto 20 with stays.
Qed.

Lemma exec_op_spec op s :
  range_ok (op_range op) -> inv 1 (items s) ->
  exists s', exec_op op (s, [] : oracle) = (Ok tt, (s', [])) /\ inv 1 (items s') /\
             forall v, contains (items s') v <-> spec_op op (contains (items s)) v.
Proof.
  intros Hr Hi. pose proof (stays_exec_op op (s, [] : oracle) eq_refl) as Hs.
  destruct op as [r|r]; cbn [exec_op spec_op op_range] in *.
  - pose proof (outcome_insert 1 r s [] ltac:(lia) Hr Hi ltac:(left; by left)) as H.
    unfold outcome in H. destruct (ossl_uint_set_insert r (s, [] : oracle)) as [[[]| |] [s' o']]; cbn in Hs, H.
    + subst o'. exists s'. split; [done|exact H].
    + by destruct H.
    + done.
  - pose proof (removal_remove 1 r s [] ltac:(lia) Hr Hi) as H.
    unfold removal in H. destruct (ossl_uint_set_remove r (s, [] : oracle)) as [[[]| |] [s' o']]; cbn in Hs, H; try done.
    subst o'. exists s'. split; [done|exact H].
Qed.

Lemma exec_ops_spec ops : forall s,
  Forall (fun op => range_ok (op_range op)) ops -> inv 1 (items s) ->
  exists s', exec_ops ops (s, [] : oracle) = (Ok tt, (s', [])) /\ inv 1 (items s') /\
             forall v, contains (items s') v <-> spec_ops ops (contains (items s)) v.
Proof.
  induction ops as [|op ops IH]; intros s Hops Hi; cbn [exec_ops spec_ops].
  - exists s. done.
  - inversion Hops as [|? ? Hop Hops']; subst.
    destruct (exec_op_spec op s Hop Hi) as (s1 & H1 & Hi1 & Hc1).
    destruct (IH s1 Hops' Hi1) as (s2 & H2 & Hi2 & Hc2).
    exists s2. split_and!; [by rewrite (bind_ok _ _ _ _ _ H1)|done|].
    intros v. rewrite Hc2. by apply spec_ops_proper.
Qed.

(** ** Properties *)

(** C26: after any sequence of insertions and removals of valid 64-bit ranges on a
    fresh set, with memory available, the list is sorted, has no empty and no
    overlapping ranges, and a query answers exactly the membership in the
    mathematical set that the same insertions and removals give. *)
Theorem uint_set_refines_sets ops :
  Forall (fun op => range_ok (op_range op)) ops ->
  exists s, exec_ops ops (ossl_uint_set_init, [] : oracle) = (Ok tt, (s, [])) /\
            inv 1 (items s) /\
            forall v, ossl_uint_set_query s v = true <-> spec_ops ops (fun _ => False) v.
Proof.
  intros Hops. destruct (exec_ops_spec ops ossl_uint_set_init Hops (inv_nil 1)) as (s & H & Hi & Hc).
  exists s. split_and!; [done|done|]. intros v. rewrite (query_spec 1 s v ltac:(lia) Hi), Hc.
  apply spec_ops_proper. intros u. apply contains_nil.
Qed.

Definition example_ops : list set_op :=
  [op_insert (mkRange 10 20); op_insert (mkRange 30 40); op_insert (mkRange 5 35);
   op_remove (mkRange 12 14); op_insert (mkRange 42 42); op_insert (mkRange 41 41)].

Lemma uint_set_refines_sets_witness :
  exists s, exec_ops example_ops (ossl_uint_set_init, [] : oracle) = (Ok tt, (s, [])) /\
            inv 1 (items s) /\
            forall v, ossl_uint_set_query s v = true <-> spec_ops example_ops (fun _ => False) v.
Proof.
  apply (uint_set_refines_sets example_ops).
  unfold example_ops. repeat constructor; vm_compute; congruence.
Defined.

(** an insertion of a valid range into a set, whatever the allocator does,
    either succeeds with exactly the union and keeps the list sorted and without
    overlaps, or fails because an allocation failed and leaves the set as it
    was. *)
Theorem uint_set_insert_outcome range s o :
  range_ok range -> inv 1 (items s) ->
  match ossl_uint_set_insert range (s, o) with
  | (Ok _, (s', _)) =>
      inv 1 (items s') /\
      forall v, contains (items s') v <-> contains (items s) v \/ in_range v range
  | (Err, (s', _)) => s' = s /\ fst (alloc o) = false
  | (Ub, _) => False
  end.
Proof.
  intros Hr Hi. pose proof (outcome_insert 1 range s o ltac:(lia) Hr Hi ltac:(left; by left)) as H.
  unfold outcome in H. by destruct (ossl_uint_set_insert range (s, o)) as [[] []].
Qed.

Lemma uint_set_insert_outcome_witness :
  match ossl_uint_set_insert (mkRange 4 6) (mkUintSet [mkRange 1 2; mkRange 8 9] 2, [false]) with
  | (Ok _, (s', _)) =>
      inv 1 (items s') /\
      forall v, contains (items s') v <->
                contains (items (mkUintSet [mkRange 1 2; mkRange 8 9] 2)) v \/ in_range v (mkRange 4 6)
  | (Err, (s', _)) => s' = mkUintSet [mkRange 1 2; mkRange 8 9] 2 /\ fst (alloc [false]) = false
  | (Ub, _) => False
  end.
Proof.
  apply (uint_set_insert_outcome (mkRange 4 6) (mkUintSet [mkRange 1 2; mkRange 8 9] 2) [false]).
  - vm_compute; intuition congruence.
  - split; repeat constructor; vm_compute; congruence.
Defined.

(** the documented invariant that no two ranges border one another is kept by
    every removal, and by every insertion of a range that overlaps no item unless
    an item covers it (inserting one packet number is such an insertion). *)
Theorem uint_set_canonical range s :
  range_ok range -> inv 2 (items s) ->
  (exists s', ossl_uint_set_remove range (s, [] : oracle) = (Ok tt, (s', [])) /\ inv 2 (items s')) /\
  ((start range = end_ range \/
    forall r, r ∈ items s -> uint_range_overlaps r range = true ->
              start r <= start range /\ end_ range <= end_ r) ->
   exists s', ossl_uint_set_insert range (s, [] : oracle) = (Ok tt, (s', [])) /\ inv 2 (items s')).
Proof.
  intros Hr Hi. split.
  - pose proof (removal_remove 2 range s ([] : oracle) ltac:(lia) Hr Hi) as H.
    pose proof (stays_exec_op (op_remove range) (s, [] : oracle) eq_refl) as Hs. cbn [exec_op] in Hs.
    unfold removal in H. destruct (ossl_uint_set_remove range (s, [] : oracle)) as [[[]| |] [s' o']]; cbn in H, Hs; try done.
    subst o'. exists s'. split; [done|apply H].
  - intros Hc. assert (Hcov : covered 2 range (items s)).
    { right. destruct Hc as [He|Hc]; [|done]. intros r _ Ho%overlaps_spec. lia. }
    pose proof (outcome_insert 2 range s ([] : oracle) ltac:(lia) Hr Hi ltac:(by left)) as H.
    pose proof (stays_exec_op (op_insert range) (s, [] : oracle) eq_refl) as Hs. cbn [exec_op] in Hs.
    unfold outcome in H. destruct (ossl_uint_set_insert range (s, [] : oracle)) as [[[]| |] [s' o']]; cbn in H, Hs;
      [|by destruct H|done]. subst o'. exists s'. split; [done|apply H].
Qed.

Lemma uint_set_canonical_witness :
  (exists s', ossl_uint_set_remove (mkRange 3 3) (mkUintSet [mkRange 1 2; mkRange 4 9] 2, [] : oracle)
              = (Ok tt, (s', [])) /\ inv 2 (items s')) /\
  ((start (mkRange 3 3) = end_ (mkRange 3 3) \/
    forall r, r ∈ items (mkUintSet [mkRange 1 2; mkRange 4 9] 2) -> uint_range_overlaps r (mkRange 3 3) = true ->
              start r <= start (mkRange 3 3) /\ end_ (mkRange 3 3) <= end_ r) ->
   exists s', ossl_uint_set_insert (mkRange 3 3) (mkUintSet [mkRange 1 2; mkRange 4 9] 2, [] : oracle)
              = (Ok tt, (s', [])) /\ inv 2 (items s')).
Proof.
  apply (uint_set_canonical (mkRange 3 3) (mkUintSet [mkRange 1 2; mkRange 4 9] 2)).
  - vm_compute; intuition congruence.
  - split; repeat constructor; vm_compute; congruence.
Defined.

(** an insertion that overlaps an item does not merge the result with a
    neighbour that it borders: {[0,4],[6,10]} with [5,7] inserted becomes
    {[0,4],[5,10]}, which breaks the documented invariant. *)
Theorem uint_set_insert_leaves_borders :
  let s := mkUintSet [mkRange 0 4; mkRange 6 10] 2 in
  exists s', ossl_uint_set_insert (mkRange 5 7) (s, [] : oracle) = (Ok tt, (s', [])) /\
             inv 2 (items s) /\ items s' = [mkRange 0 4; mkRange 5 10] /\ ~ inv 2 (items s').
Proof.
  exists (mkUintSet [mkRange 0 4; mkRange 5 10] 2). split_and!; [reflexivity| |reflexivity|].
  - split; repeat constructor; vm_compute; congruence.
  - intros (_ & _ & H)%inv_cons. specialize (H (mkRange 5 10) ltac:(left)). cbn in H. lia.
Qed.

(** an insertion that covers a set of several ranges unlinks the items after
    the first without freeing them, so that they stay allocated even after the
    set is destroyed. *)
Theorem uint_set_insert_leaks :
  let s := mkUintSet [mkRange 2 3; mkRange 5 6; mkRange 8 9] 3 in
  exists s', ossl_uint_set_insert (mkRange 0 10) (s, [] : oracle) = (Ok tt, (s', [])) /\
             items s' = [mkRange 0 10] /\ live (ossl_uint_set_destroy s) = 0 /\
             live (ossl_uint_set_destroy s') = 2.
Proof. eexists. split_and!; vm_compute; reflexivity. Qed.

(** removing the middle of a range when no item can be allocated dereferences
    NULL. *)
Theorem uint_set_remove_null_item :
  fst (ossl_uint_set_remove (mkRange 4 5) (mkUintSet [mkRange 0 10] 1, [false])) = Ub.
Proof. reflexivity. Qed.
