(* ===== verification/FlowControl.v ===== *)
(** QUIC flow control: ssl/quic/quic_fc.c and include/internal/quic_fc.h.

    A flow controller of a stream points to the controller of its connection,
    which all streams of the connection share. The controllers therefore live in a
    heap from addresses to objects, and an operation takes addresses. The clock
    that the receive controllers call is a parameter: the time of each reading.
    Debug assertions are modelled as undefined when they do not hold. *)

From stdpp Require Import base list numbers gmap.
From Stdlib Require Import ZArith Lia.
From S2P Require Import Prelude SafeMath.

#[local] Open Scope cfun_scope.

(** ** Definitions: transmission *)

Record QUIC_TXFC := mkTxfc {
  tx_parent : option nat;
  tx_swm : Z;
  tx_cwm : Z;
  has_become_blocked : bool
}.

Abbreviation TX := (gmap nat QUIC_TXFC).

Definition tx_load (p : nat) : M TX QUIC_TXFC :=
  fun s => match s !! p with Some x => (Ok x, s) | None => (Ub, s) end.

Definition tx_store (p : nat) (x : QUIC_TXFC) : M TX unit := modify <[p := x]>.

Definition ossl_quic_txfc_init (txfc : nat) (conn_txfc : option nat) : M TX bool :=
  let! bad :=
    match conn_txfc with
    | None => ret false
    | Some c => let! x := tx_load c in ret (bool_decide (tx_parent x <> None))
    end in
  if bad : bool then ret false
  else tx_store txfc (mkTxfc conn_txfc 0 0 false) ;;; ret true.

Definition ossl_quic_txfc_get_parent (txfc : nat) : M TX (option nat) :=
  let! x := tx_load txfc in ret (tx_parent x).

Definition ossl_quic_txfc_bump_cwm (txfc : nat) (cwm : Z) : M TX bool :=
  let! x := tx_load txfc in
  if cwm <=? tx_cwm x then ret false
  else tx_store txfc (mkTxfc (tx_parent x) (tx_swm x) cwm (has_become_blocked x)) ;;; ret true.

Definition ossl_quic_txfc_get_credit_local (txfc : nat) (consumed : Z) : M TX Z :=
  let! x := tx_load txfc in
  assert_ (u64 (tx_swm x + consumed) <=? tx_cwm x) ;;;
  ret (u64 (tx_cwm x - u64 (consumed + tx_swm x))).

Definition ossl_quic_txfc_get_credit (txfc : nat) (consumed : Z) : M TX Z :=
  let! r := ossl_quic_txfc_get_credit_local txfc 0 in
  let! x := tx_load txfc in
  match tx_parent x with
  | None => ret r
  | Some p =>
      let! xp := tx_load p in
      assert_ (bool_decide (tx_parent xp = None)) ;;;
      let! conn_r := ossl_quic_txfc_get_credit_local p consumed in
      ret (if conn_r <? r then conn_r else r)
  end.

Definition ossl_quic_txfc_consume_credit_local (txfc : nat) (num_bytes : Z) : M TX bool :=
  let! credit := ossl_quic_txfc_get_credit_local txfc 0 in
  let (ok, num_bytes) := if num_bytes >? credit then (false, credit) else (true, num_bytes) in
  let! x := tx_load txfc in
  let blocked := if (num_bytes >? 0) && (num_bytes =? credit) then true else has_become_blocked x in
  tx_store txfc (mkTxfc (tx_parent x) (u64 (tx_swm x + num_bytes)) (tx_cwm x) blocked) ;;;
  ret ok.

Definition ossl_quic_txfc_consume_credit (txfc : nat) (num_bytes : Z) : M TX bool :=
  let! ok := ossl_quic_txfc_consume_credit_local txfc num_bytes in
  let! x := tx_load txfc in
  match tx_parent x with
  | None => ret ok
  | Some p =>
      let! xp := tx_load p in
      assert_ (bool_decide (tx_parent xp = None)) ;;;
      let! okp := ossl_quic_txfc_consume_credit_local p num_bytes in
      if negb okp then ret false else ret ok
  end.

Definition ossl_quic_txfc_has_become_blocked (txfc : nat) (clear : bool) : M TX bool :=
  let! x := tx_load txfc in
  (if clear then tx_store txfc (mkTxfc (tx_parent x) (tx_swm x) (tx_cwm x) false) else ret tt) ;;;
  ret (has_become_blocked x).

Definition ossl_quic_txfc_get_cwm (txfc : nat) : M TX Z :=
  let! x := tx_load txfc in ret (tx_cwm x).

Definition ossl_quic_txfc_get_swm (txfc : nat) : M TX Z :=
  let! x := tx_load txfc in ret (tx_swm x).

(** ** Definitions: reception *)

Definition OSSL_QUIC_ERR_FLOW_CONTROL_ERROR : Z := 3.
Definition OSSL_QUIC_ERR_FINAL_SIZE_ERROR : Z := 6.

Record QUIC_RXFC := mkRxfc {
  cwm : Z; swm : Z; rwm : Z; esrwm : Z; hwm : Z;
  cur_window_size : Z; max_window_size : Z;
  epoch_start : OSSL_TIME;
  parent : option nat;
  error_code : Z;
  has_cwm_changed : bool;
  is_fin : bool;
  standalone : bool
}.

Definition set_swm (v : Z) (r : QUIC_RXFC) : QUIC_RXFC :=
  mkRxfc (cwm r) v (rwm r) (esrwm r) (hwm r) (cur_window_size r) (max_window_size r) (epoch_start r)
         (parent r) (error_code r) (has_cwm_changed r) (is_fin r) (standalone r).
Definition set_rwm (v : Z) (r : QUIC_RXFC) : QUIC_RXFC :=
  mkRxfc (cwm r) (swm r) v (esrwm r) (hwm r) (cur_window_size r) (max_window_size r) (epoch_start r)
         (parent r) (error_code r) (has_cwm_changed r) (is_fin r) (standalone r).
Definition set_hwm (v : Z) (r : QUIC_RXFC) : QUIC_RXFC :=
  mkRxfc (cwm r) (swm r) (rwm r) (esrwm r) v (cur_window_size r) (max_window_size r) (epoch_start r)
         (parent r) (error_code r) (has_cwm_changed r) (is_fin r) (standalone r).
Definition set_epoch (t : OSSL_TIME) (e : Z) (r : QUIC_RXFC) : QUIC_RXFC :=
  mkRxfc (cwm r) (swm r) (rwm r) e (hwm r) (cur_window_size r) (max_window_size r) t
         (parent r) (error_code r) (has_cwm_changed r) (is_fin r) (standalone r).
Definition set_windows (cur mx : Z) (r : QUIC_RXFC) : QUIC_RXFC :=
  mkRxfc (cwm r) (swm r) (rwm r) (esrwm r) (hwm r) cur mx (epoch_start r)
         (parent r) (error_code r) (has_cwm_changed r) (is_fin r) (standalone r).
Definition set_cwm (v : Z) (changed : bool) (r : QUIC_RXFC) : QUIC_RXFC :=
  mkRxfc v (swm r) (rwm r) (esrwm r) (hwm r) (cur_window_size r) (max_window_size r) (epoch_start r)
         (parent r) (error_code r) changed (is_fin r) (standalone r).
Definition set_error (e : Z) (r : QUIC_RXFC) : QUIC_RXFC :=
  mkRxfc (cwm r) (swm r) (rwm r) (esrwm r) (hwm r) (cur_window_size r) (max_window_size r) (epoch_start r)
         (parent r) e (has_cwm_changed r) (is_fin r) (standalone r).
Definition set_fin (fin : bool) (r : QUIC_RXFC) : QUIC_RXFC :=
  mkRxfc (cwm r) (swm r) (rwm r) (esrwm r) (hwm r) (cur_window_size r) (max_window_size r) (epoch_start r)
         (parent r) (error_code r) (has_cwm_changed r) fin (standalone r).
Definition set_standalone (sa : bool) (r : QUIC_RXFC) : QUIC_RXFC :=
  mkRxfc (cwm r) (swm r) (rwm r) (esrwm r) (hwm r) (cur_window_size r) (max_window_size r) (epoch_start r)
         (parent r) (error_code r) (has_cwm_changed r) (is_fin r) sa.

Record RX := mkRX {
  rxs : gmap nat QUIC_RXFC;
  readings : nat
}.

Definition rx_load (p : nat) : M RX QUIC_RXFC :=
  fun s => match rxs s !! p with Some x => (Ok x, s) | None => (Ub, s) end.

Definition rx_store (p : nat) (x : QUIC_RXFC) : M RX unit :=
  modify (fun s => mkRX (<[p := x]> (rxs s)) (readings s)).

(** An assignment to fields of the object at [p]. *)
Definition rx_set (p : nat) (f : QUIC_RXFC -> QUIC_RXFC) : M RX unit :=
  let! x := rx_load p in rx_store p (f x).

Section Reception.
(** The result of each reading of the clock. *)
Context (now : nat -> OSSL_TIME).

Definition read_clock : M RX OSSL_TIME :=
  fun s => (Ok (now (readings s)), mkRX (rxs s) (S (readings s))).

Definition ossl_quic_rxfc_init (rxfc : nat) (conn_rxfc : option nat)
    (initial_window_size max_window_size : Z) : M RX bool :=
  let! bad :=
    match conn_rxfc with
    | None => ret false
    | Some c => let! x := rx_load c in ret (bool_decide (parent x <> None))
    end in
  if bad : bool then ret false
  else
    rx_store rxfc (mkRxfc initial_window_size 0 0 0 0 initial_window_size max_window_size
                     ossl_time_zero conn_rxfc 0 false false false) ;;;
    ret true.

Definition ossl_quic_rxfc_init_standalone (rxfc : nat) (initial_window_size : Z) : M RX bool :=
  let! ok := ossl_quic_rxfc_init rxfc None initial_window_size initial_window_size in
  if negb ok then ret false else rx_set rxfc (set_standalone true) ;;; ret true.

Definition ossl_quic_rxfc_get_parent (rxfc : nat) : M RX (option nat) :=
  let! x := rx_load rxfc in ret (parent x).

Definition ossl_quic_rxfc_set_max_window_size (rxfc : nat) (max_window_size : Z) : M RX unit :=
  rx_set rxfc (fun r => set_windows (cur_window_size r) max_window_size r).

Definition rxfc_start_epoch (rxfc : nat) : M RX unit :=
  let! t := read_clock in rx_set rxfc (fun r => set_epoch t (rwm r) r).

Definition on_rx_controlled_bytes (rxfc : nat) (num_bytes : Z) : M RX bool :=
  let! x := rx_load rxfc in
  let credit := u64 (cwm x - swm x) in
  if num_bytes >? credit then
    rx_set rxfc (set_error OSSL_QUIC_ERR_FLOW_CONTROL_ERROR) ;;;
    rx_set rxfc (fun r => set_swm (u64 (swm r + credit)) r) ;;;
    ret false
  else
    rx_set rxfc (fun r => set_swm (u64 (swm r + num_bytes)) r) ;;;
    ret true.

Definition ossl_quic_rxfc_on_rx_stream_frame (rxfc : nat) (end_ : Z) (fin : bool) : M RX bool :=
  let! x := rx_load rxfc in
  if negb (standalone x) && bool_decide (parent x = None) then ret false
  else if is_fin x && ((fin && negb (hwm x =? end_)) || (end_ >? hwm x)) then
    rx_set rxfc (set_error OSSL_QUIC_ERR_FINAL_SIZE_ERROR) ;;; ret true
  else
    (if fin then rx_set rxfc (set_fin true) else ret tt) ;;;
    if end_ >? hwm x then
      let delta := u64 (end_ - hwm x) in
      rx_set rxfc (set_hwm end_) ;;;
      on_rx_controlled_bytes rxfc delta ;;;
      match parent x with
      | Some p => on_rx_controlled_bytes p delta ;;; ret true
      | None => ret true
      end
    else if (end_ <? hwm x) && fin then
      rx_set rxfc (set_error OSSL_QUIC_ERR_FINAL_SIZE_ERROR) ;;; ret true
    else ret true.

Definition WINDOW_THRESHOLD_NUM : Z := 3.
Definition WINDOW_THRESHOLD_DEN : Z := 4.

Definition rxfc_cwm_bump_desired (rxfc : nat) : M RX bool :=
  let! x := rx_load rxfc in
  let window_rem := u64 (cwm x - rwm x) in
  let (threshold, err) := safe_muldiv (cur_window_size x) WINDOW_THRESHOLD_NUM WINDOW_THRESHOLD_DEN in
  let threshold := if err : bool then cur_window_size x / 2 else threshold in
  ret (negb (is_fin x) && (window_rem <=? threshold)).

Definition rxfc_should_bump_window_size (rxfc : nat) (rtt : OSSL_TIME) : M RX bool :=
  let! x := rx_load rxfc in
  let b := u64 (rwm x - esrwm x) in
  if b =? 0 then ret false
  else
    let! t := read_clock in
    let dt := ossl_time_subtract t (epoch_start x) in
    let t_window := ossl_time_muldiv dt (cur_window_size x) b in
    ret (ossl_time_compare t_window (ossl_time_multiply rtt 4) <? 0).

Definition rxfc_adjust_window_size (rxfc : nat) (min_window_size : Z) (rtt : OSSL_TIME) : M RX unit :=
  let! x := rx_load rxfc in
  let! bump := rxfc_should_bump_window_size rxfc rtt in
  let new_window_size := if bump : bool then u64 (cur_window_size x * 2) else cur_window_size x in
  let new_window_size :=
    if new_window_size <? min_window_size then min_window_size else new_window_size in
  let new_window_size :=
    if new_window_size >? max_window_size x then max_window_size x else new_window_size in
  rx_set rxfc (set_windows new_window_size (max_window_size x)) ;;;
  rxfc_start_epoch rxfc.

Definition rxfc_update_cwm (rxfc : nat) (min_window_size : Z) (rtt : OSSL_TIME) : M RX unit :=
  let! desired := rxfc_cwm_bump_desired rxfc in
  if negb desired then ret tt
  else
    rxfc_adjust_window_size rxfc min_window_size rtt ;;;
    let! x := rx_load rxfc in
    let new_cwm := u64 (rwm x + cur_window_size x) in
    if new_cwm >? cwm x then rx_set rxfc (set_cwm new_cwm true) else ret tt.

Definition rxfc_on_retire (rxfc : nat) (num_bytes min_window_size : Z) (rtt : OSSL_TIME) : M RX bool :=
  let! x := rx_load rxfc in
  (if ossl_time_is_zero (epoch_start x) then rxfc_start_epoch rxfc else ret tt) ;;;
  rx_set rxfc (fun r => set_rwm (u64 (rwm r + num_bytes)) r) ;;;
  rxfc_update_cwm rxfc min_window_size rtt ;;;
  ret true.

Definition ossl_quic_rxfc_on_retire (rxfc : nat) (num_bytes : Z) (rtt : OSSL_TIME) : M RX bool :=
  let! x := rx_load rxfc in
  if bool_decide (parent x = None) && negb (standalone x) then ret false
  else if num_bytes =? 0 then ret true
  else if u64 (rwm x + num_bytes) >? swm x then ret false
  else
    rxfc_on_retire rxfc num_bytes 0 rtt ;;;
    (if negb (standalone x) then
       let! x := rx_load rxfc in
       match parent x with
       | Some p => rxfc_on_retire p num_bytes (cur_window_size x) rtt
       | None => undef
       end
     else ret true) ;;;
    ret true.

Definition ossl_quic_rxfc_get_cwm (rxfc : nat) : M RX Z := let! x := rx_load rxfc in ret (cwm x).
Definition ossl_quic_rxfc_get_swm (rxfc : nat) : M RX Z := let! x := rx_load rxfc in ret (swm x).
Definition ossl_quic_rxfc_get_rwm (rxfc : nat) : M RX Z := let! x := rx_load rxfc in ret (rwm x).

Definition ossl_quic_rxfc_get_credit (rxfc : nat) : M RX Z :=
  let! c := ossl_quic_rxfc_get_cwm rxfc in
  let! s := ossl_quic_rxfc_get_swm rxfc in
  ret (u64 (c - s)).

Definition ossl_quic_rxfc_has_cwm_changed (rxfc : nat) (clear : bool) : M RX bool :=
  let! x := rx_load rxfc in
  (if clear then rx_set rxfc (fun r => set_cwm (cwm r) false r) else ret tt) ;;;
  ret (has_cwm_changed x).

Definition ossl_quic_rxfc_get_error (rxfc : nat) (clear : bool) : M RX Z :=
  let! x := rx_load rxfc in
  (if clear then rx_set rxfc (set_error 0) else ret tt) ;;;
  ret (error_code x).

(** [None] when the final size is not known. *)
Definition ossl_quic_rxfc_get_final_size (rxfc : nat) : M RX (option Z) :=
  let! x := rx_load rxfc in
  ret (if negb (is_fin x) then None else Some (hwm x)).

End Reception.

(** ** Sums over a heap *)

Definition total {X} (f : X -> Z) (m : gmap nat X) : Z := map_fold (fun _ x a => f x + a) 0 m.

Section total.
Context {X : Type} (f : X -> Z).
Implicit Types m : gmap nat X.

Lemma total_empty : total f ∅ = 0.
Proof. apply map_fold_empty. Qed.

Lemma total_fresh m p x : m !! p = None -> total f (<[p := x]> m) = f x + total f m.
Proof.
  intros H. unfold total. apply (map_fold_insert_L (fun _ x a => f x + a)); [intros; lia|done].
Qed.

Lemma total_update m p x y : m !! p = Some x -> total f (<[p := y]> m) = total f m - f x + f y.
Proof.
  intros H. rewrite <-(insert_delete_id m p x H) at 2. rewrite <-insert_delete_eq.
  rewrite !total_fresh by apply lookup_delete_eq. lia.
Qed.

Lemma total_nonneg m : (forall p x, m !! p = Some x -> 0 <= f x) -> 0 <= total f m.
Proof.
  induction m as [|p x m Hp IH] using map_ind; [by rewrite total_empty|].
  intros H. rewrite total_fresh by done.
  assert (0 <= f x) by (apply (H p); by rewrite lookup_insert_eq).
  assert (0 <= total f m); [|lia]. apply IH. intros q y Hq. apply (H q).
  rewrite lookup_insert_ne; [done|]. intros ->. congruence.
Qed.

(** One item is at most the sum. *)
Lemma total_item m p x : (forall q y, m !! q = Some y -> 0 <= f y) -> m !! p = Some x -> f x <= total f m.
Proof.
  intros H Hp. rewrite <-(insert_delete_id m p x Hp), total_fresh by apply lookup_delete_eq.
  assert (0 <= total f (delete p m)); [|lia]. apply total_nonneg. intros q y Hq.
  apply lookup_delete_Some in Hq as [_ Hq]. eauto.
Qed.

Lemma total_zero m : (forall p x, m !! p = Some x -> f x = 0) -> total f m = 0.
Proof.
  induction m as [|p x m Hp IH] using map_ind; [by rewrite total_empty|].
  intros H. rewrite total_fresh by done.
  rewrite (H p x) by (by rewrite lookup_insert_eq). rewrite IH; [done|]. intros q y Hq. apply (H q).
  rewrite lookup_insert_ne; [done|]. intros ->. congruence.
Qed.
End total.

(** ** Objects that share a parent *)

(** [f] of the objects whose parent is [c]. *)
Definition of_child {X} (par : X -> option nat) (c : nat) (f : X -> Z) (x : X) : Z :=
  if bool_decide (par x = Some c) then f x else 0.

Section parents.
Context {X : Type} (par : X -> option nat) (f : X -> Z).
Implicit Types m : gmap nat X.

(** A parent exists and has no parent. *)
Definition parents_ok m : Prop :=
  forall p x c, m !! p = Some x -> par x = Some c -> exists xc, m !! c = Some xc /\ par xc = None.

(** [f] of a parent is the sum of [f] over its children. *)
Definition balanced m : Prop :=
  forall c x, m !! c = Some x -> par x = None -> f x = total (of_child par c f) m.

Lemma parents_ok_update m p x y :
  parents_ok m -> m !! p = Some x -> par y = par x -> parents_ok (<[p := y]> m).
Proof.
  intros Hm Hp Hpar q z c Hq Hz.
  assert (exists z0, m !! q = Some z0 /\ par z0 = Some c) as (z0 & Hz0 & Hz0c).
  { destruct (decide (q = p)) as [->|Hne].
    - rewrite lookup_insert_eq in Hq. simplify_eq. exists x. split; congruence.
    - rewrite lookup_insert_ne in Hq by done. eauto. }
  destruct (Hm q z0 c Hz0 Hz0c) as (xc & Hxc & Hnone).
  destruct (decide (c = p)) as [->|Hne].
  - exists y. rewrite lookup_insert_eq. split; congruence.
  - exists xc. by rewrite lookup_insert_ne.
Qed.

Lemma parents_ok_fresh m p x :
  parents_ok m -> m !! p = None ->
  (forall c, par x = Some c -> exists xc, m !! c = Some xc /\ par xc = None) ->
  parents_ok (<[p := x]> m).
Proof.
  intros Hm Hp Hx q z c Hq Hz.
  assert (exists xc, m !! c = Some xc /\ par xc = None) as (xc & Hxc & Hnone).
  { destruct (decide (q = p)) as [->|Hne].
    - rewrite lookup_insert_eq in Hq. simplify_eq. eauto.
    - rewrite lookup_insert_ne in Hq by done. by eapply Hm. }
  exists xc. rewrite lookup_insert_ne; [done|]. intros ->. congruence.
Qed.

Lemma of_child_eq c x y : par y = par x -> f y = f x -> of_child par c f y = of_child par c f x.
Proof. unfold of_child. by intros -> ->. Qed.

(** A change that keeps the parent and [f]. *)
Lemma balanced_same m p x y :
  balanced m -> m !! p = Some x -> par y = par x -> f y = f x -> balanced (<[p := y]> m).
Proof.
  intros Hb Hp Hpar Hf c z Hc Hz.
  rewrite (total_update _ _ _ _ _ Hp), (of_child_eq _ x y) by done.
  replace (f z) with (total (of_child par c f) m); [lia|].
  destruct (decide (c = p)) as [->|Hne].
  - rewrite lookup_insert_eq in Hc. simplify_eq. rewrite Hf. symmetry. apply Hb; [done|congruence].
  - rewrite lookup_insert_ne in Hc by done. symmetry. by apply Hb.
Qed.

Lemma balanced_fresh m p x :
  parents_ok m -> balanced m -> m !! p = None -> f x = 0 -> balanced (<[p := x]> m).
Proof.
  intros Hm Hb Hp Hx c z Hc Hz. rewrite total_fresh by done.
  replace (of_child par c f x) with 0 by (unfold of_child; rewrite Hx; by case_bool_decide).
  destruct (decide (c = p)) as [->|Hne].
  - rewrite lookup_insert_eq in Hc. simplify_eq. rewrite Hx, total_zero; [done|].
    intros q y Hq. unfold of_child. case_bool_decide as Hy; [|done].
    destruct (Hm q y p Hq Hy) as (? & ? & _). congruence.
  - rewrite lookup_insert_ne in Hc by done. by rewrite (Hb c z).
Qed.

(** A child and its parent change by the same amount. *)
Lemma balanced_shift m t x x' c xc xc' d :
  balanced m -> m !! t = Some x -> par x = Some c -> m !! c = Some xc -> par xc = None ->
  par x' = par x -> par xc' = par xc -> f x' = f x + d -> f xc' = f xc + d ->
  balanced (<[c := xc']> (<[t := x']> m)).
Proof.
  intros Hb Ht Hp Hc Hnone Hpx Hpc Hfx Hfc e z He Hz.
  assert (Hne : c <> t) by (intros ->; congruence).
  assert (Hc1 : (<[t := x']> m) !! c = Some xc) by by rewrite lookup_insert_ne.
  rewrite (total_update _ _ _ _ _ Hc1), (total_update _ _ _ _ _ Ht).
  unfold of_child at 2 3 4 5. rewrite Hpx, Hpc, Hp, Hnone, !(bool_decide_false (None = _)) by done.
  destruct (decide (e = c)) as [->|Hec].
  - rewrite lookup_insert_eq in He. simplify_eq. rewrite bool_decide_true by done.
    pose proof (Hb c xc Hc Hnone). lia.
  - rewrite bool_decide_false by congruence.
    rewrite lookup_insert_ne in He by done. destruct (decide (e = t)) as [->|Het].
    + rewrite lookup_insert_eq in He. simplify_eq. congruence.
    + rewrite lookup_insert_ne in He by done. rewrite (Hb e z) by done. lia.
Qed.
End parents.

(** ** Transmission: lemmas *)

Definition tx_ok (x : QUIC_TXFC) : Prop := 0 <= tx_swm x <= tx_cwm x /\ tx_cwm x < U64_MOD.

(** The effect of consuming [n] bytes on one controller. *)
Definition tx_consume (n : Z) (x : QUIC_TXFC) : QUIC_TXFC :=
  let credit := tx_cwm x - tx_swm x in
  mkTxfc (tx_parent x) (tx_swm x + Z.min n credit) (tx_cwm x)
         (if (0 <? credit) && (credit <=? n) then true else has_become_blocked x).

Lemma tx_load_ok s p x : s !! p = Some x -> tx_load p s = (Ok x, s).
Proof. unfold tx_load. by intros ->. Qed.

Lemma get_credit_local_ok s p x c :
  s !! p = Some x -> tx_ok x -> 0 <= c <= tx_cwm x - tx_swm x ->
  ossl_quic_txfc_get_credit_local p c s = (Ok (tx_cwm x - tx_swm x - c), s).
Proof.
  intros H Hx Hc. unfold ossl_quic_txfc_get_credit_local.
  rewrite (bind_ok _ _ _ _ _ (tx_load_ok _ _ _ H)). unfold tx_ok, U64_MOD in Hx.
  rewrite (u64_id (tx_swm x + c)) by lia. rewrite (u64_id (c + tx_swm x)) by lia.
  unfold assert_. replace (tx_swm x + c <=? tx_cwm x) with true by lia.
  cbn. unfold ret, bind. do 2 f_equal. rewrite u64_id by lia. lia.
Qed.

Lemma consume_credit_local_ok s p x n :
  s !! p = Some x -> tx_ok x -> 0 <= n ->
  ossl_quic_txfc_consume_credit_local p n s =
  (Ok (n <=? tx_cwm x - tx_swm x), <[p := tx_consume n x]> s).
Proof.
  intros H Hx Hn. unfold ossl_quic_txfc_consume_credit_local.
  rewrite (bind_ok _ _ _ _ _ (get_credit_local_ok s p x 0 H Hx ltac:(unfold tx_ok in Hx; lia))).
  rewrite Z.sub_0_r. unfold tx_ok, U64_MOD in Hx.
  destruct (Z.gtb_spec n (tx_cwm x - tx_swm x)) as [Hgt|Hgt];
    rewrite (bind_ok _ _ _ _ _ (tx_load_ok _ _ _ H));
    unfold tx_store, modify, bind, ret, tx_consume; repeat f_equal;
    first [lia | rewrite u64_id by lia; lia | idtac].
  - destruct (Z.ltb_spec 0 (tx_cwm x - tx_swm x)), (Z.leb_spec (tx_cwm x - tx_swm x) n),
      (Z.gtb_spec (tx_cwm x - tx_swm x) 0), (Z.eqb_spec (tx_cwm x - tx_swm x) (tx_cwm x - tx_swm x));
      cbn; try lia; done.
  - destruct (Z.ltb_spec 0 (tx_cwm x - tx_swm x)), (Z.leb_spec (tx_cwm x - tx_swm x) n),
      (Z.gtb_spec n 0), (Z.eqb_spec n (tx_cwm x - tx_swm x)); cbn; try lia; done.
Qed.

Lemma tx_consume_ok n x : 0 <= n -> tx_ok x -> tx_ok (tx_consume n x).
Proof. unfold tx_ok, tx_consume; cbn; lia. Qed.

(** Every controller is within its credit, and a parent exists and is a
    connection-level controller. *)
Definition tx_wf (s : TX) : Prop :=
  (forall p x, s !! p = Some x -> tx_ok x) /\ parents_ok tx_parent s.

(** What a connection has sent is what its streams have sent. *)
Definition tx_balanced (s : TX) : Prop := balanced tx_parent tx_swm s.

Lemma tx_wf_ok s p x : tx_wf s -> s !! p = Some x -> tx_ok x.
Proof. intros [H _]. apply H. Qed.

Lemma tx_wf_parent s t x c xc :
  tx_wf s -> s !! t = Some x -> tx_parent x = Some c -> s !! c = Some xc -> tx_parent xc = None /\ t <> c.
Proof.
  intros [_ H] Ht Hp Hc. destruct (H t x c Ht Hp) as (xc' & Hc' & Hnone).
  simplify_eq. split; [done|]. intros ->. congruence.
Qed.

Lemma get_credit_stream s t x c xc k :
  tx_wf s -> s !! t = Some x -> tx_parent x = Some c -> s !! c = Some xc ->
  0 <= k <= tx_cwm xc - tx_swm xc ->
  ossl_quic_txfc_get_credit t k s =
  (Ok (Z.min (tx_cwm x - tx_swm x) (tx_cwm xc - tx_swm xc - k)), s).
Proof.
  intros Hw Ht Hp Hc Hk. pose proof (tx_wf_ok _ _ _ Hw Ht) as Hx. pose proof (tx_wf_ok _ _ _ Hw Hc) as Hxc.
  destruct (tx_wf_parent _ _ _ _ _ Hw Ht Hp Hc) as [Hnone Hne].
  unfold ossl_quic_txfc_get_credit.
  rewrite (bind_ok _ _ _ _ _ (get_credit_local_ok s t x 0 Ht Hx ltac:(unfold tx_ok in Hx; lia))).
  rewrite (bind_ok _ _ _ _ _ (tx_load_ok _ _ _ Ht)), Hp.
  rewrite (bind_ok _ _ _ _ _ (tx_load_ok _ _ _ Hc)), bool_decide_true by done.
  change (assert_ true) with (@ret TX _ tt). rewrite (bind_ok _ _ s tt s) by done.
  rewrite (bind_ok _ _ _ _ _ (get_credit_local_ok s c xc k Hc Hxc Hk)).
  unfold ret. do 2 f_equal. destruct (Z.ltb_spec (tx_cwm xc - tx_swm xc - k) (tx_cwm x - tx_swm x - 0)); lia.
Qed.

Lemma consume_credit_stream s t x c xc n :
  tx_wf s -> s !! t = Some x -> tx_parent x = Some c -> s !! c = Some xc -> 0 <= n ->
  ossl_quic_txfc_consume_credit t n s =
  (Ok ((n <=? tx_cwm x - tx_swm x) && (n <=? tx_cwm xc - tx_swm xc)),
   <[c := tx_consume n xc]> (<[t := tx_consume n x]> s)).
Proof.
  intros Hw Ht Hp Hc Hn. pose proof (tx_wf_ok _ _ _ Hw Ht) as Hx. pose proof (tx_wf_ok _ _ _ Hw Hc) as Hxc.
  destruct (tx_wf_parent _ _ _ _ _ Hw Ht Hp Hc) as [Hnone Hne].
  unfold ossl_quic_txfc_consume_credit.
  rewrite (bind_ok _ _ _ _ _ (consume_credit_local_ok s t x n Ht Hx Hn)).
  assert (Ht' : (<[t := tx_consume n x]> s) !! t = Some (tx_consume n x)) by by rewrite lookup_insert_eq.
  assert (Hc1 : (<[t := tx_consume n x]> s) !! c = Some xc) by by rewrite lookup_insert_ne.
  rewrite (bind_ok _ _ _ _ _ (tx_load_ok _ _ _ Ht')). cbn [tx_consume tx_parent]. rewrite Hp.
  rewrite (bind_ok _ _ _ _ _ (tx_load_ok _ _ _ Hc1)), bool_decide_true by done.
  change (assert_ true) with (@ret TX _ tt). rewrite (bind_ok _ _ _ tt _) by done.
  rewrite (bind_ok _ _ _ _ _ (consume_credit_local_ok _ c xc n Hc1 Hxc Hn)).
  destruct (n <=? tx_cwm x - tx_swm x), (n <=? tx_cwm xc - tx_swm xc); done.
Qed.

Lemma tx_wf_update s p x y :
  tx_wf s -> s !! p = Some x -> tx_ok y -> tx_parent y = tx_parent x -> tx_wf (<[p := y]> s).
Proof.
  intros [Hw Hpar] Hp Hy He. split; [|by eapply parents_ok_update].
  intros q z [[<- <-]|[_ Hq]]%lookup_insert_Some; eauto.
Qed.

Lemma tx_wf_fresh s p x :
  tx_wf s -> s !! p = None -> tx_ok x ->
  (forall c, tx_parent x = Some c -> exists xc, s !! c = Some xc /\ tx_parent xc = None) ->
  tx_wf (<[p := x]> s).
Proof.
  intros [Hw Hpar] Hp Hx Hc. split; [|by apply parents_ok_fresh].
  intros q z [[<- <-]|[_ Hq]]%lookup_insert_Some; eauto.
Qed.

(** ** Transmission: the controllers of a connection over time *)

(** A call of the interface that respects its contract: an object is initialised
    once, with a parent that exists, and a stream sends no more than the credit
    that it is told. *)
Inductive tx_step (s s' : TX) : Prop :=
  | tx_step_init t conn r :
      s !! t = None -> (forall c, conn = Some c -> is_Some (s !! c)) ->
      ossl_quic_txfc_init t conn s = (Ok r, s') -> tx_step s s'
  | tx_step_bump_cwm t cwm r :
      is_Some (s !! t) -> is_u64 cwm -> ossl_quic_txfc_bump_cwm t cwm s = (Ok r, s') -> tx_step s s'
  | tx_step_consume t c k n r :
      ossl_quic_txfc_get_parent t s = (Ok (Some c), s) ->
      ossl_quic_txfc_get_credit t 0 s = (Ok k, s) -> 0 <= n <= k ->
      ossl_quic_txfc_consume_credit t n s = (Ok r, s') -> tx_step s s'
  | tx_step_blocked t clear r :
      ossl_quic_txfc_has_become_blocked t clear s = (Ok r, s') -> tx_step s s'.

Lemma tx_load_inv {A} p (k : QUIC_TXFC -> M TX A) s r s' :
  (let! x := tx_load p in k x) s = (Ok r, s') -> exists x, s !! p = Some x /\ k x s = (Ok r, s').
Proof. unfold bind, tx_load. destruct (s !! p) as [x|]; intros H; [eauto|done]. Qed.

Lemma tx_step_consume_inv s t c k n r s' :
  tx_wf s -> tx_balanced s ->
  ossl_quic_txfc_get_parent t s = (Ok (Some c), s) ->
  ossl_quic_txfc_get_credit t 0 s = (Ok k, s) -> 0 <= n <= k ->
  ossl_quic_txfc_consume_credit t n s = (Ok r, s') -> tx_wf s' /\ tx_balanced s'.
Proof.
  intros Hw Hb Hp Hk Hn H. apply tx_load_inv in Hp as (x & Ht & [= Hp]).
  pose proof (tx_wf_ok _ _ _ Hw Ht) as Hx. destruct (proj2 Hw t x c Ht Hp) as (xc & Hc & Hnone).
  pose proof (tx_wf_ok _ _ _ Hw Hc) as Hxc. destruct (tx_wf_parent _ _ _ _ _ Hw Ht Hp Hc) as [_ Hne].
  rewrite (get_credit_stream s t x c xc 0) in Hk by (done || unfold tx_ok in *; lia).
  injection Hk as <-. rewrite (consume_credit_stream s t x c xc n) in H by (done || lia).
  injection H as <- <-. split.
  - eapply tx_wf_update; [|by rewrite lookup_insert_ne|apply tx_consume_ok; [lia|done]|done].
    eapply tx_wf_update; [done|exact Ht|apply tx_consume_ok; [lia|done]|done].
  - eapply (balanced_shift _ _ _ _ x _ _ xc _ n); (done || cbn; lia).
Qed.

Lemma tx_step_preserves s s' : tx_step s s' -> tx_wf s -> tx_balanced s -> tx_wf s' /\ tx_balanced s'.
Proof.
  intros Hstep Hw Hb.
  destruct Hstep as [t conn r Ht Hconn H|t cw r [x Ht] Hcwm H|t c k n r Hp Hk Hn H|t clear r H].
  - unfold ossl_quic_txfc_init in H. destruct conn as [c|].
    + destruct (Hconn c eq_refl) as [xc Hc].
      rewrite (bind_ok _ _ s (bool_decide (tx_parent xc <> None)) s) in H
        by by rewrite (bind_ok _ _ _ _ _ (tx_load_ok _ _ _ Hc)).
      case_bool_decide as Hpc; [by injection H as <- <-|].
      injection H as <- <-. split.
      * apply tx_wf_fresh; [done|done|split; cbn; unfold U64_MOD; lia|]. intros c' [= <-].
        exists xc. split; [done|]. by destruct (tx_parent xc); [destruct Hpc|].
      * apply balanced_fresh; [apply Hw|done..].
    + injection H as <- <-. split.
      * apply tx_wf_fresh; [done|done|split; cbn; unfold U64_MOD; lia|done].
      * apply balanced_fresh; [apply Hw|done..].
  - unfold ossl_quic_txfc_bump_cwm in H. rewrite (bind_ok _ _ _ _ _ (tx_load_ok _ _ _ Ht)) in H.
    pose proof (tx_wf_ok _ _ _ Hw Ht) as Hx.
    destruct (Z.leb_spec cw (tx_cwm x)); [by injection H as <- <-|].
    injection H as <- <-. split; [eapply tx_wf_update|eapply balanced_same]; try done.
    unfold tx_ok, is_u64 in *; cbn; lia.
  - by eapply tx_step_consume_inv.
  - apply tx_load_inv in H as (x & Ht & H). pose proof (tx_wf_ok _ _ _ Hw Ht) as Hx.
    destruct clear; injection H as <- <-; [|done].
    split; [eapply tx_wf_update|eapply balanced_same]; done.
Qed.

Lemma tx_reachable s : rtc tx_step ∅ s -> tx_wf s /\ tx_balanced s.
Proof.
  intros H. assert (H0 : tx_wf ∅ /\ tx_balanced ∅) by (split; [split|]; intros ? ?; rewrite ?lookup_empty; done).
  revert H0. induction H as [|s1 s2 s3 H12 _ IH]; [done|]. intros [Hw Hb].
  apply IH. by eapply tx_step_preserves.
Qed.

(** C30: whatever sequence of calls that respect the contract of the interface is
    made, no transmission controller has sent more than its credit, and what a
    connection-level controller counts as sent is the sum of what the controllers
    of its streams have sent. *)
Theorem txfc_credit_conserved s :
  rtc tx_step ∅ s ->
  forall p x, s !! p = Some x ->
    0 <= tx_swm x <= tx_cwm x /\
    (tx_parent x = None -> tx_swm x = total (of_child tx_parent p tx_swm) s).
Proof.
  intros [Hw Hb]%tx_reachable p x H. split; [|by apply Hb].
  pose proof (tx_wf_ok _ _ _ Hw H) as Hx. unfold tx_ok in Hx. lia.
Qed.

(** Two streams on a connection. *)
Definition tx_example : TX :=
  let s := snd (ossl_quic_txfc_init 0 None ∅) in
  let s := snd (ossl_quic_txfc_init 1 (Some 0%nat) s) in
  let s := snd (ossl_quic_txfc_init 2 (Some 0%nat) s) in
  let s := snd (ossl_quic_txfc_bump_cwm 0 100 s) in
  let s := snd (ossl_quic_txfc_bump_cwm 1 70 s) in
  let s := snd (ossl_quic_txfc_bump_cwm 2 70 s) in
  let s := snd (ossl_quic_txfc_consume_credit 1 60 s) in
  snd (ossl_quic_txfc_consume_credit 2 40 s).

Lemma txfc_credit_conserved_witness :
  tx_example !! 0%nat = Some (mkTxfc None 100 100 true) /\
  100 = total (of_child tx_parent 0 tx_swm) tx_example.
Proof.
  split; [vm_compute; reflexivity|].
  apply (txfc_credit_conserved tx_example) with (p := 0%nat) (x := mkTxfc None 100 100 true);
    [|vm_compute; reflexivity|reflexivity].
  eapply rtc_l; [eapply (tx_step_init _ _ 0 None); [vm_compute; reflexivity|done|vm_compute; reflexivity]|].
  eapply rtc_l; [eapply (tx_step_init _ _ 1 (Some 0%nat));
    [vm_compute; reflexivity|intros ? [= <-]; vm_compute; eauto|vm_compute; reflexivity]|].
  eapply rtc_l; [eapply (tx_step_init _ _ 2 (Some 0%nat));
    [vm_compute; reflexivity|intros ? [= <-]; vm_compute; eauto|vm_compute; reflexivity]|].
  eapply rtc_l; [eapply (tx_step_bump_cwm _ _ 0 100); [vm_compute; eauto|vm_compute; split; congruence|vm_compute; reflexivity]|].
  eapply rtc_l; [eapply (tx_step_bump_cwm _ _ 1 70); [vm_compute; eauto|vm_compute; split; congruence|vm_compute; reflexivity]|].
  eapply rtc_l; [eapply (tx_step_bump_cwm _ _ 2 70); [vm_compute; eauto|vm_compute; split; congruence|vm_compute; reflexivity]|].
  eapply rtc_l; [eapply (tx_step_consume _ _ 1 0 70 60);
    [vm_compute; reflexivity|vm_compute; reflexivity|lia|vm_compute; reflexivity]|].
  eapply rtc_l; [eapply (tx_step_consume _ _ 2 0 40 40);
    [vm_compute; reflexivity|vm_compute; reflexivity|lia|vm_compute; reflexivity]|].
  vm_compute. constructor.
Defined.

(** consuming on a stream returns 1 exactly when the amount is within the
    credit reported for it, which is the lesser of the credits of the stream and
    of the connection; the stream and the connection each advance by the amount
    or up to their limit, and a controller whose limit is reached becomes
    blocked. *)
Theorem txfc_consume_spec s t x c xc n :
  tx_wf s -> s !! t = Some x -> tx_parent x = Some c -> s !! c = Some xc -> 0 <= n ->
  exists k s', ossl_quic_txfc_get_credit t 0 s = (Ok k, s) /\
    ossl_quic_txfc_consume_credit t n s = (Ok (n <=? k), s') /\ tx_wf s' /\
    (forall q, q <> t -> q <> c -> s' !! q = s !! q) /\
    exists x' xc', s' !! t = Some x' /\ s' !! c = Some xc' /\
      tx_swm x' = Z.min (tx_swm x + n) (tx_cwm x) /\
      tx_swm xc' = Z.min (tx_swm xc + n) (tx_cwm xc) /\
      (tx_swm x < tx_cwm x -> tx_swm x' = tx_cwm x -> has_become_blocked x' = true) /\
      (tx_swm xc < tx_cwm xc -> tx_swm xc' = tx_cwm xc -> has_become_blocked xc' = true).
Proof.
  intros Hw Ht Hp Hc Hn. pose proof (tx_wf_ok _ _ _ Hw Ht) as Hx. pose proof (tx_wf_ok _ _ _ Hw Hc) as Hxc.
  destruct (tx_wf_parent _ _ _ _ _ Hw Ht Hp Hc) as [Hnone Hne].
  assert (Hu1 := tx_wf_update _ _ _ (tx_consume n x) Hw Ht (tx_consume_ok n x Hn Hx) eq_refl).
  do 2 eexists. split_and!; [apply (get_credit_stream s t x c xc 0); (done || unfold tx_ok in *; lia)| | | |].
  - rewrite (consume_credit_stream s t x c xc n) by done. do 2 f_equal.
    destruct (Z.leb_spec n (tx_cwm x - tx_swm x)), (Z.leb_spec n (tx_cwm xc - tx_swm xc)); cbn; lia.
  - eapply tx_wf_update; [exact Hu1|by rewrite lookup_insert_ne| |done]. by apply tx_consume_ok.
  - intros q Hqt Hqc. by rewrite !lookup_insert_ne.
  - exists (tx_consume n x), (tx_consume n xc).
    rewrite lookup_insert_ne, !lookup_insert_eq by done. cbn [tx_consume tx_swm has_become_blocked].
    unfold tx_ok in *. split_and!; [done|done|lia|lia| |]; intros; [destruct (Z.ltb_spec 0 (tx_cwm x - tx_swm x)), (Z.leb_spec (tx_cwm x - tx_swm x) n)
      |destruct (Z.ltb_spec 0 (tx_cwm xc - tx_swm xc)), (Z.leb_spec (tx_cwm xc - tx_swm xc) n)]; cbn; lia || done.
Qed.

Definition tx_pair : TX :=
  <[0%nat := mkTxfc None 30 100 false]> (<[1%nat := mkTxfc (Some 0%nat) 30 60 false]> ∅).

Lemma tx_pair_wf : tx_wf tx_pair.
Proof.
  split.
  - intros p x. unfold tx_pair. rewrite !lookup_insert_Some, lookup_empty.
    intros [[<- <-]|[Hp [[<- <-]|[_ [=]]]]]; vm_compute; intuition congruence.
  - intros p x c. unfold tx_pair at 1. rewrite !lookup_insert_Some, lookup_empty.
    intros [[<- <-]|[Hp [[<- <-]|[_ [=]]]]]; [done|]. intros [= <-].
    exists (mkTxfc None 30 100 false). split; vm_compute; reflexivity.
Qed.

Lemma txfc_consume_spec_witness :
  exists k s', ossl_quic_txfc_get_credit 1 0 tx_pair = (Ok k, tx_pair) /\
    ossl_quic_txfc_consume_credit 1 40 tx_pair = (Ok (40 <=? k), s') /\ tx_wf s' /\
    (forall q, q <> 1%nat -> q <> 0%nat -> s' !! q = tx_pair !! q) /\
    exists x' xc', s' !! 1%nat = Some x' /\ s' !! 0%nat = Some xc' /\
      tx_swm x' = Z.min (30 + 40) 60 /\
      tx_swm xc' = Z.min (30 + 40) 100 /\
      (30 < 60 -> tx_swm x' = 60 -> has_become_blocked x' = true) /\
      (30 < 100 -> tx_swm xc' = 100 -> has_become_blocked xc' = true).
Proof.
  apply (txfc_consume_spec tx_pair 1 (mkTxfc (Some 0%nat) 30 60 false) 0 (mkTxfc None 30 100 false) 40);
    [apply tx_pair_wf|vm_compute; reflexivity..|lia].
Defined.

(** ** Reception: lemmas *)

Lemma rx_load_ok s p x : rxs s !! p = Some x -> rx_load p s = (Ok x, s).
Proof. unfold rx_load. by intros ->. Qed.

Lemma rx_set_ok s p x f :
  rxs s !! p = Some x -> rx_set p f s = (Ok tt, mkRX (<[p := f x]> (rxs s)) (readings s)).
Proof. intros H. unfold rx_set. by rewrite (bind_ok _ _ _ _ _ (rx_load_ok _ _ _ H)). Qed.

(** The bytes of the frames and the windows stay below the QUIC limit of 2^62, so
    that no watermark wraps around. *)
Definition LIMIT : Z := 4611686018427387904.

Definition rx_ok (x : QUIC_RXFC) : Prop :=
  0 <= esrwm x <= rwm x /\ 0 <= swm x <= cwm x /\ 0 <= hwm x < LIMIT /\
  rwm x <= swm x /\ swm x < LIMIT /\ cwm x < 2 * LIMIT /\
  0 <= cur_window_size x < LIMIT /\ 0 <= max_window_size x < LIMIT.

(** What receiving [n] new bytes does to one controller. *)
Definition rx_receive (n : Z) (x : QUIC_RXFC) : QUIC_RXFC :=
  set_swm (Z.min (swm x + n) (cwm x))
    (if n >? cwm x - swm x then set_error OSSL_QUIC_ERR_FLOW_CONTROL_ERROR x else x).

Ltac rfields :=
  cbn [cwm swm rwm esrwm hwm cur_window_size max_window_size epoch_start parent error_code
       has_cwm_changed is_fin standalone set_swm set_rwm set_hwm set_epoch set_windows set_cwm
       set_error set_fin set_standalone] in *.

Ltac rlia := unfold rx_ok, LIMIT, U64_MOD in *; rfields; lia.

Lemma on_rx_controlled_bytes_ok s p x n :
  rxs s !! p = Some x -> rx_ok x -> 0 <= n ->
  on_rx_controlled_bytes p n s =
  (Ok (n <=? cwm x - swm x), mkRX (<[p := rx_receive n x]> (rxs s)) (readings s)).
Proof.
  intros H Hx Hn. unfold on_rx_controlled_bytes. rewrite (bind_ok _ _ _ _ _ (rx_load_ok _ _ _ H)).
  rewrite (u64_id (cwm x - swm x)) by rlia. unfold rx_receive.
  destruct (Z.gtb_spec n (cwm x - swm x)) as [Hgt|Hgt].
  - rewrite (bind_ok _ _ _ _ _ (rx_set_ok _ _ _ _ H)).
    rewrite (bind_ok _ _ _ _ _ (rx_set_ok (mkRX _ _) p _ _ (lookup_insert_eq (rxs s) p _))).
    unfold ret. cbn [rxs readings]. rewrite insert_insert_eq. rfields.
    replace (n <=? cwm x - swm x) with false by lia.
    rewrite u64_id by rlia. do 5 f_equal. lia.
  - rewrite (bind_ok _ _ _ _ _ (rx_set_ok _ _ _ _ H)). unfold ret.
    replace (n <=? cwm x - swm x) with true by lia.
    rewrite u64_id by rlia. do 5 f_equal. lia.
Qed.

(** What retiring [n] bytes does to one controller. *)
Record retired (n : Z) (x x' : QUIC_RXFC) : Prop := {
  retired_ok : rx_ok x';
  retired_rwm : rwm x' = rwm x + n;
  retired_swm : swm x' = swm x;
  retired_hwm : hwm x' = hwm x;
  retired_parent : parent x' = parent x;
  retired_error : error_code x' = error_code x;
  retired_fin : is_fin x' = is_fin x;
  retired_standalone : standalone x' = standalone x;
  retired_mono : cwm x <= cwm x';
  retired_bound : cwm x' <= Z.max (cwm x) (rwm x' + max_window_size x);
  retired_window : is_fin x = false -> 3 * cur_window_size x' <= 4 * (cwm x' - rwm x');
  retired_signal : cwm x' <> cwm x -> has_cwm_changed x' = true
}.

Section RetireLemmas.
Context (now : nat -> OSSL_TIME).

Lemma rxfc_start_epoch_ok s p x :
  rxs s !! p = Some x ->
  rxfc_start_epoch now p s =
  (Ok tt, mkRX (<[p := set_epoch (now (readings s)) (rwm x) x]> (rxs s)) (S (readings s))).
Proof.
  intros H. unfold rxfc_start_epoch, read_clock. unfold bind at 1.
  by rewrite (rx_set_ok (mkRX _ _) p x).
Qed.

Lemma cwm_bump_desired_ok s p x :
  rxs s !! p = Some x -> rx_ok x ->
  rxfc_cwm_bump_desired p s =
  (Ok (negb (is_fin x) && (cwm x - rwm x <=? cur_window_size x * 3 / 4)), s).
Proof.
  intros H Hx. unfold rxfc_cwm_bump_desired. rewrite (bind_ok _ _ _ _ _ (rx_load_ok _ _ _ H)).
  unfold safe_muldiv, WINDOW_THRESHOLD_DEN, WINDOW_THRESHOLD_NUM. cbn [Z.eqb].
  rewrite safe_mul_ok by rlia. cbn [negb]. rewrite u64_id by rlia. done.
Qed.

Lemma should_bump_ok s p x rtt :
  rxs s !! p = Some x ->
  exists b k, rxfc_should_bump_window_size now p rtt s = (Ok b, mkRX (rxs s) k).
Proof.
  intros H. unfold rxfc_should_bump_window_size. rewrite (bind_ok _ _ _ _ _ (rx_load_ok _ _ _ H)).
  destruct (u64 (rwm x - esrwm x) =? 0).
  - exists false, (readings s). by destruct s.
  - unfold read_clock, bind, ret. eauto.
Qed.

Lemma adjust_window_ok s p x w rtt :
  rxs s !! p = Some x -> rx_ok x -> 0 <= w ->
  exists cur t k, 0 <= cur <= max_window_size x /\
    rxfc_adjust_window_size now p w rtt s =
    (Ok tt, mkRX (<[p := set_epoch t (rwm x) (set_windows cur (max_window_size x) x)]> (rxs s)) k).
Proof.
  intros H Hx Hw. unfold rxfc_adjust_window_size. rewrite (bind_ok _ _ _ _ _ (rx_load_ok _ _ _ H)).
  destruct (should_bump_ok s p x rtt H) as (b & k & Hb). rewrite (bind_ok _ _ _ _ _ Hb).
  set (c1 := if b then u64 (cur_window_size x * 2) else cur_window_size x).
  assert (Hc1 : 0 <= c1) by (subst c1; destruct b; [apply u64_range|rlia]).
  set (c2 := if c1 <? w then w else c1). set (c3 := if c2 >? max_window_size x then _ else c2).
  rewrite (bind_ok _ _ _ _ _ (rx_set_ok (mkRX (rxs s) k) p x _ H)). cbn [rxs readings].
  exists c3, (now k), (S k). split.
  - subst c3. destruct (Z.gtb_spec c2 (max_window_size x)); subst c2; destruct (Z.ltb_spec c1 w); rlia.
  - rewrite (rxfc_start_epoch_ok _ _ _ (lookup_insert_eq _ _ _)). cbn [rxs readings].
    by rewrite insert_insert_eq.
Qed.

Lemma rxfc_update_cwm_ok s p x w rtt :
  rxs s !! p = Some x -> rx_ok x -> 0 <= w ->
  exists x' k, rxfc_update_cwm now p w rtt s = (Ok tt, mkRX (<[p := x']> (rxs s)) k) /\ retired 0 x x'.
Proof.
  intros H Hx Hw. unfold rxfc_update_cwm.
  rewrite (bind_ok _ _ _ _ _ (cwm_bump_desired_ok s p x H Hx)).
  destruct (negb (is_fin x) && _) eqn:Hd; cbn [negb].
  - destruct (adjust_window_ok s p x w rtt H Hx Hw) as (cur & t & k & Hcur & Ha).
    rewrite (bind_ok _ _ _ _ _ Ha).
    rewrite (bind_ok _ _ _ _ _ (rx_load_ok (mkRX _ _) _ _ (lookup_insert_eq _ _ _))).
    rewrite u64_id by rlia. rfields.
    destruct (Z.gtb_spec (rwm x + cur) (cwm x)) as [Hgt|Hgt].
    + rewrite (rx_set_ok (mkRX _ _) p _ _ (lookup_insert_eq _ _ _)). cbn [rxs readings].
      rewrite insert_insert_eq. do 2 eexists. split; [reflexivity|].
      split; rfields; try done; try lia. rlia.
    + do 2 eexists. split; [reflexivity|]. split; rfields; try done; try lia. rlia.
  - exists x, (readings s). split; [by rewrite insert_id; destruct s|].
    split; try done; try lia. intros Hf. rewrite Hf in Hd. cbn in Hd.
    assert (cur_window_size x * 3 / 4 < cwm x - rwm x) by lia. Z.div_mod_to_equations. lia.
Qed.

Lemma rxfc_on_retire_ok s p x n w rtt :
  rxs s !! p = Some x -> rx_ok x -> 0 <= n -> rwm x + n <= swm x -> 0 <= w ->
  exists x' k, rxfc_on_retire now p n w rtt s = (Ok true, mkRX (<[p := x']> (rxs s)) k) /\ retired n x x'.
Proof.
  intros H Hx Hn Hle Hw. unfold rxfc_on_retire. rewrite (bind_ok _ _ _ _ _ (rx_load_ok _ _ _ H)).
  assert (Hep : exists t e k, 0 <= e <= rwm x /\
    (if ossl_time_is_zero (epoch_start x) then rxfc_start_epoch now p else ret tt) s =
    (Ok tt, mkRX (<[p := set_epoch t e x]> (rxs s)) k)).
  { destruct (ossl_time_is_zero (epoch_start x)).
    - rewrite (rxfc_start_epoch_ok s p x H). do 3 eexists. split; [|reflexivity]. rlia.
    - exists (epoch_start x), (esrwm x), (readings s). split; [rlia|].
      replace (set_epoch (epoch_start x) (esrwm x) x) with x by by destruct x.
      rewrite insert_id by done. by destruct s. }
  destruct Hep as (t & e & k & He & Hep). rewrite (bind_ok _ _ _ _ _ Hep).
  rewrite (bind_ok _ _ _ _ _ (rx_set_ok (mkRX _ _) p _ _ (lookup_insert_eq _ _ _))).
  cbn [rxs readings]. rewrite insert_insert_eq, u64_id by rlia.
  set (x1 := set_rwm _ _). assert (Hx1 : rx_ok x1) by (subst x1; rlia).
  edestruct (rxfc_update_cwm_ok (mkRX (<[p := x1]> (rxs s)) k) p x1 w rtt) as (x' & k' & Hu & Hr);
    [apply lookup_insert_eq|done|done|].
  rewrite (bind_ok _ _ _ _ _ Hu). cbn [rxs]. rewrite insert_insert_eq. exists x', k'. split; [done|].
  destruct Hr as [R1 R2 R3 R4 R5 R6 R7 R8 R9 R10 R11 R12]. subst x1. rfields. rewrite Z.add_0_r in R2.
  split; auto.
Qed.
End RetireLemmas.

(** A frame that contradicts the final size of the stream: it ends after it, or
    gives another one, or gives one below what was received. *)
Definition final_size_violation (x : QUIC_RXFC) (e : Z) (fin : bool) : bool :=
  (is_fin x && (e >? hwm x)) || (fin && (e <? hwm x)).

(** The new bytes of a frame that ends at [e]. *)
Definition new_bytes (x : QUIC_RXFC) (e : Z) (fin : bool) : Z :=
  if final_size_violation x e fin then 0 else Z.max 0 (e - hwm x).

(** The stream-level controller after the frame. *)
Definition frame_received (x : QUIC_RXFC) (e : Z) (fin : bool) : QUIC_RXFC :=
  if final_size_violation x e fin
  then set_error OSSL_QUIC_ERR_FINAL_SIZE_ERROR (set_fin (fin || is_fin x) x)
  else rx_receive (new_bytes x e fin) (set_hwm (Z.max (hwm x) e) (set_fin (fin || is_fin x) x)).

Lemma set_fin_or fin x : set_fin (fin || is_fin x) x = if fin then set_fin true x else x.
Proof. destruct x, fin; done. Qed.

Lemma rx_receive_zero x : rx_ok x -> rx_receive 0 x = x.
Proof.
  intros Hx. unfold rx_receive. destruct (Z.gtb_spec 0 (cwm x - swm x)); [rlia|].
  rewrite Z.min_l by rlia. rewrite Z.add_0_r. by destruct x.
Qed.

Lemma set_hwm_same x : set_hwm (hwm x) x = x.
Proof. by destruct x. Qed.

Lemma rx_ok_set_hwm x e : rx_ok x -> 0 <= e < LIMIT -> rx_ok (set_hwm e x).
Proof. intros; rlia. Qed.

Lemma rx_ok_set_fin x fin : rx_ok x -> rx_ok (set_fin fin x).
Proof. intros; rlia. Qed.

Lemma rx_set_fin_ok s t x (fin : bool) :
  rxs s !! t = Some x ->
  (if fin then rx_set t (set_fin true) else ret tt) s =
  (Ok tt, mkRX (<[t := set_fin (fin || is_fin x) x]> (rxs s)) (readings s)).
Proof.
  intros H. rewrite set_fin_or. destruct fin; [by apply rx_set_ok|].
  rewrite insert_id by done. by destruct s.
Qed.

Lemma on_rx_stream_frame_ok s t x c xc e fin :
  rxs s !! t = Some x -> rx_ok x -> parent x = Some c -> rxs s !! c = Some xc -> rx_ok xc ->
  t <> c -> 0 <= e < LIMIT ->
  ossl_quic_rxfc_on_rx_stream_frame t e fin s =
  (Ok true, mkRX (<[c := rx_receive (new_bytes x e fin) xc]> (<[t := frame_received x e fin]> (rxs s)))
                 (readings s)).
Proof.
  intros Ht Hx Hp Hc Hxc Hne He. unfold ossl_quic_rxfc_on_rx_stream_frame.
  rewrite (bind_ok _ _ _ _ _ (rx_load_ok _ _ _ Ht)), Hp.
  rewrite bool_decide_false, andb_false_r by done.
  unfold frame_received, new_bytes, final_size_violation.
  assert (Hzero : rxs s !! c = Some (rx_receive 0 xc)) by by rewrite rx_receive_zero.
  destruct (is_fin x && ((fin && negb (hwm x =? e)) || (e >? hwm x))) eqn:H1.
  { assert (Hv : (is_fin x && (e >? hwm x)) || (fin && (e <? hwm x)) = true).
    { destruct (is_fin x), fin, (Z.eqb_spec (hwm x) e), (Z.gtb_spec e (hwm x)), (Z.ltb_spec e (hwm x));
        cbn in *; congruence || lia. }
    rewrite Hv. rewrite (bind_ok _ _ _ _ _ (rx_set_ok _ _ _ _ Ht)). unfold ret.
    rewrite (insert_id (<[t := _]> _) c) by by rewrite lookup_insert_ne.
    do 5 f_equal. apply andb_true_iff in H1 as [H1 _].
    rewrite H1, orb_true_r. rewrite <-H1. by destruct x. }
  rewrite (bind_ok _ _ _ _ _ (rx_set_fin_ok s t x fin Ht)). set (x1 := set_fin _ x).
  assert (Hx1 : rx_ok x1) by (subst x1; rlia).
  destruct (Z.gtb_spec e (hwm x)) as [Hgt|Hgt].
  - assert (Hv : (is_fin x && true) || (fin && (e <? hwm x)) = false).
    { destruct (is_fin x); [destruct fin; cbn in H1; rewrite ?orb_true_r in H1; congruence|].
      replace (e <? hwm x) with false by lia. by destruct fin. }
    rewrite Hv. rewrite (bind_ok _ _ _ _ _ (rx_set_ok (mkRX _ _) t _ _ (lookup_insert_eq _ _ _))).
    cbn [rxs readings]. rewrite insert_insert_eq, u64_id by rlia.
    rewrite (bind_ok _ _ _ _ _ (on_rx_controlled_bytes_ok (mkRX _ _) t (set_hwm e x1) (e - hwm x)
      (lookup_insert_eq _ _ _) ltac:(by apply rx_ok_set_hwm) ltac:(lia))).
    cbn [rxs readings]. rewrite insert_insert_eq, (Z.max_r 0), (Z.max_r (hwm x)) by lia.
    rewrite (bind_ok _ _ _ _ _ (on_rx_controlled_bytes_ok
      (mkRX (<[t := rx_receive (e - hwm x) (set_hwm e x1)]> (rxs s)) (readings s)) c xc (e - hwm x)
      ltac:(cbn [rxs]; by rewrite lookup_insert_ne) Hxc ltac:(lia))).
    done.
  - rewrite andb_false_r. cbn [orb]. rewrite andb_comm.
    destruct (fin && (e <? hwm x)) eqn:Hv.
    + rewrite (bind_ok _ _ _ _ _ (rx_set_ok (mkRX _ _) t _ _ (lookup_insert_eq _ _ _))).
      cbn [rxs readings]. rewrite insert_insert_eq. unfold ret.
      by rewrite (insert_id (<[t := _]> _) c) by by rewrite lookup_insert_ne.
    + rewrite (Z.max_l 0), (Z.max_l (hwm x)) by lia. unfold ret.
      rewrite (insert_id (<[t := _]> _) c) by by rewrite lookup_insert_ne.
      change (hwm x) with (hwm x1). by rewrite set_hwm_same, rx_receive_zero.
Qed.

Lemma rx_receive_ok n x :
  rx_ok x -> 0 <= n -> swm (rx_receive n x) < LIMIT -> rx_ok (rx_receive n x).
Proof. unfold rx_receive. destruct (n >? cwm x - swm x); intros; rlia. Qed.

Lemma new_bytes_nonneg x e fin : 0 <= new_bytes x e fin.
Proof. unfold new_bytes. destruct (final_size_violation x e fin); lia. Qed.

Lemma rx_receive_error n x :
  error_code x = 0 -> error_code (rx_receive n x) =
  if n >? cwm x - swm x then OSSL_QUIC_ERR_FLOW_CONTROL_ERROR else 0.
Proof. intros H. unfold rx_receive. destruct (n >? cwm x - swm x); rfields; done. Qed.

(** C37: a STREAM frame that ends at [e], on a stream and a connection without
    errors so far, is accepted by the call, and sets exactly the errors of the
    protocol: the final size error when the frame contradicts the final size, the
    flow control error of the stream when it ends after the stream's limit, the
    flow control error of the connection when its new bytes exceed the limit of
    the connection. Without an error the received bytes are counted exactly, once
    on the stream and once on the connection. *)
Theorem rxfc_frame_errors s t x c xc e fin :
  rxs s !! t = Some x -> rx_ok x -> hwm x = swm x -> error_code x = 0 ->
  parent x = Some c -> rxs s !! c = Some xc -> rx_ok xc -> error_code xc = 0 ->
  t <> c -> 0 <= e < LIMIT ->
  exists s' x' xc',
    ossl_quic_rxfc_on_rx_stream_frame t e fin s = (Ok true, s') /\
    rxs s' !! t = Some x' /\ rxs s' !! c = Some xc' /\
    (forall q, q <> t -> q <> c -> rxs s' !! q = rxs s !! q) /\
    (error_code x' = OSSL_QUIC_ERR_FINAL_SIZE_ERROR <->
       (is_fin x = true /\ hwm x < e) \/ (fin = true /\ e < hwm x)) /\
    (error_code x' = OSSL_QUIC_ERR_FLOW_CONTROL_ERROR <-> is_fin x = false /\ cwm x < e) /\
    (error_code xc' = OSSL_QUIC_ERR_FLOW_CONTROL_ERROR <->
       is_fin x = false /\ cwm xc < swm xc + (e - hwm x)) /\
    (error_code x' = 0 -> error_code xc' = 0 ->
       hwm x' = Z.max (hwm x) e /\ swm x' = hwm x' /\ is_fin x' = fin || is_fin x /\
       swm xc' = swm xc + (hwm x' - hwm x)).
Proof.
  intros Ht Hx Hhs Hex Hp Hc Hxc Hec Hne He.
  exists (mkRX (<[c := rx_receive (new_bytes x e fin) xc]> (<[t := frame_received x e fin]> (rxs s)))
               (readings s)), (frame_received x e fin), (rx_receive (new_bytes x e fin) xc).
  split_and!; [by apply on_rx_stream_frame_ok|cbn [rxs]; by rewrite lookup_insert_ne, lookup_insert_eq
    |cbn [rxs]; by rewrite lookup_insert_eq|intros q Hq1 Hq2; cbn [rxs]; by rewrite !lookup_insert_ne| | | |].
  all: rewrite ?(rx_receive_error _ xc) by done; unfold frame_received, new_bytes.
  all: destruct (final_size_violation x e fin) eqn:Hv; unfold final_size_violation in Hv; rfields;
    rewrite ?rx_receive_error by done; unfold OSSL_QUIC_ERR_FINAL_SIZE_ERROR, OSSL_QUIC_ERR_FLOW_CONTROL_ERROR;
    unfold rx_receive; rfields.
  all: destruct (is_fin x), fin; cbn in Hv; unfold rx_ok, LIMIT in *;
    repeat match goal with
    | |- context [?a >? ?b] => destruct (Z.gtb_spec a b)
    | H : context [?a >? ?b] |- _ => destruct (Z.gtb_spec a b)
    | H : context [?a <? ?b] |- _ => destruct (Z.ltb_spec a b)
    end; rfields; cbn in *; try (intuition (congruence || lia)).
Qed.

(** A connection and a stream that has received 30 of 60 bytes. *)
Definition rx_conn : QUIC_RXFC := mkRxfc 100 30 0 0 0 100 200 0 None 0 false false false.
Definition rx_stream : QUIC_RXFC := mkRxfc 60 30 0 0 30 60 120 0 (Some 0%nat) 0 false false false.
Definition rx_pair : RX := mkRX (<[0%nat := rx_conn]> (<[1%nat := rx_stream]> ∅)) 0.

Lemma rxfc_frame_errors_witness :
  exists s' x' xc',
    ossl_quic_rxfc_on_rx_stream_frame 1 61 false rx_pair = (Ok true, s') /\
    rxs s' !! 1%nat = Some x' /\ rxs s' !! 0%nat = Some xc' /\
    (forall q, q <> 1%nat -> q <> 0%nat -> rxs s' !! q = rxs rx_pair !! q) /\
    (error_code x' = OSSL_QUIC_ERR_FINAL_SIZE_ERROR <->
       (is_fin rx_stream = true /\ hwm rx_stream < 61) \/ (false = true /\ 61 < hwm rx_stream)) /\
    (error_code x' = OSSL_QUIC_ERR_FLOW_CONTROL_ERROR <-> is_fin rx_stream = false /\ cwm rx_stream < 61) /\
    (error_code xc' = OSSL_QUIC_ERR_FLOW_CONTROL_ERROR <->
       is_fin rx_stream = false /\ cwm rx_conn < swm rx_conn + (61 - hwm rx_stream)) /\
    (error_code x' = 0 -> error_code xc' = 0 ->
       hwm x' = Z.max (hwm rx_stream) 61 /\ swm x' = hwm x' /\ is_fin x' = false || is_fin rx_stream /\
       swm xc' = swm rx_conn + (hwm x' - hwm rx_stream)).
Proof.
  apply (rxfc_frame_errors rx_pair 1 rx_stream 0 rx_conn 61 false);
    first [reflexivity | lia | (unfold rx_ok, LIMIT; cbn; lia)].
Defined.

(** ** Reception: the controllers of a connection over time *)

(** A controller is within its limits, no error has occurred, and a stream counts
    what it received exactly. *)
Definition rx_clean (x : QUIC_RXFC) : Prop :=
  rx_ok x /\ error_code x = 0 /\ standalone x = false /\ (parent x <> None -> hwm x = swm x).

Definition rx_wf (s : RX) : Prop :=
  (forall p x, rxs s !! p = Some x -> rx_clean x) /\ parents_ok parent (rxs s).

(** What a connection has received and retired is what its streams have received
    and retired. *)
Definition rx_balanced (s : RX) : Prop := balanced parent swm (rxs s) /\ balanced parent rwm (rxs s).

Lemma rx_wf_update s p x y k :
  rx_wf s -> rxs s !! p = Some x -> rx_clean y -> parent y = parent x ->
  rx_wf (mkRX (<[p := y]> (rxs s)) k).
Proof.
  intros [Hw Hpar] Hp H1 He. split; [|by eapply parents_ok_update].
  cbn [rxs]. intros q z [[<- <-]|[_ Hq]]%lookup_insert_Some; eauto.
Qed.

Lemma rx_wf_update2 s t x x' c xc xc' k :
  rx_wf s -> rxs s !! t = Some x -> rxs s !! c = Some xc -> t <> c ->
  rx_clean x' -> rx_clean xc' -> parent x' = parent x -> parent xc' = parent xc ->
  rx_wf (mkRX (<[c := xc']> (<[t := x']> (rxs s))) k).
Proof.
  intros Hw Ht Hc Hne Hx Hxc Hpx Hpc.
  refine (rx_wf_update (mkRX (<[t := x']> (rxs s)) k) c xc xc' k _ _ Hxc Hpc).
  - by eapply rx_wf_update.
  - cbn [rxs]. by rewrite lookup_insert_ne.
Qed.

Lemma rx_wf_fresh s p x k :
  rx_wf s -> rxs s !! p = None -> rx_clean x ->
  (forall c, parent x = Some c -> exists xc, rxs s !! c = Some xc /\ parent xc = None) ->
  rx_wf (mkRX (<[p := x]> (rxs s)) k).
Proof.
  intros [Hw Hpar] Hp H1 Hc. split; [|by apply parents_ok_fresh].
  cbn [rxs]. intros q z [[<- <-]|[_ Hq]]%lookup_insert_Some; eauto.
Qed.

Lemma rx_wf_parent s t x c xc :
  rx_wf s -> rxs s !! t = Some x -> parent x = Some c -> rxs s !! c = Some xc ->
  parent xc = None /\ t <> c.
Proof.
  intros [_ H] Ht Hp Hc. destruct (H t x c Ht Hp) as (xc' & Hc' & Hnone).
  simplify_eq. split; [done|]. intros ->. congruence.
Qed.

(** What a connection has left to retire is at least what one of its streams has
    left to retire. *)
Lemma rx_conn_pending s t x c xc :
  rx_wf s -> rx_balanced s -> rxs s !! t = Some x -> parent x = Some c -> rxs s !! c = Some xc ->
  swm x - rwm x <= swm xc - rwm xc.
Proof.
  intros Hw [Hs Hr] Ht Hp Hc. destruct (rx_wf_parent _ _ _ _ _ Hw Ht Hp Hc) as [Hnone _].
  rewrite (Hs c xc Hc Hnone), (Hr c xc Hc Hnone).
  assert (Hsub : forall m : gmap nat QUIC_RXFC,
    total (of_child parent c swm) m - total (of_child parent c rwm) m =
    total (of_child parent c (fun x => swm x - rwm x)) m).
  { intros m. induction m as [|p y m Hm IH] using map_ind; [by rewrite !total_empty|].
    rewrite !total_fresh by done. unfold of_child at 1 3 5. case_bool_decide; lia. }
  rewrite Hsub.
  assert (Hi : of_child parent c (fun x => swm x - rwm x) x = swm x - rwm x)
    by (unfold of_child; by rewrite Hp, bool_decide_true).
  rewrite <-Hi. eapply total_item; [|exact Ht].
  intros q y Hq. destruct (proj1 Hw q y Hq) as [Hy _]. unfold of_child. case_bool_decide; rlia.
Qed.

Section RxRun.
Context (now : nat -> OSSL_TIME).

(** A call of the interface in a connection that sees no protocol error and less
    than 2^62 bytes: an object is initialised once, with a connection-level parent
    that exists, and both controllers are checked for errors after a frame. *)
Inductive rx_step (s s' : RX) : Prop :=
  | rx_step_init t conn w mw r :
      rxs s !! t = None -> (forall c, conn = Some c -> is_Some (rxs s !! c)) ->
      0 <= w < LIMIT -> 0 <= mw < LIMIT ->
      ossl_quic_rxfc_init t conn w mw s = (Ok r, s') -> rx_step s s'
  | rx_step_max t w :
      0 <= w < LIMIT -> ossl_quic_rxfc_set_max_window_size t w s = (Ok tt, s') -> rx_step s s'
  | rx_step_frame t c e fin r :
      ossl_quic_rxfc_get_parent t s = (Ok (Some c), s) -> 0 <= e < LIMIT ->
      ossl_quic_rxfc_on_rx_stream_frame t e fin s = (Ok r, s') ->
      fst (ossl_quic_rxfc_get_error t false s') = Ok 0 ->
      fst (ossl_quic_rxfc_get_error c false s') = Ok 0 ->
      (forall x, rxs s' !! c = Some x -> swm x < LIMIT) -> rx_step s s'
  | rx_step_retire t c n rtt r :
      ossl_quic_rxfc_get_parent t s = (Ok (Some c), s) -> 0 <= n < LIMIT ->
      ossl_quic_rxfc_on_retire now t n rtt s = (Ok r, s') -> rx_step s s'
  | rx_step_cwm_changed t clear r :
      ossl_quic_rxfc_has_cwm_changed t clear s = (Ok r, s') -> rx_step s s'.

Lemma rx_load_inv {A} p (k : QUIC_RXFC -> M RX A) s r s' :
  (let! x := rx_load p in k x) s = (Ok r, s') -> exists x, rxs s !! p = Some x /\ k x s = (Ok r, s').
Proof. unfold bind, rx_load. destruct (rxs s !! p) as [x|]; intros H; [eauto|done]. Qed.

Lemma rx_get_error_inv p s e :
  fst (ossl_quic_rxfc_get_error p false s) = Ok e -> exists x, rxs s !! p = Some x /\ error_code x = e.
Proof.
  unfold ossl_quic_rxfc_get_error, bind, rx_load. destruct (rxs s !! p) as [x|]; intros H; [|done].
  injection H as <-. eauto.
Qed.
Lemma rx_inv_frame s s' t c e fin r :
  rx_wf s -> rx_balanced s ->
  ossl_quic_rxfc_get_parent t s = (Ok (Some c), s) -> 0 <= e < LIMIT ->
  ossl_quic_rxfc_on_rx_stream_frame t e fin s = (Ok r, s') ->
  fst (ossl_quic_rxfc_get_error t false s') = Ok 0 ->
  fst (ossl_quic_rxfc_get_error c false s') = Ok 0 ->
  (forall x, rxs s' !! c = Some x -> swm x < LIMIT) -> rx_wf s' /\ rx_balanced s'.
Proof.
  intros Hw [Hbs Hbr] Hp He H Et Ec Hlim. apply rx_load_inv in Hp as (x & Ht & [= Hp]).
  destruct (proj2 Hw t x c Ht Hp) as (xc & Hc & Hnone).
  destruct (rx_wf_parent _ _ _ _ _ Hw Ht Hp Hc) as [_ Hne].
  destruct (proj1 Hw t x Ht) as (Hx & Hex & Hsx & Hhx). destruct (proj1 Hw c xc Hc) as (Hxc & Hexc & Hsxc & _).
  rewrite (on_rx_stream_frame_ok s t x c xc e fin) in H by done. injection H as <- <-.
  assert (Lt : (<[c := rx_receive (new_bytes x e fin) xc]> (<[t := frame_received x e fin]> (rxs s))) !! t
               = Some (frame_received x e fin)) by by rewrite lookup_insert_ne, lookup_insert_eq.
  apply rx_get_error_inv in Et as (y & Hy & Ey). cbn [rxs] in Hy. rewrite Lt in Hy. injection Hy as <-.
  apply rx_get_error_inv in Ec as (y & Hy & Ec). cbn [rxs] in Hy. rewrite lookup_insert_eq in Hy. injection Hy as <-.
  specialize (Hlim (rx_receive (new_bytes x e fin) xc) (lookup_insert_eq _ _ _)).
  pose proof (new_bytes_nonneg x e fin) as Hn.
  rewrite rx_receive_error in Ec by done. unfold frame_received in *.
  destruct (final_size_violation x e fin) eqn:Hv; [done|].
  rewrite rx_receive_error in Ey by done. rfields.
  destruct (Z.gtb_spec (new_bytes x e fin) (cwm xc - swm xc)); [done|].
  destruct (Z.gtb_spec (new_bytes x e fin) (cwm x - swm x)); [done|].
  assert (Hnb : new_bytes x e fin = Z.max 0 (e - hwm x)) by (unfold new_bytes; by rewrite Hv).
  set (x' := rx_receive (new_bytes x e fin) (set_hwm _ _)). set (xc' := rx_receive (new_bytes x e fin) xc).
  specialize (Hhx ltac:(congruence)).
  assert (Hx' : swm x' = swm x + new_bytes x e fin /\ rwm x' = rwm x /\ parent x' = parent x /\
                hwm x' = Z.max (hwm x) e /\ error_code x' = 0 /\ standalone x' = false /\ rx_ok x').
  { subst x'. unfold rx_receive. rfields. destruct (Z.gtb_spec (new_bytes x e fin) (cwm x - swm x)); [lia|].
    rfields. rewrite Z.min_l by lia. split_and!; (done || rlia). }
  assert (Hxc' : swm xc' = swm xc + new_bytes x e fin /\ rwm xc' = rwm xc /\ parent xc' = parent xc /\
                 error_code xc' = 0 /\ standalone xc' = false /\ rx_ok xc').
  { subst xc'. unfold rx_receive in *. destruct (Z.gtb_spec (new_bytes x e fin) (cwm xc - swm xc)); [lia|].
    rfields. rewrite Z.min_l in * by lia. split_and!; (done || rlia). }
  destruct Hx' as (X1 & X2 & X3 & X4 & X5 & X6 & X7), Hxc' as (C1 & C2 & C3 & C4 & C5 & C6).
  split; [|split].
  - eapply (rx_wf_update2 s t x _ c xc); try done; split_and!; try done.
    + intros _. lia.
    + rewrite C3, Hnone. done.
  - by eapply (balanced_shift _ _ _ _ x _ _ xc _ (new_bytes x e fin)).
  - eapply (balanced_shift _ _ _ _ x _ _ xc _ 0); (done || lia).
Qed.

Lemma on_retire_stream s t x c xc n rtt :
  rx_wf s -> rx_balanced s -> rxs s !! t = Some x -> parent x = Some c -> rxs s !! c = Some xc ->
  0 < n -> rwm x + n <= swm x ->
  exists x' xc' k, ossl_quic_rxfc_on_retire now t n rtt s =
                   (Ok true, mkRX (<[c := xc']> (<[t := x']> (rxs s))) k) /\
                   retired n x x' /\ retired n xc xc'.
Proof.
  intros Hw Hb Ht Hp Hc Hn Hle. destruct (rx_wf_parent _ _ _ _ _ Hw Ht Hp Hc) as [_ Hne].
  pose proof (rx_conn_pending _ _ _ _ _ Hw Hb Ht Hp Hc) as Hpend.
  destruct (proj1 Hw t x Ht) as (Hx & _ & Hsa & _). destruct (proj1 Hw c xc Hc) as (Hxc & _).
  unfold ossl_quic_rxfc_on_retire. rewrite (bind_ok _ _ _ _ _ (rx_load_ok _ _ _ Ht)), Hp, Hsa.
  rewrite bool_decide_false by done. cbn [andb negb].
  replace (n =? 0) with false by lia. rewrite u64_id by rlia. replace (rwm x + n >? swm x) with false by lia.
  destruct (rxfc_on_retire_ok now s t x n 0 rtt) as (x' & k & Hr & Rx); [done|done|lia|done|lia|].
  rewrite (bind_ok _ _ _ _ _ Hr). pose proof (retired_ok _ _ _ Rx) as Hx'.
  destruct (rxfc_on_retire_ok now (mkRX (<[t := x']> (rxs s)) k) c xc n (cur_window_size x') rtt)
    as (xc' & k' & Hrc & Rc); [cbn [rxs]; by rewrite lookup_insert_ne|done|lia|lia|rlia|].
  exists x', xc', k'. split_and!; [|done|done].
  unfold bind at 1. rewrite (bind_ok _ _ _ _ _ (rx_load_ok (mkRX _ _) t x' (lookup_insert_eq _ _ _))).
  rewrite (retired_parent _ _ _ Rx), Hp, Hrc. done.
Qed.

Lemma rx_inv_retire s s' t c n rtt r :
  rx_wf s -> rx_balanced s ->
  ossl_quic_rxfc_get_parent t s = (Ok (Some c), s) -> 0 <= n < LIMIT ->
  ossl_quic_rxfc_on_retire now t n rtt s = (Ok r, s') -> rx_wf s' /\ rx_balanced s'.
Proof.
  intros Hw Hb Hp Hn H. apply rx_load_inv in Hp as (x & Ht & [= Hp]).
  destruct (proj2 Hw t x c Ht Hp) as (xc & Hc & Hnone).
  destruct (rx_wf_parent _ _ _ _ _ Hw Ht Hp Hc) as [_ Hne].
  destruct (proj1 Hw t x Ht) as (Hx & Hex & Hsx & Hhx). destruct (proj1 Hw c xc Hc) as (Hxc & Hexc & Hsxc & _).
  destruct (decide (0 < n /\ rwm x + n <= swm x)) as [[Hpos Hle]|Hno].
  - destruct (on_retire_stream s t x c xc n rtt Hw Hb Ht Hp Hc Hpos Hle) as (x' & xc' & k & Hr & Rx & Rc).
    rewrite Hr in H. injection H as <- <-. destruct Rx, Rc. split; [|split].
    + eapply (rx_wf_update2 s t x _ c xc); try done; split_and!; try congruence.
      intros _. rewrite retired_hwm0, retired_swm0. apply Hhx. congruence.
    + eapply (balanced_shift _ _ _ _ x _ _ xc _ 0); try done; [apply Hb|lia..].
    + eapply (balanced_shift _ _ _ _ x _ _ xc _ n); try done; apply Hb.
  - unfold ossl_quic_rxfc_on_retire in H. rewrite (bind_ok _ _ _ _ _ (rx_load_ok _ _ _ Ht)), Hp, Hsx in H.
    rewrite bool_decide_false in H by done. cbn [andb negb] in H.
    destruct (Z.eqb_spec n 0); [by injection H as <- <-|]. rewrite u64_id in H by rlia.
    replace (rwm x + n >? swm x) with true in H by lia. by injection H as <- <-.
Qed.

(** A change that keeps the parent and the bytes received and retired. *)
Lemma rx_inv_same s p x y :
  rx_wf s -> rx_balanced s -> rxs s !! p = Some x -> rx_clean y ->
  parent y = parent x -> swm y = swm x -> rwm y = rwm x ->
  rx_wf (mkRX (<[p := y]> (rxs s)) (readings s)) /\ rx_balanced (mkRX (<[p := y]> (rxs s)) (readings s)).
Proof.
  intros Hw [Hs Hr] Hp Hy He Es Er. split; [by eapply rx_wf_update|].
  split; cbn [rxs]; by eapply balanced_same.
Qed.

Lemma rx_inv_init s s' t conn w mw r :
  rx_wf s -> rx_balanced s ->
  rxs s !! t = None -> (forall c, conn = Some c -> is_Some (rxs s !! c)) ->
  0 <= w < LIMIT -> 0 <= mw < LIMIT ->
  ossl_quic_rxfc_init t conn w mw s = (Ok r, s') -> rx_wf s' /\ rx_balanced s'.
Proof.
  intros Hw [Hs Hr] Ht Hconn Hwin Hmw H.
  set (x := mkRxfc w 0 0 0 0 w mw ossl_time_zero conn 0 false false false).
  assert (Hx : rx_clean x) by (unfold rx_clean, x; split_and!; rlia || done).
  assert (Hres : s' = s \/ (s' = mkRX (<[t := x]> (rxs s)) (readings s) /\
    forall c, conn = Some c -> exists xc, rxs s !! c = Some xc /\ parent xc = None)).
  { unfold ossl_quic_rxfc_init in H. destruct conn as [c|].
    - destruct (Hconn c eq_refl) as [xc Hc].
      rewrite (bind_ok _ _ s (bool_decide (parent xc <> None)) s) in H
        by by rewrite (bind_ok _ _ _ _ _ (rx_load_ok _ _ _ Hc)).
      case_bool_decide as Hpc; injection H as <- <-; [by left|right]. split; [done|].
      intros c' [= <-]. exists xc. split; [done|]. by destruct (parent xc); [destruct Hpc|].
    - injection H as <- <-. by right. }
  destruct Hres as [->|[-> Hpar]]; [done|]. split; [by apply rx_wf_fresh|].
  split; apply balanced_fresh; try done; apply Hw.
Qed.

Lemma rx_step_preserves s s' : rx_step s s' -> rx_wf s -> rx_balanced s -> rx_wf s' /\ rx_balanced s'.
Proof.
  intros Hstep Hw Hb. destruct Hstep as [t conn w mw r ? ? ? ? H|t w ? H|? ? ? ? ? ? ? H ? ? ?|? ? ? ? ? ? ? H|t clear r H].
  - by apply (rx_inv_init s s' t conn w mw r).
  - apply rx_load_inv in H as (x & Ht & H). injection H as <-. destruct (proj1 Hw t x Ht) as (? & ? & ? & ?).
    by apply (rx_inv_same s t x); try done; split_and!; (rlia || done).
  - eapply rx_inv_frame; eassumption.
  - eapply rx_inv_retire; eassumption.
  - apply rx_load_inv in H as (x & Ht & H). destruct clear; [|by injection H as <- <-].
    rewrite (bind_ok _ _ _ _ _ (rx_set_ok _ _ _ _ Ht)) in H. injection H as <- <-.
    destruct (proj1 Hw t x Ht) as (? & ? & ? & ?).
    by apply (rx_inv_same s t x); try done; split_and!; (rlia || done).
Qed.

Lemma rx_reachable s : rtc rx_step (mkRX ∅ 0) s -> rx_wf s /\ rx_balanced s.
Proof.
  intros H. assert (H0 : rx_wf (mkRX ∅ 0) /\ rx_balanced (mkRX ∅ 0))
    by (split; [split|split]; intros ? ?; cbn [rxs]; rewrite ?lookup_empty; done).
  revert H0. induction H as [|s1 s2 s3 H12 _ IH]; [done|]. intros [Hw Hb].
  apply IH. by eapply rx_step_preserves.
Qed.

End RxRun.

(** C29: in a connection without protocol errors, whatever frames arrive and
    whatever is retired, every receive controller has rwm <= swm <= cwm, the bytes
    that the connection-level controller counts as received and as retired are the
    sums over its streams, and so retiring on a stream never makes the connection
    retire more than it received. *)
Theorem rxfc_conserved now s :
  rtc (rx_step now) (mkRX ∅ 0) s ->
  forall p x, rxs s !! p = Some x ->
    0 <= rwm x <= swm x /\ swm x <= cwm x /\
    (parent x = None -> swm x = total (of_child parent p swm) (rxs s) /\
                        rwm x = total (of_child parent p rwm) (rxs s)).
Proof.
  intros [Hw [Hs Hr]]%rx_reachable p x H. destruct (proj1 Hw p x H) as [Hx _].
  split_and!; [rlia..|]. intros Hp. split; [by apply Hs|by apply Hr].
Qed.

Definition rx_example : RX :=
  let s := snd (ossl_quic_rxfc_init 0 None 100 200 (mkRX ∅ 0)) in
  let s := snd (ossl_quic_rxfc_init 1 (Some 0%nat) 60 120 s) in
  let s := snd (ossl_quic_rxfc_on_rx_stream_frame 1 50 false s) in
  snd (ossl_quic_rxfc_on_retire (fun n => Z.of_nat n + 1) 1 40 7 s).

Lemma rxfc_conserved_witness :
  let s := rx_example in
  let x := mkRxfc 240 50 40 40 0 200 200 6 None 0 true false false in
  rxs s !! 0%nat = Some x /\
  0 <= rwm x <= swm x /\ swm x <= cwm x /\
  (parent x = None -> swm x = total (of_child parent 0 swm) (rxs s) /\
                      rwm x = total (of_child parent 0 rwm) (rxs s)).
Proof.
  set (s := rx_example). set (x := mkRxfc _ _ _ _ _ _ _ _ _ _ _ _ _). cbv zeta.
  assert (Hl : rxs s !! 0%nat = Some x) by (vm_compute; reflexivity).
  split; [exact Hl|]. refine (rxfc_conserved (fun n => Z.of_nat n + 1) s _ 0%nat x Hl).
  eapply rtc_l; [eapply (rx_step_init _ _ _ 0 None 100 200);
    [vm_compute; reflexivity|done|vm_compute; split; congruence..|vm_compute; reflexivity]|].
  eapply rtc_l; [eapply (rx_step_init _ _ _ 1 (Some 0%nat) 60 120);
    [vm_compute; reflexivity|intros ? [= <-]; vm_compute; eauto|vm_compute; split; congruence..|vm_compute; reflexivity]|].
  eapply rtc_l; [eapply (rx_step_frame _ _ _ 1 0 50 false);
    [vm_compute; reflexivity|vm_compute; split; congruence|vm_compute; reflexivity..|intros ? H; vm_compute in H; injection H as <-; vm_compute; reflexivity]|].
  eapply rtc_l; [eapply (rx_step_retire _ _ _ 1 0 40 7);
    [vm_compute; reflexivity|vm_compute; split; congruence|vm_compute; reflexivity]|].
  vm_compute. constructor.
Defined.

(** retiring bytes of a stream that were received succeeds and advances the
    stream and its connection by the same amount; the advertised limits never
    decrease, never run ahead of the retired bytes by more than the maximum
    window (unless they already did), and, as long as the stream has no final
    size, leave the peer at least three quarters of the current window; a raised
    limit is flagged for transmission. *)
Theorem rxfc_retire_window now s t x c xc n rtt :
  rx_wf s -> rx_balanced s -> rxs s !! t = Some x -> parent x = Some c -> rxs s !! c = Some xc ->
  0 < n -> rwm x + n <= swm x ->
  exists s' x' xc', ossl_quic_rxfc_on_retire now t n rtt s = (Ok true, s') /\
    rxs s' = <[c := xc']> (<[t := x']> (rxs s)) /\ rx_wf s' /\ rx_balanced s' /\
    Forall (fun '(y, y') =>
      rwm y' = rwm y + n /\ swm y' = swm y /\ cwm y <= cwm y' /\
      cwm y' <= Z.max (cwm y) (rwm y' + max_window_size y) /\
      (is_fin y = false -> 3 * cur_window_size y' <= 4 * (cwm y' - rwm y')) /\
      (cwm y' <> cwm y -> has_cwm_changed y' = true)) [(x, x'); (xc, xc')].
Proof.
  intros Hw Hb Ht Hp Hc Hn Hle.
  destruct (on_retire_stream now s t x c xc n rtt Hw Hb Ht Hp Hc Hn Hle) as (x' & xc' & k & Hr & Rx & Rc).
  assert (Hlim : 0 <= n < LIMIT) by (destruct (proj1 Hw t x Ht) as [Hx _]; rlia).
  destruct (rx_inv_retire now s _ t c n rtt true Hw Hb
    ltac:(unfold ossl_quic_rxfc_get_parent; by rewrite (bind_ok _ _ _ _ _ (rx_load_ok _ _ _ Ht)), Hp) Hlim Hr)
    as [Hw' Hb'].
  do 3 eexists. split_and!; [exact Hr|reflexivity|done|done|].
  destruct Rx, Rc. repeat constructor; done.
Qed.

Lemma rx_pair_wf : rx_wf rx_pair /\ rx_balanced rx_pair.
Proof.
  unfold rx_pair. split; [split|split]; cbn [rxs].
  - intros p x. rewrite !lookup_insert_Some, lookup_empty.
    intros [[<- <-]|[Hp [[<- <-]|[_ [=]]]]]; unfold rx_clean; split_and!; (rlia || done).
  - intros p x c. rewrite !lookup_insert_Some, lookup_empty.
    intros [[<- <-]|[Hp [[<- <-]|[_ [=]]]]]; [done|]. intros [= <-].
    exists rx_conn. split; vm_compute; reflexivity.
  - intros c x. rewrite !lookup_insert_Some, lookup_empty.
    intros [[<- <-]|[Hp [[<- <-]|[_ [=]]]]]; [intros _; vm_compute; reflexivity|intros [=]].
  - intros c x. rewrite !lookup_insert_Some, lookup_empty.
    intros [[<- <-]|[Hp [[<- <-]|[_ [=]]]]]; [intros _; vm_compute; reflexivity|intros [=]].
Qed.

Lemma rxfc_retire_window_witness :
  exists s' x' xc', ossl_quic_rxfc_on_retire (fun _ => 5) 1 20 100 rx_pair = (Ok true, s') /\
    rxs s' = <[0%nat := xc']> (<[1%nat := x']> (rxs rx_pair)) /\ rx_wf s' /\ rx_balanced s' /\
    Forall (fun '(y, y') =>
      rwm y' = rwm y + 20 /\ swm y' = swm y /\ cwm y <= cwm y' /\
      cwm y' <= Z.max (cwm y) (rwm y' + max_window_size y) /\
      (is_fin y = false -> 3 * cur_window_size y' <= 4 * (cwm y' - rwm y')) /\
      (cwm y' <> cwm y -> has_cwm_changed y' = true)) [(rx_stream, x'); (rx_conn, xc')].
Proof.
  apply (rxfc_retire_window (fun _ => 5) rx_pair 1 rx_stream 0 rx_conn 20 100);
    [exact (proj1 rx_pair_wf)|exact (proj2 rx_pair_wf)|vm_compute; reflexivity|vm_compute; reflexivity|vm_compute; reflexivity|lia|cbn; lia].
Defined.
