(* ===== verification/RingBuf.v ===== *)
(** The ring buffer behind QUIC send and receive streams:
    include/internal/ring_buf.h.

    The allocation is a list of bytes, or nothing for NULL. The contents of freshly
    allocated memory are arbitrary: a parameter that gives some bytes for each
    size. A division by zero, a copy to or from NULL and a store outside the
    allocation are undefined, and so is a debug assertion that does not hold. *)

From stdpp Require Import base list numbers.
From Stdlib Require Import ZArith Lia.
From S2P Require Import Prelude SafeMath.

#[local] Open Scope cfun_scope.

(** ** Definitions *)

Record ring_buf := mkRing {
  start : option (list Z);
  alloc_ : Z;
  head_offset : Z;
  ctail_offset : Z
}.

Definition MAX_OFFSET : Z := 4611686018427387904.

Definition set_head (h : Z) (r : ring_buf) : ring_buf := mkRing (start r) (alloc_ r) h (ctail_offset r).
Definition set_ctail (c : Z) (r : ring_buf) : ring_buf := mkRing (start r) (alloc_ r) (head_offset r) c.
Definition set_start (b : list Z) (r : ring_buf) : ring_buf :=
  mkRing (Some b) (alloc_ r) (head_offset r) (ctail_offset r).

Definition ring_buf_init : ring_buf := mkRing None 0 0 0.

(** The memory is released; [cleanse] only says whether it is overwritten first. *)
Definition ring_buf_destroy (r : ring_buf) (cleanse : bool) : ring_buf :=
  mkRing None 0 (head_offset r) (ctail_offset r).

Definition ring_buf_used (r : ring_buf) : Z := u64 (head_offset r - ctail_offset r).

Definition ring_buf_avail (r : ring_buf) : Z := u64 (alloc_ r - ring_buf_used r).

(** memcpy to [idx] in the allocation. *)
Definition store (idx : Z) (bs : list Z) : M ring_buf unit :=
  fun r => match start r with
           | Some b => if (0 <=? idx) && (idx + zlen bs <=? zlen b)
                       then (Ok tt, set_start (write_at idx bs b) r) else (Ub, r)
           | None => (Ub, r)
           end.

(** [x % r->alloc] *)
Definition ring_index (x : Z) : M ring_buf Z :=
  fun r => if alloc_ r =? 0 then (Ub, r) else (Ok (x mod alloc_ r), r).

(** The copying loop: at most [n] rounds. *)
Fixpoint write_at_loop (n : nat) (logical_offset : Z) (buf : list Z) : M ring_buf unit :=
  match n with
  | O => assert_ (zlen buf =? 0)
  | S n' =>
      if zlen buf >? 0 then
        let! idx := ring_index logical_offset in
        let! r := get in
        let l := u64 (alloc_ r - idx) in
        let l := if zlen buf <? l then zlen buf else l in
        store idx (ztake l buf) ;;;
        modify (fun r => if head_offset r <? u64 (logical_offset + l)
                         then set_head (u64 (logical_offset + l)) r else r) ;;;
        write_at_loop n' (u64 (logical_offset + l)) (zdrop l buf)
      else ret tt
  end.

(** [Err] for the result 0. *)
Definition ring_buf_write_at (logical_offset : Z) (buf : list Z) : M ring_buf unit :=
  let! r := get in
  let avail := ring_buf_avail r in
  let (a, e1) := safe_add logical_offset (zlen buf) in
  let (b, e2) := safe_add (head_offset r) avail in
  let (c, e3) := safe_add (head_offset r) (zlen buf) in
  if (logical_offset <? ctail_offset r) || (a >? b) || (c >? MAX_OFFSET) || (e1 || e2 || e3)
  then fail
  else write_at_loop 2 logical_offset buf.

(** The loop of the push; [fuel] bounds the rounds. *)
Fixpoint push_loop (fuel : nat) (buf : list Z) (buf_len pushed : Z) : M ring_buf Z :=
  match fuel with
  | O => undef
  | S fuel' =>
      let! r := get in
      let avail := ring_buf_avail r in
      let buf_len := if buf_len >? avail then avail else buf_len in
      let buf_len := if buf_len >? u64 (MAX_OFFSET - head_offset r)
                     then u64 (MAX_OFFSET - head_offset r) else buf_len in
      if buf_len =? 0 then ret pushed
      else
        let! idx := ring_index (head_offset r) in
        let l := u64 (alloc_ r - idx) in
        let l := if buf_len <? l then buf_len else l in
        store idx (ztake l buf) ;;;
        modify (fun r => set_head (u64 (head_offset r + l)) r) ;;;
        push_loop fuel' (zdrop l buf) (buf_len - l) (pushed + l)
  end.

Definition ring_buf_push (buf : list Z) : M ring_buf Z := push_loop 3 buf (zlen buf) 0.

(** A position in the allocation and the number of bytes to its end; [Err] for
    NULL. *)
Definition ring_buf_get_ptr (logical_offset : Z) : M ring_buf (Z * Z) :=
  let! r := get in
  if (logical_offset >=? head_offset r) || (logical_offset <? ctail_offset r) then fail
  else
    let! idx := ring_index logical_offset in
    ret (idx, u64 (alloc_ r - idx)).

(** A position in the allocation ([None] for NULL) and a number of bytes; [Err]
    for the result 0. *)
Definition ring_buf_get_buf_at (logical_offset : Z) : M ring_buf (option Z * Z) :=
  let! r := get in
  if (logical_offset >? head_offset r) || (logical_offset <? ctail_offset r) then fail
  else if alloc_ r =? 0 then ret (None, 0)
  else
    let! idx := ring_index logical_offset in
    let l := u64 (head_offset r - logical_offset) in
    let l := if l >? u64 (alloc_ r - idx) then u64 (alloc_ r - idx) else l in
    ret (Some idx, l).

(** OPENSSL_cleanse of [l] bytes from [idx]. *)
Definition cleanse_at (idx l : Z) : M ring_buf unit := store idx (zrepeat 0 l).

Definition ring_buf_cpop_range (start end_ : Z) (cleanse : bool) : M ring_buf unit :=
  assert_ (end_ >=? start) ;;;
  let! r := get in
  if (start >? ctail_offset r) || (end_ >=? MAX_OFFSET) then ret tt
  else
    (if cleanse && (alloc_ r >? 0) && (end_ >? ctail_offset r) then
       let! idx := ring_index (ctail_offset r) in
       let cleanse_end := u64 (end_ + 1) in
       let cleanse_end := if cleanse_end >? head_offset r then head_offset r else cleanse_end in
       let l := u64 (cleanse_end - ctail_offset r) in
       let! '(l, idx) :=
         (if l >? alloc_ r - idx then
            cleanse_at idx (alloc_ r - idx) ;;; ret (u64 (l - (alloc_ r - idx)), 0)
          else ret (l, idx)) in
       if l >? 0 then cleanse_at idx l else ret tt
     else ret tt) ;;;
    modify (set_ctail (u64 (end_ + 1))) ;;;
    modify (fun r => if head_offset r <? ctail_offset r then set_head (ctail_offset r) r else r).

(** The bytes at a position of the allocation. *)
Definition load (r : ring_buf) (idx : option Z) (l : Z) : list Z :=
  match start r, idx with
  | Some b, Some i => ztake l (zdrop i b)
  | _, _ => []
  end.

(** The copying loop of the resize, from [r] into the new ring buffer. *)
Fixpoint resize_loop (fuel : nat) (r : ring_buf) (copied : Z) : M ring_buf unit :=
  match fuel with
  | O => undef
  | S fuel' =>
      match ring_buf_get_buf_at (u64 (ctail_offset r + copied)) r with
      | (Ok (src, src_len), _) =>
          if src_len =? 0 then ret tt
          else
            let! n := ring_buf_push (load r src src_len) in
            if negb (n =? src_len) then fail
            else resize_loop fuel' r (u64 (copied + src_len))
      | (Err, _) => fail
      | (Ub, _) => undef
      end
  end.

Section Resize.
(** The contents of freshly allocated memory of a size. *)
Context (fresh : Z -> list Z).

(** [ok] says whether the allocation, if there is one, succeeds; OPENSSL_malloc(0)
    is NULL. *)
Definition ring_buf_resize (num_bytes : Z) (cleanse : bool) (ok : bool) : M ring_buf unit :=
  let! r := get in
  if num_bytes =? alloc_ r then ret tt
  else if num_bytes <? ring_buf_used r then fail
  else if negb ok || (num_bytes =? 0) then fail
  else
    let ctail := u64 (head_offset r - ring_buf_used r) in
    let! '(_, rnew) := local_run (resize_loop 4 r 0) (mkRing (Some (fresh num_bytes)) num_bytes ctail ctail) in
    assert_ (head_offset rnew =? head_offset r) ;;;
    put (set_ctail (ctail_offset r) rnew).
End Resize.

(** ** The logical bytes of a ring buffer *)

(** The byte at a logical offset of the stream. *)
Definition byte_at (r : ring_buf) (i : Z) : Z :=
  match start r with Some b => znth (i mod alloc_ r) b | None => 0 end.

Record rb_inv (r : ring_buf) : Prop := {
  inv_offsets : 0 <= ctail_offset r <= head_offset r;
  inv_max : head_offset r <= MAX_OFFSET;
  inv_used : head_offset r - ctail_offset r <= alloc_ r;
  inv_alloc : 0 <= alloc_ r < 9223372036854775808;
  inv_mem : match start r with Some b => zlen b = alloc_ r /\ 0 < alloc_ r | None => alloc_ r = 0 end
}.

(** [r'] is [r] with [bs] written at the logical offset [off]: the bytes at the
    other offsets that the buffer can hold are unchanged. *)
Record wrote (off : Z) (bs : list Z) (r r' : ring_buf) : Prop := {
  wrote_alloc : alloc_ r' = alloc_ r;
  wrote_ctail : ctail_offset r' = ctail_offset r;
  wrote_new : forall i, off <= i < off + zlen bs -> byte_at r' i = znth (i - off) bs;
  wrote_old : forall i, ctail_offset r <= i < ctail_offset r + alloc_ r ->
                        ~ off <= i < off + zlen bs -> byte_at r' i = byte_at r i
}.

Lemma wrote_nil off r : wrote off [] r r.
Proof. split; try done. intros i Hi. rewrite zlen_nil in Hi. lia. Qed.

Lemma wrote_app off bs cs r r1 r2 :
  ctail_offset r <= off -> off + zlen bs + zlen cs <= ctail_offset r + alloc_ r ->
  wrote off bs r r1 -> wrote (off + zlen bs) cs r1 r2 -> wrote off (bs ++ cs) r r2.
Proof.
  intros Hoff Hend [A1 C1 N1 O1] [A2 C2 N2 O2]. pose proof (zlen_nonneg bs). pose proof (zlen_nonneg cs).
  split; [congruence..| |].
  - intros i Hi. rewrite zlen_app in Hi. destruct (decide (i < off + zlen bs)).
    + rewrite O2 by lia. rewrite znth_app_l by lia. apply N1. lia.
    + rewrite N2 by lia. rewrite znth_app_r by lia. f_equal. lia.
  - intros i Hi Hn. rewrite zlen_app in Hn. rewrite O2 by lia. apply O1; lia.
Qed.

(** Offsets that fall in the same place are a multiple of the size apart. *)
Lemma mod_window a i j : 0 < a -> i mod a = j mod a -> Z.abs (i - j) < a -> i = j.
Proof.
  intros Ha Hm Hw. assert (H : (i - j) mod a = 0) by (rewrite Zminus_mod, Hm, Z.sub_diag; apply Zmod_0_l).
  apply Z.mod_divide in H; [|lia]. destruct H as [q Hq]. assert (q = 0) by nia. lia.
Qed.

Lemma mod_run a off k : 0 < a -> 0 <= k < a - off mod a -> (off + k) mod a = off mod a + k.
Proof.
  intros Ha Hk. pose proof (Z.mod_pos_bound off a Ha).
  rewrite <-Zplus_mod_idemp_l. apply Z.mod_small. lia.
Qed.

Lemma store_chunk r off bs :
  rb_inv r -> 0 < alloc_ r -> ctail_offset r <= off -> off + zlen bs <= ctail_offset r + alloc_ r ->
  zlen bs <= alloc_ r - off mod alloc_ r ->
  exists r', store (off mod alloc_ r) bs r = (Ok tt, r') /\ wrote off bs r r' /\
             head_offset r' = head_offset r /\ rb_inv r'.
Proof.
  intros Hr Ha Hc He Hl. destruct r as [[b|] a h c]; cbn [alloc_ ctail_offset] in *;
    [|destruct Hr as [_ _ _ _ Hm]; cbn in Hm; lia].
  pose proof (inv_mem _ Hr) as [Hb _]. cbn in Hb. pose proof (Z.mod_pos_bound off a Ha) as Hm.
  unfold store. cbn [start]. rewrite (proj2 (Z.leb_le 0 _)), (proj2 (Z.leb_le _ (zlen b))) by lia. cbn [andb].
  eexists. split; [reflexivity|]. pose proof (zlen_nonneg bs).
  assert (Hlen : zlen (write_at (off mod a) bs b) = zlen b) by (apply zlen_write_at; lia).
  split_and!; [|done|].
  - split; cbn [set_start alloc_ ctail_offset start]; [done..| |].
    + intros i Hi. unfold byte_at; cbn [set_start start alloc_].
      replace i with (off + (i - off)) at 1 by lia. rewrite mod_run by lia.
      rewrite znth_write_at_in by lia. f_equal. lia.
    + intros i Hi Hn. unfold byte_at; cbn [set_start start alloc_].
      pose proof (Z.mod_pos_bound i a Ha). apply znth_write_at_out; [lia..|].
      destruct (decide (i mod a < off mod a)); [lia|right].
      destruct (decide (off mod a + zlen bs <= i mod a)); [done|exfalso; apply Hn].
      assert (i = off + (i mod a - off mod a)); [|lia].
      apply (mod_window a); [done| |].
      * rewrite mod_run by lia. lia.
      * lia.
  - destruct Hr as [H1 H2 H3 H4 H5]. split; cbn in *; try done. by rewrite Hlen.
Qed.

(** ** The operations on a buffer that satisfies the invariant *)

Ltac rb H :=
  let H1 := fresh "Hoff" in let H2 := fresh "Hmax" in let H3 := fresh "Hused" in
  let H4 := fresh "Halloc" in let H5 := fresh "Hmem" in
  pose proof H as [H1 H2 H3 H4 H5]; unfold MAX_OFFSET in H2.

Lemma used_ok r : rb_inv r -> ring_buf_used r = head_offset r - ctail_offset r.
Proof. intros H. rb H. unfold ring_buf_used. apply u64_id. lia. Qed.

Lemma avail_ok r : rb_inv r -> ring_buf_avail r = alloc_ r - (head_offset r - ctail_offset r).
Proof. intros H. rb H. unfold ring_buf_avail. rewrite used_ok by done. apply u64_id. lia. Qed.

Lemma index_ok r x : 0 < alloc_ r -> ring_index x r = (Ok (x mod alloc_ r), r).
Proof. intros H. unfold ring_index. by replace (alloc_ r =? 0) with false by lia. Qed.

(** The number of bytes that a push of [len] bytes takes. *)
Definition push_count (r : ring_buf) (len : Z) : Z :=
  Z.min len (Z.min (alloc_ r - (head_offset r - ctail_offset r)) (MAX_OFFSET - head_offset r)).

Lemma set_head_inv r h : rb_inv r -> ctail_offset r <= h <= MAX_OFFSET -> h - ctail_offset r <= alloc_ r ->
  rb_inv (set_head h r).
Proof. intros H Hh Hu. rb H. split; cbn; try done; unfold MAX_OFFSET in *; lia. Qed.

Lemma wrote_set_head off bs r r' h : wrote off bs r r' -> wrote off bs r (set_head h r').
Proof. intros [A C N O]. by split. Qed.

(** One round: a chunk up to the end of the allocation. *)
Lemma push_round fuel r bs len p :
  rb_inv r -> 0 <= len <= zlen bs -> 0 < push_count r len ->
  let m := push_count r len in
  let l := Z.min m (alloc_ r - head_offset r mod alloc_ r) in
  0 < l <= m /\
  exists r1, push_loop (S fuel) bs len p r = push_loop fuel (zdrop l bs) (m - l) (p + l) r1 /\
    wrote (head_offset r) (ztake l bs) r r1 /\ head_offset r1 = head_offset r + l /\ rb_inv r1.
Proof.
  intros Hr Hlen Hm m l. rb Hr.
  assert (Hmm : m = push_count r len) by done. rewrite <-Hmm in Hm. clearbody m. unfold push_count in Hmm.
  assert (Ha : 0 < alloc_ r) by lia. pose proof (Z.mod_pos_bound (head_offset r) (alloc_ r) Ha) as Hmod.
  split; [lia|]. cbn [push_loop]. unfold bind at 1. cbn [get]. rewrite avail_ok by done.
  rewrite (u64_id (MAX_OFFSET - head_offset r)) by (unfold MAX_OFFSET; lia).
  set (b1 := if len >? _ then _ else len).
  assert (Hb1 : b1 = Z.min len (alloc_ r - (head_offset r - ctail_offset r)))
    by (subst b1; destruct (Z.gtb_spec len (alloc_ r - (head_offset r - ctail_offset r))); lia).
  set (b2 := if b1 >? _ then _ else b1).
  assert (Hb2 : b2 = m) by (subst b2; destruct (Z.gtb_spec b1 (MAX_OFFSET - head_offset r)); lia).
  rewrite Hb2. replace (m =? 0) with false by lia.
  rewrite (bind_ok _ _ _ _ _ (index_ok r (head_offset r) Ha)). rewrite u64_id by lia.
  replace (if m <? alloc_ r - head_offset r mod alloc_ r then m else alloc_ r - head_offset r mod alloc_ r)
    with l by (subst l; destruct (Z.ltb_spec m (alloc_ r - head_offset r mod alloc_ r)); lia).
  assert (Hzl : zlen (ztake l bs) = l) by (apply zlen_ztake; lia).
  destruct (store_chunk r (head_offset r) (ztake l bs)) as (r1 & Hs & Hw & Hh & Hi); [done|lia..|].
  rewrite (bind_ok _ _ _ _ _ Hs). unfold bind at 1. cbn [modify].
  rewrite Hh, u64_id by lia. exists (set_head (head_offset r + l) r1).
  split_and!; [done|by apply wrote_set_head|done|].
  apply set_head_inv; [done|rewrite (wrote_ctail _ _ _ _ Hw); unfold MAX_OFFSET in *; lia|].
  rewrite (wrote_ctail _ _ _ _ Hw), (wrote_alloc _ _ _ _ Hw). lia.
Qed.

Lemma push_stop fuel r bs len p :
  rb_inv r -> 0 <= len -> push_count r len = 0 -> push_loop (S fuel) bs len p r = (Ok p, r).
Proof.
  intros Hr Hlen Hm. rb Hr. unfold push_count in Hm. cbn [push_loop]. unfold bind at 1. cbn [get].
  rewrite avail_ok by done. rewrite (u64_id (MAX_OFFSET - head_offset r)) by (unfold MAX_OFFSET; lia).
  destruct (Z.gtb_spec len (alloc_ r - (head_offset r - ctail_offset r)));
    match goal with |- context [?a >? ?b] => destruct (Z.gtb_spec a b) end;
    match goal with |- context [?a =? 0] => replace (a =? 0) with true by lia end; done.
Qed.

Lemma ring_buf_push_ok r bs :
  rb_inv r ->
  let m := push_count r (zlen bs) in
  exists r', ring_buf_push bs r = (Ok m, r') /\ wrote (head_offset r) (ztake m bs) r r' /\
             head_offset r' = head_offset r + m /\ rb_inv r'.
Proof.
  intros Hr m. unfold ring_buf_push. pose proof (zlen_nonneg bs) as Hz. rb Hr.
  assert (Hmd : m = Z.min (zlen bs) (Z.min (alloc_ r - (head_offset r - ctail_offset r))
                                           (4611686018427387904 - head_offset r))) by done.
  assert (Hm0 : 0 <= m) by lia.
  destruct (decide (m = 0)) as [Hm|Hm].
  { exists r. rewrite Hm, ztake_le_zero by lia. split_and!; [by apply push_stop|apply wrote_nil|lia|done]. }
  destruct (push_round 2 r bs (zlen bs) 0 Hr ltac:(lia) ltac:(lia)) as (Hl & r1 & E1 & W1 & H1 & I1).
  fold m in Hl, E1, W1, H1. set (l := Z.min m _) in *.
  assert (Hc1 : push_count r1 (m - l) = m - l).
  { unfold push_count. rewrite H1, (wrote_ctail _ _ _ _ W1), (wrote_alloc _ _ _ _ W1).
    unfold MAX_OFFSET. lia. }
  rewrite E1. destruct (decide (l = m)) as [Hlm|Hlm].
  { exists r1. rewrite push_stop by (done || lia). rewrite Hlm in *. done. }
  assert (Ha : 0 < alloc_ r) by lia.
  assert (Hidx : head_offset r1 mod alloc_ r1 = 0).
  { rewrite H1, (wrote_alloc _ _ _ _ W1). replace l with (alloc_ r - head_offset r mod alloc_ r) by lia.
    rewrite (Z.div_mod (head_offset r) (alloc_ r)) at 1 by lia.
    replace (alloc_ r * (head_offset r / alloc_ r) + head_offset r mod alloc_ r + (alloc_ r - head_offset r mod alloc_ r))
      with ((head_offset r / alloc_ r + 1) * alloc_ r) by lia. apply Z.mod_mul. lia. }
  assert (Hzb : zlen (zdrop l bs) = zlen bs - l) by (apply zlen_zdrop; lia).
  assert (Hmle : m <= zlen bs) by (lia).
  destruct (push_round 1 r1 (zdrop l bs) (m - l) (0 + l) I1 ltac:(lia) ltac:(lia)) as (Hl2 & r2 & E2 & W2 & H2 & I2).
  rewrite Hc1, Hidx, (wrote_alloc _ _ _ _ W1) in *. rewrite Z.min_l in * by (lia).
  exists r2. rewrite E2. rewrite push_stop; [|done|lia|unfold push_count; rb I2; unfold MAX_OFFSET; lia].
  split_and!; [do 2 f_equal; lia| |lia|done].
  assert (Hzl : zlen (ztake l bs) = l) by (apply zlen_ztake; lia).
  assert (Hzt : ztake m bs = ztake l bs ++ ztake (m - l) (zdrop l bs)).
  { rewrite !ztake_take, zdrop_drop, take_take_drop. f_equal. lia. }
  rewrite Hzt. eapply wrote_app; [lia| |exact W1|rewrite Hzl, <-H1; exact W2].
  rewrite Hzl, zlen_ztake by lia. lia.
Qed.

(** One round of [write_at_loop]. *)
Lemma write_round n r off bs :
  rb_inv r -> ctail_offset r <= off -> off + zlen bs <= ctail_offset r + alloc_ r ->
  off + zlen bs <= MAX_OFFSET -> 0 < zlen bs ->
  let l := Z.min (zlen bs) (alloc_ r - off mod alloc_ r) in
  0 < l <= zlen bs /\
  exists r1, write_at_loop (S n) off bs r = write_at_loop n (off + l) (zdrop l bs) r1 /\
    wrote off (ztake l bs) r r1 /\ head_offset r1 = Z.max (head_offset r) (off + l) /\ rb_inv r1.
Proof.
  intros Hr Hc He Hmax' Hlen l. rb Hr. unfold MAX_OFFSET in Hmax'.
  assert (Ha : 0 < alloc_ r) by lia. pose proof (Z.mod_pos_bound off (alloc_ r) Ha) as Hmod.
  split; [lia|]. cbn [write_at_loop]. replace (zlen bs >? 0) with true by lia.
  rewrite (bind_ok _ _ _ _ _ (index_ok r off Ha)). unfold bind at 1. cbn [get]. rewrite u64_id by lia.
  replace (if zlen bs <? alloc_ r - off mod alloc_ r then zlen bs else alloc_ r - off mod alloc_ r)
    with l by (subst l; destruct (Z.ltb_spec (zlen bs) (alloc_ r - off mod alloc_ r)); lia).
  assert (Hzl : zlen (ztake l bs) = l) by (apply zlen_ztake; lia).
  destruct (store_chunk r off (ztake l bs)) as (r1 & Hs & Hw & Hh & Hi); [done|lia..|].
  rewrite (bind_ok _ _ _ _ _ Hs). unfold bind at 1. cbn [modify]. rewrite u64_id by lia. rewrite Hh.
  exists (set_head (Z.max (head_offset r) (off + l)) r1). split_and!; [|by apply wrote_set_head|done|].
  - destruct (Z.ltb_spec (head_offset r) (off + l)).
    + by rewrite Z.max_r by lia.
    + rewrite Z.max_l by lia. rewrite <-Hh at 1. by destruct r1.
  - apply set_head_inv; [done|rewrite (wrote_ctail _ _ _ _ Hw); unfold MAX_OFFSET in *; lia|].
    rewrite (wrote_ctail _ _ _ _ Hw), (wrote_alloc _ _ _ _ Hw). lia.
Qed.

Lemma write_stop n r off : write_at_loop n off [] r = (Ok tt, r).
Proof. destruct n; cbn; by rewrite zlen_nil. Qed.

Lemma mod_round_up a x : 0 < a -> (x + (a - x mod a)) mod a = 0.
Proof.
  intros Ha. rewrite (Z.div_mod x a) at 1 by lia.
  replace (a * (x / a) + x mod a + (a - x mod a)) with ((x / a + 1) * a) by lia. apply Z.mod_mul. lia.
Qed.

Lemma ztake_split l m (bs : list Z) : 0 <= l <= m -> ztake m bs = ztake l bs ++ ztake (m - l) (zdrop l bs).
Proof. intros H. rewrite !ztake_take, zdrop_drop, take_take_drop. f_equal. lia. Qed.

Lemma write_at_loop_ok r off bs :
  rb_inv r -> ctail_offset r <= off -> off + zlen bs <= ctail_offset r + alloc_ r ->
  off + zlen bs <= MAX_OFFSET ->
  exists r', write_at_loop 2 off bs r = (Ok tt, r') /\ wrote off bs r r' /\
    head_offset r' = (if zlen bs =? 0 then head_offset r else Z.max (head_offset r) (off + zlen bs)) /\
    rb_inv r'.
Proof.
  intros Hr Hc He Hm. pose proof (zlen_nonneg bs). destruct (Z.eqb_spec (zlen bs) 0) as [Hz|Hz].
  { apply zlen_zero_nil in Hz as ->. exists r. rewrite write_stop. split_and!; [done|apply wrote_nil|done..]. }
  rb Hr. assert (Ha : 0 < alloc_ r) by lia.
  destruct (write_round 1 r off bs Hr Hc He Hm ltac:(lia)) as (Hl & r1 & E1 & W1 & H1 & I1).
  set (l := Z.min (zlen bs) _) in *. rewrite E1.
  assert (Hzl : zlen (ztake l bs) = l) by (apply zlen_ztake; lia).
  assert (Hzd : zlen (zdrop l bs) = zlen bs - l) by (apply zlen_zdrop; lia).
  destruct (decide (l = zlen bs)) as [Hlb|Hlb].
  { rewrite zdrop_ge, write_stop by lia. rewrite ztake_ge in W1 by lia. rewrite Hlb in H1. eauto. }
  assert (Hidx : (off + l) mod alloc_ r1 = 0).
  { rewrite (wrote_alloc _ _ _ _ W1). replace l with (alloc_ r - off mod alloc_ r) by lia. by apply mod_round_up. }
  destruct (write_round 0 r1 (off + l) (zdrop l bs) I1) as (Hl2 & r2 & E2 & W2 & H2 & I2);
    rewrite ?Hzd, ?(wrote_ctail _ _ _ _ W1), ?(wrote_alloc _ _ _ _ W1) in *; [lia..|].
  rewrite Hidx, Z.min_l in * by (rewrite ?(wrote_alloc _ _ _ _ W1); lia).
  exists r2. rewrite E2, zdrop_ge, write_stop by lia. rewrite ztake_ge in W2 by lia.
  split_and!; [done| |lia|done]. rewrite <-(ztake_zdrop l bs).
  eapply wrote_app; [lia|rewrite Hzl, Hzd; lia|exact W1|by rewrite Hzl].
Qed.

Lemma ring_buf_write_at_ok r off bs :
  rb_inv r -> 0 <= off -> off + zlen bs <= MAX_OFFSET ->
  if decide (ctail_offset r <= off /\ off + zlen bs <= ctail_offset r + alloc_ r /\
             head_offset r + zlen bs <= MAX_OFFSET)
  then exists r', ring_buf_write_at off bs r = (Ok tt, r') /\ wrote off bs r r' /\
         head_offset r' = (if zlen bs =? 0 then head_offset r else Z.max (head_offset r) (off + zlen bs)) /\
         rb_inv r'
  else ring_buf_write_at off bs r = (Err, r).
Proof.
  intros Hr Hoff' Hm. rb Hr. pose proof (zlen_nonneg bs). unfold MAX_OFFSET in Hm.
  assert (Hrun : ring_buf_write_at off bs r =
    (if (off <? ctail_offset r) || (off + zlen bs >? ctail_offset r + alloc_ r)
        || (head_offset r + zlen bs >? MAX_OFFSET)
     then fail else write_at_loop 2 off bs) r).
  { unfold ring_buf_write_at. unfold bind at 1. cbn [get]. rewrite avail_ok by done.
    unfold safe_add. rewrite !(proj2 (Z.ltb_lt _ U64_MOD)) by (unfold U64_MOD; lia). cbn [orb].
    rewrite orb_false_r.
    by replace (head_offset r + (alloc_ r - (head_offset r - ctail_offset r))) with (ctail_offset r + alloc_ r) by lia. }
  rewrite Hrun. unfold MAX_OFFSET. case_decide as Hd.
  - replace ((off <? ctail_offset r) || _ || _) with false by lia.
    by apply write_at_loop_ok; unfold MAX_OFFSET; try lia.
  - by replace ((off <? ctail_offset r) || _ || _) with true by lia.
Qed.

Lemma get_buf_at_ok r off :
  rb_inv r -> ctail_offset r <= off <= head_offset r ->
  exists src l, ring_buf_get_buf_at off r = (Ok (src, l), r) /\
    l = (if alloc_ r =? 0 then 0 else Z.min (head_offset r - off) (alloc_ r - off mod alloc_ r)) /\
    0 <= l <= head_offset r - off /\ (l = 0 <-> off = head_offset r) /\
    zlen (load r src l) = l /\ (forall k, 0 <= k < l -> znth k (load r src l) = byte_at r (off + k)).
Proof.
  intros Hr Ho. rb Hr. unfold ring_buf_get_buf_at. unfold bind at 1. cbn [get].
  replace ((off >? head_offset r) || _) with false by lia.
  destruct (Z.eqb_spec (alloc_ r) 0) as [Ha|Ha].
  { exists None, 0. unfold load. destruct (start r); [lia|]. split_and!; (done || lia). }
  rewrite (bind_ok _ _ _ _ _ (index_ok r off ltac:(lia))).
  pose proof (Z.mod_pos_bound off (alloc_ r) ltac:(lia)) as Hm. rewrite !u64_id by lia.
  set (l := if head_offset r - off >? _ then _ else _).
  assert (Hl : l = Z.min (head_offset r - off) (alloc_ r - off mod alloc_ r))
    by (subst l; destruct (Z.gtb_spec (head_offset r - off) (alloc_ r - off mod alloc_ r)); lia).
  clearbody l. destruct (start r) as [b|] eqn:Hb; [|lia]. destruct Hmem as [Hlen _].
  exists (Some (off mod alloc_ r)), l. unfold load, byte_at. rewrite Hb.
  split_and!; [done|done|lia|lia|lia| |].
  - rewrite zlen_ztake; [done|]. rewrite zlen_zdrop by lia. lia.
  - intros k Hk. rewrite znth_ztake, znth_zdrop by lia. f_equal. rewrite mod_run by lia. done.
Qed.

Lemma get_buf_at_err r off :
  (off < ctail_offset r \/ head_offset r < off) -> ring_buf_get_buf_at off r = (Err, r).
Proof.
  intros H. unfold ring_buf_get_buf_at, bind, get.
  by replace ((off >? head_offset r) || _) with true by lia.
Qed.

Lemma znth_zeros j n : znth j (zrepeat 0 n) = 0.
Proof.
  unfold zrepeat. revert j. induction (Z.to_nat n) as [|k IH]; intros j; cbn [zrepeat_nat znth]; [done|].
  rewrite IH. by destruct (j =? 0), (j <=? 0).
Qed.

(** Overwriting a range of the buffer with zeros, in one or two parts. *)
Lemma cleanse_ok r l :
  rb_inv r -> 0 < alloc_ r -> 0 <= l <= alloc_ r ->
  exists r', (let! '(l, idx) :=
                (if l >? alloc_ r - ctail_offset r mod alloc_ r then
                   cleanse_at (ctail_offset r mod alloc_ r) (alloc_ r - ctail_offset r mod alloc_ r) ;;;
                   ret (u64 (l - (alloc_ r - ctail_offset r mod alloc_ r)), 0)
                 else ret (l, ctail_offset r mod alloc_ r)) in
              if l >? 0 then cleanse_at idx l else ret tt) r = (Ok tt, r') /\
    wrote (ctail_offset r) (zrepeat 0 l) r r' /\ head_offset r' = head_offset r /\ rb_inv r'.
Proof.
  intros Hr Ha Hl. rb Hr. pose proof (Z.mod_pos_bound (ctail_offset r) (alloc_ r) Ha) as Hm.
  set (a1 := alloc_ r - ctail_offset r mod alloc_ r). unfold cleanse_at.
  destruct (Z.gtb_spec l a1) as [Hgt|Hgt].
  - destruct (store_chunk r (ctail_offset r) (zrepeat 0 a1)) as (r1 & Hs & Hw & Hh & Hi);
      [done|done|rewrite ?zlen_zrepeat by lia; lia..|].
    destruct (store_chunk r1 (ctail_offset r + a1) (zrepeat 0 (l - a1))) as (r2 & Hs2 & Hw2 & Hh2 & Hi2);
      rewrite ?(wrote_ctail _ _ _ _ Hw), ?(wrote_alloc _ _ _ _ Hw), ?zlen_zrepeat by lia; [done|lia..| |].
    { unfold a1 at 2. rewrite mod_round_up by lia. lia. }
    rewrite (wrote_alloc _ _ _ _ Hw) in Hs2. unfold a1 at 1 in Hs2. rewrite mod_round_up in Hs2 by lia.
    exists r2. split_and!; [| |congruence|done].
    + unfold bind. rewrite Hs. cbn [ret]. rewrite u64_id by lia. by replace (l - a1 >? 0) with true by lia.
    + assert (Hz : zrepeat 0 l = zrepeat 0 a1 ++ zrepeat 0 (l - a1)).
      { unfold zrepeat. replace (Z.to_nat l) with (Z.to_nat a1 + Z.to_nat (l - a1))%nat by lia.
        generalize (Z.to_nat a1), (Z.to_nat (l - a1)). induction n as [|n IH]; intros m; [done|]. cbn. by rewrite IH. }
      rewrite Hz. eapply wrote_app; [lia|rewrite !zlen_zrepeat by lia; lia|exact Hw|].
      rewrite zlen_zrepeat by lia. exact Hw2.
  - destruct (store_chunk r (ctail_offset r) (zrepeat 0 l)) as (r1 & Hs & Hw & Hh & Hi);
      [done|done|rewrite ?zlen_zrepeat by lia; lia..|].
    unfold bind, ret. destruct (Z.gtb_spec l 0); [by exists r1|].
    exists r. replace l with 0 by lia. split_and!; [done|apply wrote_nil|done|done].
Qed.

Lemma set_ctail_inv r c :
  rb_inv r -> ctail_offset r <= c <= MAX_OFFSET -> rb_inv (set_head (Z.max (head_offset r) c) (set_ctail c r)).
Proof. intros H Hc. rb H. unfold MAX_OFFSET in *. split; cbn; unfold MAX_OFFSET; try done; lia. Qed.

Lemma cpop_range_ok r s e cl :
  rb_inv r -> 0 <= s <= e -> e < MAX_OFFSET -> s <= ctail_offset r <= e + 1 ->
  exists r', ring_buf_cpop_range s e cl r = (Ok tt, r') /\ rb_inv r' /\
    alloc_ r' = alloc_ r /\ ctail_offset r' = e + 1 /\ head_offset r' = Z.max (head_offset r) (e + 1) /\
    (forall i, e + 1 <= i < head_offset r -> byte_at r' i = byte_at r i) /\
    (cl = true -> ctail_offset r < e -> forall i, ctail_offset r <= i < head_offset r -> i <= e -> byte_at r' i = 0).
Proof.
  intros Hr Hse He Hc. rb Hr. unfold MAX_OFFSET in He.
  unfold ring_buf_cpop_range. replace (e >=? s) with true by lia. unfold bind at 1. cbn [assert_ ret].
  unfold bind at 1. cbn [get]. unfold MAX_OFFSET. replace ((s >? ctail_offset r) || _) with false by lia.
  rewrite (u64_id (e + 1)) by lia.
  assert (Hfin : forall r1, head_offset r1 = head_offset r ->
    (modify (set_ctail (e + 1)) ;;;
     modify (fun r => if head_offset r <? ctail_offset r then set_head (ctail_offset r) r else r)) r1 =
    (Ok tt, set_head (Z.max (head_offset r) (e + 1)) (set_ctail (e + 1) r1))).
  { intros r1 Hh. unfold bind, modify. cbn [head_offset ctail_offset set_ctail]. rewrite Hh.
    destruct (Z.ltb_spec (head_offset r) (e + 1)); [by rewrite Z.max_r by lia|].
    rewrite Z.max_l by lia. rewrite <-Hh at 1. by destruct r1. }
  destruct (cl && (alloc_ r >? 0) && (e >? ctail_offset r)) eqn:Hcl.
  - apply andb_true_iff in Hcl as [[-> Ha]%andb_true_iff Hec].
    set (ce := if e + 1 >? head_offset r then head_offset r else e + 1).
    assert (Hce : ce = Z.min (head_offset r) (e + 1)) by (subst ce; destruct (Z.gtb_spec (e + 1) (head_offset r)); lia).
    clearbody ce. destruct (cleanse_ok r (ce - ctail_offset r) Hr ltac:(lia) ltac:(lia)) as (r1 & Hs & Hw & Hh & Hi).
    exists (set_head (Z.max (head_offset r) (e + 1)) (set_ctail (e + 1) r1)). split_and!.
    + rewrite (bind_ok _ _ r tt r1); [by apply Hfin|]. rewrite (bind_ok _ _ _ _ _ (index_ok r (ctail_offset r) ltac:(lia))).
      rewrite (u64_id (ce - ctail_offset r)) by lia. exact Hs.
    + rewrite <-Hh. apply set_ctail_inv; [done|]. rewrite (wrote_ctail _ _ _ _ Hw). unfold MAX_OFFSET. lia.
    + apply (wrote_alloc _ _ _ _ Hw).
    + done.
    + done.
    + intros i Hi'. apply (wrote_old _ _ _ _ Hw); [lia|]. rewrite zlen_zrepeat by lia. lia.
    + intros _ _ i Hi' Hie. change (byte_at r1 i = 0). rewrite (wrote_new _ _ _ _ Hw) by (rewrite zlen_zrepeat by lia; lia).
      apply znth_zeros.
  - exists (set_head (Z.max (head_offset r) (e + 1)) (set_ctail (e + 1) r)). split_and!; try done.
    + rewrite (bind_ok _ _ r tt r) by done. by apply Hfin.
    + apply set_ctail_inv; [done|unfold MAX_OFFSET; lia].
    + intros -> Hlt i Hi Hie. lia.
Qed.

(** ** Resizing *)

(** The new buffer [rn] holds the first [k] bytes of [r]. *)
Record copying (r rn : ring_buf) (n k : Z) : Prop := {
  copying_inv : rb_inv rn;
  copying_alloc : alloc_ rn = n;
  copying_ctail : ctail_offset rn = ctail_offset r;
  copying_head : head_offset rn = ctail_offset r + k;
  copying_bytes : forall i, ctail_offset r <= i < ctail_offset r + k -> byte_at rn i = byte_at r i
}.

Lemma resize_round fuel r rn n k :
  rb_inv r -> copying r rn n k -> 0 <= k < head_offset r - ctail_offset r ->
  head_offset r - ctail_offset r <= n < 9223372036854775808 ->
  let off := ctail_offset r + k in
  let l := Z.min (head_offset r - off) (alloc_ r - off mod alloc_ r) in
  0 < l /\ k + l <= head_offset r - ctail_offset r /\
  exists rn', resize_loop (S fuel) r k rn = resize_loop fuel r (k + l) rn' /\ copying r rn' n (k + l).
Proof.
  intros Hr Hc Hk Hn off l. rb Hr. destruct Hc as [Ci Ca Cc Ch Cb].
  pose proof (Z.mod_pos_bound off (alloc_ r) ltac:(lia)) as Hm.
  split; [lia|]. split; [lia|]. cbn [resize_loop]. rewrite u64_id by lia.
  destruct (get_buf_at_ok r off Hr ltac:(lia)) as (src & l' & Hg & Hl & Hl0 & Hz & Hlen & Hbytes).
  replace (alloc_ r =? 0) with false in Hl by lia. fold l in Hl. rewrite Hl in *. clear Hl l'.
  fold off. rewrite Hg. replace (l =? 0) with false by lia.
  destruct (ring_buf_push_ok rn (load r src l) Ci) as (rn' & Hp & Hw & Hh & Hi').
  assert (Hpc : push_count rn (zlen (load r src l)) = l).
  { unfold push_count. rewrite Hlen, Ca, Cc, Ch. unfold MAX_OFFSET. lia. }
  rewrite Hpc in *. rewrite (bind_ok _ _ _ _ _ Hp), Z.eqb_refl. cbn [negb]. rewrite u64_id by lia.
  exists rn'. split; [done|]. rewrite ztake_ge in Hw by lia. split; [done|..].
  - by rewrite (wrote_alloc _ _ _ _ Hw).
  - by rewrite (wrote_ctail _ _ _ _ Hw).
  - lia.
  - intros i Hii. destruct (decide (i < ctail_offset r + k)).
    + rewrite (wrote_old _ _ _ _ Hw) by lia. apply Cb. lia.
    + rewrite (wrote_new _ _ _ _ Hw) by lia. rewrite Hbytes by lia. f_equal. lia.
Qed.

Lemma resize_stop fuel r rn n k :
  rb_inv r -> copying r rn n k -> k = head_offset r - ctail_offset r ->
  resize_loop (S fuel) r k rn = (Ok tt, rn).
Proof.
  intros Hr Hc ->. rb Hr. cbn [resize_loop].
  replace (ctail_offset r + (head_offset r - ctail_offset r)) with (head_offset r) by lia.
  rewrite u64_id by lia.
  destruct (get_buf_at_ok r (head_offset r) Hr ltac:(lia)) as (src & l & Hg & _ & _ & Hz & _).
  rewrite Hg. assert (l = 0) as -> by tauto. done.
Qed.

Lemma resize_loop_ok r rn n :
  rb_inv r -> copying r rn n 0 -> head_offset r - ctail_offset r <= n < 9223372036854775808 ->
  exists rn', resize_loop 4 r 0 rn = (Ok tt, rn') /\ copying r rn' n (head_offset r - ctail_offset r).
Proof.
  intros Hr Hc Hn. rb Hr. set (u := head_offset r - ctail_offset r) in *.
  destruct (decide (u = 0)) as [Hu|Hu].
  { exists rn. rewrite Hu. split; [|done]. by apply (resize_stop _ _ _ n). }
  destruct (resize_round 3 r rn n 0 Hr Hc ltac:(lia) ltac:(lia)) as (Hl & Hle & rn1 & E1 & C1).
  rewrite Z.add_0_r in *. set (l := Z.min _ _) in *. rewrite E1.
  destruct (decide (0 + l = u)) as [Hlu|Hlu].
  { exists rn1. rewrite Hlu in *. split; [|done]. by apply (resize_stop _ _ _ n). }
  destruct (resize_round 2 r rn1 n (0 + l) Hr C1 ltac:(lia) ltac:(lia)) as (Hl2 & Hle2 & rn2 & E2 & C2).
  rewrite E2. rewrite Z.add_0_l in *.
  assert (Hidx : (ctail_offset r + l) mod alloc_ r = 0).
  { replace l with (alloc_ r - ctail_offset r mod alloc_ r) by lia. apply mod_round_up. lia. }
  rewrite Hidx in *. assert (Hsum : l + Z.min (head_offset r - (ctail_offset r + l)) (alloc_ r - 0) = u) by lia.
  rewrite Hsum in *. exists rn2. split; [|done]. by apply (resize_stop _ _ _ n).
Qed.

Section ResizeOk.
Context (fresh : Z -> list Z) (fresh_len : forall n, 0 <= n -> zlen (fresh n) = n).

Lemma resize_ok r n cl ok :
  rb_inv r -> 0 <= n < 9223372036854775808 ->
  if decide (n = alloc_ r) then ring_buf_resize fresh n cl ok r = (Ok tt, r)
  else if decide (n < head_offset r - ctail_offset r \/ n = 0 \/ ok = false)
  then ring_buf_resize fresh n cl ok r = (Err, r)
  else exists r', ring_buf_resize fresh n cl ok r = (Ok tt, r') /\ rb_inv r' /\ alloc_ r' = n /\
         ctail_offset r' = ctail_offset r /\ head_offset r' = head_offset r /\
         forall i, ctail_offset r <= i < head_offset r -> byte_at r' i = byte_at r i.
Proof.
  intros Hr Hn. rb Hr.
  assert (Hrun : ring_buf_resize fresh n cl ok r =
    (if n =? alloc_ r then ret tt
     else if n <? head_offset r - ctail_offset r then fail
     else if negb ok || (n =? 0) then fail
     else
       let! '(_, rnew) := local_run (resize_loop 4 r 0)
                            (mkRing (Some (fresh n)) n (ctail_offset r) (ctail_offset r)) in
       assert_ (head_offset rnew =? head_offset r) ;;;
       put (set_ctail (ctail_offset r) rnew)) r).
  { unfold ring_buf_resize. unfold bind at 1. cbn [get]. rewrite used_ok by done.
    replace (head_offset r - (head_offset r - ctail_offset r)) with (ctail_offset r) by lia.
    by rewrite u64_id by lia. }
  rewrite Hrun. clear Hrun. case_decide as H1; [by replace (n =? alloc_ r) with true by lia|].
  replace (n =? alloc_ r) with false by lia. case_decide as H2.
  { destruct (Z.ltb_spec n (head_offset r - ctail_offset r)); [done|].
    destruct ok; [|done]. cbn. by replace (n =? 0) with true by (destruct H2 as [?|[?|?]]; [lia|lia|done]). }
  replace (n <? _) with false by lia. assert (Hok : ok = true) by (destruct ok; tauto).
  rewrite Hok. cbn [negb orb]. replace (n =? 0) with false by lia.
  set (rn := mkRing (Some (fresh n)) n (ctail_offset r) (ctail_offset r)).
  assert (C0 : copying r rn n 0).
  { split; cbn; try done; try lia. split; cbn; unfold MAX_OFFSET; try lia. rewrite fresh_len by lia. lia. }
  destruct (resize_loop_ok r rn n Hr C0 ltac:(lia)) as (rn' & E & [Ci Ca Cc Ch Cb]).
  exists rn'. unfold bind at 1, local_run. rewrite E. cbv beta iota. unfold bind, assert_, put.
  replace (head_offset rn' =? head_offset r) with true by lia. split_and!; [|done|done|done|lia|].
  - cbn [ret]. do 2 f_equal. rewrite <-Cc. by destruct rn'.
  - intros i Hi. apply Cb. lia.
Qed.
End ResizeOk.

(** ** Refinement: a bounded queue over the log of all bytes pushed *)

Record queue := mkQueue {
  log : list Z;       (* every byte pushed so far, zero for those that were culled instead *)
  tail : Z;           (* bytes before this offset were culled *)
  cap : Z             (* size of the buffer *)
}.

Inductive rop :=
  | op_push (bs : list Z)
  | op_cull (start end_ : Z) (cleanse : bool)
  | op_resize (n : Z) (cleanse ok : bool).

(** The calls that the interface allows. A cull does not end before the tail: the tail would
    move back. *)
Definition rop_ok (q : queue) (op : rop) : bool :=
  match op with
  | op_push bs => true
  | op_cull s e _ => (0 <=? s) && (s <=? e) && (tail q <=? e + 1) && (e <? U64_MOD)
  | op_resize n _ _ => (0 <=? n) && (n <? 9223372036854775808)
  end.

(** The result is the number of bytes pushed, or 1 or 0 for success or failure. A cull that
    starts after the tail, or ends at the limit of the protocol, does nothing; one that ends
    after the data moves the head along. *)
Definition spec_rop (op : rop) (q : queue) : Z * queue :=
  match op with
  | op_push bs =>
      let k := Z.min (zlen bs) (Z.min (cap q - (zlen (log q) - tail q)) (MAX_OFFSET - zlen (log q))) in
      (k, mkQueue (log q ++ ztake k bs) (tail q) (cap q))
  | op_cull s e _ =>
      if (s >? tail q) || (e >=? MAX_OFFSET) then (1, q)
      else (1, mkQueue (log q ++ zrepeat 0 (e + 1 - zlen (log q))) (e + 1) (cap q))
  | op_resize n _ ok =>
      if n =? cap q then (1, q)
      else if (n <? zlen (log q) - tail q) || (n =? 0) || negb ok then (0, q)
      else (1, mkQueue (log q) (tail q) n)
  end.

Record holds (r : ring_buf) (q : queue) : Prop := {
  holds_inv : rb_inv r;
  holds_head : head_offset r = zlen (log q);
  holds_tail : ctail_offset r = tail q;
  holds_cap : alloc_ r = cap q;
  holds_bytes : forall i, ctail_offset r <= i < head_offset r -> byte_at r i = znth i (log q)
}.

Section Refinement.
Context (fresh : Z -> list Z).

Definition exec_rop (op : rop) : M ring_buf Z :=
  match op with
  | op_push bs => ring_buf_push bs
  | op_cull s e cl => ring_buf_cpop_range s e cl ;;; ret 1
  | op_resize n cl ok =>
      fun r => match ring_buf_resize fresh n cl ok r with
               | (Ok _, r') => (Ok 1, r')
               | (Err, r') => (Ok 0, r')
               | (Ub, r') => (Ub, r')
               end
  end.

Fixpoint exec_rops (ops : list rop) : M ring_buf (list Z) :=
  match ops with
  | [] => ret []
  | op :: ops' => let! x := exec_rop op in let! xs := exec_rops ops' in ret (x :: xs)
  end.

Fixpoint spec_rops (ops : list rop) (q : queue) : list Z * queue :=
  match ops with
  | [] => ([], q)
  | op :: ops' => let (x, q') := spec_rop op q in let (xs, q'') := spec_rops ops' q' in (x :: xs, q'')
  end.

Fixpoint rops_ok (ops : list rop) (q : queue) : bool :=
  match ops with
  | [] => true
  | op :: ops' => rop_ok q op && rops_ok ops' (snd (spec_rop op q))
  end.

Context (fresh_len : forall n, 0 <= n -> zlen (fresh n) = n).

Lemma exec_push_ok r q bs :
  holds r q -> exists r', exec_rop (op_push bs) r = (Ok (fst (spec_rop (op_push bs) q)), r') /\
                          holds r' (snd (spec_rop (op_push bs) q)).
Proof.
  intros [Hi Hh Ht Hc Hb]. cbn [exec_rop spec_rop fst snd].
  destruct (ring_buf_push_ok r bs Hi) as (r' & Hp & Hw & Hh' & Hi').
  unfold push_count in *. rewrite Hh, Ht, Hc in *. set (k := Z.min (zlen bs) _) in *.
  exists r'. split; [done|]. rb Hi. pose proof (zlen_nonneg bs).
  assert (Hk : 0 <= k <= zlen bs) by (subst k; unfold MAX_OFFSET; lia).
  assert (Hzk : zlen (ztake k bs) = k) by (apply zlen_ztake; lia).
  split; cbn [log tail cap]; [done|rewrite zlen_app; lia| | |].
  - rewrite (wrote_ctail _ _ _ _ Hw). done.
  - by rewrite (wrote_alloc _ _ _ _ Hw).
  - intros i Hii. destruct (decide (i < zlen (log q))).
    + rewrite znth_app_l by (rewrite (wrote_ctail _ _ _ _ Hw) in Hii; lia).
      rewrite (wrote_old _ _ _ _ Hw) by (rewrite (wrote_ctail _ _ _ _ Hw) in Hii; lia).
      apply Hb. rewrite (wrote_ctail _ _ _ _ Hw) in Hii. lia.
    + rewrite znth_app_r by lia. apply (wrote_new _ _ _ _ Hw). lia.
Qed.

Lemma zlen_zrepeat_max {A} (x : A) n : zlen (zrepeat x n) = Z.max 0 n.
Proof.
  destruct (decide (0 <= n)); [rewrite zlen_zrepeat by done; lia|].
  unfold zrepeat. replace (Z.to_nat n) with 0%nat by lia. cbn [zrepeat_nat]. rewrite zlen_nil. lia.
Qed.

Lemma exec_cull_ok r q s e cl :
  holds r q -> 0 <= s <= e -> tail q <= e + 1 ->
  exists r', exec_rop (op_cull s e cl) r = (Ok (fst (spec_rop (op_cull s e cl) q)), r') /\
             holds r' (snd (spec_rop (op_cull s e cl) q)).
Proof.
  intros Hq Hs He. pose proof Hq as [Hi Hh Ht Hc Hb]. pose proof (zlen_nonneg (log q)). cbn [exec_rop spec_rop].
  destruct ((s >? tail q) || (e >=? MAX_OFFSET)) eqn:Hskip; cbn [fst snd].
  { exists r. split; [|done]. erewrite bind_ok; [done|]. unfold ring_buf_cpop_range.
    replace (e >=? s) with true by lia. unfold bind, assert_, get, ret. cbn. by rewrite Ht, Hskip. }
  destruct (cpop_range_ok r s e cl Hi) as (r' & Hp & Hi' & Ha' & Ht' & Hh' & Hb' & _); [lia..|].
  exists r'. rewrite (bind_ok _ _ _ _ _ Hp). split; [done|].
  split; cbn [log tail cap]; try done; try congruence.
  - rewrite zlen_app, zlen_zrepeat_max. lia.
  - intros i Hii. rewrite Hh' in Hii. rewrite Hb' by lia. rewrite znth_app_l by lia. apply Hb. lia.
Qed.

Lemma exec_rop_ok r q op :
  holds r q -> rop_ok q op = true ->
  exists r', exec_rop op r = (Ok (fst (spec_rop op q)), r') /\ holds r' (snd (spec_rop op q)).
Proof.
  intros Hq Hok. destruct op as [bs|s e cl|n cl ok]; [by apply exec_push_ok|cbn [rop_ok] in Hok; apply exec_cull_ok; [done|lia..]|];
    pose proof Hq as [Hi Hh Ht Hc Hb]; rb Hi; cbn [rop_ok] in Hok.
    cbn [exec_rop spec_rop]. pose proof (resize_ok fresh fresh_len r n cl ok Hi ltac:(lia)) as Hr.
    rewrite <-Hh, <-Ht, <-Hc. case_decide as H1.
    { rewrite Hr. replace (n =? alloc_ r) with true by lia. eauto. }
    replace (n =? alloc_ r) with false by lia. case_decide as H2.
    { rewrite Hr. exists r.
      replace ((n <? _) || (n =? 0) || negb ok) with true; [done|].
      destruct ok; cbn; [|by rewrite orb_true_r]. destruct H2 as [?|[?|?]]; [lia|lia|done]. }
    destruct Hr as (r' & Hr & Hi' & Ha' & Ht' & Hh' & Hb'). rewrite Hr. exists r'.
    replace ((n <? _) || (n =? 0) || negb ok) with false by (destruct ok; [cbn; lia|tauto]).
    split; [done|]. split; cbn [snd log tail cap]; try done; try congruence.
    intros i Hii. rewrite Hb' by lia. apply Hb. lia.
Qed.

Lemma exec_rops_ok ops : forall r q,
  holds r q -> rops_ok ops q = true ->
  exists r', exec_rops ops r = (Ok (fst (spec_rops ops q)), r') /\ holds r' (snd (spec_rops ops q)).
Proof.
  induction ops as [|op ops IH]; intros r q Hq Hok; cbn [exec_rops spec_rops rops_ok] in *; [by exists r|].
  apply andb_true_iff in Hok as [Hop Hops].
  destruct (exec_rop_ok r q op Hq Hop) as (r1 & E1 & H1). destruct (spec_rop op q) as [x q1]. cbn [fst snd] in *.
  destruct (IH r1 q1 H1 Hops) as (r2 & E2 & H2). destruct (spec_rops ops q1) as [xs q2]. cbn [fst snd] in *.
  exists r2. rewrite (bind_ok _ _ _ _ _ E1), (bind_ok _ _ _ _ _ E2). done.
Qed.
End Refinement.

Lemma holds_read r q off :
  holds r q -> tail q <= off <= zlen (log q) ->
  exists src l, ring_buf_get_buf_at off r = (Ok (src, l), r) /\
    load r src l = ztake l (zdrop off (log q)) /\ (l = 0 <-> off = zlen (log q)).
Proof.
  intros [Hi Hh Ht Hc Hb] Hoff. rb Hi.
  destruct (get_buf_at_ok r off Hi ltac:(lia)) as (src & l & Hg & _ & Hl & Hz & Hlen & Hby).
  exists src, l. rewrite <-Hh. split_and!; [done| |done].
  assert (Hzt : zlen (ztake l (zdrop off (log q))) = l) by (rewrite zlen_ztake; [done|rewrite zlen_zdrop; lia]).
  apply znth_ext; [lia|]. intros i Hi'. rewrite Hlen in Hi'. rewrite Hby by lia.
  rewrite znth_ztake, znth_zdrop by lia. apply Hb. lia.
Qed.

(** ** Properties *)

(** C27: whatever sequence of pushes, culls and resizes is applied to a fresh ring
    buffer, and whatever the allocator and fresh memory do, nothing undefined
    happens, every call returns what a bounded queue of the same capacity returns,
    and every offset that was not culled reads back exactly the bytes that were
    pushed there. Culls may start after the tail or end at the limit of offsets, and then do
    nothing, or end after the data, and then the next byte is pushed behind them; they only
    do not end before the tail. *)
Theorem ring_buf_refines_queue fresh ops :
  (forall n, 0 <= n -> zlen (fresh n) = n) ->
  rops_ok ops (mkQueue [] 0 0) = true ->
  let (xs, q) := spec_rops ops (mkQueue [] 0 0) in
  exists r, exec_rops fresh ops ring_buf_init = (Ok xs, r) /\
    ring_buf_used r = zlen (log q) - tail q /\ ring_buf_avail r = cap q - (zlen (log q) - tail q) /\
    forall off, tail q <= off <= zlen (log q) ->
      exists src l, ring_buf_get_buf_at off r = (Ok (src, l), r) /\
        load r src l = ztake l (zdrop off (log q)) /\ (l = 0 <-> off = zlen (log q)).
Proof.
  intros Hf Hok. assert (H0 : holds ring_buf_init (mkQueue [] 0 0)).
  { split; cbn; try done; lia. }
  destruct (exec_rops_ok fresh Hf ops _ _ H0 Hok) as (r & E & Hq).
  destruct (spec_rops ops (mkQueue [] 0 0)) as [xs q]. cbn [fst snd] in *.
  exists r. pose proof Hq as [Hi Hh Ht Hc _].
  split_and!; [done|rewrite used_ok by done; lia|rewrite avail_ok by done; lia|].
  intros off Hoff. by apply holds_read.
Qed.

(** Pushes that wrap around, culls of all kinds, and a resize. *)
Definition ring_example : list rop :=
  [op_resize 5 false true; op_push [1; 2; 3; 4]; op_cull 0 2 true; op_push [5; 6; 7; 8; 9];
   op_resize 8 true true; op_cull 5 6 true; op_cull 1 MAX_OFFSET false; op_push [10; 11];
   op_cull 3 20 true; op_push [12; 13]].

Lemma ring_buf_refines_queue_witness :
  let (xs, q) := spec_rops ring_example (mkQueue [] 0 0) in
  exists r, exec_rops (fun n => zrepeat 255 n) ring_example ring_buf_init = (Ok xs, r) /\
    ring_buf_used r = zlen (log q) - tail q /\ ring_buf_avail r = cap q - (zlen (log q) - tail q) /\
    forall off, tail q <= off <= zlen (log q) ->
      exists src l, ring_buf_get_buf_at off r = (Ok (src, l), r) /\
        load r src l = ztake l (zdrop off (log q)) /\ (l = 0 <-> off = zlen (log q)).
Proof.
  apply (ring_buf_refines_queue (fun n => zrepeat 255 n) ring_example).
  - intros n Hn. by apply zlen_zrepeat.
  - vm_compute. reflexivity.
Defined.

(** writing at an offset (received data, in any order) succeeds exactly when
    the bytes lie between the cull tail and the end of the buffer, and below the
    limit on the head; then exactly the bytes of the range change, the head moves
    to the end of the data if that is further on, and otherwise nothing
    changes. *)
Theorem ring_buf_write_at_spec r off bs :
  rb_inv r -> 0 <= off -> off + zlen bs <= MAX_OFFSET ->
  if decide (ctail_offset r <= off /\ off + zlen bs <= ctail_offset r + alloc_ r /\
             head_offset r + zlen bs <= MAX_OFFSET)
  then exists r', ring_buf_write_at off bs r = (Ok tt, r') /\ rb_inv r' /\
         ctail_offset r' = ctail_offset r /\ alloc_ r' = alloc_ r /\
         head_offset r' = (if zlen bs =? 0 then head_offset r else Z.max (head_offset r) (off + zlen bs)) /\
         (forall i, off <= i < off + zlen bs -> byte_at r' i = znth (i - off) bs) /\
         (forall i, ctail_offset r <= i < ctail_offset r + alloc_ r -> ~ off <= i < off + zlen bs ->
            byte_at r' i = byte_at r i)
  else ring_buf_write_at off bs r = (Err, r).
Proof.
  intros Hr Ho Hm. pose proof (ring_buf_write_at_ok r off bs Hr Ho Hm) as H.
  case_decide; [|done]. destruct H as (r' & E & [Wa Wc Wn Wo] & Hh & Hi). by exists r'.
Qed.

Definition ring_write_example : ring_buf := mkRing (Some [0; 0; 0; 0; 0; 0]) 6 4 3.

Lemma ring_buf_write_at_spec_witness :
  if decide (3 <= 5 /\ 5 + zlen [1; 2; 3] <= 3 + 6 /\ 4 + zlen [1; 2; 3] <= MAX_OFFSET)
  then exists r', ring_buf_write_at 5 [1; 2; 3] ring_write_example = (Ok tt, r') /\ rb_inv r' /\
         ctail_offset r' = 3 /\ alloc_ r' = 6 /\
         head_offset r' = (if zlen [1; 2; 3] =? 0 then 4 else Z.max 4 (5 + zlen [1; 2; 3])) /\
         (forall i, 5 <= i < 5 + zlen [1; 2; 3] -> byte_at r' i = znth (i - 5) [1; 2; 3]) /\
         (forall i, 3 <= i < 3 + 6 -> ~ 5 <= i < 5 + zlen [1; 2; 3] ->
            byte_at r' i = byte_at ring_write_example i)
  else ring_buf_write_at 5 [1; 2; 3] ring_write_example = (Err, ring_write_example).
Proof.
  apply (ring_buf_write_at_spec ring_write_example 5 [1; 2; 3]).
  - split; cbn; unfold MAX_OFFSET; zsimpl; lia.
  - lia.
  - unfold MAX_OFFSET. zsimpl. lia.
Defined.

(** a cull with cleansing overwrites the culled bytes with zeros when it
    advances the tail by more than one byte, but leaves the old byte in memory
    when it advances the tail by exactly one. *)
Theorem ring_buf_cull_one_byte_not_cleansed :
  let r := mkRing (Some [7; 8; 9]) 3 3 0 in
  ring_buf_cpop_range 0 0 true r = (Ok tt, mkRing (Some [7; 8; 9]) 3 3 1) /\
  ring_buf_cpop_range 0 1 true r = (Ok tt, mkRing (Some [0; 0; 9]) 3 3 2).
Proof. split; reflexivity. Qed.

(** writing ahead of the head is checked against the limit with the head and
    not with the offset written to, so that the head can pass the limit of
    2^62. *)
Theorem ring_buf_write_at_passes_limit :
  let r := mkRing (Some [0; 0; 0; 0; 0; 0; 0; 0]) 8 (MAX_OFFSET - 2) (MAX_OFFSET - 2) in
  exists r', ring_buf_write_at (MAX_OFFSET - 1) [1; 2] r = (Ok tt, r') /\ head_offset r' = MAX_OFFSET + 1.
Proof. eexists. split; vm_compute; reflexivity. Qed.
