(* ===== verification/SStream.v ===== *)
(** QUIC send streams: ssl/quic/quic_sstream.c.

    A send stream is a ring buffer that keeps the bytes that may have to be sent
    (again), and two sets of offsets: the bytes that are new or lost, and the bytes
    that are acknowledged. The state is the stream with the allocator's answers
    still to come; the result 0 of a function is the failure of the monad. *)

From stdpp Require Import base list numbers.
From Stdlib Require Import ZArith Lia.
From S2P Require Import Prelude UintSet RingBuf.

#[local] Open Scope cfun_scope.

(** ** Definitions *)

Record QUIC_SSTREAM := mkSstream {
  ring : ring_buf;
  new_set : UINT_SET;
  acked_set : UINT_SET;
  have_final_size : bool;
  sent_final_size : bool;
  acked_final_size : bool;
  cleanse : bool
}.

Definition SS : Type := QUIC_SSTREAM * oracle.

Definition set_ring (r : ring_buf) (q : QUIC_SSTREAM) : QUIC_SSTREAM :=
  mkSstream r (new_set q) (acked_set q) (have_final_size q) (sent_final_size q) (acked_final_size q) (cleanse q).
Definition set_new (u : UINT_SET) (q : QUIC_SSTREAM) : QUIC_SSTREAM :=
  mkSstream (ring q) u (acked_set q) (have_final_size q) (sent_final_size q) (acked_final_size q) (cleanse q).
Definition set_acked (u : UINT_SET) (q : QUIC_SSTREAM) : QUIC_SSTREAM :=
  mkSstream (ring q) (new_set q) u (have_final_size q) (sent_final_size q) (acked_final_size q) (cleanse q).
Definition set_final (h s a : bool) (q : QUIC_SSTREAM) : QUIC_SSTREAM :=
  mkSstream (ring q) (new_set q) (acked_set q) h s a (cleanse q).

(** Operations on the parts of the stream. *)
Definition on_ring {A} (m : M ring_buf A) : M SS A :=
  fun '(q, o) => let (x, r) := m (ring q) in (x, (set_ring r q, o)).
Definition on_new {A} (m : M US A) : M SS A :=
  fun '(q, o) => let '(x, (u, o')) := m (new_set q, o) in (x, (set_new u q, o')).
Definition on_acked {A} (m : M US A) : M SS A :=
  fun '(q, o) => let '(x, (u, o')) := m (acked_set q, o) in (x, (set_acked u q, o')).

Definition get_qss : M SS QUIC_SSTREAM := fun s => (Ok (fst s), s).

Section Stream.
(** The contents of freshly allocated memory of a size. *)
Context (fresh : Z -> list Z).

(** A call of [ring_buf_resize] with the allocator's next answer. *)
Definition resize (num_bytes : Z) (cl : bool) : M SS unit :=
  fun '(q, o) => let (ok, o') := alloc o in
                 let (x, r) := ring_buf_resize fresh num_bytes cl ok (ring q) in
                 (x, (set_ring r q, o')).

(** [None] for NULL. *)
Definition ossl_quic_sstream_new (init_buf_size : Z) (o : oracle) : res (option QUIC_SSTREAM) * oracle :=
  let (ok, o) := alloc o in
  if negb ok then (Ok None, o)
  else
    let qss := mkSstream ring_buf_init (mkUintSet [] 0) (mkUintSet [] 0) false false false false in
    match resize init_buf_size false (qss, o) with
    | (Ok _, (qss, o)) =>
        (Ok (Some (set_new ossl_uint_set_init (set_acked ossl_uint_set_init qss))), o)
    | (Err, (_, o)) => (Ok None, o)
    | (Ub, (_, o)) => (Ub, o)
    end.

Definition ossl_quic_sstream_free (qss : QUIC_SSTREAM) : QUIC_SSTREAM :=
  set_ring (ring_buf_destroy (ring qss) (cleanse qss))
    (set_new (ossl_uint_set_destroy (new_set qss))
       (set_acked (ossl_uint_set_destroy (acked_set qss)) qss)).

Record stream_hdr := mkHdr { offset : Z; len : Z; hdr_is_fin : bool }.

(** A part of the ring buffer's memory. *)
Definition OSSL_QTX_IOVEC : Type := option Z * Z.

(** The range after [skip] items; [None] for NULL, with the number of items that
    are still to be skipped. *)
Fixpoint skip_ranges (skip : Z) (l : list UINT_RANGE) : option UINT_RANGE * Z :=
  match l with
  | [] => (None, skip)
  | r :: l' => if 0 <? skip then skip_ranges (skip - 1) l' else (Some r, skip)
  end.

(** The loop that collects the parts of a frame. *)
Fixpoint frame_loop (fuel : nat) (start i total_len max_len : Z) (iov : list OSSL_QTX_IOVEC)
  : M SS (Z * list OSSL_QTX_IOVEC) :=
  match fuel with
  | O => undef
  | S fuel' =>
      if total_len >=? max_len then ret (total_len, iov)
      else
        let! '(src, src_len) := on_ring (ring_buf_get_buf_at (u64 (start + total_len))) in
        if src_len =? 0 then ret (total_len, iov)
        else
          assert_ (i <? 2) ;;;
          let src_len := if u64 (total_len + src_len) >? max_len then u64 (max_len - total_len) else src_len in
          frame_loop fuel' start (i + 1) (u64 (total_len + src_len)) max_len (iov ++ [(src, src_len)])
  end.

Definition ossl_quic_sstream_get_stream_frame (skip num_iov : Z) : M SS (stream_hdr * list OSSL_QTX_IOVEC) :=
  let! qss := get_qss in
  if num_iov <? 2 then fail
  else
    match skip_ranges skip (items (new_set qss)) with
    | (None, rest) =>
        if rest >? 0 then fail
        else if negb (have_final_size qss) || sent_final_size qss then fail
        else ret (mkHdr (head_offset (ring qss)) 0 true, [])
    | (Some range, _) =>
        let max_len := u64 (UintSet.end_ range - UintSet.start range + 1) in
        let! '(total_len, iov) := frame_loop 4 (UintSet.start range) 0 0 max_len [] in
        ret (mkHdr (UintSet.start range) total_len
               (have_final_size qss && (u64 (UintSet.start range + total_len) =? head_offset (ring qss))), iov)
    end.

Definition ossl_quic_sstream_has_pending : M SS bool :=
  fun s => match ossl_quic_sstream_get_stream_frame 0 2 s with
           | (Ok _, s') => (Ok true, s')
           | (Err, s') => (Ok false, s')
           | (Ub, s') => (Ub, s')
           end.

Definition ossl_quic_sstream_get_cur_size (qss : QUIC_SSTREAM) : Z := head_offset (ring qss).

Definition ossl_quic_sstream_mark_transmitted (start end_ : Z) : M SS unit :=
  on_new (ossl_uint_set_remove (mkRange start end_)).

Definition ossl_quic_sstream_mark_transmitted_fin (final_size : Z) : M SS unit :=
  let! qss := get_qss in
  guard (negb (negb (have_final_size qss) || negb (final_size =? head_offset (ring qss)))) ;;;
  modify (fun '(q, o) => (set_final (have_final_size q) true (acked_final_size q) q, o)).

Definition ossl_quic_sstream_mark_lost (start end_ : Z) : M SS unit :=
  on_new (ossl_uint_set_insert (mkRange start end_)).

Definition ossl_quic_sstream_mark_lost_fin : M SS unit :=
  let! qss := get_qss in
  guard (negb (acked_final_size qss)) ;;;
  modify (fun '(q, o) => (set_final (have_final_size q) false (acked_final_size q) q, o)).

Definition qss_cull : M SS unit :=
  let! qss := get_qss in
  match items (acked_set qss) with
  | [] => ret tt
  | h :: _ => on_ring (ring_buf_cpop_range (UintSet.start h) (UintSet.end_ h) (cleanse qss))
  end.

Definition ossl_quic_sstream_mark_acked (start end_ : Z) : M SS unit :=
  on_acked (ossl_uint_set_insert (mkRange start end_)) ;;; qss_cull.

Definition ossl_quic_sstream_mark_acked_fin : M SS unit :=
  let! qss := get_qss in
  guard (have_final_size qss) ;;;
  modify (fun '(q, o) => (set_final (have_final_size q) (sent_final_size q) true q, o)).

Definition ossl_quic_sstream_fin : M SS unit :=
  modify (fun '(q, o) => if have_final_size q then (q, o)
                         else (set_final true (sent_final_size q) (acked_final_size q) q, o)).

Definition ossl_quic_sstream_get_final_size (qss : QUIC_SSTREAM) : option Z :=
  if negb (have_final_size qss) then None else Some (head_offset (ring qss)).

(** The pushing loop of the append. *)
Fixpoint append_loop (fuel : nat) (buf : list Z) (consumed : Z) : M SS Z :=
  match fuel with
  | O => undef
  | S fuel' =>
      if zlen buf >? 0 then
        let! l := on_ring (ring_buf_push buf) in
        if l =? 0 then ret consumed
        else append_loop fuel' (zdrop l buf) (u64 (consumed + l))
      else ret consumed
  end.

(** The number of bytes consumed. On failure nothing is consumed: the offsets of
    the ring buffer are put back, but not the contents of its memory. *)
Definition ossl_quic_sstream_append (buf : list Z) : M SS Z :=
  let! old := get_qss in
  if have_final_size old then fail
  else
    let! consumed := append_loop 3 buf 0 in
    if consumed >? 0 then
      let r_start := head_offset (ring old) in
      let r_end := u64 (r_start + consumed - 1) in
      let! qss := get_qss in
      assert_ (u64 (r_end + 1) =? head_offset (ring qss)) ;;;
      fun s => match on_new (ossl_uint_set_insert (mkRange r_start r_end)) s with
               | (Ok _, s') => (Ok consumed, s')
               | (Err, (q, o)) =>
                   (Err, (set_ring (mkRing (RingBuf.start (ring q)) (alloc_ (ring old))
                                           (head_offset (ring old)) (ctail_offset (ring old))) q, o))
               | (Ub, s') => (Ub, s')
               end
    else ret consumed.

Definition ossl_quic_sstream_set_buffer_size (num_bytes : Z) : M SS unit :=
  let! qss := get_qss in resize num_bytes (cleanse qss).

Definition ossl_quic_sstream_get_buffer_size (qss : QUIC_SSTREAM) : Z := alloc_ (ring qss).
Definition ossl_quic_sstream_get_buffer_used (qss : QUIC_SSTREAM) : Z := ring_buf_used (ring qss).
Definition ossl_quic_sstream_get_buffer_avail (qss : QUIC_SSTREAM) : Z := ring_buf_avail (ring qss).

Definition ossl_quic_sstream_is_totally_acked : M SS bool :=
  let! qss := get_qss in
  if have_final_size qss && negb (acked_final_size qss) then ret false
  else if ossl_quic_sstream_get_cur_size qss =? 0 then ret true
  else
    match items (acked_set qss) with
    | [r] =>
        let cur_size := head_offset (ring qss) in
        assert_ (u64 (UintSet.end_ r + 1) <=? cur_size) ;;;
        ret ((UintSet.start r =? 0) && (u64 (UintSet.end_ r + 1) =? cur_size))
    | _ => ret false
    end.

(** The lengths of the parts, cut so that they sum to at most [len]. *)
Fixpoint adjust_loop (len running : Z) (iov : list OSSL_QTX_IOVEC) : list OSSL_QTX_IOVEC :=
  match iov with
  | [] => []
  | (buf, iovlen) :: iov' =>
      let l := if running >=? len then 0
               else if u64 (running + iovlen) >? len then u64 (len - running) else iovlen in
      (buf, l) :: adjust_loop len (u64 (running + iovlen)) iov'
  end.

Definition ossl_quic_sstream_adjust_iov (len : Z) (iov : list OSSL_QTX_IOVEC) : list OSSL_QTX_IOVEC :=
  adjust_loop len 0 iov.

Definition ossl_quic_sstream_set_cleanse (c : bool) : M SS unit :=
  modify (fun '(q, o) => (mkSstream (ring q) (new_set q) (acked_set q) (have_final_size q)
                                    (sent_final_size q) (acked_final_size q) c, o)).

End Stream.

(** ** The abstract stream: every byte is new, in flight or acknowledged *)

Inductive bstate := New | InFlight | Acked.

#[export] Instance bstate_eq_dec : EqDecision bstate.
Proof. solve_decision. Defined.

Record sspec := mkSpec {
  sq : queue;              (* the log of the bytes, what was culled, the capacity *)
  st : Z -> bstate;        (* the state of each byte of the log *)
  s_have : bool;           (* the stream has a final size *)
  s_sent : bool;           (* its FIN was sent *)
  s_acked : bool           (* its FIN was acknowledged *)
}.

Definition size (a : sspec) : Z := zlen (log (sq a)).

Inductive sop :=
  | op_append (bs : list Z)
  | op_transmitted (s e : Z)
  | op_transmitted_fin (n : Z)
  | op_lost (s e : Z)
  | op_lost_fin
  | op_acked (s e : Z)
  | op_acked_fin
  | op_fin
  | op_set_size (n : Z).

(** The calls that a sender makes: ranges lie in the stream, and what is reported
    lost or acknowledged is in flight. *)
Definition sop_ok (a : sspec) (op : sop) : Prop :=
  match op with
  | op_transmitted s e => 0 <= s <= e /\ e < size a
  | op_lost s e | op_acked s e => 0 <= s <= e /\ e < size a /\ forall v, s <= v <= e -> st a v = InFlight
  | op_set_size n => 0 <= n < 9223372036854775808
  | _ => True
  end.

(** [f] applied to the states of the bytes from [s] to [e]. *)
Definition update (s e : Z) (f : bstate -> bstate) (x : Z -> bstate) (v : Z) : bstate :=
  if (s <=? v) && (v <=? e) then f (x v) else x v.

(** The first offset from [v] that is not acknowledged, looking at [n] bytes. *)
Fixpoint acked_run (x : Z -> bstate) (v : Z) (n : nat) : Z :=
  match n with
  | O => v
  | S n' => if bool_decide (x v = Acked) then acked_run x (v + 1) n' else v
  end.

Definition transmit (b : bstate) : bstate := if bool_decide (b = New) then InFlight else b.

(** The operations of the abstract stream, with their results ([None] for 0). *)
Definition spec_sop (op : sop) (a : sspec) : option Z * sspec :=
  match op with
  | op_append bs =>
      if s_have a then (None, a)
      else
        let (k, q) := spec_rop (op_push bs) (sq a) in
        (Some k, mkSpec q (update (size a) (size a + k - 1) (fun _ => New) (st a)) (s_have a) (s_sent a) (s_acked a))
  | op_transmitted s e => (Some 1, mkSpec (sq a) (update s e transmit (st a)) (s_have a) (s_sent a) (s_acked a))
  | op_transmitted_fin n =>
      if s_have a && (n =? size a) then (Some 1, mkSpec (sq a) (st a) (s_have a) true (s_acked a)) else (None, a)
  | op_lost s e => (Some 1, mkSpec (sq a) (update s e (fun _ => New) (st a)) (s_have a) (s_sent a) (s_acked a))
  | op_lost_fin =>
      if s_acked a then (None, a) else (Some 1, mkSpec (sq a) (st a) (s_have a) false (s_acked a))
  | op_acked s e =>
      let x := update s e (fun _ => Acked) (st a) in
      (Some 1, mkSpec (mkQueue (log (sq a)) (acked_run x 0 (length (log (sq a)))) (cap (sq a))) x
                 (s_have a) (s_sent a) (s_acked a))
  | op_acked_fin => if s_have a then (Some 1, mkSpec (sq a) (st a) (s_have a) (s_sent a) true) else (None, a)
  | op_fin => (Some 1, mkSpec (sq a) (st a) true (s_sent a) (s_acked a))
  | op_set_size n =>
      let (x, q) := spec_rop (op_resize n false true) (sq a) in
      (if x =? 1 then Some 1 else None, mkSpec q (st a) (s_have a) (s_sent a) (s_acked a))
  end.

(** The stream [q] represents the abstract stream [a]. *)
Record sim (q : QUIC_SSTREAM) (a : sspec) : Prop := {
  sim_ring : holds (ring q) (sq a);
  sim_new_inv : inv 2 (items (new_set q));
  sim_acked_inv : inv 2 (items (acked_set q));
  sim_new : forall v, contains (items (new_set q)) v <-> 0 <= v < size a /\ st a v = New;
  sim_acked : forall v, contains (items (acked_set q)) v <-> 0 <= v < size a /\ st a v = Acked;
  sim_tail : tail (sq a) = acked_run (st a) 0 (length (log (sq a)));
  sim_have : have_final_size q = s_have a;
  sim_sent : sent_final_size q = s_sent a;
  sim_acked_fin : acked_final_size q = s_acked a
}.

(** ** Sets of offsets *)

Lemma insert_disjoint u r :
  range_ok r -> inv 2 (items u) -> (forall v, in_range v r -> ~ contains (items u) v) ->
  exists u', ossl_uint_set_insert r (u, [] : oracle) = (Ok tt, (u', [])) /\ inv 2 (items u') /\
    forall v, contains (items u') v <-> contains (items u) v \/ in_range v r.
Proof.
  intros Hr Hi Hd. assert (Hcov : covered 2 r (items u)).
  { right. intros x Hx (H1 & H2 & H3 & H4)%overlaps_spec. exfalso.
    apply (Hd (Z.max (UintSet.start x) (UintSet.start r))); [unfold in_range; lia|].
    exists x. split; [done|unfold in_range; lia]. }
  pose proof (outcome_insert 2 r u ([] : oracle) ltac:(lia) Hr Hi ltac:(by left)) as H.
  pose proof (stays_exec_op (UintSet.op_insert r) (u, [] : oracle) eq_refl) as Hs. cbn [exec_op] in Hs.
  unfold outcome in H. destruct (ossl_uint_set_insert r (u, [] : oracle)) as [[[]| |] [u' o']]; cbn in H, Hs;
    [|by destruct H|done]. subst o'. exists u'. split; [done|exact H].
Qed.

Lemma remove_range u r :
  range_ok r -> inv 2 (items u) ->
  exists u', ossl_uint_set_remove r (u, [] : oracle) = (Ok tt, (u', [])) /\ inv 2 (items u') /\
    forall v, contains (items u') v <-> contains (items u) v /\ ~ in_range v r.
Proof.
  intros Hr Hi. pose proof (removal_remove 2 r u ([] : oracle) ltac:(lia) Hr Hi) as H.
  pose proof (stays_exec_op (UintSet.op_remove r) (u, [] : oracle) eq_refl) as Hs. cbn [exec_op] in Hs.
  unfold removal in H. destruct (ossl_uint_set_remove r (u, [] : oracle)) as [[[]| |] [u' o']]; cbn in H, Hs; try done.
  subst o'. exists u'. split; [done|exact H].
Qed.

(** ** The acknowledged prefix *)

Lemma acked_run_spec x n : forall v,
  let e := acked_run x v n in
  v <= e <= v + Z.of_nat n /\ (forall i, v <= i < e -> x i = Acked) /\
  (e < v + Z.of_nat n -> x e <> Acked).
Proof.
  induction n as [|n IH]; intros v; cbn [acked_run]; [split_and!; lia|].
  case_bool_decide as Hv; [|split_and!; (lia || done)].
  destruct (IH (v + 1)) as (H1 & H2 & H3). split_and!; [lia|lia| |intros; apply H3; lia].
  intros i Hi. destruct (decide (i = v)) as [->|]; [done|apply H2; lia].
Qed.

(** The run is determined by its end. *)
Lemma acked_run_unique x n e :
  0 <= e <= Z.of_nat n -> (forall i, 0 <= i < e -> x i = Acked) -> (e < Z.of_nat n -> x e <> Acked) ->
  acked_run x 0 n = e.
Proof.
  intros He H1 H2. destruct (acked_run_spec x n 0) as (R1 & R2 & R3).
  destruct (Z.lt_trichotomy (acked_run x 0 n) e) as [Hlt|[Heq|Hgt]]; [|done|].
  - exfalso. apply R3; [lia|]. apply H1. lia.
  - exfalso. apply H2; [lia|]. apply R2. lia.
Qed.

(** What [sim_tail] says. *)
Lemma tail_iff x (l : list Z) t :
  t = acked_run x 0 (length l) <->
  0 <= t <= zlen l /\ (forall i, 0 <= i < t -> x i = Acked) /\ (t < zlen l -> x t <> Acked).
Proof.
  rewrite zlen_length. split.
  - intros ->. destruct (acked_run_spec x (length l) 0) as (R1 & R2 & R3). split_and!; (lia || auto).
  - intros (H1 & H2 & H3). symmetry. by apply acked_run_unique.
Qed.

Lemma sim_offsets q a :
  sim q a -> 0 <= tail (sq a) <= size a /\ size a <= MAX_OFFSET /\ size a - tail (sq a) <= cap (sq a) /\
             head_offset (ring q) = size a /\ ctail_offset (ring q) = tail (sq a).
Proof.
  intros H. destruct (sim_ring _ _ H) as [Hi Hh Ht Hc _]. unfold size.
  pose proof (inv_offsets _ Hi). pose proof (inv_max _ Hi). pose proof (inv_used _ Hi). lia.
Qed.

Lemma update_in s e f x v : s <= v <= e -> update s e f x v = f (x v).
Proof. intros H. unfold update. by replace ((s <=? v) && (v <=? e)) with true by lia. Qed.

Lemma update_out s e f x v : ~ s <= v <= e -> update s e f x v = x v.
Proof. intros H. unfold update. by replace ((s <=? v) && (v <=? e)) with false by lia. Qed.

(** Case analysis on whether an offset is in an updated range. *)
Ltac upd :=
  repeat match goal with
  | |- context [update ?s ?e ?f ?x ?v] =>
      destruct (decide (s <= v <= e)); [rewrite (update_in s e f x v) by done|rewrite (update_out s e f x v) by done]
  | H : context [update ?s ?e ?f ?x ?v] |- _ =>
      destruct (decide (s <= v <= e)); [rewrite (update_in s e f x v) in H by done|rewrite (update_out s e f x v) in H by done]
  end.

(** The result of an operation: [None] for 0. *)
Definition attempt {A} (f : A -> Z) (m : M SS A) : M SS (option Z) :=
  fun s => match m s with
           | (Ok x, s') => (Ok (Some (f x)), s')
           | (Err, s') => (Ok None, s')
           | (Ub, s') => (Ub, s')
           end.

Lemma attempt_ok {A} (f : A -> Z) (m : M SS A) s x s' : m s = (Ok x, s') -> attempt f m s = (Ok (Some (f x)), s').
Proof. unfold attempt. by intros ->. Qed.

Lemma attempt_err {A} (f : A -> Z) (m : M SS A) s s' : m s = (Err, s') -> attempt f m s = (Ok None, s').
Proof. unfold attempt. by intros ->. Qed.

Lemma on_ring_eq {A} (m : M ring_buf A) q o x r : m (ring q) = (x, r) -> on_ring m (q, o) = (x, (set_ring r q, o)).
Proof. unfold on_ring. by intros ->. Qed.

(** ** Appending *)

Lemma append_loop_ok q o bs qu :
  holds (ring q) qu ->
  let (k, qu') := spec_rop (op_push bs) qu in
  exists r', append_loop 3 bs 0 (q, o) = (Ok k, (set_ring r' q, o)) /\ holds r' qu' /\
             0 <= k <= zlen bs /\ zlen (log qu') = zlen (log qu) + k.
Proof.
  intros Hq. cbn [spec_rop]. set (k := Z.min (zlen bs) _).
  pose proof (zlen_nonneg bs) as Hzb. pose proof Hq as [Hi Hh Ht Hc Hb].
  pose proof (inv_offsets _ Hi). pose proof (inv_max _ Hi). pose proof (inv_used _ Hi).
  assert (Hk : 0 <= k <= zlen bs) by (subst k; lia).
  assert (Hkm : zlen bs < U64_MOD \/ k < zlen bs) by (subst k; unfold MAX_OFFSET, U64_MOD in *; lia).
  assert (Hk64 : 0 <= k < 18446744073709551616) by (subst k; unfold MAX_OFFSET in *; lia).
  assert (Hlen : zlen (log qu ++ ztake k bs) = zlen (log qu) + k) by (rewrite zlen_app, zlen_ztake by lia; lia).
  destruct (exec_push_ok (fun _ => []) (ring q) qu bs Hq) as (r' & Hp & Hq'). cbn [exec_rop spec_rop fst snd] in Hp, Hq'.
  fold k in Hp, Hq'. cbn [append_loop].
  destruct (Z.gtb_spec (zlen bs) 0) as [Hpos|Hpos].
  2:{ exists (ring q). assert (Hk0 : k = 0) by lia. rewrite Hk0, ztake_le_zero, app_nil_r in * by lia.
      cbn [log]. split_and!; [by destruct q|by destruct qu|lia..]. }
  rewrite (bind_ok _ _ _ _ _ (on_ring_eq _ q o _ _ Hp)).
  destruct (Z.eqb_spec k 0) as [Hk0|Hk0]; [exists r'; by rewrite Hk0 in *|].
  rewrite Z.add_0_l, u64_id by done.
  assert (Hzd : zlen (zdrop k bs) = zlen bs - k) by (apply zlen_zdrop; lia).
  exists r'. split_and!; [|done|lia|lia|done].
  destruct (Z.gtb_spec (zlen (zdrop k bs)) 0) as [Hr|Hr]; [|done].
  pose proof Hq' as [Hi' Hh' Ht' Hc' _]. cbn [log tail cap] in Hh', Ht', Hc'.
  assert (Hst : ring_buf_push (zdrop k bs) r' = (Ok 0, r')).
  { apply push_stop; [done|lia|]. unfold push_count. rewrite Hh', Ht', Hc', Hlen.
    assert (k = Z.min (cap qu - (zlen (log qu) - tail qu)) (MAX_OFFSET - zlen (log qu))) by (subst k; lia). lia. }
  by rewrite (bind_ok _ _ _ _ _ (on_ring_eq _ (set_ring r' q) o _ _ Hst)).
Qed.

Lemma append_ok q a bs :
  sim q a ->
  exists q', attempt id (ossl_quic_sstream_append bs) (q, [] : oracle) =
             (Ok (fst (spec_sop (op_append bs) a)), (q', [])) /\ sim q' (snd (spec_sop (op_append bs) a)).
Proof.
  intros H. cbn [spec_sop]. destruct (s_have a) eqn:Hh.
  { exists q. split; [|done]. apply attempt_err. unfold ossl_quic_sstream_append, get_qss, bind. cbn [fst].
    by rewrite (sim_have _ _ H), Hh. }
  pose proof (append_loop_ok q [] bs (sq a) (sim_ring _ _ H)) as Hl.
  destruct (spec_rop (op_push bs) (sq a)) as [k qu] eqn:Hspec. destruct Hl as (r' & El & Hq' & Hk & Hlog).
  assert (Hqt : tail qu = tail (sq a) /\ log qu = log (sq a) ++ ztake k bs) by (cbn in Hspec; by simplify_eq).
  destruct Hqt as [Hqt Hql]. cbn [fst snd].
  destruct (sim_offsets _ _ H) as (O1 & O2 & O3 & O4 & O5).
  assert (Hmax : size a + k <= MAX_OFFSET) by (pose proof (inv_max _ (holds_inv _ _ Hq')); rewrite (holds_head _ _ Hq') in *; unfold size; lia).
  assert (Htail : tail qu = acked_run (update (size a) (size a + k - 1) (fun _ => New) (st a)) 0 (length (log qu))).
  { pose proof (proj1 (tail_iff _ _ _) (sim_tail _ _ H)) as (T1 & T2 & T3). apply tail_iff. rewrite Hqt.
    fold (size a) in *. split_and!; [lia|lia| |].
    - intros i Hi. rewrite update_out by lia. by apply T2.
    - intros Hlt. upd; [done|]. apply T3. unfold size in *. lia. }
  assert (Hrun : ossl_quic_sstream_append bs (q, [] : oracle) =
    if k >? 0 then
      match on_new (ossl_uint_set_insert (mkRange (size a) (size a + k - 1))) (set_ring r' q, [] : oracle) with
      | (Ok _, s') => (Ok k, s')
      | (Err, (q', o)) => (Err, (set_ring (mkRing (RingBuf.start (ring q')) (alloc_ (ring q))
                                                 (size a) (tail (sq a))) q', o))
      | (Ub, s') => (Ub, s')
      end
    else (Ok k, (set_ring r' q, []))).
  { unfold ossl_quic_sstream_append. unfold bind at 1. cbn [get_qss fst].
    rewrite (sim_have _ _ H), Hh, (bind_ok _ _ _ _ _ El). destruct (k >? 0) eqn:Hk0; [|done].
    unfold bind at 1. cbn [get_qss fst set_ring ring]. rewrite O4, O5.
    rewrite (u64_id (size a + k - 1)) by (unfold MAX_OFFSET in *; lia).
    rewrite (u64_id (size a + k - 1 + 1)) by (unfold MAX_OFFSET in *; lia).
    rewrite (holds_head _ _ Hq'). replace (size a + k - 1 + 1 =? zlen (log qu)) with true by (unfold size; lia).
    done. }
  assert (Hqh : have_final_size q = false) by (rewrite (sim_have _ _ H); done).
  destruct (Z.gtb_spec k 0) as [Hk0|Hk0].
  - set (r := mkRange (size a) (size a + k - 1)).
    assert (Hr : range_ok r) by (subst r; unfold range_ok, U64_MOD, MAX_OFFSET in *; cbn; lia).
    destruct (insert_disjoint (new_set q) r Hr (sim_new_inv _ _ H)) as (u' & Eu & Hui & Huc).
    { intros v Hv Hc. apply (sim_new _ _ H) in Hc. unfold in_range in Hv; cbn in Hv. lia. }
    exists (set_new u' (set_ring r' q)). split.
    + apply (attempt_ok id). rewrite Hrun. fold r. unfold on_new. cbn [new_set set_ring]. by rewrite Eu.
    + split; cbn [set_new set_ring ring new_set acked_set sq st s_have s_sent s_acked have_final_size sent_final_size
        acked_final_size]; try done; try apply H.
      * intros v. rewrite Huc, (sim_new _ _ H). unfold size at 2, in_range; cbn [sq]; cbn. rewrite Hlog. fold (size a).
        upd; split; intros; intuition lia.
      * intros v. rewrite (sim_acked _ _ H). unfold size at 2; cbn [sq]. rewrite Hlog. fold (size a).
        upd; split; intros; intuition (lia || congruence).
  - exists (set_ring r' q). split; [apply (attempt_ok id); by rewrite Hrun|].
    assert (Hk' : k = 0) by lia.
    split; cbn [set_ring ring new_set acked_set sq st s_have s_sent s_acked have_final_size sent_final_size
        acked_final_size]; try done; try apply H.
    + intros v. rewrite (sim_new _ _ H). unfold size at 2; cbn [sq]. rewrite Hlog. fold (size a).
      upd; [lia|]. rewrite Hk', Z.add_0_r. done.
    + intros v. rewrite (sim_acked _ _ H). unfold size at 2; cbn [sq]. rewrite Hlog. fold (size a).
      upd; [lia|]. rewrite Hk', Z.add_0_r. done.
Qed.

(** ** Acknowledging *)

Lemma head_range h l :
  inv 2 (h :: l) ->
  range_ok h /\ (forall v, contains (h :: l) v -> UintSet.start h <= v) /\
  (forall v, in_range v h -> contains (h :: l) v) /\ ~ contains (h :: l) (UintSet.end_ h + 1).
Proof.
  intros (Hh & Hl & Hb)%inv_cons. split_and!; [done| | |].
  - intros v [Hv|(r & Hr & Hv)]%contains_cons; unfold in_range in Hv; [lia|]. specialize (Hb r Hr).
    unfold range_ok in *. lia.
  - intros v Hv. apply contains_cons. by left.
  - intros [Hv|(r & Hr & Hv)]%contains_cons; unfold in_range in Hv; [lia|]. specialize (Hb r Hr). lia.
Qed.

(** Culling after an acknowledgement: [u] holds the acknowledged bytes [x]. *)
Lemma cull_ok q o qu x :
  holds (ring q) qu -> inv 2 (items (acked_set q)) ->
  (forall v, contains (items (acked_set q)) v <-> 0 <= v < zlen (log qu) /\ x v = Acked) ->
  (forall v, 0 <= v < tail qu -> x v = Acked) ->
  exists r', qss_cull (q, o) = (Ok tt, (set_ring r' q, o)) /\
             holds r' (mkQueue (log qu) (acked_run x 0 (length (log qu))) (cap qu)).
Proof.
  intros Hq Hi Hc Hx. pose proof Hq as [Hinv Hh Ht _ _]. pose proof (inv_offsets _ Hinv). pose proof (inv_max _ Hinv).
  unfold qss_cull. unfold bind at 1. cbn [get_qss fst].
  destruct (items (acked_set q)) as [|h l] eqn:Hit.
  - exists (ring q). split; [by destruct q|].
    rewrite (acked_run_unique x (length (log qu)) (tail qu)); [by destruct qu| |done|].
    + rewrite <-zlen_length. lia.
    + rewrite <-zlen_length. intros Hlt Ha. apply (contains_nil (tail qu)), Hc. split; [lia|done].
  - destruct (head_range h l Hi) as ([H1 H2] & H3 & H4 & H5).
    destruct (decide (UintSet.start h = 0)) as [Hs|Hs].
    + assert (He : UintSet.end_ h < zlen (log qu)) by (apply (Hc (UintSet.end_ h)), H4; unfold in_range; lia).
      assert (Hrun : acked_run x 0 (length (log qu)) = UintSet.end_ h + 1).
      { apply acked_run_unique; rewrite <-?zlen_length; [lia| |].
        - intros i Hi'. apply (Hc i), H4. unfold in_range. lia.
        - intros Hlt Ha. apply H5, Hc. split; [lia|done]. }
      assert (Hte : tail qu <= UintSet.end_ h + 1).
      { destruct (decide (tail qu <= UintSet.end_ h + 1)); [done|]. exfalso. apply H5, Hc. split; [lia|apply Hx; lia]. }
      destruct (exec_rop_ok (fun n => zrepeat 0 n) (zlen_zrepeat 0) (ring q) qu
                  (op_cull (UintSet.start h) (UintSet.end_ h) (cleanse q)) Hq) as (r' & Hr & Hq').
      { cbn [rop_ok]. pose proof (holds_inv _ _ Hq) as Hrb. rb Hrb. pose proof (holds_head _ _ Hq). unfold U64_MOD. lia. }
      pose proof (holds_inv _ _ Hq) as Hrb. rb Hrb. pose proof (holds_head _ _ Hq). cbn [exec_rop spec_rop] in Hr, Hq'.
      replace ((_ >? _) || _) with false in Hr, Hq' by (unfold MAX_OFFSET; lia). cbn [fst snd] in Hr, Hq'.
      replace (zrepeat 0 (UintSet.end_ h + 1 - zlen (log qu))) with (@nil Z) in Hq'
        by (unfold zrepeat; by replace (Z.to_nat _) with 0%nat by lia). rewrite app_nil_r in Hq'. apply bind_ok_inv in Hr as ([] & r1 & Hr & [= ->]).
      exists r'. rewrite Hrun. split; [by apply on_ring_eq|done].
    + assert (Hn0 : ~ contains (h :: l) 0) by (intros Hv%H3; lia).
      assert (Htail : tail qu = 0).
      { destruct (decide (tail qu = 0)); [done|]. exfalso. apply Hn0, Hc. split; [lia|apply Hx; lia]. }
      exists (ring q). split.
      * rewrite (on_ring_eq _ q o (Ok tt) (ring q)); [by destruct q|].
        unfold ring_buf_cpop_range. replace (UintSet.end_ h >=? UintSet.start h) with true by lia.
        unfold bind at 1. cbn [assert_ ret]. unfold bind at 1. cbn [get].
        by replace ((UintSet.start h >? ctail_offset (ring q)) || _) with true by lia.
      * rewrite (acked_run_unique x (length (log qu)) 0); [rewrite <-Htail; by destruct qu|lia|lia|].
        rewrite <-zlen_length. intros Hlt Ha. apply Hn0, Hc. split; [lia|done].
Qed.

Lemma acked_ok q a s e :
  sim q a -> sop_ok a (op_acked s e) ->
  exists q', ossl_quic_sstream_mark_acked s e (q, [] : oracle) = (Ok tt, (q', [])) /\
             sim q' (snd (spec_sop (op_acked s e) a)).
Proof.
  intros H (Hse & He & Hst). destruct (sim_offsets _ _ H) as (O1 & O2 & O3 & O4 & O5).
  set (r := mkRange s e).
  assert (Hr : range_ok r) by (subst r; unfold range_ok, U64_MOD, MAX_OFFSET in *; cbn; lia).
  destruct (insert_disjoint (acked_set q) r Hr (sim_acked_inv _ _ H)) as (u & Eu & Hui & Huc).
  { intros v Hv (Hv1 & Hv2)%(sim_acked _ _ H). unfold in_range in Hv; cbn in Hv. rewrite Hst in Hv2 by lia. done. }
  set (x := update s e (fun _ => Acked) (st a)).
  assert (Hcx : forall v, contains (items u) v <-> 0 <= v < zlen (log (sq a)) /\ x v = Acked).
  { intros v. rewrite Huc, (sim_acked _ _ H). subst x. unfold in_range; cbn. unfold size in *.
    upd; split; intros; intuition lia. }
  destruct (cull_ok (set_acked u q) [] (sq a) x) as (r' & Ec & Hq'); [apply H|done|done| |].
  { intros v Hv. pose proof (proj1 (tail_iff _ _ _) (sim_tail _ _ H)) as (T1 & T2 & T3). subst x. upd; auto. }
  exists (set_ring r' (set_acked u q)). split.
  - unfold ossl_quic_sstream_mark_acked.
    assert (E1 : on_acked (ossl_uint_set_insert r) (q, [] : oracle) = (Ok tt, (set_acked u q, [] : oracle)))
      by (unfold on_acked; by rewrite Eu).
    by rewrite (bind_ok _ _ _ _ _ E1).
  - cbn [spec_sop snd]. fold x.
    split; cbn [set_ring set_acked ring new_set acked_set sq st s_have s_sent s_acked have_final_size sent_final_size
      acked_final_size]; try done; try apply H.
    intros v. rewrite (sim_new _ _ H). unfold size; cbn [sq log]. subst x.
    upd; [|done]. rewrite Hst by done. split; [intros [? ?]|intros [? ?]]; congruence.
Qed.

(** ** Losing and transmitting *)

Lemma lost_ok q a s e :
  sim q a -> sop_ok a (op_lost s e) ->
  exists q', ossl_quic_sstream_mark_lost s e (q, [] : oracle) = (Ok tt, (q', [])) /\
             sim q' (snd (spec_sop (op_lost s e) a)).
Proof.
  intros H (Hse & He & Hst). destruct (sim_offsets _ _ H) as (O1 & O2 & O3 & O4 & O5).
  set (r := mkRange s e).
  assert (Hr : range_ok r) by (subst r; unfold range_ok, U64_MOD, MAX_OFFSET in *; cbn; lia).
  destruct (insert_disjoint (new_set q) r Hr (sim_new_inv _ _ H)) as (u & Eu & Hui & Huc).
  { intros v Hv (Hv1 & Hv2)%(sim_new _ _ H). unfold in_range in Hv; cbn in Hv. rewrite Hst in Hv2 by lia. done. }
  exists (set_new u q). split; [unfold ossl_quic_sstream_mark_lost, on_new; fold r; by rewrite Eu|].
  cbn [spec_sop snd]. split; cbn [set_new ring new_set acked_set sq st s_have s_sent s_acked have_final_size
    sent_final_size acked_final_size]; try done; try apply H.
  - intros v. rewrite Huc, (sim_new _ _ H). unfold in_range, size; cbn. unfold size in *.
    upd; split; intros; intuition lia.
  - intros v. rewrite (sim_acked _ _ H). unfold size; cbn [sq].
    upd; [|done]. rewrite Hst by done. split; [intros [? ?]|intros [? ?]]; congruence.
  - pose proof (proj1 (tail_iff _ _ _) (sim_tail _ _ H)) as (T1 & T2 & T3). apply tail_iff. unfold size in *.
    split_and!; [lia|lia| |].
    + intros i Hi. upd; [|auto]. specialize (T2 i Hi). rewrite Hst in T2 by lia. done.
    + intros Hlt. upd; [done|auto].
Qed.

Lemma transmitted_ok q a s e :
  sim q a -> sop_ok a (op_transmitted s e) ->
  exists q', ossl_quic_sstream_mark_transmitted s e (q, [] : oracle) = (Ok tt, (q', [])) /\
             sim q' (snd (spec_sop (op_transmitted s e) a)).
Proof.
  intros H (Hse & He). destruct (sim_offsets _ _ H) as (O1 & O2 & O3 & O4 & O5).
  set (r := mkRange s e).
  assert (Hr : range_ok r) by (subst r; unfold range_ok, U64_MOD, MAX_OFFSET in *; cbn; lia).
  destruct (remove_range (new_set q) r Hr (sim_new_inv _ _ H)) as (u & Eu & Hui & Huc).
  assert (Htr : forall b, (transmit b = Acked <-> b = Acked) /\ transmit b <> New) by (intros []; cbv; done).
  exists (set_new u q). split; [unfold ossl_quic_sstream_mark_transmitted, on_new; fold r; by rewrite Eu|].
  cbn [spec_sop snd]. split; cbn [set_new ring new_set acked_set sq st s_have s_sent s_acked have_final_size
    sent_final_size acked_final_size]; try done; try apply H.
  - intros v. rewrite Huc, (sim_new _ _ H). unfold in_range, size; cbn. unfold size in *.
    destruct (Htr (st a v)). upd; intuition lia.
  - intros v. rewrite (sim_acked _ _ H). unfold size; cbn [sq]. destruct (Htr (st a v)). upd; intuition.
  - pose proof (proj1 (tail_iff _ _ _) (sim_tail _ _ H)) as (T1 & T2 & T3). apply tail_iff. unfold size in *.
    split_and!; [lia|lia| |].
    + intros i Hi. destruct (Htr (st a i)). upd; [|auto]. specialize (T2 i Hi). tauto.
    + intros Hlt. destruct (Htr (st a (tail (sq a)))). specialize (T3 Hlt). upd; tauto.
Qed.

(** ** All operations *)

Section Run.
Context (fresh : Z -> list Z).

Definition exec_sop (op : sop) : M SS (option Z) :=
  match op with
  | op_append bs => attempt id (ossl_quic_sstream_append bs)
  | op_transmitted s e => attempt (fun _ => 1) (ossl_quic_sstream_mark_transmitted s e)
  | op_transmitted_fin n => attempt (fun _ => 1) (ossl_quic_sstream_mark_transmitted_fin n)
  | op_lost s e => attempt (fun _ => 1) (ossl_quic_sstream_mark_lost s e)
  | op_lost_fin => attempt (fun _ => 1) ossl_quic_sstream_mark_lost_fin
  | op_acked s e => attempt (fun _ => 1) (ossl_quic_sstream_mark_acked s e)
  | op_acked_fin => attempt (fun _ => 1) ossl_quic_sstream_mark_acked_fin
  | op_fin => attempt (fun _ => 1) ossl_quic_sstream_fin
  | op_set_size n => attempt (fun _ => 1) (ossl_quic_sstream_set_buffer_size fresh n)
  end.

Fixpoint exec_sops (ops : list sop) : M SS (list (option Z)) :=
  match ops with
  | [] => ret []
  | op :: ops' => let! x := exec_sop op in let! xs := exec_sops ops' in ret (x :: xs)
  end.

Fixpoint spec_sops (ops : list sop) (a : sspec) : list (option Z) * sspec :=
  match ops with
  | [] => ([], a)
  | op :: ops' => let (x, a') := spec_sop op a in let (xs, a'') := spec_sops ops' a' in (x :: xs, a'')
  end.

Fixpoint sops_ok (ops : list sop) (a : sspec) : Prop :=
  match ops with
  | [] => True
  | op :: ops' => sop_ok a op /\ sops_ok ops' (snd (spec_sop op a))
  end.

Context (fresh_len : forall n, 0 <= n -> zlen (fresh n) = n).

(** The operations that only change the flags. *)
Lemma flags_ok q a op :
  sim q a ->
  match op with op_transmitted_fin _ | op_lost_fin | op_acked_fin | op_fin => True | _ => False end ->
  exists q', exec_sop op (q, [] : oracle) = (Ok (fst (spec_sop op a)), (q', [])) /\ sim q' (snd (spec_sop op a)).
Proof.
  intros H Hop. destruct (sim_offsets _ _ H) as (_ & _ & _ & O4 & _).
  destruct H as [R1 R2 R3 R4 R5 R6 R7 R8 R9].
  destruct op as [| |n| | | | | |]; try done; cbn [exec_sop spec_sop].
  - unfold attempt, ossl_quic_sstream_mark_transmitted_fin, get_qss, bind, guard, modify. cbn [fst].
    rewrite O4, <-R7. destruct (have_final_size q) eqn:Eh, (n =? size a); cbn; eexists; split; try done; split; try done; by rewrite Eh.
  - unfold attempt, ossl_quic_sstream_mark_lost_fin, get_qss, bind, guard, modify. cbn [fst].
    rewrite <-R9. destruct (acked_final_size q) eqn:Ea; cbn; eexists; split; try done; split; try done; by rewrite Ea.
  - unfold attempt, ossl_quic_sstream_mark_acked_fin, get_qss, bind, guard, modify. cbn [fst].
    rewrite <-R7. destruct (have_final_size q) eqn:Eh; cbn; eexists; split; try done; split; try done; by rewrite Eh.
  - unfold attempt, ossl_quic_sstream_fin, modify. destruct (have_final_size q) eqn:Eh; cbn; eexists; split; try done; by split.
Qed.

Lemma set_size_ok q a n :
  sim q a -> 0 <= n < 9223372036854775808 ->
  exists q', exec_sop (op_set_size n) (q, [] : oracle) = (Ok (fst (spec_sop (op_set_size n) a)), (q', [])) /\
             sim q' (snd (spec_sop (op_set_size n) a)).
Proof.
  intros H Hn.
  destruct (exec_rop_ok fresh fresh_len (ring q) (sq a) (op_resize n (cleanse q) true) (sim_ring _ _ H))
    as (r' & Er & Hq'); [cbn [rop_ok]; lia|].
  change (spec_rop (op_resize n (cleanse q) true) (sq a)) with (spec_rop (op_resize n false true) (sq a)) in *.
  assert (Hlog : log (snd (spec_rop (op_resize n false true) (sq a))) = log (sq a) /\
                 tail (snd (spec_rop (op_resize n false true) (sq a))) = tail (sq a) /\
                 (fst (spec_rop (op_resize n false true) (sq a)) = 0 \/ fst (spec_rop (op_resize n false true) (sq a)) = 1)).
  { cbn [spec_rop]. destruct (n =? cap (sq a)); [cbn; auto|]. destruct (_ || _ || _); cbn; auto. }
  cbn [spec_sop]. destruct (spec_rop (op_resize n false true) (sq a)) as [x qu]. cbn [fst snd] in *.
  destruct Hlog as (Hlog & Htl & Hx). exists (set_ring r' q). split.
  - cbn [exec_sop]. unfold attempt, ossl_quic_sstream_set_buffer_size, get_qss, bind, resize. cbn [fst].
    cbn [exec_rop] in Er. change (alloc []) with (true, [] : oracle). cbv beta iota.
    destruct (ring_buf_resize fresh n (cleanse q) true (ring q)) as [[[]| |] r1]; simplify_eq; done.
  - destruct H as [R1 R2 R3 R4 R5 R6 R7 R8 R9].
    split; cbn [set_ring ring new_set acked_set sq st s_have s_sent s_acked have_final_size sent_final_size
      acked_final_size]; unfold size; cbn [sq]; rewrite ?Hlog, ?Htl; done.
Qed.

Lemma exec_sop_ok q a op :
  sim q a -> sop_ok a op ->
  exists q', exec_sop op (q, [] : oracle) = (Ok (fst (spec_sop op a)), (q', [])) /\ sim q' (snd (spec_sop op a)).
Proof.
  intros H Hok. destruct op as [bs|s e|n|s e| |s e| | |n]; try (by apply flags_ok).
  - by apply append_ok.
  - destruct (transmitted_ok q a s e H Hok) as (q' & E & S). exists q'. split; [by apply (attempt_ok (fun _ => 1) _ _ _ _ E)|done].
  - destruct (lost_ok q a s e H Hok) as (q' & E & S). exists q'. split; [by apply (attempt_ok (fun _ => 1) _ _ _ _ E)|done].
  - destruct (acked_ok q a s e H Hok) as (q' & E & S). exists q'. split; [by apply (attempt_ok (fun _ => 1) _ _ _ _ E)|done].
  - by apply set_size_ok.
Qed.

Lemma exec_sops_ok ops : forall q a,
  sim q a -> sops_ok ops a ->
  exists q', exec_sops ops (q, [] : oracle) = (Ok (fst (spec_sops ops a)), (q', [])) /\ sim q' (snd (spec_sops ops a)).
Proof.
  induction ops as [|op ops IH]; intros q a H Hok; cbn [exec_sops spec_sops sops_ok] in *; [by exists q|].
  destruct Hok as [Hop Hops]. destruct (exec_sop_ok q a op H Hop) as (q1 & E1 & H1).
  destruct (spec_sop op a) as [x a1]. cbn [fst snd] in *.
  destruct (IH q1 a1 H1 Hops) as (q2 & E2 & H2). destruct (spec_sops ops a1) as [xs a2]. cbn [fst snd] in *.
  exists q2. by rewrite (bind_ok _ _ _ _ _ E1), (bind_ok _ _ _ _ _ E2).
Qed.
End Run.

(** ** Frames to transmit *)

(** The bytes of the parts of a frame. *)
Definition gather (r : ring_buf) (iov : list OSSL_QTX_IOVEC) : list Z :=
  concat (map (fun '(p, l) => load r p l) iov).

Lemma gather_snoc r iov p l : gather r (iov ++ [(p, l)]) = gather r iov ++ load r p l.
Proof. unfold gather. rewrite map_app, concat_app. cbn. by rewrite app_nil_r. Qed.

Lemma load_prefix r p l k : 0 <= k <= l -> load r p k = ztake k (load r p l).
Proof.
  intros Hk. unfold load. destruct (RingBuf.start r); [|done]. destruct p; [|done].
  rewrite ztake_ztake. f_equal. lia.
Qed.

Section FrameLoop.
Context (q : QUIC_SSTREAM) (o : oracle) (qu : queue) (s m : Z).
Context (Hq : holds (ring q) qu) (Hs : tail qu <= s) (Hm : 0 < m) (Hend : s + m <= zlen (log qu)).

Lemma frame_round fuel i t iov :
  0 <= t < m -> i < 2 -> gather (ring q) iov = ztake t (zdrop s (log qu)) ->
  let l := Z.min (m - t) (alloc_ (ring q) - (s + t) mod alloc_ (ring q)) in
  0 < l <= m - t /\ exists p,
    frame_loop (S fuel) s i t m iov (q, o) = frame_loop fuel s (i + 1) (t + l) m (iov ++ [(p, l)]) (q, o) /\
    gather (ring q) (iov ++ [(p, l)]) = ztake (t + l) (zdrop s (log qu)).
Proof.
  intros Ht Hi Hg l. pose proof Hq as [Hinv Hh Htl _ _]. rb Hinv.
  pose proof (Z.mod_pos_bound (s + t) (alloc_ (ring q)) ltac:(lia)) as Hmod. split; [lia|].
  destruct (get_buf_at_ok (ring q) (s + t) Hinv ltac:(lia)) as (p & l0 & E & Hl0 & _ & Hz & _).
  destruct (holds_read (ring q) qu (s + t) Hq ltac:(lia)) as (p' & l1 & E' & Hld & _).
  rewrite E in E'. injection E' as <- <-. replace (alloc_ (ring q) =? 0) with false in Hl0 by lia.
  assert (Hl : l = Z.min l0 (m - t)) by lia. exists p. split.
  - cbn [frame_loop]. replace (t >=? m) with false by lia. rewrite u64_id by lia.
    rewrite (bind_ok _ _ _ _ _ (on_ring_eq _ q o _ _ E)). replace (l0 =? 0) with false by lia.
    replace (i <? 2) with true by lia. unfold bind at 1. cbn [assert_ ret].
    assert (Hcut : (if u64 (t + l0) >? m then u64 (m - t) else l0) = l).
    { rewrite !u64_id by lia. destruct (Z.gtb_spec (t + l0) m); lia. }
    rewrite Hcut, u64_id by lia. by destruct q.
  - rewrite gather_snoc, Hg, (load_prefix _ p l0 l) by lia. rewrite Hld, ztake_ztake, Z.min_l by lia.
    rewrite (ztake_split t (t + l)) by lia. f_equal. rewrite zdrop_zdrop by lia. f_equal. lia.
Qed.

Lemma frame_loop_ok :
  exists iov, frame_loop 4 s 0 0 m [] (q, o) = (Ok (m, iov), (q, o)) /\ (length iov <= 2)%nat /\
    gather (ring q) iov = ztake m (zdrop s (log qu)).
Proof.
  pose proof Hq as [Hinv Hh Htl _ _]. rb Hinv.
  destruct (frame_round 3 0 0 []) as (Hl & p & E1 & G1); [lia|lia|by rewrite ztake_le_zero by lia|].
  rewrite Z.add_0_r, Z.sub_0_r, !Z.add_0_l in *. set (l := Z.min m _) in *. rewrite E1.
  assert (Hstop : forall fuel i iov, frame_loop (S fuel) s i m m iov (q, o) = (Ok (m, iov), (q, o)))
    by (intros; cbn [frame_loop]; by replace (m >=? m) with true by lia).
  destruct (decide (l = m)) as [Hlm|Hlm].
  { rewrite Hlm in *. eexists. split_and!; [apply Hstop|cbn; lia|done]. }
  destruct (frame_round 2 1 l ([] ++ [(p, l)])) as (Hl2 & p2 & E2 & G2); [lia|lia|done|].
  assert (Hidx : (s + l) mod alloc_ (ring q) = 0).
  { replace l with (alloc_ (ring q) - s mod alloc_ (ring q)) by lia. apply mod_round_up. lia. }
  rewrite Hidx in *. set (l2 := Z.min (m - l) _) in *. replace (l + l2) with m in * by lia.
  eexists. split_and!; [etransitivity; [exact E2|apply Hstop]|cbn; lia|exact G2].
Qed.
End FrameLoop.

Lemma sim_new_range q a r :
  sim q a -> r ∈ items (new_set q) ->
  range_ok r /\ tail (sq a) <= UintSet.start r /\ UintSet.end_ r < size a /\
  forall v, in_range v r -> st a v = New.
Proof.
  intros H Hr. pose proof (inv_range_ok _ _ _ (sim_new_inv _ _ H) Hr) as Hok. split; [done|].
  assert (Hin : forall v, in_range v r -> 0 <= v < size a /\ st a v = New).
  { intros v Hv. apply (sim_new _ _ H). by exists r. }
  unfold range_ok in Hok. destruct (proj1 (tail_iff _ _ _) (sim_tail _ _ H)) as (T1 & T2 & T3).
  split_and!; [| |intros v Hv; by apply Hin].
  - destruct (decide (tail (sq a) <= UintSet.start r)); [done|]. exfalso.
    destruct (Hin (UintSet.start r)) as [_ H1]; [unfold in_range; lia|]. rewrite T2 in H1 by lia. done.
  - apply (Hin (UintSet.end_ r)). unfold in_range; lia.
Qed.

(** A frame for the range [r] of new bytes. *)
Definition frame_for (a : sspec) (r : UINT_RANGE) : stream_hdr :=
  mkHdr (UintSet.start r) (UintSet.end_ r - UintSet.start r + 1)
        (s_have a && (UintSet.end_ r + 1 =? size a)).

Lemma get_stream_frame_ok q o a skip n :
  sim q a -> 2 <= n ->
  match skip_ranges skip (items (new_set q)) with
  | (Some r, _) =>
      exists iov, ossl_quic_sstream_get_stream_frame skip n (q, o) = (Ok (frame_for a r, iov), (q, o)) /\
        (length iov <= 2)%nat /\
        gather (ring q) iov = ztake (len (frame_for a r)) (zdrop (UintSet.start r) (log (sq a)))
  | (None, k) =>
      ossl_quic_sstream_get_stream_frame skip n (q, o) =
      if (k <=? 0) && s_have a && negb (s_sent a)
      then (Ok (mkHdr (size a) 0 true, []), (q, o)) else (Err, (q, o))
  end.
Proof.
  intros H Hn. destruct (sim_offsets _ _ H) as (O1 & O2 & O3 & O4 & O5).
  assert (Hin : forall l k, match skip_ranges k l with (Some r, _) => r ∈ l | _ => True end).
  { induction l as [|r l IH]; intros k; cbn [skip_ranges]; [done|]. destruct (0 <? k); [|left].
    specialize (IH (k - 1)). destruct (skip_ranges (k - 1) l) as [[]]; [by right|done]. }
  specialize (Hin (items (new_set q)) skip). destruct (skip_ranges skip (items (new_set q))) as [[r|] k] eqn:Hsk.
  - destruct (sim_new_range q a r H Hin) as ([R1 R2] & R3 & R4 & _). unfold MAX_OFFSET, size in *.
    set (m := UintSet.end_ r - UintSet.start r + 1).
    destruct (frame_loop_ok q o (sq a) (UintSet.start r) m (sim_ring _ _ H) ltac:(lia) ltac:(lia) ltac:(lia))
      as (iov & E & Hl & Hg).
    exists iov. split_and!; [|done|exact Hg].
    unfold ossl_quic_sstream_get_stream_frame. unfold bind at 1. cbn [get_qss fst].
    replace (n <? 2) with false by lia. rewrite Hsk, u64_id by lia. fold m. rewrite (bind_ok _ _ _ _ _ E).
    unfold frame_for. fold m. rewrite u64_id by lia. rewrite (sim_have _ _ H), O4.
    replace (UintSet.start r + m) with (UintSet.end_ r + 1) by lia. done.
  - unfold ossl_quic_sstream_get_stream_frame, bind. cbn [get_qss fst]. replace (n <? 2) with false by lia.
    rewrite Hsk, (sim_have _ _ H), (sim_sent _ _ H), O4. destruct (Z.gtb_spec k 0), (Z.leb_spec k 0); try lia; cbn [andb]; [done|].
    by destruct (s_have a), (s_sent a).
Qed.

(** ** Streams reached from a new stream *)

Definition init_spec (n : Z) : sspec := mkSpec (mkQueue [] 0 n) (fun _ => InFlight) false false false.

Section Reached.
Context (fresh : Z -> list Z).

(** [q] is the stream after the calls [ops] on a new stream with a buffer of [n]
    bytes, when no allocation fails. *)
Definition reached (n : Z) (ops : list sop) (q : QUIC_SSTREAM) : Prop :=
  exists q0 xs, ossl_quic_sstream_new fresh n ([] : oracle) = (Ok (Some q0), []) /\
                exec_sops fresh ops (q0, [] : oracle) = (Ok xs, (q, [])).

Context (fresh_len : forall n, 0 <= n -> zlen (fresh n) = n).

Lemma new_ok n :
  0 <= n < 9223372036854775808 ->
  exists q, ossl_quic_sstream_new fresh n ([] : oracle) = (Ok (Some q), []) /\ sim q (init_spec n).
Proof.
  intros Hn. unfold ossl_quic_sstream_new. change (alloc []) with (true, [] : oracle). cbn [negb].
  assert (H0 : holds ring_buf_init (mkQueue [] 0 0)).
  { split; cbn; try done; lia. }
  destruct (exec_rop_ok fresh fresh_len _ _ (op_resize n false true) H0) as (r & Er & Hq); [cbn; lia|].
  assert (Hspec : spec_rop (op_resize n false true) (mkQueue [] 0 0) = (1, mkQueue [] 0 n)).
  { cbn [spec_rop cap log tail negb]. pose proof (zlen_nonneg (@nil Z)) as Hz.
    assert (Hz0 : zlen (@nil Z) = 0) by apply zlen_nil.
    destruct (Z.eqb_spec n 0) as [->|]; [done|]. by replace ((n <? _) || _ || _) with false by lia. }
  rewrite Hspec in Er, Hq. cbn [fst snd exec_rop] in Er, Hq.
  unfold resize. change (alloc []) with (true, [] : oracle). cbv beta iota. cbn [ring].
  destruct (ring_buf_resize fresh n false true ring_buf_init) as [[[]| |] r1]; [|done|done].
  injection Er as ->. eexists. split; [reflexivity|].
  split; cbn; try done; try apply inv_nil.
  - intros v. unfold size; cbn [init_spec sq log]. rewrite contains_nil. change (zlen []) with 0. lia.
  - intros v. unfold size; cbn [init_spec sq log]. rewrite contains_nil. change (zlen []) with 0. lia.
Qed.

Lemma reached_sim n ops q :
  0 <= n < 9223372036854775808 -> sops_ok ops (init_spec n) -> reached n ops q ->
  sim q (snd (spec_sops ops (init_spec n))).
Proof.
  intros Hn Hok (q0 & xs & Enew & Eops). destruct (new_ok n Hn) as (q0' & Enew' & Hsim).
  rewrite Enew in Enew'. injection Enew' as <-.
  destruct (exec_sops_ok fresh fresh_len ops q0 _ Hsim Hok) as (q' & E' & Hq').
  rewrite Eops in E'. by injection E' as _ <-.
Qed.
End Reached.

Lemma query_iff a v (P : bstate) (u : UINT_SET) :
  inv 2 (items u) -> (forall v, contains (items u) v <-> 0 <= v < size a /\ st a v = P) ->
  ossl_uint_set_query u v = bool_decide (0 <= v < size a /\ st a v = P).
Proof.
  intros Hi Hc. pose proof (query_spec 2 u v ltac:(lia) Hi) as Hq. rewrite Hc in Hq.
  destruct (ossl_uint_set_query u v); case_bool_decide; naive_solver.
Qed.

(** ** Properties *)

(** C4: a send stream implements the abstract stream in which every byte is new, in
    flight or acknowledged: after any sequence of appends, transmissions, losses,
    acknowledgements and resizes, every call has returned what the abstract stream
    returns, the two sets of offsets hold exactly the new and the acknowledged
    bytes, and exactly the acknowledged prefix has been culled from the buffer. *)
Theorem sstream_refines_byte_states fresh n ops :
  (forall n, 0 <= n -> zlen (fresh n) = n) -> 0 <= n < 9223372036854775808 -> sops_ok ops (init_spec n) ->
  let (xs, a) := spec_sops ops (init_spec n) in
  exists q0 q, ossl_quic_sstream_new fresh n ([] : oracle) = (Ok (Some q0), []) /\
    exec_sops fresh ops (q0, [] : oracle) = (Ok xs, (q, [])) /\
    ossl_quic_sstream_get_cur_size q = size a /\
    (forall v, ossl_uint_set_query (new_set q) v = bool_decide (0 <= v < size a /\ st a v = New)) /\
    (forall v, ossl_uint_set_query (acked_set q) v = bool_decide (0 <= v < size a /\ st a v = Acked)) /\
    (forall v, 0 <= v < ctail_offset (ring q) -> st a v = Acked) /\
    (ctail_offset (ring q) < size a -> st a (ctail_offset (ring q)) <> Acked).
Proof.
  intros Hf Hn Hok. destruct (new_ok fresh Hf n Hn) as (q0 & E0 & H0).
  destruct (exec_sops_ok fresh Hf ops q0 _ H0 Hok) as (q & E & H).
  destruct (spec_sops ops (init_spec n)) as [xs a]. cbn [fst snd] in *. exists q0, q.
  destruct (sim_offsets _ _ H) as (_ & _ & _ & O4 & O5).
  destruct (proj1 (tail_iff _ _ _) (sim_tail _ _ H)) as (T1 & T2 & T3). rewrite O5.
  split_and!; [done|done|done| | |done|done]; intros v; apply query_iff; try done; apply H.
Qed.

(** A stream of nine bytes in a buffer of eight: sent in parts, the middle part
    acknowledged first, the first part lost. *)
Definition stream_example : list sop :=
  [op_append [10; 11; 12; 13; 14; 15]; op_transmitted 0 1; op_transmitted 2 3; op_acked 2 3; op_lost 0 1;
   op_transmitted 0 1; op_acked 0 1; op_append [16; 17; 18]; op_fin].

Lemma stream_example_ok : sops_ok stream_example (init_spec 8).
Proof.
  unfold stream_example. cbn [sops_ok sop_ok].
  split_and!;
    lazymatch goal with
    | |- True => exact I
    | |- forall v, _ =>
        let v := fresh in let Hv := fresh in
        intros v Hv; assert (Hcase : v = 0 \/ v = 1 \/ v = 2 \/ v = 3) by lia;
        destruct Hcase as [->|[->|[->| ->]]]; first [lia | vm_compute; reflexivity]
    | |- _ => vm_compute; first [reflexivity | discriminate]
    end.
Qed.

Lemma sstream_refines_byte_states_witness :
  let (xs, a) := spec_sops stream_example (init_spec 8) in
  exists q0 q, ossl_quic_sstream_new (fun n => zrepeat 255 n) 8 ([] : oracle) = (Ok (Some q0), []) /\
    exec_sops (fun n => zrepeat 255 n) stream_example (q0, [] : oracle) = (Ok xs, (q, [])) /\
    ossl_quic_sstream_get_cur_size q = size a /\
    (forall v, ossl_uint_set_query (new_set q) v = bool_decide (0 <= v < size a /\ st a v = New)) /\
    (forall v, ossl_uint_set_query (acked_set q) v = bool_decide (0 <= v < size a /\ st a v = Acked)) /\
    (forall v, 0 <= v < ctail_offset (ring q) -> st a v = Acked) /\
    (ctail_offset (ring q) < size a -> st a (ctail_offset (ring q)) <> Acked).
Proof.
  apply (sstream_refines_byte_states (fun n => zrepeat 255 n) 8 stream_example).
  - intros n Hn. by apply zlen_zrepeat.
  - lia.
  - apply stream_example_ok.
Defined.

(** C39: in every stream that can be reached, the next frame to send is the first
    maximal run of new bytes, with exactly the bytes that were appended there, in
    at most two parts of the buffer, and it carries the FIN exactly when it ends at
    the final size; without new bytes only a FIN that was not sent is pending. So no
    byte that is new or lost is ever forgotten. *)
Theorem sstream_next_frame fresh n ops q :
  (forall n, 0 <= n -> zlen (fresh n) = n) -> 0 <= n < 9223372036854775808 ->
  sops_ok ops (init_spec n) -> reached fresh n ops q ->
  let a := snd (spec_sops ops (init_spec n)) in
  ((exists v, 0 <= v < size a /\ st a v = New) ->
   exists h iov, ossl_quic_sstream_get_stream_frame 0 2 (q, [] : oracle) = (Ok (h, iov), (q, [])) /\
     (length iov <= 2)%nat /\ 0 < len h /\ 0 <= offset h /\ offset h + len h <= size a /\
     (forall v, offset h <= v < offset h + len h -> st a v = New) /\
     (forall v, 0 <= v < offset h -> st a v <> New) /\
     (offset h + len h < size a -> st a (offset h + len h) <> New) /\
     gather (ring q) iov = ztake (len h) (zdrop (offset h) (log (sq a))) /\
     hdr_is_fin h = s_have a && (offset h + len h =? size a)) /\
  ((forall v, 0 <= v < size a -> st a v <> New) ->
   ossl_quic_sstream_get_stream_frame 0 2 (q, [] : oracle) =
   if s_have a && negb (s_sent a) then (Ok (mkHdr (size a) 0 true, []), (q, [])) else (Err, (q, []))).
Proof.
  intros Hf Hn Hok Hr a. pose proof (reached_sim fresh Hf n ops q Hn Hok Hr) as H. fold a in H.
  pose proof (get_stream_frame_ok q [] a 0 2 H ltac:(lia)) as Hframe.
  pose proof (sim_new _ _ H) as Hnew. pose proof (sim_new_inv _ _ H) as Hinv.
  destruct (items (new_set q)) as [|r l] eqn:Hit; cbn [skip_ranges Z.ltb Z.compare] in Hframe.
  - split; [|done]. intros (v & Hv%Hnew). by apply contains_nil in Hv.
  - destruct (head_range r l Hinv) as ([H1 H2] & H3 & H4 & H5). split.
    2:{ intros Hno. exfalso. apply (Hno (UintSet.start r)); apply Hnew, H4; unfold in_range; lia. }
    intros _. destruct Hframe as (iov & E & Hl & Hg). exists (frame_for a r), iov.
    cbn [frame_for offset len hdr_is_fin] in *.
    replace (UintSet.start r + (UintSet.end_ r - UintSet.start r + 1)) with (UintSet.end_ r + 1) by lia.
    assert (He : UintSet.end_ r < size a) by (apply (Hnew (UintSet.end_ r)), H4; unfold in_range; lia).
    split_and!; try done; try lia.
    + intros v Hv. apply (Hnew v), H4. unfold in_range; lia.
    + intros v Hv Hst. enough (UintSet.start r <= v) by lia. apply H3, Hnew. split; [lia|done].
    + intros Hlt Hst. apply H5, Hnew. split; [lia|done].
Qed.

Definition stream_reached : QUIC_SSTREAM :=
  match ossl_quic_sstream_new (fun n => zrepeat 255 n) 8 ([] : oracle) with
  | (Ok (Some q0), _) => fst (snd (exec_sops (fun n => zrepeat 255 n) stream_example (q0, [] : oracle)))
  | _ => mkSstream ring_buf_init (mkUintSet [] 0) (mkUintSet [] 0) false false false false
  end.

Lemma stream_reached_ok : reached (fun n => zrepeat 255 n) 8 stream_example stream_reached.
Proof. do 2 eexists. split; [vm_compute; reflexivity..]. Qed.

Lemma sstream_next_frame_witness :
  let a := snd (spec_sops stream_example (init_spec 8)) in
  let q := stream_reached in
  (exists v, 0 <= v < size a /\ st a v = New) /\
  exists h iov, ossl_quic_sstream_get_stream_frame 0 2 (q, [] : oracle) = (Ok (h, iov), (q, [])) /\
     (length iov <= 2)%nat /\ 0 < len h /\ 0 <= offset h /\ offset h + len h <= size a /\
     (forall v, offset h <= v < offset h + len h -> st a v = New) /\
     (forall v, 0 <= v < offset h -> st a v <> New) /\
     (offset h + len h < size a -> st a (offset h + len h) <> New) /\
     gather (ring q) iov = ztake (len h) (zdrop (offset h) (log (sq a))) /\
     hdr_is_fin h = s_have a && (offset h + len h =? size a).
Proof.
  cbv zeta. set (a := snd _).
  assert (Hv : exists v, 0 <= v < size a /\ st a v = New).
  { exists 4. split; [split; [discriminate|vm_compute; reflexivity]|vm_compute; reflexivity]. }
  split; [exact Hv|].
  refine (proj1 (sstream_next_frame (fun n => zrepeat 255 n) 8 stream_example stream_reached
    (fun n Hn => zlen_zrepeat 255 n Hn) _ stream_example_ok stream_reached_ok) Hv).
  split; [discriminate|reflexivity].
Defined.

(** A stream is totally acknowledged when every byte is, and the FIN if there is one. *)
Lemma totally_acked_ok q a :
  sim q a ->
  exists b, ossl_quic_sstream_is_totally_acked (q, [] : oracle) = (Ok b, (q, [])) /\
    (b = true <-> (s_have a = true -> s_acked a = true) /\ forall v, 0 <= v < size a -> st a v = Acked).
Proof.
  intros H.
  destruct (sim_offsets _ _ H) as (O1 & O2 & O3 & O4 & O5). unfold MAX_OFFSET in O2.
  pose proof (sim_acked _ _ H) as Hac. pose proof (sim_acked_inv _ _ H) as Hinv.
  unfold ossl_quic_sstream_is_totally_acked, ossl_quic_sstream_get_cur_size. unfold bind at 1. cbn [get_qss fst].
  rewrite (sim_have _ _ H), (sim_acked_fin _ _ H), O4.
  destruct (s_have a && negb (s_acked a)) eqn:Hfin.
  { exists false. split; [done|]. destruct (s_have a), (s_acked a); try done. split; [done|]. intros [Hx _]. by specialize (Hx eq_refl). }
  assert (Hfin' : s_have a = true -> s_acked a = true) by (destruct (s_have a), (s_acked a); done).
  destruct (Z.eqb_spec (size a) 0) as [Hz|Hz].
  { exists true. split; [done|]. split; [|done]. intros _. split; [done|lia]. }
  destruct (items (acked_set q)) as [|r [|r2 l]] eqn:Hit.
  - exists false. split; [done|]. split; [done|]. intros [_ Hall]. exfalso.
    apply (contains_nil 0), Hac. split; [lia|]. apply Hall. lia.
  - destruct (head_range r [] Hinv) as ([H1 H2] & H3 & H4 & H5).
    assert (He : UintSet.end_ r < size a) by (apply (Hac (UintSet.end_ r)), H4; unfold in_range; lia).
    rewrite u64_id by lia. exists ((UintSet.start r =? 0) && (UintSet.end_ r + 1 =? size a)).
    split; [unfold bind, assert_; by replace (UintSet.end_ r + 1 <=? size a) with true by lia|].
    rewrite andb_true_iff, !Z.eqb_eq. split.
    + intros [Hs Hend]. split; [done|]. intros v Hv. apply Hac, H4. unfold in_range; lia.
    + intros [_ Hall]. assert (Hcon : forall v, 0 <= v < size a -> contains [r] v) by (intros; apply Hac; auto).
      split; [specialize (H3 0 (Hcon 0 ltac:(lia))); lia|].
      specialize (Hcon (size a - 1) ltac:(lia)). rewrite contains_cons, contains_nil in Hcon. unfold in_range in Hcon. lia.
  - exists false. split; [done|]. split; [done|]. intros [_ Hall]. exfalso.
    destruct (head_range r (r2 :: l) Hinv) as ([H1 H2] & H3 & H4 & H5). apply H5, Hac.
    apply inv_cons in Hinv as (_ & (Hr2 & _ & _)%inv_cons & Hb). specialize (Hb r2 ltac:(left)).
    assert (He : UintSet.start r2 < size a).
    { apply (Hac (UintSet.start r2)). exists r2. split; [right; left|unfold in_range, range_ok in *; lia]. }
    split; [lia|]. apply Hall. lia.
Qed.

(** a reachable stream is reported as totally acknowledged exactly when every
    byte of it is acknowledged and, if it has a final size, the FIN is too. *)
Theorem sstream_totally_acked fresh n ops q :
  (forall n, 0 <= n -> zlen (fresh n) = n) -> 0 <= n < 9223372036854775808 ->
  sops_ok ops (init_spec n) -> reached fresh n ops q ->
  let a := snd (spec_sops ops (init_spec n)) in
  exists b, ossl_quic_sstream_is_totally_acked (q, [] : oracle) = (Ok b, (q, [])) /\
    (b = true <-> (s_have a = true -> s_acked a = true) /\ forall v, 0 <= v < size a -> st a v = Acked).
Proof. intros Hf Hn Hok Hr. by apply totally_acked_ok, (reached_sim fresh). Qed.

Lemma sstream_totally_acked_witness :
  let a := snd (spec_sops stream_example (init_spec 8)) in
  exists b, ossl_quic_sstream_is_totally_acked (stream_reached, [] : oracle) = (Ok b, (stream_reached, [])) /\
    (b = true <-> (s_have a = true -> s_acked a = true) /\ forall v, 0 <= v < size a -> st a v = Acked).
Proof.
  apply (sstream_totally_acked (fun n => zrepeat 255 n) 8 stream_example stream_reached);
    [intros n Hn; by apply zlen_zrepeat|lia|exact stream_example_ok|exact stream_reached_ok].
Defined.

(** when acknowledgements overlap, the set of acknowledged offsets can keep two
    bordering ranges, and a stream all of whose bytes are acknowledged is not
    reported as totally acknowledged. *)
Theorem sstream_overlapping_acks_not_total :
  let r := mkRing (Some (zrepeat 0 16)) 16 11 0 in
  let q := mkSstream r (mkUintSet [] 0) (mkUintSet [] 0) false false false false in
  let m := ossl_quic_sstream_mark_acked 0 4 ;;; ossl_quic_sstream_mark_acked 6 10 ;;;
           ossl_quic_sstream_mark_acked 5 7 ;;; ossl_quic_sstream_is_totally_acked in
  exists q', m (q, [] : oracle) = (Ok false, (q', [])) /\
    forall v, 0 <= v < 11 -> ossl_uint_set_query (acked_set q') v = true.
Proof.
  eexists. split; [vm_compute; reflexivity|]. intros v Hv.
  unfold ossl_uint_set_query. cbn [acked_set items]. cbv [reverse rev_append query_walk UintSet.start UintSet.end_].
  destruct (Z.leb_spec 5 v), (Z.geb_spec 10 v), (Z.ltb_spec 10 v), (Z.leb_spec 0 v), (Z.geb_spec 4 v); cbn; done || lia.
Qed.
