(* ===== verification/Statm.v ===== *)
(** RTT estimation: ssl/quic/quic_statm.c and include/internal/quic_statm.h. *)

From stdpp Require Import base list numbers.
From Stdlib Require Import ZArith Lia.
From S2P Require Import Prelude SafeMath.

(** ** Definitions *)

Record OSSL_STATM := mkStatm {
  smoothed_rtt : OSSL_TIME;
  latest_rtt : OSSL_TIME;
  min_rtt : OSSL_TIME;
  rtt_variance : OSSL_TIME;
  have_first_sample : bool
}.

Record OSSL_RTT_INFO := mkRttInfo {
  info_smoothed_rtt : OSSL_TIME;
  info_latest_rtt : OSSL_TIME;
  info_rtt_variance : OSSL_TIME;
  info_min_rtt : OSSL_TIME
}.

Definition ossl_statm_update_rtt (statm : OSSL_STATM) (ack_delay override_latest_rtt : OSSL_TIME) : OSSL_STATM :=
  let latest := if ossl_time_is_zero override_latest_rtt then latest_rtt statm else override_latest_rtt in
  if negb (have_first_sample statm) then
    mkStatm latest latest latest (ossl_time_divide latest 2) true
  else
    let min := if ossl_time_compare latest (min_rtt statm) <? 0 then latest else min_rtt statm in
    let adjusted_rtt :=
      if ossl_time_compare latest (ossl_time_add min ack_delay) >=? 0
      then ossl_time_subtract latest ack_delay else latest in
    let variance :=
      ossl_time_divide (ossl_time_add (ossl_time_multiply (rtt_variance statm) 3)
                          (ossl_time_abs_difference (smoothed_rtt statm) adjusted_rtt)) 4 in
    let smoothed :=
      ossl_time_divide (ossl_time_add (ossl_time_multiply (smoothed_rtt statm) 7) adjusted_rtt) 8 in
    mkStatm smoothed latest min variance (have_first_sample statm).

Definition K_INITIAL_RTT : OSSL_TIME := ossl_ms2time 333.

Definition ossl_statm_init : OSSL_STATM :=
  mkStatm K_INITIAL_RTT ossl_time_zero ossl_time_infinite (ossl_time_divide K_INITIAL_RTT 2) false.

Definition ossl_statm_destroy (statm : OSSL_STATM) : OSSL_STATM := statm.

Definition ossl_statm_get_rtt_info (statm : OSSL_STATM) : OSSL_RTT_INFO :=
  mkRttInfo (smoothed_rtt statm) (latest_rtt statm) (rtt_variance statm) (min_rtt statm).

(** ** The estimator over a sequence of samples *)

(** Each sample is an acknowledgement delay and a measured round trip time. *)
Definition update_all (samples : list (OSSL_TIME * OSSL_TIME)) (s : OSSL_STATM) : OSSL_STATM :=
  fold_left (fun s '(d, r) => ossl_statm_update_rtt s d r) samples s.

(** Samples are positive and below 2^60 nanoseconds (36 years), so that nothing
    saturates. *)
Definition RTT_LIMIT : Z := 1152921504606846976.

Definition sample_ok (x : OSSL_TIME * OSSL_TIME) : Prop := is_u64 (fst x) /\ 0 < snd x < RTT_LIMIT.

(** The estimator after samples between [lo] and [hi]. *)
Record estimates (lo hi last : Z) (s : OSSL_STATM) : Prop := {
  est_first : have_first_sample s = true;
  est_min : min_rtt s = lo;
  est_latest : latest_rtt s = last;
  est_last : 0 < lo <= last /\ last <= hi < RTT_LIMIT;
  est_smoothed : lo <= smoothed_rtt s <= hi;
  est_variance : 0 <= rtt_variance s <= hi
}.

Lemma estimates_first s d r :
  have_first_sample s = false -> sample_ok (d, r) -> estimates r r r (ossl_statm_update_rtt s d r).
Proof.
  intros Hs [_ Hr]. cbn [snd] in Hr. unfold RTT_LIMIT in Hr. unfold ossl_statm_update_rtt.
  rewrite ossl_time_is_zero_spec. replace (r =? 0) with false by lia. rewrite Hs. cbn [negb].
  rewrite ossl_time_divide_spec by lia.
  split; cbn; unfold RTT_LIMIT; try done; try lia. Z.div_mod_to_equations. lia.
Qed.

(** The round trip time without the delay is never below the minimum. *)
Lemma adjusted_bounds lo hi d r :
  is_u64 d -> 0 < lo <= r -> r <= hi < RTT_LIMIT ->
  lo <= (if ossl_time_compare r (ossl_time_add lo d) >=? 0 then ossl_time_subtract r d else r) <= hi.
Proof.
  unfold is_u64, RTT_LIMIT, U64_MOD. intros Hd Hlo Hr.
  rewrite ossl_time_add_sat, ossl_time_subtract_sat by (unfold is_u64, U64_MOD; lia).
  unfold ossl_time_compare, UINT64_MAX.
  destruct (Z.gtb_spec r (Z.min (lo + d) 18446744073709551615)); [cbn; lia|].
  destruct (Z.ltb_spec r (Z.min (lo + d) 18446744073709551615)); cbn; lia.
Qed.

Lemma estimates_next lo hi last s d r :
  estimates lo hi last s -> sample_ok (d, r) ->
  estimates (Z.min lo r) (Z.max hi r) r (ossl_statm_update_rtt s d r).
Proof.
  intros [E1 E2 E3 [E4 E4'] E5 E6] [Hd Hr]. cbn [fst snd] in *. unfold ossl_statm_update_rtt.
  rewrite ossl_time_is_zero_spec. replace (r =? 0) with false by lia. rewrite E1, E2. cbn [negb].
  rewrite ossl_time_compare_lt.
  replace (if r <? lo then r else lo) with (Z.min lo r) by (destruct (Z.ltb_spec r lo); lia).
  set (adj := if ossl_time_compare r _ >=? 0 then _ else r).
  assert (Ha : Z.min lo r <= adj <= Z.max hi r) by (apply (adjusted_bounds (Z.min lo r)); [done|lia..]).
  clearbody adj. unfold OSSL_TIME in adj.
  unfold RTT_LIMIT in *.
  rewrite !ossl_time_multiply_sat by (unfold is_u64, U64_MOD; lia).
  rewrite ossl_time_abs_difference_spec by (unfold is_u64, U64_MOD; lia).
  rewrite (Z.min_l (smoothed_rtt s * 7)), (Z.min_l (rtt_variance s * 3)) by (unfold UINT64_MAX; lia).
  rewrite !ossl_time_add_sat by (unfold is_u64, U64_MOD; lia).
  rewrite (Z.min_l (smoothed_rtt s * 7 + adj)), (Z.min_l (rtt_variance s * 3 + _)) by (unfold UINT64_MAX; lia).
  rewrite !ossl_time_divide_spec by lia.
  split; cbn; unfold RTT_LIMIT; try done; try lia; Z.div_mod_to_equations; lia.
Qed.

(** The least and the greatest measured round trip time. *)
Definition least (r : Z) (samples : list (Z * Z)) : Z := fold_left (fun m x => Z.min m (snd x)) samples r.
Definition greatest (r : Z) (samples : list (Z * Z)) : Z := fold_left (fun m x => Z.max m (snd x)) samples r.
Definition final (r : Z) (samples : list (Z * Z)) : Z := fold_left (fun _ x => snd x) samples r.

Lemma estimates_all samples : forall lo hi last s,
  estimates lo hi last s -> Forall sample_ok samples ->
  estimates (least lo samples) (greatest hi samples) (final last samples) (update_all samples s).
Proof.
  induction samples as [|[d r] samples IH]; intros lo hi last s Hs Hok; [done|].
  apply Forall_cons_1 in Hok as [Hx Hok]. cbn. apply IH; [|done]. by apply (estimates_next lo hi last).
Qed.

(** C40: after any non-empty sequence of positive samples below 2^60 ns, whatever
    acknowledgement delays the peer claims, the minimum RTT is the least sample, the
    latest RTT the last one, the smoothed RTT lies between the least and the
    greatest sample, and the variance is at most the greatest sample. *)
Theorem statm_estimates_bounded d r samples :
  sample_ok (d, r) -> Forall sample_ok samples ->
  let info := ossl_statm_get_rtt_info (update_all ((d, r) :: samples) ossl_statm_init) in
  info_min_rtt info = least r samples /\ info_latest_rtt info = final r samples /\
  least r samples <= info_smoothed_rtt info <= greatest r samples /\
  0 <= info_rtt_variance info <= greatest r samples.
Proof.
  intros Hx Hok. pose proof (estimates_first ossl_statm_init d r eq_refl Hx) as H0.
  by destruct (estimates_all samples _ _ _ _ H0 Hok).
Qed.

Lemma statm_estimates_bounded_witness :
  let samples := [(5, 120); (40, 95); (1000, 300)] in
  let info := ossl_statm_get_rtt_info (update_all ((0, 100) :: samples) ossl_statm_init) in
  info_min_rtt info = least 100 samples /\ info_latest_rtt info = final 100 samples /\
  least 100 samples <= info_smoothed_rtt info <= greatest 100 samples /\
  0 <= info_rtt_variance info <= greatest 100 samples.
Proof.
  apply (statm_estimates_bounded 0 100 [(5, 120); (40, 95); (1000, 300)]).
  - unfold sample_ok, is_u64, RTT_LIMIT, U64_MOD; cbn; lia.
  - repeat constructor; cbn; unfold U64_MOD, RTT_LIMIT; lia.
Defined.
