(* ===== verification/NewReno.v ===== *)
(** Congestion control: the interface of include/internal/quic_cc.h and the
    NewReno implementation, ssl/quic/cc_newreno.c.

    The interface is a class, so that the acknowledgement manager is verified
    against what every congestion controller promises, and NewReno is shown to
    keep the promise. The locations that diagnostics are written to are addresses
    in a memory; a parameter array is a list. The clock is a parameter: the time of
    each reading. *)

From stdpp Require Import base list numbers gmap strings.
From Stdlib Require Import ZArith Lia.
From S2P Require Import Prelude SafeMath.

#[local] Open Scope cfun_scope.

(** ** Definitions: the interface *)

Record OSSL_CC_ACK_INFO := mkAckInfo { ack_tx_time : OSSL_TIME; ack_tx_size : Z }.
Record OSSL_CC_LOSS_INFO := mkLossInfo { loss_tx_time : OSSL_TIME; loss_tx_size : Z }.
Record OSSL_CC_ECN_INFO := mkEcnInfo { largest_acked_time : OSSL_TIME }.

Definition OSSL_CC_LOST_FLAG_PERSISTENT_CONGESTION : Z := 1.

(** The methods that a user of a congestion controller calls while it runs. *)
Class CongestionControl (D : Type) := {
  cc_get_tx_allowance : D -> Z;
  cc_on_data_sent : Z -> M D unit;
  cc_on_data_acked : OSSL_CC_ACK_INFO -> M D unit;
  cc_on_data_lost : OSSL_CC_LOSS_INFO -> M D unit;
  cc_on_data_lost_finished : Z -> M D unit;
  cc_on_data_invalidated : Z -> M D unit;
  cc_on_ecn : OSSL_CC_ECN_INFO -> M D unit
}.

(** What it promises: each event succeeds on a controller in a valid state, and
    changes the bytes in flight by what was sent, acknowledged, lost or
    invalidated. *)
Class CongestionControlLaws (D : Type) `{CongestionControl D} := {
  cc_valid : D -> Prop;
  cc_in_flight : D -> Z;
  cc_in_flight_range d : cc_valid d -> is_u64 (cc_in_flight d);
  cc_sent_law d n :
    cc_valid d -> 0 <= n -> cc_in_flight d + n < U64_MOD ->
    exists d', cc_on_data_sent n d = (Ok tt, d') /\ cc_valid d' /\ cc_in_flight d' = cc_in_flight d + n;
  cc_acked_law d i :
    cc_valid d -> 0 <= ack_tx_size i <= cc_in_flight d ->
    exists d', cc_on_data_acked i d = (Ok tt, d') /\ cc_valid d' /\
               cc_in_flight d' = cc_in_flight d - ack_tx_size i;
  cc_lost_law d i :
    cc_valid d -> 0 <= loss_tx_size i <= cc_in_flight d ->
    exists d', cc_on_data_lost i d = (Ok tt, d') /\ cc_valid d' /\
               cc_in_flight d' = cc_in_flight d - loss_tx_size i;
  cc_lost_finished_law d flags :
    cc_valid d ->
    exists d', cc_on_data_lost_finished flags d = (Ok tt, d') /\ cc_valid d' /\ cc_in_flight d' = cc_in_flight d;
  cc_invalidated_law d n :
    cc_valid d -> 0 <= n <= cc_in_flight d ->
    exists d', cc_on_data_invalidated n d = (Ok tt, d') /\ cc_valid d' /\ cc_in_flight d' = cc_in_flight d - n;
  cc_ecn_law d i :
    cc_valid d -> exists d', cc_on_ecn i d = (Ok tt, d') /\ cc_valid d' /\ cc_in_flight d' = cc_in_flight d
}.

(** ** Definitions: NewReno *)

Definition QUIC_MIN_INITIAL_DGRAM_LEN : Z := 1200.
Definition MIN_MAX_INIT_WND_SIZE : Z := 14720.

Definition OSSL_CC_OPTION_MAX_DGRAM_PAYLOAD_LEN : string := "max_dgram_payload_len".
Definition OSSL_CC_OPTION_CUR_CWND_SIZE : string := "cur_cwnd_size".
Definition OSSL_CC_OPTION_MIN_CWND_SIZE : string := "min_cwnd_size".
Definition OSSL_CC_OPTION_CUR_BYTES_IN_FLIGHT : string := "bytes_in_flight".
Definition OSSL_CC_OPTION_CUR_STATE : string := "cur_state".

(** The fields of an OSSL_PARAM that are used here: the key, whether it is an
    unsigned integer, its size, the location of its data ([None] for NULL), and the result of reading
    it as a size_t ([None] for a failure). *)
Record OSSL_PARAM := mkParam {
  key : string;
  is_unsigned : bool;
  data_size : Z;
  data : option nat;
  as_size_t : option Z
}.

Fixpoint OSSL_PARAM_locate_const (params : list OSSL_PARAM) (k : string) : option OSSL_PARAM :=
  match params with
  | [] => None
  | p :: params' => if String.eqb k (key p) then Some p else OSSL_PARAM_locate_const params' k
  end.

Record OSSL_CC_NEWRENO := mkNr {
  k_init_wnd : Z; k_min_wnd : Z;
  k_loss_reduction_factor_num : Z; k_loss_reduction_factor_den : Z;
  persistent_cong_thresh : Z;
  max_dgram_size : Z;
  bytes_in_flight : Z; cong_wnd : Z; slow_start_thresh : Z; bytes_acked : Z;
  cong_recovery_start_time : OSSL_TIME;
  processing_loss : bool;
  tx_time_of_last_loss : OSSL_TIME;
  in_congestion_recovery : bool;
  p_diag_max_dgram_payload_len : option nat;
  p_diag_cur_cwnd_size : option nat;
  p_diag_min_cwnd_size : option nat;
  p_diag_cur_bytes_in_flight : option nat;
  p_diag_cur_state : option nat
}.

(** The controller, the memory that diagnostics are written to, and the number of
    readings of the clock. *)
Record NR := mkNR { nr : OSSL_CC_NEWRENO; diag : gmap nat Z; readings : nat }.

Definition nr_set (f : OSSL_CC_NEWRENO -> OSSL_CC_NEWRENO) : M NR unit :=
  modify (fun s => mkNR (f (nr s)) (diag s) (readings s)).

Definition set_windows (i m : Z) (r : OSSL_CC_NEWRENO) : OSSL_CC_NEWRENO :=
  let 'mkNr _ _ a b c d e f g h j k l n p q t u v := r in mkNr i m a b c d e f g h j k l n p q t u v.
Definition set_factors (n d t : Z) (r : OSSL_CC_NEWRENO) : OSSL_CC_NEWRENO :=
  let 'mkNr x1 x2 _ _ _ x6 x7 x8 x9 y0 y1 y2 y3 y4 y5 y6 y7 y8 y9 := r in
  mkNr x1 x2 n d t x6 x7 x8 x9 y0 y1 y2 y3 y4 y5 y6 y7 y8 y9.
Definition set_dgram (v : Z) (r : OSSL_CC_NEWRENO) : OSSL_CC_NEWRENO :=
  let 'mkNr x1 x2 x3 x4 x5 _ x7 x8 x9 y0 y1 y2 y3 y4 y5 y6 y7 y8 y9 := r in
  mkNr x1 x2 x3 x4 x5 v x7 x8 x9 y0 y1 y2 y3 y4 y5 y6 y7 y8 y9.
Definition set_in_flight (v : Z) (r : OSSL_CC_NEWRENO) : OSSL_CC_NEWRENO :=
  let 'mkNr x1 x2 x3 x4 x5 x6 _ x8 x9 y0 y1 y2 y3 y4 y5 y6 y7 y8 y9 := r in
  mkNr x1 x2 x3 x4 x5 x6 v x8 x9 y0 y1 y2 y3 y4 y5 y6 y7 y8 y9.
Definition set_cong_wnd (v : Z) (r : OSSL_CC_NEWRENO) : OSSL_CC_NEWRENO :=
  let 'mkNr x1 x2 x3 x4 x5 x6 x7 _ x9 y0 y1 y2 y3 y4 y5 y6 y7 y8 y9 := r in
  mkNr x1 x2 x3 x4 x5 x6 x7 v x9 y0 y1 y2 y3 y4 y5 y6 y7 y8 y9.
Definition set_ssthresh (v : Z) (r : OSSL_CC_NEWRENO) : OSSL_CC_NEWRENO :=
  let 'mkNr x1 x2 x3 x4 x5 x6 x7 x8 _ y0 y1 y2 y3 y4 y5 y6 y7 y8 y9 := r in
  mkNr x1 x2 x3 x4 x5 x6 x7 x8 v y0 y1 y2 y3 y4 y5 y6 y7 y8 y9.
Definition set_bytes_acked (v : Z) (r : OSSL_CC_NEWRENO) : OSSL_CC_NEWRENO :=
  let 'mkNr x1 x2 x3 x4 x5 x6 x7 x8 x9 _ y1 y2 y3 y4 y5 y6 y7 y8 y9 := r in
  mkNr x1 x2 x3 x4 x5 x6 x7 x8 x9 v y1 y2 y3 y4 y5 y6 y7 y8 y9.
Definition set_recovery_start (v : OSSL_TIME) (r : OSSL_CC_NEWRENO) : OSSL_CC_NEWRENO :=
  let 'mkNr x1 x2 x3 x4 x5 x6 x7 x8 x9 y0 _ y2 y3 y4 y5 y6 y7 y8 y9 := r in
  mkNr x1 x2 x3 x4 x5 x6 x7 x8 x9 y0 v y2 y3 y4 y5 y6 y7 y8 y9.
Definition set_processing_loss (v : bool) (r : OSSL_CC_NEWRENO) : OSSL_CC_NEWRENO :=
  let 'mkNr x1 x2 x3 x4 x5 x6 x7 x8 x9 y0 y1 _ y3 y4 y5 y6 y7 y8 y9 := r in
  mkNr x1 x2 x3 x4 x5 x6 x7 x8 x9 y0 y1 v y3 y4 y5 y6 y7 y8 y9.
Definition set_last_loss (v : OSSL_TIME) (r : OSSL_CC_NEWRENO) : OSSL_CC_NEWRENO :=
  let 'mkNr x1 x2 x3 x4 x5 x6 x7 x8 x9 y0 y1 y2 _ y4 y5 y6 y7 y8 y9 := r in
  mkNr x1 x2 x3 x4 x5 x6 x7 x8 x9 y0 y1 y2 v y4 y5 y6 y7 y8 y9.
Definition set_in_recovery (v : bool) (r : OSSL_CC_NEWRENO) : OSSL_CC_NEWRENO :=
  let 'mkNr x1 x2 x3 x4 x5 x6 x7 x8 x9 y0 y1 y2 y3 _ y5 y6 y7 y8 y9 := r in
  mkNr x1 x2 x3 x4 x5 x6 x7 x8 x9 y0 y1 y2 y3 v y5 y6 y7 y8 y9.
Definition set_diag (d1 d2 d3 d4 d5 : option nat) (r : OSSL_CC_NEWRENO) : OSSL_CC_NEWRENO :=
  let 'mkNr x1 x2 x3 x4 x5 x6 x7 x8 x9 y0 y1 y2 y3 y4 _ _ _ _ _ := r in
  mkNr x1 x2 x3 x4 x5 x6 x7 x8 x9 y0 y1 y2 y3 y4 d1 d2 d3 d4 d5.

(** A store through a pointer that may be NULL. *)
Definition write_diag (p : option nat) (v : Z) (m : gmap nat Z) : gmap nat Z :=
  match p with Some a => <[a := v]> m | None => m end.

Definition newreno_update_diag : M NR unit :=
  modify (fun s =>
    let r := nr s in
    let m := write_diag (p_diag_max_dgram_payload_len r) (max_dgram_size r) (diag s) in
    let m := write_diag (p_diag_cur_cwnd_size r) (cong_wnd r) m in
    let m := write_diag (p_diag_min_cwnd_size r) (k_min_wnd r) m in
    let m := write_diag (p_diag_cur_bytes_in_flight r) (bytes_in_flight r) m in
    let m := write_diag (p_diag_cur_state r)
               (if in_congestion_recovery r then 82
                else if cong_wnd r <? slow_start_thresh r then 83 else 65) m in
    mkNR r m (readings s)).

Definition newreno_set_max_dgram_size (max_dgram_size_ : Z) : M NR unit :=
  let! s := get in
  let is_reduced := max_dgram_size_ <? max_dgram_size (nr s) in
  let max_init_wnd := u64 (2 * max_dgram_size_) in
  let max_init_wnd := if max_init_wnd <? MIN_MAX_INIT_WND_SIZE then MIN_MAX_INIT_WND_SIZE else max_init_wnd in
  let init := u64 (10 * max_dgram_size_) in
  let init := if init >? max_init_wnd then max_init_wnd else init in
  nr_set (fun r => set_windows init (u64 (2 * max_dgram_size_)) (set_dgram max_dgram_size_ r)) ;;;
  (if is_reduced then nr_set (set_cong_wnd init) else ret tt) ;;;
  newreno_update_diag.

Definition newreno_reset : M NR unit :=
  nr_set (fun r =>
    set_in_recovery false (set_last_loss ossl_time_zero (set_processing_loss false
      (set_recovery_start ossl_time_zero (set_ssthresh UINT64_MAX (set_bytes_acked 0
        (set_in_flight 0 (set_cong_wnd (k_init_wnd r) (set_factors 1 2 3 r))))))))).

(** A zeroed controller. *)
Definition newreno_zero : OSSL_CC_NEWRENO :=
  mkNr 0 0 0 0 0 0 0 0 0 0 0 false 0 false None None None None None.

(** [None] for NULL. *)
Definition newreno_new (o : oracle) (m : gmap nat Z) : option NR * oracle :=
  let (ok, o') := alloc o in
  if negb ok then (None, o')
  else
    let s := snd ((newreno_set_max_dgram_size QUIC_MIN_INITIAL_DGRAM_LEN ;;; newreno_reset) (mkNR newreno_zero m 0)) in
    (Some s, o').

Definition newreno_set_input_params (params : list OSSL_PARAM) : M NR unit :=
  match OSSL_PARAM_locate_const params OSSL_CC_OPTION_MAX_DGRAM_PAYLOAD_LEN with
  | None => ret tt
  | Some p =>
      match as_size_t p with
      | None => fail
      | Some value =>
          if value <? QUIC_MIN_INITIAL_DGRAM_LEN then fail else newreno_set_max_dgram_size value
      end
  end.

(** [None] for the result 0, otherwise the pointer. *)
Definition bind_diag (params : list OSSL_PARAM) (param_name : string) (len : Z) : option (option nat) :=
  match OSSL_PARAM_locate_const params param_name with
  | None => Some None
  | Some p => if negb (is_unsigned p) || negb (data_size p =? len) then None else Some (data p)
  end.

(** The new pointer unless it is NULL. *)
Definition bound (new old : option nat) : option nat := match new with Some a => Some a | None => old end.

Definition newreno_bind_diagnostic (params : list OSSL_PARAM) : M NR unit :=
  match bind_diag params OSSL_CC_OPTION_MAX_DGRAM_PAYLOAD_LEN 8,
        bind_diag params OSSL_CC_OPTION_CUR_CWND_SIZE 8,
        bind_diag params OSSL_CC_OPTION_MIN_CWND_SIZE 8,
        bind_diag params OSSL_CC_OPTION_CUR_BYTES_IN_FLIGHT 8,
        bind_diag params OSSL_CC_OPTION_CUR_STATE 4 with
  | Some d1, Some d2, Some d3, Some d4, Some d5 =>
      nr_set (fun r => set_diag (bound d1 (p_diag_max_dgram_payload_len r)) (bound d2 (p_diag_cur_cwnd_size r))
                         (bound d3 (p_diag_min_cwnd_size r)) (bound d4 (p_diag_cur_bytes_in_flight r))
                         (bound d5 (p_diag_cur_state r)) r) ;;;
      newreno_update_diag
  | _, _, _, _, _ => fail
  end.

Definition unbind_diag (params : list OSSL_PARAM) (param_name : string) (p : option nat) : option nat :=
  match OSSL_PARAM_locate_const params param_name with Some _ => None | None => p end.

Definition newreno_unbind_diagnostic (params : list OSSL_PARAM) : M NR unit :=
  nr_set (fun r =>
    set_diag (unbind_diag params OSSL_CC_OPTION_MAX_DGRAM_PAYLOAD_LEN (p_diag_max_dgram_payload_len r))
             (unbind_diag params OSSL_CC_OPTION_CUR_CWND_SIZE (p_diag_cur_cwnd_size r))
             (unbind_diag params OSSL_CC_OPTION_MIN_CWND_SIZE (p_diag_min_cwnd_size r))
             (unbind_diag params OSSL_CC_OPTION_CUR_BYTES_IN_FLIGHT (p_diag_cur_bytes_in_flight r))
             (unbind_diag params OSSL_CC_OPTION_CUR_STATE (p_diag_cur_state r)) r).

Definition newreno_in_cong_recovery (r : OSSL_CC_NEWRENO) (tx_time : OSSL_TIME) : bool :=
  ossl_time_compare tx_time (cong_recovery_start_time r) <=? 0.

Definition newreno_get_tx_allowance (r : OSSL_CC_NEWRENO) : Z :=
  if bytes_in_flight r >=? cong_wnd r then 0 else u64 (cong_wnd r - bytes_in_flight r).

Definition newreno_get_wakeup_deadline (r : OSSL_CC_NEWRENO) : OSSL_TIME :=
  if newreno_get_tx_allowance r >? 0 then ossl_time_zero else ossl_time_infinite.

Definition newreno_on_data_sent (num_bytes : Z) : M NR unit :=
  nr_set (fun r => set_in_flight (u64 (bytes_in_flight r + num_bytes)) r) ;;; newreno_update_diag.

Definition newreno_is_cong_limited (r : OSSL_CC_NEWRENO) : bool :=
  if bytes_in_flight r >=? cong_wnd r then true
  else
    let wnd_rem := u64 (cong_wnd r - bytes_in_flight r) in
    ((cong_wnd r <? slow_start_thresh r) && (wnd_rem <=? cong_wnd r / 2))
    || (wnd_rem <=? u64 (3 * max_dgram_size r)).

Definition newreno_on_data_acked (info : OSSL_CC_ACK_INFO) : M NR unit :=
  nr_set (fun r => set_in_flight (u64 (bytes_in_flight r - ack_tx_size info)) r) ;;;
  let! s := get in
  (if negb (newreno_is_cong_limited (nr s)) then ret tt
   else if newreno_in_cong_recovery (nr s) (ack_tx_time info) then ret tt
   else if cong_wnd (nr s) <? slow_start_thresh (nr s) then
     nr_set (fun r => set_in_recovery false (set_cong_wnd (u64 (cong_wnd r + ack_tx_size info)) r))
   else
     nr_set (fun r => set_bytes_acked (u64 (bytes_acked r + ack_tx_size info)) r) ;;;
     nr_set (fun r => if bytes_acked r >=? cong_wnd r
                      then set_cong_wnd (u64 (cong_wnd r + max_dgram_size r))
                             (set_bytes_acked (u64 (bytes_acked r - cong_wnd r)) r)
                      else r) ;;;
     nr_set (set_in_recovery false)) ;;;
  newreno_update_diag.

Definition newreno_on_data_lost (info : OSSL_CC_LOSS_INFO) : M NR unit :=
  let! s := get in
  if loss_tx_size info >? bytes_in_flight (nr s) then fail
  else
    nr_set (fun r => set_in_flight (u64 (bytes_in_flight r - loss_tx_size info)) r) ;;;
    (if negb (processing_loss (nr s))
        && (ossl_time_compare (loss_tx_time info) (tx_time_of_last_loss (nr s)) <=? 0)
     then ret tt
     else
       (if negb (processing_loss (nr s))
        then nr_set (fun r => set_bytes_acked 0 (set_processing_loss true r)) else ret tt) ;;;
       nr_set (fun r => set_last_loss (ossl_time_max (tx_time_of_last_loss r) (loss_tx_time info)) r)) ;;;
    newreno_update_diag.

Definition newreno_on_data_invalidated (num_bytes : Z) : M NR unit :=
  nr_set (fun r => set_in_flight (u64 (bytes_in_flight r - num_bytes)) r) ;;; newreno_update_diag.

Section Clock.
(** The result of each reading of the clock. *)
Context (now : nat -> OSSL_TIME).

Definition read_clock : M NR OSSL_TIME :=
  fun s => (Ok (now (readings s)), mkNR (nr s) (diag s) (S (readings s))).

Definition newreno_cong (tx_time : OSSL_TIME) : M NR unit :=
  let! s := get in
  if newreno_in_cong_recovery (nr s) tx_time then ret tt
  else
    let! t := read_clock in
    let (x, err) := safe_muldiv (cong_wnd (nr s)) (k_loss_reduction_factor_num (nr s))
                                (k_loss_reduction_factor_den (nr s)) in
    let thresh := if err : bool then UINT64_MAX else x in
    nr_set (fun r => set_ssthresh thresh (set_recovery_start t (set_in_recovery true r))) ;;;
    nr_set (fun r => set_cong_wnd (if thresh <? k_min_wnd r then k_min_wnd r else thresh) r).

Definition newreno_flush (flags : Z) : M NR unit :=
  let! s := get in
  if negb (processing_loss (nr s)) then ret tt
  else
    newreno_cong (tx_time_of_last_loss (nr s)) ;;;
    (if negb (Z.land flags OSSL_CC_LOST_FLAG_PERSISTENT_CONGESTION =? 0)
     then nr_set (fun r => set_recovery_start ossl_time_zero (set_cong_wnd (k_min_wnd r) r))
     else ret tt) ;;;
    nr_set (set_processing_loss false) ;;;
    newreno_update_diag.

Definition newreno_on_data_lost_finished (flags : Z) : M NR unit := newreno_flush flags.

Definition newreno_on_ecn (info : OSSL_CC_ECN_INFO) : M NR unit :=
  nr_set (fun r => set_last_loss (largest_acked_time info) (set_bytes_acked 0 (set_processing_loss true r))) ;;;
  newreno_flush 0.

End Clock.

(** ** The pure effect of each operation on the controller *)

(** No operation changes the controller when it writes the diagnostics. *)
Lemma update_diag_run s : newreno_update_diag s = (Ok tt, snd (newreno_update_diag s)).
Proof. reflexivity. Qed.

Lemma update_diag_nr s : nr (snd (newreno_update_diag s)) = nr s.
Proof. reflexivity. Qed.

(** What an operation does: it succeeds and leaves the controller [r]. *)
Definition leaves (op : M NR unit) (s : NR) (r : OSSL_CC_NEWRENO) : Prop :=
  exists s', op s = (Ok tt, s') /\ nr s' = r.

Lemma leaves_det op s r : leaves op s r -> nr (snd (op s)) = r.
Proof. by intros (s' & -> & <-). Qed.

Ltac leave := eexists; split; [reflexivity|reflexivity].

Lemma sent_leaves n s :
  leaves (newreno_on_data_sent n) s (set_in_flight (u64 (bytes_in_flight (nr s) + n)) (nr s)).
Proof. leave. Qed.

Lemma invalidated_leaves n s :
  leaves (newreno_on_data_invalidated n) s (set_in_flight (u64 (bytes_in_flight (nr s) - n)) (nr s)).
Proof. leave. Qed.

(** The growth on an acknowledgement, after the bytes have left the network. *)
Definition grown (i : OSSL_CC_ACK_INFO) (r : OSSL_CC_NEWRENO) : OSSL_CC_NEWRENO :=
  if negb (newreno_is_cong_limited r) then r
  else if newreno_in_cong_recovery r (ack_tx_time i) then r
  else if cong_wnd r <? slow_start_thresh r
       then set_in_recovery false (set_cong_wnd (u64 (cong_wnd r + ack_tx_size i)) r)
  else let a := u64 (bytes_acked r + ack_tx_size i) in
       set_in_recovery false
         (if a >=? cong_wnd r
          then set_cong_wnd (u64 (cong_wnd r + max_dgram_size r)) (set_bytes_acked (u64 (a - cong_wnd r)) r)
          else set_bytes_acked a r).

Lemma acked_leaves i s :
  leaves (newreno_on_data_acked i) s
    (grown i (set_in_flight (u64 (bytes_in_flight (nr s) - ack_tx_size i)) (nr s))).
Proof.
  unfold leaves. cbv [newreno_on_data_acked bind nr_set modify get ret grown]. cbn [nr diag readings].
  generalize (set_in_flight (u64 (bytes_in_flight (nr s) - ack_tx_size i)) (nr s)) as r. intros r.
  destruct (negb _); [leave|]. destruct (newreno_in_cong_recovery _ _); [leave|].
  destruct (_ <? _); [leave|]. cbn [nr]. destruct r. cbn. destruct (_ >=? _); leave.
Qed.

Definition lossy (i : OSSL_CC_LOSS_INFO) (r : OSSL_CC_NEWRENO) : OSSL_CC_NEWRENO :=
  if negb (processing_loss r) && (ossl_time_compare (loss_tx_time i) (tx_time_of_last_loss r) <=? 0) then r
  else
    let r' := if negb (processing_loss r) then set_bytes_acked 0 (set_processing_loss true r) else r in
    set_last_loss (ossl_time_max (tx_time_of_last_loss r) (loss_tx_time i)) r'.

Lemma lost_leaves i s :
  loss_tx_size i <= bytes_in_flight (nr s) ->
  leaves (newreno_on_data_lost i) s
    (lossy i (set_in_flight (u64 (bytes_in_flight (nr s) - loss_tx_size i)) (nr s))).
Proof.
  intros H. unfold leaves. cbv [newreno_on_data_lost bind nr_set modify get ret lossy].
  destruct (Z.gtb_spec (loss_tx_size i) (bytes_in_flight (nr s))) as [?|_]; [lia|].
  destruct s as [[] m k]. cbn. destruct processing_loss0; cbn [negb andb]; [leave|].
  destruct (_ <=? 0); leave.
Qed.

(** The reaction to congestion, when packets sent at [t] show it at time [start]. *)
Definition reduced (t start : OSSL_TIME) (r : OSSL_CC_NEWRENO) : OSSL_CC_NEWRENO :=
  if newreno_in_cong_recovery r t then r
  else
    let (x, err) := safe_muldiv (cong_wnd r) (k_loss_reduction_factor_num r) (k_loss_reduction_factor_den r) in
    let thresh := if err : bool then UINT64_MAX else x in
    set_cong_wnd (if thresh <? k_min_wnd r then k_min_wnd r else thresh)
      (set_ssthresh thresh (set_recovery_start start (set_in_recovery true r))).

Definition flushed (flags : Z) (start : OSSL_TIME) (r : OSSL_CC_NEWRENO) : OSSL_CC_NEWRENO :=
  if negb (processing_loss r) then r
  else
    let r' := reduced (tx_time_of_last_loss r) start r in
    set_processing_loss false
      (if negb (Z.land flags OSSL_CC_LOST_FLAG_PERSISTENT_CONGESTION =? 0)
       then set_recovery_start ossl_time_zero (set_cong_wnd (k_min_wnd r') r') else r').

Section Effects.
Context (now : nat -> OSSL_TIME).

Lemma flush_leaves flags s : leaves (newreno_flush now flags) s (flushed flags (now (readings s)) (nr s)).
Proof.
  unfold leaves. cbv [newreno_flush newreno_cong flushed reduced read_clock bind nr_set modify get ret].
  destruct s as [r m k]. cbn [nr readings diag].
  destruct (processing_loss r); cbn [negb]; [|leave].
  destruct (newreno_in_cong_recovery _ _); cbn [nr readings diag].
  - destruct (negb _); leave.
  - destruct (safe_muldiv _ _ _) as [x e]. destruct (negb _); destruct r; leave.
Qed.

Lemma ecn_leaves i s :
  leaves (newreno_on_ecn now i) s
    (flushed 0 (now (readings s))
       (set_last_loss (largest_acked_time i) (set_bytes_acked 0 (set_processing_loss true (nr s))))).
Proof. exact (flush_leaves 0 (mkNR _ _ _)). Qed.

End Effects.

(** ** NewReno keeps the promises of a congestion controller *)

Section Laws.
Context (now : nat -> OSSL_TIME).

#[export] Instance newreno_cc : CongestionControl NR := {
  cc_get_tx_allowance s := newreno_get_tx_allowance (nr s);
  cc_on_data_sent := newreno_on_data_sent;
  cc_on_data_acked := newreno_on_data_acked;
  cc_on_data_lost := newreno_on_data_lost;
  cc_on_data_lost_finished := newreno_on_data_lost_finished now;
  cc_on_data_invalidated := newreno_on_data_invalidated;
  cc_on_ecn := newreno_on_ecn now
}.

Lemma set_in_flight_get v r : bytes_in_flight (set_in_flight v r) = v.
Proof. by destruct r. Qed.

Lemma grown_in_flight i r : bytes_in_flight (grown i r) = bytes_in_flight r.
Proof. unfold grown. repeat case_match; by destruct r. Qed.

Lemma lossy_in_flight i r : bytes_in_flight (lossy i r) = bytes_in_flight r.
Proof. unfold lossy. repeat case_match; by destruct r. Qed.

Lemma flushed_in_flight f t r : bytes_in_flight (flushed f t r) = bytes_in_flight r.
Proof. unfold flushed, reduced. destruct r; repeat (case_match; cbn in *); simplify_eq; done. Qed.

(** A controller whose bytes in flight are a 64-bit number is valid. *)
#[export] Program Instance newreno_laws : CongestionControlLaws NR := {
  cc_valid s := is_u64 (bytes_in_flight (nr s));
  cc_in_flight s := bytes_in_flight (nr s)
}.
Next Obligation. done. Qed.
Next Obligation.
  intros s n Hv Hn Hb. cbn in Hv, Hb. destruct (sent_leaves n s) as (s' & E & Hr). exists s'. split; [done|].
  rewrite Hr, set_in_flight_get, u64_id by (revert Hv; unfold is_u64, U64_MOD in *; lia).
  unfold is_u64, U64_MOD in *. lia.
Qed.
Next Obligation.
  intros s i Hv Hn. cbn in Hv, Hn. destruct (acked_leaves i s) as (s' & E & Hr). exists s'. split; [done|].
  rewrite Hr, grown_in_flight, set_in_flight_get, u64_id by (revert Hv; unfold is_u64, U64_MOD in *; lia).
  unfold is_u64, U64_MOD in *. lia.
Qed.
Next Obligation.
  intros s i Hv Hn. cbn in Hv, Hn. destruct (lost_leaves i s) as (s' & E & Hr); [lia|]. exists s'. split; [done|].
  rewrite Hr, lossy_in_flight, set_in_flight_get, u64_id by (revert Hv; unfold is_u64, U64_MOD in *; lia).
  unfold is_u64, U64_MOD in *. lia.
Qed.
Next Obligation.
  intros s f Hv. destruct (flush_leaves now f s) as (s' & E & Hr). exists s'. split; [exact E|].
  rewrite Hr, flushed_in_flight. done.
Qed.
Next Obligation.
  intros s n Hv Hn. cbn in Hv, Hn. destruct (invalidated_leaves n s) as (s' & E & Hr). exists s'. split; [done|].
  rewrite Hr, set_in_flight_get, u64_id by (revert Hv; unfold is_u64, U64_MOD in *; lia).
  unfold is_u64, U64_MOD in *. lia.
Qed.
Next Obligation.
  intros s i Hv. destruct (ecn_leaves now i s) as (s' & E & Hr). exists s'. split; [exact E|].
  rewrite Hr, flushed_in_flight.
  assert (forall t r, bytes_in_flight (set_last_loss t (set_bytes_acked 0 (set_processing_loss true r)))
                      = bytes_in_flight r) as -> by (by intros t []).
  done.
Qed.

End Laws.

(** ** Runs of a controller *)

Inductive cc_event :=
| EvSent (n : Z)
| EvAcked (i : OSSL_CC_ACK_INFO)
| EvLost (i : OSSL_CC_LOSS_INFO)
| EvLostFinished (flags : Z)
| EvInvalidated (n : Z)
| EvEcn (i : OSSL_CC_ECN_INFO)
| EvParams (params : list OSSL_PARAM).

(** Rejected parameters are ignored by the caller. *)
Definition exec_cc (now : nat -> OSSL_TIME) (e : cc_event) : M NR unit :=
  match e with
  | EvSent n => newreno_on_data_sent n
  | EvAcked i => newreno_on_data_acked i
  | EvLost i => newreno_on_data_lost i
  | EvLostFinished flags => newreno_on_data_lost_finished now flags
  | EvInvalidated n => newreno_on_data_invalidated n
  | EvEcn i => newreno_on_ecn now i
  | EvParams params => fun s => (Ok tt, snd (newreno_set_input_params params s))
  end.

Fixpoint exec_ccs (now : nat -> OSSL_TIME) (es : list cc_event) : M NR unit :=
  match es with
  | [] => ret tt
  | e :: es => exec_cc now e ;;; exec_ccs now es
  end.

Definition ev_sent (e : cc_event) : Z := match e with EvSent n => n | _ => 0 end.
Definition ev_acked (e : cc_event) : Z := match e with EvAcked i => ack_tx_size i | _ => 0 end.
Definition ev_gone (e : cc_event) : Z :=
  match e with
  | EvAcked i => ack_tx_size i
  | EvLost i => loss_tx_size i
  | EvInvalidated n => n
  | _ => 0
  end.

Definition total (f : cc_event -> Z) (es : list cc_event) : Z := foldr (fun e t => f e + t) 0 es.

(** The datagram size that an event asks for. *)
Definition ev_dgram (e : cc_event) : Z :=
  match e with
  | EvParams params =>
      match OSSL_PARAM_locate_const params OSSL_CC_OPTION_MAX_DGRAM_PAYLOAD_LEN with
      | Some p => match as_size_t p with Some v => v | None => 0 end
      | None => 0
      end
  | _ => 0
  end.

(** The largest datagram size of a run, at least the first one. *)
Definition largest_dgram (es : list cc_event) : Z :=
  foldr (fun e m => Z.max (ev_dgram e) m) QUIC_MIN_INITIAL_DGRAM_LEN es.

(** Only bytes that are in flight leave the network; twice a datagram size is far from the
    limit of 64 bits. *)
Definition legal_ev (e : cc_event) (r : OSSL_CC_NEWRENO) : Prop :=
  match e with
  | EvSent n => 0 <= n
  | EvParams _ => 0 <= ev_dgram e < 2 ^ 60
  | _ => 0 <= ev_gone e <= bytes_in_flight r
  end.

Fixpoint legal (now : nat -> OSSL_TIME) (es : list cc_event) (s : NR) : Prop :=
  match es with
  | [] => True
  | e :: es => legal_ev e (nr s) /\ legal now es (snd (exec_cc now e s))
  end.

(** What the window may have beyond the bytes acknowledged: the limit of the initial window,
    or two datagrams of the largest size [D]. *)
Definition wnd_base (D : Z) : Z := Z.max MIN_MAX_INIT_WND_SIZE (2 * D).

(** The state after [S] bytes were sent, of which [G] left the network, [A] of
    them acknowledged, with datagrams of at most [D] bytes. *)
Record nr_inv (D S G A : Z) (r : OSSL_CC_NEWRENO) : Prop := {
  inv_flight : bytes_in_flight r = S - G;
  inv_totals : 0 <= A <= G /\ G <= S;
  inv_dgram : QUIC_MIN_INITIAL_DGRAM_LEN <= max_dgram_size r <= D /\ D < 2 ^ 60;
  inv_min : k_min_wnd r = 2 * max_dgram_size r;
  inv_floor : 2 * QUIC_MIN_INITIAL_DGRAM_LEN <= cong_wnd r;
  inv_acked : 0 <= bytes_acked r <= A;
  inv_ceiling : cong_wnd r + bytes_acked r <= wnd_base D + A;
  inv_factor : k_loss_reduction_factor_num r = 1 /\ k_loss_reduction_factor_den r = 2
}.

Ltac nr_start H := destruct H as [If It Id Im Io Ia Ic [In In']]; unfold wnd_base, QUIC_MIN_INITIAL_DGRAM_LEN, MIN_MAX_INIT_WND_SIZE in *.
Ltac nr_done := split; cbn in *; unfold wnd_base, QUIC_MIN_INITIAL_DGRAM_LEN, MIN_MAX_INIT_WND_SIZE, U64_MOD in *; lia.

Lemma nr_inv_larger D D' S G A r : D <= D' < 2 ^ 60 -> nr_inv D S G A r -> nr_inv D' S G A r.
Proof. intros HD H. nr_start H. nr_done. Qed.

Lemma nr_inv_grown D S G A i r :
  0 <= ack_tx_size i -> nr_inv D S (G + ack_tx_size i) (A + ack_tx_size i) r ->
  bytes_acked r <= A -> cong_wnd r + bytes_acked r <= wnd_base D + A ->
  S + wnd_base D < U64_MOD ->
  nr_inv D S (G + ack_tx_size i) (A + ack_tx_size i) (grown i r).
Proof.
  intros Hi H Hb Hc HS. nr_start H. unfold grown. destruct (negb _); [nr_done|].
  destruct (newreno_in_cong_recovery _ _); [nr_done|]. unfold U64_MOD in *.
  rewrite (u64_id (cong_wnd r + _)), (u64_id (bytes_acked r + _)) by lia.
  destruct (_ <? _); [destruct r; nr_done|].
  destruct (Z.geb_spec (bytes_acked r + ack_tx_size i) (cong_wnd r)); [|destruct r; nr_done].
  rewrite !u64_id by lia. destruct r; nr_done.
Qed.

(** Halving: the factor is 1/2, so the product is exact. *)
Lemma half_window r :
  is_u64 (cong_wnd r) -> k_loss_reduction_factor_num r = 1 -> k_loss_reduction_factor_den r = 2 ->
  safe_muldiv (cong_wnd r) (k_loss_reduction_factor_num r) (k_loss_reduction_factor_den r)
  = (cong_wnd r / 2, false).
Proof.
  intros Hw -> ->. destruct (safe_muldiv _ _ _) as [x []] eqn:E.
  - apply safe_muldiv_true in E; unfold is_u64, U64_MOD in *; lia.
  - apply safe_muldiv_false in E as (_ & -> & _); [|unfold is_u64, U64_MOD in *; lia..].
    by rewrite Z.mul_1_r.
Qed.

Lemma nr_inv_reduced D S G A t start r :
  S + wnd_base D < U64_MOD -> nr_inv D S G A r -> nr_inv D S G A (reduced t start r).
Proof.
  intros HS H. unfold reduced. destruct (newreno_in_cong_recovery _ _); [done|]. nr_start H.
  rewrite half_window by (done || unfold is_u64, U64_MOD in *; lia).
  destruct (Z.ltb_spec (cong_wnd r / 2) (k_min_wnd r)); destruct r; cbn in *; split; cbn; try lia;
    unfold wnd_base, QUIC_MIN_INITIAL_DGRAM_LEN, MIN_MAX_INIT_WND_SIZE; Z.div_mod_to_equations; lia.
Qed.

Lemma nr_inv_flushed D S G A f t r :
  S + wnd_base D < U64_MOD -> nr_inv D S G A r -> nr_inv D S G A (flushed f t r).
Proof.
  intros HS H. unfold flushed. destruct (negb (processing_loss r)); [done|].
  pose proof (nr_inv_reduced D S G A (tx_time_of_last_loss r) t r HS H) as H'. revert H'.
  generalize (reduced (tx_time_of_last_loss r) t r) as r'. intros r' H'. nr_start H'.
  destruct (negb _); destruct r'; nr_done.
Qed.

(** The datagram size and the windows that follow from it. *)
Definition resized (v : Z) (r : OSSL_CC_NEWRENO) : OSSL_CC_NEWRENO :=
  let max_init := Z.max (2 * v) MIN_MAX_INIT_WND_SIZE in
  let init := Z.min (10 * v) max_init in
  let r' := set_windows init (2 * v) (set_dgram v r) in
  if v <? max_dgram_size r then set_cong_wnd init r' else r'.

Lemma set_max_dgram_size_leaves v s :
  0 <= v < 2 ^ 60 -> leaves (newreno_set_max_dgram_size v) s (resized v (nr s)).
Proof.
  intros Hv. unfold leaves. cbv [newreno_set_max_dgram_size bind nr_set modify get ret resized].
  rewrite !u64_id by lia.
  replace (if 2 * v <? MIN_MAX_INIT_WND_SIZE then MIN_MAX_INIT_WND_SIZE else 2 * v)
    with (Z.max (2 * v) MIN_MAX_INIT_WND_SIZE) by (case_match; lia).
  set (m := Z.max _ _). replace (if 10 * v >? m then m else 10 * v) with (Z.min (10 * v) m) by (case_match; lia).
  destruct (v <? max_dgram_size (nr s)); leave.
Qed.

Lemma nr_inv_resized D S G A v r :
  1200 <= v <= D -> nr_inv D S G A r -> nr_inv D S G A (resized v r).
Proof.
  intros Hv H. nr_start H. unfold resized, MIN_MAX_INIT_WND_SIZE.
  destruct (Z.ltb_spec v (max_dgram_size r)); destruct r; nr_done.
Qed.

(** The parameters change the datagram size, or nothing. *)
Lemma set_input_params_cases params s : 0 <= ev_dgram (EvParams params) < 2 ^ 60 ->
  nr (snd (newreno_set_input_params params s)) = nr s \/
  1200 <= ev_dgram (EvParams params) /\
  nr (snd (newreno_set_input_params params s)) = resized (ev_dgram (EvParams params)) (nr s).
Proof.
  unfold newreno_set_input_params. cbn [ev_dgram]. intros Hv.
  destruct (OSSL_PARAM_locate_const _ _) as [p|]; [|by left]. destruct (as_size_t p) as [v|]; [|by left].
  destruct (Z.ltb_spec v QUIC_MIN_INITIAL_DGRAM_LEN) as [|Hm]; [by left|]. right. split; [exact Hm|].
  apply leaves_det, set_max_dgram_size_leaves. lia.
Qed.

Lemma nr_inv_step now D S G A e s :
  nr_inv D S G A (nr s) -> legal_ev e (nr s) -> ev_dgram e <= D -> S + ev_sent e + wnd_base D < U64_MOD ->
  exists s', exec_cc now e s = (Ok tt, s') /\ nr_inv D (S + ev_sent e) (G + ev_gone e) (A + ev_acked e) (nr s').
Proof.
  intros H Hl HD HS.
  assert (Hu : forall x, 0 <= x <= bytes_in_flight (nr s) ->
            u64 (bytes_in_flight (nr s) - x) = bytes_in_flight (nr s) - x).
  { intros x Hx. nr_start H. apply u64_id. unfold U64_MOD in *. destruct e; cbn in *; lia. }
  destruct e; cbn [exec_cc ev_sent ev_gone ev_acked legal_ev] in *; rewrite ?Z.add_0_r in *.
  - destruct (sent_leaves n s) as (s' & E & Er). exists s'. split; [exact E|]. rewrite Er. nr_start H.
    rewrite u64_id by (unfold U64_MOD in *; lia). destruct (nr s); nr_done.
  - destruct (acked_leaves i s) as (s' & E & Er). exists s'. split; [exact E|]. rewrite Er. rewrite Hu by done.
    apply nr_inv_grown; [lia|..|done]; nr_start H; destruct (nr s); nr_done || (cbn in *; unfold wnd_base, MIN_MAX_INIT_WND_SIZE; lia).
  - destruct (lost_leaves i s) as (s' & E & Er); [lia|]. exists s'. split; [exact E|]. rewrite Er. rewrite Hu by done.
    nr_start H. unfold lossy. destruct (nr s); cbn in *. repeat case_match; nr_done.
  - destruct (flush_leaves now flags s) as (s' & E & Er). exists s'. split; [exact E|]. rewrite Er. by apply nr_inv_flushed.
  - destruct (invalidated_leaves n s) as (s' & E & Er). exists s'. split; [exact E|]. rewrite Er. rewrite Hu by done.
    nr_start H. destruct (nr s); nr_done.
  - destruct (ecn_leaves now i s) as (s' & E & Er). exists s'. split; [exact E|]. rewrite Er.
    apply nr_inv_flushed; [done|]. nr_start H. destruct (nr s); nr_done.
  - eexists; split; [done|]. cbn [snd]. destruct (set_input_params_cases params s Hl) as [->|[Hv ->]]; [done|].
    by apply nr_inv_resized.
Qed.

Lemma legal_ev_sent e r : legal_ev e r -> 0 <= ev_sent e.
Proof. destruct e; cbn; lia. Qed.

Lemma legal_total now es : forall s, legal now es s -> 0 <= total ev_sent es.
Proof.
  induction es as [|e es IH]; intros s; cbn [legal total foldr]; [lia|]. intros [He Hes].
  apply legal_ev_sent in He. apply IH in Hes. unfold total in Hes. lia.
Qed.

Lemma nr_inv_run now D es : forall S G A s,
  nr_inv D S G A (nr s) -> legal now es s -> largest_dgram es <= D -> S + total ev_sent es + wnd_base D < U64_MOD ->
  exists s', exec_ccs now es s = (Ok tt, s') /\
    nr_inv D (S + total ev_sent es) (G + total ev_gone es) (A + total ev_acked es) (nr s').
Proof.
  induction es as [|e es IH]; intros S G A s H Hl HD HS; cbn [total foldr exec_ccs legal largest_dgram] in *.
  { exists s. rewrite !Z.add_0_r. done. }
  destruct Hl as [He Hes]. pose proof (legal_total _ _ _ Hes) as Ht. unfold total in Ht.
  destruct (nr_inv_step now D S G A e s H He) as (s1 & E1 & H1); [lia..|].
  rewrite E1 in Hes. cbn in Hes.
  destruct (IH _ _ _ s1 H1 Hes) as (s2 & E2 & H2); [unfold largest_dgram; lia|unfold total; lia|].
  exists s2. rewrite (bind_ok _ _ _ _ _ E1). split; [done|]. unfold total in *.
  by rewrite !Z.add_assoc.
Qed.

(** No event takes the window below two datagrams: afterwards it has two, or the event
    lowered neither the window nor the size of a datagram. *)
Definition two_datagrams (r r' : OSSL_CC_NEWRENO) : Prop :=
  2 * max_dgram_size r' <= cong_wnd r' \/
  (max_dgram_size r <= max_dgram_size r' /\ cong_wnd r <= cong_wnd r').

Lemma flushed_floor f t r : k_min_wnd r = 2 * max_dgram_size r -> two_datagrams r (flushed f t r).
Proof.
  intros Hm. assert (Hr : two_datagrams r (reduced (tx_time_of_last_loss r) t r) /\
    k_min_wnd (reduced (tx_time_of_last_loss r) t r) = 2 * max_dgram_size (reduced (tx_time_of_last_loss r) t r)).
  { unfold reduced, two_datagrams. destruct (newreno_in_cong_recovery _ _); [split; [right; lia|done]|].
    destruct (safe_muldiv _ _ _) as [x err]. generalize (if err : bool then UINT64_MAX else x) as h. intros h.
    destruct (Z.ltb_spec h (k_min_wnd r)); destruct r; cbn in *; lia. }
  unfold flushed. destruct (negb _); [right; lia|]. revert Hr. generalize (reduced (tx_time_of_last_loss r) t r) as r'.
  unfold two_datagrams. intros r' [H1 H2]. destruct (negb _); destruct r', r; cbn in *; lia.
Qed.

Lemma resized_floor v r : 1200 <= v -> two_datagrams r (resized v r).
Proof.
  intros Hv. unfold resized, two_datagrams, MIN_MAX_INIT_WND_SIZE.
  destruct (Z.ltb_spec v (max_dgram_size r)); destruct r; cbn in *; lia.
Qed.

Lemma nr_step_floor now D S G A e s s' :
  nr_inv D S G A (nr s) -> legal_ev e (nr s) -> S + wnd_base D < U64_MOD -> exec_cc now e s = (Ok tt, s') ->
  two_datagrams (nr s) (nr s').
Proof.
  intros H Hl HS E. assert (Hn : nr s' = nr (snd (exec_cc now e s))) by (by rewrite E).
  rewrite Hn. clear E Hn s'. pose proof (inv_min _ _ _ _ _ H) as Hm.
  destruct e; cbn [exec_cc legal_ev ev_gone] in *.
  - rewrite (leaves_det _ _ _ (sent_leaves n s)). right. by destruct (nr s).
  - rewrite (leaves_det _ _ _ (acked_leaves i s)). right. nr_start H. unfold U64_MOD in *.
    destruct (nr s) as [a1 a2 a3 a4 a5 dg fl w ss ba]. unfold grown. cbn in *.
    rewrite (u64_id (w + _)), (u64_id (ba + _)) by lia. repeat case_match; cbn in *; try lia.
    rewrite u64_id by lia. lia.
  - rewrite (leaves_det _ _ _ (lost_leaves i s ltac:(lia))). right. unfold lossy.
    destruct (nr s); cbn in *; repeat case_match; cbn; lia.
  - unfold newreno_on_data_lost_finished. rewrite (leaves_det _ _ _ (flush_leaves now flags s)). by apply flushed_floor.
  - rewrite (leaves_det _ _ _ (invalidated_leaves n s)). right. by destruct (nr s).
  - rewrite (leaves_det _ _ _ (ecn_leaves now i s)).
    pose proof (flushed_floor 0 (now (readings s)) (set_last_loss (largest_acked_time i) (set_bytes_acked 0 (set_processing_loss true (nr s))))) as Hf.
    unfold two_datagrams in *. revert Hf. generalize (flushed 0 (now (readings s)) (set_last_loss (largest_acked_time i) (set_bytes_acked 0 (set_processing_loss true (nr s))))).
    intros r'. destruct (nr s). cbn in *. auto.
  - cbn [snd]. destruct (set_input_params_cases params s Hl) as [->|[Hv ->]]; [right; lia|]. by apply resized_floor.
Qed.

Lemma largest_dgram_range now es : forall s, legal now es s -> QUIC_MIN_INITIAL_DGRAM_LEN <= largest_dgram es < 2 ^ 60.
Proof.
  induction es as [|e es IH]; intros s; cbn [legal largest_dgram foldr]; [unfold QUIC_MIN_INITIAL_DGRAM_LEN; lia|].
  intros [He Hes]. apply IH in Hes. assert (ev_dgram e < 2 ^ 60) by (destruct e; cbn in *; lia).
  unfold largest_dgram in Hes. lia.
Qed.

(** The new controller. *)
Definition newreno_initial (m : gmap nat Z) : option NR := fst (newreno_new [] m).

(** C28: whatever is sent, acknowledged, lost, invalidated, marked or reconfigured,
    the bytes in flight are those sent less those that left the network. The congestion
    window never falls below two of the smallest datagrams, and it exceeds the bytes
    acknowledged by at most the initial limit of 14720 bytes or two of the largest datagrams
    that were configured. A further event leaves a window of at least two datagrams of the
    present size, or it has lowered neither the window nor the size: only the choice of a larger
    size can make the window less than two datagrams. No 64-bit addition of the controller wraps
    as long as the bytes sent and this limit are below 2^64. *)
Theorem newreno_window_bounds now es m s :
  newreno_initial m = Some s -> legal now es s -> total ev_sent es + wnd_base (largest_dgram es) < U64_MOD ->
  exists s', exec_ccs now es s = (Ok tt, s') /\
    bytes_in_flight (nr s') = total ev_sent es - total ev_gone es /\
    2 * QUIC_MIN_INITIAL_DGRAM_LEN <= cong_wnd (nr s') <= wnd_base (largest_dgram es) + total ev_acked es /\
    newreno_get_tx_allowance (nr s') = Z.max 0 (cong_wnd (nr s') - bytes_in_flight (nr s')) /\
    forall e s'', legal_ev e (nr s') -> exec_cc now e s' = (Ok tt, s'') -> two_datagrams (nr s') (nr s'').
Proof.
  intros Hn Hl HS. destruct (nr_inv_run now (largest_dgram es) es 0 0 0 s) as (s' & E & H); [|done|lia|lia|].
  { pose proof (largest_dgram_range now es s Hl) as HD. unfold QUIC_MIN_INITIAL_DGRAM_LEN in HD.
    assert (Hi : (bytes_in_flight (nr s), max_dgram_size (nr s), k_min_wnd (nr s), cong_wnd (nr s), bytes_acked (nr s),
      k_loss_reduction_factor_num (nr s), k_loss_reduction_factor_den (nr s)) = (0, 1200, 2400, 12000, 0, 1, 2))
      by (injection Hn as <-; reflexivity).
    injection Hi as H1 H2 H3 H4 H5 H6 H7. split; rewrite ?H1, ?H2, ?H3, ?H4, ?H5, ?H6, ?H7;
      unfold wnd_base, MIN_MAX_INIT_WND_SIZE, QUIC_MIN_INITIAL_DGRAM_LEN; lia. }
  exists s'. split; [done|]. split_and!; [nr_start H; lia|nr_start H; lia|nr_start H; lia| |].
  - nr_start H. unfold newreno_get_tx_allowance.
    destruct (Z.geb_spec (bytes_in_flight (nr s')) (cong_wnd (nr s'))); [lia|].
    rewrite u64_id by (unfold U64_MOD in *; lia). lia.
  - intros e s'' He Ee. by eapply nr_step_floor.
Qed.

Lemma newreno_window_bounds_witness :
  let s := snd ((newreno_set_max_dgram_size 1200 ;;; newreno_reset) (mkNR newreno_zero ∅ 0)) in
  let raise := mkParam OSSL_CC_OPTION_MAX_DGRAM_PAYLOAD_LEN true 8 None (Some 9000) in
  let es := [EvSent 11000; EvAcked (mkAckInfo 5 4000); EvLost (mkLossInfo 6 2000); EvLostFinished 0;
             EvSent 3000; EvAcked (mkAckInfo 30 1500); EvEcn (mkEcnInfo 31); EvInvalidated 500; EvParams [raise]] in
  exists s', exec_ccs (fun k => 20 + Z.of_nat k) es s = (Ok tt, s') /\
    bytes_in_flight (nr s') = 6000 /\ 2400 <= cong_wnd (nr s') <= 23500 /\ cong_wnd (nr s') < k_min_wnd (nr s') /\
    forall s'', exec_cc (fun k => 20 + Z.of_nat k) (EvEcn (mkEcnInfo 100)) s' = (Ok tt, s'') ->
      two_datagrams (nr s') (nr s'').
Proof.
  intros s raise es.
  destruct (newreno_window_bounds (fun k => 20 + Z.of_nat k) es ∅ s) as (s' & E & Hb & Hw & _ & Hf).
  - reflexivity.
  - vm_compute. intuition discriminate.
  - reflexivity.
  - exists s'. split; [exact E|]. split; [exact Hb|]. split; [exact Hw|]. split.
    + vm_compute in E. injection E as <-. reflexivity.
    + intros s'' E''. apply (Hf (EvEcn (mkEcnInfo 100))); [|exact E'']. cbn [legal_ev ev_gone]. rewrite Hb. vm_compute. intuition discriminate.
Defined.

(** ** One reduction for each round trip *)

(** Reports about packets sent no later than [t], without persistent congestion. *)
Definition old_event (t : OSSL_TIME) (e : cc_event) : Prop :=
  match e with
  | EvLost i => loss_tx_time i <= t
  | EvEcn i => largest_acked_time i <= t
  | EvLostFinished flags => Z.land flags OSSL_CC_LOST_FLAG_PERSISTENT_CONGESTION = 0
  | EvParams _ => False
  | _ => True
  end.

(** A recovery period that began at [t] with a window of [w]. *)
Record recovering (t : OSSL_TIME) (w : Z) (r : OSSL_CC_NEWRENO) : Prop := {
  rec_start : cong_recovery_start_time r = t;
  rec_loss : tx_time_of_last_loss r <= t;
  rec_wnd : w <= cong_wnd r
}.

Lemma in_cong_recovery_spec r t : newreno_in_cong_recovery r t = (t <=? cong_recovery_start_time r).
Proof.
  unfold newreno_in_cong_recovery, ossl_time_compare. unfold OSSL_TIME in *.
  destruct (Z.gtb_spec t (cong_recovery_start_time r)), (Z.ltb_spec t (cong_recovery_start_time r)),
    (Z.leb_spec t (cong_recovery_start_time r)); lia || done.
Qed.

Lemma grown_recovering t w D S G A i r :
  nr_inv D S G A r -> 0 <= ack_tx_size i -> A + ack_tx_size i + wnd_base D < U64_MOD ->
  recovering t w r -> recovering t w (grown i r).
Proof.
  intros H Hi HA [H1 H2 H3]. nr_start H. unfold U64_MOD, grown in *.
  rewrite (u64_id (cong_wnd r + _)), (u64_id (bytes_acked r + _)) by lia.
  destruct (negb _); [done|]. destruct (newreno_in_cong_recovery _ _); [done|].
  destruct (_ <? _); [destruct r; split; cbn in *; done || lia|].
  destruct (Z.geb_spec (bytes_acked r + ack_tx_size i) (cong_wnd r)); [|by destruct r].
  rewrite (u64_id (cong_wnd r + _)) by lia. destruct r; split; cbn in *; done || lia.
Qed.

Lemma flushed_recovering t w f start r :
  Z.land f OSSL_CC_LOST_FLAG_PERSISTENT_CONGESTION = 0 -> recovering t w r -> recovering t w (flushed f start r).
Proof.
  intros Hf [H1 H2 H3]. unfold flushed, reduced. rewrite Hf. cbn [Z.eqb negb].
  destruct (negb _); [done|]. rewrite in_cong_recovery_spec, H1.
  assert (tx_time_of_last_loss r <=? t = true) as -> by (unfold OSSL_TIME in *; lia).
  by destruct r; split.
Qed.

Lemma lossy_recovering t w i r :
  loss_tx_time i <= t -> recovering t w r -> recovering t w (lossy i r).
Proof.
  intros Hi [H1 H2 H3]. unfold lossy. rewrite ossl_time_max_spec.
  destruct r; repeat case_match; split; cbn in *; unfold OSSL_TIME in *; lia.
Qed.

Lemma recovering_step now t w D S G A e s :
  nr_inv D S G A (nr s) -> legal_ev e (nr s) -> S + ev_sent e + wnd_base D < U64_MOD ->
  old_event t e -> recovering t w (nr s) -> recovering t w (nr (snd (exec_cc now e s))).
Proof.
  assert (Hset : forall v r, recovering t w r -> recovering t w (set_in_flight v r)) by (by intros v [] [? ? ?]).
  intros H Hl HS Ho Hr. destruct e; cbn [exec_cc ev_sent old_event legal_ev ev_gone] in *.
  - rewrite (leaves_det _ _ _ (sent_leaves n s)). auto.
  - rewrite (leaves_det _ _ _ (acked_leaves i s)).
    eapply (grown_recovering t w D (S - ack_tx_size i) G A); [| |pose proof (inv_totals _ _ _ _ _ H); pose proof (inv_flight _ _ _ _ _ H); lia|auto]; [|lia].
    assert (Hb : bytes_in_flight (nr s) - ack_tx_size i < 18446744073709551616)
      by (nr_start H; unfold U64_MOD in *; lia).
    rewrite u64_id by lia. nr_start H. destruct (nr s); nr_done.
  - destruct (Z.le_gt_cases (loss_tx_size i) (bytes_in_flight (nr s))); [|lia].
    rewrite (leaves_det _ _ _ (lost_leaves i s ltac:(done))). apply lossy_recovering; auto.
  - unfold newreno_on_data_lost_finished. rewrite (leaves_det _ _ _ (flush_leaves now flags s)).
    by apply flushed_recovering.
  - rewrite (leaves_det _ _ _ (invalidated_leaves n s)). auto.
  - rewrite (leaves_det _ _ _ (ecn_leaves now i s)). apply flushed_recovering; [done|].
    destruct Hr as [H1 H2 H3]. destruct (nr s); split; cbn in *; done.
  - done.
Qed.

Lemma recovering_run now t w D es : forall S G A s,
  nr_inv D S G A (nr s) -> legal now es s -> S + total ev_sent es + wnd_base D < U64_MOD ->
  Forall (old_event t) es -> recovering t w (nr s) ->
  exists s', exec_ccs now es s = (Ok tt, s') /\ recovering t w (nr s').
Proof.
  induction es as [|e es IH]; intros S G A s H Hl HS Ho Hr; cbn [total foldr exec_ccs legal] in *; [by exists s|].
  destruct Hl as [He Hes]. apply Forall_cons_1 in Ho as [Ho Hos].
  pose proof (legal_total _ _ _ Hes) as Ht. unfold total in Ht.
  destruct (nr_inv_step now D S G A e s H He) as (s1 & E1 & H1).
  { pose proof (inv_dgram _ _ _ _ _ H) as Hd. unfold QUIC_MIN_INITIAL_DGRAM_LEN in Hd. destruct e; cbn in *; lia || done. }
  { lia. }
  assert (Hr1 : recovering t w (nr s1)).
  { replace s1 with (snd (exec_cc now e s)) by (by rewrite E1). apply (recovering_step now t w D S G A); auto. lia. }
  rewrite E1 in Hes. rewrite (bind_ok _ _ _ _ _ E1).
  apply (IH _ _ _ s1 H1 Hes); [unfold total; lia|done..].
Qed.

(** a loss of packets sent after the last recovery period began halves the
    window, down to the minimum at most, and starts a recovery period; no further
    loss or mark of packets sent before that moment lowers the window again, however
    the reports are interleaved with other traffic. *)
Theorem newreno_one_reduction now D S G A s s1 es :
  nr_inv D S G A (nr s) -> processing_loss (nr s) = true ->
  cong_recovery_start_time (nr s) < tx_time_of_last_loss (nr s) <= now (readings s) ->
  newreno_on_data_lost_finished now 0 s = (Ok tt, s1) ->
  Forall (old_event (now (readings s))) es -> legal now es s1 ->
  S + total ev_sent es + wnd_base D < U64_MOD ->
  cong_wnd (nr s1) = Z.max (k_min_wnd (nr s)) (cong_wnd (nr s) / 2) /\
  exists s2, exec_ccs now es s1 = (Ok tt, s2) /\ cong_wnd (nr s1) <= cong_wnd (nr s2).
Proof.
  intros H Hp Ht E1 Ho Hl HS. pose proof (legal_total _ _ _ Hl) as Hnn.
  pose proof (leaves_det _ _ _ (flush_leaves now 0 s)) as Er.
  unfold newreno_on_data_lost_finished in E1. rewrite E1 in Er. cbn [snd] in Er.
  assert (H1 : nr_inv D S G A (nr s1)) by (rewrite Er; apply nr_inv_flushed; [lia|done]).
  unfold flushed, reduced in Er. rewrite Hp, in_cong_recovery_spec in Er.
  replace (tx_time_of_last_loss (nr s) <=? cong_recovery_start_time (nr s)) with false in Er
    by (symmetry; unfold OSSL_TIME in *; lia).
  rewrite half_window in Er by (nr_start H; done || unfold is_u64, U64_MOD in *; lia).
  change (Z.land 0 OSSL_CC_LOST_FLAG_PERSISTENT_CONGESTION) with 0 in Er. cbn [negb Z.eqb] in Er.
  assert (Hw : cong_wnd (nr s1) = Z.max (k_min_wnd (nr s)) (cong_wnd (nr s) / 2)).
  { rewrite Er. generalize (cong_wnd (nr s) / 2) as h. intros h.
    destruct (Z.ltb_spec h (k_min_wnd (nr s))); destruct (nr s); cbn in *; lia. }
  split; [done|].
  destruct (recovering_run now (now (readings s)) (cong_wnd (nr s1)) D es S G A s1) as (s2 & E2 & [_ _ Hr2]);
    [done..| |by exists s2].
  rewrite Er. destruct (nr s); split; cbn in *; done || unfold OSSL_TIME in *; lia.
Qed.

Lemma newreno_one_reduction_witness :
  let now := fun k => 20 + Z.of_nat k in
  let s := snd ((newreno_set_max_dgram_size 1200 ;;; newreno_reset ;;; newreno_on_data_sent 11000 ;;;
                 newreno_on_data_lost (mkLossInfo 6 2000)) (mkNR newreno_zero ∅ 0)) in
  let s1 := snd (newreno_on_data_lost_finished now 0 s) in
  let es := [EvLost (mkLossInfo 9 1200); EvLostFinished 0; EvSent 3000; EvEcn (mkEcnInfo 20)] in
  cong_wnd (nr s1) = Z.max (k_min_wnd (nr s)) (cong_wnd (nr s) / 2) /\
  exists s2, exec_ccs now es s1 = (Ok tt, s2) /\ cong_wnd (nr s1) <= cong_wnd (nr s2).
Proof.
  intros now s s1 es. apply (newreno_one_reduction now 1200 11000 2000 0).
  - split; vm_compute; intuition discriminate.
  - reflexivity.
  - vm_compute. intuition discriminate.
  - reflexivity.
  - repeat constructor; vm_compute; intuition discriminate.
  - vm_compute. intuition discriminate.
  - reflexivity.
Defined.
