(* ===== verification/SFrameList.v ===== *)
(** The list of received stream frames: include/internal/quic_sf_list.h and
    ssl/quic/quic_sf_list.c.

    The doubly linked list is a list of frames. A frame holds the bytes its data
    pointer leads to, or nothing for NULL, and the packet it keeps a reference on.
    The references held on packets are a multiset, so that a release without a
    reference is seen; erasing the bytes of a packet that is released has no effect
    that the model can observe. *)

From Stdlib Require Import ZArith Lia.
From stdpp Require Import base list numbers sets.
From S2P Require Import Prelude UintSet.

#[local] Open Scope cfun_scope.

(** ** Definitions *)

Record STREAM_FRAME := mkFrame {
  range : UINT_RANGE;
  pkt : option nat;
  data : option (list Z)
}.

Record SFRAME_LIST := mkFl {
  frames : list STREAM_FRAME;
  fin : bool;
  num_frames : Z;
  offset : Z;
  head_locked : bool;
  cleanse : bool
}.

(** The list, the references held on packets, and the allocator. *)
Record SF := mkSF { fl : SFRAME_LIST; refs : list nat; sf_heap : oracle }.

Definition fl_set (f : SFRAME_LIST -> SFRAME_LIST) : M SF unit :=
  modify (fun s => mkSF (f (fl s)) (refs s) (sf_heap s)).

Definition set_frames (l : list STREAM_FRAME) (x : SFRAME_LIST) : SFRAME_LIST :=
  mkFl l (fin x) (num_frames x) (offset x) (head_locked x) (cleanse x).
Definition set_fin (b : bool) (x : SFRAME_LIST) : SFRAME_LIST :=
  mkFl (frames x) b (num_frames x) (offset x) (head_locked x) (cleanse x).
Definition set_num_frames (n : Z) (x : SFRAME_LIST) : SFRAME_LIST :=
  mkFl (frames x) (fin x) n (offset x) (head_locked x) (cleanse x).
Definition set_offset (o : Z) (x : SFRAME_LIST) : SFRAME_LIST :=
  mkFl (frames x) (fin x) (num_frames x) o (head_locked x) (cleanse x).
Definition set_head_locked (b : bool) (x : SFRAME_LIST) : SFRAME_LIST :=
  mkFl (frames x) (fin x) (num_frames x) (offset x) b (cleanse x).
Definition set_cleanse (b : bool) (x : SFRAME_LIST) : SFRAME_LIST :=
  mkFl (frames x) (fin x) (num_frames x) (offset x) (head_locked x) b.

Definition ossl_qrx_pkt_up_ref (p : nat) : M SF unit :=
  modify (fun s => mkSF (fl s) (p :: refs s) (sf_heap s)).

(** One reference less on a packet, which must be there. *)
Fixpoint drop_ref (p : nat) (l : list nat) : option (list nat) :=
  match l with
  | [] => None
  | x :: l' => if Nat.eqb x p then Some l' else (x ::.) <$> drop_ref p l'
  end.

Definition ossl_qrx_pkt_release (p : option nat) : M SF unit :=
  match p with
  | None => ret tt
  | Some p => fun s => match drop_ref p (refs s) with
                       | Some l => (Ok tt, mkSF (fl s) l (sf_heap s))
                       | None => (Ub, s)
                       end
  end.

Definition stream_frame_free (sf : STREAM_FRAME) : M SF unit := ossl_qrx_pkt_release (pkt sf).

(** [Err] for NULL. *)
Definition stream_frame_new (range : UINT_RANGE) (pkt : option nat) (data : option (list Z)) : M SF STREAM_FRAME :=
  let! s := get in
  let (ok, o) := alloc (sf_heap s) in
  modify (fun s => mkSF (fl s) (refs s) o) ;;;
  if negb ok then fail
  else
    match pkt with Some p => ossl_qrx_pkt_up_ref p | None => ret tt end ;;;
    ret (mkFrame range pkt data).

Definition ossl_sframe_list_init : SFRAME_LIST := mkFl [] false 0 0 false false.

Fixpoint free_frames (l : list STREAM_FRAME) : M SF unit :=
  match l with
  | [] => ret tt
  | sf :: l' => stream_frame_free sf ;;; free_frames l'
  end.

(** The pointers of the list are left as they were. *)
Definition ossl_sframe_list_destroy : M SF unit := let! s := get in free_frames (frames (fl s)).

Definition append_frame (range : UINT_RANGE) (pkt : option nat) (data : option (list Z)) : M SF unit :=
  let! new_frame := stream_frame_new range pkt data in
  fl_set (fun x => set_num_frames (u64 (num_frames x + 1)) (set_frames (frames x ++ [new_frame]) x)).

(** The frames that start before [start_], and the rest. *)
Fixpoint split_before (start_ : Z) (l : list STREAM_FRAME) : list STREAM_FRAME * list STREAM_FRAME :=
  match l with
  | sf :: l' => if UintSet.start (range sf) <? start_
                then let (a, b) := split_before start_ l' in (sf :: a, b) else ([], l)
  | [] => ([], [])
  end.

(** Frees the frames that end no later than [limit]; the rest of the list. *)
Fixpoint drop_covered (limit : Z) (l : list STREAM_FRAME) : M SF (list STREAM_FRAME) :=
  match l with
  | sf :: l' =>
      if UintSet.end_ (range sf) <=? limit then
        fl_set (fun x => set_num_frames (u64 (num_frames x - 1)) x) ;;;
        stream_frame_free sf ;;;
        drop_covered limit l'
      else ret l
  | [] => ret []
  end.

(** The insertion after the debug check of the bounds; [x] is the list as it is on
    entry. *)
Definition sframe_list_place (x : SFRAME_LIST) (r : UINT_RANGE) (pkt : option nat) (data : option (list Z))
    (fin_ : bool) : M SF unit :=
  let end_label := fl_set (fun x => set_fin (fin_ || fin x) x) in
  if offset x >=? UintSet.end_ r then end_label
  else
    match list.last (frames x) with
    | None =>
        let! sf := stream_frame_new r pkt data in
        fl_set (fun x => set_num_frames (u64 (num_frames x + 1)) (set_frames [sf] x)) ;;; end_label
    | Some t =>
        if UintSet.start (range t) <? UintSet.start r then
          if UintSet.end_ (range t) >=? UintSet.end_ r then end_label
          else append_frame r pkt data ;;; end_label
        else
          let (before, after) := split_before (UintSet.start r) (frames x) in
          match after with
          | [] => fail
          | _ :: _ =>
              let prev_frame := list.last before in
              if (match prev_frame with Some p => UintSet.end_ (range p) >=? UintSet.end_ r | None => false end)
              then end_label
              else
                let! new_frame := stream_frame_new r pkt data in
                let! rest := drop_covered (UintSet.end_ r) after in
                if (match rest, prev_frame with
                    | next_frame :: _, Some p => UintSet.start (range next_frame) <=? UintSet.end_ (range p)
                    | _, _ => false
                    end)
                then
                  fl_set (set_frames (before ++ rest)) ;;; stream_frame_free new_frame ;;; end_label
                else
                  fl_set (fun x => set_num_frames (u64 (num_frames x + 1))
                                     (set_frames (before ++ new_frame :: rest) x)) ;;; end_label
          end
    end.

Definition ossl_sframe_list_insert (r : UINT_RANGE) (pkt : option nat) (data : option (list Z))
    (fin_ : bool) : M SF unit :=
  let! s := get in
  let curr_end := match list.last (frames (fl s)) with Some t => UintSet.end_ (range t) | None => offset (fl s) end in
  assert_ ((negb fin_ || (curr_end <=? UintSet.end_ r)) && (negb (fin (fl s)) || (curr_end >=? UintSet.end_ r))) ;;;
  sframe_list_place (fl s) r pkt data fin_.

(** An iterator: a frame and those that follow it. *)
Definition sf_iter : Type := option (STREAM_FRAME * list STREAM_FRAME).

Record peeked := mkPeeked {
  p_ret : bool;
  p_iter : sf_iter;
  p_range : UINT_RANGE;
  p_data : option (list Z);
  p_fin : bool
}.

Definition ossl_sframe_list_peek (x : SFRAME_LIST) (iter : sf_iter) : peeked :=
  let '(start_, rest) := match iter with
                         | None => (offset x, frames x)
                         | Some (sf, rest) => (UintSet.end_ (range sf), rest)
                         end in
  match rest with
  | [] => mkPeeked false None (mkRange start_ start_) None (fin x)
  | sf :: next =>
      if (UintSet.start (range sf) >? start_) || negb (start_ <? UintSet.end_ (range sf))
      then mkPeeked false None (mkRange start_ start_) None false
      else mkPeeked true (Some (sf, next)) (mkRange start_ (UintSet.end_ (range sf)))
             (zdrop (start_ - UintSet.start (range sf)) <$> data sf)
             (match next with [] => fin x | _ => false end)
  end.

Definition ossl_sframe_list_drop_frames (limit : Z) : M SF unit :=
  let! s := get in
  let tail := list.last (frames (fl s)) in
  if negb (limit >=? offset (fl s))
     || negb (match tail with None => true | Some t => limit <=? UintSet.end_ (range t) end)
     || negb (match tail with None => limit =? offset (fl s) | Some _ => true end)
  then fail
  else
    fl_set (set_offset limit) ;;;
    let! rest := drop_covered limit (frames (fl s)) in
    fl_set (set_frames rest) ;;;
    fl_set (set_head_locked false).

(** [None] when the head is locked already: the outputs are not written. *)
Definition ossl_sframe_list_lock_head : M SF (option peeked) :=
  let! s := get in
  if head_locked (fl s) then ret None
  else
    let p := ossl_sframe_list_peek (fl s) None in
    (if p_ret p then fl_set (set_head_locked true) else ret tt) ;;;
    ret (Some p).

Definition ossl_sframe_list_is_head_locked (x : SFRAME_LIST) : bool := head_locked x.

Section MoveData.
(** Side storage, and writing to it. *)
Context {T : Type} (write_at_cb : Z -> list Z -> M T unit).

Definition on_sf {A} (m : M SF A) : M (SF * T) A := zoom fst (fun s x => (s, snd x)) m.
Definition on_side {A} (m : M T A) : M (SF * T) A := zoom snd (fun t x => (fst x, t)) m.

(** One frame: its data is moved to the storage and its packet released, or does
    not fit; then the list is stored as it is so far. Beyond the end of the frame the length
    would wrap around and the storage read outside the data. *)
Definition move_frame (limit : Z) (before : list STREAM_FRAME) (prev_frame : option STREAM_FRAME)
    (sf : STREAM_FRAME) (next : list STREAM_FRAME) : M (SF * T) STREAM_FRAME :=
  match data sf with
  | None => ret sf
  | Some d =>
      if UintSet.end_ (range sf) <? limit then undef
      else fun s =>
        match on_side (write_at_cb limit (zdrop (limit - UintSet.start (range sf)) d)) s with
        | (Ok _, s) => (on_sf (ossl_qrx_pkt_release (pkt sf)) ;;; ret (mkFrame (range sf) None None)) s
        | (Err, s) => (on_sf (fl_set (set_frames (before ++ option_list prev_frame ++ sf :: next))) ;;; fail) s
        | (Ub, s) => (Ub, s)
        end
  end.

(** The loop: [before] are the frames it has left behind, [prev_frame] the last
    one of them unless the loop has not seen one yet. *)
Fixpoint move_loop (limit : Z) (before : list STREAM_FRAME) (prev_frame : option STREAM_FRAME)
    (l : list STREAM_FRAME) : M (SF * T) unit :=
  match l with
  | [] => on_sf (fl_set (set_frames (before ++ option_list prev_frame ++ [])))
  | sf :: next =>
      let limit := if limit <? UintSet.start (range sf) then UintSet.start (range sf) else limit in
      let! sf' := move_frame limit before prev_frame sf next in
      let limit := UintSet.end_ (range sf) in
      match prev_frame with
      | Some p =>
          if UintSet.end_ (range p) >=? UintSet.start (range sf) then
            on_sf (fl_set (fun x => set_num_frames (u64 (num_frames x - 1)) x)) ;;;
            on_sf (stream_frame_free sf') ;;;
            move_loop limit before
              (Some (mkFrame (mkRange (UintSet.start (range p)) (UintSet.end_ (range sf))) (pkt p) (data p))) next
          else move_loop limit (before ++ [p]) (Some sf') next
      | None => move_loop limit before (Some sf') next
      end
  end.

Definition ossl_sframe_list_move_data : M (SF * T) unit :=
  let! s := get in
  let x := fl (fst s) in
  match frames x with
  | [] => ret tt
  | sf :: next =>
      if head_locked x then move_loop (offset x) [sf] None next
      else move_loop (offset x) [] None (frames x)
  end.
End MoveData.

(** ** Lists of frames ordered by their bounds *)

Abbreviation st sf := (UintSet.start (range sf)).
Abbreviation en sf := (UintSet.end_ (range sf)).

(** Starts do not decrease from [s] on, and ends increase from [e] on. *)
Fixpoint chain (s e : Z) (l : list STREAM_FRAME) : Prop :=
  match l with
  | [] => True
  | sf :: l' => s <= st sf /\ e < en sf /\ chain (st sf) (en sf) l'
  end.

Definition last_start (s : Z) (l : list STREAM_FRAME) : Z := match list.last l with Some t => st t | None => s end.
Definition last_end (e : Z) (l : list STREAM_FRAME) : Z := match list.last l with Some t => en t | None => e end.

Lemma last_start_cons s sf l : last_start s (sf :: l) = last_start (st sf) l.
Proof. unfold last_start. rewrite last_cons. by destruct (list.last l). Qed.

Lemma last_end_cons e sf l : last_end e (sf :: l) = last_end (en sf) l.
Proof. unfold last_end. rewrite last_cons. by destruct (list.last l). Qed.

Lemma last_start_snoc s l sf : last_start s (l ++ [sf]) = st sf.
Proof. unfold last_start. by rewrite last_snoc. Qed.

Lemma last_end_snoc e l sf : last_end e (l ++ [sf]) = en sf.
Proof. unfold last_end. by rewrite last_snoc. Qed.

Lemma chain_app s e a b : chain s e (a ++ b) <-> chain s e a /\ chain (last_start s a) (last_end e a) b.
Proof.
  revert s e. induction a as [|sf a IH]; intros s e; cbn [chain app]; [unfold last_start, last_end; cbn; tauto|].
  rewrite last_start_cons, last_end_cons, IH. tauto.
Qed.

Lemma chain_weaken s e s' e' l : chain s e l -> s' <= s -> e' <= e -> chain s' e' l.
Proof. destruct l; cbn; [done|]. intros (? & ? & ?) ? ?. split_and!; [lia..|done]. Qed.

Lemma chain_last s e l : chain s e l -> s <= last_start s l /\ e <= last_end e l.
Proof.
  revert s e. induction l as [|x l IH]; intros s e; [unfold last_start, last_end; cbn; lia|].
  intros (H1 & H2 & H3). rewrite last_start_cons, last_end_cons. specialize (IH _ _ H3). lia.
Qed.

Lemma chain_bounds s e l sf : chain s e l -> sf ∈ l -> s <= st sf <= last_start s l /\ e < en sf <= last_end e l.
Proof.
  revert s e. induction l as [|x l IH]; intros s e H Hin; [by apply elem_of_nil in Hin|].
  destruct H as (H1 & H2 & H3). rewrite last_start_cons, last_end_cons.
  destruct (chain_last _ _ _ H3). apply elem_of_cons in Hin as [->|Hin]; [lia|].
  specialize (IH _ _ H3 Hin). lia.
Qed.

(** The offsets that the frames hold data for. *)
Definition covered (l : list STREAM_FRAME) (i : Z) : Prop := exists sf, sf ∈ l /\ st sf <= i < en sf.

Lemma covered_nil i : ~ covered [] i.
Proof. intros (sf & H & _). by apply elem_of_nil in H. Qed.

Lemma covered_cons sf l i : covered (sf :: l) i <-> st sf <= i < en sf \/ covered l i.
Proof.
  split.
  - intros (x & [->|Hx]%elem_of_cons & Hi); [by left|right; by exists x].
  - intros [H|(x & Hx & Hi)]; [exists sf|exists x]; set_solver.
Qed.

Lemma covered_app a b i : covered (a ++ b) i <-> covered a i \/ covered b i.
Proof. unfold covered. setoid_rewrite elem_of_app. naive_solver. Qed.

(** *** Splitting at a start, and dropping by an end *)

Lemma split_before_spec s l a b :
  split_before s l = (a, b) ->
  l = a ++ b /\ Forall (fun sf => st sf < s) a /\ match b with sf :: _ => s <= st sf | [] => True end.
Proof.
  revert a b. induction l as [|sf l IH]; intros a b; cbn [split_before]; [by intros [= <- <-]|].
  destruct (Z.ltb_spec (st sf) s); [|by intros [= <- <-]].
  destruct (split_before s l) as [a' b'] eqn:E. intros [= <- <-].
  destruct (IH _ _ eq_refl) as (-> & Ha & Hb). split_and!; [done|by constructor|done].
Qed.

(** What [drop_covered] leaves. *)
Fixpoint drop_le (limit : Z) (l : list STREAM_FRAME) : list STREAM_FRAME :=
  match l with
  | sf :: l' => if en sf <=? limit then drop_le limit l' else l
  | [] => []
  end.

Lemma drop_le_spec limit l :
  exists d, l = d ++ drop_le limit l /\ Forall (fun sf => en sf <= limit) d /\
            match drop_le limit l with sf :: _ => limit < en sf | [] => True end.
Proof.
  induction l as [|sf l (d & Hd & Ha & Hb)]; cbn [drop_le]; [by exists []|].
  destruct (Z.leb_spec (en sf) limit); [|by exists []].
  exists (sf :: d). split_and!; [cbn; by f_equal|by constructor|done].
Qed.

Lemma drop_le_chain limit s e l : chain s e l -> chain s (Z.max e limit) (drop_le limit l).
Proof.
  intros H. destruct (drop_le_spec limit l) as (d & Hd & Ha & Hb). rewrite Hd in H.
  apply chain_app in H as [H1 H2]. destruct (chain_last _ _ _ H1).
  destruct (drop_le limit l) as [|sf r]; [done|]. destruct H2 as (? & ? & ?). cbn. split_and!; [lia..|done].
Qed.

Lemma drop_le_covered limit l i : limit <= i -> covered (drop_le limit l) i <-> covered l i.
Proof.
  intros Hi. destruct (drop_le_spec limit l) as (d & Hd & Ha & Hb). rewrite Hd at 2. rewrite covered_app.
  split; [by right|]. intros [(sf & Hin & Hc)|?]; [|done].
  rewrite Forall_forall in Ha. specialize (Ha _ Hin). lia.
Qed.

(** *** The effect of an insertion on the list *)

Definition inserted (off : Z) (nf : STREAM_FRAME) (l : list STREAM_FRAME) : list STREAM_FRAME :=
  if off >=? en nf then l
  else
    match list.last l with
    | None => [nf]
    | Some t =>
        if st t <? st nf then if en t >=? en nf then l else l ++ [nf]
        else
          let (b, a) := split_before (st nf) l in
          let rest := drop_le (en nf) a in
          if (match list.last b with Some p => en p >=? en nf | None => false end) then l
          else if (match rest, list.last b with n :: _, Some p => st n <=? en p | _, _ => false end)
          then b ++ rest else b ++ nf :: rest
    end.

(** The new frame stands between what it follows and what is left of the rest. *)
Lemma splice_chain off nf b a :
  chain 0 off (b ++ a) -> Forall (fun sf => st sf < st nf) b ->
  match a with sf :: _ => st nf <= st sf | [] => True end ->
  0 <= st nf -> last_end off b < en nf -> chain 0 off (b ++ nf :: drop_le (en nf) a).
Proof.
  intros H Hb Ha Hs He. apply chain_app in H as [H1 H2]. apply chain_app. split; [done|].
  assert (Hls : last_start 0 b <= st nf).
  { unfold last_start. destruct (list.last b) as [t|] eqn:E; [|done].
    apply last_Some in E as [b' ->]. apply Forall_app in Hb as [_ [Hb _]%Forall_cons_1]. lia. }
  cbn. split_and!; [done..|]. destruct (drop_le_spec (en nf) a) as (d & Hd & _ & Hr).
  pose proof (drop_le_chain (en nf) _ _ _ H2) as H3.
  assert (Hst : match drop_le (en nf) a with sf :: _ => st nf <= st sf | [] => True end).
  { destruct (drop_le (en nf) a) as [|sf r]; [done|]. rewrite Hd in Ha, H2. destruct d as [|y d]; [done|].
    cbn in Ha, H2. destruct H2 as (_ & _ & H2). destruct (chain_bounds _ _ _ sf H2 ltac:(set_solver)). lia. }
  destruct (drop_le (en nf) a) as [|sf r]; [done|]. destruct H3 as (? & ? & ?). cbn. split_and!; [done..|done].
Qed.

Lemma splice_covered nf b a i :
  match a with sf :: _ => st nf <= st sf | [] => True end -> (forall s e, chain s e (b ++ a) ->
  covered (b ++ nf :: drop_le (en nf) a) i <-> covered (b ++ a) i \/ st nf <= i < en nf).
Proof.
  intros Ha s e H. apply chain_app in H as [_ H]. rewrite !covered_app, covered_cons.
  destruct (drop_le_spec (en nf) a) as (d & Hd & Hle & _).
  assert (Hcov : covered d i -> st nf <= i < en nf).
  { intros (sf & Hin & Hi). rewrite Forall_forall in Hle. specialize (Hle _ Hin).
    rewrite Hd in H, Ha. destruct d as [|y d]; [by apply elem_of_nil in Hin|]. cbn in H, Ha.
    destruct H as (_ & _ & H). apply elem_of_cons in Hin as [->|Hin]; [lia|].
    destruct (chain_bounds _ _ _ sf H ltac:(set_solver)). lia. }
  rewrite Hd at 2. rewrite covered_app. tauto.
Qed.

Lemma last_end_app off b a : last_end off (b ++ a) = last_end (last_end off b) a.
Proof.
  destruct (decide (a = [])) as [->|Ha].
  - by rewrite app_nil_r.
  - unfold last_end. rewrite (last_app b a). destruct (list.last a) eqn:E; [done|]. by apply last_None in E.
Qed.

Lemma splice_last off nf b a :
  chain 0 off (b ++ a) -> last_end off b < en nf ->
  last_end off (b ++ nf :: drop_le (en nf) a) = Z.max (last_end off (b ++ a)) (en nf).
Proof.
  intros H He. apply chain_app in H as [_ H]. rewrite !last_end_app, last_end_cons.
  destruct (drop_le_spec (en nf) a) as (d & Hd & Hle & Hr).
  rewrite Hd at 2. rewrite last_end_app. rewrite Hd in H. apply chain_app in H as [H1 H2].
  destruct (chain_last _ _ _ H1). destruct (drop_le (en nf) a) as [|sf r].
  - unfold last_end at 1 2. cbn. unfold last_end. destruct (list.last d) as [t|] eqn:E; [|fold (last_end off b); lia].
    apply last_Some in E as [d' ->]. apply Forall_app in Hle as [_ [Hle _]%Forall_cons_1]. lia.
  - rewrite !last_end_cons. destruct H2 as (_ & _ & H2). destruct (chain_last _ _ _ H2). lia.
Qed.

(** What an insertion achieves: the order is kept, the new offsets are covered, and
    the end moves up to that of the new frame. *)
Record adds (off : Z) (nf : STREAM_FRAME) (l l' : list STREAM_FRAME) : Prop := {
  adds_chain : chain 0 off l';
  adds_covered i : off <= i -> covered l' i <-> covered l i \/ st nf <= i < en nf;
  adds_end : last_end off l' = Z.max (last_end off l) (en nf)
}.

(** The new frame is redundant when its offsets are covered. *)
Lemma adds_nothing off nf l :
  chain 0 off l -> en nf <= last_end off l -> (forall i, off <= i -> st nf <= i < en nf -> covered l i) ->
  adds off nf l l.
Proof. intros H He Hc. split; [done| |lia]. intros i Hi. split; [by left|]. intros [?|?]; eauto. Qed.

Lemma adds_splice off nf b a :
  chain 0 off (b ++ a) -> Forall (fun sf => st sf < st nf) b ->
  match a with sf :: _ => st nf <= st sf | [] => True end ->
  0 <= st nf -> last_end off b < en nf -> adds off nf (b ++ a) (b ++ nf :: drop_le (en nf) a).
Proof.
  intros. split; [by apply splice_chain|intros; by eapply splice_covered|by apply splice_last].
Qed.

Lemma adds_gap_free off nf b a p n r :
  chain 0 off (b ++ a) -> Forall (fun sf => st sf < st nf) b ->
  match a with sf :: _ => st nf <= st sf | [] => True end ->
  0 <= st nf -> last_end off b < en nf ->
  list.last b = Some p -> drop_le (en nf) a = n :: r -> st n <= en p ->
  adds off nf (b ++ a) (b ++ n :: r).
Proof.
  intros H Hb Ha Hs He Hp Hr Hn.
  destruct (adds_splice off nf b a H Hb Ha Hs He) as [A1 A2 A3]. rewrite Hr in *.
  assert (Hpb : p ∈ b) by (apply last_Some in Hp as [b' ->]; set_solver).
  split.
  - apply chain_app in A1 as [A1 (? & ? & A4)]. apply chain_app. split; [done|].
    apply (chain_weaken _ _ _ _ _ A4); [done|lia].
  - intros i Hi. rewrite <-(A2 i Hi). rewrite !covered_app, !covered_cons. split; [tauto|].
    intros [?|[Hin|?]]; [tauto| |tauto].
    destruct (drop_le_spec (en nf) a) as (d & _ & _ & Hlt). rewrite Hr in Hlt.
    rewrite Forall_forall in Hb. specialize (Hb _ Hpb).
    destruct (decide (i < en p)); [left; exists p; split; [done|lia]|right; left; lia].
  - rewrite <-A3, !last_end_app, !last_end_cons. done.
Qed.

Lemma inserted_adds off nf l :
  chain 0 off l -> 0 <= st nf <= en nf -> adds off nf l (inserted off nf l).
Proof.
  intros H Hnf. unfold inserted. destruct (chain_last _ _ _ H) as [_ Hle].
  destruct (Z.geb_spec off (en nf)); [apply adds_nothing; [done|lia|lia]|].
  destruct (list.last l) as [t|] eqn:Ht.
  2: { apply last_None in Ht as ->. apply (adds_splice off nf [] []); cbn; try done; lia. }
  assert (Htl : t ∈ l) by (apply last_Some in Ht as [l0 ->]; set_solver).
  assert (Het : last_end off l = en t) by (unfold last_end; by rewrite Ht).
  destruct (Z.ltb_spec (st t) (st nf)).
  - destruct (Z.geb_spec (en t) (en nf)).
    + apply adds_nothing; [done|lia|]. intros i ? ?. exists t. split; [done|lia].
    + rewrite <-(app_nil_r l) at 1. apply (adds_splice off nf l []); rewrite ?app_nil_r; try done; [|lia..].
      apply Forall_forall. intros sf Hin. destruct (chain_bounds _ _ _ _ H Hin).
      unfold last_start in *. rewrite Ht in *. lia.
  - destruct (split_before (st nf) l) as [b a] eqn:Hsp.
    destruct (split_before_spec _ _ _ _ Hsp) as (-> & Hb & Ha).
    destruct (list.last b) as [p|] eqn:Hp.
    2: { apply last_None in Hp as ->.
         replace (match drop_le (en nf) a with [] | _ => false end) with false by (by destruct (drop_le _ _)).
         apply (adds_splice off nf [] a); cbn; try done; lia. }
    assert (Hpb : p ∈ b) by (apply last_Some in Hp as [b' ->]; set_solver).
    assert (Hep : last_end off b = en p) by (unfold last_end; by rewrite Hp).
    destruct (Z.geb_spec (en p) (en nf)).
    + apply adds_nothing; [done| |].
      * destruct (chain_bounds _ _ _ p H ltac:(set_solver)). lia.
      * intros i ? ?. exists p. rewrite Forall_forall in Hb. specialize (Hb _ Hpb). set_solver by lia.
    + pose proof (adds_splice off nf b a H Hb Ha ltac:(lia) ltac:(lia)) as Hs.
      destruct (drop_le (en nf) a) as [|n r] eqn:Hr; [done|].
      destruct (Z.leb_spec (st n) (en p)); [|done].
      by apply (adds_gap_free off nf b a p); try lia.
Qed.

(** The frames of the result are those of the list and the new one. *)
Lemma drop_le_incl limit l sf : sf ∈ drop_le limit l -> sf ∈ l.
Proof. destruct (drop_le_spec limit l) as (d & Hd & _). rewrite Hd at 2. set_solver. Qed.

Lemma inserted_incl off nf l sf : sf ∈ inserted off nf l -> sf = nf \/ sf ∈ l.
Proof.
  unfold inserted. destruct (split_before (st nf) l) as [b a] eqn:Hsp.
  apply split_before_spec in Hsp as (Hl & _). pose proof (drop_le_incl (en nf) a sf).
  repeat case_match; subst; set_solver.
Qed.

(** ** References on packets *)

(** The packets that the frames keep. *)
Abbreviation held l := (omap pkt l).

Lemma drop_ref_perm p l R : l ≡ₚ p :: R -> exists l', drop_ref p l = Some l' /\ l' ≡ₚ R.
Proof.
  revert R. induction l as [|x l IH]; intros R H; [by apply Permutation_nil_cons in H|]. cbn.
  destruct (Nat.eqb_spec x p) as [->|Hne].
  - exists l. split; [done|]. by apply Permutation_cons_inv in H.
  - assert (Hin : p ∈ l).
    { assert (p ∈ x :: l) as Hin by (rewrite H; set_solver). set_solver. }
    apply list_elem_of_split in Hin as (l1 & l2 & ->).
    destruct (IH (l1 ++ l2)) as (l' & -> & Hl'); [by rewrite <-Permutation_middle|].
    exists (x :: l'). split; [done|]. rewrite Hl'. apply (Permutation_cons_inv (a := p)). rewrite <-H.
    by rewrite Permutation_swap, <-Permutation_middle.
Qed.

Lemma release_ok p s R :
  refs s ≡ₚ option_list p ++ R ->
  exists l, ossl_qrx_pkt_release p s = (Ok tt, mkSF (fl s) l (sf_heap s)) /\ l ≡ₚ R.
Proof.
  destruct p as [p|]; cbn; intros H.
  - destruct (drop_ref_perm p _ R H) as (l & -> & Hl). by exists l.
  - exists (refs s). by destruct s.
Qed.

Lemma frame_new_ok r p d s o :
  alloc (sf_heap s) = (true, o) ->
  stream_frame_new r p d s = (Ok (mkFrame r p d), mkSF (fl s) (option_list p ++ refs s) o).
Proof. intros H. unfold stream_frame_new, bind, get, modify. rewrite H. by destruct p. Qed.

Lemma new_err r p d s o :
  alloc (sf_heap s) = (false, o) ->
  stream_frame_new r p d s = (Err, mkSF (fl s) (refs s) o) /\ sf_heap s = false :: o.
Proof.
  intros H. unfold stream_frame_new, bind, get, modify. rewrite H. split; [done|].
  destruct (sf_heap s) as [|b o']; cbn in H; congruence.
Qed.

Lemma drop_covered_ok limit l : forall s R,
  refs s ≡ₚ held l ++ R -> zlen l <= num_frames (fl s) < U64_MOD ->
  exists k, drop_covered limit l s =
    (Ok (drop_le limit l),
     mkSF (set_num_frames (num_frames (fl s) - (zlen l - zlen (drop_le limit l))) (fl s)) k (sf_heap s)) /\
    k ≡ₚ held (drop_le limit l) ++ R.
Proof.
  assert (Hsame : forall x, set_num_frames (num_frames x) x = x) by (by intros []).
  induction l as [|sf l IH]; intros s R HR Hn; cbn [drop_covered drop_le].
  - exists (refs s). rewrite Z.sub_diag, Z.sub_0_r, Hsame. by destruct s.
  - destruct (Z.leb_spec (en sf) limit).
    2: { exists (refs s). rewrite Z.sub_diag, Z.sub_0_r, Hsame. by destruct s. }
    rewrite zlen_cons in Hn |- *. pose proof (zlen_nonneg l).
    unfold fl_set, bind at 1, modify. cbv beta iota.
    destruct (release_ok (pkt sf) (mkSF (set_num_frames (u64 (num_frames (fl s) - 1)) (fl s)) (refs s) (sf_heap s))
                (held l ++ R)) as (k & E & Hk).
    { cbn [refs]. rewrite HR. cbn. by destruct (pkt sf). }
    rewrite (bind_ok _ _ _ _ _ E). rewrite u64_id by (unfold U64_MOD in *; lia). cbn [fl sf_heap].
    destruct (IH (mkSF (set_num_frames (num_frames (fl s) - 1) (fl s)) k (sf_heap s)) R Hk) as (k' & E' & Hk').
    { cbn. unfold U64_MOD in *. lia. }
    exists k'. split; [|done]. rewrite E'. cbn [fl sf_heap].
    replace (num_frames (fl s) - (1 + zlen l - zlen (drop_le limit l)))
      with (num_frames (fl s) - 1 - (zlen l - zlen (drop_le limit l))) by lia. done.
Qed.

Lemma free_frames_ok l : forall s R,
  refs s ≡ₚ held l ++ R -> exists k, free_frames l s = (Ok tt, mkSF (fl s) k (sf_heap s)) /\ k ≡ₚ R.
Proof.
  induction l as [|sf l IH]; intros s R HR; cbn [free_frames].
  - exists (refs s). by destruct s.
  - destruct (release_ok (pkt sf) s (held l ++ R)) as (k & E & Hk).
    { rewrite HR. cbn. by destruct (pkt sf). }
    unfold stream_frame_free. rewrite (bind_ok _ _ _ _ _ E). exact (IH (mkSF _ k _) R Hk).
Qed.

(** ** The invariant of a list of frames of one stream *)

(** The frames of a stream with the contents [f], of which no more than [F] bytes
    are ever sent. *)
Section Stream.
Context (f : Z -> Z) (F : Z).

Definition frame_ok (sf : STREAM_FRAME) : Prop :=
  0 <= st sf <= en sf /\ en sf <= F /\
  forall d, data sf = Some d -> zlen d = en sf - st sf /\ forall i, st sf <= i < en sf -> znth (i - st sf) d = f i.

Record fl_inv (x : SFRAME_LIST) : Prop := {
  fl_chain : chain 0 (offset x) (frames x);
  fl_frames : Forall frame_ok (frames x);
  fl_num : num_frames x = zlen (frames x);
  fl_offset : 0 <= offset x <= F;
  fl_fin : fin x = true -> last_end (offset x) (frames x) = F
}.

(** The list holds one reference for each frame with a packet. *)
Definition sf_inv (s : SF) : Prop := fl_inv (fl s) /\ refs s ≡ₚ held (frames (fl s)).

Lemma chain_len s e l : chain s e l -> zlen l <= last_end e l - e.
Proof.
  revert s e. induction l as [|sf l IH]; intros s e; cbn [chain].
  - unfold last_end. cbn. intros _. change (zlen (@nil STREAM_FRAME)) with 0. lia.
  - intros (_ & ? & H). rewrite zlen_cons, last_end_cons. specialize (IH _ _ H). lia.
Qed.

Lemma last_end_le x : fl_inv x -> offset x <= last_end (offset x) (frames x) <= F.
Proof.
  intros [H1 H2 _ H4 _]. destruct (chain_last _ _ _ H1) as [_ ?]. split; [done|].
  unfold last_end. destruct (list.last (frames x)) as [t|] eqn:E; [|lia].
  apply last_Some in E as [l E]. rewrite E in H2. apply Forall_app in H2 as [_ [(_ & ? & _) _]%Forall_cons_1]. done.
Qed.

Lemma num_frames_bound x : fl_inv x -> 0 <= num_frames x <= F.
Proof.
  intros H. pose proof (last_end_le _ H). destruct H as [H1 _ -> H4 _]. pose proof (chain_len _ _ _ H1).
  pose proof (zlen_nonneg (frames x)). lia.
Qed.

Context (HF : F < 4611686018427387904).

Definition after_insert (x : SFRAME_LIST) (nf : STREAM_FRAME) (fin_ : bool) : SFRAME_LIST :=
  let l := inserted (offset x) nf (frames x) in
  mkFl l (fin_ || fin x) (zlen l) (offset x) (head_locked x) (cleanse x).

Lemma after_insert_inv x nf fin_ :
  fl_inv x -> frame_ok nf -> (fin_ = true -> en nf = F) -> fl_inv (after_insert x nf fin_).
Proof.
  intros H Hnf Hfin. pose proof (last_end_le _ H) as Hle. destruct H as [H1 H2 H3 H4 H5].
  pose proof Hnf as (Hb & HbF & _).
  destruct (inserted_adds (offset x) nf (frames x) H1 Hb) as [A1 A2 A3].
  split; cbn; [done| |done|done|].
  - apply Forall_forall. intros sf [->|Hin]%inserted_incl; [done|]. rewrite Forall_forall in H2. auto.
  - rewrite A3. destruct fin_; cbn; [|intros Hx; rewrite H5 by done; lia].
    intros _. rewrite Hfin in * by done. lia.
Qed.

Lemma end_label_run fin_ s n l k o :
  fl_set (fun x => set_fin (fin_ || fin x) x) (mkSF (set_num_frames n (set_frames l (fl s))) k o) =
  (Ok tt, mkSF (mkFl l (fin_ || fin (fl s)) n (offset (fl s)) (head_locked (fl s)) (cleanse (fl s))) k o).
Proof. done. Qed.

(** The outcome of an insertion: it succeeds, or the allocator fails and nothing
    changes. *)
Definition insert_outcome (s : SF) (r : UINT_RANGE) (p : option nat) (d : option (list Z)) (fin_ : bool) : Prop :=
  let nf := mkFrame r p d in
  (exists k o, ossl_sframe_list_insert r p d fin_ s = (Ok tt, mkSF (after_insert (fl s) nf fin_) k o) /\
               k ≡ₚ held (frames (after_insert (fl s) nf fin_)))
  \/ (exists o, sf_heap s = false :: o /\ ossl_sframe_list_insert r p d fin_ s = (Err, mkSF (fl s) (refs s) o)).

Lemma insert_unchanged s nf fin_ :
  sf_inv s -> inserted (offset (fl s)) nf (frames (fl s)) = frames (fl s) ->
  exists k o, fl_set (fun x => set_fin (fin_ || fin x) x) s = (Ok tt, mkSF (after_insert (fl s) nf fin_) k o) /\
              k ≡ₚ held (frames (after_insert (fl s) nf fin_)).
Proof.
  intros [H Hr] Hi. exists (refs s), (sf_heap s). cbn. unfold after_insert. rewrite Hi. split; [|done].
  unfold fl_set, modify. rewrite <-(fl_num _ H). by destruct s as [[] ? ?].
Qed.

(** The part of an insertion that replaces the frames [a] by the new one and what
    remains of them. *)
Lemma insert_replace s r p d b a o :
  sf_inv s -> frames (fl s) = b ++ a ->
  let nf := mkFrame r p d in
  let rest := drop_le (UintSet.end_ r) a in
  exists k1 k2, k1 ≡ₚ held (b ++ nf :: rest) /\ k2 ≡ₚ held (b ++ rest) /\
    drop_covered (UintSet.end_ r) a (mkSF (fl s) (option_list p ++ refs s) o) =
      (Ok rest, mkSF (set_num_frames (zlen (b ++ rest)) (fl s)) k1 o) /\
    (forall y, stream_frame_free nf (mkSF y k1 o) = (Ok tt, mkSF y k2 o)).
Proof.
  intros [H HR] Hl nf rest. rewrite Hl in HR.
  pose proof (num_frames_bound _ H) as Hn. pose proof (fl_num _ H) as Hnum. rewrite Hl, zlen_app in Hnum.
  pose proof (zlen_nonneg b). unfold nf.
  destruct (drop_covered_ok (UintSet.end_ r) a (mkSF (fl s) (option_list p ++ refs s) o) (option_list p ++ held b))
    as (k & E & Hk).
  { cbn [refs]. rewrite HR, omap_app. solve_Permutation. }
  { cbn [fl]. unfold U64_MOD. lia. }
  assert (Hk1 : k ≡ₚ option_list p ++ held (b ++ rest)).
  { rewrite Hk, omap_app. fold rest. solve_Permutation. }
  destruct (release_ok p (mkSF (fl s) k o) (held (b ++ rest)) Hk1) as (k2 & E2 & Hk2).
  exists k, k2. split_and!; [|done| |].
  - rewrite Hk1, !omap_app. cbn. destruct p; cbn; solve_Permutation.
  - rewrite E. cbn [fl sf_heap]. fold rest. rewrite Hnum, zlen_app.
    by replace (zlen b + zlen a - (zlen a - zlen rest)) with (zlen b + zlen rest) by lia.
  - intros y. unfold stream_frame_free. cbn [pkt]. destruct p as [p|]; cbn in *.
    + unfold ossl_qrx_pkt_release in *. cbn in *. destruct (drop_ref p k); by simplify_eq.
    + unfold ret in *. by simplify_eq.
Qed.

Lemma drop_le_len limit l : zlen (drop_le limit l) <= zlen l.
Proof.
  destruct (drop_le_spec limit l) as (d & Hd & _). rewrite Hd at 2. rewrite zlen_app.
  pose proof (zlen_nonneg d). lia.
Qed.

Lemma insert_run s r p d fin_ :
  fl_inv (fl s) -> UintSet.end_ r <= F -> (fin_ = true -> UintSet.end_ r = F) ->
  ossl_sframe_list_insert r p d fin_ s = sframe_list_place (fl s) r p d fin_ s.
Proof.
  intros H Hr Hfin. unfold ossl_sframe_list_insert. rewrite (bind_ok get _ s s s eq_refl).
  fold (last_end (offset (fl s)) (frames (fl s))). rewrite (bind_ok _ _ s tt s); [done|].
  replace (_ && _) with true; [done|]. symmetry.
  pose proof (last_end_le _ H). pose proof (fl_fin _ H) as Hf.
  destruct fin_, (fin (fl s)); cbn; rewrite ?Hfin, ?Hf in * by done; lia.
Qed.

Lemma insert_ok s r p d fin_ :
  sf_inv s -> frame_ok (mkFrame r p d) -> (fin_ = true -> UintSet.end_ r = F) -> insert_outcome s r p d fin_.
Proof.
  intros Hs Hnf Hfin. pose proof Hs as [H HR]. pose proof Hnf as (Hb & HbF & _). cbn in Hb, HbF.
  unfold insert_outcome. rewrite insert_run by done. set (nf := mkFrame r p d) in *.
  assert (Hun : inserted (offset (fl s)) nf (frames (fl s)) = frames (fl s) ->
    exists k o, fl_set (fun x => set_fin (fin_ || fin x) x) s = (Ok tt, mkSF (after_insert (fl s) nf fin_) k o) /\
              k ≡ₚ held (frames (after_insert (fl s) nf fin_))) by (by apply insert_unchanged).
  pose proof (num_frames_bound _ H) as Hn. pose proof (fl_num _ H) as Hnum.
  unfold after_insert, inserted, sframe_list_place in *. cbn [en st range nf] in *.
  destruct (offset (fl s) >=? UintSet.end_ r); [left; by apply Hun|].
  destruct (list.last (frames (fl s))) as [t|] eqn:Ht.
  - destruct (Z.ltb_spec (st t) (UintSet.start r)).
    + destruct (en t >=? UintSet.end_ r); [left; by apply Hun|].
      destruct (alloc (sf_heap s)) as [[] o] eqn:Ho.
      * left. exists (option_list p ++ refs s), o. unfold append_frame, bind. rewrite (frame_new_ok r p d s o Ho).
        cbn. rewrite Hnum, zlen_app. rewrite u64_id by lia. split; [done|].
        rewrite HR, omap_app. cbn. destruct p; cbn; solve_Permutation.
      * right. exists o. destruct (new_err r p d s o Ho) as [En Eo]. split; [done|].
        unfold append_frame, bind. by rewrite En.
    + destruct (split_before (UintSet.start r) (frames (fl s))) as [b a] eqn:Hsp.
      destruct (split_before_spec _ _ _ _ Hsp) as (Hl & Hbef & Ha).
      destruct a as [|x a'].
      { exfalso. rewrite app_nil_r in Hl. apply last_Some in Ht as [l0 Ht]. rewrite <-Hl, Ht in Hbef.
        apply Forall_app in Hbef as [_ [Hbef _]%Forall_cons_1]. cbn in Hbef. lia. }
      revert Ha. set (a := x :: a') in *. intros Ha.
      destruct (match list.last b with Some p => _ | None => false end); [left; by apply Hun|].
      destruct (alloc (sf_heap s)) as [[] o] eqn:Ho.
      2: { right. exists o. destruct (new_err r p d s o Ho) as [En Eo]. split; [done|].
           unfold bind at 1. by rewrite En. }
      left. destruct (insert_replace s r p d b a o Hs Hl) as (k1 & k2 & Hk1 & Hk2 & Ed & Ef).
      rewrite (bind_ok _ _ _ _ _ (frame_new_ok r p d s o Ho)), (bind_ok _ _ _ _ _ Ed).
      set (rest := drop_le _ a) in *.
      match goal with |- context [if ?c then (fl_set _ ;;; _) else _] => destruct c end.
      * exists k2, o. unfold bind at 1. cbn [fl_set modify]. cbv beta iota.
        rewrite (bind_ok _ _ _ _ _ (Ef _)). split; [done|exact Hk2].
      * exists k1, o. split; [|exact Hk1]. pose proof (drop_le_len (UintSet.end_ r) a) as Hlen. fold rest in Hlen.
        assert (Hz : zlen (b ++ nf :: rest) = zlen (b ++ rest) + 1) by (rewrite !zlen_app, zlen_cons; lia).
        rewrite Hl, zlen_app in Hnum. pose proof (zlen_nonneg (b ++ rest)).
        clearbody rest. unfold bind. cbn. fold nf. rewrite Hz, u64_id; [done|]. rewrite zlen_app in *. lia.
  - apply last_None in Ht. destruct (alloc (sf_heap s)) as [[] o] eqn:Ho.
    + left. exists (option_list p ++ refs s), o. unfold bind. rewrite (frame_new_ok r p d s o Ho).
      cbn. rewrite Hnum, Ht. split; [done|]. rewrite HR, Ht. cbn. destruct p; done.
    + right. exists o. destruct (new_err r p d s o Ho) as [En Eo]. split; [done|]. unfold bind. by rewrite En.
Qed.

(** ** Dropping what was read *)

Definition after_drop (x : SFRAME_LIST) (limit : Z) : SFRAME_LIST :=
  let l := drop_le limit (frames x) in mkFl l (fin x) (zlen l) limit false (cleanse x).

Lemma drop_le_last_end limit e l :
  chain 0 e l -> e <= limit <= last_end e l -> last_end limit (drop_le limit l) = last_end e l.
Proof.
  intros H Hl. destruct (drop_le_spec limit l) as (d & Hd & Hle & Hr).
  rewrite Hd in H, Hl. rewrite Hd at 2. rewrite last_end_app in *.
  apply chain_app in H as [H1 _]. destruct (drop_le limit l) as [|sf r]; [|by rewrite !last_end_cons].
  unfold last_end at 1. cbn. change (last_end (last_end e d) []) with (last_end e d) in *.
  unfold last_end in *. destruct (list.last d) as [t|] eqn:E; [|lia].
  apply last_Some in E as [d' ->]. apply Forall_app in Hle as [_ [Hle _]%Forall_cons_1]. cbn in Hle. lia.
Qed.

Lemma after_drop_inv x limit :
  fl_inv x -> offset x <= limit <= last_end (offset x) (frames x) -> fl_inv (after_drop x limit).
Proof.
  intros H Hl. pose proof (last_end_le _ H). destruct H as [H1 H2 H3 H4 H5]. split; cbn; [| |done|lia|].
  - apply (drop_le_chain limit) in H1. by rewrite Z.max_r in H1 by lia.
  - apply Forall_forall. intros sf Hin%drop_le_incl. rewrite Forall_forall in H2. auto.
  - intros Hf. by rewrite (drop_le_last_end _ (offset x)), H5.
Qed.

Lemma drop_frames_ok s limit :
  sf_inv s ->
  if decide (offset (fl s) <= limit <= last_end (offset (fl s)) (frames (fl s)))
  then exists k, ossl_sframe_list_drop_frames limit s = (Ok tt, mkSF (after_drop (fl s) limit) k (sf_heap s)) /\
                 k ≡ₚ held (frames (after_drop (fl s) limit))
  else ossl_sframe_list_drop_frames limit s = (Err, s).
Proof.
  intros [H HR]. pose proof (num_frames_bound _ H) as Hn. pose proof (fl_num _ H) as Hnum.
  pose proof (last_end_le _ H) as Hle.
  assert (Hc : negb (limit >=? offset (fl s))
     || negb (match list.last (frames (fl s)) with None => true | Some t => limit <=? en t end)
     || negb (match list.last (frames (fl s)) with None => limit =? offset (fl s) | Some _ => true end)
     = negb (bool_decide (offset (fl s) <= limit <= last_end (offset (fl s)) (frames (fl s))))).
  { unfold last_end in *. case_bool_decide; destruct (list.last (frames (fl s))); lia. }
  unfold ossl_sframe_list_drop_frames. rewrite (bind_ok get _ s s s eq_refl).
  assert (Hrun : forall (a b : M SF unit), (if negb (bool_decide
      (offset (fl s) <= limit <= last_end (offset (fl s)) (frames (fl s)))) then a else b) =
      if decide (offset (fl s) <= limit <= last_end (offset (fl s)) (frames (fl s))) then b else a).
  { intros a b. case_bool_decide; case_decide; done. }
  rewrite Hc, Hrun. case_decide as Hd; [|done].
  destruct (drop_covered_ok limit (frames (fl s)) (mkSF (set_offset limit (fl s)) (refs s) (sf_heap s)) [])
    as (k & E & Hk).
  { cbn. by rewrite HR, app_nil_r. }
  { cbn. unfold U64_MOD. lia. }
  rewrite app_nil_r in Hk. exists k. split; [|done].
  unfold bind at 1. cbn [fl_set modify]. cbv beta iota. rewrite (bind_ok _ _ _ _ _ E). cbn. unfold after_drop.
  rewrite Hnum. by replace (zlen (frames (fl s)) - (zlen (frames (fl s)) - zlen (drop_le limit (frames (fl s)))))
    with (zlen (drop_le limit (frames (fl s)))) by lia.
Qed.

(** ** Looking at the data in front *)

(** The end of the data that follows [start_] without a gap. *)
Fixpoint run_end (start_ : Z) (l : list STREAM_FRAME) : Z :=
  match l with
  | sf :: l' => if st sf <=? start_ then run_end (en sf) l' else start_
  | [] => start_
  end.

Lemma run_end_ge s e l : chain s e l -> e <= run_end e l <= last_end e l.
Proof.
  revert s e. induction l as [|sf l IH]; intros s e; cbn [chain run_end]; [unfold last_end; cbn; lia|].
  intros (? & ? & H). rewrite last_end_cons. destruct (Z.leb_spec (st sf) e).
  - specialize (IH _ _ H). lia.
  - destruct (chain_last _ _ _ H). lia.
Qed.

(** It is the first offset that is not covered. *)
Lemma run_end_covered s e l :
  chain s e l -> (forall i, e <= i < run_end e l -> covered l i) /\ ~ covered l (run_end e l).
Proof.
  revert s e. induction l as [|sf l IH]; intros s e; cbn [chain run_end].
  - intros _. split; [lia|apply covered_nil].
  - intros (? & ? & H). destruct (Z.leb_spec (st sf) e).
    + destruct (IH _ _ H) as [I1 I2]. pose proof (run_end_ge _ _ _ H). split.
      * intros i Hi. rewrite covered_cons. destruct (decide (i < en sf)); [left; lia|right; apply I1; lia].
      * rewrite covered_cons. intros [?|?]; [lia|done].
    + split; [lia|]. rewrite covered_cons. intros [?|(y & Hy & ?)]; [lia|].
      destruct (chain_bounds _ _ _ _ H Hy). lia.
Qed.

Lemma run_end_unique s e l n :
  chain s e l -> e <= n -> (forall i, e <= i < n -> covered l i) -> ~ covered l n -> n = run_end e l.
Proof.
  intros H Hn H1 H2. destruct (run_end_covered s e l H) as [I1 I2]. pose proof (run_end_ge _ _ _ H).
  destruct (Z.lt_total n (run_end e l)) as [?|[?|?]]; [|done|].
  - destruct H2. apply I1. lia.
  - destruct I2. apply H1. lia.
Qed.

(** Where an iterator stands. *)
Definition iter_pos (x : SFRAME_LIST) (it : sf_iter) : Z * list STREAM_FRAME :=
  match it with None => (offset x, frames x) | Some (sf, rest) => (en sf, rest) end.

(** The check in [ossl_sframe_list_peek] that the frame is not behind holds for
    every list in order. *)
Lemma peek_step x it s e l :
  iter_pos x it = (e, l) -> chain s e l ->
  ossl_sframe_list_peek x it =
    match l with
    | [] => mkPeeked false None (mkRange e e) None (fin x)
    | sf :: next =>
        if st sf <=? e
        then mkPeeked true (Some (sf, next)) (mkRange e (en sf)) (zdrop (e - st sf) <$> data sf)
               (match next with [] => fin x | _ => false end)
        else mkPeeked false None (mkRange e e) None false
    end.
Proof.
  intros Hp H. unfold ossl_sframe_list_peek. unfold iter_pos in Hp. rewrite Hp.
  destruct l as [|sf next]; [done|]. destruct H as (_ & ? & _).
  replace (e <? en sf) with true by lia. cbn [negb]. rewrite orb_false_r.
  by replace (st sf >? e) with (negb (st sf <=? e)) by lia; destruct (st sf <=? e).
Qed.

(** ** Moving data to side storage *)

End Stream.

(** What the list relies on from the storage that it moves data to: [ss_ok o t]
    says that [t] keeps the offsets from [o] on, [ss_byte t i] is the byte at an
    offset, if it is there. A write stores its bytes and keeps the others, or has no
    effect. *)
Class SideStorage {T : Type} (write_at_cb : Z -> list Z -> M T unit) := {
  ss_ok : Z -> T -> Prop;
  ss_byte : T -> Z -> option Z;
  ss_limit : Z;
  ss_write o t off bs :
    ss_ok o t -> 0 <= o <= off -> off + zlen bs < ss_limit ->
    (exists t', write_at_cb off bs t = (Ok tt, t') /\ ss_ok o t' /\
       (forall i, off <= i < off + zlen bs -> ss_byte t' i = Some (znth (i - off) bs)) /\
       (forall i v, ~ off <= i < off + zlen bs -> ss_byte t i = Some v -> ss_byte t' i = Some v))
    \/ write_at_cb off bs t = (Err, t)
}.

Section Move.
Context (f : Z -> Z) (F : Z) (HF : F < 4611686018427387904).
Context {T : Type} (write_at_cb : Z -> list Z -> M T unit) {SS : SideStorage write_at_cb}.
Context (Hlim : F < ss_limit).

(** The bytes of a frame without data are in the storage. *)
Definition backed (o : Z) (t : T) (sf : STREAM_FRAME) : Prop :=
  data sf = None -> forall i, Z.max o (st sf) <= i < en sf -> ss_byte t i = Some (f i).

(** The loop has come as far as [limit]. *)
Record moving (x0 : SFRAME_LIST) (limit : Z) (before : list STREAM_FRAME) (prev : option STREAM_FRAME)
    (l : list STREAM_FRAME) (x : SF * T) : Prop := {
  mv_fl : fl (fst x) = set_num_frames (num_frames (fl (fst x))) x0;
  mv_offset : 0 <= offset x0;
  mv_chain : chain 0 (offset x0) (before ++ option_list prev ++ l);
  mv_frames : Forall (frame_ok f F) (before ++ option_list prev ++ l);
  mv_num : num_frames (fl (fst x)) = zlen (before ++ option_list prev ++ l);
  mv_refs : refs (fst x) ≡ₚ held (before ++ option_list prev ++ l);
  mv_backed : Forall (backed (offset x0) (snd x)) (before ++ option_list prev ++ l);
  mv_storage : ss_ok (offset x0) (snd x);
  mv_prev : match prev with Some p => data p = None /\ limit = en p | None => limit = offset x0 end
}.

(** The result of moving data: the same offsets are covered. *)
Record moved (x0 : SFRAME_LIST) (l0 : list STREAM_FRAME) (x : SF * T) : Prop := {
  moved_fl : fl (fst x) = set_num_frames (zlen (frames (fl (fst x)))) (set_frames (frames (fl (fst x))) x0);
  moved_chain : chain 0 (offset x0) (frames (fl (fst x)));
  moved_frames : Forall (frame_ok f F) (frames (fl (fst x)));
  moved_refs : refs (fst x) ≡ₚ held (frames (fl (fst x)));
  moved_covered i : covered (frames (fl (fst x))) i <-> covered l0 i;
  moved_end : last_end (offset x0) (frames (fl (fst x))) = last_end (offset x0) l0;
  moved_backed : Forall (backed (offset x0) (snd x)) (frames (fl (fst x)));
  moved_storage : ss_ok (offset x0) (snd x)
}.

(** Storing the frames ends a loop. *)
Lemma moving_end x0 limit before prev l x :
  moving x0 limit before prev l x ->
  exists x', on_sf (fl_set (set_frames (before ++ option_list prev ++ l))) x = (Ok tt, x') /\
             moved x0 (before ++ option_list prev ++ l) x'.
Proof.
  intros [M1 M0 M2 M3 M4 M5 M6 M7 M8]. eexists. split; [reflexivity|]. destruct x as [s t]. cbn in *.
  split; cbn; try done. rewrite M1, <-M4. done.
Qed.

(** The next frame ends after [limit], and follows the previous one. *)
Lemma moving_next x0 limit before prev sf next x :
  moving x0 limit before prev (sf :: next) x ->
  offset x0 <= limit < en sf /\ 0 <= st sf /\ match prev with Some p => st p <= st sf | None => True end.
Proof.
  intros [_ _ M2 M3 _ _ _ _ M8]. apply chain_app in M2 as [C1 C2]. apply chain_app in C2 as [C2 C3].
  destruct C3 as (S1 & E1 & _). rewrite !Forall_app in M3. destruct M3 as (_ & _ & ((? & _) & _)%Forall_cons_1).
  destruct (chain_last _ _ _ C1). destruct prev as [p|]; cbn in *.
  - destruct M8 as (_ & ->). destruct C2 as (? & ? & _). unfold last_start, last_end in *. cbn in *. lia.
  - unfold last_end in *. cbn in *. fold (last_end (offset x0) before) in *. lia.
Qed.

(** The bytes written for a frame. *)
Lemma frame_tail sf d lim :
  frame_ok f F sf -> data sf = Some d -> st sf <= lim <= en sf ->
  zlen (zdrop (lim - st sf) d) = en sf - lim /\
  forall i, lim <= i < en sf -> znth (i - lim) (zdrop (lim - st sf) d) = f i.
Proof.
  intros (H1 & H2 & H3) Hd Hl. destruct (H3 d Hd) as [Hz Hf]. split; [rewrite zlen_zdrop by lia; lia|].
  intros i Hi. rewrite znth_zdrop by lia. rewrite <-Hf by lia. f_equal. lia.
Qed.

(** A write of stream bytes keeps what is backed. *)
Lemma backed_write o t t' lim e sf :
  (forall i, lim <= i < e -> ss_byte t' i = Some (f i)) ->
  (forall i v, ~ lim <= i < e -> ss_byte t i = Some v -> ss_byte t' i = Some v) ->
  backed o t sf -> backed o t' sf.
Proof.
  intros H1 H2 Hb Hd i Hi. destruct (decide (lim <= i < e)); [auto|]. apply H2; [done|]. by apply Hb.
Qed.

Lemma chain_subst s e a sf sf' b : range sf' = range sf -> chain s e (a ++ sf :: b) -> chain s e (a ++ sf' :: b).
Proof. intros Hr. rewrite !chain_app. cbn. by rewrite Hr. Qed.

Lemma moving_write x0 limit before prev sf d next s t t' lim k :
  moving x0 limit before prev (sf :: next) (s, t) -> data sf = Some d ->
  limit <= lim <= en sf -> st sf <= lim -> lim = limit \/ (lim = st sf /\ limit <= st sf) ->
  ss_ok (offset x0) t' ->
  (forall i, lim <= i < en sf -> ss_byte t' i = Some (f i)) ->
  (forall i v, ~ lim <= i < en sf -> ss_byte t i = Some v -> ss_byte t' i = Some v) ->
  k ≡ₚ held (before ++ option_list prev ++ next) ->
  moving x0 limit before prev (mkFrame (range sf) None None :: next) (mkSF (fl s) k (sf_heap s), t').
Proof.
  intros HM Hd Hl1 Hl2 Hl3 Hok Hnew Hold Hk. pose proof (moving_next _ _ _ _ _ _ _ HM) as (Hlm & Hst & Hpst).
  destruct HM as [M1 M0 M2 M3 M4 M5 M6 M7 M8]. cbn [fst snd] in *.
  assert (Hb' : forall sf0, backed (offset x0) t sf0 -> backed (offset x0) t' sf0)
    by (intros; by eapply backed_write).
  rewrite app_assoc in *. split; cbn [fst snd fl]; [done|done| | | | | |done|done].
  - rewrite app_assoc. by apply (chain_subst _ _ _ sf).
  - rewrite app_assoc. rewrite Forall_app, Forall_cons in *. destruct M3 as (? & (? & ? & ?) & ?). done.
  - rewrite app_assoc, M4, !zlen_app, !zlen_cons. done.
  - cbn [refs]. rewrite Hk, app_assoc, !omap_app. done.
  - rewrite app_assoc. rewrite Forall_app, Forall_cons in *. destruct M6 as (Mb & Msf & Mn).
    split_and!; [by eapply Forall_impl| |by eapply Forall_impl].
    intros _ i Hi. cbn in Hi. destruct (decide (lim <= i)); [apply Hnew; lia|].
    apply Hold; [lia|]. destruct prev as [p|]; [|lia]. destruct M8 as [Mp ->].
    apply Forall_app in Mb as [_ [Mb _]%Forall_cons_1]. apply Mb; [done|]. lia.
Qed.

Lemma move_frame_ok x0 limit before prev sf next x :
  moving x0 limit before prev (sf :: next) x ->
  let lim := if limit <? st sf then st sf else limit in
  (exists sf' x', move_frame write_at_cb lim before prev sf next x = (Ok sf', x') /\
     range sf' = range sf /\ data sf' = None /\ moving x0 limit before prev (sf' :: next) x')
  \/ (exists x', move_frame write_at_cb lim before prev sf next x = (Err, x') /\
        moved x0 (before ++ option_list prev ++ sf :: next) x').
Proof.
  intros HM lim. pose proof (moving_next _ _ _ _ _ _ _ HM) as (Hlim1 & Hst & Hpst).
  assert (Hsf : frame_ok f F sf).
  { pose proof (mv_frames _ _ _ _ _ _ HM) as M3. rewrite !Forall_app, Forall_cons in M3. tauto. }
  assert (Hl : limit <= lim <= en sf /\ st sf <= lim /\ (lim = limit \/ lim = st sf /\ limit <= st sf)).
  { destruct Hsf as (? & _). subst lim. destruct (Z.ltb_spec limit (st sf)); lia. }
  clearbody lim. destruct Hl as (Hl1 & Hl2 & Hl3). unfold move_frame.
  destruct (data sf) as [d|] eqn:Hd; [|left; by exists sf, x].
  destruct (Z.ltb_spec (UintSet.end_ (range sf)) lim) as [|_]; [unfold en in *; lia|].
  destruct (frame_tail sf d lim Hsf Hd ltac:(lia)) as [Hz Hb]. destruct x as [s t].
  unfold on_side, zoom. cbn [fst snd].
  destruct (ss_write (offset x0) t lim (zdrop (lim - st sf) d)) as [(t' & E & Hok & Hnew & Hold)|E].
  { exact (mv_storage _ _ _ _ _ _ HM). }
  { pose proof (mv_offset _ _ _ _ _ _ HM). lia. }
  { destruct Hsf as (_ & ? & _). lia. }
  - left. rewrite E. rewrite Hz in Hnew, Hold. replace (lim + (en sf - lim)) with (en sf) in * by lia.
    destruct (release_ok (pkt sf) s (held (before ++ option_list prev ++ next))) as (k & Er & Hk).
    { pose proof (mv_refs _ _ _ _ _ _ HM) as M5. cbn in M5. rewrite M5, !omap_app. cbn.
      destruct (pkt sf); cbn; solve_Permutation. }
    exists (mkFrame (range sf) None None). eexists. split_and!; [|done|done|].
    + unfold bind, on_sf, zoom. cbn [fst snd]. rewrite Er. reflexivity.
    + apply (moving_write _ _ _ _ sf d _ s t t' lim); auto. intros i Hi. rewrite Hnew, Hb by lia. done.
  - right. rewrite E. destruct (moving_end _ _ _ _ _ _ HM) as (x' & Ex & Hx).
    exists x'. split; [|done]. unfold bind. by rewrite Ex.
Qed.

Lemma frames_len o l : chain 0 o l -> 0 <= o -> Forall (frame_ok f F) l -> l <> [] -> zlen l <= F.
Proof.
  intros H Ho Hf Hl. pose proof (chain_len _ _ _ H). unfold last_end in *.
  destruct (list.last l) as [t|] eqn:E; [|by apply last_None in E].
  apply last_Some in E as [l' ->]. apply Forall_app in Hf as [_ [(_ & ? & _) _]%Forall_cons_1]. lia.
Qed.

Lemma moved_weaken x0 l1 l2 x :
  moved x0 l1 x -> (forall i, covered l1 i <-> covered l2 i) ->
  last_end (offset x0) l1 = last_end (offset x0) l2 -> moved x0 l2 x.
Proof.
  intros [V1 V2 V3 V4 V5 V6 V7 V8] Hc He. split; try done.
  - intros i. by rewrite V5.
  - by rewrite V6.
Qed.

(** The merged frame covers what the two frames cover. *)
Abbreviation merged p sf := (mkFrame (mkRange (st p) (en sf)) (pkt p) (data p)).

Lemma merged_covered b p sf n i :
  st p <= st sf <= en p -> en p < en sf -> covered (b ++ merged p sf :: n) i <-> covered (b ++ p :: sf :: n) i.
Proof.
  intros H1 H2. rewrite !covered_app, !covered_cons. cbn.
  assert (st p <= i < en sf <-> st p <= i < en p \/ st sf <= i < en sf) by lia. tauto.
Qed.

Lemma merged_moving x0 limit before p sf next x :
  moving x0 limit before (Some p) (sf :: next) x -> data sf = None -> st sf <= en p ->
  exists x', (on_sf (fl_set (fun x => set_num_frames (u64 (num_frames x - 1)) x)) ;;; on_sf (stream_frame_free sf)) x
             = (Ok tt, x') /\
    moving x0 (en sf) before (Some (merged p sf)) next x'.
Proof.
  intros HM Hd Hc. destruct HM as [M1 M0 M2 M3 M4 M5 M6 M7 [M8 M9]]. destruct x as [s t].
  cbn [fst snd] in *. unfold option_list in *. cbn [option_rect app] in *.
  destruct (release_ok (pkt sf) (mkSF (set_num_frames (u64 (num_frames (fl s) - 1)) (fl s)) (refs s) (sf_heap s))
              (held (before ++ p :: next))) as (k & E & Hk).
  { cbn [refs]. rewrite M5, !omap_app. cbn. destruct (pkt p), (pkt sf); solve_Permutation. }
  eexists. split. { unfold bind, on_sf, zoom. cbn [fst snd fl_set modify]. unfold stream_frame_free. rewrite E. reflexivity. }
  apply chain_app in M2 as [C1 (S1 & E1 & S2 & E2 & C2)].
  assert (Hn : zlen (before ++ p :: sf :: next) <= F).
  { apply (frames_len (offset x0)); [|done|done|by destruct before]. apply chain_app. done. }
  rewrite zlen_app, !zlen_cons in M4, Hn. pose proof (zlen_nonneg before). pose proof (zlen_nonneg next).
  rewrite Forall_app, !Forall_cons in M3, M6. destruct M3 as (F1 & (F2 & F2' & F3) & (F4 & F4' & F5) & F6).
  destruct M6 as (B1 & B2 & B3 & B4).
  split; unfold option_list; cbn [fst snd fl set_num_frames num_frames option_rect app refs]; [|done| | | | | |done|done].
  - rewrite M1. done.
  - apply chain_app. split; [done|]. cbn. split_and!; [done|lia|]. by apply (chain_weaken (st sf) (en sf)).
  - rewrite Forall_app, !Forall_cons. split_and!; [done| |done]. split; cbn; [lia|]. split; [done|]. by rewrite M8.
  - rewrite M4, zlen_app, zlen_cons, u64_id by lia. lia.
  - rewrite Hk, !omap_app. done.
  - rewrite Forall_app, !Forall_cons. split_and!; [done| |done].
    intros _ i Hi. cbn in Hi. destruct (decide (i < en p)); [apply B2; [done|lia]|apply B3; [done|lia]].
Qed.

(** The loop goes on with the frame as the previous one. *)
Lemma advance_moving x0 limit before prev sf next x :
  moving x0 limit before prev (sf :: next) x -> data sf = None ->
  moving x0 (en sf) (before ++ option_list prev) (Some sf) next x.
Proof.
  intros [M1 M0 M2 M3 M4 M5 M6 M7 M8] Hd.
  replace (before ++ option_list prev ++ sf :: next)
    with ((before ++ option_list prev) ++ option_list (Some sf) ++ next) in * by by rewrite <-app_assoc.
  by split.
Qed.

(** What the loop achieves; when it succeeds no data is left in a packet. *)
Definition move_outcome (op : M (SF * T) unit) (x0 : SFRAME_LIST) (l0 : list STREAM_FRAME)
    (before : list STREAM_FRAME) (x : SF * T) : Prop :=
  (exists x', op x = (Ok tt, x') /\ moved x0 l0 x' /\
     exists k, frames (fl (fst x')) = before ++ k /\ Forall (fun sf => data sf = None) k)
  \/ (exists x', op x = (Err, x') /\ moved x0 l0 x').

Lemma outcome_weaken op x0 l1 l2 before x :
  move_outcome op x0 l1 before x -> (forall i, covered l1 i <-> covered l2 i) ->
  last_end (offset x0) l1 = last_end (offset x0) l2 -> move_outcome op x0 l2 before x.
Proof.
  intros [(x' & E & V & K)|(x' & E & V)] Hc He; [left|right]; exists x'; eauto using moved_weaken.
Qed.

Lemma outcome_run op op' x0 l before x x1 :
  op x = op' x1 -> move_outcome op' x0 l before x1 -> move_outcome op x0 l before x.
Proof. unfold move_outcome. by intros ->. Qed.

(** The frames the loop has left behind have no data. *)
Lemma moving_prev x0 limit before dn prev l x :
  moving x0 limit before prev l x -> Forall (fun sf => data sf = None) dn ->
  Forall (fun sf => data sf = None) (dn ++ option_list prev).
Proof.
  intros HM Hdn. apply Forall_app. split; [done|]. pose proof (mv_prev _ _ _ _ _ _ HM) as Hp.
  destruct prev as [p|]; cbn; [|done]. constructor; [tauto|done].
Qed.

Lemma move_loop_ok l : forall x0 limit before dn prev x,
  moving x0 limit (before ++ dn) prev l x -> Forall (fun sf => data sf = None) dn ->
  move_outcome (move_loop write_at_cb limit (before ++ dn) prev l) x0
    ((before ++ dn) ++ option_list prev ++ l) before x.
Proof.
  induction l as [|sf next IH]; intros x0 limit before dn prev x HM Hdn; cbn [move_loop].
  { left. destruct (moving_end _ _ _ _ _ _ HM) as (x' & E & Hx). exists x'. split_and!; [done|done|].
    exists (dn ++ option_list prev). split; [|by eapply moving_prev].
    unfold on_sf, zoom in E. injection E as <-. cbn. by rewrite app_nil_r, app_assoc. }
  destruct (move_frame_ok _ _ _ _ _ _ _ HM) as [(sf' & x1 & E & Hr & Hd & HM1)|(x1 & E & HM1)].
  2: { right. exists x1. unfold bind. by rewrite E. }
  apply (outcome_run _ _ _ _ _ _ _ (bind_ok _ _ _ _ _ E)). rewrite <-Hr.
  apply (outcome_weaken _ _ ((before ++ dn) ++ option_list prev ++ sf' :: next)).
  2: { intros i. by rewrite !covered_app, !covered_cons, Hr. }
  2: { by rewrite !last_end_app, !last_end_cons, Hr. }
  assert (Hnext : move_outcome (move_loop write_at_cb (en sf') ((before ++ dn) ++ option_list prev) (Some sf') next)
            x0 ((before ++ dn) ++ option_list prev ++ sf' :: next) before x1).
  { pose proof (IH x0 (en sf') before (dn ++ option_list prev) (Some sf') x1) as IH'.
    rewrite (app_assoc before), <-(app_assoc (before ++ dn)) in IH'. apply IH'; [|by eapply moving_prev].
    by apply (advance_moving _ limit). }
  destruct prev as [p|]; [|by rewrite app_nil_r in Hnext].
  destruct (Z.geb_spec (en p) (st sf')) as [Hge|Hge]; [|exact Hnext].
  pose proof (moving_next _ _ _ _ _ _ _ HM1) as (Hlt & _ & Hp).
  destruct (merged_moving _ _ _ _ _ _ _ HM1 Hd ltac:(lia)) as (x2 & E2 & HM2).
  apply (outcome_run _ (move_loop write_at_cb (en sf') (before ++ dn) (Some (merged p sf')) next) _ _ _ _ x2).
  { unfold bind in *. destruct (on_sf (fl_set _) x1) as [[[]| |] y]; try done. by rewrite E2. }
  pose proof (mv_prev _ _ _ _ _ _ HM1) as [_ ->].
  apply (outcome_weaken _ _ ((before ++ dn) ++ merged p sf' :: next)).
  - by apply (IH x0 (en sf') before dn (Some (merged p sf')) x2).
  - intros i. apply (merged_covered (before ++ dn) p sf' next i); lia.
  - cbn. by rewrite !last_end_app, !last_end_cons.
Qed.

(** The frame at the head is skipped while it is locked. *)
Definition skipped (x : SFRAME_LIST) : list STREAM_FRAME :=
  match frames x with sf :: _ => if head_locked x then [sf] else [] | [] => [] end.

Lemma move_data_ok s t :
  sf_inv f F s -> ss_ok (offset (fl s)) t -> Forall (backed (offset (fl s)) t) (frames (fl s)) ->
  move_outcome (ossl_sframe_list_move_data write_at_cb) (fl s) (frames (fl s)) (skipped (fl s)) (s, t).
Proof.
  intros [H HR] Hok Hb. unfold skipped.
  assert (HM : forall a l, frames (fl s) = a ++ l -> moving (fl s) (offset (fl s)) (a ++ []) None l (s, t)).
  { intros a l El. rewrite app_nil_r. pose proof (fl_offset _ _ _ H). destruct H as [H1 H2 H3 H4 H5].
    rewrite El in *. split; cbn [fst snd]; cbn; try done; try lia. by destruct (fl s). }
  assert (Hself : fl s = set_num_frames (zlen (frames (fl s))) (set_frames (frames (fl s)) (fl s))).
  { rewrite <-(fl_num _ _ _ H). by destruct (fl s). }
  destruct (frames (fl s)) as [|sf next] eqn:El.
  - left. exists (s, t). unfold ossl_sframe_list_move_data, bind, get. cbn [fst]. rewrite El. split_and!; [done| |].
    + destruct H as [H1 H2 H3 H4 H5]. rewrite ?El in H1, H2, HR.
      split; cbn [fst snd]; rewrite ?El; done.
    + by exists [].
  - apply (outcome_run _ (if head_locked (fl s) then move_loop write_at_cb (offset (fl s)) [sf] None next
                          else move_loop write_at_cb (offset (fl s)) [] None (sf :: next)) _ _ _ _ (s, t)).
    { unfold ossl_sframe_list_move_data, bind, get. cbn [fst]. rewrite El. by destruct (head_locked (fl s)). }
    destruct (head_locked (fl s)).
    + exact (move_loop_ok next (fl s) (offset (fl s)) [sf] [] None (s, t) (HM [sf] next eq_refl) (Forall_nil_2 _)).
    + exact (move_loop_ok (sf :: next) (fl s) (offset (fl s)) [] [] None (s, t) (HM [] (sf :: next) eq_refl) (Forall_nil_2 _)).
Qed.

Lemma moved_inv x0 x : fl_inv f F x0 -> moved x0 (frames x0) x -> sf_inv f F (fst x).
Proof.
  intros [H1 H2 H3 H4 H5] [V1 V2 V3 V4 V5 V6 V7 V8]. split; [|done]. rewrite V1. split; cbn; try done.
  intros Hf. by rewrite V6, H5.
Qed.
End Move.

(** ** Properties *)

(** inserting a frame either fails in the allocator and changes nothing, or
    leaves a list that is ordered by start and strictly by end, that covers exactly
    the offsets covered before and those of the frame, and that holds one reference
    for each of its frames, whatever the frame overlaps. *)
Theorem sframe_list_insert_spec f F s r p d fin_ :
  F < 4611686018427387904 -> sf_inv f F s -> frame_ok f F (mkFrame r p d) -> (fin_ = true -> UintSet.end_ r = F) ->
  (exists o, sf_heap s = false :: o /\ ossl_sframe_list_insert r p d fin_ s = (Err, mkSF (fl s) (refs s) o)) \/
  (exists s', ossl_sframe_list_insert r p d fin_ s = (Ok tt, s') /\ sf_inv f F s' /\
     offset (fl s') = offset (fl s) /\ fin (fl s') = fin_ || fin (fl s) /\
     last_end (offset (fl s)) (frames (fl s')) = Z.max (last_end (offset (fl s)) (frames (fl s))) (UintSet.end_ r) /\
     forall i, offset (fl s) <= i ->
       covered (frames (fl s')) i <-> covered (frames (fl s)) i \/ UintSet.start r <= i < UintSet.end_ r).
Proof.
  intros HF Hs Hnf Hfin. destruct (insert_ok f F HF s r p d fin_ Hs Hnf Hfin) as [(k & o & E & Hk)|?]; [right|by left].
  eexists. split; [exact E|]. pose proof Hs as [H HR]. pose proof Hnf as (Hb & _).
  destruct (inserted_adds (offset (fl s)) (mkFrame r p d) (frames (fl s)) (fl_chain _ _ _ H) Hb) as [A1 A2 A3].
  split_and!; [|done|done|exact A3|exact A2]. split; [by apply after_insert_inv|done].
Qed.

Lemma sframe_list_insert_spec_witness :
  let s := mkSF (mkFl [mkFrame (mkRange 0 2) (Some 1%nat) (Some [5; 6]);
                       mkFrame (mkRange 3 4) (Some 2%nat) (Some [8])] false 2 1 false false) [1%nat; 2%nat] [] in
  let r := mkRange 1 5 in let d := Some [6; 7; 8; 9] in
  (exists o, sf_heap s = false :: o /\ ossl_sframe_list_insert r (Some 3%nat) d true s = (Err, mkSF (fl s) (refs s) o)) \/
  (exists s', ossl_sframe_list_insert r (Some 3%nat) d true s = (Ok tt, s') /\ sf_inv (fun i => 5 + i) 5 s' /\
     offset (fl s') = offset (fl s) /\ fin (fl s') = true || fin (fl s) /\
     last_end (offset (fl s)) (frames (fl s')) = Z.max (last_end (offset (fl s)) (frames (fl s))) (UintSet.end_ r) /\
     forall i, offset (fl s) <= i ->
       covered (frames (fl s')) i <-> covered (frames (fl s)) i \/ UintSet.start r <= i < UintSet.end_ r).
Proof.
  intros s r d. apply (sframe_list_insert_spec (fun i => 5 + i) 5).
  - reflexivity.
  - split; [|reflexivity]. split; [split_and!; done| |reflexivity|done|done]. cbn [s fl frames].
    rewrite !Forall_cons. split_and!; [| |apply Forall_nil_2];
      (split_and!; [done..|]; intros d' [= <-]; split; [reflexivity|]; cbn; intros i Hi).
    + assert (i = 0 \/ i = 1) as [-> | ->] by lia; reflexivity.
    + assert (i = 3) as -> by lia. reflexivity.
  - split_and!; [done..|]. intros d' [= <-]. split; [reflexivity|]. cbn. intros i Hi.
    assert (i = 1 \/ i = 2 \/ i = 3 \/ i = 4) as [-> | [-> | [-> | ->]]] by lia; reflexivity.
  - reflexivity.
Defined.

(** a frame that lies within another frame with the same start is kept beside
    it, although the list documents that no frame is encompassed by another. *)
Theorem sframe_list_keeps_encompassed :
  let s0 := mkSF ossl_sframe_list_init [] [] in
  let s1 := snd (ossl_sframe_list_insert (mkRange 0 4) (Some 1%nat) (Some [1; 2; 3; 4]) false s0) in
  let s2 := snd (ossl_sframe_list_insert (mkRange 0 2) (Some 2%nat) (Some [1; 2]) false s1) in
  map range (frames (fl s2)) = [mkRange 0 2; mkRange 0 4] /\ refs s2 = [2%nat; 1%nat].
Proof. split; reflexivity. Qed.

(** the packet of a locked head frame, whose data the application reads, is
    released when a longer frame with the same start arrives. *)
Theorem sframe_list_locked_head_released :
  let s0 := mkSF ossl_sframe_list_init [] [] in
  let s1 := snd (ossl_sframe_list_insert (mkRange 0 2) (Some 1%nat) (Some [1; 2]) false s0) in
  let s2 := snd (ossl_sframe_list_lock_head s1) in
  let s3 := snd (ossl_sframe_list_insert (mkRange 0 4) (Some 2%nat) (Some [1; 2; 3; 4]) false s2) in
  head_locked (fl s2) = true /\ refs s2 = [1%nat] /\ head_locked (fl s3) = true /\ refs s3 = [2%nat].
Proof. split_and!; reflexivity. Qed.
