(* ===== verification/RStream.v ===== *)
(** QUIC receive streams: ssl/quic/quic_rstream.c.

    A receive stream keeps the frames that arrived, in packets or in a ring buffer,
    and gives the bytes of the stream to the application in order. It tells the
    receive flow controller what was read. The state is the stream with the flow
    controllers that it can reach; the result 0 of a function is the failure of the
    monad. *)

From stdpp Require Import base list numbers sets gmap.
From Stdlib Require Import ZArith Lia.
From S2P Require Import Prelude SafeMath UintSet FlowControl RingBuf Statm SFrameList.

#[local] Open Scope cfun_scope.

(** ** Definitions *)

Record QUIC_RSTREAM := mkRs {
  sfs : SF;
  rxfc : option nat;
  statm : option OSSL_STATM;
  head_range : UINT_RANGE;
  rbuf : ring_buf;
  rxm : RX
}.

Definition set_sfs (x : SF) (q : QUIC_RSTREAM) : QUIC_RSTREAM :=
  mkRs x (rxfc q) (statm q) (head_range q) (rbuf q) (rxm q).
Definition set_head_range (r : UINT_RANGE) (q : QUIC_RSTREAM) : QUIC_RSTREAM :=
  mkRs (sfs q) (rxfc q) (statm q) r (rbuf q) (rxm q).
Definition set_rbuf (r : ring_buf) (q : QUIC_RSTREAM) : QUIC_RSTREAM :=
  mkRs (sfs q) (rxfc q) (statm q) (head_range q) r (rxm q).
Definition set_rxm (x : RX) (q : QUIC_RSTREAM) : QUIC_RSTREAM :=
  mkRs (sfs q) (rxfc q) (statm q) (head_range q) (rbuf q) x.

Definition on_fl {A} (m : M SF A) : M QUIC_RSTREAM A := zoom sfs set_sfs m.
Definition on_rbuf {A} (m : M ring_buf A) : M QUIC_RSTREAM A := zoom rbuf set_rbuf m.
Definition on_rx {A} (m : M RX A) : M QUIC_RSTREAM A := zoom rxm set_rxm m.

(** [ret = m]: the result of a call that is looked at later. *)
Definition try_ {S} (m : M S unit) : M S bool :=
  fun s => match m s with
           | (Ok _, s') => (Ok true, s')
           | (Err, s') => (Ok false, s')
           | (Ub, s') => (Ub, s')
           end.

(** memcpy of [l] bytes out of [d], which must have them. *)
Definition copy {S} (l : Z) (d : list Z) : M S (list Z) := if zlen d <? l then undef else ret (ztake l d).

Section Stream.
(** The contents of freshly allocated memory, and the readings of the clock. *)
Context (fresh : Z -> list Z) (now : nat -> OSSL_TIME).

(** A call of [ring_buf_resize] with the allocator's next answer. *)
Definition rbuf_resize (num_bytes : Z) (cl : bool) : M QUIC_RSTREAM unit :=
  fun q => let s := sfs q in
           let (ok, o) := alloc (sf_heap s) in
           on_rbuf (ring_buf_resize fresh num_bytes cl ok) (set_sfs (mkSF (fl s) (refs s) o) q).

(** [None] for NULL. *)
Definition ossl_quic_rstream_new (rxfc : option nat) (statm : option OSSL_STATM) (rbuf_size : Z)
    (rx : RX) (o : oracle) : res (option QUIC_RSTREAM) * oracle :=
  let (ok, o) := alloc o in
  if negb ok then (Ok None, o)
  else
    let q := mkRs (mkSF ossl_sframe_list_init [] o) rxfc statm (mkRange 0 0) ring_buf_init rx in
    match rbuf_resize rbuf_size false q with
    | (Ok _, q) => (Ok (Some q), sf_heap (sfs q))
    | (Err, q) => (Ok None, sf_heap (sfs q))
    | (Ub, q) => (Ub, sf_heap (sfs q))
    end.

Definition ossl_quic_rstream_free : M QUIC_RSTREAM unit :=
  let! q := get in
  on_fl ossl_sframe_list_destroy ;;;
  on_rbuf (modify (fun r => ring_buf_destroy r (cleanse (fl (sfs q))))).

Definition ossl_quic_rstream_queue_data (pkt : option nat) (offset : Z) (data : option (list Z))
    (data_len : Z) (fin : bool) : M QUIC_RSTREAM unit :=
  if (match data with None => negb (data_len =? 0) | Some _ => false end) || ((data_len =? 0) && negb fin)
  then fail
  else on_fl (ossl_sframe_list_insert (mkRange offset (u64 (offset + data_len))) pkt data fin).

(** Bytes from the ring buffer: what is copied at once if the data wraps around,
    what is left to copy, and the memory that it is copied from. *)
Definition read_rbuf (start_ l : Z) : M QUIC_RSTREAM (list Z * Z * list Z) :=
  let! q := get in
  let! '(idx, max_len) := on_rbuf (ring_buf_get_ptr start_) in
  if max_len <? l then
    let! first := copy max_len (load (rbuf q) (Some idx) max_len) in
    let l := l - max_len in
    let! '(idx, max_len) := on_rbuf (ring_buf_get_ptr (u64 (start_ + max_len))) in
    if negb (max_len >? l) then fail
    else ret (first, l, load (rbuf q) (Some idx) max_len)
  else ret ([], l, load (rbuf q) (Some idx) max_len).

(** The loop: the final offset, the bytes copied and the fin flag. *)
Fixpoint read_loop (fuel : nat) (iter : sf_iter) (size offset : Z) (out : list Z)
    : M QUIC_RSTREAM (Z * list Z * bool) :=
  match fuel with
  | O => undef
  | S fuel' =>
      let! q := get in
      let p := ossl_sframe_list_peek (fl (sfs q)) iter in
      if negb (p_ret p) then ret (offset, out, p_fin p)
      else
        let l := u64 (UintSet.end_ (p_range p) - UintSet.start (p_range p)) in
        let fin_ := if l >? size then false else p_fin p in
        let l := if l >? size then size else l in
        let offset := u64 (UintSet.start (p_range p) + l) in
        if l =? 0 then ret (offset, out, fin_)
        else
          let! '(first, l, d) := match p_data p with
                                 | Some d => ret ([], l, d)
                                 | None => read_rbuf (UintSet.start (p_range p)) l
                                 end in
          let! second := copy l d in
          let out := out ++ first ++ second in
          let size := size - zlen first - l in
          if size =? 0 then ret (offset, out, fin_)
          else read_loop fuel' (p_iter p) size offset out
  end.

Definition read_internal (size : Z) (drop : bool) : M QUIC_RSTREAM (list Z * bool) :=
  let! q := get in
  let! '(offset, out, fin_) := read_loop (S (length (frames (fl (sfs q))))) None size 0 [] in
  let! ret_ := (if drop && negb (offset =? 0) then
                  let! r := try_ (on_fl (ossl_sframe_list_drop_frames offset)) in
                  on_rbuf (ring_buf_cpop_range 0 (u64 (offset - 1)) (cleanse (fl (sfs q)))) ;;;
                  ret r
                else ret true) in
  if ret_ : bool then ret (out, fin_) else fail.

Definition get_rtt (q : QUIC_RSTREAM) : OSSL_TIME :=
  match statm q with
  | Some s => info_smoothed_rtt (ossl_statm_get_rtt_info s)
  | None => ossl_time_zero
  end.

(** Tells the flow controller, if there is one. *)
Definition retire (num_bytes : Z) (rtt : OSSL_TIME) : M QUIC_RSTREAM unit :=
  let! q := get in
  match rxfc q with
  | None => ret tt
  | Some p => let! r := on_rx (ossl_quic_rxfc_on_retire now p num_bytes rtt) in
              if r : bool then ret tt else fail
  end.

Definition ossl_quic_rstream_read (size : Z) : M QUIC_RSTREAM (list Z * bool) :=
  let! q := get in
  let rtt := get_rtt q in
  let! '(out, fin_) := read_internal size true in
  retire (zlen out) rtt ;;;
  ret (out, fin_).

Definition ossl_quic_rstream_peek (size : Z) : M QUIC_RSTREAM (list Z * bool) := read_internal size false.

Fixpoint available_loop (fuel : nat) (x : SFRAME_LIST) (iter : sf_iter) (avail : Z) : M QUIC_RSTREAM (Z * bool) :=
  match fuel with
  | O => undef
  | S fuel' =>
      let p := ossl_sframe_list_peek x iter in
      if p_ret p
      then available_loop fuel' x (p_iter p)
             (u64 (avail + u64 (UintSet.end_ (p_range p) - UintSet.start (p_range p))))
      else ret (avail, p_fin p)
  end.

Definition ossl_quic_rstream_available : M QUIC_RSTREAM (Z * bool) :=
  let! q := get in available_loop (S (length (frames (fl (sfs q))))) (fl (sfs q)) None 0.

(** The record at [s] of at most [rec_len] bytes: its data, or a part of the ring
    buffer up to its end; then the range is shortened. *)
Definition record_data (s rec_len : Z) (data : option (list Z)) : M QUIC_RSTREAM (option (list Z) * Z) :=
  match data with
  | None =>
      if negb (rec_len =? 0) then
        let! '(idx, max_len) := on_rbuf (ring_buf_get_ptr s) in
        let! q := get in
        if max_len <? rec_len then
          modify (set_head_range (mkRange s (u64 (s + max_len)))) ;;;
          ret (Some (load (rbuf q) (Some idx) max_len), max_len)
        else ret (Some (load (rbuf q) (Some idx) rec_len), rec_len)
      else ret (None, rec_len)
  | Some d => ret (Some (ztake rec_len d), rec_len)
  end.

(** The record ([None] for NULL), its length, and the fin flag if it is written. *)
Definition ossl_quic_rstream_get_record : M QUIC_RSTREAM (option (list Z) * Z * option bool) :=
  let! locked := on_fl ossl_sframe_list_lock_head in
  match locked with
  | None => ret (None, 0, None)
  | Some p =>
      modify (set_head_range (p_range p)) ;;;
      if negb (p_ret p) then ret (None, 0, Some (p_fin p))
      else
        let s := UintSet.start (p_range p) in
        let e := UintSet.end_ (p_range p) in
        (if e =? s then
           guard (p_fin p) ;;; on_fl (ossl_sframe_list_drop_frames e)
         else ret tt) ;;;
        let! '(rec, len) := record_data s (u64 (e - s)) (p_data p) in
        ret (rec, len, Some (p_fin p))
  end.

Definition ossl_quic_rstream_release_record (read_len : Z) : M QUIC_RSTREAM unit :=
  let! q := get in
  if negb (ossl_sframe_list_is_head_locked (fl (sfs q))) then fail
  else
    let s := UintSet.start (head_range q) in
    let e := UintSet.end_ (head_range q) in
    if (read_len >? u64 (e - s)) && negb (read_len =? SIZE_MAX) then fail
    else
      let offset := if read_len >? u64 (e - s) then e else u64 (s + read_len) in
      on_fl (ossl_sframe_list_drop_frames offset) ;;;
      (if offset >? 0 then on_rbuf (ring_buf_cpop_range 0 (u64 (offset - 1)) (cleanse (fl (sfs q)))) else ret tt) ;;;
      retire offset (get_rtt q).

Definition write_at_ring_buf_cb (logical_offset : Z) (buf : list Z) : M ring_buf unit :=
  ring_buf_write_at logical_offset buf.

Definition ossl_quic_rstream_move_to_rbuf : M QUIC_RSTREAM unit :=
  let! q := get in
  if ring_buf_avail (rbuf q) =? 0 then fail
  else zoom (fun q => (sfs q, rbuf q)) (fun '(s, r) q => set_rbuf r (set_sfs s q))
         (ossl_sframe_list_move_data write_at_ring_buf_cb).

Definition ossl_quic_rstream_resize_rbuf (rbuf_size : Z) : M QUIC_RSTREAM unit :=
  let! q := get in
  if ossl_sframe_list_is_head_locked (fl (sfs q)) then fail
  else rbuf_resize rbuf_size (cleanse (fl (sfs q))).

Definition ossl_quic_rstream_set_cleanse (cl : bool) : M QUIC_RSTREAM unit := on_fl (fl_set (set_cleanse cl)).
End Stream.

(** ** The ring buffer as side storage *)

Definition ring_byte (r : ring_buf) (i : Z) : option Z :=
  if (ctail_offset r <=? i) && (i <? head_offset r) then Some (byte_at r i) else None.

Lemma ring_byte_some r i v :
  ring_byte r i = Some v <-> ctail_offset r <= i < head_offset r /\ byte_at r i = v.
Proof.
  unfold ring_byte. destruct (Z.leb_spec (ctail_offset r) i), (Z.ltb_spec i (head_offset r)); cbn; split;
    try (intros [= <-]); try (intros [? ->]); try done; try lia.
Qed.

#[export] Program Instance ring_storage : SideStorage write_at_ring_buf_cb := {
  ss_ok o r := rb_inv r /\ ctail_offset r = o;
  ss_byte := ring_byte;
  ss_limit := MAX_OFFSET
}.
Next Obligation.
  intros o r off bs [Hr Ho] Hoff Hend. unfold write_at_ring_buf_cb.
  pose proof (ring_buf_write_at_ok r off bs Hr ltac:(lia) ltac:(lia)) as Hw. case_decide as Hd; [left|by right].
  destruct Hw as (r' & E & Hw & Hh & Hi). exists r'. rb Hr. pose proof (zlen_nonneg bs).
  assert (Hhead : head_offset r' = Z.max (head_offset r) (off + zlen bs) \/ (zlen bs = 0 /\ head_offset r' = head_offset r)).
  { rewrite Hh. destruct (Z.eqb_spec (zlen bs) 0); lia. }
  split_and!; [done|done|by rewrite (wrote_ctail _ _ _ _ Hw)| |].
  - intros i Hin. apply ring_byte_some. rewrite (wrote_ctail _ _ _ _ Hw).
    split; [lia|]. by apply (wrote_new _ _ _ _ Hw).
  - intros i v Hn [Hin <-]%ring_byte_some. apply ring_byte_some. rewrite (wrote_ctail _ _ _ _ Hw).
    split; [lia|]. apply (wrote_old _ _ _ _ Hw); lia.
Qed.

(** The first [n] bytes of the stream [f] from the offset [a]. *)
Definition bytes (f : Z -> Z) (a n : Z) : list Z := map (fun k => f (a + Z.of_nat k)) (seq 0 (Z.to_nat n)).

Lemma zlen_bytes f a n : 0 <= n -> zlen (bytes f a n) = n.
Proof. intros. unfold bytes. rewrite zlen_length, length_map, length_seq. lia. Qed.

Lemma znth_map_seq f a n : forall k i, (i < n)%nat -> znth (Z.of_nat i) (map (fun k => f (a + Z.of_nat k)) (seq k n)) = f (a + Z.of_nat (k + i)).
Proof.
  induction n as [|n IH]; intros k i Hi; [lia|]. cbn [seq map znth].
  destruct i as [|i]; [cbn; by rewrite Nat.add_0_r|].
  destruct (Z.leb_spec (Z.of_nat (S i)) 0); [lia|]. replace (Z.of_nat (S i) - 1) with (Z.of_nat i) by lia.
  rewrite IH by lia. do 2 f_equal. lia.
Qed.

Lemma znth_bytes f a n i : 0 <= i < n -> znth i (bytes f a n) = f (a + i).
Proof.
  intros H. unfold bytes. replace i with (Z.of_nat (Z.to_nat i)) at 1 by lia. rewrite znth_map_seq by lia.
  f_equal. lia.
Qed.

Lemma bytes_eq f a n l : zlen l = n -> (forall i, 0 <= i < n -> znth i l = f (a + i)) -> l = bytes f a n.
Proof.
  intros Hl H. pose proof (zlen_nonneg l). apply znth_ext; [rewrite zlen_bytes by lia; done|].
  intros i Hi. rewrite H, znth_bytes by lia. done.
Qed.

Lemma bytes_app f a n m : 0 <= n -> 0 <= m -> bytes f a n ++ bytes f (a + n) m = bytes f a (n + m).
Proof.
  intros Hn Hm. apply bytes_eq.
  - rewrite zlen_app, !zlen_bytes by lia. lia.
  - intros i Hi. destruct (decide (i < n)).
    + rewrite znth_app_l by (rewrite zlen_bytes; lia). apply znth_bytes. lia.
    + rewrite znth_app_r by (rewrite zlen_bytes; lia). rewrite zlen_bytes, znth_bytes by lia. f_equal. lia.
Qed.

Lemma bytes_nil f a n : n <= 0 -> bytes f a n = [].
Proof. intros. unfold bytes. by replace (Z.to_nat n) with 0%nat by lia. Qed.

(** *** Reading from the ring buffer *)

Lemma get_ptr_ok r off :
  rb_inv r -> ctail_offset r <= off < head_offset r ->
  ring_buf_get_ptr off r = (Ok (off mod alloc_ r, alloc_ r - off mod alloc_ r), r) /\
  0 < alloc_ r - off mod alloc_ r <= alloc_ r.
Proof.
  intros Hr Ho. rb Hr. assert (0 < alloc_ r) by lia. pose proof (Z.mod_pos_bound off (alloc_ r)).
  split; [|lia]. unfold ring_buf_get_ptr. unfold bind at 1. cbn [get].
  replace ((off >=? head_offset r) || (off <? ctail_offset r)) with false by lia.
  rewrite (bind_ok _ _ _ _ _ (index_ok r off ltac:(lia))). by rewrite u64_id by lia.
Qed.

Lemma load_ok r off n :
  rb_inv r -> 0 < alloc_ r -> 0 <= n <= alloc_ r - off mod alloc_ r ->
  zlen (load r (Some (off mod alloc_ r)) n) = n /\
  forall k, 0 <= k < n -> znth k (load r (Some (off mod alloc_ r)) n) = byte_at r (off + k).
Proof.
  intros Hr Ha Hn. rb Hr. pose proof (Z.mod_pos_bound off (alloc_ r) Ha). unfold load, byte_at.
  destruct (RingBuf.start r) as [b|]; [|lia]. destruct Hmem as [Hb _].
  split; [rewrite zlen_ztake; [done|]; rewrite zlen_zdrop by lia; lia|].
  intros k Hk. rewrite znth_ztake, znth_zdrop by lia. by rewrite mod_run by lia.
Qed.

(** ** The invariant of a receive stream, and reading *)

Lemma on_rbuf_same {A} (m : M ring_buf A) q x : m (rbuf q) = (x, rbuf q) -> on_rbuf m q = (x, q).
Proof. intros H. unfold on_rbuf, zoom. rewrite H. by destruct q. Qed.

Abbreviation x_of q := (fl (sfs q)).
Abbreviation off_of q := (SFrameList.offset (fl (sfs q))).
Abbreviation fin_of q := (SFrameList.fin (fl (sfs q))).

Section Reads.
Context (f : Z -> Z) (F : Z) (HF : F < 4611686018427387904).

Lemma read_rbuf_ok q s l :
  rb_inv (rbuf q) -> 0 <= s -> 0 < l -> (forall i, s <= i < s + l -> ring_byte (rbuf q) i = Some (f i)) ->
  exists first l' d, read_rbuf s l q = (Ok (first, l', d), q) /\ first ++ ztake l' d = bytes f s l /\
                     zlen first + l' = l /\ 0 <= l' <= zlen d.
Proof.
  intros Hr Hs Hl Hb. set (r := rbuf q) in *. rb Hr.
  assert (Hb' : forall i, s <= i < s + l -> ctail_offset r <= i < head_offset r /\ byte_at r i = f i)
    by (intros i Hi; by apply ring_byte_some, Hb).
  pose proof (Hb' s ltac:(lia)) as [Hin _]. pose proof (Hb' (s + l - 1) ltac:(lia)) as [Hin' _].
  destruct (get_ptr_ok r s Hr Hin) as [E1 Hm1]. set (m := alloc_ r - s mod alloc_ r) in *.
  unfold read_rbuf. rewrite (bind_ok get _ q q q eq_refl). fold r.
  rewrite (bind_ok _ _ _ _ _ (on_rbuf_same _ q _ E1)).
  destruct (Z.ltb_spec m l) as [Hlt|Hge].
  - destruct (load_ok r s m Hr ltac:(lia) ltac:(lia)) as [L1 L2].
    assert (Ec : copy m (load r (Some (s mod alloc_ r)) m) q = (Ok (load r (Some (s mod alloc_ r)) m), q)).
    { unfold copy. rewrite L1. replace (m <? m) with false by lia. by rewrite ztake_ge by lia. }
    rewrite (bind_ok _ _ _ _ _ Ec). rewrite u64_id by lia.
    pose proof (Hb' (s + m) ltac:(lia)) as [Hin2 _]. destruct (get_ptr_ok r (s + m) Hr Hin2) as [E2 Hm2].
    rewrite (bind_ok _ _ _ _ _ (on_rbuf_same _ q _ E2)).
    assert (Hz : (s + m) mod alloc_ r = 0) by (apply mod_round_up; lia). rewrite Hz, Z.sub_0_r in *.
    replace (negb (alloc_ r >? l - m)) with false by lia.
    destruct (load_ok r (s + m) (alloc_ r) Hr ltac:(lia) ltac:(lia)) as [L3 L4]. rewrite Hz in L3, L4.
    do 3 eexists. split; [reflexivity|]. split_and!; [|lia|lia|lia].
    apply bytes_eq; [rewrite zlen_app, zlen_ztake by lia; lia|].
    intros i Hi. destruct (decide (i < m)).
    + rewrite znth_app_l, L2 by lia. by apply Hb'; lia.
    + rewrite znth_app_r, L1 by lia. rewrite znth_ztake, L4 by lia.
      replace (s + m + (i - m)) with (s + i) by lia. by apply Hb'; lia.
  - destruct (load_ok r s m Hr ltac:(lia) ltac:(lia)) as [L1 L2].
    do 3 eexists. split; [reflexivity|]. split_and!; [|change (zlen []) with 0; lia|lia|lia].
    apply bytes_eq; [cbn; rewrite zlen_ztake by lia; lia|]. cbn [app].
    intros i Hi. rewrite znth_ztake, L2 by lia. by apply Hb'; lia.
Qed.

Record rs_inv (q : QUIC_RSTREAM) : Prop := {
  rs_sf : sf_inv f F (sfs q);
  rs_ring : rb_inv (rbuf q);
  rs_ctail : ctail_offset (rbuf q) = SFrameList.offset (fl (sfs q));
  rs_backed : Forall (backed f write_at_ring_buf_cb (SFrameList.offset (fl (sfs q))) (rbuf q)) (frames (fl (sfs q)))
}.

(** The data of the first frame, from [e] on. *)
Lemma frame_read q e sf l :
  rb_inv (rbuf q) -> frame_ok f F sf ->
  backed f write_at_ring_buf_cb (SFrameList.offset (fl (sfs q))) (rbuf q) sf ->
  0 <= SFrameList.offset (fl (sfs q)) <= e -> st sf <= e -> 0 < l <= en sf - e ->
  exists first l' d, match zdrop (e - st sf) <$> data sf with
                     | Some d => ret ([], l, d)
                     | None => read_rbuf e l
                     end q = (Ok (first, l', d), q) /\
    first ++ ztake l' d = bytes f e l /\ zlen first + l' = l /\ 0 <= l' <= zlen d.
Proof.
  intros Hr Hf Hb Ho Hst Hl. destruct (data sf) as [d|] eqn:Hd; cbn [fmap option_fmap option_map].
  - destruct (frame_tail f F sf d e Hf Hd ltac:(lia)) as [Hz Hbd].
    do 3 eexists. split; [reflexivity|]. split_and!; [|change (zlen []) with 0; lia|lia|lia].
    apply bytes_eq; [cbn; by rewrite zlen_ztake by lia|]. intros i Hi. cbn [app]. rewrite znth_ztake by lia.
    rewrite <-Hbd by lia. f_equal. lia.
  - apply read_rbuf_ok; [done|lia|lia|]. intros i Hi. apply Hb; [done|]. lia.
Qed.

(** Whether the first frame can be read from [e] on. *)
Definition starts (e : Z) (l : list STREAM_FRAME) : bool := match l with sf :: _ => st sf <=? e | [] => false end.

Lemma starts_not e l : starts e l = false -> run_end e l = e.
Proof. destruct l as [|sf l]; cbn; [done|]. by intros ->. Qed.

(** The bytes a read of [size] takes, and whether they reach the end of the stream. *)
Definition read_count (size e : Z) (l : list STREAM_FRAME) : Z := Z.min size (run_end e l - e).
Definition read_fin (x : SFRAME_LIST) (size e : Z) (l : list STREAM_FRAME) : bool :=
  SFrameList.fin x && (e + read_count size e l =? last_end e l).

(** One frame that the loop reads from. *)
Lemma read_loop_step fuel it size off out q e s sf next :
  rs_inv q -> iter_pos (fl (sfs q)) it = (e, sf :: next) -> chain s e (sf :: next) -> frame_ok f F sf ->
  backed f write_at_ring_buf_cb (SFrameList.offset (fl (sfs q))) (rbuf q) sf ->
  0 <= SFrameList.offset (fl (sfs q)) <= e -> st sf <= e -> 0 <= size ->
  let l := Z.min size (en sf - e) in
  let fin_ := if en sf - e >? size then false else match next with [] => SFrameList.fin (fl (sfs q)) | _ => false end in
  read_loop (S fuel) it size off out q =
    if size - l =? 0 then (Ok (e + l, out ++ bytes f e l, fin_), q)
    else read_loop fuel (Some (sf, next)) (size - l) (e + l) (out ++ bytes f e l) q.
Proof.
  intros Hq Hp Hc Hf Hb Ho Hst Hsz l fin_. cbn [read_loop]. rewrite (bind_ok get _ q q q eq_refl).
  rewrite (peek_step _ _ _ _ _ Hp Hc). replace (st sf <=? e) with true by lia.
  destruct Hc as (_ & He & _). pose proof Hf as (? & ? & _).
  cbn [p_ret p_range p_data p_fin p_iter UintSet.start UintSet.end_ negb]. rewrite u64_id by lia.
  replace (if en sf - e >? size then size else en sf - e) with l
    by (subst l; destruct (Z.gtb_spec (en sf - e) size); lia).
  rewrite u64_id by lia. fold fin_. destruct (Z.eqb_spec l 0) as [Hl0|Hl0].
  { replace (size - l =? 0) with true by lia. by rewrite bytes_nil, app_nil_r by lia. }
  destruct (frame_read q e sf l) as (first & l' & d & E & Hbytes & Hlen & Hl'); [by apply rs_ring|done..|lia|].
  rewrite (bind_ok _ _ _ _ _ E).
  assert (Ec : copy l' d q = (Ok (ztake l' d), q)) by (unfold copy; by replace (zlen d <? l') with false by lia).
  rewrite (bind_ok _ _ _ _ _ Ec). rewrite Hbytes. replace (size - zlen first - l') with (size - l) by lia.
  by destruct (size - l =? 0).
Qed.

Lemma read_loop_ok l : forall fuel it size off out q e s,
  rs_inv q -> iter_pos (fl (sfs q)) it = (e, l) -> chain s e l -> Forall (frame_ok f F) l ->
  Forall (backed f write_at_ring_buf_cb (SFrameList.offset (fl (sfs q))) (rbuf q)) l ->
  0 <= SFrameList.offset (fl (sfs q)) <= e -> 0 <= size -> (length l < fuel)%nat ->
  read_loop fuel it size off out q =
    (Ok (if starts e l then e + read_count size e l else off, out ++ bytes f e (read_count size e l),
         read_fin (fl (sfs q)) size e l), q).
Proof.
  induction l as [|sf next IH]; intros fuel it size off out q e s Hq Hp Hc Hf Hb Ho Hsz Hfuel;
    (destruct fuel as [|fuel]; [cbn in Hfuel; lia|]).
  { cbn [read_loop]. rewrite (bind_ok get _ q q q eq_refl), (peek_step _ _ _ _ _ Hp Hc). cbn.
    unfold read_fin, read_count. cbn. rewrite bytes_nil, app_nil_r by lia.
    change (last_end e []) with e. replace (e + Z.min size (e - e) =? e) with true by lia. by rewrite andb_true_r. }
  apply Forall_cons_1 in Hf as [Hf Hfs]. apply Forall_cons_1 in Hb as [Hb Hbs].
  pose proof Hc as (_ & He & Hn). pose proof (chain_last _ _ _ Hn) as [_ Hle]. pose proof (run_end_ge _ _ _ Hn) as Hre.
  unfold read_fin, read_count. rewrite last_end_cons. cbn [starts run_end].
  destruct (Z.leb_spec (st sf) e) as [Hst|Hst].
  2: { cbn [read_loop]. rewrite (bind_ok get _ q q q eq_refl), (peek_step _ _ _ _ _ Hp Hc).
       replace (st sf <=? e) with false by lia. cbn. rewrite bytes_nil, app_nil_r by lia.
       replace (e + Z.min size (e - e) =? last_end (en sf) next) with false by lia. by rewrite andb_false_r. }
  rewrite (read_loop_step fuel it size off out q e s sf next) by done.
  set (l := Z.min size (en sf - e)). destruct (Z.eqb_spec (size - l) 0) as [H0|H0].
  - replace (Z.min size (run_end (en sf) next - e)) with l by lia. do 3 f_equal.
    destruct (Z.gtb_spec (en sf - e) size).
    + replace (e + l =? last_end (en sf) next) with false by lia. by rewrite andb_false_r.
    + destruct next as [|y next]; [change (last_end (en sf) []) with (en sf)|].
      * replace (e + l =? en sf) with true by lia. by rewrite andb_true_r.
      * rewrite last_end_cons. destruct Hn as (_ & ? & Hn). destruct (chain_last _ _ _ Hn).
        replace (e + l =? last_end (en y) next) with false by lia. by rewrite andb_false_r.
  - assert (Hl : l = en sf - e) by lia. rewrite Hl. replace (e + (en sf - e)) with (en sf) by lia.
    rewrite (IH fuel (Some (sf, next)) _ _ _ q (en sf) (st sf)); [|done|done|done|done|done|lia|lia|cbn in Hfuel; lia].
    unfold read_fin, read_count. set (n := Z.min (size - (en sf - e)) (run_end (en sf) next - en sf)).
    replace (Z.min size (run_end (en sf) next - e)) with (en sf - e + n) by lia.
    replace (e + (en sf - e + n)) with (en sf + n) by lia. do 3 f_equal.
    f_equal; [|by rewrite <-app_assoc, <-(bytes_app f e), Z.add_sub_assoc, Z.add_simpl_l by lia].
    destruct (starts (en sf) next) eqn:Hstart; [done|]. apply starts_not in Hstart. lia.
Qed.

(** [q'] is [q] after [n] more bytes were taken off the front. *)
Record consumed (n : Z) (q q' : QUIC_RSTREAM) : Prop := {
  cs_inv : rs_inv q';
  cs_offset : off_of q' = off_of q + n;
  cs_fin : fin_of q' = fin_of q;
  cs_end : last_end (off_of q') (frames (x_of q')) = last_end (off_of q) (frames (x_of q));
  cs_covered i : off_of q + n <= i -> covered (frames (x_of q')) i <-> covered (frames (x_of q)) i;
  cs_rxfc : rxfc q' = rxfc q;
  cs_statm : statm q' = statm q;
  cs_rxm : rxm q' = rxm q
}.

Lemma consumed_refl q : rs_inv q -> consumed 0 q q.
Proof. intros H. split; try done. lia. Qed.

(** Dropping the frames up to [off], with a ring buffer that keeps the bytes after it. *)
Lemma drop_consumed q off k r :
  rs_inv q -> off_of q <= off <= last_end (off_of q) (frames (x_of q)) ->
  k ≡ₚ held (frames (after_drop (x_of q) off)) -> rb_inv r -> ctail_offset r = off ->
  (forall i, off <= i < head_offset (rbuf q) -> i < head_offset r /\ byte_at r i = byte_at (rbuf q) i) ->
  consumed (off - off_of q) q (set_rbuf r (set_sfs (mkSF (after_drop (x_of q) off) k (sf_heap (sfs q))) q)).
Proof.
  intros [Hs Hr Hc Hb] Hoff Hk Ir Rc Rb. pose proof Hs as [Hx HR].
  split; cbn [set_rbuf set_sfs sfs fl rbuf rxfc statm rxm]; try done.
  - split; cbn [set_rbuf set_sfs sfs fl rbuf]; [|done|done|].
    + split; [by apply after_drop_inv|done].
    + cbn [after_drop frames SFrameList.offset]. apply Forall_forall. intros sf Hin%drop_le_incl Hd i Hi.
      rewrite Forall_forall in Hb. apply ring_byte_some.
      pose proof (Hb sf Hin Hd i ltac:(lia)) as [Hw <-]%ring_byte_some.
      destruct (Rb i ltac:(lia)). split; [lia|done].
  - cbn. lia.
  - cbn. apply (drop_le_last_end off (off_of q)); [exact (fl_chain _ _ _ Hx)|done].
  - intros i Hi. cbn. apply drop_le_covered. lia.
Qed.

(** Dropping the frames up to [off] and culling the ring buffer. *)
Lemma drop_ok q off cl :
  rs_inv q -> off_of q <= off <= last_end (off_of q) (frames (x_of q)) ->
  exists s r, ossl_sframe_list_drop_frames off (sfs q) = (Ok tt, s) /\
    (if off >? 0 then ring_buf_cpop_range 0 (u64 (off - 1)) cl else ret tt) (rbuf q) = (Ok tt, r) /\
    consumed (off - off_of q) q (set_rbuf r (set_sfs s q)) /\ head_locked (fl s) = false.
Proof.
  intros Hq Hoff. pose proof Hq as [Hs Hr Hc Hb]. pose proof Hs as [Hx HR].
  pose proof (last_end_le f F _ Hx) as Hle. pose proof (fl_offset _ _ _ Hx).
  pose proof (drop_frames_ok f F HF (sfs q) off Hs) as Hd. rewrite decide_True in Hd by done.
  destruct Hd as (k & Ed & Hk). exists (mkSF (after_drop (x_of q) off) k (sf_heap (sfs q))).
  destruct (Z.gtb_spec off 0).
  - rewrite u64_id by lia.
    destruct (cpop_range_ok (rbuf q) 0 (off - 1) cl Hr) as (r & Er & Ir & Ra & Rc & Rh & Rb & _);
      [lia|unfold MAX_OFFSET; lia|lia|].
    exists r. split_and!; [done|done| |done]. apply drop_consumed; [done..|lia|].
    intros i Hi. split; [lia|]. apply Rb. lia.
  - exists (rbuf q). split_and!; [done|done| |done]. apply drop_consumed; [done..|lia|].
    intros i Hi. split; [lia|done].
Qed.

(** A read of [size] bytes, or a look at them. *)
Lemma read_internal_ok q size drop :
  rs_inv q -> 0 <= size ->
  let n := read_count size (off_of q) (frames (x_of q)) in
  exists q', read_internal size drop q =
      (Ok (bytes f (off_of q) n, read_fin (x_of q) size (off_of q) (frames (x_of q))), q') /\
    if drop then consumed n q q' /\ (head_locked (x_of q') = false \/ q' = q /\ n = 0) else q' = q.
Proof.
  intros Hq Hsz n. pose proof Hq as [Hs Hr Hc Hb]. pose proof Hs as [Hx HR].
  pose proof (fl_offset _ _ _ Hx) as Hoff. pose proof (run_end_ge _ _ _ (fl_chain _ _ _ Hx)) as Hre.
  unfold read_internal. rewrite (bind_ok get _ q q q eq_refl).
  rewrite (bind_ok _ _ _ _ _ (read_loop_ok (frames (x_of q)) (S (length (frames (x_of q)))) None size 0 [] q (off_of q) 0 Hq eq_refl
    (fl_chain _ _ _ Hx) (fl_frames _ _ _ Hx) Hb ltac:(lia) Hsz ltac:(lia))).
  fold n. cbn [app]. set (off := if starts _ _ then _ else 0).
  destruct (drop && negb (off =? 0)) eqn:Ed.
  - apply andb_true_iff in Ed as [-> Hoff0]. subst off.
    destruct (starts (off_of q) (frames (x_of q))) eqn:Est; [|done]. clear Est.
    assert (Hn : off_of q + n <> 0) by (intros E; by rewrite E in Hoff0).
    destruct (drop_ok q (off_of q + n) (cleanse (x_of q)) Hq) as (s & r & E1 & E2 & Hcs & Hl);
      [unfold n, read_count; lia|].
    replace (off_of q + n >? 0) with true in E2 by (unfold n, read_count in *; lia).
    exists (set_rbuf r (set_sfs s q)). replace (off_of q + n - off_of q) with n in Hcs by lia. split; [|by split; [|left]].
    unfold bind, try_, on_fl, on_rbuf, zoom. rewrite E1. cbn [rbuf set_sfs]. rewrite E2. done.
  - exists q. split; [done|]. destruct drop; [|done]. subst off.
    assert (n = 0) as ->; [|split; [by apply consumed_refl|by right]].
    unfold n, read_count in *. destruct (starts (off_of q) (frames (x_of q))) eqn:Est.
    + cbn in Ed. lia.
    + rewrite (starts_not _ _ Est). lia.
Qed.

Lemma available_loop_ok x l : forall fuel it q e s avail,
  iter_pos x it = (e, l) -> chain s e l -> 0 <= e -> 0 <= avail -> last_end e l <= F -> avail + (last_end e l - e) <= F ->
  (length l < fuel)%nat ->
  available_loop fuel x it avail q =
    (Ok (avail + (run_end e l - e), SFrameList.fin x && (run_end e l =? last_end e l)), q).
Proof.
  induction l as [|sf next IH]; intros fuel it q e s avail Hp Hc He Ha HeF HaF Hfuel;
    (destruct fuel as [|fuel]; [cbn in Hfuel; lia|]); cbn [available_loop]; rewrite (peek_step _ _ _ _ _ Hp Hc).
  { cbn. change (last_end e []) with e. rewrite Z.eqb_refl, andb_true_r. unfold ret. do 3 f_equal. lia. }
  pose proof Hc as (_ & Hlt & Hn). pose proof (chain_last _ _ _ Hn) as [_ Hle]. rewrite last_end_cons in *.
  cbn [run_end]. destruct (Z.leb_spec (st sf) e); cbn [p_ret p_iter p_range p_fin UintSet.start UintSet.end_].
  - rewrite (u64_id (en sf - e)), u64_id by lia.
    rewrite (IH fuel (Some (sf, next)) q (en sf) (st sf)); [|done|done|lia|lia|lia|lia|cbn in Hfuel; lia].
    do 3 f_equal. lia.
  - replace (e =? last_end (en sf) next) with false by lia. rewrite andb_false_r. unfold ret. do 3 f_equal. lia.
Qed.

Lemma available_ok q :
  rs_inv q ->
  ossl_quic_rstream_available q =
    (Ok (run_end (off_of q) (frames (x_of q)) - off_of q,
         fin_of q && (run_end (off_of q) (frames (x_of q)) =? last_end (off_of q) (frames (x_of q)))), q).
Proof.
  intros [Hs _ _ _]. destruct Hs as [Hx _]. pose proof (fl_offset _ _ _ Hx). pose proof (last_end_le f F _ Hx).
  unfold ossl_quic_rstream_available. rewrite (bind_ok get _ q q q eq_refl).
  by rewrite (available_loop_ok (x_of q) (frames (x_of q)) _ None q (off_of q) 0 0) by
    (done || lia || exact (fl_chain _ _ _ Hx)).
Qed.
End Reads.

(** ** The contract of a receive stream

    The contents [f] of the stream arrive in pieces. The abstract state is the
    number of bytes taken by the application, the set of offsets that arrived, and
    whether the end is known. *)

Record rspec := mkSpec { a_off : Z; a_have : Z -> Prop; a_fin : bool; a_locked : bool }.

Inductive rs_op :=
| OQueue (pkt : option nat) (off : Z) (data : option (list Z)) (fin : bool)
| ORead (size : Z)
| OPeek (size : Z)
| OAvailable
| OGetRecord
| ORelease (read_len : Z)
| OMove
| OResize (size : Z)
| OCleanse (cl : bool).

Inductive rs_out :=
| OutFail
| OutDone
| OutBytes (bs : list Z) (fin : bool)
| OutAvailable (n : Z) (fin : bool)
| OutRecord (rec : option (list Z)) (len : Z) (fin : option bool).

(** The length of the data argument. *)
Definition data_len (data : option (list Z)) : Z := match data with Some d => zlen d | None => 0 end.

Section Contract.
Context (f : Z -> Z) (F : Z).

(** Exactly [k] bytes can be read. *)
Definition readable (a : rspec) (k : Z) : Prop :=
  0 <= k /\ (forall i, a_off a <= i < a_off a + k -> a_have a i) /\ ~ a_have a (a_off a + k).

(** The flag that says that [n] more bytes end the stream. *)
Definition ends (a : rspec) (n : Z) (fi : bool) : Prop := fi = true <-> a_fin a = true /\ a_off a + n = F.

Definition take (a : rspec) (n : Z) : rspec := mkSpec (a_off a + n) (a_have a) (a_fin a) false.

(** The results that an operation may have, and the state after it. *)
Definition spec_step (a : rspec) (op : rs_op) (out : rs_out) (a' : rspec) : Prop :=
  match op, out with
  | OQueue _ off data fin, OutDone =>
      a' = mkSpec (a_off a) (fun i => a_have a i \/ off <= i < off + data_len data) (fin || a_fin a) (a_locked a)
  | ORead size, OutBytes bs fi =>
      exists k, readable a k /\ bs = bytes f (a_off a) (Z.min size k) /\ ends a (Z.min size k) fi /\
        (a' = take a (Z.min size k) \/ (k = 0 \/ size = 0) /\ a' = a)
  | OPeek size, OutBytes bs fi =>
      exists k, readable a k /\ bs = bytes f (a_off a) (Z.min size k) /\ ends a (Z.min size k) fi /\ a' = a
  | OAvailable, OutAvailable n fi => readable a n /\ ends a n fi /\ a' = a
  | OGetRecord, OutRecord None 0 fi =>
      a' = a /\ (a_locked a = true /\ fi = None \/ a_locked a = false /\ readable a 0 /\ exists b, fi = Some b /\ ends a 0 b)
  | OGetRecord, OutRecord (Some bs) len fi =>
      a_locked a = false /\ (exists k, readable a k /\ 0 < len <= k) /\ bs = bytes f (a_off a) len /\
      a' = mkSpec (a_off a) (a_have a) (a_fin a) true
  | ORelease _, OutDone =>
      a_locked a = true /\ exists n k, readable a k /\ 0 <= n <= k /\ a' = take a n
  | OMove, OutDone | OResize _, OutDone | OCleanse _, OutDone => a' = a
  | OQueue _ _ _ _, OutFail | OMove, OutFail | OResize _, OutFail | ORelease _, OutFail => a' = a
  | _, _ => False
  end.

Fixpoint spec_run (a : rspec) (ops : list rs_op) (outs : list rs_out) (a' : rspec) : Prop :=
  match ops, outs with
  | [], [] => a' = a
  | op :: ops, out :: outs => exists a1, spec_step a op out a1 /\ spec_run a1 ops outs a'
  | _, _ => False
  end.

(** The data that is queued is part of the stream, and sizes are those of the machine. *)
Definition op_ok (op : rs_op) : Prop :=
  match op with
  | OQueue _ off data fin =>
      0 <= off /\ off + data_len data <= F /\ (fin = true -> off + data_len data = F) /\
      forall d, data = Some d -> forall i, off <= i < off + zlen d -> znth (i - off) d = f i
  | ORead n | OPeek n | ORelease n => 0 <= n < U64_MOD
  | OResize n => 0 <= n < 9223372036854775808
  | _ => True
  end.
End Contract.

(** ** The implementation keeps the contract *)

Section Refinement.
Context (fresh : Z -> list Z) (fresh_len : forall n, 0 <= n -> zlen (fresh n) = n) (now : nat -> OSSL_TIME).
Context (f : Z -> Z) (F : Z) (HF : F < 4611686018427387904).

(** The result of a call as an output. *)
Definition outcome {A} (g : A -> rs_out) (m : M QUIC_RSTREAM A) : M QUIC_RSTREAM rs_out :=
  fun q => match m q with
           | (Ok x, q') => (Ok (g x), q')
           | (Err, q') => (Ok OutFail, q')
           | (Ub, q') => (Ub, q')
           end.

Definition exec_op (op : rs_op) : M QUIC_RSTREAM rs_out :=
  match op with
  | OQueue pkt off data fin =>
      outcome (fun _ => OutDone) (ossl_quic_rstream_queue_data pkt off data (data_len data) fin)
  | ORead size => outcome (fun '(bs, fi) => OutBytes bs fi) (ossl_quic_rstream_read now size)
  | OPeek size => outcome (fun '(bs, fi) => OutBytes bs fi) (ossl_quic_rstream_peek size)
  | OAvailable => outcome (fun '(n, fi) => OutAvailable n fi) ossl_quic_rstream_available
  | OGetRecord => outcome (fun '(rec, len, fi) => OutRecord rec len fi) ossl_quic_rstream_get_record
  | ORelease n => outcome (fun _ => OutDone) (ossl_quic_rstream_release_record now n)
  | OMove => outcome (fun _ => OutDone) ossl_quic_rstream_move_to_rbuf
  | OResize n => outcome (fun _ => OutDone) (ossl_quic_rstream_resize_rbuf fresh n)
  | OCleanse cl => outcome (fun _ => OutDone) (ossl_quic_rstream_set_cleanse cl)
  end.

Fixpoint exec_ops (ops : list rs_op) : M QUIC_RSTREAM (list rs_out) :=
  match ops with
  | [] => ret []
  | op :: ops => let! o := exec_op op in let! os := exec_ops ops in ret (o :: os)
  end.

(** The stream implements the abstract state; it has no flow controller. *)
Record sim (q : QUIC_RSTREAM) (a : rspec) : Prop := {
  sim_inv : rs_inv f F q;
  sim_off : off_of q = a_off a;
  sim_fin : fin_of q = a_fin a;
  sim_have i : off_of q <= i -> covered (frames (x_of q)) i <-> a_have a i;
  sim_locked : head_locked (x_of q) = a_locked a;
  sim_head : a_locked a = true ->
    UintSet.start (head_range q) = off_of q /\
    off_of q < UintSet.end_ (head_range q) <= run_end (off_of q) (frames (x_of q));
  sim_rxfc : rxfc q = None
}.

Lemma sim_chain q a : sim q a -> chain 0 (off_of q) (frames (x_of q)).
Proof. intros H. destruct (sim_inv _ _ H) as [[Hx _] _ _ _]. exact (fl_chain _ _ _ Hx). Qed.

Lemma sim_readable q a : sim q a -> readable a (run_end (off_of q) (frames (x_of q)) - off_of q).
Proof.
  intros H. pose proof (sim_chain _ _ H) as Hc. destruct (run_end_covered _ _ _ Hc) as [I1 I2].
  pose proof (run_end_ge _ _ _ Hc). destruct H as [_ Ho _ Hh _ _ _]. split; [lia|]. rewrite <-Ho.
  replace (off_of q + (run_end (off_of q) (frames (x_of q)) - off_of q))
    with (run_end (off_of q) (frames (x_of q))) by lia.
  split; [intros i Hi; apply Hh; [lia|]; apply I1; lia|]. intros Hx. apply I2, Hh; [lia|done].
Qed.

(** The flag of a read, in terms of the end of the stream. *)
Lemma sim_ends q a n :
  sim q a -> ends F a n (fin_of q && (off_of q + n =? last_end (off_of q) (frames (x_of q)))).
Proof.
  intros H. destruct (sim_inv _ _ H) as [[Hx _] _ _ _]. destruct H as [_ Ho Hf _ _ _ _].
  pose proof (fl_fin _ _ _ Hx) as Hfin. unfold ends. rewrite <-Ho, <-Hf, andb_true_iff, Z.eqb_eq.
  destruct (fin_of q); [rewrite Hfin by done; tauto|naive_solver].
Qed.

(** More coverage never shortens what can be read. *)
Lemma run_end_mono e l l' :
  chain 0 e l -> chain 0 e l' -> (forall i, e <= i -> covered l i -> covered l' i) -> run_end e l <= run_end e l'.
Proof.
  intros H H' Hc. destruct (Z.le_gt_cases (run_end e l) (run_end e l')) as [?|Hgt]; [done|].
  destruct (run_end_covered _ _ _ H) as [I1 _], (run_end_covered _ _ _ H') as [_ I2]. pose proof (run_end_ge _ _ _ H').
  destruct I2. apply Hc; [lia|]. apply I1. lia.
Qed.

Definition step_ok (op : rs_op) (q : QUIC_RSTREAM) (a : rspec) : Prop :=
  exists out q' a', exec_op op q = (Ok out, q') /\ spec_step f F a op out a' /\ sim q' a'.

Lemma queue_step q a pkt off data fin :
  sim q a -> op_ok f F (OQueue pkt off data fin) -> step_ok (OQueue pkt off data fin) q a.
Proof.
  intros H (Ho & He & Hfin & Hd). unfold step_ok. cbn [exec_op]. unfold outcome, ossl_quic_rstream_queue_data.
  assert (Hlen : 0 <= data_len data) by (destruct data; cbn; [apply zlen_nonneg|lia]).
  destruct (_ || _) eqn:Eg; [exists OutFail, q, a; done|].
  rewrite u64_id by lia. set (nf := mkFrame (mkRange off (off + data_len data)) pkt data).
  assert (Hnf : frame_ok f F nf).
  { split_and!; cbn; [lia|lia|lia|]. intros d ->. cbn. split; [lia|]. by apply Hd. }
  destruct (sim_inv _ _ H) as [Hs Hr Hc Hb]. pose proof Hs as [Hx HR].
  destruct (insert_ok f F HF (sfs q) _ pkt data fin Hs Hnf Hfin) as [(k & o & E & Hk)|(o & Eo & E)].
  - exists OutDone, (set_sfs (mkSF (after_insert (x_of q) nf fin) k o) q). eexists.
    unfold on_fl, zoom. rewrite E. split; [done|]. split; [done|].
    destruct (inserted_adds (off_of q) nf (frames (x_of q)) (fl_chain _ _ _ Hx) ltac:(cbn; lia)) as [A1 A2 A3].
    destruct H as [_ S1 S2 S3 S4 S5 S6]. split; cbn; try done.
    + split; cbn; [|done|done|].
      * split; [by apply after_insert_inv|done].
      * apply Forall_forall. intros sf [->|Hin]%inserted_incl.
        -- intros Hnone i Hi. cbn in Hnone, Hi. rewrite Hnone in Hi. cbn in Hi. lia.
        -- rewrite Forall_forall in Hb. by apply Hb.
    + by rewrite S2.
    + intros i Hi. rewrite A2 by done. cbn. rewrite S3 by done. done.
    + intros Hl. destruct (S5 Hl) as [? ?]. split; [done|].
      assert (run_end (off_of q) (frames (x_of q)) <= run_end (off_of q) (inserted (off_of q) nf (frames (x_of q)))); [|lia].
      apply run_end_mono; [exact (fl_chain _ _ _ Hx)|done|]. intros i Hi ?. apply A2; [done|]. by left.
  - exists OutFail, (set_sfs (mkSF (x_of q) (refs (sfs q)) o) q), a. unfold on_fl, zoom. rewrite E.
    split; [done|]. split; [done|]. destruct H as [_ S1 S2 S3 S4 S5 S6]. by split; cbn.
Qed.

Lemma count_readable q a size :
  sim q a -> read_count size (off_of q) (frames (x_of q))
             = Z.min size (run_end (off_of q) (frames (x_of q)) - off_of q).
Proof. done. Qed.

(** Taking bytes off the front keeps the relation; the head is unlocked. *)
Lemma consumed_sim q q' a n :
  sim q a -> 0 <= n -> consumed f F n q q' -> head_locked (x_of q') = false -> sim q' (take a n).
Proof.
  intros [_ S1 S2 S3 S4 S5 S6] Hn [C1 C2 C3 C4 C5 C6 C7 C8] Hl.
  split; cbn [take a_off a_have a_fin a_locked]; [done|lia|congruence| |done|done|congruence].
  intros i Hi. rewrite C5 by lia. apply S3. lia.
Qed.

Lemma retire_none q n rtt : rxfc q = None -> retire now n rtt q = (Ok tt, q).
Proof. intros H. unfold retire, bind, get. by rewrite H. Qed.

Lemma read_step q a size : sim q a -> op_ok f F (ORead size) -> step_ok (ORead size) q a.
Proof.
  intros H [Hsz _]. destruct (read_internal_ok f F HF q size true (sim_inv _ _ H) Hsz) as (q' & E & Hcs & Hl).
  set (n := read_count size (off_of q) (frames (x_of q))) in *. pose proof (sim_readable _ _ H) as Hk.
  pose proof (run_end_ge _ _ _ (sim_chain _ _ H)).
  assert (Hrun : exec_op (ORead size) q =
    (Ok (OutBytes (bytes f (off_of q) n) (read_fin (x_of q) size (off_of q) (frames (x_of q)))), q')).
  { cbn [exec_op]. unfold outcome, ossl_quic_rstream_read. rewrite (bind_ok get _ q q q eq_refl).
    rewrite (bind_ok _ _ _ _ _ E). cbv beta iota.
    rewrite (bind_ok _ _ _ _ _ (retire_none q' _ _ (eq_trans (cs_rxfc _ _ _ _ _ Hcs) (sim_rxfc _ _ H)))). done. }
  assert (Hout : forall a', a' = take a n \/ n = 0 /\ a' = a -> spec_step f F a (ORead size)
            (OutBytes (bytes f (off_of q) n) (read_fin (x_of q) size (off_of q) (frames (x_of q)))) a').
  { intros a' Ha'. exists (run_end (off_of q) (frames (x_of q)) - off_of q).
    fold (read_count size (off_of q) (frames (x_of q))). fold n.
    rewrite <-(sim_off _ _ H). split_and!; [done|done|by apply sim_ends|].
    destruct Ha' as [?|[? ?]]; [by left|right]. split; [unfold n, read_count in *; lia|done]. }
  destruct Hl as [Hl|[-> Hn]].
  - exists (OutBytes (bytes f (off_of q) n) (read_fin (x_of q) size (off_of q) (frames (x_of q)))), q', (take a n).
    split; [done|]. split; [by apply Hout; left|]. apply (consumed_sim q); [done|unfold n, read_count; lia|done..].
  - do 3 eexists. split; [exact Hrun|]. split; [apply Hout; right; done|done].
Qed.

Lemma peek_step_ok q a size : sim q a -> op_ok f F (OPeek size) -> step_ok (OPeek size) q a.
Proof.
  intros H [Hsz _]. destruct (read_internal_ok f F HF q size false (sim_inv _ _ H) Hsz) as (q' & E & ->).
  do 3 eexists. cbn [exec_op]. unfold outcome, ossl_quic_rstream_peek. rewrite E. split; [done|]. split; [|exact H].
  exists (run_end (off_of q) (frames (x_of q)) - off_of q). rewrite <-(sim_off _ _ H).
  split_and!; [by apply sim_readable|done|by apply sim_ends|done].
Qed.

Lemma available_step q a : sim q a -> step_ok OAvailable q a.
Proof.
  intros H. do 3 eexists. cbn [exec_op]. unfold outcome. rewrite (available_ok f F HF q (sim_inv _ _ H)).
  split; [done|]. split; [|exact H]. split_and!; [by apply sim_readable| |done].
  replace (run_end (off_of q) (frames (x_of q)) =? last_end (off_of q) (frames (x_of q)))
    with (off_of q + (run_end (off_of q) (frames (x_of q)) - off_of q) =? last_end (off_of q) (frames (x_of q)))
    by (f_equal; lia).
  by apply sim_ends.
Qed.

(** The same frames up to how their data is kept, and the same offset. *)
Lemma same_sim q q' a :
  sim q a -> rs_inv f F q' -> off_of q' = off_of q -> fin_of q' = fin_of q ->
  (forall i, covered (frames (x_of q')) i <-> covered (frames (x_of q)) i) ->
  head_locked (x_of q') = head_locked (x_of q) -> head_range q' = head_range q -> rxfc q' = rxfc q -> sim q' a.
Proof.
  intros H Hi E1 E2 E3 E4 E5 E6. pose proof (sim_chain _ _ H) as Hc.
  assert (Hc' : chain 0 (off_of q) (frames (x_of q'))).
  { destruct Hi as [[Hx _] _ _ _]. rewrite <-E1. exact (fl_chain _ _ _ Hx). }
  destruct H as [_ S1 S2 S3 S4 S5 S6]. split; try congruence.
  - intros i Hi'. rewrite E3. apply S3. lia.
  - intros Hl. rewrite E1, E5. destruct (S5 Hl) as [? ?]. split; [done|].
    assert (run_end (off_of q) (frames (x_of q)) <= run_end (off_of q) (frames (x_of q'))); [|lia].
    apply run_end_mono; [done..|]. intros i _ ?. by apply E3.
Qed.

Lemma move_step q a : sim q a -> step_ok OMove q a.
Proof.
  intros H. destruct (sim_inv _ _ H) as [Hs Hr Hc Hb]. pose proof Hs as [Hx _].
  unfold step_ok. cbn [exec_op]. unfold outcome, ossl_quic_rstream_move_to_rbuf.
  rewrite (bind_ok get _ q q q eq_refl). destruct (ring_buf_avail (rbuf q) =? 0); [exists OutFail, q, a; done|].
  assert (Hmv : forall x, moved f F write_at_ring_buf_cb (x_of q) (frames (x_of q)) x ->
            sim (set_rbuf (snd x) (set_sfs (fst x) q)) a).
  { intros [s r] Hm. pose proof (moved_inv f F _ _ _ Hx Hm) as Hi. destruct Hm as [V1 V2 V3 V4 V5 V6 V7 [V8 V9]].
    cbn [fst snd] in *.
    assert (O1 : SFrameList.offset (fl s) = off_of q) by (by rewrite V1).
    assert (O2 : SFrameList.fin (fl s) = fin_of q) by (by rewrite V1).
    assert (O3 : head_locked (fl s) = head_locked (x_of q)) by (by rewrite V1).
    apply (same_sim q); try done. split; cbn [set_rbuf set_sfs sfs rbuf]; rewrite ?O1; done. }
  unfold zoom. assert (Hlim : F < ss_limit (SideStorage := ring_storage)) by (unfold ss_limit; cbn; unfold MAX_OFFSET; lia).
  destruct (move_data_ok f F HF write_at_ring_buf_cb Hlim (sfs q) (rbuf q) Hs (conj Hr Hc) Hb)
    as [(x & E & Hm & _)|(x & E & Hm)]; rewrite E; destruct x as [s r]; specialize (Hmv _ Hm).
  - by exists OutDone, (set_rbuf r (set_sfs s q)), a.
  - by exists OutFail, (set_rbuf r (set_sfs s q)), a.
Qed.

Lemma resize_step q a n : sim q a -> op_ok f F (OResize n) -> step_ok (OResize n) q a.
Proof.
  intros H Hn. cbn in Hn. destruct (sim_inv _ _ H) as [Hs Hr Hc Hb].
  unfold step_ok. cbn [exec_op]. unfold outcome, ossl_quic_rstream_resize_rbuf.
  rewrite (bind_ok get _ q q q eq_refl). unfold ossl_sframe_list_is_head_locked.
  destruct (head_locked (x_of q)); [exists OutFail, q, a; done|]. unfold rbuf_resize.
  destruct (alloc (sf_heap (sfs q))) as [ok o]. set (q1 := set_sfs _ q).
  assert (H1 : forall r, rb_inv r -> ctail_offset r = ctail_offset (rbuf q) -> head_offset r = head_offset (rbuf q) ->
    (forall i, ctail_offset (rbuf q) <= i < head_offset (rbuf q) -> byte_at r i = byte_at (rbuf q) i) ->
    sim (set_rbuf r q1) a).
  { intros r Ir Rc Rh Rb. apply (same_sim q); try done. split; cbn; [done|done|by rewrite Rc|].
    apply Forall_forall. intros sf Hin Hd i Hi. rewrite Forall_forall in Hb.
    pose proof (Hb sf Hin Hd i Hi) as [Hw <-]%ring_byte_some. apply ring_byte_some. rewrite Rc, Rh. auto. }
  pose proof (resize_ok fresh fresh_len (rbuf q) n (cleanse (x_of q)) ok Hr Hn) as Hz. unfold on_rbuf, zoom.
  change (rbuf q1) with (rbuf q).
  case_decide as D1; [|case_decide as D2].
  - rewrite Hz. exists OutDone, (set_rbuf (rbuf q) q1), a. split_and!; [done|done|by apply H1].
  - rewrite Hz. exists OutFail, (set_rbuf (rbuf q) q1), a. split_and!; [done|done|by apply H1].
  - destruct Hz as (r & E & Ir & Ra & Rc & Rh & Rb). rewrite E.
    exists OutDone, (set_rbuf r q1), a. split_and!; [done|done|by apply H1].
Qed.

Lemma cleanse_step q a cl : sim q a -> step_ok (OCleanse cl) q a.
Proof.
  intros H. do 3 eexists. split; [reflexivity|]. split; [reflexivity|].
  apply (same_sim q); try done. destruct (sim_inv _ _ H) as [[Hx HR] Hr Hc Hb]. split; try done.
  split; [|done]. by destruct Hx.
Qed.

Lemma release_step q a n : sim q a -> op_ok f F (ORelease n) -> step_ok (ORelease n) q a.
Proof.
  intros H Hn. cbn in Hn. unfold step_ok. cbn [exec_op]. unfold outcome, ossl_quic_rstream_release_record.
  rewrite (bind_ok get _ q q q eq_refl). unfold ossl_sframe_list_is_head_locked. rewrite (sim_locked _ _ H).
  destruct (a_locked a) eqn:Hl; cbn [negb]; [|exists OutFail, q, a; done].
  destruct (sim_head _ _ H Hl) as [Hst Hen]. rewrite Hst. set (e := UintSet.end_ (head_range q)) in *.
  pose proof (sim_readable _ _ H) as Hk. pose proof (run_end_ge _ _ _ (sim_chain _ _ H)) as Hre.
  destruct (sim_inv _ _ H) as [[Hx _] _ _ _]. pose proof (fl_offset _ _ _ Hx). pose proof (last_end_le f F _ Hx).
  rewrite (u64_id (e - off_of q)) by lia.
  destruct ((n >? e - off_of q) && negb (n =? SIZE_MAX)); [exists OutFail, q, a; done|].
  set (off := if n >? e - off_of q then e else _).
  assert (Ho : off_of q <= off <= e).
  { subst off. destruct (Z.gtb_spec n (e - off_of q)); [lia|]. rewrite u64_id by lia. lia. }
  clearbody off. destruct (drop_ok f F HF q off (cleanse (x_of q)) (sim_inv _ _ H) ltac:(lia))
    as (s & r & E1 & E2 & Hcs & Hls).
  exists OutDone, (set_rbuf r (set_sfs s q)), (take a (off - off_of q)). split_and!.
  - unfold bind at 1. unfold on_fl, zoom. rewrite E1. unfold bind at 1.
    assert (E2' : (if off >? 0 then on_rbuf (ring_buf_cpop_range 0 (u64 (off - 1)) (cleanse (x_of q))) else ret tt)
                    (set_sfs s q) = (Ok tt, set_rbuf r (set_sfs s q))).
    { unfold on_rbuf, zoom. destruct (off >? 0); [cbn [set_sfs rbuf]; by rewrite E2|].
      injection E2 as <-. by destruct q. }
    rewrite E2'. rewrite retire_none; [done|]. exact (sim_rxfc _ _ H).
  - split; [done|]. exists (off - off_of q). eexists. split; [exact Hk|]. split; [lia|done].
  - apply (consumed_sim q); [done|lia|done..].
Qed.

(** A locked head with the range of its unread part. *)
Definition locked (q : QUIC_RSTREAM) (e : Z) : QUIC_RSTREAM :=
  set_head_range (mkRange (off_of q) e) (set_sfs (mkSF (set_head_locked true (x_of q)) (refs (sfs q)) (sf_heap (sfs q))) q).

Lemma locked_sim q a e :
  sim q a -> off_of q < e <= run_end (off_of q) (frames (x_of q)) ->
  sim (locked q e) (mkSpec (a_off a) (a_have a) (a_fin a) true).
Proof.
  intros [[[Hx HR] Hr Hc Hb] S1 S2 S3 S4 S5 S6] He. split; try done.
  split; try done. split; [|done]. by destruct Hx.
Qed.

(** No record: the range is empty, and the head is not locked. *)
Lemma no_record_sim q a e : sim q a -> a_locked a = false -> sim (set_head_range e q) a.
Proof. intros [[[Hx HR] Hr Hc Hb] S1 S2 S3 S4 S5 S6] Hl. split; try done. by rewrite Hl. Qed.

(** The record at the head, which is [l] bytes long at most. *)
Lemma record_ok q a sf next :
  sim q a -> frames (x_of q) = sf :: next -> st sf <= off_of q ->
  let l := en sf - off_of q in
  exists len q', 0 < len <= l /\ q' = locked q (off_of q + len) /\
    record_data (off_of q) l (zdrop (off_of q - st sf) <$> data sf) (locked q (en sf)) =
      (Ok (Some (bytes f (off_of q) len), len), q').
Proof.
  intros H Hfr Hst l. pose proof (sim_chain _ _ H) as Hc. rewrite Hfr in Hc. destruct Hc as (_ & Hlt & _).
  destruct (sim_inv _ _ H) as [[Hx HR] Hr Hct Hb]. pose proof (fl_offset _ _ _ Hx).
  pose proof (fl_frames _ _ _ Hx) as Hf. rewrite Hfr in Hf, Hb.
  apply Forall_cons_1 in Hf as [Hf _]. apply Forall_cons_1 in Hb as [Hb _].
  unfold record_data. destruct (data sf) as [d|] eqn:Hd; cbn [fmap option_fmap option_map].
  - exists l, (locked q (en sf)). split; [lia|]. split; [unfold l; do 2 f_equal; lia|].
    destruct (frame_tail f F sf d (off_of q) Hf Hd ltac:(lia)) as [Hz Hbd]. unfold ret. do 4 f_equal.
    rewrite ztake_ge by lia. apply bytes_eq; [done|]. intros i Hi. rewrite <-Hbd by lia. f_equal. lia.
  - replace (negb (l =? 0)) with true by lia.
    assert (Hb' : forall i, off_of q <= i < en sf -> ctail_offset (rbuf q) <= i < head_offset (rbuf q) /\ byte_at (rbuf q) i = f i)
      by (intros i Hi; apply ring_byte_some, Hb; [done|lia]).
    pose proof (Hb' (off_of q) ltac:(lia)) as [Hin _]. rb Hr.
    destruct (get_ptr_ok (rbuf q) (off_of q) Hr Hin) as [E1 Hm]. set (m := alloc_ (rbuf q) - _) in *.
    rewrite (bind_ok _ _ _ _ _ (on_rbuf_same _ (locked q (en sf)) _ E1)). rewrite (bind_ok get _ _ _ _ eq_refl).
    change (rbuf (locked q (en sf))) with (rbuf q). change (off_of (locked q (en sf))) with (off_of q).
    assert (Hload : forall n, 0 <= n <= m -> n <= l -> load (rbuf q) (Some (off_of q mod alloc_ (rbuf q))) n = bytes f (off_of q) n).
    { intros n Hn Hnl. destruct (load_ok (rbuf q) (off_of q) n Hr ltac:(lia) ltac:(lia)) as [L1 L2].
      apply bytes_eq; [done|]. intros i Hi. rewrite L2 by lia. by apply Hb'; lia. }
    pose proof Hf as (_ & ? & _).
    destruct (Z.ltb_spec m l).
    + exists m, (locked q (off_of q + m)). split; [lia|]. split; [done|]. rewrite u64_id by lia.
      rewrite Hload by lia. done.
    + exists l, (locked q (en sf)). split; [lia|]. split; [unfold l; do 2 f_equal; lia|]. by rewrite Hload by lia.
Qed.

Lemma get_record_step q a : sim q a -> step_ok OGetRecord q a.
Proof.
  intros H. pose proof (sim_chain _ _ H) as Hc. pose proof (sim_readable _ _ H) as Hk.
  pose proof (sim_ends _ _ 0 H) as Hends. rewrite Z.add_0_r in Hends.
  destruct (sim_inv _ _ H) as [[Hx _] _ _ _]. pose proof (fl_offset _ _ _ Hx). pose proof (last_end_le f F _ Hx).
  unfold step_ok. cbn [exec_op]. unfold outcome, ossl_quic_rstream_get_record, on_fl.
  unfold bind at 1, zoom at 1. unfold ossl_sframe_list_lock_head. rewrite (bind_ok get _ (sfs q) _ _ eq_refl).
  rewrite (sim_locked _ _ H). destruct (a_locked a) eqn:Hl.
  { exists (OutRecord None 0 None), q, a. split; [by destruct q|]. split; [|done]. split; [done|]. by left. }
  rewrite (peek_step (x_of q) None 0 (off_of q) (frames (x_of q)) eq_refl Hc).
  assert (Hnone : forall b, run_end (off_of q) (frames (x_of q)) = off_of q ->
     b = fin_of q && (off_of q =? last_end (off_of q) (frames (x_of q))) ->
     spec_step f F a OGetRecord (OutRecord None 0 (Some b)) a).
  { intros b Hre ->. split; [done|]. right. split; [done|]. rewrite Hre, Z.sub_diag in Hk. eauto. }
  assert (Hq : set_sfs (sfs q) q = q) by by destruct q.
  destruct (frames (x_of q)) as [|sf next] eqn:Hfr.
  { cbn. rewrite Hq. exists (OutRecord None 0 (Some (fin_of q))). do 2 eexists. split; [done|].
    split; [|by apply no_record_sim]. apply Hnone; [done|]. change (last_end (off_of q) []) with (off_of q).
    by rewrite Z.eqb_refl, andb_true_r. }
  pose proof Hc as (_ & Hlt & Hn). pose proof (run_end_ge _ _ _ Hn) as Hre. rewrite last_end_cons in *.
  cbn [run_end] in Hnone, Hk. destruct (Z.leb_spec (st sf) (off_of q)) as [Hst|Hst].
  - destruct (record_ok q a sf next H Hfr Hst) as (len & q' & Hlen & -> & Erec).
    unfold bind at 1. cbn [p_ret p_range UintSet.start UintSet.end_ p_data p_fin negb].
    unfold fl_set at 1, modify at 1. unfold ret at 1.
    rewrite (bind_ok (modify _) _ _ tt (locked q (en sf)) eq_refl).
    cbn [p_ret p_range UintSet.start UintSet.end_ p_data p_fin negb].
    replace (en sf =? off_of q) with false by lia.
    rewrite (bind_ok (ret tt) _ _ tt (locked q (en sf)) eq_refl).
    rewrite u64_id by lia. rewrite (bind_ok _ _ _ _ _ Erec).
    exists (OutRecord (Some (bytes f (off_of q) len)) len (Some match next with [] => fin_of q | _ => false end)).
    do 2 eexists. split; [reflexivity|]. split.
    + split; [done|]. split; [eexists; split; [exact Hk|lia]|]. split; [by rewrite (sim_off _ _ H)|reflexivity].
    + apply locked_sim; [done|]. rewrite Hfr. cbn [run_end]. replace (st sf <=? off_of q) with true by lia. lia.
  - cbn. rewrite Hq. exists (OutRecord None 0 (Some false)). do 2 eexists. split; [done|].
    split; [|by apply no_record_sim]. destruct (chain_last _ _ _ Hn). apply Hnone; [done|].
    replace (off_of q =? last_end (en sf) next) with false by lia. by rewrite andb_false_r.
Qed.

Lemma exec_op_ok q a op : sim q a -> op_ok f F op -> step_ok op q a.
Proof.
  intros H Hop. destruct op; [by apply queue_step|by apply read_step|by apply peek_step_ok|by apply available_step
    |by apply get_record_step|by apply release_step|by apply move_step|by apply resize_step|by apply cleanse_step].
Qed.

Lemma exec_ops_ok ops : forall q a,
  sim q a -> Forall (op_ok f F) ops ->
  exists outs q' a', exec_ops ops q = (Ok outs, q') /\ spec_run f F a ops outs a' /\ sim q' a'.
Proof.
  induction ops as [|op ops IH]; intros q a H Hok; [by exists [], q, a|].
  apply Forall_cons_1 in Hok as [Hop Hops].
  destruct (exec_op_ok q a op H Hop) as (out & q1 & a1 & E1 & Hs1 & H1).
  destruct (IH q1 a1 H1 Hops) as (outs & q' & a' & E & Hs & H').
  exists (out :: outs), q', a'. cbn [exec_ops]. rewrite (bind_ok _ _ _ _ _ E1), (bind_ok _ _ _ _ _ E).
  split; [done|]. split; [by exists a1|done].
Qed.

(** Before anything arrives. *)
Definition rs_start : rspec := mkSpec 0 (fun _ => False) false false.

Lemma new_sim st_ n rx o q o' :
  0 <= F -> 0 <= n < 9223372036854775808 ->
  ossl_quic_rstream_new fresh None st_ n rx o = (Ok (Some q), o') -> sim q rs_start.
Proof.
  intros H0 Hn E. unfold ossl_quic_rstream_new in E. destruct (alloc o) as [[] o1]; cbn [negb] in E; [|done].
  unfold rbuf_resize in E. cbn [sfs sf_heap fl refs] in E. destruct (alloc o1) as [ok o2].
  assert (Hi : rb_inv ring_buf_init) by (split; cbn; unfold MAX_OFFSET; lia).
  assert (Hsim : forall r, rb_inv r -> ctail_offset r = 0 ->
    sim (mkRs (mkSF ossl_sframe_list_init [] o2) None st_ (mkRange 0 0) r rx) rs_start).
  { intros r Ir Rc. split; cbn; try done.
    intros i _. split; [intros Hc; by apply covered_nil in Hc|done]. }
  pose proof (resize_ok fresh fresh_len ring_buf_init n false ok Hi Hn) as Hz. unfold on_rbuf, zoom in E.
  cbn [rbuf set_sfs rxfc statm head_range rxm] in E.
  case_decide as D1; [|case_decide as D2].
  - rewrite Hz in E. injection E as <- _. by apply Hsim.
  - rewrite Hz in E. done.
  - destruct Hz as (r & Er & Ir & Ra & Rc & Rh & Rb). rewrite Er in E. injection E as <- _. by apply Hsim.
Qed.
End Refinement.

(** ** What a run of the contract amounts to *)

(** The offset was in a piece that was queued. *)
Definition queued (i : Z) (x : rs_op * rs_out) : Prop :=
  match x with
  | (OQueue _ off data _, OutDone) => off <= i < off + data_len data
  | _ => False
  end.

(** The piece that ends the stream was queued. *)
Definition queued_fin (x : rs_op * rs_out) : Prop :=
  match x with (OQueue _ _ _ fin, OutDone) => fin = true | _ => False end.

(** The bytes that a read gave to the application. *)
Definition delivered (x : rs_op * rs_out) : list Z :=
  match x with (ORead _, OutBytes bs _) => bs | _ => [] end.

Definition is_release (op : rs_op) : bool := match op with ORelease _ => true | _ => false end.

Section Runs.
Context (f : Z -> Z) (F : Z).

(** The effect of one operation. *)
Record effect (a : rspec) (x : rs_op * rs_out) (a' : rspec) : Prop := {
  ef_have i : a_have a' i <-> a_have a i \/ queued i x;
  ef_fin : a_fin a' = true <-> a_fin a = true \/ queued_fin x;
  ef_off : is_release (fst x) = false ->
    exists n, 0 <= n /\ delivered x = bytes f (a_off a) n /\ a_off a' = a_off a + n
}.

Lemma effect_same a op out : delivered (op, out) = [] -> (forall i, ~ queued i (op, out)) -> ~ queued_fin (op, out) -> effect a (op, out) a.
Proof.
  intros H1 H2 H3. split; [intros i; specialize (H2 i); tauto|tauto|].
  intros _. exists 0. rewrite H1, bytes_nil by lia. split_and!; [lia|done|lia].
Qed.

Lemma effect_locked a op out b a' :
  effect a (op, out) a' -> effect a (op, out) (mkSpec (a_off a') (a_have a') (a_fin a') b).
Proof. by intros [E1 E2 E3]. Qed.

Lemma spec_step_effect a op out a' : spec_step f F a op out a' -> op_ok f F op -> effect a (op, out) a'.
Proof.
  assert (Hsame : forall op out, delivered (op, out) = [] -> (forall i, ~ queued i (op, out)) ->
            ~ queued_fin (op, out) -> effect a (op, out) a) by apply effect_same.
  destruct op as [pkt off data fin|size|size| | |n| |n|cl], out as [| |bs fi|n' fi|rec len fi]; cbn [spec_step];
    try done; intros H Hop; try (subst a'; apply Hsame; [reflexivity|intros ? []|intros []]).
  - subst a'. split; cbn; [reflexivity| |].
    + rewrite orb_true_iff. tauto.
    + intros _. exists 0. rewrite bytes_nil by lia. split_and!; [lia|done|lia].
  - destruct H as (k & (Hk & _) & -> & _ & Ha'). destruct Hop as [Hs _].
    assert (Ht : effect a (ORead size, OutBytes (bytes f (a_off a) (Z.min size k)) fi) (take a (Z.min size k))).
    { split; cbn; [tauto|tauto|]. intros _. exists (Z.min size k). split_and!; [lia|done|done]. }
    destruct Ha' as [->|[Hz ->]]; [done|]. replace (Z.min size k) with 0 in * by lia.
    apply (effect_locked _ _ _ (a_locked a)) in Ht. cbn in Ht. rewrite Z.add_0_r in Ht. by destruct a.
  - destruct H as (k & _ & _ & _ & ->). apply Hsame; [reflexivity|intros ? []|intros []].
  - destruct H as (_ & _ & ->). apply Hsame; [reflexivity|intros ? []|intros []].
  - destruct rec as [r|].
    + destruct H as (_ & _ & _ & ->). apply (effect_locked a _ _ true a). apply Hsame; [reflexivity|intros ? []|intros []].
    + destruct len; try done. destruct H as [-> _]. apply Hsame; [reflexivity|intros ? []|intros []].
  - destruct H as (_ & m & k & _ & _ & ->). split; cbn; [tauto|tauto|done].
Qed.

(** A run: what was queued has arrived, and the reads delivered the stream from
    where it was. *)
Lemma spec_run_effect ops : forall a outs a',
  spec_run f F a ops outs a' -> Forall (op_ok f F) ops ->
  (forall i, a_have a' i <-> a_have a i \/ Exists (queued i) (zip ops outs)) /\
  (a_fin a' = true <-> a_fin a = true \/ Exists queued_fin (zip ops outs)) /\
  (forallb (fun op => negb (is_release op)) ops = true ->
   exists n, 0 <= n /\ concat (map delivered (zip ops outs)) = bytes f (a_off a) n /\ a_off a' = a_off a + n).
Proof.
  induction ops as [|op ops IH]; intros a outs a' H Hok; destruct outs as [|out outs]; try done; cbn [spec_run] in H.
  - subst a'. split_and!; [intros i; rewrite Exists_nil; tauto|rewrite Exists_nil; tauto|].
    intros _. exists 0. cbn. rewrite bytes_nil by lia. split_and!; [lia|done|lia].
  - destruct H as (a1 & H1 & H2). apply Forall_cons_1 in Hok as [Hop Hops].
    destruct (spec_step_effect _ _ _ _ H1 Hop) as [E1 E2 E3].
    destruct (IH _ _ _ H2 Hops) as (I1 & I2 & I3). cbn [zip zip_with map concat forallb]. split_and!.
    + intros i. rewrite Exists_cons, I1, E1. tauto.
    + rewrite Exists_cons, I2, E2. tauto.
    + intros [Hr Hrs]%andb_true_iff. apply negb_true_iff in Hr.
      destruct (E3 Hr) as (n & Hn & D1 & O1), (I3 Hrs) as (m & Hm & D2 & O2).
      exists (n + m). rewrite D1, D2, O1, bytes_app by done. split_and!; [lia|done|lia].
Qed.
End Runs.

(** ** Properties *)

(** C2: whatever is queued (in any order, with any overlaps and duplicates), read,
    peeked at, taken as a record, moved to the ring buffer or resized, and whatever
    the allocator answers, no operation of a receive stream is undefined, every
    result is one that the contract allows, and the stream holds exactly one
    reference for each frame that keeps a packet. *)
Theorem rstream_refines_contract fresh now f F st_ n rx o q o' ops :
  (forall n, 0 <= n -> zlen (fresh n) = n) -> 0 <= F < 4611686018427387904 -> 0 <= n < 9223372036854775808 ->
  ossl_quic_rstream_new fresh None st_ n rx o = (Ok (Some q), o') -> Forall (op_ok f F) ops ->
  exists outs q' a', exec_ops fresh now ops q = (Ok outs, q') /\ spec_run f F rs_start ops outs a' /\
    refs (sfs q') ≡ₚ held (frames (x_of q')).
Proof.
  intros Hfresh [H0 HF] Hn E Hops.
  pose proof (new_sim fresh Hfresh f F st_ n rx o q o' H0 Hn E) as H.
  destruct (exec_ops_ok fresh Hfresh now f F HF ops q rs_start H Hops) as (outs & q' & a' & Er & Hs & H').
  exists outs, q', a'. split_and!; [done|done|]. by destruct (sim_inv _ _ _ _ H') as [[_ ?] _ _ _].
Qed.

(** Ones for fresh memory, a stream of squares. *)
Definition ones (n : Z) : list Z := zrepeat 1 n.
Definition squares (i : Z) : Z := i * i.

Definition rs_example : list rs_op :=
  [OQueue (Some 1%nat) 6 (Some [36; 49; 64]) true; OQueue (Some 2%nat) 1 (Some [1; 4; 9]) false; OMove;
   OQueue (Some 3%nat) 0 (Some [0; 1]) false; ORead 3; OAvailable; OQueue (Some 4%nat) 3 (Some [9; 16; 25]) false;
   OGetRecord; OMove; ORelease 1; OPeek 2; OResize 5; OCleanse true].

Definition rs_new (n : Z) : QUIC_RSTREAM :=
  mkRs (mkSF ossl_sframe_list_init [] []) None None (mkRange 0 0) (mkRing (Some (ones n)) n 0 0) (mkRX ∅ 0).

Lemma op_ok_piece p off d fin :
  0 <= off -> off + zlen d <= 9 -> (fin = true -> off + zlen d = 9) ->
  d = map (fun k => squares (off + Z.of_nat k)) (seq 0 (length d)) -> op_ok squares 9 (OQueue p off (Some d) fin).
Proof.
  intros H1 H2 H3 H4. split_and!; [done..|]. intros d' [= <-] i Hi. rewrite H4 at 1.
  replace (i - off) with (Z.of_nat (Z.to_nat (i - off))) by lia. rewrite zlen_length in Hi.
  rewrite znth_map_seq by lia. f_equal. lia.
Qed.

Lemma rs_example_ok : Forall (op_ok squares 9) rs_example.
Proof.
  unfold rs_example. rewrite !Forall_cons. split_and!; try (apply op_ok_piece; [lia|vm_compute; done|done|reflexivity]);
    try done; cbn; unfold U64_MOD; lia.
Qed.

Lemma ones_len n : 0 <= n -> zlen (ones n) = n.
Proof. apply zlen_zrepeat. Qed.

Lemma rstream_refines_contract_witness :
  exists outs q' a', exec_ops ones (fun _ => 0) rs_example (rs_new 4) = (Ok outs, q') /\
    spec_run squares 9 rs_start rs_example outs a' /\ refs (sfs q') ≡ₚ held (frames (x_of q')).
Proof.
  apply (rstream_refines_contract ones (fun _ => 0) squares 9 None 4 (mkRX ∅ 0) [] (rs_new 4) []).
  - exact ones_len.
  - lia.
  - lia.
  - reflexivity.
  - exact rs_example_ok.
Defined.

(** C3: the bytes that the reads of a receive stream deliver are the bytes of the
    stream from the start on, in order and without a gap or a repetition; and once
    every offset and the end have been queued, a read gives all the rest and says
    that the stream is finished. *)
Theorem rstream_delivers_stream fresh now f F st_ n rx o q o' ops outs q' :
  (forall n, 0 <= n -> zlen (fresh n) = n) -> 0 <= F < 4611686018427387904 -> 0 <= n < 9223372036854775808 ->
  ossl_quic_rstream_new fresh None st_ n rx o = (Ok (Some q), o') -> Forall (op_ok f F) ops ->
  forallb (fun op => negb (is_release op)) ops = true -> exec_ops fresh now ops q = (Ok outs, q') ->
  concat (map delivered (zip ops outs)) = bytes f 0 (off_of q') /\
  ((forall i, 0 <= i < F -> Exists (queued i) (zip ops outs)) -> Exists queued_fin (zip ops outs) ->
   exists bs q'', ossl_quic_rstream_read now F q' = (Ok (bs, true), q'') /\
     concat (map delivered (zip ops outs)) ++ bs = bytes f 0 F).
Proof.
  intros Hfresh [H0 HF] Hn E Hops Hrel Er.
  pose proof (new_sim fresh Hfresh f F st_ n rx o q o' H0 Hn E) as H.
  destruct (exec_ops_ok fresh Hfresh now f F HF ops q rs_start H Hops) as (outs1 & q1 & a' & Er1 & Hs & H').
  rewrite Er in Er1. injection Er1 as <- <-.
  destruct (spec_run_effect f F ops _ _ _ Hs Hops) as (Hh & Hf & Hd). destruct (Hd Hrel) as (k & Hk & Hdel & Hoff).
  cbn [rs_start a_off] in Hdel, Hoff. rewrite Hdel, (sim_off _ _ _ _ H'), Hoff, Z.add_0_l. split; [done|].
  intros Hall Hfin. destruct (read_step fresh now f F HF q' a' F H') as (out & q'' & a'' & Ex & Hst & _);
    [cbn; unfold U64_MOD; lia|].
  cbn [exec_op] in Ex. unfold outcome in Ex.
  destruct (ossl_quic_rstream_read now F q') as [[[bs fi]| |] q3]; [injection Ex as <- <-|by injection Ex as <- <-|done].
  destruct Hst as (j & (Hj & Hjin & Hjout) & -> & Hends & _). rewrite Hoff, Z.add_0_l in *.
  assert (HkF : k <= F).
  { destruct (sim_inv _ _ _ _ H') as [[Hx _] _ _ _]. pose proof (fl_offset _ _ _ Hx).
    rewrite (sim_off _ _ _ _ H'), Hoff in *. lia. }
  assert (Hje : k + j = F).
  { destruct (Z.lt_total (k + j) F) as [Hlt|[?|Hgt]]; [|done|].
    - destruct Hjout. apply Hh. right. apply Hall. lia.
    - exfalso. assert (Hc : a_have a' F) by (apply Hjin; lia). apply Hh in Hc as [[]|Hc].
      apply Exists_exists in Hc as ([op out] & Hin & Hq). apply elem_of_zip_l in Hin.
      rewrite Forall_forall in Hops. specialize (Hops _ Hin). destruct op, out; try done.
      cbn in Hq, Hops. lia. }
  exists (bytes f k (Z.min F j)), q3. replace (Z.min F j) with j in * by lia. split.
  - do 3 f_equal. apply Hends. split; [apply Hf; by right|lia].
  - rewrite <-(Z.add_0_l k) at 2. by rewrite bytes_app, Hje by lia.
Qed.

Definition rs_reads : list rs_op :=
  [OQueue (Some 1%nat) 6 (Some [36; 49; 64]) true; OQueue (Some 2%nat) 1 (Some [1; 4; 9]) false; ORead 5; OMove;
   OQueue (Some 3%nat) 0 (Some [0; 1]) false; ORead 3; OQueue (Some 4%nat) 3 (Some [9; 16; 25]) false; ORead 2].
Definition rs_reads_outs : list rs_out :=
  [OutDone; OutDone; OutBytes [] false; OutFail; OutDone; OutBytes [0; 1; 4] false; OutDone; OutBytes [9; 16] false].
Definition rs_reads_end : QUIC_RSTREAM := snd (exec_ops ones (fun _ => 0) rs_reads (rs_new 4)).

Lemma rs_reads_ok : Forall (op_ok squares 9) rs_reads.
Proof.
  unfold rs_reads. rewrite !Forall_cons. split_and!; try (apply op_ok_piece; [lia|vm_compute; done|done|reflexivity]);
    try done; cbn; unfold U64_MOD; lia.
Qed.

Lemma rstream_delivers_stream_witness :
  concat (map delivered (zip rs_reads rs_reads_outs)) = bytes squares 0 (off_of rs_reads_end) /\
  ((forall i, 0 <= i < 9 -> Exists (queued i) (zip rs_reads rs_reads_outs)) ->
   Exists queued_fin (zip rs_reads rs_reads_outs) ->
   exists bs q'', ossl_quic_rstream_read (fun _ => 0) 9 rs_reads_end = (Ok (bs, true), q'') /\
     concat (map delivered (zip rs_reads rs_reads_outs)) ++ bs = bytes squares 0 9).
Proof.
  apply (rstream_delivers_stream ones (fun _ => 0) squares 9 None 4 (mkRX ∅ 0) [] (rs_new 4) []).
  - exact ones_len.
  - lia.
  - lia.
  - reflexivity.
  - exact rs_reads_ok.
  - reflexivity.
  - vm_compute. reflexivity.
Defined.

(** reading from a stream with a flow controller whose count of retired bytes
    is the read offset never fails: it delivers the next bytes of the stream, and
    both the stream's and the connection's controller advance by exactly the bytes
    read, so that the count stays the read offset. *)
Theorem rstream_read_retires now f F q t x c xc size :
  F < 4611686018427387904 -> rs_inv f F q -> rxfc q = Some t -> rx_wf (rxm q) -> rx_balanced (rxm q) ->
  rxs (rxm q) !! t = Some x -> parent x = Some c -> rxs (rxm q) !! c = Some xc ->
  rwm x = off_of q -> last_end (off_of q) (frames (x_of q)) <= swm x -> 0 <= size ->
  let n := read_count size (off_of q) (frames (x_of q)) in
  exists q' x' xc', ossl_quic_rstream_read now size q =
      (Ok (bytes f (off_of q) n, read_fin (x_of q) size (off_of q) (frames (x_of q))), q') /\
    rs_inv f F q' /\ rx_wf (rxm q') /\ rx_balanced (rxm q') /\ off_of q' = off_of q + n /\
    rxs (rxm q') !! t = Some x' /\ rwm x' = off_of q' /\ swm x' = swm x /\
    rxs (rxm q') !! c = Some xc' /\ rwm xc' = rwm xc + n.
Proof.
  intros HF Hq Hp Hw Hb Ht Hpar Hc Hrwm Hend Hsz n.
  destruct (read_internal_ok f F HF q size true Hq Hsz) as (q1 & E & Hcs & _). fold n in E, Hcs.
  assert (Hn : 0 <= n /\ off_of q + n <= swm x).
  { destruct Hq as [[Hx _] _ _ _]. pose proof (run_end_ge _ _ _ (fl_chain _ _ _ Hx)). unfold n, read_count. lia. }
  destruct Hcs as [C1 C2 C3 C4 C5 C6 C7 C8].
  destruct (rx_wf_parent _ _ _ _ _ Hw Ht Hpar Hc) as [_ Hne].
  assert (Hret : exists m x' xc', ossl_quic_rxfc_on_retire now t n (get_rtt q) (rxm q) = (Ok true, m) /\
    rx_wf m /\ rx_balanced m /\ rxs m !! t = Some x' /\ rxs m !! c = Some xc' /\
    rwm x' = rwm x + n /\ swm x' = swm x /\ rwm xc' = rwm xc + n).
  { destruct (decide (n = 0)) as [Hn0|Hn0].
    - exists (rxm q), x, xc. rewrite Hn0. split_and!; try done; try lia.
      destruct (proj1 Hw t x Ht) as (_ & _ & Hsa & _). unfold ossl_quic_rxfc_on_retire.
      rewrite (bind_ok _ _ _ _ _ (rx_load_ok _ _ _ Ht)), Hpar, Hsa. by rewrite bool_decide_false by done.
    - destruct (on_retire_stream now (rxm q) t x c xc n (get_rtt q) Hw Hb Ht Hpar Hc) as (x' & xc' & k & Er & Rx & Rc);
        [lia|lia|].
      assert (Hlim : 0 <= n < LIMIT) by (destruct (proj1 Hw t x Ht) as [Hx _]; unfold rx_ok, LIMIT in *; lia).
      destruct (rx_inv_retire now (rxm q) _ t c n (get_rtt q) true Hw Hb
        ltac:(unfold ossl_quic_rxfc_get_parent; by rewrite (bind_ok _ _ _ _ _ (rx_load_ok _ _ _ Ht)), Hpar) Hlim Er)
        as [Hw' Hb'].
      do 3 eexists. split_and!; [exact Er|done|done| |apply lookup_insert_eq|apply Rx|apply Rx|apply Rc].
      cbn [rxs]. by rewrite lookup_insert_ne, lookup_insert_eq. }
  destruct Hret as (m & x' & xc' & Er & Hw' & Hb' & Ht' & Hc' & R1 & R2 & R3).
  exists (set_rxm m q1), x', xc'. split; [|split; [by destruct C1|]].
  - unfold ossl_quic_rstream_read. rewrite (bind_ok get _ q q q eq_refl), (bind_ok _ _ _ _ _ E). cbv beta iota.
    assert (Hrt : retire now (zlen (bytes f (off_of q) n)) (get_rtt q) q1 = (Ok tt, set_rxm m q1)).
    { unfold retire. rewrite (bind_ok get _ q1 q1 q1 eq_refl), C6, Hp.
      rewrite zlen_bytes by lia. unfold bind, on_rx, zoom. rewrite C8, Er. done. }
    by rewrite (bind_ok _ _ _ _ _ Hrt).
  - cbn [set_rxm rxm sfs]. split_and!; done || lia.
Qed.

Definition rs_flow : QUIC_RSTREAM :=
  mkRs (mkSF (mkFl [mkFrame (mkRange 0 3) (Some 1%nat) (Some [0; 1; 4])] false 1 0 false false) [1%nat] [])
       (Some 1%nat) None (mkRange 0 0) (mkRing (Some (ones 4)) 4 0 0) rx_pair.

Lemma rs_flow_inv : rs_inv squares 9 rs_flow.
Proof.
  split; [split; [|done]| |done|].
  - split; cbn; [done| |reflexivity|done|done]. rewrite Forall_cons. split; [|apply Forall_nil_2].
    split_and!; [done..|]. intros d [= <-]. split; [reflexivity|]. cbn. intros i Hi.
    assert (i = 0 \/ i = 1 \/ i = 2) as [-> | [-> | ->]] by lia; reflexivity.
  - split; cbn; unfold MAX_OFFSET; try lia. split; [reflexivity|lia].
  - cbn. rewrite Forall_cons. split; [|apply Forall_nil_2]. done.
Qed.

Lemma rstream_read_retires_witness :
  let n := read_count 2 (off_of rs_flow) (frames (x_of rs_flow)) in
  exists q' x' xc', ossl_quic_rstream_read (fun _ => 5) 2 rs_flow =
      (Ok (bytes squares (off_of rs_flow) n, read_fin (x_of rs_flow) 2 (off_of rs_flow) (frames (x_of rs_flow))), q') /\
    rs_inv squares 9 q' /\ rx_wf (rxm q') /\ rx_balanced (rxm q') /\ off_of q' = off_of rs_flow + n /\
    rxs (rxm q') !! 1%nat = Some x' /\ rwm x' = off_of q' /\ swm x' = swm rx_stream /\
    rxs (rxm q') !! 0%nat = Some xc' /\ rwm xc' = rwm rx_conn + n.
Proof.
  apply (rstream_read_retires (fun _ => 5) squares 9 rs_flow 1 rx_stream 0 rx_conn 2);
    [lia|exact rs_flow_inv|reflexivity|exact (proj1 rx_pair_wf)|exact (proj2 rx_pair_wf)
    |vm_compute; reflexivity|reflexivity|vm_compute; reflexivity|reflexivity|vm_compute; discriminate|lia].
Defined.

(** releasing records tells the flow controller the offset reached instead of
    the bytes released: after two records of three and two bytes it has counted
    eight bytes as read where five were. *)
Theorem rstream_release_overcounts :
  let ops := [OGetRecord; ORelease 3; OQueue None 3 (Some [9; 16]) false; OGetRecord; ORelease 2] in
  let '(r, q) := exec_ops ones (fun _ => 5) ops rs_flow in
  r = Ok [OutRecord (Some [0; 1; 4]) 3 (Some false); OutDone; OutDone;
          OutRecord (Some [9; 16]) 2 (Some false); OutDone] /\
  off_of q = 5 /\ (rwm <$> rxs (rxm q) !! 1%nat) = Some 8.
Proof. vm_compute. split_and!; reflexivity. Qed.

(** a record that is cut at the end of the ring buffer is announced as the end
    of the stream although the rest of the stream follows. *)
Theorem rstream_partial_record_fin :
  let ops := [OQueue None 0 (Some [0; 1; 4]) false; OMove; ORead 3; OQueue None 3 (Some [9; 16; 25]) true; OMove;
              OGetRecord; ORelease SIZE_MAX; OGetRecord] in
  fst (exec_ops ones (fun _ => 0) ops (rs_new 4)) =
    Ok [OutDone; OutDone; OutBytes [0; 1; 4] false; OutDone; OutDone;
        OutRecord (Some [9]) 1 (Some true); OutDone; OutRecord (Some [16; 25]) 2 (Some true)].
Proof. vm_compute. reflexivity. Qed.
