(* ===== verification/LHash.v ===== *)
(** Dynamic hash tables: crypto/lhash/lhash.c.

    The array of chains is a list of lists of nodes, which includes the entries
    that are allocated but not in use; an access outside it is undefined. The
    place that [getrn] returns is the number of the chain, the nodes before the
    place and the nodes from it on. The number of nodes that are allocated is part
    of the state. *)

From stdpp Require Import base list numbers gmap fin_maps.
From Stdlib Require Import ZArith Lia.
From S2P Require Import Prelude.

#[local] Open Scope cfun_scope.

(** ** Definitions *)

Definition MIN_NODES : Z := 16.
Definition LH_LOAD_MULT : Z := 256.
Definition UP_LOAD : Z := 2 * LH_LOAD_MULT.
Definition DOWN_LOAD : Z := LH_LOAD_MULT.

(** The functions that a table is created with. *)
Class LHashFns (D : Type) := {
  lh_hash : D -> Z;
  lh_comp : D -> D -> Z
}.

Record OPENSSL_LH_NODE (D : Type) := mkNode { n_data : D; n_hash : Z }.
Arguments mkNode {D} _ _.
Arguments n_data {D} _.
Arguments n_hash {D} _.

Record OPENSSL_LHASH (D : Type) := mkLhash {
  b : list (list (OPENSSL_LH_NODE D));
  num_nodes : Z;
  num_alloc_nodes : Z;
  p : Z;
  pmax : Z;
  up_load : Z;
  down_load : Z;
  num_items : Z;
  error : Z
}.
Arguments mkLhash {D} _ _ _ _ _ _ _ _ _.
Arguments b {D} _.
Arguments num_nodes {D} _.
Arguments num_alloc_nodes {D} _.
Arguments p {D} _.
Arguments pmax {D} _.
Arguments up_load {D} _.
Arguments down_load {D} _.
Arguments num_items {D} _.
Arguments error {D} _.

(** A table, the number of allocated nodes, and the allocator. *)
Record LH (D : Type) := mkLH { lh : OPENSSL_LHASH D; lh_live : Z; lh_oracle : oracle }.
Arguments mkLH {D} _ _ _.
Arguments lh {D} _.
Arguments lh_live {D} _.
Arguments lh_oracle {D} _.

Section Table.
Context {D : Type} `{LHashFns D}.
Implicit Types (t : OPENSSL_LHASH D) (d : D).

Definition set_b l t : OPENSSL_LHASH D :=
  mkLhash l (num_nodes t) (num_alloc_nodes t) (p t) (pmax t) (up_load t) (down_load t) (num_items t) (error t).
Definition set_nodes n a q m t : OPENSSL_LHASH D :=
  mkLhash (b t) n a q m (up_load t) (down_load t) (num_items t) (error t).
Definition set_down_load v t : OPENSSL_LHASH D :=
  mkLhash (b t) (num_nodes t) (num_alloc_nodes t) (p t) (pmax t) (up_load t) v (num_items t) (error t).
Definition set_num_items v t : OPENSSL_LHASH D :=
  mkLhash (b t) (num_nodes t) (num_alloc_nodes t) (p t) (pmax t) (up_load t) (down_load t) v (error t).
Definition set_error v t : OPENSSL_LHASH D :=
  mkLhash (b t) (num_nodes t) (num_alloc_nodes t) (p t) (pmax t) (up_load t) (down_load t) (num_items t) v.

Definition table : M (LH D) (OPENSSL_LHASH D) := fun s => (Ok (lh s), s).
Definition upd (f : OPENSSL_LHASH D -> OPENSSL_LHASH D) : M (LH D) unit :=
  modify (fun s => mkLH (f (lh s)) (lh_live s) (lh_oracle s)).
Definition allocate : M (LH D) bool :=
  fun s => let (ok, o) := alloc (lh_oracle s) in (Ok ok, mkLH (lh s) (lh_live s) o).
Definition add_live (n : Z) : M (LH D) unit :=
  modify (fun s => mkLH (lh s) (lh_live s + n) (lh_oracle s)).

(** The chain [lh->b[i]]. *)
Definition load_chain (i : Z) : M (LH D) (list (OPENSSL_LH_NODE D)) :=
  let! t := table in
  match b t !! Z.to_nat i with
  | Some c => ret c
  | None => undef
  end.

Definition store_chain (i : Z) (c : list (OPENSSL_LH_NODE D)) : M (LH D) unit :=
  load_chain i ;;; upd (fun t => set_b (<[Z.to_nat i := c]> (b t)) t).

Definition OPENSSL_LH_new (o : oracle) : option (LH D) * oracle :=
  let (ok, o) := alloc o in
  if negb ok then (None, o)
  else
    let (ok, o) := alloc o in
    if negb ok then (None, o)
    else (Some (mkLH (mkLhash (replicate (Z.to_nat MIN_NODES) []) (MIN_NODES / 2) MIN_NODES 0 (MIN_NODES / 2)
                        UP_LOAD DOWN_LOAD 0 0) 0 o), o).

(** The chains from [i] on are freed, [k] of them. *)
Fixpoint flush_loop (k : nat) (i : Z) : M (LH D) unit :=
  match k with
  | O => ret tt
  | S k =>
      let! c := load_chain i in
      add_live (- zlen c) ;;;
      store_chain i [] ;;;
      flush_loop k (i + 1)
  end.

Definition OPENSSL_LH_flush : M (LH D) unit :=
  let! t := table in
  flush_loop (Z.to_nat (num_nodes t)) 0 ;;;
  upd (set_num_items 0).

(** The place in a chain of the node with the hash and the data, or its end. *)
Fixpoint find_node (h : Z) (d : D) (c : list (OPENSSL_LH_NODE D))
  : list (OPENSSL_LH_NODE D) * list (OPENSSL_LH_NODE D) :=
  match c with
  | [] => ([], [])
  | n1 :: c' =>
      let next := let (bf, from) := find_node h d c' in (n1 :: bf, from) in
      if negb (n_hash n1 =? h) then next
      else if lh_comp (n_data n1) d =? 0 then ([], c)
      else next
  end.

(** The chain that a hash value belongs to. *)
Definition chain_of (t : OPENSSL_LHASH D) (h : Z) : Z :=
  let nn := h mod pmax t in
  if nn <? p t then h mod num_alloc_nodes t else nn.

Definition getrn (d : D)
  : M (LH D) (Z * list (OPENSSL_LH_NODE D) * list (OPENSSL_LH_NODE D) * Z) :=
  let! t := table in
  let h := lh_hash d in
  let nn := chain_of t h in
  let! c := load_chain nn in
  let (bf, from) := find_node h d c in
  ret (nn, bf, from, h).

(** The nodes that stay in the chain, and those that are moved, in the order of
    their new chain. *)
Fixpoint split_chain (nni q : Z) (c moved : list (OPENSSL_LH_NODE D))
  : list (OPENSSL_LH_NODE D) * list (OPENSSL_LH_NODE D) :=
  match c with
  | [] => ([], moved)
  | np :: c' =>
      if negb (n_hash np mod nni =? q) then split_chain nni q c' (np :: moved)
      else let (stay, moved) := split_chain nni q c' moved in (np :: stay, moved)
  end.

Definition expand : M (LH D) bool :=
  let! t := table in
  let nni := num_alloc_nodes t in
  let q := p t in
  let qmax := pmax t in
  let! ok :=
    if u32 (q + 1) >=? qmax then
      let j := u32 (nni * 2) in
      let! ok := allocate in
      if negb ok then upd (fun t => set_error (error t + 1) t) ;;; ret false
      else
        upd (fun t => set_b (take (Z.to_nat nni) (b t) ++ replicate (Z.to_nat (j - nni)) []) t) ;;;
        upd (fun t => set_nodes (num_nodes t) j 0 nni t) ;;;
        ret true
    else
      upd (fun t => set_nodes (num_nodes t) (num_alloc_nodes t) (u32 (p t + 1)) (pmax t) t) ;;;
      ret true in
  if negb ok then ret false
  else
    upd (fun t => set_nodes (u32 (num_nodes t + 1)) (num_alloc_nodes t) (p t) (pmax t) t) ;;;
    let! c := load_chain q in
    let (stay, moved) := split_chain nni q c [] in
    store_chain (u32 (q + qmax)) moved ;;;
    store_chain q stay ;;;
    ret true.

Definition contract : M (LH D) unit :=
  let! t := table in
  let last := u32 (u32 (p t + pmax t) - 1) in
  let! np := load_chain last in
  store_chain last [] ;;;
  (if p t =? 0 then
     let! ok := allocate in
     (if negb ok then upd (fun t => set_error (error t + 1) t)
      else upd (fun t => set_b (take (Z.to_nat (pmax t)) (b t)) t)) ;;;
     upd (fun t => set_nodes (num_nodes t) (num_alloc_nodes t / 2) (u32 (pmax t / 2 - 1)) (pmax t / 2) t)
   else upd (fun t => set_nodes (num_nodes t) (num_alloc_nodes t) (u32 (p t - 1)) (pmax t) t)) ;;;
  upd (fun t => set_nodes (u32 (num_nodes t - 1)) (num_alloc_nodes t) (p t) (pmax t) t) ;;;
  let! t := table in
  let! n1 := load_chain (p t) in
  store_chain (p t) (n1 ++ np).

(** The load of a table, times 256. *)
Definition load (t : OPENSSL_LHASH D) : Z := u64 (num_items t * LH_LOAD_MULT) / num_nodes t.

(** [None] for NULL: the result is the data that was replaced. *)
Definition OPENSSL_LH_insert (d : D) : M (LH D) (option D) :=
  upd (set_error 0) ;;;
  let! t := table in
  let! ok := if up_load t <=? load t then expand else ret true in
  if negb ok then ret None
  else
    let! '(nn, bf, from, h) := getrn d in
    match from with
    | [] =>
        let! ok := allocate in
        if negb ok then upd (fun t => set_error (error t + 1) t) ;;; ret None
        else
          add_live 1 ;;;
          store_chain nn (bf ++ [mkNode d h]) ;;;
          upd (fun t => set_num_items (u64 (num_items t + 1)) t) ;;;
          ret None
    | n :: rest =>
        store_chain nn (bf ++ mkNode d (n_hash n) :: rest) ;;;
        ret (Some (n_data n))
    end.

Definition OPENSSL_LH_delete (d : D) : M (LH D) (option D) :=
  upd (set_error 0) ;;;
  let! '(nn, bf, from, h) := getrn d in
  match from with
  | [] => ret None
  | n :: rest =>
      store_chain nn (bf ++ rest) ;;;
      add_live (- 1) ;;;
      upd (fun t => set_num_items (u64 (num_items t - 1)) t) ;;;
      let! t := table in
      (if (num_nodes t >? MIN_NODES) && (down_load t >=? load t) then contract else ret tt) ;;;
      ret (Some (n_data n))
  end.

Definition OPENSSL_LH_retrieve (d : D) : M (LH D) (option D) :=
  upd (fun t => if negb (error t =? 0) then set_error 0 t else t) ;;;
  let! '(nn, bf, from, h) := getrn d in
  ret (match from with [] => None | n :: _ => Some (n_data n) end).

(** The data in the order in which a function that leaves the table alone is
    applied to them; [k] chains remain. *)
Fixpoint doall_loop (k : nat) : M (LH D) (list D) :=
  match k with
  | O => ret []
  | S k =>
      let! c := load_chain (Z.of_nat k) in
      let! l := doall_loop k in
      ret ((n_data <$> c) ++ l)
  end.

Definition doall_util_fn : M (LH D) (list D) :=
  let! t := table in
  doall_loop (Z.to_nat (num_nodes t)).

Definition OPENSSL_LH_num_items t : Z := num_items t.
Definition OPENSSL_LH_get_down_load t : Z := down_load t.
Definition OPENSSL_LH_set_down_load (v : Z) : M (LH D) unit := upd (set_down_load v).
Definition OPENSSL_LH_error t : Z := error t.

End Table.

(** Hashing of strings: a [char] is signed. *)
Definition schar (c : Z) : Z := if c <? 128 then c else c - 256.

(** One round, for the character (already widened) and the counter [n]. *)
Definition strhash_round (r n c : Z) : Z :=
  let v := u64 (Z.lor n c) in
  let k := Z.land (Z.lxor (Z.shiftr v 2) v) 15 in
  let r := Z.lor (u64 (Z.shiftl r k)) (Z.shiftr r (32 - k)) in
  let r := Z.land r 4294967295 in
  Z.lxor r (u64 (v * v)).

Fixpoint strhash_loop (f : Z -> Z) (r n : Z) (c : list Z) : Z :=
  match c with
  | [] => r
  | x :: c' => strhash_loop f (strhash_round r n (f (schar x))) (n + 256) c'
  end.

(** Of the characters before the terminator. *)
Definition OPENSSL_LH_strhash (c : list Z) : Z :=
  let r := strhash_loop (fun x => x) 0 256 c in Z.lxor (Z.shiftr r 16) r.

Definition ossl_lh_strcasehash (c : list Z) : Z :=
  let r := strhash_loop (Z.land (Z.lnot 32)) 0 256 c in Z.lxor (Z.shiftr r 16) r.

(** ** The keys of a table, and the map that it represents *)

(** Data are compared by a key, and the hash value depends on nothing else. *)
Class LHashKey (D K : Type) `{LHashFns D} `{Countable K} := {
  lh_key : D -> K;
  lh_comp_key d1 d2 : lh_comp d1 d2 = 0 <-> lh_key d1 = lh_key d2;
  lh_hash_key d1 d2 : lh_key d1 = lh_key d2 -> lh_hash d1 = lh_hash d2;
  lh_hash_range d : 0 <= lh_hash d
}.

(** ** Lists of chains *)

Section Chains.
Context {A : Type}.
Implicit Types (l : list (list A)) (c : list A).

Lemma concat_insert l (i : nat) c c' :
  l !! i = Some c -> exists r, concat l ≡ₚ c ++ r /\ concat (<[i := c']> l) ≡ₚ c' ++ r.
Proof.
  revert i. induction l as [|c0 l IH]; intros [|i] Hi; cbn in *; simplify_eq.
  - by exists (concat l).
  - destruct (IH i Hi) as (r & E1 & E2). exists (c0 ++ r). cbn. rewrite E1, E2.
    split; by rewrite !app_assoc, (Permutation_app_comm c0).
Qed.

Lemma elem_of_concat (x : A) l : x ∈ concat l <-> exists i c, l !! i = Some c /\ x ∈ c.
Proof.
  induction l as [|c0 l IH]; cbn.
  - split; [by intros ?%elem_of_nil|]. by intros (i & c & ? & _).
  - rewrite elem_of_app, IH. split.
    + intros [Hx|(i & c & Hi & Hx)]; [by exists 0%nat, c0|by exists (S i), c].
    + intros ([|i] & c & Hi & Hx); cbn in Hi; simplify_eq; eauto.
Qed.

Lemma concat_take_S l (n : nat) c : l !! n = Some c -> concat (take (S n) l) = concat (take n l) ++ c.
Proof. intros Hn. erewrite take_S_r by done. by rewrite concat_app; cbn; rewrite app_nil_r. Qed.

End Chains.

(** *** Linear hashing *)

(** The chain of a hash value when [pm + q] chains are in use. *)
Definition addr (pm q h : Z) : Z := if h mod pm <? q then h mod (2 * pm) else h mod pm.

Lemma double_mod h pm : 0 < pm -> h mod (2 * pm) = h mod pm \/ h mod (2 * pm) = h mod pm + pm.
Proof.
  intros Hp. rewrite (Z.mul_comm 2), Z.rem_mul_r by lia.
  pose proof (Z.mod_pos_bound (h / pm) 2 ltac:(lia)).
  assert ((h / pm) mod 2 = 0 \/ (h / pm) mod 2 = 1) as [-> | ->]; lia.
Qed.

(** With one more chain only the values of chain [q] may get another one. *)
Lemma addr_next pm q h : 0 <= q < pm ->
  (if q + 1 >=? pm then addr (2 * pm) 0 h else addr pm (q + 1) h)
  = if h mod pm =? q then h mod (2 * pm) else addr pm q h.
Proof.
  intros Hq. unfold addr. pose proof (Z.mod_pos_bound h pm ltac:(lia)).
  pose proof (Z.mod_pos_bound h (2 * pm) ltac:(lia)).
  destruct (Z.geb_spec (q + 1) pm), (Z.eqb_spec (h mod pm) q);
    repeat (match goal with |- context [?x <? ?y] => destruct (Z.ltb_spec x y) end); lia.
Qed.

Lemma alloc_suffix o r o' : alloc o = (r, o') -> o' `suffix_of` o.
Proof. destruct o as [|x o]; intros [= <- <-]; [done|]. by exists [x]. Qed.

Lemma alloc_false o o' : alloc o = (false, o') -> false ∈ o.
Proof. destruct o as [|x o]; [done|]. intros [= -> <-]. left. Qed.

Section Correctness.
Context {D K : Type} `{LHashKey D K}.
Implicit Types (t : OPENSSL_LHASH D) (s : LH D) (d : D) (m : gmap K D) (n : OPENSSL_LH_NODE D).

(** The nodes of the chains in use. *)
Definition nodes t : list (OPENSSL_LH_NODE D) := concat (take (Z.to_nat (num_nodes t)) (b t)).

Definition entry n : K * D := (lh_key (n_data n), n_data n).

(** The shape of the table: [pmax + p] chains are in use, and each node is in the
    chain that its hash value belongs to. *)
Record lh_shape t : Prop := {
  shape_pmax : exists k, pmax t = 8 * 2 ^ Z.of_nat k;
  shape_limit : pmax t < 2 ^ 30;
  shape_p : 0 <= p t < pmax t;
  shape_alloc : num_alloc_nodes t = 2 * pmax t;
  shape_nodes : num_nodes t = pmax t + p t;
  shape_b : num_alloc_nodes t <= zlen (b t);
  shape_chain i c n : b t !! i = Some c -> Z.of_nat i < num_nodes t -> n ∈ c ->
                      n_hash n = lh_hash (n_data n) /\ chain_of t (n_hash n) = Z.of_nat i
}.

(** The table in state [s] represents the map [m]. Since it grows only when it has
    two entries for each chain, the number of chains is bounded with the entries. *)
Record lh_rep s m : Prop := {
  rep_shape : lh_shape (lh s);
  rep_nodes : entry <$> nodes (lh s) ≡ₚ map_to_list m;
  rep_items : num_items (lh s) = Z.of_nat (size m);
  rep_live : lh_live s = Z.of_nat (size m);
  rep_small : Z.of_nat (size m) < 2 ^ 29;
  rep_up : up_load (lh s) = UP_LOAD;
  rep_limit : num_nodes (lh s) <= 2 ^ 28 + 8
}.

Lemma pmax_min t : lh_shape t -> 8 <= pmax t.
Proof. intros [[k ->] _ _ _ _ _ _]. pose proof (Z.pow_pos_nonneg 2 (Z.of_nat k)). lia. Qed.

Lemma chain_of_range t h : lh_shape t -> 0 <= h -> 0 <= chain_of t h < num_nodes t.
Proof.
  intros Hs Hh. pose proof (pmax_min t Hs) as Hm. destruct Hs as [_ _ Hp Ha Hn _ _]. unfold chain_of.
  pose proof (Z.mod_pos_bound h (pmax t) ltac:(lia)).
  destruct (Z.ltb_spec (h mod pmax t) (p t)) as [Hlt|Hlt]; [|lia].
  rewrite Ha, (Z.mul_comm 2), Z.rem_mul_r by lia.
  pose proof (Z.mod_pos_bound (h / pmax t) 2 ltac:(lia)). nia.
Qed.

Lemma lookup_b t i : lh_shape t -> 0 <= i < num_alloc_nodes t -> exists c, b t !! Z.to_nat i = Some c.
Proof.
  intros Hs Hi. apply lookup_lt_is_Some_2. destruct Hs as [_ _ _ _ _ Hb _]. rewrite zlen_length in Hb. lia.
Qed.

Lemma load_chain_ok s i c : b (lh s) !! Z.to_nat i = Some c -> load_chain i s = (Ok c, s).
Proof. intros E. unfold load_chain, table, bind, ret. by rewrite E. Qed.

Lemma store_chain_ok s i c c' :
  b (lh s) !! Z.to_nat i = Some c ->
  store_chain i c' s = (Ok tt, mkLH (set_b (<[Z.to_nat i := c']> (b (lh s))) (lh s)) (lh_live s) (lh_oracle s)).
Proof. intros E. unfold store_chain. by rewrite (bind_ok _ _ _ _ _ (load_chain_ok _ _ _ E)). Qed.

Lemma elem_of_nodes t n : lh_shape t -> n ∈ nodes t ->
  n_hash n = lh_hash (n_data n) /\
  exists c, b t !! Z.to_nat (chain_of t (n_hash n)) = Some c /\ n ∈ c.
Proof.
  intros Hs Hn. apply elem_of_concat in Hn as (i & c & Hi & Hn).
  apply lookup_take_Some in Hi as [Hi Hlt].
  destruct (shape_chain t Hs i c n Hi) as [E1 E2]; [destruct Hs; lia|done|]. split; [done|].
  exists c. split; [|done]. rewrite E2. by rewrite Nat2Z.id.
Qed.

(** *** The search *)

Lemma find_node_app h d c bf from : find_node h d c = (bf, from) -> c = bf ++ from.
Proof.
  revert bf from. induction c as [|n1 c IH]; cbn; intros bf from E; [by simplify_eq|].
  destruct (find_node h d c) as [bf' from'] eqn:Ef.
  destruct (negb _); [|destruct (_ =? 0)]; simplify_eq; cbn; f_equal; eauto.
Qed.

Lemma find_node_some h d c bf n rest :
  find_node h d c = (bf, n :: rest) -> n_hash n = h /\ lh_key (n_data n) = lh_key d.
Proof.
  revert bf. induction c as [|n1 c IH]; cbn; intros bf E; [by simplify_eq|].
  destruct (find_node h d c) as [bf' from'] eqn:Ef.
  destruct (Z.eqb_spec (n_hash n1) h); cbn in E; [|simplify_eq; eauto].
  destruct (Z.eqb_spec (lh_comp (n_data n1) d) 0); simplify_eq; [|eauto].
  by rewrite <-lh_comp_key.
Qed.

Lemma find_node_none h d c bf n :
  find_node h d c = (bf, []) -> n ∈ c -> n_hash n = h -> lh_key (n_data n) <> lh_key d.
Proof.
  revert bf. induction c as [|n1 c IH]; cbn; intros bf E Hn; [by apply elem_of_nil in Hn|].
  destruct (find_node h d c) as [bf' from'] eqn:Ef. intros Hh Hk.
  apply elem_of_cons in Hn as [->|Hn].
  - rewrite Hh, Z.eqb_refl in E. cbn in E. apply lh_comp_key in Hk. rewrite Hk in E. done.
  - destruct (negb _); [|destruct (_ =? 0)]; simplify_eq; by eapply IH.
Qed.

(** What [getrn] finds: the chain of the data, divided at its place. *)
Lemma getrn_ok s m d : lh_rep s m -> exists c bf from,
  let nn := chain_of (lh s) (lh_hash d) in
  getrn d s = (Ok (nn, bf, from, lh_hash d), s) /\
  b (lh s) !! Z.to_nat nn = Some c /\ c = bf ++ from /\ 0 <= nn < num_nodes (lh s) /\
  match from with
  | [] => m !! lh_key d = None
  | n :: _ => m !! lh_key d = Some (n_data n) /\ n_hash n = lh_hash d /\ lh_key (n_data n) = lh_key d
  end.
Proof.
  intros [Hs Hn _ _ _ _ _]. set (nn := chain_of _ _).
  assert (Hr : 0 <= nn < num_nodes (lh s)) by (apply chain_of_range; [done|apply lh_hash_range]).
  destruct (lookup_b (lh s) nn Hs) as [c Hc]; [destruct Hs; lia|].
  destruct (find_node (lh_hash d) d c) as [bf from] eqn:Ef. exists c, bf, from. cbn zeta.
  split_and!; [|done|by eapply find_node_app|lia|lia|].
  { unfold getrn. rewrite (bind_ok table _ s (lh s) s eq_refl). cbn zeta. fold nn.
    rewrite (bind_ok _ _ _ _ _ (load_chain_ok _ _ _ Hc)). by rewrite Ef. }
  destruct from as [|n rest].
  - apply eq_None_not_Some. intros [d' Hd]. apply elem_of_map_to_list in Hd. rewrite <-Hn in Hd.
    apply list_elem_of_fmap in Hd as (n & [= Hk ->] & Hin). destruct (elem_of_nodes _ _ Hs Hin) as (Eh & c' & Hc' & Hin').
    rewrite Eh, <-(lh_hash_key d (n_data n)) in Hc' by done. fold nn in Hc'. rewrite Hc in Hc'. simplify_eq.
    eapply find_node_none; [done..| |done]. rewrite Eh. by apply lh_hash_key.
  - destruct (find_node_some _ _ _ _ _ _ Ef) as [Eh Ek]. split; [|done].
    apply elem_of_map_to_list. rewrite <-Hn, <-Ek. apply list_elem_of_fmap. exists n. split; [done|].
    apply elem_of_concat. exists (Z.to_nat nn), c. split.
    + apply lookup_take_Some. split; [done|]. destruct Hs; lia.
    + rewrite (find_node_app _ _ _ _ _ Ef). apply elem_of_app. right. left.
Qed.

(** *** Changes of a chain *)

Lemma shape_addr t h : lh_shape t -> chain_of t h = addr (pmax t) (p t) h.
Proof. intros [_ _ _ Ha _ _ _]. unfold chain_of, addr. by rewrite Ha. Qed.

(** The table with the nodes of chain [i] replaced by [c]. *)
Definition with_chain (i : Z) (c : list (OPENSSL_LH_NODE D)) t : OPENSSL_LHASH D :=
  set_b (<[Z.to_nat i := c]> (b t)) t.

Lemma nodes_with_chain t i c c' :
  b t !! Z.to_nat i = Some c -> 0 <= i < num_nodes t ->
  exists r, nodes t ≡ₚ c ++ r /\ nodes (with_chain i c' t) ≡ₚ c' ++ r.
Proof.
  intros Hc Hi. unfold nodes, with_chain. cbn [b num_nodes set_b]. rewrite take_insert_lt by lia.
  apply concat_insert. apply lookup_take_Some. split; [done|lia].
Qed.

Lemma shape_with_chain t i c' :
  lh_shape t -> 0 <= i ->
  (forall n, n ∈ c' -> n_hash n = lh_hash (n_data n) /\ chain_of t (n_hash n) = i) ->
  lh_shape (with_chain i c' t).
Proof.
  intros [S1 S2 S3 S4 S5 S6 S7] Hi Hc'. split; try done.
  - cbn. by rewrite zlen_length, length_insert, <-zlen_length.
  - cbn [b num_nodes set_b with_chain]. intros j c n Hj Hlt Hn.
    apply list_lookup_insert_Some in Hj as [(<- & <- & _)|[_ Hj]].
    + rewrite Z2Nat.id by lia. exact (Hc' n Hn).
    + exact (S7 j c n Hj Hlt Hn).
Qed.

(** *** Growing and shrinking *)

Lemma split_chain_spec nni q (c : list (OPENSSL_LH_NODE D)) : forall moved stay moved' : list (OPENSSL_LH_NODE D),
  split_chain nni q c moved = (stay, moved') ->
  c ++ moved ≡ₚ stay ++ moved' /\
  (forall n, n ∈ stay -> n ∈ c /\ n_hash n mod nni = q) /\
  (forall n, n ∈ moved' -> n ∈ moved \/ n ∈ c /\ n_hash n mod nni <> q).
Proof.
  induction c as [|np c IH]; intros moved stay moved' E; cbn in E.
  { simplify_eq. split_and!; [done|by intros ? ?%elem_of_nil|by left]. }
  destruct (Z.eqb_spec (n_hash np mod nni) q) as [Hq|Hq]; cbn in E.
  - destruct (split_chain nni q c moved) as [st mv] eqn:Es. injection E as <- <-.
    destruct (IH _ _ _ Es) as (P1 & P2 & P3). split_and!.
    + cbn. by rewrite P1.
    + intros n [->|Hn]%elem_of_cons; [split; [left|done]|]. destruct (P2 n Hn). split; [by right|done].
    + intros n Hn. destruct (P3 n Hn) as [?|[? ?]]; [by left|]. right. split; [by right|done].
  - destruct (IH _ _ _ E) as (P1 & P2 & P3). split_and!.
    + rewrite <-P1. cbn. by rewrite Permutation_middle.
    + intros n Hn. destruct (P2 n Hn). split; [by right|done].
    + intros n Hn. destruct (P3 n Hn) as [[->|?]%elem_of_cons|[? ?]]; [right; split; [left|done]|by left|].
      right. split; [by right|done].
Qed.

(** The table with one more chain, before the nodes are moved. *)
Definition grown t : OPENSSL_LHASH D :=
  if p t + 1 >=? pmax t then
    mkLhash (take (Z.to_nat (num_alloc_nodes t)) (b t) ++ replicate (Z.to_nat (num_alloc_nodes t)) [])
      (num_nodes t + 1) (2 * num_alloc_nodes t) 0 (num_alloc_nodes t)
      (up_load t) (down_load t) (num_items t) (error t)
  else set_nodes (num_nodes t + 1) (num_alloc_nodes t) (p t + 1) (pmax t) t.

Lemma grown_chain t h : lh_shape t ->
  chain_of (grown t) h = if h mod pmax t =? p t then h mod num_alloc_nodes t else chain_of t h.
Proof.
  intros Hs. rewrite (shape_addr t h Hs). destruct Hs as [_ _ Hp Ha _ _ _].
  rewrite Ha, <-addr_next by done. unfold grown, chain_of.
  destruct (p t + 1 >=? pmax t); cbn [pmax p num_alloc_nodes set_nodes]; unfold addr; by rewrite Ha.
Qed.

Lemma grown_lookup t (i : nat) : lh_shape t -> Z.of_nat i < num_alloc_nodes t -> b (grown t) !! i = b t !! i.
Proof.
  intros Hs Hi. unfold grown. destruct (_ >=? _); [|done]. cbn [b].
  destruct Hs as [_ _ _ _ _ Hb _]. rewrite zlen_length in Hb.
  rewrite lookup_app_l by (rewrite length_take; lia). apply lookup_take_lt. lia.
Qed.

Lemma grown_nodes t : lh_shape t -> num_nodes (grown t) = num_nodes t + 1.
Proof. intros _. unfold grown. by destruct (_ >=? _). Qed.

Lemma grown_take t : lh_shape t ->
  take (Z.to_nat (num_nodes t)) (b (grown t)) = take (Z.to_nat (num_nodes t)) (b t).
Proof.
  intros [_ _ Hp Ha Hn Hb _]. rewrite zlen_length in Hb. unfold grown. destruct (_ >=? _); [|done]. cbn [b].
  rewrite take_app_le by (rewrite length_take; lia). rewrite take_take. f_equal. lia.
Qed.

Lemma grown_length t : lh_shape t -> num_nodes t < zlen (b (grown t)).
Proof.
  intros [_ _ Hp Ha Hn Hb _]. unfold grown. destruct (_ >=? _); cbn [b set_nodes]; [|lia].
  rewrite zlen_app. pose proof (zlen_nonneg (replicate (Z.to_nat (num_alloc_nodes t)) (@nil (OPENSSL_LH_NODE D)))).
  rewrite (zlen_length (take _ _)), length_take. rewrite zlen_length in *. lia.
Qed.

Definition split_done (stay moved : list (OPENSSL_LH_NODE D)) t : OPENSSL_LHASH D :=
  with_chain (p t) stay (with_chain (num_nodes t) moved (grown t)).

(** The values of chain [p t], and the others. *)
Lemma chain_of_p t h : lh_shape t -> chain_of t h = p t <-> h mod pmax t = p t.
Proof.
  intros Hs. rewrite (shape_addr _ _ Hs). pose proof (pmax_min t Hs). destruct Hs as [_ _ Hp _ _ _ _].
  unfold addr. pose proof (Z.mod_pos_bound h (pmax t) ltac:(lia)). destruct (double_mod h (pmax t) ltac:(lia)), (Z.ltb_spec (h mod pmax t) (p t)); lia.
Qed.

Lemma expand_split_nodes t c stay moved :
  lh_shape t -> b t !! Z.to_nat (p t) = Some c -> c ≡ₚ stay ++ moved -> nodes (split_done stay moved t) ≡ₚ nodes t.
Proof.
  intros Hs Hc Hp. pose proof (pmax_min t Hs) as Hm. pose proof (grown_length t Hs) as Hl. rewrite zlen_length in Hl.
  pose proof Hs as [_ _ Hp' Ha Hn Hb _].
  unfold split_done, nodes. cbn [with_chain num_nodes set_b b]. rewrite grown_nodes by done.
  replace (Z.to_nat (num_nodes t + 1)) with (S (Z.to_nat (num_nodes t))) by lia.
  rewrite (concat_take_S _ _ moved).
  - rewrite take_insert_lt, take_insert_ge, grown_take by (done || lia).
    destruct (concat_insert (take (Z.to_nat (num_nodes t)) (b t)) (Z.to_nat (p t)) c stay) as (r & E1 & E2).
    { apply lookup_take_Some. split; [done|lia]. }
    rewrite E2, E1, Hp. by rewrite <-!app_assoc, (Permutation_app_comm r).
  - rewrite list_lookup_insert_ne by lia. apply list_lookup_insert_eq. lia.
Qed.

Lemma grown_shape t : lh_shape t -> pmax t < 2 ^ 29 ->
  (exists k, pmax (grown t) = 8 * 2 ^ Z.of_nat k) /\ pmax (grown t) < 2 ^ 30 /\
  0 <= p (grown t) < pmax (grown t) /\ num_alloc_nodes (grown t) = 2 * pmax (grown t) /\
  num_nodes (grown t) = pmax (grown t) + p (grown t) /\ num_alloc_nodes (grown t) <= zlen (b (grown t)).
Proof.
  intros Hs Hlim. pose proof (pmax_min t Hs) as Hm. destruct Hs as [[k Hk] _ Hp Ha Hn Hb _].
  unfold grown. destruct (Z.geb_spec (p t + 1) (pmax t)); cbn [pmax p num_alloc_nodes num_nodes b set_nodes].
  - split_and!; try lia.
    + exists (S k). rewrite Ha, Hk, Nat2Z.inj_succ, Z.pow_succ_r by lia. lia.
    + rewrite zlen_app, !zlen_length, length_take, length_replicate. rewrite zlen_length in Hb. lia.
  - split_and!; try done; try lia. by exists k.
Qed.

Lemma expand_split_shape t c stay moved :
  lh_shape t -> pmax t < 2 ^ 29 -> b t !! Z.to_nat (p t) = Some c ->
  split_chain (num_alloc_nodes t) (p t) c [] = (stay, moved) -> lh_shape (split_done stay moved t).
Proof.
  intros Hs Hlim Hc Hsp. destruct (grown_shape t Hs Hlim) as (G1 & G2 & G3 & G4 & G5 & G6).
  pose proof (pmax_min t Hs) as Hm. pose proof Hs as [_ _ Hp Ha Hn Hb Hin].
  apply split_chain_spec in Hsp as (_ & P2 & P3).
  assert (Hold : forall n, n ∈ c -> n_hash n = lh_hash (n_data n) /\ n_hash n mod pmax t = p t).
  { intros n Hn'. destruct (Hin _ _ _ Hc ltac:(lia) Hn') as [E1 E2]. split; [done|].
    apply chain_of_p; [done|]. lia. }
  split; try done.
  - cbn. by rewrite zlen_length, !length_insert, <-zlen_length.
  - cbn [b num_nodes set_b with_chain split_done]. rewrite grown_nodes by done. intros j cj n Hj Hlt Hnc.
    change (chain_of (split_done stay moved t)) with (chain_of (grown t)). rewrite grown_chain by done.
    apply list_lookup_insert_Some in Hj as [(<- & <- & _)|[Hne Hj]].
    + destruct (P2 n Hnc) as [Hnc' Hq]. destruct (Hold n Hnc') as [? ->]. rewrite Z.eqb_refl. split; [done|lia].
    + apply list_lookup_insert_Some in Hj as [(<- & <- & _)|[Hne' Hj]].
      * destruct (P3 n Hnc) as [?%elem_of_nil|[Hnc' Hq]]; [done|]. destruct (Hold n Hnc') as [? E].
        rewrite E, Z.eqb_refl. split; [done|]. rewrite Ha in *.
        destruct (double_mod (n_hash n) (pmax t) ltac:(lia)); lia.
      * rewrite grown_lookup in Hj by (done || lia). destruct (Hin _ _ _ Hj ltac:(lia) Hnc) as [E1 E2]. split; [done|].
        destruct (Z.eqb_spec (n_hash n mod pmax t) (p t)) as [E|E]; [|done].
        apply chain_of_p in E; [|done]. lia.
Qed.

Lemma expand_run s : lh_shape (lh s) -> pmax (lh s) < 2 ^ 29 ->
  let t := lh s in
  (exists c stay moved o, o `suffix_of` lh_oracle s /\ b t !! Z.to_nat (p t) = Some c /\
     split_chain (num_alloc_nodes t) (p t) c [] = (stay, moved) /\
     expand s = (Ok true, mkLH (split_done stay moved t) (lh_live s) o)) \/
  (exists o, o `suffix_of` lh_oracle s /\ false ∈ lh_oracle s /\
     expand s = (Ok false, mkLH (set_error (error t + 1) t) (lh_live s) o)).
Proof.
  intros Hs Hlim t. pose proof (pmax_min t Hs) as Hm. pose proof Hs as [_ _ Hp Ha Hn Hb Hin]. fold t in Hp, Ha, Hn, Hb, Hlim.
  destruct (lookup_b t (p t) Hs) as [c Hc]; [lia|].
  destruct (split_chain (num_alloc_nodes t) (p t) c []) as [stay moved] eqn:Esp.
  assert (Hg : forall o, (let! c0 := load_chain (p t) in
       let (stay, moved) := split_chain (num_alloc_nodes t) (p t) c0 [] in
       store_chain (u32 (p t + pmax t)) moved ;;; store_chain (p t) stay ;;; ret true)
     (mkLH (grown t) (lh_live s) o) = (Ok true, mkLH (split_done stay moved t) (lh_live s) o)).
  { intros o. rewrite <-(grown_lookup t) in Hc by (done || lia).
    rewrite (bind_ok _ _ _ _ _ (load_chain_ok (mkLH (grown t) (lh_live s) o) _ _ Hc)), Esp.
    rewrite u32_id, (Z.add_comm (p t)), <-Hn by lia.
    destruct (lookup_lt_is_Some_2 (b (grown t)) (Z.to_nat (num_nodes t))) as [cn Hcn].
    { pose proof (grown_length t Hs) as Hl. rewrite zlen_length in Hl. lia. }
    rewrite (bind_ok _ _ _ _ _ (store_chain_ok (mkLH (grown t) (lh_live s) o) _ _ _ Hcn)).
    assert (Hc2 : b (with_chain (num_nodes t) moved (grown t)) !! Z.to_nat (p t) = Some c)
      by (cbn [with_chain set_b b]; rewrite list_lookup_insert_ne by lia; exact Hc).
    by rewrite (bind_ok _ _ _ _ _
         (store_chain_ok (mkLH (with_chain (num_nodes t) moved (grown t)) (lh_live s) o) _ _ _ Hc2)). }
  unfold expand. rewrite (bind_ok table _ s t s eq_refl). cbn zeta. rewrite (u32_id (p t + 1)) by lia.
  unfold grown in Hg. destruct (Z.geb_spec (p t + 1) (pmax t)).
  - rewrite (u32_id (num_alloc_nodes t * 2)) by lia. unfold allocate, bind at 1 2. 
    destruct (alloc (lh_oracle s)) as [[] o] eqn:Eo; cbn [negb].
    + left. exists c, stay, moved, o. split; [by eapply alloc_suffix|]. split; [done|]. split; [done|]. rewrite <-Hg. cbn [upd modify bind ret negb lh set_b set_nodes b num_nodes num_alloc_nodes p pmax up_load down_load num_items error lh_live lh_oracle].
      fold t. replace (num_alloc_nodes t * 2 - num_alloc_nodes t) with (num_alloc_nodes t) by lia.
      rewrite (Z.mul_comm (num_alloc_nodes t) 2), (u32_id (num_nodes t + 1)) by lia. done.
    + right. exists o. split; [by eapply alloc_suffix|]. split; [by eapply alloc_false|].
      unfold bind at 1 2. by rewrite Eo.
  - left. exists c, stay, moved, (lh_oracle s). do 3 (split; [done|]). rewrite <-Hg.
    unfold bind at 1 2 3, upd, modify, ret.
    cbn [negb lh set_nodes b num_nodes num_alloc_nodes p pmax up_load down_load num_items error lh_live lh_oracle].
    fold t. rewrite (u32_id (num_nodes t + 1)), (u32_id (p t + 1)) by lia. done.
Qed.

Lemma rep_permuted s m t o :
  lh_rep s m -> lh_shape t -> nodes t ≡ₚ nodes (lh s) -> num_items t = num_items (lh s) ->
  up_load t = up_load (lh s) -> num_nodes t <= 2 ^ 28 + 8 -> lh_rep (mkLH t (lh_live s) o) m.
Proof. intros [_ R2 R3 R4 R5 R6 _] Hs Hn Hi Hu Hl. split; cbn; try done; [by rewrite Hn|congruence..]. Qed.

Lemma expand_ok s m : lh_rep s m -> num_nodes (lh s) < 2 ^ 28 ->
  exists r s', expand s = (Ok r, s') /\ lh_rep s' m /\
    lh_oracle s' `suffix_of` lh_oracle s /\ (r = false -> false ∈ lh_oracle s) /\
    error (lh s') = error (lh s) + (if r then 0 else 1).
Proof.
  intros Hr Hlim. pose proof (rep_shape _ _ Hr) as Hs. pose proof Hs as [_ _ Hp _ Hnn _ _].
  assert (Hlim' : pmax (lh s) < 2 ^ 29) by lia.
  destruct (expand_run s Hs Hlim') as [(c & stay & moved & o & Ho & Hc & Hsp & E)|(o & Ho & Hf & E)];
    rewrite E; eexists _, _; (split; [done|]); cbn [lh lh_live lh_oracle].
  - split_and!; [|done..|].
    + apply rep_permuted; [done|by eapply expand_split_shape|..].
      * pose proof (split_chain_spec _ _ _ _ _ _ Hsp) as (Hpm & _). rewrite app_nil_r in Hpm.
        by eapply expand_split_nodes.
      * cbn. unfold grown. by destruct (_ >=? _).
      * cbn. unfold grown. by destruct (_ >=? _).
      * cbn. rewrite grown_nodes by done. lia.
    + cbn. unfold grown. destruct (_ >=? _); cbn; lia.
  - split_and!; [|done..]. apply rep_permuted; try done; [destruct Hs; by split|cbn; lia].
Qed.

(** The chains in use and the addressing after one chain less. *)
Record dims (pm q : Z) t : Prop := {
  dims_pow : exists k, pm = 8 * 2 ^ Z.of_nat k;
  dims_limit : pm < 2 ^ 30;
  dims_q : 0 <= q < pm;
  dims_nodes : num_nodes t = pm + q + 1;
  dims_before : if q + 1 >=? pm then pmax t = 2 * pm /\ p t = 0 else pmax t = pm /\ p t = q + 1
}.

Lemma dims_chain pm q t h : lh_shape t -> dims pm q t ->
  chain_of t h = if h mod pm =? q then h mod (2 * pm) else addr pm q h.
Proof.
  intros Hs [_ _ Hq _ Hb]. rewrite shape_addr, <-addr_next by done.
  by destruct (q + 1 >=? pm); destruct Hb as [-> ->].
Qed.

Lemma contract_dims t : lh_shape t -> 16 < num_nodes t ->
  dims (if p t =? 0 then pmax t / 2 else pmax t) (if p t =? 0 then pmax t / 2 - 1 else p t - 1) t.
Proof.
  intros [[k Hk] Hl Hp Ha Hn Hb _] H16. destruct (Z.eqb_spec (p t) 0) as [E|E].
  - destruct k as [|k]; [rewrite Z.pow_0_r in Hk; lia|].
    rewrite Nat2Z.inj_succ, Z.pow_succ_r in Hk by lia.
    assert (Hd : pmax t / 2 = 8 * 2 ^ Z.of_nat k) by (Z.div_mod_to_equations; lia).
    split; rewrite ?Hd; try lia; [by exists k|]. destruct (Z.geb_spec (8 * 2 ^ Z.of_nat k - 1 + 1) (8 * 2 ^ Z.of_nat k)); lia.
  - split; try lia; [by exists k|]. destruct (Z.geb_spec (p t - 1 + 1) (pmax t)); lia.
Qed.

(** The table that is left when the last chain is appended to chain [q]. *)
Definition shrunk (b' : list (list (OPENSSL_LH_NODE D))) (pm q e : Z) t : OPENSSL_LHASH D :=
  mkLhash b' (num_nodes t - 1) (2 * pm) q pm (up_load t) (down_load t) (num_items t) e.

Lemma shrunk_ok t b' pm q e np cq :
  lh_shape t -> dims pm q t ->
  b t !! Z.to_nat (num_nodes t - 1) = Some np -> b t !! Z.to_nat q = Some cq ->
  take (Z.to_nat (num_nodes t - 1)) b' = take (Z.to_nat (num_nodes t - 1)) (b t) -> 2 * pm <= zlen b' ->
  let t' := shrunk (<[Z.to_nat q := cq ++ np]> b') pm q e t in
  lh_shape t' /\ nodes t' ≡ₚ nodes t.
Proof.
  intros Hs Hd Hnp Hn1 Hb Hlen. pose proof Hd as [D1 D2 D3 D4 _].
  assert (D0 : 8 <= pm) by (destruct D1 as [k ->]; pose proof (Z.pow_pos_nonneg 2 (Z.of_nat k)); lia).
  assert (Hold : forall n, n ∈ cq ++ np -> n_hash n = lh_hash (n_data n) /\ n_hash n mod pm = q).
  { intros n Hn. assert (n_hash n = lh_hash (n_data n) /\
      (chain_of t (n_hash n) = q \/ chain_of t (n_hash n) = num_nodes t - 1)) as [E1 E2].
    { apply elem_of_app in Hn as [Hn|Hn].
      - destruct (shape_chain t Hs _ _ _ Hn1 ltac:(lia) Hn). split; [done|]. left. lia.
      - destruct (shape_chain t Hs _ _ _ Hnp ltac:(lia) Hn). split; [done|]. right. lia. }
    split; [done|]. rewrite (dims_chain pm q t _ Hs Hd) in E2.
    destruct (Z.eqb_spec (n_hash n mod pm) q) as [|E3]; [done|]. unfold addr in E2.
    pose proof (Z.mod_pos_bound (n_hash n) pm ltac:(lia)).
    destruct (double_mod (n_hash n) pm ltac:(lia)), (Z.ltb_spec (n_hash n mod pm) q); lia. }
  assert (Hlk : forall j, Z.of_nat j < num_nodes t - 1 -> b' !! j = b t !! j).
  { intros j Hj. rewrite <-(lookup_take_lt b' (Z.to_nat (num_nodes t - 1))) by lia. rewrite Hb. apply lookup_take_lt. lia. }
  split.
  - split; cbn [shrunk pmax p num_alloc_nodes num_nodes b]; try done; try lia.
    + by rewrite zlen_length, length_insert, <-zlen_length.
    + intros j c n Hj Hlt Hn. assert (Hc : forall h, chain_of (shrunk (<[Z.to_nat q := cq ++ np]> b') pm q e t) h = addr pm q h) by done.
      rewrite Hc. apply list_lookup_insert_Some in Hj as [(<- & <- & _)|[Hne Hj]].
      * destruct (Hold n Hn) as [? E]. split; [done|]. unfold addr. rewrite E. destruct (Z.ltb_spec q q); lia.
      * rewrite Hlk in Hj by done. destruct (shape_chain t Hs _ _ _ Hj ltac:(lia) Hn) as [E1 E2]. split; [done|].
        rewrite (dims_chain pm q t _ Hs Hd) in E2. destruct (Z.eqb_spec (n_hash n mod pm) q) as [E3|E3]; [|done].
        destruct (double_mod (n_hash n) pm ltac:(lia)); lia.
  - unfold nodes. cbn [shrunk num_nodes b]. rewrite take_insert_lt, Hb by lia.
    replace (Z.to_nat (num_nodes t)) with (S (Z.to_nat (num_nodes t - 1))) by lia.
    rewrite (concat_take_S _ _ np Hnp).
    destruct (concat_insert (take (Z.to_nat (num_nodes t - 1)) (b t)) (Z.to_nat q) cq (cq ++ np)) as (r & E1 & E2).
    { apply lookup_take_Some. split; [done|lia]. }
    rewrite E2, E1, <-!app_assoc. by rewrite (Permutation_app_comm np).
Qed.

(** The reduction of the dimensions, with the facts that it needs. *)
Ltac shrink H1 H2 H3 :=
  cbn [upd modify negb set_b set_nodes set_error lh lh_live lh_oracle b num_nodes num_alloc_nodes p pmax up_load
       down_load num_items error];
  rewrite H1, H2, H3; done.

(** The second half of [contract]: the dimensions are reduced and the last chain
    [np] is appended. *)
Lemma contract_run s : lh_shape (lh s) -> 16 < num_nodes (lh s) ->
  let t := lh s in
  exists pm q np cq b' e o, o `suffix_of` lh_oracle s /\ dims pm q t /\
    b t !! Z.to_nat (num_nodes t - 1) = Some np /\ b t !! Z.to_nat q = Some cq /\
    take (Z.to_nat (num_nodes t - 1)) b' = take (Z.to_nat (num_nodes t - 1)) (b t) /\ 2 * pm <= zlen b' /\
    contract s = (Ok tt, mkLH (shrunk (<[Z.to_nat q := cq ++ np]> b') pm q e t) (lh_live s) o).
Proof.
  intros Hs H16 t. pose proof (contract_dims t Hs H16) as Hd. set (pm := if p t =? 0 then _ else _) in Hd.
  set (q := if p t =? 0 then _ else _) in Hd. pose proof (pmax_min t Hs) as Hm.
  pose proof Hs as [_ Hl Hp Ha Hn Hb _]. pose proof Hd as [D1 D2 D3 D4 D5]. fold t in Hl, Hp, Ha, Hn, Hb, H16.
  destruct (lookup_b t (num_nodes t - 1) Hs) as [np Hnp]; [lia|].
  destruct (lookup_b t q Hs) as [cq Hcq]; [lia|].
  assert (Hlast : u32 (u32 (p t + pmax t) - 1) = num_nodes t - 1) by (rewrite !u32_id by (rewrite ?u32_id; lia); lia).
  set (b0 := <[Z.to_nat (num_nodes t - 1) := []]> (b t)).
  assert (Hb0 : take (Z.to_nat (num_nodes t - 1)) b0 = take (Z.to_nat (num_nodes t - 1)) (b t)) by (apply take_insert_ge; lia).
  assert (Hlen : zlen b0 = zlen (b t)) by (unfold b0; by rewrite !zlen_length, length_insert).
  assert (Hfin : forall b' e o, b' !! Z.to_nat q = Some cq ->
    (let! t := table in let! n1 := load_chain (p t) in store_chain (p t) (n1 ++ np))
      (mkLH (shrunk b' pm q e t) (lh_live s) o)
    = (Ok tt, mkLH (shrunk (<[Z.to_nat q := cq ++ np]> b') pm q e t) (lh_live s) o)).
  { intros b' e o Hq. rewrite (bind_ok table _ (mkLH (shrunk b' pm q e t) (lh_live s) o) (shrunk b' pm q e t) _ eq_refl). cbn [shrunk p].
    rewrite (bind_ok _ _ _ _ _ (load_chain_ok (mkLH (shrunk b' pm q e t) (lh_live s) o) q cq Hq)).
    by rewrite (store_chain_ok (mkLH (shrunk b' pm q e t) (lh_live s) o) q cq _ Hq). }
  assert (Hq0 : b0 !! Z.to_nat q = Some cq) by (unfold b0; rewrite list_lookup_insert_ne by lia; done).
  unfold contract. rewrite (bind_ok table _ s t s eq_refl), Hlast.
  rewrite (bind_ok _ _ _ _ _ (load_chain_ok s _ np Hnp)), (bind_ok _ _ _ _ _ (store_chain_ok s _ np [] Hnp)).
  fold t b0. exists pm, q, np, cq. unfold pm, q in *.
  pose proof (u32_id (num_nodes t - 1) ltac:(lia)) as Hu1. destruct (Z.eqb_spec (p t) 0) as [E|E].
  - assert (He : pmax t = 2 * (pmax t / 2)) by (revert D5; destruct (Z.geb_spec (pmax t / 2 - 1 + 1) (pmax t / 2)); lia).
    assert (Ha2 : num_alloc_nodes t / 2 = 2 * (pmax t / 2)) by (Z.div_mod_to_equations; lia).
    pose proof (u32_id (pmax t / 2 - 1) ltac:(lia)) as Hu2.
    unfold allocate, bind at 1 2 3, bind at 1. cbn [lh_oracle]. destruct (alloc (lh_oracle s)) as [[] o] eqn:Eo.
    + exists (take (Z.to_nat (pmax t)) b0), (error t), o. split_and!; try done; [by eapply alloc_suffix|..].
      * rewrite take_take, <-Hb0. f_equal. lia.
      * rewrite zlen_length, length_take. rewrite !zlen_length in Hlen. rewrite zlen_length in Hb. lia.
      * rewrite <-Hfin by (rewrite lookup_take_lt by lia; done). shrink Hu1 Hu2 Ha2.
    + exists b0, (error t + 1), o. split_and!; try done; [by eapply alloc_suffix|lia|]. rewrite <-Hfin by done. shrink Hu1 Hu2 Ha2.
  - exists b0, (error t), (lh_oracle s). split_and!; try done; [lia|]. rewrite <-Hfin by done.
    unfold bind at 1 2. shrink Hu1 (u32_id (p t - 1) ltac:(lia)) Ha.
Qed.

Lemma contract_ok s m : lh_rep s m -> 16 < num_nodes (lh s) ->
  exists s', contract s = (Ok tt, s') /\ lh_rep s' m /\ lh_oracle s' `suffix_of` lh_oracle s.
Proof.
  intros Hr H16. pose proof (rep_shape _ _ Hr) as Hs.
  destruct (contract_run s Hs H16) as (pm & q & np & cq & b' & e & o & Ho & Hd & Hnp & Hcq & Hb & Hl & E).
  rewrite E. eexists. split; [done|]. split; [|done].
  destruct (shrunk_ok (lh s) b' pm q e np cq Hs Hd Hnp Hcq Hb Hl) as [Hs' Hn'].
  apply rep_permuted; try done. cbn. destruct Hr. lia.
Qed.

(** *** The operations *)

(** [load] never wraps. *)
Lemma rep_load s m : lh_rep s m -> load (lh s) = Z.of_nat (size m) * LH_LOAD_MULT / num_nodes (lh s).
Proof. intros [_ _ Hi _ Hl _ _]. unfold load. rewrite Hi, u64_id; [done|]. unfold LH_LOAD_MULT. lia. Qed.

Lemma rep_error s m e : lh_rep s m -> lh_rep (mkLH (set_error e (lh s)) (lh_live s) (lh_oracle s)) m.
Proof. intros Hr. destruct Hr as [[] ? ? ? ? ? ?]. by split. Qed.

(** The chain of [d] gets the new chain [c'], whose nodes belong there. *)
Lemma rep_with_chain s m d m' c c' k live o :
  let nn := chain_of (lh s) (lh_hash d) in
  lh_rep s m -> b (lh s) !! Z.to_nat nn = Some c -> 0 <= nn < num_nodes (lh s) ->
  (forall n, n ∈ c' -> n ∈ c \/ n_hash n = lh_hash d /\ lh_key (n_data n) = lh_key d) ->
  (forall r, nodes (lh s) ≡ₚ c ++ r -> entry <$> c' ++ r ≡ₚ map_to_list m') ->
  k = Z.of_nat (size m') -> live = Z.of_nat (size m') -> Z.of_nat (size m') < 2 ^ 29 ->
  lh_rep (mkLH (set_num_items k (with_chain nn c' (lh s))) live o) m'.
Proof.
  intros nn Hr Hc Hnn Hin Hp -> -> Hl. pose proof (rep_shape _ _ Hr) as Hs.
  destruct (nodes_with_chain (lh s) nn c c' Hc Hnn) as (r & E1 & E2).
  assert (Hs' : lh_shape (with_chain nn c' (lh s))).
  { apply shape_with_chain; [done|lia|]. intros n Hn. destruct (Hin n Hn) as [Hn'|[Eh Ek]].
    - destruct (shape_chain _ Hs _ _ _ Hc ltac:(lia) Hn') as [? Ech]. split; [done|]. rewrite Ech. lia.
    - rewrite Eh. split; [|done]. symmetry. by apply lh_hash_key. }
  destruct Hs', Hr. split; try done. cbn [lh]. change (nodes (set_num_items _ ?t)) with (nodes t).
  rewrite E2. by apply Hp.
Qed.

Lemma map_replace (m : gmap K D) k d0 d : m !! k = Some d0 ->
  exists l, map_to_list m ≡ₚ (k, d0) :: l /\ map_to_list (<[k := d]> m) ≡ₚ (k, d) :: l /\
            map_to_list (delete k m) ≡ₚ l /\ size m = S (size (delete k m)).
Proof.
  intros Hk. exists (map_to_list (delete k m)). split_and!; [by rewrite map_to_list_delete| |done|].
  - rewrite <-insert_delete_eq. by rewrite map_to_list_insert by apply lookup_delete_eq.
  - rewrite map_size_delete_Some by by eexists. pose proof (map_size_ne_0_lookup_2 m k ltac:(by eexists)). lia.
Qed.

(** The chain of [d] after an insertion. *)
Lemma insert_entries (t : OPENSSL_LHASH D) m d bf from r :
  entry <$> nodes t ≡ₚ map_to_list m -> nodes t ≡ₚ (bf ++ from) ++ r ->
  match from with
  | [] => m !! lh_key d = None -> entry <$> (bf ++ [mkNode d (lh_hash d)]) ++ r ≡ₚ map_to_list (<[lh_key d := d]> m)
  | n :: rest => m !! lh_key d = Some (n_data n) -> lh_key (n_data n) = lh_key d ->
      entry <$> (bf ++ mkNode d (n_hash n) :: rest) ++ r ≡ₚ map_to_list (<[lh_key d := d]> m) /\
      entry <$> (bf ++ rest) ++ r ≡ₚ map_to_list (delete (lh_key d) m)
  end.
Proof.
  intros Hm Hn. rewrite Hn in Hm. destruct from as [|n rest].
  - intros Hk. rewrite map_to_list_insert, <-Hm by done. rewrite app_nil_r, <-app_assoc. cbn.
    rewrite <-Permutation_middle. done.
  - intros Hk Ek. destruct (map_replace m (lh_key d) (n_data n) d Hk) as (l & M1 & M2 & M3 & _).
    assert (He : entry <$> (bf ++ rest) ++ r ≡ₚ l).
    { apply (Permutation_cons_inv (a := (lh_key d, n_data n))). rewrite <-M1, <-Hm, <-!app_assoc. cbn.
      rewrite <-Permutation_middle. cbn. replace (entry n) with (lh_key d, n_data n); [done|]. by rewrite <-Ek. }
    rewrite M2, M3, <-He. split; [|done]. rewrite <-!app_assoc. cbn. by rewrite <-Permutation_middle.
Qed.

(** The table is grown first when it is full. *)
Lemma insert_expand s m : lh_rep s m -> error (lh s) = 0 ->
  exists ok s1, (if up_load (lh s) <=? load (lh s) then expand else ret true) s = (Ok ok, s1) /\
    lh_rep s1 m /\ lh_oracle s1 `suffix_of` lh_oracle s /\
    (ok = false -> false ∈ lh_oracle s) /\ error (lh s1) = if ok then 0 else 1.
Proof.
  intros Hr He. rewrite (rep_load s m Hr). pose proof (pmax_min _ (rep_shape _ _ Hr)) as Hm.
  pose proof Hr as [[_ _ Hp _ Hn _ _] _ _ _ Hs Hu _]. rewrite Hu. unfold UP_LOAD, LH_LOAD_MULT.
  destruct (Z.leb_spec (2 * 256) (Z.of_nat (size m) * 256 / num_nodes (lh s))) as [Hle|_].
  - assert (Hlim : num_nodes (lh s) < 2 ^ 28).
    { pose proof (Z.mul_div_le (Z.of_nat (size m) * 256) (num_nodes (lh s)) ltac:(lia)). nia. }
    destruct (expand_ok s m Hr Hlim) as (ok & s1 & E & E1 & E2 & E3 & E4).
    exists ok, s1. split_and!; try done. rewrite E4, He. by destruct ok.
  - exists true, s. by split_and!.
Qed.

Lemma lh_insert_ok s m d : lh_rep s m -> Z.of_nat (size m) + 1 < 2 ^ 29 ->
  exists r s', OPENSSL_LH_insert d s = (Ok r, s') /\
    lh_oracle s' `suffix_of` lh_oracle s /\
    ((error (lh s') = 0 /\ r = m !! lh_key d /\ lh_rep s' (<[lh_key d := d]> m)) \/
     (error (lh s') = 1 /\ r = None /\ lh_rep s' m /\ false ∈ lh_oracle s)).
Proof.
  intros Hr Hsz. unfold OPENSSL_LH_insert.
  set (s0 := mkLH (set_error 0 (lh s)) (lh_live s) (lh_oracle s)).
  rewrite (bind_ok (upd (set_error 0)) _ s tt s0 eq_refl).
  assert (Hr0 : lh_rep s0 m) by by apply rep_error.
  rewrite (bind_ok table _ s0 (lh s0) s0 eq_refl).
  destruct (insert_expand s0 m Hr0 eq_refl) as (ok & s1 & E & Hr1 & Ho1 & Hf1 & He1). rewrite (bind_ok _ _ _ _ _ E).
  destruct ok; cbn [negb]; [|exists None, s1; split_and!; try done; right; by split_and!; try done; apply Hf1].
  destruct (getrn_ok s1 m d Hr1) as (c & bf & from & Eg & Hc & -> & Hnn & Hfrom). cbn zeta in *.
  set (nn := chain_of (lh s1) (lh_hash d)) in *. rewrite (bind_ok _ _ _ _ _ Eg).
  pose proof (rep_nodes _ _ Hr1) as Hm1.
  destruct from as [|n rest].
  - unfold allocate, bind at 1. destruct (alloc (lh_oracle s1)) as [[] o] eqn:Eo; cbn [negb].
    + assert (Hst := store_chain_ok (mkLH (lh s1) (lh_live s1 + 1) o) nn _ (bf ++ [mkNode d (lh_hash d)]) Hc).
      unfold bind. cbn [add_live modify lh lh_live lh_oracle] in *. rewrite Hst. eexists _, _. split; [done|].
      split; [by etrans; [eapply alloc_suffix|]|]. left. split; [done|]. split; [done|].
      assert (Hsz' : size (<[lh_key d := d]> m) = S (size m)) by by apply map_size_insert_None.
      eapply (rep_with_chain s1 m d _ _ _ _ _ o Hr1 Hc Hnn).
      * rewrite app_nil_r. intros n [?|?%list_elem_of_singleton]%elem_of_app; [by left|]. right. by subst n.
      * intros r Hp. by apply (insert_entries (lh s1) m d bf []).
      * destruct Hr1 as [_ _ Hi _ _ _ _]. cbn [set_b num_items lh]. rewrite Hi, Hsz', u64_id; lia.
      * destruct Hr1 as [_ _ _ Hi _ _ _]. cbn [lh_live]. lia.
      * lia.
    + eexists _, _. split; [done|]. split; [by etrans; [eapply alloc_suffix|]|]. right.
      cbn [error lh set_error]. rewrite He1. split_and!; try done.
      * destruct Hr1 as [[] ? ? ? ? ? ?]. by split.
      * change (false ∈ lh_oracle s0). destruct Ho1 as [k ->]. apply elem_of_app. right. by eapply alloc_false.
  - destruct Hfrom as (Hk & Eh & Ek).
    rewrite (bind_ok _ _ _ _ _ (store_chain_ok s1 nn _ (bf ++ mkNode d (n_hash n) :: rest) Hc)).
    eexists _, _. split; [done|]. split; [done|]. left. split; [done|]. split; [done|].
    assert (Hsz' : size (<[lh_key d := d]> m) = size m) by (apply map_size_insert_Some; by eexists).
    pose proof Hr1 as [_ _ Q3 Q4 Q5 _ _].
    eapply (rep_with_chain s1 m d _ _ (bf ++ mkNode d (n_hash n) :: rest) (num_items (lh s1)) (lh_live s1)
              (lh_oracle s1) Hr1 Hc Hnn); try lia.
    + intros n' [?|[->|?]%elem_of_cons]%elem_of_app; [left|by right|left]; apply elem_of_app; [by left|].
      right. by right.
    + intros r Hp. by apply (insert_entries (lh s1) m d bf (n :: rest)).
Qed.

Lemma delete_ok s m d : lh_rep s m ->
  exists s', OPENSSL_LH_delete d s = (Ok (m !! lh_key d), s') /\ lh_rep s' (delete (lh_key d) m) /\
    lh_oracle s' `suffix_of` lh_oracle s.
Proof.
  intros Hr. unfold OPENSSL_LH_delete.
  set (s0 := mkLH (set_error 0 (lh s)) (lh_live s) (lh_oracle s)).
  rewrite (bind_ok (upd (set_error 0)) _ s tt s0 eq_refl).
  assert (Hr0 : lh_rep s0 m) by by apply rep_error.
  destruct (getrn_ok s0 m d Hr0) as (c & bf & from & Eg & Hc & -> & Hnn & Hfrom). cbn zeta in *.
  set (nn := chain_of (lh s0) (lh_hash d)) in *. rewrite (bind_ok _ _ _ _ _ Eg).
  destruct from as [|n rest].
  { rewrite Hfrom, delete_id by done. exists s0. by split_and!. }
  destruct Hfrom as (Hk & Eh & Ek). rewrite Hk.
  rewrite (bind_ok _ _ _ _ _ (store_chain_ok s0 nn _ (bf ++ rest) Hc)).
  destruct (map_replace m (lh_key d) (n_data n) d Hk) as (_ & _ & _ & _ & Hsz).
  set (s1 := mkLH (set_num_items (u64 (num_items (lh s0) - 1)) (with_chain nn (bf ++ rest) (lh s0)))
               (lh_live s0 - 1) (lh_oracle s0)).
  assert (Hr1 : lh_rep s1 (delete (lh_key d) m)).
  { pose proof Hr0 as [_ Hm Hi Hl Hb _ _].
    apply (rep_with_chain s0 m d _ _ (bf ++ rest) _ _ (lh_oracle s0) Hr0 Hc Hnn); try lia.
    - intros n' Hn'. left. apply elem_of_app. apply elem_of_app in Hn' as [?|?]; [by left|right; by right].
    - intros r Hp. by apply (insert_entries (lh s0) m d bf (n :: rest)).
    - rewrite Hi, u64_id; lia. }
  change (exists s', ((let! t := table in
    (if (num_nodes t >? MIN_NODES) && (down_load t >=? load t) then contract else ret tt) ;;;
    ret (Some (n_data n))) s1 = (Ok (Some (n_data n)), s')) /\ lh_rep s' (delete (lh_key d) m) /\
    lh_oracle s' `suffix_of` lh_oracle s).
  rewrite (bind_ok table _ s1 (lh s1) s1 eq_refl).
  destruct (_ && _) eqn:Eb.
  - destruct (contract_ok s1 _ Hr1) as (s' & E & Hr' & Ho'); [unfold MIN_NODES in Eb; lia|].
    rewrite (bind_ok _ _ _ _ _ E). exists s'. by split_and!.
  - exists s1. split_and!; done.
Qed.

Lemma retrieve_ok s m d : lh_rep s m ->
  exists s', OPENSSL_LH_retrieve d s = (Ok (m !! lh_key d), s') /\ lh_rep s' m /\
    lh_oracle s' = lh_oracle s.
Proof.
  intros Hr. unfold OPENSSL_LH_retrieve.
  set (f := fun t => if negb (error t =? 0) then set_error 0 t else t).
  set (s0 := mkLH (f (lh s)) (lh_live s) (lh_oracle s)).
  rewrite (bind_ok (upd f) _ s tt s0 eq_refl).
  assert (Hr0 : lh_rep s0 m).
  { unfold s0, f. destruct (negb _); [by apply rep_error|]. by destruct s. }
  destruct (getrn_ok s0 m d Hr0) as (c & bf & from & Eg & Hc & _ & _ & Hfrom). cbn zeta in *.
  rewrite (bind_ok _ _ _ _ _ Eg). exists s0. split; [|done].
  destruct from as [|n rest]; [by rewrite Hfrom|]. by destruct Hfrom as (-> & _).
Qed.

Lemma new_rep (o : oracle) s o' : OPENSSL_LH_new o = (Some s, o') -> lh_rep s ∅ /\ lh_oracle s = o'.
Proof.
  unfold OPENSSL_LH_new. destruct (alloc o) as [[] o1]; cbn [negb]; [|done].
  destruct (alloc o1) as [[] o2]; cbn [negb]; [|done]. intros [= <- <-]. split; [|done].
  split; cbn [lh lh_live]; try done. split; cbn; try done; try lia; [by exists 0%nat|].
  intros i c n Hi _ Hn. 
  assert (Hc : c = []) by (do 16 (destruct i as [|i]; [by injection Hi|]); done). subst c. by apply elem_of_nil in Hn.
Qed.

(** *** Freeing and visiting all nodes *)

Lemma flush_loop_ok k : forall i s,
  0 <= i -> i + Z.of_nat k <= zlen (b (lh s)) ->
  flush_loop k i s =
    (Ok tt, mkLH (set_b (take (Z.to_nat i) (b (lh s)) ++ replicate k [] ++ drop (Z.to_nat i + k) (b (lh s))) (lh s))
              (lh_live s - zlen (concat (take k (drop (Z.to_nat i) (b (lh s)))))) (lh_oracle s)).
Proof.
  induction k as [|k IH]; intros i s Hi Hk.
  - cbn. rewrite take_0, Nat.add_0_r, take_drop. cbn. rewrite zlen_nil, Z.sub_0_r. by destruct s as [[] ? ?].
  - rewrite zlen_length in Hk. destruct (lookup_lt_is_Some_2 (b (lh s)) (Z.to_nat i)) as [c Hc]; [lia|].
    cbn [flush_loop]. rewrite (bind_ok _ _ _ _ _ (load_chain_ok s i c Hc)).
    unfold add_live at 1. unfold bind at 1, modify.
    rewrite (bind_ok _ _ _ _ _ (store_chain_ok (mkLH (lh s) (lh_live s + - zlen c) (lh_oracle s)) i c [] Hc)).
    rewrite IH; cbn [lh set_b b lh_live lh_oracle]; [|lia|rewrite zlen_length, length_insert; lia].
    replace (Z.to_nat (i + 1)) with (S (Z.to_nat i)) by lia.
    change (set_b ?x (set_b ?y ?t)) with (set_b x t). f_equal. f_equal; [f_equal|].
    + rewrite insert_take_drop by lia. rewrite take_app_ge, length_take by (rewrite length_take; lia).
      rewrite drop_app_ge by (rewrite length_take; lia). rewrite length_take.
      replace (S (Z.to_nat i) - Z.to_nat i `min` length (b (lh s)))%nat with 1%nat by lia.
      replace (S (Z.to_nat i) + k - Z.to_nat i `min` length (b (lh s)))%nat with (S k) by lia.
      cbn. rewrite <-app_assoc. cbn. rewrite drop_drop. rewrite take_0, Nat.add_succ_r. done.
    + rewrite drop_insert_lt by lia. rewrite (drop_S _ c _ Hc). cbn. rewrite zlen_app. lia.
Qed.

Lemma flush_ok s m : lh_rep s m ->
  exists s', OPENSSL_LH_flush s = (Ok tt, s') /\ lh_rep s' ∅ /\ lh_oracle s' = lh_oracle s.
Proof.
  intros [Hs Hn Hi Hl _ Hu Hlim]. pose proof (pmax_min _ Hs) as Hm. pose proof Hs as [_ _ Hp Ha Hnn Hb _].
  unfold OPENSSL_LH_flush. rewrite (bind_ok table _ s (lh s) s eq_refl).
  rewrite (bind_ok _ _ _ _ _ (flush_loop_ok (Z.to_nat (num_nodes (lh s))) 0 s ltac:(lia) ltac:(lia))).
  set (N := Z.to_nat (num_nodes (lh s))) in *. rewrite zlen_length in Hb.
  change (Z.to_nat 0) with 0%nat. rewrite take_0, drop_0. cbn [app plus].
  eexists. split; [done|]. split; [|done].
  assert (Hsz : zlen (nodes (lh s)) = Z.of_nat (size m)).
  { rewrite zlen_length, <-(length_map_to_list m), <-Hn. by rewrite length_fmap. }
  split; cbn [lh lh_live]; [| |done| |done..].
  - destruct Hs as [S1 S2 S3 S4 S5 S6 S7]. split; try done; cbn [set_num_items set_b b num_nodes num_alloc_nodes].
    + rewrite zlen_length, length_app, length_replicate, length_drop. lia.
    + intros i c n Hc Hlt Hin. rewrite lookup_app_l in Hc by (rewrite length_replicate; lia).
      apply lookup_replicate in Hc as [-> _]. by apply elem_of_nil in Hin.
  - unfold nodes. cbn [set_num_items set_b b num_nodes]. fold N.
    rewrite take_app_le, take_replicate, Nat.min_id by (rewrite length_replicate; lia).
    assert (Hc : forall k, concat (replicate k []) = ([] : list (OPENSSL_LH_NODE D))) by (induction k; done).
    by rewrite Hc.
  - unfold nodes in Hsz. fold N in Hsz. rewrite Hsz, Hl. rewrite map_size_empty. lia.
Qed.

Lemma doall_loop_ok k s : (k <= length (b (lh s)))%nat ->
  exists l, doall_loop k s = (Ok l, s) /\ l ≡ₚ n_data <$> concat (take k (b (lh s))).
Proof.
  induction k as [|k IH]; intros Hk; [by exists []|].
  destruct (lookup_lt_is_Some_2 (b (lh s)) k) as [c Hc]; [lia|]. destruct IH as (l & E & Hl); [lia|].
  cbn [doall_loop]. rewrite (bind_ok _ _ _ _ _ (load_chain_ok s (Z.of_nat k) c ltac:(by rewrite Nat2Z.id))).
  rewrite (bind_ok _ _ _ _ _ E). eexists. split; [done|].
  by rewrite (concat_take_S _ _ _ Hc), fmap_app, Hl, Permutation_app_comm.
Qed.

Lemma doall_ok s m : lh_rep s m ->
  exists l, doall_util_fn s = (Ok l, s) /\ l ≡ₚ snd <$> map_to_list m.
Proof.
  intros [Hs Hn _ _ _ _ _]. destruct (doall_loop_ok (Z.to_nat (num_nodes (lh s))) s) as (l & E & Hl).
  { destruct Hs as [_ _ ? ? ? Hb _]. rewrite zlen_length in Hb. lia. }
  exists l. split; [exact E|]. rewrite Hl, <-Hn, <-list_fmap_compose. done.
Qed.

End Correctness.

(** ** Runs of a table *)

Section Runs.
Context {D K : Type} `{LHashKey D K}.

Inductive lh_op :=
| LInsert (d : D)
| LDelete (d : D)
| LRetrieve (d : D)
| LFlush
| LSetDownLoad (v : Z).

(** The result of an operation, and the error flag after it. *)
Definition exec_lh (op : lh_op) : M (LH D) (option D * Z) :=
  let! r := match op with
            | LInsert d => OPENSSL_LH_insert d
            | LDelete d => OPENSSL_LH_delete d
            | LRetrieve d => OPENSSL_LH_retrieve d
            | LFlush => OPENSSL_LH_flush ;;; upd (set_error 0) ;;; ret None
            | LSetDownLoad v => OPENSSL_LH_set_down_load v ;;; upd (set_error 0) ;;; ret None
            end in
  let! t := table in
  ret (r, OPENSSL_LH_error t).

Fixpoint exec_lhs (ops : list lh_op) : M (LH D) (list (option D * Z)) :=
  match ops with
  | [] => ret []
  | op :: ops =>
      let! out := exec_lh op in
      let! outs := exec_lhs ops in
      ret (out :: outs)
  end.

(** One operation on a finite map, with the result and the new map. An insertion
    may fail, and then changes nothing. *)
Inductive map_step (m : gmap K D) : lh_op -> option D * Z -> gmap K D -> Prop :=
| step_insert d : map_step m (LInsert d) (m !! lh_key d, 0) (<[lh_key d := d]> m)
| step_insert_fails d : map_step m (LInsert d) (None, 1) m
| step_delete d e : map_step m (LDelete d) (m !! lh_key d, e) (delete (lh_key d) m)
| step_retrieve d e : map_step m (LRetrieve d) (m !! lh_key d, e) m
| step_flush : map_step m LFlush (None, 0) ∅
| step_down_load v : map_step m (LSetDownLoad v) (None, 0) m.

Inductive map_run : gmap K D -> list lh_op -> list (option D * Z) -> gmap K D -> Prop :=
| run_nil m : map_run m [] [] m
| run_cons m op out m1 ops outs m2 :
    map_step m op out m1 -> map_run m1 ops outs m2 -> map_run m (op :: ops) (out :: outs) m2.

Definition no_failed_insert (ops : list lh_op) (outs : list (option D * Z)) : Prop :=
  Forall2 (fun op out => match op with LInsert _ => snd out = 0 | _ => True end) ops outs.

Lemma set_down_load_ok (s : LH D) (m : gmap K D) v :
  lh_rep s m -> lh_rep (mkLH (set_error 0 (set_down_load v (lh s))) (lh_live s) (lh_oracle s)) m.
Proof. intros Hr. destruct Hr as [[] ? ? ? ? ? ?]. by split. Qed.

Lemma exec_lh_ok op (s : LH D) (m : gmap K D) :
  lh_rep s m -> Z.of_nat (size m) + 1 < 2 ^ 29 ->
  exists out s' m', exec_lh op s = (Ok out, s') /\ lh_rep s' m' /\ map_step m op out m' /\
    (size m' <= S (size m))%nat /\
    lh_oracle s' `suffix_of` lh_oracle s /\
    (false ∉ lh_oracle s -> match op with LInsert _ => snd out = 0 | _ => True end).
Proof.
  intros Hr Hs. unfold exec_lh. destruct op as [d|d|d| |v].
  - destruct (lh_insert_ok s m d Hr Hs) as (r & s' & E & E2 & [(E3 & -> & E4)|(E3 & -> & E4 & E5)]);
      rewrite (bind_ok _ _ _ _ _ E); eexists _, s', _; (split; [done|]); unfold OPENSSL_LH_error; rewrite E3.
    + split_and!; [done|constructor| |done..]. rewrite map_size_insert. case_match; unfold id; lia.
    + split_and!; [done|constructor|lia|done..].
  - destruct (delete_ok s m d Hr) as (s' & E & E1 & E2). rewrite (bind_ok _ _ _ _ _ E).
    eexists _, s', _. split; [done|]. split_and!; [done|constructor| |done..].
    rewrite map_size_delete. case_match; unfold id; lia.
  - destruct (retrieve_ok s m d Hr) as (s' & E & E1 & E3). rewrite (bind_ok _ _ _ _ _ E).
    eexists _, s', _. split; [done|]. split_and!; [done|constructor|lia|by rewrite E3|done].
  - destruct (flush_ok s m Hr) as (s' & E & E1 & E3).
    rewrite (bind_ok _ _ s None (mkLH (set_error 0 (lh s')) (lh_live s') (lh_oracle s'))).
    2: { by rewrite (bind_ok _ _ _ _ _ E). }
    eexists _, _, _. split; [done|]. split_and!; [by apply rep_error|constructor| |cbn; by rewrite E3|done].
    rewrite map_size_empty. lia.
  - eexists _, _, _. split; [done|]. split_and!; [exact (set_down_load_ok s m v Hr)|constructor|lia|done|done].
Qed.

Lemma exec_lhs_ok ops : forall (s : LH D) (m : gmap K D),
  lh_rep s m -> Z.of_nat (size m) + Z.of_nat (length ops) < 2 ^ 29 ->
  exists outs s' m', exec_lhs ops s = (Ok outs, s') /\ lh_rep s' m' /\ map_run m ops outs m' /\
    (false ∉ lh_oracle s -> no_failed_insert ops outs).
Proof.
  induction ops as [|op ops IH]; intros s m Hr Hs; cbn [length exec_lhs] in *.
  - exists [], s, m. split_and!; try done; constructor.
  - destruct (exec_lh_ok op s m Hr ltac:(lia)) as (out & s1 & m1 & E & Hr1 & Hst & Hs1 & Ho1 & Hf1).
    destruct (IH s1 m1 Hr1 ltac:(lia)) as (outs & s2 & m2 & E2 & Hr2 & Hrun & Hf2).
    rewrite (bind_ok _ _ _ _ _ E), (bind_ok _ _ _ _ _ E2). exists (out :: outs), s2, m2.
    split_and!; [done|done|by econstructor|]. intros Hf. constructor; [by apply Hf1|]. apply Hf2.
    intros Hin. apply Hf. destruct Ho1 as [k ->]. apply elem_of_app. by right.
Qed.

End Runs.

(** C11: (the table is a finite map) Whatever is inserted, deleted, retrieved and
    flushed, through all growing and shrinking and whatever the allocator does, the
    results are those of a finite map from keys to data, in which a failed insertion
    changes nothing; as many nodes are allocated as the map has entries; visiting
    the table gives each entry once; and insertions fail only for lack of memory.
    Fewer than 2^29 entries keep the 32-bit numbers of chains from wrapping. *)
Theorem lhash_refines_map {D K} `{LHashKey D K} (ops : list (lh_op (D := D))) o o' s :
  OPENSSL_LH_new o = (Some s, o') -> Z.of_nat (length ops) < 2 ^ 29 ->
  exists outs s' (m : gmap K D) l,
    exec_lhs ops s = (Ok outs, s') /\ map_run ∅ ops outs m /\
    OPENSSL_LH_num_items (lh s') = Z.of_nat (size m) /\ lh_live s' = Z.of_nat (size m) /\
    doall_util_fn s' = (Ok l, s') /\ l ≡ₚ snd <$> map_to_list m /\
    (false ∉ o' -> no_failed_insert ops outs).
Proof.
  intros Hnew Hl. destruct (new_rep (K := K) o s o' Hnew) as [Hr Hn].
  destruct (exec_lhs_ok ops s ∅ Hr) as (outs & s' & m & E & Hr' & Hrun & Hf); [rewrite map_size_empty; lia|].
  destruct (doall_ok s' m Hr') as (l & El & Hp). exists outs, s', m, l.
  destruct Hr' as [_ _ Hi Hlv _ _ _]. split_and!; try done. intros Ho. apply Hf. by rewrite Hn.
Qed.

(** Pairs with the first component as the key: a concrete table. *)
#[local] Instance pair_fns : LHashFns (Z * Z) := {
  lh_hash d := u64 (fst d); lh_comp d1 d2 := fst d1 - fst d2
}.

#[local] Program Instance pair_key : LHashKey (Z * Z) Z := { lh_key := fst }.
Next Obligation. intros. cbn. lia. Qed.
Next Obligation. intros ? ? Hk. cbn. by rewrite Hk. Qed.
Next Obligation. intros. cbn. apply u64_range. Qed.

(** Enough insertions for the table to grow past one doubling, deletions for it to
    shrink, and an allocation that fails. *)
Definition lh_example : list (lh_op (D := Z * Z)) :=
  ((fun k => LInsert (Z.of_nat k * 3, 7)) <$> seq 0 60)
  ++ [LInsert (9, 8); LRetrieve (9, 0); LRetrieve (10, 0)]
  ++ ((fun k => LDelete (Z.of_nat k * 3, 0)) <$> seq 0 58) ++ [LRetrieve (174, 0)].

Lemma lhash_refines_map_witness :
  let o := replicate 20 true ++ [false] in
  exists outs s' (m : gmap Z (Z * Z)) l,
    exec_lhs lh_example (mkLH (mkLhash (replicate 16 []) 8 16 0 8 512 256 0 0) 0 o) = (Ok outs, s') /\
    map_run ∅ lh_example outs m /\
    OPENSSL_LH_num_items (lh s') = Z.of_nat (size m) /\ lh_live s' = Z.of_nat (size m) /\
    doall_util_fn s' = (Ok l, s') /\ l ≡ₚ snd <$> map_to_list m /\
    (false ∉ o -> no_failed_insert lh_example outs).
Proof.
  apply (lhash_refines_map lh_example (true :: true :: replicate 20 true ++ [false]) (replicate 20 true ++ [false])
           (mkLH (mkLhash (replicate 16 []) 8 16 0 8 512 256 0 0) 0 (replicate 20 true ++ [false]))).
  - reflexivity.
  - reflexivity.
Defined.

(** The case-insensitive hash does not depend on the bit that distinguishes the
    cases of a letter. *)
Lemma strcasehash_fold (c1 c2 : list Z) :
  Forall2 (fun x y => Z.land (Z.lnot 32) (schar x) = Z.land (Z.lnot 32) (schar y)) c1 c2 ->
  ossl_lh_strcasehash c1 = ossl_lh_strcasehash c2.
Proof.
  intros Hc. unfold ossl_lh_strcasehash. assert (forall r n, strhash_loop (Z.land (Z.lnot 32)) r n c1
    = strhash_loop (Z.land (Z.lnot 32)) r n c2) as Hl; [|by rewrite Hl].
  induction Hc as [|x y c1 c2 Hxy _ IH]; intros r n; cbn; [done|]. by rewrite Hxy.
Qed.
