(* ===== verification/Ackm.v ===== *)
(** The acknowledgement manager: ssl/quic/quic_ackm.c and include/internal/quic_ackm.h.

    The arrays indexed by a packet number space are records with three fields. The
    state of one space is divided into the transmit and the receive side. Packets
    are values; the lists through [anext] and [lnext] are lists. Calls of the
    callbacks of packets and of the deadline callbacks are entries of a log. The
    congestion controller is an instance of the class of [NewReno], and the hash
    table from packet numbers to packets is a table of [LHash]. Readings of the
    clock are a parameter. *)

From stdpp Require Import base list numbers gmap.
From Stdlib Require Import ZArith Lia.
From S2P Require Import Prelude SafeMath Wire UintSet Statm NewReno LHash.

#[local] Open Scope cfun_scope.

(** ** Definitions: packet numbers and packet number spaces *)

Inductive pn_space := QUIC_PN_SPACE_INITIAL | QUIC_PN_SPACE_HANDSHAKE | QUIC_PN_SPACE_APP.

#[export] Instance pn_space_eq_dec : EqDecision pn_space.
Proof. solve_decision. Defined.

Definition QUIC_PN_SPACE_NUM : Z := 3.

Record per_space (A : Type) := mkPer { at_initial : A; at_handshake : A; at_app : A }.
Arguments mkPer {A} _ _ _.
Arguments at_initial {A} _.
Arguments at_handshake {A} _.
Arguments at_app {A} _.

Definition sel {A} (sp : pn_space) (v : per_space A) : A :=
  match sp with
  | QUIC_PN_SPACE_INITIAL => at_initial v
  | QUIC_PN_SPACE_HANDSHAKE => at_handshake v
  | QUIC_PN_SPACE_APP => at_app v
  end.

Definition upd_at {A} (sp : pn_space) (x : A) (v : per_space A) : per_space A :=
  match sp with
  | QUIC_PN_SPACE_INITIAL => mkPer x (at_handshake v) (at_app v)
  | QUIC_PN_SPACE_HANDSHAKE => mkPer (at_initial v) x (at_app v)
  | QUIC_PN_SPACE_APP => mkPer (at_initial v) (at_handshake v) x
  end.

Definition ossl_quic_pn_max (a b : Z) : Z := if a >? b then a else b.

(** ** Definitions: the transmitted packets *)

(** The fields that the manager reads. *)
Record OSSL_ACKM_TX_PKT := mkTxPkt {
  pkt_num : Z;
  num_bytes : Z;
  tx_time : OSSL_TIME;
  largest_acked : Z;
  pkt_space : pn_space;
  is_inflight : bool;
  is_ack_eliciting : bool;
  cb_arg : Z
}.

Definition tx_pkt_info_hash (pkt : OSSL_ACKM_TX_PKT) : Z := u64 (pkt_num pkt).

Definition tx_pkt_info_compare (a b : OSSL_ACKM_TX_PKT) : Z :=
  if pkt_num a <? pkt_num b then -1
  else if pkt_num a >? pkt_num b then 1
  else 0.

#[export] Instance tx_pkt_fns : LHashFns OSSL_ACKM_TX_PKT := {
  lh_hash := tx_pkt_info_hash;
  lh_comp := tx_pkt_info_compare
}.

(** [map] is [None] for NULL. *)
Record tx_pkt_history_st := mkTxHistory {
  packets : list OSSL_ACKM_TX_PKT;
  map : option (LH OSSL_ACKM_TX_PKT);
  watermark : Z;
  highest_sent : Z
}.

(** Every table gets the answers of the allocator to its requests; [None] for the
    result 0. *)
Definition tx_pkt_history_init (o : oracle) : option tx_pkt_history_st :=
  match OPENSSL_LH_new o with
  | (Some t, _) => Some (mkTxHistory [] (Some t) 0 0)
  | (None, _) => None
  end.

Definition on_map {A} (m : M (LH OSSL_ACKM_TX_PKT) A) : M tx_pkt_history_st A :=
  fun h =>
    match map h with
    | Some t => let (r, t') := m t in (r, mkTxHistory (packets h) (Some t') (watermark h) (highest_sent h))
    | None => (Ub, h)
    end.

(** The nodes are freed with the table. *)
Definition tx_pkt_history_destroy : M tx_pkt_history_st unit :=
  on_map OPENSSL_LH_flush ;;;
  modify (fun h => mkTxHistory [] None (watermark h) (highest_sent h)).

Definition set_packets (l : list OSSL_ACKM_TX_PKT) : M tx_pkt_history_st unit :=
  modify (fun h => mkTxHistory l (map h) (watermark h) (highest_sent h)).

(** A packet that is passed in is not linked into a list: its internal fields are
    zero, as the interface demands. The result of the insertion into the table is
    not looked at. *)
Definition tx_pkt_history_add_actual (pkt : OSSL_ACKM_TX_PKT) : M tx_pkt_history_st unit :=
  let! existing := on_map (OPENSSL_LH_retrieve pkt) in
  guard (match existing with None => true | Some _ => false end) ;;;
  on_map (OPENSSL_LH_insert pkt) ;;;
  let! h := get in
  set_packets (packets h ++ [pkt]).

Definition tx_pkt_history_add (pkt : OSSL_ACKM_TX_PKT) : M tx_pkt_history_st unit :=
  let! h := get in
  guard (pkt_num pkt >=? watermark h) ;;;
  tx_pkt_history_add_actual pkt ;;;
  modify (fun h => mkTxHistory (packets h) (map h) (u64 (pkt_num pkt + 1)) (pkt_num pkt)).

(** The key of a lookup: only the packet number is set. *)
Definition key_pkt (pn : Z) : OSSL_ACKM_TX_PKT := mkTxPkt pn 0 0 0 QUIC_PN_SPACE_INITIAL false false 0.

Definition tx_pkt_history_by_pkt_num (pn : Z) : M tx_pkt_history_st (option OSSL_ACKM_TX_PKT) :=
  on_map (OPENSSL_LH_retrieve (key_pkt pn)).

(** The list without the packet; [None] when it is not in it. *)
Fixpoint unlink (pn : Z) (l : list OSSL_ACKM_TX_PKT) : option (list OSSL_ACKM_TX_PKT) :=
  match l with
  | [] => None
  | x :: l' => if pkt_num x =? pn then Some l' else
                 match unlink pn l' with Some l'' => Some (x :: l'') | None => None end
  end.

Definition tx_pkt_history_remove (pn : Z) : M tx_pkt_history_st unit :=
  let! pkt := tx_pkt_history_by_pkt_num pn in
  match pkt with
  | None => fail
  | Some pkt =>
      let! h := get in
      match unlink (pkt_num pkt) (packets h) with
      | None => undef
      | Some l => set_packets l ;;; on_map (OPENSSL_LH_delete (key_pkt pn)) ;;; ret tt
      end
  end.

(** ** Definitions: the received packet numbers *)

Record rx_pkt_history_st := mkRxHistory {
  set : US;
  rx_watermark : Z
}.

Definition rx_pkt_history_init (o : oracle) : rx_pkt_history_st := mkRxHistory (ossl_uint_set_init, o) 0.

Definition on_set {A} (m : M US A) : M rx_pkt_history_st A :=
  zoom set (fun u h => mkRxHistory u (rx_watermark h)) m.

Definition rx_pkt_history_destroy : M rx_pkt_history_st unit :=
  on_set (modify (fun u => (ossl_uint_set_destroy (fst u), snd u))).

Definition MAX_RX_ACK_RANGES : Z := 32.

Definition rx_pkt_history_bump_watermark (w : Z) : M rx_pkt_history_st unit :=
  let! h := get in
  if w <=? rx_watermark h then ret tt
  else
    on_set (ossl_uint_set_remove (mkRange 0 (u64 (w - 1)))) ;;;
    modify (fun h => mkRxHistory (set h) w).

(** A failure of a call whose result is not looked at. *)
Definition ignore {S A} (m : M S A) : M S unit :=
  fun s => match m s with
           | (Ub, s') => (Ub, s')
           | (_, s') => (Ok tt, s')
           end.

(** The ranges beyond the limit are removed, lowest first; the result is the
    highest packet number removed. *)
Fixpoint trim_loop (fuel : nat) (highest : Z) : M rx_pkt_history_st Z :=
  let! h := get in
  match fuel with
  | O => undef
  | S fuel =>
      if zlen (items (fst (set h))) >? MAX_RX_ACK_RANGES then
        match items (fst (set h)) with
        | [] => undef
        | r :: _ =>
            let highest := if highest =? QUIC_PN_INVALID then end_ r else ossl_quic_pn_max highest (end_ r) in
            ignore (on_set (ossl_uint_set_remove r)) ;;;
            trim_loop fuel highest
        end
      else ret highest
  end.

Definition rx_pkt_history_trim_range_count : M rx_pkt_history_st unit :=
  let! h := get in
  let! highest := trim_loop (S (length (items (fst (set h))))) QUIC_PN_INVALID in
  if negb (highest =? QUIC_PN_INVALID)
  then ignore (rx_pkt_history_bump_watermark (u64 (highest + 1)))
  else ret tt.

Definition rx_pkt_history_add_pn (pn : Z) : M rx_pkt_history_st unit :=
  let! h := get in
  if pn <? rx_watermark h then ret tt
  else on_set (ossl_uint_set_insert (mkRange pn pn)) ;;; rx_pkt_history_trim_range_count.

(** ** Definitions: the manager *)

Definition K_GRANULARITY : Z := 1 * OSSL_TIME_MS.
Definition K_PKT_THRESHOLD : Z := 3.
Definition K_TIME_THRESHOLD_NUM : Z := 9.
Definition K_TIME_THRESHOLD_DEN : Z := 8.
Definition MAX_PTO_COUNT : Z := 16.
Definition QUIC_DEFAULT_MAX_ACK_DELAY : Z := 25.
Definition DEFAULT_TX_MAX_ACK_DELAY : OSSL_TIME := ossl_ms2time QUIC_DEFAULT_MAX_ACK_DELAY.
Definition PKTS_BEFORE_ACK : Z := 2.

(** The transmit side of one space. *)
Record tx_space := mkTxSpace {
  tx_history : tx_pkt_history_st;
  largest_acked_pkt : Z;
  time_of_last_ack_eliciting_pkt : OSSL_TIME;
  loss_time : OSSL_TIME;
  ack_eliciting_bytes_in_flight : Z;
  peer_ecnce : Z
}.

(** The receive side. The array that [ack] points to holds its ranges; entries
    after them are never read. *)
Record rx_space := mkRxSpace {
  rx_history : rx_pkt_history_st;
  rx_ack_desired : bool;
  rx_ack_generated : bool;
  ack : OSSL_QUIC_FRAME_ACK;
  rx_largest_pn : Z;
  rx_largest_time : OSSL_TIME;
  rx_ect0 : Z;
  rx_ect1 : Z;
  rx_ecnce : Z;
  rx_ack_eliciting_pkts_since_last_ack : Z;
  rx_ack_flush_deadline : OSSL_TIME
}.

Record OSSL_ACKM_PROBE_INFO := mkProbe {
  anti_deadlock_initial : Z;
  anti_deadlock_handshake : Z;
  pto : per_space Z
}.

(** The calls that the manager makes. *)
Inductive callback :=
| Cb_lost (sp : pn_space) (pn arg : Z)
| Cb_acked (sp : pn_space) (pn arg : Z)
| Cb_discarded (sp : pn_space) (pn arg : Z)
| Cb_loss_deadline (t : OSSL_TIME)
| Cb_ack_deadline (t : OSSL_TIME) (sp : pn_space).

(** The variables of the manager itself. *)
Record ackm_vars := mkVars {
  pto_count : Z;
  loss_detection_deadline : OSSL_TIME;
  first_rtt_sample : OSSL_TIME;
  bytes_in_flight : Z;
  handshake_confirmed : bool;
  is_server : bool;
  peer_completed_addr_validation : bool;
  pending_probe : OSSL_ACKM_PROBE_INFO;
  rx_max_ack_delay : OSSL_TIME;
  tx_max_ack_delay : OSSL_TIME;
  loss_detection_deadline_cb : bool;
  ack_deadline_cb : bool
}.

(** The manager with the estimator and the controller that it uses, the calls that
    it made, latest first, and the number of readings of the clock. *)
Record OSSL_ACKM (D : Type) := mkAckm {
  tx : per_space tx_space;
  rx : per_space rx_space;
  discarded : per_space bool;
  vars : ackm_vars;
  statm : OSSL_STATM;
  cc_data : D;
  log : list callback;
  readings : nat
}.
Arguments mkAckm {D} _ _ _ _ _ _ _ _.
Arguments tx {D} _.
Arguments rx {D} _.
Arguments discarded {D} _.
Arguments vars {D} _.
Arguments statm {D} _.
Arguments cc_data {D} _.
Arguments log {D} _.
Arguments readings {D} _.

Definition set_tx_history (x : tx_pkt_history_st) (t : tx_space) : tx_space :=
  mkTxSpace x (largest_acked_pkt t) (time_of_last_ack_eliciting_pkt t) (loss_time t)
    (ack_eliciting_bytes_in_flight t) (peer_ecnce t).
Definition set_largest_acked_pkt (x : Z) (t : tx_space) : tx_space :=
  mkTxSpace (tx_history t) x (time_of_last_ack_eliciting_pkt t) (loss_time t)
    (ack_eliciting_bytes_in_flight t) (peer_ecnce t).
Definition set_time_of_last (x : OSSL_TIME) (t : tx_space) : tx_space :=
  mkTxSpace (tx_history t) (largest_acked_pkt t) x (loss_time t) (ack_eliciting_bytes_in_flight t) (peer_ecnce t).
Definition set_loss_time (x : OSSL_TIME) (t : tx_space) : tx_space :=
  mkTxSpace (tx_history t) (largest_acked_pkt t) (time_of_last_ack_eliciting_pkt t) x
    (ack_eliciting_bytes_in_flight t) (peer_ecnce t).
Definition set_eliciting (x : Z) (t : tx_space) : tx_space :=
  mkTxSpace (tx_history t) (largest_acked_pkt t) (time_of_last_ack_eliciting_pkt t) (loss_time t) x (peer_ecnce t).
Definition set_peer_ecnce (x : Z) (t : tx_space) : tx_space :=
  mkTxSpace (tx_history t) (largest_acked_pkt t) (time_of_last_ack_eliciting_pkt t) (loss_time t)
    (ack_eliciting_bytes_in_flight t) x.

Definition set_rx_history (x : rx_pkt_history_st) (r : rx_space) : rx_space :=
  let 'mkRxSpace _ a b c d e f g h i j := r in mkRxSpace x a b c d e f g h i j.
Definition set_ack_desired (x : bool) (r : rx_space) : rx_space :=
  let 'mkRxSpace a _ b c d e f g h i j := r in mkRxSpace a x b c d e f g h i j.
Definition set_ack_generated (x : bool) (r : rx_space) : rx_space :=
  let 'mkRxSpace a b _ c d e f g h i j := r in mkRxSpace a b x c d e f g h i j.
Definition set_ack (x : OSSL_QUIC_FRAME_ACK) (r : rx_space) : rx_space :=
  let 'mkRxSpace a b c _ d e f g h i j := r in mkRxSpace a b c x d e f g h i j.
Definition set_rx_largest (pn : Z) (t : OSSL_TIME) (r : rx_space) : rx_space :=
  let 'mkRxSpace a b c d _ _ f g h i j := r in mkRxSpace a b c d pn t f g h i j.
Definition set_rx_ecn (x y z : Z) (r : rx_space) : rx_space :=
  let 'mkRxSpace a b c d e f _ _ _ i j := r in mkRxSpace a b c d e f x y z i j.
Definition set_since_last_ack (x : Z) (r : rx_space) : rx_space :=
  let 'mkRxSpace a b c d e f g h i _ j := r in mkRxSpace a b c d e f g h i x j.
Definition set_flush_deadline (x : OSSL_TIME) (r : rx_space) : rx_space :=
  let 'mkRxSpace a b c d e f g h i j _ := r in mkRxSpace a b c d e f g h i j x.

Definition set_pto_count (x : Z) (v : ackm_vars) : ackm_vars :=
  let 'mkVars _ b c d e f g h i j k l := v in mkVars x b c d e f g h i j k l.
Definition set_deadline (x : OSSL_TIME) (v : ackm_vars) : ackm_vars :=
  let 'mkVars a _ c d e f g h i j k l := v in mkVars a x c d e f g h i j k l.
Definition set_first_rtt_sample (x : OSSL_TIME) (v : ackm_vars) : ackm_vars :=
  let 'mkVars a b _ d e f g h i j k l := v in mkVars a b x d e f g h i j k l.
Definition set_bytes_in_flight (x : Z) (v : ackm_vars) : ackm_vars :=
  let 'mkVars a b c _ e f g h i j k l := v in mkVars a b c x e f g h i j k l.
Definition set_confirmed (x : bool) (v : ackm_vars) : ackm_vars :=
  let 'mkVars a b c d _ f g h i j k l := v in mkVars a b c d x f g h i j k l.
Definition set_completed (x : bool) (v : ackm_vars) : ackm_vars :=
  let 'mkVars a b c d e f _ h i j k l := v in mkVars a b c d e f x h i j k l.
Definition set_probe (x : OSSL_ACKM_PROBE_INFO) (v : ackm_vars) : ackm_vars :=
  let 'mkVars a b c d e f g _ i j k l := v in mkVars a b c d e f g x i j k l.
Definition set_delays (x y : OSSL_TIME) (v : ackm_vars) : ackm_vars :=
  let 'mkVars a b c d e f g h _ _ k l := v in mkVars a b c d e f g h x y k l.
Definition set_cbs (x y : bool) (v : ackm_vars) : ackm_vars :=
  let 'mkVars a b c d e f g h i j _ _ := v in mkVars a b c d e f g h i j x y.

(** The packets that the list of newly acknowledged packets is made of. *)
Definition ack_includes_ack_eliciting (pkts : list OSSL_ACKM_TX_PKT) : bool := existsb is_ack_eliciting pkts.

Definition range_contains (r : OSSL_QUIC_ACK_RANGE) (pn : Z) : bool := (pn >=? ar_start r) && (pn <=? ar_end r).

Definition min_u32 (x y : Z) : Z := if x <? y then x else y.

(** The ranges of a frame; [None] when the array is shorter than it says. *)
Definition frame_ranges (a : OSSL_QUIC_FRAME_ACK) : option (list OSSL_QUIC_ACK_RANGE) :=
  if num_ack_ranges a <=? zlen (ack_ranges a) then Some (ztake (num_ack_ranges a) (ack_ranges a)) else None.

Inductive scan := Stop | Hit | Miss | Bad.

(** The inner loop: the ranges from [ridx] on are compared with a packet number,
    and those that it is below are passed. *)
Fixpoint scan_ranges (rs : list OSSL_QUIC_ACK_RANGE) (pn : Z) : scan * list OSSL_QUIC_ACK_RANGE :=
  match rs with
  | [] => (Stop, [])
  | r :: rs' =>
      if range_contains r pn then (Hit, rs)
      else if pn >? ar_end r then (Miss, rs)
      else if pn <? ar_start r then scan_ranges rs' pn
      else (Bad, rs)
  end.

(** The outer loop: [back] are the packets to look at, highest first. *)
Fixpoint newly_acked_walk (back : list OSSL_ACKM_TX_PKT) (rs : list OSSL_QUIC_ACK_RANGE)
  : M tx_pkt_history_st (list OSSL_ACKM_TX_PKT) :=
  match back with
  | [] => ret []
  | pkt :: back' =>
      match scan_ranges rs (pkt_num pkt) with
      | (Stop, _) => ret []
      | (Hit, rs') =>
          ignore (tx_pkt_history_remove (pkt_num pkt)) ;;;
          let! l := newly_acked_walk back' rs' in
          ret (pkt :: l)
      | (Miss, rs') => newly_acked_walk back' rs'
      | (Bad, _) => undef
      end
  end.

(** The packets up to the one with the number. *)
Fixpoint up_to (pn : Z) (l : list OSSL_ACKM_TX_PKT) : list OSSL_ACKM_TX_PKT :=
  match l with
  | [] => []
  | x :: l' => if pkt_num x =? pn then [x] else x :: up_to pn l'
  end.

Section Manager.
Context {D : Type} `{CongestionControl D}.
(** The result of each reading of the clock. *)
Context (now : nat -> OSSL_TIME).

Notation AM := (M (OSSL_ACKM D)).

(** *** Access to the parts of the state *)

Definition upd_tx (f : per_space tx_space -> per_space tx_space) (a : OSSL_ACKM D) : OSSL_ACKM D :=
  mkAckm (f (tx a)) (rx a) (discarded a) (vars a) (statm a) (cc_data a) (log a) (readings a).
Definition upd_rx (f : per_space rx_space -> per_space rx_space) (a : OSSL_ACKM D) : OSSL_ACKM D :=
  mkAckm (tx a) (f (rx a)) (discarded a) (vars a) (statm a) (cc_data a) (log a) (readings a).
Definition upd_vars (f : ackm_vars -> ackm_vars) (a : OSSL_ACKM D) : OSSL_ACKM D :=
  mkAckm (tx a) (rx a) (discarded a) (f (vars a)) (statm a) (cc_data a) (log a) (readings a).

Definition on_tx {A} (sp : pn_space) (m : M tx_space A) : AM A :=
  zoom (fun a => sel sp (tx a)) (fun t => upd_tx (upd_at sp t)) m.
Definition on_rx {A} (sp : pn_space) (m : M rx_space A) : AM A :=
  zoom (fun a => sel sp (rx a)) (fun r => upd_rx (upd_at sp r)) m.
Definition on_vars (f : ackm_vars -> ackm_vars) : AM unit := modify (upd_vars f).

(** The congestion controller; the results of its methods are not looked at. *)
Definition call_cc (m : M D unit) : AM unit :=
  zoom cc_data (fun d a => mkAckm (tx a) (rx a) (discarded a) (vars a) (statm a) d (log a) (readings a)) (ignore m).

Definition call_back (c : callback) : AM unit :=
  modify (fun a => mkAckm (tx a) (rx a) (discarded a) (vars a) (statm a) (cc_data a) (c :: log a) (readings a)).

Definition read_clock : AM OSSL_TIME :=
  fun a => (Ok (now (readings a)),
            mkAckm (tx a) (rx a) (discarded a) (vars a) (statm a) (cc_data a) (log a) (S (readings a))).

(** A history of a space that has not been discarded. *)
Definition in_tx_history {A} (sp : pn_space) (m : M tx_pkt_history_st A) : AM A :=
  let! a := get in
  assert_ (negb (sel sp (discarded a))) ;;;
  on_tx sp (zoom tx_history set_tx_history m).

Definition in_rx_history {A} (sp : pn_space) (m : M rx_pkt_history_st A) : AM A :=
  let! a := get in
  assert_ (negb (sel sp (discarded a))) ;;;
  on_rx sp (zoom rx_history set_rx_history m).

Definition ackm_ack_eliciting_bytes_in_flight (a : OSSL_ACKM D) : Z :=
  u64 (u64 (ack_eliciting_bytes_in_flight (sel QUIC_PN_SPACE_INITIAL (tx a))
            + ack_eliciting_bytes_in_flight (sel QUIC_PN_SPACE_HANDSHAKE (tx a)))
       + ack_eliciting_bytes_in_flight (sel QUIC_PN_SPACE_APP (tx a))).

(** *** Detection of acknowledged and lost packets *)

(** [ack->ack_ranges[0].end] *)
Definition first_end {S} (a : OSSL_QUIC_FRAME_ACK) : M S Z :=
  match ack_ranges a with
  | r :: _ => ret (ar_end r)
  | [] => undef
  end.

(** In the history of a space. *)
Definition newly_acked_pkts (a : OSSL_QUIC_FRAME_ACK) : M tx_pkt_history_st (list OSSL_ACKM_TX_PKT) :=
  let! e := first_end a in
  let! pkt := tx_pkt_history_by_pkt_num e in
  let! h := get in
  let back := match pkt with
              | Some pkt => reverse (up_to (pkt_num pkt) (packets h))
              | None => reverse (packets h)
              end in
  match frame_ranges a with
  | Some rs => newly_acked_walk back rs
  | None => undef
  end.

Definition ackm_detect_and_remove_newly_acked_pkts (a : OSSL_QUIC_FRAME_ACK) (sp : pn_space)
  : AM (list OSSL_ACKM_TX_PKT) :=
  assert_ (num_ack_ranges a >? 0) ;;;
  in_tx_history sp (newly_acked_pkts a).

(** The loop over the packets of a space, oldest first. *)
Fixpoint lost_walk (sp : pn_space) (loss_delay lost_send_time : OSSL_TIME) (l : list OSSL_ACKM_TX_PKT)
  : M tx_space (list OSSL_ACKM_TX_PKT) :=
  match l with
  | [] => ret []
  | pkt :: l' =>
      assert_ (bool_decide (sp = pkt_space pkt)) ;;;
      let! t := get in
      if pkt_num pkt >? largest_acked_pkt t then lost_walk sp loss_delay lost_send_time l'
      else if (ossl_time_compare (tx_time pkt) lost_send_time <=? 0)
              || (largest_acked_pkt t >=? u64 (pkt_num pkt + K_PKT_THRESHOLD)) then
        zoom tx_history set_tx_history (ignore (tx_pkt_history_remove (pkt_num pkt))) ;;;
        let! r := lost_walk sp loss_delay lost_send_time l' in
        ret (pkt :: r)
      else
        (if ossl_time_is_zero (loss_time t)
         then modify (set_loss_time (ossl_time_add (tx_time pkt) loss_delay))
         else modify (set_loss_time (ossl_time_min (loss_time t) (ossl_time_add (tx_time pkt) loss_delay)))) ;;;
        lost_walk sp loss_delay lost_send_time l'
  end.

Definition loss_delay_of (rtt : OSSL_RTT_INFO) : OSSL_TIME :=
  let d := ossl_time_multiply (ossl_time_max (info_latest_rtt rtt) (info_smoothed_rtt rtt)) K_TIME_THRESHOLD_NUM in
  let d := ossl_time_divide d K_TIME_THRESHOLD_DEN in
  ossl_time_max d (ossl_ticks2time K_GRANULARITY).

Definition ackm_detect_and_remove_lost_pkts (sp : pn_space) : AM (list OSSL_ACKM_TX_PKT) :=
  let! a := get in
  assert_ (negb (largest_acked_pkt (sel sp (tx a)) =? QUIC_PN_INVALID)) ;;;
  let rtt := ossl_statm_get_rtt_info (statm a) in
  on_tx sp (modify (set_loss_time ossl_time_zero)) ;;;
  let loss_delay := loss_delay_of rtt in
  let! t := read_clock in
  let lost_send_time := ossl_time_subtract t loss_delay in
  assert_ (negb (sel sp (discarded a))) ;;;
  on_tx sp (lost_walk sp loss_delay lost_send_time (packets (tx_history (sel sp (tx a))))).

(** *** The loss detection timer *)

Definition ackm_get_loss_time_and_space (a : OSSL_ACKM D) : OSSL_TIME * pn_space :=
  fold_left (fun '(time, space) i =>
      if ossl_time_is_zero time || (ossl_time_compare (loss_time (sel i (tx a))) time =? -1)
      then (loss_time (sel i (tx a)), i) else (time, space))
    [QUIC_PN_SPACE_HANDSHAKE; QUIC_PN_SPACE_APP]
    (loss_time (sel QUIC_PN_SPACE_INITIAL (tx a)), QUIC_PN_SPACE_INITIAL).

(** The duration without backoff. *)
Definition pto_base (rtt : OSSL_RTT_INFO) : OSSL_TIME :=
  ossl_time_add (info_smoothed_rtt rtt)
    (ossl_time_max (ossl_time_multiply (info_rtt_variance rtt) 4) (ossl_ticks2time K_GRANULARITY)).

Definition pto_factor (v : ackm_vars) : Z := Z.shiftl 1 (min_u32 (pto_count v) MAX_PTO_COUNT).

(** The loop over the spaces [sps]. *)
Fixpoint pto_loop (a : OSSL_ACKM D) (duration pto_timeout : OSSL_TIME) (pto_space : pn_space) (sps : list pn_space)
  : OSSL_TIME * pn_space :=
  match sps with
  | [] => (pto_timeout, pto_space)
  | i :: sps' =>
      let t := sel i (tx a) in
      if (ack_eliciting_bytes_in_flight t =? 0) && (handshake_confirmed (vars a) || is_server (vars a))
      then pto_loop a duration pto_timeout pto_space sps'
      else if bool_decide (i = QUIC_PN_SPACE_APP) && negb (handshake_confirmed (vars a))
      then (pto_timeout, pto_space)
      else
        let duration :=
          if bool_decide (i = QUIC_PN_SPACE_APP) && negb (ossl_time_is_infinite (rx_max_ack_delay (vars a)))
          then ossl_time_add duration (ossl_time_multiply (rx_max_ack_delay (vars a)) (pto_factor (vars a)))
          else duration in
        let x := ossl_time_add (time_of_last_ack_eliciting_pkt t) duration in
        if negb (ossl_time_is_zero (time_of_last_ack_eliciting_pkt t)) && (ossl_time_compare x pto_timeout <? 0)
        then pto_loop a duration x i sps'
        else pto_loop a duration pto_timeout pto_space sps'
  end.

Definition ackm_get_pto_time_and_space : AM (OSSL_TIME * pn_space) :=
  let! a := get in
  let rtt := ossl_statm_get_rtt_info (statm a) in
  let duration := ossl_time_multiply (pto_base rtt) (pto_factor (vars a)) in
  if ackm_ack_eliciting_bytes_in_flight a =? 0 then
    assert_ (negb (peer_completed_addr_validation (vars a))) ;;;
    let! t := read_clock in
    ret (ossl_time_add t duration,
         if sel QUIC_PN_SPACE_INITIAL (discarded a) then QUIC_PN_SPACE_HANDSHAKE else QUIC_PN_SPACE_INITIAL)
  else
    ret (pto_loop a duration ossl_time_infinite QUIC_PN_SPACE_INITIAL
           [QUIC_PN_SPACE_INITIAL; QUIC_PN_SPACE_HANDSHAKE; QUIC_PN_SPACE_APP]).

Definition ackm_set_loss_detection_timer_actual (deadline : OSSL_TIME) : AM unit :=
  on_vars (set_deadline deadline) ;;;
  let! a := get in
  if loss_detection_deadline_cb (vars a) then call_back (Cb_loss_deadline deadline) else ret tt.

Definition ackm_set_loss_detection_timer : AM unit :=
  let! a := get in
  let earliest_loss_time := fst (ackm_get_loss_time_and_space a) in
  if negb (ossl_time_is_zero earliest_loss_time) then ackm_set_loss_detection_timer_actual earliest_loss_time
  else if (ackm_ack_eliciting_bytes_in_flight a =? 0) && peer_completed_addr_validation (vars a)
  then ackm_set_loss_detection_timer_actual ossl_time_zero
  else
    let! timeout := ackm_get_pto_time_and_space in
    ackm_set_loss_detection_timer_actual (fst timeout).

Definition ackm_in_persistent_congestion (a : OSSL_ACKM D) (lpkts : list OSSL_ACKM_TX_PKT) : bool := false.

(** *** What happens to packets *)

(** A packet in flight leaves the counts. *)
Definition leave_flight (p : OSSL_ACKM_TX_PKT) : AM unit :=
  on_vars (fun v => set_bytes_in_flight (u64 (bytes_in_flight v - num_bytes p)) v) ;;;
  if is_ack_eliciting p then
    on_tx (pkt_space p) (modify (fun t => set_eliciting (u64 (ack_eliciting_bytes_in_flight t - num_bytes p)) t))
  else ret tt.

Fixpoint lost_loop (pseudo : bool) (l : list OSSL_ACKM_TX_PKT) : AM unit :=
  match l with
  | [] => ret tt
  | p :: l' =>
      (if is_inflight p then
         leave_flight p ;;;
         if negb pseudo then call_cc (cc_on_data_lost (mkLossInfo (tx_time p) (num_bytes p))) else ret tt
       else ret tt) ;;;
      call_back (Cb_lost (pkt_space p) (pkt_num p) (cb_arg p)) ;;;
      lost_loop pseudo l'
  end.

Definition ackm_on_pkts_lost (sp : pn_space) (lpkts : list OSSL_ACKM_TX_PKT) (pseudo : bool) : AM unit :=
  lost_loop pseudo lpkts ;;;
  let! a := get in
  let flags := if negb (ossl_time_is_zero (first_rtt_sample (vars a))) && ackm_in_persistent_congestion a lpkts
               then OSSL_CC_LOST_FLAG_PERSISTENT_CONGESTION else 0 in
  call_cc (cc_on_data_lost_finished flags).

(** The callback of a packet does not change the packet. *)
Fixpoint ackm_on_pkts_acked (l : list OSSL_ACKM_TX_PKT) : AM unit :=
  match l with
  | [] => ret tt
  | p :: l' =>
      (if is_inflight p then
         leave_flight p ;;;
         if negb (largest_acked p =? QUIC_PN_INVALID)
         then in_rx_history (pkt_space p) (ignore (rx_pkt_history_bump_watermark (u64 (largest_acked p + 1))))
         else ret tt
       else ret tt) ;;;
      call_back (Cb_acked (pkt_space p) (pkt_num p) (cb_arg p)) ;;;
      (if is_inflight p then call_cc (cc_on_data_acked (mkAckInfo (tx_time p) (num_bytes p))) else ret tt) ;;;
      ackm_on_pkts_acked l'
  end.

(** *** The operations of the transmit side *)

Definition ossl_ackm_on_tx_packet (pkt : OSSL_ACKM_TX_PKT) : AM unit :=
  let sp := pkt_space pkt in
  let! a := get in
  assert_ (negb (sel sp (discarded a))) ;;;
  guard (negb (ossl_time_is_zero (tx_time pkt)
               || (ossl_time_compare (time_of_last_ack_eliciting_pkt (sel sp (tx a))) (tx_time pkt) >? 0))) ;;;
  guard (negb (num_bytes pkt =? 0)) ;;;
  guard (negb (negb (is_inflight pkt) && is_ack_eliciting pkt)) ;;;
  on_tx sp (zoom tx_history set_tx_history (tx_pkt_history_add pkt)) ;;;
  if is_inflight pkt then
    (if is_ack_eliciting pkt then
       on_tx sp (modify (fun t => set_eliciting (u64 (ack_eliciting_bytes_in_flight t + num_bytes pkt))
                                    (set_time_of_last (tx_time pkt) t)))
     else ret tt) ;;;
    on_vars (fun v => set_bytes_in_flight (u64 (bytes_in_flight v + num_bytes pkt)) v) ;;;
    ackm_set_loss_detection_timer ;;;
    call_cc (cc_on_data_sent (num_bytes pkt))
  else ret tt.

Definition ossl_ackm_on_rx_datagram (num_bytes : Z) : AM unit := ret tt.

Definition ackm_process_ecn (k : OSSL_QUIC_FRAME_ACK) (sp : pn_space) : AM unit :=
  let! a := get in
  if ecnce k >? peer_ecnce (sel sp (tx a)) then
    on_tx sp (modify (set_peer_ecnce (ecnce k))) ;;;
    let! e := first_end k in
    let! pkt := in_tx_history sp (tx_pkt_history_by_pkt_num e) in
    match pkt with
    | None => ret tt
    | Some pkt => call_cc (cc_on_ecn (mkEcnInfo (tx_time pkt)))
    end
  else ret tt.

(** The RTT sample that newly acknowledged packets give. *)
Definition ackm_sample_rtt (k : OSSL_QUIC_FRAME_ACK) (na_pkts : list OSSL_ACKM_TX_PKT) : AM unit :=
  match na_pkts with
  | [] => ret tt
  | p :: _ =>
      let! e := first_end k in
      if (pkt_num p =? e) && ack_includes_ack_eliciting na_pkts then
        let! t := read_clock in
        on_vars (fun v => if ossl_time_is_zero (first_rtt_sample v) then set_first_rtt_sample t v else v) ;;;
        let! a := get in
        let ack_delay := if handshake_confirmed (vars a)
                         then ossl_time_min (delay_time k) (rx_max_ack_delay (vars a)) else delay_time k in
        modify (fun a => mkAckm (tx a) (rx a) (discarded a) (vars a)
                           (ossl_statm_update_rtt (statm a) ack_delay (ossl_time_subtract t (tx_time p)))
                           (cc_data a) (log a) (readings a))
      else ret tt
  end.

Definition ossl_ackm_on_rx_ack_frame (k : OSSL_QUIC_FRAME_ACK) (sp : pn_space) (rx_time : OSSL_TIME) : AM unit :=
  let! e := first_end k in
  on_tx sp (modify (fun t =>
    set_largest_acked_pkt (if largest_acked_pkt t =? QUIC_PN_INVALID then e
                           else ossl_quic_pn_max (largest_acked_pkt t) e) t)) ;;;
  let! a := get in
  let must_set_timer := negb (peer_completed_addr_validation (vars a)) && bool_decide (sp = QUIC_PN_SPACE_HANDSHAKE) in
  (if must_set_timer then on_vars (set_completed true) else ret tt) ;;;
  let! na_pkts := ackm_detect_and_remove_newly_acked_pkts k sp in
  match na_pkts with
  | [] => if must_set_timer then ackm_set_loss_detection_timer else ret tt
  | _ =>
      ackm_sample_rtt k na_pkts ;;;
      (if ecn_present k then ackm_process_ecn k sp else ret tt) ;;;
      let! lost_pkts := ackm_detect_and_remove_lost_pkts sp in
      (match lost_pkts with [] => ret tt | _ => ackm_on_pkts_lost sp lost_pkts false end) ;;;
      ackm_on_pkts_acked na_pkts ;;;
      on_vars (fun v => if peer_completed_addr_validation v then set_pto_count 0 v else v) ;;;
      ackm_set_loss_detection_timer
  end.

(** The packets of a space that is discarded; the result is the number of their
    bytes in flight. *)
Fixpoint discard_loop (l : list OSSL_ACKM_TX_PKT) (invalidated : Z) : AM Z :=
  match l with
  | [] => ret invalidated
  | p :: l' =>
      (if is_inflight p
       then on_vars (fun v => set_bytes_in_flight (u64 (bytes_in_flight v - num_bytes p)) v) else ret tt) ;;;
      call_back (Cb_discarded (pkt_space p) (pkt_num p) (cb_arg p)) ;;;
      discard_loop l' (if is_inflight p then u64 (invalidated + num_bytes p) else invalidated)
  end.

Definition ossl_ackm_on_pkt_space_discarded (sp : pn_space) : AM unit :=
  let! a := get in
  guard (negb (sel sp (discarded a))) ;;;
  (if bool_decide (sp = QUIC_PN_SPACE_HANDSHAKE) then on_vars (set_completed true) else ret tt) ;;;
  let! n := discard_loop (packets (tx_history (sel sp (tx a)))) 0 in
  on_tx sp (zoom tx_history set_tx_history tx_pkt_history_destroy) ;;;
  on_rx sp (zoom rx_history set_rx_history rx_pkt_history_destroy) ;;;
  (if n >? 0 then call_cc (cc_on_data_invalidated n) else ret tt) ;;;
  on_tx sp (modify (fun t => set_loss_time ossl_time_zero (set_time_of_last ossl_time_zero t))) ;;;
  on_vars (set_pto_count 0) ;;;
  modify (fun a => mkAckm (tx a) (rx a) (upd_at sp true (discarded a)) (vars a) (statm a) (cc_data a) (log a)
                     (readings a)) ;;;
  on_tx sp (modify (set_eliciting 0)) ;;;
  ackm_set_loss_detection_timer.

Definition ossl_ackm_on_handshake_confirmed : AM unit :=
  on_vars (fun v => set_completed true (set_confirmed true v)) ;;;
  ackm_set_loss_detection_timer.

Definition ackm_queue_probe_anti_deadlock_handshake : AM unit :=
  on_vars (fun v => let p := pending_probe v in
    set_probe (mkProbe (anti_deadlock_initial p) (u32 (anti_deadlock_handshake p + 1)) (pto p)) v).

Definition ackm_queue_probe_anti_deadlock_initial : AM unit :=
  on_vars (fun v => let p := pending_probe v in
    set_probe (mkProbe (u32 (anti_deadlock_initial p + 1)) (anti_deadlock_handshake p) (pto p)) v).

Definition ackm_queue_probe (sp : pn_space) : AM unit :=
  on_vars (fun v => let p := pending_probe v in
    set_probe (mkProbe (anti_deadlock_initial p) (anti_deadlock_handshake p)
                 (upd_at sp (u32 (sel sp (pto p) + 1)) (pto p))) v).

Definition ossl_ackm_on_timeout : AM unit :=
  let! a := get in
  let '(earliest_loss_time, sp) := ackm_get_loss_time_and_space a in
  if negb (ossl_time_is_zero earliest_loss_time) then
    let! lost_pkts := ackm_detect_and_remove_lost_pkts sp in
    (match lost_pkts with [] => ret tt | _ => ackm_on_pkts_lost sp lost_pkts false end) ;;;
    ackm_set_loss_detection_timer
  else
    (if ackm_ack_eliciting_bytes_in_flight a =? 0 then
       assert_ (negb (peer_completed_addr_validation (vars a))) ;;;
       if sel QUIC_PN_SPACE_INITIAL (discarded a) then ackm_queue_probe_anti_deadlock_handshake
       else ackm_queue_probe_anti_deadlock_initial
     else
       let! timeout := ackm_get_pto_time_and_space in
       ackm_queue_probe (snd timeout)) ;;;
    on_vars (fun v => set_pto_count (u32 (pto_count v + 1)) v) ;;;
    ackm_set_loss_detection_timer.

Definition ossl_ackm_get_loss_detection_deadline (a : OSSL_ACKM D) : OSSL_TIME := loss_detection_deadline (vars a).

Definition ossl_ackm_get0_probe_request (a : OSSL_ACKM D) : OSSL_ACKM_PROBE_INFO := pending_probe (vars a).

Definition ossl_ackm_get_largest_unacked (sp : pn_space) : AM Z :=
  let! l := in_tx_history sp (let! h := get in ret (packets h)) in
  match list.last l with
  | Some p => ret (pkt_num p)
  | None => fail
  end.

Definition ossl_ackm_mark_packet_pseudo_lost (sp : pn_space) (pn : Z) : AM unit :=
  let! pkt := in_tx_history sp (tx_pkt_history_by_pkt_num pn) in
  match pkt with
  | None => fail
  | Some pkt =>
      in_tx_history sp (ignore (tx_pkt_history_remove (pkt_num pkt))) ;;;
      ackm_on_pkts_lost sp [pkt] true
  end.

Definition ossl_ackm_get_pto_duration (a : OSSL_ACKM D) : OSSL_TIME :=
  let duration := pto_base (ossl_statm_get_rtt_info (statm a)) in
  if negb (ossl_time_is_infinite (rx_max_ack_delay (vars a)))
  then ossl_time_add duration (rx_max_ack_delay (vars a)) else duration.

Definition ossl_ackm_get_largest_acked (a : OSSL_ACKM D) (sp : pn_space) : Z := largest_acked_pkt (sel sp (tx a)).

(** *** The operations of the receive side *)

Inductive ecn_label := OSSL_ACKM_ECN_NONE | OSSL_ACKM_ECN_ECT1 | OSSL_ACKM_ECN_ECT0 | OSSL_ACKM_ECN_ECNCE.

Record OSSL_ACKM_RX_PKT := mkRxPkt {
  rp_pkt_num : Z;
  rp_time : OSSL_TIME;
  rp_pkt_space : pn_space;
  rp_is_ack_eliciting : bool;
  rp_ecn : ecn_label
}.

Definition ossl_ackm_is_ack_desired (sp : pn_space) : AM bool :=
  let! a := get in
  let r := sel sp (rx a) in
  if rx_ack_desired r then ret true
  else if ossl_time_is_infinite (rx_ack_flush_deadline r) then ret false
  else
    let! t := read_clock in
    ret (ossl_time_compare t (rx_ack_flush_deadline r) >=? 0).

Definition ack_contains (k : OSSL_QUIC_FRAME_ACK) (pn : Z) : bool :=
  existsb (fun r => range_contains r pn) (ztake (num_ack_ranges k) (ack_ranges k)).

Definition ackm_is_missing (sp : pn_space) (pn : Z) : AM bool :=
  let! a := get in
  let k := ack (sel sp (rx a)) in
  if num_ack_ranges k >? 0 then
    let! e := first_end k in
    ret ((pn <=? e) && negb (ack_contains k pn))
  else ret false.

Definition ackm_has_newly_missing (sp : pn_space) : AM bool :=
  let! h := in_rx_history sp get in
  match list.last (items (fst (set h))) with
  | None => ret false
  | Some r =>
      let! a := get in
      let k := ack (sel sp (rx a)) in
      if num_ack_ranges k >? 0 then
        let! e := first_end k in
        ret ((start r =? end_ r) && (start r >? u64 (e + 1)))
      else ret false
  end.

Definition ossl_ackm_get_ack_deadline (a : OSSL_ACKM D) (sp : pn_space) : OSSL_TIME :=
  if rx_ack_desired (sel sp (rx a)) then ossl_time_zero else rx_ack_flush_deadline (sel sp (rx a)).

Definition ackm_set_flush_deadline (sp : pn_space) (deadline : OSSL_TIME) : AM unit :=
  on_rx sp (modify (set_flush_deadline deadline)) ;;;
  let! a := get in
  if ack_deadline_cb (vars a) then call_back (Cb_ack_deadline (ossl_ackm_get_ack_deadline a sp) sp) else ret tt.

Definition ackm_queue_ack (sp : pn_space) : AM unit :=
  on_rx sp (modify (set_ack_desired true)) ;;;
  ackm_set_flush_deadline sp ossl_time_infinite.

Definition ackm_on_rx_ack_eliciting (rx_time : OSSL_TIME) (sp : pn_space) (was_missing : bool) : AM unit :=
  let! a := get in
  if rx_ack_desired (sel sp (rx a)) then ret tt
  else
    on_rx sp (modify (fun r => set_since_last_ack (u32 (rx_ack_eliciting_pkts_since_last_ack r + 1)) r)) ;;;
    let! a := get in
    let r := sel sp (rx a) in
    let! immediately :=
      if negb (rx_ack_generated r) || was_missing || (rx_ack_eliciting_pkts_since_last_ack r >=? PKTS_BEFORE_ACK)
      then ret true else ackm_has_newly_missing sp in
    if immediately : bool then ackm_queue_ack sp
    else
      let delay := match sp with
                   | QUIC_PN_SPACE_INITIAL | QUIC_PN_SPACE_HANDSHAKE => ossl_time_zero
                   | QUIC_PN_SPACE_APP => tx_max_ack_delay (vars a)
                   end in
      if ossl_time_is_infinite (rx_ack_flush_deadline r)
      then ackm_set_flush_deadline sp (ossl_time_add rx_time delay)
      else ackm_set_flush_deadline sp (ossl_time_min (rx_ack_flush_deadline r) (ossl_time_add rx_time delay)).

Definition ossl_ackm_is_rx_pn_processable (pn : Z) (sp : pn_space) : AM bool :=
  let! h := in_rx_history sp get in
  ret ((pn >=? rx_watermark h) && negb (ossl_uint_set_query (fst (set h)) pn)).

Definition ossl_ackm_on_rx_packet (pkt : OSSL_ACKM_RX_PKT) : AM unit :=
  let sp := rp_pkt_space pkt in
  let pn := rp_pkt_num pkt in
  let! processable := ossl_ackm_is_rx_pn_processable pn sp in
  if negb processable then ret tt
  else
    on_rx sp (modify (fun r => if pn >? rx_largest_pn r then set_rx_largest pn (rp_time pkt) r else r)) ;;;
    let! was_missing := ackm_is_missing sp pn in
    in_rx_history sp (rx_pkt_history_add_pn pn) ;;;
    (if rp_is_ack_eliciting pkt then ackm_on_rx_ack_eliciting (rp_time pkt) sp was_missing else ret tt) ;;;
    on_rx sp (modify (fun r =>
      match rp_ecn pkt with
      | OSSL_ACKM_ECN_ECT0 => set_rx_ecn (u64 (rx_ect0 r + 1)) (rx_ect1 r) (rx_ecnce r) r
      | OSSL_ACKM_ECN_ECT1 => set_rx_ecn (rx_ect0 r) (u64 (rx_ect1 r + 1)) (rx_ecnce r) r
      | OSSL_ACKM_ECN_ECNCE => set_rx_ecn (rx_ect0 r) (rx_ect1 r) (u64 (rx_ecnce r + 1)) r
      | OSSL_ACKM_ECN_NONE => r
      end)).

(** The number of elements of [ackm->ack_ranges], an array of arrays with one
    element for each space. *)
Definition NELEM_ACK_RANGES : Z := QUIC_PN_SPACE_NUM.

Definition ackm_fill_rx_ack_ranges (sp : pn_space) (k : OSSL_QUIC_FRAME_ACK) : AM OSSL_QUIC_FRAME_ACK :=
  let! h := in_rx_history sp get in
  let rs := ztake NELEM_ACK_RANGES (reverse (items (fst (set h)))) in
  ret (mkAck ((fun r => mkAckRange (start r) (end_ r)) <$> rs) (zlen rs) (delay_time k) (ect0 k) (ect1 k) (ecnce k)
         (ecn_present k)).

Definition ossl_ackm_get_ack_frame (sp : pn_space) : AM OSSL_QUIC_FRAME_ACK :=
  let! t := read_clock in
  let! a := get in
  let! k := ackm_fill_rx_ack_ranges sp (ack (sel sp (rx a))) in
  let r := sel sp (rx a) in
  let delay :=
    if negb (ossl_time_is_zero (rx_largest_time r)) && (ossl_time_compare t (rx_largest_time r) >? 0)
       && bool_decide (sp = QUIC_PN_SPACE_APP)
    then ossl_time_subtract t (rx_largest_time r) else ossl_time_zero in
  let k := mkAck (ack_ranges k) (num_ack_ranges k) delay (rx_ect0 r) (rx_ect1 r) (rx_ecnce r) true in
  on_rx sp (modify (fun r => set_ack_desired false (set_ack_generated true (set_since_last_ack 0 (set_ack k r))))) ;;;
  ackm_set_flush_deadline sp ossl_time_infinite ;;;
  ret k.

Definition ossl_ackm_set_loss_detection_deadline_callback (fn : bool) : AM unit :=
  on_vars (fun v => set_cbs fn (ack_deadline_cb v) v).

Definition ossl_ackm_set_ack_deadline_callback (fn : bool) : AM unit :=
  on_vars (fun v => set_cbs (loss_detection_deadline_cb v) fn v).

Definition ossl_ackm_set_rx_max_ack_delay (t : OSSL_TIME) : AM unit :=
  on_vars (fun v => set_delays t (tx_max_ack_delay v) v).

Definition ossl_ackm_set_tx_max_ack_delay (t : OSSL_TIME) : AM unit :=
  on_vars (fun v => set_delays (rx_max_ack_delay v) t v).

(** *** Creation and release *)

Definition no_frame : OSSL_QUIC_FRAME_ACK := mkAck [] 0 0 0 0 0 false.

Definition new_tx_space (h : tx_pkt_history_st) : tx_space := mkTxSpace h QUIC_PN_INVALID 0 0 0 0.
Definition new_rx_space (o : oracle) : rx_space :=
  mkRxSpace (rx_pkt_history_init o) false false no_frame 0 0 0 0 0 0 ossl_time_infinite.

(** [ok] is the answer to the allocation of the manager, [os] and [us] those to
    the tables and the sets. [None] for NULL. *)
Definition ossl_ackm_new (ok : bool) (os us : per_space oracle) (st : OSSL_STATM) (d : D) (server : bool)
  : option (OSSL_ACKM D) :=
  if negb ok then None
  else
    match tx_pkt_history_init (at_initial os), tx_pkt_history_init (at_handshake os),
          tx_pkt_history_init (at_app os) with
    | Some h0, Some h1, Some h2 =>
        Some (mkAckm (mkPer (new_tx_space h0) (new_tx_space h1) (new_tx_space h2))
                (mkPer (new_rx_space (at_initial us)) (new_rx_space (at_handshake us)) (new_rx_space (at_app us)))
                (mkPer false false false)
                (mkVars 0 0 0 0 false server false (mkProbe 0 0 (mkPer 0 0 0))
                   (ossl_ms2time QUIC_DEFAULT_MAX_ACK_DELAY) DEFAULT_TX_MAX_ACK_DELAY false false)
                st d [] 0)
    | _, _, _ => None
    end.

Definition free_space (sp : pn_space) : AM unit :=
  let! a := get in
  if negb (sel sp (discarded a)) then
    on_tx sp (zoom tx_history set_tx_history tx_pkt_history_destroy) ;;;
    on_rx sp (zoom rx_history set_rx_history rx_pkt_history_destroy)
  else ret tt.

Definition ossl_ackm_free : AM unit :=
  free_space QUIC_PN_SPACE_INITIAL ;;; free_space QUIC_PN_SPACE_HANDSHAKE ;;; free_space QUIC_PN_SPACE_APP.

End Manager.
