(* ===== verification/AckmTheory.v ===== *)
(** The histories of the acknowledgement manager of [Ackm]: the packets sent in a
    space, with what an acknowledgement and the loss of packets take out of them, and
    the packet numbers received in a space. *)

From stdpp Require Import base list numbers gmap sorting.
From Stdlib Require Import ZArith Lia.
From S2P Require Import Prelude SafeMath Vlint Wire Frames UintSet Statm NewReno LHash Ackm.

#[local] Open Scope cfun_scope.

(** ** The history of transmitted packets *)

#[export] Program Instance tx_pkt_key : LHashKey OSSL_ACKM_TX_PKT Z := { lh_key := pkt_num }.
Next Obligation.
  intros d1 d2. cbn. unfold tx_pkt_info_compare.
  destruct (Z.ltb_spec (pkt_num d1) (pkt_num d2)); [lia|]. destruct (Z.gtb_spec (pkt_num d1) (pkt_num d2)); lia.
Qed.
Next Obligation. intros d1 d2 E. cbn. unfold tx_pkt_info_hash. by rewrite E. Qed.
Next Obligation. intros d. cbn. apply u64_range. Qed.

Definition QUIC_PN_LIMIT : Z := 2 ^ 62.

(** Ascending packet numbers. *)
Definition ascending (l : list OSSL_ACKM_TX_PKT) : Prop := StronglySorted (fun a b => pkt_num a < pkt_num b) l.

(** The packets by number. *)
Definition pkt_map (l : list OSSL_ACKM_TX_PKT) : gmap Z OSSL_ACKM_TX_PKT :=
  list_to_map ((fun q => (pkt_num q, q)) <$> l).

(** The history holds the packets [l], and its table exactly these. *)
Record holds (l : list OSSL_ACKM_TX_PKT) (w : Z) (h : tx_pkt_history_st) : Prop := {
  holds_packets : packets h = l;
  holds_watermark : watermark h = w;
  holds_limit : 0 <= w <= QUIC_PN_LIMIT;
  holds_sorted : ascending l;
  holds_below : Forall (fun q => 0 <= pkt_num q < w) l;
  holds_map : exists t, map h = Some t /\ lh_rep t (pkt_map l) /\ false ∉ lh_oracle t
}.

Definition other (pn : Z) (q : OSSL_ACKM_TX_PKT) : Prop := pkt_num q <> pn.
#[export] Instance other_dec pn q : Decision (other pn q).
Proof. unfold other. apply _. Defined.

Lemma ascending_app l k :
  ascending (l ++ k) <-> ascending l /\ ascending k /\ forall x y, x ∈ l -> y ∈ k -> pkt_num x < pkt_num y.
Proof. unfold ascending. apply sorted_app. Qed.

Section Filter.
Context {A : Type} (P : A -> Prop) `{!forall x, Decision (P x)}.
Implicit Types l : list A.

Lemma filter_all l : (forall x, x ∈ l -> P x) -> filter P l = l.
Proof.
  induction l as [|x l IH]; intros Hl; [done|]. rewrite filter_cons_True by (apply Hl; left).
  f_equal. apply IH. intros y Hy. apply Hl. by right.
Qed.

Lemma filter_none l : (forall x, x ∈ l -> ~ P x) -> filter P l = [].
Proof.
  induction l as [|x l IH]; intros Hl; [done|]. rewrite filter_cons_False by (apply Hl; left).
  apply IH. intros y Hy. apply Hl. by right.
Qed.

Lemma Forall_filter_impl (Q : A -> Prop) l : Forall Q l -> Forall Q (filter P l).
Proof. rewrite !Forall_forall. intros Hl x [_ Hx]%list_elem_of_filter. auto. Qed.

Lemma filter_ext_in (Q : A -> Prop) `{!forall x, Decision (Q x)} l :
  (forall x, x ∈ l -> P x <-> Q x) -> filter P l = filter Q l.
Proof.
  induction l as [|x l IH]; intros Hl; [done|]. rewrite !filter_cons.
  rewrite (decide_ext (P x) (Q x)) by (apply Hl; left). by rewrite IH by (intros y Hy; apply Hl; by right).
Qed.

End Filter.

Lemma ascending_filter P `{!forall x, Decision (P x)} l : ascending l -> ascending (filter P l).
Proof.
  unfold ascending. induction 1 as [|x l Hl IH Hx]; [constructor|]. rewrite filter_cons.
  destruct (decide (P x)); [|done]. constructor; [done|]. by apply Forall_filter_impl.
Qed.

Lemma ascending_unique l x y : ascending l -> x ∈ l -> y ∈ l -> pkt_num x = pkt_num y -> x = y.
Proof.
  unfold ascending. induction 1 as [|z l Hl IH Hz]; [by intros ?%elem_of_nil|].
  rewrite Forall_forall in Hz. intros [->|Hx]%elem_of_cons [->|Hy]%elem_of_cons E; [done|..|by apply IH].
  - specialize (Hz _ Hy). lia.
  - specialize (Hz _ Hx). lia.
Qed.

Lemma ascending_NoDup l : ascending l -> NoDup (pkt_num <$> l).
Proof.
  unfold ascending. induction 1 as [|z l Hl IH Hz]; [constructor|]. cbn. constructor; [|done].
  rewrite Forall_forall in Hz. intros (y & E & Hy)%list_elem_of_fmap. specialize (Hz _ Hy). lia.
Qed.

Lemma pkt_map_lookup l pn x : ascending l -> pkt_map l !! pn = Some x <-> x ∈ l /\ pkt_num x = pn.
Proof.
  intros Hs. unfold pkt_map. rewrite <-elem_of_list_to_map.
  - rewrite list_elem_of_fmap. split.
    + intros (y & [= -> ->] & Hy). done.
    + intros [Hx <-]. by exists x.
  - rewrite <-list_fmap_compose. by apply ascending_NoDup.
Qed.

Lemma pkt_map_none l pn : ascending l -> pkt_map l !! pn = None <-> forall x, x ∈ l -> pkt_num x <> pn.
Proof.
  intros Hs. rewrite eq_None_not_Some. split.
  - intros Hn x Hx E. apply Hn. exists x. by apply pkt_map_lookup.
  - intros Hn [x Hx]. apply pkt_map_lookup in Hx as [Hx E]; [|done]. by apply (Hn x).
Qed.

Lemma pkt_map_size l : ascending l -> size (pkt_map l) = length l.
Proof.
  intros Hs. unfold pkt_map. rewrite map_size_list_to_map.
  - by rewrite length_fmap.
  - rewrite <-list_fmap_compose. by apply ascending_NoDup.
Qed.

Lemma pkt_map_delete l pn : ascending l -> pkt_map (filter (other pn) l) = delete pn (pkt_map l).
Proof.
  intros Hs. apply map_eq. intros k. apply option_eq. intros x.
  rewrite pkt_map_lookup by by apply ascending_filter. rewrite lookup_delete_Some, pkt_map_lookup by done.
  rewrite list_elem_of_filter. unfold other. naive_solver.
Qed.

Lemma pkt_map_insert l x :
  ascending (l ++ [x]) -> pkt_map (l ++ [x]) = <[pkt_num x := x]> (pkt_map l).
Proof.
  intros Hs. pose proof Hs as (Hl & _ & Hx)%ascending_app. apply map_eq. intros k. apply option_eq. intros y.
  rewrite pkt_map_lookup, lookup_insert_Some, pkt_map_lookup by done.
  rewrite elem_of_app, list_elem_of_singleton. split.
  - intros [[Hy|Hy] <-]; [right|left; by subst].
    specialize (Hx y x Hy ltac:(by apply list_elem_of_singleton)). split; [lia|done].
  - intros [[<- <-]|[_ [Hy <-]]]; [by split; [right|]|by split; [left|]].
Qed.

Lemma unlink_filter pn l x : ascending l -> x ∈ l -> pkt_num x = pn -> unlink pn l = Some (filter (other pn) l).
Proof.
  unfold ascending. intros Hs. induction Hs as [|z l Hl IH Hz]; [by intros ?%elem_of_nil|].
  rewrite Forall_forall in Hz. intros Hx E. cbn [unlink]. rewrite filter_cons.
  destruct (Z.eqb_spec (pkt_num z) pn) as [E'|E'].
  - rewrite decide_False by (unfold other; lia). f_equal. symmetry. apply filter_all.
    intros y Hy. specialize (Hz _ Hy). unfold other. lia.
  - rewrite decide_True by done. apply elem_of_cons in Hx as [->|Hx]; [done|]. by rewrite IH.
Qed.

Lemma by_pkt_num_ok l w h pn : holds l w h ->
  exists h', tx_pkt_history_by_pkt_num pn h = (Ok (pkt_map l !! pn), h') /\ holds l w h'.
Proof.
  intros [H1 H2 H3 H4 H5 (t & Ht & Hr & Ho)]. unfold tx_pkt_history_by_pkt_num, on_map. rewrite Ht.
  destruct (retrieve_ok t (pkt_map l) (key_pkt pn) Hr) as (t' & E & Hr' & Ho'). rewrite E.
  eexists. split; [done|]. split; try done. exists t'. split_and!; [done..|]. by rewrite Ho'.
Qed.

Lemma suffix_no_failure (o o' : oracle) : o' `suffix_of` o -> false ∉ o -> false ∉ o'.
Proof. intros [k ->] Hn Hin. apply Hn, elem_of_app. by right. Qed.

Lemma remove_ok l w h q : holds l w h -> q ∈ l ->
  exists h', tx_pkt_history_remove (pkt_num q) h = (Ok tt, h') /\ holds (filter (other (pkt_num q)) l) w h'.
Proof.
  intros Hh Hq. unfold tx_pkt_history_remove. destruct (by_pkt_num_ok l w h (pkt_num q) Hh) as (h1 & E1 & Hh1).
  pose proof (holds_sorted _ _ _ Hh) as Hs.
  rewrite (bind_ok _ _ _ _ _ E1). assert (Hl : pkt_map l !! pkt_num q = Some q) by by apply pkt_map_lookup.
  rewrite Hl, (bind_ok get _ h1 h1 h1 eq_refl). pose proof Hh1 as [G1 G2 G3 _ G5 (t & Ht & Hr & Ho)].
  rewrite G1, (unlink_filter (pkt_num q) l q) by done.
  unfold set_packets, modify, on_map, bind. cbn [map packets watermark highest_sent]. rewrite Ht.
  destruct (delete_ok t (pkt_map l) (key_pkt (pkt_num q)) Hr) as (t' & E & Hr' & Ho'). rewrite E.
  eexists. split; [done|]. split; try done.
  - by apply ascending_filter.
  - by apply Forall_filter_impl.
  - exists t'. split_and!; [done| |by eapply suffix_no_failure]. cbn in Hr'. by rewrite pkt_map_delete.
Qed.

Lemma add_ok l w h q : holds l w h -> w <= pkt_num q < QUIC_PN_LIMIT -> zlen l + 1 < 2 ^ 29 ->
  exists h', tx_pkt_history_add q h = (Ok tt, h') /\ holds (l ++ [q]) (pkt_num q + 1) h'.
Proof.
  intros Hh Hq Hlen. pose proof Hh as [G1 G2 G3 G4 G5 (t & Ht & Hr & Ho)].
  assert (Hs : ascending (l ++ [q])).
  { apply ascending_app. split_and!; [done|repeat constructor|]. intros x y Hx ->%list_elem_of_singleton.
    rewrite Forall_forall in G5. specialize (G5 x Hx). lia. }
  assert (Hnone : pkt_map l !! pkt_num q = None).
  { apply pkt_map_none; [done|]. intros x Hx. rewrite Forall_forall in G5. specialize (G5 x Hx). lia. }
  unfold tx_pkt_history_add. rewrite (bind_ok get _ h h h eq_refl), G2.
  replace (pkt_num q >=? w) with true by lia. cbn [guard]. rewrite (bind_ok (ret tt) _ h tt h eq_refl).
  unfold tx_pkt_history_add_actual, on_map, bind. rewrite Ht.
  destruct (retrieve_ok t (pkt_map l) q Hr) as (t1 & E1 & Hr1 & Ho1). rewrite E1.
  replace (pkt_map l !! lh_key q) with (@None OSSL_ACKM_TX_PKT) by (by rewrite <-Hnone).
  cbn [guard ret map packets watermark highest_sent].
  destruct (lh_insert_ok t1 (pkt_map l) q Hr1) as (r & t2 & E2 & Ho2 & Hcase).
  { rewrite pkt_map_size by done. rewrite zlen_length in Hlen. lia. }
  rewrite E2. cbn [get set_packets modify packets map watermark highest_sent]. rewrite u64_id by (unfold QUIC_PN_LIMIT in Hq; lia).
  eexists. split; [done|]. destruct Hcase as [(_ & _ & Hr2)|(_ & _ & _ & Hf)]; [|by rewrite Ho1 in Hf].
  split; cbn; [by rewrite G1|done|lia|done|..].
  - apply Forall_app. split; [|repeat constructor; lia]. eapply Forall_impl; [exact G5|]. cbn. lia.
  - exists t2. split_and!; [done| |].
    + by rewrite pkt_map_insert.
    + eapply suffix_no_failure; [exact Ho2|by rewrite Ho1].
Qed.

(** A packet number that was used, or a lower one, is refused. *)
Lemma add_refused l w h q : holds l w h -> pkt_num q < w -> tx_pkt_history_add q h = (Err, h).
Proof.
  intros [_ G2 _ _ _ _] Hq. unfold tx_pkt_history_add. rewrite (bind_ok get _ h h h eq_refl), G2.
  by replace (pkt_num q >=? w) with false by lia.
Qed.

Lemma destroy_ok l w h : holds l w h -> exists h', tx_pkt_history_destroy h = (Ok tt, h') /\ packets h' = [].
Proof.
  intros [_ _ _ _ _ (t & Ht & Hr & _)]. unfold tx_pkt_history_destroy, on_map, bind. rewrite Ht.
  destruct (flush_ok t _ Hr) as (t' & E & _). rewrite E. eexists. by split.
Qed.

Lemma init_ok o h : tx_pkt_history_init o = Some h -> false ∉ o -> holds [] 0 h.
Proof.
  unfold tx_pkt_history_init. destruct (OPENSSL_LH_new o) as [[t|] o'] eqn:E; [|done]. intros [= <-] Ho.
  destruct (new_rep (K := Z) o t o' E) as [Hr Ho'].
  split; try done; [constructor|]. exists t. split_and!; [done..|]. rewrite Ho'.
  unfold OPENSSL_LH_new in E. destruct (alloc o) as [[] o1] eqn:E1; cbn in E; [|done].
  destruct (alloc o1) as [[] o2] eqn:E2; cbn in E; [|done]. injection E as <- <-.
  apply alloc_suffix in E1, E2. eapply suffix_no_failure; [exact E2|]. by eapply suffix_no_failure.
Qed.

(** *** The packets that a frame acknowledges *)

Definition acked_by (rs : list OSSL_QUIC_ACK_RANGE) (pn : Z) : bool := existsb (fun r => range_contains r pn) rs.

(** Valid ranges in descending order. *)
Fixpoint descend (rs : list OSSL_QUIC_ACK_RANGE) : Prop :=
  match rs with
  | [] => True
  | r :: rs' => ar_start r <= ar_end r /\ (forall r', r' ∈ rs' -> ar_end r' < ar_start r) /\ descend rs'
  end.

Lemma acked_by_iff rs pn : acked_by rs pn = true <-> exists r, r ∈ rs /\ ar_start r <= pn <= ar_end r.
Proof.
  unfold acked_by. rewrite existsb_exists. unfold range_contains. setoid_rewrite <-list_elem_of_In.
  split; intros (r & Hr & Hc); exists r; (split; [done|]); lia.
Qed.

Lemma acked_by_false rs pn : (forall r, r ∈ rs -> ar_start r <= pn <= ar_end r -> False) -> acked_by rs pn = false.
Proof.
  intros Hn. destruct (acked_by rs pn) eqn:E; [|done]. apply acked_by_iff in E as (r & Hr & Hc). by destruct (Hn r Hr).
Qed.

Lemma scan_ranges_spec rs pn : descend rs ->
  let (v, rs') := scan_ranges rs pn in
  descend rs' /\ (forall x, x <= pn -> acked_by rs' x = acked_by rs x) /\
  match v with
  | Stop => rs' = []
  | Hit => acked_by rs pn = true
  | Miss => acked_by rs pn = false
  | Bad => False
  end.
Proof.
  induction rs as [|r rs IH]; intros Hd; cbn [scan_ranges]; [done|]. destruct Hd as (Hr & Hlt & Hd).
  destruct (range_contains r pn) eqn:Ec; [cbn; by rewrite Ec|].
  destruct (Z.gtb_spec pn (ar_end r)) as [Hgt|Hgt].
  { split_and!; try done. apply acked_by_false. intros r' [->|Hr']%elem_of_cons Hc; [lia|]. specialize (Hlt r' Hr'). lia. }
  destruct (Z.ltb_spec pn (ar_start r)) as [Hl|Hl].
  - specialize (IH Hd). destruct (scan_ranges rs pn) as [v rs']. destruct IH as (I1 & I2 & I3).
    assert (Hskip : forall x, x <= pn -> acked_by (r :: rs) x = acked_by rs x).
    { intros x Hx. cbn. unfold range_contains. replace (x >=? ar_start r) with false by lia. done. }
    split_and!; [done| |].
    + intros x Hx. by rewrite Hskip, I2.
    + destruct v; try done; by rewrite Hskip by lia.
  - unfold range_contains in Ec. lia.
Qed.

#[export] Instance tx_pkt_eq_dec : EqDecision OSSL_ACKM_TX_PKT.
Proof. solve_decision. Defined.

(** The packets without those that are gone. *)
Definition without (gone l : list OSSL_ACKM_TX_PKT) : list OSSL_ACKM_TX_PKT :=
  filter (fun q => pkt_num q ∉ pkt_num <$> gone) l.

Lemma without_nil l : without [] l = l.
Proof. apply filter_all. intros x _. by apply not_elem_of_nil. Qed.

Lemma without_cons q gone l : without gone (filter (other (pkt_num q)) l) = without (q :: gone) l.
Proof.
  unfold without. rewrite list_filter_filter. apply list_filter_iff. intros x. cbn. rewrite not_elem_of_cons.
  unfold other. tauto.
Qed.

(** The packets of an ascending list that satisfy [P], in any order, and the rest. *)
Lemma without_filter P `{!forall x, Decision (P x)} gone l :
  ascending l -> gone ≡ₚ filter P l -> without gone l = filter (fun x => ~ P x) l.
Proof.
  intros Hs Hg. apply filter_ext_in. intros x Hx. apply not_iff_compat. rewrite list_elem_of_fmap. split.
  - intros (y & E & Hy). rewrite Hg in Hy. apply list_elem_of_filter in Hy as [Hy Hy'].
    by rewrite (ascending_unique l x y).
  - intros HP. exists x. split; [done|]. rewrite Hg. by apply list_elem_of_filter.
Qed.

Lemma newly_acked_walk_ok rs0 back : forall rs l w h,
  holds l w h -> descend rs -> ascending (reverse back) -> (forall x, x ∈ back -> x ∈ l) ->
  (forall x, x ∈ back -> acked_by rs (pkt_num x) = acked_by rs0 (pkt_num x)) ->
  let gone := filter (fun q => acked_by rs0 (pkt_num q) = true) back in
  exists h', newly_acked_walk back rs h = (Ok gone, h') /\ holds (without gone l) w h'.
Proof.
  induction back as [|q back IH]; intros rs l w h Hh Hd Hs Hin Hrs; cbn [newly_acked_walk].
  { exists h. by rewrite without_nil. }
  rewrite reverse_cons in Hs. apply ascending_app in Hs as (Hs & _ & Hlt).
  pose proof (scan_ranges_spec rs (pkt_num q) Hd) as Hsc. destruct (scan_ranges rs (pkt_num q)) as [v rs'].
  destruct Hsc as (Hd' & Hrs' & Hv).
  assert (Hback : forall x, x ∈ back -> acked_by rs' (pkt_num x) = acked_by rs0 (pkt_num x)).
  { intros x Hx. rewrite Hrs'; [apply Hrs; by right|].
    specialize (Hlt x q ltac:(by apply elem_of_reverse) ltac:(by apply list_elem_of_singleton)). lia. }
  assert (Hq : acked_by rs (pkt_num q) = acked_by rs0 (pkt_num q)) by (apply Hrs; left).
  destruct v; cbn zeta; [| | |done].
  - subst rs'. rewrite filter_none; [exists h; by rewrite without_nil|].
    intros x [->|Hx]%elem_of_cons; [|by rewrite <-Hback]. by rewrite <-Hq, <-Hrs'.
  - rewrite filter_cons_True by congruence.
    destruct (remove_ok l w h q Hh ltac:(apply Hin; left)) as (h1 & E1 & Hh1).
    destruct (IH rs' _ w h1 Hh1 Hd' Hs) as (h2 & E2 & Hh2); [|done|].
    { intros x Hx. apply list_elem_of_filter. split; [|apply Hin; by right].
      specialize (Hlt x q ltac:(by apply elem_of_reverse) ltac:(by apply list_elem_of_singleton)). unfold other. lia. }
    unfold ignore at 1. unfold bind at 1. rewrite E1, (bind_ok _ _ _ _ _ E2). exists h2. split; [done|].
    by rewrite <-without_cons.
  - rewrite filter_cons_False by congruence. apply IH; try done. intros x Hx. apply Hin. by right.
Qed.

(** A frame as the decoder accepts it. *)
Record valid_ack (k : OSSL_QUIC_FRAME_ACK) : Prop := {
  va_num : num_ack_ranges k = zlen (ack_ranges k);
  va_some : ack_ranges k <> [];
  va_descend : descend (ack_ranges k);
  va_limit : Forall (fun r => 0 <= ar_start r /\ ar_end r < QUIC_PN_LIMIT) (ack_ranges k)
}.

(** The packets that the frame [k] acknowledges. *)
Definition acks (k : OSSL_QUIC_FRAME_ACK) (q : OSSL_ACKM_TX_PKT) : Prop := acked_by (ack_ranges k) (pkt_num q) = true.
#[export] Instance acks_dec k q : Decision (acks k q).
Proof. unfold acks. apply _. Defined.

Lemma up_to_prefix pn l x :
  ascending l -> x ∈ l -> pkt_num x = pn ->
  exists k, l = up_to pn l ++ k /\ forall y, y ∈ k -> pn < pkt_num y.
Proof.
  unfold ascending. induction 1 as [|z l Hl IH Hz]; [by intros ?%elem_of_nil|]. rewrite Forall_forall in Hz.
  intros Hx E. cbn [up_to]. destruct (Z.eqb_spec (pkt_num z) pn) as [E'|E'].
  - exists l. split; [done|]. intros y Hy. specialize (Hz y Hy). lia.
  - apply elem_of_cons in Hx as [->|Hx]; [done|]. destruct (IH Hx E) as (k & Ek & Hk). exists k.
    split; [|done]. cbn. by rewrite <-Ek.
Qed.

Lemma filter_reverse {A} (P : A -> Prop) `{!forall x, Decision (P x)} l : filter P (reverse l) = reverse (filter P l).
Proof.
  induction l as [|x l IH]; [done|]. rewrite reverse_cons, filter_app, IH, !filter_cons, filter_nil.
  destruct (decide (P x)); [by rewrite reverse_cons|by rewrite app_nil_r].
Qed.

Lemma newly_acked_pkts_ok k l w h : holds l w h -> valid_ack k ->
  exists h', newly_acked_pkts k h = (Ok (reverse (filter (acks k) l)), h') /\ holds (filter (fun q => ~ acks k q) l) w h'.
Proof.
  intros Hh [Hnum Hsome Hd _]. unfold newly_acked_pkts, first_end, frame_ranges.
  destruct (ack_ranges k) as [|r0 rs] eqn:Er; [done|]. rewrite (bind_ok (ret _) _ h (ar_end r0) h eq_refl).
  destruct (by_pkt_num_ok l w h (ar_end r0) Hh) as (h1 & E1 & Hh1). rewrite (bind_ok _ _ _ _ _ E1).
  rewrite (bind_ok get _ h1 h1 h1 eq_refl), (holds_packets _ _ _ Hh1), Hnum.
  replace (zlen (r0 :: rs) <=? zlen (r0 :: rs)) with true by lia. rewrite ztake_ge by lia.
  pose proof (holds_sorted _ _ _ Hh) as Hs.
  assert (Hcover : exists back kk, (match pkt_map l !! ar_end r0 with
      Some pkt => reverse (up_to (pkt_num pkt) l) | None => reverse l end) = reverse back /\
      l = back ++ kk /\ forall y, y ∈ kk -> ar_end r0 < pkt_num y).
  { destruct (pkt_map l !! ar_end r0) as [x|] eqn:Ex.
    - apply pkt_map_lookup in Ex as [Hx Ex]; [|done]. rewrite Ex. destruct (up_to_prefix _ l x Hs Hx Ex) as (kk & Ek & Hk).
      by exists (up_to (ar_end r0) l), kk.
    - exists l, []. rewrite app_nil_r. split_and!; try done. by intros y ?%elem_of_nil. }
  destruct Hcover as (back & kk & -> & El & Hk).
  assert (Hnot : forall y, y ∈ kk -> ~ acks k y).
  { intros y Hy. specialize (Hk y Hy). unfold acks. rewrite Er, acked_by_iff. intros (r & Hr & Hc).
    apply elem_of_cons in Hr as [->|Hr]; [lia|]. destruct Hd as (Hd1 & Hd2 & _). specialize (Hd2 r Hr). lia. }
  assert (Hf : filter (acks k) l = filter (acks k) back).
  { rewrite El, filter_app, (filter_none _ kk), app_nil_r; done. }
  assert (Hgone : filter (fun q => acked_by (r0 :: rs) (pkt_num q) = true) (reverse back) = reverse (filter (acks k) l)).
  { rewrite filter_reverse, Hf. f_equal. apply list_filter_iff. intros q. unfold acks. by rewrite Er. }
  destruct (newly_acked_walk_ok (r0 :: rs) (reverse back) (r0 :: rs) l w h1 Hh1 Hd) as (h2 & E2 & Hh2); [..|done|].
  { rewrite reverse_involutive. rewrite El in Hs. apply ascending_app in Hs as (Hb & _). exact Hb. }
  { intros x Hx. rewrite elem_of_reverse in Hx. rewrite El. apply elem_of_app. by left. }
  rewrite Hgone in E2, Hh2. exists h2. split; [done|].
  by rewrite (without_filter (acks k)) in Hh2 by (done || by rewrite reverse_Permutation).
Qed.

(** *** The packets that are lost *)

(** By time or by packet number, when [largest] is acknowledged and packets sent by
    [by_time] are overdue. *)
Definition lost (largest : Z) (by_time : OSSL_TIME) (q : OSSL_ACKM_TX_PKT) : Prop :=
  pkt_num q <= largest /\ (tx_time q <= by_time \/ pkt_num q + K_PKT_THRESHOLD <= largest).

(** Not lost, but an acknowledged packet was sent later. *)
Definition pending (largest : Z) (by_time : OSSL_TIME) (q : OSSL_ACKM_TX_PKT) : Prop :=
  pkt_num q <= largest /\ by_time < tx_time q /\ largest < pkt_num q + K_PKT_THRESHOLD.

#[export] Instance lost_dec n t q : Decision (lost n t q).
Proof. unfold lost. apply _. Defined.
#[export] Instance pending_dec n t q : Decision (pending n t q).
Proof. unfold pending. apply _. Defined.

(** The earliest time at which one of the pending packets is lost; 0 for none. *)
Definition add_loss_time (d : OSSL_TIME) (lt : OSSL_TIME) (q : OSSL_ACKM_TX_PKT) : OSSL_TIME :=
  if lt =? 0 then ossl_time_add (tx_time q) d else Z.min lt (ossl_time_add (tx_time q) d).

Definition same_but_loss (t t' : tx_space) : Prop :=
  largest_acked_pkt t' = largest_acked_pkt t /\
  time_of_last_ack_eliciting_pkt t' = time_of_last_ack_eliciting_pkt t /\
  ack_eliciting_bytes_in_flight t' = ack_eliciting_bytes_in_flight t /\ peer_ecnce t' = peer_ecnce t.

Lemma ossl_time_min_min (a b : OSSL_TIME) : ossl_time_min a b = Z.min a b.
Proof. unfold ossl_time_min, OSSL_TIME in *. destruct (Z.ltb_spec a b); lia. Qed.

Lemma lost_walk_ok sp d lst back : forall l w t,
  holds l w (tx_history t) -> (forall x, x ∈ back -> x ∈ l /\ pkt_space x = sp) -> ascending back ->
  let lp := lost (largest_acked_pkt t) lst in
  exists t', lost_walk sp d lst back t = (Ok (filter lp back), t') /\
    holds (without (filter lp back) l) w (tx_history t') /\ same_but_loss t t' /\
    loss_time t' = fold_left (add_loss_time d) (filter (pending (largest_acked_pkt t) lst) back) (loss_time t).
Proof.
  induction back as [|q back IH]; intros l w t Hh Hin Hs; cbn zeta.
  { exists t. by rewrite without_nil. }
  destruct (Hin q ltac:(left)) as [Hq Hsp]. cbn [lost_walk]. rewrite bool_decide_true by done.
  inversion Hs as [|? ? Hs' Hlt]; subst. rewrite Forall_forall in Hlt.
  assert (Hin' : forall x, x ∈ back -> x ∈ l /\ pkt_space x = pkt_space q) by (intros x Hx; apply Hin; by right).
  pose proof (holds_below _ _ _ Hh) as Hbelow. rewrite Forall_forall in Hbelow. specialize (Hbelow q Hq).
  pose proof (holds_limit _ _ _ Hh) as Hlim. unfold QUIC_PN_LIMIT in Hlim.
  cbn [assert_]. rewrite (bind_ok (ret tt) _ t tt t eq_refl), (bind_ok get _ t t t eq_refl).
  unfold K_PKT_THRESHOLD. rewrite (u64_id (pkt_num q + 3)), ossl_time_compare_le by lia.
  destruct (Z.gtb_spec (pkt_num q) (largest_acked_pkt t)) as [Hgt|Hle].
  { rewrite !filter_cons_False by (unfold lost, pending; lia). by apply IH. }
  destruct ((tx_time q <=? lst) || (largest_acked_pkt t >=? pkt_num q + 3)) eqn:Ec.
  - rewrite filter_cons_True, (filter_cons_False (pending _ _)) by (unfold lost, pending, K_PKT_THRESHOLD; lia).
    destruct (remove_ok l w (tx_history t) q Hh Hq) as (h1 & E1 & Hh1).
    destruct (IH (filter (other (pkt_num q)) l) w (set_tx_history h1 t) Hh1) as (t2 & E2 & Hh2 & Hsame & Hlt2); [|done|].
    { intros x Hx. destruct (Hin' x Hx) as [Hxl Hxs]. split; [|done]. apply list_elem_of_filter.
      specialize (Hlt x Hx). unfold other. split; [lia|done]. }
    rewrite (bind_ok _ _ t tt (set_tx_history h1 t)) by (unfold zoom, ignore; by rewrite E1).
    rewrite (bind_ok _ _ _ _ _ E2). exists t2. split; [done|]. rewrite without_cons in Hh2. by split_and!.
  - rewrite filter_cons_False, (filter_cons_True (pending _ _)) by (unfold lost, pending, K_PKT_THRESHOLD; lia).
    rewrite ossl_time_is_zero_spec, ossl_time_min_min.
    destruct (IH l w (set_loss_time (add_loss_time d (loss_time t) q) t) Hh Hin' Hs') as (t2 & E2 & Hh2 & Hsame & Hlt2).
    exists t2. split; [|by split_and!]. etrans; [|exact E2]. unfold add_loss_time. by destruct (loss_time t =? 0).
Qed.

(** What the fold computes. *)
Lemma loss_time_min d l lt : 0 <= d -> (forall q, q ∈ l -> 0 < tx_time q /\ is_u64 (tx_time q)) -> is_u64 d -> 0 <= lt ->
  let r := fold_left (add_loss_time d) l lt in
  0 <= r /\ (r = 0 <-> lt = 0 /\ l = []) /\
  (forall q, q ∈ l -> r <= Z.min (tx_time q + d) UINT64_MAX) /\ (lt <> 0 -> r <= lt).
Proof.
  intros Hd Hl Hu. revert lt. induction l as [|q l IH]; intros lt Hlt; cbn [fold_left].
  { split_and!; [done| |by intros q ?%elem_of_nil|lia]. split; [done|by intros [? _]]. }
  destruct (Hl q ltac:(left)) as [Hq1 Hq2]. assert (Ha : ossl_time_add (tx_time q) d = Z.min (tx_time q + d) UINT64_MAX)
    by by apply ossl_time_add_sat.
  assert (Hr : 0 < add_loss_time d lt q <= Z.min (tx_time q + d) UINT64_MAX /\ (lt <> 0 -> add_loss_time d lt q <= lt)).
  { unfold add_loss_time. rewrite Ha. unfold is_u64, U64_MOD, UINT64_MAX, OSSL_TIME in *. destruct (Z.eqb_spec lt 0); lia. }
  destruct (IH ltac:(intros x Hx; apply Hl; by right) (add_loss_time d lt q)) as (I1 & I2 & I3 & I4); [lia|].
  split_and!; [done| | |].
  - split; [intros [? _]%I2; lia|by intros [_ ?]].
  - intros x [->|Hx]%elem_of_cons; [|by apply I3]. etrans; [apply I4; lia|lia].
  - intros Hne. etrans; [apply I4; lia|]. by apply Hr.
Qed.

(** ** The history of received packet numbers *)

Abbreviation rx_items h := (items (fst (set h))).

Record rx_ok (h : rx_pkt_history_st) : Prop := {
  rx_inv : inv 2 (rx_items h);
  rx_limit : Forall (fun r => end_ r < QUIC_PN_LIMIT) (rx_items h);
  rx_above : Forall (fun r => rx_watermark h <= start r) (rx_items h);
  rx_mark : 0 <= rx_watermark h <= QUIC_PN_LIMIT;
  rx_count : zlen (rx_items h) <= MAX_RX_ACK_RANGES
}.

(** The packet numbers to acknowledge, and those that are not processed again. *)
Definition unacked (h : rx_pkt_history_st) (pn : Z) : Prop := contains (rx_items h) pn.
Definition known (h : rx_pkt_history_st) (pn : Z) : Prop := pn < rx_watermark h \/ unacked h pn.

(** Removing all numbers up to [e] needs no new item. *)
Lemma remove_walk_prefix e back : forall after s,
  Forall range_ok back -> 
  exists s', remove_walk (mkRange 0 e) back after s = (Ok tt, s') /\ snd s' = snd s /\
    zlen (items (fst s')) <= zlen back + zlen after.
Proof.
  induction back as [|z bf IH]; intros after s Hb; cbn [remove_walk start end_].
  { eexists. split; [done|]. cbn. rewrite zlen_nil. split; [done|lia]. }
  apply Forall_cons_1 in Hb as [Hz Hb]. unfold range_ok in Hz. pose proof (zlen_nonneg bf). rewrite zlen_cons.
  destruct (Z.gtb_spec 0 (end_ z)); [lia|]. replace (0 <=? start z) with true by lia. cbn [andb].
  destruct (e >=? end_ z) eqn:E1.
  { destruct (IH after (mkUintSet (items (fst s)) (live (fst s) - 1), snd s) Hb) as (s' & E & Ho & Hl).
    exists s'. split; [exact E|]. split; [done|lia]. }
  destruct (e >=? start z) eqn:E2.
  { destruct (IH (mkRange (u64 (e + 1)) (end_ z) :: after) s Hb) as (s' & E & Ho & Hl).
    exists s'. rewrite zlen_cons in Hl. split; [exact E|]. split; [done|lia]. }
  destruct (Z.gtb_spec 0 (start z)); [lia|]. cbn [andb].
  destruct (IH (z :: after) s Hb) as (s' & E & Ho & Hl). exists s'. rewrite zlen_cons in Hl. split; [exact E|]. split; [done|lia].
Qed.

Lemma remove_prefix_ok u o e : inv 2 (items u) -> 0 <= e < U64_MOD ->
  exists u', ossl_uint_set_remove (mkRange 0 e) (u, o) = (Ok tt, (u', o)) /\
    inv 2 (items u') /\ (forall v, contains (items u') v <-> contains (items u) v /\ e < v) /\
    zlen (items u') <= zlen (items u).
Proof.
  intros Hi He. pose proof (removal_remove 2 (mkRange 0 e) u o ltac:(lia) ltac:(unfold range_ok; cbn; lia) Hi) as Hr.
  assert (Hb : Forall range_ok (reverse (items u))) by (rewrite Forall_reverse; apply Hi).
  destruct (remove_walk_prefix e (reverse (items u)) [] (u, o) Hb) as ([u' o'] & E & Ho & Hl). cbn in Ho, Hl. subst o'.
  assert (E' : ossl_uint_set_remove (mkRange 0 e) (u, o) = (Ok tt, (u', o))).
  { unfold ossl_uint_set_remove. cbn [start end_]. replace (0 <=? e) with true by lia. exact E. }
  unfold removal in Hr. rewrite E' in Hr. destruct Hr as [Hi' Hc]. exists u'. split_and!; try done.
  - intros v. cbn [fst] in Hc. rewrite Hc. unfold in_range. cbn. split; intros [Hv Hn]; (split; [done|]).
    + destruct Hv as (r & Hr & Hv). pose proof (inv_range_ok _ _ _ Hi Hr) as Hrr. unfold range_ok, in_range in *. lia.
    + lia.
  - rewrite zlen_nil in Hl. rewrite !zlen_length, length_reverse in Hl. rewrite !zlen_length. lia.
Qed.

(** Removing the first item. *)
Lemma remove_walk_head r back : forall after s,
  range_ok r -> Forall range_ok back -> (forall z, z ∈ back -> end_ r < start z) ->
  remove_walk r (back ++ [r]) after s =
    (Ok tt, (mkUintSet (reverse back ++ after) (live (fst s) - 1), snd s)).
Proof.
  induction back as [|z bf IH]; intros after s Hr Hb Hlt; cbn [app remove_walk].
  - unfold range_ok in Hr. destruct (Z.gtb_spec (start r) (end_ r)); [lia|].
    by replace ((start r <=? start r) && (end_ r >=? end_ r)) with true by lia.
  - apply Forall_cons_1 in Hb as [Hz Hb]. specialize (Hlt z ltac:(left)) as Hz'. unfold range_ok in Hr, Hz.
    destruct (Z.gtb_spec (start r) (end_ z)); [lia|].
    replace ((start r <=? start z) && (end_ r >=? end_ z)) with false by lia.
    replace ((start r <=? start z) && (end_ r >=? start z)) with false by lia.
    replace (end_ r >=? end_ z) with false by lia.
    replace ((start r >? start z) && (end_ r <? end_ z)) with false by lia.
    rewrite IH; [|done..|]; [|intros x Hx; apply Hlt; by right].
    rewrite reverse_cons, <-app_assoc. done.
Qed.

Lemma remove_head_ok r rest n o : inv 2 (r :: rest) ->
  ossl_uint_set_remove r (mkUintSet (r :: rest) n, o) = (Ok tt, (mkUintSet rest (n - 1), o)).
Proof.
  intros (Hr & [Hf Hs] & Hlt)%inv_cons. unfold ossl_uint_set_remove.
  replace (start r <=? end_ r) with true by (unfold range_ok in Hr; lia).
  change (remove_walk r (reverse (r :: rest)) [] (mkUintSet (r :: rest) n, o) = (Ok tt, (mkUintSet rest (n - 1), o))).
  rewrite reverse_cons, remove_walk_head; [by rewrite reverse_involutive, app_nil_r|done|by rewrite Forall_reverse|].
  intros z Hz. rewrite elem_of_reverse in Hz. specialize (Hlt z Hz). lia.
Qed.

Lemma bump_ok h w : rx_ok h -> 0 <= w <= QUIC_PN_LIMIT ->
  exists h', rx_pkt_history_bump_watermark w h = (Ok tt, h') /\ rx_ok h' /\
    rx_watermark h' = Z.max w (rx_watermark h) /\ (forall v, unacked h' v <-> unacked h v /\ w <= v).
Proof.
  intros [I1 I2 I3 I4 I5] Hw. unfold rx_pkt_history_bump_watermark. rewrite (bind_ok get _ h h h eq_refl).
  rewrite Forall_forall in I2, I3.
  destruct (Z.leb_spec w (rx_watermark h)).
  { exists h. split_and!; [done|split; try done; rewrite Forall_forall; done|lia|]. intros v. split; [|tauto].
    intros Hv. split; [done|]. destruct Hv as (r & Hr & Hv). specialize (I3 r Hr). unfold in_range in Hv. lia. }
  unfold QUIC_PN_LIMIT in *. rewrite (u64_id (w - 1)) by lia.
  destruct h as [[u o] wm]. cbn [set fst snd rx_watermark] in *.
  destruct (remove_prefix_ok u o (w - 1) I1) as (u' & E & Hi' & Hc & Hl); [unfold U64_MOD; lia|].
  unfold bind, on_set, zoom. cbn [set rx_watermark]. rewrite E. eexists. split; [done|].
  assert (Hsub : forall r, r ∈ items u' -> w <= start r /\ end_ r < 2 ^ 62).
  { intros r Hr. pose proof (inv_range_ok _ _ _ Hi' Hr) as Hrr. unfold range_ok in Hrr.
    assert (H1 : contains (items u) (start r) /\ w - 1 < start r) by (apply Hc; exists r; unfold in_range; split; [done|lia]).
    assert (H2 : contains (items u) (end_ r) /\ w - 1 < end_ r) by (apply Hc; exists r; unfold in_range; split; [done|lia]).
    destruct H2 as [(r2 & Hr2 & Hv2) _]. specialize (I2 r2 Hr2). unfold in_range in Hv2. lia. }
  split_and!.
  - split; cbn [set fst rx_watermark]; unfold QUIC_PN_LIMIT; try done; try lia; apply Forall_forall; intros r Hr; apply Hsub in Hr; lia.
  - cbn. lia.
  - intros v. unfold unacked. cbn [set fst]. rewrite Hc. split; intros [? ?]; (split; [done|lia]).
Qed.

(** The highest number removed so far. *)
Definition removed_up_to (hi : Z) (gone kept : list UINT_RANGE) : Prop :=
  0 <= hi < QUIC_PN_LIMIT /\ (forall r, r ∈ gone -> end_ r <= hi) /\ (forall r, r ∈ kept -> hi < start r).

Lemma trim_loop_ok fuel : forall l n o wm highest,
  inv 2 l -> Forall (fun r => end_ r < QUIC_PN_LIMIT) l -> (length l < fuel)%nat ->
  highest = QUIC_PN_INVALID \/ removed_up_to highest [] l ->
  exists gone kept n' hi,
    trim_loop fuel highest (mkRxHistory (mkUintSet l n, o) wm) = (Ok hi, mkRxHistory (mkUintSet kept n', o) wm) /\
    l = gone ++ kept /\ zlen kept <= MAX_RX_ACK_RANGES /\ (gone = [] \/ kept <> []) /\
    (gone = [] /\ hi = highest \/ gone <> [] /\ removed_up_to hi gone kept).
Proof.
  induction fuel as [|fuel IH]; intros l n o wm highest Hi Hl Hf Hh; [lia|]. cbn [trim_loop].
  rewrite (bind_ok get _ _ (mkRxHistory (mkUintSet l n, o) wm) _ eq_refl). cbn [set fst items].
  destruct (Z.gtb_spec (zlen l) MAX_RX_ACK_RANGES) as [Hgt|Hle].
  2: { exists [], l, n, highest. split_and!; try done; by left. }
  destruct l as [|r l]; [rewrite zlen_nil in Hgt; unfold MAX_RX_ACK_RANGES in Hgt; lia|].
  assert (Hne : l <> []) by (intros ->; by vm_compute in Hgt).
  apply Forall_cons_1 in Hl as [Hr Hl]. pose proof Hi as (Hrr & Hil & Hlt)%inv_cons. unfold range_ok in Hrr.
  assert (Hhi : (if highest =? QUIC_PN_INVALID then end_ r else ossl_quic_pn_max highest (end_ r)) = end_ r).
  { destruct (Z.eqb_spec highest QUIC_PN_INVALID); [done|]. destruct Hh as [?|(_ & _ & Hh)]; [done|].
    specialize (Hh r ltac:(left)). unfold ossl_quic_pn_max. destruct (Z.gtb_spec highest (end_ r)); lia. }
  rewrite Hhi. unfold ignore, on_set, zoom, bind. cbn [set rx_watermark]. rewrite remove_head_ok by done.
  assert (Hnext : removed_up_to (end_ r) [] l).
  { split_and!; [lia|done|by intros ? ?%elem_of_nil|]. intros z Hz. specialize (Hlt z Hz). lia. }
  destruct (IH l (n - 1) o wm (end_ r) Hil Hl) as (gone & kept & n' & hi & E & El & Hk & Hkn & Hc);
    [cbn in Hf; lia|by right|].
  exists (r :: gone), kept, n', hi.
  split_and!; [exact E|by rewrite El|done|right; destruct Hkn as [->|?]; [by rewrite El in Hne|done]|]. right. split; [done|].
  destruct Hc as [[-> ->]|(C0 & C1 & C2 & C3)].
  - cbn in El. subst kept. destruct Hnext as (N1 & _ & N3). split_and!; [lia|lia| |done].
    by intros z [->|?%elem_of_nil]%elem_of_cons.
  - split_and!; [lia|lia| |done]. intros z [->|Hz]%elem_of_cons; [|by apply C2].
    destruct gone as [|g gone]; [done|]. specialize (C2 g ltac:(left)).
    assert (Hg : g ∈ l) by (rewrite El; left). specialize (Hlt g Hg).
    pose proof (inv_range_ok _ _ _ Hil Hg) as Hgr. unfold range_ok in Hgr. lia.
Qed.

Lemma trim_ok l n o wm :
  inv 2 l -> Forall (fun r => end_ r < QUIC_PN_LIMIT) l -> Forall (fun r => wm <= start r) l -> 0 <= wm <= QUIC_PN_LIMIT ->
  let h := mkRxHistory (mkUintSet l n, o) wm in
  exists h', rx_pkt_history_trim_range_count h = (Ok tt, h') /\ rx_ok h' /\
    (forall v, known h v -> known h' v) /\ (forall v, unacked h' v -> unacked h v) /\
    (forall v, unacked h v -> (forall x, unacked h x -> x <= v) -> unacked h' v).
Proof.
  intros Hi Hl Ha Hw h. unfold rx_pkt_history_trim_range_count, h. rewrite (bind_ok get _ _ h h eq_refl).
  destruct (trim_loop_ok (S (length l)) l n o wm QUIC_PN_INVALID) as (gone & kept & n' & hi & E & El & Hk & Hg & Hc);
    try done; [lia|by left|]. cbn [set h fst items]. rewrite (bind_ok _ _ _ _ _ E). subst l.
  apply inv_app in Hi as (Hig & Hik & Hlt). apply Forall_app in Hl as [Hlg Hlk]. apply Forall_app in Ha as [Hag Hak].
  assert (Hok : rx_ok (mkRxHistory (mkUintSet kept n', o) wm)) by by split.
  destruct Hc as [[-> ->]|(_ & C1 & C2 & C3)].
  { eexists. split; [done|]. split; [done|]. by split. }
  unfold QUIC_PN_LIMIT in C1. unfold QUIC_PN_INVALID, UINT64_MAX.
  destruct (Z.eqb_spec hi 18446744073709551615) as [|_]; [lia|]. cbn [negb]. rewrite u64_id by lia.
  destruct (bump_ok _ (hi + 1) Hok) as (h' & Eb & Hok' & Hw' & Hc'); [unfold QUIC_PN_LIMIT; lia|].
  unfold ignore. rewrite Eb. exists h'. split; [done|]. split; [done|]. cbn in Hw'. split_and!.
  - intros v Hv. unfold known. rewrite Hw'. destruct Hv as [Hv|Hv]; [cbn in Hv; left; lia|].
    destruct Hv as (r & [Hr|Hr]%elem_of_app & Hv); unfold in_range in Hv.
    + specialize (C2 r Hr). left. lia.
    + right. apply Hc'. specialize (C3 r Hr). split; [|lia]. exists r. by split.
  - intros v [Hv _]%Hc'. destruct Hv as (r & Hr & Hv). exists r. split; [|done]. apply elem_of_app. by right.
  - intros v (r & Hr & Hv) Hmax. unfold in_range in Hv.
    destruct kept as [|z kept]; [destruct Hg as [->|?]; [by apply elem_of_nil in Hr|done]|].
    assert (Hz : end_ z <= v).
    { pose proof (inv_range_ok _ _ _ Hik (list_elem_of_here z kept)) as Hrz. unfold range_ok in Hrz.
      apply Hmax. exists z. unfold in_range. split; [apply elem_of_app; right; left|lia]. }
    apply elem_of_app in Hr as [Hr|Hr].
    + specialize (Hlt r z Hr ltac:(left)). pose proof (inv_range_ok _ _ _ Hik (list_elem_of_here z kept)) as Hrz. unfold range_ok in Hrz. lia.
    + apply Hc'. specialize (C3 r Hr). split; [|lia]. exists r. by split.
Qed.

(** Adding a packet number: it is recorded, or nothing changes for lack of memory. *)
Lemma add_pn_ok h pn : rx_ok h -> 0 <= pn < QUIC_PN_LIMIT ->
  exists r h', rx_pkt_history_add_pn pn h = (r, h') /\ rx_ok h' /\ (forall v, known h v -> known h' v) /\
    (forall v, unacked h' v -> unacked h v \/ v = pn /\ r = Ok tt) /\ (r = Ok tt /\ known h' pn \/ r = Err /\ rx_items h' = rx_items h) /\
    (r = Ok tt -> rx_watermark h <= pn -> (forall v, unacked h v -> v <= pn) -> unacked h' pn).
Proof.
  intros Hok Hpn. pose proof Hok as [I1 I2 I3 I4 I5]. unfold rx_pkt_history_add_pn. rewrite (bind_ok get _ h h h eq_refl).
  destruct (Z.ltb_spec pn (rx_watermark h)).
  { exists (Ok tt), h. split_and!; try done; [by left| |lia]. left. split; [done|]. by left. }
  destruct h as [[u o] wm]. cbn [set fst rx_watermark] in *.
  assert (Hr : range_ok (mkRange pn pn)) by (unfold range_ok, QUIC_PN_LIMIT, U64_MOD in *; cbn; lia).
  pose proof (outcome_insert 2 (mkRange pn pn) u o ltac:(lia) Hr I1) as Ho. unfold outcome in Ho.
  unfold on_set, zoom, bind. cbn [set rx_watermark].
  destruct (ossl_uint_set_insert (mkRange pn pn) (u, o)) as [[[]| |] [u' o']]; cbn [fst] in Ho.
  - destruct Ho as [Hi' Hc'].
    { left. right. intros r _ Hov%overlaps_spec. cbn in Hov. cbn. lia. }
    assert (Hall : forall r, r ∈ items u' -> end_ r < QUIC_PN_LIMIT /\ wm <= start r).
    { intros r Hrr. pose proof (inv_range_ok _ _ _ Hi' Hrr) as Hrk. unfold range_ok in Hrk. rewrite Forall_forall in I2, I3.
      assert (H1 : contains (items u) (start r) \/ in_range (start r) (mkRange pn pn)) by (apply Hc'; exists r; unfold in_range; split; [done|lia]).
      assert (H2 : contains (items u) (end_ r) \/ in_range (end_ r) (mkRange pn pn)) by (apply Hc'; exists r; unfold in_range; split; [done|lia]).
      split.
      - destruct H2 as [(x & Hx & Hv)|Hv]; unfold in_range in Hv; cbn in Hv; [specialize (I2 x Hx)|]; lia.
      - destruct H1 as [(x & Hx & Hv)|Hv]; unfold in_range in Hv; cbn in Hv; [specialize (I3 x Hx)|]; lia. }
    destruct u' as [l' n']. cbn [items] in *.
    destruct (trim_ok l' n' o' wm Hi') as (h' & E & Hok' & Hk & Hu & Hm); [apply Forall_forall; intros r Hrr; by apply Hall..|lia|].
    rewrite E. exists (Ok tt), h'. split_and!; try done.
    + intros v [Hv|Hv]; apply Hk; [by left|]. right. apply Hc'. by left.
    + intros v Hv. apply Hu, Hc' in Hv as [Hv|Hv]; [by left|]. right. unfold in_range in Hv. cbn in Hv. split; [lia|done].
    + left. split; [done|]. apply Hk. right. apply Hc'. right. unfold in_range. cbn. lia.
    + intros _ _ Hmax. apply Hm; [apply Hc'; right; unfold in_range; cbn; lia|].
      intros x [Hx|Hx]%Hc'; [by apply Hmax|]. unfold in_range in Hx. cbn in Hx. lia.
  - destruct Ho as [Hu _]; [left; right; intros r _ Hov%overlaps_spec; cbn in Hov; cbn; lia|]. cbn in Hu. subst u'.
    eexists Err, _. split; [done|]. split_and!; try done; [by left|by right].
  - exfalso. apply Ho. left. right. intros r _ Hov%overlaps_spec. cbn in Hov. cbn. lia.
Qed.
