(* ===== verification/AckmInv.v ===== *)
(** The acknowledgement manager as a whole: an invariant of [Ackm]'s state, and the
    steps that its operations are made of, for any congestion controller that keeps
    the laws of [NewReno]'s class. [AckmTx] and [AckmRuns] have the operations.

    The invariant accounts for packets between their removal from a history and the
    call of their callback: they are its parameter [limbo]. Its other parameters are
    the packets sent so far and the bytes of packets declared lost without telling
    the controller. *)

From stdpp Require Import base list numbers gmap sorting.
From Stdlib Require Import ZArith Lia.
From S2P Require Import Prelude SafeMath Vlint Wire Frames UintSet Statm NewReno LHash Ackm AckmTheory.

#[local] Open Scope cfun_scope.

(** ** Sums over packets *)

Definition flight_of (q : OSSL_ACKM_TX_PKT) : Z := if is_inflight q then num_bytes q else 0.
Definition elicit_of (q : OSSL_ACKM_TX_PKT) : Z := if is_ack_eliciting q then num_bytes q else 0.

Definition sum_by (f : OSSL_ACKM_TX_PKT -> Z) (l : list OSSL_ACKM_TX_PKT) : Z := foldr (fun q n => f q + n) 0 l.

Abbreviation flight := (sum_by flight_of).
Abbreviation elicit := (sum_by elicit_of).

Lemma sum_by_cons f q l : sum_by f (q :: l) = f q + sum_by f l.
Proof. done. Qed.

Lemma sum_by_app f l k : sum_by f (l ++ k) = sum_by f l + sum_by f k.
Proof. induction l as [|q l IH]; cbn; [done|]. fold (sum_by f (l ++ k)) (sum_by f l). lia. Qed.

#[export] Instance sum_by_proper f : Proper ((≡ₚ) ==> (=)) (sum_by f).
Proof.
  intros l k Hp. induction Hp as [|q l k _ IH|x y l|l k m _ IH1 _ IH2]; cbn; [done| |lia|congruence].
  fold (sum_by f l) (sum_by f k). lia.
Qed.

Lemma sum_by_filter f P `{!forall x, Decision (P x)} l :
  sum_by f l = sum_by f (filter P l) + sum_by f (filter (fun x => ~ P x) l).
Proof. by rewrite <-sum_by_app, filter_app_complement. Qed.

Lemma sum_by_nonneg f l : Forall (fun q => 0 <= f q) l -> 0 <= sum_by f l.
Proof. induction 1; cbn; [done|]. fold (sum_by f l). lia. Qed.

Lemma sum_by_le f g l : Forall (fun q => f q <= g q) l -> sum_by f l <= sum_by g l.
Proof. induction 1; cbn; [done|]. fold (sum_by f l) (sum_by g l). lia. Qed.

(** ** The invariant *)

(** A well-formed packet of a space. *)
Record pkt_ok (sp : pn_space) (q : OSSL_ACKM_TX_PKT) : Prop := {
  po_space : pkt_space q = sp;
  po_num : 0 <= pkt_num q < QUIC_PN_LIMIT;
  po_bytes : 0 < num_bytes q < U64_MOD;
  po_elicit : is_ack_eliciting q = true -> is_inflight q = true;
  po_time : 0 < tx_time q /\ is_u64 (tx_time q);
  po_largest : largest_acked q = QUIC_PN_INVALID \/ 0 <= largest_acked q < QUIC_PN_LIMIT
}.

(** A packet is named by its space, its number and the argument of its callbacks. *)
Definition ident : Type := pn_space * Z * Z.
Definition ident_of (q : OSSL_ACKM_TX_PKT) : ident := (pkt_space q, pkt_num q, cb_arg q).

Definition fate (c : callback) : option ident :=
  match c with
  | Cb_lost sp pn x | Cb_acked sp pn x | Cb_discarded sp pn x => Some (sp, pn, x)
  | Cb_loss_deadline _ | Cb_ack_deadline _ _ => None
  end.
Definition fates (l : list callback) : list ident := omap fate l.

(** The callbacks about packets. *)
Definition reports (l : list callback) : list callback := filter (fun c => is_Some (fate c)) l.
#[global] Arguments reports _ : simpl never.

Lemma fates_reports l : fates (reports l) = fates l.
Proof.
  unfold fates, reports. induction l as [|c l IH]; [done|]. rewrite filter_cons. case_decide as Hc; cbn; rewrite IH; [done|].
  destruct (fate c); [|done]. by destruct Hc.
Qed.

Lemma reports_app l k : reports (l ++ k) = reports l ++ reports k.
Proof. apply filter_app. Qed.

Definition st_ok (st : OSSL_STATM) : Prop :=
  is_u64 (smoothed_rtt st) /\ is_u64 (latest_rtt st) /\ is_u64 (min_rtt st) /\ is_u64 (rtt_variance st).

Definition spaces : list pn_space := [QUIC_PN_SPACE_INITIAL; QUIC_PN_SPACE_HANDSHAKE; QUIC_PN_SPACE_APP].

Section Invariant.
Context {D : Type} `{CongestionControlLaws D}.
Context (now : nat -> OSSL_TIME) (now_range : forall n, is_u64 (now n)).
Implicit Types a : OSSL_ACKM D.

Definition pk (sp : pn_space) a : list OSSL_ACKM_TX_PKT := packets (tx_history (sel sp (tx a))).

(** The packets in the histories. *)
Definition outstanding a : list OSSL_ACKM_TX_PKT :=
  pk QUIC_PN_SPACE_INITIAL a ++ pk QUIC_PN_SPACE_HANDSHAKE a ++ pk QUIC_PN_SPACE_APP a.

Definition of_space (sp : pn_space) (l : list OSSL_ACKM_TX_PKT) : list OSSL_ACKM_TX_PKT :=
  filter (fun q => pkt_space q = sp) l.

(** What concerns one space. *)
Record space_ok (limbo : list OSSL_ACKM_TX_PKT) (sp : pn_space) a : Prop := {
  so_hist : sel sp (discarded a) = false -> exists w, holds (pk sp a) w (tx_history (sel sp (tx a)));
  so_rx : sel sp (discarded a) = false -> rx_ok (rx_history (sel sp (rx a)));
  so_gone : sel sp (discarded a) = true -> pk sp a = [] /\ loss_time (sel sp (tx a)) = 0;
  so_pkts : Forall (pkt_ok sp) (pk sp a);
  so_elicit : ack_eliciting_bytes_in_flight (sel sp (tx a)) = elicit (pk sp a) + elicit (of_space sp limbo);
  so_largest : largest_acked_pkt (sel sp (tx a)) = QUIC_PN_INVALID \/
               0 <= largest_acked_pkt (sel sp (tx a)) < QUIC_PN_LIMIT;
  so_loss : 0 <= loss_time (sel sp (tx a)) /\
            (loss_time (sel sp (tx a)) <> 0 -> largest_acked_pkt (sel sp (tx a)) <> QUIC_PN_INVALID);
  so_time : is_u64 (time_of_last_ack_eliciting_pkt (sel sp (tx a)))
}.

Record ackm_inv (sent : list ident) (pl : Z) (limbo : list OSSL_ACKM_TX_PKT) a : Prop := {
  ai_space sp : space_ok limbo sp a;
  ai_limbo : Forall (fun q => pkt_ok (pkt_space q) q /\ sel (pkt_space q) (discarded a) = false) limbo;
  ai_flight : bytes_in_flight (vars a) = flight (outstanding a) + flight limbo;
  ai_cc : cc_valid (cc_data a) /\ cc_in_flight (cc_data a) = bytes_in_flight (vars a) + pl /\ 0 <= pl;
  ai_sent : sent ≡ₚ (ident_of <$> outstanding a ++ limbo) ++ fates (log a);
  ai_vars : 0 <= pto_count (vars a) /\ is_u64 (rx_max_ack_delay (vars a)) /\ st_ok (statm a)
}.

(** The loss detection timer: it is set while packets that must be acknowledged are
    in flight, and when it is set there is something to do when it expires. *)
Definition armed a : Prop :=
  ackm_ack_eliciting_bytes_in_flight a <> 0 -> loss_detection_deadline (vars a) <> 0.
Definition timely a : Prop :=
  loss_detection_deadline (vars a) <> 0 ->
  fst (ackm_get_loss_time_and_space a) <> 0 \/ ackm_ack_eliciting_bytes_in_flight a <> 0 \/
  peer_completed_addr_validation (vars a) = false.
(** The periods of the probe timer, as unbounded integers: the base, the factor of the
    back-off, and the delay that the peer may add, none if there is no limit. *)
Definition probe_base a : Z :=
  smoothed_rtt (statm a) + Z.max (rtt_variance (statm a) * 4) K_GRANULARITY.
Definition backoff a : Z := 2 ^ Z.min (pto_count (vars a)) MAX_PTO_COUNT.
Definition peer_delay (t : OSSL_TIME) : Z := if ossl_time_is_infinite t then 0 else t.

(** The space counts for the probe timer: the application data do once the handshake is
    confirmed. *)
Definition probes (sp : pn_space) a : Prop := sp = QUIC_PN_SPACE_APP -> handshake_confirmed (vars a) = true.

(** The latest expiry of the timer for the space [sp], when the peer's delay is at most [w]. *)
Definition probe_by (w : Z) (sp : pn_space) a : Z :=
  time_of_last_ack_eliciting_pkt (sel sp (tx a)) + probe_base a * backoff a
  + (if decide (sp = QUIC_PN_SPACE_APP) then w * backoff a else 0).

(** The timer does not expire later than it must. *)
Definition prompt (w : Z) a : Prop :=
  (fst (ackm_get_loss_time_and_space a) <> 0 ->
     loss_detection_deadline (vars a) = fst (ackm_get_loss_time_and_space a)) /\
  (fst (ackm_get_loss_time_and_space a) = 0 -> forall sp, ack_eliciting_bytes_in_flight (sel sp (tx a)) <> 0 ->
     probes sp a -> time_of_last_ack_eliciting_pkt (sel sp (tx a)) <> 0 -> loss_detection_deadline (vars a) <= probe_by w sp a).

Definition timer_ok (w : Z) a : Prop :=
  peer_delay (rx_max_ack_delay (vars a)) <= w /\ armed a /\ timely a /\ prompt w a.

(** *** General facts *)

Lemma sel_upd_eq {A} sp (x : A) v : sel sp (upd_at sp x v) = x.
Proof. by destruct sp. Qed.

Lemma sel_upd_ne {A} sp sp' (x : A) v : sp <> sp' -> sel sp' (upd_at sp x v) = sel sp' v.
Proof. by destruct sp, sp'. Qed.

Lemma upd_at_sel {A} sp (v : per_space A) : upd_at sp (sel sp v) v = v.
Proof. by destruct sp, v. Qed.

Lemma pkt_flight sp q : pkt_ok sp q -> 0 <= elicit_of q <= flight_of q.
Proof.
  intros [_ _ Hb He _ _]. unfold elicit_of, flight_of.
  destruct (is_ack_eliciting q); [rewrite He by done|destruct (is_inflight q)]; lia.
Qed.

Lemma flight_nonneg l : Forall (fun q => exists sp, pkt_ok sp q) l -> 0 <= elicit l <= flight l.
Proof.
  intros Hl. split.
  - apply sum_by_nonneg. eapply Forall_impl; [exact Hl|]. intros q [sp Hq]. by destruct (pkt_flight sp q Hq).
  - apply sum_by_le. eapply Forall_impl; [exact Hl|]. intros q [sp Hq]. by destruct (pkt_flight sp q Hq).
Qed.

Lemma inv_pkts sent pl limbo a : ackm_inv sent pl limbo a ->
  Forall (fun q => exists sp, pkt_ok sp q) (outstanding a) /\ Forall (fun q => exists sp, pkt_ok sp q) limbo.
Proof.
  intros Hi. split.
  - unfold outstanding. rewrite !Forall_app. split_and!;
      (eapply Forall_impl; [apply (so_pkts _ _ _ (ai_space _ _ _ _ Hi _))|eauto]).
  - eapply Forall_impl; [apply Hi|]. intros q [Hq _]. eauto.
Qed.

Lemma outstanding_sum f a :
  sum_by f (outstanding a) =
    sum_by f (pk QUIC_PN_SPACE_INITIAL a) + sum_by f (pk QUIC_PN_SPACE_HANDSHAKE a) + sum_by f (pk QUIC_PN_SPACE_APP a).
Proof. unfold outstanding. rewrite !sum_by_app. lia. Qed.

Lemma limbo_sum f l :
  sum_by f l = sum_by f (of_space QUIC_PN_SPACE_INITIAL l) + sum_by f (of_space QUIC_PN_SPACE_HANDSHAKE l)
               + sum_by f (of_space QUIC_PN_SPACE_APP l).
Proof.
  induction l as [|q l IH]; [done|]. unfold of_space in *. rewrite !filter_cons. cbn [sum_by foldr].
  fold (sum_by f l). destruct (pkt_space q); repeat case_decide; try congruence; cbn [sum_by foldr];
    unfold sum_by in *; lia.
Qed.

(** The bytes in flight are a 64-bit number, and so is every part of them. *)
Lemma inv_total sent pl limbo a : ackm_inv sent pl limbo a ->
  0 <= bytes_in_flight (vars a) < U64_MOD /\
  ackm_ack_eliciting_bytes_in_flight a = elicit (outstanding a) + elicit limbo /\
  0 <= elicit (outstanding a) + elicit limbo <= bytes_in_flight (vars a).
Proof.
  intros Hi. destruct (inv_pkts _ _ _ _ Hi) as [Ho Hl]. pose proof (flight_nonneg _ Ho). pose proof (flight_nonneg _ Hl).
  pose proof Hi as [Hs _ Hf (Hv & Hc & Hp) _ _]. pose proof (cc_in_flight_range _ Hv) as Hr. unfold is_u64 in Hr.
  split; [lia|]. rewrite Hf. split; [|lia].
  assert (Hsp : forall sp, 0 <= ack_eliciting_bytes_in_flight (sel sp (tx a))).
  { intros sp. destruct (Hs sp) as [_ _ _ Hpk He _ _ _]. rewrite He.
    enough (0 <= elicit (pk sp a) /\ 0 <= elicit (of_space sp limbo)) by lia. split; apply flight_nonneg.
    - eapply Forall_impl; [exact Hpk|eauto].
    - by apply Forall_filter_impl. }
  assert (Hsum : ack_eliciting_bytes_in_flight (sel QUIC_PN_SPACE_INITIAL (tx a))
    + ack_eliciting_bytes_in_flight (sel QUIC_PN_SPACE_HANDSHAKE (tx a))
    + ack_eliciting_bytes_in_flight (sel QUIC_PN_SPACE_APP (tx a)) = elicit (outstanding a) + elicit limbo).
  { rewrite outstanding_sum, (limbo_sum _ limbo), !(so_elicit _ _ _ (Hs _)). lia. }
  unfold ackm_ack_eliciting_bytes_in_flight. pose proof (Hsp QUIC_PN_SPACE_INITIAL). pose proof (Hsp QUIC_PN_SPACE_HANDSHAKE).
  pose proof (Hsp QUIC_PN_SPACE_APP). unfold U64_MOD in *.
  rewrite (u64_id (_ + ack_eliciting_bytes_in_flight (sel QUIC_PN_SPACE_HANDSHAKE _))) by lia. rewrite u64_id by lia. lia.
Qed.

Lemma space_elicit sent pl limbo a sp : ackm_inv sent pl limbo a ->
  0 <= elicit (pk sp a) /\ 0 <= elicit (of_space sp limbo) /\
  elicit (pk sp a) + elicit (of_space sp limbo) <= bytes_in_flight (vars a).
Proof.
  intros Hi. destruct (inv_total _ _ _ _ Hi) as (_ & _ & Ht). destruct (inv_pkts _ _ _ _ Hi) as [_ Hl].
  assert (Hn : forall sp, 0 <= elicit (pk sp a) /\ 0 <= elicit (of_space sp limbo)).
  { intros sp'. split; apply flight_nonneg; [|by apply Forall_filter_impl].
    eapply Forall_impl; [apply (so_pkts _ _ _ (ai_space _ _ _ _ Hi sp'))|eauto]. }
  rewrite outstanding_sum, (limbo_sum _ limbo) in Ht. pose proof (Hn QUIC_PN_SPACE_INITIAL).
  pose proof (Hn QUIC_PN_SPACE_HANDSHAKE). pose proof (Hn QUIC_PN_SPACE_APP). destruct (Hn sp). split_and!; [done..|].
  destruct sp; lia.
Qed.

(** When nothing that must be acknowledged is in flight, no space has any. *)
Lemma inv_no_eliciting sent pl limbo a : ackm_inv sent pl limbo a -> ackm_ack_eliciting_bytes_in_flight a = 0 ->
  forall sp, ack_eliciting_bytes_in_flight (sel sp (tx a)) = 0.
Proof.
  intros Hi. destruct (inv_total _ _ _ _ Hi) as (_ & -> & _). rewrite outstanding_sum, (limbo_sum _ limbo).
  assert (Hn : forall sp, 0 <= elicit (pk sp a) /\ 0 <= elicit (of_space sp limbo)) by (intros sp; split; apply (space_elicit _ _ _ _ sp Hi)).
  intros Hz sp. rewrite (so_elicit _ _ _ (ai_space _ _ _ _ Hi sp)).
  destruct (Hn QUIC_PN_SPACE_INITIAL), (Hn QUIC_PN_SPACE_HANDSHAKE), (Hn QUIC_PN_SPACE_APP), sp; lia.
Qed.

(** *** The loss detection timer *)

(** What setting the timer may change. *)
Record timer_only a a' : Prop := {
  to_tx : tx a' = tx a;
  to_rx : rx a' = rx a;
  to_discarded : discarded a' = discarded a;
  to_statm : statm a' = statm a;
  to_cc : cc_data a' = cc_data a;
  to_vars : exists d, vars a' = set_deadline d (vars a);
  to_reports : reports (log a') = reports (log a)
}.

Lemma timer_only_inv sent pl limbo a a' : timer_only a a' -> ackm_inv sent pl limbo a -> ackm_inv sent pl limbo a'.
Proof.
  destruct a as [t r d v st c l k], a' as [t' r' d' v' st' c' l' k']. intros [T1 T2 T3 T4 T5 [x T6] T7]. cbn in *. subst.
  intros [I1 I2 I3 I4 I5 I6]. split; try done.
  - intros sp. destruct (I1 sp). by split.
  - by destruct v.
  - by destruct v.
  - cbn [log]. rewrite <-(fates_reports l'), T7, fates_reports. exact I5.
  - by destruct v.
Qed.

Lemma ossl_time_add_range (x y : OSSL_TIME) : is_u64 x -> is_u64 y -> is_u64 (ossl_time_add x y).
Proof. intros Hx Hy. rewrite ossl_time_add_sat by done. unfold is_u64, U64_MOD, UINT64_MAX in *. lia. Qed.

Lemma ossl_time_multiply_range (x : OSSL_TIME) y : is_u64 x -> is_u64 y -> is_u64 (ossl_time_multiply x y).
Proof. intros Hx Hy. rewrite ossl_time_multiply_sat by done. unfold is_u64, U64_MOD, UINT64_MAX in *. nia. Qed.

Lemma ossl_time_add_pos (x y : OSSL_TIME) : is_u64 x -> is_u64 y -> 0 < x \/ 0 < y -> 0 < ossl_time_add x y.
Proof. intros Hx Hy Hp. rewrite ossl_time_add_sat by done. unfold is_u64, U64_MOD, UINT64_MAX in *. lia. Qed.

Lemma pto_base_pos st : st_ok st -> 0 < pto_base (ossl_statm_get_rtt_info st) /\ is_u64 (pto_base (ossl_statm_get_rtt_info st)).
Proof.
  intros (Hs & _ & _ & Hv). unfold pto_base. cbn [info_smoothed_rtt info_rtt_variance ossl_statm_get_rtt_info].
  pose proof (ossl_time_multiply_range (rtt_variance st) 4 Hv ltac:(unfold is_u64, U64_MOD; lia)) as Hm.
  assert (Hg : 0 < ossl_ticks2time K_GRANULARITY < U64_MOD) by (vm_compute; split; reflexivity).
  assert (Hmx : 0 < ossl_time_max (ossl_time_multiply (rtt_variance st) 4) (ossl_ticks2time K_GRANULARITY) < U64_MOD).
  { rewrite ossl_time_max_spec. unfold is_u64, OSSL_TIME in *. lia. }
  split; [apply ossl_time_add_pos; [done|unfold is_u64; lia|right; lia]|].
  apply ossl_time_add_range; [done|unfold is_u64; lia].
Qed.

Lemma pto_factor_range v : 0 <= pto_count v -> 0 < pto_factor v < U64_MOD.
Proof.
  intros Hp. unfold pto_factor, min_u32, MAX_PTO_COUNT.
  assert (0 <= (if pto_count v <? 16 then pto_count v else 16) <= 16) by (case_match; lia).
  rewrite Z.shiftl_mul_pow2, Z.mul_1_l by lia.
  split; [apply Z.pow_pos_nonneg; lia|]. apply (Z.le_lt_trans _ (2 ^ 16)); [apply Z.pow_le_mono_r; lia|reflexivity].
Qed.

Lemma pto_duration_pos a : 0 <= pto_count (vars a) -> st_ok (statm a) ->
  let d := ossl_time_multiply (pto_base (ossl_statm_get_rtt_info (statm a))) (pto_factor (vars a)) in
  0 < d /\ is_u64 d.
Proof.
  intros Hp Hs d. destruct (pto_base_pos _ Hs) as [Hb Hu]. pose proof (pto_factor_range _ Hp) as Hf.
  assert (Hf' : is_u64 (pto_factor (vars a))) by (unfold is_u64; lia).
  split; [|by apply ossl_time_multiply_range]. unfold d. rewrite ossl_time_multiply_sat by done.
  unfold UINT64_MAX, OSSL_TIME in *. nia.
Qed.

Lemma pto_loop_pos a sps : forall (d t : OSSL_TIME) sp,
  (forall sp, is_u64 (time_of_last_ack_eliciting_pkt (sel sp (tx a)))) ->
  0 <= pto_count (vars a) -> is_u64 (rx_max_ack_delay (vars a)) -> 0 < d -> is_u64 d -> 0 < t ->
  0 < fst (pto_loop a d t sp sps).
Proof.
  induction sps as [|i sps IH]; intros d t sp Ht Hp Hr Hd Hu Hpos; cbn [pto_loop]; [done|].
  destruct (_ && _); [by apply IH|]. destruct (_ && _); [done|].
  set (d' := if _ && _ then _ else d). assert (Hd' : 0 < d' /\ is_u64 d').
  { unfold d'. destruct (_ && _); [|done].
    assert (Hm : is_u64 (ossl_time_multiply (rx_max_ack_delay (vars a)) (pto_factor (vars a)))).
    { apply ossl_time_multiply_range; [done|]. pose proof (pto_factor_range _ Hp). unfold is_u64. lia. }
    split; [apply ossl_time_add_pos; [done..|by left]|by apply ossl_time_add_range]. }
  clearbody d'. destruct Hd'. destruct (_ && _); [|by apply IH]. apply IH; try done. apply ossl_time_add_pos; [done..|by right].
Qed.

Lemma pto_loop_le a sps : forall (d t : OSSL_TIME) sp, fst (pto_loop a d t sp sps) <= t.
Proof.
  induction sps as [|i sps IH]; intros d t sp; cbn [pto_loop]; [apply Z.le_refl|]. destruct (_ && _); [apply IH|].
  destruct (_ && negb (handshake_confirmed _)); [apply Z.le_refl|]. set (d' := if _ : bool then _ else d). set (x := ossl_time_add _ d'). clearbody d'.
  destruct (_ && _) eqn:E; [|apply IH]. apply andb_true_iff in E as [_ E]. etrans; [apply IH|].
  unfold ossl_time_compare in E. destruct (Z.gtb_spec x t), (Z.ltb_spec x t); cbn in E; lia.
Qed.

(** Each space that counts bounds the timeout. *)
Lemma pto_loop_bound a sp l1 l2 : forall (d t : OSSL_TIME) sp0, Forall (fun i => i <> QUIC_PN_SPACE_APP) l1 ->
  is_u64 d -> is_u64 (time_of_last_ack_eliciting_pkt (sel sp (tx a))) -> 0 <= pto_count (vars a) ->
  is_u64 (rx_max_ack_delay (vars a)) -> ack_eliciting_bytes_in_flight (sel sp (tx a)) <> 0 -> probes sp a ->
  time_of_last_ack_eliciting_pkt (sel sp (tx a)) <> 0 ->
  fst (pto_loop a d t sp0 (l1 ++ sp :: l2))
  <= time_of_last_ack_eliciting_pkt (sel sp (tx a)) + d
     + (if decide (sp = QUIC_PN_SPACE_APP) then peer_delay (rx_max_ack_delay (vars a)) * pto_factor (vars a) else 0).
Proof.
  induction l1 as [|i l1 IH]; intros d t sp0 Hl Hd Ht Hp Hr He Hs Hz; cbn [app pto_loop].
  - destruct (Z.eqb_spec (ack_eliciting_bytes_in_flight (sel sp (tx a))) 0); [done|]. cbn [andb].
    destruct (_ && negb (handshake_confirmed _)) eqn:Eb.
    { apply andb_true_iff in Eb as [?%bool_decide_eq_true Eb]. by rewrite Hs in Eb. }
    set (d' := if _ : bool then _ else d).
    assert (Hd' : is_u64 d' /\ d' <= d + (if decide (sp = QUIC_PN_SPACE_APP)
      then peer_delay (rx_max_ack_delay (vars a)) * pto_factor (vars a) else 0)).
    { pose proof (pto_factor_range _ Hp) as Hf. assert (Hf' : is_u64 (pto_factor (vars a))) by (unfold is_u64; lia).
      pose proof (ossl_time_multiply_range _ _ Hr Hf') as Hm. unfold d', peer_delay.
      destruct (decide (sp = QUIC_PN_SPACE_APP)); [rewrite bool_decide_true by done|rewrite bool_decide_false by done]; cbn [andb];
        [|split; [done|unfold OSSL_TIME in *; lia]].
      destruct (ossl_time_is_infinite _); cbn [negb]; [split; [done|unfold OSSL_TIME in *; lia]|]. split; [by apply ossl_time_add_range|].
      rewrite ossl_time_add_sat, ossl_time_multiply_sat by done. unfold OSSL_TIME in *. lia. }
    clearbody d'. destruct Hd' as [Hu Hd'].
    assert (Hx : ossl_time_add (time_of_last_ack_eliciting_pkt (sel sp (tx a))) d' <= time_of_last_ack_eliciting_pkt (sel sp (tx a)) + d')
      by (rewrite ossl_time_add_sat by done; unfold OSSL_TIME in *; lia).
    set (x := ossl_time_add _ d') in *. rewrite ossl_time_is_zero_spec. destruct (Z.eqb_spec (time_of_last_ack_eliciting_pkt (sel sp (tx a))) 0); [done|].
    cbn [negb andb]. destruct (_ <? 0) eqn:Ec.
    + etrans; [apply pto_loop_le|]. unfold OSSL_TIME in *. lia.
    + etrans; [apply pto_loop_le|]. unfold ossl_time_compare in Ec.
      destruct (Z.gtb_spec x t), (Z.ltb_spec x t); cbn in Ec; unfold OSSL_TIME in *; lia.
  - apply Forall_cons_1 in Hl as [Hi Hl]. rewrite (bool_decide_false (i = _)) by done. cbn [andb].
    destruct (_ && _); [by apply IH|]. set (x := ossl_time_add _ d). destruct (_ && _); by apply IH.
Qed.

Lemma set_timer_actual_ok d a : exists a',
  ackm_set_loss_detection_timer_actual d a = (Ok tt, a') /\ timer_only a a' /\ loss_detection_deadline (vars a') = d.
Proof.
  unfold ackm_set_loss_detection_timer_actual, on_vars, modify, bind, get, upd_vars. cbn [vars].
  destruct a as [t r dd v st c l k]. cbn [vars tx rx discarded statm cc_data log readings].
  destruct (loss_detection_deadline_cb _); eexists; (split; [reflexivity|]); (split; [|by destruct v]);
    split; try done; by exists d.
Qed.

(** The bound in unbounded integers. *)
Lemma probe_duration a : 0 <= pto_count (vars a) -> st_ok (statm a) ->
  ossl_time_multiply (pto_base (ossl_statm_get_rtt_info (statm a))) (pto_factor (vars a)) <= probe_base a * backoff a /\
  pto_factor (vars a) = backoff a.
Proof.
  intros Hp Hst. destruct (pto_base_pos _ Hst) as [Hb Hu]. pose proof (pto_factor_range _ Hp) as Hf. destruct Hst as (Hs & _ & _ & Hv).
  assert (Ef : pto_factor (vars a) = backoff a).
  { unfold pto_factor, backoff, min_u32, MAX_PTO_COUNT. rewrite Z.shiftl_mul_pow2, Z.mul_1_l by (case_match; lia).
    f_equal. destruct (Z.ltb_spec (pto_count (vars a)) 16); lia. }
  split; [|done]. rewrite ossl_time_multiply_sat, <-Ef by (done || unfold is_u64; lia).
  assert (Hm : is_u64 (Z.max (ossl_time_multiply (rtt_variance (statm a)) 4) (ossl_ticks2time K_GRANULARITY))).
  { pose proof (ossl_time_multiply_range (rtt_variance (statm a)) 4 Hv ltac:(unfold is_u64, U64_MOD; lia)).
    assert (0 < ossl_ticks2time K_GRANULARITY < U64_MOD) by (vm_compute; split; reflexivity). unfold is_u64, OSSL_TIME in *. lia. }
  assert (pto_base (ossl_statm_get_rtt_info (statm a)) <= probe_base a); [|unfold OSSL_TIME in *; nia].
  revert Hm. unfold pto_base, probe_base. cbn [info_smoothed_rtt info_rtt_variance ossl_statm_get_rtt_info].
  rewrite ossl_time_max_spec. intros Hm. rewrite ossl_time_add_sat by done.
  rewrite ossl_time_multiply_sat by (done || unfold is_u64, U64_MOD; lia). change (ossl_ticks2time K_GRANULARITY) with K_GRANULARITY. lia.
Qed.

(** What the timer depends on. *)
Definition same_loss a a' : Prop :=
  tx a' = tx a /\ statm a' = statm a /\ exists d, vars a' = set_deadline d (vars a).

Lemma timer_only_same a a' : timer_only a a' -> same_loss a a'.
Proof. by intros [T1 _ _ T4 _ T6 _]. Qed.

(** The timer is set to [d]. *)
Lemma set_deadline_ok a a1 d : timer_only a a1 ->
  (d <> 0 -> fst (ackm_get_loss_time_and_space a) <> 0 \/ ackm_ack_eliciting_bytes_in_flight a <> 0 \/
             peer_completed_addr_validation (vars a) = false) ->
  (ackm_ack_eliciting_bytes_in_flight a <> 0 -> d <> 0) ->
  (fst (ackm_get_loss_time_and_space a) <> 0 -> d = fst (ackm_get_loss_time_and_space a)) ->
  (fst (ackm_get_loss_time_and_space a) = 0 -> forall sp, ack_eliciting_bytes_in_flight (sel sp (tx a)) <> 0 ->
     probes sp a -> time_of_last_ack_eliciting_pkt (sel sp (tx a)) <> 0 ->
     d <= probe_by (peer_delay (rx_max_ack_delay (vars a))) sp a) ->
  exists a', ackm_set_loss_detection_timer_actual d a1 = (Ok tt, a') /\ timer_only a a' /\
    forall w, peer_delay (rx_max_ack_delay (vars a)) <= w -> timer_ok w a'.
Proof.
  intros [T1 T2 T3 T4 T5 [x T6] T7] Hd Hd' Hl Hp. destruct (set_timer_actual_ok d a1) as (a' & E & [S1 S2 S3 S4 S5 [y S6] S7] & Hdl).
  exists a'. assert (To : timer_only a a').
  { split; try congruence. exists y. rewrite S6, T6. by destruct (vars a). }
  split; [done|]. split; [done|]. intros w Hw. destruct (timer_only_same _ _ To) as (E1 & E2 & z & E3).
  assert (Ev : pto_count (vars a') = pto_count (vars a) /\ handshake_confirmed (vars a') = handshake_confirmed (vars a) /\
    rx_max_ack_delay (vars a') = rx_max_ack_delay (vars a) /\
    peer_completed_addr_validation (vars a') = peer_completed_addr_validation (vars a)) by (rewrite E3; by destruct (vars a)).
  destruct Ev as (V1 & V2 & V3 & V4). unfold timer_ok, armed, timely, prompt, probes, probe_by, probe_base, backoff, ackm_ack_eliciting_bytes_in_flight,
    ackm_get_loss_time_and_space in *. rewrite Hdl, E1, E2, V1, V2, V3, V4. split_and!; try done.
  intros Hz sp H1 H2 H3. specialize (Hp Hz sp H1 H2 H3).
  pose proof (Z.pow_nonneg 2 (Z.min (pto_count (vars a)) MAX_PTO_COUNT)). case_decide; [nia|lia].
Qed.

Lemma set_timer_gen a :
  (forall sp, is_u64 (time_of_last_ack_eliciting_pkt (sel sp (tx a)))) -> 0 <= pto_count (vars a) ->
  is_u64 (rx_max_ack_delay (vars a)) -> st_ok (statm a) ->
  (ackm_ack_eliciting_bytes_in_flight a = 0 -> forall sp, ack_eliciting_bytes_in_flight (sel sp (tx a)) = 0) ->
  exists a', ackm_set_loss_detection_timer now a = (Ok tt, a') /\ timer_only a a' /\
    forall w, peer_delay (rx_max_ack_delay (vars a)) <= w -> timer_ok w a'.
Proof.
  intros Hs Hp Hr Hst Hel. unfold ackm_set_loss_detection_timer. rewrite (bind_ok get _ a a a eq_refl), ossl_time_is_zero_spec.
  assert (Hrefl : timer_only a a) by (split; try done; exists (loss_detection_deadline (vars a)); by destruct (vars a)).
  destruct (Z.eqb_spec (fst (ackm_get_loss_time_and_space a)) 0) as [E0|E0]; cbn [negb].
  2: { apply set_deadline_ok; try done. by left. }
  destruct (Z.eqb_spec (ackm_ack_eliciting_bytes_in_flight a) 0) as [El|El]; cbn [andb].
  - assert (Hno : forall sp (P : Prop), ack_eliciting_bytes_in_flight (sel sp (tx a)) <> 0 -> P) by (intros sp P []; by apply Hel).
    destruct (peer_completed_addr_validation (vars a)) eqn:Ec; [apply set_deadline_ok; try done; intros _ sp ?; by apply (Hno sp)|].
    unfold ackm_get_pto_time_and_space. unfold bind at 1. rewrite (bind_ok get _ a a a eq_refl). rewrite El, Ec. unfold bind, assert_, ret, Ackm.read_clock. cbn [negb fst Z.eqb].
    apply set_deadline_ok; [|tauto|done|done|intros _ sp ?; by apply (Hno sp)]. split; try done. exists (loss_detection_deadline (vars a)). by destruct (vars a).
  - unfold ackm_get_pto_time_and_space. unfold bind at 1. rewrite (bind_ok get _ a a a eq_refl).
    destruct (Z.eqb_spec (ackm_ack_eliciting_bytes_in_flight a) 0) as [|_]; [done|].
    destruct (pto_duration_pos a Hp Hst) as [Hd1 Hd2]. destruct (probe_duration a Hp Hst) as [Hb Ef]. cbn [fst].
    set (d := ossl_time_multiply _ _) in *. apply set_deadline_ok; [done|tauto| |done|].
    + intros _. cbn [ret fst].
      enough (0 < fst (pto_loop a d ossl_time_infinite QUIC_PN_SPACE_INITIAL
        [QUIC_PN_SPACE_INITIAL; QUIC_PN_SPACE_HANDSHAKE; QUIC_PN_SPACE_APP])) by lia. by apply pto_loop_pos.
    + intros _ sp He Hsp Hz. unfold probe_by. rewrite <-Ef.
      assert (Hl : exists l1 l2, [QUIC_PN_SPACE_INITIAL; QUIC_PN_SPACE_HANDSHAKE; QUIC_PN_SPACE_APP] = l1 ++ sp :: l2 /\
        Forall (fun i => i <> QUIC_PN_SPACE_APP) l1).
      { destruct sp; [exists []|exists [QUIC_PN_SPACE_INITIAL]|exists [QUIC_PN_SPACE_INITIAL; QUIC_PN_SPACE_HANDSHAKE]];
          eexists; (split; [reflexivity|by repeat constructor]). }
      destruct Hl as (l1 & l2 & -> & Hl).
      etrans; [apply pto_loop_bound; try done; apply Hs|]. lia.
Qed.

Lemma set_timer_ok sent pl limbo a : ackm_inv sent pl limbo a ->
  exists a', ackm_set_loss_detection_timer now a = (Ok tt, a') /\ timer_only a a' /\
    forall w, peer_delay (rx_max_ack_delay (vars a)) <= w -> timer_ok w a'.
Proof.
  intros Hi. pose proof Hi as [Hs _ _ _ _ (Hp & Hr & Hst)]. apply set_timer_gen; try done; [intros sp; apply (Hs sp)|].
  by eapply inv_no_eliciting.
Qed.

(** *** Packets leave *)

(** The state after the packet [q] left the counts, the callback [c] was called and
    the controller became [d]. *)
Definition left_with (q : OSSL_ACKM_TX_PKT) (c : callback) (d : D) a : OSSL_ACKM D :=
  let t := sel (pkt_space q) (tx a) in
  mkAckm (if is_inflight q && is_ack_eliciting q
          then upd_at (pkt_space q) (set_eliciting (u64 (ack_eliciting_bytes_in_flight t - num_bytes q)) t) (tx a)
          else tx a)
    (rx a) (discarded a)
    (if is_inflight q then set_bytes_in_flight (u64 (bytes_in_flight (vars a) - num_bytes q)) (vars a) else vars a)
    (statm a) d (c :: log a) (readings a).

Lemma left_tx q c d a sp : exists n, sel sp (tx (left_with q c d a)) = set_eliciting n (sel sp (tx a)).
Proof.
  cbn. destruct (_ && _).
  - destruct (decide (pkt_space q = sp)) as [<-|Hne].
    + rewrite sel_upd_eq. by eexists.
    + rewrite sel_upd_ne by done. exists (ack_eliciting_bytes_in_flight (sel sp (tx a))). by destruct (sel sp (tx a)).
  - exists (ack_eliciting_bytes_in_flight (sel sp (tx a))). by destruct (sel sp (tx a)).
Qed.

Lemma left_pk q c d a sp : pk sp (left_with q c d a) = pk sp a.
Proof. unfold pk. destruct (left_tx q c d a sp) as [n ->]. done. Qed.

Lemma left_outstanding q c d a : outstanding (left_with q c d a) = outstanding a.
Proof. unfold outstanding. by rewrite !left_pk. Qed.

Lemma set_bytes_get n v : bytes_in_flight (set_bytes_in_flight n v) = n.
Proof. by destruct v. Qed.

Lemma of_space_cons sp q l :
  of_space sp (q :: l) = if decide (pkt_space q = sp) then q :: of_space sp l else of_space sp l.
Proof. unfold of_space. by rewrite filter_cons. Qed.

Lemma inv_left sent pl pl' limbo q c d a :
  ackm_inv sent pl (q :: limbo) a -> cc_valid d ->
  cc_in_flight d = bytes_in_flight (vars a) - flight_of q + pl' -> 0 <= pl' -> fate c = Some (ident_of q) ->
  ackm_inv sent pl' limbo (left_with q c d a).
Proof.
  intros Hi Hv Hf Hp Hc. destruct (inv_total _ _ _ _ Hi) as (Hb & _ & _). destruct (inv_pkts _ _ _ _ Hi) as [Ho Hl].
  pose proof (flight_nonneg _ Ho). apply Forall_cons_1 in Hl as [[sq Hq] Hl]. pose proof (flight_nonneg _ Hl).
  pose proof (pkt_flight _ _ Hq) as Hqf. pose proof (po_bytes _ _ Hq) as Hqb. pose proof Hi as [Is Il If _ Ise Iv].
  apply Forall_cons_1 in Il as [[_ Hdq] Il]. rewrite sum_by_cons in If.
  assert (Hfq : flight_of q = if is_inflight q then num_bytes q else 0) by done.
  split; [intros sp; destruct (Is sp) as [S1 S2 S3 S4 S5 S6 S7 S8]|..]; rewrite ?left_outstanding; cbn [left_with discarded vars cc_data log statm]; try done.
  - pose proof (space_elicit _ _ _ _ sp Hi) as (Hs1 & _ & Hs3).
    assert (Hs2 : 0 <= elicit (of_space sp limbo)) by (apply flight_nonneg; by apply Forall_filter_impl).
    destruct (left_tx q c d a sp) as [n Hn]. assert (Hel : n = elicit (pk sp a) + elicit (of_space sp limbo)).
    { assert (Hn' := f_equal ack_eliciting_bytes_in_flight Hn). cbn [set_eliciting ack_eliciting_bytes_in_flight] in Hn'.
      rewrite <-Hn'. cbn [left_with tx]. rewrite of_space_cons in S5, Hs3.
      destruct (is_inflight q && is_ack_eliciting q) eqn:Eq.
      - apply andb_true_iff in Eq as [_ Eq].
        destruct (decide (pkt_space q = sp)) as [<-|Hne]; [rewrite sel_upd_eq|by rewrite sel_upd_ne].
        cbn [set_eliciting ack_eliciting_bytes_in_flight].
        rewrite sum_by_cons in S5, Hs3. unfold elicit_of at 2 in S5. unfold elicit_of at 2 in Hs3. rewrite Eq in *.
        rewrite u64_id; unfold U64_MOD in *; lia.
      - destruct (decide (pkt_space q = sp)) as [<-|Hne]; [|done]. rewrite S5, sum_by_cons.
        assert (elicit_of q = 0) as ->; [|done]. unfold elicit_of. pose proof (po_elicit _ _ Hq) as He.
        destruct (is_ack_eliciting q); [|done]. by rewrite He in Eq. }
    subst n. split; rewrite ?left_pk, ?Hn; cbn [left_with discarded rx set_eliciting tx_history loss_time largest_acked_pkt
      time_of_last_ack_eliciting_pkt ack_eliciting_bytes_in_flight]; done.
  - destruct (is_inflight q); [|lia]. rewrite set_bytes_get, u64_id; unfold U64_MOD in *; lia.
  - split; [done|]. split; [|done]. rewrite Hf. destruct (is_inflight q); [|lia].
    rewrite set_bytes_get, u64_id; unfold U64_MOD in *; lia.
  - assert (fates (c :: log a) = ident_of q :: fates (log a)) as -> by (unfold fates; cbn; by rewrite Hc).
    rewrite Ise, !fmap_app, fmap_cons, <-!app_assoc. apply Permutation_app_head. cbn. apply Permutation_middle.
  - destruct (is_inflight q); [|done]. by destruct (vars a).
Qed.

(** The received packet numbers after some of them were provably acknowledged. *)
Definition rx_bumped (r r' : rx_space) : Prop :=
  exists h, r' = set_rx_history h r /\ (forall v, known (rx_history r) v -> known h v) /\
            (forall v, unacked h v -> unacked (rx_history r) v).

(** What reporting packets may change, apart from the log and the controller. *)
Record settled a a' : Prop := {
  se_rx sp : rx_bumped (sel sp (rx a)) (sel sp (rx a'));
  se_discarded : discarded a' = discarded a;
  se_statm : statm a' = statm a;
  se_readings : readings a' = readings a;
  se_vars : exists n, vars a' = set_bytes_in_flight n (vars a);
  se_tx sp : exists n, sel sp (tx a') = set_eliciting n (sel sp (tx a))
}.

Lemma rx_bumped_refl r : rx_bumped r r.
Proof. exists (rx_history r). by destruct r. Qed.

Lemma rx_bumped_trans r1 r2 r3 : rx_bumped r1 r2 -> rx_bumped r2 r3 -> rx_bumped r1 r3.
Proof.
  intros (h2 & -> & K2 & U2) (h3 & -> & K3 & U3). exists h3. destruct r1; cbn in *. split_and!; eauto.
Qed.

Lemma settled_refl a : settled a a.
Proof.
  split; try done; [intros; apply rx_bumped_refl|..].
  - exists (bytes_in_flight (vars a)). by destruct (vars a).
  - intros sp. exists (ack_eliciting_bytes_in_flight (sel sp (tx a))). by destruct (sel sp (tx a)).
Qed.

Lemma settled_trans a1 a2 a3 : settled a1 a2 -> settled a2 a3 -> settled a1 a3.
Proof.
  intros [A1 A2 A3 A4 [n A5] A6] [B1 B2 B3 B4 [k B5] B6]. split; try congruence.
  - intros sp. by eapply rx_bumped_trans.
  - exists k. rewrite B5, A5. by destruct (vars a1).
  - intros sp. destruct (A6 sp) as [x Hx], (B6 sp) as [y Hy]. exists y. by rewrite Hy, Hx.
Qed.

Lemma settled_left q c d a : settled a (left_with q c d a).
Proof.
  split; try done; [intros; apply rx_bumped_refl| |intros; apply left_tx].
  cbn. destruct (is_inflight q); [by eexists|]. exists (bytes_in_flight (vars a)). by destruct (vars a).
Qed.

Lemma settled_pk a a' sp : settled a a' -> pk sp a' = pk sp a.
Proof. intros Hs. unfold pk. by destruct (se_tx _ _ Hs sp) as [n ->]. Qed.

Definition lost_cb (q : OSSL_ACKM_TX_PKT) : callback := Cb_lost (pkt_space q) (pkt_num q) (cb_arg q).
Definition acked_cb (q : OSSL_ACKM_TX_PKT) : callback := Cb_acked (pkt_space q) (pkt_num q) (cb_arg q).
Definition discarded_cb (q : OSSL_ACKM_TX_PKT) : callback := Cb_discarded (pkt_space q) (pkt_num q) (cb_arg q).

Lemma ignore_ok {S} (m : M S unit) s s' : m s = (Ok tt, s') -> ignore m s = (Ok tt, s').
Proof. unfold ignore. by intros ->. Qed.

Lemma lost_step pseudo q l a d :
  (if is_inflight q && negb pseudo
   then cc_on_data_lost (mkLossInfo (tx_time q) (num_bytes q)) (cc_data a) = (Ok tt, d) else d = cc_data a) ->
  lost_loop pseudo (q :: l) a = lost_loop pseudo l (left_with q (lost_cb q) d a).
Proof.
  intros Hd. destruct a as [t r dd v st c lg k]. cbn [cc_data] in Hd. unfold left_with. cbn [lost_loop tx vars log rx discarded statm readings].
  destruct (is_inflight q) eqn:Ei, (is_ack_eliciting q) eqn:Ee, pseudo; cbn [andb negb] in Hd |- *;
    unfold leave_flight, call_cc, zoom, bind, on_vars, on_tx, modify, ret, call_back, upd_vars; rewrite ?Ee;
    cbn [tx vars log rx discarded statm readings cc_data upd_tx zoom]; try (rewrite (ignore_ok _ _ _ Hd)); subst; done.
Qed.

Lemma lost_loop_ok pseudo sent l : forall pl limbo a, ackm_inv sent pl (l ++ limbo) a ->
  exists a', lost_loop pseudo l a = (Ok tt, a') /\
    ackm_inv sent (pl + if pseudo then flight l else 0) limbo a' /\ settled a a' /\
    rx a' = rx a /\ log a' = reverse (lost_cb <$> l) ++ log a.
Proof.
  induction l as [|q l IH]; intros pl limbo a Hi.
  { exists a. replace (pl + (if pseudo then flight [] else 0)) with pl by (destruct pseudo; cbn; lia).
    split_and!; try done. apply settled_refl. }
  cbn [app] in Hi. pose proof Hi as [_ Il If (Hv & Hc & Hp) _ _]. apply Forall_cons_1 in Il as [[Hq _] _].
  destruct (inv_pkts _ _ _ _ Hi) as [Ho Hl]. apply Forall_cons_1 in Hl as [_ Hl]. pose proof (flight_nonneg _ Ho).
  pose proof (flight_nonneg _ Hl). rewrite sum_by_cons in If. pose proof (po_bytes _ _ Hq) as Hb.
  assert (Hfq : flight_of q = if is_inflight q then num_bytes q else 0) by done.
  assert (Hstep : exists d, (if is_inflight q && negb pseudo
     then cc_on_data_lost (mkLossInfo (tx_time q) (num_bytes q)) (cc_data a) = (Ok tt, d) else d = cc_data a) /\
     cc_valid d /\ cc_in_flight d = bytes_in_flight (vars a) - flight_of q + (pl + if pseudo then flight_of q else 0)).
  { destruct (is_inflight q && negb pseudo) eqn:E.
    - apply andb_true_iff in E as [E1 E2]. rewrite E1 in Hfq. apply negb_true_iff in E2. subst pseudo.
      destruct (cc_lost_law (cc_data a) (mkLossInfo (tx_time q) (num_bytes q)) Hv) as (d & E & Hv' & Hc'); [cbn; lia|].
      exists d. split_and!; [done..|]. cbn in Hc'. lia.
    - exists (cc_data a). split_and!; [done..|]. destruct (is_inflight q), pseudo; cbn in E; try done; lia. }
  destruct Hstep as (d & Hd & Hv' & Hc').
  destruct (IH (pl + if pseudo then flight_of q else 0) limbo (left_with q (lost_cb q) d a)) as (a' & E & Hi' & Hs' & Hr' & Hl').
  { eapply inv_left; [done..| |done]. destruct pseudo, (is_inflight q); lia. }
  rewrite (lost_step pseudo q l a d Hd). exists a'. split; [done|]. split_and!.
  - replace (pl + (if pseudo then flight (q :: l) else 0)) with
      (pl + (if pseudo then flight_of q else 0) + (if pseudo then flight l else 0)); [done|].
    rewrite sum_by_cons. destruct pseudo; lia.
  - eapply settled_trans; [apply settled_left|done].
  - by rewrite Hr'.
  - rewrite Hl', fmap_cons, reverse_cons, <-app_assoc. done.
Qed.

Definition with_cc (d : D) a : OSSL_ACKM D :=
  mkAckm (tx a) (rx a) (discarded a) (vars a) (statm a) d (log a) (readings a).

Lemma inv_with_cc sent pl limbo a d :
  ackm_inv sent pl limbo a -> cc_valid d -> cc_in_flight d = cc_in_flight (cc_data a) -> ackm_inv sent pl limbo (with_cc d a).
Proof.
  intros [I1 I2 I3 (I4 & I5 & I6) I7 I8] Hv Hc. split; try done; [|cbn [with_cc cc_data vars]; by rewrite Hc].
  intros sp. destruct (I1 sp). by split.
Qed.

Lemma on_pkts_lost_ok sp pseudo sent l pl limbo a : ackm_inv sent pl (l ++ limbo) a ->
  exists a', ackm_on_pkts_lost sp l pseudo a = (Ok tt, a') /\
    ackm_inv sent (pl + if pseudo then flight l else 0) limbo a' /\ settled a a' /\
    rx a' = rx a /\ log a' = reverse (lost_cb <$> l) ++ log a.
Proof.
  intros Hi. destruct (lost_loop_ok pseudo sent l pl limbo a Hi) as (a1 & E1 & Hi1 & Hs1 & Hr1 & Hl1).
  unfold ackm_on_pkts_lost. rewrite (bind_ok _ _ _ _ _ E1), (bind_ok get _ a1 a1 a1 eq_refl).
  unfold ackm_in_persistent_congestion. rewrite andb_false_r.
  destruct (cc_lost_finished_law (cc_data a1) 0 (proj1 (ai_cc _ _ _ _ Hi1))) as (d & Ed & Hv & Hc).
  exists (with_cc d a1). split; [unfold call_cc, zoom; by rewrite (ignore_ok _ _ _ Ed)|].
  split_and!; [by apply inv_with_cc| |done..].
  eapply settled_trans; [done|]. split; try done; [intros; apply rx_bumped_refl|..].
  - exists (bytes_in_flight (vars a1)). cbn [with_cc vars]. by destruct (vars a1).
  - intros sp'. exists (ack_eliciting_bytes_in_flight (sel sp' (tx a1))). cbn [with_cc tx]. by destruct (sel sp' (tx a1)).
Qed.

(** *** Acknowledged packets *)

(** The state with another receive history for a space. *)
Definition with_rx (sp : pn_space) (h : rx_pkt_history_st) a : OSSL_ACKM D :=
  upd_rx (upd_at sp (set_rx_history h (sel sp (rx a)))) a.

Lemma inv_with_rx sent pl limbo a sp h :
  ackm_inv sent pl limbo a -> rx_ok h -> ackm_inv sent pl limbo (with_rx sp h a).
Proof.
  intros [I1 I2 I3 I4 I5 I6] Hh. split; try done. intros sp'. destruct (I1 sp') as [S1 S2 S3 S4 S5 S6 S7 S8]. split; try done.
  cbn. intros Hd. destruct (decide (sp = sp')) as [<-|Hne].
  - rewrite sel_upd_eq. destruct (sel sp (rx a)). done.
  - rewrite sel_upd_ne by done. by apply S2.
Qed.

Lemma with_rx_left q c d sp h a : with_rx sp h (left_with q c d a) = left_with q c d (with_rx sp h a).
Proof. done. Qed.

Lemma settled_with_rx sp h a :
  (forall v, known (rx_history (sel sp (rx a))) v -> known h v) ->
  (forall v, unacked h v -> unacked (rx_history (sel sp (rx a))) v) -> settled a (with_rx sp h a).
Proof.
  intros Hk Hu. split; try done.
  - intros sp'. cbn. destruct (decide (sp = sp')) as [<-|Hne].
    + rewrite sel_upd_eq. exists h. done.
    + rewrite sel_upd_ne by done. apply rx_bumped_refl.
  - exists (bytes_in_flight (vars a)). cbn. by destruct (vars a).
  - intros sp'. exists (ack_eliciting_bytes_in_flight (sel sp' (tx a))). cbn. by destruct (sel sp' (tx a)).
Qed.

(** The receive history after a packet that carried an acknowledgement of
    [largest_acked] was acknowledged. *)
Lemma bump_step q a : pkt_ok (pkt_space q) q -> sel (pkt_space q) (discarded a) = false ->
  rx_ok (rx_history (sel (pkt_space q) (rx a))) ->
  exists h, (forall a0, rx a0 = rx a -> discarded a0 = discarded a ->
    (if negb (largest_acked q =? QUIC_PN_INVALID)
     then in_rx_history (pkt_space q) (ignore (rx_pkt_history_bump_watermark (u64 (largest_acked q + 1))))
     else ret tt) a0 = (Ok tt, with_rx (pkt_space q) h a0)) /\
    rx_ok h /\ settled a (with_rx (pkt_space q) h a).
Proof.
  intros Hq Hd Hr. destruct (po_largest _ _ Hq) as [Hl|Hl].
  - exists (rx_history (sel (pkt_space q) (rx a))). split; [|split; [done|by apply settled_with_rx]].
    intros a0 E0 _. rewrite Hl, Z.eqb_refl. cbn [negb]. unfold ret, with_rx, upd_rx. rewrite <-E0.
    assert (set_rx_history (rx_history (sel (pkt_space q) (rx a0))) (sel (pkt_space q) (rx a0)) = sel (pkt_space q) (rx a0)) as ->
      by (by destruct (sel (pkt_space q) (rx a0))).
    rewrite upd_at_sel. by destruct a0.
  - unfold QUIC_PN_LIMIT in Hl. destruct (bump_ok _ (largest_acked q + 1) Hr) as (h & E & Hok & Hw & Hc); [unfold QUIC_PN_LIMIT; lia|].
    exists h. split; [|split; [done|]].
    + intros a0 E0 E1. destruct (Z.eqb_spec (largest_acked q) QUIC_PN_INVALID) as [Hx|_]; [unfold QUIC_PN_INVALID, UINT64_MAX in Hx; lia|].
      cbn [negb]. rewrite u64_id by lia. unfold in_rx_history, bind, get. rewrite E1, Hd. cbn [negb assert_ ret].
      unfold on_rx, zoom. rewrite E0, (ignore_ok _ _ _ E). unfold with_rx. by rewrite E0.
    + apply settled_with_rx.
      * intros v [Hv|Hv]; unfold known; rewrite Hw; [left; lia|].
        destruct (decide (v < largest_acked q + 1)); [left; lia|]. right. apply Hc. split; [done|lia].
      * intros v [Hv _]%Hc. done.
Qed.

Lemma acked_step q l a d h :
  (if is_inflight q then cc_on_data_acked (mkAckInfo (tx_time q) (num_bytes q)) (cc_data a) = (Ok tt, d) else d = cc_data a) ->
  (is_inflight q = true -> forall a0, rx a0 = rx a -> discarded a0 = discarded a ->
    (if negb (largest_acked q =? QUIC_PN_INVALID)
     then in_rx_history (pkt_space q) (ignore (rx_pkt_history_bump_watermark (u64 (largest_acked q + 1))))
     else ret tt) a0 = (Ok tt, with_rx (pkt_space q) h a0)) ->
  ackm_on_pkts_acked (q :: l) a =
    ackm_on_pkts_acked l (left_with q (acked_cb q) d (if is_inflight q then with_rx (pkt_space q) h a else a)).
Proof.
  intros Hd Hb. cbn [ackm_on_pkts_acked]. destruct (is_inflight q) eqn:Ei.
  - set (a1 := left_with q (acked_cb q) d (with_rx (pkt_space q) h a)).
    unfold leave_flight, on_vars, modify. unfold bind at 1 2 3 4.
    assert (Hl : forall a0, (if is_ack_eliciting q then
        on_tx (pkt_space q) (fun s => (Ok tt, (fun t => set_eliciting (u64 (ack_eliciting_bytes_in_flight t - num_bytes q)) t) s)) else ret tt) a0
       = (Ok tt, if is_ack_eliciting q then upd_tx (upd_at (pkt_space q) (set_eliciting (u64 (ack_eliciting_bytes_in_flight (sel (pkt_space q) (tx a0)) - num_bytes q)) (sel (pkt_space q) (tx a0)))) a0 else a0))
      by (intros a0; by destruct (is_ack_eliciting q)).
    rewrite Hl. rewrite (Hb eq_refl) by (by destruct (is_ack_eliciting q)).
    unfold call_back, modify, call_cc, zoom, bind. unfold a1, left_with. rewrite Ei.
    assert (Hcc : forall a0, cc_data (with_rx (pkt_space q) h (if is_ack_eliciting q then upd_tx (upd_at (pkt_space q) (set_eliciting (u64 (ack_eliciting_bytes_in_flight (sel (pkt_space q) (tx a0)) - num_bytes q)) (sel (pkt_space q) (tx a0)))) a0 else a0)) = cc_data a0)
      by (intros; by destruct (is_ack_eliciting q)).
    cbn [cc_data]. rewrite Hcc. cbn [cc_data upd_vars]. rewrite (ignore_ok _ _ _ Hd). cbn [andb].
    by destruct (is_ack_eliciting q).
  - subst d. unfold left_with. rewrite Ei. done.
Qed.

Lemma on_pkts_acked_ok sent pl l : forall limbo a, ackm_inv sent pl (l ++ limbo) a ->
  exists a', ackm_on_pkts_acked l a = (Ok tt, a') /\ ackm_inv sent pl limbo a' /\ settled a a' /\
    log a' = reverse (acked_cb <$> l) ++ log a.
Proof.
  induction l as [|q l IH]; intros limbo a Hi.
  { exists a. split_and!; try done. apply settled_refl. }
  cbn [app] in Hi. pose proof Hi as [Is Il If (Hv & Hc & Hp) _ _]. apply Forall_cons_1 in Il as [[Hq Hdq] _].
  destruct (inv_pkts _ _ _ _ Hi) as [Ho Hl]. apply Forall_cons_1 in Hl as [_ Hl]. pose proof (flight_nonneg _ Ho).
  pose proof (flight_nonneg _ Hl). rewrite sum_by_cons in If. pose proof (po_bytes _ _ Hq) as Hb.
  assert (Hfq : flight_of q = if is_inflight q then num_bytes q else 0) by done.
  assert (Hstep : exists d, (if is_inflight q
     then cc_on_data_acked (mkAckInfo (tx_time q) (num_bytes q)) (cc_data a) = (Ok tt, d) else d = cc_data a) /\
     cc_valid d /\ cc_in_flight d = bytes_in_flight (vars a) - flight_of q + pl).
  { destruct (is_inflight q) eqn:E.
    - destruct (cc_acked_law (cc_data a) (mkAckInfo (tx_time q) (num_bytes q)) Hv) as (d & Ed & Hv' & Hc'); [cbn; lia|].
      exists d. split_and!; [done..|]. cbn in Hc'. lia.
    - exists (cc_data a). split_and!; [done..|]. lia. }
  destruct Hstep as (d & Hd & Hv' & Hc').
  destruct (bump_step q a Hq Hdq (so_rx _ _ _ (Is _) Hdq)) as (h & Eb & Hh & Hsb).
  set (a1 := if is_inflight q then with_rx (pkt_space q) h a else a).
  assert (Ha1 : ackm_inv sent pl (q :: l ++ limbo) a1 /\ settled a a1 /\ vars a1 = vars a /\ log a1 = log a).
  { unfold a1. destruct (is_inflight q).
    - split_and!; try done. by apply inv_with_rx.
    - split_and!; try done. apply settled_refl. }
  destruct Ha1 as (Hi1 & Hs1 & Ev1 & El1).
  destruct (IH limbo (left_with q (acked_cb q) d a1)) as (a' & E & Hi' & Hs' & Hl').
  { eapply inv_left; try done. by rewrite Ev1. }
  rewrite (acked_step q l a d h Hd) by (intros _; exact Eb). exists a'. split; [exact E|]. split_and!; [done| |].
  - eapply settled_trans; [exact Hs1|]. eapply settled_trans; [apply settled_left|done].
  - rewrite Hl', fmap_cons, reverse_cons, <-app_assoc. cbn [left_with log app]. by rewrite El1.
Qed.

(** *** Detection *)

(** Taking packets out of a history puts them into limbo. *)
Definition with_tx (sp : pn_space) (t : tx_space) a : OSSL_ACKM D := upd_tx (upd_at sp t) a.

Lemma pk_with_tx sp t a sp' :
  pk sp' (with_tx sp t a) = if decide (sp = sp') then packets (tx_history t) else pk sp' a.
Proof. unfold pk. cbn. case_decide; subst; [by rewrite sel_upd_eq|by rewrite sel_upd_ne]. Qed.

Lemma outstanding_with_tx sp t a gone :
  pk sp a ≡ₚ gone ++ packets (tx_history t) -> outstanding a ≡ₚ gone ++ outstanding (with_tx sp t a).
Proof.
  intros Hp. unfold outstanding. rewrite !pk_with_tx.
  destruct sp; repeat (case_decide; [|try done]); try done; rewrite Hp; rewrite <-?app_assoc; try done.
  - by rewrite (app_assoc _ gone), (Permutation_app_comm _ gone), <-!app_assoc.
  - rewrite (app_assoc _ gone), (app_assoc _ (_ ++ gone)), (app_assoc _ _ gone), (Permutation_app_comm _ gone).
    by rewrite <-!app_assoc.
Qed.

Lemma inv_detect sent pl limbo a sp t l w gone :
  ackm_inv sent pl limbo a -> sel sp (discarded a) = false ->
  pk sp a ≡ₚ gone ++ l -> holds l w (tx_history t) ->
  ack_eliciting_bytes_in_flight t = ack_eliciting_bytes_in_flight (sel sp (tx a)) ->
  time_of_last_ack_eliciting_pkt t = time_of_last_ack_eliciting_pkt (sel sp (tx a)) ->
  (largest_acked_pkt t = QUIC_PN_INVALID \/ 0 <= largest_acked_pkt t < QUIC_PN_LIMIT) ->
  0 <= loss_time t -> (loss_time t <> 0 -> largest_acked_pkt t <> QUIC_PN_INVALID) ->
  ackm_inv sent pl (gone ++ limbo) (with_tx sp t a).
Proof.
  intros [I1 I2 I3 I4 I5 I6] Hd Hp Hh He Ht Hl Hlt Hlt'. pose proof (holds_packets _ _ _ Hh) as Hpk.
  pose proof (so_pkts _ _ _ (I1 sp)) as Hpo. rewrite Hp in Hpo. apply Forall_app in Hpo as [Hpg Hpl].
  assert (Hout : outstanding a ≡ₚ gone ++ outstanding (with_tx sp t a)) by (apply outstanding_with_tx; by rewrite Hpk).
  split.
  - intros sp'. destruct (decide (sp = sp')) as [<-|Hne].
    + destruct (I1 sp) as [S1 S2 S3 S4 S5 S6 S7 S8]. cbn.
      split; rewrite ?pk_with_tx, ?decide_True by done; cbn [with_tx upd_tx tx discarded rx]; rewrite ?sel_upd_eq, ?Hpk; try done.
      * intros _. by exists w.
      * intros Hx. congruence.
      * rewrite He, S5, Hp. unfold of_space. rewrite filter_app, !sum_by_app.
        rewrite (filter_all _ gone); [lia|]. intros q Hq. rewrite Forall_forall in Hpg. by apply Hpg.
      * by rewrite Ht.
    + destruct (I1 sp') as [S1 S2 S3 S4 S5 S6 S7 S8].
      split; rewrite ?pk_with_tx, ?decide_False by done; cbn [with_tx upd_tx tx discarded rx]; rewrite ?sel_upd_ne by done; try done.
      unfold of_space. rewrite filter_app, sum_by_app, (filter_none _ gone); [done|].
      intros q Hq Hx. rewrite Forall_forall in Hpg. specialize (Hpg q Hq). destruct Hpg as [Hps _ _ _ _ _]. congruence.
  - apply Forall_app. split; [|done]. eapply Forall_impl; [exact Hpg|]. intros q Hq. pose proof (po_space _ _ Hq) as <-. done.
  - cbn [with_tx upd_tx vars]. rewrite I3, Hout, !sum_by_app. lia.
  - done.
  - cbn [with_tx upd_tx log]. rewrite I5, Hout. rewrite !fmap_app, <-!app_assoc.
    rewrite (app_assoc (ident_of <$> gone)), (Permutation_app_comm (ident_of <$> gone)), <-app_assoc. done.
  - done.
Qed.

Lemma detect_acked_ok sent pl limbo a k sp :
  ackm_inv sent pl limbo a -> sel sp (discarded a) = false -> valid_ack k ->
  let na := reverse (filter (acks k) (pk sp a)) in
  exists h, ackm_detect_and_remove_newly_acked_pkts k sp a
      = (Ok na, with_tx sp (set_tx_history h (sel sp (tx a))) a) /\
    packets h = filter (fun q => ~ acks k q) (pk sp a) /\
    ackm_inv sent pl (na ++ limbo) (with_tx sp (set_tx_history h (sel sp (tx a))) a).
Proof.
  intros Hi Hd Hk na. destruct (so_hist _ _ _ (ai_space _ _ _ _ Hi sp) Hd) as [w Hh].
  destruct (newly_acked_pkts_ok k _ w _ Hh Hk) as (h & E & Hh'). fold na in E. exists h. split_and!.
  - unfold ackm_detect_and_remove_newly_acked_pkts.
    assert ((num_ack_ranges k >? 0) = true) as ->.
    { destruct Hk as [-> Hs _ _]. destruct (ack_ranges k) as [|r rs]; [done|]. rewrite zlen_cons. pose proof (zlen_nonneg rs). lia. }
    cbn [assert_]. rewrite (bind_ok (ret tt) _ a tt a eq_refl).
    unfold in_tx_history, bind, get. rewrite Hd. cbn [negb assert_ ret]. unfold on_tx, zoom. by rewrite E.
  - apply (holds_packets _ _ _ Hh').
  - pose proof (ai_space _ _ _ _ Hi sp) as [_ _ _ _ _ S6 [S7 S7'] _].
    eapply (inv_detect sent pl limbo a sp _ _ w na); try done.
    unfold na. rewrite reverse_Permutation. by rewrite filter_app_complement.
Qed.

Definition tick a : OSSL_ACKM D :=
  mkAckm (tx a) (rx a) (discarded a) (vars a) (statm a) (cc_data a) (log a) (S (readings a)).

Lemma inv_tick sent pl limbo a : ackm_inv sent pl limbo a -> ackm_inv sent pl limbo (tick a).
Proof. intros [I1 I2 I3 I4 I5 I6]. split; try done. intros sp. destruct (I1 sp). by split. Qed.

Lemma loss_delay_range st : st_ok st -> 0 < loss_delay_of (ossl_statm_get_rtt_info st) /\ is_u64 (loss_delay_of (ossl_statm_get_rtt_info st)).
Proof.
  intros (Hs & Hl & _ & _). unfold loss_delay_of. cbn [info_latest_rtt info_smoothed_rtt ossl_statm_get_rtt_info].
  rewrite !ossl_time_max_spec, ossl_time_divide_spec by done.
  assert (Hm : is_u64 (ossl_time_multiply (Z.max (latest_rtt st) (smoothed_rtt st)) K_TIME_THRESHOLD_NUM)).
  { apply ossl_time_multiply_range; unfold is_u64, U64_MOD, K_TIME_THRESHOLD_NUM, OSSL_TIME in *; lia. }
  set (x := ossl_time_multiply _ _) in *. clearbody x. unfold OSSL_TIME in x.
  assert (Hg : ossl_ticks2time K_GRANULARITY = 1000000) by (vm_compute; reflexivity). rewrite Hg.
  unfold is_u64, U64_MOD, K_TIME_THRESHOLD_DEN, OSSL_TIME in *. Z.div_mod_to_equations. lia.
Qed.

(** The packets of a space that are lost, and what is left. *)
Definition loss_deadline_of (n : nat) (st : OSSL_STATM) : OSSL_TIME :=
  ossl_time_subtract (now n) (loss_delay_of (ossl_statm_get_rtt_info st)).

Lemma detect_lost_ok sent pl limbo a sp :
  ackm_inv sent pl limbo a -> sel sp (discarded a) = false ->
  let largest := largest_acked_pkt (sel sp (tx a)) in
  largest <> QUIC_PN_INVALID ->
  let lp := lost largest (loss_deadline_of (readings a) (statm a)) in
  let delay := loss_delay_of (ossl_statm_get_rtt_info (statm a)) in
  exists t, ackm_detect_and_remove_lost_pkts now sp a = (Ok (filter lp (pk sp a)), with_tx sp t (tick a)) /\
    packets (tx_history t) = filter (fun q => ~ lp q) (pk sp a) /\ largest_acked_pkt t = largest /\
    loss_time t = fold_left (add_loss_time delay)
      (filter (pending largest (loss_deadline_of (readings a) (statm a))) (pk sp a)) 0 /\
    ackm_inv sent pl (filter lp (pk sp a) ++ limbo) (with_tx sp t (tick a)).
Proof.
  intros Hi Hd largest Hne lp delay. pose proof (ai_space _ _ _ _ Hi sp) as [S1 _ _ S4 _ S6 _ _].
  destruct (S1 Hd) as [w Hh]. pose proof Hi as [_ _ _ _ _ (_ & _ & Hst)]. destruct (loss_delay_range _ Hst) as [Hd0 Hdu].
  set (t0 := set_loss_time 0 (sel sp (tx a))). rewrite Forall_forall in S4.
  destruct (lost_walk_ok sp delay (loss_deadline_of (readings a) (statm a)) (pk sp a) (pk sp a) w t0)
    as (t & E & Hh' & (E1 & E2 & E3 & E4) & Hlt).
  { exact Hh. }
  { intros x Hx. split; [done|]. by apply S4. }
  { apply (holds_sorted _ _ _ Hh). }
  cbn zeta in E, Hh', Hlt. change (largest_acked_pkt t0) with largest in *. change (loss_time t0) with 0 in Hlt.
  rewrite (without_filter lp) in Hh' by (done || apply (holds_sorted _ _ _ Hh)).
  exists t. split_and!; [|by apply (holds_packets _ _ _ Hh')|exact E1|exact Hlt|].
  - unfold ackm_detect_and_remove_lost_pkts. rewrite (bind_ok get _ a a a eq_refl). fold largest.
    destruct (Z.eqb_spec largest QUIC_PN_INVALID) as [|_]; [done|]. cbn [negb assert_]. unfold bind, ret.
    cbn [on_tx zoom modify Ackm.read_clock readings upd_tx tx rx discarded vars statm cc_data log].
    rewrite Hd. cbn [negb assert_ ret]. unfold on_tx, zoom. cbn [tx upd_tx]. rewrite sel_upd_eq.
    unfold loss_deadline_of in E. change (set_loss_time ossl_time_zero (sel sp (tx a))) with t0. fold delay (pk sp a).
    fold delay in E. rewrite E.
    unfold with_tx, upd_tx, tick. cbn. do 2 f_equal. by destruct sp.
  - pose proof (loss_time_min delay (filter (pending largest (loss_deadline_of (readings a) (statm a))) (pk sp a)) 0) as Hm.
    cbn zeta in Hm. rewrite <-Hlt in Hm. destruct Hm as (M1 & _); [unfold OSSL_TIME in *; lia| |done|lia|].
    { intros q [_ Hq]%list_elem_of_filter. apply (S4 q Hq). }
    eapply (inv_detect sent pl limbo (tick a) sp _ _ w (filter lp (pk sp a))); try done.
    + by apply inv_tick.
    + by rewrite filter_app_complement.
    + by rewrite E1.
    + intros _. by rewrite E1.
Qed.

End Invariant.
