(* ===== verification/AckmTx.v ===== *)
(** The transmit side of the acknowledgement manager: each operation keeps the
    invariant of [AckmInv] and the condition on the timer, and what it does to packets,
    counts and callbacks. *)

From stdpp Require Import base list numbers gmap sorting.
From Stdlib Require Import ZArith Lia.
From S2P Require Import Prelude SafeMath Vlint Wire Frames UintSet Statm NewReno LHash Ackm AckmTheory AckmInv.

#[local] Open Scope cfun_scope.

Section Transmit.
Context {D : Type} `{CongestionControlLaws D}.
Context (now : nat -> OSSL_TIME) (now_range : forall n, is_u64 (now n)).
Implicit Types a : OSSL_ACKM D.

(** ** Small steps *)

Lemma on_vars_step {B} f (m : M (OSSL_ACKM D) B) a : (on_vars f ;;; m) a = m (upd_vars f a).
Proof. done. Qed.

Lemma on_tx_step {B} sp f (m : M (OSSL_ACKM D) B) a :
  (on_tx sp (modify f) ;;; m) a = m (with_tx sp (f (sel sp (tx a))) a).
Proof. done. Qed.

(** Variables that the invariant does not mention. *)
Lemma inv_vars sent pl limbo f a : ackm_inv sent pl limbo a ->
  bytes_in_flight (f (vars a)) = bytes_in_flight (vars a) -> 0 <= pto_count (f (vars a)) ->
  is_u64 (rx_max_ack_delay (f (vars a))) -> ackm_inv sent pl limbo (upd_vars f a).
Proof.
  intros [I1 I2 I3 I4 I5 (I6 & I7 & I8)] E1 E2 E3. split; cbn [upd_vars vars cc_data log statm]; rewrite ?E1; try done.
  intros sp. destruct (I1 sp). by split.
Qed.

Lemma inv_keep_vars sent pl limbo f a : ackm_inv sent pl limbo a ->
  bytes_in_flight (f (vars a)) = bytes_in_flight (vars a) -> pto_count (f (vars a)) = pto_count (vars a) ->
  rx_max_ack_delay (f (vars a)) = rx_max_ack_delay (vars a) -> ackm_inv sent pl limbo (upd_vars f a).
Proof. intros Hi E1 E2 E3. pose proof (ai_vars _ _ _ _ Hi) as (V1 & V2 & _). apply inv_vars; congruence. Qed.

(** A change of a transmit space that keeps its packets. *)
Lemma inv_tx_space sent pl limbo a sp t : ackm_inv sent pl limbo a -> sel sp (discarded a) = false ->
  (exists w, holds (pk sp a) w (tx_history t)) ->
  ack_eliciting_bytes_in_flight t = ack_eliciting_bytes_in_flight (sel sp (tx a)) ->
  time_of_last_ack_eliciting_pkt t = time_of_last_ack_eliciting_pkt (sel sp (tx a)) ->
  (largest_acked_pkt t = QUIC_PN_INVALID \/ 0 <= largest_acked_pkt t < QUIC_PN_LIMIT) ->
  0 <= loss_time t -> (loss_time t <> 0 -> largest_acked_pkt t <> QUIC_PN_INVALID) ->
  ackm_inv sent pl limbo (with_tx sp t a).
Proof. intros Hi Hd [w Hh] **. by apply (inv_detect sent pl limbo a sp t (pk sp a) w []). Qed.

(** A change of a receive space that keeps its history in order. *)
Lemma inv_rx_space sent pl limbo a sp r : ackm_inv sent pl limbo a ->
  (sel sp (discarded a) = false -> rx_ok (rx_history r)) -> ackm_inv sent pl limbo (upd_rx (upd_at sp r) a).
Proof.
  intros [I1 I2 I3 I4 I5 I6] Hr. split; try done. intros sp'. destruct (I1 sp') as [S1 S2 S3 S4 S5 S6 S7 S8].
  split; try done. cbn [upd_rx rx discarded]. destruct (decide (sp = sp')) as [<-|Hne].
  - by rewrite sel_upd_eq.
  - by rewrite sel_upd_ne.
Qed.

Lemma inv_log sent pl limbo a c : ackm_inv sent pl limbo a -> fate c = None ->
  ackm_inv sent pl limbo
    (mkAckm (tx a) (rx a) (discarded a) (vars a) (statm a) (cc_data a) (c :: log a) (readings a)).
Proof.
  intros [I1 I2 I3 I4 I5 I6] Hc. split; try done.
  - intros sp. destruct (I1 sp). by split.
  - cbn [log]. by assert (fates (c :: log a) = fates (log a)) as -> by (unfold fates; cbn; by rewrite Hc).
Qed.

(** The timer condition depends on few things. *)
Definition same_timer a a' : Prop :=
  (forall sp, loss_time (sel sp (tx a')) = loss_time (sel sp (tx a)) /\
     ack_eliciting_bytes_in_flight (sel sp (tx a')) = ack_eliciting_bytes_in_flight (sel sp (tx a)) /\
     time_of_last_ack_eliciting_pkt (sel sp (tx a')) = time_of_last_ack_eliciting_pkt (sel sp (tx a))) /\
  statm a' = statm a /\
  loss_detection_deadline (vars a') = loss_detection_deadline (vars a) /\
  peer_completed_addr_validation (vars a') = peer_completed_addr_validation (vars a) /\
  pto_count (vars a') = pto_count (vars a) /\ handshake_confirmed (vars a') = handshake_confirmed (vars a).

Lemma loss_time_same a a' : (forall sp, loss_time (sel sp (tx a')) = loss_time (sel sp (tx a))) ->
  ackm_get_loss_time_and_space a' = ackm_get_loss_time_and_space a.
Proof.
  intros E. unfold ackm_get_loss_time_and_space. cbn [fold_left]. rewrite !(E QUIC_PN_SPACE_INITIAL), !(E QUIC_PN_SPACE_HANDSHAKE).
  destruct (_ || _); by rewrite (E QUIC_PN_SPACE_APP).
Qed.

(** The bound with a larger delay of the peer, and with fewer packets. *)
Lemma prompt_mono w w' a a' : w <= w' -> statm a' = statm a -> pto_count (vars a') = pto_count (vars a) ->
  handshake_confirmed (vars a') = handshake_confirmed (vars a) ->
  loss_detection_deadline (vars a') = loss_detection_deadline (vars a) ->
  (forall sp, loss_time (sel sp (tx a')) = loss_time (sel sp (tx a)) /\
     time_of_last_ack_eliciting_pkt (sel sp (tx a')) = time_of_last_ack_eliciting_pkt (sel sp (tx a)) /\
     (ack_eliciting_bytes_in_flight (sel sp (tx a')) <> 0 -> ack_eliciting_bytes_in_flight (sel sp (tx a)) <> 0)) ->
  prompt w a -> prompt w' a'.
Proof.
  intros Hw E1 E2 E3 E4 Hsp [P1 P2]. unfold prompt, probes, probe_by, probe_base, backoff in *.
  rewrite (loss_time_same a a') by (intros sp; apply Hsp). rewrite E1, E2, E3, E4. split; [done|].
  intros Hz sp. destruct (Hsp sp) as (_ & -> & He). intros H1 H2 H3. specialize (P2 Hz sp (He H1) H2 H3).
  pose proof (Z.pow_nonneg 2 (Z.min (pto_count (vars a)) MAX_PTO_COUNT)). case_decide; [nia|lia].
Qed.

Lemma same_timer_le w w' a a' : same_timer a a' -> w <= w' -> peer_delay (rx_max_ack_delay (vars a')) <= w' ->
  timer_ok w a -> timer_ok w' a'.
Proof.
  intros (E1 & E2 & E3 & E4 & E5 & E6) Hw Hd (_ & Ha & Ht & Hp). split; [done|]. revert Ha Ht. unfold armed, timely.
  rewrite E3, E4, (loss_time_same a a') by apply E1. intros Ha Ht.
  split; [|split; [|apply (prompt_mono w w' a); try done; intros sp; by destruct (E1 sp) as (-> & -> & ->)]];
    unfold ackm_ack_eliciting_bytes_in_flight in *;
    destruct (E1 QUIC_PN_SPACE_INITIAL) as (_ & -> & _), (E1 QUIC_PN_SPACE_HANDSHAKE) as (_ & -> & _), (E1 QUIC_PN_SPACE_APP) as (_ & -> & _); done.
Qed.

Lemma same_timer_ok w a a' : same_timer a a' -> rx_max_ack_delay (vars a') = rx_max_ack_delay (vars a) -> timer_ok w a -> timer_ok w a'.
Proof. intros Hs Er Ht. eapply same_timer_le; try done. rewrite Er. apply Ht. Qed.

Lemma same_timer_tx a sp t :
  loss_time t = loss_time (sel sp (tx a)) ->
  ack_eliciting_bytes_in_flight t = ack_eliciting_bytes_in_flight (sel sp (tx a)) ->
  time_of_last_ack_eliciting_pkt t = time_of_last_ack_eliciting_pkt (sel sp (tx a)) -> same_timer a (with_tx sp t a).
Proof.
  intros E1 E2 E3. split; [|done]. intros sp'. cbn [with_tx upd_tx tx]. destruct (decide (sp = sp')) as [<-|Hne].
  - by rewrite sel_upd_eq.
  - by rewrite sel_upd_ne.
Qed.

(** What is set anew. *)
Definition retimed a a' : Prop := forall w, peer_delay (rx_max_ack_delay (vars a)) <= w -> timer_ok w a'.

Lemma retimed_ok w a a' : retimed a a' -> timer_ok w a -> timer_ok w a'.
Proof. intros Hr [Hw _]. by apply Hr. Qed.

(** ** Acknowledgements *)

Lemma update_rtt_ok st d r : st_ok st -> is_u64 d -> is_u64 r -> st_ok (ossl_statm_update_rtt st d r).
Proof.
  intros (S1 & S2 & S3 & S4) Hd Hr. unfold ossl_statm_update_rtt. cbv zeta.
  set (l := if ossl_time_is_zero r then latest_rtt st else r). assert (Hl : is_u64 l) by (unfold l; by destruct (ossl_time_is_zero r)).
  clearbody l.
  set (m := if ossl_time_compare l (min_rtt st) <? 0 then l else min_rtt st). assert (Hm : is_u64 m) by (unfold m; by destruct (_ <? 0)). clearbody m.
  set (adj := if ossl_time_compare l (ossl_time_add m d) >=? 0 then ossl_time_subtract l d else l). assert (Ha : is_u64 adj).
  { unfold adj. destruct (_ >=? 0); [|done]. rewrite ossl_time_subtract_sat by done. unfold is_u64, OSSL_TIME in *. lia. }
  clearbody adj.
  assert (Hdiv : forall (x y : Z), is_u64 x -> 0 < y -> is_u64 (ossl_time_divide x y)).
  { intros x y Hx Hy. rewrite ossl_time_divide_spec by lia. unfold is_u64 in *. split; [apply Z.div_pos; lia|].
    apply (Z.le_lt_trans _ x); [|lia]. apply Z.div_le_upper_bound; nia. }
  assert (Hc : is_u64 7 /\ is_u64 3) by (unfold is_u64, U64_MOD; lia).
  destruct (negb _); (split_and!; cbn [smoothed_rtt latest_rtt min_rtt rtt_variance]; [..|]); try done; apply Hdiv; try lia; try done.
  - apply ossl_time_add_range; [apply ossl_time_multiply_range; tauto|done].
  - apply ossl_time_add_range; [apply ossl_time_multiply_range; tauto|].
    rewrite ossl_time_abs_difference_spec by done. unfold is_u64, OSSL_TIME in *. lia.
Qed.

(** The largest packet number of a frame. *)
Definition top (k : OSSL_QUIC_FRAME_ACK) : Z := from_option ar_end 0 (head (ack_ranges k)).

Lemma first_end_ok {T} k (s : T) : valid_ack k -> first_end k s = (Ok (top k), s).
Proof. intros [_ Hs _ _]. unfold first_end, top. by destruct (ack_ranges k). Qed.

Lemma top_range k : valid_ack k -> 0 <= top k < QUIC_PN_LIMIT /\ acked_by (ack_ranges k) (top k) = true.
Proof.
  intros [_ Hs Hd Hl]. unfold top. destruct (ack_ranges k) as [|r rs]; [done|]. apply Forall_cons_1 in Hl as [Hl _].
  destruct Hd as (Hr & _ & _). cbn [head from_option]. split; [lia|]. apply acked_by_iff. exists r. split; [left|lia].
Qed.

(** The state with the RTT sample of the newly acknowledged packets [na]. *)
Definition sampled (k : OSSL_QUIC_FRAME_ACK) (na : list OSSL_ACKM_TX_PKT) a : OSSL_ACKM D :=
  match na with
  | p :: _ =>
      if (pkt_num p =? top k) && ack_includes_ack_eliciting na then
        let t := now (readings a) in
        let d := if handshake_confirmed (vars a) then ossl_time_min (delay_time k) (rx_max_ack_delay (vars a)) else delay_time k in
        mkAckm (tx a) (rx a) (discarded a)
          (if ossl_time_is_zero (first_rtt_sample (vars a)) then set_first_rtt_sample t (vars a) else vars a)
          (ossl_statm_update_rtt (statm a) d (ossl_time_subtract t (tx_time p))) (cc_data a) (log a) (S (readings a))
      else a
  | [] => a
  end.

Lemma sample_rtt_eq k na a : valid_ack k -> ackm_sample_rtt now k na a = (Ok tt, sampled k na a).
Proof.
  intros Hk. destruct na as [|p na]; [done|]. cbn [ackm_sample_rtt sampled]. rewrite (bind_ok _ _ _ _ _ (first_end_ok k a Hk)).
  destruct (_ && _); [|done]. unfold Ackm.read_clock, bind, on_vars, modify, get, upd_vars. cbn [vars tx rx discarded statm cc_data log readings].
  destruct (ossl_time_is_zero _); [|done]. by destruct (vars a).
Qed.

(** What the sample does not touch. *)
Lemma sampled_same k na a :
  tx (sampled k na a) = tx a /\ rx (sampled k na a) = rx a /\ discarded (sampled k na a) = discarded a /\
  cc_data (sampled k na a) = cc_data a /\ log (sampled k na a) = log a /\
  exists t, vars (sampled k na a) = set_first_rtt_sample t (vars a).
Proof.
  destruct na as [|p na]; cbn [sampled].
  { split_and!; try done. exists (first_rtt_sample (vars a)). by destruct (vars a). }
  destruct (_ && _); split_and!; try done; cbn [vars].
  - destruct (ossl_time_is_zero _); [by eexists|]. exists (first_rtt_sample (vars a)). by destruct (vars a).
  - exists (first_rtt_sample (vars a)). by destruct (vars a).
Qed.

Lemma sampled_delay k na a : rx_max_ack_delay (vars (sampled k na a)) = rx_max_ack_delay (vars a).
Proof. destruct (sampled_same k na a) as (_ & _ & _ & _ & _ & t & ->). by destruct (vars a). Qed.

Lemma inv_sampled sent pl limbo k na a :
  ackm_inv sent pl limbo a -> is_u64 (delay_time k) -> (forall q, q ∈ na -> is_u64 (tx_time q)) ->
  ackm_inv sent pl limbo (sampled k na a).
Proof.
  intros Hi Hd Hn. pose proof (ai_vars _ _ _ _ Hi) as (V1 & V2 & V3).
  assert (Hst : st_ok (statm (sampled k na a))).
  { destruct na as [|p na]; cbn [sampled]; [done|]. destruct (_ && _); [|done]. cbn [statm].
    apply update_rtt_ok; [done| |].
    - destruct (handshake_confirmed _); [|done]. rewrite ossl_time_min_min. unfold is_u64, OSSL_TIME in *. lia.
    - pose proof (now_range (readings a)) as Hnow. specialize (Hn p ltac:(left)). rewrite ossl_time_subtract_sat by done.
      unfold is_u64, OSSL_TIME in *. lia. }
  destruct (sampled_same k na a) as (E1 & E2 & E3 & E4 & E5 & [t E6]).
  destruct Hi as [I1 I2 I3 I4 I5 I6].
  split; unfold outstanding, pk; rewrite ?E1, ?E2, ?E3, ?E4, ?E5, ?E6; try done.
  - intros sp. destruct (I1 sp). by split; unfold pk; rewrite ?E1, ?E2, ?E3.
  - transitivity (bytes_in_flight (vars a)); [by destruct (vars a)|exact I3].
  - by destruct (vars a).
  - by destruct (vars a).
Qed.

Lemma with_tx_twice sp t t' a : with_tx sp t' (with_tx sp t a) = with_tx sp t' a.
Proof. unfold with_tx, upd_tx. cbn. by destruct sp. Qed.

Lemma sel_with_tx sp t a : sel sp (tx (with_tx sp t a)) = t.
Proof. cbn. by rewrite sel_upd_eq. Qed.

Lemma with_tx_same sp a : with_tx sp (sel sp (tx a)) a = a.
Proof. unfold with_tx, upd_tx. rewrite upd_at_sel. by destruct a. Qed.

(** ECN counts: the packet with the largest acknowledged number is no longer in the
    history when it is looked for, so that the controller is not told. *)
Lemma process_ecn_ok sent pl limbo k sp a :
  ackm_inv sent pl limbo a -> sel sp (discarded a) = false -> valid_ack k -> (forall q, q ∈ pk sp a -> ~ acks k q) ->
  exists t, ackm_process_ecn k sp a = (Ok tt, with_tx sp t a) /\ ackm_inv sent pl limbo (with_tx sp t a) /\
    packets (tx_history t) = pk sp a /\ largest_acked_pkt t = largest_acked_pkt (sel sp (tx a)).
Proof.
  intros Hi Hd Hk Hn. unfold ackm_process_ecn. rewrite (bind_ok get _ a a a eq_refl).
  pose proof (ai_space _ _ _ _ Hi sp) as [S1 _ _ _ _ S6 [S7 S7'] _].
  destruct (_ >? _); [|exists (sel sp (tx a)); by rewrite with_tx_same].
  destruct (S1 Hd) as [w Hh]. destruct (by_pkt_num_ok _ w (tx_history (sel sp (tx a))) (top k) Hh) as (h & E & Hh').
  assert (Hnone : pkt_map (pk sp a) !! top k = None).
  { apply pkt_map_none; [apply (holds_sorted _ _ _ Hh)|]. intros x Hx Ex. apply (Hn x Hx). unfold acks. rewrite Ex.
    by apply top_range. }
  set (t := set_tx_history h (set_peer_ecnce (ecnce k) (sel sp (tx a)))). exists t. split_and!; [| |apply (holds_packets _ _ _ Hh')|done].
  - unfold on_tx at 1, zoom, modify, bind at 1. fold (with_tx sp (set_peer_ecnce (ecnce k) (sel sp (tx a))) a).
    rewrite (bind_ok _ _ _ _ _ (first_end_ok k _ Hk)).
    unfold in_tx_history, bind, get. cbn [with_tx upd_tx discarded]. rewrite Hd. cbn [negb assert_ ret].
    unfold on_tx, zoom. rewrite sel_with_tx. cbn [tx_history set_peer_ecnce]. rewrite E, Hnone.
    by rewrite <-(with_tx_twice sp (set_peer_ecnce (ecnce k) (sel sp (tx a))) t a).
  - apply inv_tx_space; try done. by exists w.
Qed.

Lemma report_lost_ok sp sent l pl limbo a : ackm_inv sent pl (l ++ limbo) a ->
  exists a', match l with [] => ret tt | _ => ackm_on_pkts_lost sp l false end a = (Ok tt, a') /\
    ackm_inv sent pl limbo a' /\ settled a a' /\ rx a' = rx a /\ log a' = reverse (lost_cb <$> l) ++ log a.
Proof.
  intros Hi. destruct l as [|q l]; [exists a; split_and!; try done; apply settled_refl|].
  destruct (on_pkts_lost_ok sp false sent (q :: l) pl limbo a Hi) as (a' & E & Hi' & Hs & Hr & Hl). rewrite Z.add_0_r in Hi'.
  by exists a'.
Qed.

(** The largest packet number acknowledged, after a frame. *)
Definition raised (n : Z) (k : OSSL_QUIC_FRAME_ACK) : Z := if n =? QUIC_PN_INVALID then top k else Z.max n (top k).

Lemma raised_range n k : valid_ack k -> n = QUIC_PN_INVALID \/ 0 <= n < QUIC_PN_LIMIT ->
  0 <= raised n k < QUIC_PN_LIMIT /\ raised n k <> QUIC_PN_INVALID.
Proof.
  intros Hk Hn. destruct (top_range k Hk) as [Ht _]. unfold raised. unfold QUIC_PN_INVALID, QUIC_PN_LIMIT, UINT64_MAX in *.
  destruct (Z.eqb_spec n 18446744073709551615); lia.
Qed.

(** The state after the first part of the handler: the largest acknowledged number
    and the validation of the peer's address. *)
Definition must_set (sp : pn_space) a : bool :=
  negb (peer_completed_addr_validation (vars a)) && bool_decide (sp = QUIC_PN_SPACE_HANDSHAKE).
Definition noted (k : OSSL_QUIC_FRAME_ACK) (sp : pn_space) a : OSSL_ACKM D :=
  let a1 := with_tx sp (set_largest_acked_pkt (raised (largest_acked_pkt (sel sp (tx a))) k) (sel sp (tx a))) a in
  if must_set sp a then upd_vars (set_completed true) a1 else a1.

Lemma inv_noted sent pl limbo k sp a : ackm_inv sent pl limbo a -> sel sp (discarded a) = false -> valid_ack k ->
  ackm_inv sent pl limbo (noted k sp a).
Proof.
  intros Hi Hd Hk. pose proof (ai_space _ _ _ _ Hi sp) as [S1 _ _ _ _ S6 [S7 S7'] _].
  destruct (raised_range _ k Hk S6) as [R1 R2].
  assert (Hw : ackm_inv sent pl limbo (with_tx sp (set_largest_acked_pkt (raised (largest_acked_pkt (sel sp (tx a))) k) (sel sp (tx a))) a)).
  { apply inv_tx_space; try done; [by apply S1|by right]. }
  unfold noted. destruct (must_set sp a); [|done].
  apply inv_keep_vars; [done|..]; cbn [with_tx upd_tx vars]; by destruct (vars a).
Qed.

Lemma pk_noted k sp a sp' : pk sp' (noted k sp a) = pk sp' a.
Proof.
  unfold noted. assert (E : pk sp' (with_tx sp (set_largest_acked_pkt (raised (largest_acked_pkt (sel sp (tx a))) k) (sel sp (tx a))) a) = pk sp' a).
  { rewrite pk_with_tx. by case_decide as E; [subst|]. }
  by destruct (must_set sp a).
Qed.

Lemma reports_all l k : Forall (fun c => is_Some (fate c)) l -> reports (l ++ k) = l ++ reports k.
Proof. intros Hl. rewrite reports_app. f_equal. apply filter_all. by apply Forall_forall. Qed.

Lemma reports_lost l k : reports (reverse (lost_cb <$> l) ++ k) = reverse (lost_cb <$> l) ++ reports k.
Proof. apply reports_all. rewrite Forall_reverse, Forall_fmap. apply Forall_forall. intros q _. by eexists. Qed.

Lemma reports_acked l k : reports (reverse (acked_cb <$> l) ++ k) = reverse (acked_cb <$> l) ++ reports k.
Proof. apply reports_all. rewrite Forall_reverse, Forall_fmap. apply Forall_forall. intros q _. by eexists. Qed.

Lemma timer_only_pk a a' sp : timer_only a a' -> pk sp a' = pk sp a.
Proof. intros [T1 _ _ _ _ _ _]. unfold pk. by rewrite T1. Qed.

(** The handler after the newly acknowledged packets [na] were taken out. *)
Definition ack_tail (k : OSSL_QUIC_FRAME_ACK) (sp : pn_space) (na : list OSSL_ACKM_TX_PKT) : M (OSSL_ACKM D) unit :=
  ackm_sample_rtt now k na ;;;
  (if ecn_present k then ackm_process_ecn k sp else ret tt) ;;;
  let! lost_pkts := ackm_detect_and_remove_lost_pkts now sp in
  (match lost_pkts with [] => ret tt | _ => ackm_on_pkts_lost sp lost_pkts false end) ;;;
  ackm_on_pkts_acked na ;;;
  on_vars (fun v => if peer_completed_addr_validation v then set_pto_count 0 v else v) ;;;
  ackm_set_loss_detection_timer now.

Lemma ack_tail_ok sent pl k sp na a : ackm_inv sent pl na a -> sel sp (discarded a) = false -> valid_ack k ->
  is_u64 (delay_time k) -> (forall q, q ∈ pk sp a -> ~ acks k q) -> largest_acked_pkt (sel sp (tx a)) <> QUIC_PN_INVALID ->
  let m := sampled k na a in
  let lp := lost (largest_acked_pkt (sel sp (tx a))) (loss_deadline_of now (readings m) (statm m)) in
  exists a', ack_tail k sp na a = (Ok tt, a') /\ ackm_inv sent pl [] a' /\ retimed a a' /\
    discarded a' = discarded a /\ pk sp a' = filter (fun q => ~ lp q) (pk sp a) /\
    (forall sp', sp' <> sp -> pk sp' a' = pk sp' a) /\ (forall sp', rx_bumped (sel sp' (rx a)) (sel sp' (rx a'))) /\
    reports (log a') = reverse (acked_cb <$> na) ++ reverse (lost_cb <$> filter lp (pk sp a)) ++ reports (log a).
Proof.
  intros Hi Hd Hk Hdt Hn Hl m lp. destruct (sampled_same k na a) as (E1 & E2 & E3 & E4 & E5 & _). fold m in E1, E2, E3, E4, E5.
  assert (Epk : forall sp', pk sp' m = pk sp' a) by (intros sp'; unfold pk; by rewrite E1).
  assert (Him : ackm_inv sent pl na m).
  { pose proof (ai_limbo _ _ _ _ Hi) as Hlim. rewrite Forall_forall in Hlim.
    apply inv_sampled; try done. intros q Hq. by destruct (Hlim q Hq) as [[_ _ _ _ [_ ?] _] _]. }
  unfold ack_tail. rewrite (bind_ok _ _ _ _ _ (sample_rtt_eq k na a Hk)). fold m.
  assert (Hecn : exists t, (if ecn_present k then ackm_process_ecn k sp else ret tt) m = (Ok tt, with_tx sp t m) /\
    ackm_inv sent pl na (with_tx sp t m) /\ packets (tx_history t) = pk sp m /\ largest_acked_pkt t = largest_acked_pkt (sel sp (tx m))).
  { destruct (ecn_present k); [|exists (sel sp (tx m)); by rewrite with_tx_same].
    apply process_ecn_ok; try done; [by rewrite E3|]. intros q. rewrite Epk. apply Hn. }
  destruct Hecn as (t1 & Ee & Hie & Pe & Le). rewrite (bind_ok _ _ _ _ _ Ee). set (e := with_tx sp t1 m) in *.
  assert (Epe : forall sp', pk sp' e = pk sp' a).
  { intros sp'. unfold e. rewrite pk_with_tx. case_decide as Esp; [subst sp'; by rewrite Pe|apply Epk]. }
  assert (Ele : largest_acked_pkt (sel sp (tx e)) = largest_acked_pkt (sel sp (tx a))) by (unfold e; by rewrite sel_with_tx, Le, E1).
  destruct (detect_lost_ok now sent pl na e sp Hie) as (t2 & El & Pl & _ & _ & Hil); [by rewrite <-Hd, <-E3|by rewrite Ele|].
  rewrite Ele, Epe in El, Pl, Hil. change (readings e) with (readings m) in *. change (statm e) with (statm m) in *. fold lp in El, Pl, Hil.
  rewrite (bind_ok _ _ _ _ _ El). clear El. set (f := with_tx sp t2 (tick e)) in *.
  destruct (report_lost_ok sp sent _ pl na f Hil) as (g & Eg & Hig & Sg & _ & Lg). rewrite (bind_ok _ _ _ _ _ Eg).
  destruct (on_pkts_acked_ok sent pl na [] g) as (h & Eh & Hih & Sh & Lh); [by rewrite app_nil_r|]. rewrite (bind_ok _ _ _ _ _ Eh).
  rewrite on_vars_step.
  set (fv := fun v => if peer_completed_addr_validation v then set_pto_count 0 v else v).
  assert (Hiv : ackm_inv sent pl [] (upd_vars fv h)).
  { pose proof (ai_vars _ _ _ _ Hih) as (V1 & V2 & _).
    apply inv_vars; [done|..]; unfold fv; destruct (vars h) as [? ? ? ? ? ? [] ? ? ? ? ?]; cbn in *; done || lia. }
  destruct (set_timer_ok now _ _ _ _ Hiv) as (a' & Et & To & Tk). exists a'. split; [done|]. split; [by eapply timer_only_inv|].
  pose proof (settled_trans _ _ _ Sg Sh) as Sfh.
  assert (Ep : forall sp', pk sp' a' = pk sp' f).
  { intros sp'. rewrite (timer_only_pk _ _ _ To). change (pk sp' (upd_vars fv h)) with (pk sp' h). by apply settled_pk. }
  split.
  { intros w Hw. apply Tk. cbn [upd_vars vars]. destruct (se_vars _ _ Sfh) as [n ->]. change (vars f) with (vars m).
    rewrite <-(sampled_delay k na a) in Hw. fold m in Hw. unfold fv. by destruct (vars m) as [? ? ? ? ? ? [] ? ? ? ? ?]. }
  split_and!.
  - rewrite (to_discarded _ _ To). cbn [upd_vars discarded]. rewrite (se_discarded _ _ Sfh). exact E3.
  - rewrite Ep. unfold f. by rewrite pk_with_tx, decide_True.
  - intros sp' Hsp. rewrite Ep. unfold f. rewrite pk_with_tx, decide_False by done. apply Epe.
  - intros sp'. rewrite (to_rx _ _ To). cbn [upd_vars rx]. rewrite <-E2. apply (se_rx _ _ Sfh).
  - rewrite (to_reports _ _ To). cbn [upd_vars log]. rewrite Lh, reports_acked, Lg, reports_lost. cbn [f e with_tx upd_tx tick log].
    by rewrite E5.
Qed.

(** The packets that a frame newly acknowledges, latest first, and those of the
    rest of their space that are lost then. *)
Definition newly (k : OSSL_QUIC_FRAME_ACK) (sp : pn_space) a : list OSSL_ACKM_TX_PKT := reverse (filter (acks k) (pk sp a)).
Definition unanswered (k : OSSL_QUIC_FRAME_ACK) (sp : pn_space) a : list OSSL_ACKM_TX_PKT :=
  filter (fun q => ~ acks k q) (pk sp a).
Definition given_up (k : OSSL_QUIC_FRAME_ACK) (sp : pn_space) a (q : OSSL_ACKM_TX_PKT) : Prop :=
  newly k sp a <> [] /\
  let m := sampled k (newly k sp a) a in
  lost (raised (largest_acked_pkt (sel sp (tx a))) k) (loss_deadline_of now (readings m) (statm m)) q.
#[export] Instance given_up_dec k sp a q : Decision (given_up k sp a q).
Proof. unfold given_up. apply _. Defined.

Lemma sampled_after k na a a1 :
  (exists b, vars a1 = set_completed b (vars a)) -> statm a1 = statm a -> readings a1 = readings a ->
  statm (sampled k na a1) = statm (sampled k na a) /\ readings (sampled k na a1) = readings (sampled k na a).
Proof.
  intros [b Ev] Es Er. destruct na as [|p na]; [done|]. cbn [sampled]. destruct (_ && _); [|done].
  cbn [statm readings]. rewrite Es, Er, Ev. by destruct (vars a).
Qed.

Lemma noted_same k sp a :
  discarded (noted k sp a) = discarded a /\ rx (noted k sp a) = rx a /\ log (noted k sp a) = log a /\
  statm (noted k sp a) = statm a /\ readings (noted k sp a) = readings a /\ cc_data (noted k sp a) = cc_data a /\
  (exists b, vars (noted k sp a) = set_completed b (vars a)) /\
  sel sp (tx (noted k sp a)) = set_largest_acked_pkt (raised (largest_acked_pkt (sel sp (tx a))) k) (sel sp (tx a)).
Proof.
  unfold noted. assert (Ev : vars a = set_completed (peer_completed_addr_validation (vars a)) (vars a)) by (by destruct (vars a)).
  destruct (must_set sp a); split_and!; try done; try apply sel_with_tx; by eexists.
Qed.

Lemma ack_frame_unfold k sp rx_time a na b : valid_ack k ->
  ackm_detect_and_remove_newly_acked_pkts k sp (noted k sp a) = (Ok na, b) ->
  ossl_ackm_on_rx_ack_frame now k sp rx_time a =
    match na with
    | [] => if must_set sp a then ackm_set_loss_detection_timer now else ret tt
    | _ => ack_tail k sp na
    end b.
Proof.
  intros Hk E. unfold ossl_ackm_on_rx_ack_frame. rewrite (bind_ok _ _ _ _ _ (first_end_ok k a Hk)), on_tx_step.
  assert ((if largest_acked_pkt (sel sp (tx a)) =? QUIC_PN_INVALID then top k
           else ossl_quic_pn_max (largest_acked_pkt (sel sp (tx a))) (top k)) = raised (largest_acked_pkt (sel sp (tx a))) k) as ->.
  { unfold raised, ossl_quic_pn_max. case_match; [done|]. case_match; lia. }
  set (a1 := with_tx _ _ a). rewrite (bind_ok get _ a1 a1 a1 eq_refl). fold (must_set sp a1).
  change (must_set sp a1) with (must_set sp a). revert E. unfold noted. cbv zeta. fold a1. intros E.
  destruct (must_set sp a); [rewrite on_vars_step|rewrite (bind_ok (ret tt) _ a1 tt a1 eq_refl)];
    rewrite (bind_ok _ _ _ _ _ E); by destruct na.
Qed.

Lemma on_rx_ack_frame_ok sent pl k sp rx_time a : ackm_inv sent pl [] a -> sel sp (discarded a) = false -> valid_ack k ->
  is_u64 (delay_time k) ->
  exists a', ossl_ackm_on_rx_ack_frame now k sp rx_time a = (Ok tt, a') /\ ackm_inv sent pl [] a' /\
    (forall w, timer_ok w a -> timer_ok w a') /\ discarded a' = discarded a /\
    pk sp a' = filter (fun q => ~ given_up k sp a q) (unanswered k sp a) /\
    (forall sp', sp' <> sp -> pk sp' a' = pk sp' a) /\ (forall sp', rx_bumped (sel sp' (rx a)) (sel sp' (rx a'))) /\
    reports (log a') = reverse (acked_cb <$> newly k sp a)
                       ++ reverse (lost_cb <$> filter (given_up k sp a) (unanswered k sp a)) ++ reports (log a).
Proof.
  intros Hi Hd Hk Hdt. destruct (noted_same k sp a) as (E1 & E2 & E3 & E4 & E5 & _ & E7 & E8).
  pose proof (inv_noted _ _ _ _ sp _ Hi Hd Hk) as Hin. destruct (detect_acked_ok sent pl [] (noted k sp a) k sp Hin) as (h & Eh & Ph & Hih); [by rewrite E1|done|].
  rewrite pk_noted in Eh, Ph, Hih. fold (newly k sp a) in Eh, Hih. rewrite app_nil_r in Hih. fold (unanswered k sp a) in Ph.
  set (b := with_tx sp (set_tx_history h (sel sp (tx (noted k sp a)))) (noted k sp a)) in *.
  assert (Pb : pk sp b = unanswered k sp a) by (unfold b; by rewrite pk_with_tx, decide_True).
  assert (Pb' : forall sp', sp' <> sp -> pk sp' b = pk sp' a).
  { intros sp' Hne. unfold b. rewrite pk_with_tx, decide_False by done. apply pk_noted. }
  assert (Edl : rx_max_ack_delay (vars b) = rx_max_ack_delay (vars a)) by (change (vars b) with (vars (noted k sp a)); destruct E7 as [? ->]; by destruct (vars a)).
  rewrite (ack_frame_unfold k sp rx_time a _ _ Hk Eh). destruct (newly k sp a) as [|q na] eqn:Ena.
  - rewrite (filter_none (given_up k sp a)), (filter_all (fun q => ~ given_up k sp a q)) by (by intros q _ [Hg _]).
    assert (Hdone : exists a', (if must_set sp a then ackm_set_loss_detection_timer now else ret tt) b = (Ok tt, a') /\
      ackm_inv sent pl [] a' /\ (forall w, timer_ok w a -> timer_ok w a') /\ discarded a' = discarded b /\ (forall sp', pk sp' a' = pk sp' b) /\
      rx a' = rx b /\ reports (log a') = reports (log b)).
    { unfold b. destruct (must_set sp a) eqn:Em; fold b.
      - destruct (set_timer_ok now _ _ _ _ Hih) as (a' & Et & To & Tk). exists a'. pose proof To as [T1 T2 T3 T4 T5 T6 T7].
        split_and!; try done; [by eapply timer_only_inv| |intros sp'; by apply timer_only_pk].
        intros w [Hw _]. apply Tk. by rewrite Edl.
      - exists b. split_and!; try done. intros w. apply same_timer_ok; [|done]. unfold b, noted. rewrite Em, with_tx_twice, sel_with_tx.
        by apply same_timer_tx. }
    destruct Hdone as (a' & Ea & Ia & Ta & Da & Pa & Ra & La). exists a'.
    split_and!; try done; [by rewrite Da|by rewrite Pa, Pb|by intros sp' Hne; rewrite Pa, Pb'| |by rewrite La; cbn; rewrite E3].
    intros sp'. rewrite Ra. cbn. rewrite E2. apply rx_bumped_refl.
  - rewrite <-Ena in *. assert (Eb : sel sp (tx b) = set_tx_history h (sel sp (tx (noted k sp a)))) by apply sel_with_tx.
    pose proof (so_largest _ _ _ (ai_space _ _ _ _ Hi sp)) as S6. destruct (raised_range _ k Hk S6) as [_ R2].
    destruct (ack_tail_ok sent pl k sp (newly k sp a) b Hih) as (a' & Et & Hi' & Tk & Da & Pa & Pa' & Ra & La); try done.
    { by rewrite <-Hd, <-E1. }
    { rewrite Pb. by intros x [Hx _]%list_elem_of_filter. }
    { by rewrite Eb, E8. }
    destruct (sampled_after k (newly k sp a) a b E7 E4 E5) as [Es Er]. rewrite Eb, E8, Pb in *. rewrite Es, Er in *.
    change (largest_acked_pkt (set_tx_history h (set_largest_acked_pkt ?x ?y))) with x in *.
    assert (Hg : forall x, given_up k sp a x <-> lost (raised (largest_acked_pkt (sel sp (tx a))) k)
      (loss_deadline_of now (readings (sampled k (newly k sp a) a)) (statm (sampled k (newly k sp a) a))) x).
    { intros x. unfold given_up. rewrite Ena. split; [by intros [_ ?]|done]. }
    exists a'. split_and!; try done.
    + intros w [Hw _]. apply Tk. by rewrite Edl.
    + by rewrite Da, <-E1.
    + rewrite Pa. apply list_filter_iff. intros x. by rewrite Hg.
    + intros sp' Hne. by rewrite Pa', Pb'.
    + intros sp'. rewrite <-E2. apply Ra.
    + rewrite La. do 3 f_equal; [|by rewrite <-E3]. f_equal. apply list_filter_iff. intros x. by rewrite Hg.
Qed.

(** ** Transmission *)

(** What the types of the fields of a packet say, and the limit of packet numbers. *)
Record tx_typed (q : OSSL_ACKM_TX_PKT) : Prop := {
  tt_num : 0 <= pkt_num q < QUIC_PN_LIMIT;
  tt_bytes : is_u64 (num_bytes q);
  tt_time : is_u64 (tx_time q);
  tt_largest : largest_acked q = QUIC_PN_INVALID \/ 0 <= largest_acked q < QUIC_PN_LIMIT
}.

(** The transmit space after the packet [q] was sent. *)
Definition sent_space (q : OSSL_ACKM_TX_PKT) (h : tx_pkt_history_st) (t : tx_space) : tx_space :=
  let t := set_tx_history h t in
  if is_inflight q && is_ack_eliciting q
  then set_eliciting (u64 (ack_eliciting_bytes_in_flight t + num_bytes q)) (set_time_of_last (tx_time q) t) else t.

Definition sent_with (q : OSSL_ACKM_TX_PKT) (h : tx_pkt_history_st) (d : D) a : OSSL_ACKM D :=
  with_cc d
    (upd_vars (fun v => if is_inflight q then set_bytes_in_flight (u64 (bytes_in_flight v + num_bytes q)) v else v)
       (with_tx (pkt_space q) (sent_space q h (sel (pkt_space q) (tx a))) a)).

Lemma outstanding_sent q h a :
  packets h = pk (pkt_space q) a ++ [q] ->
  outstanding (with_tx (pkt_space q) (sent_space q h (sel (pkt_space q) (tx a))) a) ≡ₚ q :: outstanding a.
Proof.
  intros Hp. assert (Ht : packets (tx_history (sent_space q h (sel (pkt_space q) (tx a)))) = pk (pkt_space q) a ++ [q]).
  { unfold sent_space. by destruct (_ && _). }
  unfold outstanding. rewrite !pk_with_tx, Ht. destruct (pkt_space q); repeat (case_decide; [|try done]); try done; solve_Permutation.
Qed.

Lemma space_sent limbo q h w sp a :
  sel (pkt_space q) (discarded a) = false -> pkt_ok (pkt_space q) q -> holds (pk (pkt_space q) a ++ [q]) w h ->
  elicit (pk (pkt_space q) a) + elicit_of q + elicit (of_space (pkt_space q) limbo) < U64_MOD ->
  space_ok limbo sp a -> 0 <= elicit (pk (pkt_space q) a) -> 0 <= elicit (of_space (pkt_space q) limbo) ->
  space_ok limbo sp (with_tx (pkt_space q) (sent_space q h (sel (pkt_space q) (tx a))) a).
Proof.
  intros Hd Hq Hh Hlt [S1 S2 S3 S4 S5 S6 S7 S8] Hn Hn'. pose proof (holds_packets _ _ _ Hh) as Hp.
  assert (Heq : elicit_of q = if is_ack_eliciting q then num_bytes q else 0) by done.
  pose proof (po_elicit _ _ Hq) as Hel. pose proof (po_bytes _ _ Hq) as Hbq.
  destruct (decide (pkt_space q = sp)) as [E|Hne].
  2: { split; rewrite ?pk_with_tx, ?decide_False by done; cbn [with_tx upd_tx tx rx discarded]; by rewrite ?sel_upd_ne by done. }
  subst sp. set (t := sel (pkt_space q) (tx a)) in *.
  assert (Ht : tx_history (sent_space q h t) = h /\ largest_acked_pkt (sent_space q h t) = largest_acked_pkt t /\
    loss_time (sent_space q h t) = loss_time t) by (unfold sent_space; by destruct (_ && _)).
  destruct Ht as (T1 & T2 & T3).
  split; rewrite ?pk_with_tx, ?decide_True by done; rewrite ?sel_with_tx; cbn [with_tx upd_tx rx discarded];
    rewrite ?T1, ?T2, ?T3, ?Hp; try done.
  - intros _. by exists w.
  - congruence.
  - apply Forall_app. split; [done|]. by constructor.
  - rewrite sum_by_app, sum_by_cons. change (elicit []) with 0. unfold sent_space.
    destruct (is_inflight q && is_ack_eliciting q) eqn:E; cbn [ack_eliciting_bytes_in_flight set_eliciting set_time_of_last set_tx_history].
    + apply andb_true_iff in E as [_ E]. rewrite E in Heq. rewrite u64_id; unfold U64_MOD in *; lia.
    + assert (elicit_of q = 0); [|lia]. destruct (is_ack_eliciting q); [|done]. by rewrite Hel in E.
  - unfold sent_space. destruct (_ && _); [apply (po_time _ _ Hq)|done].
Qed.

Lemma inv_sent_with sent pl q h w d a :
  let sp := pkt_space q in
  ackm_inv sent pl [] a -> sel sp (discarded a) = false -> pkt_ok sp q ->
  holds (pk sp a ++ [q]) w h -> cc_valid d -> cc_in_flight d = cc_in_flight (cc_data a) + flight_of q ->
  ackm_inv (ident_of q :: sent) pl [] (sent_with q h d a).
Proof.
  intros sp Hi Hd Hq Hh Hv Hc. pose proof (cc_in_flight_range _ Hv) as Hlt. unfold is_u64 in Hlt.
  pose proof (outstanding_sent q h a (holds_packets _ _ _ Hh)) as Hout.
  destruct (inv_total _ _ _ _ Hi) as (Hb & _ & _). pose proof (space_elicit _ _ _ _ sp Hi) as (Hs1 & Hs2 & Hs3).
  pose proof Hi as [I1 I2 I3 (I4 & I5 & I6) I7 I8]. pose proof (pkt_flight _ _ Hq) as Hqf.
  assert (Hfq : flight_of q = if is_inflight q then num_bytes q else 0) by done.
  assert (Hbf : bytes_in_flight (vars (sent_with q h d a)) = bytes_in_flight (vars a) + flight_of q).
  { cbn [sent_with with_cc upd_vars vars with_tx upd_tx]. rewrite Hfq in *. destruct (is_inflight q); [|lia].
    rewrite set_bytes_get, u64_id; unfold U64_MOD in *; lia. }
  split.
  - intros sp'. assert (Hs : space_ok [] sp' (with_tx (pkt_space q) (sent_space q h (sel (pkt_space q) (tx a))) a)).
    { apply (space_sent _ _ _ w); try done. fold sp. lia. }
    destruct Hs. by split.
  - done.
  - rewrite Hbf, I3. change (outstanding (sent_with q h d a)) with
      (outstanding (with_tx (pkt_space q) (sent_space q h (sel (pkt_space q) (tx a))) a)). rewrite Hout, sum_by_cons. lia.
  - split; [done|]. split; [|done]. rewrite Hbf. cbn [sent_with with_cc cc_data]. lia.
  - change (outstanding (sent_with q h d a)) with
      (outstanding (with_tx (pkt_space q) (sent_space q h (sel (pkt_space q) (tx a))) a)). by rewrite Hout, I7.
  - cbn [sent_with with_cc upd_vars vars statm with_tx upd_tx]. destruct (is_inflight q); [|done]. by destruct (vars a).
Qed.

(** The checks of the parameters. *)
Definition tx_accepted (q : OSSL_ACKM_TX_PKT) a : bool :=
  let t := sel (pkt_space q) (tx a) in
  negb (ossl_time_is_zero (tx_time q) || (ossl_time_compare (time_of_last_ack_eliciting_pkt t) (tx_time q) >? 0))
  && negb (num_bytes q =? 0) && negb (negb (is_inflight q) && is_ack_eliciting q)
  && (pkt_num q >=? watermark (tx_history t)).

Lemma tx_accepted_ok q a : tx_typed q -> tx_accepted q a = true -> pkt_ok (pkt_space q) q.
Proof.
  intros [T1 T2 T3 T4]. unfold tx_accepted. rewrite !andb_true_iff, !negb_true_iff, orb_false_iff, ossl_time_is_zero_spec.
  intros [[[[E1 _] E2] E3] _]. unfold is_u64, OSSL_TIME in *. split; try done; try lia; [|unfold is_u64; lia].
  intros E. rewrite E in E3. by destruct (is_inflight q).
Qed.

(** Everything up to the timer. *)
Lemma tx_packet_refused q a : sel (pkt_space q) (discarded a) = false -> tx_accepted q a = false ->
  ossl_ackm_on_tx_packet now q a = (Err, a).
Proof.
  intros Hd. unfold tx_accepted, ossl_ackm_on_tx_packet. rewrite (bind_ok get _ a a a eq_refl), Hd. cbn [negb assert_].
  rewrite (bind_ok (ret tt) _ a tt a eq_refl). destruct (negb (_ || _)); [|done]. cbn [guard andb].
  rewrite (bind_ok (ret tt) _ a tt a eq_refl). destruct (negb (num_bytes q =? 0)); [|done]. cbn [guard andb].
  rewrite (bind_ok (ret tt) _ a tt a eq_refl). destruct (negb (_ && _)); [|done]. cbn [guard andb].
  rewrite (bind_ok (ret tt) _ a tt a eq_refl). intros E.
  assert (Ea : on_tx (pkt_space q) (zoom tx_history set_tx_history (tx_pkt_history_add q)) a = (Err, a)).
  { unfold on_tx, zoom, tx_pkt_history_add. rewrite (bind_ok get _ _ _ _ eq_refl), E. unfold guard, fail, bind.
    assert (set_tx_history (tx_history (sel (pkt_space q) (tx a))) (sel (pkt_space q) (tx a)) = sel (pkt_space q) (tx a)) as ->
      by (by destruct (sel (pkt_space q) (tx a))).
    f_equal. apply (with_tx_same (pkt_space q) a). }
  by rewrite (bind_err _ _ _ _ Ea).
Qed.

Lemma tx_tail_ok sent pl q h w a : ackm_inv sent pl [] a -> sel (pkt_space q) (discarded a) = false ->
  pkt_ok (pkt_space q) q -> holds (pk (pkt_space q) a ++ [q]) w h -> is_inflight q = true ->
  cc_in_flight (cc_data a) + num_bytes q < U64_MOD ->
  exists d c, ((if is_ack_eliciting q then
       on_tx (pkt_space q) (modify (fun t => set_eliciting (u64 (ack_eliciting_bytes_in_flight t + num_bytes q))
                                      (set_time_of_last (tx_time q) t)))
     else ret tt) ;;;
    on_vars (fun v => set_bytes_in_flight (u64 (bytes_in_flight v + num_bytes q)) v) ;;;
    ackm_set_loss_detection_timer now ;;;
    call_cc (cc_on_data_sent (num_bytes q)))
    (with_tx (pkt_space q) (set_tx_history h (sel (pkt_space q) (tx a))) a) = (Ok tt, c) /\
    ackm_inv (ident_of q :: sent) pl [] c /\ timer_only (sent_with q h d a) c /\ retimed a c.
Proof.
  intros Hi Hd Hq Hh Ei Hc. pose proof (ai_cc _ _ _ _ Hi) as (Hv & _ & _). pose proof (po_bytes _ _ Hq) as Hbq.
  destruct (cc_sent_law (cc_data a) (num_bytes q) Hv) as (d & Ed & Hvd & Hcd); [lia|done|].
  assert (Hid : ackm_inv (ident_of q :: sent) pl [] (sent_with q h d a)).
  { apply (inv_sent_with _ _ _ _ w); try done. unfold flight_of. by rewrite Ei. }
  assert (E1 : forall m : M (OSSL_ACKM D) unit, ((if is_ack_eliciting q then
       on_tx (pkt_space q) (modify (fun t => set_eliciting (u64 (ack_eliciting_bytes_in_flight t + num_bytes q))
                                      (set_time_of_last (tx_time q) t))) else ret tt) ;;;
       on_vars (fun v => set_bytes_in_flight (u64 (bytes_in_flight v + num_bytes q)) v) ;;; m)
       (with_tx (pkt_space q) (set_tx_history h (sel (pkt_space q) (tx a))) a) = m (sent_with q h (cc_data a) a)).
  { intros m. unfold sent_with, sent_space. rewrite Ei. cbn [andb]. destruct (is_ack_eliciting q); [|done].
    rewrite on_tx_step, sel_with_tx, with_tx_twice. done. }
  rewrite E1. clear E1. set (b := sent_with q h (cc_data a) a).
  destruct (set_timer_gen now b) as (c & Ec & To & Tk);
    [intros sp; apply (ai_space _ _ _ _ Hid sp)|apply Hid..|apply (inv_no_eliciting _ _ _ _ Hid)|]. rewrite (bind_ok _ _ _ _ _ Ec).
  pose proof To as [T1 T2 T3 T4 T5 T6 T7]. exists d, (with_cc d c).
  assert (To' : timer_only (sent_with q h d a) (with_cc d c)) by (by split).
  split_and!; [|by eapply timer_only_inv|done|].
  - unfold call_cc, zoom. rewrite T5. change (cc_data b) with (cc_data a). by rewrite (ignore_ok _ _ _ Ed).
  - intros x Hx. apply (same_timer_ok x c); [done..|]. apply Tk. revert Hx. unfold b, sent_with. cbn [with_cc upd_vars with_tx upd_tx vars]. rewrite Ei. by destruct (vars a).
Qed.

Lemma tx_packet_accepted sent pl q a : ackm_inv sent pl [] a -> sel (pkt_space q) (discarded a) = false -> tx_typed q ->
  zlen (pk (pkt_space q) a) + 1 < 2 ^ 29 -> cc_in_flight (cc_data a) + num_bytes q < U64_MOD -> tx_accepted q a = true ->
  exists a', ossl_ackm_on_tx_packet now q a = (Ok tt, a') /\ ackm_inv (ident_of q :: sent) pl [] a' /\
    (forall w, timer_ok w a -> timer_ok w a') /\ rx a' = rx a /\ discarded a' = discarded a /\ reports (log a') = reports (log a) /\
    pk (pkt_space q) a' = pk (pkt_space q) a ++ [q] /\ (forall sp, sp <> pkt_space q -> pk sp a' = pk sp a).
Proof.
  intros Hi Hd Ht Hz Hc Ha. pose proof (tx_accepted_ok q a Ht Ha) as Hq.
  destruct (so_hist _ _ _ (ai_space _ _ _ _ Hi (pkt_space q)) Hd) as [w Hh].
  pose proof (ai_cc _ _ _ _ Hi) as (Hv & _ & _). pose proof (po_bytes _ _ Hq) as Hbq. pose proof (tt_num _ Ht) as Hnq.
  unfold tx_accepted in Ha. rewrite !andb_true_iff in Ha. destruct Ha as [[[A1 A2] A3] A4]. rewrite (holds_watermark _ _ _ Hh) in A4.
  destruct (add_ok _ w _ q Hh) as (h & Eh & Hh'); [lia|done|].
  unfold ossl_ackm_on_tx_packet. rewrite (bind_ok get _ a a a eq_refl), Hd, A1, A2, A3. cbn [negb assert_ guard].
  rewrite !(bind_ok (ret tt) _ a tt a eq_refl).
  assert (Ea : on_tx (pkt_space q) (zoom tx_history set_tx_history (tx_pkt_history_add q)) a
               = (Ok tt, with_tx (pkt_space q) (set_tx_history h (sel (pkt_space q) (tx a))) a)).
  { unfold on_tx, zoom. by rewrite Eh. }
  rewrite (bind_ok _ _ _ _ _ Ea). clear Ea.
  assert (Hpk : forall d sp, pk sp (sent_with q h d a) = if decide (pkt_space q = sp) then pk (pkt_space q) a ++ [q] else pk sp a).
  { intros d sp. change (pk sp (sent_with q h d a)) with (pk sp (with_tx (pkt_space q) (sent_space q h (sel (pkt_space q) (tx a))) a)).
    rewrite pk_with_tx, <-(holds_packets _ _ _ Hh'). unfold sent_space. by destruct (is_inflight q && is_ack_eliciting q). }
  destruct (is_inflight q) eqn:Ei.
  - destruct (tx_tail_ok sent pl q h _ a Hi Hd Hq Hh' Ei Hc) as (d & c & Ec & Hic & To & Tk). exists c.
    split_and!; try done; [intros w'; by apply retimed_ok|apply (to_rx _ _ To)|apply (to_discarded _ _ To)|apply (to_reports _ _ To)|..].
    + by rewrite (timer_only_pk _ _ _ To), Hpk, decide_True.
    + intros sp Hne. by rewrite (timer_only_pk _ _ _ To), Hpk, decide_False.
  - exists (sent_with q h (cc_data a) a).
    assert (Es : sent_with q h (cc_data a) a = with_tx (pkt_space q) (set_tx_history h (sel (pkt_space q) (tx a))) a).
    { unfold sent_with, sent_space. rewrite Ei. cbn [andb]. by destruct a. }
    split_and!; try done.
    + by rewrite Es.
    + apply (inv_sent_with sent pl q h _ _ a Hi Hd Hq Hh' Hv). unfold flight_of. rewrite Ei. lia.
    + intros w'. rewrite Es. apply same_timer_ok; [by apply same_timer_tx|done].
    + by rewrite Hpk, decide_True.
    + intros sp Hne. by rewrite Hpk, decide_False.
Qed.

(** ** Discarding a space *)

Lemma discard_loop_ok l : forall n a,
  Forall (fun q => exists sp, pkt_ok sp q) l -> flight l <= bytes_in_flight (vars a) < U64_MOD ->
  0 <= n -> n + flight l < U64_MOD ->
  discard_loop l n a = (Ok (n + flight l),
    mkAckm (tx a) (rx a) (discarded a) (set_bytes_in_flight (bytes_in_flight (vars a) - flight l) (vars a)) (statm a)
      (cc_data a) (reverse (discarded_cb <$> l) ++ log a) (readings a)).
Proof.
  induction l as [|q l IH]; intros n a Hl Hb Hn Hlt.
  { change (flight []) with 0 in *. rewrite Z.add_0_r, Z.sub_0_r. cbn. by destruct a as [? ? ? [] ? ? ? ?]. }
  apply Forall_cons_1 in Hl as [[sp Hq] Hl]. rewrite sum_by_cons in *. pose proof (pkt_flight _ _ Hq) as Hqf.
  pose proof (flight_nonneg _ Hl) as Hln. assert (Hfq : flight_of q = if is_inflight q then num_bytes q else 0) by done.
  cbn [discard_loop]. revert Hfq. destruct (is_inflight q); intros Hfq.
  - rewrite on_vars_step. unfold call_back, modify, bind, upd_vars. cbn [tx rx discarded vars statm cc_data log readings].
    rewrite !u64_id by (unfold U64_MOD in *; lia).
    rewrite IH; cbn [vars]; rewrite ?set_bytes_get; [|done|lia..].
    rewrite fmap_cons, reverse_cons, <-app_assoc. cbn [app tx rx discarded statm cc_data log readings].
    rewrite Hfq, !Z.add_assoc, Z.sub_add_distr. by destruct (vars a).
  - rewrite (bind_ok (ret tt) _ a tt a eq_refl). unfold call_back, modify, bind.
    rewrite IH; cbn [vars]; [|done|lia..].
    rewrite fmap_cons, reverse_cons, <-app_assoc. cbn [app tx rx discarded statm cc_data log readings].
    rewrite Hfq, Z.add_0_l. done.
Qed.

(** The state after the space [sp] was discarded, before the timer is set. *)
Definition discarded_with (sp : pn_space) (h : tx_pkt_history_st) (r : rx_pkt_history_st) (d : D) a : OSSL_ACKM D :=
  let v := if bool_decide (sp = QUIC_PN_SPACE_HANDSHAKE) then set_completed true (vars a) else vars a in
  mkAckm
    (upd_at sp (mkTxSpace h (largest_acked_pkt (sel sp (tx a))) 0 0 0 (peer_ecnce (sel sp (tx a)))) (tx a))
    (upd_at sp (set_rx_history r (sel sp (rx a))) (rx a)) (upd_at sp true (discarded a))
    (set_pto_count 0 (set_bytes_in_flight (bytes_in_flight (vars a) - flight (pk sp a)) v))
    (statm a) d (reverse (discarded_cb <$> pk sp a) ++ log a) (readings a).

Lemma fates_discarded l k : fates (reverse (discarded_cb <$> l) ++ k) ≡ₚ (ident_of <$> l) ++ fates k.
Proof.
  unfold fates. rewrite omap_app. f_equiv. rewrite reverse_Permutation.
  induction l as [|q l IH]; [done|]. cbn. by rewrite <-IH.
Qed.

Lemma inv_discarded_with sent pl sp h r d a : ackm_inv sent pl [] a -> sel sp (discarded a) = false ->
  packets h = [] -> cc_valid d -> cc_in_flight d = cc_in_flight (cc_data a) - flight (pk sp a) ->
  ackm_inv sent pl [] (discarded_with sp h r d a).
Proof.
  intros Hi Hd Hh Hv Hc. pose proof Hi as [I1 I2 I3 (I4 & I5 & I6) I7 (I8 & I9 & I10)].
  set (t := mkTxSpace h (largest_acked_pkt (sel sp (tx a))) 0 0 0 (peer_ecnce (sel sp (tx a)))).
  assert (Hout : outstanding a ≡ₚ pk sp a ++ outstanding (with_tx sp t a)).
  { apply outstanding_with_tx. cbn [t tx_history]. by rewrite Hh, app_nil_r. }
  assert (Hbf : bytes_in_flight (vars (discarded_with sp h r d a)) = bytes_in_flight (vars a) - flight (pk sp a)).
  { cbn [discarded_with vars]. destruct (bool_decide _); by destruct (vars a). }
  split.
  - intros sp'. destruct (I1 sp') as [S1 S2 S3 S4 S5 S6 S7 S8]. destruct (decide (sp = sp')) as [<-|Hne].
    + split; unfold pk; cbn [discarded_with tx rx discarded]; rewrite ?sel_upd_eq; cbn [tx_history loss_time largest_acked_pkt
        ack_eliciting_bytes_in_flight time_of_last_ack_eliciting_pkt]; rewrite ?Hh; try done.
    + split; unfold pk; cbn [discarded_with tx rx discarded]; rewrite ?sel_upd_ne by done; done.
  - done.
  - rewrite Hbf, I3. change (outstanding (discarded_with sp h r d a)) with (outstanding (with_tx sp t a)).
    rewrite Hout, sum_by_app. lia.
  - split; [done|]. rewrite Hbf. cbn [discarded_with cc_data]. lia.
  - change (outstanding (discarded_with sp h r d a)) with (outstanding (with_tx sp t a)). cbn [discarded_with log].
    rewrite fates_discarded, I7, Hout, !app_nil_r, fmap_app. solve_Permutation.
  - cbn [discarded_with vars statm]. destruct (bool_decide _); by destruct (vars a).
Qed.

Lemma reports_discarded l k : reports (reverse (discarded_cb <$> l) ++ k) = reverse (discarded_cb <$> l) ++ reports k.
Proof. apply reports_all. rewrite Forall_reverse, Forall_fmap. apply Forall_forall. intros q _. by eexists. Qed.

Lemma discard_steps sp h d n a :
  sel sp (discarded a) = false ->
  tx_pkt_history_destroy (tx_history (sel sp (tx a))) = (Ok tt, h) ->
  (if n >? 0 then cc_on_data_invalidated n (cc_data a) = (Ok tt, d) else d = cc_data a) ->
  let v := if bool_decide (sp = QUIC_PN_SPACE_HANDSHAKE) then set_completed true (vars a) else vars a in
  discard_loop (pk sp a) 0 (upd_vars (fun _ => v) a) = (Ok n,
    mkAckm (tx a) (rx a) (discarded a) (set_bytes_in_flight (bytes_in_flight v - flight (pk sp a)) v) (statm a)
      (cc_data a) (reverse (discarded_cb <$> pk sp a) ++ log a) (readings a)) ->
  exists r, ossl_ackm_on_pkt_space_discarded now sp a = ackm_set_loss_detection_timer now (discarded_with sp h r d a).
Proof.
  intros Hd Eh Ed v El. eexists. unfold ossl_ackm_on_pkt_space_discarded. rewrite (bind_ok get _ a a a eq_refl), Hd. cbn [negb guard].
  rewrite (bind_ok (ret tt) _ a tt a eq_refl).
  assert (Ev : (if bool_decide (sp = QUIC_PN_SPACE_HANDSHAKE) then on_vars (set_completed true) else ret tt) a = (Ok tt, upd_vars (fun _ => v) a)).
  { unfold v. destruct (bool_decide _); [done|]. by destruct a. }
  rewrite (bind_ok _ _ _ _ _ Ev). fold (pk sp a). rewrite (bind_ok _ _ _ _ _ El).
  set (a1 := mkAckm (tx a) (rx a) _ _ _ _ _ _).
  assert (E1 : on_tx sp (zoom tx_history set_tx_history tx_pkt_history_destroy) a1
               = (Ok tt, with_tx sp (set_tx_history h (sel sp (tx a))) a1)).
  { unfold on_tx, zoom. change (tx a1) with (tx a). by rewrite Eh. }
  rewrite (bind_ok _ _ _ _ _ E1). clear E1. set (a2 := with_tx _ _ a1).
  assert (E2 : on_rx sp (zoom rx_history set_rx_history rx_pkt_history_destroy) a2
               = (Ok tt, with_rx sp (snd (rx_pkt_history_destroy (rx_history (sel sp (rx a))))) a2)) by done.
  rewrite (bind_ok _ _ _ _ _ E2). clear E2. set (a3 := with_rx _ _ a2).
  assert (Ec : (if n >? 0 then call_cc (cc_on_data_invalidated n) else ret tt) a3 = (Ok tt, with_cc d a3)).
  { destruct (n >? 0).
    - unfold call_cc, zoom. change (cc_data a3) with (cc_data a). by rewrite (ignore_ok _ _ _ Ed).
    - subst d. done. }
  rewrite (bind_ok _ _ _ _ _ Ec), on_tx_step, on_vars_step. clear Ec Ev El Eh Ed. set (a4 := upd_vars _ _).
  set (a5 := mkAckm (tx a4) (rx a4) (upd_at sp true (discarded a4)) (vars a4) (statm a4) (cc_data a4) (log a4) (readings a4)).
  transitivity ((on_tx sp (modify (set_eliciting 0)) ;;; ackm_set_loss_detection_timer now) a5); [done|].
  rewrite on_tx_step. apply (f_equal (ackm_set_loss_detection_timer now)). unfold discarded_with. fold v.
  replace (bytes_in_flight (vars a)) with (bytes_in_flight v) by (unfold v; destruct (bool_decide _); by destruct (vars a)).
  subst a1 a2 a3 a4 a5. clearbody v. destruct a as [[] ? ? ? ? ? ? ?]. by destruct sp.
Qed.

Lemma on_pkt_space_discarded_ok sent pl sp a : ackm_inv sent pl [] a ->
  exists r a', ossl_ackm_on_pkt_space_discarded now sp a = (r, a') /\
    if sel sp (discarded a) then r = Err /\ a' = a
    else r = Ok tt /\ ackm_inv sent pl [] a' /\ retimed a a' /\ discarded a' = upd_at sp true (discarded a) /\
      pk sp a' = [] /\ (forall sp', sp' <> sp -> pk sp' a' = pk sp' a) /\
      (forall sp', sp' <> sp -> sel sp' (rx a') = sel sp' (rx a)) /\
      reports (log a') = reverse (discarded_cb <$> pk sp a) ++ reports (log a).
Proof.
  intros Hi. destruct (sel sp (discarded a)) eqn:Hd.
  { exists Err, a. split; [|done]. unfold ossl_ackm_on_pkt_space_discarded. rewrite (bind_ok get _ a a a eq_refl), Hd. done. }
  pose proof (ai_space _ _ _ _ Hi sp) as [S1 _ _ S4 _ _ _ _]. destruct (S1 Hd) as [w Hh].
  destruct (destroy_ok _ _ _ Hh) as (h & Eh & Ph). pose proof Hi as [_ _ I3 (I4 & I5 & I6) _ _].
  destruct (inv_total _ _ _ _ Hi) as (Hb & _ & _). destruct (inv_pkts _ _ _ _ Hi) as [Ho _].
  assert (Hpk : forall sp', Forall (fun q => exists sp, pkt_ok sp q) (pk sp' a)).
  { intros sp'. eapply Forall_impl; [apply (so_pkts _ _ _ (ai_space _ _ _ _ Hi sp'))|eauto]. }
  assert (Hf : 0 <= flight (pk sp a) <= bytes_in_flight (vars a)).
  { pose proof (flight_nonneg _ (Hpk QUIC_PN_SPACE_INITIAL)). pose proof (flight_nonneg _ (Hpk QUIC_PN_SPACE_HANDSHAKE)).
    pose proof (flight_nonneg _ (Hpk QUIC_PN_SPACE_APP)). rewrite I3, outstanding_sum. change (flight []) with 0. destruct sp; lia. }
  assert (Hcc : exists d, (if flight (pk sp a) >? 0 then cc_on_data_invalidated (flight (pk sp a)) (cc_data a) = (Ok tt, d) else d = cc_data a) /\
    cc_valid d /\ cc_in_flight d = cc_in_flight (cc_data a) - flight (pk sp a)).
  { destruct (Z.gtb_spec (flight (pk sp a)) 0); [|exists (cc_data a); split_and!; done || lia].
    destruct (cc_invalidated_law (cc_data a) (flight (pk sp a)) I4) as (d & Ed & Hv & Hc); [lia|]. by exists d. }
  destruct Hcc as (d & Ed & Hv & Hc).
  destruct (discard_steps sp h d (flight (pk sp a)) a Hd Eh Ed) as [r Er].
  { set (v := if bool_decide _ then _ else _).
    assert (bytes_in_flight v = bytes_in_flight (vars a)) as Ev by (unfold v; destruct (bool_decide _); by destruct (vars a)).
    rewrite (discard_loop_ok _ 0); cbn [upd_vars vars]; rewrite ?Ev; try done; lia. }
  rewrite Er. pose proof (inv_discarded_with sent pl sp h r d a Hi Hd Ph Hv Hc) as Hi1.
  destruct (set_timer_ok now _ _ _ _ Hi1) as (a' & Et & To & Tk). exists (Ok tt), a'. split; [done|].
  pose proof To as [T1 T2 T3 _ _ _ T7]. split_and!; try done.
  - by eapply timer_only_inv.
  - intros x Hx. apply Tk. revert Hx. unfold discarded_with. cbn [vars]. destruct (bool_decide _); by destruct (vars a).
  - rewrite (timer_only_pk _ _ _ To). unfold pk. cbn [discarded_with tx]. by rewrite sel_upd_eq.
  - intros sp' Hne. rewrite (timer_only_pk _ _ _ To). unfold pk. cbn [discarded_with tx]. by rewrite sel_upd_ne.
  - intros sp' Hne. rewrite T2. cbn [discarded_with rx]. by rewrite sel_upd_ne.
  - rewrite T7. cbn [discarded_with log]. apply reports_discarded.
Qed.

(** ** The handshake and timeouts *)

Lemma on_handshake_confirmed_ok sent pl a : ackm_inv sent pl [] a ->
  exists a', ossl_ackm_on_handshake_confirmed now a = (Ok tt, a') /\ ackm_inv sent pl [] a' /\ retimed a a' /\
    tx a' = tx a /\ rx a' = rx a /\ discarded a' = discarded a /\ reports (log a') = reports (log a).
Proof.
  intros Hi. unfold ossl_ackm_on_handshake_confirmed. rewrite on_vars_step. set (a1 := upd_vars _ a).
  assert (Hi1 : ackm_inv sent pl [] a1) by (apply inv_keep_vars; [done|..]; by destruct (vars a)).
  destruct (set_timer_ok now _ _ _ _ Hi1) as (a' & Et & To & Tk). exists a'. pose proof To as [T1 T2 T3 _ _ _ T7].
  split_and!; try done; [by eapply timer_only_inv|]. intros w Hw. apply Tk. revert Hw. cbn [a1 upd_vars vars]. by destruct (vars a).
Qed.

Lemma loss_time_of a : fst (ackm_get_loss_time_and_space a) = loss_time (sel (snd (ackm_get_loss_time_and_space a)) (tx a)).
Proof. unfold ackm_get_loss_time_and_space. cbn [fold_left]. destruct (_ || _); by destruct (_ || _). Qed.

(** The packets that a timeout declares lost in the space [sp]. *)
Definition expired (sp : pn_space) a (q : OSSL_ACKM_TX_PKT) : Prop :=
  lost (largest_acked_pkt (sel sp (tx a))) (loss_deadline_of now (readings a) (statm a)) q.
#[export] Instance expired_dec sp a q : Decision (expired sp a q).
Proof. unfold expired. apply _. Defined.

Lemma lost_timer_ok sent pl sp l b : ackm_inv sent pl (l ++ []) b ->
  exists a', (match l with [] => ret tt | _ => ackm_on_pkts_lost sp l false end ;;; ackm_set_loss_detection_timer now) b
      = (Ok tt, a') /\ ackm_inv sent pl [] a' /\ retimed b a' /\ rx a' = rx b /\ discarded a' = discarded b /\
    vars a' = set_deadline (loss_detection_deadline (vars a')) (set_bytes_in_flight (bytes_in_flight (vars a')) (vars b)) /\
    (forall sp', pk sp' a' = pk sp' b) /\ reports (log a') = reverse (lost_cb <$> l) ++ reports (log b).
Proof.
  intros Hi. destruct (report_lost_ok sp sent l pl [] b Hi) as (c & Ec & Hic & Sc & Rc & Lc). rewrite (bind_ok _ _ _ _ _ Ec).
  destruct (set_timer_ok now _ _ _ _ Hic) as (a' & Et & To & Tk). pose proof To as [_ T2 T3 _ _ [d T6] T7].
  destruct (se_vars _ _ Sc) as [n Ev]. exists a'. split_and!; try done.
  - by eapply timer_only_inv.
  - intros w Hw. apply Tk. rewrite Ev. by destruct (vars b).
  - by rewrite T2.
  - rewrite T3. apply (se_discarded _ _ Sc).
  - rewrite T6, Ev. by destruct (vars b).
  - intros sp'. rewrite (timer_only_pk _ _ _ To). by apply settled_pk.
  - rewrite T7, Lc. apply reports_lost.
Qed.

Lemma timeout_lost_ok sent pl a : ackm_inv sent pl [] a -> fst (ackm_get_loss_time_and_space a) <> 0 ->
  let sp := snd (ackm_get_loss_time_and_space a) in
  exists a', ossl_ackm_on_timeout now a = (Ok tt, a') /\ ackm_inv sent pl [] a' /\ retimed a a' /\
    rx a' = rx a /\ discarded a' = discarded a /\ vars a' = set_deadline (loss_detection_deadline (vars a'))
      (set_bytes_in_flight (bytes_in_flight (vars a')) (vars a)) /\
    pk sp a' = filter (fun q => ~ expired sp a q) (pk sp a) /\ (forall sp', sp' <> sp -> pk sp' a' = pk sp' a) /\
    reports (log a') = reverse (lost_cb <$> filter (expired sp a) (pk sp a)) ++ reports (log a).
Proof.
  intros Hi Hne sp. pose proof (loss_time_of a) as El. fold sp in El. rewrite El in Hne.
  pose proof (ai_space _ _ _ _ Hi sp) as [_ _ S3 _ _ _ [_ S7] _].
  assert (Hd : sel sp (discarded a) = false).
  { destruct (sel sp (discarded a)); [|done]. by destruct (S3 eq_refl). }
  destruct (detect_lost_ok now sent pl [] a sp Hi Hd (S7 Hne)) as (t & Et & Pt & _ & _ & Hit).
  fold (expired sp a) in Et, Pt, Hit. set (b := with_tx sp t (tick a)) in *.
  unfold ossl_ackm_on_timeout. rewrite (bind_ok get _ a a a eq_refl). unfold sp in *. clear S3 S7.
  destruct (ackm_get_loss_time_and_space a) as [lt sp'] eqn:Eg. cbn [fst snd] in *. subst lt.
  rewrite ossl_time_is_zero_spec. replace (loss_time (sel sp' (tx a)) =? 0) with false by lia. cbn [negb].
  rewrite (bind_ok _ _ _ _ _ Et). destruct (lost_timer_ok sent pl sp' _ b Hit) as (a' & Ea & Ia & Ta & Ra & Da & Va & Pa & La).
  exists a'. split_and!; try done.
  - rewrite Pa. unfold b. by rewrite pk_with_tx, decide_True.
  - intros sp1 Hsp. rewrite Pa. unfold b. by rewrite pk_with_tx, decide_False.
Qed.

(** One more probe: against a deadlock when nothing that must be acknowledged is in
    flight, and for some space otherwise. *)
Definition probed (p : OSSL_ACKM_PROBE_INFO) a : Prop :=
  let p0 := pending_probe (vars a) in
  if decide (ackm_ack_eliciting_bytes_in_flight a = 0)
  then p = (if sel QUIC_PN_SPACE_INITIAL (discarded a)
            then mkProbe (anti_deadlock_initial p0) (u32 (anti_deadlock_handshake p0 + 1)) (pto p0)
            else mkProbe (u32 (anti_deadlock_initial p0 + 1)) (anti_deadlock_handshake p0) (pto p0))
  else exists sp, p = mkProbe (anti_deadlock_initial p0) (anti_deadlock_handshake p0)
                       (upd_at sp (u32 (sel sp (pto p0) + 1)) (pto p0)).

Lemma queue_probe_ok a : (ackm_ack_eliciting_bytes_in_flight a = 0 -> peer_completed_addr_validation (vars a) = false) ->
  exists p, probed p a /\
    (if ackm_ack_eliciting_bytes_in_flight a =? 0 then
       assert_ (negb (peer_completed_addr_validation (vars a))) ;;;
       if sel QUIC_PN_SPACE_INITIAL (discarded a) then ackm_queue_probe_anti_deadlock_handshake
       else ackm_queue_probe_anti_deadlock_initial
     else
       let! timeout := ackm_get_pto_time_and_space now in
       ackm_queue_probe (snd timeout)) a = (Ok tt, upd_vars (set_probe p) a).
Proof.
  intros Hp. unfold probed. destruct (Z.eqb_spec (ackm_ack_eliciting_bytes_in_flight a) 0) as [E|E].
  - rewrite (Hp E). cbn [negb assert_]. rewrite (bind_ok (ret tt) _ a tt a eq_refl).
    destruct (sel _ _); eexists; (split; [by rewrite decide_True|done]).
  - unfold ackm_get_pto_time_and_space. unfold bind at 1. rewrite (bind_ok get _ a a a eq_refl).
    destruct (Z.eqb_spec (ackm_ack_eliciting_bytes_in_flight a) 0) as [|_]; [done|]. unfold ret.
    eexists. split; [rewrite decide_False by done; by eexists|]. done.
Qed.

Lemma timeout_probe_ok sent pl w a : ackm_inv sent pl [] a -> timer_ok w a -> loss_detection_deadline (vars a) <> 0 ->
  fst (ackm_get_loss_time_and_space a) = 0 ->
  exists a', ossl_ackm_on_timeout now a = (Ok tt, a') /\ ackm_inv sent pl [] a' /\ retimed a a' /\
    tx a' = tx a /\ rx a' = rx a /\ discarded a' = discarded a /\ reports (log a') = reports (log a) /\
    probed (pending_probe (vars a')) a /\ pto_count (vars a') = u32 (pto_count (vars a) + 1).
Proof.
  intros Hi (_ & _ & Ht & _) Hd Hz. unfold ossl_ackm_on_timeout. rewrite (bind_ok get _ a a a eq_refl).
  specialize (Ht Hd). destruct (ackm_get_loss_time_and_space a) as [lt sp] eqn:Eg. cbn [fst] in *. subst lt.
  rewrite ossl_time_is_zero_spec. cbn [Z.eqb negb].
  destruct (queue_probe_ok a) as (p & Hp & E); [intros E0; by destruct Ht as [?|[?|?]]|]. rewrite (bind_ok _ _ _ _ _ E), on_vars_step.
  set (b := upd_vars _ (upd_vars _ a)).
  assert (Hib : ackm_inv sent pl [] b).
  { pose proof (ai_vars _ _ _ _ Hi) as (V1 & V2 & _). apply inv_vars; cbn [upd_vars vars].
    - apply inv_keep_vars; [done|..]; by destruct (vars a).
    - by destruct (vars a).
    - destruct (vars a). apply Z.mod_pos_bound. done.
    - by destruct (vars a). }
  destruct (set_timer_ok now _ _ _ _ Hib) as (a' & Et & To & Tk). exists a'. pose proof To as [T1 T2 T3 _ _ [d T6] T7].
  split_and!; try done.
  - by eapply timer_only_inv.
  - intros x Hx. apply Tk. revert Hx. cbn [b upd_vars vars]. by destruct (vars a).
  - rewrite T6. cbn [b upd_vars vars]. by destruct (vars a).
  - rewrite T6. cbn [b upd_vars vars]. by destruct (vars a).
Qed.

(** ** Packets declared lost by the caller *)

Lemma ascending_split l q : ascending l -> q ∈ l -> l ≡ₚ [q] ++ filter (other (pkt_num q)) l.
Proof.
  intros Hs [k Hk]%elem_of_Permutation. pose proof (ascending_NoDup _ Hs) as Hn. rewrite Hk in Hn. cbn in Hn.
  apply NoDup_cons in Hn as [Hn _]. rewrite Hk at 2. rewrite filter_cons_False by (unfold other; tauto).
  rewrite filter_all; [done|]. intros x Hx Ex. apply Hn. rewrite <-Ex. by apply list_elem_of_fmap_2.
Qed.

(** Before the peer's address is validated, packets may leave without setting the timer. *)
Lemma fewer_timer_ok sent sent' pl pl' w a a' : ackm_inv sent pl [] a -> ackm_inv sent' pl' [] a' ->
  timer_ok w a -> peer_completed_addr_validation (vars a) = false ->
  (forall sp, elicit (pk sp a') <= elicit (pk sp a)) ->
  loss_detection_deadline (vars a') = loss_detection_deadline (vars a) ->
  peer_completed_addr_validation (vars a') = peer_completed_addr_validation (vars a) ->
  pto_count (vars a') = pto_count (vars a) -> handshake_confirmed (vars a') = handshake_confirmed (vars a) ->
  rx_max_ack_delay (vars a') = rx_max_ack_delay (vars a) -> statm a' = statm a ->
  (forall sp, loss_time (sel sp (tx a')) = loss_time (sel sp (tx a)) /\
     time_of_last_ack_eliciting_pkt (sel sp (tx a')) = time_of_last_ack_eliciting_pkt (sel sp (tx a))) ->
  timer_ok w a'.
Proof.
  intros Hi Hi' (Hw & Ha & _ & Hp) Hv Hle E1 E2 E3 E4 E5 E6 Hsp.
  assert (Hel : forall sp, ack_eliciting_bytes_in_flight (sel sp (tx a')) <= ack_eliciting_bytes_in_flight (sel sp (tx a)) /\
    0 <= ack_eliciting_bytes_in_flight (sel sp (tx a'))).
  { intros sp. rewrite (so_elicit _ _ _ (ai_space _ _ _ _ Hi sp)), (so_elicit _ _ _ (ai_space _ _ _ _ Hi' sp)).
    change (elicit (of_space sp [])) with 0. specialize (Hle sp). destruct (space_elicit _ _ _ _ sp Hi') as [? _]. lia. }
  split; [by rewrite E5|]. split; [|split].
  - intros Hne. rewrite E1. apply Ha. destruct (inv_total _ _ _ _ Hi) as (_ & -> & _). destruct (inv_total _ _ _ _ Hi') as (_ & Et & Hn).
    rewrite Et in Hne. change (elicit []) with 0 in *. rewrite outstanding_sum in *.
    pose proof (Hle QUIC_PN_SPACE_INITIAL). pose proof (Hle QUIC_PN_SPACE_HANDSHAKE). pose proof (Hle QUIC_PN_SPACE_APP). lia.
  - intros _. right. right. by rewrite E2.
  - apply (prompt_mono w w a); try done. intros sp. destruct (Hsp sp), (Hel sp). split_and!; try done. lia.
Qed.

Lemma mark_pseudo_lost_ok sent pl sp pn a : ackm_inv sent pl [] a -> sel sp (discarded a) = false ->
  exists r a', ossl_ackm_mark_packet_pseudo_lost sp pn a = (r, a') /\ rx a' = rx a /\ discarded a' = discarded a /\
    (forall w, timer_ok w a -> peer_completed_addr_validation (vars a) = false -> timer_ok w a') /\
    match pkt_map (pk sp a) !! pn with
    | None => r = Err /\ ackm_inv sent pl [] a' /\ log a' = log a /\ forall sp', pk sp' a' = pk sp' a
    | Some q => r = Ok tt /\ ackm_inv sent (pl + flight_of q) [] a' /\ log a' = lost_cb q :: log a /\
        pk sp a' = filter (other pn) (pk sp a) /\ forall sp', sp' <> sp -> pk sp' a' = pk sp' a
    end.
Proof.
  intros Hi Hd. pose proof (ai_space _ _ _ _ Hi sp) as [S1 _ _ _ _ S6 [S7 S7'] _]. destruct (S1 Hd) as [w Hh].
  destruct (by_pkt_num_ok _ w _ pn Hh) as (h & Eh & Hh').
  set (b := with_tx sp (set_tx_history h (sel sp (tx a))) a).
  assert (Eb : in_tx_history sp (tx_pkt_history_by_pkt_num pn) a = (Ok (pkt_map (pk sp a) !! pn), b)).
  { unfold in_tx_history, bind, get. rewrite Hd. cbn [negb assert_ ret]. unfold on_tx, zoom. by rewrite Eh. }
  assert (Hib : ackm_inv sent pl [] b) by (apply inv_tx_space; try done; by exists w).
  assert (Pb : forall sp', pk sp' b = pk sp' a).
  { intros sp'. unfold b. rewrite pk_with_tx. case_decide as E; [subst sp'; apply (holds_packets _ _ _ Hh')|done]. }
  unfold ossl_ackm_mark_packet_pseudo_lost. rewrite (bind_ok _ _ _ _ _ Eb).
  destruct (pkt_map (pk sp a) !! pn) as [q|] eqn:Eq.
  2: { exists Err, b. split_and!; try done. intros w' Ht _. revert Ht. apply same_timer_ok; [by apply same_timer_tx|done]. }
  apply pkt_map_lookup in Eq as [Hq <-]; [|apply (holds_sorted _ _ _ Hh)].
  destruct (remove_ok _ w h q Hh' Hq) as (h2 & E2 & Hh2). set (c := with_tx sp (set_tx_history h2 (sel sp (tx b))) b).
  assert (Esb : sel sp (tx b) = set_tx_history h (sel sp (tx a))) by apply sel_with_tx.
  assert (Ec : in_tx_history sp (ignore (tx_pkt_history_remove (pkt_num q))) b = (Ok tt, c)).
  { unfold in_tx_history, bind, get. cbn [b with_tx upd_tx discarded]. rewrite Hd. cbn [negb assert_ ret]. unfold on_tx, zoom.
    unfold c. rewrite Esb. cbn [set_tx_history tx_history]. by rewrite (ignore_ok _ _ _ E2). }
  assert (Hic : ackm_inv sent pl ([q] ++ []) c).
  { unfold c, b. rewrite with_tx_twice. apply (inv_detect sent pl [] a sp _ (filter (other (pkt_num q)) (pk sp a)) w [q]); rewrite ?sel_with_tx; try done.
    apply ascending_split; [apply (holds_sorted _ _ _ Hh)|done]. }
  assert (Pc : forall sp', pk sp' c = if decide (sp = sp') then filter (other (pkt_num q)) (pk sp a) else pk sp' a).
  { intros sp'. unfold c. rewrite pk_with_tx. case_decide; [apply (holds_packets _ _ _ Hh2)|apply Pb]. }
  rewrite (bind_ok _ _ _ _ _ Ec). destruct (on_pkts_lost_ok sp true sent [q] pl [] c Hic) as (d & Ed & Hid & Sd & Rd & Ld).
  rewrite sum_by_cons in Hid. change (flight []) with 0 in Hid. rewrite Z.add_0_r in Hid.
  exists (Ok tt), d. rewrite Ed. destruct (se_vars _ _ Sd) as [n En].
  split_and!; try done.
  - by rewrite (se_discarded _ _ Sd).
  - intros w' Ht Hp.
    assert (Evd : loss_detection_deadline (vars d) = loss_detection_deadline (vars a) /\
      peer_completed_addr_validation (vars d) = peer_completed_addr_validation (vars a) /\
      pto_count (vars d) = pto_count (vars a) /\ handshake_confirmed (vars d) = handshake_confirmed (vars a) /\
      rx_max_ack_delay (vars d) = rx_max_ack_delay (vars a)).
    { rewrite En. change (vars c) with (vars a). by destruct (vars a). }
    assert (Hle : forall sp', elicit (pk sp' d) <= elicit (pk sp' a)).
    { intros sp'. rewrite (settled_pk _ _ _ Sd), Pc. case_decide as E; [subst sp'|done].
      assert (Ho : elicit (pk sp a) = elicit_of q + elicit (filter (other (pkt_num q)) (pk sp a))).
      { rewrite <-sum_by_cons. apply sum_by_proper, ascending_split; [apply (holds_sorted _ _ _ Hh)|done]. }
      destruct (inv_pkts _ _ _ _ Hic) as [_ Hqo]. apply Forall_cons_1 in Hqo as [[sq Hqo] _]. pose proof (pkt_flight _ _ Hqo). lia. }
    apply (fewer_timer_ok sent sent pl (pl + flight_of q) w' a d); try done; [apply Evd..|apply (se_statm _ _ Sd)|].
    intros sp'. destruct (se_tx _ _ Sd sp') as [k ->]. unfold c. cbn [with_tx upd_tx tx].
    destruct (decide (sp = sp')) as [<-|Hne]; [by rewrite sel_upd_eq, Esb|].
    rewrite sel_upd_ne by done. unfold b. cbn [with_tx upd_tx tx]. by rewrite sel_upd_ne.
  - by rewrite (settled_pk _ _ _ Sd), Pc, decide_True.
  - intros sp' Hne. by rewrite (settled_pk _ _ _ Sd), Pc, decide_False.
Qed.

End Transmit.
