(* ===== verification/AckmRuns.v ===== *)
(** The receive side of the acknowledgement manager, and runs of its operations:
    the accounts of packets and bytes, duplicate detection, the frames generated and
    the timer. *)

From stdpp Require Import base list numbers gmap sorting.
From Stdlib Require Import ZArith Lia.
From S2P Require Import Prelude SafeMath Vlint Wire Frames UintSet Statm NewReno LHash Ackm AckmTheory AckmInv AckmTx.

#[local] Open Scope cfun_scope.

Section Receive.
Context {D : Type} `{CongestionControlLaws D}.
Context (now : nat -> OSSL_TIME) (now_range : forall n, is_u64 (now n)).
Implicit Types a : OSSL_ACKM D.

(** ** What receiving may change *)

Record rx_only (sp : pn_space) a a' : Prop := {
  ro_tx : tx a' = tx a;
  ro_discarded : discarded a' = discarded a;
  ro_vars : vars a' = vars a;
  ro_statm : statm a' = statm a;
  ro_cc : cc_data a' = cc_data a;
  ro_reports : reports (log a') = reports (log a);
  ro_rx sp' : sp' <> sp -> sel sp' (rx a') = sel sp' (rx a)
}.

Lemma rx_only_refl sp a : rx_only sp a a.
Proof. by split. Qed.

Lemma rx_only_trans sp a1 a2 a3 : rx_only sp a1 a2 -> rx_only sp a2 a3 -> rx_only sp a1 a3.
Proof.
  intros [A1 A2 A3 A4 A5 A6 A7] [B1 B2 B3 B4 B5 B6 B7]. split; try congruence. intros sp' Hne. by rewrite B7, A7.
Qed.

Lemma rx_only_inv sent pl sp a a' : rx_only sp a a' -> ackm_inv sent pl [] a ->
  (sel sp (discarded a) = false -> rx_ok (rx_history (sel sp (rx a')))) -> ackm_inv sent pl [] a'.
Proof.
  intros [R1 R2 R3 R4 R5 R6 R7] [I1 I2 I3 I4 I5 I6] Hr.
  split; unfold outstanding, pk; rewrite ?R1, ?R2, ?R3, ?R4, ?R5; try done.
  - intros sp'. destruct (I1 sp') as [S1 S2 S3 S4 S5 S6 S7 S8]. split; unfold pk; rewrite ?R1, ?R2; try done.
    destruct (decide (sp' = sp)) as [->|Hne]; [done|]. by rewrite R7.
  - rewrite <-(fates_reports (log a')), R6, fates_reports. exact I5.
Qed.

Lemma rx_only_timer w sp a a' : rx_only sp a a' -> timer_ok w a -> timer_ok w a'.
Proof.
  intros [R1 R2 R3 R4 _ _ _]. apply same_timer_ok; [|by rewrite R3].
  split; [intros sp'; by rewrite R1|]. by rewrite R3.
Qed.

Lemma rx_only_upd sp r a : rx_only sp a (upd_rx (upd_at sp r) a).
Proof. split; try done. intros sp' Hne. cbn. by rewrite sel_upd_ne. Qed.

Lemma rx_only_clock sp a : rx_only sp a (tick a).
Proof. by split. Qed.

(** The history and the last frame are kept. *)
Definition rx_kept (r r' : rx_space) : Prop := rx_history r' = rx_history r /\ ack r' = ack r.

Lemma on_rx_step {B} sp f (m : M (OSSL_ACKM D) B) a :
  (on_rx sp (modify f) ;;; m) a = m (upd_rx (upd_at sp (f (sel sp (rx a)))) a).
Proof. done. Qed.

Lemma sel_upd_rx sp r a : sel sp (rx (upd_rx (upd_at sp r) a)) = r.
Proof. cbn. by rewrite sel_upd_eq. Qed.

Lemma set_flush_deadline_ok sp t a : exists a', ackm_set_flush_deadline sp t a = (Ok tt, a') /\ rx_only sp a a' /\
  sel sp (rx a') = set_flush_deadline t (sel sp (rx a)).
Proof.
  unfold ackm_set_flush_deadline. rewrite on_rx_step. set (b := upd_rx _ a). rewrite (bind_ok get _ b b b eq_refl).
  assert (Hb : rx_only sp a b) by apply rx_only_upd. assert (Eb : sel sp (rx b) = set_flush_deadline t (sel sp (rx a))) by apply sel_upd_rx.
  destruct (ack_deadline_cb (vars b)); [|by exists b]. eexists. split; [done|]. split; [|done].
  destruct Hb as [R1 R2 R3 R4 R5 R6 R7]. by split.
Qed.

Lemma queue_ack_ok sp a : exists a', ackm_queue_ack sp a = (Ok tt, a') /\ rx_only sp a a' /\
  sel sp (rx a') = set_flush_deadline ossl_time_infinite (set_ack_desired true (sel sp (rx a))).
Proof.
  unfold ackm_queue_ack. rewrite on_rx_step. set (b := upd_rx _ a).
  destruct (set_flush_deadline_ok sp ossl_time_infinite b) as (a' & E & Hr & Er). exists a'. split; [done|]. split.
  - eapply rx_only_trans; [apply rx_only_upd|done].
  - rewrite Er. unfold b. by rewrite sel_upd_rx.
Qed.

(** The last frame of every space is well formed. *)
Definition framed (r : rx_space) : Prop := num_ack_ranges (ack r) = zlen (ack_ranges (ack r)).

Lemma framed_end {T} r (s : T) : framed r -> num_ack_ranges (ack r) > 0 -> exists e, first_end (ack r) s = (Ok e, s).
Proof.
  unfold framed, first_end. intros Hf Hn. destruct (ack_ranges (ack r)) as [|x l]; [|by eexists].
  rewrite zlen_nil in Hf. lia.
Qed.

Lemma is_missing_ok sp pn a : framed (sel sp (rx a)) -> exists b, ackm_is_missing sp pn a = (Ok b, a).
Proof.
  intros Hf. unfold ackm_is_missing. rewrite (bind_ok get _ a a a eq_refl).
  destruct (Z.gtb_spec (num_ack_ranges (ack (sel sp (rx a)))) 0); [|by eexists].
  destruct (framed_end _ a Hf) as [e E]; [lia|]. rewrite (bind_ok _ _ _ _ _ E). by eexists.
Qed.

Lemma in_rx_get sp a : sel sp (discarded a) = false -> in_rx_history sp get a = (Ok (rx_history (sel sp (rx a))), a).
Proof.
  intros Hd. unfold in_rx_history. rewrite (bind_ok get _ a a a eq_refl), Hd. cbn [negb assert_].
  rewrite (bind_ok (ret tt) _ a tt a eq_refl). unfold on_rx, zoom, get.
  assert (set_rx_history (rx_history (sel sp (rx a))) (sel sp (rx a)) = sel sp (rx a)) as -> by (by destruct (sel sp (rx a))).
  unfold upd_rx. rewrite upd_at_sel. by destruct a.
Qed.

Lemma has_newly_missing_ok sp a : sel sp (discarded a) = false -> framed (sel sp (rx a)) ->
  exists b, ackm_has_newly_missing sp a = (Ok b, a).
Proof.
  intros Hd Hf. unfold ackm_has_newly_missing. rewrite (bind_ok _ _ _ _ _ (in_rx_get sp a Hd)).
  destruct (list.last _) as [r|]; [|by eexists]. rewrite (bind_ok get _ a a a eq_refl).
  destruct (Z.gtb_spec (num_ack_ranges (ack (sel sp (rx a)))) 0); [|by eexists].
  destruct (framed_end _ a Hf) as [e E]; [lia|]. rewrite (bind_ok _ _ _ _ _ E). by eexists.
Qed.

Lemma on_rx_ack_eliciting_ok t sp missing a : sel sp (discarded a) = false -> framed (sel sp (rx a)) ->
  exists a', ackm_on_rx_ack_eliciting t sp missing a = (Ok tt, a') /\ rx_only sp a a' /\
    rx_kept (sel sp (rx a)) (sel sp (rx a')).
Proof.
  intros Hd Hf. unfold ackm_on_rx_ack_eliciting. rewrite (bind_ok get _ a a a eq_refl).
  destruct (rx_ack_desired _); [exists a; by split|]. rewrite on_rx_step. set (b := upd_rx _ a).
  assert (Rb : rx_only sp a b) by apply rx_only_upd.
  assert (Kb : rx_kept (sel sp (rx a)) (sel sp (rx b))) by (unfold b; rewrite sel_upd_rx; by destruct (sel sp (rx a))).
  rewrite (bind_ok get _ b b b eq_refl).
  assert (Hi : exists i, (if negb (rx_ack_generated (sel sp (rx b))) || missing
                || (rx_ack_eliciting_pkts_since_last_ack (sel sp (rx b)) >=? PKTS_BEFORE_ACK)
     then ret true else ackm_has_newly_missing sp) b = (Ok i, b)).
  { destruct (_ || _); [by exists true|]. apply has_newly_missing_ok; [done|]. unfold framed. by rewrite (proj2 Kb). }
  destruct Hi as [i Ei]. rewrite (bind_ok _ _ _ _ _ Ei).
  assert (Hdone : forall m : M (OSSL_ACKM D) unit, (exists a' f, m b = (Ok tt, a') /\ rx_only sp b a' /\ sel sp (rx a') = f (sel sp (rx b)) /\
    forall r, rx_kept r (f r)) -> exists a', m b = (Ok tt, a') /\ rx_only sp a a' /\ rx_kept (sel sp (rx a)) (sel sp (rx a'))).
  { intros m (a' & f & Em & Rm & Sm & Km). exists a'. split; [done|]. split; [by eapply rx_only_trans|].
    rewrite Sm. destruct (Km (sel sp (rx b))) as [K1 K2], Kb as [K3 K4]. split; congruence. }
  destruct i; [|destruct (ossl_time_is_infinite _)]; apply Hdone.
  - destruct (queue_ack_ok sp b) as (a' & E & R & S). exists a', (fun r => set_flush_deadline ossl_time_infinite (set_ack_desired true r)).
    split_and!; try done. intros []. done.
  - edestruct (set_flush_deadline_ok sp) as (a' & E & R & S). exists a'. eexists. split; [exact E|]. split_and!; [done|exact S|]. intros []. done.
  - edestruct (set_flush_deadline_ok sp) as (a' & E & R & S). exists a'. eexists. split; [exact E|]. split_and!; [done|exact S|]. intros []. done.
Qed.

(** ** The operations *)

Lemma is_rx_pn_processable_ok pn sp a : sel sp (discarded a) = false -> rx_ok (rx_history (sel sp (rx a))) ->
  exists b, ossl_ackm_is_rx_pn_processable pn sp a = (Ok b, a) /\
    (b = true /\ ~ known (rx_history (sel sp (rx a))) pn \/ b = false /\ known (rx_history (sel sp (rx a))) pn).
Proof.
  intros Hd [Hi _ _ _ _]. unfold ossl_ackm_is_rx_pn_processable. rewrite (bind_ok _ _ _ _ _ (in_rx_get sp a Hd)).
  eexists. split; [done|]. pose proof (query_spec 2 _ pn ltac:(lia) Hi) as Hq. unfold known, unacked. rewrite <-Hq.
  set (q := ossl_uint_set_query _ _). clearbody q.
  destruct (Z.geb_spec pn (rx_watermark (rx_history (sel sp (rx a))))), q; cbn [andb negb]; [right|left|right|right]; (split; [done|]); naive_solver lia.
Qed.

(** The received packet numbers of a space. *)
Abbreviation history sp a := (rx_history (sel sp (rx a))).

(** The handler after the packet number was recorded. *)
Lemma rx_tail_ok p m a : sel (rp_pkt_space p) (discarded a) = false -> framed (sel (rp_pkt_space p) (rx a)) ->
  let sp := rp_pkt_space p in
  exists a', ((if rp_is_ack_eliciting p then ackm_on_rx_ack_eliciting (rp_time p) sp m else ret tt) ;;;
    on_rx sp (modify (fun r =>
      match rp_ecn p with
      | OSSL_ACKM_ECN_ECT0 => set_rx_ecn (u64 (rx_ect0 r + 1)) (rx_ect1 r) (rx_ecnce r) r
      | OSSL_ACKM_ECN_ECT1 => set_rx_ecn (rx_ect0 r) (u64 (rx_ect1 r + 1)) (rx_ecnce r) r
      | OSSL_ACKM_ECN_ECNCE => set_rx_ecn (rx_ect0 r) (rx_ect1 r) (u64 (rx_ecnce r + 1)) r
      | OSSL_ACKM_ECN_NONE => r
      end))) a = (Ok tt, a') /\ rx_only sp a a' /\ rx_kept (sel sp (rx a)) (sel sp (rx a')).
Proof.
  intros Hd Hf sp.
  assert (Hb : exists b, (if rp_is_ack_eliciting p then ackm_on_rx_ack_eliciting (rp_time p) sp m else ret tt) a = (Ok tt, b) /\
    rx_only sp a b /\ rx_kept (sel sp (rx a)) (sel sp (rx b))).
  { destruct (rp_is_ack_eliciting p); [by apply on_rx_ack_eliciting_ok|]. exists a. split_and!; [done|apply rx_only_refl|done]. }
  destruct Hb as (b & Eb & Rb & Kb). rewrite (bind_ok _ _ _ _ _ Eb). eexists. split; [done|]. split.
  - eapply rx_only_trans; [exact Rb|]. apply rx_only_upd.
  - rewrite sel_upd_rx. destruct Kb as [K1 K2]. destruct (sel sp (rx b)), (rp_ecn p); by split.
Qed.

Lemma record_pn_ok pn sp a : sel sp (discarded a) = false -> rx_ok (history sp a) -> 0 <= pn < QUIC_PN_LIMIT ->
  exists r h, in_rx_history sp (rx_pkt_history_add_pn pn) a = (r, with_rx sp h a) /\ rx_ok h /\
    (forall v, known (history sp a) v -> known h v) /\ (forall v, unacked h v -> unacked (history sp a) v \/ v = pn /\ r = Ok tt) /\
    (r = Ok tt /\ known h pn \/ r = Err) /\
    (r = Ok tt -> rx_watermark (history sp a) <= pn -> (forall v, unacked (history sp a) v -> v <= pn) -> unacked h pn).
Proof.
  intros Hd Hr Hn. destruct (add_pn_ok _ pn Hr Hn) as (r & h & E & Hh & Hk & Hu & Hc & Hm). exists r, h.
  split_and!; try done; [|destruct Hc as [?|[? _]]; [by left|by right]].
  unfold in_rx_history. rewrite (bind_ok get _ a a a eq_refl), Hd. cbn [negb assert_]. rewrite (bind_ok (ret tt) _ a tt a eq_refl).
  unfold on_rx, zoom. by rewrite E.
Qed.

Lemma on_rx_packet_ok sent pl p a : ackm_inv sent pl [] a -> sel (rp_pkt_space p) (discarded a) = false ->
  framed (sel (rp_pkt_space p) (rx a)) -> 0 <= rp_pkt_num p < QUIC_PN_LIMIT ->
  let sp := rp_pkt_space p in
  exists r a', ossl_ackm_on_rx_packet p a = (r, a') /\ rx_only sp a a' /\ ackm_inv sent pl [] a' /\
    ack (sel sp (rx a')) = ack (sel sp (rx a)) /\
    (forall v, known (history sp a) v -> known (history sp a') v) /\
    (forall v, unacked (history sp a') v -> unacked (history sp a) v \/ v = rp_pkt_num p /\ r = Ok tt) /\
    (r = Ok tt /\ known (history sp a') (rp_pkt_num p) \/ r = Err) /\
    (r = Ok tt -> rx_watermark (history sp a) <= rp_pkt_num p -> (forall v, unacked (history sp a) v -> v <= rp_pkt_num p) ->
     unacked (history sp a') (rp_pkt_num p)).
Proof.
  intros Hi Hd Hf Hn sp. pose proof (so_rx _ _ _ (ai_space _ _ _ _ Hi sp) Hd) as Hr. fold sp in Hd, Hf.
  unfold ossl_ackm_on_rx_packet. fold sp.
  destruct (is_rx_pn_processable_ok (rp_pkt_num p) sp a Hd Hr) as (b & Eb & Hb). rewrite (bind_ok _ _ _ _ _ Eb).
  destruct Hb as [[-> Hk]|[-> Hk]]; cbn [negb].
  2: { exists (Ok tt), a. split; [done|]. split; [apply rx_only_refl|]. split_and!; try done; [by left..|].
       intros _ Hw _. by destruct Hk; [lia|]. }
  rewrite on_rx_step. set (a1 := upd_rx _ a).
  assert (R1 : rx_only sp a a1) by apply rx_only_upd.
  assert (K1 : rx_kept (sel sp (rx a)) (sel sp (rx a1))).
  { unfold a1. rewrite sel_upd_rx. destruct (_ >? _); [|done]. by destruct (sel sp (rx a)). }
  destruct (is_missing_ok sp (rp_pkt_num p) a1) as [m Em]; [unfold framed; by rewrite (proj2 K1)|].
  rewrite (bind_ok _ _ _ _ _ Em). destruct (record_pn_ok (rp_pkt_num p) sp a1 Hd) as (r & h & Ea & Hh & Hkn & Hun & Hc & Hm);
    [by rewrite (proj1 K1)|done|]. rewrite (proj1 K1) in Hkn, Hun, Hm. set (a2 := with_rx sp h a1) in *.
  assert (R2 : rx_only sp a a2) by (eapply rx_only_trans; [exact R1|apply rx_only_upd]).
  assert (S2 : sel sp (rx a2) = set_rx_history h (sel sp (rx a1))) by apply sel_upd_rx.
  assert (A2 : history sp a2 = h /\ ack (sel sp (rx a2)) = ack (sel sp (rx a))).
  { rewrite S2. destruct K1 as [_ K1]. by destruct (sel sp (rx a1)). }
  destruct A2 as [H2 A2]. destruct Hc as [[-> Hc]| ->].
  - rewrite (bind_ok _ _ _ _ _ Ea). destruct (rx_tail_ok p m a2 Hd) as (a' & E' & R' & K'); [unfold framed; fold sp; by rewrite A2|].
    fold sp in E', R', K'. destruct K' as [K3 K4]. rewrite H2 in K3.
    exists (Ok tt), a'. assert (Ra : rx_only sp a a') by by eapply rx_only_trans. split; [done|]. split; [done|].
    rewrite K3, K4. split_and!; try done; [|by left]. apply (rx_only_inv _ _ sp a); try done. by rewrite K3.
  - exists Err, a2. rewrite (bind_err _ _ _ _ Ea), H2. split; [done|]. split; [done|]. split_and!; try done; [|by right].
    apply (rx_only_inv _ _ sp a); try done. by rewrite H2.
Qed.

(** ** Generated frames *)

Definition to_ack (r : UINT_RANGE) : OSSL_QUIC_ACK_RANGE := mkAckRange (start r) (end_ r).

Lemma to_ack_ok back : inv 2 (reverse back) -> Forall (fun r => end_ r < QUIC_PN_LIMIT) back ->
  ranges_ok (to_ack <$> back) /\ descend (to_ack <$> back) /\
  Forall (fun r => 0 <= ar_start r /\ ar_end r < QUIC_PN_LIMIT) (to_ack <$> back).
Proof.
  induction back as [|r back IH]; intros Hi Hl; [by split_and!|]. rewrite reverse_cons in Hi.
  apply inv_app in Hi as (Hi & Hr & Hlt). apply Forall_cons_1 in Hl as [Hlr Hl]. destruct (IH Hi Hl) as (I1 & I2 & I3).
  apply inv_cons in Hr as (Hr & _ & _). unfold range_ok in Hr. rewrite fmap_cons.
  assert (Hb : forall r', r' ∈ back -> end_ r' + 2 <= start r).
  { intros r' Hr'. apply Hlt; [by rewrite elem_of_reverse|left]. }
  split_and!.
  - cbn [ranges_ok to_ack ar_start ar_end]. split; [lia|]. split; [|done].
    destruct back as [|r' back]; [done|]. apply Hb. left.
  - cbn [descend to_ack ar_start ar_end]. split; [lia|]. split; [|done].
    intros r' (x & -> & Hx)%list_elem_of_fmap. specialize (Hb x Hx). cbn. lia.
  - constructor; [cbn; lia|done].
Qed.

Lemma ranges_ok_prefix l k : ranges_ok (l ++ k) -> ranges_ok l.
Proof.
  induction l as [|r l IH]; [done|]. cbn. intros (Hr & Hn & Hk). split_and!; [lia..| |by apply IH]. by destruct l.
Qed.

Lemma descend_prefix l k : descend (l ++ k) -> descend l.
Proof.
  induction l as [|r l IH]; [done|]. cbn. intros (Hr & Hn & Hk). split_and!; [lia..| |by apply IH].
  intros r' Hr'. apply Hn, elem_of_app. by left.
Qed.

Lemma get_ack_frame_ok sent pl sp a : ackm_inv sent pl [] a -> sel sp (discarded a) = false ->
  exists k a', ossl_ackm_get_ack_frame now sp a = (Ok k, a') /\ rx_only sp a a' /\ ackm_inv sent pl [] a' /\
    history sp a' = history sp a /\ ack (sel sp (rx a')) = k /\
    num_ack_ranges k = zlen (ack_ranges k) /\ ack_ranges k = to_ack <$> ztake 3 (reverse (rx_items (history sp a))).
Proof.
  intros Hi Hd. unfold ossl_ackm_get_ack_frame, Ackm.read_clock. unfold bind at 1. fold (tick a). set (b := tick a).
  rewrite (bind_ok get _ b b b eq_refl).
  assert (Ef : forall k, exists k', ackm_fill_rx_ack_ranges sp k b = (Ok k', b) /\ num_ack_ranges k' = zlen (ack_ranges k') /\
    ack_ranges k' = to_ack <$> ztake 3 (reverse (rx_items (history sp a)))).
  { intros k. unfold ackm_fill_rx_ack_ranges. rewrite (bind_ok _ _ _ _ _ (in_rx_get sp b Hd)). eexists. split; [done|].
    cbn [num_ack_ranges ack_ranges]. split; [by rewrite !zlen_length, length_fmap|done]. }
  destruct (Ef (ack (sel sp (rx b)))) as (k' & E & Hk1 & Hk2). rewrite (bind_ok _ _ _ _ _ E).
  set (k := mkAck (ack_ranges k') _ _ _ _ _ _). rewrite on_rx_step. set (c := upd_rx _ b).
  destruct (set_flush_deadline_ok sp ossl_time_infinite c) as (a' & Ea & Ra & Sa). rewrite (bind_ok _ _ _ _ _ Ea).
  unfold c in Sa. rewrite sel_upd_rx in Sa. exists k, a'. split; [done|].
  assert (R : rx_only sp a a').
  { eapply rx_only_trans; [apply rx_only_clock|]. eapply rx_only_trans; [apply rx_only_upd|exact Ra]. }
  assert (Hh : history sp a' = history sp a /\ ack (sel sp (rx a')) = k).
  { rewrite Sa. change (rx b) with (rx a). by destruct (sel sp (rx a)). }
  destruct Hh as [Hh Hk]. split_and!; try done. apply (rx_only_inv _ _ sp a); try done.
  rewrite Hh. apply (so_rx _ _ _ (ai_space _ _ _ _ Hi sp)).
Qed.

Lemma rx_unacked_above h pn : rx_ok h -> unacked h pn -> rx_watermark h <= pn.
Proof. intros [_ _ Ha _ _] (r & Hr & Hin). rewrite Forall_forall in Ha. specialize (Ha r Hr). unfold in_range in Hin. lia. Qed.

(** A frame acknowledges received packets only, the latest ranges of them, and can be
    sent. *)
Lemma frame_sound (h : rx_pkt_history_st) l : rx_ok h -> l = to_ack <$> ztake 3 (reverse (rx_items h)) ->
  ranges_ok l /\ descend l /\ Forall (fun r => 0 <= ar_start r /\ ar_end r < QUIC_PN_LIMIT) l /\
  (forall pn, acked_by l pn = true -> unacked h pn) /\ (zlen (rx_items h) <= 3 -> forall pn, unacked h pn -> acked_by l pn = true) /\
  (forall pn x, unacked h pn -> acked_by l x = true -> x <= pn -> acked_by l pn = true) /\
  (forall pn, unacked h pn -> exists x, acked_by l x = true).
Proof.
  intros [Hi Hl _ _ _] ->. destruct (to_ack_ok (reverse (rx_items h))) as (R1 & R2 & R3); [by rewrite reverse_involutive|by rewrite Forall_reverse|].
  rewrite <-(ztake_zdrop 3 (reverse (rx_items h))), fmap_app in R1, R2, R3. apply Forall_app in R3 as [R3 _].
  apply ranges_ok_prefix in R1. apply descend_prefix in R2. split_and!; try done.
  - intros pn (r & (x & -> & Hx)%list_elem_of_fmap & Hr)%acked_by_iff. exists x. cbn in Hr. split; [|done].
    rewrite <-elem_of_reverse, <-(ztake_zdrop 3 (reverse (rx_items h))). apply elem_of_app. by left.
  - intros Hz pn (x & Hx & Hr). apply acked_by_iff. exists (to_ack x). split; [|done]. apply list_elem_of_fmap_2.
    rewrite ztake_ge; [by apply elem_of_reverse|]. by rewrite zlen_length, length_reverse, <-zlen_length.
  - intros pn x (r & Hr & Hin) (y & (z & -> & Hz)%list_elem_of_fmap & Hy)%acked_by_iff Hle. apply acked_by_iff.
    exists (to_ack r). split; [|done]. apply list_elem_of_fmap_2. cbn in Hy. unfold in_range in Hin.
    rewrite <-elem_of_reverse, <-(ztake_zdrop 3 (reverse (rx_items h))) in Hr. apply elem_of_app in Hr as [?|Hr]; [done|].
    rewrite <-(reverse_involutive (rx_items h)), <-(ztake_zdrop 3 (reverse (rx_items h))), reverse_app in Hi.
    apply inv_app in Hi as (_ & _ & Hlt). specialize (Hlt r z). rewrite !elem_of_reverse in Hlt. specialize (Hlt Hr Hz). lia.
  - intros pn (r & Hr & _). destruct (reverse (rx_items h)) as [|z l] eqn:El.
    { by rewrite <-elem_of_reverse, El, elem_of_nil in Hr. }
    assert (Hz : z ∈ rx_items h) by (rewrite <-elem_of_reverse, El; left). pose proof (inv_range_ok _ _ _ Hi Hz) as Hok. unfold range_ok in Hok.
    exists (start z). apply acked_by_iff. exists (to_ack z). split; [apply list_elem_of_fmap_2; left|]. cbn. lia.
Qed.

End Receive.

Abbreviation history sp a := (rx_history (sel sp (rx a))).

(** ** Runs *)

Inductive ackm_op :=
| Op_tx (q : OSSL_ACKM_TX_PKT)
| Op_ack (k : OSSL_QUIC_FRAME_ACK) (sp : pn_space) (rx_time : OSSL_TIME)
| Op_discard (sp : pn_space)
| Op_confirmed
| Op_timeout
| Op_pseudo (sp : pn_space) (pn : Z)
| Op_rx (p : OSSL_ACKM_RX_PKT)
| Op_frame (sp : pn_space)
| Op_desired (sp : pn_space)
| Op_rx_delay (t : OSSL_TIME)
| Op_tx_delay (t : OSSL_TIME)
| Op_loss_cb (fn : bool)
| Op_ack_cb (fn : bool).

(** What happened: the packets sent, the bytes of those declared lost by the caller,
    the packet numbers received, and the largest delay that the peer was said to add. *)
Record ghost := mkGhost { g_sent : list ident; g_pseudo : Z; g_seen : list (pn_space * Z); g_delay : Z }.

Section Run.
Context {D : Type} `{CongestionControlLaws D}.
Context (now : nat -> OSSL_TIME) (now_range : forall n, is_u64 (now n)).
Implicit Types a : OSSL_ACKM D.
Implicit Types g : ghost.

Definition exec (o : ackm_op) : M (OSSL_ACKM D) unit :=
  match o with
  | Op_tx q => ossl_ackm_on_tx_packet now q
  | Op_ack k sp t => ossl_ackm_on_rx_ack_frame now k sp t
  | Op_discard sp => ossl_ackm_on_pkt_space_discarded now sp
  | Op_confirmed => ossl_ackm_on_handshake_confirmed now
  | Op_timeout => ossl_ackm_on_timeout now
  | Op_pseudo sp pn => ossl_ackm_mark_packet_pseudo_lost sp pn
  | Op_rx p => ossl_ackm_on_rx_packet p
  | Op_frame sp => let! k := ossl_ackm_get_ack_frame now sp in ret tt
  | Op_desired sp => let! b := ossl_ackm_is_ack_desired now sp in ret tt
  | Op_rx_delay t => ossl_ackm_set_rx_max_ack_delay t
  | Op_tx_delay t => ossl_ackm_set_tx_max_ack_delay t
  | Op_loss_cb fn => ossl_ackm_set_loss_detection_deadline_callback fn
  | Op_ack_cb fn => ossl_ackm_set_ack_deadline_callback fn
  end.

(** When an operation may be called: on spaces that are not discarded, with typed
    arguments, within the limits of the table and of 64-bit counts; a timeout only when
    the timer is set; the caller declares packets lost only before the peer's address
    is validated. *)
Definition legal (o : ackm_op) a : Prop :=
  match o with
  | Op_tx q => sel (pkt_space q) (discarded a) = false /\ tx_typed q /\ zlen (pk (pkt_space q) a) + 1 < 2 ^ 29 /\
               cc_in_flight (cc_data a) + num_bytes q < U64_MOD
  | Op_ack k sp _ => sel sp (discarded a) = false /\ valid_ack k /\ is_u64 (delay_time k)
  | Op_timeout => ossl_ackm_get_loss_detection_deadline a <> 0
  | Op_pseudo sp _ => sel sp (discarded a) = false /\ peer_completed_addr_validation (vars a) = false
  | Op_rx p => sel (rp_pkt_space p) (discarded a) = false /\ 0 <= rp_pkt_num p < QUIC_PN_LIMIT
  | Op_frame sp => sel sp (discarded a) = false
  | Op_rx_delay t => is_u64 t
  | _ => True
  end.

Definition account (o : ackm_op) (r : res unit) a g : ghost :=
  match o, r with
  | Op_tx q, Ok _ => mkGhost (ident_of q :: g_sent g) (g_pseudo g) (g_seen g) (g_delay g)
  | Op_pseudo sp pn, Ok _ =>
      mkGhost (g_sent g) (g_pseudo g + from_option flight_of 0 (pkt_map (pk sp a) !! pn)) (g_seen g) (g_delay g)
  | Op_rx p, Ok _ => mkGhost (g_sent g) (g_pseudo g) ((rp_pkt_space p, rp_pkt_num p) :: g_seen g) (g_delay g)
  | Op_rx_delay t, _ => mkGhost (g_sent g) (g_pseudo g) (g_seen g) (Z.max (peer_delay t) (g_delay g))
  | _, _ => g
  end.

(** A new manager whose tables are given memory, with a controller that has nothing
    in flight. *)
Definition fresh a : Prop :=
  exists os us st d server, (forall sp, false ∉ sel sp os) /\ st_ok st /\ cc_valid d /\ cc_in_flight d = 0 /\
    ossl_ackm_new true os us st d server = Some a.

Definition nothing : ghost := mkGhost [] 0 [] (ossl_ms2time QUIC_DEFAULT_MAX_ACK_DELAY).

Inductive reachable : OSSL_ACKM D -> ghost -> Prop :=
| reach_new a : fresh a -> reachable a nothing
| reach_step a g o r a' : reachable a g -> legal o a -> exec o a = (r, a') -> reachable a' (account o r a g).

(** *** The invariant of runs *)

Record run_inv a g : Prop := {
  ri_inv : ackm_inv (g_sent g) (g_pseudo g) [] a;
  ri_timer : timer_ok (g_delay g) a;
  ri_framed sp : sel sp (discarded a) = false -> framed (sel sp (rx a));
  ri_seen sp pn : sel sp (discarded a) = false -> (sp, pn) ∈ g_seen g -> known (history sp a) pn;
  ri_sound sp pn : sel sp (discarded a) = false -> unacked (history sp a) pn -> (sp, pn) ∈ g_seen g
}.

(** Steps that keep the received packet numbers, or raise watermarks. *)
Lemma run_bumped a g a' g' : run_inv a g -> ackm_inv (g_sent g') (g_pseudo g') [] a' -> timer_ok (g_delay g') a' ->
  g_seen g' = g_seen g ->
  (forall sp, sel sp (discarded a') = false -> sel sp (discarded a) = false /\ rx_bumped (sel sp (rx a)) (sel sp (rx a'))) ->
  run_inv a' g'.
Proof.
  intros [R1 R2 R3 R4 R5] Hi Ht Hs Hb. split; try done.
  - intros sp Hds. destruct (Hb sp Hds) as (Hd & h & -> & _). specialize (R3 sp Hd). by destruct (sel sp (rx a)).
  - intros sp pn Hds Hin. rewrite Hs in Hin. destruct (Hb sp Hds) as (Hd & h & -> & Hk & _). specialize (R4 sp pn Hd Hin).
    apply Hk in R4. by destruct (sel sp (rx a)).
  - intros sp pn Hds Hu. rewrite Hs. destruct (Hb sp Hds) as (Hd & h & E & _ & Hun). apply R5; [done|]. apply Hun.
    rewrite E in Hu. by destruct (sel sp (rx a)).
Qed.

Lemma run_same a g a' g' : run_inv a g -> ackm_inv (g_sent g') (g_pseudo g') [] a' -> timer_ok (g_delay g') a' ->
  g_seen g' = g_seen g -> rx a' = rx a -> discarded a' = discarded a -> run_inv a' g'.
Proof.
  intros Hr Hi Ht Hs Erx Ed. eapply run_bumped; try done. intros sp. rewrite Ed, Erx. intros Hd. split; [done|apply rx_bumped_refl].
Qed.

(** What a step must establish. *)
Definition step_ok (o : ackm_op) a g : Prop := exists r a', exec o a = (r, a') /\ r <> Ub /\ run_inv a' (account o r a g).

Lemma step_tx q a g : run_inv a g -> legal (Op_tx q) a -> step_ok (Op_tx q) a g.
Proof.
  intros Hr (Hd & Ht & Hz & Hc). pose proof (ri_inv _ _ Hr) as Hi. unfold step_ok. cbn [exec]. destruct (tx_accepted q a) eqn:Ea.
  - destruct (tx_packet_accepted now (g_sent g) (g_pseudo g) q a) as (a' & E & Hi' & Tk & Erx & Ed & _); try done.
    exists (Ok tt), a'. split_and!; try done. eapply run_same; try done. apply Tk, Hr.
  - exists Err, a. by rewrite tx_packet_refused.
Qed.

Lemma step_ack k sp t a g : run_inv a g -> legal (Op_ack k sp t) a -> step_ok (Op_ack k sp t) a g.
Proof.
  intros Hr (Hd & Hk & Hdt). pose proof (ri_inv _ _ Hr) as Hi. unfold step_ok. cbn [exec].
  destruct (on_rx_ack_frame_ok now now_range _ _ k sp t a Hi Hd Hk Hdt) as (a' & E & Hi' & Tk & Ed & _ & _ & Hb & _).
  exists (Ok tt), a'. split_and!; try done. eapply run_bumped; try done; [apply Tk, Hr|]. intros sp'. by rewrite Ed.
Qed.

Lemma step_discard sp a g : run_inv a g -> step_ok (Op_discard sp) a g.
Proof.
  intros Hr. pose proof (ri_inv _ _ Hr) as Hi. unfold step_ok. cbn [exec].
  destruct (on_pkt_space_discarded_ok now _ _ sp a Hi) as (r & a' & E & Hc). exists r, a'. split; [done|].
  destruct (sel sp (discarded a)) eqn:Hd.
  - by destruct Hc as [-> ->].
  - destruct Hc as (-> & Hi' & Tk & Ed & _ & _ & Erx & _). split; [done|]. eapply run_bumped; try done; [by apply (retimed_ok _ a), Hr|].
    intros sp'. rewrite Ed. destruct (decide (sp = sp')) as [<-|Hne]; [by rewrite sel_upd_eq|].
    rewrite sel_upd_ne by done. intros Hd'. split; [done|]. rewrite Erx by done. apply rx_bumped_refl.
Qed.

Lemma step_timeout a g : run_inv a g -> legal Op_timeout a -> step_ok Op_timeout a g.
Proof.
  intros Hr Hl. pose proof (ri_inv _ _ Hr) as Hi. unfold step_ok. cbn [exec].
  destruct (decide (fst (ackm_get_loss_time_and_space a) = 0)) as [Hz|Hz].
  - destruct (timeout_probe_ok now _ _ _ a Hi (ri_timer _ _ Hr) Hl Hz) as (a' & E & Hi' & Tk & _ & Erx & Ed & _).
    exists (Ok tt), a'. split_and!; try done. eapply run_same; try done. by apply (retimed_ok _ a), Hr.
  - destruct (timeout_lost_ok now _ _ a Hi Hz) as (a' & E & Hi' & Tk & Erx & Ed & _).
    exists (Ok tt), a'. split_and!; try done. eapply run_same; try done. by apply (retimed_ok _ a), Hr.
Qed.

Lemma step_pseudo sp pn a g : run_inv a g -> legal (Op_pseudo sp pn) a -> step_ok (Op_pseudo sp pn) a g.
Proof.
  intros Hr [Hd Hp]. pose proof (ri_inv _ _ Hr) as Hi. unfold step_ok. cbn [exec account].
  destruct (mark_pseudo_lost_ok _ _ sp pn a Hi Hd) as (r & a' & E & Erx & Ed & Tk & Hc). exists r, a'. split; [done|].
  specialize (Tk _ (ri_timer _ _ Hr) Hp). destruct (pkt_map (pk sp a) !! pn) as [q|].
  - destruct Hc as (-> & Hi' & _). split; [done|]. eapply run_same; try done.
  - destruct Hc as (-> & Hi' & _). split; [done|]. by eapply run_same.
Qed.

Lemma step_rx p a g : run_inv a g -> legal (Op_rx p) a -> step_ok (Op_rx p) a g.
Proof.
  intros Hr [Hd Hn]. pose proof (ri_inv _ _ Hr) as Hi. unfold step_ok. cbn [exec account].
  destruct (on_rx_packet_ok _ _ p a Hi Hd (ri_framed _ _ Hr _ Hd) Hn) as (r & a' & E & Ro & Hi' & Ea & Hk & Hu & Hc & _).
  exists r, a'. split; [done|]. split; [by destruct Hc as [[-> _]| ->]|].
  pose proof (rx_only_timer _ _ _ _ Ro (ri_timer _ _ Hr)) as Tk. destruct Ro as [_ Ed _ _ _ _ Ro].
  destruct Hr as [_ _ R3 R4 R5]. set (g' := match r with Ok _ => _ | _ => g end).
  assert (Hg : g_sent g' = g_sent g /\ g_pseudo g' = g_pseudo g /\ g_delay g' = g_delay g) by (by destruct r).
  assert (Hg' : forall x, x ∈ g_seen g' <-> x ∈ g_seen g \/ x = (rp_pkt_space p, rp_pkt_num p) /\ r = Ok tt).
  { intros x. unfold g'. destruct r as [[]| |]; cbn [g_seen]; rewrite ?elem_of_cons; naive_solver. }
  destruct Hg as (Hg1 & Hg2 & Hg3). clearbody g'. split; rewrite ?Hg1, ?Hg2, ?Hg3; try done; intros sp; rewrite Ed; (destruct (decide (sp = rp_pkt_space p)) as [->|Hne]; [|rewrite Ro by done]).
  - intros _. unfold framed. rewrite Ea. by apply R3.
  - apply R3.
  - intros pn _ [Hin|[[= ->] ->]]%Hg'; [by apply Hk, R4|]. by destruct Hc as [[_ ?]|?].
  - intros pn Hds [Hin|[[= Hx _] _]]%Hg'; [by apply R4|done].
  - intros pn _ Hun. apply Hg'. destruct (Hu pn Hun) as [Hu'|[-> Hok]]; [left; by apply R5|by right].
  - intros pn Hds Hun. apply Hg'. left. by apply R5.
Qed.

Lemma step_frame sp a g : run_inv a g -> legal (Op_frame sp) a -> step_ok (Op_frame sp) a g.
Proof.
  intros Hr Hd. pose proof (ri_inv _ _ Hr) as Hi. unfold step_ok. cbn [exec account].
  destruct (get_ack_frame_ok now _ _ sp a Hi Hd) as (k & a' & E & Ro & Hi' & Hh & Hk & Hn & _).
  exists (Ok tt), a'. split; [by rewrite (bind_ok _ _ _ _ _ E)|]. split; [done|].
  pose proof (rx_only_timer _ _ _ _ Ro (ri_timer _ _ Hr)) as Tk. destruct Ro as [_ Ed _ _ _ _ Ro]. destruct Hr as [_ _ R3 R4 R5].
  split; try done; intros sp'; rewrite Ed; (destruct (decide (sp' = sp)) as [->|Hne]; [|rewrite Ro by done]).
  - intros _. unfold framed. by rewrite Hk.
  - apply R3.
  - rewrite Hh. intros pn. apply R4.
  - apply R4.
  - rewrite Hh. intros pn. apply R5.
  - apply R5.
Qed.

(** Setters and queries. *)
Lemma step_vars f a g g' : run_inv a g -> bytes_in_flight (f (vars a)) = bytes_in_flight (vars a) ->
  pto_count (f (vars a)) = pto_count (vars a) -> is_u64 (rx_max_ack_delay (f (vars a))) ->
  loss_detection_deadline (f (vars a)) = loss_detection_deadline (vars a) ->
  peer_completed_addr_validation (f (vars a)) = peer_completed_addr_validation (vars a) ->
  handshake_confirmed (f (vars a)) = handshake_confirmed (vars a) ->
  g_sent g' = g_sent g -> g_pseudo g' = g_pseudo g -> g_seen g' = g_seen g -> g_delay g <= g_delay g' ->
  peer_delay (rx_max_ack_delay (f (vars a))) <= g_delay g' -> run_inv (upd_vars f a) g'.
Proof.
  intros Hr E1 E2 E3 E4 E5 E6 G1 G2 G3 G4 Hd. eapply run_same; try done.
  - rewrite G1, G2. apply inv_vars; try done; [apply Hr|]. rewrite E2. apply (ai_vars _ _ _ _ (ri_inv _ _ Hr)).
  - by apply (same_timer_le (g_delay g) _ a); [|..|apply Hr].
Qed.

Lemma step_desired sp a g : run_inv a g -> step_ok (Op_desired sp) a g.
Proof.
  intros Hr. unfold step_ok. cbn [exec account]. unfold ossl_ackm_is_ack_desired. unfold bind at 1.
  rewrite (bind_ok get _ a a a eq_refl). destruct (rx_ack_desired _); [by exists (Ok tt), a|].
  destruct (ossl_time_is_infinite _); [by exists (Ok tt), a|]. exists (Ok tt), (tick a). split_and!; try done.
  eapply run_same; try done; [apply inv_tick, Hr|]. by apply (same_timer_ok _ a); [..|apply Hr].
Qed.

Lemma legal_step o a g : run_inv a g -> legal o a -> step_ok o a g.
Proof.
  intros Hr Hl. pose proof (ai_vars _ _ _ _ (ri_inv _ _ Hr)) as (_ & Hd & _). destruct (ri_timer _ _ Hr) as [Hw _].
  assert (Hset : forall f o, exec o = on_vars f -> run_inv (upd_vars f a) (account o (Ok tt) a g) -> step_ok o a g).
  { intros f o' E Hi. exists (Ok tt), (upd_vars f a). rewrite E. by split_and!. }
  destruct o; [by apply step_tx|by apply step_ack|by apply step_discard| |by apply step_timeout|by apply step_pseudo|
    by apply step_rx|by apply step_frame|by apply step_desired|..].
  - destruct (on_handshake_confirmed_ok now _ _ a (ri_inv _ _ Hr)) as (a' & E & Hi' & Tk & _ & Erx & Ed & _).
    exists (Ok tt), a'. split_and!; try done. eapply run_same; try done. by apply (retimed_ok _ a), Hr.
  - eapply Hset; [done|]. apply (step_vars _ a g); try done; try (by destruct (vars a)); destruct (vars a); cbn; lia.
  - eapply Hset; [done|]. apply (step_vars _ a g); try done; by destruct (vars a).
  - eapply Hset; [done|]. apply (step_vars _ a g); try done; by destruct (vars a).
  - eapply Hset; [done|]. apply (step_vars _ a g); try done; by destruct (vars a).
Qed.

Lemma new_rx_ok o : rx_ok (rx_pkt_history_init o).
Proof. split; cbn; try done; [apply inv_nil|constructor..]. Qed.

Lemma new_run_inv os us st d server a : (forall sp, false ∉ sel sp os) -> st_ok st -> cc_valid d -> cc_in_flight d = 0 ->
  ossl_ackm_new true os us st d server = Some a -> run_inv a nothing.
Proof.
  intros Ho Hst Hv Hc. unfold ossl_ackm_new. cbn [negb].
  destruct (tx_pkt_history_init (at_initial os)) as [h0|] eqn:E0; [|done].
  destruct (tx_pkt_history_init (at_handshake os)) as [h1|] eqn:E1; [|done].
  destruct (tx_pkt_history_init (at_app os)) as [h2|] eqn:E2; [|done]. intros [= <-].
  apply init_ok in E0, E1, E2; [|apply (Ho QUIC_PN_SPACE_APP)|apply (Ho QUIC_PN_SPACE_HANDSHAKE)|apply (Ho QUIC_PN_SPACE_INITIAL)].
  set (a := mkAckm _ _ _ _ _ _ _ _).
  assert (Hpk : forall sp, pk sp a = [] /\ holds [] 0 (tx_history (sel sp (tx a)))).
  { intros []; (split; [|done]); apply (holds_packets _ _ _ E0) || apply (holds_packets _ _ _ E1) || apply (holds_packets _ _ _ E2). }
  assert (Hout : outstanding a = []) by (unfold outstanding; by rewrite !(proj1 (Hpk _))).
  split.
  - split; rewrite ?Hout; try done.
    + intros sp. destruct (Hpk sp) as [Hp Hh].
      assert (Et : exists h, sel sp (tx a) = new_tx_space h) by (destruct sp; by eexists). destruct Et as [h Et].
      assert (Er : exists o, sel sp (rx a) = new_rx_space o) by (destruct sp; by eexists). destruct Er as [o Er].
      split; rewrite ?Hp, ?Er; rewrite ?Et; try done.
      * rewrite <-Et. intros _. by exists 0.
      * intros _. apply new_rx_ok.
      * by left.
  - split; [done|]. split; [by intros []|]. split; [by intros []|]. split; [by intros []|]. intros _ [] []; done.
  - by intros [] _.
  - by intros sp pn _ ?%elem_of_nil.
  - intros [] pn _ (r & Hr & _); by apply elem_of_nil in Hr.
Qed.

Lemma reachable_inv a g : reachable a g -> run_inv a g.
Proof.
  intros Hr. induction Hr as [a (os & us & st & d & server & H1 & H2 & H3 & H4 & E)|a g o r a' _ IH Hl E].
  - by eapply new_run_inv.
  - destruct (legal_step o a g IH Hl) as (r' & a2 & E' & _ & Hi). rewrite E in E'. by injection E' as <- <-.
Qed.

(** ** Theorems about runs *)

(** C9: At every point of a run, the manager's count of bytes in flight is the
    number of bytes of the packets in its histories that are in flight, the count of
    each space likewise for packets that must be acknowledged, and the congestion
    controller's count is the manager's plus the bytes of the packets declared lost by
    the caller. No count ever wraps. *)
Theorem ackm_bytes_conserved a g : reachable a g ->
  bytes_in_flight (vars a) = flight (outstanding a) /\
  (forall sp, ack_eliciting_bytes_in_flight (sel sp (tx a)) = elicit (pk sp a)) /\
  ackm_ack_eliciting_bytes_in_flight a = elicit (outstanding a) /\
  cc_in_flight (cc_data a) = bytes_in_flight (vars a) + g_pseudo g.
Proof.
  intros Hr. pose proof (ri_inv _ _ (reachable_inv a g Hr)) as Hi. destruct (inv_total _ _ _ _ Hi) as (_ & Et & _).
  destruct Hi as [I1 _ I3 (_ & I5 & _) _ _]. change (flight []) with 0 in I3. change (elicit []) with 0 in Et. split_and!; try done; try lia.
  intros sp. rewrite (so_elicit _ _ _ (I1 sp)). change (elicit (of_space sp [])) with 0. lia.
Qed.

(** C8: At every point of a run, the packets sent are, counted with multiplicity, those in the
    histories together with those whose fate was reported by a callback: every
    packet is reported acknowledged, lost or discarded at most once, none is reported
    that was not sent, and none disappears unreported. *)
Theorem ackm_packet_fates a g : reachable a g -> g_sent g ≡ₚ (ident_of <$> outstanding a) ++ fates (log a).
Proof. intros Hr. pose proof (ai_sent _ _ _ _ (ri_inv _ _ (reachable_inv a g Hr))) as Hs. by rewrite app_nil_r in Hs. Qed.

(** A loss time of the application data is never hidden; without one, none counts. *)
Lemma app_loss_time a : (forall sp, 0 <= loss_time (sel sp (tx a))) ->
  let l := loss_time (sel QUIC_PN_SPACE_APP (tx a)) in
  (l = 0 -> fst (ackm_get_loss_time_and_space a) = 0) /\
  (l <> 0 -> fst (ackm_get_loss_time_and_space a) <> 0 /\ fst (ackm_get_loss_time_and_space a) <= l).
Proof.
  intros Hn l. unfold ackm_get_loss_time_and_space. cbn [fold_left]. fold l. pose proof (Hn QUIC_PN_SPACE_APP) as Hl. fold l in Hl.
  assert (Hlast : forall (t : OSSL_TIME) s, 0 <= t -> let x := if ossl_time_is_zero t || (ossl_time_compare l t =? -1)
    then (l, QUIC_PN_SPACE_APP) else (t, s) in (l = 0 -> fst x = 0) /\ (l <> 0 -> fst x <> 0 /\ fst x <= l)).
  { intros t s Ht. rewrite ossl_time_is_zero_spec. unfold ossl_time_compare, OSSL_TIME in *.
    destruct (Z.eqb_spec t 0), (Z.gtb_spec l t), (Z.ltb_spec l t); cbn; lia. }
  destruct (_ || _); apply Hlast, Hn.
Qed.

(** C31: No legal operation runs into an assertion or undefined behaviour, and the loss
    detection timer is set for what is outstanding: when a loss time is pending for the
    application data it expires no later; otherwise, for each space with a packet that
    must be acknowledged, which for application data counts once the handshake is
    confirmed, it expires no later than the time when the last such packet was sent plus
    the probe period with its back-off, and for application data the largest delay
    announced for the peer. The time zero stands for no transmission. *)
Theorem ackm_no_assertion_fails a g o : reachable a g -> legal o a ->
  fst (exec o a) <> Ub /\
  let t := ossl_ackm_get_loss_detection_deadline a in
  let l := loss_time (sel QUIC_PN_SPACE_APP (tx a)) in
  (l <> 0 -> t <> 0 /\ t <= l) /\
  (l = 0 -> forall sp q, q ∈ pk sp a -> is_ack_eliciting q = true -> probes sp a ->
     time_of_last_ack_eliciting_pkt (sel sp (tx a)) <> 0 -> t <> 0 /\ t <= probe_by (g_delay g) sp a).
Proof.
  intros Hr Hl. pose proof (reachable_inv a g Hr) as Hi. pose proof (ri_inv _ _ Hi) as Hiv.
  destruct (ri_timer _ _ Hi) as (_ & Ha & _ & P1 & P2).
  destruct (app_loss_time a) as [L0 L1]; [intros sp; apply (so_loss _ _ _ (ai_space _ _ _ _ Hiv sp))|]. cbv zeta. split_and!.
  - destruct (legal_step o a g Hi Hl) as (r & a' & -> & Hn & _). done.
  - intros Hne. destruct (L1 Hne) as [L2 L3]. unfold ossl_ackm_get_loss_detection_deadline. rewrite (P1 L2). done.
  - intros Hz sp q Hq He Hs Ht. assert (Hel : ack_eliciting_bytes_in_flight (sel sp (tx a)) <> 0).
    { rewrite (so_elicit _ _ _ (ai_space _ _ _ _ Hiv sp)). change (elicit (of_space sp [])) with 0.
      pose proof (so_pkts _ _ _ (ai_space _ _ _ _ Hiv sp)) as Ho. apply elem_of_Permutation in Hq as [k Hk].
      assert (Ho' : Forall (fun q => exists sp, pkt_ok sp q) (q :: k)) by (rewrite <-Hk; eapply Forall_impl; [exact Ho|eauto]).
      rewrite Hk in Ho |- *. apply Forall_cons_1 in Ho as [Hq _]. apply Forall_cons_1 in Ho' as [_ Ho']. pose proof (flight_nonneg _ Ho').
      rewrite sum_by_cons. assert (elicit_of q = num_bytes q) as -> by (unfold elicit_of; by rewrite He). pose proof (po_bytes _ _ Hq). lia. }
    split; [|by apply P2; [apply L0|..]]. apply Ha. intros Hx. by apply Hel, (inv_no_eliciting _ _ _ _ Hiv).
Qed.

(** C10: An ACK frame in a space that is not discarded: exactly the packets of
    the space whose numbers it covers are taken out and reported acknowledged; if there
    are any, the remaining ones up to the largest number ever acknowledged that are three packets behind
    it, or were sent longer ago than the loss delay of the RTT estimate that
    includes the new sample, are taken out and reported lost, in the order sent; and
    nothing else is reported or removed. *)
Theorem ackm_ack_frame_spec a g k sp t : reachable a g -> sel sp (discarded a) = false -> valid_ack k -> is_u64 (delay_time k) ->
  exists a', ossl_ackm_on_rx_ack_frame now k sp t a = (Ok tt, a') /\
    pk sp a' = filter (fun q => ~ acks k q /\ ~ given_up now k sp a q) (pk sp a) /\
    (forall sp', sp' <> sp -> pk sp' a' = pk sp' a) /\
    reports (log a') = (acked_cb <$> filter (acks k) (pk sp a))
      ++ reverse (lost_cb <$> filter (fun q => ~ acks k q /\ given_up now k sp a q) (pk sp a)) ++ reports (log a).
Proof.
  intros Hr Hd Hk Hdt. pose proof (ri_inv _ _ (reachable_inv a g Hr)) as Hi.
  destruct (on_rx_ack_frame_ok now now_range _ _ k sp t a Hi Hd Hk Hdt) as (a' & E & _ & _ & _ & Hp & Hp' & _ & Hl).
  exists a'. split_and!; try done.
  - rewrite Hp. unfold unanswered. rewrite list_filter_filter. apply list_filter_iff. tauto.
  - rewrite Hl. unfold newly, unanswered. rewrite fmap_reverse, reverse_involutive, list_filter_filter. do 4 f_equal.
    apply list_filter_iff. tauto.
Qed.

(** C34: A packet number that was recorded once is never processable again in
    its space, however acknowledgements and the limit of 32 ranges trim the history,
    and a number that was never recorded is processable unless the watermark passed it. *)
Theorem ackm_no_duplicates a g sp pn : reachable a g -> sel sp (discarded a) = false ->
  exists b, ossl_ackm_is_rx_pn_processable pn sp a = (Ok b, a) /\
    ((sp, pn) ∈ g_seen g -> b = false) /\
    ((sp, pn) ∉ g_seen g -> rx_watermark (history sp a) <= pn -> b = true) /\
    zlen (rx_items (history sp a)) <= MAX_RX_ACK_RANGES.
Proof.
  intros Hr Hd. pose proof (reachable_inv a g Hr) as Hi. pose proof (so_rx _ _ _ (ai_space _ _ _ _ (ri_inv _ _ Hi) sp) Hd) as Hrx.
  destruct (is_rx_pn_processable_ok pn sp a Hd Hrx) as (b & E & Hb). exists b. split_and!; [done|..|apply Hrx].
  - intros Hs. destruct Hb as [[_ Hn]|[-> _]]; [|done]. by destruct Hn; apply (ri_seen _ _ Hi).
  - intros Hs Hw. destruct Hb as [[-> _]|[_ [Hk|Hk]]]; [done|lia|]. by destruct Hs; apply (ri_sound _ _ Hi).
Qed.

(** C35: The ACK frame generated for a space can be encoded, and it acknowledges only
    packet numbers that were received and that the watermark has not passed; of those it
    acknowledges all when they form at most three ranges, and all from the lowest
    number that it acknowledges up otherwise. A packet that was received with a number above
    all others of its space is acknowledged by the next frame. *)
Theorem ackm_ack_frames_sound a g sp : reachable a g -> sel sp (discarded a) = false ->
  (exists k a', ossl_ackm_get_ack_frame now sp a = (Ok k, a') /\
     num_ack_ranges k = zlen (ack_ranges k) /\ ranges_ok (ack_ranges k) /\
     (forall pn, acked_by (ack_ranges k) pn = true -> (sp, pn) ∈ g_seen g /\ rx_watermark (history sp a) <= pn) /\
     (forall pn, (sp, pn) ∈ g_seen g -> rx_watermark (history sp a) <= pn ->
        zlen (rx_items (history sp a)) <= 3 \/ (exists x, acked_by (ack_ranges k) x = true /\ x <= pn) ->
        acked_by (ack_ranges k) pn = true)) /\
  (forall p a1, rp_pkt_space p = sp -> 0 <= rp_pkt_num p < QUIC_PN_LIMIT -> ossl_ackm_on_rx_packet p a = (Ok tt, a1) ->
     rx_watermark (history sp a) <= rp_pkt_num p -> (forall x, (sp, x) ∈ g_seen g -> x <= rp_pkt_num p) ->
     exists k a2, ossl_ackm_get_ack_frame now sp a1 = (Ok k, a2) /\ acked_by (ack_ranges k) (rp_pkt_num p) = true).
Proof.
  intros Hr Hd. pose proof (reachable_inv a g Hr) as Hi. pose proof (so_rx _ _ _ (ai_space _ _ _ _ (ri_inv _ _ Hi) sp) Hd) as Hrx. split.
  - destruct (get_ack_frame_ok now _ _ sp a (ri_inv _ _ Hi) Hd) as (k & a' & E & _ & _ & _ & _ & Hn & Hk).
    destruct (frame_sound _ _ Hrx Hk) as (F1 & _ & _ & F4 & F5 & F6 & _). exists k, a'. split_and!; try done.
    + intros pn Hp%F4. split; [by apply (ri_sound _ _ Hi)|]. by apply rx_unacked_above.
    + intros pn Hs Hw Hc. destruct (ri_seen _ _ Hi sp pn Hd Hs) as [?|Hu]; [lia|].
      destruct Hc as [Hz|(x & Hx & Hle)]; [by apply F5|by apply (F6 pn x)].
  - intros p a1 <- Hn E Hw Hmax.
    destruct (on_rx_packet_ok _ _ p a (ri_inv _ _ Hi) Hd (ri_framed _ _ Hi _ Hd) Hn) as (r & a1' & E' & Ro & Hi1 & _ & _ & Hu & _ & Hm).
    rewrite E in E'. injection E' as <- <-. assert (Hd1 : sel (rp_pkt_space p) (discarded a1) = false) by (by rewrite (ro_discarded _ _ _ Ro)).
    assert (Hle : forall x, unacked (history (rp_pkt_space p) a) x -> x <= rp_pkt_num p) by (intros x Hx; apply Hmax; by apply (ri_sound _ _ Hi)).
    specialize (Hm eq_refl Hw Hle).
    destruct (get_ack_frame_ok now _ _ _ a1 Hi1 Hd1) as (k & a2 & E2 & _ & _ & _ & _ & _ & Hk). exists k, a2. split; [done|].
    pose proof (so_rx _ _ _ (ai_space _ _ _ _ Hi1 (rp_pkt_space p)) Hd1) as Hrx1.
    destruct (frame_sound _ _ Hrx1 Hk) as (_ & _ & _ & F4 & _ & F6 & F7). destruct (F7 _ Hm) as [x Hx]. apply (F6 _ x Hm Hx).
    destruct (Hu x (F4 x Hx)) as [Hu'|[-> _]]; [by apply Hle|done].
Qed.

(** When the timer expires: if a loss time is pending, the packets of its space
    that the loss rules condemn now are taken out and reported lost, and no
    probe is sent; otherwise no packet is touched, exactly one more probe is
    requested and the back-off counter is increased. *)
Theorem ackm_timeout_spec a g : reachable a g -> ossl_ackm_get_loss_detection_deadline a <> 0 ->
  let sp := snd (ackm_get_loss_time_and_space a) in
  exists a', ossl_ackm_on_timeout now a = (Ok tt, a') /\
    if decide (fst (ackm_get_loss_time_and_space a) = 0) then
      tx a' = tx a /\ reports (log a') = reports (log a) /\ probed (ossl_ackm_get0_probe_request a') a /\
      pto_count (vars a') = u32 (pto_count (vars a) + 1)
    else
      pk sp a' = filter (fun q => ~ expired now sp a q) (pk sp a) /\ (forall sp', sp' <> sp -> pk sp' a' = pk sp' a) /\
      reports (log a') = reverse (lost_cb <$> filter (expired now sp a) (pk sp a)) ++ reports (log a) /\
      ossl_ackm_get0_probe_request a' = ossl_ackm_get0_probe_request a.
Proof.
  intros Hr Hd sp. pose proof (reachable_inv a g Hr) as Hi. destruct (decide _) as [Hz|Hz].
  - destruct (timeout_probe_ok now _ _ _ a (ri_inv _ _ Hi) (ri_timer _ _ Hi) Hd Hz) as (a' & E & _ & _ & Et & _ & _ & Hl & Hp & Hc).
    by exists a'.
  - destruct (timeout_lost_ok now _ _ a (ri_inv _ _ Hi) Hz) as (a' & E & _ & _ & _ & _ & Ev & Hp & Hp' & Hl). exists a'.
    split_and!; try done. unfold ossl_ackm_get0_probe_request. rewrite Ev. by destruct (vars a).
Qed.

(** The handler of an ACK frame looks for the packet with the largest
    acknowledged number after it removed the acknowledged packets from the history, so that an increased
    ECN-CE count never reaches the congestion controller: whatever was removed
    before, the ECN step of the handler leaves the controller alone. *)
Theorem ackm_ecn_not_reported a g k sp : reachable a g -> sel sp (discarded a) = false -> valid_ack k ->
  let '(_, a1) := ackm_detect_and_remove_newly_acked_pkts k sp a in
  exists a2, ackm_process_ecn k sp a1 = (Ok tt, a2) /\ cc_data a2 = cc_data a.
Proof.
  intros Hr Hd Hk. pose proof (ri_inv _ _ (reachable_inv a g Hr)) as Hi.
  destruct (detect_acked_ok _ _ [] a k sp Hi Hd Hk) as (h & E & Hp & Hi1). rewrite E. set (a1 := with_tx sp _ a) in *.
  destruct (process_ecn_ok _ _ _ k sp a1 Hi1) as (t & Et & _); [done|done| |by eexists].
  intros q. unfold a1. rewrite pk_with_tx, decide_True by done. cbn [set_tx_history tx_history]. rewrite Hp.
  by intros [Hq _]%list_elem_of_filter.
Qed.

(** However many ranges of received packet numbers are recorded, up to 32,
    a generated frame carries at most three of them, the highest ones: the loop is bounded by the number
    of elements of the outer array, one for each packet number space. *)
Theorem ackm_frames_three_ranges a g sp : reachable a g -> sel sp (discarded a) = false ->
  exists k a', ossl_ackm_get_ack_frame now sp a = (Ok k, a') /\
    zlen (ack_ranges k) = Z.min QUIC_PN_SPACE_NUM (zlen (rx_items (history sp a))) /\
    ack_ranges k = to_ack <$> ztake QUIC_PN_SPACE_NUM (reverse (rx_items (history sp a))).
Proof.
  intros Hr Hd. pose proof (reachable_inv a g Hr) as Hi.
  destruct (get_ack_frame_ok now _ _ sp a (ri_inv _ _ Hi) Hd) as (k & a' & E & _ & _ & _ & _ & _ & Hk).
  exists k, a'. split_and!; try done. rewrite Hk, ztake_take, !zlen_length, length_fmap, length_take, length_reverse. unfold QUIC_PN_SPACE_NUM. lia.
Qed.

End Run.

(** ** A run *)

(** Performing a list of operations. *)
Section Perform.
Context {D : Type} `{CongestionControlLaws D}.
Context (now : nat -> OSSL_TIME).

Fixpoint perform (os : list ackm_op) (s : OSSL_ACKM D * ghost) : OSSL_ACKM D * ghost :=
  match os with
  | [] => s
  | o :: os' => let (r, a') := exec now o (fst s) in perform os' (a', account o r (fst s) (snd s))
  end.

Fixpoint all_legal (os : list ackm_op) (a : OSSL_ACKM D) : Prop :=
  match os with
  | [] => True
  | o :: os' => legal o a /\ all_legal os' (snd (exec now o a))
  end.

Lemma perform_reachable os : forall a g, reachable now a g -> all_legal os a ->
  reachable now (fst (perform os (a, g))) (snd (perform os (a, g))).
Proof.
  induction os as [|o os IH]; intros a g Hr Hl; [done|]. destruct Hl as [Hl Hls]. cbn [perform fst snd].
  destruct (exec now o a) as [r a'] eqn:E. apply IH; [|done]. by eapply reach_step.
Qed.

End Perform.

Module Demo.

(** A clock that advances by a millisecond with each reading. *)
Definition clock (n : nat) : OSSL_TIME := (1000000000 + Z.of_nat n mod 1000 * 1000000)%Z.

Lemma clock_range n : is_u64 (clock n).
Proof. unfold clock, is_u64, U64_MOD. pose proof (Z.mod_pos_bound (Z.of_nat n) 1000 ltac:(lia)). lia. Qed.

#[local] Instance cc : CongestionControl NR := newreno_cc clock.
#[local] Instance laws : CongestionControlLaws NR := newreno_laws clock.

(** The content of an option that has one. *)
Definition the {A : Type} (x : option A) : match x return Type with Some _ => A | None => unit end :=
  match x with Some y => y | None => tt end.

Definition controller : NR := the (fst (newreno_new [] ∅)).
Definition start : OSSL_ACKM NR :=
  the (ossl_ackm_new true (mkPer [] [] []) (mkPer [] [] []) ossl_statm_init controller false).

Lemma start_fresh : fresh start.
Proof.
  exists (mkPer [] [] []), (mkPer [] [] []), ossl_statm_init, controller, false. split_and!.
  - intros []; apply not_elem_of_nil.
  - vm_compute. split_and!; congruence.
  - vm_compute. split; congruence.
  - reflexivity.
  - reflexivity.
Qed.

Definition tx_pkt (pn t : Z) : ackm_op := Op_tx (mkTxPkt pn 1200 t QUIC_PN_INVALID QUIC_PN_SPACE_APP true true (100 + pn)).
Definition rx_pkt (pn : Z) : ackm_op := Op_rx (mkRxPkt pn 1000 QUIC_PN_SPACE_APP true OSSL_ACKM_ECN_NONE).
Definition frame (l : list OSSL_QUIC_ACK_RANGE) : OSSL_QUIC_FRAME_ACK := mkAck l (zlen l) 0 0 0 1 true.

(** Five packets are sent, three received and the fifth acknowledged. *)
Definition sends : list ackm_op :=
  [tx_pkt 0 100; tx_pkt 1 110; tx_pkt 2 120; tx_pkt 3 130; tx_pkt 4 140; rx_pkt 0; rx_pkt 2; rx_pkt 4].
Definition ops : list ackm_op := sends ++ [Op_ack (frame [mkAckRange 4 4]) QUIC_PN_SPACE_APP 200].

Lemma frame_valid : valid_ack (frame [mkAckRange 4 4]).
Proof.
  split; [done|done| |].
  - split; [done|]. split; [|done]. by intros r ?%elem_of_nil.
  - repeat constructor; cbn; unfold QUIC_PN_LIMIT; lia.
Qed.

Ltac is_legal :=
  repeat (split; [cbn [legal tx_pkt rx_pkt];
    lazymatch goal with
    | |- _ /\ tx_typed _ /\ _ =>
        split; [vm_compute; reflexivity|]; split; [|split; vm_compute; reflexivity];
        split; [vm_compute; split; congruence..|left; reflexivity]
    | |- _ /\ valid_ack _ /\ _ => split; [vm_compute; reflexivity|split; [apply frame_valid|vm_compute; split; congruence]]
    | |- _ => vm_compute; first [exact I|split_and!; congruence]
    end|]); exact I.

Lemma sends_legal : all_legal clock sends start.
Proof. is_legal. Qed.

Lemma ops_legal : all_legal clock ops start.
Proof. is_legal. Qed.

Definition arrivals : list ackm_op := [rx_pkt 0; rx_pkt 2; rx_pkt 4; rx_pkt 6].

Lemma arrivals_legal : all_legal clock arrivals start.
Proof. is_legal. Qed.

Definition before : OSSL_ACKM NR * ghost := perform clock sends (start, nothing).
Definition after : OSSL_ACKM NR * ghost := perform clock ops (start, nothing).
Definition gaps : OSSL_ACKM NR * ghost :=
  perform clock arrivals (start, nothing).

Definition confirmed : OSSL_ACKM NR * ghost := perform clock (sends ++ [Op_confirmed]) (start, nothing).

Lemma confirmed_reachable : reachable clock (fst confirmed) (snd confirmed).
Proof. apply (perform_reachable clock _ _ _ (reach_new clock start start_fresh)). is_legal. Qed.

Lemma before_reachable : reachable clock (fst before) (snd before).
Proof. exact (perform_reachable clock sends _ _ (reach_new clock start start_fresh) sends_legal). Qed.

Lemma after_reachable : reachable clock (fst after) (snd after).
Proof. exact (perform_reachable clock ops _ _ (reach_new clock start start_fresh) ops_legal). Qed.

Lemma gaps_reachable : reachable clock (fst gaps) (snd gaps).
Proof. exact (perform_reachable clock arrivals _ _ (reach_new clock start start_fresh) arrivals_legal). Qed.

Lemma ackm_bytes_conserved_witness :
  let a := fst after in
  flight (outstanding a) = 2400 /\
  bytes_in_flight (vars a) = flight (outstanding a) /\
  (forall sp, ack_eliciting_bytes_in_flight (sel sp (tx a)) = elicit (pk sp a)) /\
  ackm_ack_eliciting_bytes_in_flight a = elicit (outstanding a) /\
  cc_in_flight (cc_data a) = bytes_in_flight (vars a) + g_pseudo (snd after).
Proof.
  split; [vm_compute; reflexivity|]. apply (ackm_bytes_conserved clock clock_range _ _ after_reachable).
Defined.

Lemma ackm_packet_fates_witness :
  length (g_sent (snd after)) = 5%nat /\
  g_sent (snd after) ≡ₚ (ident_of <$> outstanding (fst after)) ++ fates (log (fst after)).
Proof.
  split; [vm_compute; reflexivity|]. apply (ackm_packet_fates clock clock_range _ _ after_reachable).
Defined.

(** With the handshake confirmed and no packet acknowledged, the timer is not infinite:
    the last packet was sent at 140, and the initial estimate of the RTT is 333 ms. *)
Lemma ackm_no_assertion_fails_witness :
  let a := fst confirmed in
  fst (exec clock Op_timeout a) <> Ub /\ ossl_ackm_get_loss_detection_deadline a <> 0 /\
  ossl_ackm_get_loss_detection_deadline a <= 140 + 333000000 + 4 * 166500000 + 25000000.
Proof.
  destruct (ackm_no_assertion_fails clock clock_range _ _ Op_timeout confirmed_reachable) as (H1 & _ & H2); [vm_compute; congruence|].
  split; [exact H1|]. destruct (pk QUIC_PN_SPACE_APP (fst confirmed)) as [|q l] eqn:E; [vm_compute in E; discriminate|].
  apply (H2 ltac:(vm_compute; reflexivity) QUIC_PN_SPACE_APP q); [rewrite E; left|vm_compute in E; injection E as <-; reflexivity
    |intros _; vm_compute; reflexivity|vm_compute; congruence].
Defined.

Lemma ackm_ack_frame_spec_witness :
  let a := fst before in
  let sp := QUIC_PN_SPACE_APP in
  let k := frame [mkAckRange 4 4] in
  exists a', ossl_ackm_on_rx_ack_frame clock k sp 200 a = (Ok tt, a') /\
    pk sp a' = filter (fun q => ~ acks k q /\ ~ given_up clock k sp a q) (pk sp a) /\
    (forall sp', sp' <> sp -> pk sp' a' = pk sp' a) /\
    reports (log a') = (acked_cb <$> filter (acks k) (pk sp a))
      ++ reverse (lost_cb <$> filter (fun q => ~ acks k q /\ given_up clock k sp a q) (pk sp a)) ++ reports (log a).
Proof.
  apply (ackm_ack_frame_spec clock clock_range _ (snd before) (frame [mkAckRange 4 4]) QUIC_PN_SPACE_APP 200 before_reachable).
  - vm_compute. reflexivity.
  - apply frame_valid.
  - vm_compute. split; congruence.
Defined.

Lemma ackm_no_duplicates_witness :
  exists b, ossl_ackm_is_rx_pn_processable 2 QUIC_PN_SPACE_APP (fst gaps) = (Ok b, fst gaps) /\
    ((QUIC_PN_SPACE_APP, 2) ∈ g_seen (snd gaps) -> b = false) /\
    ((QUIC_PN_SPACE_APP, 2) ∉ g_seen (snd gaps) -> rx_watermark (history QUIC_PN_SPACE_APP (fst gaps)) <= 2 -> b = true) /\
    zlen (rx_items (history QUIC_PN_SPACE_APP (fst gaps))) <= MAX_RX_ACK_RANGES.
Proof.
  apply (ackm_no_duplicates clock clock_range _ _ QUIC_PN_SPACE_APP 2 gaps_reachable). vm_compute. reflexivity.
Defined.

(** The packets 0, 2 and 4 were received; packet 6 is acknowledged when it arrives. *)
Lemma ackm_ack_frames_sound_witness :
  let a := fst after in
  let sp := QUIC_PN_SPACE_APP in
  exists k a' a1 k1 a2, ossl_ackm_get_ack_frame clock sp a = (Ok k, a') /\ acked_by (ack_ranges k) 2 = true /\
    ossl_ackm_on_rx_packet (mkRxPkt 6 1000 sp true OSSL_ACKM_ECN_NONE) a = (Ok tt, a1) /\
    ossl_ackm_get_ack_frame clock sp a1 = (Ok k1, a2) /\ acked_by (ack_ranges k1) 6 = true.
Proof.
  destruct (ackm_ack_frames_sound clock clock_range _ _ QUIC_PN_SPACE_APP after_reachable) as ((k & a' & E & _ & _ & _ & H) & H'); [vm_compute; reflexivity|].
  destruct (ossl_ackm_on_rx_packet (mkRxPkt 6 1000 QUIC_PN_SPACE_APP true OSSL_ACKM_ECN_NONE) (fst after)) as [r a1] eqn:E1.
  assert (Er : r = Ok tt) by (pose proof (f_equal fst E1) as Er; vm_compute in Er; by rewrite <-Er).
  subst r. destruct (H' (mkRxPkt 6 1000 QUIC_PN_SPACE_APP true OSSL_ACKM_ECN_NONE) a1 eq_refl ltac:(vm_compute; split; congruence) E1) as (k1 & a2 & E2 & Hk); [vm_compute; congruence| |].
  { vm_compute. intros x Hx. repeat (apply elem_of_cons in Hx as [[= ->]|Hx]; [congruence|]). by apply elem_of_nil in Hx. }
  exists k, a', a1, k1, a2. split; [exact E|]. split; [|split; [exact E1|split; [exact E2|exact Hk]]].
  apply H; [vm_compute; right; left|vm_compute; congruence|left; vm_compute; congruence].
Defined.

Lemma ackm_timeout_spec_witness :
  let a := fst after in
  let sp := snd (ackm_get_loss_time_and_space a) in
  exists a', ossl_ackm_on_timeout clock a = (Ok tt, a') /\
    if decide (fst (ackm_get_loss_time_and_space a) = 0) then
      tx a' = tx a /\ reports (log a') = reports (log a) /\ probed (ossl_ackm_get0_probe_request a') a /\
      pto_count (vars a') = u32 (pto_count (vars a) + 1)
    else
      pk sp a' = filter (fun q => ~ expired clock sp a q) (pk sp a) /\ (forall sp', sp' <> sp -> pk sp' a' = pk sp' a) /\
      reports (log a') = reverse (lost_cb <$> filter (expired clock sp a) (pk sp a)) ++ reports (log a) /\
      ossl_ackm_get0_probe_request a' = ossl_ackm_get0_probe_request a.
Proof.
  apply (ackm_timeout_spec clock clock_range _ _ after_reachable). vm_compute. congruence.
Defined.

Lemma ackm_ecn_not_reported_witness :
  let '(_, a1) := ackm_detect_and_remove_newly_acked_pkts (frame [mkAckRange 4 4]) QUIC_PN_SPACE_APP (fst before) in
  exists a2, ackm_process_ecn (frame [mkAckRange 4 4]) QUIC_PN_SPACE_APP a1 = (Ok tt, a2) /\ cc_data a2 = cc_data (fst before).
Proof.
  apply (ackm_ecn_not_reported clock clock_range _ _ (frame [mkAckRange 4 4]) QUIC_PN_SPACE_APP before_reachable).
  - vm_compute. reflexivity.
  - apply frame_valid.
Defined.

Lemma ackm_frames_three_ranges_witness :
  zlen (rx_items (history QUIC_PN_SPACE_APP (fst gaps))) = 4 /\
  exists k a', ossl_ackm_get_ack_frame clock QUIC_PN_SPACE_APP (fst gaps) = (Ok k, a') /\
    zlen (ack_ranges k) = Z.min QUIC_PN_SPACE_NUM (zlen (rx_items (history QUIC_PN_SPACE_APP (fst gaps)))) /\
    ack_ranges k = to_ack <$> ztake QUIC_PN_SPACE_NUM (reverse (rx_items (history QUIC_PN_SPACE_APP (fst gaps)))).
Proof.
  split; [vm_compute; reflexivity|].
  apply (ackm_frames_three_ranges clock clock_range _ _ QUIC_PN_SPACE_APP gaps_reachable). vm_compute. reflexivity.
Defined.

End Demo.
