(* ===== verification/Cfq.v ===== *)
(** The control frame queue: ssl/quic/quic_cfq.c and include/internal/quic_cfq.h.

    Items are objects in a store, named by their address, since packets point to them
    through [pkt_next]; the three doubly linked lists are lists of addresses. The
    calls of the callbacks that free the buffers of frames are a log. *)

From stdpp Require Import base list numbers gmap sorting.
From Stdlib Require Import ZArith Lia.
From S2P Require Import Prelude.

#[local] Open Scope cfun_scope.

(** ** Definitions *)

Definition UINT32_MAX : Z := 4294967295.

Definition QUIC_CFQ_STATE_NEW : Z := 0.
Definition QUIC_CFQ_STATE_TX : Z := 1.
Definition QUIC_CFQ_ITEM_FLAG_UNRELIABLE : Z := 1.

(** [free_cb] is the callback with its argument, [None] for NULL. The field
    [pkt_prev] is never read. *)
Record QUIC_CFQ_ITEM_EX := mkItem {
  pkt_next : option Z;
  encoded : option (list Z);
  free_cb : option Z;
  frame_type : Z;
  encoded_len : Z;
  priority : Z;
  item_space : Z;
  flags : Z;
  state : Z
}.

Record QUIC_CFQ := mkCfq {
  cfq_items : gmap Z QUIC_CFQ_ITEM_EX;
  new_list : list Z;
  tx_list : list Z;
  free_list : list Z;
  freed : list (option (list Z) * Z * Z)
}.

Definition CS : Type := QUIC_CFQ * oracle.

Definition set_cfq_items (x : gmap Z QUIC_CFQ_ITEM_EX) (q : QUIC_CFQ) : QUIC_CFQ :=
  mkCfq x (new_list q) (tx_list q) (free_list q) (freed q).
Definition set_new_list (x : list Z) (q : QUIC_CFQ) : QUIC_CFQ :=
  mkCfq (cfq_items q) x (tx_list q) (free_list q) (freed q).
Definition set_tx_list (x : list Z) (q : QUIC_CFQ) : QUIC_CFQ :=
  mkCfq (cfq_items q) (new_list q) x (free_list q) (freed q).
Definition set_free_list (x : list Z) (q : QUIC_CFQ) : QUIC_CFQ :=
  mkCfq (cfq_items q) (new_list q) (tx_list q) x (freed q).

Definition set_pkt_next (x : option Z) (i : QUIC_CFQ_ITEM_EX) : QUIC_CFQ_ITEM_EX :=
  let 'mkItem _ b c d e f g h j := i in mkItem x b c d e f g h j.
Definition set_priority (x : Z) (i : QUIC_CFQ_ITEM_EX) : QUIC_CFQ_ITEM_EX :=
  let 'mkItem a b c d e _ g h j := i in mkItem a b c d e x g h j.
Definition set_state (x : Z) (i : QUIC_CFQ_ITEM_EX) : QUIC_CFQ_ITEM_EX :=
  let 'mkItem a b c d e f g h _ := i in mkItem a b c d e f g h x.

Definition on_cfq (f : QUIC_CFQ -> QUIC_CFQ) : M CS unit := modify (fun s => (f (fst s), snd s)).
Definition get_cfq : M CS QUIC_CFQ := let! s := get in ret (fst s).

(** [*n]. *)
Definition item (n : Z) : M CS QUIC_CFQ_ITEM_EX :=
  let! q := get_cfq in
  match cfq_items q !! n with Some i => ret i | None => undef end.

Definition set_item (n : Z) (i : QUIC_CFQ_ITEM_EX) : M CS unit :=
  on_cfq (fun q => set_cfq_items (<[n := i]> (cfq_items q)) q).

Definition ossl_quic_cfq_item_get_frame_type (n : Z) : M CS Z :=
  let! ex := item n in ret (frame_type ex).
Definition ossl_quic_cfq_item_get_encoded (n : Z) : M CS (option (list Z)) :=
  let! ex := item n in ret (encoded ex).
Definition ossl_quic_cfq_item_get_encoded_len (n : Z) : M CS Z :=
  let! ex := item n in ret (encoded_len ex).
Definition ossl_quic_cfq_item_get_state (n : Z) : M CS Z :=
  let! ex := item n in ret (state ex).
Definition ossl_quic_cfq_item_get_pn_space (n : Z) : M CS Z :=
  let! ex := item n in ret (item_space ex).

Definition unreliable (ex : QUIC_CFQ_ITEM_EX) : bool :=
  negb (Z.land (flags ex) QUIC_CFQ_ITEM_FLAG_UNRELIABLE =? 0).

Definition ossl_quic_cfq_item_is_unreliable (n : Z) : M CS bool :=
  let! ex := item n in ret (unreliable ex).

Definition compare (a b : QUIC_CFQ_ITEM_EX) : Z :=
  if item_space a <? item_space b then -1
  else if item_space a >? item_space b then 1
  else if priority a >? priority b then -1
  else if priority a <? priority b then 1
  else 0.

(** [None] when the item is not in the list. *)
Fixpoint list_remove (n : Z) (l : list Z) : option (list Z) :=
  match l with
  | [] => None
  | x :: l' => if x =? n then Some l'
               else match list_remove n l' with Some l'' => Some (x :: l'') | None => None end
  end.

Definition list_insert_tail (n : Z) (l : list Z) : list Z := l ++ [n].

(** Before the first item that does not compare as less. *)
Fixpoint list_insert_sorted (n : Z) (l : list Z) : M CS (list Z) :=
  match l with
  | [] => ret [n]
  | p :: l' =>
      let! a := item p in
      let! b := item n in
      if compare a b <? 0 then let! r := list_insert_sorted n l' in ret (p :: r)
      else ret (n :: p :: l')
  end.

Definition remove_from (sel : QUIC_CFQ -> list Z) (upd : list Z -> QUIC_CFQ -> QUIC_CFQ) (n : Z)
  : M CS unit :=
  let! q := get_cfq in
  match list_remove n (sel q) with
  | Some l => on_cfq (upd l)
  | None => undef
  end.

Definition insert_new (n : Z) : M CS unit :=
  let! q := get_cfq in
  let! l := list_insert_sorted n (new_list q) in
  on_cfq (set_new_list l).

Definition ossl_quic_cfq_new (o : oracle) : option QUIC_CFQ * oracle :=
  let (ok, o) := alloc o in
  (if ok then Some (mkCfq ∅ [] [] [] []) else None, o).

Definition clear_item (n : Z) : M CS unit :=
  let! ex := item n in
  (match free_cb ex with
   | Some arg =>
       on_cfq (fun q => mkCfq (cfq_items q) (new_list q) (tx_list q) (free_list q)
                          ((encoded ex, encoded_len ex, arg) :: freed q)) ;;;
       set_item n (mkItem (pkt_next ex) None None (frame_type ex) 0 (priority ex)
                     (item_space ex) (flags ex) (state ex))
   | None => ret tt
   end) ;;;
  let! ex := item n in
  set_item n (set_state (-1) ex).

Fixpoint free_list_items (l : list Z) : M CS unit :=
  match l with
  | [] => ret tt
  | p :: l' =>
      clear_item p ;;;
      on_cfq (fun q => set_cfq_items (delete p (cfq_items q)) q) ;;;
      free_list_items l'
  end.

(** The structure itself is released too; what is left is the log. *)
Definition ossl_quic_cfq_free : M CS unit :=
  let! q := get_cfq in
  free_list_items (new_list q) ;;;
  free_list_items (tx_list q) ;;;
  free_list_items (free_list q).

(** A zeroed item. *)
Definition zero_item : QUIC_CFQ_ITEM_EX := mkItem None None None 0 0 0 0 0 0.

Definition cfq_get_free : M CS Z :=
  let! s := get in
  match free_list (fst s) with
  | n :: _ => ret n
  | [] =>
      let (ok, o) := alloc (snd s) in
      put (fst s, o) ;;;
      if ok then
        let n := fresh (dom (cfq_items (fst s))) in
        set_item n (set_state (-1) zero_item) ;;;
        on_cfq (fun q => set_free_list (list_insert_tail n (free_list q)) q) ;;;
        ret n
      else fail
  end.

(** The handle of the item. *)
Definition ossl_quic_cfq_add_frame (prio pn_space type fl : Z) (enc : option (list Z)) (enc_len : Z)
    (cb : option Z) : M CS Z :=
  let! n := cfq_get_free in
  let! ex := item n in
  set_item n (mkItem (pkt_next ex) enc cb type enc_len prio pn_space fl QUIC_CFQ_STATE_NEW) ;;;
  remove_from free_list set_free_list n ;;;
  insert_new n ;;;
  ret n.

Definition ossl_quic_cfq_mark_tx (n : Z) : M CS unit :=
  let! ex := item n in
  if state ex =? QUIC_CFQ_STATE_NEW then
    remove_from new_list set_new_list n ;;;
    on_cfq (fun q => set_tx_list (list_insert_tail n (tx_list q)) q) ;;;
    set_item n (set_state QUIC_CFQ_STATE_TX ex)
  else if state ex =? QUIC_CFQ_STATE_TX then ret tt
  else undef.

Definition ossl_quic_cfq_release (n : Z) : M CS unit :=
  let! ex := item n in
  if state ex =? QUIC_CFQ_STATE_NEW then
    remove_from new_list set_new_list n ;;;
    on_cfq (fun q => set_free_list (list_insert_tail n (free_list q)) q) ;;;
    clear_item n
  else if state ex =? QUIC_CFQ_STATE_TX then
    remove_from tx_list set_tx_list n ;;;
    on_cfq (fun q => set_free_list (list_insert_tail n (free_list q)) q) ;;;
    clear_item n
  else undef.

Definition ossl_quic_cfq_mark_lost (n prio : Z) : M CS unit :=
  let! u := ossl_quic_cfq_item_is_unreliable n in
  if u then ossl_quic_cfq_release n
  else
    let! ex := item n in
    if state ex =? QUIC_CFQ_STATE_NEW then
      if negb (prio =? UINT32_MAX) && negb (prio =? priority ex) then
        remove_from new_list set_new_list n ;;;
        set_item n (set_priority prio ex) ;;;
        insert_new n
      else ret tt
    else if state ex =? QUIC_CFQ_STATE_TX then
      (if negb (prio =? UINT32_MAX) then set_item n (set_priority prio ex) else ret tt) ;;;
      remove_from tx_list set_tx_list n ;;;
      insert_new n ;;;
      let! ex := item n in
      set_item n (set_state QUIC_CFQ_STATE_NEW ex)
    else undef.

(** The first item of the space in a list. *)
Fixpoint find_space (pn_space : Z) (l : list Z) : M CS (option Z) :=
  match l with
  | [] => ret None
  | n :: l' =>
      let! ex := item n in
      if item_space ex =? pn_space then ret (Some n) else find_space pn_space l'
  end.

Definition ossl_quic_cfq_get_priority_head (pn_space : Z) : M CS (option Z) :=
  let! q := get_cfq in find_space pn_space (new_list q).

(** What follows the item in the list. *)
Fixpoint list_after (n : Z) (l : list Z) : option (list Z) :=
  match l with
  | [] => None
  | x :: l' => if x =? n then Some l' else list_after n l'
  end.

(** [next] leads through the list the item is in. *)
Definition following (n : Z) (q : QUIC_CFQ) : list Z :=
  match list_after n (new_list q) with
  | Some l => l
  | None => match list_after n (tx_list q) with
            | Some l => l
            | None => default [] (list_after n (free_list q))
            end
  end.

Definition ossl_quic_cfq_item_get_priority_next (n : option Z) (pn_space : Z) : M CS (option Z) :=
  match n with
  | None => ret None
  | Some n =>
      let! ex := item n in
      let! q := get_cfq in
      find_space pn_space (following n q)
  end.

(** ** Lemmas: the order *)

Lemma compare_total x y : compare x y < 0 \/ compare y x <= 0.
Proof. unfold compare. repeat case_match; lia. Qed.

Lemma compare_trans x y z : compare x y <= 0 -> compare y z <= 0 -> compare x z <= 0.
Proof. unfold compare. repeat case_match; lia. Qed.

(** The order of two items in a store. *)
Definition before (m : gmap Z QUIC_CFQ_ITEM_EX) (a b : Z) : Prop :=
  exists x y, m !! a = Some x /\ m !! b = Some y /\ compare x y <= 0.

(** What the order depends on. *)
Definition same_key (x y : QUIC_CFQ_ITEM_EX) : Prop :=
  item_space x = item_space y /\ priority x = priority y.

Lemma sorted_ext m m' l :
  (forall n, n ∈ l -> forall i, m !! n = Some i -> exists i', m' !! n = Some i' /\ same_key i i') ->
  StronglySorted (before m) l -> StronglySorted (before m') l.
Proof.
  intros Hm. induction 1 as [|a l _ IH Ha]; constructor.
  - apply IH. intros n Hn. apply Hm. by right.
  - rewrite Forall_forall in Ha |- *. intros b Hb. destruct (Ha b Hb) as (x & y & Ex & Ey & Hc).
    destruct (Hm a ltac:(by left) x Ex) as (x' & Ex' & Hx1 & Hx2).
    destruct (Hm b ltac:(by right) y Ey) as (y' & Ey' & Hy1 & Hy2).
    exists x', y'. split_and!; try done. unfold compare in *. by rewrite <- Hx1, <- Hx2, <- Hy1, <- Hy2.
Qed.

Lemma sorted_delete m l1 n l2 :
  StronglySorted (before m) (l1 ++ n :: l2) -> StronglySorted (before m) (l1 ++ l2).
Proof.
  induction l1 as [|a l1 IH]; cbn; intros [Hs Ha]%StronglySorted_inv; [done|]. constructor; [auto|].
  rewrite Forall_app, Forall_cons in Ha. rewrite Forall_app. naive_solver.
Qed.

(** ** Lemmas: the lists *)

Lemma list_remove_in n l :
  n ∈ l -> exists l1 l2, l = l1 ++ n :: l2 /\ list_remove n l = Some (l1 ++ l2).
Proof.
  induction l as [|x l IH]; [by intros ?%elem_of_nil|]. intros Hin. cbn.
  destruct (Z.eqb_spec x n) as [->|Hx]; [by exists [], l|].
  apply elem_of_cons in Hin as [?|Hin]; [done|]. destruct (IH Hin) as (l1 & l2 & -> & ->).
  by exists (x :: l1), l2.
Qed.

Lemma item_run n i q o : cfq_items q !! n = Some i -> item n (q, o) = (Ok i, (q, o)).
Proof. intros E. unfold item, get_cfq, bind, get, ret. cbn. by rewrite E. Qed.

Lemma insert_sorted_ok n i q o l :
  cfq_items q !! n = Some i -> StronglySorted (before (cfq_items q)) l ->
  (forall p, p ∈ l -> is_Some (cfq_items q !! p)) ->
  exists l', list_insert_sorted n l (q, o) = (Ok l', (q, o)) /\ l' ≡ₚ n :: l
  /\ StronglySorted (before (cfq_items q)) l'.
Proof.
  intros En Hs Hl. induction Hs as [|p l Hs IH Hp].
  { exists [n]. split_and!; [done|done|repeat constructor]. }
  destruct (Hl p ltac:(by left)) as [a Ea]. cbn [list_insert_sorted].
  rewrite (bind_ok _ _ _ _ _ (item_run _ _ _ o Ea)), (bind_ok _ _ _ _ _ (item_run _ _ _ o En)).
  destruct (Z.ltb_spec (compare a i) 0) as [Hc|Hc].
  - destruct IH as (r & Er & Hr & Hsr). { intros x Hx. apply Hl. by right. }
    rewrite (bind_ok _ _ _ _ _ Er). exists (p :: r). split_and!; [done| |].
    + rewrite Hr. apply Permutation_swap.
    + constructor; [done|]. rewrite Hr. constructor; [|done]. exists a, i. split_and!; try done. lia.
  - exists (n :: p :: l). split_and!; [done|done|]. destruct (compare_total a i) as [?|Hi]; [lia|].
    constructor; [by constructor|]. constructor; [by exists i, a|].
    apply (Forall_impl _ _ _ Hp). intros b (x & y & Ex & Ey & Hxy). exists i, y. split_and!; try done.
    simplify_eq. by eapply compare_trans.
Qed.

(** ** The invariant *)

(** Every item is in exactly one list, the one that its state says; the list of new
    items is sorted; a free item has no buffer to be freed. *)
Definition placed (q : QUIC_CFQ) (n : Z) (i : QUIC_CFQ_ITEM_EX) : Prop :=
  (n ∈ new_list q /\ state i = QUIC_CFQ_STATE_NEW)
  \/ (n ∈ tx_list q /\ state i = QUIC_CFQ_STATE_TX)
  \/ (n ∈ free_list q /\ state i = -1 /\ free_cb i = None).

Record cfq_ok (q : QUIC_CFQ) : Prop := {
  co_nodup : NoDup (new_list q ++ tx_list q ++ free_list q);
  co_lists n : n ∈ new_list q ++ tx_list q ++ free_list q -> is_Some (cfq_items q !! n);
  co_placed n i : cfq_items q !! n = Some i -> placed q n i;
  co_sorted : StronglySorted (before (cfq_items q)) (new_list q)
}.

Lemma cfq_ok_new q o o' : ossl_quic_cfq_new o = (Some q, o') -> cfq_ok q.
Proof.
  unfold ossl_quic_cfq_new. destruct (alloc o) as [[] ?]; intros [= <- _]. split; cbn.
  - constructor.
  - by intros n ?%elem_of_nil.
  - intros n i. by rewrite lookup_empty.
  - constructor.
Qed.

Section Placed.
Context (q : QUIC_CFQ) (Hq : cfq_ok q).

(** The lists are disjoint. *)
Lemma lists_disjoint n :
  (n ∈ new_list q -> n ∉ tx_list q /\ n ∉ free_list q) /\ (n ∈ tx_list q -> n ∉ free_list q).
Proof using Hq.
  pose proof (co_nodup q Hq) as Hn. rewrite !NoDup_app in Hn. destruct Hn as (_ & H1 & _ & H2 & _).
  split; [|by apply H2]. intros Hin. specialize (H1 n Hin). rewrite elem_of_app in H1. naive_solver.
Qed.

Lemma new_item n : n ∈ new_list q -> exists i, cfq_items q !! n = Some i /\ state i = QUIC_CFQ_STATE_NEW.
Proof using Hq.
  intros Hin. destruct (co_lists q Hq n) as [i E]; [rewrite elem_of_app; by left|].
  exists i. split; [done|]. destruct (proj1 (lists_disjoint n) Hin).
  destruct (co_placed q Hq n i E) as [[_ ?]|[[? _]|[? _]]]; done.
Qed.

Lemma tx_item n : n ∈ tx_list q -> exists i, cfq_items q !! n = Some i /\ state i = QUIC_CFQ_STATE_TX.
Proof using Hq.
  intros Hin. destruct (co_lists q Hq n) as [i E]; [rewrite !elem_of_app; by right; left|].
  exists i. split; [done|]. pose proof (proj2 (lists_disjoint n) Hin).
  destruct (co_placed q Hq n i E) as [[Hn _]|[[_ ?]|[? _]]]; [|done|done].
  by destruct (proj1 (lists_disjoint n) Hn).
Qed.

End Placed.

(** ** Lemmas: the operations *)

(** An item gets a new place. *)
Lemma cfq_ok_move q q' n i' :
  cfq_ok q -> cfq_items q' = <[n := i']> (cfq_items q) ->
  new_list q' ++ tx_list q' ++ free_list q' ≡ₚ new_list q ++ tx_list q ++ free_list q ->
  (forall x, x <> n -> (x ∈ new_list q -> x ∈ new_list q') /\ (x ∈ tx_list q -> x ∈ tx_list q')
                       /\ (x ∈ free_list q -> x ∈ free_list q')) ->
  placed q' n i' -> StronglySorted (before (cfq_items q')) (new_list q') -> cfq_ok q'.
Proof.
  intros [Hn Hl Hp _] Ei HP Hx Hpn Hs. split; [by rewrite HP| | |done].
  - intros x. rewrite HP, Ei. intros Hin%Hl. destruct (decide (x = n)) as [->|?].
    + rewrite lookup_insert_eq. eauto.
    + by rewrite lookup_insert_ne.
  - intros x i. rewrite Ei. destruct (decide (x = n)) as [->|Hne].
    + rewrite lookup_insert_eq. by intros [= <-].
    + rewrite lookup_insert_ne by done. intros E. destruct (Hx x Hne) as (H1 & H2 & H3).
      destruct (Hp x i E) as [[? ?]|[[? ?]|[? ?]]]; unfold placed; naive_solver.
Qed.

(** What an operation on the item [n] leaves alone. *)
Record keeps (n : Z) (q q' : QUIC_CFQ) : Prop := {
  kp_ok : cfq_ok q';
  kp_other x : x <> n -> cfq_items q' !! x = cfq_items q !! x;
  kp_next i : cfq_items q !! n = Some i ->
              exists i', cfq_items q' !! n = Some i' /\ pkt_next i' = pkt_next i
}.

Lemma keeps_move q q' n i i' :
  cfq_ok q -> cfq_items q !! n = Some i -> pkt_next i' = pkt_next i ->
  cfq_items q' = <[n := i']> (cfq_items q) ->
  new_list q' ++ tx_list q' ++ free_list q' ≡ₚ new_list q ++ tx_list q ++ free_list q ->
  (forall x, x <> n -> (x ∈ new_list q -> x ∈ new_list q') /\ (x ∈ tx_list q -> x ∈ tx_list q')
                       /\ (x ∈ free_list q -> x ∈ free_list q')) ->
  placed q' n i' -> StronglySorted (before (cfq_items q')) (new_list q') -> keeps n q q'.
Proof.
  intros Hq Ei Hn E HP Hx Hp Hs. split; [by eapply cfq_ok_move| |].
  - intros x Hne. by rewrite E, lookup_insert_ne.
  - intros j ?. simplify_eq. exists i'. by rewrite E, lookup_insert_eq.
Qed.

Lemma remove_from_ok sel upd n q o :
  n ∈ sel q -> exists l1 l2, sel q = l1 ++ n :: l2
  /\ remove_from sel upd n (q, o) = (Ok tt, (upd (l1 ++ l2) q, o)).
Proof.
  intros Hin. destruct (list_remove_in n (sel q) Hin) as (l1 & l2 & El & Er). exists l1, l2.
  split; [done|]. unfold remove_from, get_cfq, bind, get, ret. cbn. by rewrite Er.
Qed.

(** The list of new items without one, which may have changed. *)
Lemma sorted_without q n i l1 l2 :
  cfq_ok q -> new_list q = l1 ++ n :: l2 ->
  StronglySorted (before (<[n := i]> (cfq_items q))) (l1 ++ l2).
Proof.
  intros [Hnd _ _ Hs] El. rewrite El in Hs, Hnd. apply NoDup_app in Hnd as [Hnd _].
  rewrite <- Permutation_middle, NoDup_cons in Hnd. destruct Hnd as [Hn _].
  refine (sorted_ext _ _ _ _ (sorted_delete _ _ _ _ Hs)). intros x Hx j Ej. exists j.
  split; [|done]. rewrite lookup_insert_ne; [done|]. by intros ->.
Qed.

Lemma sorted_elsewhere q n i :
  cfq_ok q -> n ∉ new_list q -> StronglySorted (before (<[n := i]> (cfq_items q))) (new_list q).
Proof.
  intros Hq Hn. refine (sorted_ext _ _ _ _ (co_sorted q Hq)). intros x Hx j Ej. exists j.
  split; [|done]. rewrite lookup_insert_ne; [done|]. by intros ->.
Qed.

Lemma mark_tx_ok q o n i :
  cfq_ok q -> n ∈ new_list q -> cfq_items q !! n = Some i ->
  exists q', ossl_quic_cfq_mark_tx n (q, o) = (Ok tt, (q', o)) /\ keeps n q q'
  /\ new_list q ≡ₚ n :: new_list q' /\ tx_list q' = tx_list q ++ [n]
  /\ cfq_items q' !! n = Some (set_state QUIC_CFQ_STATE_TX i) /\ freed q' = freed q.
Proof.
  intros Hq Hin Ei. destruct (new_item q Hq n Hin) as (i0 & E & Hst). simplify_eq.
  destruct (remove_from_ok new_list set_new_list n q o Hin) as (l1 & l2 & El & Er).
  set (q' := mkCfq (<[n := set_state QUIC_CFQ_STATE_TX i]> (cfq_items q)) (l1 ++ l2)
               (tx_list q ++ [n]) (free_list q) (freed q)).
  exists q'. unfold ossl_quic_cfq_mark_tx.
  rewrite (bind_ok _ _ _ _ _ (item_run _ _ _ o Ei)), Hst. cbn [QUIC_CFQ_STATE_NEW Z.eqb].
  rewrite (bind_ok _ _ _ _ _ Er). split; [done|]. split; [|cbn; rewrite lookup_insert_eq].
  - apply (keeps_move q q' n i (set_state QUIC_CFQ_STATE_TX i)); try done; cbn.
    + by destruct i.
    + rewrite El. solve_Permutation.
    + intros x Hx. rewrite El. set_solver.
    + right. left. cbn. split; [set_solver|by destruct i].
    + by apply sorted_without.
  - split_and!; try done. by rewrite El, <- Permutation_middle.
Qed.

Definition cleared (i : QUIC_CFQ_ITEM_EX) : QUIC_CFQ_ITEM_EX :=
  match free_cb i with
  | Some _ => mkItem (pkt_next i) None None (frame_type i) 0 (priority i) (item_space i) (flags i) (-1)
  | None => set_state (-1) i
  end.

(** The call that frees the buffer of an item, if there is one. *)
Definition buffer_of (i : QUIC_CFQ_ITEM_EX) : list (option (list Z) * Z * Z) :=
  match free_cb i with
  | Some arg => [(encoded i, encoded_len i, arg)]
  | None => []
  end.

Lemma clear_item_ok q o n i :
  cfq_items q !! n = Some i ->
  clear_item n (q, o) = (Ok tt, (mkCfq (<[n := cleared i]> (cfq_items q)) (new_list q) (tx_list q)
                                   (free_list q) (buffer_of i ++ freed q), o)).
Proof.
  intros Ei. unfold clear_item, cleared, buffer_of. rewrite (bind_ok _ _ _ _ _ (item_run _ _ _ o Ei)).
  destruct (free_cb i) as [arg|].
  - unfold bind at 1. cbn. unfold item, get_cfq, bind, get, ret. cbn. rewrite lookup_insert_eq. cbn.
    unfold set_item, on_cfq, modify, set_cfq_items. cbn. by rewrite insert_insert_eq.
  - unfold bind at 1. cbn. by rewrite (bind_ok _ _ _ _ _ (item_run _ _ _ o Ei)).
Qed.

Lemma cleared_place i : state (cleared i) = -1 /\ free_cb (cleared i) = None
                        /\ pkt_next (cleared i) = pkt_next i.
Proof. unfold cleared. destruct (free_cb i) eqn:E; destruct i; cbn in *; by subst. Qed.

Lemma release_new_ok q o n i :
  cfq_ok q -> n ∈ new_list q -> cfq_items q !! n = Some i ->
  exists q', ossl_quic_cfq_release n (q, o) = (Ok tt, (q', o)) /\ keeps n q q'
  /\ new_list q ≡ₚ n :: new_list q' /\ tx_list q' = tx_list q
  /\ cfq_items q' !! n = Some (cleared i) /\ freed q' = buffer_of i ++ freed q.
Proof.
  intros Hq Hin Ei. destruct (cleared_place i) as (Hc1 & Hc2 & Hc3).
  destruct (new_item q Hq n Hin) as (i0 & E & Hst). simplify_eq.
  destruct (remove_from_ok new_list set_new_list n q o Hin) as (l1 & l2 & El & Er).
  set (q' := mkCfq (<[n := cleared i]> (cfq_items q)) (l1 ++ l2) (tx_list q) (free_list q ++ [n])
               (buffer_of i ++ freed q)).
  exists q'. unfold ossl_quic_cfq_release.
  rewrite (bind_ok _ _ _ _ _ (item_run _ _ _ o Ei)), Hst. cbn [QUIC_CFQ_STATE_NEW Z.eqb].
  rewrite (bind_ok _ _ _ _ _ Er). split; [|split; [|cbn; rewrite lookup_insert_eq]].
  - unfold bind at 1. cbn. by rewrite (clear_item_ok _ o n i).
  - apply (keeps_move q q' n i (cleared i)); try done; cbn.
    + rewrite El. solve_Permutation.
    + intros x Hx. rewrite El. set_solver.
    + right. right. cbn. split; [set_solver|done].
    + by apply sorted_without.
  - split_and!; try done. by rewrite El, <- Permutation_middle.
Qed.

Lemma release_tx_ok q o n i :
  cfq_ok q -> n ∈ tx_list q -> cfq_items q !! n = Some i ->
  exists q', ossl_quic_cfq_release n (q, o) = (Ok tt, (q', o)) /\ keeps n q q'
  /\ new_list q' = new_list q /\ tx_list q ≡ₚ n :: tx_list q'
  /\ cfq_items q' !! n = Some (cleared i) /\ freed q' = buffer_of i ++ freed q.
Proof.
  intros Hq Hin Ei. destruct (cleared_place i) as (Hc1 & Hc2 & Hc3).
  destruct (tx_item q Hq n Hin) as (i0 & E & Hst). simplify_eq.
  destruct (remove_from_ok tx_list set_tx_list n q o Hin) as (l1 & l2 & El & Er).
  set (q' := mkCfq (<[n := cleared i]> (cfq_items q)) (new_list q) (l1 ++ l2) (free_list q ++ [n])
               (buffer_of i ++ freed q)).
  exists q'. unfold ossl_quic_cfq_release.
  rewrite (bind_ok _ _ _ _ _ (item_run _ _ _ o Ei)), Hst. cbn [QUIC_CFQ_STATE_NEW QUIC_CFQ_STATE_TX Z.eqb Pos.eqb].
  rewrite (bind_ok _ _ _ _ _ Er). split; [|split; [|cbn; rewrite lookup_insert_eq]].
  - unfold bind at 1. cbn. by rewrite (clear_item_ok _ o n i).
  - apply (keeps_move q q' n i (cleared i)); try done; cbn.
    + rewrite El. solve_Permutation.
    + intros x Hx. rewrite El. set_solver.
    + right. right. cbn. split; [set_solver|done].
    + apply sorted_elsewhere; [done|]. intros Hn. by destruct (proj1 (lists_disjoint q Hq n) Hn).
  - split_and!; try done. by rewrite El, <- Permutation_middle.
Qed.

Lemma insert_new_ok q o n i :
  cfq_items q !! n = Some i -> StronglySorted (before (cfq_items q)) (new_list q) ->
  (forall p, p ∈ new_list q -> is_Some (cfq_items q !! p)) ->
  exists l, insert_new n (q, o) = (Ok tt, (set_new_list l q, o)) /\ l ≡ₚ n :: new_list q
  /\ StronglySorted (before (cfq_items q)) l.
Proof.
  intros Ei Hs Hl. destruct (insert_sorted_ok n i q o _ Ei Hs Hl) as (l & El & HP & Hsl).
  exists l. split; [|done]. unfold insert_new, get_cfq, bind at 1 2, get, ret. cbn.
  by rewrite (bind_ok _ _ _ _ _ El).
Qed.

(** The priority an item has after it was marked lost. *)
Definition lost_priority (prio : Z) (i : QUIC_CFQ_ITEM_EX) : QUIC_CFQ_ITEM_EX :=
  if prio =? UINT32_MAX then i else set_priority prio i.

Lemma mark_lost_tx_ok q o n i prio :
  cfq_ok q -> n ∈ tx_list q -> cfq_items q !! n = Some i -> unreliable i = false ->
  exists q', ossl_quic_cfq_mark_lost n prio (q, o) = (Ok tt, (q', o)) /\ keeps n q q'
  /\ new_list q' ≡ₚ n :: new_list q /\ tx_list q ≡ₚ n :: tx_list q'
  /\ cfq_items q' !! n = Some (set_state QUIC_CFQ_STATE_NEW (lost_priority prio i))
  /\ freed q' = freed q.
Proof.
  intros Hq Hin Ei Hu. destruct (tx_item q Hq n Hin) as (i0 & E & Hst). simplify_eq.
  set (i1 := lost_priority prio i). set (q1 := set_cfq_items (<[n := i1]> (cfq_items q)) q).
  destruct (remove_from_ok tx_list set_tx_list n q1 o Hin) as (l1 & l2 & El & Er).
  assert (n ∉ new_list q) as Hnn by (intros Hn; by destruct (proj1 (lists_disjoint q Hq n) Hn)).
  destruct (insert_new_ok (set_tx_list (l1 ++ l2) q1) o n i1) as (l & Ein & HP & Hsl).
  { cbn. by rewrite lookup_insert_eq. }
  { cbn. by apply sorted_elsewhere. }
  { cbn. intros p Hp. destruct (new_item q Hq p Hp) as (j & Ej & _). exists j.
    rewrite lookup_insert_ne; [done|]. by intros ->. }
  set (i' := set_state QUIC_CFQ_STATE_NEW i1).
  set (q' := mkCfq (<[n := i']> (cfq_items q)) l (l1 ++ l2) (free_list q) (freed q)).
  assert (pkt_next i' = pkt_next i /\ same_key i1 i') as [Hn Hk].
  { unfold i', i1, lost_priority, same_key. case_match; by destruct i. }
  exists q'. cbn in El, HP, Hsl. split; [|split].
  - unfold ossl_quic_cfq_mark_lost, ossl_quic_cfq_item_is_unreliable.
    unfold bind at 1. rewrite (bind_ok _ _ _ _ _ (item_run _ _ _ o Ei)), Hu. cbn [ret].
    rewrite (bind_ok _ _ _ _ _ (item_run _ _ _ o Ei)), Hst.
    cbn [QUIC_CFQ_STATE_NEW QUIC_CFQ_STATE_TX Z.eqb Pos.eqb].
    assert ((if negb (prio =? UINT32_MAX) then set_item n (set_priority prio i) else ret tt) (q, o)
            = (Ok tt, (q1, o))) as Ep.
    { unfold q1, i1, lost_priority. destruct (prio =? UINT32_MAX); [|done]. cbn.
      rewrite insert_id by done. by destruct q. }
    rewrite (bind_ok _ _ _ _ _ Ep), (bind_ok _ _ _ _ _ Er), (bind_ok _ _ _ _ _ Ein).
    assert (cfq_items (set_new_list l (set_tx_list (l1 ++ l2) q1)) !! n = Some i1) as E1
      by (cbn; by rewrite lookup_insert_eq).
    rewrite (bind_ok _ _ _ _ _ (item_run _ _ _ o E1)).
    unfold set_item, on_cfq, modify. cbn. by rewrite insert_insert_eq.
  - apply (keeps_move q q' n i i'); try done; cbn.
    + rewrite HP, El. solve_Permutation.
    + intros x Hx. rewrite HP, El. set_solver.
    + left. cbn. split; [rewrite HP; by left|]. unfold i'. by destruct i1.
    + refine (sorted_ext _ _ _ _ Hsl). intros x _ j Ej.
      destruct (decide (x = n)) as [->|Hx].
      * rewrite lookup_insert_eq in *. simplify_eq. by exists i'.
      * rewrite lookup_insert_ne in * by done. by exists j.
  - cbn. rewrite lookup_insert_eq. split_and!; try done. by rewrite El, <- Permutation_middle.
Qed.

(** Marking an item lost that is still to be sent only changes its priority. *)
Lemma mark_lost_new_ok q o n i prio :
  cfq_ok q -> n ∈ new_list q -> cfq_items q !! n = Some i -> unreliable i = false ->
  exists q', ossl_quic_cfq_mark_lost n prio (q, o) = (Ok tt, (q', o)) /\ keeps n q q'
  /\ new_list q' ≡ₚ new_list q /\ tx_list q' = tx_list q
  /\ cfq_items q' !! n = Some (lost_priority prio i) /\ freed q' = freed q.
Proof.
  intros Hq Hin Ei Hu. destruct (new_item q Hq n Hin) as (i0 & E & Hst). simplify_eq.
  unfold ossl_quic_cfq_mark_lost, ossl_quic_cfq_item_is_unreliable.
  unfold bind at 1. rewrite (bind_ok _ _ _ _ _ (item_run _ _ _ o Ei)), Hu. cbn [ret].
  rewrite (bind_ok _ _ _ _ _ (item_run _ _ _ o Ei)), Hst. cbn [QUIC_CFQ_STATE_NEW Z.eqb].
  unfold lost_priority. destruct (prio =? UINT32_MAX) eqn:Em.
  { exists q. split; [done|]. split_and!; try done. split; [done|done|]. intros j ?. by exists j. }
  destruct (Z.eqb_spec prio (priority i)) as [->|Hne].
  { exists q. split; [done|]. split_and!; try done.
    - split; [done|done|]. intros j ?. by exists j.
    - rewrite Ei. by destruct i. }
  cbn [negb andb]. set (i' := set_priority prio i).
  destruct (remove_from_ok new_list set_new_list n q o Hin) as (l1 & l2 & El & Er).
  rewrite (bind_ok _ _ _ _ _ Er).
  set (q1 := mkCfq (<[n := i']> (cfq_items q)) (l1 ++ l2) (tx_list q) (free_list q) (freed q)).
  destruct (insert_new_ok q1 o n i') as (l & Ein & HP & Hsl).
  { cbn. by rewrite lookup_insert_eq. }
  { cbn. by apply sorted_without. }
  { cbn. intros p Hp. destruct (decide (p = n)) as [->|?]; [rewrite lookup_insert_eq; eauto|].
    rewrite lookup_insert_ne by done. destruct (new_item q Hq p) as (j & Ej & _); [rewrite El; set_solver|eauto]. }
  exists (set_new_list l q1). cbn in HP, Hsl. split; [exact Ein|]. split.
  - apply (keeps_move q _ n i i'); try done; cbn.
    + by destruct i.
    + rewrite HP, El. solve_Permutation.
    + intros x Hx. rewrite HP, El. set_solver.
    + left. cbn. rewrite HP. split; [by left|]. by destruct i.
  - cbn. rewrite lookup_insert_eq. split_and!; try done. by rewrite HP, El, Permutation_middle.
Qed.

(** Both ways in which an item becomes free when it is unreliable. *)
Lemma mark_lost_unreliable q o n i prio :
  cfq_items q !! n = Some i -> unreliable i = true ->
  ossl_quic_cfq_mark_lost n prio (q, o) = ossl_quic_cfq_release n (q, o).
Proof.
  intros Ei Hu. unfold ossl_quic_cfq_mark_lost, ossl_quic_cfq_item_is_unreliable.
  unfold bind at 1. by rewrite (bind_ok _ _ _ _ _ (item_run _ _ _ o Ei)), Hu.
Qed.

Lemma get_free_ok q o :
  cfq_ok q ->
  match cfq_get_free (q, o) with
  | (Ok n, (q1, o1)) =>
      cfq_ok q1 /\ n ∈ free_list q1 /\ new_list q1 = new_list q /\ tx_list q1 = tx_list q
      /\ freed q1 = freed q /\ (forall x, x <> n -> cfq_items q1 !! x = cfq_items q !! x)
  | (Err, (q1, o1)) => q1 = q /\ free_list q = [] /\ alloc o = (false, o1)
  | (Ub, _) => False
  end.
Proof.
  intros Hq. unfold cfq_get_free. unfold bind at 1. cbn [get fst snd].
  destruct (free_list q) as [|n F] eqn:Ef.
  2: { cbn. rewrite Ef. split_and!; try done. by left. }
  destruct (alloc o) as [[] o1]; [|done]. cbn -[fresh].
  set (n := fresh (dom (cfq_items q))).
  assert (cfq_items q !! n = None) as Hn by (apply not_elem_of_dom, is_fresh).
  rewrite Ef. unfold list_insert_tail. cbn. split_and!; try done.
  2: by left. 2: { intros x Hx. by rewrite lookup_insert_ne. }
  destruct Hq as [Hnd Hl Hp Hs]. rewrite Ef, app_nil_r in *.
  assert (forall x, x ∈ new_list q ++ tx_list q -> x <> n) as Hx.
  { intros x [i Ei]%Hl ->. congruence. }
  split; cbn.
  - rewrite app_assoc. apply NoDup_app. split_and!; [done| |apply NoDup_singleton].
    intros x Hin%Hx. set_solver.
  - intros x. rewrite app_assoc, elem_of_app. intros [Hin|Hin].
    + rewrite lookup_insert_ne by (by apply not_eq_sym, Hx). by apply Hl.
    + apply list_elem_of_singleton in Hin as ->. rewrite lookup_insert_eq. eauto.
  - intros x i. destruct (decide (x = n)) as [->|Hne].
    + rewrite lookup_insert_eq. intros [= <-]. right. right. split; [by left|done].
    + rewrite lookup_insert_ne by done. intros E. destruct (Hp x i E) as [?|[?|[Hin _]]].
      * by left. * by right; left. * rewrite Ef in Hin. by apply elem_of_nil in Hin.
  - refine (sorted_ext _ _ _ _ Hs). intros x Hin j Ej. exists j. split; [|done].
    rewrite lookup_insert_ne; [done|]. apply not_eq_sym, Hx. set_solver.
Qed.

Lemma add_frame_ok q o prio sp ty fl enc el cb :
  cfq_ok q ->
  match ossl_quic_cfq_add_frame prio sp ty fl enc el cb (q, o) with
  | (Ok n, (q', o')) =>
      cfq_ok q' /\ new_list q' ≡ₚ n :: new_list q /\ tx_list q' = tx_list q /\ freed q' = freed q
      /\ (forall x, x <> n -> cfq_items q' !! x = cfq_items q !! x)
      /\ exists nx, cfq_items q' !! n = Some (mkItem nx enc cb ty el prio sp fl QUIC_CFQ_STATE_NEW)
  | (Err, (q', o')) => q' = q /\ free_list q = [] /\ alloc o = (false, o')
  | (Ub, _) => False
  end.
Proof.
  intros Hq. pose proof (get_free_ok q o Hq) as Hg. unfold ossl_quic_cfq_add_frame. unfold bind at 1.
  destruct (cfq_get_free (q, o)) as [[n| |] [q1 o1]]; [|done|done].
  destruct Hg as (Hq1 & Hin & Hnew & Htx & Hfr & Hoth).
  destruct (co_lists q1 Hq1 n) as [ex Ex]; [rewrite !elem_of_app; by right; right|].
  rewrite (bind_ok _ _ _ _ _ (item_run _ _ _ o1 Ex)).
  set (i := mkItem (pkt_next ex) enc cb ty el prio sp fl QUIC_CFQ_STATE_NEW).
  set (q2 := set_cfq_items (<[n := i]> (cfq_items q1)) q1).
  assert (set_item n i (q1, o1) = (Ok tt, (q2, o1))) as E2 by done.
  rewrite (bind_ok _ _ _ _ _ E2).
  destruct (remove_from_ok free_list set_free_list n q2 o1 Hin) as (l1 & l2 & El & Er).
  rewrite (bind_ok _ _ _ _ _ Er).
  assert (n ∉ new_list q1) as Hnn by (intros Hn; by destruct (proj1 (lists_disjoint q1 Hq1 n) Hn)).
  destruct (insert_new_ok (set_free_list (l1 ++ l2) q2) o1 n i) as (l & Ein & HP & Hsl).
  { cbn. by rewrite lookup_insert_eq. }
  { cbn. by apply sorted_elsewhere. }
  { cbn. intros p Hp. destruct (new_item q1 Hq1 p Hp) as (j & Ej & _). exists j.
    rewrite lookup_insert_ne; [done|]. by intros ->. }
  rewrite (bind_ok _ _ _ _ _ Ein). cbn in El, HP, Hsl. cbn. split_and!; try done.
  - apply (cfq_ok_move q1 _ n i); try done; cbn.
    + rewrite HP, El. solve_Permutation.
    + intros x Hx. rewrite HP, El. set_solver.
    + left. cbn. rewrite HP. split; [by left|done].
  - by rewrite HP, Hnew.
  - intros x Hx. rewrite lookup_insert_ne by done. by apply Hoth.
  - exists (pkt_next ex). by rewrite lookup_insert_eq.
Qed.

(** ** Runs *)

Inductive cfq_op :=
| Add_frame (prio sp ty fl : Z) (enc : option (list Z)) (enc_len : Z) (cb : option Z)
| Mark_tx (n : Z)
| Mark_lost (n prio : Z)
| Release (n : Z).

Definition exec_cfq (c : cfq_op) : M CS unit :=
  match c with
  | Add_frame prio sp ty fl enc el cb =>
      let! n := ossl_quic_cfq_add_frame prio sp ty fl enc el cb in ret tt
  | Mark_tx n => ossl_quic_cfq_mark_tx n
  | Mark_lost n prio => ossl_quic_cfq_mark_lost n prio
  | Release n => ossl_quic_cfq_release n
  end.

(** A handle may be used until the item is released. *)
Definition handle (q : QUIC_CFQ) (n : Z) : Prop := n ∈ new_list q ++ tx_list q.

Definition cfq_legal (c : cfq_op) (q : QUIC_CFQ) : Prop :=
  match c with
  | Add_frame _ _ _ _ _ _ _ => True
  | Mark_tx n | Mark_lost n _ | Release n => handle q n
  end.

(** The buffers that the queue was given. *)
Definition given (c : cfq_op) (r : res unit) : list (option (list Z) * Z * Z) :=
  match c, r with
  | Add_frame _ _ _ _ enc el (Some arg), Ok _ => [(enc, el, arg)]
  | _, _ => []
  end.

Inductive cfq_reachable : QUIC_CFQ -> list (option (list Z) * Z * Z) -> Prop :=
| cfq_start q o o' : ossl_quic_cfq_new o = (Some q, o') -> cfq_reachable q []
| cfq_next q g c o r q' o' :
    cfq_reachable q g -> cfq_legal c q -> exec_cfq c (q, o) = (r, (q', o')) ->
    cfq_reachable q' (given c r ++ g).

(** The buffers of the items that are in use. *)
Definition held (q : QUIC_CFQ) : list (option (list Z) * Z * Z) :=
  concat ((fun n => from_option buffer_of [] (cfq_items q !! n)) <$> (new_list q ++ tx_list q)).

(** Frees happen once: a buffer given to the queue is held or was freed. *)
Record cfq_run (q : QUIC_CFQ) (g : list (option (list Z) * Z * Z)) : Prop := {
  cr_ok : cfq_ok q;
  cr_buffers : g ≡ₚ held q ++ freed q
}.

Lemma held_ext (m m' : gmap Z QUIC_CFQ_ITEM_EX) (l : list Z) :
  (forall n, n ∈ l -> from_option buffer_of [] (m !! n) = from_option buffer_of [] (m' !! n)) ->
  concat ((fun n => from_option buffer_of [] (m !! n)) <$> l)
  = concat ((fun n => from_option buffer_of [] (m' !! n)) <$> l).
Proof.
  intros H. f_equal. apply list_fmap_ext. intros i x Hx. apply H. by eapply list_elem_of_lookup_2.
Qed.

(** An operation on one item in use, which stays in use. *)
Lemma held_stays q q' n i i' :
  keeps n q q' -> handle q n -> cfq_items q !! n = Some i -> cfq_items q' !! n = Some i' ->
  buffer_of i' = buffer_of i -> new_list q' ++ tx_list q' ≡ₚ new_list q ++ tx_list q ->
  held q' ≡ₚ held q.
Proof.
  intros [_ Ho _] Hh Ei Ei' Hb HP. unfold held. rewrite HP, (held_ext (cfq_items q') (cfq_items q)); [done|].
  intros x _. destruct (decide (x = n)) as [->|Hx]; [by rewrite Ei, Ei'|by rewrite Ho].
Qed.

(** An item that is released. *)
Lemma held_leaves q q' n i :
  cfq_ok q -> keeps n q q' -> cfq_items q !! n = Some i ->
  new_list q ++ tx_list q ≡ₚ n :: new_list q' ++ tx_list q' ->
  held q ≡ₚ buffer_of i ++ held q'.
Proof.
  intros Hq [_ Ho _] Ei HP. unfold held. rewrite HP. cbn. rewrite Ei. cbn.
  rewrite (held_ext (cfq_items q) (cfq_items q')); [done|]. intros x Hx. rewrite Ho; [done|]. intros ->.
  pose proof (co_nodup q Hq) as Hnd. rewrite app_assoc in Hnd. apply NoDup_app in Hnd as [Hnd _].
  rewrite HP, NoDup_cons in Hnd. by destruct Hnd.
Qed.

Lemma run_release q g o n :
  cfq_run q g -> handle q n -> exists q', ossl_quic_cfq_release n (q, o) = (Ok tt, (q', o)) /\ cfq_run q' g.
Proof.
  intros [Hq Hg] Hh. pose proof Hh as [Hn|Hn]%elem_of_app.
  - destruct (new_item q Hq n Hn) as (i & Ei & _).
    destruct (release_new_ok q o n i Hq Hn Ei) as (q' & E & Hk & HN & HT & _ & Hf). exists q'.
    split; [done|]. split; [apply Hk|]. rewrite Hg, (held_leaves q q' n i) by (done || by rewrite HT, HN).
    rewrite Hf. solve_Permutation.
  - destruct (tx_item q Hq n Hn) as (i & Ei & _).
    destruct (release_tx_ok q o n i Hq Hn Ei) as (q' & E & Hk & HN & HT & _ & Hf). exists q'.
    split; [done|]. split; [apply Hk|]. rewrite Hg, (held_leaves q q' n i).
    + rewrite Hf. solve_Permutation.
    + done.
    + done.
    + done.
    + rewrite HN, HT. by rewrite Permutation_middle.
Qed.

Lemma run_lost q g o n prio :
  cfq_run q g -> handle q n ->
  exists q', ossl_quic_cfq_mark_lost n prio (q, o) = (Ok tt, (q', o)) /\ cfq_run q' g.
Proof.
  intros Hr Hh. pose proof Hr as [Hq Hg].
  assert (forall i, cfq_items q !! n = Some i -> unreliable i = true ->
          exists q', ossl_quic_cfq_mark_lost n prio (q, o) = (Ok tt, (q', o)) /\ cfq_run q' g) as Hun.
  { intros i Ei Hu. rewrite (mark_lost_unreliable q o n i prio Ei Hu). by apply run_release. }
  assert (forall i, buffer_of (lost_priority prio i) = buffer_of i) as Hb.
  { intros i. unfold lost_priority. case_match; by destruct i. }
  pose proof Hh as [Hn|Hn]%elem_of_app.
  - destruct (new_item q Hq n Hn) as (i & Ei & _). destruct (unreliable i) eqn:Hu; [eauto|].
    destruct (mark_lost_new_ok q o n i prio Hq Hn Ei Hu) as (q' & E & Hk & HN & HT & Ei' & Hf).
    exists q'. split; [done|]. split; [apply Hk|]. rewrite Hf, Hg.
    rewrite (held_stays q q' n i (lost_priority prio i)); try done. by rewrite HT, HN.
  - destruct (tx_item q Hq n Hn) as (i & Ei & _). destruct (unreliable i) eqn:Hu; [eauto|].
    destruct (mark_lost_tx_ok q o n i prio Hq Hn Ei Hu) as (q' & E & Hk & HN & HT & Ei' & Hf).
    exists q'. split; [done|]. split; [apply Hk|]. rewrite Hf, Hg.
    rewrite (held_stays q q' n i (set_state QUIC_CFQ_STATE_NEW (lost_priority prio i))); try done.
    + rewrite <- (Hb i). by destruct (lost_priority prio i).
    + rewrite HT, HN. solve_Permutation.
Qed.

Lemma run_step q g c o :
  cfq_run q g -> cfq_legal c q ->
  exists r q' o', exec_cfq c (q, o) = (r, (q', o')) /\ r <> Ub /\ cfq_run q' (given c r ++ g).
Proof.
  intros Hr Hc. pose proof Hr as [Hq Hg]. destruct c as [prio sp ty fl enc el cb|n|n prio|n]; cbn [exec_cfq cfq_legal given] in *.
  - pose proof (add_frame_ok q o prio sp ty fl enc el cb Hq) as Ha. unfold bind.
    destruct (ossl_quic_cfq_add_frame prio sp ty fl enc el cb (q, o)) as [[n| |] [q' o']]; [| |done].
    + destruct Ha as (Hq' & HN & HT & Hf & Ho & nx & Ei). exists (Ok tt), q', o'. split_and!; [done|done|].
      split; [done|]. rewrite Hf. unfold held. rewrite HN, HT. cbn. rewrite Ei. cbn.
      assert (n ∉ new_list q ++ tx_list q) as Hn.
      { pose proof (co_nodup q' Hq') as Hnd. rewrite HN, HT in Hnd. cbn in Hnd.
        apply NoDup_cons in Hnd as [Hnd _]. set_solver. }
      rewrite (held_ext (cfq_items q') (cfq_items q)).
      2: { intros x Hx. rewrite Ho; [done|]. by intros ->. }
      fold (held q). rewrite Hg. unfold buffer_of. cbn. destruct cb; solve_Permutation.
    + destruct Ha as (-> & _ & _). exists Err, q, o'. split_and!; [done|done|]. by destruct cb.
  - apply elem_of_app in Hc as [Hn|Hn].
    + destruct (new_item q Hq n Hn) as (i & Ei & _).
      destruct (mark_tx_ok q o n i Hq Hn Ei) as (q' & E & Hk & HN & HT & Ei' & Hf).
      exists (Ok tt), q', o. split_and!; [done|done|]. split; [apply Hk|]. rewrite Hf, Hg.
      rewrite (held_stays q q' n i (set_state QUIC_CFQ_STATE_TX i)); try done.
      * apply elem_of_app. by left.
      * by destruct i.
      * rewrite HT, HN. solve_Permutation.
    + destruct (tx_item q Hq n Hn) as (i & Ei & Hst). exists (Ok tt), q, o.
      unfold ossl_quic_cfq_mark_tx. rewrite (bind_ok _ _ _ _ _ (item_run _ _ _ o Ei)), Hst. done.
  - destruct (run_lost q g o n prio Hr Hc) as (q' & E & Hr'). exists (Ok tt), q', o. by split_and!.
  - destruct (run_release q g o n Hr Hc) as (q' & E & Hr'). exists (Ok tt), q', o. by split_and!.
Qed.

Lemma reachable_run q g : cfq_reachable q g -> cfq_run q g.
Proof.
  induction 1 as [q o o' E|q g c o r q' o' _ IH Hc E].
  - split; [by eapply cfq_ok_new|]. unfold ossl_quic_cfq_new in E.
    destruct (alloc o) as [[] ?]; by simplify_eq.
  - destruct (run_step q g c o IH Hc) as (r0 & q0 & o0 & E0 & _ & Hr). congruence.
Qed.

(** ** The order of transmission *)

(** The items that a caller finds by asking for the head and then for the next one. *)
Fixpoint pending_from (fuel : nat) (sp : Z) (n : option Z) : M CS (list Z) :=
  match n with
  | None => ret []
  | Some n =>
      match fuel with
      | O => undef
      | S fuel =>
          let! next := ossl_quic_cfq_item_get_priority_next (Some n) sp in
          let! l := pending_from fuel sp next in
          ret (n :: l)
      end
  end.

Definition pending (sp : Z) : M CS (list Z) :=
  let! q := get_cfq in
  let! n := ossl_quic_cfq_get_priority_head sp in
  pending_from (length (new_list q)) sp n.

Definition of_space (q : QUIC_CFQ) (sp n : Z) : Prop :=
  exists i, cfq_items q !! n = Some i /\ item_space i = sp.

#[local] Instance of_space_dec q sp n : Decision (of_space q sp n).
Proof.
  destruct (cfq_items q !! n) as [i|] eqn:E.
  - destruct (decide (item_space i = sp)) as [H|H]; [left; by exists i|right].
    intros (j & Ej & Hj). congruence.
  - right. intros (j & Ej & _). congruence.
Defined.

Lemma find_space_ok q o sp l :
  (forall n, n ∈ l -> is_Some (cfq_items q !! n)) ->
  find_space sp l (q, o) = (Ok (head (filter (of_space q sp) l)), (q, o)).
Proof.
  induction l as [|n l IH]; intros Hl; [done|]. destruct (Hl n ltac:(by left)) as [i Ei].
  cbn [find_space]. rewrite (bind_ok _ _ _ _ _ (item_run _ _ _ o Ei)). rewrite filter_cons.
  destruct (Z.eqb_spec (item_space i) sp) as [Hs|Hs].
  - rewrite decide_True by (by exists i). done.
  - rewrite decide_False by (intros (j & Ej & Hj); congruence). apply IH. intros x Hx. apply Hl. by right.
Qed.

Lemma list_after_app n l1 l2 : n ∉ l1 -> list_after n (l1 ++ n :: l2) = Some l2.
Proof.
  induction l1 as [|x l1 IH]; cbn; [by rewrite Z.eqb_refl|]. intros [Hx Hn]%not_elem_of_cons.
  destruct (Z.eqb_spec x n); [congruence|auto].
Qed.

Lemma pending_from_ok q o sp : cfq_ok q -> forall l1 l2 fuel,
  new_list q = l1 ++ l2 -> (length l2 <= fuel)%nat ->
  pending_from fuel sp (head (filter (of_space q sp) l2)) (q, o)
  = (Ok (filter (of_space q sp) l2), (q, o)).
Proof.
  intros Hq. assert (forall n, n ∈ new_list q -> is_Some (cfq_items q !! n)) as Hl.
  { intros n Hn. destruct (new_item q Hq n Hn) as (i & Ei & _). eauto. }
  intros l1 l2. revert l1. induction l2 as [|n l2 IH]; intros l1 fuel El Hf; [by destruct fuel|].
  rewrite filter_cons. case_decide as Hs.
  2: { apply (IH (l1 ++ [n])); [by rewrite <- app_assoc|cbn in Hf; lia]. }
  destruct fuel as [|fuel]; [cbn in Hf; lia|]. cbn [head pending_from].
  destruct Hs as (i & Ei & Hi).
  assert (n ∉ l1) as Hn.
  { pose proof (co_nodup q Hq) as Hnd. rewrite El, NoDup_app in Hnd. destruct Hnd as [Hnd _].
    apply NoDup_app in Hnd as (_ & Hd & _). intros Hin. apply (Hd n Hin). by left. }
  assert (ossl_quic_cfq_item_get_priority_next (Some n) sp (q, o)
          = (Ok (head (filter (of_space q sp) l2)), (q, o))) as En.
  { cbn. rewrite (bind_ok _ _ _ _ _ (item_run _ _ _ o Ei)). unfold get_cfq, bind, get, ret. cbn.
    unfold following. rewrite El, list_after_app by done. apply find_space_ok.
    intros x Hx. apply Hl. rewrite El. set_solver. }
  assert (new_list q = (l1 ++ [n]) ++ l2) as El' by (by rewrite <- app_assoc).
  rewrite (bind_ok _ _ _ _ _ En), (bind_ok _ _ _ _ _ (IH _ fuel El' ltac:(cbn in Hf; lia))). done.
Qed.

(** In whatever order frames are added, sent, lost and released, the frames of a packet
    number space that await transmission are found in the order of their priority, the
    highest first: all of them, each once, and nothing else. Every buffer that was
    handed over is freed exactly once, when its item is released. *)
Theorem cfq_priority_order q g sp o :
  cfq_reachable q g ->
  exists l, pending sp (q, o) = (Ok l, (q, o)) /\ NoDup l
  /\ (forall n, n ∈ l <-> exists i, cfq_items q !! n = Some i
                           /\ state i = QUIC_CFQ_STATE_NEW /\ item_space i = sp)
  /\ StronglySorted (fun a b => exists x y, cfq_items q !! a = Some x /\ cfq_items q !! b = Some y
                                            /\ priority y <= priority x) l
  /\ g ≡ₚ held q ++ freed q.
Proof.
  intros [Hq Hg]%reachable_run. exists (filter (of_space q sp) (new_list q)).
  assert (forall n, n ∈ new_list q -> is_Some (cfq_items q !! n)) as Hl.
  { intros n Hn. destruct (new_item q Hq n Hn) as (i & Ei & _). eauto. }
  split_and!.
  - unfold pending, get_cfq. unfold bind at 1 2. cbn. unfold ossl_quic_cfq_get_priority_head.
    unfold get_cfq, bind at 1 2 3. cbn. rewrite (find_space_ok q o sp _ Hl).
    by apply (pending_from_ok q o sp Hq []).
  - apply NoDup_filter. pose proof (co_nodup q Hq) as Hnd. by apply NoDup_app in Hnd as [Hnd _].
  - intros n. rewrite list_elem_of_filter. split.
    + intros [(i & Ei & Hi) Hn]. destruct (new_item q Hq n Hn) as (j & Ej & Hj). exists i. naive_solver.
    + intros (i & Ei & Hst & Hi). split; [by exists i|].
      destruct (co_placed q Hq n i Ei) as [[? _]|[[_ Hx]|[_ [Hx _]]]]; [done|..];
        unfold QUIC_CFQ_STATE_NEW, QUIC_CFQ_STATE_TX in *; lia.
  - pose proof (co_sorted q Hq) as Hs. clear -Hs. revert Hs. generalize (new_list q). intros l.
    induction 1 as [|a l _ IH Ha]; [constructor|]. rewrite filter_cons.
    case_decide as Hsp; [|done]. constructor; [done|]. apply Forall_forall.
    intros b (Hb & Hin)%list_elem_of_filter. rewrite Forall_forall in Ha.
    destruct (Ha b Hin) as (x & y & Ex & Ey & Hc). exists x, y. split_and!; try done.
    destruct Hsp as (x' & Ex' & Hx), Hb as (y' & Ey' & Hy). simplify_eq.
    unfold compare in Hc. repeat case_match; lia.
  - done.
Qed.

(** Two spaces, three priorities: the frame of priority 5 comes first, and the one that
    was lost is found again after its priority was raised. *)
Definition cfq_example : list cfq_op :=
  [Add_frame 1 2 0x1c 0 (Some [0x1c]) 1 (Some 70); Add_frame 5 2 0x18 0 (Some [0x18]) 1 (Some 71);
   Add_frame 9 0 0x1e 0 (Some [0x1e]) 1 (Some 72); Mark_tx 0; Mark_lost 0 7].

Fixpoint cfq_exec (cs : list cfq_op) (s : QUIC_CFQ * list (option (list Z) * Z * Z)) :=
  match cs with
  | [] => s
  | c :: cs' => let '(r, (q, _)) := exec_cfq c (fst s, []) in cfq_exec cs' (q, given c r ++ snd s)
  end.

Fixpoint cfq_legals (cs : list cfq_op) (s : QUIC_CFQ * list (option (list Z) * Z * Z)) : Prop :=
  match cs with
  | [] => True
  | c :: cs' => cfq_legal c (fst s) /\ cfq_legals cs' (cfq_exec [c] s)
  end.

Lemma cfq_exec_reachable cs s :
  cfq_reachable (fst s) (snd s) -> cfq_legals cs s ->
  cfq_reachable (fst (cfq_exec cs s)) (snd (cfq_exec cs s)).
Proof.
  revert s. induction cs as [|c cs IH]; intros s Hr Hl; [done|]. destruct Hl as [Hc Hl].
  cbn [cfq_exec] in *. destruct (exec_cfq c (fst s, [])) as [r [q o]] eqn:E. cbn in Hl.
  apply IH; [|done]. cbn. by eapply cfq_next.
Qed.

Definition cfq_0 : QUIC_CFQ := mkCfq ∅ [] [] [] [].

Definition cfq_after : QUIC_CFQ * list (option (list Z) * Z * Z) := cfq_exec cfq_example (cfq_0, []).

Lemma cfq_priority_order_witness :
  exists l, pending 2 (fst cfq_after, []) = (Ok l, (fst cfq_after, [])) /\ l = [0; 1]
  /\ StronglySorted (fun a b => exists x y, cfq_items (fst cfq_after) !! a = Some x
       /\ cfq_items (fst cfq_after) !! b = Some y /\ priority y <= priority x) l.
Proof.
  destruct (cfq_priority_order (fst cfq_after) (snd cfq_after) 2 []) as (l & E & _ & _ & Hs & _).
  - apply cfq_exec_reachable; [by apply (cfq_start cfq_0 [] [])|].
    vm_compute. by repeat split; repeat (first [left|right]).
  - exists l. split; [done|]. split; [|done]. vm_compute in E. congruence.
Defined.
