(* ===== verification/Txpim.v ===== *)
(** Information about transmitted packets: ssl/quic/quic_txpim.c and
    include/internal/quic_txpim.h.

    The packets are objects in a store, named by their address; [retx_head] is the
    address of an item of the control frame queue, whose items are linked through
    [pkt_next]. The array of chunks is the list of those in use. [qsort] is a parameter:
    the C standard does not say in which order it leaves equal elements. *)

From stdpp Require Import base list numbers gmap sorting.
From Stdlib Require Import ZArith Lia.
From S2P Require Import Prelude Cfq Ackm.

#[local] Open Scope cfun_scope.

(** ** Definitions *)

Record QUIC_TXPIM_CHUNK := mkChunk {
  stream_id : Z;
  chunk_start : Z;
  chunk_end : Z;
  has_fin : bool;
  has_stop_sending : bool;
  has_reset_stream : bool
}.

(** The public and the private part. [fifd] says whether the pointer to the dispatcher
    is set. *)
Record QUIC_TXPIM_PKT := mkPkt {
  ackm_pkt : OSSL_ACKM_TX_PKT;
  retx_head : option Z;
  fifd : bool;
  had_handshake_done_frame : bool;
  had_max_data_frame : bool;
  had_max_streams_bidi_frame : bool;
  had_max_streams_uni_frame : bool;
  had_ack_frame : bool;
  had_conn_close : bool;
  chunks : list QUIC_TXPIM_CHUNK;
  alloc_chunks : Z;
  chunks_need_sort : bool
}.

Record QUIC_TXPIM := mkTxpim {
  pkts : gmap Z QUIC_TXPIM_PKT;
  pool : list Z;
  in_use : Z
}.

Definition PS : Type := QUIC_TXPIM * oracle.

Definition MAX_ALLOC_CHUNKS : Z := 512.

Definition get_pim : M PS QUIC_TXPIM := let! s := get in ret (fst s).
Definition on_pim (f : QUIC_TXPIM -> QUIC_TXPIM) : M PS unit := modify (fun s => (f (fst s), snd s)).

(** [*p]. *)
Definition pkt_at (p : Z) : M PS QUIC_TXPIM_PKT :=
  let! t := get_pim in
  match pkts t !! p with Some x => ret x | None => undef end.

Definition set_pkt (p : Z) (x : QUIC_TXPIM_PKT) : M PS unit :=
  on_pim (fun t => mkTxpim (<[p := x]> (pkts t)) (pool t) (in_use t)).

Definition ossl_quic_txpim_new (o : oracle) : option QUIC_TXPIM * oracle :=
  let (ok, o) := alloc o in (if ok then Some (mkTxpim ∅ [] 0) else None, o).

(** What is left is empty. *)
Definition ossl_quic_txpim_free : M PS unit :=
  let! t := get_pim in
  assert_ (in_use t =? 0) ;;;
  on_pim (fun t => mkTxpim (foldr delete (pkts t) (pool t)) [] (in_use t)).

(** A zeroed packet. *)
Definition zero_ackm_pkt : OSSL_ACKM_TX_PKT := mkTxPkt 0 0 0 0 QUIC_PN_SPACE_INITIAL false false 0.
Definition zero_pkt : QUIC_TXPIM_PKT :=
  mkPkt zero_ackm_pkt None false false false false false false false [] 0 false.

Definition txpim_get_free : M PS Z :=
  let! s := get in
  match pool (fst s) with
  | p :: _ => ret p
  | [] =>
      let (ok, o) := alloc (snd s) in
      put (fst s, o) ;;;
      if ok then
        let p := fresh (dom (pkts (fst s))) in
        set_pkt p zero_pkt ;;;
        on_pim (fun t => mkTxpim (pkts t) (pool t ++ [p]) (in_use t)) ;;;
        ret p
      else fail
  end.

Definition ossl_quic_txpim_pkt_clear_chunks (p : Z) : M PS unit :=
  let! x := pkt_at p in
  set_pkt p (mkPkt (ackm_pkt x) (retx_head x) (fifd x) (had_handshake_done_frame x)
               (had_max_data_frame x) (had_max_streams_bidi_frame x) (had_max_streams_uni_frame x)
               (had_ack_frame x) (had_conn_close x) [] (alloc_chunks x) (chunks_need_sort x)).

Definition txpim_clear (p : Z) : M PS unit :=
  let! x := pkt_at p in
  set_pkt p (mkPkt zero_ackm_pkt (retx_head x) (fifd x) (had_handshake_done_frame x)
               (had_max_data_frame x) (had_max_streams_bidi_frame x) (had_max_streams_uni_frame x)
               (had_ack_frame x) (had_conn_close x) (chunks x) (alloc_chunks x)
               (chunks_need_sort x)) ;;;
  ossl_quic_txpim_pkt_clear_chunks p ;;;
  let! x := pkt_at p in
  set_pkt p (mkPkt (ackm_pkt x) None false false false false false false false (chunks x)
               (alloc_chunks x) (chunks_need_sort x)).

Definition ossl_quic_txpim_pkt_alloc : M PS Z :=
  let! p := txpim_get_free in
  txpim_clear p ;;;
  let! t := get_pim in
  match list_remove p (pool t) with
  | None => undef
  | Some l => on_pim (fun t => mkTxpim (pkts t) l (u64 (in_use t + 1))) ;;; ret p
  end.

Definition ossl_quic_txpim_pkt_release (p : Z) : M PS unit :=
  let! t := get_pim in
  assert_ (in_use t >? 0) ;;;
  let! x := pkt_at p in
  on_pim (fun t => mkTxpim (pkts t) (pool t ++ [p]) (u64 (in_use t - 1))).

Definition ossl_quic_txpim_get_in_use (t : QUIC_TXPIM) : Z := in_use t.

Definition with_chunks (l : list QUIC_TXPIM_CHUNK) (n : Z) (sort : bool) (x : QUIC_TXPIM_PKT)
  : QUIC_TXPIM_PKT :=
  mkPkt (ackm_pkt x) (retx_head x) (fifd x) (had_handshake_done_frame x)
    (had_max_data_frame x) (had_max_streams_bidi_frame x) (had_max_streams_uni_frame x)
    (had_ack_frame x) (had_conn_close x) l n sort.

Definition ossl_quic_txpim_pkt_append_chunk (p : Z) (chunk : QUIC_TXPIM_CHUNK) : M PS unit :=
  let! x := pkt_at p in
  (if zlen (chunks x) =? alloc_chunks x then
     let new_alloc := if alloc_chunks x =? 0 then 4 else u64 (alloc_chunks x * 8) / 5 in
     let new_alloc := if new_alloc >? MAX_ALLOC_CHUNKS then MAX_ALLOC_CHUNKS else new_alloc in
     guard (negb (zlen (chunks x) =? new_alloc)) ;;;
     let! s := get in
     let (ok, o) := alloc (snd s) in
     put (fst s, o) ;;;
     guard ok ;;;
     set_pkt p (with_chunks (chunks x) new_alloc (chunks_need_sort x) x)
   else ret tt) ;;;
  let! x := pkt_at p in
  set_pkt p (with_chunks (chunks x ++ [chunk]) (alloc_chunks x) true x).

Definition compare (ac bc : QUIC_TXPIM_CHUNK) : Z :=
  if stream_id ac <? stream_id bc then -1
  else if stream_id ac >? stream_id bc then 1
  else if chunk_start ac <? chunk_start bc then -1
  else if chunk_start ac >? chunk_start bc then 1
  else 0.

(** The sorting function of the C library. *)
Class QSort := {
  qsort {A} : (A -> A -> Z) -> list A -> list A;
  qsort_perm {A} (cmp : A -> A -> Z) l : qsort cmp l ≡ₚ l;
  qsort_sorted {A} (cmp : A -> A -> Z) l :
    (forall x y, cmp x y <= 0 \/ cmp y x <= 0) ->
    (forall x y z, cmp x y <= 0 -> cmp y z <= 0 -> cmp x z <= 0) ->
    Sorted (fun x y => cmp x y <= 0) (qsort cmp l)
}.

Definition ossl_quic_txpim_pkt_get_chunks `{QSort} (p : Z) : M PS (list QUIC_TXPIM_CHUNK) :=
  let! x := pkt_at p in
  (if chunks_need_sort x
   then set_pkt p (with_chunks (qsort compare (chunks x)) (alloc_chunks x) false x)
   else ret tt) ;;;
  let! x := pkt_at p in ret (chunks x).

Definition ossl_quic_txpim_pkt_get_num_chunks (p : Z) : M PS Z :=
  let! x := pkt_at p in ret (zlen (chunks x)).

Definition set_retx_head (h : option Z) (x : QUIC_TXPIM_PKT) : QUIC_TXPIM_PKT :=
  mkPkt (ackm_pkt x) h (fifd x) (had_handshake_done_frame x)
    (had_max_data_frame x) (had_max_streams_bidi_frame x) (had_max_streams_uni_frame x)
    (had_ack_frame x) (had_conn_close x) (chunks x) (alloc_chunks x) (chunks_need_sort x).

(** ** Lemmas: the pool *)

Lemma pkt_at_run p x t o : pkts t !! p = Some x -> pkt_at p (t, o) = (Ok x, (t, o)).
Proof. intros E. unfold pkt_at, get_pim, bind, get, ret. cbn. by rewrite E. Qed.

(** The store with a packet changed. *)
Definition stored (p : Z) (x : QUIC_TXPIM_PKT) (t : QUIC_TXPIM) : QUIC_TXPIM :=
  mkTxpim (<[p := x]> (pkts t)) (pool t) (in_use t).

Lemma set_pkt_run p x t o : set_pkt p x (t, o) = (Ok tt, (stored p x t, o)).
Proof. done. Qed.

Lemma pkt_at_stored p x t o : pkt_at p (stored p x t, o) = (Ok x, (stored p x t, o)).
Proof. apply pkt_at_run. cbn. by rewrite lookup_insert_eq. Qed.

Lemma stored_stored p x y t : stored p x (stored p y t) = stored p x t.
Proof. unfold stored. cbn. by rewrite insert_insert_eq. Qed.

(** Step through the accesses to the store. *)
Ltac pkt_step :=
  repeat first
    [ rewrite (bind_ok _ _ _ _ _ (set_pkt_run _ _ _ _))
    | rewrite (bind_ok _ _ _ _ _ (pkt_at_stored _ _ _ _))
    | rewrite set_pkt_run
    | rewrite stored_stored ].

Definition chunks_ok (x : QUIC_TXPIM_PKT) : Prop :=
  zlen (chunks x) <= alloc_chunks x <= MAX_ALLOC_CHUNKS
  /\ (alloc_chunks x = 0 \/ 4 <= alloc_chunks x).

(** Every packet is in the pool or handed out; [H] are those handed out. *)
Record txpim_ok (H : list Z) (t : QUIC_TXPIM) : Prop := {
  to_nodup : NoDup (pool t ++ H);
  to_pkts p : p ∈ pool t ++ H <-> is_Some (pkts t !! p);
  to_use : in_use t = zlen H;
  to_chunks p x : pkts t !! p = Some x -> chunks_ok x
}.

#[export] Instance txpim_ok_proper : Proper ((≡ₚ) ==> (=) ==> iff) txpim_ok.
Proof.
  intros H H' HP t ? <-. split; intros [H1 H2 H3 H4]; split.
  - by rewrite <- HP.
  - intros p. by rewrite <- HP.
  - rewrite H3, !zlen_length. by rewrite HP.
  - done.
  - by rewrite HP.
  - intros p. by rewrite HP.
  - rewrite H3, !zlen_length. by rewrite HP.
  - done.
Qed.

Lemma txpim_ok_new t o o' : ossl_quic_txpim_new o = (Some t, o') -> txpim_ok [] t.
Proof.
  unfold ossl_quic_txpim_new. destruct (alloc o) as [[] ?]; intros; simplify_eq. split; cbn.
  - constructor.
  - intros p. rewrite lookup_empty. split; [by intros ?%elem_of_nil|by intros [? ?]].
  - done.
  - intros p x. by rewrite lookup_empty.
Qed.

(** A packet that is handed out changes. *)
Lemma txpim_ok_set H t p x :
  txpim_ok H t -> p ∈ pool t ++ H -> chunks_ok x ->
  txpim_ok H (stored p x t).
Proof.
  intros [H1 H2 H3 H4] Hp Hx. split; cbn; [done| |done|].
  - intros y. rewrite H2. destruct (decide (y = p)) as [->|Hne].
    + rewrite lookup_insert_eq. split; [eauto|]. intros _. by apply H2.
    + by rewrite lookup_insert_ne.
  - intros y z. destruct (decide (y = p)) as [->|Hne].
    + rewrite lookup_insert_eq. by intros [= <-].
    + rewrite lookup_insert_ne by done. apply H4.
Qed.

Lemma get_free_pkt_ok H t o :
  txpim_ok H t ->
  match txpim_get_free (t, o) with
  | (Ok p, (t1, o1)) =>
      txpim_ok H t1 /\ p ∈ pool t1 /\ in_use t1 = in_use t
      /\ (forall y, y <> p -> pkts t1 !! y = pkts t !! y) /\ (o = [] -> o1 = [])
  | (Err, (t1, o1)) => t1 = t /\ alloc o = (false, o1)
  | (Ub, _) => False
  end.
Proof.
  intros Ht. unfold txpim_get_free. unfold bind at 1. cbn [get fst snd].
  destruct (pool t) as [|p F] eqn:Ef.
  2: { cbn. rewrite Ef. split_and!; try done. by left. }
  destruct (alloc o) as [[] o1] eqn:Eo; [|done]. cbn -[fresh].
  set (p := fresh (dom (pkts t))). rewrite Ef. cbn.
  assert (pkts t !! p = None) as Hp by (apply not_elem_of_dom, is_fresh).
  destruct Ht as [H1 H2 H3 H4]. rewrite Ef in *. cbn in *.
  assert (p ∉ H) as HpH. { intros Hin%H2. rewrite Hp in Hin. by destruct Hin. }
  split_and!; [split; cbn|by left|done| |].
  - by constructor.
  - intros y. rewrite elem_of_cons, H2. destruct (decide (y = p)) as [->|Hne].
    + rewrite lookup_insert_eq. split; [eauto|by left].
    + rewrite lookup_insert_ne by done. split; [|by right]. intros [?|?]; done.
  - done.
  - intros y x. destruct (decide (y = p)) as [->|Hne].
    + rewrite lookup_insert_eq. intros [= <-]. split; [|by left]. by vm_compute.
    + rewrite lookup_insert_ne by done. apply H4.
  - intros y Hy. by rewrite lookup_insert_ne.
  - intros ->. by simplify_eq/=.
Qed.

Definition blank (n : Z) (sort : bool) : QUIC_TXPIM_PKT :=
  mkPkt zero_ackm_pkt None false false false false false false false [] n sort.

Lemma clear_pkt_ok p x t o :
  pkts t !! p = Some x ->
  txpim_clear p (t, o) = (Ok tt, (stored p (blank (alloc_chunks x) (chunks_need_sort x)) t, o)).
Proof.
  intros Ex. unfold txpim_clear. rewrite (bind_ok _ _ _ _ _ (pkt_at_run _ _ _ o Ex)). pkt_step.
  unfold ossl_quic_txpim_pkt_clear_chunks. unfold bind at 1. pkt_step. cbn [stored].
  by pkt_step.
Qed.

Lemma alloc_pkt_ok H t o :
  txpim_ok H t -> zlen H + 1 < U64_MOD ->
  match ossl_quic_txpim_pkt_alloc (t, o) with
  | (Ok p, (t', o')) =>
      txpim_ok (p :: H) t' /\ p ∉ H /\ (exists n s, pkts t' !! p = Some (blank n s))
      /\ (forall y, y <> p -> pkts t' !! y = pkts t !! y) /\ (o = [] -> o' = [])
  | (Err, (t', o')) => t' = t /\ alloc o = (false, o')
  | (Ub, _) => False
  end.
Proof.
  intros Ht Hz. pose proof (get_free_pkt_ok H t o Ht) as Hg. unfold ossl_quic_txpim_pkt_alloc.
  unfold bind at 1. destruct (txpim_get_free (t, o)) as [[p| |] [t1 o1]]; [|done|done].
  destruct Hg as (Ht1 & Hp & Hu & Ho & Hor). destruct (proj1 (to_pkts H t1 Ht1 p)) as [x Ex]; [set_solver|].
  rewrite (bind_ok _ _ _ _ _ (clear_pkt_ok p x t1 o1 Ex)).
  destruct (list_remove_in p (pool t1) Hp) as (l1 & l2 & El & Er).
  unfold get_pim, bind at 1 2, get, ret. cbn [fst]. unfold stored at 1. cbn [pool]. rewrite Er. cbn.
  pose proof (to_chunks H t1 Ht1 p x Ex) as [Hc1 Hc2]. pose proof (zlen_nonneg (chunks x)).
  pose proof (zlen_nonneg H).
  pose proof (txpim_ok_set H t1 p (blank (alloc_chunks x) (chunks_need_sort x)) Ht1 ltac:(set_solver)) as Hok.
  destruct Hok as [K1 K2 K3 K4]. { split; cbn; [rewrite zlen_nil; lia|done]. }
  cbn in K1, K2, K3, K4. rewrite El in K1.
  assert (p ∉ H) as HpH.
  { apply NoDup_app in K1 as (_ & Hd & _). apply Hd. set_solver. }
  split_and!; [split; cbn|done| | |done].
  - assert (l1 ++ l2 ++ p :: H ≡ₚ (l1 ++ p :: l2) ++ H) as HP by solve_Permutation.
    by rewrite <- app_assoc, HP.
  - intros y. rewrite <- K2, El. rewrite !elem_of_app, !elem_of_cons. naive_solver.
  - rewrite u64_id, zlen_cons, K3; [lia|]. rewrite K3. unfold U64_MOD in Hz. lia.
  - done.
  - rewrite lookup_insert_eq. eauto.
  - intros y Hy. rewrite lookup_insert_ne by done. by apply Ho.
Qed.

Lemma release_pkt_ok p H t o :
  txpim_ok (p :: H) t -> zlen (p :: H) < U64_MOD ->
  exists t', ossl_quic_txpim_pkt_release p (t, o) = (Ok tt, (t', o)) /\ txpim_ok H t'
  /\ pkts t' = pkts t.
Proof.
  intros [H1 H2 H3 H4] Hz. destruct (proj1 (H2 p)) as [x Ex]; [set_solver|].
  pose proof (zlen_nonneg H). rewrite zlen_cons in *. unfold U64_MOD in Hz.
  eexists. split; [|split].
  - unfold ossl_quic_txpim_pkt_release, get_pim, bind at 1 2, get, ret. cbn [fst]. unfold bind at 1, assert_.
    replace (in_use t >? 0) with true by lia. cbn [ret].
    by rewrite (bind_ok _ _ _ _ _ (pkt_at_run _ _ _ o Ex)).
  - split; cbn.
    + by rewrite <- app_assoc.
    + intros y. rewrite <- H2, !elem_of_app, !elem_of_cons, elem_of_nil. naive_solver.
    + rewrite u64_id by lia. lia.
    + done.
  - done.
Qed.

(** ** Lemmas: the chunks *)

(** The array grows up to 512 chunks. *)
Lemma append_chunk_ok H t p x c :
  txpim_ok H t -> pkts t !! p = Some x -> zlen (chunks x) < MAX_ALLOC_CHUNKS ->
  exists n, let x' := with_chunks (chunks x ++ [c]) n true x in
  ossl_quic_txpim_pkt_append_chunk p c (t, [] : oracle) = (Ok tt, (stored p x' t, []))
  /\ txpim_ok H (stored p x' t).
Proof.
  intros Ht Ex Hz. destruct (to_chunks H t Ht p x Ex) as [Hc1 Hc2].
  pose proof (zlen_nonneg (chunks x)). unfold MAX_ALLOC_CHUNKS in *.
  assert (p ∈ pool t ++ H) as Hp by (apply (to_pkts H t Ht); eauto).
  assert (exists n, ossl_quic_txpim_pkt_append_chunk p c (t, [] : oracle)
            = (Ok tt, (stored p (with_chunks (chunks x ++ [c]) n true x) t, []))
          /\ zlen (chunks x) + 1 <= n <= 512 /\ 4 <= n) as (n & E & Hn & Hn4).
  2: { exists n. split; [done|]. apply txpim_ok_set; [done|done|]. split; cbn; [|by right].
       rewrite zlen_app, zlen_cons, zlen_nil. unfold MAX_ALLOC_CHUNKS. lia. }
  unfold ossl_quic_txpim_pkt_append_chunk. rewrite (bind_ok _ _ _ _ _ (pkt_at_run _ _ _ _ Ex)).
  destruct (Z.eqb_spec (zlen (chunks x)) (alloc_chunks x)) as [He|He].
  - set (n := if (if alloc_chunks x =? 0 then 4 else u64 (alloc_chunks x * 8) / 5) >? MAX_ALLOC_CHUNKS
              then MAX_ALLOC_CHUNKS else if alloc_chunks x =? 0 then 4 else u64 (alloc_chunks x * 8) / 5).
    assert (zlen (chunks x) + 1 <= n <= 512 /\ 4 <= n) as Hn.
    { unfold n, MAX_ALLOC_CHUNKS. destruct Hc2 as [Hc2|Hc2].
      - rewrite Hc2 in *. cbn. lia.
      - replace (alloc_chunks x =? 0) with false by lia. rewrite u64_id by lia.
        pose proof (Z.div_mod (alloc_chunks x * 8) 5 ltac:(lia)).
        pose proof (Z.mod_pos_bound (alloc_chunks x * 8) 5 ltac:(lia)). case_match; lia. }
    exists n. split; [|done]. fold n. unfold bind at 1 2, guard.
    replace (zlen (chunks x) =? n) with false by lia. cbn [negb ret].
    unfold bind at 1, get. cbn [alloc snd fst]. unfold bind at 1, put. cbn [ret bind].
    pkt_step. by cbn [with_chunks chunks alloc_chunks].
  - exists (alloc_chunks x). split; [|lia]. unfold bind at 1. cbn [ret].
    by rewrite (bind_ok _ _ _ _ _ (pkt_at_run _ _ _ _ Ex)).
Qed.

Section Sort.
Context `{QSort}.

(** The chunks are those of the packet, in some order. *)
Lemma get_chunks_ok HO t p x o :
  txpim_ok HO t -> pkts t !! p = Some x ->
  exists l s t', l ≡ₚ chunks x
  /\ ossl_quic_txpim_pkt_get_chunks p (t, o) = (Ok l, (t', o))
  /\ txpim_ok HO t' /\ pkts t' !! p = Some (with_chunks l (alloc_chunks x) s x)
  /\ forall y, y <> p -> pkts t' !! y = pkts t !! y.
Proof.
  intros Ht Ex. unfold ossl_quic_txpim_pkt_get_chunks.
  rewrite (bind_ok _ _ _ _ _ (pkt_at_run _ _ _ o Ex)). destruct (chunks_need_sort x) eqn:Es.
  - exists (qsort compare (chunks x)), false.
    exists (stored p (with_chunks (qsort compare (chunks x)) (alloc_chunks x) false x) t).
    split; [apply qsort_perm|]. split; [by pkt_step|]. split.
    + destruct (to_chunks HO t Ht p x Ex) as [Hc1 Hc2].
      apply txpim_ok_set; [done|apply (to_pkts HO t Ht); eauto|]. split; [|done]. cbn.
      rewrite zlen_length, qsort_perm, <- zlen_length. done.
    + cbn. rewrite lookup_insert_eq. split; [done|]. intros y Hy. by rewrite lookup_insert_ne.
  - exists (chunks x), false, t. split_and!; try done.
    + unfold bind at 1. cbn [ret]. by rewrite (bind_ok _ _ _ _ _ (pkt_at_run _ _ _ o Ex)).
    + rewrite Ex. destruct x. cbn in *. by subst.
Qed.

(** After the call the chunks are sorted by stream and offset. *)
Lemma get_chunks_sorted p x t o l t' o' :
  pkts t !! p = Some x -> chunks_need_sort x = true ->
  ossl_quic_txpim_pkt_get_chunks p (t, o) = (Ok l, (t', o')) ->
  Sorted (fun a b => compare a b <= 0) l.
Proof.
  intros Ex Es. unfold ossl_quic_txpim_pkt_get_chunks.
  rewrite (bind_ok _ _ _ _ _ (pkt_at_run _ _ _ o Ex)), Es. pkt_step. intros [= <- _ _]. cbn.
  apply qsort_sorted.
  - intros a b. unfold compare. repeat case_match; lia.
  - intros a b c. unfold compare. repeat case_match; lia.
Qed.

End Sort.
