(* ===== verification/Fifd.v ===== *)
(** The dispatcher of frames in flight: ssl/quic/quic_fifd.c and
    include/internal/quic_fifd.h, with the part of ssl/quic/quic_txpim.c that links items
    of the control frame queue to packets and the callback that finds send streams
    (ssl/quic/quic_txp.c).

    The dispatcher connects the ACK manager, the control frame queue, the store of
    packets and the send streams. The addresses that it is given as the arguments of the
    callbacks of packets are those of the store. The functions that it is initialised
    with to notify its caller are a log and a parameter: what they do to the streams. *)

From stdpp Require Import base list numbers gmap sorting.
From Stdlib Require Import ZArith Lia.
From S2P Require Import Prelude SafeMath Vlint Wire UintSet RingBuf SStream Statm NewReno LHash Ackm Cfq Txpim.

#[local] Open Scope cfun_scope.

(** ** Definitions *)

(** A CRYPTO stream or a stream by its identifier. *)
Inductive skey := Crypto (sp : pn_space) | Stream (id : Z).

#[export] Instance skey_eq_dec : EqDecision skey.
Proof. solve_decision. Defined.

#[export] Instance skey_countable : Countable skey.
Proof.
  refine (inj_countable'
    (fun k => match k with
              | Crypto QUIC_PN_SPACE_INITIAL => inl 0
              | Crypto QUIC_PN_SPACE_HANDSHAKE => inl 1
              | Crypto QUIC_PN_SPACE_APP => inl 2
              | Stream id => inr id
              end)
    (fun x => match x with
              | inl 0 => Crypto QUIC_PN_SPACE_INITIAL
              | inl 1 => Crypto QUIC_PN_SPACE_HANDSHAKE
              | inl _ => Crypto QUIC_PN_SPACE_APP
              | inr id => Stream id
              end) _).
  by intros [[]|].
Defined.

(** The calls of [regen_frame], [confirm_frame] and [sstream_updated]. *)
Inductive upcall :=
| Regen_frame (type sid pkt : Z)
| Confirm_frame (type sid pkt : Z)
| Sstream_updated (sid : Z).

(** The send streams that exist. A stream whose send part has no buffer is not there. *)
Notation sstreams := (gmap skey SS).

(** All of a stream is acknowledged, its end included. *)
Definition finished (s : SS) : bool :=
  have_final_size (fst s) && acked_final_size (fst s) &&
  match fst (ossl_quic_sstream_is_totally_acked s) with Ok b => b | _ => false end.

(** What the caller's functions do to the streams: they free some, and leave the others
    as they are. The confirmation of a frame frees none that is not finished, and a
    stream that is finished is freed when the caller is told that it was updated. The file
    StreamMapCaller shows that the functions of ssl/quic/quic_txp.c do so. *)
Class Caller := {
  react : upcall -> sstreams -> sstreams;
  react_frees u m : react u m ⊆ m;
  react_confirm ty sid p m k s :
    m !! k = Some s -> finished s = false -> react (Confirm_frame ty sid p) m !! k = Some s;
  react_updated sid m s :
    m !! Stream sid = Some s -> finished s = true -> react (Sstream_updated sid) m !! Stream sid = None
}.

(** The structure has pointers to these objects. *)
Record QUIC_FIFD (D : Type) := mkFifd {
  ackm : OSSL_ACKM D;
  cfq : CS;
  txpim : PS;
  streams : sstreams;
  upcalls : list upcall
}.
#[global] Arguments mkFifd {D} _ _ _ _ _.
#[global] Arguments ackm {D} _.
#[global] Arguments cfq {D} _.
#[global] Arguments txpim {D} _.
#[global] Arguments streams {D} _.
#[global] Arguments upcalls {D} _.

Section Fifd.
Context {D : Type} `{CongestionControl D} `{Caller} `{QSort}.
Context (now : nat -> OSSL_TIME).
Implicit Types f : QUIC_FIFD D.

Definition upd_ackm (a : OSSL_ACKM D) f : QUIC_FIFD D := mkFifd a (cfq f) (txpim f) (streams f) (upcalls f).
Definition upd_cfq (c : CS) f : QUIC_FIFD D := mkFifd (ackm f) c (txpim f) (streams f) (upcalls f).
Definition upd_txpim (t : PS) f : QUIC_FIFD D := mkFifd (ackm f) (cfq f) t (streams f) (upcalls f).
Definition upd_streams (m : sstreams) f : QUIC_FIFD D := mkFifd (ackm f) (cfq f) (txpim f) m (upcalls f).

Definition in_ackm {A} (m : M (OSSL_ACKM D) A) : M (QUIC_FIFD D) A := zoom ackm upd_ackm m.
Definition in_cfq {A} (m : M CS A) : M (QUIC_FIFD D) A := zoom cfq upd_cfq m.
Definition in_txpim {A} (m : M PS A) : M (QUIC_FIFD D) A := zoom txpim upd_txpim m.

(** Through a pointer to a stream, which must not have been freed. *)
Definition in_stream {A} (k : skey) (m : M SS A) : M (QUIC_FIFD D) A :=
  fun f => match streams f !! k with
           | Some s => let (r, s') := m s in (r, upd_streams (<[k := s']> (streams f)) f)
           | None => (Ub, f)
           end.

Definition notify (u : upcall) : M (QUIC_FIFD D) unit :=
  modify (fun f => mkFifd (ackm f) (cfq f) (txpim f) (react u (streams f)) (u :: upcalls f)).

Definition key_of (sid : Z) (sp : pn_space) : skey := if sid =? UINT64_MAX then Crypto sp else Stream sid.

Definition get_sstream_by_id (sid : Z) (sp : pn_space) : M (QUIC_FIFD D) (option skey) :=
  let! f := get in
  ret (match streams f !! key_of sid sp with Some _ => Some (key_of sid sp) | None => None end).

(** The caller supplies the functions. *)
Definition ossl_quic_fifd_init (c : option CS) (a : option (OSSL_ACKM D)) (t : option PS) (m : sstreams)
  : option (QUIC_FIFD D) :=
  match c, a, t with
  | Some c, Some a, Some t => Some (mkFifd a c t m [])
  | _, _, _ => None
  end.

Definition ossl_quic_fifd_cleanup : M (QUIC_FIFD D) unit := ret tt.

Definition ossl_quic_txpim_pkt_add_cfq_item (p n : Z) : M (QUIC_FIFD D) unit :=
  let! x := in_txpim (pkt_at p) in
  let! i := in_cfq (item n) in
  in_cfq (set_item n (set_pkt_next (retx_head x) i)) ;;;
  in_txpim (set_pkt p (set_retx_head (Some n) x)).

(** The loop over the items of a packet that reads the link before the call: a chain is
    at most as long as the store. *)
Fixpoint retx_loop (fuel : nat) (body : Z -> M CS unit) (h : option Z) : M CS unit :=
  match h with
  | None => ret tt
  | Some n =>
      match fuel with
      | O => undef
      | S fuel' =>
          let! i := item n in
          body n ;;;
          retx_loop fuel' body (pkt_next i)
      end
  end.

(** The loop that reads it after the call. *)
Fixpoint tx_loop (fuel : nat) (h : option Z) : M CS unit :=
  match h with
  | None => ret tt
  | Some n =>
      match fuel with
      | O => undef
      | S fuel' =>
          ossl_quic_cfq_mark_tx n ;;;
          let! i := item n in
          tx_loop fuel' (pkt_next i)
      end
  end.

Definition for_items (body : Z -> M CS unit) (h : option Z) : M (QUIC_FIFD D) unit :=
  in_cfq (let! q := get_cfq in retx_loop (base.size (cfq_items q)) body h).

Definition has_data (c : QUIC_TXPIM_CHUNK) : bool := chunk_end c >=? chunk_start c.

Definition acked_chunk (p : Z) (sp : pn_space) (c : QUIC_TXPIM_CHUNK) : M (QUIC_FIFD D) unit :=
  let! sstream := get_sstream_by_id (stream_id c) sp in
  match sstream with
  | None => ret tt
  | Some k =>
      (if has_data c then in_stream k (ignore (ossl_quic_sstream_mark_acked (chunk_start c) (chunk_end c)))
       else ret tt) ;;;
      (if has_fin c && negb (stream_id c =? UINT64_MAX) then in_stream k (ignore ossl_quic_sstream_mark_acked_fin)
       else ret tt) ;;;
      (if has_stop_sending c && negb (stream_id c =? UINT64_MAX)
       then notify (Confirm_frame OSSL_QUIC_FRAME_TYPE_STOP_SENDING (stream_id c) p) else ret tt) ;;;
      (if has_reset_stream c && negb (stream_id c =? UINT64_MAX)
       then notify (Confirm_frame OSSL_QUIC_FRAME_TYPE_RESET_STREAM (stream_id c) p) else ret tt) ;;;
      let! total := in_stream k ossl_quic_sstream_is_totally_acked in
      if total then notify (Sstream_updated (stream_id c)) else ret tt
  end.

Fixpoint for_chunks (body : QUIC_TXPIM_CHUNK -> M (QUIC_FIFD D) unit) (l : list QUIC_TXPIM_CHUNK)
  : M (QUIC_FIFD D) unit :=
  match l with
  | [] => ret tt
  | c :: l' => body c ;;; for_chunks body l'
  end.

Definition on_acked (p : Z) : M (QUIC_FIFD D) unit :=
  let! x := in_txpim (pkt_at p) in
  assert_ (fifd x) ;;;
  let! cs := in_txpim (ossl_quic_txpim_pkt_get_chunks p) in
  let! num_chunks := in_txpim (ossl_quic_txpim_pkt_get_num_chunks p) in
  for_chunks (acked_chunk p (pkt_space (ackm_pkt x))) (ztake num_chunks cs) ;;;
  for_items ossl_quic_cfq_release (retx_head x) ;;;
  in_txpim (ossl_quic_txpim_pkt_release p).

Definition lost_chunk (p : Z) (sp : pn_space) (c : QUIC_TXPIM_CHUNK) : M (QUIC_FIFD D) unit :=
  let! sstream := get_sstream_by_id (stream_id c) sp in
  match sstream with
  | None => ret tt
  | Some k =>
      (if has_data c then in_stream k (ignore (ossl_quic_sstream_mark_lost (chunk_start c) (chunk_end c)))
       else ret tt) ;;;
      (if has_fin c && negb (stream_id c =? UINT64_MAX) then in_stream k (ignore ossl_quic_sstream_mark_lost_fin)
       else ret tt) ;;;
      let sstream_updated := has_data c || has_fin c && negb (stream_id c =? UINT64_MAX) in
      (if has_stop_sending c && negb (stream_id c =? UINT64_MAX)
       then notify (Regen_frame OSSL_QUIC_FRAME_TYPE_STOP_SENDING (stream_id c) p) else ret tt) ;;;
      (if has_reset_stream c && negb (stream_id c =? UINT64_MAX)
       then notify (Regen_frame OSSL_QUIC_FRAME_TYPE_RESET_STREAM (stream_id c) p) else ret tt) ;;;
      notify (Regen_frame OSSL_QUIC_FRAME_TYPE_MAX_STREAM_DATA (stream_id c) p) ;;;
      if sstream_updated && negb (stream_id c =? UINT64_MAX) then notify (Sstream_updated (stream_id c)) else ret tt
  end.

(** The frames without contents of their own that a packet had. *)
Definition regen_flag (had : bool) (type p : Z) : M (QUIC_FIFD D) unit :=
  if had then notify (Regen_frame type UINT64_MAX p) else ret tt.

Definition on_lost (p : Z) : M (QUIC_FIFD D) unit :=
  let! x := in_txpim (pkt_at p) in
  assert_ (fifd x) ;;;
  let! cs := in_txpim (ossl_quic_txpim_pkt_get_chunks p) in
  let! num_chunks := in_txpim (ossl_quic_txpim_pkt_get_num_chunks p) in
  for_chunks (lost_chunk p (pkt_space (ackm_pkt x))) (ztake num_chunks cs) ;;;
  for_items (fun n => ossl_quic_cfq_mark_lost n UINT32_MAX) (retx_head x) ;;;
  regen_flag (had_handshake_done_frame x) OSSL_QUIC_FRAME_TYPE_HANDSHAKE_DONE p ;;;
  regen_flag (had_max_data_frame x) OSSL_QUIC_FRAME_TYPE_MAX_DATA p ;;;
  regen_flag (had_max_streams_bidi_frame x) OSSL_QUIC_FRAME_TYPE_MAX_STREAMS_BIDI p ;;;
  regen_flag (had_max_streams_uni_frame x) OSSL_QUIC_FRAME_TYPE_MAX_STREAMS_UNI p ;;;
  regen_flag (had_ack_frame x) OSSL_QUIC_FRAME_TYPE_ACK_WITH_ECN p ;;;
  in_txpim (ossl_quic_txpim_pkt_release p).

Definition on_discarded (p : Z) : M (QUIC_FIFD D) unit :=
  let! x := in_txpim (pkt_at p) in
  assert_ (fifd x) ;;;
  for_items ossl_quic_cfq_release (retx_head x) ;;;
  in_txpim (ossl_quic_txpim_pkt_release p).

Definition commit_chunk (sp : pn_space) (c : QUIC_TXPIM_CHUNK) : M (QUIC_FIFD D) unit :=
  let! sstream := get_sstream_by_id (stream_id c) sp in
  match sstream with
  | None => ret tt
  | Some k =>
      (if has_data c then in_stream k (ossl_quic_sstream_mark_transmitted (chunk_start c) (chunk_end c))
       else ret tt) ;;;
      (if has_fin c then in_stream k (ossl_quic_sstream_mark_transmitted_fin (u64 (chunk_end c + 1))) else ret tt)
  end.

(** The callbacks of the packet are those of this file, with the packet as argument. *)
Definition committed (p : Z) (x : QUIC_TXPIM_PKT) : QUIC_TXPIM_PKT :=
  let 'mkTxPkt pn nb t la sp fl el _ := ackm_pkt x in
  mkPkt (mkTxPkt pn nb t la sp fl el p) (retx_head x) true (had_handshake_done_frame x)
    (had_max_data_frame x) (had_max_streams_bidi_frame x) (had_max_streams_uni_frame x)
    (had_ack_frame x) (had_conn_close x) (chunks x) (alloc_chunks x) (chunks_need_sort x).

Definition ossl_quic_fifd_pkt_commit (p : Z) : M (QUIC_FIFD D) unit :=
  let! x := in_txpim (pkt_at p) in
  in_txpim (set_pkt p (committed p x)) ;;;
  in_cfq (let! q := get_cfq in tx_loop (base.size (cfq_items q)) (retx_head x)) ;;;
  let! cs := in_txpim (ossl_quic_txpim_pkt_get_chunks p) in
  let! num_chunks := in_txpim (ossl_quic_txpim_pkt_get_num_chunks p) in
  for_chunks (commit_chunk (pkt_space (ackm_pkt x))) (ztake num_chunks cs) ;;;
  in_ackm (ossl_ackm_on_tx_packet now (ackm_pkt (committed p x))).

(** A callback of a packet. *)
Definition dispatch (c : callback) : M (QUIC_FIFD D) unit :=
  match c with
  | Cb_acked _ _ p => on_acked p
  | Cb_lost _ _ p => on_lost p
  | Cb_discarded _ _ p => on_discarded p
  | Cb_loss_deadline _ | Cb_ack_deadline _ _ => ret tt
  end.

Fixpoint dispatch_all (l : list callback) : M (QUIC_FIFD D) unit :=
  match l with
  | [] => ret tt
  | c :: l' => dispatch c ;;; dispatch_all l'
  end.

End Fifd.
