(* ===== verification/FifdTheory.v ===== *)
(** Lemmas on the dispatcher of frames in flight: what the callbacks of a packet and the
    commitment of a packet do to the streams, to the control frame queue and to the
    store of packets. *)

From stdpp Require Import base list numbers gmap sorting.
From Stdlib Require Import ZArith Lia.
From S2P Require Import Prelude SafeMath Vlint Wire UintSet RingBuf SStream Statm NewReno LHash Ackm Cfq Txpim Fifd.

#[local] Open Scope cfun_scope.

(** ** Chunks and the streams they belong to *)

(** A chunk with its stream. *)
Definition keyed : Type := skey * QUIC_TXPIM_CHUNK.

Definition carries (k : skey) (v : Z) (x : keyed) : Prop := x.1 = k /\ chunk_start x.2 <= v <= chunk_end x.2.

#[export] Instance carries_dec k v x : Decision (carries k v x).
Proof. unfold carries. apply _. Defined.

(** How many of the chunks have the byte [v] of the stream [k]. *)
Definition cover (k : skey) (v : Z) (C : list keyed) : nat := length (filter (carries k v) C).

(** All of it is acknowledged, as [finished] says. *)
Definition acked_whole (a : sspec) : Prop :=
  s_have a = true /\ s_acked a = true /\ forall v, 0 <= v < size a -> st a v = Acked.

(** The chunks in flight are those of the bytes in flight, once each. The stream is not
    finished, and only the streams with an identifier have an end. *)
Record carried (k : skey) (C : list keyed) (a : sspec) : Prop := {
  ca_cover v : 0 <= v < size a -> cover k v C = if bool_decide (st a v = InFlight) then 1%nat else 0%nat;
  ca_range c : (k, c) ∈ C -> has_data c = true -> 0 <= chunk_start c /\ chunk_end c < size a;
  ca_fin c : (k, c) ∈ C -> has_fin c = true -> s_have a = true /\ stream_id c <> UINT64_MAX;
  ca_sent : s_sent a = true -> s_acked a = false -> exists c, (k, c) ∈ C /\ has_fin c = true;
  ca_open : ~ acked_whole a;
  ca_end : s_acked a = true -> s_have a = true /\ exists id, k = Stream id
}.

Definition streams_ok (C : list keyed) (m : sstreams) : Prop :=
  forall k (s : SS), m !! k = Some s -> snd s = [] /\ exists a, sim (fst s) a /\ carried k C a.

Lemma cover_cons k v x C : cover k v (x :: C) = ((if decide (carries k v x) then 1 else 0) + cover k v C)%nat.
Proof. unfold cover. rewrite filter_cons. by case_decide. Qed.

Lemma cover_0 k v C : (forall x, x ∈ C -> ~ carries k v x) -> cover k v C = 0%nat.
Proof.
  induction C as [|x C IH]; intros Hx; [done|]. rewrite cover_cons, decide_False by (apply Hx; by left).
  apply IH. intros y Hy. apply Hx. by right.
Qed.

Lemma cover_app k v C C' : cover k v (C ++ C') = (cover k v C + cover k v C')%nat.
Proof. unfold cover. by rewrite filter_app, length_app. Qed.

#[export] Instance cover_proper k v : Proper ((≡ₚ) ==> (=)) (cover k v).
Proof. intros C C' HP. unfold cover. by rewrite HP. Qed.

Lemma carried_perm k C C' a : C ≡ₚ C' -> carried k C a -> carried k C' a.
Proof.
  intros HP [H1 H2 H3 H4 H5 H6]. split; [..|done|done].
  - intros v. rewrite <- HP. apply H1.
  - intros c. rewrite <- HP. apply H2.
  - intros c. rewrite <- HP. apply H3.
  - intros Hs Ha. destruct (H4 Hs Ha) as (c & Hc & Hf). exists c. by rewrite <- HP.
Qed.

#[export] Instance streams_ok_proper : Proper ((≡ₚ) ==> (=) ==> iff) streams_ok.
Proof.
  intros C C' HP m ? <-. split; intros Hm k s E; destruct (Hm k s E) as (Ho & a & Hs & Hc);
    (split; [done|]); exists a; (split; [done|]); by eapply carried_perm.
Qed.

Lemma streams_ok_sub C (m m' : sstreams) : m' ⊆ m -> streams_ok C m -> streams_ok C m'.
Proof. intros Hs Hm k s E. apply Hm. by eapply lookup_weaken. Qed.

(** A chunk of another stream does not matter. *)
Lemma carried_other k k' c C a : k' <> k -> carried k ((k', c) :: C) a <-> carried k C a.
Proof.
  intros Hne.
  assert (Hin : forall x, (k, x) ∈ (k', c) :: C <-> (k, x) ∈ C).
  { intros x. rewrite elem_of_cons. split; [|by right]. by intros [[= <- _]|]. }
  assert (Hcov : forall v, cover k v ((k', c) :: C) = cover k v C).
  { intros v. rewrite cover_cons, decide_False; [done|]. by intros [? _]. }
  split; intros [H1 H2 H3 H4 H5 H6]; (split; [..|done|done]).
  - intros v. rewrite <- Hcov. apply H1.
  - intros x. rewrite <- Hin. apply H2.
  - intros x. rewrite <- Hin. apply H3.
  - intros Hs Ha. destruct (H4 Hs Ha) as (x & Hx & Hf). exists x. by rewrite <- Hin.
  - intros v. rewrite Hcov. apply H1.
  - intros x. rewrite Hin. apply H2.
  - intros x. rewrite Hin. apply H3.
  - intros Hs Ha. destruct (H4 Hs Ha) as (x & Hx & Hf). exists x. by rewrite Hin.
Qed.

Lemma streams_ok_dead k c C (m : sstreams) : m !! k = None -> streams_ok ((k, c) :: C) m <-> streams_ok C m.
Proof.
  intros Hk. split; intros Hm k' s E; destruct (Hm k' s E) as (Ho & a & Hs & Hc);
    (split; [done|]); exists a; (split; [done|]); (assert (k <> k') as Hne by (intros ->; by rewrite Hk in E)).
  - by apply (carried_other k' k c C a Hne).
  - by apply (carried_other k' k c C a Hne).
Qed.

Lemma dead_streams l C (m : sstreams) : (forall k c, (k, c) ∈ l -> m !! k = None) -> streams_ok (l ++ C) m -> streams_ok C m.
Proof.
  induction l as [|[k c] l IH]; intros Hd Hm; [done|]. apply IH.
  - intros k' c' Hc. apply (Hd k' c'). by right.
  - apply (streams_ok_dead k c); [|done]. apply (Hd k c). by left.
Qed.

(** A stream is gone. *)
Lemma streams_ok_gone k c s C (m m' : sstreams) :
  streams_ok ((k, c) :: C) m -> m' ⊆ <[k := s]> m -> m' !! k = None -> streams_ok C m'.
Proof.
  intros Hm Hs Hk k' s' E. assert (k <> k') as Hne by (intros ->; by rewrite Hk in E).
  pose proof (lookup_weaken _ _ _ _ E Hs) as E'. rewrite lookup_insert_ne in E' by done.
  destruct (Hm k' s' E') as (Ho & a & Ha & Hc). split; [done|]. exists a. split; [done|].
  by apply (carried_other k' k c C a Hne).
Qed.

Lemma finished_spec q a : sim q a -> finished (q, []) = true <-> acked_whole a.
Proof.
  intros Hs. unfold finished, acked_whole. destruct (totally_acked_ok q a Hs) as (b & E & Hb).
  change (ossl_quic_sstream_is_totally_acked (q, [])) with (ossl_quic_sstream_is_totally_acked (q, [] : oracle)).
  rewrite E. cbn [fst].
  rewrite (sim_have _ _ Hs), (sim_acked_fin _ _ Hs), !andb_true_iff. naive_solver.
Qed.

(** One stream changes. *)
Lemma streams_ok_insert C k q a (m : sstreams) :
  sim q a -> carried k C a ->
  (forall k' (s : SS), k' <> k -> m !! k' = Some s -> snd s = [] /\ exists a', sim (fst s) a' /\ carried k' C a') ->
  streams_ok C (<[k := (q, [])]> m).
Proof.
  intros Hs Hc Ho k' s. destruct (decide (k' = k)) as [->|Hne].
  - rewrite lookup_insert_eq. intros [= <-]. eauto.
  - rewrite lookup_insert_ne by done. by apply Ho.
Qed.

(** The stream gets more bytes, or a final size. *)
Lemma carried_more k C a a' : carried k C a -> size a <= size a' ->
  (forall v, 0 <= v < size a -> st a' v = st a v) -> (forall v, size a <= v < size a' -> st a' v = New) ->
  (s_have a = true -> s_have a' = true) -> s_sent a' = s_sent a -> s_acked a' = s_acked a -> carried k C a'.
Proof.
  intros [H1 H2 H3 H4 H5 H6] Hz Hold Hnew Hh Es Ea. split.
  - intros v Hv. destruct (decide (v < size a)) as [Hlt|Hge]; [rewrite Hold by lia; apply H1; lia|].
    rewrite Hnew by lia. rewrite bool_decide_eq_false_2 by done. apply cover_0. intros [k' c] Hin [Hk Hc]. cbn in Hk, Hc. subst k'.
    destruct (H2 c Hin) as [_ ?]; [unfold has_data; lia|lia].
  - intros c Hc Hd. destruct (H2 c Hc Hd). lia.
  - intros c Hc Hd. destruct (H3 c Hc Hd). auto.
  - rewrite Es, Ea. exact H4.
  - intros (_ & A1 & A2). rewrite Ea in A1. apply H5. split; [by apply H6|]. split; [done|].
    intros v Hv. rewrite <- Hold by lia. apply A2. lia.
  - rewrite Ea. intros A1. destruct (H6 A1). auto.
Qed.

(** What the owner of a stream does keeps the bytes in flight. *)
Lemma carried_sop k C a op : carried k C a ->
  match op with op_append _ | op_fin => True | op_set_size n => True | _ => False end ->
  carried k C (snd (spec_sop op a)).
Proof.
  intros Hc Hop. destruct op as [bs| | | | | | | |n]; try done; cbn [spec_sop].
  - destruct (s_have a) eqn:Hh; [done|]. destruct (spec_rop (op_push bs) (sq a)) as [n qu] eqn:E. cbn [snd].
    cbn [spec_rop] in E. injection E as En Eq.
    assert (Hz : zlen (ztake n bs) = Z.max 0 n).
    { destruct (decide (n < 0)) as [Hlt|Hge]; [rewrite ztake_le_zero, zlen_nil; lia|]. rewrite zlen_ztake; lia. }
    assert (Es : zlen (RingBuf.log qu) = size a + Z.max 0 n) by (by rewrite <- Eq, En; cbn; rewrite zlen_app, Hz).
    eapply carried_more; [done|..]; unfold size in *; cbn [sq st s_have s_sent s_acked]; rewrite ?Es; try done; try lia; try congruence.
    + intros v Hv. rewrite update_out; [done|]. lia.
    + intros v Hv. rewrite update_in; [done|]. lia.
  - eapply carried_more; [done|..]; unfold size; cbn; try done; lia.
  - destruct (spec_rop (op_resize n false true) (sq a)) as [x qu] eqn:E. cbn [snd].
    assert (Hl : RingBuf.log qu = RingBuf.log (sq a)).
    { cbn [spec_rop] in E. repeat case_match; by simplify_eq. }
    eapply carried_more; [done|..]; unfold size; cbn [sq st s_have s_sent s_acked]; rewrite ?Hl; try done; lia.
Qed.

(** ** The end of a chunk *)

Section Settled.
Context (k : skey) (c : QUIC_TXPIM_CHUNK) (C : list keyed) (q : QUIC_SSTREAM) (a : sspec).
Context (Hs : sim q a) (Hc : carried k ((k, c) :: C) a).

(** The bytes of a chunk in flight are in flight, and in no other chunk. *)
Lemma chunk_in_flight v : has_data c = true -> chunk_start c <= v <= chunk_end c ->
  st a v = InFlight /\ cover k v C = 0%nat.
Proof using Hc.
  intros Hd Hv. destruct (ca_range _ _ _ Hc c ltac:(by left) Hd) as [H1 H2].
  pose proof (ca_cover _ _ _ Hc v ltac:(lia)) as E. rewrite cover_cons, decide_True in E by (by split).
  case_bool_decide; [|lia]. split; [done|lia].
Qed.

(** The states after the bytes of the chunk have left the flight. *)
Lemma cover_settled x v : x <> InFlight -> has_data c = true -> 0 <= v < size a ->
  cover k v C = if bool_decide (update (chunk_start c) (chunk_end c) (fun _ => x) (st a) v = InFlight)
                then 1%nat else 0%nat.
Proof using Hc.
  intros Hx Hd Hv. destruct (decide (chunk_start c <= v <= chunk_end c)) as [Hin|Hout].
  - rewrite update_in by done. rewrite bool_decide_eq_false_2 by done. by apply chunk_in_flight.
  - rewrite update_out by done. rewrite <- (ca_cover _ _ _ Hc v Hv), cover_cons, decide_False; [done|].
    intros [_ ?]. done.
Qed.

Lemma cover_empty v : has_data c = false -> 0 <= v < size a ->
  cover k v C = if bool_decide (st a v = InFlight) then 1%nat else 0%nat.
Proof using Hc.
  intros Hd Hv. rewrite <- (ca_cover _ _ _ Hc v Hv), cover_cons, decide_False; [done|].
  intros [_ Hin]. cbn in Hin. unfold has_data in Hd. lia.
Qed.

(** The chunk is gone; its FIN is taken care of. *)
Lemma carried_settled a' :
  size a' = size a -> s_have a' = s_have a ->
  (forall v, 0 <= v < size a -> cover k v C = if bool_decide (st a' v = InFlight) then 1%nat else 0%nat) ->
  (s_sent a' = true -> s_acked a' = false -> s_sent a = true /\ s_acked a = false /\ has_fin c = false) ->
  ~ acked_whole a' -> (s_acked a' = true -> s_acked a = true \/ s_have a = true /\ exists id, k = Stream id) ->
  carried k C a'.
Proof using Hc.
  intros Ez Eh Hcov Hfin Hopen Hend. split.
  - intros v. rewrite Ez. apply Hcov.
  - intros x Hx. rewrite Ez. apply (ca_range _ _ _ Hc). by right.
  - intros x Hx. rewrite Eh. apply (ca_fin _ _ _ Hc). by right.
  - intros H1 H2. destruct (Hfin H1 H2) as (H3 & H4 & H5).
    destruct (ca_sent _ _ _ Hc H3 H4) as (x & [Hx|Hx]%elem_of_cons & Hf); [|by exists x].
    simplify_eq. congruence.
  - done.
  - rewrite Eh. intros Ha. destruct (Hend Ha) as [Ha'|]; [by apply (ca_end _ _ _ Hc)|done].
Qed.

End Settled.

(** ** Streams *)

Lemma ignore_attempt {A} (g : A -> Z) (m : M SS A) s x s' :
  attempt g m s = (Ok x, s') -> ignore m s = (Ok tt, s').
Proof. unfold attempt, ignore. by destruct (m s) as [[]]; intros; simplify_eq. Qed.

Lemma attempt_some (g : unit -> Z) (m : M SS unit) s x s' :
  attempt g m s = (Ok (Some x), s') -> m s = (Ok tt, s').
Proof. unfold attempt. by destruct (m s) as [[[]| |]]; intros; simplify_eq. Qed.

(** What the calls on a stream at the end of a chunk leave. *)
Record settled (k : skey) (C : list keyed) (a a' : sspec) : Prop := {
  se_size : size a' = size a;
  se_have : s_have a' = s_have a;
  se_cover v : 0 <= v < size a -> cover k v C = if bool_decide (st a' v = InFlight) then 1%nat else 0%nat
}.

Definition acked_data (c : QUIC_TXPIM_CHUNK) : M SS unit :=
  if has_data c then ignore (ossl_quic_sstream_mark_acked (chunk_start c) (chunk_end c)) else ret tt.
Definition lost_data (c : QUIC_TXPIM_CHUNK) : M SS unit :=
  if has_data c then ignore (ossl_quic_sstream_mark_lost (chunk_start c) (chunk_end c)) else ret tt.
Definition acked_fin (c : QUIC_TXPIM_CHUNK) : M SS unit :=
  if has_fin c && negb (stream_id c =? UINT64_MAX) then ignore ossl_quic_sstream_mark_acked_fin else ret tt.
Definition lost_fin (c : QUIC_TXPIM_CHUNK) : M SS unit :=
  if has_fin c && negb (stream_id c =? UINT64_MAX) then ignore ossl_quic_sstream_mark_lost_fin else ret tt.

Section Settle.
Context (k : skey) (c : QUIC_TXPIM_CHUNK) (C : list keyed) (q : QUIC_SSTREAM) (a : sspec).
Context (Hs : sim q a) (Hc : carried k ((k, c) :: C) a).

(** The end of the data of a chunk. *)
Lemma settle_data_ok (m : Z -> Z -> M SS unit) op x :
  x <> InFlight ->
  (sop_ok a (op (chunk_start c) (chunk_end c)) ->
   exists q', m (chunk_start c) (chunk_end c) (q, [] : oracle) = (Ok tt, (q', [] : oracle)) /\
              sim q' (snd (spec_sop (op (chunk_start c) (chunk_end c)) a))) ->
  (forall s e, sop_ok a (op s e) <-> 0 <= s <= e /\ e < size a /\ forall v, s <= v <= e -> st a v = InFlight) ->
  (forall s e, let a' := snd (spec_sop (op s e) a) in
     size a' = size a /\ st a' = update s e (fun _ => x) (st a) /\ s_have a' = s_have a /\
     s_sent a' = s_sent a /\ s_acked a' = s_acked a) ->
  exists q' a', (if has_data c then ignore (m (chunk_start c) (chunk_end c)) else ret tt) (q, [] : oracle)
                = (Ok tt, (q', [])) /\ sim q' a' /\ settled k C a a' /\ s_sent a' = s_sent a /\ s_acked a' = s_acked a /\
                if has_data c then 0 <= chunk_start c < size a /\ st a' (chunk_start c) = x else a' = a.
Proof using Hs Hc.
  intros Hx Hm Hop Ha. destruct (has_data c) eqn:Hd.
  - destruct (ca_range _ _ _ Hc c ltac:(by left) Hd) as [H1 H2]. destruct Hm as (q' & E & Hq').
    { apply Hop. split; [unfold has_data in Hd; lia|]. split; [done|]. intros v Hv. by apply (chunk_in_flight k c C a). }
    specialize (Ha (chunk_start c) (chunk_end c)). cbv zeta in Ha. destruct Ha as (A1 & A2 & A3 & A4 & A5).
    exists q', (snd (spec_sop (op (chunk_start c) (chunk_end c)) a)). split; [unfold ignore; by rewrite E|].
    split; [done|]. unfold has_data in Hd. split; [split; [done|done|]|split_and!; try done; [lia|]].
    + intros v Hv. rewrite A2. by apply (cover_settled k c C a).
    + rewrite A2, update_in; [done|lia].
  - exists q, a. split_and!; try done. split; [done|done|]. intros v Hv. by apply (cover_empty k c C a).
Qed.

Lemma acked_data_ok :
  exists q' a', acked_data c (q, [] : oracle) = (Ok tt, (q', [])) /\ sim q' a' /\ settled k C a a' /\
                s_sent a' = s_sent a /\ s_acked a' = s_acked a /\
                if has_data c then 0 <= chunk_start c < size a /\ st a' (chunk_start c) = Acked else a' = a.
Proof using Hs Hc.
  apply (settle_data_ok ossl_quic_sstream_mark_acked op_acked Acked); [done| |done|done].
  intros Hok. by apply acked_ok.
Qed.

Lemma lost_data_ok :
  exists q' a', lost_data c (q, [] : oracle) = (Ok tt, (q', [])) /\ sim q' a' /\ settled k C a a' /\
                s_sent a' = s_sent a /\ s_acked a' = s_acked a /\
                if has_data c then 0 <= chunk_start c < size a /\ st a' (chunk_start c) = New else a' = a.
Proof using Hs Hc.
  apply (settle_data_ok ossl_quic_sstream_mark_lost op_lost New); [done| |done|done].
  intros Hok. by apply lost_ok.
Qed.

End Settle.

(** The end of a FIN: the stream is carried by the other chunks, or it is finished. *)
Lemma acked_stream_ok k c C q a : sim q a -> carried k ((k, c) :: C) a ->
  (stream_id c <> UINT64_MAX -> k = Stream (stream_id c)) ->
  exists q' a', (acked_data c ;;; acked_fin c) (q, [] : oracle) = (Ok tt, (q', [])) /\ sim q' a' /\ size a' = size a /\
    (s_acked a = true \/ has_fin c = true -> s_acked a' = true) /\
    (carried k C a' \/ acked_whole a' /\ exists id, k = Stream id).
Proof.
  intros Hs Hc Hk. destruct (acked_data_ok k c C q a Hs Hc) as (q1 & a1 & E1 & S1 & [Z1 Z2 Z3] & F1 & F2 & _).
  rewrite (bind_ok _ _ _ _ _ E1). unfold acked_fin. destruct (has_fin c) eqn:Hf; cbn [andb].
  - destruct (ca_fin _ _ _ Hc c ltac:(by left) Hf) as [Hh Hid]. replace (stream_id c =? UINT64_MAX) with false by lia.
    cbn [negb]. destruct (flags_ok (fun n => zrepeat 0 n) q1 a1 op_acked_fin S1 I) as (q2 & E2 & S2).
    cbn [spec_sop] in E2, S2. rewrite Z2, Hh in E2, S2. cbn [fst snd] in E2, S2.
    exists q2. eexists. split; [by eapply ignore_attempt|]. split; [exact S2|]. split; [exact Z1|]. split; [done|].
    destruct (finished (q2, [])) eqn:Hfi; [right|left].
    + split; [by apply (finished_spec _ _ S2)|]. exists (stream_id c). by apply Hk.
    + apply (carried_settled k c C a Hc); try done; [|right; split; [done|]; exists (stream_id c); by apply Hk].
      intros Hw%(finished_spec _ _ S2). congruence.
  - exists q1, a1. split; [done|]. split; [done|]. split; [done|]. split; [rewrite F2; naive_solver|].
    destruct (finished (q1, [])) eqn:Hfi; [right|left].
    + apply (finished_spec _ _ S1) in Hfi. split; [done|]. apply (ca_end _ _ _ Hc). rewrite <- F2. apply Hfi.
    + apply (carried_settled k c C a Hc); try done; [by rewrite F1, F2| |rewrite F2; by left].
      intros Hw%(finished_spec _ _ S1). congruence.
Qed.

Lemma lost_stream_ok k c C q a : sim q a -> carried k ((k, c) :: C) a ->
  exists q' a', (lost_data c ;;; lost_fin c) (q, [] : oracle) = (Ok tt, (q', [])) /\ sim q' a' /\ carried k C a' /\
    size a' = size a /\ s_acked a' = s_acked a /\ (s_sent a = false -> s_sent a' = false) /\
    (has_fin c = true -> s_sent a' = false \/ s_acked a' = true).
Proof.
  intros Hs Hc. destruct (lost_data_ok k c C q a Hs Hc) as (q1 & a1 & E1 & S1 & [Z1 Z2 Z3] & F1 & F2 & Hd).
  assert (Hopen : ~ acked_whole a1).
  { destruct (has_data c); [|subst a1; apply (ca_open _ _ _ Hc)]. destruct Hd as [H1 H2].
    intros (_ & _ & Hw). rewrite Hw in H2; [done|lia]. }
  rewrite (bind_ok _ _ _ _ _ E1). unfold lost_fin. destruct (has_fin c) eqn:Hf; cbn [andb].
  - destruct (ca_fin _ _ _ Hc c ltac:(by left) Hf) as [Hh Hid]. replace (stream_id c =? UINT64_MAX) with false by lia.
    cbn [negb]. destruct (flags_ok (fun n => zrepeat 0 n) q1 a1 op_lost_fin S1 I) as (q2 & E2 & S2).
    cbn [spec_sop] in E2, S2. exists q2. destruct (s_acked a1) eqn:Ha; cbn [fst snd] in E2, S2.
    + exists a1. split; [by eapply ignore_attempt|]. split; [done|]. split; [|split_and!; try congruence; by right].
      apply (carried_settled k c C a Hc); try done; [congruence|left; congruence].
    + eexists. split; [by eapply ignore_attempt|]. split; [exact S2|]. split; [|split_and!; cbn; (done || congruence || by left)].
      apply (carried_settled k c C a Hc); try done. by intros (_ & ? & _).
  - exists q1, a1. split_and!; try done; [|congruence..].
    apply (carried_settled k c C a Hc); try done; [by rewrite F1, F2|]. rewrite F2. by left.
Qed.

Lemma lost_stream_acked c q o r q' o' :
  (lost_data c ;;; lost_fin c) (q, o) = (r, (q', o')) -> acked_set q' = acked_set q.
Proof.
  assert (Hd : forall q o r q' o', lost_data c (q, o) = (r, (q', o')) -> acked_set q' = acked_set q).
  { intros q1 o1 r1 q2 o2. unfold lost_data, ignore, ossl_quic_sstream_mark_lost, on_new, ret.
    destruct (has_data c); [|intros; by simplify_eq].
    destruct (ossl_uint_set_insert _ _) as [[] []]; intros; by simplify_eq. }
  assert (Hf : forall q o r q' o', lost_fin c (q, o) = (r, (q', o')) -> acked_set q' = acked_set q).
  { intros q1 o1 r1 q2 o2. unfold lost_fin, ignore, ossl_quic_sstream_mark_lost_fin, get_qss, bind, guard, modify, ret.
    destruct (_ && _); [|intros; by simplify_eq]. cbn. destruct (acked_final_size q1); cbn; intros; by simplify_eq. }
  unfold bind. destruct (lost_data c (q, o)) as [[x| |] [q1 o1]] eqn:E1; intros E2; apply Hd in E1.
  - apply Hf in E2. congruence.
  - simplify_eq. congruence.
  - simplify_eq. congruence.
Qed.

Lemma acked_stream_new c q o r q' o' :
  (acked_data c ;;; acked_fin c) (q, o) = (r, (q', o')) -> new_set q' = new_set q.
Proof.
  assert (Hd : forall q o r q' o', acked_data c (q, o) = (r, (q', o')) -> new_set q' = new_set q).
  { intros q1 o1 r1 q2 o2. unfold acked_data, ignore, ossl_quic_sstream_mark_acked, qss_cull, get_qss, SStream.on_acked, on_ring, bind, ret.
    destruct (has_data c); [|intros; by simplify_eq].
    destruct (ossl_uint_set_insert _ _) as [[] []]; cbn; [|intros; by simplify_eq..].
    repeat case_match; intros; by simplify_eq. }
  assert (Hf : forall q o r q' o', acked_fin c (q, o) = (r, (q', o')) -> new_set q' = new_set q).
  { intros q1 o1 r1 q2 o2. unfold acked_fin, ignore, ossl_quic_sstream_mark_acked_fin, get_qss, bind, guard, modify, ret.
    destruct (_ && _); [|intros; by simplify_eq]. cbn. destruct (have_final_size q1); cbn; intros; by simplify_eq. }
  unfold bind. destruct (acked_data c (q, o)) as [[x| |] [q1 o1]] eqn:E1; intros E2; apply Hd in E1.
  - apply Hf in E2. congruence.
  - simplify_eq. congruence.
  - simplify_eq. congruence.
Qed.

(** ** The chunks of a packet to send *)

(** Every byte of the chunks is new and in one chunk, and a FIN ends the stream. *)
Record fit (k : skey) (cs : list keyed) (q : QUIC_SSTREAM) : Prop := {
  fi_new v : cover k v cs = 0%nat \/ cover k v cs = 1%nat /\ contains (items (new_set q)) v;
  fi_fin c : (k, c) ∈ cs -> has_fin c = true ->
             have_final_size q = true /\ stream_id c <> UINT64_MAX /\ u64 (chunk_end c + 1) = head_offset (ring q)
}.

Definition streams_fit (cs : list keyed) (m : sstreams) : Prop :=
  forall k (s : SS), m !! k = Some s -> fit k cs (fst s).

Lemma fit_perm k cs cs' q : cs ≡ₚ cs' -> fit k cs q -> fit k cs' q.
Proof.
  intros HP [H1 H2]. split.
  - intros v. rewrite <- HP. apply H1.
  - intros c. rewrite <- HP. apply H2.
Qed.

#[export] Instance streams_fit_proper : Proper ((≡ₚ) ==> (=) ==> iff) streams_fit.
Proof. intros cs cs' HP m ? <-. split; intros Hm k s E; eapply fit_perm; try apply (Hm k s E); done. Qed.

Lemma fit_tail k x cs q : fit k (x :: cs) q -> fit k cs q.
Proof.
  intros [H1 H2]. split.
  - intros v. specialize (H1 v). rewrite cover_cons in H1. case_decide; naive_solver lia.
  - intros c Hc. apply H2. by right.
Qed.

Definition commit_data (c : QUIC_TXPIM_CHUNK) : M SS unit :=
  if has_data c then ossl_quic_sstream_mark_transmitted (chunk_start c) (chunk_end c) else ret tt.
Definition commit_fin (c : QUIC_TXPIM_CHUNK) : M SS unit :=
  if has_fin c then ossl_quic_sstream_mark_transmitted_fin (u64 (chunk_end c + 1)) else ret tt.

Section Commit.
Context (k : skey) (c : QUIC_TXPIM_CHUNK) (C cs : list keyed) (q : QUIC_SSTREAM) (a : sspec).
Context (Hs : sim q a) (Hc : carried k C a) (Hf : fit k ((k, c) :: cs) q).

Lemma fit_range v : chunk_start c <= v <= chunk_end c ->
  0 <= v < size a /\ st a v = New /\ cover k v C = 0%nat /\ cover k v cs = 0%nat.
Proof using Hs Hc Hf.
  intros Hv. pose proof (fi_new _ _ _ Hf v) as Hn. rewrite cover_cons, decide_True in Hn by (by split).
  destruct Hn as [?|[H1 H2]]; [lia|]. apply (sim_new _ _ Hs) in H2 as [H2 H3]. split_and!; try done; try lia.
  rewrite (ca_cover _ _ _ Hc v H2), H3. by rewrite bool_decide_eq_false_2.
Qed.

Lemma commit_data_ok :
  exists q' a', commit_data c (q, [] : oracle) = (Ok tt, (q', [])) /\ sim q' a' /\ fit k cs q' /\
    size a' = size a /\ s_have a' = s_have a /\ s_sent a' = s_sent a /\ s_acked a' = s_acked a /\ ~ acked_whole a' /\
    forall v, 0 <= v < size a ->
      cover k v ((k, c) :: C) = if bool_decide (st a' v = InFlight) then 1%nat else 0%nat.
Proof using Hs Hc Hf.
  unfold commit_data. destruct (has_data c) eqn:Hd.
  - assert (Hse : chunk_start c <= chunk_end c) by (unfold has_data in Hd; lia).
    destruct (transmitted_ok q a (chunk_start c) (chunk_end c) Hs) as (q' & E & Hq').
    { destruct (fit_range (chunk_start c)) as [? _]; [lia|]. destruct (fit_range (chunk_end c)) as [? _]; [lia|]. cbn. lia. }
    set (a' := snd (spec_sop _ a)) in *. exists q', a'. split; [done|]. split; [done|].
    assert (Hst : forall v, st a' v = if decide (chunk_start c <= v <= chunk_end c) then InFlight else st a v).
    { intros v. cbn [a' spec_sop snd st]. case_decide as Hv; [|by rewrite update_out].
      rewrite update_in by done. destruct (fit_range v Hv) as (_ & -> & _). done. }
    destruct (sim_offsets _ _ Hs) as (_ & _ & _ & O4 & _). destruct (sim_offsets _ _ Hq') as (_ & _ & _ & O4' & _).
    split; [split|].
    + intros v. pose proof (fi_new _ _ _ (fit_tail _ _ _ _ Hf) v) as [?|[H1 H2]]; [by left|right]. split; [done|].
      apply (sim_new _ _ Hq'). apply (sim_new _ _ Hs) in H2 as [H2 H3]. split; [done|]. rewrite Hst.
      rewrite decide_False; [done|]. intros Hv. destruct (fit_range v Hv) as (_ & _ & _ & ?). lia.
    + intros x Hx Hfx. rewrite (sim_have _ _ Hq'), O4'. change (size a') with (size a). rewrite <- O4.
      change (s_have a') with (s_have a). rewrite <- (sim_have _ _ Hs). apply (fi_fin _ _ _ Hf); [by right|done].
    + split_and!; try done.
      { intros (_ & _ & Hw). destruct (fit_range (chunk_start c)) as [Hr _]; [lia|]. specialize (Hw _ Hr).
        rewrite Hst, decide_True in Hw; [done|lia]. }
      intros v Hv. rewrite Hst, cover_cons. case_decide as Hv'.
      * destruct Hv' as [_ Hv']. rewrite decide_True by done. destruct (fit_range v Hv') as (_ & _ & -> & _). done.
      * rewrite decide_False by (intros ?; by apply Hv'). by rewrite (ca_cover _ _ _ Hc v Hv).
  - exists q, a. split_and!; try done; [by eapply fit_tail|apply (ca_open _ _ _ Hc)|]. intros v Hv.
    rewrite cover_cons, decide_False; [by apply (ca_cover _ _ _ Hc)|]. intros [_ ?]. unfold has_data in Hd. cbn in *. lia.
Qed.

Lemma commit_stream_ok :
  exists q' a', (commit_data c ;;; commit_fin c) (q, [] : oracle) = (Ok tt, (q', [])) /\ sim q' a' /\
                carried k ((k, c) :: C) a' /\ fit k cs q'.
Proof using Hs Hc Hf.
  destruct commit_data_ok as (q1 & a1 & E1 & S1 & F1 & Z1 & Z2 & Z3 & Z4 & Z5 & Hcov). rewrite (bind_ok _ _ _ _ _ E1).
  assert (Hr : forall x, (k, x) ∈ (k, c) :: C -> has_data x = true -> 0 <= chunk_start x /\ chunk_end x < size a).
  { intros x [[= ->]|Hx]%elem_of_cons Hd; [|by apply (ca_range _ _ _ Hc)]. unfold has_data in Hd.
    destruct (fit_range (chunk_start c)) as [? _]; [lia|]. destruct (fit_range (chunk_end c)) as [? _]; [lia|]. lia. }
  assert (Hfin : forall x, (k, x) ∈ (k, c) :: C -> has_fin x = true -> s_have a = true /\ stream_id x <> UINT64_MAX).
  { intros x [[= ->]|Hx]%elem_of_cons Hd; [|by apply (ca_fin _ _ _ Hc)]. rewrite <- (sim_have _ _ Hs).
    destruct (fi_fin _ _ _ Hf c ltac:(by left) Hd) as (? & ? & _). done. }
  unfold commit_fin. destruct (has_fin c) eqn:Hfc.
  - destruct (flags_ok (fun n => zrepeat 0 n) q1 a1 (op_transmitted_fin (u64 (chunk_end c + 1))) S1 I) as (q2 & E2 & S2).
    destruct (fi_fin _ _ _ Hf c ltac:(by left) Hfc) as (Hh & _ & Ez).
    destruct (sim_offsets _ _ Hs) as (_ & _ & _ & O4 & _). rewrite (sim_have _ _ Hs) in Hh.
    cbn [spec_sop] in E2, S2. rewrite Z2, Hh, Ez, O4, Z1, Z.eqb_refl in E2. rewrite Z2, Hh, Ez, O4, Z1, Z.eqb_refl in S2.
    cbn [andb fst snd exec_sop] in E2, S2. exists q2. eexists. rewrite Ez, O4. split; [|split; [exact S2|split]].
    + by eapply attempt_some.
    + split; cbn [st s_have s_sent s_acked]; unfold size; cbn [sq]; fold (size a1); rewrite ?Z1; try done.
      * intros x Hx Hd. split; [done|]. by apply (Hfin x).
      * intros _ _. exists c. split; [by left|done].
      * intros (_ & W2 & W3). apply Z5. split; [congruence|done].
      * rewrite Z4. intros Ha. split; [done|]. by apply (ca_end _ _ _ Hc).
    + destruct F1 as [F1 F2]. destruct S1 as [_ _ _ N1 _ _ H1 _ _], (sim_offsets _ _ S2) as (_ & _ & _ & O2 & _).
      pose proof (sim_new _ _ S2) as N2. pose proof (sim_have _ _ S2) as H2. split.
      * intros v. destruct (F1 v) as [?|[? Hv]]; [by left|right]. split; [done|]. apply N2. by apply N1 in Hv.
      * intros x Hx Hd. destruct (fi_fin _ _ _ Hf x ltac:(by right) Hd) as (? & ? & Ex). rewrite H2, O2.
        split_and!; try done. rewrite Ex, O4. unfold size at 2. cbn [sq]. by fold (size a1).
  - exists q1, a1. split_and!; try done. split; try (by rewrite ?Z1, ?Z2).
    + rewrite Z3, Z4. intros H1 H2. destruct (ca_sent _ _ _ Hc H1 H2) as (x & Hx & Hd). exists x. split; [by right|done].
    + rewrite Z2, Z4. apply (ca_end _ _ _ Hc).
Qed.

End Commit.

Lemma forallb_True_elem {A} (p : A -> bool) l x : forallb p l = true -> x ∈ l -> p x = true.
Proof. rewrite forallb_forall. intros Hl Hx. by apply Hl, list_elem_of_In. Qed.

(** ** The loops over the chunks *)

Section Chunks.
Context {D : Type} `{CongestionControl D} `{Caller}.
Implicit Types f : QUIC_FIFD D.

(** Only the streams and the log of notifications change. *)
Record streams_only f f' : Prop := {
  so_ackm : ackm f' = ackm f;
  so_cfq : cfq f' = cfq f;
  so_txpim : txpim f' = txpim f
}.

#[export] Instance streams_only_po : PreOrder streams_only.
Proof. split; [by split|]. intros f1 f2 f3 [] []. split; congruence. Qed.

Lemma in_stream_run {A} k (m : M SS A) f s r s' :
  streams f !! k = Some s -> m s = (r, s') -> in_stream k m f = (r, upd_streams (<[k := s']> (streams f)) f).
Proof. intros E Em. unfold in_stream. by rewrite E, Em. Qed.

(** Two calls on the same stream. *)
Lemma in_stream_seq (b1 b2 : bool) k (m1 m2 : M SS unit) f s s' :
  streams f !! k = Some s -> ((if b1 then m1 else ret tt) ;;; (if b2 then m2 else ret tt)) s = (Ok tt, s') ->
  ((if b1 then in_stream k m1 else ret tt) ;;; (if b2 then in_stream k m2 else ret tt)) f
  = (Ok tt, upd_streams (<[k := s']> (streams f)) f).
Proof.
  intros E Em. assert (Hid : upd_streams (streams f) f = f) by (by destruct f).
  destruct (bind_ok_inv _ _ _ _ _ Em) as (y & s1 & E1 & E2). destruct b1.
  - destruct y. rewrite (bind_ok _ _ _ _ _ (in_stream_run k m1 f s _ _ E E1)). destruct b2.
    + erewrite in_stream_run; [|apply lookup_insert_eq|exact E2]. cbn. unfold upd_streams. cbn. by rewrite insert_insert_eq.
    + unfold ret in E2. by simplify_eq.
  - unfold ret in E1. simplify_eq. unfold bind. cbn [ret]. destruct b2.
    + by eapply in_stream_run.
    + unfold ret in E2. simplify_eq. by rewrite insert_id, Hid.
Qed.

(** A notification: the streams that remain are as they were. *)
Lemma maybe_notify (b : bool) u f :
  exists f', (if b then notify u else ret tt) f = (Ok tt, f') /\ streams_only f f' /\ streams f' ⊆ streams f /\
             upcalls f' = (if b then [u] else []) ++ upcalls f.
Proof. destruct b; [|by exists f]. eexists. split; [done|]. split; [by split|]. split; [apply react_frees|done]. Qed.

(** A confirmation: a stream that is not finished is still there. *)
Lemma maybe_confirm (b : bool) ty sid p f k s : streams f !! k = Some s -> (b = true -> finished s = false) ->
  exists f', (if b then notify (Confirm_frame ty sid p) else ret tt) f = (Ok tt, f') /\ streams_only f f' /\
             streams f' ⊆ streams f /\ streams f' !! k = Some s /\
             upcalls f' = (if b then [Confirm_frame ty sid p] else []) ++ upcalls f.
Proof.
  intros E Hs. destruct b; [|by exists f]. eexists. split; [done|]. split; [by split|]. split; [apply react_frees|].
  split; [|done]. apply react_confirm; [done|by apply Hs].
Qed.

Lemma get_sstream_run sid sp f :
  get_sstream_by_id sid sp f
  = (Ok (match streams f !! key_of sid sp with Some _ => Some (key_of sid sp) | None => None end), f).
Proof. done. Qed.

(** A stream is looked up, and its calls keep the others. *)
Lemma streams_ok_after k c C f s q a :
  streams_ok ((k, c) :: C) (streams f) -> streams f !! k = Some s -> sim q a -> carried k C a ->
  streams_ok C (<[k := (q, [])]> (streams f)).
Proof.
  intros Hok E Hs Hc. apply (streams_ok_insert C k q a); [done|done|]. intros k' s' Hne E'.
  destruct (Hok k' s' E') as (Ho & a' & Hs' & Hc'). split; [done|]. exists a'. split; [done|].
  by apply (carried_other k' k c C a').
Qed.

(** The streams that remain are related by [R] to what they were. *)
Definition kept (R : relation QUIC_SSTREAM) (m m' : sstreams) : Prop :=
  forall k (s' : SS), m' !! k = Some s' -> exists s : SS, m !! k = Some s /\ R (fst s) (fst s').

#[export] Instance kept_po R `{!PreOrder R} : PreOrder (kept R).
Proof.
  split; [by intros m k s E; exists s|]. intros m1 m2 m3 H1 H2 k s3 E3. destruct (H2 k s3 E3) as (s2 & E2 & A2).
  destruct (H1 k s2 E2) as (s1 & E1 & A1). exists s1. split; [done|]. by transitivity (fst s2).
Qed.

Lemma kept_sub R `{!PreOrder R} (m m' : sstreams) : m' ⊆ m -> kept R m m'.
Proof. intros Hs k s E. exists s. split; [by eapply lookup_weaken|done]. Qed.

Lemma kept_insert R `{!PreOrder R} (m : sstreams) k s s' : m !! k = Some s -> R (fst s) (fst s') -> kept R m (<[k := s']> m).
Proof.
  intros E Eg k' s''. destruct (decide (k' = k)) as [->|Hne].
  - rewrite lookup_insert_eq. intros [= <-]. eauto.
  - rewrite lookup_insert_ne by done. intros E'. by exists s''.
Qed.

(** What the end of a chunk does to a stream that remains. *)
Record acks (q q' : QUIC_SSTREAM) : Prop := {
  ak_new : new_set q' = new_set q;
  ak_size : head_offset (ring q') = head_offset (ring q);
  ak_fin : acked_final_size q = true -> acked_final_size q' = true
}.

Record loses (q q' : QUIC_SSTREAM) : Prop := {
  ls_acked : acked_set q' = acked_set q;
  ls_size : head_offset (ring q') = head_offset (ring q);
  ls_fin : acked_final_size q' = acked_final_size q;
  ls_sent : sent_final_size q = false -> sent_final_size q' = false
}.

#[export] Instance acks_po : PreOrder acks.
Proof. split; [by split|]. intros q1 q2 q3 [] []. split; [congruence|congruence|auto]. Qed.

#[export] Instance loses_po : PreOrder loses.
Proof. split; [by split|]. intros q1 q2 q3 [] []. split; [congruence|congruence|congruence|auto]. Qed.

Lemma same_size q a q' a' : sim q a -> sim q' a' -> size a = size a' -> head_offset (ring q) = head_offset (ring q').
Proof.
  intros Hs Hs' E. destruct (sim_offsets _ _ Hs) as (_ & _ & _ & -> & _).
  by destruct (sim_offsets _ _ Hs') as (_ & _ & _ & -> & _).
Qed.

(** The streams that remain, and what the caller was told before. *)
Definition later (R : relation QUIC_SSTREAM) f f' : Prop :=
  kept R (streams f) (streams f') /\ exists u, upcalls f' = u ++ upcalls f.

#[export] Instance later_po R `{!PreOrder R} : PreOrder (later R).
Proof.
  split; [intros f; split; [done|by exists []]|]. intros f1 f2 f3 [K1 [u1 U1]] [K2 [u2 U2]].
  split; [by transitivity (streams f2)|]. exists (u2 ++ u1). by rewrite U2, U1, app_assoc.
Qed.

Lemma later_told R f f' u : later R f f' -> u ∈ upcalls f -> u ∈ upcalls f'.
Proof. intros [_ [l ->]] Hu. apply elem_of_app. by right. Qed.

(** What has become of a chunk of the packet [p] that was acknowledged: if its stream
    remains, the FIN is acknowledged and the other frames are confirmed. *)
Definition acked_told (p : Z) (sp : pn_space) (c : QUIC_TXPIM_CHUNK) f : Prop :=
  forall s : SS, streams f !! key_of (stream_id c) sp = Some s -> stream_id c <> UINT64_MAX ->
    (has_fin c = true -> acked_final_size (fst s) = true) /\
    (has_stop_sending c = true -> Confirm_frame OSSL_QUIC_FRAME_TYPE_STOP_SENDING (stream_id c) p ∈ upcalls f) /\
    (has_reset_stream c = true -> Confirm_frame OSSL_QUIC_FRAME_TYPE_RESET_STREAM (stream_id c) p ∈ upcalls f).

(** That was lost: the FIN is to be sent again, unless another one was acknowledged, and
    the caller is told to generate the other frames again, and that the stream has data. *)
Definition lost_told (p : Z) (sp : pn_space) (c : QUIC_TXPIM_CHUNK) f : Prop :=
  forall s : SS, streams f !! key_of (stream_id c) sp = Some s ->
    Regen_frame OSSL_QUIC_FRAME_TYPE_MAX_STREAM_DATA (stream_id c) p ∈ upcalls f /\
    (stream_id c <> UINT64_MAX ->
     (has_fin c = true -> sent_final_size (fst s) = false \/ acked_final_size (fst s) = true) /\
     (has_stop_sending c = true -> Regen_frame OSSL_QUIC_FRAME_TYPE_STOP_SENDING (stream_id c) p ∈ upcalls f) /\
     (has_reset_stream c = true -> Regen_frame OSSL_QUIC_FRAME_TYPE_RESET_STREAM (stream_id c) p ∈ upcalls f) /\
     (has_data c || has_fin c = true -> Sstream_updated (stream_id c) ∈ upcalls f)).

Lemma acked_told_later p sp c f f' : acked_told p sp c f -> later acks f f' -> acked_told p sp c f'.
Proof.
  intros Ht Hl s E Hid. destruct (proj1 Hl _ _ E) as (s0 & E0 & [_ _ Hfin]). destruct (Ht s0 E0 Hid) as (H1 & H2 & H3).
  split_and!; eauto using later_told.
Qed.

Lemma lost_told_later p sp c f f' : lost_told p sp c f -> later loses f f' -> lost_told p sp c f'.
Proof.
  intros Ht Hl s E. destruct (proj1 Hl _ _ E) as (s0 & E0 & [_ _ Hfin Hsent]). destruct (Ht s0 E0) as (H1 & H2).
  split; [by eapply later_told|]. intros Hid. destruct (H2 Hid) as (H3 & H4 & H5 & H6).
  split_and!; eauto using later_told. intros Hf. rewrite Hfin. destruct (H3 Hf); auto.
Qed.

(** STOP_SENDING and RESET_STREAM frames have chunks of their own. *)
Definition bare (c : QUIC_TXPIM_CHUNK) : bool :=
  implb (has_stop_sending c || has_reset_stream c) (negb (has_data c) && negb (has_fin c)).

Lemma bare_unchanged c s : bare c = true -> has_stop_sending c || has_reset_stream c = true ->
  (acked_data c ;;; acked_fin c) s = (Ok tt, s).
Proof.
  unfold bare. intros Hb Hf. rewrite Hf in Hb. cbn in Hb. apply andb_prop in Hb as [Hd Hn].
  unfold acked_data, acked_fin. apply negb_true_iff in Hd as ->. by apply negb_true_iff in Hn as ->.
Qed.

Lemma key_of_stream sid sp : sid <> UINT64_MAX -> key_of sid sp = Stream sid.
Proof. intros Hs. unfold key_of. by replace (sid =? UINT64_MAX) with false by lia. Qed.

Lemma acked_chunk_ok p sp c C f : bare c = true ->
  streams_ok ((key_of (stream_id c) sp, c) :: C) (streams f) ->
  exists f', acked_chunk p sp c f = (Ok tt, f') /\ streams_only f f' /\ streams_ok C (streams f') /\
             later acks f f' /\ acked_told p sp c f'.
Proof.
  intros Hbare Hok. unfold acked_chunk, acked_told. rewrite (bind_ok _ _ _ _ _ (get_sstream_run _ _ f)).
  set (k := key_of (stream_id c) sp) in *. destruct (streams f !! k) as [[q o]|] eqn:E.
  2: { exists f. split_and!; try done; [by apply (streams_ok_dead k c)|]. intros s. by rewrite E. }
  destruct (Hok k _ E) as (Ho & a & Hs & Hc). cbn in Ho, Hs. subst o.
  destruct (acked_stream_ok k c C q a Hs Hc (key_of_stream _ _)) as (q1 & a1 & E1 & S1 & Z1 & F1 & C1).
  pose proof (in_stream_seq _ _ k _ _ f _ _ E E1) as E1'. set (f1 := upd_streams _ f) in E1'.
  assert (Hfl : has_stop_sending c || has_reset_stream c = true -> finished (q1, []) = false).
  { intros Hfl. rewrite (bare_unchanged c _ Hbare Hfl) in E1. injection E1 as <-.
    destruct (finished (q, [])) eqn:Hq; [|done]. apply (finished_spec q a Hs) in Hq. by destruct (ca_open _ _ _ Hc). }
  destruct (bind_ok_inv _ _ _ _ _ E1') as ([] & f0 & Ea & Eb). rewrite (bind_ok _ _ _ _ _ Ea), (bind_ok _ _ _ _ _ Eb).
  destruct (maybe_confirm (has_stop_sending c && negb (stream_id c =? UINT64_MAX)) OSSL_QUIC_FRAME_TYPE_STOP_SENDING (stream_id c) p f1 k (q1, []))
    as (f2 & E2 & O2 & R2 & K2 & U2); [apply lookup_insert_eq|intros [Hx _]%andb_prop; apply Hfl; by rewrite Hx|].
  rewrite (bind_ok _ _ _ _ _ E2).
  destruct (maybe_confirm (has_reset_stream c && negb (stream_id c =? UINT64_MAX)) OSSL_QUIC_FRAME_TYPE_RESET_STREAM (stream_id c) p f2 k (q1, []))
    as (f3 & E3 & O3 & R3 & K3 & U3); [done|intros [Hx _]%andb_prop; apply Hfl; rewrite Hx; apply orb_true_r|].
  rewrite (bind_ok _ _ _ _ _ E3). destruct (totally_acked_ok q1 a1 S1) as (b & Et & Hb).
  rewrite (bind_ok _ _ _ _ _ (in_stream_run k _ f3 _ _ _ K3 Et)). rewrite insert_id by done.
  destruct (maybe_notify b (Sstream_updated (stream_id c)) (upd_streams (streams f3) f3)) as (f4 & E4 & O4 & R4 & U4).
  assert (R : streams f4 ⊆ streams f1) by (etransitivity; [exact R4|]; by transitivity (streams f2)).
  assert (Hu : upcalls f4 = (if b then [Sstream_updated (stream_id c)] else []) ++ upcalls f3) by exact U4.
  exists f4. split; [done|]. split_and!.
  - transitivity f1; [by split|]. transitivity f2; [done|]. transitivity f3; [done|].
    transitivity (upd_streams (streams f3) f3); [by split|done].
  - destruct C1 as [C1|[Hw [id Hid]]].
    { apply (streams_ok_sub C _ _ R). by apply (streams_ok_after k c C f _ q1 a1 Hok E S1 C1). }
    apply (streams_ok_gone k c (q1, []) C _ _ Hok R). assert (Hk : k = Stream (stream_id c)).
    { unfold k, key_of in *. by destruct (stream_id c =? UINT64_MAX). }
    replace b with true in E4 by (symmetry; apply Hb; destruct Hw as (? & ? & ?); done).
    injection E4 as <-. cbn [streams]. rewrite Hk in *. eapply react_updated; [exact K3|]. by apply (finished_spec q1 a1 S1).
  - split; [|eexists; by rewrite Hu, U3, U2, !app_assoc]. transitivity (streams f1); [|by apply (kept_sub _)].
    apply (kept_insert _ _ _ _ _ E). split; cbn [fst].
    + by apply (acked_stream_new _ _ _ _ _ _ E1).
    + by apply (same_size q1 a1 q a).
    + rewrite (sim_acked_fin _ _ Hs), (sim_acked_fin _ _ S1). auto.
  - intros s Es Hid. assert (s = (q1, [])) as ->.
    { pose proof (lookup_weaken _ _ _ _ Es R) as Es'. cbn in Es'. rewrite lookup_insert_eq in Es'. congruence. }
    cbn [fst]. rewrite (sim_acked_fin _ _ S1). replace (stream_id c =? UINT64_MAX) with false in U2, U3 by lia.
    rewrite Hu, U3, U2. split; [auto|]. split; intros ->; set_solver.
Qed.

Lemma lost_chunk_ok p sp c C f :
  streams_ok ((key_of (stream_id c) sp, c) :: C) (streams f) ->
  exists f', lost_chunk p sp c f = (Ok tt, f') /\ streams_only f f' /\ streams_ok C (streams f') /\
             later loses f f' /\ lost_told p sp c f'.
Proof.
  intros Hok. unfold lost_chunk, lost_told. rewrite (bind_ok _ _ _ _ _ (get_sstream_run _ _ f)).
  set (k := key_of (stream_id c) sp) in *. destruct (streams f !! k) as [[q o]|] eqn:E.
  2: { exists f. split_and!; try done; [by apply (streams_ok_dead k c)|]. intros s. by rewrite E. }
  destruct (Hok k _ E) as (Ho & a & Hs & Hc). cbn in Ho, Hs. subst o.
  destruct (lost_stream_ok k c C q a Hs Hc) as (q1 & a1 & E1 & S1 & C1 & Z1 & F1 & F2 & F3).
  pose proof (in_stream_seq _ _ k _ _ f _ _ E E1) as E1'.
  pose proof (streams_ok_after k c C f _ q1 a1 Hok E S1 C1) as Hok1.
  set (f1 := upd_streams _ f) in E1'. destruct (bind_ok_inv _ _ _ _ _ E1') as ([] & f0 & Ea & Eb).
  rewrite (bind_ok _ _ _ _ _ Ea), (bind_ok _ _ _ _ _ Eb).
  destruct (maybe_notify (has_stop_sending c && negb (stream_id c =? UINT64_MAX))
    (Regen_frame OSSL_QUIC_FRAME_TYPE_STOP_SENDING (stream_id c) p) f1) as (f2 & E2 & O2 & R2 & U2). rewrite (bind_ok _ _ _ _ _ E2).
  destruct (maybe_notify (has_reset_stream c && negb (stream_id c =? UINT64_MAX))
    (Regen_frame OSSL_QUIC_FRAME_TYPE_RESET_STREAM (stream_id c) p) f2) as (f3 & E3 & O3 & R3 & U3). rewrite (bind_ok _ _ _ _ _ E3).
  destruct (maybe_notify true (Regen_frame OSSL_QUIC_FRAME_TYPE_MAX_STREAM_DATA (stream_id c) p) f3) as (f4 & E4 & O4 & R4 & U4).
  rewrite (bind_ok _ _ _ _ _ E4).
  match goal with |- exists f', (if ?b then notify ?u else ret tt) f4 = _ /\ _ =>
    destruct (maybe_notify b u f4) as (f5 & E5 & O5 & R5 & U5) end.
  assert (R : streams f5 ⊆ streams f1) by (by repeat (etransitivity; [eassumption|])).
  exists f5. split; [done|]. split_and!.
  - transitivity f1; [by split|]. transitivity f2; [done|]. transitivity f3; [done|]. by transitivity f4.
  - by apply (streams_ok_sub C (streams f1)).
  - split; [|eexists; by rewrite U5, U4, U3, U2, !app_assoc]. transitivity (streams f1); [|by apply (kept_sub _)].
    apply (kept_insert _ _ _ _ _ E). split; cbn [fst].
    + by apply (lost_stream_acked _ _ _ _ _ _ E1).
    + by apply (same_size q1 a1 q a).
    + by rewrite (sim_acked_fin _ _ Hs), (sim_acked_fin _ _ S1).
    + rewrite (sim_sent _ _ Hs), (sim_sent _ _ S1). auto.
  - intros s Es. assert (s = (q1, [])) as ->.
    { pose proof (lookup_weaken _ _ _ _ Es R) as Es'. cbn in Es'. rewrite lookup_insert_eq in Es'. congruence. }
    cbn [fst]. rewrite (sim_acked_fin _ _ S1), (sim_sent _ _ S1), U5, U4, U3, U2. split; [set_solver|]. intros Hid.
    replace (stream_id c =? UINT64_MAX) with false by lia. rewrite !andb_true_r.
    split; [auto|]. split_and!; intros ->; set_solver.
Qed.

Lemma commit_chunk_ok sp c C cs f :
  streams_ok C (streams f) -> streams_fit ((key_of (stream_id c) sp, c) :: cs) (streams f) ->
  exists f', commit_chunk sp c f = (Ok tt, f') /\ streams_only f f' /\ upcalls f' = upcalls f /\
    streams_ok ((key_of (stream_id c) sp, c) :: C) (streams f') /\ streams_fit cs (streams f').
Proof.
  intros Hok Hfit. unfold commit_chunk. rewrite (bind_ok _ _ _ _ _ (get_sstream_run _ _ f)).
  set (k := key_of (stream_id c) sp) in *. destruct (streams f !! k) as [[q o]|] eqn:E.
  2: { exists f. split_and!; try done; [by apply (streams_ok_dead k c)|]. intros k' s E'. eapply fit_tail. by apply Hfit. }
  destruct (Hok k _ E) as (Ho & a & Hs & Hc). cbn in Ho, Hs. subst o.
  destruct (commit_stream_ok k c C cs q a Hs Hc (Hfit k _ E)) as (q1 & a1 & E1 & S1 & C1 & F1).
  pose proof (in_stream_seq _ _ k _ _ f _ _ E E1) as E1'. rewrite E1'.
  eexists. split; [done|]. split; [by split|]. split; [done|]. split; cbn.
  - apply (streams_ok_insert _ k q1 a1); [done|done|]. intros k' s' Hne E'.
    destruct (Hok k' s' E') as (Ho & a' & Hs' & Hc'). split; [done|]. exists a'. split; [done|].
    by apply (carried_other k' k c C a').
  - intros k' s'. destruct (decide (k' = k)) as [->|Hne].
    + rewrite lookup_insert_eq. by intros [= <-].
    + rewrite lookup_insert_ne by done. intros E'. eapply fit_tail. by apply Hfit.
Qed.

(** The chunks of a packet with their streams. *)
Definition keyed_of (sp : pn_space) (l : list QUIC_TXPIM_CHUNK) : list keyed :=
  (fun c => (key_of (stream_id c) sp, c)) <$> l.

(** The chunks of a packet that is acknowledged or lost. *)
Lemma end_chunks_ok R `{!PreOrder R} (told : QUIC_TXPIM_CHUNK -> QUIC_FIFD D -> Prop)
    (body : QUIC_TXPIM_CHUNK -> M (QUIC_FIFD D) unit) sp l :
  (forall c C f, c ∈ l -> streams_ok ((key_of (stream_id c) sp, c) :: C) (streams f) ->
     exists f', body c f = (Ok tt, f') /\ streams_only f f' /\ streams_ok C (streams f') /\ later R f f' /\ told c f') ->
  (forall c f f', told c f -> later R f f' -> told c f') ->
  forall C f, streams_ok (keyed_of sp l ++ C) (streams f) ->
  exists f', for_chunks body l f = (Ok tt, f') /\ streams_only f f' /\ streams_ok C (streams f') /\
             later R f f' /\ forall c, c ∈ l -> told c f'.
Proof.
  intros Hb Ht C. induction l as [|c l IH]; intros f Hok.
  { exists f. split_and!; try done. by intros c ?%elem_of_nil. }
  destruct (Hb c _ f ltac:(by left) Hok) as (f1 & E1 & O1 & K1 & L1 & T1).
  destruct (IH ltac:(intros x Cx fx Hx; apply Hb; by right) f1 K1) as (f2 & E2 & O2 & K2 & L2 & T2).
  exists f2. cbn [for_chunks]. rewrite (bind_ok _ _ _ _ _ E1).
  split_and!; [done|by transitivity f1|done|by transitivity f1|].
  intros x [->|Hx]%elem_of_cons; [by apply (Ht _ f1)|by apply T2].
Qed.

Lemma commit_chunks_ok sp l : forall C f,
  streams_ok C (streams f) -> streams_fit (keyed_of sp l) (streams f) ->
  exists f', for_chunks (commit_chunk sp) l f = (Ok tt, f') /\ streams_only f f' /\ upcalls f' = upcalls f /\
             streams_ok (keyed_of sp l ++ C) (streams f').
Proof.
  induction l as [|c l IH]; intros C f Hok Hfit; [by exists f|]. cbn [for_chunks].
  destruct (commit_chunk_ok sp c C (keyed_of sp l) f Hok Hfit) as (f1 & E1 & O1 & U1 & R1 & F1).
  destruct (IH _ f1 R1 F1) as (f2 & E2 & O2 & U2 & R2). exists f2. rewrite (bind_ok _ _ _ _ _ E1).
  split_and!; [done|by transitivity f1|congruence|]. cbn [keyed_of fmap list_fmap app]. by rewrite Permutation_middle.
Qed.

End Chunks.

(** ** The loops over the control frames *)

(** The items linked from [h]. *)
Fixpoint chain (m : gmap Z QUIC_CFQ_ITEM_EX) (h : option Z) (l : list Z) : Prop :=
  match l with
  | [] => h = None
  | n :: l' => h = Some n /\ exists i, m !! n = Some i /\ chain m (pkt_next i) l'
  end.

Lemma chain_ext m m' l : forall h,
  (forall n i, n ∈ l -> m !! n = Some i -> exists i', m' !! n = Some i' /\ pkt_next i' = pkt_next i) ->
  chain m h l -> chain m' h l.
Proof.
  induction l as [|n l IH]; intros h Hm; [done|]. intros (-> & i & Ei & Hl). split; [done|].
  destruct (Hm n i ltac:(by left) Ei) as (i' & Ei' & En). exists i'. split; [done|]. rewrite En.
  apply IH; [|done]. intros x j Hx. apply Hm. by right.
Qed.

Lemma chain_unique m l : forall l' h, chain m h l -> chain m h l' -> l = l'.
Proof.
  induction l as [|n l IH]; intros [|n' l'] h; cbn; try done.
  - by intros -> [? _].
  - by intros [-> _] ?.
  - intros (-> & i & Ei & Hl) (E & i' & Ei' & Hl'). injection E as <-. rewrite Ei in Ei'. injection Ei' as <-.
    f_equal. by eapply IH.
Qed.

Lemma chain_size m l : forall h, chain m h l -> NoDup l -> (length l <= base.size m)%nat.
Proof.
  intros h Hl Hn. rewrite <- size_dom, <- (size_list_to_set (C := gset Z)) by done. apply subseteq_size.
  intros n Hin%elem_of_list_to_set. apply elem_of_dom. clear Hn. revert h Hl.
  induction l as [|x l IH]; [by apply elem_of_nil in Hin|]. intros h (_ & i & Ei & Hl).
  apply elem_of_cons in Hin as [->|Hin]; [eauto|]. by eapply IH.
Qed.

(** The links are those there were. *)
Definition links_kept (q q' : QUIC_CFQ) : Prop :=
  forall n i, cfq_items q !! n = Some i -> exists i', cfq_items q' !! n = Some i' /\ pkt_next i' = pkt_next i.

#[export] Instance links_kept_po : PreOrder links_kept.
Proof.
  split; [intros q n i E; eauto|]. intros q1 q2 q3 H1 H2 n i E. destruct (H1 n i E) as (i2 & E2 & N2).
  destruct (H2 n i2 E2) as (i3 & E3 & N3). exists i3. split; [done|congruence].
Qed.

Lemma keeps_links n q q' : keeps n q q' -> links_kept q q'.
Proof.
  intros [_ Ho Hn] x i E. destruct (decide (x = n)) as [->|Hne]; [by apply Hn|]. exists i. by rewrite Ho.
Qed.

(** A call that takes an item out of those transmitted; those chosen by [P] are new again. *)
Definition takes_back (P : QUIC_CFQ_ITEM_EX -> bool) (body : Z -> M CS unit) : Prop :=
  forall q o n i, cfq_ok q -> n ∈ tx_list q -> cfq_items q !! n = Some i ->
  exists q', body n (q, o) = (Ok tt, (q', o)) /\ keeps n q q' /\ tx_list q ≡ₚ n :: tx_list q' /\
             exists i', cfq_items q' !! n = Some i' /\ state i' = if P i then QUIC_CFQ_STATE_NEW else -1.

Lemma release_takes_back : takes_back (fun _ => false) ossl_quic_cfq_release.
Proof.
  intros q o n i Hq Hin Ei. destruct (release_tx_ok q o n i Hq Hin Ei) as (q' & E & K & _ & T & Ei' & _).
  exists q'. split_and!; try done. exists (cleared i). split; [done|]. apply cleared_place.
Qed.

Lemma lost_takes_back : takes_back (fun i => negb (unreliable i)) (fun n => ossl_quic_cfq_mark_lost n UINT32_MAX).
Proof.
  intros q o n i Hq Hin Ei. destruct (unreliable i) eqn:Hu.
  - rewrite (mark_lost_unreliable _ _ _ _ _ Ei Hu). destruct (release_takes_back q o n i Hq Hin Ei) as (q' & ?).
    by exists q'.
  - destruct (mark_lost_tx_ok q o n i UINT32_MAX Hq Hin Ei Hu) as (q' & E & K & _ & T & Ei' & _). exists q'.
    split_and!; try done. eexists. split; [exact Ei'|]. by destruct i.
Qed.

Lemma retx_loop_ok P body : takes_back P body -> forall l fuel h q o R,
  cfq_ok q -> chain (cfq_items q) h l -> tx_list q ≡ₚ l ++ R -> (length l <= fuel)%nat ->
  exists q', retx_loop fuel body h (q, o) = (Ok tt, (q', o)) /\ cfq_ok q' /\ links_kept q q' /\ tx_list q' ≡ₚ R /\
    (forall n, n ∉ l -> cfq_items q' !! n = cfq_items q !! n) /\
    forall n i, n ∈ l -> cfq_items q !! n = Some i ->
      exists i', cfq_items q' !! n = Some i' /\ state i' = if P i then QUIC_CFQ_STATE_NEW else -1.
Proof.
  intros Hb. induction l as [|n l IH]; intros fuel h q o R Hq Hc HT Hf.
  { cbn in Hc. subst h. exists q. destruct fuel; split_and!; try done; by intros n i ?%elem_of_nil. }
  destruct Hc as (-> & i & Ei & Hc). destruct fuel as [|fuel]; [cbn in Hf; lia|]. cbn [retx_loop].
  rewrite (bind_ok _ _ _ _ _ (item_run _ _ _ o Ei)).
  destruct (Hb q o n i Hq) as (q1 & E1 & K1 & T1 & P1); [rewrite HT; by left|done|].
  rewrite (bind_ok _ _ _ _ _ E1).
  assert (n ∉ l) as Hn.
  { pose proof (co_nodup q Hq) as Hnd. rewrite !NoDup_app in Hnd. destruct Hnd as (_ & _ & Hnd & _).
    rewrite HT in Hnd. cbn in Hnd. apply NoDup_cons in Hnd as [Hnd _]. set_solver. }
  destruct (IH fuel (pkt_next i) q1 o R) as (q2 & E2 & Q2 & L2 & T2 & O2 & P2).
  - apply K1.
  - eapply chain_ext; [|exact Hc]. intros x j _. apply (keeps_links _ _ _ K1).
  - rewrite HT in T1. cbn in T1. by apply Permutation_cons_inv in T1.
  - cbn in Hf. lia.
  - exists q2. split_and!; try done.
    + transitivity q1; [by eapply keeps_links|done].
    + intros x Hx. apply not_elem_of_cons in Hx as [Hx1 Hx2]. rewrite O2 by done. by apply (kp_other _ _ _ K1).
    + intros x j [->|Hx]%elem_of_cons Ex; [simplify_eq; by rewrite O2|].
      apply (P2 x j Hx). rewrite (kp_other _ _ _ K1); [done|]. by intros ->.
Qed.

Lemma tx_loop_ok : forall l fuel h q o,
  cfq_ok q -> chain (cfq_items q) h l -> NoDup l -> (forall n, n ∈ l -> n ∈ new_list q) -> (length l <= fuel)%nat ->
  exists q', tx_loop fuel h (q, o) = (Ok tt, (q', o)) /\ cfq_ok q' /\ links_kept q q' /\
             tx_list q' = tx_list q ++ l /\ new_list q ≡ₚ l ++ new_list q'.
Proof.
  induction l as [|n l IH]; intros fuel h q o Hq Hc Hn Hl Hf.
  { cbn in Hc. subst h. exists q. rewrite app_nil_r. by destruct fuel. }
  destruct Hc as (-> & i & Ei & Hc). destruct fuel as [|fuel]; [cbn in Hf; lia|]. cbn [tx_loop].
  apply NoDup_cons in Hn as [Hn1 Hn2].
  destruct (mark_tx_ok q o n i Hq (Hl n ltac:(by left)) Ei) as (q1 & E1 & K1 & N1 & T1 & I1 & _).
  rewrite (bind_ok _ _ _ _ _ E1), (bind_ok _ _ _ _ _ (item_run _ _ _ o I1)).
  destruct (IH fuel (pkt_next (set_state QUIC_CFQ_STATE_TX i)) q1 o) as (q2 & E2 & Q2 & L2 & T2 & N2); try done.
  - apply K1.
  - replace (pkt_next (set_state QUIC_CFQ_STATE_TX i)) with (pkt_next i) by (by destruct i).
    eapply chain_ext; [|exact Hc]. intros x j _. apply (keeps_links _ _ _ K1).
  - intros x Hx. specialize (Hl x ltac:(by right)). rewrite N1 in Hl. apply elem_of_cons in Hl as [->|]; done.
  - cbn in Hf. lia.
  - exists q2. split_and!; try done.
    + transitivity q1; [by eapply keeps_links|done].
    + by rewrite T2, T1, <- app_assoc.
    + by rewrite N1, N2.
Qed.

(** ** The packets in flight *)

(** A packet in flight: its address, what the store has and the items it carries. *)
Record track := mkTrack { t_addr : Z; t_pkt : QUIC_TXPIM_PKT; t_items : list Z }.

Definition t_space (t : track) : pn_space := pkt_space (ackm_pkt (t_pkt t)).
Definition t_chunks (t : track) : list keyed := keyed_of (t_space t) (chunks (t_pkt t)).

Section Dispatch.
Context {D : Type} `{CongestionControl D} `{Caller} `{QSort}.
Implicit Types f : QUIC_FIFD D.

(** What the store and the queue have of a packet in flight. Those of the first spaces
    carry only CRYPTO frames. *)
Record tracked f (t : track) : Prop := {
  tk_pkt : pkts (fst (txpim f)) !! t_addr t = Some (t_pkt t);
  tk_fifd : fifd (t_pkt t) = true;
  tk_items : chain (cfq_items (fst (cfq f))) (retx_head (t_pkt t)) (t_items t);
  tk_crypto : t_space t <> QUIC_PN_SPACE_APP -> Forall (fun c => stream_id c = UINT64_MAX) (chunks (t_pkt t));
  tk_bare : forallb bare (chunks (t_pkt t)) = true
}.

(** [T] are the packets in flight: the store has handed out those packets, the items that
    were transmitted are those that the packets carry, and the bytes of the streams in
    flight are those of the chunks. *)
Record fifd_ok (T : list track) f : Prop := {
  fo_oracle : snd (txpim f) = [];
  fo_txpim : txpim_ok (t_addr <$> T) (fst (txpim f));
  fo_few : zlen T < U64_MOD;
  fo_tracked t : t ∈ T -> tracked f t;
  fo_cfq : cfq_ok (fst (cfq f));
  fo_tx : tx_list (fst (cfq f)) ≡ₚ T ≫= t_items;
  fo_streams : streams_ok (T ≫= t_chunks) (streams f)
}.

#[export] Instance fifd_ok_proper : Proper ((≡ₚ) ==> (=) ==> iff) fifd_ok.
Proof.
  assert (Hd : forall T T' f, T ≡ₚ T' -> fifd_ok T f -> fifd_ok T' f).
  { intros T T' f HP [F1 F2 F3 F4 F5 F6 F7]. split; try done.
    - by rewrite <- HP.
    - rewrite zlen_length in *. by rewrite <- HP.
    - intros t. rewrite <- HP. apply F4.
    - by rewrite <- HP.
    - by rewrite <- HP. }
  intros T T' HP f ? <-. by split; apply Hd.
Qed.

Lemma in_txpim_run {A} (m : M PS A) f r s : m (txpim f) = (r, s) -> in_txpim m f = (r, upd_txpim s f).
Proof. intros E. unfold in_txpim, zoom. by rewrite E. Qed.

Lemma in_cfq_run {A} (m : M CS A) f r s : m (cfq f) = (r, s) -> in_cfq m f = (r, upd_cfq s f).
Proof. intros E. unfold in_cfq, zoom. by rewrite E. Qed.

Lemma upd_txpim_same f : upd_txpim (txpim f) f = f.
Proof. by destruct f. Qed.

Section Packet.
Context (t : track) (T : list track) (f : QUIC_FIFD D) (Hf : fifd_ok (t :: T) f).

Lemma pkt_at_ok : in_txpim (pkt_at (t_addr t)) f = (Ok (t_pkt t), f).
Proof using Hf.
  pose proof (tk_pkt _ _ (fo_tracked _ _ Hf t ltac:(by left))) as E. rewrite <- (upd_txpim_same f) at 2.
  apply in_txpim_run. destruct (txpim f). by apply pkt_at_run.
Qed.

(** The chunks are read, which may sort them. *)
Lemma load_chunks_ok :
  exists l t1, l ≡ₚ chunks (t_pkt t) /\ txpim_ok (t_addr <$> t :: T) t1 /\
    (forall y, y <> t_addr t -> pkts t1 !! y = pkts (fst (txpim f)) !! y) /\
    in_txpim (ossl_quic_txpim_pkt_get_chunks (t_addr t)) f = (Ok l, upd_txpim (t1, []) f) /\
    in_txpim (ossl_quic_txpim_pkt_get_num_chunks (t_addr t)) (upd_txpim (t1, []) f) = (Ok (zlen l), upd_txpim (t1, []) f).
Proof using Hf.
  pose proof (tk_pkt _ _ (fo_tracked _ _ Hf t ltac:(by left))) as E. pose proof (fo_oracle _ _ Hf) as Ho.
  destruct (get_chunks_ok _ _ _ _ [] (fo_txpim _ _ Hf) E) as (l & s & t1 & HP & Eg & Ht & Ep & Hy). exists l, t1.
  split_and!; try done.
  - apply in_txpim_run. destruct (txpim f) as [tp o]. cbn in *. by subst o.
  - erewrite in_txpim_run; [done|]. unfold ossl_quic_txpim_pkt_get_num_chunks. cbn [upd_txpim txpim].
    by rewrite (bind_ok _ _ _ _ _ (pkt_at_run _ _ _ _ Ep)).
Qed.

(** The items of the packet are handled. *)
Lemma for_items_ok P body f' : takes_back P body -> cfq f' = cfq f ->
  exists q' o, for_items body (retx_head (t_pkt t)) f' = (Ok tt, upd_cfq (q', o) f') /\ cfq_ok q' /\
    links_kept (fst (cfq f)) q' /\ tx_list q' ≡ₚ T ≫= t_items /\
    forall n i, n ∈ t_items t -> cfq_items (fst (cfq f)) !! n = Some i ->
      exists i', cfq_items q' !! n = Some i' /\ state i' = if P i then QUIC_CFQ_STATE_NEW else -1.
Proof using Hf.
  intros Hb Ec. pose proof (fo_cfq _ _ Hf) as Hq. pose proof (fo_tx _ _ Hf) as HT.
  pose proof (tk_items _ _ (fo_tracked _ _ Hf t ltac:(by left))) as Hc. destruct (cfq f) as [q o] eqn:E. cbn in *.
  destruct (retx_loop_ok P body Hb (t_items t) (base.size (cfq_items q)) (retx_head (t_pkt t)) q o (T ≫= t_items))
    as (q' & El & C1 & C2 & C3 & _ & C4); try done.
  - eapply chain_size; [done|]. pose proof (co_nodup q Hq) as Hnd. rewrite !NoDup_app in Hnd.
    destruct Hnd as (_ & _ & Hnd & _). rewrite HT, NoDup_app in Hnd. apply Hnd.
  - exists q', o. split; [|by split_and!]. apply in_cfq_run. by rewrite Ec.
Qed.

(** The packet is given back. *)
Lemma release_packet_ok f' q' o t1 :
  cfq f' = (q', o) -> cfq_ok q' -> links_kept (fst (cfq f)) q' -> tx_list q' ≡ₚ T ≫= t_items ->
  txpim f' = (t1, []) -> txpim_ok (t_addr <$> t :: T) t1 ->
  (forall y, y <> t_addr t -> pkts t1 !! y = pkts (fst (txpim f)) !! y) ->
  streams_ok (T ≫= t_chunks) (streams f') ->
  exists t2, in_txpim (ossl_quic_txpim_pkt_release (t_addr t)) f' = (Ok tt, upd_txpim (t2, []) f') /\
             fifd_ok T (upd_txpim (t2, []) f').
Proof using Hf.
  intros Eq Hq Hl HT Et Ht Hy Hs. pose proof (fo_few _ _ Hf) as Hz.
  destruct (release_pkt_ok (t_addr t) (fmap (M := list) t_addr T) t1 [] Ht) as (t2 & E & Ht2 & Ep).
  { rewrite zlen_length in *. cbn in *. by rewrite length_fmap. }
  exists t2. split; [apply in_txpim_run; by rewrite Et|]. split; cbn; try done.
  - rewrite zlen_cons in Hz. lia.
  - intros x Hx. destruct (fo_tracked _ _ Hf x ltac:(by right)) as [K1 K2 K3 K4 K5]. split; cbn; try done.
    + rewrite Ep, Hy; [done|]. intros Ex. pose proof (to_nodup _ _ Ht) as Hnd. cbn in Hnd.
      apply NoDup_app in Hnd as (_ & _ & Hnd). apply NoDup_cons in Hnd as [Hnd _]. apply Hnd. rewrite <- Ex.
      by apply list_elem_of_fmap_2.
    + rewrite Eq. cbn. eapply chain_ext; [|done]. intros n i _. apply Hl.
  - by rewrite Eq.
  - by rewrite Eq.
Qed.

Lemma streams_packet l : l ≡ₚ chunks (t_pkt t) -> streams_ok (keyed_of (t_space t) l ++ (T ≫= t_chunks)) (streams f).
Proof using Hf. intros HP. pose proof (fo_streams _ _ Hf) as Hs. unfold keyed_of. by rewrite HP. Qed.

End Packet.

Lemma ztake_all {A} (l : list A) : ztake (zlen l) l = l.
Proof. by apply ztake_ge. Qed.

Lemma on_acked_ok t T f : fifd_ok (t :: T) f ->
  exists f', on_acked (t_addr t) f = (Ok tt, f') /\ fifd_ok T f' /\ ackm f' = ackm f /\
    kept acks (streams f) (streams f') /\
    (forall n i, n ∈ t_items t -> cfq_items (fst (cfq f)) !! n = Some i ->
      exists i', cfq_items (fst (cfq f')) !! n = Some i' /\ state i' = -1) /\
    forall c, c ∈ chunks (t_pkt t) -> acked_told (t_addr t) (t_space t) c f'.
Proof.
  intros Hf. unfold on_acked. rewrite (bind_ok _ _ _ _ _ (pkt_at_ok t T f Hf)).
  pose proof (fo_tracked _ _ Hf t ltac:(by left)) as [_ Htf _ _ Hbare].
  rewrite Htf. rewrite (bind_ok _ _ f tt f eq_refl).
  destruct (load_chunks_ok t T f Hf) as (l & t1 & HP & Ht & Hy & E1 & E2).
  rewrite (bind_ok _ _ _ _ _ E1), (bind_ok _ _ _ _ _ E2), ztake_all.
  destruct (end_chunks_ok (D := D) acks (acked_told (t_addr t) (t_space t)) (acked_chunk (t_addr t) (t_space t)) (t_space t) l)
    with (C := T ≫= t_chunks) (f := upd_txpim (t1, []) f) as (f2 & E3 & [O1 O2 O3] & Hs & [Hk _] & Htold).
  { intros c C g Hc Hg. apply acked_chunk_ok; [|done]. rewrite HP in Hc. by apply (forallb_True_elem bare _ _ Hbare). }
  { intros. by eapply acked_told_later. }
  { exact (streams_packet t T f Hf l HP). }
  rewrite (bind_ok _ _ _ _ _ E3). cbn in O1, O2, O3.
  destruct (for_items_ok t T f Hf _ _ f2 release_takes_back O2) as (q' & o & E4 & Hq & Hl & HT & HN).
  rewrite (bind_ok _ _ _ _ _ E4).
  destruct (release_packet_ok t T f Hf (upd_cfq (q', o) f2) q' o t1) as (t2 & E5 & Hf'); try done.
  rewrite E5. eexists. split_and!; try done. intros c Hc. apply Htold. by rewrite HP.
Qed.

Lemma on_discarded_ok t T f : fifd_ok (t :: T) f -> (forall k c, (k, c) ∈ t_chunks t -> streams f !! k = None) ->
  exists f', on_discarded (t_addr t) f = (Ok tt, f') /\ fifd_ok T f' /\ ackm f' = ackm f /\ streams f' = streams f.
Proof.
  intros Hf Hd. unfold on_discarded. rewrite (bind_ok _ _ _ _ _ (pkt_at_ok t T f Hf)).
  rewrite (tk_fifd _ _ (fo_tracked _ _ Hf t ltac:(by left))). rewrite (bind_ok _ _ f tt f eq_refl).
  destruct (for_items_ok t T f Hf _ _ f release_takes_back eq_refl) as (q' & o & E4 & Hq & Hl & HT & _).
  rewrite (bind_ok _ _ _ _ _ E4). pose proof (fo_oracle _ _ Hf) as Ho.
  destruct (release_packet_ok t T f Hf (upd_cfq (q', o) f) q' o (fst (txpim f))) as (t2 & E5 & Hf'); try done.
  - cbn. by rewrite (surjective_pairing (txpim f)) at 1; rewrite Ho.
  - apply Hf.
  - cbn. pose proof (fo_streams _ _ Hf) as Hs. cbn in Hs. clear - Hs Hd.
    by eapply dead_streams.
  - rewrite E5. by eexists.
Qed.

(** What is said to the caller of a packet that is lost. *)
Definition regen_of (p : Z) (x : QUIC_TXPIM_PKT) : list upcall :=
  (if had_ack_frame x then [Regen_frame OSSL_QUIC_FRAME_TYPE_ACK_WITH_ECN UINT64_MAX p] else []) ++
  (if had_max_streams_uni_frame x then [Regen_frame OSSL_QUIC_FRAME_TYPE_MAX_STREAMS_UNI UINT64_MAX p] else []) ++
  (if had_max_streams_bidi_frame x then [Regen_frame OSSL_QUIC_FRAME_TYPE_MAX_STREAMS_BIDI UINT64_MAX p] else []) ++
  (if had_max_data_frame x then [Regen_frame OSSL_QUIC_FRAME_TYPE_MAX_DATA UINT64_MAX p] else []) ++
  (if had_handshake_done_frame x then [Regen_frame OSSL_QUIC_FRAME_TYPE_HANDSHAKE_DONE UINT64_MAX p] else []).

Lemma regen_flag_ok had ty p f :
  exists f', regen_flag had ty p f = (Ok tt, f') /\ streams_only f f' /\ streams f' ⊆ streams f /\
             upcalls f' = (if had then [Regen_frame ty UINT64_MAX p] else []) ++ upcalls f.
Proof.
  unfold regen_flag. destruct had; [|by exists f]. eexists. split; [done|]. split; [by split|]. split; [|done].
  apply react_frees.
Qed.

Lemma regen_flags_ok {A} p x (k : M (QUIC_FIFD D) A) f :
  exists f', (regen_flag (had_handshake_done_frame x) OSSL_QUIC_FRAME_TYPE_HANDSHAKE_DONE p ;;;
    regen_flag (had_max_data_frame x) OSSL_QUIC_FRAME_TYPE_MAX_DATA p ;;;
    regen_flag (had_max_streams_bidi_frame x) OSSL_QUIC_FRAME_TYPE_MAX_STREAMS_BIDI p ;;;
    regen_flag (had_max_streams_uni_frame x) OSSL_QUIC_FRAME_TYPE_MAX_STREAMS_UNI p ;;;
    regen_flag (had_ack_frame x) OSSL_QUIC_FRAME_TYPE_ACK_WITH_ECN p ;;; k) f = k f' /\
    streams_only f f' /\ streams f' ⊆ streams f /\ upcalls f' = regen_of p x ++ upcalls f.
Proof.
  destruct (regen_flag_ok (had_handshake_done_frame x) OSSL_QUIC_FRAME_TYPE_HANDSHAKE_DONE p f) as (f1 & E1 & O1 & S1 & U1).
  destruct (regen_flag_ok (had_max_data_frame x) OSSL_QUIC_FRAME_TYPE_MAX_DATA p f1) as (f2 & E2 & O2 & S2 & U2).
  destruct (regen_flag_ok (had_max_streams_bidi_frame x) OSSL_QUIC_FRAME_TYPE_MAX_STREAMS_BIDI p f2) as (f3 & E3 & O3 & S3 & U3).
  destruct (regen_flag_ok (had_max_streams_uni_frame x) OSSL_QUIC_FRAME_TYPE_MAX_STREAMS_UNI p f3) as (f4 & E4 & O4 & S4 & U4).
  destruct (regen_flag_ok (had_ack_frame x) OSSL_QUIC_FRAME_TYPE_ACK_WITH_ECN p f4) as (f5 & E5 & O5 & S5 & U5).
  exists f5. rewrite (bind_ok _ _ _ _ _ E1), (bind_ok _ _ _ _ _ E2), (bind_ok _ _ _ _ _ E3), (bind_ok _ _ _ _ _ E4),
    (bind_ok _ _ _ _ _ E5). split_and!; [done| | |].
  - transitivity f1; [done|]. transitivity f2; [done|]. transitivity f3; [done|]. by transitivity f4.
  - by repeat (etransitivity; [eassumption|]).
  - rewrite U5, U4, U3, U2, U1. unfold regen_of. by rewrite <- !app_assoc.
Qed.

Lemma on_lost_ok t T f : fifd_ok (t :: T) f ->
  exists f', on_lost (t_addr t) f = (Ok tt, f') /\ fifd_ok T f' /\ ackm f' = ackm f /\
    kept loses (streams f) (streams f') /\
    (forall n i, n ∈ t_items t -> cfq_items (fst (cfq f)) !! n = Some i ->
       exists i', cfq_items (fst (cfq f')) !! n = Some i' /\
                  state i' = if unreliable i then -1 else QUIC_CFQ_STATE_NEW) /\
    (exists u, upcalls f' = regen_of (t_addr t) (t_pkt t) ++ u) /\
    forall c, c ∈ chunks (t_pkt t) -> lost_told (t_addr t) (t_space t) c f'.
Proof.
  intros Hf. unfold on_lost. rewrite (bind_ok _ _ _ _ _ (pkt_at_ok t T f Hf)).
  rewrite (tk_fifd _ _ (fo_tracked _ _ Hf t ltac:(by left))). rewrite (bind_ok _ _ f tt f eq_refl).
  destruct (load_chunks_ok t T f Hf) as (l & t1 & HP & Ht & Hy & E1 & E2).
  rewrite (bind_ok _ _ _ _ _ E1), (bind_ok _ _ _ _ _ E2), ztake_all.
  destruct (end_chunks_ok (D := D) loses (lost_told (t_addr t) (t_space t)) (lost_chunk (t_addr t) (t_space t)) (t_space t) l)
    with (C := T ≫= t_chunks) (f := upd_txpim (t1, []) f) as (f2 & E3 & [O1 O2 O3] & Hs & [Hk _] & Htold).
  { intros c C g _ Hg. by apply lost_chunk_ok. }
  { intros. by eapply lost_told_later. }
  { exact (streams_packet t T f Hf l HP). }
  rewrite (bind_ok _ _ _ _ _ E3). cbn in O1, O2, O3.
  destruct (for_items_ok t T f Hf _ _ f2 lost_takes_back O2) as (q' & o & E4 & Hq & Hl & HT & HP').
  rewrite (bind_ok _ _ _ _ _ E4).
  destruct (regen_flags_ok (t_addr t) (t_pkt t) (in_txpim (ossl_quic_txpim_pkt_release (t_addr t))) (upd_cfq (q', o) f2))
    as (f3 & E5 & [P1 P2 P3] & S3 & U3). rewrite E5. cbn in P1, P2, P3, S3, U3.
  destruct (release_packet_ok t T f Hf f3 q' o t1) as (t2 & E6 & Hf'); try done.
  - congruence.
  - by apply (streams_ok_sub _ (streams f2)).
  - rewrite E6. eexists. split; [done|]. split; [done|]. cbn [upd_txpim ackm streams cfq upcalls]. rewrite P2. cbn [fst].
    split_and!; try done; [congruence| | |by eexists|].
    + transitivity (streams f2); [done|]. by apply (kept_sub _).
    + intros n i Hn Ei. destruct (HP' n i Hn Ei) as (i' & Ei' & Es). exists i'. split; [done|]. by destruct (unreliable i).
    + intros c Hc. apply (lost_told_later _ _ _ f2); [apply Htold; by rewrite HP|].
      split; [by apply (kept_sub _)|by eexists].
Qed.

End Dispatch.
