(* ===== verification/FifdRuns.v ===== *)
(** The ACK manager, the control frame queue, the store of packets and the send streams
    run together: nothing that was sent is forgotten. *)

From stdpp Require Import base list numbers gmap sorting.
From Stdlib Require Import ZArith Lia.
From S2P Require Import Prelude SafeMath Vlint Wire Frames UintSet RingBuf SStream Statm NewReno LHash Ackm AckmTheory AckmInv AckmTx AckmRuns Cfq Txpim Fifd FifdTheory.

#[local] Open Scope cfun_scope.

(** ** What the ACK manager reports *)

(** Packets are reported as discarded only when their space is. *)
Definition emitted (o : ackm_op) (c : callback) : Prop :=
  match c with Cb_discarded sp _ _ => o = Op_discard sp | _ => True end.

Lemma emitted_lost o l : Forall (emitted o) (reverse (lost_cb <$> l)).
Proof. rewrite Forall_reverse, Forall_fmap. by apply Forall_forall. Qed.
Lemma emitted_acked o l : Forall (emitted o) (reverse (acked_cb <$> l)).
Proof. rewrite Forall_reverse, Forall_fmap. by apply Forall_forall. Qed.

Section Reports.
Context {D : Type} `{CongestionControlLaws D}.
Context (now : nat -> OSSL_TIME) (now_range : forall n, is_u64 (now n)).
Implicit Types a : OSSL_ACKM D.

(** The reports that an operation adds, the last first. *)
Definition adds (o : ackm_op) a a' : Prop :=
  exists cs, reports (Ackm.log a') = cs ++ reports (Ackm.log a) /\ Forall (emitted o) cs.

Lemma adds_none o a a' : reports (Ackm.log a') = reports (Ackm.log a) -> adds o a a'.
Proof. intros E. exists []. split; [done|constructor]. Qed.

Lemma exec_adds o a g r a' : run_inv a g -> legal o a -> exec now o a = (r, a') -> adds o a a'.
Proof.
  intros Hr Hl. pose proof (ri_inv _ _ Hr) as Hi. destruct o; cbn [exec legal] in *; intros E.
  - destruct Hl as (Hd & Ht & Hz & Hc). destruct (tx_accepted q a) eqn:Ea.
    + destruct (tx_packet_accepted now (g_sent g) (g_pseudo g) q a) as (b & Eb & _ & _ & _ & _ & Er & _); try done.
      apply adds_none. congruence.
    + rewrite tx_packet_refused in E by done. apply adds_none. congruence.
  - destruct Hl as (Hd & Hk & Hdt).
    destruct (on_rx_ack_frame_ok now now_range _ _ k sp rx_time a Hi Hd Hk Hdt) as (b & Eb & _ & _ & _ & _ & _ & _ & Er).
    eexists. split; [replace a' with b by congruence; rewrite Er, app_assoc; done|].
    apply Forall_app. split; [apply emitted_acked|apply emitted_lost].
  - destruct (on_pkt_space_discarded_ok now _ _ sp a Hi) as (r0 & b & Eb & Hc). replace a' with b by congruence.
    destruct (sel sp (discarded a)); [destruct Hc as [_ ->]; by apply adds_none|].
    destruct Hc as (_ & _ & _ & _ & _ & _ & _ & Er). eexists. split; [exact Er|].
    rewrite Forall_reverse, Forall_fmap. eapply Forall_impl; [apply (so_pkts _ _ _ (ai_space _ _ _ _ Hi sp))|].
    intros q Hq. cbn. by rewrite (po_space _ _ Hq).
  - destruct (on_handshake_confirmed_ok now _ _ a Hi) as (b & Eb & _ & _ & _ & _ & _ & Er). apply adds_none. congruence.
  - destruct (decide (fst (ackm_get_loss_time_and_space a) = 0)) as [Hz|Hz].
    + destruct (timeout_probe_ok now _ _ _ a Hi (ri_timer _ _ Hr) Hl Hz) as (b & Eb & _ & _ & _ & _ & _ & Er & _).
      apply adds_none. congruence.
    + destruct (timeout_lost_ok now _ _ a Hi Hz) as (b & Eb & _ & _ & _ & _ & _ & _ & _ & Er).
      eexists. split; [replace a' with b by congruence; exact Er|apply emitted_lost].
  - destruct Hl as [Hd _]. destruct (mark_pseudo_lost_ok _ _ sp pn a Hi Hd) as (r0 & b & Eb & _ & _ & _ & Hc).
    replace a' with b by congruence. destruct (pkt_map (pk sp a) !! pn) as [q|].
    + destruct Hc as (_ & _ & El & _). exists [lost_cb q]. split; [|by repeat constructor].
      rewrite El. unfold reports. by rewrite filter_cons_True by (by eexists).
    + destruct Hc as (_ & _ & El & _). apply adds_none. by rewrite El.
  - destruct Hl as [Hd Hn].
    destruct (on_rx_packet_ok _ _ p a Hi Hd (ri_framed _ _ Hr _ Hd) Hn) as (r0 & b & Eb & Ro & _).
    apply adds_none. replace a' with b by congruence. apply Ro.
  - destruct (get_ack_frame_ok now _ _ sp a Hi Hl) as (k & b & Eb & Ro & _).
    rewrite (bind_ok _ _ _ _ _ Eb) in E. injection E as _ <-. apply adds_none, Ro.
  - apply adds_none. revert E. unfold ossl_ackm_is_ack_desired. unfold bind at 1. rewrite (bind_ok get _ a a a eq_refl).
    destruct (rx_ack_desired _); [by intros [= _ <-]|]. destruct (ossl_time_is_infinite _); by intros [= _ <-].
  - injection E as _ <-. by apply adds_none.
  - injection E as _ <-. by apply adds_none.
  - injection E as _ <-. by apply adds_none.
  - injection E as _ <-. by apply adds_none.
Qed.

(** The packets that an operation ends are those it reports. *)
Lemma exec_ends o a g r a' cs : run_inv a g -> legal o a -> (match o with Op_tx _ => False | _ => True end) ->
  exec now o a = (r, a') -> reports (Ackm.log a') = cs ++ reports (Ackm.log a) ->
  ident_of <$> outstanding a ≡ₚ (ident_of <$> outstanding a') ++ fates cs.
Proof.
  intros Hr Hl Ho E Er. destruct (legal_step now now_range o a g Hr Hl) as (r0 & b & Eb & _ & Hr').
  replace b with a' in Hr' by congruence.
  assert (Hg : g_sent (account o r0 a g) = g_sent g) by (destruct o, r0; done).
  pose proof (ai_sent _ _ _ _ (ri_inv _ _ Hr)) as S1. pose proof (ai_sent _ _ _ _ (ri_inv _ _ Hr')) as S2.
  rewrite Hg, S1, !app_nil_r in S2. rewrite <- (fates_reports (Ackm.log a')), Er in S2.
  rewrite <- (fates_reports (Ackm.log a)) in S2. unfold fates in S2. rewrite omap_app, app_assoc in S2.
  by apply Permutation_app_inv_r in S2.
Qed.

End Reports.

(** ** The system *)

(** The frames of a packet that have no contents of their own. *)
Record frame_flags := mkFlags {
  fl_handshake_done : bool;
  fl_max_data : bool;
  fl_max_streams_bidi : bool;
  fl_max_streams_uni : bool;
  fl_ack : bool;
  fl_conn_close : bool
}.

Inductive fifd_op :=
| F_send (q : OSSL_ACKM_TX_PKT) (fl : frame_flags) (ns : list Z) (cs : list QUIC_TXPIM_CHUNK)
| F_ackm (o : ackm_op)
| F_discard (sp : pn_space)
| F_add_frame (prio sp ty fl : Z) (enc : option (list Z)) (enc_len : Z) (cb : option Z)
| F_open (k : skey) (n : Z)
| F_stream (k : skey) (op : sop)
| F_close (k : skey).

Section System.
Context {D : Type} `{CongestionControlLaws D} `{Caller} `{QSort}.
Context (now : nat -> OSSL_TIME) (now_range : forall n, is_u64 (now n)).
Context (fresh : Z -> list Z) (fresh_len : forall n, 0 <= n -> zlen (fresh n) = n).
Implicit Types f : QUIC_FIFD D.

(** A packet is made and committed, as the packetiser does. *)
Definition described (q : OSSL_ACKM_TX_PKT) (fl : frame_flags) (x : QUIC_TXPIM_PKT) : QUIC_TXPIM_PKT :=
  mkPkt q (retx_head x) (fifd x) (fl_handshake_done fl) (fl_max_data fl) (fl_max_streams_bidi fl)
    (fl_max_streams_uni fl) (fl_ack fl) (fl_conn_close fl) (chunks x) (alloc_chunks x) (chunks_need_sort x).

Fixpoint add_items (p : Z) (ns : list Z) : M (QUIC_FIFD D) unit :=
  match ns with
  | [] => ret tt
  | n :: ns' => ossl_quic_txpim_pkt_add_cfq_item p n ;;; add_items p ns'
  end.

Fixpoint append_chunks (p : Z) (cs : list QUIC_TXPIM_CHUNK) : M (QUIC_FIFD D) unit :=
  match cs with
  | [] => ret tt
  | c :: cs' => in_txpim (ossl_quic_txpim_pkt_append_chunk p c) ;;; append_chunks p cs'
  end.

Definition send (q : OSSL_ACKM_TX_PKT) (fl : frame_flags) (ns : list Z) (cs : list QUIC_TXPIM_CHUNK)
  : M (QUIC_FIFD D) unit :=
  let! p := in_txpim ossl_quic_txpim_pkt_alloc in
  let! x := in_txpim (pkt_at p) in
  in_txpim (set_pkt p (described q fl x)) ;;;
  add_items p ns ;;;
  append_chunks p cs ;;;
  ossl_quic_fifd_pkt_commit now p.

(** A call of the ACK manager with its callbacks, in their order. They run after it here:
    they do not use the manager, and it does not use what they change. *)
Definition new_reports (a a' : OSSL_ACKM D) : list callback :=
  take (length (reports (Ackm.log a')) - length (reports (Ackm.log a))) (reports (Ackm.log a')).

Definition run_ackm (o : ackm_op) : M (QUIC_FIFD D) unit :=
  fun f =>
    let (r, a') := exec now o (ackm f) in
    match r with
    | Ub => (Ub, f)
    | _ => match dispatch_all (reverse (new_reports (ackm f) a')) (upd_ackm a' f) with
           | (Ok _, f') => (r, f')
           | (_, f') => (Ub, f')
           end
    end.

(** When a space is discarded its CRYPTO stream is taken away first. *)
Definition exec_fifd (o : fifd_op) : M (QUIC_FIFD D) unit :=
  match o with
  | F_send q fl ns cs => send q fl ns cs
  | F_ackm o => run_ackm o
  | F_discard sp => modify (fun f => upd_streams (delete (Crypto sp) (streams f)) f) ;;; run_ackm (Op_discard sp)
  | F_add_frame prio sp ty fl enc el cb =>
      let! n := in_cfq (ossl_quic_cfq_add_frame prio sp ty fl enc el cb) in ret tt
  | F_open k n =>
      match fst (ossl_quic_sstream_new fresh n ([] : oracle)) with
      | Ok (Some q) => modify (fun f => upd_streams (<[k := (q, [])]> (streams f)) f)
      | Ok None | Err => fail
      | Ub => undef
      end
  | F_stream k op => let! x := in_stream k (exec_sop fresh op) in ret tt
  | F_close k => modify (fun f => upd_streams (delete k (streams f)) f)
  end.

(** The address of the packet does not matter. *)
Definition with_arg (p : Z) (q : OSSL_ACKM_TX_PKT) : OSSL_ACKM_TX_PKT :=
  let 'mkTxPkt pn nb t la sp fl el _ := q in mkTxPkt pn nb t la sp fl el p.

(** The chunks that are in flight. *)
Definition chunk_list f (x : ident) : list keyed :=
  keyed_of x.1.1 (from_option chunks [] (pkts (fst (txpim f)) !! x.2)).
Definition in_flight f : list keyed := (ident_of <$> outstanding (ackm f)) ≫= chunk_list f.

(** The items that a packet in flight carries. *)
Fixpoint retx_items (fuel : nat) (m : gmap Z QUIC_CFQ_ITEM_EX) (h : option Z) : list Z :=
  match fuel, h with
  | S fuel', Some n => n :: match m !! n with Some i => retx_items fuel' m (pkt_next i) | None => [] end
  | _, _ => []
  end.
Definition carried_items f (x : ident) : list Z :=
  retx_items (base.size (cfq_items (fst (cfq f)))) (cfq_items (fst (cfq f)))
    (pkts (fst (txpim f)) !! x.2 ≫= retx_head).

(** When an operation may be called. A packet is one that the ACK manager accepts, with
    items that are new, chunks that are new in their streams, and in the first spaces
    only CRYPTO frames; STOP_SENDING and RESET_STREAM frames have chunks of their own, as
    ssl/quic/quic_txp.c makes them. (The FIN of an empty stream, whose chunk wraps around at
    64 bits, is an example of its own.) A stream is not given the identifier of one that has
    chunks in flight. *)
Definition fifd_legal (o : fifd_op) f : Prop :=
  match o with
  | F_send q fl ns cs =>
      legal (Op_tx q) (ackm f) /\ tx_accepted q (ackm f) = true /\ NoDup ns /\
      (forall n, n ∈ ns -> n ∈ new_list (fst (cfq f))) /\ zlen cs <= MAX_ALLOC_CHUNKS /\
      streams_fit (keyed_of (pkt_space q) cs) (streams f) /\
      (pkt_space q <> QUIC_PN_SPACE_APP -> Forall (fun c => stream_id c = UINT64_MAX) cs) /\
      forallb bare cs = true /\ in_use (fst (txpim f)) + 1 < U64_MOD
  | F_ackm o => legal o (ackm f) /\ match o with Op_tx _ | Op_discard _ => False | _ => True end
  | F_discard sp => sp <> QUIC_PN_SPACE_APP
  | F_add_frame _ _ _ _ _ _ _ => True
  | F_open k n => 0 <= n < 9223372036854775808 /\ Forall (fun x => x.1 <> k) (in_flight f)
  | F_stream k op => is_Some (streams f !! k) /\
      match op with op_append _ | op_fin => True | op_set_size n => 0 <= n < 9223372036854775808 | _ => False end
  | F_close k => True
  end.

(** A new system. *)
Definition fifd_fresh f : Prop :=
  AckmRuns.fresh (ackm f) /\ (exists o o', ossl_quic_cfq_new o = (Some (fst (cfq f)), o')) /\
  ossl_quic_txpim_new [] = (Some (fst (txpim f)), []) /\ snd (txpim f) = [] /\ streams f = ∅.

Inductive fifd_reachable : QUIC_FIFD D -> Prop :=
| fifd_start f : fifd_fresh f -> fifd_reachable f
| fifd_next f o r f' : fifd_reachable f -> fifd_legal o f -> exec_fifd o f = (r, f') -> fifd_reachable f'.

(** ** Callbacks *)

Definition t_ident (t : track) : ident := (t_space t, pkt_num (ackm_pkt (t_pkt t)), t_addr t).

Lemma fifd_ok_ackm T a f : fifd_ok T f -> fifd_ok T (upd_ackm a f).
Proof. intros [F1 F2 F3 F4 F5 F6 F7]. split; try done. intros t Ht. by destruct (F4 t Ht). Qed.

(** The streams of the spaces whose packets are discarded are gone. *)
Definition no_stream f (c : callback) : Prop :=
  match c with Cb_discarded sp _ _ => sp <> QUIC_PN_SPACE_APP /\ streams f !! Crypto sp = None | _ => True end.

Lemma no_stream_kept (R : relation QUIC_SSTREAM) f f' c : kept R (streams f) (streams f') -> no_stream f c -> no_stream f' c.
Proof.
  intros Hk. destruct c; cbn; try done. intros [Hs E]. split; [done|].
  destruct (streams f' !! Crypto sp) as [s|] eqn:E'; [|done]. destruct (Hk _ _ E') as (s0 & E0 & _). congruence.
Qed.

Lemma dispatch_ok c x t T f : fate c = Some x -> t_ident t = x -> fifd_ok (t :: T) f -> no_stream f c ->
  exists f', dispatch c f = (Ok tt, f') /\ fifd_ok T f' /\ ackm f' = ackm f /\
             forall c', no_stream f c' -> no_stream f' c'.
Proof.
  intros Hc Ht Hf Hn. destruct c as [sp pn p|sp pn p|sp pn p| |]; cbn in Hc; simplify_eq; cbn [dispatch].
  - destruct (on_lost_ok t T f Hf) as (f' & E & Hf' & Ha & Hk & _). exists f'. split_and!; try done.
    intros c'. by apply (no_stream_kept loses).
  - destruct (on_acked_ok t T f Hf) as (f' & E & Hf' & Ha & Hk & _). exists f'. split_and!; try done.
    intros c'. by apply (no_stream_kept acks).
  - destruct Hn as [Hsp Hs]. destruct (on_discarded_ok t T f Hf) as (f' & E & Hf' & Ha & Es).
    + intros k c Hc. unfold t_chunks, keyed_of in Hc. apply list_elem_of_fmap in Hc as (c0 & [= -> ->] & Hin).
      pose proof (tk_crypto _ _ (fo_tracked _ _ Hf t ltac:(by left)) Hsp) as Hcr. rewrite Forall_forall in Hcr.
      unfold key_of. rewrite (Hcr c0 Hin). done.
    + exists f'. split_and!; try done. intros c'. apply (no_stream_kept acks). by rewrite Es.
Qed.

Lemma dispatch_all_ok cs : forall T O f,
  Forall (fun c => is_Some (fate c)) cs -> Forall (no_stream f) cs -> fifd_ok T f -> t_ident <$> T ≡ₚ O ++ fates cs ->
  exists f' T', dispatch_all cs f = (Ok tt, f') /\ fifd_ok T' f' /\ t_ident <$> T' ≡ₚ O /\ ackm f' = ackm f.
Proof.
  induction cs as [|c cs IH]; intros T O f Hr Hn Hf HP.
  { exists f, T. by rewrite app_nil_r in HP. }
  apply Forall_cons in Hr as [[x Hx] Hr]. apply Forall_cons in Hn as [Hc Hn].
  unfold fates in HP. cbn in HP. rewrite Hx in HP. rewrite <- Permutation_middle in HP.
  assert (exists t, t_ident t = x /\ t ∈ T) as (t & Ht & Hin).
  { assert (x ∈ t_ident <$> T) as (t & -> & ?)%list_elem_of_fmap by (rewrite HP; by left). by exists t. }
  apply elem_of_Permutation in Hin as [T1 HT]. rewrite HT in Hf, HP. cbn in HP. rewrite Ht in HP.
  apply Permutation_cons_inv in HP. destruct (dispatch_ok c x t T1 f Hx Ht Hf Hc) as (f1 & E1 & F1 & A1 & N1).
  destruct (IH T1 O f1 Hr) as (f2 & T2 & E2 & F2 & P2 & A2); try done.
  { eapply Forall_impl; [exact Hn|]. intros ?. apply N1. }
  exists f2, T2. cbn [dispatch_all]. rewrite (bind_ok _ _ _ _ _ E1). split_and!; try done. congruence.
Qed.

Record fifd_inv f : Prop := {
  fv_ghost : exists g, run_inv (ackm f) g;
  fv_track : exists T, fifd_ok T f /\ t_ident <$> T ≡ₚ ident_of <$> outstanding (ackm f)
}.

Lemma run_ackm_ok o f : fifd_inv f -> legal o (ackm f) -> (match o with Op_tx _ => False | _ => True end) ->
  (forall sp, o = Op_discard sp -> sp <> QUIC_PN_SPACE_APP /\ streams f !! Crypto sp = None) ->
  exists r f', run_ackm o f = (r, f') /\ r <> Ub /\ fifd_inv f'.
Proof.
  intros [[g Hg] (T & Hf & HP)] Hl Ho Hd.
  destruct (legal_step now now_range o _ g Hg Hl) as (r & a' & E & Hub & Hg').
  destruct (exec_adds now now_range o _ g r a' Hg Hl E) as (cs & Er & Hem).
  pose proof (exec_ends now now_range o _ g r a' cs Hg Hl Ho E Er) as Hends.
  assert (En : new_reports (ackm f) a' = cs).
  { unfold new_reports. rewrite Er, length_app. replace (_ + _ - _)%nat with (length cs) by lia. apply take_app_length. }
  destruct (dispatch_all_ok (reverse cs) T (ident_of <$> outstanding a') (upd_ackm a' f)) as (f' & T' & E' & F' & P' & A').
  - apply Forall_reverse. assert (Forall (fun c => is_Some (fate c)) (reports (Ackm.log a'))) as Hall.
    { apply Forall_forall. intros c Hc. unfold reports in Hc. by apply list_elem_of_filter in Hc as [? _]. }
    rewrite Er in Hall. by apply Forall_app in Hall as [? _].
  - apply Forall_reverse. eapply Forall_impl; [exact Hem|]. intros [] Hc; try done. cbn. by apply Hd.
  - by apply fifd_ok_ackm.
  - rewrite HP, Hends. unfold fates. by rewrite reverse_Permutation.
  - exists r, f'. unfold run_ackm. rewrite E, En, E'. split; [by destruct r|]. split; [done|]. split.
    + rewrite A'. by eexists.
    + exists T'. rewrite A'. done.
Qed.

(** ** Packets that are made *)

(** [x] at [p] is being made with the items [l]. *)
Record building (p : Z) (x : QUIC_TXPIM_PKT) (l : list Z) (T : list track) f : Prop := {
  bd_oracle : snd (txpim f) = [];
  bd_txpim : txpim_ok (p :: (t_addr <$> T)) (fst (txpim f));
  bd_pkt : pkts (fst (txpim f)) !! p = Some x;
  bd_tracked t : t ∈ T -> tracked f t;
  bd_cfq : cfq_ok (fst (cfq f));
  bd_tx : tx_list (fst (cfq f)) ≡ₚ T ≫= t_items;
  bd_chain : chain (cfq_items (fst (cfq f))) (retx_head x) l;
  bd_items : NoDup l /\ forall n, n ∈ l -> n ∈ new_list (fst (cfq f));
  bd_streams : streams_ok (T ≫= t_chunks) (streams f)
}.

Lemma building_other p x l T f t : building p x l T f -> t ∈ T -> t_addr t <> p.
Proof.
  intros Hb Hin E. pose proof (to_nodup _ _ (bd_txpim _ _ _ _ _ Hb)) as Hnd.
  apply NoDup_app in Hnd as (_ & _ & Hnd). apply NoDup_cons in Hnd as [Hnd _]. apply Hnd. rewrite <- E.
  by apply list_elem_of_fmap_2.
Qed.

(** The items of the packets in flight are not new. *)
Lemma building_item p x l T f t n : building p x l T f -> t ∈ T -> n ∈ t_items t -> n ∉ new_list (fst (cfq f)).
Proof.
  intros Hb Ht Hn Hin. destruct (proj1 (lists_disjoint _ (bd_cfq _ _ _ _ _ Hb) n) Hin) as [Hx _]. apply Hx.
  rewrite (bd_tx _ _ _ _ _ Hb). apply list_elem_of_bind. eauto.
Qed.

(** The packet changes in the store. *)
Lemma building_store p x x' l T f : building p x l T f -> chunks_ok x' -> retx_head x' = retx_head x ->
  building p x' l T (upd_txpim (stored p x' (fst (txpim f)), []) f).
Proof.
  intros Hb Hx Hh. pose proof Hb as [B1 B2 B3 B4 B5 B6 B7 B8 B9]. split; cbn; try done.
  - apply txpim_ok_set; [done| |done]. apply (to_pkts _ _ B2). eauto.
  - by rewrite lookup_insert_eq.
  - intros t Ht. destruct (B4 t Ht) as [K1 K2 K3 K4 K5]. split; cbn; try done.
    rewrite lookup_insert_ne; [done|]. symmetry. by apply (building_other p x l T f).
  - by rewrite Hh.
Qed.

Lemma set_next_ok q n i h : cfq_ok q -> n ∈ new_list q -> cfq_items q !! n = Some i ->
  cfq_ok (set_cfq_items (<[n := set_pkt_next h i]> (cfq_items q)) q).
Proof.
  intros Hq Hn Ei. apply (cfq_ok_move q _ n (set_pkt_next h i)); cbn; try done.
  - left. split; [done|]. destruct (new_item q Hq n Hn) as (i0 & E0 & <-). simplify_eq. by destruct i.
  - apply (sorted_ext (cfq_items q)); [|apply Hq]. intros x _ j Ej. destruct (decide (x = n)) as [->|Hne].
    + rewrite lookup_insert_eq. eexists. split; [done|]. simplify_eq. by destruct i.
    + rewrite lookup_insert_ne by done. by exists j.
Qed.

Lemma add_item_ok p x l T f n : building p x l T f -> n ∉ l -> n ∈ new_list (fst (cfq f)) ->
  exists f', ossl_quic_txpim_pkt_add_cfq_item p n f = (Ok tt, f') /\ building p (set_retx_head (Some n) x) (n :: l) T f' /\
    ackm f' = ackm f /\ streams f' = streams f /\ new_list (fst (cfq f')) = new_list (fst (cfq f)).
Proof.
  intros Hb Hl Hn. pose proof Hb as [B1 B2 B3 B4 B5 B6 B7 [B8 B8'] B9].
  destruct (new_item _ B5 n Hn) as (i & Ei & _). set (q := set_cfq_items (<[n := set_pkt_next (retx_head x) i]> (cfq_items (fst (cfq f)))) (fst (cfq f))).
  set (x' := set_retx_head (Some n) x). exists (upd_txpim (stored p x' (fst (txpim f)), []) (upd_cfq (q, snd (cfq f)) f)).
  assert (Hcfq : cfq_ok q) by (by apply set_next_ok).
  assert (Hlinks : forall m, n ∉ m -> forall h, chain (cfq_items (fst (cfq f))) h m -> chain (cfq_items q) h m).
  { intros m Hm h. apply chain_ext. intros y j Hy Ej. exists j. split; [|done]. cbn. rewrite lookup_insert_ne; [done|].
    by intros ->. }
  split; [|split; [split|]]; cbn [upd_txpim upd_cfq cfq txpim fst snd streams ackm]; try done.
  - unfold ossl_quic_txpim_pkt_add_cfq_item. destruct f as [a [c o] [tp o'] m u]. cbn in *. subst o'.
    unfold bind at 1, in_txpim, zoom. cbn [txpim]. rewrite (pkt_at_run _ _ _ _ B3). unfold upd_txpim. cbn.
    unfold bind at 1, in_cfq, zoom. cbn [cfq]. by rewrite (item_run _ _ _ _ Ei).
  - apply txpim_ok_set; [done| |].
    + apply (to_pkts _ _ B2). eauto.
    + destruct x. apply (to_chunks _ _ B2 _ _ B3).
  - cbn. by rewrite lookup_insert_eq.
  - intros t Ht. destruct (B4 t Ht) as [K1 K2 K3 K4 K5]. split; cbn [upd_txpim upd_cfq txpim cfq fst]; try done.
    + cbn. rewrite lookup_insert_ne; [done|]. symmetry. by apply (building_other p x l T f).
    + apply Hlinks; [|done]. intros Hin. by apply (building_item p x l T f t n Hb Ht Hin).
  - split; [by destruct x|]. exists (set_pkt_next (retx_head x) i). split; [cbn; by rewrite lookup_insert_eq|].
    replace (pkt_next _) with (retx_head x) by (by destruct i). by apply Hlinks.
  - split; [by constructor|]. intros y [->|Hy]%elem_of_cons; [done|]. by apply B8'.
Qed.

Lemma add_items_ok p ns : forall x l T f, building p x l T f -> NoDup ns -> (forall n, n ∈ ns -> n ∉ l) ->
  (forall n, n ∈ ns -> n ∈ new_list (fst (cfq f))) ->
  exists f' x', add_items p ns f = (Ok tt, f') /\ building p x' (reverse ns ++ l) T f' /\
    (exists h, x' = set_retx_head h x) /\ ackm f' = ackm f /\ streams f' = streams f.
Proof.
  induction ns as [|n ns IH]; intros x l T f Hb Hnd Hl Hn.
  { exists f, x. split_and!; try done. exists (retx_head x). by destruct x. }
  apply NoDup_cons in Hnd as [Hn1 Hnd].
  destruct (add_item_ok p x l T f n Hb) as (f1 & E1 & B1 & A1 & S1 & N1); [apply Hl; by left|apply Hn; by left|].
  destruct (IH _ _ _ _ B1 Hnd) as (f2 & x2 & E2 & B2 & [h Hx] & A2 & S2).
  { intros y Hy [->|Hy']%elem_of_cons; [done|]. apply (Hl y); [by right|done]. }
  { intros y Hy. rewrite N1. apply Hn. by right. }
  exists f2, x2. cbn [add_items]. rewrite (bind_ok _ _ _ _ _ E1). split_and!; try congruence.
  - rewrite reverse_cons, <- app_assoc. done.
  - exists h. rewrite Hx. by destruct x.
Qed.

Lemma append_chunks_ok p cs : forall x l T f, building p x l T f -> zlen (chunks x) + zlen cs <= MAX_ALLOC_CHUNKS ->
  exists f' n s, append_chunks p cs f = (Ok tt, f') /\ building p (with_chunks (chunks x ++ cs) n s x) l T f' /\
    ackm f' = ackm f /\ streams f' = streams f /\ cfq f' = cfq f.
Proof.
  induction cs as [|c cs IH]; intros x l T f Hb Hz.
  { exists f, (alloc_chunks x), (chunks_need_sort x). rewrite app_nil_r. split_and!; try done. by destruct x. }
  rewrite zlen_cons in Hz. pose proof (zlen_nonneg cs) as Hc.
  destruct (append_chunk_ok _ _ p x c (bd_txpim _ _ _ _ _ Hb) (bd_pkt _ _ _ _ _ Hb)) as (n & E & Ht); [lia|].
  set (x1 := with_chunks (chunks x ++ [c]) n true x) in *.
  pose proof (building_store p x x1 l T f Hb) as Hb1. specialize (Hb1 (to_chunks _ _ Ht p x1 (lookup_insert_eq _ _ _)) eq_refl).
  destruct (IH _ _ _ _ Hb1) as (f2 & n2 & s2 & E2 & B2 & A2 & S2 & C2).
  { cbn. rewrite zlen_app, zlen_cons, zlen_nil. lia. }
  exists f2, n2, s2. cbn [append_chunks]. erewrite bind_ok.
  2: { apply in_txpim_run. rewrite (surjective_pairing (txpim f)), (bd_oracle _ _ _ _ _ Hb). exact E. }
  split_and!; try done. replace (with_chunks (chunks x ++ c :: cs) n2 s2 x) with (with_chunks (chunks x1 ++ cs) n2 s2 x1); [done|].
  unfold x1, with_chunks. cbn. by rewrite <- app_assoc.
Qed.

(** A packet is taken from the store and described. *)
Lemma start_ok T f q fl : fifd_ok T f -> in_use (fst (txpim f)) + 1 < U64_MOD ->
  exists p n s f', building p (described q fl (blank n s)) [] T f' /\ ackm f' = ackm f /\ streams f' = streams f /\
    cfq f' = cfq f /\
    forall A (k : Z -> M (QUIC_FIFD D) A),
      (let! p := in_txpim ossl_quic_txpim_pkt_alloc in
       let! x := in_txpim (pkt_at p) in in_txpim (set_pkt p (described q fl x)) ;;; k p) f = k p f'.
Proof.
  intros [F1 F2 F3 F4 F5 F6 F7] Hu. rewrite (to_use _ _ F2) in Hu.
  pose proof (alloc_pkt_ok _ _ [] F2 Hu) as Ha.
  destruct (ossl_quic_txpim_pkt_alloc (fst (txpim f), [] : oracle)) as [[p| |] [t1 o1]] eqn:E; [|by destruct Ha|done].
  destruct Ha as (Ht & Hp & (n & s & Ex) & Hy & Ho). rewrite (Ho eq_refl) in E.
  assert (Hb : building p (blank n s) [] T (upd_txpim (t1, []) f)).
  { split; cbn; try done.
    - intros t Hin. destruct (F4 t Hin) as [K1 K2 K3 K4 K5]. split; cbn; try done. rewrite Hy; [done|].
      intros Et. apply Hp. rewrite <- Et. by apply list_elem_of_fmap_2.
    - split; [constructor|]. by intros n0 ?%elem_of_nil. }
  exists p, n, s. eexists. split; [|split; [|split; [|split]]].
  - apply (building_store p (blank n s) (described q fl (blank n s)) [] T _ Hb); [|done].
    apply (to_chunks _ _ Ht p _ Ex).
  - done.
  - done.
  - done.
  - intros A k. erewrite bind_ok; [|apply in_txpim_run; rewrite (surjective_pairing (txpim f)), F1; exact E].
    erewrite bind_ok; [|apply in_txpim_run; cbn [upd_txpim txpim]; by apply pkt_at_run].
    erewrite bind_ok; [|apply in_txpim_run; apply set_pkt_run]. done.
Qed.

(** The packet as it is committed. *)
Lemma commit_ok p x l T f g :
  building p x l T f -> zlen T + 1 < U64_MOD -> run_inv (ackm f) g ->
  legal (Op_tx (ackm_pkt (committed p x))) (ackm f) -> tx_accepted (ackm_pkt (committed p x)) (ackm f) = true ->
  streams_fit (keyed_of (pkt_space (ackm_pkt x)) (chunks x)) (streams f) ->
  (pkt_space (ackm_pkt x) <> QUIC_PN_SPACE_APP -> Forall (fun c => stream_id c = UINT64_MAX) (chunks x)) ->
  forallb bare (chunks x) = true ->
  t_ident <$> T ≡ₚ ident_of <$> outstanding (ackm f) ->
  exists f', ossl_quic_fifd_pkt_commit now p f = (Ok tt, f') /\ fifd_inv f'.
Proof.
  intros Hb Hz Hg Hl Ha Hfit Hcr Hbare HP. pose proof Hb as [B1 B2 B3 B4 B5 B6 B7 [B8 B8'] B9].
  assert (Ex : in_txpim (pkt_at p) f = (Ok x, f)).
  { rewrite <- (upd_txpim_same f) at 2. apply in_txpim_run. rewrite (surjective_pairing (txpim f)). by apply pkt_at_run. }
  unfold ossl_quic_fifd_pkt_commit. rewrite (bind_ok _ _ _ _ _ Ex).
  set (x1 := committed p x). assert (Hx1 : chunks x1 = chunks x /\ retx_head x1 = retx_head x /\ fifd x1 = true /\
    pkt_space (ackm_pkt x1) = pkt_space (ackm_pkt x) /\ chunks_ok x1 /\ cb_arg (ackm_pkt x1) = p).
  { pose proof (to_chunks _ _ B2 p x B3) as Hc. unfold x1, committed. destruct (ackm_pkt x). by split_and!. }
  destruct Hx1 as (X1 & X2 & X3 & X4 & X5 & X6).
  pose proof (building_store p x x1 l T f Hb X5 X2) as Hb1. clear Hb Ex.
  erewrite bind_ok; [|apply in_txpim_run; rewrite (surjective_pairing (txpim f)), B1; apply set_pkt_run].
  set (f1 := upd_txpim _ f) in *. destruct Hb1 as [C1 C2 C3 C4 C5 C6 C7 [C8 C8'] C9].
  destruct (tx_loop_ok l (base.size (cfq_items (fst (cfq f)))) (retx_head x) (fst (cfq f)) (snd (cfq f)))
    as (q2 & E2 & Q2 & L2 & T2 & N2); try done; [by eapply chain_size|].
  erewrite bind_ok; [|apply in_cfq_run; cbn [f1 upd_txpim cfq]; rewrite (surjective_pairing (cfq f)); exact E2].
  set (f2 := upd_cfq (q2, snd (cfq f)) f1).
  destruct (get_chunks_ok _ _ _ _ [] C2 C3) as (cl & s & t3 & HPc & Eg & Ht3 & Ep3 & Hy3).
  erewrite bind_ok; [|apply in_txpim_run; exact Eg].
  erewrite bind_ok; [|apply in_txpim_run; unfold ossl_quic_txpim_pkt_get_num_chunks; cbn [upd_txpim txpim];
                      by rewrite (bind_ok _ _ _ _ _ (pkt_at_run _ _ _ _ Ep3))].
  cbn [with_chunks chunks]. rewrite ztake_all. set (f3 := upd_txpim _ (upd_txpim _ f2)).
  destruct (commit_chunks_ok (pkt_space (ackm_pkt x)) cl (T ≫= t_chunks) f3) as (f4 & E4 & [O1 O2 O3] & _ & R4).
  { exact C9. }
  { unfold keyed_of. rewrite HPc, X1. exact Hfit. }
  rewrite (bind_ok _ _ _ _ _ E4). cbn in O1, O2, O3. destruct Hl as (L1 & Lt & L3 & L4).
  destruct (tx_packet_accepted now (g_sent g) (g_pseudo g) (ackm_pkt x1) (ackm f) (ri_inv _ _ Hg))
    as (a' & Ea & Hi' & Tk & Erx & Ed & Er & Ep & Epo); try done.
  exists (upd_ackm a' f4). split; [unfold in_ackm, zoom; by rewrite O1, Ea|].
  destruct (legal_step now now_range (Op_tx (ackm_pkt x1)) (ackm f) g Hg) as (r & a2 & E5 & _ & Hg'); [by split_and!|].
  cbn [exec] in E5. rewrite Ea in E5. injection E5 as <- <-. split; [by eexists|].
  set (t := mkTrack p (with_chunks cl (alloc_chunks x1) s x1) l).
  exists (t :: T). split; [split|]; cbn [upd_ackm ackm cfq txpim streams].
  - by rewrite O3.
  - by rewrite O3.
  - rewrite zlen_cons. lia.
  - intros y [->|Hy]%elem_of_cons; split; cbn [upd_ackm cfq txpim]; rewrite ?O2, ?O3; cbn; try done.
    + rewrite X2. eapply chain_ext; [|exact B7]. intros ? ? _. apply L2.
    + unfold t_space. cbn. rewrite X4, HPc, X1. exact Hcr.
    + apply forallb_forall. intros c Hc. apply list_elem_of_In in Hc. rewrite HPc, X1 in Hc. by apply (forallb_True_elem bare _ _ Hbare).
    + rewrite Hy3; [apply (C4 y Hy)|]. by apply (building_other p x1 l T f1).
    + apply (C4 y Hy).
    + eapply chain_ext; [|apply (C4 y Hy)]. intros ? ? _. apply L2.
    + apply (C4 y Hy).
    + apply (C4 y Hy).
  - by rewrite O2.
  - rewrite O2. cbn. rewrite T2. rewrite B6. apply Permutation_app_comm.
  - cbn. unfold t_chunks at 1, t_space. cbn. rewrite X4. exact R4.
  - cbn. rewrite HP. assert (outstanding a' ≡ₚ ackm_pkt x1 :: outstanding (ackm f)) as ->.
    { unfold outstanding. destruct (pkt_space (ackm_pkt x1)); rewrite ?Ep, ?Epo by done; solve_Permutation. }
    cbn. unfold t_ident, t_space, ident_of. cbn. by rewrite X6.
Qed.

Lemma fifd_send_ok q fl ns cs f : fifd_inv f -> fifd_legal (F_send q fl ns cs) f ->
  exists f', send q fl ns cs f = (Ok tt, f') /\ fifd_inv f'.
Proof.
  intros [[g Hg] (T & Hf & HP)] (Hl & Ha & Hns & Hnew & Hz & Hfit & Hcr & Hbare & Hu).
  destruct (start_ok T f q fl Hf Hu) as (p & n & s & f1 & B1 & A1 & S1 & C1 & E1).
  unfold send. rewrite (E1 _ (fun p => add_items p ns ;;; append_chunks p cs ;;; ossl_quic_fifd_pkt_commit now p)).
  destruct (add_items_ok p ns _ _ T f1 B1 Hns) as (f2 & x2 & E2 & B2 & [h Hx2] & A2 & S2).
  { by intros y _ ?%elem_of_nil. }
  { by rewrite C1. }
  rewrite (bind_ok _ _ _ _ _ E2). assert (Ec2 : chunks x2 = []) by (by rewrite Hx2).
  destruct (append_chunks_ok p cs x2 _ T f2 B2) as (f3 & n3 & s3 & E3 & B3 & A3 & S3 & _).
  { rewrite Ec2, zlen_nil. lia. }
  rewrite (bind_ok _ _ _ _ _ E3). rewrite Ec2 in B3. cbn [app] in B3.
  assert (Eq : ackm_pkt (committed p (with_chunks cs n3 s3 x2)) = with_arg p q).
  { rewrite Hx2. unfold committed, with_arg. cbn. by destruct q. }
  assert (Es : pkt_space (with_arg p q) = pkt_space q) by (by destruct q).
  apply (commit_ok p _ _ T f3 g B3); rewrite ?A3, ?A2, ?A1, ?Eq; cbn [with_chunks chunks ackm_pkt]; try done.
  - rewrite (to_use _ _ (fo_txpim _ _ Hf)) in Hu. rewrite (zlen_length (t_addr <$> T)), length_fmap in Hu. by rewrite zlen_length.
  - destruct Hl as (L1 & L2 & L3 & L4). cbn. rewrite Es. split_and!; try done; [by destruct q, L2|by destruct q].
  - by destruct q.
  - rewrite Hx2. cbn. by rewrite S3, S2, S1.
  - rewrite Hx2. exact Hcr.
Qed.

(** ** The other operations *)

Lemma chunks_tracked T f : (forall t, t ∈ T -> tracked f t) -> T ≫= t_chunks = (t_ident <$> T) ≫= chunk_list f.
Proof.
  induction T as [|t T IH]; intros Ht; [done|]. cbn. rewrite IH by (intros; apply Ht; by right). f_equal.
  unfold chunk_list, t_chunks. cbn. by rewrite (tk_pkt _ _ (Ht t ltac:(by left))).
Qed.

Lemma in_flight_tracked T f : fifd_ok T f -> t_ident <$> T ≡ₚ ident_of <$> outstanding (ackm f) ->
  in_flight f ≡ₚ T ≫= t_chunks.
Proof. intros Hf HP. unfold in_flight. rewrite <- HP. by rewrite (chunks_tracked T f (fo_tracked _ _ Hf)). Qed.

Lemma fifd_ok_streams T m f : fifd_ok T f -> streams_ok (T ≫= t_chunks) m -> fifd_ok T (upd_streams m f).
Proof. intros [F1 F2 F3 F4 F5 F6 F7] Hm. split; try done. intros t Ht. by destruct (F4 t Ht). Qed.

Lemma inv_streams m f : fifd_inv f -> (forall T, fifd_ok T f -> t_ident <$> T ≡ₚ ident_of <$> outstanding (ackm f) ->
  streams_ok (T ≫= t_chunks) m) -> fifd_inv (upd_streams m f).
Proof. intros [Hg (T & Hf & HP)] Hm. split; [done|]. exists T. split; [by apply fifd_ok_streams; auto|done]. Qed.

Lemma inv_free k f : fifd_inv f -> fifd_inv (upd_streams (delete k (streams f)) f).
Proof.
  intros Hi. apply inv_streams; [done|]. intros T Hf _. eapply streams_ok_sub; [|apply (fo_streams _ _ Hf)].
  apply delete_subseteq.
Qed.

Lemma open_ok k n f : fifd_inv f -> fifd_legal (F_open k n) f ->
  exists f', exec_fifd (F_open k n) f = (Ok tt, f') /\ fifd_inv f'.
Proof.
  intros Hi [Hn Hk]. destruct (new_ok fresh fresh_len n Hn) as (q & E & Hs). cbn [exec_fifd]. rewrite E. cbn [fst].
  eexists. split; [done|]. apply inv_streams; [done|]. intros T Hf HP.
  apply (streams_ok_insert _ k q (init_spec n)); [done| |].
  - rewrite (in_flight_tracked T f Hf HP) in Hk. rewrite Forall_forall in Hk. split; cbn; try done.
    + intros v Hv. exfalso. unfold size in Hv. cbn [init_spec sq RingBuf.log] in Hv. rewrite zlen_length in Hv. cbn in Hv. lia.
    + intros c Hc. by apply Hk in Hc.
    + intros c Hc. by apply Hk in Hc.
    + by intros (? & _).
  - intros k' s _ E'. by apply (fo_streams _ _ Hf).
Qed.

Lemma stream_ok k op f : fifd_inv f -> fifd_legal (F_stream k op) f ->
  exists f', exec_fifd (F_stream k op) f = (Ok tt, f') /\ fifd_inv f'.
Proof.
  intros Hi [[[q o] Es] Hop]. pose proof Hi as [_ (T & Hf & _)].
  destruct (fo_streams _ _ Hf k _ Es) as (Ho & a & Hs & _). cbn in Ho, Hs. subst o.
  destruct (exec_sop_ok fresh fresh_len q a op Hs) as (q' & E & Hs'); [by destruct op|].
  cbn [exec_fifd]. erewrite bind_ok; [|by eapply in_stream_run]. eexists. split; [done|].
  apply inv_streams; [done|]. clear T Hf. intros T Hf HP. pose proof (fo_streams _ _ Hf) as Hm.
  destruct (Hm k _ Es) as (_ & a1 & Hs1 & Hc1). cbn in Hs1.
  destruct (exec_sop_ok fresh fresh_len q a1 op Hs1) as (q1 & E1 & Hs1'); [by destruct op|].
  assert (q1 = q') as -> by congruence. apply (streams_ok_insert _ k q' (snd (spec_sop op a1))); [done| |].
  - apply carried_sop; [done|]. by destruct op.
  - intros k' s _ E'. by apply Hm.
Qed.

Lemma fifd_add_ok prio sp ty fl enc el cb f : fifd_inv f ->
  exists r f', exec_fifd (F_add_frame prio sp ty fl enc el cb) f = (r, f') /\ r <> Ub /\ fifd_inv f'.
Proof.
  intros [Hg (T & [F1 F2 F3 F4 F5 F6 F7] & HP)]. cbn [exec_fifd]. unfold bind at 1, in_cfq, zoom.
  pose proof (add_frame_ok (fst (cfq f)) (snd (cfq f)) prio sp ty fl enc el cb F5) as Ha.
  rewrite (surjective_pairing (cfq f)). destruct (ossl_quic_cfq_add_frame _ _ _ _ _ _ _ _) as [[n| |] [q' o']]; [| |done].
  - destruct Ha as (Hq & HN & HT & _ & Ho & _). eexists _, _. split; [done|]. split; [done|]. split; [done|]. exists T.
    split; [|done]. split; cbn; try done; [|by rewrite HT]. intros t Ht. destruct (F4 t Ht) as [K1 K2 K3 K4 K5].
    split; cbn; try done. eapply chain_ext; [|done]. intros x i Hx Ei. exists i. split; [|done]. rewrite Ho; [done|].
    intros ->. destruct (proj1 (lists_disjoint q' Hq n)) as [Hd _]; [rewrite HN; by left|]. apply Hd. rewrite HT, F6.
    apply list_elem_of_bind. eauto.
  - destruct Ha as (-> & _). eexists _, _. split; [done|]. split; [done|]. split; [done|]. exists T. split; [|done].
    split; try done. intros t Ht. by destruct (F4 t Ht).
Qed.

Lemma fifd_step o f : fifd_inv f -> fifd_legal o f ->
  exists r f', exec_fifd o f = (r, f') /\ r <> Ub /\ fifd_inv f' /\
    match o with F_send _ _ _ _ | F_open _ _ | F_stream _ _ | F_close _ => r = Ok tt | _ => True end.
Proof.
  intros Hi Hl. destruct o as [q fl ns cs|o|sp|prio sp ty fl enc el cb|k n|k op|k].
  - destruct (fifd_send_ok q fl ns cs f Hi Hl) as (f' & E & Hi'). by exists (Ok tt), f'.
  - destruct Hl as [Hl Ho]. destruct (run_ackm_ok o f Hi Hl) as (r & f' & ?); [by destruct o|by intros sp ->|].
    exists r, f'. tauto.
  - cbn [exec_fifd]. rewrite (bind_ok _ _ f tt (upd_streams (delete (Crypto sp) (streams f)) f) eq_refl).
    destruct (run_ackm_ok (Op_discard sp) (upd_streams (delete (Crypto sp) (streams f)) f)) as (r & f' & ?); try done.
    + by apply inv_free.
    + intros ? [= <-]. split; [done|]. apply lookup_delete_eq.
    + exists r, f'. tauto.
  - destruct (fifd_add_ok prio sp ty fl enc el cb f Hi) as (r & f' & ?). exists r, f'. tauto.
  - destruct (open_ok k n f Hi Hl) as (f' & E & Hi'). by exists (Ok tt), f'.
  - destruct (stream_ok k op f Hi Hl) as (f' & E & Hi'). by exists (Ok tt), f'.
  - eexists (Ok tt), _. split; [done|]. split; [done|]. split; [by apply inv_free|done].
Qed.

Lemma fresh_inv f : fifd_fresh f -> fifd_inv f.
Proof.
  intros (Ha & (o & o' & Hc) & Ht & Ho & Hs).
  pose proof (reachable_inv now now_range (ackm f) _ (reach_new now (ackm f) Ha)) as Hr. split; [by eexists|].
  exists []. split; [split|]; try done.
  - by eapply txpim_ok_new.
  - by intros t ?%elem_of_nil.
  - by eapply cfq_ok_new.
  - unfold ossl_quic_cfq_new in Hc. destruct (alloc o) as [[] ?]; [|done]. injection Hc as Hc _. by rewrite <- Hc.
  - rewrite Hs. intros k s. by rewrite lookup_empty.
  - pose proof (ai_sent _ _ _ _ (ri_inv _ _ Hr)) as Hp. cbn [g_sent] in Hp. apply Permutation_nil in Hp.
    rewrite app_nil_r in Hp. by apply app_eq_nil in Hp as [-> _].
Qed.

Lemma fifd_reachable_inv f : fifd_reachable f -> fifd_inv f.
Proof.
  induction 1 as [f Hf|f o r f' _ IH Hl E]; [by apply fresh_inv|].
  destruct (fifd_step o f IH Hl) as (r0 & f0 & E0 & _ & Hi & _). congruence.
Qed.

(** ** Properties *)

Lemma retx_items_chain m l : forall fuel h, chain m h l -> (length l <= fuel)%nat -> retx_items fuel m h = l.
Proof.
  induction l as [|n l IH]; intros fuel h; cbn; [intros ->; by destruct fuel|].
  intros (-> & i & Ei & Hl) Hf. destruct fuel as [|fuel]; [lia|]. cbn. rewrite Ei. f_equal. apply IH; [done|lia].
Qed.

Lemma items_tracked T f t : fifd_ok T f -> t ∈ T -> carried_items f (t_ident t) = t_items t.
Proof.
  intros Hf Ht. destruct (fo_tracked _ _ Hf t Ht) as [K1 _ K3 _ _]. unfold carried_items. cbn [t_ident snd]. rewrite K1. cbn.
  apply retx_items_chain; [done|]. eapply chain_size; [done|]. pose proof (co_nodup _ (fo_cfq _ _ Hf)) as Hnd.
  rewrite !NoDup_app in Hnd. destruct Hnd as (_ & _ & Hnd & _). rewrite (fo_tx _ _ Hf) in Hnd.
  apply elem_of_Permutation in Ht as [T' HT]. rewrite HT in Hnd. cbn in Hnd. by apply NoDup_app in Hnd as [? _].
Qed.

Lemma tx_tracked T f : fifd_ok T f -> T ≫= t_items = (t_ident <$> T) ≫= carried_items f.
Proof.
  intros Hf. assert (Ht : forall t, t ∈ T -> carried_items f (t_ident t) = t_items t) by (intros; by eapply items_tracked).
  clear Hf. induction T as [|t T IH]; [done|]. cbn. rewrite IH by (intros; apply Ht; by right). by rewrite Ht by (by left).
Qed.

(** The packet behind an identity. *)
Lemma tracked_packet T f q : fifd_ok T f -> t_ident <$> T ≡ₚ ident_of <$> outstanding (ackm f) -> q ∈ outstanding (ackm f) ->
  exists t T', fifd_ok (t :: T') f /\ t_addr t = cb_arg q /\ t_space t = pkt_space q /\ t_chunks t = chunk_list f (ident_of q) /\
    t_items t = carried_items f (ident_of q) /\ pkts (fst (txpim f)) !! cb_arg q = Some (t_pkt t).
Proof.
  intros Hf HP Hq. assert (ident_of q ∈ t_ident <$> T) as (t & Et & Ht)%list_elem_of_fmap.
  { rewrite HP. by apply list_elem_of_fmap_2. }
  pose proof (items_tracked T f t Hf Ht) as Ei. pose proof Ht as Hin. apply elem_of_Permutation in Hin as [T' HT].
  destruct (fo_tracked _ _ Hf t Ht) as [K1 _ _ _ _]. assert (Ea : t_addr t = cb_arg q /\ t_space t = pkt_space q) by (by injection Et). destruct Ea as [Ea Es].
  exists t, T'. rewrite Et. split_and!; try done; [by rewrite <- HT| |by rewrite <- Ea].
  unfold chunk_list. cbn [t_ident fst snd]. by rewrite K1.
Qed.

(** C1: nothing that was sent is forgotten. In a system that starts empty and in which packets
    are made of new bytes and new control frames and then acknowledged, lost or discarded,
    every byte of every send stream is waiting to be sent, acknowledged, or in exactly one
    chunk of exactly one packet in flight; a FIN that was sent and not acknowledged is in
    a packet in flight; the control frames that are marked as transmitted are those that
    the packets in flight carry, once each; and the store has handed out a packet
    for every packet in flight. *)
Theorem fifd_nothing_forgotten f : fifd_reachable f ->
  (forall k q o v, streams f !! k = Some (q, o) -> 0 <= v < ossl_quic_sstream_get_cur_size q ->
     match ossl_uint_set_query (new_set q) v, ossl_uint_set_query (acked_set q) v with
     | false, false => cover k v (in_flight f) = 1%nat
     | true, true => False
     | _, _ => cover k v (in_flight f) = 0%nat
     end) /\
  (forall k q o, streams f !! k = Some (q, o) -> sent_final_size q = true -> acked_final_size q = false ->
     exists c, (k, c) ∈ in_flight f /\ has_fin c = true) /\
  tx_list (fst (cfq f)) ≡ₚ (ident_of <$> outstanding (ackm f)) ≫= carried_items f /\
  NoDup (tx_list (fst (cfq f))) /\
  ossl_quic_txpim_get_in_use (fst (txpim f)) = zlen (outstanding (ackm f)).
Proof.
  intros [_ (T & Hf & HP)]%fifd_reachable_inv. pose proof (in_flight_tracked T f Hf HP) as HF. split_and!.
  - intros k q o v E Hv. destruct (fo_streams _ _ Hf k _ E) as (_ & a & Hs & Hc). cbn in Hs.
    destruct (sim_offsets _ _ Hs) as (_ & _ & _ & O4 & _). unfold ossl_quic_sstream_get_cur_size in Hv. rewrite O4 in Hv.
    rewrite (query_iff a v New _ (sim_new_inv _ _ Hs) (sim_new _ _ Hs)), (query_iff a v Acked _ (sim_acked_inv _ _ Hs) (sim_acked _ _ Hs)).
    rewrite (cover_proper k v _ _ HF), (ca_cover _ _ _ Hc v Hv). destruct (st a v); repeat case_bool_decide; naive_solver.
  - intros k q o E H1' H2'. destruct (fo_streams _ _ Hf k _ E) as (_ & a & Hs & Hc). cbn in Hs.
    rewrite (sim_sent _ _ Hs) in H1'. rewrite (sim_acked_fin _ _ Hs) in H2'.
    destruct (ca_sent _ _ _ Hc H1' H2') as (c & Hin & Hfin). exists c. by rewrite HF.
  - rewrite (fo_tx _ _ Hf), (tx_tracked T f Hf). by rewrite HP.
  - pose proof (co_nodup _ (fo_cfq _ _ Hf)) as Hnd. rewrite !NoDup_app in Hnd. tauto.
  - unfold ossl_quic_txpim_get_in_use. rewrite (to_use _ _ (fo_txpim _ _ Hf)), !zlen_length, length_fmap. f_equal.
    apply Permutation_length in HP. by rewrite !length_fmap in HP.
Qed.

(** C32: no operation of the system is undefined: no assertion fails, no list is corrupted
    and no freed stream is used, although the caller frees streams while they are being
    reported on, and packets, streams and their operations do not fail. *)
Theorem fifd_never_undefined f o : fifd_reachable f -> fifd_legal o f ->
  exists r f', exec_fifd o f = (r, f') /\ r <> Ub /\ fifd_reachable f' /\
    match o with F_send _ _ _ _ | F_open _ _ | F_stream _ _ | F_close _ => r = Ok tt | _ => True end.
Proof.
  intros Hr Hl. destruct (fifd_step o f (fifd_reachable_inv f Hr) Hl) as (r & f' & E & Hub & _ & Hok).
  exists r, f'. split_and!; try done. by eapply fifd_next.
Qed.

(** The bytes of a packet whose end was handled. *)
Lemma settled_bytes (R : relation QUIC_SSTREAM) (u : QUIC_SSTREAM -> UINT_SET) (x : bstate) t T f f' k (s : SS) v :
  fifd_ok (t :: T) f -> fifd_ok T f' -> kept R (streams f) (streams f') ->
  (forall q q', R q q' -> head_offset (ring q') = head_offset (ring q)) ->
  (forall q q' a a', sim q a -> sim q' a' -> R q q' -> 0 <= v < size a -> size a' = size a -> st a v = InFlight ->
     st a' v <> InFlight -> st a' v = x) ->
  (forall q a, sim q a -> inv 2 (items (u q)) /\ forall v, contains (items (u q)) v <-> 0 <= v < size a /\ st a v = x) ->
  streams f' !! k = Some s -> cover k v (t_chunks t) <> 0%nat -> ossl_uint_set_query (u (fst s)) v = true.
Proof.
  intros Hf Hf' Hk Hz Hx Hu E' Hv. destruct (Hk k s E') as (s0 & E & Hg).
  destruct (fo_streams _ _ Hf k _ E) as (_ & a & Hs & Hc). destruct (fo_streams _ _ Hf' k _ E') as (_ & a' & Hs' & Hc').
  assert (Hr : 0 <= v < size a).
  { destruct (decide (0 <= v < size a)) as [|Hout]; [done|]. destruct Hv. apply cover_0. intros [k' c] Hin [Ek Hcv].
    cbn in Ek, Hcv. subst k'. destruct (ca_range _ _ _ Hc c) as [? ?]; [by apply elem_of_app; left|unfold has_data; lia|lia]. }
  assert (Ez : size a' = size a).
  { pose proof (Hz _ _ Hg) as Hg'. destruct (sim_offsets _ _ Hs) as (_ & _ & _ & O1 & _).
    destruct (sim_offsets _ _ Hs') as (_ & _ & _ & O2 & _). congruence. }
  pose proof (ca_cover _ _ _ Hc v Hr) as Hcov.
  change ((t :: T) ≫= t_chunks) with (t_chunks t ++ (T ≫= t_chunks)) in Hcov. rewrite cover_app in Hcov.
  case_bool_decide as Hst; [|lia].
  pose proof (ca_cover _ _ _ Hc' v ltac:(lia)) as Hcov'. case_bool_decide as Hst'; [lia|].
  destruct (Hu _ a' Hs') as [Hi Hcon]. rewrite (query_iff a' v x _ Hi Hcon). apply bool_decide_eq_true_2.
  split; [lia|]. by apply (Hx (fst s0) (fst s) a a').
Qed.

Lemma acked_bytes t T f f' k (s : SS) v : fifd_ok (t :: T) f -> fifd_ok T f' -> kept acks (streams f) (streams f') ->
  streams f' !! k = Some s -> cover k v (t_chunks t) <> 0%nat -> ossl_uint_set_query (acked_set (fst s)) v = true.
Proof.
  intros Hf Hf' Hk E' Hv. apply (settled_bytes acks acked_set Acked t T f f' k s v Hf Hf' Hk); try done.
  - by intros q1 q2 [].
  - intros q1 q2 a a' S1 S2 [Eg _ _] Hr Ez Hst Hst'. destruct (st a' v) eqn:Ev; [|done|done]. exfalso.
    assert (contains (items (new_set q2)) v) as Hc by (apply (sim_new _ _ S2); split; [lia|done]).
    rewrite Eg in Hc. apply (sim_new _ _ S1) in Hc as [_ ?]. congruence.
  - intros q1 a S1. split; [apply (sim_acked_inv _ _ S1)|apply (sim_acked _ _ S1)].
Qed.

Lemma lost_bytes t T f f' k (s : SS) v : fifd_ok (t :: T) f -> fifd_ok T f' -> kept loses (streams f) (streams f') ->
  streams f' !! k = Some s -> cover k v (t_chunks t) <> 0%nat -> ossl_uint_set_query (new_set (fst s)) v = true.
Proof.
  intros Hf Hf' Hk E' Hv. apply (settled_bytes loses new_set New t T f f' k s v Hf Hf' Hk); try done.
  - by intros q1 q2 [].
  - intros q1 q2 a a' S1 S2 [Eg _ _ _] Hr Ez Hst Hst'. destruct (st a' v) eqn:Ev; [done|done|]. exfalso.
    assert (contains (items (acked_set q2)) v) as Hc by (apply (sim_acked _ _ S2); split; [lia|done]).
    rewrite Eg in Hc. apply (sim_acked _ _ S1) in Hc as [_ ?]. congruence.
  - intros q1 a S1. split; [apply (sim_new_inv _ _ S1)|apply (sim_new _ _ S1)].
Qed.

(** What has become of the contents of the packet [q] of the system [f] in [f']: the bytes
    that it carried of the streams that remain are in [u], its control frames have the
    state that [fate] says, and its chunks are [told] to the caller. *)
Definition settles (u : QUIC_SSTREAM -> UINT_SET) (fate : QUIC_CFQ_ITEM_EX -> Z)
    (told : pn_space -> QUIC_TXPIM_CHUNK -> QUIC_FIFD D -> Prop) (q : OSSL_ACKM_TX_PKT) f f' : Prop :=
  (forall k s v, streams f' !! k = Some s -> cover k v (chunk_list f (ident_of q)) <> 0%nat ->
     ossl_uint_set_query (u (fst s)) v = true) /\
  (forall n i, n ∈ carried_items f (ident_of q) -> cfq_items (fst (cfq f)) !! n = Some i ->
     exists i', cfq_items (fst (cfq f')) !! n = Some i' /\ state i' = fate i) /\
  (forall k c, (k, c) ∈ chunk_list f (ident_of q) -> told (pkt_space q) c f').

(** C5: what happens to the contents of a packet in flight. When it is acknowledged, of the
    streams that still have a send buffer, every byte that it carried is acknowledged, so is
    the FIN, and the STOP_SENDING and RESET_STREAM frames are confirmed to the caller; its
    control frames are released. When it is lost, of these streams, every byte is to be sent
    again, so is the FIN, unless one was acknowledged, and the caller is told to generate the
    other frames again; the control frames are new again, except the unreliable ones, which
    are released; and the caller is told to generate the other frames of the packet again. *)
Theorem fifd_packet_fate f q : fifd_reachable f -> q ∈ outstanding (ackm f) ->
  (exists f', on_acked (cb_arg q) f = (Ok tt, f') /\
     settles acked_set (fun _ => -1) (acked_told (cb_arg q)) q f f') /\
  exists f' x, on_lost (cb_arg q) f = (Ok tt, f') /\ pkts (fst (txpim f)) !! cb_arg q = Some x /\
    settles new_set (fun i => if unreliable i then -1 else QUIC_CFQ_STATE_NEW) (lost_told (cb_arg q)) q f f' /\
    (forall u, u ∈ regen_of (cb_arg q) x -> u ∈ upcalls f').
Proof.
  intros [_ (T & Hf & HP)]%fifd_reachable_inv Hq.
  destruct (tracked_packet T f q Hf HP Hq) as (t & T' & Ht & Ea & Es & Ec & Ei & Ep). clear Hf HP Hq T.
  assert (Hin : forall k c, (k, c) ∈ chunk_list f (ident_of q) -> c ∈ chunks (t_pkt t)).
  { intros k c. rewrite <- Ec. by intros (? & [= _ ->] & ?)%list_elem_of_fmap. }
  unfold settles. rewrite <- Ea, <- Es, <- Ei. split.
  - destruct (on_acked_ok t T' f Ht) as (f' & E & Hf' & _ & Hk & Hi & Hc). exists f'. split; [done|]. split_and!; [|done|].
    + intros k s v. rewrite <- Ec. by apply (acked_bytes t T' f f' k s v).
    + intros k c Hkc. apply Hc. by eapply Hin.
  - destruct (on_lost_ok t T' f Ht) as (f' & E & Hf' & _ & Hk & Hi & [u Hu] & Hc). exists f', (t_pkt t).
    split; [done|]. split; [by rewrite Ea|]. split; [split_and!; [|done|]|].
    + intros k s v. rewrite <- Ec. by apply (lost_bytes t T' f f' k s v).
    + intros k c Hkc. apply Hc. by eapply Hin.
    + intros y Hy. rewrite Hu. apply elem_of_app. by left.
Qed.

Lemma dead_chunks p sp l f : (forall c, c ∈ l -> streams f !! key_of (stream_id c) sp = None) ->
  for_chunks (lost_chunk p sp) l f = (Ok tt, f).
Proof.
  induction l as [|c l IH]; intros Hd; [done|]. cbn [for_chunks]. erewrite bind_ok; [apply IH; intros; apply Hd; by right|].
  unfold lost_chunk. rewrite (bind_ok _ _ _ _ _ (get_sstream_run _ _ f)). by rewrite (Hd c ltac:(by left)).
Qed.

(** when a packet is lost whose chunks belong to streams without a send buffer, the caller
    is told nothing about these streams. The buffer of a stream is freed when the stream
    is reset, so that a RESET_STREAM frame that is lost is not sent again. *)
Theorem fifd_lost_reset_forgotten f q : fifd_reachable f -> q ∈ outstanding (ackm f) ->
  (forall k c, (k, c) ∈ chunk_list f (ident_of q) -> streams f !! k = None) ->
  exists f', on_lost (cb_arg q) f = (Ok tt, f') /\
    forall u, u ∈ upcalls f' -> u ∈ upcalls f \/ exists ty, u = Regen_frame ty UINT64_MAX (cb_arg q).
Proof.
  intros [_ (T & Hf & HP)]%fifd_reachable_inv Hq Hd.
  destruct (tracked_packet T f q Hf HP Hq) as (t & T' & Ht & <- & _ & Ec & _ & _). rewrite <- Ec in Hd. clear Hf HP Hq Ec T.
  unfold on_lost. rewrite (bind_ok _ _ _ _ _ (pkt_at_ok t T' f Ht)).
  rewrite (tk_fifd _ _ (fo_tracked _ _ Ht t ltac:(by left))). rewrite (bind_ok _ _ f tt f eq_refl).
  destruct (load_chunks_ok t T' f Ht) as (l & t1 & HPl & Htt & Hy & E1 & E2).
  rewrite (bind_ok _ _ _ _ _ E1), (bind_ok _ _ _ _ _ E2), ztake_all. erewrite bind_ok.
  2: { apply dead_chunks. intros c Hc. apply (Hd _ c). unfold t_chunks, keyed_of. apply list_elem_of_fmap.
       exists c. by rewrite <- HPl. }
  destruct (for_items_ok t T' f Ht _ _ (upd_txpim (t1, []) f) lost_takes_back eq_refl) as (q' & o & E4 & Hq & Hl & HT & _).
  rewrite (bind_ok _ _ _ _ _ E4).
  destruct (regen_flags_ok (t_addr t) (t_pkt t) (in_txpim (ossl_quic_txpim_pkt_release (t_addr t)))
    (upd_cfq (q', o) (upd_txpim (t1, []) f))) as (f3 & E5 & [P1 P2 P3] & S3 & U3). rewrite E5. cbn in P1, P2, P3, S3, U3.
  destruct (release_packet_ok t T' f Ht f3 q' o t1) as (t2 & E6 & _); try done.
  - apply (streams_ok_sub _ (streams f)); [done|]. apply (dead_streams (t_chunks t)); [exact Hd|apply (fo_streams _ _ Ht)].
  - rewrite E6. eexists. split; [done|]. cbn. rewrite U3. intros u [Hu|Hu]%elem_of_app; [right|by left].
    unfold regen_of in Hu. repeat (case_match; cbn in Hu); set_solver.
Qed.

End System.
