(* ===== verification/FifdExamples.v ===== *)
(** Runs of the dispatcher of frames in flight on concrete inputs: the witnesses of its
    theorems. *)

From stdpp Require Import base list numbers gmap sorting.
From Stdlib Require Import ZArith Lia.
From S2P Require Import Prelude SafeMath Vlint Wire Frames UintSet RingBuf SStream Statm NewReno LHash Ackm AckmTheory AckmInv AckmTx AckmRuns Cfq Txpim Fifd FifdTheory FifdRuns.

#[local] Open Scope cfun_scope.

(** ** A sorting function *)

Section Sort.
Context {A : Type} (cmp : A -> A -> Z).

Fixpoint insert_by (x : A) (l : list A) : list A :=
  match l with
  | [] => [x]
  | y :: l' => if cmp x y <=? 0 then x :: y :: l' else y :: insert_by x l'
  end.

Definition sort_by (l : list A) : list A := foldr insert_by [] l.

Lemma insert_by_perm x l : insert_by x l ≡ₚ x :: l.
Proof.
  induction l as [|y l IH]; cbn; [done|]. destruct (cmp x y <=? 0); [done|]. rewrite IH. apply Permutation_swap.
Qed.

Lemma sort_by_perm l : sort_by l ≡ₚ l.
Proof. induction l as [|x l IH]; cbn; [done|]. by rewrite insert_by_perm, IH. Qed.

Lemma insert_by_sorted x l : (forall x y, cmp x y <= 0 \/ cmp y x <= 0) ->
  Sorted (fun x y => cmp x y <= 0) l -> Sorted (fun x y => cmp x y <= 0) (insert_by x l).
Proof.
  intros Ht. induction 1 as [|y l Hs IH Hy]; cbn; [by repeat constructor|].
  destruct (Z.leb_spec (cmp x y) 0) as [Hle|Hgt]; [by repeat constructor|]. constructor; [done|].
  assert (cmp y x <= 0) by (destruct (Ht x y); [lia|done]). destruct l as [|z l]; cbn; [by constructor|].
  inversion Hy. destruct (cmp x z <=? 0); by constructor.
Qed.

Lemma sort_by_sorted l : (forall x y, cmp x y <= 0 \/ cmp y x <= 0) -> Sorted (fun x y => cmp x y <= 0) (sort_by l).
Proof. intros Ht. induction l as [|x l IH]; cbn; [constructor|]. by apply insert_by_sorted. Qed.

End Sort.

#[local] Instance insertion_sort : QSort.
Proof.
  refine {| qsort := @sort_by |}.
  - apply @sort_by_perm.
  - intros. by apply sort_by_sorted.
Defined.

(** ** Deciding that chunks fit *)

Definition covers_byte (u : UINT_SET) (v : Z) : bool :=
  existsb (fun r => (UintSet.start r <=? v) && (v <=? UintSet.end_ r)) (items u).

Definition chunk_fits (k : skey) (cs : list keyed) (q : QUIC_SSTREAM) (x : keyed) : bool :=
  negb (bool_decide (x.1 = k)) ||
  forallb (fun v => (cover k v cs =? 1)%nat && covers_byte (new_set q) v)
          (seqZ (chunk_start x.2) (chunk_end x.2 - chunk_start x.2 + 1)) &&
  (negb (has_fin x.2) || have_final_size q && negb (stream_id x.2 =? UINT64_MAX) &&
                         (u64 (chunk_end x.2 + 1) =? head_offset (ring q))).

Lemma covers_byte_ok u v : covers_byte u v = true -> contains (items u) v.
Proof.
  unfold covers_byte. rewrite existsb_exists. intros (r & Hr & Hv). exists r. split; [by apply list_elem_of_In|].
  unfold in_range. lia.
Qed.

Lemma fits_ok k cs q : forallb (chunk_fits k cs q) cs = true -> fit k cs q.
Proof.
  rewrite forallb_forall. intros Hall.
  assert (Hc : forall c, (k, c) ∈ cs -> chunk_fits k cs q (k, c) = true) by (intros; by apply Hall, list_elem_of_In).
  split.
  - intros v. destruct (cover k v cs) as [|n] eqn:E; [by left|right].
    assert (exists c, (k, c) ∈ cs /\ chunk_start c <= v <= chunk_end c) as (c & Hin & Hv).
    { unfold cover in E. destruct (filter (carries k v) cs) as [|[k' c] l] eqn:Ef; [done|].
      assert ((k', c) ∈ filter (carries k v) cs) as Hin by (rewrite Ef; by left).
      apply list_elem_of_filter in Hin as [[Hk Hv] Hin]. cbn in Hk, Hv. subst k'. by exists c. }
    specialize (Hc c Hin). unfold chunk_fits in Hc. cbn [fst snd] in Hc. rewrite bool_decide_eq_true_2 in Hc by done. cbn [negb orb] in Hc.
    apply andb_prop in Hc as [Hc _]. rewrite forallb_forall in Hc. specialize (Hc v). rewrite <- list_elem_of_In in Hc.
    apply andb_prop in Hc as [H1 H2]; [|apply elem_of_seqZ; lia]. split; [rewrite <- E; by apply Nat.eqb_eq|]. by apply covers_byte_ok.
  - intros c Hin Hf. specialize (Hc c Hin). unfold chunk_fits in Hc. cbn [fst snd] in Hc.
    rewrite bool_decide_eq_true_2 in Hc by done. rewrite Hf in Hc. cbn [negb orb] in Hc.
    rewrite !andb_true_iff, negb_true_iff, Z.eqb_neq, Z.eqb_eq in Hc. tauto.
Qed.

Lemma streams_fit_ok cs (m : sstreams) :
  forallb (fun x => forallb (chunk_fits x.1 cs (fst x.2)) cs) (map_to_list m) = true -> streams_fit cs m.
Proof.
  rewrite forallb_forall. intros Hall k s E. apply fits_ok. apply (Hall (k, s)), list_elem_of_In. by apply elem_of_map_to_list.
Qed.

(** ** A run *)

Module FifdDemo.

#[local] Instance nr_cc : CongestionControl NR := Demo.cc.
#[local] Instance nr_laws : CongestionControlLaws NR := Demo.laws.

(** A caller that frees a stream that is finished, whatever it is told about it. *)
Definition free_finished (sid : Z) (m : sstreams) : sstreams :=
  match m !! Stream sid with
  | Some s => if finished s then delete (Stream sid) m else m
  | None => m
  end.

Definition told_about (u : upcall) : Z :=
  match u with Regen_frame _ sid _ | Confirm_frame _ sid _ | Sstream_updated sid => sid end.

Lemma free_finished_sub sid (m : sstreams) : free_finished sid m ⊆ m.
Proof. unfold free_finished. repeat case_match; try done. apply delete_subseteq. Qed.

Lemma free_finished_keeps sid (m : sstreams) k (s : SS) :
  m !! k = Some s -> finished s = false -> free_finished sid m !! k = Some s.
Proof.
  intros E Hs. unfold free_finished. destruct (m !! Stream sid) as [s'|] eqn:E'; [|done].
  destruct (finished s') eqn:Hs'; [|done]. rewrite lookup_delete_ne; [done|]. intros <-. congruence.
Qed.

Lemma free_finished_frees sid (m : sstreams) (s : SS) :
  m !! Stream sid = Some s -> finished s = true -> free_finished sid m !! Stream sid = None.
Proof. intros E Hs. unfold free_finished. rewrite E, Hs. apply lookup_delete_eq. Qed.

#[local] Instance freeing : Caller := {|
  react u := free_finished (told_about u);
  react_frees _ := free_finished_sub _;
  react_confirm _ sid _ := free_finished_keeps sid;
  react_updated := free_finished_frees
|}.

Definition zeros (n : Z) : list Z := zrepeat 0 n.

Lemma zeros_len n : 0 <= n -> zlen (zeros n) = n.
Proof. apply zlen_zrepeat. Qed.

Notation clock := Demo.clock.

Definition empty : QUIC_FIFD NR := mkFifd Demo.start (Cfq.mkCfq ∅ [] [] [] [], []) (mkTxpim ∅ [] 0, []) ∅ [].

Lemma empty_fresh : fifd_fresh empty.
Proof. split; [exact Demo.start_fresh|]. split; [by exists [], []|]. done. Qed.

Fixpoint perform (os : list fifd_op) (f : QUIC_FIFD NR) : QUIC_FIFD NR :=
  match os with
  | [] => f
  | o :: os' => perform os' (snd (exec_fifd clock zeros o f))
  end.

Fixpoint all_legal (os : list fifd_op) (f : QUIC_FIFD NR) : Prop :=
  match os with
  | [] => True
  | o :: os' => fifd_legal o f /\ all_legal os' (snd (exec_fifd clock zeros o f))
  end.

Lemma fifd_perform_reachable os : forall f, fifd_reachable clock zeros f -> all_legal os f ->
  fifd_reachable clock zeros (perform os f).
Proof.
  induction os as [|o os IH]; intros f Hr Hl; [done|]. destruct Hl as [Hl Hls]. cbn [perform].
  destruct (exec_fifd clock zeros o f) as [r f'] eqn:E. apply IH; [|done]. by eapply fifd_next.
Qed.

Definition packet (pn t : Z) : OSSL_ACKM_TX_PKT := mkTxPkt pn 1200 t QUIC_PN_INVALID QUIC_PN_SPACE_APP true true 0.
Definition no_flags : frame_flags := mkFlags false false false false false false.

(** A stream of five bytes is sent in two packets, the second with the FIN; the first also
    has a NEW_CONNECTION_ID and a MAX_DATA frame, the second a STOP_SENDING frame. A third
    packet resets another stream. *)
Definition sent : list fifd_op :=
  [F_open (Stream 4) 16; F_stream (Stream 4) (op_append [1; 2; 3; 4; 5]); F_stream (Stream 4) op_fin;
   F_add_frame 1 2 0x18 0 (Some [0x18]) 1 (Some 70);
   F_send (packet 0 100) (mkFlags false true false false false false) [0] [mkChunk 4 0 2 false false false];
   F_send (packet 1 110) no_flags [] [mkChunk 4 UINT64_MAX 0 false true false; mkChunk 4 3 4 true false false];
   F_send (packet 2 120) no_flags [] [mkChunk 8 UINT64_MAX 0 false false true]].

Definition flying : QUIC_FIFD NR := perform sent empty.

Ltac fifd_is_legal :=
  repeat (split; [cbn [fifd_legal legal packet];
    lazymatch goal with
    | |- (_ /\ tx_typed _ /\ _) /\ _ =>
        split; [split; [vm_compute; reflexivity|]; split; [|split; vm_compute; reflexivity];
                split; [vm_compute; split; congruence..|left; reflexivity]|];
        split; [vm_compute; reflexivity|]; split; [repeat constructor; set_solver|];
        split; [vm_compute; set_solver|]; split; [vm_compute; congruence|];
        split; [apply streams_fit_ok; vm_compute; reflexivity|]; split; [done|];
        split; [reflexivity|vm_compute; reflexivity]
    | |- _ /\ Forall _ _ => split; [lia|vm_compute; constructor]
    | |- is_Some _ /\ _ => split; [vm_compute; eauto|done]
    | |- _ => done
    end|]); exact I.

Lemma sent_legal : all_legal sent empty.
Proof. fifd_is_legal. Qed.

Lemma flying_reachable : fifd_reachable clock zeros flying.
Proof. exact (fifd_perform_reachable sent empty (fifd_start clock zeros empty empty_fresh) sent_legal). Qed.

Lemma fifd_nothing_forgotten_witness :
  length (outstanding (ackm flying)) = 3%nat /\ tx_list (fst (cfq flying)) = [0] /\
  cover (Stream 4) 1 (in_flight flying) = 1%nat /\ exists c, (Stream 4, c) ∈ in_flight flying /\ has_fin c = true.
Proof.
  destruct (fifd_nothing_forgotten clock Demo.clock_range zeros zeros_len flying flying_reachable) as (Hb & Hf & _).
  split; [vm_compute; reflexivity|]. split; [vm_compute; reflexivity|].
  destruct (streams flying !! Stream 4) as [[q o]|] eqn:E; [|vm_compute in E; discriminate].
  specialize (Hb (Stream 4) q o 1 E). specialize (Hf (Stream 4) q o E). vm_compute in E. injection E as <- <-. split.
  - apply Hb. vm_compute. split; congruence.
  - apply Hf; vm_compute; reflexivity.
Defined.

(** An acknowledgement of all packets, in the course of which the stream is freed. *)
Lemma fifd_never_undefined_witness :
  let o := F_ackm (Op_ack (Demo.frame [mkAckRange 0 2]) QUIC_PN_SPACE_APP 200) in
  fifd_legal o flying /\ is_Some (streams flying !! Stream 4) /\
  exists r f', exec_fifd clock zeros o flying = (r, f') /\ r <> Ub /\ fifd_reachable clock zeros f' /\
               streams f' !! Stream 4 = None.
Proof.
  cbv zeta. assert (Hl : fifd_legal (F_ackm (Op_ack (Demo.frame [mkAckRange 0 2]) QUIC_PN_SPACE_APP 200)) flying).
  { split; [|done]. split; [vm_compute; reflexivity|]. split; [|vm_compute; split; congruence]. split; [done|done| |].
    - split; [done|]. split; [|done]. by intros r ?%elem_of_nil.
    - repeat constructor; cbn; unfold QUIC_PN_LIMIT; lia. }
  split; [exact Hl|]. split; [vm_compute; eauto|].
  destruct (fifd_never_undefined clock Demo.clock_range zeros zeros_len flying _ flying_reachable Hl) as (r & f' & E & Hr & Hf & _).
  exists r, f'. split; [exact E|]. split; [exact Hr|]. split; [exact Hf|].
  assert (streams (snd (exec_fifd clock zeros
    (F_ackm (Op_ack (Demo.frame [mkAckRange 0 2]) QUIC_PN_SPACE_APP 200)) flying)) !! Stream 4 = None) as Hn
    by (vm_compute; reflexivity).
  by rewrite E in Hn.
Defined.

(** The packets as the ACK manager knows them. *)
Definition first : OSSL_ACKM_TX_PKT := with_arg 0 (packet 0 100).
Definition second : OSSL_ACKM_TX_PKT := with_arg 1 (packet 1 110).
Definition third : OSSL_ACKM_TX_PKT := with_arg 2 (packet 2 120).

Lemma first_outstanding : first ∈ outstanding (ackm flying).
Proof. vm_compute. left. Qed.

Lemma second_outstanding : second ∈ outstanding (ackm flying).
Proof. vm_compute. right. left. Qed.

Lemma third_outstanding : third ∈ outstanding (ackm flying).
Proof. vm_compute. right. right. left. Qed.

(** The first packet is lost, and then, in another run, the second. *)
Lemma fifd_packet_fate_witness :
  carried_items flying (ident_of first) = [0] /\ cover (Stream 4) 1 (chunk_list flying (ident_of first)) = 1%nat /\
  (exists f', on_lost (cb_arg first) flying = (Ok tt, f') /\
    Regen_frame OSSL_QUIC_FRAME_TYPE_MAX_DATA UINT64_MAX 0 ∈ upcalls f' /\
    exists i, cfq_items (fst (cfq f')) !! 0 = Some i /\ state i = QUIC_CFQ_STATE_NEW) /\
  exists f', on_lost (cb_arg second) flying = (Ok tt, f') /\
    Regen_frame OSSL_QUIC_FRAME_TYPE_STOP_SENDING 4 1 ∈ upcalls f'.
Proof.
  split; [vm_compute; reflexivity|]. split; [vm_compute; reflexivity|]. split.
  - destruct (fifd_packet_fate clock Demo.clock_range zeros zeros_len flying first flying_reachable first_outstanding)
      as (_ & f' & x & E & Ex & (_ & Hi & _) & Hu).
    exists f'. split; [exact E|]. split.
    + apply Hu. vm_compute in Ex. injection Ex as <-. vm_compute. left.
    + destruct (cfq_items (fst (cfq flying)) !! 0) as [i|] eqn:Ei; [|vm_compute in Ei; discriminate].
      destruct (Hi 0 i) as (i' & Ei' & Es); [vm_compute; left|exact Ei|]. exists i'. split; [exact Ei'|].
      vm_compute in Ei. injection Ei as <-. exact Es.
  - destruct (fifd_packet_fate clock Demo.clock_range zeros zeros_len flying second flying_reachable second_outstanding)
      as (_ & f' & x & E & _ & (_ & _ & Ht) & _).
    exists f'. split; [exact E|]. set (c := mkChunk 4 UINT64_MAX 0 false true false).
    destruct (streams (snd (on_lost (cb_arg second) flying)) !! Stream 4) as [s|] eqn:Es; [|vm_compute in Es; discriminate].
    rewrite E in Es. destruct (Ht (Stream 4) c) with (s := s) as [_ Hc]; [vm_compute; right; left|exact Es|].
    apply Hc; [discriminate|reflexivity].
Defined.

Lemma fifd_lost_reset_forgotten_witness :
  (exists c, (Stream 8, c) ∈ chunk_list flying (ident_of third) /\ has_reset_stream c = true) /\
  exists f', on_lost (cb_arg third) flying = (Ok tt, f') /\
    Regen_frame OSSL_QUIC_FRAME_TYPE_RESET_STREAM 8 2 ∉ upcalls f'.
Proof.
  split; [eexists; split; [vm_compute; left|reflexivity]|].
  destruct (fifd_lost_reset_forgotten clock Demo.clock_range zeros zeros_len flying third flying_reachable third_outstanding)
    as (f' & E & Hu).
  - intros k c Hc.
    replace (chunk_list flying (ident_of third)) with [(Stream 8, mkChunk 8 UINT64_MAX 0 false false true)] in Hc
      by (vm_compute; reflexivity).
    apply list_elem_of_singleton in Hc. injection Hc as -> _. vm_compute. reflexivity.
  - exists f'. split; [exact E|]. intros [Hin|[ty Hin]]%Hu; [|discriminate].
    replace (upcalls flying) with (@nil upcall) in Hin by (vm_compute; reflexivity). by apply elem_of_nil in Hin.
Defined.

(** The chunk of a FIN on an empty stream wraps around: it ends at UINT64_MAX, so it is
    taken to have data. Its loss makes all offsets new; the length of this range is 0 at
    64 bits, so that the FIN is sent again, and nothing else. *)
Example empty_fin_sent_again :
  let fin := mkChunk 4 0 UINT64_MAX true false false in
  let f := perform [F_open (Stream 4) 16; F_stream (Stream 4) op_fin] empty in
  let m := commit_chunk QUIC_PN_SPACE_APP fin ;;; lost_chunk 0 QUIC_PN_SPACE_APP fin ;;;
           let! h := in_stream (Stream 4) (ossl_quic_sstream_get_stream_frame 0 2) in
           commit_chunk QUIC_PN_SPACE_APP fin ;;;
           let! again := in_stream (Stream 4) ossl_quic_sstream_has_pending in ret (h, again) in
  fst (m f) = Ok ((mkHdr 0 0 true, []), false).
Proof. vm_compute. reflexivity. Qed.

End FifdDemo.
