(* ===== verification/StreamList.v ===== *)
(** The circular lists of streams: the first part of ssl/quic/quic_stream_map.c.

    A list has a head, which is in the stream map, and a node in each stream. Nodes
    have the two pointers of the source, in a heap of the nodes of one list; NULL is
    [None], and an access to a node that does not exist is undefined. The second part
    shows that the pointer operations implement those of a sequence of streams. *)

From stdpp Require Import base numbers gmap list.
From Stdlib Require Import ZArith Lia.
From S2P Require Import Prelude.

#[local] Open Scope cfun_scope.

(** ** Definitions *)

Inductive node := Head | Node (s : nat).

#[export] Instance node_eq_dec : EqDecision node.
Proof. solve_decision. Defined.

#[export] Instance node_countable : Countable node.
Proof.
  refine (inj_countable' (fun n => match n with Head => None | Node s => Some s end)
                         (fun x => match x with None => Head | Some s => Node s end) _).
  by intros [].
Defined.

#[export] Instance Node_inj : Inj (=) (=) Node.
Proof. by intros ? ? [=]. Qed.

Record QUIC_STREAM_LIST_NODE := mkLink { prev : option node; next : option node }.

Abbreviation links := (gmap node QUIC_STREAM_LIST_NODE).

(** The node of a stream that is in no list. *)
Definition unlinked : QUIC_STREAM_LIST_NODE := mkLink None None.

Definition link_at (n : node) : M links QUIC_STREAM_LIST_NODE :=
  fun s => match s !! n with Some k => (Ok k, s) | None => (Ub, s) end.

Definition set_prev (n : node) (v : option node) : M links unit :=
  let! k := link_at n in modify <[n := mkLink v (next k)]>.

Definition set_next (n : node) (v : option node) : M links unit :=
  let! k := link_at n in modify <[n := mkLink (prev k) v]>.

(** An assignment through a pointer. *)
Definition through (p : option node) (f : node -> M links unit) : M links unit :=
  match p with Some n => f n | None => undef end.

Definition list_insert_tail (l n : node) : M links unit :=
  let! kl := link_at l in
  let! kn := link_at n in
  assert_ (bool_decide (prev kn = None) && bool_decide (next kn = None) &&
           bool_decide (prev kl <> None) && bool_decide (next kl <> None)) ;;;
  set_prev n (prev kl) ;;;
  (let! kn := link_at n in through (prev kn) (fun p => set_next p (Some n))) ;;;
  set_prev l (Some n) ;;;
  set_next n (Some l).

Definition list_remove (l n : node) : M links unit :=
  let! kn := link_at n in
  assert_ (bool_decide (prev kn <> None) && bool_decide (next kn <> None) &&
           bool_decide (prev kn <> Some n) && bool_decide (next kn <> Some n)) ;;;
  through (prev kn) (fun p => set_next p (next kn)) ;;;
  (let! kn := link_at n in through (next kn) (fun q => set_prev q (prev kn))) ;;;
  set_prev n None ;;;
  set_next n None.

(** The stream that a node is in; the head is in none. *)
Definition stream_of (n : node) : option nat := match n with Head => None | Node s => Some s end.

Definition list_next (l n : node) : M links (option nat) :=
  let! kn := link_at n in
  let! kl := link_at l in
  assert_ (bool_decide (prev kn <> None) && bool_decide (next kn <> None) &&
           (bool_decide (n = l) || (bool_decide (prev kn <> Some n) && bool_decide (next kn <> Some n))) &&
           bool_decide (prev kl <> None) && bool_decide (next kl <> None)) ;;;
  match next kn with
  | None => undef
  | Some n1 =>
      let! n2 :=
        if bool_decide (n1 = l) then
          let! k1 := link_at n1 in
          match next k1 with Some n2 => ret n2 | None => undef end
        else ret n1 in
      if bool_decide (n2 = l) then ret None
      else match stream_of n2 with Some s => ret (Some s) | None => undef end
  end.

(** ** The sequence that a list represents *)

(** The node after [a] is [b], and the node before [b] is [a]. *)
Definition nxt (s : links) (a : node) : option node := s !! a ≫= next.
Definition prv (s : links) (b : node) : option node := s !! b ≫= prev.
Definition adj (s : links) (a b : node) : Prop := nxt s a = Some b /\ prv s b = Some a.

(** The nodes from [a] to [b], with [l] between them. *)
Fixpoint seg (s : links) (a : node) (l : list node) (b : node) : Prop :=
  match l with
  | [] => adj s a b
  | x :: l' => adj s a x /\ seg s x l' b
  end.

(** The heap [s] has the nodes of the streams [D] and of the head, and the list has the
    streams [xs]. *)
Record list_rep (s : links) (D : gset nat) (xs : list nat) : Prop := {
  rep_seg : seg s Head (Node <$> xs) Head;
  rep_nodup : NoDup xs;
  rep_in x : x ∈ xs -> x ∈ D;
  rep_out x : x ∈ D -> x ∉ xs -> s !! Node x = Some unlinked;
  rep_gone x : x ∉ D -> s !! Node x = None
}.

Lemma seg_app s a l x l' b : seg s a (l ++ x :: l') b <-> seg s a l x /\ seg s x l' b.
Proof. revert a. induction l as [|y l IH]; intros a; cbn; [done|]. rewrite IH. tauto. Qed.

(** A segment depends on the links forward from its nodes but the last, and on the links
    back from its nodes but the first. *)
Lemma seg_frame s s' a l b :
  (forall n, n = a \/ n ∈ l -> nxt s' n = nxt s n) ->
  (forall n, n = b \/ n ∈ l -> prv s' n = prv s n) ->
  seg s a l b -> seg s' a l b.
Proof.
  revert a. induction l as [|x l IH]; intros a Hn Hp; cbn.
  - intros [? ?]. split; [rewrite Hn|rewrite Hp]; tauto.
  - intros [[H1 H2] H3]. split; [split|apply IH; [..|done]].
    + by rewrite Hn; [|left].
    + rewrite Hp; [done|]. right. left.
    + intros n [->|?]; apply Hn; right; [left|by right].
    + intros n [->|?]; apply Hp; [by left|]. right. by right.
Qed.

Lemma nxt_insert s a k n : nxt (<[a := k]> s) n = if decide (a = n) then next k else nxt s n.
Proof. unfold nxt. case_decide; [subst; by rewrite lookup_insert_eq|by rewrite lookup_insert_ne]. Qed.

Lemma prv_insert s a k n : prv (<[a := k]> s) n = if decide (a = n) then prev k else prv s n.
Proof. unfold prv. case_decide; [subst; by rewrite lookup_insert_eq|by rewrite lookup_insert_ne]. Qed.

(** *** Assignments *)

Definition setn (n : node) (v : option node) (s : links) : links := <[n := mkLink (prv s n) v]> s.
Definition setp (n : node) (v : option node) (s : links) : links := <[n := mkLink v (nxt s n)]> s.

Lemma nxt_setn n v s m : nxt (setn n v s) m = if decide (n = m) then v else nxt s m.
Proof. apply nxt_insert. Qed.
Lemma prv_setn n v s m : prv (setn n v s) m = prv s m.
Proof. unfold setn. rewrite prv_insert. case_decide; by subst. Qed.
Lemma nxt_setp n v s m : nxt (setp n v s) m = nxt s m.
Proof. unfold setp. rewrite nxt_insert. case_decide; by subst. Qed.
Lemma prv_setp n v s m : prv (setp n v s) m = if decide (n = m) then v else prv s m.
Proof. apply prv_insert. Qed.

Create Rewrite HintDb links_simpl.
#[export] Hint Rewrite nxt_setn prv_setn nxt_setp prv_setp : links_simpl.

Lemma setn_is_Some n v s m : is_Some (s !! m) -> is_Some (setn n v s !! m).
Proof. unfold setn. intros. apply lookup_insert_is_Some. destruct (decide (n = m)); auto. Qed.
Lemma setp_is_Some n v s m : is_Some (s !! m) -> is_Some (setp n v s !! m).
Proof. unfold setp. intros. apply lookup_insert_is_Some. destruct (decide (n = m)); auto. Qed.

#[export] Hint Resolve setn_is_Some setp_is_Some : core.

Lemma lookup_setn_ne n v s m : n <> m -> setn n v s !! m = s !! m.
Proof. apply lookup_insert_ne. Qed.
Lemma lookup_setp_ne n v s m : n <> m -> setp n v s !! m = s !! m.
Proof. apply lookup_insert_ne. Qed.

Lemma link_at_run n s : is_Some (s !! n) -> link_at n s = (Ok (mkLink (prv s n) (nxt s n)), s).
Proof. intros [k E]. unfold link_at, prv, nxt. rewrite E. by destruct k. Qed.

Lemma set_next_run n v s : is_Some (s !! n) -> set_next n v s = (Ok tt, setn n v s).
Proof. intros H. unfold set_next. by rewrite (bind_ok _ _ _ _ _ (link_at_run n s H)). Qed.

Lemma set_prev_run n v s : is_Some (s !! n) -> set_prev n v s = (Ok tt, setp n v s).
Proof. intros H. unfold set_prev. by rewrite (bind_ok _ _ _ _ _ (link_at_run n s H)). Qed.

Lemma nxt_is_Some s n m : nxt s n = Some m -> is_Some (s !! n).
Proof. unfold nxt. destruct (s !! n); [done|discriminate]. Qed.
Lemma prv_is_Some s n m : prv s n = Some m -> is_Some (s !! n).
Proof. unfold prv. destruct (s !! n); [done|discriminate]. Qed.

Lemma node_lookup s n : is_Some (s !! n) -> s !! n = Some (mkLink (prv s n) (nxt s n)).
Proof. intros [k E]. unfold prv, nxt. rewrite E. by destruct k. Qed.

(** *** The ends of a segment *)

Definition first_or (l : list node) (b : node) : node := default b (list.head l).
Definition last_or (a : node) (l : list node) : node := default a (list.last l).

Lemma last_or_cons a x l : last_or a (x :: l) = last_or x l.
Proof. unfold last_or. rewrite last_cons. by destruct (list.last l). Qed.

Lemma seg_nxt s a l b : seg s a l b -> nxt s a = Some (first_or l b).
Proof. destruct l; cbn; [by intros [? _]|]. by intros [[? _] _]. Qed.

Lemma seg_prv s a l b : seg s a l b -> prv s b = Some (last_or a l).
Proof.
  revert a. induction l as [|x l IH]; intros a; cbn; [by intros [_ ?]|].
  intros [_ H]. by rewrite (IH x H), last_or_cons.
Qed.

Lemma last_or_in a l : last_or a l = a \/ last_or a l ∈ l.
Proof.
  unfold last_or. destruct (list.last l) eqn:E; cbn; [|by left]. right. apply last_Some in E as [l' ->].
  apply elem_of_app. right. left.
Qed.

Lemma last_or_app a l x : last_or a (l ++ [x]) = x.
Proof. unfold last_or. by rewrite last_snoc. Qed.

(** A segment that ends in a new node: only the link of its last node changes. *)
Lemma seg_redirect s s' a l b b' :
  seg s a l b -> NoDup (a :: l) -> b' ∉ l ->
  (forall n, n = a \/ n ∈ l -> nxt s' n = if decide (n = last_or a l) then Some b' else nxt s n) ->
  (forall n, n ∈ l -> prv s' n = prv s n) -> prv s' b' = Some (last_or a l) ->
  seg s' a l b'.
Proof.
  revert a. induction l as [|x l IH]; intros a Hs Hnd Hb Hn Hp Hb'; cbn in *.
  - split; [|done]. rewrite Hn by auto. by rewrite decide_True.
  - destruct Hs as [[H1 H2] H3]. apply NoDup_cons in Hnd as [Ha Hnd].
    rewrite last_or_cons in *. assert (a <> last_or x l).
    { destruct (last_or_in x l) as [->|Hi]; intros ->; apply Ha; [left|by right]. }
    split.
    + split; [rewrite Hn by auto; by rewrite decide_False|]. rewrite Hp by left. done.
    + apply IH; try done.
      * intros ?. apply Hb. by right.
      * intros n [->|?]; apply Hn; right; [left|by right].
      * intros n ?. apply Hp. by right.
Qed.

(** *** The operations on the sequence *)

Lemma rep_head_links s D xs : list_rep s D xs ->
  nxt s Head = Some (first_or (Node <$> xs) Head) /\ prv s Head = Some (last_or Head (Node <$> xs)) /\
  is_Some (s !! Head).
Proof.
  intros [Hs _ _ _ _]. pose proof (seg_nxt _ _ _ _ Hs). split; [done|]. split; [by apply seg_prv|].
  by eapply nxt_is_Some.
Qed.

Lemma rep_member s D l x r : list_rep s D (l ++ x :: r) ->
  nxt s (Node x) = Some (first_or (Node <$> r) Head) /\ prv s (Node x) = Some (last_or Head (Node <$> l)) /\
  is_Some (s !! Node x).
Proof.
  intros [Hs _ _ _ _]. rewrite fmap_app, fmap_cons, seg_app in Hs. destruct Hs as [H1 H2].
  pose proof (seg_nxt _ _ _ _ H2). split; [done|]. split; [by eapply seg_prv|]. by eapply nxt_is_Some.
Qed.

Lemma rep_exists s D xs n : list_rep s D xs -> n = Head \/ n ∈ Node <$> xs -> is_Some (s !! n).
Proof.
  intros Hr [-> |(x & -> & (l & r & ->)%list_elem_of_split)%list_elem_of_fmap].
  - by eapply rep_head_links.
  - by eapply rep_member.
Qed.

Lemma rep_linked s D xs x : list_rep s D xs -> x ∈ D ->
  exists k, s !! Node x = Some k /\ (next k <> None <-> x ∈ xs).
Proof.
  intros Hr Hx. destruct (decide (x ∈ xs)) as [Hi|Hi].
  - apply list_elem_of_split in Hi as (l & r & ->). destruct (rep_member _ _ _ _ _ Hr) as (Hn & _ & Hsome).
    eexists. split; [by apply node_lookup|]. cbn. rewrite Hn. split; [|done]. intros _.
    apply elem_of_app. right. left.
  - exists unlinked. split; [by eapply rep_out|]. cbn. tauto.
Qed.

Lemma nodes_nodup (xs : list nat) : NoDup xs -> NoDup (Head :: (Node <$> xs)).
Proof.
  intros H. apply NoDup_cons. split; [|by apply NoDup_fmap_2; [apply _|]].
  intros (? & ? & _)%list_elem_of_fmap. done.
Qed.

Lemma Node_elem x (xs : list nat) : Node x ∈ Node <$> xs <-> x ∈ xs.
Proof. rewrite list_elem_of_fmap. split; [by intros (? & [= ->] & ?)|]. intros ?. by exists x. Qed.

Lemma last_or_nodes (xs : list nat) n : n ∉ xs -> last_or Head (Node <$> xs) <> Node n.
Proof.
  intros Hn. destruct (last_or_in Head (Node <$> xs)) as [->|Hi]; [done|]. intros E. rewrite E in Hi.
  by apply Hn, Node_elem.
Qed.

Lemma insert_tail_ok s D xs n : list_rep s D xs -> n ∈ D -> n ∉ xs ->
  exists s', list_insert_tail Head (Node n) s = (Ok tt, s') /\ list_rep s' D (xs ++ [n]).
Proof.
  intros Hr Hn Hx. destruct (rep_head_links _ _ _ Hr) as (Hnx & Hpv & HH).
  pose proof (rep_out _ _ _ Hr n Hn Hx) as Hu. set (z := last_or Head (Node <$> xs)) in *.
  assert (Hz : z <> Node n) by by apply last_or_nodes.
  assert (HN : is_Some (s !! Node n)) by by rewrite Hu.
  assert (Hzs : is_Some (s !! z)).
  { eapply rep_exists; [done|]. apply last_or_in. }
  unfold list_insert_tail.
  rewrite (bind_ok _ _ _ _ _ (link_at_run _ _ HH)), (bind_ok _ _ _ _ _ (link_at_run _ _ HN)).
  assert (E1 : prv s (Node n) = None /\ nxt s (Node n) = None) by (unfold prv, nxt; by rewrite Hu).
  cbn [prev next]. destruct E1 as [-> ->]. rewrite Hnx, Hpv.
  rewrite (bind_ok _ _ s tt s) by reflexivity.
  rewrite (bind_ok _ _ _ _ _ (set_prev_run _ _ _ HN)).
  erewrite bind_ok; [|erewrite bind_ok by (apply link_at_run; auto);
    cbn [prev]; rewrite prv_setp, decide_True by done; cbn [through]; apply set_next_run; auto].
  erewrite bind_ok by (apply set_prev_run; auto). rewrite set_next_run by auto.
  eexists. split; [reflexivity|]. destruct Hr as [Hs Hnd Hin Hout Hgone]. split.
  - rewrite fmap_app. cbn [fmap list_fmap]. apply seg_app.
    pose proof (nodes_nodup _ Hnd) as HND. split.
    + eapply seg_redirect; [exact Hs|done|by rewrite Node_elem|..]; fold z.
      * intros m Hm. autorewrite with links_simpl. assert (Node n <> m).
        { destruct Hm as [->|(y & -> & ?)%list_elem_of_fmap]; [done|]. by intros [= ->]. }
        rewrite decide_False by done. repeat case_decide; congruence.
      * intros m (y & -> & Hy)%list_elem_of_fmap. autorewrite with links_simpl.
        rewrite decide_False by done. rewrite decide_False; [done|]. by intros [= ->].
      * autorewrite with links_simpl. rewrite decide_False by done. by rewrite decide_True.
    + split; autorewrite with links_simpl; [by rewrite decide_True|by rewrite decide_True].
  - apply NoDup_app. split; [done|]. split; [|apply NoDup_singleton].
    intros x ? ->%list_elem_of_singleton. done.
  - intros x [?| ->%list_elem_of_singleton]%elem_of_app; auto.
  - intros x HD Hxn. rewrite not_elem_of_app, list_elem_of_singleton in Hxn. destruct Hxn as [Hx1 Hx2].
    pose proof (last_or_nodes _ _ Hx1 : z <> Node x). rewrite lookup_setn_ne, lookup_setp_ne, lookup_setn_ne, lookup_setp_ne by congruence. apply Hout; auto.
  - intros x HD. assert (x <> n) by (by intros ->). assert (Hxx : x ∉ xs) by (intros ?; by apply HD, Hin).
    pose proof (last_or_nodes _ _ Hxx : z <> Node x). rewrite lookup_setn_ne, lookup_setp_ne, lookup_setn_ne, lookup_setp_ne by congruence. by apply Hgone.
Qed.

(** A node between [a] and [b] is taken out: the links of the two are set, and its own. *)
Definition cut (a n b : node) (s : links) : links := setn n None (setp n None (setp b (Some a) (setn a (Some b) s))).

Lemma nxt_cut a n b s m : nxt (cut a n b s) m = if decide (m = n) then None else if decide (m = a) then Some b else nxt s m.
Proof. unfold cut. autorewrite with links_simpl. repeat case_decide; congruence. Qed.

Lemma prv_cut a n b s m : prv (cut a n b s) m = if decide (m = n) then None else if decide (m = b) then Some a else prv s m.
Proof. unfold cut. autorewrite with links_simpl. repeat case_decide; congruence. Qed.

Lemma seg_cut s l n r : NoDup (Head :: l ++ n :: r) -> seg s Head (l ++ n :: r) Head ->
  seg (cut (last_or Head l) n (first_or r Head) s) Head (l ++ r) Head.
Proof.
  intros Hnd [H1 H2]%seg_app. apply NoDup_cons in Hnd as [Hh Hnd].
  apply NoDup_app in Hnd as (Hl & Hlr & [Hn Hr]%NoDup_cons).
  rewrite not_elem_of_app, not_elem_of_cons in Hh. destruct Hh as (Hh1 & Hh2 & Hh3).
  assert (Hnl : n ∉ l) by (intros Hi; apply (Hlr _ Hi); left).
  assert (Ha : last_or Head l <> n).
  { destruct (last_or_in Head l) as [-> | Hi]; [done|]. by intros <-. }
  assert (HL : forall b, b <> n -> b ∉ l -> b = first_or r Head ->
    seg (cut (last_or Head l) n (first_or r Head) s) Head l b).
  { intros b Hb Hbl ->. eapply seg_redirect; [exact H1|by apply NoDup_cons|done|..].
    - intros m Hm. rewrite nxt_cut, decide_False; [done|]. destruct Hm as [-> | Hm]; [done|]. by intros ->.
    - intros m Hm. rewrite prv_cut, decide_False by (by intros ->). rewrite decide_False; [done|].
      by intros ->.
    - rewrite prv_cut, decide_False by done. by rewrite decide_True. }
  destruct r as [|y r]; [rewrite app_nil_r; by apply HL|].
  cbn [first_or list.head default] in *. apply not_elem_of_cons in Hn as [Hny Hnr].
  apply NoDup_cons in Hr as [Hyr Hr]. apply not_elem_of_cons in Hh3 as [Hh3 Hh4].
  assert (Hyl : y ∉ l) by (intros Hi; apply (Hlr _ Hi); right; left).
  apply seg_app. split; [apply HL; auto; done|]. cbn in H2. destruct H2 as [_ H2].
  eapply seg_frame; [..|exact H2]; intros m Hm; rewrite ?nxt_cut, ?prv_cut.
  - assert (m <> n) by (destruct Hm as [-> | ?]; [done|]; by intros ->). rewrite decide_False by done.
    rewrite decide_False; [done|]. intros ->. destruct (last_or_in Head l) as [E | Hi].
    + rewrite E in Hm. destruct Hm; [congruence|done].
    + apply (Hlr _ Hi). right. apply elem_of_cons. done.
  - assert (m <> n) by (destruct Hm as [-> | ?]; [done|]; by intros ->).
    rewrite decide_False by done. rewrite decide_False; [done|]. unfold first_or; cbn.
    destruct Hm as [-> | ?]; congruence.
Qed.

Lemma cut_other s l n r x : x <> n -> x ∉ l ++ r ->
  cut (last_or Head (Node <$> l)) (Node n) (first_or (Node <$> r) Head) s !! Node x = s !! Node x.
Proof.
  intros Hx Hxl. rewrite not_elem_of_app in Hxl. destruct Hxl as [Hxl Hxr].
  pose proof (last_or_nodes _ _ Hxl). assert (first_or (Node <$> r) Head <> Node x).
  { destruct r as [|y r]; [done|]. cbn. apply not_elem_of_cons in Hxr as [? _]. congruence. }
  unfold cut. by rewrite lookup_setn_ne, lookup_setp_ne, lookup_setp_ne, lookup_setn_ne by congruence.
Qed.

Lemma take_out_ok s D l n r : list_rep s D (l ++ n :: r) ->
  exists s', list_remove Head (Node n) s = (Ok tt, s') /\ list_rep s' D (l ++ r).
Proof.
  intros Hr. destruct (rep_member _ _ _ _ _ Hr) as (Hnx & Hpv & HN).
  pose proof (rep_nodup _ _ _ Hr) as Hnd0. pose proof (nodes_nodup _ Hnd0) as Hnd.
  apply NoDup_app in Hnd0 as (Hl & Hlr & [Hnr Hr']%NoDup_cons).
  assert (Hnl : n ∉ l) by (intros Hi; apply (Hlr _ Hi); left).
  set (a := last_or Head (Node <$> l)) in *. set (b := first_or (Node <$> r) Head) in *.
  assert (Ha : a <> Node n) by by apply last_or_nodes.
  assert (Hb : b <> Node n).
  { subst b. destruct r as [|y r]; [done|]. cbn. apply not_elem_of_cons in Hnr as [? _]. congruence. }
  assert (Has : is_Some (s !! a)).
  { eapply rep_exists; [done|]. rewrite fmap_app, elem_of_app.
    destruct (last_or_in Head (Node <$> l)); auto. }
  assert (Hbs : is_Some (s !! b)).
  { eapply rep_exists; [done|]. subst b. destruct r as [|y r]; [by left|]. right. cbn.
    apply Node_elem. rewrite elem_of_app, !elem_of_cons. auto. }
  unfold list_remove. rewrite (bind_ok _ _ _ _ _ (link_at_run _ _ HN)). cbn [prev next]. rewrite Hnx, Hpv.
  rewrite (bind_ok _ _ s tt s) by (rewrite !bool_decide_true by (done || congruence); reflexivity).
  cbn [through]. erewrite bind_ok by (apply set_next_run; auto).
  erewrite bind_ok; [|erewrite bind_ok by (apply link_at_run; auto); cbn [prev next];
    autorewrite with links_simpl; rewrite decide_False by done; rewrite Hnx, Hpv; cbn [through];
    apply set_prev_run; auto].
  erewrite bind_ok by (apply set_prev_run; auto). rewrite set_next_run by auto.
  eexists. split; [reflexivity|]. fold (cut a (Node n) b s).
  destruct Hr as [Hs Hnd0 Hin Hout Hgone]. rewrite fmap_app, fmap_cons in Hs, Hnd.
  split.
  - rewrite fmap_app. by apply seg_cut.
  - apply NoDup_app. split; [done|]. split; [|done]. intros x Hx ?. apply (Hlr x Hx). by right.
  - intros x. rewrite elem_of_app. intros [?|?]; apply Hin, elem_of_app; [by left|]. right. by right.
  - intros x HD Hx. destruct (decide (x = n)) as [-> |Hne].
    + rewrite node_lookup by (unfold cut; auto). rewrite nxt_cut, prv_cut. by rewrite !decide_True.
    + unfold a, b. rewrite cut_other by done. apply Hout; [done|]. rewrite not_elem_of_app, not_elem_of_cons.
      rewrite not_elem_of_app in Hx. tauto.
  - intros x HD. unfold a, b. rewrite cut_other; [by apply Hgone|..].
    + intros ->. apply HD, Hin, elem_of_app. right. left.
    + intros Hx. apply HD, Hin. rewrite elem_of_app in Hx. rewrite elem_of_app, elem_of_cons. tauto.
Qed.

(** The successor in the circle of the streams, without the head. *)
Lemma next_ok s D l n r : list_rep s D (l ++ n :: r) ->
  list_next Head (Node n) s = (Ok (list.head (r ++ l ++ [n])), s).
Proof.
  intros Hr. destruct (rep_member _ _ _ _ _ Hr) as (Hnx & Hpv & HN).
  destruct (rep_head_links _ _ _ Hr) as (Hhn & Hhp & HH).
  pose proof (rep_nodup _ _ _ Hr) as (_ & Hlr & [Hnr _]%NoDup_cons)%NoDup_app.
  assert (Hnl : n ∉ l) by (intros Hi; apply (Hlr _ Hi); left).
  unfold list_next. rewrite (bind_ok _ _ _ _ _ (link_at_run _ _ HN)), (bind_ok _ _ _ _ _ (link_at_run _ _ HH)).
  cbn [prev next]. rewrite Hnx, Hpv, Hhn, Hhp.
  rewrite (bind_ok _ _ s tt s); cycle 1.
  { rewrite (bool_decide_true (Some (last_or _ _) <> Some (Node n)))
      by (intros [= E]; by apply (last_or_nodes l n) in E).
    rewrite (bool_decide_true (Some (first_or _ _) <> Some (Node n))).
    - rewrite !bool_decide_true by done. by rewrite orb_true_r.
    - destruct r as [|y r]; cbn; [done|]. apply not_elem_of_cons in Hnr as [? _]. congruence. }
  destruct r as [|y r]; cbn [fmap list_fmap first_or list.head default app].
  - rewrite bool_decide_true by done.
    erewrite bind_ok; [|erewrite bind_ok by (by apply link_at_run); cbn [next]; by rewrite Hhn].
    by destruct l.
  - rewrite bool_decide_false by done. by rewrite (bind_ok _ _ s (Node y) s).
Qed.

Lemma head_ok s D xs : list_rep s D xs -> list_next Head Head s = (Ok (list.head xs), s).
Proof.
  intros Hr. destruct (rep_head_links _ _ _ Hr) as (Hhn & Hhp & HH).
  unfold list_next. rewrite !(bind_ok _ _ _ _ _ (link_at_run _ _ HH)). cbn [prev next]. rewrite Hhn, Hhp.
  rewrite (bind_ok _ _ s tt s) by reflexivity. destruct xs as [|x xs]; cbn [fmap list_fmap first_or list.head default].
  - rewrite bool_decide_true by done.
    erewrite bind_ok; [|erewrite bind_ok by (by apply link_at_run); cbn [next]; by rewrite Hhn]. done.
  - rewrite bool_decide_false by done. by rewrite (bind_ok _ _ s (Node x) s).
Qed.

(** The empty list, and the nodes of streams that are allocated and freed. *)
Lemma init_rep : list_rep {[Head := mkLink (Some Head) (Some Head)]} ∅ [].
Proof.
  split; cbn.
  - done.
  - apply NoDup_nil_2.
  - by intros x ?%elem_of_nil.
  - set_solver.
  - intros x _. by rewrite lookup_singleton_ne.
Qed.

Lemma seg_same s s' D xs : list_rep s D xs ->
  (forall n, n = Head \/ n ∈ Node <$> xs -> s' !! n = s !! n) -> seg s' Head (Node <$> xs) Head.
Proof.
  intros Hr Hs. eapply seg_frame; [..|by eapply rep_seg]; intros n Hn; unfold nxt, prv; by rewrite Hs.
Qed.

Lemma alloc_rep s D xs p : list_rep s D xs -> p ∉ D -> list_rep (<[Node p := unlinked]> s) ({[p]} ∪ D) xs.
Proof.
  intros Hr Hp. assert (Hx : p ∉ xs) by (intros ?; by eapply Hp, rep_in). pose proof Hr as [_ Hnd Hin Hout Hgone].
  split; try done.
  - eapply seg_same; [done|]. intros n [-> |(y & -> & ?)%list_elem_of_fmap]; rewrite lookup_insert_ne; try done.
    by intros [= ->].
  - set_solver.
  - intros x HD Hxs. destruct (decide (x = p)) as [-> |]; [by rewrite lookup_insert_eq|].
    rewrite lookup_insert_ne by congruence. apply Hout; [set_solver|done].
  - intros x HD. rewrite lookup_insert_ne by set_solver. apply Hgone. set_solver.
Qed.

Lemma free_rep s D xs p : list_rep s D xs -> p ∉ xs -> list_rep (delete (Node p) s) (D ∖ {[p]}) xs.
Proof.
  intros Hr Hp. pose proof Hr as [_ Hnd Hin Hout Hgone]. split; try done.
  - eapply seg_same; [done|]. intros n [-> |(y & -> & ?)%list_elem_of_fmap]; rewrite lookup_delete_ne; try done.
    by intros [= ->].
  - intros x Hx. specialize (Hin x Hx). set_solver.
  - intros x HD Hxs. rewrite lookup_delete_ne by set_solver. apply Hout; [set_solver|done].
  - intros x HD. destruct (decide (x = p)) as [-> |]; [by rewrite lookup_delete_eq|].
    rewrite lookup_delete_ne by congruence. apply Hgone. set_solver.
Qed.
