(* ===== verification/StreamMap.v ===== *)
(** The stream map: ssl/quic/quic_stream_map.c and include/internal/quic_stream_map.h, with
    the functions of quic_channel.c, quic_txp.c and quic_impl.c that create streams and
    report events on them.

    A pointer to a stream is a number, and the streams are in a heap; the flow controllers
    and the list nodes that are part of a stream have the same number in their own heaps.
    The numbers of freed streams are not used again, so that an access to a freed stream is
    undefined. The buffers of a stream are those of [SStream] and [RStream], and the map
    from identifiers to streams is a table of [LHash]. All of them use the answers of one
    allocator. Of the channel there are the fields that these functions use; the calls of
    [ossl_quic_channel_notify_flush_done] are counted. Debug assertions are modelled as
    undefined when they do not hold. *)

From stdpp Require Import base numbers gmap list.
From Stdlib Require Import ZArith Lia.
From S2P Require Import Prelude SafeMath Wire UintSet FlowControl RingBuf SStream Statm SFrameList RStream LHash StreamList.

#[local] Open Scope cfun_scope.

(** ** Definitions: streams *)

(** The states of the send and of the receive part. *)
Inductive send_states :=
| QUIC_SSTREAM_STATE_NONE
| QUIC_SSTREAM_STATE_READY
| QUIC_SSTREAM_STATE_SEND
| QUIC_SSTREAM_STATE_DATA_SENT
| QUIC_SSTREAM_STATE_DATA_RECVD
| QUIC_SSTREAM_STATE_RESET_SENT
| QUIC_SSTREAM_STATE_RESET_RECVD.

Inductive recv_states :=
| QUIC_RSTREAM_STATE_NONE
| QUIC_RSTREAM_STATE_RECV
| QUIC_RSTREAM_STATE_SIZE_KNOWN
| QUIC_RSTREAM_STATE_DATA_RECVD
| QUIC_RSTREAM_STATE_DATA_READ
| QUIC_RSTREAM_STATE_RESET_RECVD
| QUIC_RSTREAM_STATE_RESET_READ.

#[export] Instance send_states_eq_dec : EqDecision send_states.
Proof. solve_decision. Defined.
#[export] Instance recv_states_eq_dec : EqDecision recv_states.
Proof. solve_decision. Defined.

(** The fields of a stream but for its list nodes, its flow controllers and the temporary
    fields of the packetiser. *)
Record QUIC_STREAM := mkStream {
  s_id : Z;
  stop_sending_aec : Z;
  reset_stream_aec : Z;
  peer_stop_sending_aec : Z;
  peer_reset_stream_aec : Z;
  send_final_size : Z;
  sstream : option QUIC_SSTREAM;
  rstream : option QUIC_RSTREAM;
  s_type : Z;
  send_state : send_states;
  recv_state : recv_states;
  active : bool;
  as_server : bool;
  stop_sending : bool;
  peer_stop_sending : bool;
  want_max_stream_data : bool;
  want_stop_sending : bool;
  want_reset_stream : bool;
  acked_stop_sending : bool;
  deleted : bool;
  ready_for_gc : bool;
  shutdown_flush : bool
}.

Definition set_sstream (v : option QUIC_SSTREAM) (s : QUIC_STREAM) : QUIC_STREAM :=
  mkStream (s_id s) (stop_sending_aec s) (reset_stream_aec s) (peer_stop_sending_aec s)
    (peer_reset_stream_aec s) (send_final_size s) v (rstream s) (s_type s) (send_state s) (recv_state s)
    (active s) (as_server s) (stop_sending s) (peer_stop_sending s) (want_max_stream_data s)
    (want_stop_sending s) (want_reset_stream s) (acked_stop_sending s) (deleted s) (ready_for_gc s)
    (shutdown_flush s).
Definition set_rstream (v : option QUIC_RSTREAM) (s : QUIC_STREAM) : QUIC_STREAM :=
  mkStream (s_id s) (stop_sending_aec s) (reset_stream_aec s) (peer_stop_sending_aec s)
    (peer_reset_stream_aec s) (send_final_size s) (sstream s) v (s_type s) (send_state s) (recv_state s)
    (active s) (as_server s) (stop_sending s) (peer_stop_sending s) (want_max_stream_data s)
    (want_stop_sending s) (want_reset_stream s) (acked_stop_sending s) (deleted s) (ready_for_gc s)
    (shutdown_flush s).
Definition set_send_state (v : send_states) (s : QUIC_STREAM) : QUIC_STREAM :=
  mkStream (s_id s) (stop_sending_aec s) (reset_stream_aec s) (peer_stop_sending_aec s)
    (peer_reset_stream_aec s) (send_final_size s) (sstream s) (rstream s) (s_type s) v (recv_state s) (active s)
    (as_server s) (stop_sending s) (peer_stop_sending s) (want_max_stream_data s) (want_stop_sending s)
    (want_reset_stream s) (acked_stop_sending s) (deleted s) (ready_for_gc s) (shutdown_flush s).
Definition set_recv_state (v : recv_states) (s : QUIC_STREAM) : QUIC_STREAM :=
  mkStream (s_id s) (stop_sending_aec s) (reset_stream_aec s) (peer_stop_sending_aec s)
    (peer_reset_stream_aec s) (send_final_size s) (sstream s) (rstream s) (s_type s) (send_state s) v (active s)
    (as_server s) (stop_sending s) (peer_stop_sending s) (want_max_stream_data s) (want_stop_sending s)
    (want_reset_stream s) (acked_stop_sending s) (deleted s) (ready_for_gc s) (shutdown_flush s).
Definition set_send_final_size (v : Z) (s : QUIC_STREAM) : QUIC_STREAM :=
  mkStream (s_id s) (stop_sending_aec s) (reset_stream_aec s) (peer_stop_sending_aec s)
    (peer_reset_stream_aec s) v (sstream s) (rstream s) (s_type s) (send_state s) (recv_state s) (active s)
    (as_server s) (stop_sending s) (peer_stop_sending s) (want_max_stream_data s) (want_stop_sending s)
    (want_reset_stream s) (acked_stop_sending s) (deleted s) (ready_for_gc s) (shutdown_flush s).
Definition set_active (v : bool) (s : QUIC_STREAM) : QUIC_STREAM :=
  mkStream (s_id s) (stop_sending_aec s) (reset_stream_aec s) (peer_stop_sending_aec s)
    (peer_reset_stream_aec s) (send_final_size s) (sstream s) (rstream s) (s_type s) (send_state s)
    (recv_state s) v (as_server s) (stop_sending s) (peer_stop_sending s) (want_max_stream_data s)
    (want_stop_sending s) (want_reset_stream s) (acked_stop_sending s) (deleted s) (ready_for_gc s)
    (shutdown_flush s).
Definition set_stop_sending (v : bool) (aec : Z) (s : QUIC_STREAM) : QUIC_STREAM :=
  mkStream (s_id s) aec (reset_stream_aec s) (peer_stop_sending_aec s) (peer_reset_stream_aec s)
    (send_final_size s) (sstream s) (rstream s) (s_type s) (send_state s) (recv_state s) (active s)
    (as_server s) v (peer_stop_sending s) (want_max_stream_data s) (want_stop_sending s) (want_reset_stream s)
    (acked_stop_sending s) (deleted s) (ready_for_gc s) (shutdown_flush s).
Definition set_reset_stream (v : bool) (aec : Z) (s : QUIC_STREAM) : QUIC_STREAM :=
  mkStream (s_id s) (stop_sending_aec s) aec (peer_stop_sending_aec s) (peer_reset_stream_aec s)
    (send_final_size s) (sstream s) (rstream s) (s_type s) (send_state s) (recv_state s) (active s)
    (as_server s) (stop_sending s) (peer_stop_sending s) (want_max_stream_data s) (want_stop_sending s) v
    (acked_stop_sending s) (deleted s) (ready_for_gc s) (shutdown_flush s).
Definition set_peer_stop_sending (v : bool) (aec : Z) (s : QUIC_STREAM) : QUIC_STREAM :=
  mkStream (s_id s) (stop_sending_aec s) (reset_stream_aec s) aec (peer_reset_stream_aec s) (send_final_size s)
    (sstream s) (rstream s) (s_type s) (send_state s) (recv_state s) (active s) (as_server s) (stop_sending s) v
    (want_max_stream_data s) (want_stop_sending s) (want_reset_stream s) (acked_stop_sending s) (deleted s)
    (ready_for_gc s) (shutdown_flush s).
Definition set_peer_reset_stream_aec (v : Z) (s : QUIC_STREAM) : QUIC_STREAM :=
  mkStream (s_id s) (stop_sending_aec s) (reset_stream_aec s) (peer_stop_sending_aec s) v (send_final_size s)
    (sstream s) (rstream s) (s_type s) (send_state s) (recv_state s) (active s) (as_server s) (stop_sending s)
    (peer_stop_sending s) (want_max_stream_data s) (want_stop_sending s) (want_reset_stream s)
    (acked_stop_sending s) (deleted s) (ready_for_gc s) (shutdown_flush s).
Definition set_want_max_stream_data (v : bool) (s : QUIC_STREAM) : QUIC_STREAM :=
  mkStream (s_id s) (stop_sending_aec s) (reset_stream_aec s) (peer_stop_sending_aec s)
    (peer_reset_stream_aec s) (send_final_size s) (sstream s) (rstream s) (s_type s) (send_state s)
    (recv_state s) (active s) (as_server s) (stop_sending s) (peer_stop_sending s) v (want_stop_sending s)
    (want_reset_stream s) (acked_stop_sending s) (deleted s) (ready_for_gc s) (shutdown_flush s).
Definition set_want_stop_sending (v : bool) (s : QUIC_STREAM) : QUIC_STREAM :=
  mkStream (s_id s) (stop_sending_aec s) (reset_stream_aec s) (peer_stop_sending_aec s)
    (peer_reset_stream_aec s) (send_final_size s) (sstream s) (rstream s) (s_type s) (send_state s)
    (recv_state s) (active s) (as_server s) (stop_sending s) (peer_stop_sending s) (want_max_stream_data s) v
    (want_reset_stream s) (acked_stop_sending s) (deleted s) (ready_for_gc s) (shutdown_flush s).
Definition set_want_reset_stream (v : bool) (s : QUIC_STREAM) : QUIC_STREAM :=
  mkStream (s_id s) (stop_sending_aec s) (reset_stream_aec s) (peer_stop_sending_aec s)
    (peer_reset_stream_aec s) (send_final_size s) (sstream s) (rstream s) (s_type s) (send_state s)
    (recv_state s) (active s) (as_server s) (stop_sending s) (peer_stop_sending s) (want_max_stream_data s)
    (want_stop_sending s) v (acked_stop_sending s) (deleted s) (ready_for_gc s) (shutdown_flush s).
Definition set_acked_stop_sending (v : bool) (s : QUIC_STREAM) : QUIC_STREAM :=
  mkStream (s_id s) (stop_sending_aec s) (reset_stream_aec s) (peer_stop_sending_aec s)
    (peer_reset_stream_aec s) (send_final_size s) (sstream s) (rstream s) (s_type s) (send_state s)
    (recv_state s) (active s) (as_server s) (stop_sending s) (peer_stop_sending s) (want_max_stream_data s)
    (want_stop_sending s) (want_reset_stream s) v (deleted s) (ready_for_gc s) (shutdown_flush s).
Definition set_deleted (v : bool) (s : QUIC_STREAM) : QUIC_STREAM :=
  mkStream (s_id s) (stop_sending_aec s) (reset_stream_aec s) (peer_stop_sending_aec s)
    (peer_reset_stream_aec s) (send_final_size s) (sstream s) (rstream s) (s_type s) (send_state s)
    (recv_state s) (active s) (as_server s) (stop_sending s) (peer_stop_sending s) (want_max_stream_data s)
    (want_stop_sending s) (want_reset_stream s) (acked_stop_sending s) v (ready_for_gc s) (shutdown_flush s).
Definition set_ready_for_gc (v : bool) (s : QUIC_STREAM) : QUIC_STREAM :=
  mkStream (s_id s) (stop_sending_aec s) (reset_stream_aec s) (peer_stop_sending_aec s)
    (peer_reset_stream_aec s) (send_final_size s) (sstream s) (rstream s) (s_type s) (send_state s)
    (recv_state s) (active s) (as_server s) (stop_sending s) (peer_stop_sending s) (want_max_stream_data s)
    (want_stop_sending s) (want_reset_stream s) (acked_stop_sending s) (deleted s) v (shutdown_flush s).
Definition set_shutdown_flush (v : bool) (s : QUIC_STREAM) : QUIC_STREAM :=
  mkStream (s_id s) (stop_sending_aec s) (reset_stream_aec s) (peer_stop_sending_aec s)
    (peer_reset_stream_aec s) (send_final_size s) (sstream s) (rstream s) (s_type s) (send_state s)
    (recv_state s) (active s) (as_server s) (stop_sending s) (peer_stop_sending s) (want_max_stream_data s)
    (want_stop_sending s) (want_reset_stream s) (acked_stop_sending s) (deleted s) (ready_for_gc s) v.

Definition QUIC_STREAM_INITIATOR_CLIENT : Z := 0.
Definition QUIC_STREAM_INITIATOR_SERVER : Z := 1.
Definition QUIC_STREAM_INITIATOR_MASK : Z := 1.
Definition QUIC_STREAM_DIR_BIDI : Z := 0.
Definition QUIC_STREAM_DIR_UNI : Z := 2.
Definition QUIC_STREAM_DIR_MASK : Z := 2.

Definition ossl_quic_stream_is_server_init (s : QUIC_STREAM) : bool :=
  Z.land (s_type s) QUIC_STREAM_INITIATOR_MASK =? QUIC_STREAM_INITIATOR_SERVER.

Definition ossl_quic_stream_is_bidi (s : QUIC_STREAM) : bool :=
  Z.land (s_type s) QUIC_STREAM_DIR_MASK =? QUIC_STREAM_DIR_BIDI.

Definition ossl_quic_stream_is_local_init (s : QUIC_STREAM) : bool :=
  Bool.eqb (ossl_quic_stream_is_server_init s) (as_server s).

Definition ossl_quic_stream_has_send (s : QUIC_STREAM) : bool :=
  negb (bool_decide (send_state s = QUIC_SSTREAM_STATE_NONE)).

Definition ossl_quic_stream_has_recv (s : QUIC_STREAM) : bool :=
  negb (bool_decide (recv_state s = QUIC_RSTREAM_STATE_NONE)).

Definition ossl_quic_stream_has_send_buffer (s : QUIC_STREAM) : bool :=
  match send_state s with
  | QUIC_SSTREAM_STATE_READY | QUIC_SSTREAM_STATE_SEND | QUIC_SSTREAM_STATE_DATA_SENT => true
  | _ => false
  end.

Definition ossl_quic_stream_send_is_reset (s : QUIC_STREAM) : bool :=
  bool_decide (send_state s = QUIC_SSTREAM_STATE_RESET_SENT) ||
  bool_decide (send_state s = QUIC_SSTREAM_STATE_RESET_RECVD).

Definition ossl_quic_stream_has_recv_buffer (s : QUIC_STREAM) : bool :=
  match recv_state s with
  | QUIC_RSTREAM_STATE_RECV | QUIC_RSTREAM_STATE_SIZE_KNOWN | QUIC_RSTREAM_STATE_DATA_RECVD => true
  | _ => false
  end.

Definition ossl_quic_stream_recv_is_reset (s : QUIC_STREAM) : bool :=
  bool_decide (recv_state s = QUIC_RSTREAM_STATE_RESET_RECVD) ||
  bool_decide (recv_state s = QUIC_RSTREAM_STATE_RESET_READ).

(** ** Definitions: the map *)

(** An entry of the table: a stream, with its identifier, which does not change. *)
Record stream_ref := mkRef { r_id : Z; r_ptr : nat }.

Definition hash_stream (s : stream_ref) : Z := u64 (r_id s).

Definition cmp_stream (a b : stream_ref) : Z :=
  if r_id a <? r_id b then -1 else if r_id a >? r_id b then 1 else 0.

#[export] Instance stream_fns : LHashFns stream_ref := { lh_hash := hash_stream; lh_comp := cmp_stream }.

(** The fields of the channel that the functions below use. *)
Record QUIC_CHANNEL := mkChannel {
  is_server : bool;
  got_remote_transport_params : bool;
  incoming_stream_auto_reject : bool;
  incoming_stream_auto_reject_aec : Z;
  max_local_streams_bidi : Z;
  max_local_streams_uni : Z;
  next_local_stream_ordinal_bidi : Z;
  next_local_stream_ordinal_uni : Z;
  rx_init_max_stream_data_bidi_local : Z;
  rx_init_max_stream_data_bidi_remote : Z;
  rx_init_max_stream_data_uni : Z;
  tx_init_max_stream_data_bidi_local : Z;
  tx_init_max_stream_data_bidi_remote : Z;
  tx_init_max_stream_data_uni : Z;
  flush_done : Z
}.

Definition set_ordinals (vb vu : Z) (c : QUIC_CHANNEL) : QUIC_CHANNEL :=
  mkChannel (is_server c) (got_remote_transport_params c) (incoming_stream_auto_reject c)
    (incoming_stream_auto_reject_aec c) (max_local_streams_bidi c) (max_local_streams_uni c) vb vu
    (rx_init_max_stream_data_bidi_local c) (rx_init_max_stream_data_bidi_remote c) (rx_init_max_stream_data_uni c)
    (tx_init_max_stream_data_bidi_local c) (tx_init_max_stream_data_bidi_remote c) (tx_init_max_stream_data_uni c)
    (flush_done c).

Definition set_flush_done (v : Z) (c : QUIC_CHANNEL) : QUIC_CHANNEL :=
  mkChannel (is_server c) (got_remote_transport_params c) (incoming_stream_auto_reject c)
    (incoming_stream_auto_reject_aec c) (max_local_streams_bidi c) (max_local_streams_uni c)
    (next_local_stream_ordinal_bidi c) (next_local_stream_ordinal_uni c)
    (rx_init_max_stream_data_bidi_local c) (rx_init_max_stream_data_bidi_remote c) (rx_init_max_stream_data_uni c)
    (tx_init_max_stream_data_bidi_local c) (tx_init_max_stream_data_bidi_remote c) (tx_init_max_stream_data_uni c)
    v.

Definition get_stream_limit (c : QUIC_CHANNEL) (uni : bool) : Z :=
  if uni then max_local_streams_uni c else max_local_streams_bidi c.

(** [map_] is [None] for NULL. *)
Record QUIC_STREAM_MAP := mkQsm {
  map_ : option (LH stream_ref);
  active_list : links;
  accept_list : links;
  ready_for_gc_list : links;
  rr_stepping : Z;
  rr_counter : Z;
  num_accept_bidi : Z;
  num_accept_uni : Z;
  num_shutdown_flush : Z;
  rr_cur : option nat;
  get_stream_limit_cb : option (QUIC_CHANNEL -> bool -> Z);
  max_streams_bidi_rxfc : option nat;
  max_streams_uni_rxfc : option nat
}.

Definition set_map (v : option (LH stream_ref)) (m : QUIC_STREAM_MAP) : QUIC_STREAM_MAP :=
  mkQsm v (active_list m) (accept_list m) (ready_for_gc_list m) (rr_stepping m) (rr_counter m)
    (num_accept_bidi m) (num_accept_uni m) (num_shutdown_flush m) (rr_cur m) (get_stream_limit_cb m)
    (max_streams_bidi_rxfc m) (max_streams_uni_rxfc m).
Definition set_active_list (v : links) (m : QUIC_STREAM_MAP) : QUIC_STREAM_MAP :=
  mkQsm (map_ m) v (accept_list m) (ready_for_gc_list m) (rr_stepping m) (rr_counter m) (num_accept_bidi m)
    (num_accept_uni m) (num_shutdown_flush m) (rr_cur m) (get_stream_limit_cb m) (max_streams_bidi_rxfc m)
    (max_streams_uni_rxfc m).
Definition set_accept_list (v : links) (m : QUIC_STREAM_MAP) : QUIC_STREAM_MAP :=
  mkQsm (map_ m) (active_list m) v (ready_for_gc_list m) (rr_stepping m) (rr_counter m) (num_accept_bidi m)
    (num_accept_uni m) (num_shutdown_flush m) (rr_cur m) (get_stream_limit_cb m) (max_streams_bidi_rxfc m)
    (max_streams_uni_rxfc m).
Definition set_ready_for_gc_list (v : links) (m : QUIC_STREAM_MAP) : QUIC_STREAM_MAP :=
  mkQsm (map_ m) (active_list m) (accept_list m) v (rr_stepping m) (rr_counter m) (num_accept_bidi m)
    (num_accept_uni m) (num_shutdown_flush m) (rr_cur m) (get_stream_limit_cb m) (max_streams_bidi_rxfc m)
    (max_streams_uni_rxfc m).
Definition set_rr (v : Z) (c : Z) (m : QUIC_STREAM_MAP) : QUIC_STREAM_MAP :=
  mkQsm (map_ m) (active_list m) (accept_list m) (ready_for_gc_list m) v c (num_accept_bidi m)
    (num_accept_uni m) (num_shutdown_flush m) (rr_cur m) (get_stream_limit_cb m) (max_streams_bidi_rxfc m)
    (max_streams_uni_rxfc m).
Definition set_rr_cur (v : option nat) (m : QUIC_STREAM_MAP) : QUIC_STREAM_MAP :=
  mkQsm (map_ m) (active_list m) (accept_list m) (ready_for_gc_list m) (rr_stepping m) (rr_counter m)
    (num_accept_bidi m) (num_accept_uni m) (num_shutdown_flush m) v (get_stream_limit_cb m)
    (max_streams_bidi_rxfc m) (max_streams_uni_rxfc m).
Definition set_num_accept (vb : Z) (vu : Z) (m : QUIC_STREAM_MAP) : QUIC_STREAM_MAP :=
  mkQsm (map_ m) (active_list m) (accept_list m) (ready_for_gc_list m) (rr_stepping m) (rr_counter m) vb vu
    (num_shutdown_flush m) (rr_cur m) (get_stream_limit_cb m) (max_streams_bidi_rxfc m) (max_streams_uni_rxfc m).
Definition set_num_shutdown_flush (v : Z) (m : QUIC_STREAM_MAP) : QUIC_STREAM_MAP :=
  mkQsm (map_ m) (active_list m) (accept_list m) (ready_for_gc_list m) (rr_stepping m) (rr_counter m)
    (num_accept_bidi m) (num_accept_uni m) v (rr_cur m) (get_stream_limit_cb m) (max_streams_bidi_rxfc m)
    (max_streams_uni_rxfc m).

(** The frames that the packetiser is asked to send. *)
Record TXP := mkTxp {
  want_handshake_done : bool;
  want_max_data : bool;
  want_max_streams_bidi : bool;
  want_max_streams_uni : bool;
  want_ack : Z
}.

Record SM := mkSM {
  qsm : QUIC_STREAM_MAP;
  ch : QUIC_CHANNEL;
  txp : TXP;
  heap : gmap nat QUIC_STREAM;
  tx : TX;
  rx : RX;
  brk : nat;
  orc : oracle
}.

Definition upd_qsm (m : QUIC_STREAM_MAP) (s : SM) : SM := mkSM m (ch s) (txp s) (heap s) (tx s) (rx s) (brk s) (orc s).
Definition upd_ch (c : QUIC_CHANNEL) (s : SM) : SM := mkSM (qsm s) c (txp s) (heap s) (tx s) (rx s) (brk s) (orc s).
Definition upd_txp (t : TXP) (s : SM) : SM := mkSM (qsm s) (ch s) t (heap s) (tx s) (rx s) (brk s) (orc s).
Definition upd_heap (h : gmap nat QUIC_STREAM) (s : SM) : SM := mkSM (qsm s) (ch s) (txp s) h (tx s) (rx s) (brk s) (orc s).
Definition upd_tx (t : TX) (s : SM) : SM := mkSM (qsm s) (ch s) (txp s) (heap s) t (rx s) (brk s) (orc s).
Definition upd_rx (r : RX) (s : SM) : SM := mkSM (qsm s) (ch s) (txp s) (heap s) (tx s) r (brk s) (orc s).
Definition upd_brk (n : nat) (s : SM) : SM := mkSM (qsm s) (ch s) (txp s) (heap s) (tx s) (rx s) n (orc s).
Definition upd_orc (o : oracle) (s : SM) : SM := mkSM (qsm s) (ch s) (txp s) (heap s) (tx s) (rx s) (brk s) o.

(** Access to the parts of the state. *)
Definition mod_qsm (f : QUIC_STREAM_MAP -> QUIC_STREAM_MAP) : M SM unit := modify (fun s => upd_qsm (f (qsm s)) s).
Definition get_qsm : M SM QUIC_STREAM_MAP := fun s => (Ok (qsm s), s).
Definition in_tx {A} (m : M TX A) : M SM A := zoom tx upd_tx m.
Definition in_rx {A} (m : M RX A) : M SM A := zoom rx upd_rx m.
Definition in_active {A} (m : M links A) : M SM A :=
  zoom (fun s => active_list (qsm s)) (fun l s => upd_qsm (set_active_list l (qsm s)) s) m.
Definition in_accept {A} (m : M links A) : M SM A :=
  zoom (fun s => accept_list (qsm s)) (fun l s => upd_qsm (set_accept_list l (qsm s)) s) m.
Definition in_gc {A} (m : M links A) : M SM A :=
  zoom (fun s => ready_for_gc_list (qsm s)) (fun l s => upd_qsm (set_ready_for_gc_list l (qsm s)) s) m.

Definition in_map {A} (m : M (LH stream_ref) A) : M SM A :=
  fun s =>
    match map_ (qsm s) with
    | None => (Ub, s)
    | Some t =>
        let (r, t') := m (mkLH (lh t) (lh_live t) (orc s)) in
        (r, upd_orc (lh_oracle t') (upd_qsm (set_map (Some t') (qsm s)) s))
    end.

Definition stream_at (p : nat) : M SM QUIC_STREAM :=
  fun s => match heap s !! p with Some x => (Ok x, s) | None => (Ub, s) end.

Definition upd_stream (p : nat) (f : QUIC_STREAM -> QUIC_STREAM) : M SM unit :=
  let! x := stream_at p in modify (fun s => upd_heap (<[p := f x]> (heap s)) s).

(** A call on the send or on the receive buffer of a stream, which must have one. *)
Definition in_sstream {A} (p : nat) (m : M SS A) : M SM A :=
  let! x := stream_at p in
  match sstream x with
  | None => undef
  | Some q => fun s => let '(r, (q', o)) := m (q, orc s) in
                       (r, upd_orc o (upd_heap (<[p := set_sstream (Some q') x]> (heap s)) s))
  end.

Definition in_rstream {A} (p : nat) (m : M QUIC_RSTREAM A) : M SM A :=
  let! x := stream_at p in
  match rstream x with
  | None => undef
  | Some q => fun s => let '(r, q') := m (set_rxm (rx s) (set_sfs (mkSF (fl (sfs q)) (refs (sfs q)) (orc s)) q)) in
                       (r, upd_rx (rxm q') (upd_orc (sf_heap (sfs q'))
                             (upd_heap (<[p := set_rstream (Some q') x]> (heap s)) s)))
  end.

(** The send buffer, for the functions that only read it. *)
Definition sstream_at (p : nat) : M SM QUIC_SSTREAM :=
  let! x := stream_at p in match sstream x with Some q => ret q | None => undef end.

(** A call whose failure the caller looks at. *)
Definition try_opt {S A} (m : M S A) : M S (option A) :=
  fun s => match m s with
           | (Ok a, s') => (Ok (Some a), s')
           | (Err, s') => (Ok None, s')
           | (Ub, s') => (Ub, s')
           end.

Definition allocate_ : M SM bool := fun s => let (ok, o) := alloc (orc s) in (Ok ok, upd_orc o s).

(** A function for each pointer of a list. *)
Fixpoint for_each (f : nat -> M SM unit) (l : list nat) : M SM unit :=
  match l with
  | [] => ret tt
  | p :: l' => f p ;;; for_each f l'
  end.

(** ** Definitions: final sizes and the amount to read *)

(** [None] for the result 0. *)
Definition ossl_quic_stream_send_get_final_size (p : nat) : M SM (option Z) :=
  let! s := stream_at p in
  match send_state s with
  | QUIC_SSTREAM_STATE_SEND => let! q := sstream_at p in ret (ossl_quic_sstream_get_final_size q)
  | QUIC_SSTREAM_STATE_DATA_SENT | QUIC_SSTREAM_STATE_DATA_RECVD
  | QUIC_SSTREAM_STATE_RESET_SENT | QUIC_SSTREAM_STATE_RESET_RECVD => ret (Some (send_final_size s))
  | _ => ret None
  end.

Definition ossl_quic_stream_recv_get_final_size (p : nat) : M SM (option Z) :=
  let! s := stream_at p in
  match recv_state s with
  | QUIC_RSTREAM_STATE_NONE | QUIC_RSTREAM_STATE_RECV => ret None
  | _ => in_rx (ossl_quic_rxfc_get_final_size p)
  end.

Definition ossl_quic_stream_recv_pending (p : nat) (include_fin : bool) : M SM Z :=
  let! s := stream_at p in
  match recv_state s with
  | QUIC_RSTREAM_STATE_RECV | QUIC_RSTREAM_STATE_SIZE_KNOWN | QUIC_RSTREAM_STATE_DATA_RECVD =>
      let! r := try_opt (in_rstream p ossl_quic_rstream_available) in
      let (avail, fin) := match r with Some x => x | None => (0, false) end in
      ret (if (avail =? 0) && include_fin && fin then 1 else avail)
  | QUIC_RSTREAM_STATE_RESET_RECVD => ret (if include_fin then 1 else 0)
  | _ => ret 0
  end.

(** ** Definitions: the table of streams *)

Definition empty_list : links := {[Head := mkLink (Some Head) (Some Head)]}.

(** The table is not looked at; the result is 1. *)
Definition ossl_quic_stream_map_init (cb : option (QUIC_CHANNEL -> bool -> Z)) (bidi_rxfc uni_rxfc : option nat)
  : M SM bool :=
  fun s =>
    let (t, o) := OPENSSL_LH_new (orc s) in
    (Ok true, upd_orc o (upd_qsm (mkQsm t empty_list empty_list empty_list 1 0 0 0 0 None cb bidi_rxfc uni_rxfc) s)).

(** The chains from the last to the first; the next node of a chain is read before the
    call, which may remove the node that it is called for. *)
Fixpoint visit_loop (visit_cb : nat -> M SM unit) (k : nat) : M SM unit :=
  match k with
  | O => ret tt
  | S k =>
      let! c := in_map (load_chain (Z.of_nat k)) in
      for_each visit_cb ((fun n => r_ptr (n_data n)) <$> c) ;;;
      visit_loop visit_cb k
  end.

Definition ossl_quic_stream_map_visit (visit_cb : nat -> M SM unit) : M SM unit :=
  let! m := get_qsm in
  match map_ m with
  | None => ret tt
  | Some t => visit_loop visit_cb (Z.to_nat (num_nodes (lh t)))
  end.

(** The stream as the allocator zeroes it. *)
Definition zero_stream : QUIC_STREAM :=
  mkStream 0 0 0 0 0 0 None None 0 QUIC_SSTREAM_STATE_NONE QUIC_RSTREAM_STATE_NONE
    false false false false false false false false false false false.

Definition zero_txfc : QUIC_TXFC := mkTxfc None 0 0 false.
Definition zero_rxfc : QUIC_RXFC := mkRxfc 0 0 0 0 0 0 0 0 None 0 false false false.

(** A new object, with its nodes and flow controllers. *)
Definition new_stream : M SM nat :=
  fun s =>
    let p := brk s in
    let m := qsm s in
    let m := set_active_list (<[Node p := unlinked]> (active_list m)) m in
    let m := set_accept_list (<[Node p := unlinked]> (accept_list m)) m in
    let m := set_ready_for_gc_list (<[Node p := unlinked]> (ready_for_gc_list m)) m in
    (Ok p, mkSM m (ch s) (txp s) (<[p := zero_stream]> (heap s)) (<[p := zero_txfc]> (tx s))
             (mkRX (<[p := zero_rxfc]> (rxs (rx s))) (readings (rx s))) (S p) (orc s)).

Definition free_stream (p : nat) : M SM unit :=
  stream_at p ;;;
  modify (fun s =>
    let m := qsm s in
    let m := set_active_list (delete (Node p) (active_list m)) m in
    let m := set_accept_list (delete (Node p) (accept_list m)) m in
    let m := set_ready_for_gc_list (delete (Node p) (ready_for_gc_list m)) m in
    mkSM m (ch s) (txp s) (delete p (heap s)) (delete p (tx s))
      (mkRX (delete p (rxs (rx s))) (readings (rx s))) (brk s) (orc s)).

Definition set_identity (i t : Z) (srv : bool) (s : QUIC_STREAM) : QUIC_STREAM :=
  mkStream i (stop_sending_aec s) (reset_stream_aec s) (peer_stop_sending_aec s) (peer_reset_stream_aec s)
    (send_final_size s) (sstream s) (rstream s) t (send_state s) (recv_state s) (active s) srv (stop_sending s)
    (peer_stop_sending s) (want_max_stream_data s) (want_stop_sending s) (want_reset_stream s)
    (acked_stop_sending s) (deleted s) (ready_for_gc s) (shutdown_flush s).

(** The result of the insertion is not looked at. *)
Definition ossl_quic_stream_map_alloc (stream_id type : Z) : M SM (option nat) :=
  let! e := in_map (OPENSSL_LH_retrieve (mkRef stream_id 0)) in
  match e with
  | Some _ => ret None
  | None =>
      let! ok := allocate_ in
      if negb ok then ret None
      else
        let! p := new_stream in
        let! st := get in
        upd_stream p (set_identity stream_id (u8 type) (is_server (ch st))) ;;;
        let! s := stream_at p in
        upd_stream p (set_send_state
          (if ossl_quic_stream_is_local_init s || ossl_quic_stream_is_bidi s
           then QUIC_SSTREAM_STATE_READY else QUIC_SSTREAM_STATE_NONE)) ;;;
        upd_stream p (set_recv_state
          (if negb (ossl_quic_stream_is_local_init s) || ossl_quic_stream_is_bidi s
           then QUIC_RSTREAM_STATE_RECV else QUIC_RSTREAM_STATE_NONE)) ;;;
        upd_stream p (set_send_final_size UINT64_MAX) ;;;
        in_map (OPENSSL_LH_insert (mkRef stream_id p)) ;;;
        ret (Some p)
  end.

(** The functions that free a buffer accept NULL. *)
Definition free_sstream (p : nat) : M SM unit :=
  upd_stream p (set_sstream None).

Definition free_rstream (p : nat) : M SM unit :=
  let! s := stream_at p in
  match rstream s with
  | None => ret tt
  | Some _ => in_rstream p ossl_quic_rstream_free
  end ;;;
  upd_stream p (set_rstream None).

(** A node that is linked is removed. *)
Definition unlink_if (on : forall A, M links A -> M SM A) (p : nat) : M SM unit :=
  let! k := on _ (link_at (Node p)) in
  if bool_decide (next k <> None) then on _ (list_remove Head (Node p)) else ret tt.

Definition ossl_quic_stream_map_release (stream : option nat) : M SM unit :=
  match stream with
  | None => ret tt
  | Some p =>
      unlink_if (@in_active) p ;;;
      unlink_if (@in_accept) p ;;;
      unlink_if (@in_gc) p ;;;
      free_sstream p ;;;
      free_rstream p ;;;
      let! s := stream_at p in
      in_map (OPENSSL_LH_delete (mkRef (s_id s) p)) ;;;
      free_stream p
  end.

(** The nodes of the table are freed with it. *)
Definition ossl_quic_stream_map_cleanup : M SM unit :=
  ossl_quic_stream_map_visit (fun p => ossl_quic_stream_map_release (Some p)) ;;;
  (let! m := get_qsm in
   match map_ m with None => ret tt | Some _ => in_map OPENSSL_LH_flush end) ;;;
  mod_qsm (set_map None).

Definition ossl_quic_stream_map_get_by_id (stream_id : Z) : M SM (option nat) :=
  let! e := in_map (OPENSSL_LH_retrieve (mkRef stream_id 0)) in
  ret (r_ptr <$> e).

(** ** Definitions: active streams *)

Definition stream_map_mark_active (p : nat) : M SM unit :=
  let! s := stream_at p in
  if active s then ret tt
  else
    in_active (list_insert_tail Head (Node p)) ;;;
    (let! m := get_qsm in
     if bool_decide (rr_cur m = None) then mod_qsm (set_rr_cur (Some p)) else ret tt) ;;;
    upd_stream p (set_active true).

Definition stream_map_mark_inactive (p : nat) : M SM unit :=
  let! s := stream_at p in
  if negb (active s) then ret tt
  else
    (let! m := get_qsm in
     if bool_decide (rr_cur m = Some p) then
       let! n := in_active (list_next Head (Node p)) in mod_qsm (set_rr_cur n)
     else ret tt) ;;;
    (let! m := get_qsm in
     if bool_decide (rr_cur m = Some p) then mod_qsm (set_rr_cur None) else ret tt) ;;;
    in_active (list_remove Head (Node p)) ;;;
    upd_stream p (set_active false).

Definition ossl_quic_stream_map_set_rr_stepping (stepping : Z) : M SM unit := mod_qsm (set_rr stepping 0).

Definition stream_has_data_to_send (p : nat) : M SM bool :=
  let! s := stream_at p in
  match send_state s with
  | QUIC_SSTREAM_STATE_READY | QUIC_SSTREAM_STATE_SEND | QUIC_SSTREAM_STATE_DATA_SENT =>
      let! f := try_opt (in_sstream p (ossl_quic_sstream_get_stream_frame 0 2)) in
      match f with
      | None => ret false
      | Some (shdr, _) =>
          let! fc_credit := in_tx (ossl_quic_txfc_get_credit p 0) in
          let! fc_swm := in_tx (ossl_quic_txfc_get_swm p) in
          let fc_limit := u64 (fc_swm + fc_credit) in
          ret ((hdr_is_fin shdr && (SStream.len shdr =? 0)) || (SStream.offset shdr <? fc_limit))
      end
  | _ => ret false
  end.

(** The receive part is not known to be drained: [recv_stream_fully_drained] is 0. *)
Definition qsm_ready_for_gc (p : nat) : M SM bool :=
  let recv_stream_fully_drained := false in
  let! s := stream_at p in
  let! ok :=
    if negb (deleted s) || negb (ossl_quic_stream_has_send s) || ossl_quic_stream_send_is_reset s then ret true
    else let! fs := ossl_quic_stream_send_get_final_size p in ret (bool_decide (fs <> None)) in
  assert_ ok ;;;
  ret (deleted s
       && (negb (ossl_quic_stream_has_recv s) || recv_stream_fully_drained || acked_stop_sending s)
       && (negb (ossl_quic_stream_has_send s)
           || bool_decide (send_state s = QUIC_SSTREAM_STATE_DATA_RECVD)
           || bool_decide (send_state s = QUIC_SSTREAM_STATE_RESET_RECVD))).

Definition ossl_quic_stream_map_is_local_allowed_by_stream_limit (stream_ordinal : Z) (is_uni : bool) : M SM bool :=
  let! st := get in
  match get_stream_limit_cb (qsm st) with
  | None => ret true
  | Some cb => ret (stream_ordinal <? cb (ch st) is_uni)
  end.

Definition shutdown_flush_done (p : nat) : M SM unit :=
  let! s := stream_at p in
  if negb (shutdown_flush s) then ret tt
  else
    (let! m := get_qsm in assert_ (num_shutdown_flush m >? 0)) ;;;
    upd_stream p (set_shutdown_flush false) ;;;
    mod_qsm (fun m => set_num_shutdown_flush (u64 (num_shutdown_flush m - 1)) m) ;;;
    let! m := get_qsm in
    if num_shutdown_flush m =? 0 then modify (fun s => upd_ch (set_flush_done (flush_done (ch s) + 1) (ch s)) s)
    else ret tt.

Definition ossl_quic_stream_map_notify_totally_acked (p : nat) : M SM bool :=
  let! s := stream_at p in
  match send_state s with
  | QUIC_SSTREAM_STATE_DATA_SENT =>
      upd_stream p (set_send_state QUIC_SSTREAM_STATE_DATA_RECVD) ;;;
      free_sstream p ;;;
      shutdown_flush_done p ;;;
      ret true
  | _ => ret false
  end.

(** The part of the update that depends on acknowledgements. *)
Definition update_acked (p : nat) : M SM unit :=
  let! s := stream_at p in
  let! acked :=
    if bool_decide (send_state s = QUIC_SSTREAM_STATE_DATA_SENT)
    then in_sstream p ossl_quic_sstream_is_totally_acked else ret false in
  if acked : bool then ossl_quic_stream_map_notify_totally_acked p ;;; ret tt
  else
    let! acked :=
      if shutdown_flush s && bool_decide (send_state s = QUIC_SSTREAM_STATE_SEND)
      then in_sstream p ossl_quic_sstream_is_totally_acked else ret false in
    if acked : bool then shutdown_flush_done p else ret tt.

(** The part of the update for the collection. *)
Definition update_gc (p : nat) : M SM unit :=
  let! s := stream_at p in
  if negb (ready_for_gc s) then
    let! r := qsm_ready_for_gc p in
    upd_stream p (set_ready_for_gc r) ;;;
    if r : bool then in_gc (list_insert_tail Head (Node p)) else ret tt
  else ret tt.

(** Whether frames can be generated for the stream. *)
Definition should_be_active (p : nat) (allowed_by_stream_limit : bool) : M SM bool :=
  let! s := stream_at p in
  if negb (allowed_by_stream_limit && negb (ready_for_gc s)) then ret false
  else
    let! fc :=
      if ossl_quic_stream_has_recv s && negb (ossl_quic_stream_recv_is_reset s)
         && bool_decide (recv_state s = QUIC_RSTREAM_STATE_RECV)
      then if want_max_stream_data s then ret true else in_rx (ossl_quic_rxfc_has_cwm_changed p false)
      else ret false in
    if (fc : bool) || want_stop_sending s || want_reset_stream s then ret true
    else if negb (peer_stop_sending s) then stream_has_data_to_send p
    else ret false.

Definition ossl_quic_stream_map_update_state (p : nat) : M SM unit :=
  let! s := stream_at p in
  let! st := get in
  let! allowed_by_stream_limit :=
    if Bool.eqb (ossl_quic_stream_is_server_init s) (is_server (ch st))
    then ossl_quic_stream_map_is_local_allowed_by_stream_limit (Z.shiftr (s_id s) 2) (negb (ossl_quic_stream_is_bidi s))
    else ret true in
  update_acked p ;;;
  update_gc p ;;;
  let! should := should_be_active p allowed_by_stream_limit in
  if should : bool then stream_map_mark_active p else stream_map_mark_inactive p.

(** ** Definitions: the send part *)

Definition ossl_quic_stream_map_ensure_send_part_id (p : nat) : M SM bool :=
  let! s := stream_at p in
  match send_state s with
  | QUIC_SSTREAM_STATE_NONE => ret false
  | QUIC_SSTREAM_STATE_READY => upd_stream p (set_send_state QUIC_SSTREAM_STATE_SEND) ;;; ret true
  | _ => ret true
  end.

Definition ossl_quic_stream_map_notify_all_data_sent (p : nat) : M SM bool :=
  let! s := stream_at p in
  match send_state s with
  | QUIC_SSTREAM_STATE_SEND =>
      let! q := sstream_at p in
      match ossl_quic_sstream_get_final_size q with
      | None => ret false
      | Some fs =>
          upd_stream p (set_send_final_size fs) ;;;
          upd_stream p (set_send_state QUIC_SSTREAM_STATE_DATA_SENT) ;;;
          ret true
      end
  | _ => ret false
  end.

(** The common end of the cases that reset. *)
Definition reset_send_part (p : nat) (aec : Z) : M SM bool :=
  upd_stream p (set_reset_stream true aec) ;;;
  upd_stream p (set_send_state QUIC_SSTREAM_STATE_RESET_SENT) ;;;
  free_sstream p ;;;
  shutdown_flush_done p ;;;
  ossl_quic_stream_map_update_state p ;;;
  ret true.

Definition ossl_quic_stream_map_reset_stream_send_part (p : nat) (aec : Z) : M SM bool :=
  let! s := stream_at p in
  let from_send : M SM bool :=
    let! w := in_tx (ossl_quic_txfc_get_swm p) in
    upd_stream p (set_send_final_size w) ;;;
    reset_send_part p aec in
  match send_state s with
  | QUIC_SSTREAM_STATE_NONE | QUIC_SSTREAM_STATE_DATA_RECVD => ret false
  | QUIC_SSTREAM_STATE_READY =>
      let! ok := ossl_quic_stream_map_ensure_send_part_id p in
      if negb ok then ret false else from_send
  | QUIC_SSTREAM_STATE_SEND => from_send
  | QUIC_SSTREAM_STATE_DATA_SENT => reset_send_part p aec
  | QUIC_SSTREAM_STATE_RESET_SENT | QUIC_SSTREAM_STATE_RESET_RECVD => ret true
  end.

Definition ossl_quic_stream_map_notify_reset_stream_acked (p : nat) : M SM bool :=
  let! s := stream_at p in
  match send_state s with
  | QUIC_SSTREAM_STATE_RESET_SENT => upd_stream p (set_send_state QUIC_SSTREAM_STATE_RESET_RECVD) ;;; ret true
  | QUIC_SSTREAM_STATE_RESET_RECVD => ret true
  | _ => ret false
  end.

(** ** Definitions: the receive part *)

Definition ossl_quic_stream_map_notify_size_known_recv_part (p : nat) (final_size : Z) : M SM bool :=
  let! s := stream_at p in
  match recv_state s with
  | QUIC_RSTREAM_STATE_RECV => upd_stream p (set_recv_state QUIC_RSTREAM_STATE_SIZE_KNOWN) ;;; ret true
  | _ => ret false
  end.

Definition ossl_quic_stream_map_notify_totally_received (p : nat) : M SM bool :=
  let! s := stream_at p in
  match recv_state s with
  | QUIC_RSTREAM_STATE_SIZE_KNOWN =>
      upd_stream p (set_recv_state QUIC_RSTREAM_STATE_DATA_RECVD) ;;;
      upd_stream p (set_want_stop_sending false) ;;;
      ret true
  | _ => ret false
  end.

Definition ossl_quic_stream_map_notify_totally_read (p : nat) : M SM bool :=
  let! s := stream_at p in
  match recv_state s with
  | QUIC_RSTREAM_STATE_DATA_RECVD =>
      upd_stream p (set_recv_state QUIC_RSTREAM_STATE_DATA_READ) ;;;
      free_rstream p ;;;
      ret true
  | _ => ret false
  end.

Definition ossl_quic_stream_map_notify_reset_recv_part (p : nat) (app_error_code final_size : Z) : M SM bool :=
  let! s := stream_at p in
  match recv_state s with
  | QUIC_RSTREAM_STATE_NONE => ret false
  | QUIC_RSTREAM_STATE_RECV | QUIC_RSTREAM_STATE_SIZE_KNOWN | QUIC_RSTREAM_STATE_DATA_RECVD =>
      let! prev_final_size := ossl_quic_stream_recv_get_final_size p in
      if (match prev_final_size with Some v => negb (v =? final_size) | None => false end) then ret false
      else
        upd_stream p (set_recv_state QUIC_RSTREAM_STATE_RESET_RECVD) ;;;
        upd_stream p (set_peer_reset_stream_aec app_error_code) ;;;
        upd_stream p (set_want_stop_sending false) ;;;
        free_rstream p ;;;
        ossl_quic_stream_map_update_state p ;;;
        ret true
  | QUIC_RSTREAM_STATE_DATA_READ | QUIC_RSTREAM_STATE_RESET_RECVD | QUIC_RSTREAM_STATE_RESET_READ => ret true
  end.

Definition ossl_quic_stream_map_notify_app_read_reset_recv_part (p : nat) : M SM bool :=
  let! s := stream_at p in
  match recv_state s with
  | QUIC_RSTREAM_STATE_RESET_RECVD => upd_stream p (set_recv_state QUIC_RSTREAM_STATE_RESET_READ) ;;; ret true
  | _ => ret false
  end.

Definition ossl_quic_stream_map_schedule_stop_sending (p : nat) : M SM bool :=
  let! s := stream_at p in
  if negb (stop_sending s) then ret false
  else if want_stop_sending s then ret true
  else
    match recv_state s with
    | QUIC_RSTREAM_STATE_RECV | QUIC_RSTREAM_STATE_SIZE_KNOWN =>
        upd_stream p (set_want_stop_sending true) ;;;
        ossl_quic_stream_map_update_state p ;;;
        ret true
    | _ => ret true
    end.

Definition ossl_quic_stream_map_stop_sending_recv_part (p : nat) (aec : Z) : M SM bool :=
  let! s := stream_at p in
  if stop_sending s then ret false
  else
    match recv_state s with
    | QUIC_RSTREAM_STATE_RECV | QUIC_RSTREAM_STATE_SIZE_KNOWN =>
        upd_stream p (set_stop_sending true aec) ;;;
        ossl_quic_stream_map_schedule_stop_sending p
    | _ => ret false
    end.

(** ** Definitions: the accept queue *)

Definition ossl_quic_stream_map_peek_accept_queue : M SM (option nat) := in_accept (list_next Head Head).

Definition ossl_quic_stream_map_get_accept_queue_len (is_uni : bool) : M SM Z :=
  let! m := get_qsm in ret (if is_uni then num_accept_uni m else num_accept_bidi m).

Definition ossl_quic_stream_map_get_total_accept_queue_len : M SM Z :=
  let! b := ossl_quic_stream_map_get_accept_queue_len false in
  let! u := ossl_quic_stream_map_get_accept_queue_len true in
  ret (u64 (b + u)).

(** The loop has no bound in the source: it goes round the circle. *)
Fixpoint find_loop (fuel : nat) (is_uni : bool) (qs : option nat) : M SM (option nat) :=
  match qs with
  | None => ret None
  | Some p =>
      match fuel with
      | O => undef
      | S fuel' =>
          let! s := stream_at p in
          if (is_uni && negb (ossl_quic_stream_is_bidi s)) || (negb is_uni && ossl_quic_stream_is_bidi s)
          then ret (Some p)
          else
            let! n := in_accept (list_next Head (Node p)) in
            find_loop fuel' is_uni n
      end
  end.

Definition ossl_quic_stream_map_find_in_accept_queue (fuel : nat) (is_uni : bool) : M SM (option nat) :=
  let! n := ossl_quic_stream_map_get_accept_queue_len is_uni in
  if n =? 0 then ret None
  else
    let! qs := ossl_quic_stream_map_peek_accept_queue in
    find_loop fuel is_uni qs.

Definition ossl_quic_stream_map_push_accept_queue (p : nat) : M SM unit :=
  in_accept (list_insert_tail Head (Node p)) ;;;
  let! s := stream_at p in
  if ossl_quic_stream_is_bidi s
  then mod_qsm (fun m => set_num_accept (u64 (num_accept_bidi m + 1)) (num_accept_uni m) m)
  else mod_qsm (fun m => set_num_accept (num_accept_bidi m) (u64 (num_accept_uni m + 1)) m).

Definition qsm_get_max_streams_rxfc (p : nat) : M SM (option nat) :=
  let! s := stream_at p in
  let! m := get_qsm in
  ret (if ossl_quic_stream_is_bidi s then max_streams_bidi_rxfc m else max_streams_uni_rxfc m).

(** ** Definitions: collection and flushing *)

(** As many streams as there are nodes can be collected. *)
Fixpoint gc_loop (fuel : nat) (qs qs_head : option nat) : M SM unit :=
  match qs with
  | None => ret tt
  | Some p =>
      if bool_decide (qs = qs_head) then ret tt
      else
        match fuel with
        | O => undef
        | S fuel' =>
            let! qsn := in_gc (list_next Head (Node p)) in
            ossl_quic_stream_map_release qs ;;;
            gc_loop fuel' qsn qs_head
        end
  end.

Definition ossl_quic_stream_map_gc : M SM unit :=
  let! h := in_gc (list_next Head Head) in
  let! m := get_qsm in
  gc_loop (base.size (ready_for_gc_list m)) h h.

Definition eligible_for_shutdown_flush (p : nat) : M SM bool :=
  let! s := stream_at p in
  match send_state s with
  | QUIC_SSTREAM_STATE_SEND | QUIC_SSTREAM_STATE_DATA_SENT =>
      let! a := in_sstream p ossl_quic_sstream_is_totally_acked in ret (negb a)
  | _ => ret false
  end.

Definition begin_shutdown_flush_each (p : nat) : M SM unit :=
  let! e := eligible_for_shutdown_flush p in
  let! s := stream_at p in
  if negb e || shutdown_flush s then ret tt
  else
    upd_stream p (set_shutdown_flush true) ;;;
    mod_qsm (fun m => set_num_shutdown_flush (u64 (num_shutdown_flush m + 1)) m).

Definition ossl_quic_stream_map_begin_shutdown_flush : M SM unit :=
  mod_qsm (set_num_shutdown_flush 0) ;;;
  ossl_quic_stream_map_visit begin_shutdown_flush_each.

Definition ossl_quic_stream_map_is_shutdown_flush_finished : M SM bool :=
  let! m := get_qsm in ret (num_shutdown_flush m =? 0).

(** ** Definitions: iteration *)

Record QUIC_STREAM_ITER := mkIter { first_stream : option nat; it_stream : option nat }.

Definition ossl_quic_stream_iter_init (advance_rr : bool) : M SM QUIC_STREAM_ITER :=
  let! m := get_qsm in
  let it := mkIter (rr_cur m) (rr_cur m) in
  match rr_cur m with
  | Some p =>
      if advance_rr then
        mod_qsm (fun m => set_rr (rr_stepping m) (u64 (rr_counter m + 1)) m) ;;;
        let! m := get_qsm in
        if rr_counter m >=? rr_stepping m then
          mod_qsm (fun m => set_rr (rr_stepping m) 0 m) ;;;
          let! n := in_active (list_next Head (Node p)) in
          mod_qsm (set_rr_cur n) ;;;
          ret it
        else ret it
      else ret it
  | None => ret it
  end.

Definition ossl_quic_stream_iter_next (it : QUIC_STREAM_ITER) : M SM QUIC_STREAM_ITER :=
  match it_stream it with
  | None => ret it
  | Some p =>
      let! n := in_active (list_next Head (Node p)) in
      ret (mkIter (first_stream it) (if bool_decide (n = first_stream it) then None else n))
  end.

(** ** Definitions: events of the packetiser *)

Definition set_want (f : TXP -> TXP) : M SM unit := modify (fun s => upd_txp (f (txp s)) s).

Definition on_regen_notify (frame_type stream_id pkt_space : Z) : M SM unit :=
  if frame_type =? OSSL_QUIC_FRAME_TYPE_HANDSHAKE_DONE then
    set_want (fun t => mkTxp true (want_max_data t) (want_max_streams_bidi t) (want_max_streams_uni t) (want_ack t))
  else if frame_type =? OSSL_QUIC_FRAME_TYPE_MAX_DATA then
    set_want (fun t => mkTxp (want_handshake_done t) true (want_max_streams_bidi t) (want_max_streams_uni t) (want_ack t))
  else if frame_type =? OSSL_QUIC_FRAME_TYPE_MAX_STREAMS_BIDI then
    set_want (fun t => mkTxp (want_handshake_done t) (want_max_data t) true (want_max_streams_uni t) (want_ack t))
  else if frame_type =? OSSL_QUIC_FRAME_TYPE_MAX_STREAMS_UNI then
    set_want (fun t => mkTxp (want_handshake_done t) (want_max_data t) (want_max_streams_bidi t) true (want_ack t))
  else if frame_type =? OSSL_QUIC_FRAME_TYPE_ACK_WITH_ECN then
    set_want (fun t => mkTxp (want_handshake_done t) (want_max_data t) (want_max_streams_bidi t)
                         (want_max_streams_uni t) (Z.lor (want_ack t) (Z.shiftl 1 pkt_space)))
  else if frame_type =? OSSL_QUIC_FRAME_TYPE_MAX_STREAM_DATA then
    let! s := ossl_quic_stream_map_get_by_id stream_id in
    match s with
    | None => ret tt
    | Some p => upd_stream p (set_want_max_stream_data true) ;;; ossl_quic_stream_map_update_state p
    end
  else if frame_type =? OSSL_QUIC_FRAME_TYPE_STOP_SENDING then
    let! s := ossl_quic_stream_map_get_by_id stream_id in
    match s with
    | None => ret tt
    | Some p => ossl_quic_stream_map_schedule_stop_sending p ;;; ret tt
    end
  else if frame_type =? OSSL_QUIC_FRAME_TYPE_RESET_STREAM then
    let! s := ossl_quic_stream_map_get_by_id stream_id in
    match s with
    | None => ret tt
    | Some p => upd_stream p (set_want_reset_stream true) ;;; ossl_quic_stream_map_update_state p
    end
  else undef.

Definition on_confirm_notify (frame_type stream_id : Z) : M SM unit :=
  if frame_type =? OSSL_QUIC_FRAME_TYPE_STOP_SENDING then
    let! s := ossl_quic_stream_map_get_by_id stream_id in
    match s with
    | None => ret tt
    | Some p => upd_stream p (set_acked_stop_sending true) ;;; ossl_quic_stream_map_update_state p
    end
  else if frame_type =? OSSL_QUIC_FRAME_TYPE_RESET_STREAM then
    let! s := ossl_quic_stream_map_get_by_id stream_id in
    match s with
    | None => ret tt
    | Some p =>
        ossl_quic_stream_map_notify_reset_stream_acked p ;;;
        ossl_quic_stream_map_update_state p
    end
  else undef.

Definition on_sstream_updated (stream_id : Z) : M SM unit :=
  let! s := ossl_quic_stream_map_get_by_id stream_id in
  match s with
  | None => ret tt
  | Some p => ossl_quic_stream_map_update_state p
  end.

(** What is recorded for a stream of a packet that was sent: the arguments are the
    temporary fields that tell what the packet has of the stream. The result is 0 when the
    flow controllers had less credit. *)
Definition txp_stream_sent (p : nat) (txp_sent_fc txp_sent_stop_sending txp_sent_reset_stream : bool)
    (txp_txfc_new_credit_consumed : Z) : M SM bool :=
  (if txp_sent_fc then
     upd_stream p (set_want_max_stream_data false) ;;;
     in_rx (ossl_quic_rxfc_has_cwm_changed p true) ;;; ret tt
   else ret tt) ;;;
  (if txp_sent_stop_sending then upd_stream p (set_want_stop_sending false) else ret tt) ;;;
  (if txp_sent_reset_stream then upd_stream p (set_want_reset_stream false) else ret tt) ;;;
  let! rc :=
    if txp_txfc_new_credit_consumed >? 0
    then in_tx (ossl_quic_txfc_consume_credit p txp_txfc_new_credit_consumed) else ret true in
  ossl_quic_stream_map_update_state p ;;;
  let! s := stream_at p in
  (if ossl_quic_stream_has_send_buffer s then
     let! pending := in_sstream p ossl_quic_sstream_has_pending in
     let! q := sstream_at p in
     if negb pending && bool_decide (ossl_quic_sstream_get_final_size q <> None)
     then ossl_quic_stream_map_notify_all_data_sent p ;;; ret tt
     else ret tt
   else ret tt) ;;;
  ret rc.

(** ** Definitions: creation and rejection of streams *)

Section Channel.
(** The contents of freshly allocated memory, and the readings of the clock. *)
Context (fresh : Z -> list Z) (now : nat -> OSSL_TIME).

Definition ossl_quic_stream_map_remove_from_accept_queue (p : nat) (rtt : OSSL_TIME) : M SM unit :=
  in_accept (list_remove Head (Node p)) ;;;
  let! s := stream_at p in
  (if ossl_quic_stream_is_bidi s
   then mod_qsm (fun m => set_num_accept (u64 (num_accept_bidi m - 1)) (num_accept_uni m) m)
   else mod_qsm (fun m => set_num_accept (num_accept_bidi m) (u64 (num_accept_uni m - 1)) m)) ;;;
  let! fc := qsm_get_max_streams_rxfc p in
  match fc with
  | Some r => in_rx (ossl_quic_rxfc_on_retire now r 1 rtt) ;;; ret tt
  | None => ret tt
  end.

(** The flow controllers of the connection. *)
Definition conn_fc : nat := 0.

Definition INIT_APP_BUF_LEN : Z := 8192.
Definition DEFAULT_STREAM_RXFC_MAX_WND_MUL : Z := 12.

(** The buffers; the result is 0 when one cannot be allocated. *)
Definition new_sstream (p : nat) : M SM bool :=
  fun s =>
    match ossl_quic_sstream_new fresh INIT_APP_BUF_LEN (orc s) with
    | (Ok q, o) =>
        (upd_stream p (set_sstream q) ;;; ret (bool_decide (q <> None))) (upd_orc o s)
    | (_, o) => (Ub, upd_orc o s)
    end.

Definition new_rstream (p : nat) : M SM bool :=
  fun s =>
    match ossl_quic_rstream_new fresh None None 0 (rx s) (orc s) with
    | (Ok q, o) =>
        (upd_stream p (set_rstream q) ;;; ret (bool_decide (q <> None))) (upd_orc o s)
    | (_, o) => (Ub, upd_orc o s)
    end.

(** The initial limits of a stream, from the transport parameters. *)
Definition initial_cwm (c : QUIC_CHANNEL) (is_uni local_init : bool) : Z :=
  if is_uni then rx_init_max_stream_data_uni c
  else if local_init then rx_init_max_stream_data_bidi_local c
  else rx_init_max_stream_data_bidi_remote c.

Definition initial_rxfc_wnd (c : QUIC_CHANNEL) (can_recv is_uni local_init : bool) : Z :=
  if negb can_recv then 0
  else if is_uni then tx_init_max_stream_data_uni c
  else if local_init then tx_init_max_stream_data_bidi_local c
  else tx_init_max_stream_data_bidi_remote c.

Definition ch_init_new_stream (p : nat) (can_send can_recv : bool) : M SM bool :=
  let! s := stream_at p in
  let! st := get in
  let c := ch st in
  let server_init := ossl_quic_stream_is_server_init s in
  let local_init := Bool.eqb (is_server c) server_init in
  let is_uni := negb (ossl_quic_stream_is_bidi s) in
  let err : M SM bool := free_sstream p ;;; free_rstream p ;;; ret false in
  let! ok := if can_send then new_sstream p else ret true in
  if negb ok then err
  else
    let! ok := if can_recv then new_rstream p else ret true in
    if negb ok then err
    else
      let! ok := in_tx (ossl_quic_txfc_init p (Some conn_fc)) in
      if negb ok then err
      else
        (if got_remote_transport_params c && can_send
         then in_tx (ossl_quic_txfc_bump_cwm p (initial_cwm c is_uni local_init)) ;;; ret tt
         else ret tt) ;;;
        let rxfc_wnd := initial_rxfc_wnd c can_recv is_uni local_init in
        let! ok := in_rx (ossl_quic_rxfc_init p (Some conn_fc) rxfc_wnd
                            (u64 (DEFAULT_STREAM_RXFC_MAX_WND_MUL * rxfc_wnd))) in
        if negb ok then err else ret true.

Definition ch_get_local_stream_next_ordinal (is_uni : bool) (c : QUIC_CHANNEL) : Z :=
  if is_uni then next_local_stream_ordinal_uni c else next_local_stream_ordinal_bidi c.

Definition set_local_stream_next_ordinal (is_uni : bool) (v : Z) (c : QUIC_CHANNEL) : QUIC_CHANNEL :=
  if is_uni then set_ordinals (next_local_stream_ordinal_bidi c) v c
  else set_ordinals v (next_local_stream_ordinal_uni c) c.

Definition ossl_quic_channel_is_new_local_stream_admissible (is_uni : bool) : M SM bool :=
  let! st := get in
  ossl_quic_stream_map_is_local_allowed_by_stream_limit (ch_get_local_stream_next_ordinal is_uni (ch st)) is_uni.

Definition ossl_quic_channel_new_stream_local (is_uni : bool) : M SM (option nat) :=
  let! st := get in
  let type := Z.lor (if is_server (ch st) then QUIC_STREAM_INITIATOR_SERVER else QUIC_STREAM_INITIATOR_CLIENT)
                    (if is_uni then QUIC_STREAM_DIR_UNI else QUIC_STREAM_DIR_BIDI) in
  let ordinal := ch_get_local_stream_next_ordinal is_uni (ch st) in
  if ordinal >=? Z.shiftl 1 62 then ret None
  else
    let stream_id := Z.lor (u64 (Z.shiftl ordinal 2)) type in
    let! qs := ossl_quic_stream_map_alloc stream_id type in
    match qs with
    | None => ret None
    | Some p =>
        let! ok := ch_init_new_stream p true (negb is_uni) in
        if negb ok then ossl_quic_stream_map_release (Some p) ;;; ret None
        else
          modify (fun s => upd_ch (set_local_stream_next_ordinal is_uni (u64 (ordinal + 1)) (ch s)) s) ;;;
          ret (Some p)
    end.

Definition ossl_quic_channel_reject_stream (p : nat) : M SM unit :=
  let! st := get in
  ossl_quic_stream_map_stop_sending_recv_part p (incoming_stream_auto_reject_aec (ch st)) ;;;
  ossl_quic_stream_map_reset_stream_send_part p (incoming_stream_auto_reject_aec (ch st)) ;;;
  upd_stream p (set_deleted true) ;;;
  ossl_quic_stream_map_update_state p.

Definition ossl_quic_channel_new_stream_remote (stream_id : Z) : M SM (option nat) :=
  let! st := get in
  let peer_role := if is_server (ch st) then QUIC_STREAM_INITIATOR_CLIENT else QUIC_STREAM_INITIATOR_SERVER in
  if negb (Z.land stream_id QUIC_STREAM_INITIATOR_MASK =? peer_role) then ret None
  else
    let is_uni := Z.land stream_id QUIC_STREAM_DIR_MASK =? QUIC_STREAM_DIR_UNI in
    let! qs := ossl_quic_stream_map_alloc stream_id
                 (Z.land stream_id (Z.lor QUIC_STREAM_INITIATOR_MASK QUIC_STREAM_DIR_MASK)) in
    match qs with
    | None => ret None
    | Some p =>
        let! ok := ch_init_new_stream p (negb is_uni) true in
        if negb ok then ossl_quic_stream_map_release (Some p) ;;; ret None
        else
          (if incoming_stream_auto_reject (ch st) then ossl_quic_channel_reject_stream p
           else ossl_quic_stream_map_push_accept_queue p) ;;;
          ret (Some p)
    end.

(** ** Definitions: calls of the application *)

(** The error codes are not modelled. *)
Definition quic_validate_for_write (p : nat) : M SM bool :=
  let! s := stream_at p in
  let not_finished : M SM bool :=
    let! q := sstream_at p in ret (bool_decide (ossl_quic_sstream_get_final_size q = None)) in
  match send_state s with
  | QUIC_SSTREAM_STATE_READY =>
      let! ok := ossl_quic_stream_map_ensure_send_part_id p in
      if negb ok then ret false else not_finished
  | QUIC_SSTREAM_STATE_SEND | QUIC_SSTREAM_STATE_DATA_SENT => not_finished
  | _ => ret false
  end.

(** Without the tick of the reactor. *)
Definition quic_post_write (p : nat) (did_append did_append_all conclude : bool) : M SM unit :=
  (if did_append then ossl_quic_stream_map_update_state p else ret tt) ;;;
  if did_append_all && conclude then in_sstream p ossl_quic_sstream_fin else ret tt.

(** From the check of the stream's state on. *)
Definition ossl_quic_conn_stream_conclude (p : nat) : M SM bool :=
  let! ok := quic_validate_for_write p in
  if negb ok then ret false
  else
    let! q := sstream_at p in
    if bool_decide (ossl_quic_sstream_get_final_size q <> None) then ret true
    else
      in_sstream p ossl_quic_sstream_fin ;;;
      quic_post_write p true false false ;;;
      ret true.

(** The part of [ossl_quic_free] for the stream of an object that is freed. *)
Definition quic_free_stream (p : nat) : M SM unit :=
  let! s := stream_at p in
  (if bool_decide (send_state s = QUIC_SSTREAM_STATE_READY) || bool_decide (send_state s = QUIC_SSTREAM_STATE_SEND) then
     let! q := sstream_at p in
     if bool_decide (ossl_quic_sstream_get_final_size q = None)
     then ossl_quic_stream_map_reset_stream_send_part p 0 ;;; ret tt else ret tt
   else ret tt) ;;;
  let! s := stream_at p in
  (if bool_decide (recv_state s = QUIC_RSTREAM_STATE_RECV) || bool_decide (recv_state s = QUIC_RSTREAM_STATE_SIZE_KNOWN)
   then ossl_quic_stream_map_stop_sending_recv_part p 0 ;;; ret tt else ret tt) ;;;
  upd_stream p (set_deleted true) ;;;
  ossl_quic_stream_map_update_state p.

End Channel.
