(* ===== verification/StreamMapTheory.v ===== *)
(** The stream map of [StreamMap]: the invariant of the map with its streams, lists and
    counters, and what the functions that change the state of a stream do to it. *)

From stdpp Require Import base numbers gmap list.
From Stdlib Require Import ZArith Lia.
From S2P Require Import Prelude SafeMath Wire UintSet FlowControl RingBuf SStream Statm SFrameList RStream LHash StreamList StreamMap.

#[local] Open Scope cfun_scope.

#[export] Program Instance stream_key : LHashKey stream_ref Z := { lh_key := r_id }.
Next Obligation.
  intros d1 d2. cbn. unfold cmp_stream.
  destruct (Z.ltb_spec (r_id d1) (r_id d2)); [lia|]. destruct (Z.gtb_spec (r_id d1) (r_id d2)); lia.
Qed.
Next Obligation. intros d1 d2 E. cbn. unfold hash_stream. by rewrite E. Qed.
Next Obligation. intros d. cbn. apply u64_range. Qed.

(** ** Queries of the send buffer *)

(** Whether all of the buffer is acknowledged. *)
Definition tot (q : QUIC_SSTREAM) : bool :=
  match ossl_quic_sstream_is_totally_acked (q, [] : oracle) with (Ok b, _) => b | _ => false end.

(** The frame to send next. *)
Definition next_frame (q : QUIC_SSTREAM) : option stream_hdr :=
  match ossl_quic_sstream_get_stream_frame 0 2 (q, [] : oracle) with (Ok (h, _), _) => Some h | _ => None end.

Lemma totally_acked_any q o : ossl_quic_sstream_is_totally_acked (q, o)
  = (fst (ossl_quic_sstream_is_totally_acked (q, [] : oracle)), (q, o)).
Proof.
  unfold ossl_quic_sstream_is_totally_acked, bind. cbn [get_qss fst].
  destruct (_ && _); [done|]. destruct (_ =? 0); [done|].
  destruct (items (acked_set q)) as [|r [|]]; [done| |done]. unfold assert_. by destruct (_ <=? _).
Qed.

Lemma tot_run q a o : SStream.sim q a -> ossl_quic_sstream_is_totally_acked (q, o) = (Ok (tot q), (q, o)).
Proof.
  intros H. destruct (totally_acked_ok q a H) as (b & E & _). rewrite totally_acked_any. unfold tot. by rewrite E.
Qed.

Lemma next_frame_run q a o : SStream.sim q a ->
  exists r, ossl_quic_sstream_get_stream_frame 0 2 (q, o) = (r, (q, o)) /\
    match r with Ok (h, _) => next_frame q = Some h | Err => next_frame q = None | Ub => False end.
Proof.
  intros H. unfold next_frame.
  pose proof (get_stream_frame_ok q o a 0 2 H ltac:(lia)) as H1.
  pose proof (get_stream_frame_ok q ([] : oracle) a 0 2 H ltac:(lia)) as H2.
  destruct (skip_ranges 0 (items (new_set q))) as [[r|] k].
  - destruct H1 as (iov & -> & _), H2 as (iov' & -> & _). by eexists.
  - rewrite H1, H2. destruct (_ && _ && _); by eexists.
Qed.

(** ** The parts of a stream *)

(** What holds of a stream whenever no function is working on it. The send buffer exists in
    the states READY, SEND and DATA_SENT, the receive buffer in the states RECV, SIZE_KNOWN
    and DATA_RECVD. *)
Record stream_ok (x : QUIC_STREAM) : Prop := {
  ok_send : is_Some (sstream x) <-> ossl_quic_stream_has_send_buffer x = true;
  ok_recv : is_Some (rstream x) <-> ossl_quic_stream_has_recv_buffer x = true;
  ok_has_send : ossl_quic_stream_has_send x = ossl_quic_stream_is_local_init x || ossl_quic_stream_is_bidi x;
  ok_has_recv : ossl_quic_stream_has_recv x = negb (ossl_quic_stream_is_local_init x) || ossl_quic_stream_is_bidi x;
  ok_sim q : sstream x = Some q -> exists a, SStream.sim q a;
  ok_held q : rstream x = Some q -> refs (sfs q) ≡ₚ held (frames (fl (sfs q)));
  ok_ready q : send_state x = QUIC_SSTREAM_STATE_READY -> sstream x = Some q -> have_final_size q = false;
  ok_sent q : send_state x = QUIC_SSTREAM_STATE_DATA_SENT -> sstream x = Some q -> have_final_size q = true;
  ok_deleted : deleted x = true ->
    send_state x <> QUIC_SSTREAM_STATE_READY /\
    forall q, send_state x = QUIC_SSTREAM_STATE_SEND -> sstream x = Some q -> have_final_size q = true
}.

(** The streams of the list that are bidirectional, or not. *)
Definition of_dir (bidi : bool) (h : gmap nat QUIC_STREAM) (l : list nat) : list nat :=
  filter (fun p => ossl_quic_stream_is_bidi <$> h !! p = Some bidi) l.

(** The streams that the flush waits for. *)
Definition flushing (h : gmap nat QUIC_STREAM) : gset nat :=
  dom (filter (fun '(_, x) => shutdown_flush x = true) h).

(** ** The invariant *)

(** The number of streams that can be created. *)
Definition MAX_STREAMS : Z := 2 ^ 28.

(** The limits that the transport parameters of the peer set for new streams. *)
Definition init_limits (c : QUIC_CHANNEL) : list Z :=
  [rx_init_max_stream_data_bidi_local c; rx_init_max_stream_data_bidi_remote c; rx_init_max_stream_data_uni c].

(** The streams [N] are being worked on. The table represents [m]; the lists have the
    streams [A], [Q] and [G]. *)
Record sm_inv (N : gset nat) (s : SM) (m : gmap Z stream_ref) (A Q G : list nat) : Prop := {
  i_table : exists t, map_ (qsm s) = Some t /\ lh_rep t m;
  i_entry id r : m !! id = Some r -> r_id r = id /\ exists x, heap s !! r_ptr r = Some x /\ s_id x = id;
  i_active : list_rep (active_list (qsm s)) (dom (heap s)) A;
  i_accept : list_rep (accept_list (qsm s)) (dom (heap s)) Q;
  i_gc : list_rep (ready_for_gc_list (qsm s)) (dom (heap s)) G;
  i_active_iff p x : heap s !! p = Some x -> active x = true <-> p ∈ A;
  i_gc_iff p x : heap s !! p = Some x -> ready_for_gc x = true <-> p ∈ G;
  i_rr : match rr_cur (qsm s) with Some p => p ∈ A | None => A = [] end;
  i_bidi : num_accept_bidi (qsm s) = zlen (of_dir true (heap s) Q);
  i_uni : num_accept_uni (qsm s) = zlen (of_dir false (heap s) Q);
  i_flush : num_shutdown_flush (qsm s) = Z.of_nat (base.size (flushing (heap s)));
  i_brk p : p ∈ dom (heap s) -> (2 < p < brk s)%nat;
  i_low : (2 < brk s)%nat;
  i_size : (base.size m <= brk s)%nat;
  i_max : Z.of_nat (brk s) <= MAX_STREAMS;
  i_tx : tx_wf (tx s) /\ exists c, tx s !! conn_fc = Some c /\ tx_parent c = None;
  i_tx_parent p t c : tx s !! p = Some t -> tx_parent t = Some c -> c = conn_fc;
  i_tx_dom p : (brk s <= p)%nat -> tx s !! p = None;
  i_rx_conn : exists c, rxs (rx s) !! conn_fc = Some c /\ parent c = None;
  i_rx_parent p y c : rxs (rx s) !! p = Some y -> parent y = Some c -> c = conn_fc;
  i_rx_count p : max_streams_bidi_rxfc (qsm s) = Some p \/ max_streams_uni_rxfc (qsm s) = Some p ->
    (p <= 2)%nat /\ is_Some (rxs (rx s) !! p);
  i_limits : Forall is_u64 (init_limits (ch s));
  i_server p x : heap s !! p = Some x -> as_server x = is_server (ch s);
  i_streams p x : heap s !! p = Some x -> p ∉ N ->
    stream_ok x /\ (exists t, tx s !! p = Some t /\ tx_parent t = Some conn_fc) /\ is_Some (rxs (rx s) !! p)
}.

(** ** Accesses *)

Lemma stream_at_run s p x : heap s !! p = Some x -> stream_at p s = (Ok x, s).
Proof. unfold stream_at. by intros ->. Qed.

Lemma upd_stream_run s p x f : heap s !! p = Some x ->
  upd_stream p f s = (Ok tt, upd_heap (<[p := f x]> (heap s)) s).
Proof. intros H. unfold upd_stream. by rewrite (bind_ok _ _ _ _ _ (stream_at_run _ _ _ H)). Qed.

Lemma upd_heap_upd s h h' : upd_heap h (upd_heap h' s) = upd_heap h s.
Proof. done. Qed.

Lemma set_sstream_same x q : sstream x = Some q -> set_sstream (Some q) x = x.
Proof. destruct x; cbn. by intros ->. Qed.

Lemma upd_heap_same s p x : heap s !! p = Some x -> upd_heap (<[p := x]> (heap s)) s = s.
Proof. intros H. rewrite insert_id by done. by destruct s. Qed.

(** A query of the send buffer leaves the state as it is. *)
Lemma in_sstream_query {A} s p x q (m : M SS A) r : heap s !! p = Some x -> sstream x = Some q ->
  m (q, orc s) = (r, (q, orc s)) -> in_sstream p m s = (r, s).
Proof.
  intros H Hq E. unfold in_sstream. rewrite (bind_ok _ _ _ _ _ (stream_at_run _ _ _ H)), Hq, E.
  rewrite set_sstream_same by done. rewrite upd_heap_same by done. by destruct s.
Qed.

Lemma sstream_at_run s p x q : heap s !! p = Some x -> sstream x = Some q -> sstream_at p s = (Ok q, s).
Proof. intros H Hq. unfold sstream_at. by rewrite (bind_ok _ _ _ _ _ (stream_at_run _ _ _ H)), Hq. Qed.

Lemma get_qsm_run s : get_qsm s = (Ok (qsm s), s).
Proof. done. Qed.

(** *** What depends on one field of the streams *)

Lemma of_dir_ext b (h h' : gmap nat QUIC_STREAM) l :
  (forall p, p ∈ l -> ossl_quic_stream_is_bidi <$> h' !! p = ossl_quic_stream_is_bidi <$> h !! p) ->
  of_dir b h' l = of_dir b h l.
Proof.
  intros H. unfold of_dir. induction l as [|p l IH]; [done|]. rewrite !filter_cons, H by left.
  rewrite IH; [done|]. intros q Hq. apply H. by right.
Qed.

Lemma elem_of_flushing h p : p ∈ flushing h <-> exists x, h !! p = Some x /\ shutdown_flush x = true.
Proof.
  unfold flushing. rewrite elem_of_dom. unfold is_Some. setoid_rewrite map_lookup_filter_Some. naive_solver.
Qed.

Lemma flushing_ext (h h' : gmap nat QUIC_STREAM) :
  (forall p, shutdown_flush <$> h' !! p = shutdown_flush <$> h !! p) -> flushing h' = flushing h.
Proof.
  intros H. apply set_eq. intros p. rewrite !elem_of_flushing. specialize (H p).
  destruct (h' !! p), (h !! p); naive_solver.
Qed.

(** The fields that the lists and the counters depend on. *)
Record same_core (x x' : QUIC_STREAM) : Prop := {
  c_id : s_id x' = s_id x;
  c_type : s_type x' = s_type x;
  c_server : as_server x' = as_server x;
  c_active : active x' = active x;
  c_gc : ready_for_gc x' = ready_for_gc x;
  c_flush : shutdown_flush x' = shutdown_flush x
}.

Lemma bidi_same x x' : s_type x' = s_type x -> ossl_quic_stream_is_bidi x' = ossl_quic_stream_is_bidi x.
Proof. unfold ossl_quic_stream_is_bidi. by intros ->. Qed.

Lemma fmap_insert_same {B} (f : QUIC_STREAM -> B) (h : gmap nat QUIC_STREAM) p x x' q :
  h !! p = Some x -> f x' = f x -> f <$> <[p := x']> h !! q = f <$> h !! q.
Proof.
  intros H E. destruct (decide (q = p)) as [-> |]; [rewrite lookup_insert_eq, H; cbn; by rewrite E|].
  by rewrite lookup_insert_ne.
Qed.

Lemma dom_insert_same (h : gmap nat QUIC_STREAM) p x x' : h !! p = Some x -> dom (<[p := x']> h) = dom h.
Proof. intros H. apply dom_insert_lookup_L. by eexists. Qed.

(** ** Streams under work *)

(** The flow controllers of a stream. *)
Definition wired (s : SM) (p : nat) : Prop :=
  (exists t, tx s !! p = Some t /\ tx_parent t = Some conn_fc) /\ is_Some (rxs (rx s) !! p).

Lemma inv_ok N s m A Q G p x : sm_inv N s m A Q G -> heap s !! p = Some x -> p ∉ N -> stream_ok x /\ wired s p.
Proof. intros I H HN. destruct (i_streams _ _ _ _ _ _ I p x H HN) as (? & ? & ?). by split. Qed.

Lemma inv_open N s m A Q G p : sm_inv N s m A Q G -> sm_inv ({[p]} ∪ N) s m A Q G.
Proof. intros []. split; try done. intros q x H Hn. apply i_streams0; [done|]. set_solver. Qed.

Lemma inv_close N s m A Q G p x : sm_inv ({[p]} ∪ N) s m A Q G -> heap s !! p = Some x -> stream_ok x ->
  wired s p -> sm_inv N s m A Q G.
Proof.
  intros [] H Hx [? ?]. split; try done. intros q y Hy Hn. destruct (decide (q = p)) as [-> |].
  - simplify_eq. by split_and!.
  - apply i_streams0; [done|]. set_solver.
Qed.

(** The fields that [stream_ok] depends on. *)
Lemma stream_ok_ext x x' : stream_ok x ->
  s_type x' = s_type x -> as_server x' = as_server x -> sstream x' = sstream x -> rstream x' = rstream x ->
  send_state x' = send_state x -> recv_state x' = recv_state x -> deleted x' = deleted x -> stream_ok x'.
Proof.
  intros [H1 H2 H3 H4 H5 H6 H7 H7s H8] E1 E2 E3 E4 E5 E6 E7. split;
    unfold ossl_quic_stream_has_send_buffer, ossl_quic_stream_has_recv_buffer, ossl_quic_stream_has_send,
      ossl_quic_stream_has_recv, ossl_quic_stream_is_local_init, ossl_quic_stream_is_server_init,
      ossl_quic_stream_is_bidi in *; rewrite ?E1, ?E2, ?E3, ?E4, ?E5, ?E6, ?E7; done.
Qed.

(** Nothing changes but the streams, the lists and the counters. *)
Record same_env (s s' : SM) : Prop := {
  e_tx : tx s' = tx s;
  e_rx : rx s' = rx s;
  e_brk : brk s' = brk s;
  e_orc : orc s' = orc s;
  e_txp : txp s' = txp s;
  e_ch : set_flush_done 0 (ch s') = set_flush_done 0 (ch s);
  e_cb : get_stream_limit_cb (qsm s') = get_stream_limit_cb (qsm s);
  e_map : map_ (qsm s') = map_ (qsm s)
}.

#[export] Instance same_env_refl : Reflexive same_env.
Proof. by split. Qed.
#[export] Instance same_env_trans : Transitive same_env.
Proof. intros s1 s2 s3 [] []. split; congruence. Qed.

Lemma wired_env s s' p : same_env s s' -> wired s p -> wired s' p.
Proof. intros [E1 E2 _ _ _ _ _ _]. unfold wired. by rewrite E1, E2. Qed.

Lemma env_server s s' : same_env s s' -> is_server (ch s') = is_server (ch s).
Proof. intros E. pose proof (f_equal is_server (e_ch _ _ E)). done. Qed.

(** ** Changes of one stream *)

Lemma flushing_insert h p x x' : h !! p = Some x ->
  Z.of_nat (base.size (flushing (<[p := x']> h))) =
  Z.of_nat (base.size (flushing h)) - Z.b2z (shutdown_flush x) + Z.b2z (shutdown_flush x').
Proof.
  intros H. set (F := flushing h ∖ {[p]}).
  assert (Hsz : forall h' y, h' !! p = Some y -> (forall q, q <> p -> h' !! q = h !! q) ->
    Z.of_nat (base.size (flushing h')) = Z.of_nat (base.size F) + Z.b2z (shutdown_flush y)).
  { intros h' y Hy Hq. destruct (shutdown_flush y) eqn:Ey; cbn [Z.b2z].
    - assert (flushing h' = {[p]} ∪ F) as ->.
      { apply set_eq. intros q. rewrite elem_of_union, elem_of_singleton. unfold F.
        rewrite elem_of_difference, elem_of_singleton, !elem_of_flushing.
        destruct (decide (q = p)) as [-> |Hne]; [split; [by left|intros _; by exists y]|].
        rewrite (Hq q Hne). tauto. }
      rewrite size_union, size_singleton by set_solver. lia.
    - assert (flushing h' = F) as ->; [|lia]. apply set_eq. intros q. unfold F.
      rewrite elem_of_difference, elem_of_singleton, !elem_of_flushing.
      destruct (decide (q = p)) as [-> |Hne]; [|rewrite (Hq q Hne); tauto].
      split; [|by intros [_ []]]. intros (z & Hz & Ez). congruence. }
  rewrite (Hsz h x H) by done. rewrite (Hsz (<[p := x']> h) x'); [lia|by rewrite lookup_insert_eq|].
  intros q Hq. by rewrite lookup_insert_ne.
Qed.

(** The fields that do not change. *)
Definition same_id (x x' : QUIC_STREAM) : Prop :=
  s_id x' = s_id x /\ s_type x' = s_type x /\ as_server x' = as_server x.

(** One stream changes, with its places in the lists and the count of flushed streams. *)
Lemma inv_change N s s' m A Q G A' G' p x x' : sm_inv N s m A Q G -> heap s !! p = Some x -> same_id x x' ->
  heap s' = <[p := x']> (heap s) -> same_env s s' ->
  accept_list (qsm s') = accept_list (qsm s) ->
  num_accept_bidi (qsm s') = num_accept_bidi (qsm s) -> num_accept_uni (qsm s') = num_accept_uni (qsm s) ->
  max_streams_bidi_rxfc (qsm s') = max_streams_bidi_rxfc (qsm s) ->
  max_streams_uni_rxfc (qsm s') = max_streams_uni_rxfc (qsm s) ->
  num_shutdown_flush (qsm s') = num_shutdown_flush (qsm s) - Z.b2z (shutdown_flush x) + Z.b2z (shutdown_flush x') ->
  list_rep (active_list (qsm s')) (dom (heap s)) A' -> (active x' = true <-> p ∈ A') ->
  (forall q, q <> p -> q ∈ A' <-> q ∈ A) -> match rr_cur (qsm s') with Some q => q ∈ A' | None => A' = [] end ->
  list_rep (ready_for_gc_list (qsm s')) (dom (heap s)) G' -> (ready_for_gc x' = true <-> p ∈ G') ->
  (forall q, q <> p -> q ∈ G' <-> q ∈ G) ->
  (p ∉ N -> stream_ok x') -> sm_inv N s' m A' Q G'.
Proof.
  intros I H (C1 & C2 & C3) Hh [E1 E2 E3 _ _ E6 _ E8] F1 F2 F3 F4 F5 Hfl HA HA1 HA2 Hrr HG HG1 HG2 Hok.
  pose proof (dom_insert_same _ p x x' H) as Hd.
  assert (Hlk : forall q y, <[p := x']> (heap s) !! q = Some y ->
    exists y0, heap s !! q = Some y0 /\ (q = p /\ y = x' /\ y0 = x \/ q <> p /\ y = y0)).
  { intros q y [[<- <-]|[? ?]]%lookup_insert_Some; eauto 10. }
  pose proof (f_equal is_server E6) as Esrv. cbn in Esrv.
  pose proof (f_equal init_limits E6) as Elim. change (init_limits (ch s') = init_limits (ch s)) in Elim.
  destruct I. split; rewrite ?Hh, ?Hd, ?E1, ?E2, ?E3, ?E8, ?F1, ?F2, ?F3, ?F4, ?F5, ?Esrv, ?Elim; try done.
  - intros id r Hr. destruct (i_entry0 id r Hr) as (E & y & Hy & Ey). split; [done|].
    destruct (decide (r_ptr r = p)) as [Ep|]; [|exists y; by rewrite lookup_insert_ne].
    exists x'. rewrite Ep, lookup_insert_eq. rewrite Ep in Hy. simplify_eq. by rewrite C1.
  - intros q y (y0 & Hq & [(-> & -> & ->)|(? & ->)])%Hlk; [done|]. rewrite HA2 by done. eauto.
  - intros q y (y0 & Hq & [(-> & -> & ->)|(? & ->)])%Hlk; [done|]. rewrite HG2 by done. eauto.
  - rewrite i_bidi0. f_equal. symmetry. apply of_dir_ext. intros. apply (fmap_insert_same _ _ _ x); [done|by apply bidi_same].
  - rewrite i_uni0. f_equal. symmetry. apply of_dir_ext. intros. apply (fmap_insert_same _ _ _ x); [done|by apply bidi_same].
  - rewrite Hfl, (flushing_insert _ _ _ _ H). lia.
  - intros q y (y0 & Hq & [(-> & -> & ->)|(? & ->)])%Hlk; [rewrite C3|]; eauto.
  - intros q y (y0 & Hq & [(-> & -> & ->)|(? & ->)])%Hlk Hn; [|eauto].
    destruct (i_streams0 p x H Hn) as (_ & ? & ?). auto.
Qed.

(** A change that no list and no counter depends on. *)
Lemma inv_upd N s m A Q G p x x' : sm_inv N s m A Q G -> heap s !! p = Some x -> same_core x x' ->
  (p ∉ N -> stream_ok x') -> sm_inv N (upd_heap (<[p := x']> (heap s)) s) m A Q G.
Proof.
  intros I H [C1 C2 C3 C4 C5 C6] Hok. eapply inv_change; try done; try (by apply I).
  - cbn. rewrite C6. lia.
  - rewrite C4. by eapply i_active_iff.
  - rewrite C5. by eapply i_gc_iff.
Qed.

Lemma env_heap s h : same_env s (upd_heap h s).
Proof. by split. Qed.

(** ** The list of active streams *)

Lemma zoom_run {S T A} (sel : S -> T) (upd : T -> S -> S) (m : M T A) s r t :
  m (sel s) = (r, t) -> zoom sel upd m s = (r, upd t s).
Proof. unfold zoom. by intros ->. Qed.

Lemma zoom_query {S T A} (sel : S -> T) (upd : T -> S -> S) (m : M T A) s r :
  m (sel s) = (r, sel s) -> upd (sel s) s = s -> zoom sel upd m s = (r, s).
Proof. unfold zoom. by intros -> ->. Qed.

(** The links of the active streams, and the stream with which the rotation continues. *)
Definition with_active (l : links) (r : option nat) (s : SM) : SM :=
  upd_qsm (set_rr_cur r (set_active_list l (qsm s))) s.


Lemma in_active_run {A} (m : M links A) s r l :
  m (active_list (qsm s)) = (r, l) -> in_active m s = (r, with_active l (rr_cur (qsm s)) s).
Proof. intros E. unfold in_active, zoom. by rewrite E. Qed.

(** The state after a change of the active list, of the rotation and of one stream. *)
Lemma inv_with_active N s m A Q G A' p x b l r : sm_inv N s m A Q G -> heap s !! p = Some x ->
  list_rep l (dom (heap s)) A' -> (b = true <-> p ∈ A') -> (forall q, q <> p -> q ∈ A' <-> q ∈ A) ->
  match r with Some q => q ∈ A' | None => A' = [] end ->
  sm_inv N (upd_heap (<[p := set_active b x]> (heap s)) (with_active l r s)) m A' Q G.
Proof.
  intros I H Hl Hb Hq Hr. eapply (inv_change N s _ m A Q G A' G p x (set_active b x)); try done; try (by apply I).
  - cbn. lia.
  - exact (i_gc_iff _ _ _ _ _ _ I p x H).
  - intros Hn. destruct (inv_ok _ _ _ _ _ _ _ _ I H Hn) as [Hok _]. by eapply stream_ok_ext.
Qed.

Lemma env_with_active s h l r : same_env s (upd_heap h (with_active l r s)).
Proof. by split. Qed.

Lemma set_active_same x b : active x = b -> set_active b x = x.
Proof. destruct x; cbn. by intros ->. Qed.

Lemma in_dom s p (x : QUIC_STREAM) : heap s !! p = Some x -> p ∈ dom (heap s).
Proof. intros H. apply elem_of_dom. by eexists. Qed.

Lemma with_active_same s : with_active (active_list (qsm s)) (rr_cur (qsm s)) s = s.
Proof. destruct s as [[] ? ? ? ? ? ? ?]. done. Qed.

Lemma mark_active_ok N s m A Q G p x : sm_inv N s m A Q G -> heap s !! p = Some x ->
  exists s' A', stream_map_mark_active p s = (Ok tt, s') /\ sm_inv N s' m A' Q G /\
    heap s' = <[p := set_active true x]> (heap s) /\ same_env s s' /\
    A' = (if active x then A else A ++ [p]).
Proof.
  intros I H. unfold stream_map_mark_active. rewrite (bind_ok _ _ _ _ _ (stream_at_run _ _ _ H)).
  destruct (active x) eqn:Ha.
  { exists s, A. split_and!; try done. rewrite set_active_same by done. by rewrite insert_id. }
  assert (Hp : p ∉ A) by (rewrite <-(i_active_iff _ _ _ _ _ _ I p x H); congruence).
  destruct (insert_tail_ok _ _ _ _ (i_active _ _ _ _ _ _ I) (in_dom _ _ _ H) Hp) as (l & E & Hl).
  rewrite (bind_ok _ _ _ _ _ (in_active_run _ _ _ _ E)).
  set (r := if decide (rr_cur (qsm s) = None) then Some p else rr_cur (qsm s)).
  rewrite (bind_ok _ _ _ tt (with_active l r s)).
  2:{ unfold r. cbn. case_bool_decide; case_decide; try done. }
  rewrite (upd_stream_run _ p x) by done.
  exists (upd_heap (<[p := set_active true x]> (heap s)) (with_active l r s)), (A ++ [p]).
  split_and!; try done.
  apply (inv_with_active N s m A Q G (A ++ [p]) p x true l r); try done.
  - rewrite elem_of_app, list_elem_of_singleton. tauto.
  - intros q Hq. rewrite elem_of_app, list_elem_of_singleton. tauto.
  - unfold r. pose proof (i_rr _ _ _ _ _ _ I) as Hr.
    destruct (rr_cur (qsm s)); cbn; apply elem_of_app; [by left|right; left].
Qed.

(** The stream after [p] among the others; [None] when there is no other. *)
Definition after (p : nat) (l r : list nat) : option nat := list.head (r ++ l).

Lemma mark_inactive_ok N s m A Q G p x : sm_inv N s m A Q G -> heap s !! p = Some x ->
  exists s' A', stream_map_mark_inactive p s = (Ok tt, s') /\ sm_inv N s' m A' Q G /\
    heap s' = <[p := set_active false x]> (heap s) /\ same_env s s' /\
    (active x = false -> A' = A) /\
    (active x = true -> exists l r, A = l ++ p :: r /\ A' = l ++ r).
Proof.
  intros I H. unfold stream_map_mark_inactive. rewrite (bind_ok _ _ _ _ _ (stream_at_run _ _ _ H)).
  destruct (active x) eqn:Ha; cbn [negb].
  2:{ exists s, A. split_and!; try done. rewrite set_active_same by done. by rewrite insert_id. }
  assert (Hp : p ∈ A) by by rewrite <-(i_active_iff _ _ _ _ _ _ I p x H).
  pose proof (i_active _ _ _ _ _ _ I) as Hrep. pose proof (rep_nodup _ _ _ Hrep) as Hnd.
  apply list_elem_of_split in Hp as (l & r & ->).
  apply NoDup_app in Hnd as (Hl & Hlr & [Hnr Hr]%NoDup_cons).
  assert (Hnl : p ∉ l) by (intros Hi; apply (Hlr _ Hi); left).
  pose proof (next_ok _ _ _ _ _ Hrep) as En. destruct (take_out_ok _ _ _ _ _ Hrep) as (k & E & Hk).
  set (c := if decide (rr_cur (qsm s) = Some p) then after p l r else rr_cur (qsm s)).
  set (c0 := if decide (rr_cur (qsm s) = Some p) then list.head (r ++ l ++ [p]) else rr_cur (qsm s)).
  rewrite (bind_ok _ _ s tt (with_active (active_list (qsm s)) c0 s)).
  2:{ unfold c0. cbn -[in_active]. case_bool_decide; case_decide; try done; [|by rewrite with_active_same].
      by rewrite (bind_ok _ _ _ _ _ (in_active_run _ _ _ _ En)). }
  rewrite (bind_ok _ _ _ tt (with_active (active_list (qsm s)) c s)).
  2:{ unfold c, c0, after. cbn. case_decide; [|by rewrite bool_decide_false].
      destruct r as [|y r]; [destruct l as [|y l]|]; cbn; try by rewrite bool_decide_true.
      - rewrite bool_decide_false; [done|]. intros [= ->]. apply Hnl. left.
      - rewrite bool_decide_false; [done|]. intros [= ->]. apply Hnr. left. }
  rewrite (bind_ok _ _ _ tt (with_active k c s)) by exact (in_active_run _ (with_active _ c s) _ _ E).
  rewrite (upd_stream_run _ p x) by done.
  eexists _, (l ++ r). split; [done|]. split_and!; try done; [|by intros _; exists l, r].
  apply (inv_with_active N s m (l ++ p :: r) Q G (l ++ r) p x false k c); try done.
  - split; [done|]. rewrite elem_of_app. tauto.
  - intros q Hq. rewrite !elem_of_app, elem_of_cons. tauto.
  - unfold c, after. pose proof (i_rr _ _ _ _ _ _ I) as Hrr. case_decide as Hc.
    + destruct r as [|y r]; [destruct l as [|y l]|]; cbn; [done|left|]. apply elem_of_app. right. left.
    + destruct (rr_cur (qsm s)) as [q|]; [|by destruct l].
      rewrite elem_of_app, elem_of_cons in Hrr. rewrite elem_of_app. destruct Hrr as [?|[->|?]]; auto. done.
Qed.

(** ** The streams that a flush waits for *)

Lemma heap_bound N s m A Q G : sm_inv N s m A Q G -> Z.of_nat (base.size (dom (heap s))) <= MAX_STREAMS.
Proof.
  intros I. assert (Hs : dom (heap s) ⊆ (set_seq 0 (brk s) : gset nat)).
  { intros p Hp. apply elem_of_set_seq. destruct (i_brk _ _ _ _ _ _ I p Hp). lia. }
  apply subseteq_size in Hs. rewrite size_set_seq in Hs. pose proof (i_max _ _ _ _ _ _ I). lia.
Qed.

Lemma flush_bound N s m A Q G : sm_inv N s m A Q G ->
  0 <= num_shutdown_flush (qsm s) <= MAX_STREAMS.
Proof.
  intros I. rewrite (i_flush _ _ _ _ _ _ I). assert (Hs : flushing (heap s) ⊆ dom (heap s)).
  { intros p (x & Hx & _)%elem_of_flushing. by eapply in_dom. }
  apply subseteq_size in Hs. pose proof (heap_bound _ _ _ _ _ _ I). lia.
Qed.

Lemma flush_pos N s m A Q G p x : sm_inv N s m A Q G -> heap s !! p = Some x -> shutdown_flush x = true ->
  0 < num_shutdown_flush (qsm s).
Proof.
  intros I H Hx. rewrite (i_flush _ _ _ _ _ _ I).
  assert (Hp : p ∈ flushing (heap s)) by (apply elem_of_flushing; eauto).
  assert ({[p]} ⊆ flushing (heap s)) as Hs by set_solver. apply subseteq_size in Hs.
  rewrite size_singleton in Hs. lia.
Qed.

Lemma set_flush_same x : shutdown_flush x = false -> set_shutdown_flush false x = x.
Proof. destruct x; cbn. by intros ->. Qed.

Lemma shutdown_flush_done_ok N s m A Q G p x : sm_inv N s m A Q G -> heap s !! p = Some x ->
  exists s', shutdown_flush_done p s = (Ok tt, s') /\ sm_inv N s' m A Q G /\
    heap s' = <[p := set_shutdown_flush false x]> (heap s) /\ same_env s s' /\
    flush_done (ch s') = flush_done (ch s) + Z.b2z (shutdown_flush x && (num_shutdown_flush (qsm s') =? 0)).
Proof.
  intros I H. unfold shutdown_flush_done. rewrite (bind_ok _ _ _ _ _ (stream_at_run _ _ _ H)).
  destruct (shutdown_flush x) eqn:Hx; cbn [negb].
  2:{ exists s. split_and!; try done; [|cbn; lia]. rewrite set_flush_same by done. by rewrite insert_id. }
  pose proof (flush_pos _ _ _ _ _ _ _ _ I H Hx) as Hpos. pose proof (flush_bound _ _ _ _ _ _ I) as Hb.
  unfold MAX_STREAMS in Hb.
  rewrite (bind_ok _ _ s tt s) by (cbn; by replace (num_shutdown_flush (qsm s) >? 0) with true by lia).
  rewrite (bind_ok _ _ _ _ _ (upd_stream_run _ _ _ _ H)). unfold mod_qsm, modify, bind at 1.
  rewrite (bind_ok _ _ _ _ _ (get_qsm_run _)). cbn [upd_qsm upd_heap qsm set_num_shutdown_flush num_shutdown_flush].
  rewrite u64_id by lia. set (n := num_shutdown_flush (qsm s) - 1).
  set (s1 := upd_qsm (set_num_shutdown_flush n (qsm s)) (upd_heap (<[p := set_shutdown_flush false x]> (heap s)) s)).
  assert (I1 : forall c, set_flush_done 0 c = set_flush_done 0 (ch s) -> sm_inv N (upd_ch c s1) m A Q G).
  { intros c Ec. eapply (inv_change N s _ m A Q G A G p x (set_shutdown_flush false x)); try done; try (by apply I).
    - cbn. rewrite Hx. cbn. lia.
    - exact (i_active_iff _ _ _ _ _ _ I p x H).
    - exact (i_gc_iff _ _ _ _ _ _ I p x H).
    - intros Hn. destruct (inv_ok _ _ _ _ _ _ _ _ I H Hn) as [Hok _]. by eapply stream_ok_ext. }
  destruct (n =? 0) eqn:En.
  - eexists. split; [reflexivity|]. split; [exact (I1 (set_flush_done (flush_done (ch s) + 1) (ch s)) eq_refl)|].
    split_and!; [done|by split|]. cbn. rewrite En. done.
  - exists s1. split; [reflexivity|]. split; [exact (I1 (ch s) eq_refl)|]. split_and!; [done|by split|]. cbn. rewrite En. cbn. lia.
Qed.

(** ** The update of a stream's state *)

Definition totally (x : QUIC_STREAM) : bool := match sstream x with Some q => tot q | None => false end.

(** What acknowledgements do to a stream. *)
Definition acked_upd (x : QUIC_STREAM) : QUIC_STREAM :=
  if bool_decide (send_state x = QUIC_SSTREAM_STATE_DATA_SENT) && totally x
  then set_shutdown_flush false (set_sstream None (set_send_state QUIC_SSTREAM_STATE_DATA_RECVD x))
  else if shutdown_flush x && bool_decide (send_state x = QUIC_SSTREAM_STATE_SEND) && totally x
  then set_shutdown_flush false x else x.

Lemma send_buffer x : stream_ok x -> ossl_quic_stream_has_send_buffer x = true ->
  exists q a, sstream x = Some q /\ SStream.sim q a.
Proof.
  intros Hx Hs. apply (ok_send _ Hx) in Hs as [q Hq]. destruct (ok_sim _ Hx q Hq) as [a Ha]. by exists q, a.
Qed.

Lemma totally_run s p x : heap s !! p = Some x -> stream_ok x -> ossl_quic_stream_has_send_buffer x = true ->
  in_sstream p ossl_quic_sstream_is_totally_acked s = (Ok (totally x), s).
Proof.
  intros H Hx Hs. destruct (send_buffer x Hx Hs) as (q & a & Hq & Ha). unfold totally. rewrite Hq.
  eapply in_sstream_query; [done|done|]. by eapply tot_run.
Qed.

Lemma no_send_buffer x : stream_ok x -> ossl_quic_stream_has_send_buffer x = false -> sstream x = None.
Proof.
  intros Hx Hs. destruct (sstream x) eqn:E; [|done]. pose proof (proj1 (ok_send _ Hx)) as Hh. rewrite E in Hh.
  rewrite Hh in Hs; [done|by eexists].
Qed.

(** A send part that needs no buffer any more. *)
Lemma stream_ok_ended x st : stream_ok x -> send_state x <> QUIC_SSTREAM_STATE_NONE ->
  st ∈ [QUIC_SSTREAM_STATE_DATA_RECVD; QUIC_SSTREAM_STATE_RESET_SENT; QUIC_SSTREAM_STATE_RESET_RECVD] ->
  stream_ok (set_sstream None (set_send_state st x)).
Proof.
  intros [H1 H2 H3 H4 H5 H6 H7 H7s H8] Hs Hst. rewrite !elem_of_cons, elem_of_nil in Hst.
  assert (Hne : st <> QUIC_SSTREAM_STATE_NONE /\ st <> QUIC_SSTREAM_STATE_READY /\ st <> QUIC_SSTREAM_STATE_SEND)
    by (destruct Hst as [->|[->|[->|[]]]]; split_and!; done).
  split; try done.
  - cbn. split; [by intros []|]. unfold ossl_quic_stream_has_send_buffer; cbn.
    by destruct Hst as [->|[->|[->|[]]]].
  - etrans; [|exact H3]. unfold ossl_quic_stream_has_send. cbn. by rewrite !bool_decide_false by tauto.
  - cbn. intros _. split; [tauto|]. intros q E. tauto.
Qed.

Lemma acked_upd_ok x : stream_ok x -> stream_ok (acked_upd x).
Proof.
  intros Hx. unfold acked_upd. case_bool_decide as Hs; cbn [andb].
  - destruct (totally x); [|rewrite andb_false_r; done].
    eapply stream_ok_ext; [apply (stream_ok_ended x QUIC_SSTREAM_STATE_DATA_RECVD Hx)|..]; try done.
    + congruence.
    + left.
  - destruct (_ && _ && _); [by eapply stream_ok_ext|done].
Qed.

Lemma free_sstream_run s p x : heap s !! p = Some x ->
  free_sstream p s = (Ok tt, upd_heap (<[p := set_sstream None x]> (heap s)) s).
Proof. intros H. by apply upd_stream_run. Qed.

Lemma heap_same s p x : heap s !! p = Some x -> heap s = <[p := x]> (heap s).
Proof. intros H. by rewrite insert_id. Qed.

(** [heap s'] is [heap s] with the stream [x'] at [p]. *)
Lemma lookup_changed s s' p (x' : QUIC_STREAM) : heap s' = <[p := x']> (heap s) -> heap s' !! p = Some x'.
Proof. intros ->. by rewrite lookup_insert_eq. Qed.

Lemma totally_acked_part N s m A Q G p x : sm_inv N s m A Q G -> heap s !! p = Some x -> stream_ok x -> wired s p ->
  send_state x = QUIC_SSTREAM_STATE_DATA_SENT ->
  exists s', ossl_quic_stream_map_notify_totally_acked p s = (Ok true, s') /\ sm_inv N s' m A Q G /\ same_env s s' /\
    heap s' = <[p := set_shutdown_flush false (set_sstream None (set_send_state QUIC_SSTREAM_STATE_DATA_RECVD x))]> (heap s).
Proof.
  intros I H Hx Hw Hs. unfold ossl_quic_stream_map_notify_totally_acked.
  rewrite (bind_ok _ _ _ _ _ (stream_at_run _ _ _ H)), Hs. rewrite (bind_ok _ _ _ _ _ (upd_stream_run _ _ _ _ H)).
  set (x1 := set_send_state _ x). set (s1 := upd_heap _ s).
  assert (H1 : heap s1 !! p = Some x1) by (cbn; by rewrite lookup_insert_eq).
  rewrite (bind_ok _ _ _ _ _ (free_sstream_run _ _ _ H1)). cbn [s1 upd_heap heap]. rewrite insert_insert_eq.
  set (x2 := set_sstream None x1).
  assert (I2 : sm_inv N (upd_heap (<[p := x2]> (heap s)) s) m A Q G).
  { eapply inv_upd; [done|done|by split|]. intros _. apply stream_ok_ended; [done|congruence|left]. }
  destruct (shutdown_flush_done_ok _ _ _ _ _ _ p x2 I2 ltac:(cbn; by rewrite lookup_insert_eq))
    as (s3 & E3 & I3 & Hh & En & _).
  assert (E3' : shutdown_flush_done p (upd_heap (<[p := x2]> (heap s)) s1) = (Ok tt, s3)) by exact E3.
  rewrite (bind_ok _ _ _ _ _ E3'). exists s3. split_and!; [done|done|by etrans; [apply env_heap|]|].
  rewrite Hh. cbn [upd_heap heap]. by rewrite insert_insert_eq.
Qed.

Lemma update_acked_ok N s m A Q G p x : sm_inv N s m A Q G -> heap s !! p = Some x -> stream_ok x -> wired s p ->
  exists s', update_acked p s = (Ok tt, s') /\ sm_inv N s' m A Q G /\ same_env s s' /\
    heap s' = <[p := acked_upd x]> (heap s).
Proof.
  intros I H Hx Hw. unfold update_acked, acked_upd. rewrite (bind_ok _ _ _ _ _ (stream_at_run _ _ _ H)).
  case_bool_decide as Hs; cbn [andb].
  - rewrite (bind_ok _ _ _ _ _ (totally_run s p x H Hx ltac:(unfold ossl_quic_stream_has_send_buffer; by rewrite Hs))).
    destruct (totally x).
    + destruct (totally_acked_part _ _ _ _ _ _ p x I H Hx Hw Hs) as (s' & E & I' & En & Hh).
      rewrite (bind_ok _ _ _ _ _ E). by exists s'.
    + rewrite (bool_decide_false (send_state x = QUIC_SSTREAM_STATE_SEND)) by congruence. rewrite !andb_false_r.
      rewrite (bind_ok _ _ s false s) by done. exists s. split_and!; try done. by apply heap_same.
  - rewrite (bind_ok _ _ s false s) by done.
    assert (Ea : (if shutdown_flush x && bool_decide (send_state x = QUIC_SSTREAM_STATE_SEND)
      then in_sstream p ossl_quic_sstream_is_totally_acked else ret false) s
      = (Ok (shutdown_flush x && bool_decide (send_state x = QUIC_SSTREAM_STATE_SEND) && totally x), s)).
    { destruct (shutdown_flush x); [|done]. cbn [andb]. case_bool_decide as Hs2; [|done]. cbn [andb].
      apply totally_run; [done|done|]. unfold ossl_quic_stream_has_send_buffer. by rewrite Hs2. }
    rewrite (bind_ok _ _ _ _ _ Ea). destruct (_ && _ && _).
    + destruct (shutdown_flush_done_ok _ _ _ _ _ _ p x I H) as (s' & E & I' & Hh & En & _). by exists s'.
    + exists s. split_and!; try done. by apply heap_same.
Qed.

(** When a stream can be collected. *)
Definition gc_cond (x : QUIC_STREAM) : bool :=
  deleted x && (negb (ossl_quic_stream_has_recv x) || acked_stop_sending x)
  && (negb (ossl_quic_stream_has_send x) || bool_decide (send_state x = QUIC_SSTREAM_STATE_DATA_RECVD)
      || bool_decide (send_state x = QUIC_SSTREAM_STATE_RESET_RECVD)).

Definition gc_upd (x : QUIC_STREAM) : QUIC_STREAM :=
  if ready_for_gc x then x else set_ready_for_gc (gc_cond x) x.

Lemma gc_upd_ok x : stream_ok x -> stream_ok (gc_upd x).
Proof. intros Hx. unfold gc_upd. destruct (ready_for_gc x); [done|]. by eapply stream_ok_ext. Qed.

Lemma final_size_known s p x : heap s !! p = Some x -> stream_ok x -> deleted x = true ->
  ossl_quic_stream_has_send x = true ->
  exists v, ossl_quic_stream_send_get_final_size p s = (Ok (Some v), s).
Proof.
  intros H Hx Hd Hs. destruct (ok_deleted _ Hx Hd) as [Hr Hf].
  unfold ossl_quic_stream_send_get_final_size. rewrite (bind_ok _ _ _ _ _ (stream_at_run _ _ _ H)).
  unfold ossl_quic_stream_has_send in Hs. destruct (send_state x) eqn:E; try done; try by eexists.
  destruct (send_buffer x Hx) as (q & a & Hq & _); [unfold ossl_quic_stream_has_send_buffer; by rewrite E|].
  rewrite (bind_ok _ _ _ _ _ (sstream_at_run _ _ _ _ H Hq)).
  unfold ossl_quic_sstream_get_final_size. rewrite (Hf q) by done. by eexists.
Qed.

Lemma qsm_ready_for_gc_run s p x : heap s !! p = Some x -> stream_ok x -> qsm_ready_for_gc p s = (Ok (gc_cond x), s).
Proof.
  intros H Hx. unfold qsm_ready_for_gc. rewrite (bind_ok _ _ _ _ _ (stream_at_run _ _ _ H)).
  rewrite (bind_ok _ _ s true s).
  - rewrite (bind_ok _ _ s tt s) by done. unfold ret, gc_cond. by rewrite orb_false_r.
  - destruct (deleted x) eqn:Hd; [|done]. destruct (ossl_quic_stream_has_send x) eqn:Hs; [|done].
    destruct (ossl_quic_stream_send_is_reset x); [done|]. cbn [negb orb].
    destruct (final_size_known s p x H Hx Hd Hs) as (v & E). by rewrite (bind_ok _ _ _ _ _ E).
Qed.

Lemma update_gc_ok N s m A Q G p x : sm_inv N s m A Q G -> heap s !! p = Some x -> stream_ok x ->
  exists s' G', update_gc p s = (Ok tt, s') /\ sm_inv N s' m A Q G' /\ same_env s s' /\
    heap s' = <[p := gc_upd x]> (heap s) /\
    G' = (if negb (ready_for_gc x) && gc_cond x then G ++ [p] else G).
Proof.
  intros I H Hx. unfold update_gc, gc_upd. rewrite (bind_ok _ _ _ _ _ (stream_at_run _ _ _ H)).
  destruct (ready_for_gc x) eqn:Hr; cbn [negb andb].
  { exists s, G. split_and!; try done. by apply heap_same. }
  rewrite (bind_ok _ _ _ _ _ (qsm_ready_for_gc_run s p x H Hx)), (bind_ok _ _ _ _ _ (upd_stream_run _ _ _ _ H)).
  assert (Hp : p ∉ G) by (rewrite <-(i_gc_iff _ _ _ _ _ _ I p x H); congruence).
  destruct (gc_cond x) eqn:Hg.
  - destruct (insert_tail_ok _ _ _ _ (i_gc _ _ _ _ _ _ I) (in_dom _ _ _ H) Hp) as (l & E & Hl).
    eexists _, (G ++ [p]). split; [apply zoom_run; exact E|].
    split; [|by split_and!].
    eapply (inv_change N s _ m A Q G A (G ++ [p]) p x (set_ready_for_gc true x)); try done; try (by apply I).
    + cbn. lia.
    + exact (i_active_iff _ _ _ _ _ _ I p x H).
    + cbn. rewrite elem_of_app, list_elem_of_singleton. tauto.
    + intros q Hq. rewrite elem_of_app, list_elem_of_singleton. tauto.
    + intros _. by eapply stream_ok_ext.
  - eexists _, G. split; [done|]. split; [|by split_and!]. eapply inv_upd; [done|done| |].
    + by split.
    + intros _. by eapply stream_ok_ext.
Qed.

(** The offset up to which a stream may send, with the credit of the connection. *)
Definition fc_limit (s : SM) (p : nat) : Z :=
  match tx s !! p, tx s !! conn_fc with
  | Some t, Some c => tx_swm t + Z.min (tx_cwm t - tx_swm t) (tx_cwm c - tx_swm c)
  | _, _ => 0
  end.

(** The stream has a frame to send, and the credit for it. *)
Definition sendable (s : SM) (p : nat) (x : QUIC_STREAM) : bool :=
  ossl_quic_stream_has_send_buffer x &&
  match sstream x ≫= next_frame with
  | Some h => (hdr_is_fin h && (SStream.len h =? 0)) || (SStream.offset h <? fc_limit s p)
  | None => false
  end.

Lemma try_opt_run {S A} (m : M S A) s r : m s = (r, s) -> r <> Ub ->
  try_opt m s = (Ok (match r with Ok a => Some a | _ => None end), s).
Proof. intros E Hr. unfold try_opt. rewrite E. by destruct r. Qed.

Lemma has_data_run N s m A Q G p x : sm_inv N s m A Q G -> heap s !! p = Some x -> stream_ok x -> wired s p ->
  stream_has_data_to_send p s = (Ok (sendable s p x), s).
Proof.
  intros I H Hx [(t & Ht & Hp) _]. unfold stream_has_data_to_send, sendable.
  rewrite (bind_ok _ _ _ _ _ (stream_at_run _ _ _ H)). destruct (ossl_quic_stream_has_send_buffer x) eqn:Hs.
  2:{ unfold ossl_quic_stream_has_send_buffer in Hs. by destruct (send_state x). }
  destruct (send_buffer x Hx Hs) as (q & a & Hq & Ha). destruct (next_frame_run q a (orc s) Ha) as (r & E & Hr).
  assert (Hr' : r <> Ub) by (intros ->; done).
  pose proof (try_opt_run _ _ _ (in_sstream_query s p x q _ r H Hq E) Hr') as E1.
  destruct (i_tx _ _ _ _ _ _ I) as (Hwf & c & Hc & Hcp). pose proof (tx_wf_ok _ _ _ Hwf Ht) as Hto.
  pose proof (tx_wf_ok _ _ _ Hwf Hc) as Hco. unfold tx_ok, U64_MOD in Hto, Hco.
  cut (forall k : M SM bool, k = (let! f := try_opt (in_sstream p (ossl_quic_sstream_get_stream_frame 0 2)) in
      match f with
      | None => ret false
      | Some (shdr, _) =>
          let! fc_credit := in_tx (ossl_quic_txfc_get_credit p 0) in
          let! fc_swm := in_tx (ossl_quic_txfc_get_swm p) in
          ret ((hdr_is_fin shdr && (SStream.len shdr =? 0)) || (SStream.offset shdr <? u64 (fc_swm + fc_credit)))
      end) -> k s = (Ok (match sstream x ≫= next_frame with
        | Some h => (hdr_is_fin h && (SStream.len h =? 0)) || (SStream.offset h <? fc_limit s p)
        | None => false
        end), s)).
  { intros Hk. unfold ossl_quic_stream_has_send_buffer in Hs. destruct (send_state x); try done; by apply Hk. }
  intros k ->. rewrite (bind_ok _ _ _ _ _ E1), Hq. cbn [mbind option_bind].
  destruct r as [[h iov]| |]; [| |done]; rewrite Hr; [|done].
  assert (Ec : in_tx (ossl_quic_txfc_get_credit p 0) s
    = (Ok (Z.min (tx_cwm t - tx_swm t) (tx_cwm c - tx_swm c - 0)), s)).
  { apply zoom_query; [|by destruct s]. eapply get_credit_stream; try done. lia. }
  rewrite (bind_ok _ _ _ _ _ Ec). rewrite (bind_ok _ _ s (tx_swm t) s).
  2:{ apply zoom_query; [|by destruct s]. unfold ossl_quic_txfc_get_swm. by rewrite (bind_ok _ _ _ _ _ (tx_load_ok _ _ _ Ht)). }
  unfold fc_limit, ret. rewrite Ht, Hc, Z.sub_0_r. rewrite u64_id by lia. done.
Qed.

Definition cwm_changed (s : SM) (p : nat) : bool :=
  match rxs (rx s) !! p with Some y => has_cwm_changed y | None => false end.

(** When frames can be generated for a stream. *)
Definition wanted (s : SM) (p : nat) (x : QUIC_STREAM) (allowed : bool) : bool :=
  allowed && negb (ready_for_gc x) &&
  ((bool_decide (recv_state x = QUIC_RSTREAM_STATE_RECV) && (want_max_stream_data x || cwm_changed s p))
   || want_stop_sending x || want_reset_stream x || (negb (peer_stop_sending x) && sendable s p x)).

Lemma cwm_changed_run s p : is_Some (rxs (rx s) !! p) ->
  in_rx (ossl_quic_rxfc_has_cwm_changed p false) s = (Ok (cwm_changed s p), s).
Proof.
  intros [y Hy]. apply zoom_query; [|by destruct s]. unfold ossl_quic_rxfc_has_cwm_changed, cwm_changed.
  rewrite (bind_ok _ _ _ _ _ (rx_load_ok _ _ _ Hy)), Hy. by rewrite (bind_ok _ _ _ tt (rx s)).
Qed.

Lemma should_be_active_run N s m A Q G p x b : sm_inv N s m A Q G -> heap s !! p = Some x -> stream_ok x -> wired s p ->
  should_be_active p b s = (Ok (wanted s p x b), s).
Proof.
  intros I H Hx Hw. unfold should_be_active, wanted. rewrite (bind_ok _ _ _ _ _ (stream_at_run _ _ _ H)).
  destruct (b && negb (ready_for_gc x)); cbn [negb andb]; [|done].
  set (fc := bool_decide (recv_state x = QUIC_RSTREAM_STATE_RECV) && (want_max_stream_data x || cwm_changed s p)).
  rewrite (bind_ok _ _ s fc s).
  - destruct (fc || want_stop_sending x || want_reset_stream x); [done|]. cbn [orb].
    destruct (peer_stop_sending x); [done|]. cbn [negb andb]. by eapply has_data_run.
  - unfold fc, ossl_quic_stream_has_recv, ossl_quic_stream_recv_is_reset.
    destruct (recv_state x); cbn; try done. destruct (want_max_stream_data x); [done|].
    apply cwm_changed_run, Hw.
Qed.

(** Whether the limit of the peer allows the stream. *)
Definition local_allowed (s : SM) (x : QUIC_STREAM) : bool :=
  if Bool.eqb (ossl_quic_stream_is_server_init x) (is_server (ch s))
  then match get_stream_limit_cb (qsm s) with
       | Some cb => Z.shiftr (s_id x) 2 <? cb (ch s) (negb (ossl_quic_stream_is_bidi x))
       | None => true
       end
  else true.

(** The stream after an update. *)
Definition updated (s : SM) (p : nat) (x : QUIC_STREAM) : QUIC_STREAM :=
  let x' := gc_upd (acked_upd x) in set_active (wanted s p x' (local_allowed s x)) x'.

Lemma updated_ok s p x : stream_ok x -> stream_ok (updated s p x).
Proof.
  intros Hx. unfold updated. eapply stream_ok_ext; [by apply gc_upd_ok, acked_upd_ok|..]; done.
Qed.

Lemma wanted_env s s' p x b : same_env s s' -> wanted s' p x b = wanted s p x b.
Proof. intros [E1 E2 _ _ _ _ _ _]. unfold wanted, sendable, fc_limit, cwm_changed. by rewrite E1, E2. Qed.

(** The state [s'] has the stream [x'] at [p], and else the streams of [s]. *)
Definition stepped (N : gset nat) (s : SM) (m : gmap Z stream_ref) (Q : list nat) (p : nat) (x' : QUIC_STREAM) (s' : SM)
  : Prop :=
  (exists A G, sm_inv N s' m A Q G) /\ same_env s s' /\ heap s' = <[p := x']> (heap s).

Lemma update_state_ok N s m A Q G p x : sm_inv N s m A Q G -> heap s !! p = Some x -> stream_ok x -> wired s p ->
  exists s', ossl_quic_stream_map_update_state p s = (Ok tt, s') /\ stepped N s m Q p (updated s p x) s'.
Proof.
  intros I H Hx Hw. unfold ossl_quic_stream_map_update_state.
  rewrite (bind_ok _ _ _ _ _ (stream_at_run _ _ _ H)), (bind_ok get _ s s s eq_refl).
  rewrite (bind_ok _ _ s (local_allowed s x) s).
  2:{ unfold local_allowed, ossl_quic_stream_map_is_local_allowed_by_stream_limit. destruct (Bool.eqb _ _); [|done].
      rewrite (bind_ok get _ s s s eq_refl). by destruct (get_stream_limit_cb (qsm s)). }
  destruct (update_acked_ok _ _ _ _ _ _ p x I H Hx Hw) as (s1 & E1 & I1 & En1 & Hh1).
  rewrite (bind_ok _ _ _ _ _ E1). pose proof (lookup_changed _ _ _ _ Hh1) as H1.
  destruct (update_gc_ok _ _ _ _ _ _ p _ I1 H1 (acked_upd_ok x Hx)) as (s2 & G2 & E2 & I2 & En2 & Hh2 & _).
  rewrite (bind_ok _ _ _ _ _ E2). pose proof (lookup_changed _ _ _ _ Hh2) as H2.
  assert (En : same_env s s2) by by etrans.
  set (x2 := gc_upd (acked_upd x)) in *. assert (Hx2 : stream_ok x2) by by apply gc_upd_ok, acked_upd_ok.
  rewrite (bind_ok _ _ _ _ _ (should_be_active_run _ _ _ _ _ _ p x2 (local_allowed s x) I2 H2 Hx2 (wired_env _ _ _ En Hw))).
  rewrite (wanted_env s s2) by done. unfold updated. fold x2. destruct (wanted s p x2 (local_allowed s x)).
  - destruct (mark_active_ok _ _ _ _ _ _ p x2 I2 H2) as (s3 & A3 & E3 & I3 & Hh3 & En3 & _).
    exists s3. split; [done|]. split; [by eexists _, _|]. split; [by etrans|].
    by rewrite Hh3, Hh2, Hh1, !insert_insert_eq.
  - destruct (mark_inactive_ok _ _ _ _ _ _ p x2 I2 H2) as (s3 & A3 & E3 & I3 & Hh3 & En3 & _).
    exists s3. split; [done|]. split; [by eexists _, _|]. split; [by etrans|].
    by rewrite Hh3, Hh2, Hh1, !insert_insert_eq.
Qed.
