(* ===== verification/StreamMapOps.v ===== *)
(** The functions of [StreamMap] on one stream: each of them is defined when it is called
    for a stream that exists, keeps the invariant of [StreamMapTheory], and moves the two
    parts of the stream along the edges of the state machines of RFC 9000. *)

From stdpp Require Import base numbers gmap list relations.
From Stdlib Require Import ZArith Lia.
From S2P Require Import Prelude SafeMath Wire UintSet FlowControl RingBuf SStream Statm SFrameList RStream LHash StreamList StreamMap StreamMapTheory.

#[local] Open Scope cfun_scope.

(** ** How a stream evolves *)

(** RFC 9000, sections 3.1 and 3.2. *)
Inductive send_edge : send_states -> send_states -> Prop :=
| edge_send : send_edge QUIC_SSTREAM_STATE_READY QUIC_SSTREAM_STATE_SEND
| edge_data_sent : send_edge QUIC_SSTREAM_STATE_SEND QUIC_SSTREAM_STATE_DATA_SENT
| edge_data_recvd : send_edge QUIC_SSTREAM_STATE_DATA_SENT QUIC_SSTREAM_STATE_DATA_RECVD
| edge_reset_ready : send_edge QUIC_SSTREAM_STATE_READY QUIC_SSTREAM_STATE_RESET_SENT
| edge_reset_send : send_edge QUIC_SSTREAM_STATE_SEND QUIC_SSTREAM_STATE_RESET_SENT
| edge_reset_sent : send_edge QUIC_SSTREAM_STATE_DATA_SENT QUIC_SSTREAM_STATE_RESET_SENT
| edge_reset_recvd : send_edge QUIC_SSTREAM_STATE_RESET_SENT QUIC_SSTREAM_STATE_RESET_RECVD.

Inductive recv_edge : recv_states -> recv_states -> Prop :=
| edge_size_known : recv_edge QUIC_RSTREAM_STATE_RECV QUIC_RSTREAM_STATE_SIZE_KNOWN
| edge_received : recv_edge QUIC_RSTREAM_STATE_SIZE_KNOWN QUIC_RSTREAM_STATE_DATA_RECVD
| edge_read : recv_edge QUIC_RSTREAM_STATE_DATA_RECVD QUIC_RSTREAM_STATE_DATA_READ
| edge_rreset_recv : recv_edge QUIC_RSTREAM_STATE_RECV QUIC_RSTREAM_STATE_RESET_RECVD
| edge_rreset_size : recv_edge QUIC_RSTREAM_STATE_SIZE_KNOWN QUIC_RSTREAM_STATE_RESET_RECVD
| edge_rreset_data : recv_edge QUIC_RSTREAM_STATE_DATA_RECVD QUIC_RSTREAM_STATE_RESET_RECVD
| edge_rreset_read : recv_edge QUIC_RSTREAM_STATE_RESET_RECVD QUIC_RSTREAM_STATE_RESET_READ.

(** The states in which the final size of the send part is settled. *)
Definition size_settled (st : send_states) : bool :=
  match st with
  | QUIC_SSTREAM_STATE_DATA_SENT | QUIC_SSTREAM_STATE_DATA_RECVD
  | QUIC_SSTREAM_STATE_RESET_SENT | QUIC_SSTREAM_STATE_RESET_RECVD => true
  | _ => false
  end.

Record evolves (x x' : QUIC_STREAM) : Prop := {
  ev_id : same_id x x';
  ev_send : rtc send_edge (send_state x) (send_state x');
  ev_recv : rtc recv_edge (recv_state x) (recv_state x');
  ev_size : size_settled (send_state x) = true -> send_final_size x' = send_final_size x;
  ev_deleted : deleted x = true -> deleted x' = true;
  ev_stop : stop_sending x = true -> stop_sending x' = true;
  ev_gc : ready_for_gc x = true -> ready_for_gc x' = true
}.

Lemma settled_keeps a b : rtc send_edge a b -> size_settled a = true -> size_settled b = true.
Proof. induction 1 as [|a b c [] _ IH]; cbn; auto; discriminate. Qed.

#[export] Instance evolves_refl : Reflexive evolves.
Proof. by split. Qed.

#[export] Instance evolves_trans : Transitive evolves.
Proof.
  intros x y z [(I1 & I2 & I3) S1 R1 F1 D1 T1 G1] [(J1 & J2 & J3) S2 R2 F2 D2 T2 G2].
  split; auto.
  - split_and!; congruence.
  - by etrans.
  - by etrans.
  - intros Hs. rewrite F2; [by apply F1|]. by eapply settled_keeps.
Qed.

(** All streams evolve, and none appears or disappears. *)
Definition evolved (h h' : gmap nat QUIC_STREAM) : Prop :=
  forall p, match h !! p, h' !! p with
            | Some x, Some x' => evolves x x'
            | None, None => True
            | _, _ => False
            end.

#[export] Instance evolved_refl : Reflexive evolved.
Proof. intros h p. by destruct (h !! p). Qed.

#[export] Instance evolved_trans : Transitive evolved.
Proof.
  intros h1 h2 h3 H12 H23 p. specialize (H12 p). specialize (H23 p).
  destruct (h1 !! p), (h2 !! p), (h3 !! p); try done. by etrans.
Qed.

Lemma evolved_insert h p x x' : h !! p = Some x -> evolves x x' -> evolved h (<[p := x']> h).
Proof.
  intros H E q. destruct (decide (q = p)) as [-> |]; [by rewrite H, lookup_insert_eq|].
  rewrite lookup_insert_ne by done. by destruct (h !! q).
Qed.

Lemma evolved_lookup h h' p x : evolved h h' -> h !! p = Some x -> exists x', h' !! p = Some x' /\ evolves x x'.
Proof. intros E H. specialize (E p). rewrite H in E. destruct (h' !! p) as [x'|]; [|done]. by exists x'. Qed.

(** ** Updates *)

Lemma acked_upd_evolves x : evolves x (acked_upd x).
Proof.
  unfold acked_upd. case_bool_decide as Hs; cbn [andb].
  - destruct (totally x); [|by rewrite andb_false_r]. split; try done. cbn. rewrite Hs. apply rtc_once. constructor.
  - by destruct (_ && _ && _).
Qed.

Lemma gc_upd_evolves x : evolves x (gc_upd x).
Proof.
  unfold gc_upd. destruct (ready_for_gc x) eqn:E; [done|]. split; try done. congruence.
Qed.

Lemma updated_evolves s p x : evolves x (updated s p x).
Proof.
  etrans; [apply acked_upd_evolves|]. etrans; [apply gc_upd_evolves|]. by split.
Qed.

(** The state after a function on streams. *)
Definition moved_on (s : SM) (m : gmap Z stream_ref) (Q : list nat) (s' : SM) : Prop :=
  (exists A G, sm_inv ∅ s' m A Q G) /\ same_env s s' /\ evolved (heap s) (heap s').

Lemma moved_on_refl s m A Q G : sm_inv ∅ s m A Q G -> moved_on s m Q s.
Proof. intros I. split; [by eexists _, _|]. by split. Qed.

Lemma moved_on_trans s s1 s2 m Q : moved_on s m Q s1 -> moved_on s1 m Q s2 -> moved_on s m Q s2.
Proof. intros (_ & E1 & V1) (I & E2 & V2). split; [done|]. split; by etrans. Qed.

Lemma stepped_moved s m Q p x x' s' : heap s !! p = Some x -> evolves x x' -> stepped ∅ s m Q p x' s' -> moved_on s m Q s'.
Proof. intros H E (I & En & Hh). split; [done|]. split; [done|]. rewrite Hh. by eapply evolved_insert. Qed.

Lemma inv_stream s m A Q G p x : sm_inv ∅ s m A Q G -> heap s !! p = Some x -> stream_ok x /\ wired s p.
Proof. intros I H. by eapply inv_ok. Qed.

Lemma update_moved s m A Q G p x : sm_inv ∅ s m A Q G -> heap s !! p = Some x ->
  exists s', ossl_quic_stream_map_update_state p s = (Ok tt, s') /\ stepped ∅ s m Q p (updated s p x) s' /\ moved_on s m Q s'.
Proof.
  intros I H. destruct (inv_stream _ _ _ _ _ _ _ I H) as [Hx Hw].
  destruct (update_state_ok _ _ _ _ _ _ p x I H Hx Hw) as (s' & E & Hs). exists s'. split_and!; [done|done|].
  eapply stepped_moved; [done|apply updated_evolves|done].
Qed.

(** A change of one stream that keeps it well formed. *)
Lemma upd_moved s m A Q G p x f : sm_inv ∅ s m A Q G -> heap s !! p = Some x -> same_core x (f x) -> stream_ok (f x) ->
  evolves x (f x) ->
  exists s', upd_stream p f s = (Ok tt, s') /\ stepped ∅ s m Q p (f x) s' /\ moved_on s m Q s'.
Proof.
  intros I H Hc Hx He. rewrite (upd_stream_run _ _ _ _ H). eexists. split; [done|].
  assert (Hs : stepped ∅ s m Q p (f x) (upd_heap (<[p := f x]> (heap s)) s)).
  { split; [|by split]. eexists _, _. by eapply inv_upd. }
  split; [done|]. by eapply stepped_moved.
Qed.

(** ** The send part *)

(** Between states with a send buffer. *)
Lemma stream_ok_sending x st n : stream_ok x -> ossl_quic_stream_has_send_buffer x = true ->
  st = QUIC_SSTREAM_STATE_SEND /\ send_state x = QUIC_SSTREAM_STATE_READY \/
  st = QUIC_SSTREAM_STATE_DATA_SENT /\ (forall q, sstream x = Some q -> have_final_size q = true) ->
  stream_ok (set_send_state st (set_send_final_size n x)).
Proof.
  intros [H1 H2 H3 H4 H5 H6 H7 H7s H8] Hs Hst. split; try done.
  - cbn. rewrite H1, Hs. unfold ossl_quic_stream_has_send_buffer; cbn. by destruct Hst as [[-> _]|[-> _]].
  - etrans; [|exact H3]. unfold ossl_quic_stream_has_send; cbn. unfold ossl_quic_stream_has_send_buffer in Hs.
    rewrite (bool_decide_false (send_state x = _)) by (intros E; by rewrite E in Hs). by destruct Hst as [[-> _]|[-> _]].
  - cbn. intros q E. by destruct Hst as [[-> _]|[-> _]].
  - cbn. intros q E Hq. destruct Hst as [[-> _]|[_ Hf]]; [done|by apply Hf].
  - cbn. intros Hd. destruct (H8 Hd) as [Hr Hf]. split; [by destruct Hst as [[-> _]|[-> _]]|].
    intros q E. destruct Hst as [[_ ?]|[-> _]]; done.
Qed.

Lemma ensure_ok s m A Q G p x : sm_inv ∅ s m A Q G -> heap s !! p = Some x ->
  exists s', ossl_quic_stream_map_ensure_send_part_id p s = (Ok (ossl_quic_stream_has_send x), s') /\
    stepped ∅ s m Q p (if decide (send_state x = QUIC_SSTREAM_STATE_READY)
                       then set_send_state QUIC_SSTREAM_STATE_SEND x else x) s' /\ moved_on s m Q s'.
Proof.
  intros I H. destruct (inv_stream _ _ _ _ _ _ _ I H) as [Hx Hw].
  unfold ossl_quic_stream_map_ensure_send_part_id, ossl_quic_stream_has_send.
  rewrite (bind_ok _ _ _ _ _ (stream_at_run _ _ _ H)).
  assert (Hself : stepped ∅ s m Q p x s /\ moved_on s m Q s).
  { split; [|by eapply moved_on_refl]. split; [by eexists _, _|]. split; [done|]. by apply heap_same. }
  destruct (send_state x) eqn:Hs; cbn; try (exists s; by split); destruct Hself as [Hst Hm].
  destruct (upd_moved s m A Q G p x (set_send_state QUIC_SSTREAM_STATE_SEND) I H) as (s' & E & S' & M').
  - by split.
  - eapply stream_ok_ext; [apply (stream_ok_sending x QUIC_SSTREAM_STATE_SEND (send_final_size x) Hx)|..]; try done.
    + unfold ossl_quic_stream_has_send_buffer. by rewrite Hs.
    + by left.
  - split; try done; cbn; rewrite Hs; first [done|apply rtc_once; constructor].
  - rewrite (bind_ok _ _ _ _ _ E). by exists s'.
Qed.

Lemma all_data_sent_ok s m A Q G p x : sm_inv ∅ s m A Q G -> heap s !! p = Some x ->
  exists r s', ossl_quic_stream_map_notify_all_data_sent p s = (Ok r, s') /\ moved_on s m Q s'.
Proof.
  intros I H. destruct (inv_stream _ _ _ _ _ _ _ I H) as [Hx Hw].
  unfold ossl_quic_stream_map_notify_all_data_sent. rewrite (bind_ok _ _ _ _ _ (stream_at_run _ _ _ H)).
  pose proof (moved_on_refl _ _ _ _ _ I) as Hself.
  destruct (send_state x) eqn:Hs; try (by eexists _, _).
  assert (Hb : ossl_quic_stream_has_send_buffer x = true) by (unfold ossl_quic_stream_has_send_buffer; by rewrite Hs).
  destruct (send_buffer x Hx Hb) as (q & a & Hq & _).
  rewrite (bind_ok _ _ _ _ _ (sstream_at_run _ _ _ _ H Hq)).
  destruct (ossl_quic_sstream_get_final_size q) as [fs|] eqn:Hfs; [|by eexists _, _].
  rewrite (bind_ok _ _ _ _ _ (upd_stream_run _ _ _ _ H)).
  erewrite bind_ok by (apply upd_stream_run; cbn; by rewrite lookup_insert_eq).
  cbn [upd_heap heap]. rewrite upd_heap_upd, insert_insert_eq. eexists _, _. split; [reflexivity|].
  eapply (stepped_moved s m Q p x (set_send_state QUIC_SSTREAM_STATE_DATA_SENT (set_send_final_size fs x))); [done| |].
  - split; try done; cbn; rewrite Hs; first [done|apply rtc_once; constructor].
  - split; [|by split]. eexists _, _. eapply inv_upd; [done|done|by split|]. intros _. apply stream_ok_sending; [done|done|].
    right. split; [done|]. intros q0 Hq0. simplify_eq. unfold ossl_quic_sstream_get_final_size in Hfs. by destruct (have_final_size q).
Qed.

(** What a reset makes of a stream, before its update. *)
Definition reset_of (n aec : Z) (x : QUIC_STREAM) : QUIC_STREAM :=
  set_shutdown_flush false (set_sstream None (set_send_state QUIC_SSTREAM_STATE_RESET_SENT
    (set_reset_stream true aec (set_send_final_size n x)))).

Lemma reset_of_ok n aec x : stream_ok x -> ossl_quic_stream_has_send_buffer x = true -> stream_ok (reset_of n aec x).
Proof.
  intros Hx Hs. eapply stream_ok_ext; [apply (stream_ok_ended x QUIC_SSTREAM_STATE_RESET_SENT Hx)|..]; try done.
  - intros E. unfold ossl_quic_stream_has_send_buffer in Hs. by rewrite E in Hs.
  - right. left.
Qed.

Lemma reset_of_evolves n aec x : ossl_quic_stream_has_send_buffer x = true ->
  (send_state x = QUIC_SSTREAM_STATE_DATA_SENT -> n = send_final_size x) -> evolves x (reset_of n aec x).
Proof.
  intros Hs Hn. unfold ossl_quic_stream_has_send_buffer in Hs. split; try done; cbn.
  - destruct (send_state x); try done; apply rtc_once; constructor.
  - destruct (send_state x); try done. auto.
Qed.

(** The state after a reset: the update sees the state that the reset has left. *)
Lemma reset_send_part_ok s m A Q G p x aec : sm_inv ∅ s m A Q G -> heap s !! p = Some x ->
  ossl_quic_stream_has_send_buffer x = true ->
  exists s1 s', reset_send_part p aec s = (Ok true, s') /\ same_env s s1 /\
    stepped ∅ s m Q p (updated s1 p (reset_of (send_final_size x) aec x)) s'.
Proof.
  intros I H Hs. destruct (inv_stream _ _ _ _ _ _ _ I H) as [Hx Hw]. unfold reset_send_part.
  rewrite (bind_ok _ _ _ _ _ (upd_stream_run _ _ _ _ H)).
  erewrite bind_ok by (apply upd_stream_run; cbn; by rewrite lookup_insert_eq).
  erewrite bind_ok by (apply free_sstream_run; cbn; by rewrite lookup_insert_eq).
  cbn [upd_heap heap]. rewrite !upd_heap_upd, !insert_insert_eq. set (x2 := set_sstream None _).
  pose proof (reset_of_ok (send_final_size x) aec x Hx Hs) as Hr.
  assert (Hx2 : stream_ok x2) by (by eapply stream_ok_ext; [apply Hr|..]).
  match goal with |- context [bind _ _ ?s2] => set (s2' := s2) end.
  assert (I2 : sm_inv ∅ s2' m A Q G) by (eapply (inv_upd ∅ s m A Q G p x x2); [done|done|by split|done]).
  assert (H2 : heap s2' !! p = Some x2) by (cbn; by rewrite lookup_insert_eq).
  destruct (shutdown_flush_done_ok _ _ _ _ _ _ p x2 I2 H2) as (s3 & E3 & I3 & Hh3 & En3 & _).
  rewrite (bind_ok _ _ _ _ _ E3). pose proof (lookup_changed _ _ _ _ Hh3) as H3.
  assert (En : same_env s s3) by (etrans; [apply env_heap|exact En3]).
  assert (Hr' : set_shutdown_flush false x2 = reset_of (send_final_size x) aec x) by (by destruct x).
  rewrite Hr' in *.
  destruct (update_state_ok _ _ _ _ _ _ p _ I3 H3 Hr (wired_env _ _ _ En Hw)) as (s4 & E4 & (I4 & En4 & Hh4)).
  rewrite (bind_ok _ _ _ _ _ E4). exists s3, s4. split_and!; [done|done|]. split; [done|]. split; [by etrans|].
  rewrite Hh4, Hh3. cbn [s2' upd_heap heap]. by rewrite !insert_insert_eq.
Qed.

Lemma swm_run s p t : tx s !! p = Some t -> in_tx (ossl_quic_txfc_get_swm p) s = (Ok (tx_swm t), s).
Proof.
  intros H. apply zoom_query; [|by destruct s]. unfold ossl_quic_txfc_get_swm.
  by rewrite (bind_ok _ _ _ _ _ (tx_load_ok _ _ _ H)).
Qed.

(** The final size that a reset settles: what was sent, unless it is settled already. *)
Definition reset_size (s : SM) (p : nat) (x : QUIC_STREAM) : Z :=
  if decide (send_state x = QUIC_SSTREAM_STATE_DATA_SENT) then send_final_size x
  else match tx s !! p with Some t => tx_swm t | None => 0 end.

(** A reset of a send part that has a buffer. *)
Lemma reset_buffer_ok s m A Q G p x aec : sm_inv ∅ s m A Q G -> heap s !! p = Some x ->
  ossl_quic_stream_has_send_buffer x = true ->
  exists s1 s', ossl_quic_stream_map_reset_stream_send_part p aec s = (Ok true, s') /\ same_env s s1 /\
    stepped ∅ s m Q p (updated s1 p (reset_of (reset_size s p x) aec x)) s'.
Proof.
  intros I H Hs. destruct (inv_stream _ _ _ _ _ _ _ I H) as [Hx [(t & Ht & Htp) Hw]].
  unfold ossl_quic_stream_map_reset_stream_send_part. rewrite (bind_ok _ _ _ _ _ (stream_at_run _ _ _ H)).
  assert (Hfrom : forall s0 A0 G0 x0, sm_inv ∅ s0 m A0 Q G0 -> heap s0 = <[p := x0]> (heap s) -> same_env s s0 ->
    send_state x0 = QUIC_SSTREAM_STATE_SEND -> stream_ok x0 -> send_state x <> QUIC_SSTREAM_STATE_DATA_SENT ->
    (forall n aec, reset_of n aec x0 = reset_of n aec x) ->
    exists s1 s', (let! w := in_tx (ossl_quic_txfc_get_swm p) in upd_stream p (set_send_final_size w) ;;; reset_send_part p aec) s0
      = (Ok true, s') /\ same_env s s1 /\ stepped ∅ s m Q p (updated s1 p (reset_of (reset_size s p x) aec x)) s').
  { intros s0 A0 G0 x0 I0 Hh0 En0 Hs0 Hx0 Hnd Hre. assert (H0 : heap s0 !! p = Some x0) by (by eapply lookup_changed).
    rewrite (bind_ok _ _ _ _ _ (swm_run s0 p t ltac:(by rewrite (e_tx _ _ En0)))).
    rewrite (bind_ok _ _ _ _ _ (upd_stream_run _ _ _ _ H0)).
    set (x1 := set_send_final_size (tx_swm t) x0). set (s0' := upd_heap (<[p := x1]> (heap s0)) s0).
    assert (I0' : sm_inv ∅ s0' m A0 Q G0).
    { eapply (inv_upd ∅ s0 m A0 Q G0 p x0 x1); [done|done|by split|]. intros _. by eapply stream_ok_ext. }
    destruct (reset_send_part_ok s0' m A0 Q G0 p x1 aec I0') as (s1 & s' & E & En1 & (I' & En' & Hh')).
    - cbn. by rewrite lookup_insert_eq.
    - unfold ossl_quic_stream_has_send_buffer. cbn. by rewrite Hs0.
    - exists s1, s'. split; [done|]. assert (En2 : same_env s s0') by (etrans; [exact En0|apply env_heap]).
      split; [by etrans|]. split; [done|]. split; [by etrans|]. rewrite Hh'. cbn [s0' upd_heap heap].
      rewrite Hh0, !insert_insert_eq. do 2 f_equal. unfold reset_size. rewrite decide_False, Ht by done.
      rewrite <-Hre. by destruct x0. }
  unfold ossl_quic_stream_has_send_buffer in Hs. destruct (send_state x) eqn:Est; try done.
  - destruct (ensure_ok _ _ _ _ _ p x I H) as (s0 & E0 & ((A0 & G0 & I0) & En0 & Hh0) & _).
    rewrite (bind_ok _ _ _ _ _ E0). unfold ossl_quic_stream_has_send. rewrite Est. cbn [negb].
    rewrite decide_True in Hh0 by done.
    eapply (Hfrom s0 A0 G0 (set_send_state QUIC_SSTREAM_STATE_SEND x)); try done.
    by eapply inv_stream; [|eapply lookup_changed].
  - eapply (Hfrom s A G x); try done. by apply heap_same.
  - destruct (reset_send_part_ok s m A Q G p x aec I H) as (s1 & s' & E & En1 & Hst).
    + unfold ossl_quic_stream_has_send_buffer. by rewrite Est.
    + exists s1, s'. unfold reset_size. by rewrite decide_True.
Qed.

Lemma updated_send s p x : send_state x <> QUIC_SSTREAM_STATE_DATA_SENT -> send_state (updated s p x) = send_state x.
Proof.
  intros Hs. unfold updated, gc_upd, acked_upd. rewrite (bool_decide_false (send_state x = _)) by done. cbn [andb].
  destruct (shutdown_flush x && _ && _); cbn; by destruct (ready_for_gc _).
Qed.

(** Fields that an update does not change. *)
Lemma updated_fields s p x : let y := updated s p x in
  want_reset_stream y = want_reset_stream x /\ reset_stream_aec y = reset_stream_aec x /\
  send_final_size y = send_final_size x /\ recv_state y = recv_state x /\ deleted y = deleted x.
Proof.
  unfold updated, gc_upd, acked_upd. destruct (bool_decide _ && _); [|destruct (_ && _ && _)]; by destruct (ready_for_gc _).
Qed.

Lemma updated_no_buffer s p x : sstream x = None -> sstream (updated s p x) = None.
Proof.
  intros Hx. unfold updated, gc_upd, acked_upd. destruct (bool_decide _ && _); [|destruct (_ && _ && _)];
    by destruct (ready_for_gc _).
Qed.

Lemma updated_unflushed s p x : shutdown_flush x = false -> shutdown_flush (updated s p x) = false.
Proof.
  intros Hx. unfold updated, gc_upd, acked_upd. rewrite Hx. cbn [andb].
  destruct (_ && _); cbn; destruct (ready_for_gc _); done.
Qed.

(** The send part is neither READY nor in SEND after a reset, whatever state it was in. *)
Lemma reset_ok s m A Q G p x aec : sm_inv ∅ s m A Q G -> heap s !! p = Some x ->
  exists r s' x', ossl_quic_stream_map_reset_stream_send_part p aec s = (Ok r, s') /\ moved_on s m Q s' /\
    heap s' !! p = Some x' /\ send_state x' <> QUIC_SSTREAM_STATE_READY /\ send_state x' <> QUIC_SSTREAM_STATE_SEND.
Proof.
  intros I H. destruct (ossl_quic_stream_has_send_buffer x) eqn:Hs.
  - destruct (reset_buffer_ok _ _ _ _ _ p x aec I H Hs) as (s1 & s' & E & En & Hst).
    exists true, s', (updated s1 p (reset_of (reset_size s p x) aec x)). split; [done|]. split.
    + eapply stepped_moved; [done| |exact Hst]. etrans; [|apply updated_evolves]. apply reset_of_evolves; [done|].
      intros E2. unfold reset_size. by rewrite decide_True.
    + split; [by eapply lookup_changed; apply Hst|]. by rewrite updated_send.
  - unfold ossl_quic_stream_map_reset_stream_send_part. rewrite (bind_ok _ _ _ _ _ (stream_at_run _ _ _ H)).
    pose proof (moved_on_refl _ _ _ _ _ I). unfold ossl_quic_stream_has_send_buffer in Hs.
    destruct (send_state x) eqn:E; try done; eexists _, s, x; rewrite E; (split; [reflexivity|]); by split_and!.
Qed.

Lemma reset_acked_ok s m A Q G p x : sm_inv ∅ s m A Q G -> heap s !! p = Some x ->
  exists r s', ossl_quic_stream_map_notify_reset_stream_acked p s = (Ok r, s') /\ moved_on s m Q s'.
Proof.
  intros I H. destruct (inv_stream _ _ _ _ _ _ _ I H) as [Hx Hw].
  unfold ossl_quic_stream_map_notify_reset_stream_acked. rewrite (bind_ok _ _ _ _ _ (stream_at_run _ _ _ H)).
  pose proof (moved_on_refl _ _ _ _ _ I) as Hself.
  destruct (send_state x) eqn:Hs; try (by eexists _, _).
  destruct (upd_moved s m A Q G p x (set_send_state QUIC_SSTREAM_STATE_RESET_RECVD) I H) as (s' & E & S' & M').
  - by split.
  - assert (Hn : sstream x = None) by (apply no_send_buffer; [done|]; unfold ossl_quic_stream_has_send_buffer; by rewrite Hs).
    eapply stream_ok_ext; [apply (stream_ok_ended x QUIC_SSTREAM_STATE_RESET_RECVD Hx)|..]; try done.
    + congruence.
    + do 2 right. left.
  - split; try done; cbn; rewrite Hs; first [done|apply rtc_once; constructor].
  - rewrite (bind_ok _ _ _ _ _ E). by eexists _, s'.
Qed.

(** ** The receive part *)

(** Between states that agree on the receive buffer. *)
Lemma stream_ok_receiving x st : stream_ok x -> recv_state x <> QUIC_RSTREAM_STATE_NONE -> st <> QUIC_RSTREAM_STATE_NONE ->
  ossl_quic_stream_has_recv_buffer (set_recv_state st x) = ossl_quic_stream_has_recv_buffer x ->
  stream_ok (set_recv_state st x).
Proof.
  intros [H1 H2 H3 H4 H5 H6 H7 H7s H8] Hr Hst Hb. split; try done.
  - rewrite Hb. done.
  - etrans; [|exact H4]. unfold ossl_quic_stream_has_recv; cbn. by rewrite !bool_decide_false.
Qed.

(** A receive part that needs no buffer any more. *)
Lemma stream_ok_drained x st : stream_ok x -> recv_state x <> QUIC_RSTREAM_STATE_NONE ->
  st ∈ [QUIC_RSTREAM_STATE_DATA_READ; QUIC_RSTREAM_STATE_RESET_RECVD] ->
  stream_ok (set_rstream None (set_recv_state st x)).
Proof.
  intros [H1 H2 H3 H4 H5 H6 H7 H7s H8] Hr Hst. rewrite !elem_of_cons, elem_of_nil in Hst.
  split; try done.
  - cbn. split; [by intros []|]. unfold ossl_quic_stream_has_recv_buffer; cbn. by destruct Hst as [->|[->|[]]].
  - etrans; [|exact H4]. unfold ossl_quic_stream_has_recv; cbn.
    rewrite !bool_decide_false; [done|done|]. by destruct Hst as [->|[->|[]]].
Qed.

(** A buffer is freed: the references to packets that it holds are dropped. *)
Lemma rstream_free_run q : refs (sfs q) ≡ₚ held (frames (fl (sfs q))) ->
  exists q', ossl_quic_rstream_free q = (Ok tt, q') /\ rxm q' = rxm q /\ sf_heap (sfs q') = sf_heap (sfs q).
Proof.
  intros Hh. unfold ossl_quic_rstream_free. rewrite (bind_ok get _ q q q eq_refl).
  destruct (free_frames_ok (frames (fl (sfs q))) (sfs q) []) as (k & E & _); [by rewrite app_nil_r|].
  rewrite (bind_ok _ _ q tt (set_sfs (mkSF (fl (sfs q)) k (sf_heap (sfs q))) q)).
  - eexists. by split.
  - unfold on_fl, zoom, ossl_sframe_list_destroy. rewrite (bind_ok get _ (sfs q) (sfs q) (sfs q) eq_refl), E. done.
Qed.

Lemma free_rstream_run s p x : heap s !! p = Some x ->
  (forall q, rstream x = Some q -> refs (sfs q) ≡ₚ held (frames (fl (sfs q)))) ->
  free_rstream p s = (Ok tt, upd_heap (<[p := set_rstream None x]> (heap s)) s).
Proof.
  intros H Hh. unfold free_rstream. rewrite (bind_ok _ _ _ _ _ (stream_at_run _ _ _ H)).
  destruct (rstream x) as [q|] eqn:Hq.
  - set (q0 := set_rxm (rx s) (set_sfs (mkSF (fl (sfs q)) (refs (sfs q)) (orc s)) q)).
    destruct (rstream_free_run q0) as (q' & E & Ex & Eo); [exact (Hh q eq_refl)|].
    assert (E1 : in_rstream p ossl_quic_rstream_free s
      = (Ok tt, upd_heap (<[p := set_rstream (Some q') x]> (heap s)) s)).
    { unfold in_rstream. rewrite (bind_ok _ _ _ _ _ (stream_at_run _ _ _ H)), Hq. fold q0. rewrite E, Ex, Eo.
      by destruct s. }
    rewrite (bind_ok _ _ _ _ _ E1). rewrite (upd_stream_run _ p (set_rstream (Some q') x)); [|cbn; by rewrite lookup_insert_eq].
    rewrite upd_heap_upd. cbn [upd_heap heap]. by rewrite insert_insert_eq.
  - rewrite (bind_ok _ _ s tt s) by done. by apply upd_stream_run.
Qed.

(** Assignments to the fields of the stream at [p], one after the other. *)
Ltac assignments H :=
  rewrite ?(bind_ok _ _ _ _ _ (upd_stream_run _ _ _ _ H));
  repeat (erewrite bind_ok by (apply upd_stream_run; cbn; apply lookup_insert_eq));
  cbn [upd_heap heap]; rewrite ?upd_heap_upd, ?insert_insert_eq.

Lemma put_moved s m A Q G p x x' : sm_inv ∅ s m A Q G -> heap s !! p = Some x -> same_core x x' -> stream_ok x' ->
  evolves x x' -> moved_on s m Q (upd_heap (<[p := x']> (heap s)) s).
Proof.
  intros I H Hc Hx He. eapply (stepped_moved s m Q p x x'); [done|done|]. split; [|by split].
  eexists _, _. by eapply inv_upd.
Qed.

Lemma put_inv s m A Q G p x x' : sm_inv ∅ s m A Q G -> heap s !! p = Some x -> same_core x x' -> stream_ok x' ->
  sm_inv ∅ (upd_heap (<[p := x']> (heap s)) s) m A Q G.
Proof. intros I H Hc Hx. by eapply inv_upd. Qed.

(** Assignments followed by an update. *)
Lemma put_update_ok s m A Q G p x x' : sm_inv ∅ s m A Q G -> heap s !! p = Some x -> same_core x x' -> stream_ok x' ->
  evolves x x' ->
  exists s', ossl_quic_stream_map_update_state p (upd_heap (<[p := x']> (heap s)) s) = (Ok tt, s') /\
    stepped ∅ s m Q p (updated (upd_heap (<[p := x']> (heap s)) s) p x') s' /\ moved_on s m Q s'.
Proof.
  intros I H Hc Hx He. set (s1 := upd_heap _ s).
  assert (I1 : sm_inv ∅ s1 m A Q G) by by eapply put_inv.
  destruct (update_moved s1 m A Q G p x' I1) as (s' & E & (Hi & En & Hh) & M'); [cbn; apply lookup_insert_eq|].
  exists s'. split; [done|]. split.
  - split; [done|]. split; [by etrans; [apply env_heap|]|]. rewrite Hh. cbn [s1 upd_heap heap]. by rewrite insert_insert_eq.
  - eapply moved_on_trans; [by eapply put_moved|done].
Qed.

Lemma size_known_ok s m A Q G p x n : sm_inv ∅ s m A Q G -> heap s !! p = Some x ->
  exists r s', ossl_quic_stream_map_notify_size_known_recv_part p n s = (Ok r, s') /\ moved_on s m Q s'.
Proof.
  intros I H. destruct (inv_stream _ _ _ _ _ _ _ I H) as [Hx Hw].
  unfold ossl_quic_stream_map_notify_size_known_recv_part. rewrite (bind_ok _ _ _ _ _ (stream_at_run _ _ _ H)).
  pose proof (moved_on_refl _ _ _ _ _ I). destruct (recv_state x) eqn:Hr; try (by eexists _, _).
  assignments H. eexists _, _. split; [done|]. eapply put_moved; [done|done|by split| |].
  - apply stream_ok_receiving; try done; [by rewrite Hr|]. unfold ossl_quic_stream_has_recv_buffer. cbn. by rewrite Hr.
  - split; try done; cbn; rewrite Hr; first [done|apply rtc_once; constructor].
Qed.

Lemma totally_received_ok s m A Q G p x : sm_inv ∅ s m A Q G -> heap s !! p = Some x ->
  exists r s', ossl_quic_stream_map_notify_totally_received p s = (Ok r, s') /\ moved_on s m Q s'.
Proof.
  intros I H. destruct (inv_stream _ _ _ _ _ _ _ I H) as [Hx Hw].
  unfold ossl_quic_stream_map_notify_totally_received. rewrite (bind_ok _ _ _ _ _ (stream_at_run _ _ _ H)).
  pose proof (moved_on_refl _ _ _ _ _ I). destruct (recv_state x) eqn:Hr; try (by eexists _, _).
  assignments H. eexists _, _. split; [done|]. eapply put_moved; [done|done|by split| |].
  - eapply stream_ok_ext; [apply (stream_ok_receiving x QUIC_RSTREAM_STATE_DATA_RECVD Hx)|..]; try done; [by rewrite Hr|].
    unfold ossl_quic_stream_has_recv_buffer. cbn. by rewrite Hr.
  - split; try done; cbn; rewrite Hr; first [done|apply rtc_once; constructor].
Qed.

(** The fields but the receive buffer and the flags do not matter for freeing the buffer. *)
Lemma free_rstream_upd s p x x' : heap s !! p = Some x -> stream_ok x -> rstream x' = rstream x ->
  free_rstream p (upd_heap (<[p := x']> (heap s)) s) = (Ok tt, upd_heap (<[p := set_rstream None x']> (heap s)) s).
Proof.
  intros H Hx E. rewrite (free_rstream_run _ p x').
  - cbn [upd_heap heap]. by rewrite upd_heap_upd, insert_insert_eq.
  - cbn. apply lookup_insert_eq.
  - intros q Hq. apply (ok_held _ Hx). congruence.
Qed.

Lemma totally_read_ok s m A Q G p x : sm_inv ∅ s m A Q G -> heap s !! p = Some x ->
  exists r s', ossl_quic_stream_map_notify_totally_read p s = (Ok r, s') /\ moved_on s m Q s'.
Proof.
  intros I H. destruct (inv_stream _ _ _ _ _ _ _ I H) as [Hx Hw].
  unfold ossl_quic_stream_map_notify_totally_read. rewrite (bind_ok _ _ _ _ _ (stream_at_run _ _ _ H)).
  pose proof (moved_on_refl _ _ _ _ _ I). destruct (recv_state x) eqn:Hr; try (by eexists _, _).
  assignments H. erewrite bind_ok by (by eapply free_rstream_upd).
  eexists _, _. split; [done|]. eapply put_moved; [done|done|by split| |].
  - apply stream_ok_drained; [done|by rewrite Hr|left].
  - split; try done; cbn; rewrite Hr; first [done|apply rtc_once; constructor].
Qed.

Lemma app_read_reset_ok s m A Q G p x : sm_inv ∅ s m A Q G -> heap s !! p = Some x ->
  exists r s', ossl_quic_stream_map_notify_app_read_reset_recv_part p s = (Ok r, s') /\ moved_on s m Q s'.
Proof.
  intros I H. destruct (inv_stream _ _ _ _ _ _ _ I H) as [Hx Hw].
  unfold ossl_quic_stream_map_notify_app_read_reset_recv_part. rewrite (bind_ok _ _ _ _ _ (stream_at_run _ _ _ H)).
  pose proof (moved_on_refl _ _ _ _ _ I). destruct (recv_state x) eqn:Hr; try (by eexists _, _).
  assignments H. eexists _, _. split; [done|]. eapply put_moved; [done|done|by split| |].
  - apply stream_ok_receiving; try done; [by rewrite Hr|]. unfold ossl_quic_stream_has_recv_buffer. cbn. by rewrite Hr.
  - split; try done; cbn; rewrite Hr; first [done|apply rtc_once; constructor].
Qed.

Lemma recv_final_run s p x : heap s !! p = Some x -> is_Some (rxs (rx s) !! p) ->
  exists v, ossl_quic_stream_recv_get_final_size p s = (Ok v, s).
Proof.
  intros H [y Hy]. unfold ossl_quic_stream_recv_get_final_size. rewrite (bind_ok _ _ _ _ _ (stream_at_run _ _ _ H)).
  assert (E : in_rx (ossl_quic_rxfc_get_final_size p) s = (Ok (if negb (is_fin y) then None else Some (hwm y)), s)).
  { apply zoom_query; [|by destruct s]. unfold ossl_quic_rxfc_get_final_size.
    by rewrite (bind_ok _ _ _ _ _ (rx_load_ok _ _ _ Hy)). }
  destruct (recv_state x); eexists; first [exact E|done].
Qed.

Lemma reset_recv_ok s m A Q G p x aec n : sm_inv ∅ s m A Q G -> heap s !! p = Some x ->
  exists r s', ossl_quic_stream_map_notify_reset_recv_part p aec n s = (Ok r, s') /\ moved_on s m Q s'.
Proof.
  intros I H. destruct (inv_stream _ _ _ _ _ _ _ I H) as [Hx [Ht Hw]].
  unfold ossl_quic_stream_map_notify_reset_recv_part. rewrite (bind_ok _ _ _ _ _ (stream_at_run _ _ _ H)).
  pose proof (moved_on_refl _ _ _ _ _ I) as Hself. destruct (recv_final_run s p x H Hw) as (v & Ev).
  assert (Hgo : ossl_quic_stream_has_recv_buffer x = true ->
    exists s', (free_rstream p ;;; ossl_quic_stream_map_update_state p ;;; ret true)
      (upd_heap (<[p := set_want_stop_sending false (set_peer_reset_stream_aec aec
        (set_recv_state QUIC_RSTREAM_STATE_RESET_RECVD x))]> (heap s)) s) = (Ok true, s') /\ moved_on s m Q s').
  { intros Hb. erewrite bind_ok by (by eapply free_rstream_upd). unfold ossl_quic_stream_has_recv_buffer in Hb.
    edestruct (put_update_ok s m A Q G p x) as (s' & E & _ & M'); [done|done|..|].
    4: { rewrite (bind_ok _ _ _ _ _ E). by exists s'. }
    - by split.
    - eapply stream_ok_ext; [apply (stream_ok_drained x QUIC_RSTREAM_STATE_RESET_RECVD Hx);
        [by destruct (recv_state x)|right; left]|..]; done.
    - split; try done; cbn; destruct (recv_state x); try done; apply rtc_once; constructor. }
  unfold ossl_quic_stream_has_recv_buffer in Hgo. destruct (recv_state x) eqn:Hr; try (by eexists _, _).
  all: rewrite (bind_ok _ _ _ _ _ Ev); destruct (match v with Some _ => _ | None => _ end); [by eexists _, _|].
  all: assignments H; destruct (Hgo eq_refl) as (s' & E & M'); by exists true, s'.
Qed.

(** A call that leaves the send part of [p] alone, but for acknowledgements. *)
Definition send_kept (p : nat) (x : QUIC_STREAM) (s' : SM) : Prop :=
  send_state x <> QUIC_SSTREAM_STATE_DATA_SENT ->
  exists x', heap s' !! p = Some x' /\ send_state x' = send_state x /\ sstream x' = sstream x.

Lemma updated_send_kept s1 s' p x x1 : heap s' !! p = Some (updated s1 p x1) -> send_state x1 = send_state x ->
  sstream x1 = sstream x -> send_kept p x s'.
Proof.
  intros H Es Eb Hn. eexists. split; [exact H|]. rewrite updated_send by congruence. split; [done|].
  rewrite <-Eb, <-Es in *. unfold updated, gc_upd, acked_upd. rewrite (bool_decide_false (send_state x1 = _)) by done.
  cbn [andb]. destruct (shutdown_flush x1 && _ && _); cbn; by destruct (ready_for_gc _).
Qed.

Lemma schedule_stop_ok s m A Q G p x : sm_inv ∅ s m A Q G -> heap s !! p = Some x ->
  exists r s', ossl_quic_stream_map_schedule_stop_sending p s = (Ok r, s') /\ moved_on s m Q s' /\ send_kept p x s'.
Proof.
  intros I H. destruct (inv_stream _ _ _ _ _ _ _ I H) as [Hx Hw].
  unfold ossl_quic_stream_map_schedule_stop_sending. rewrite (bind_ok _ _ _ _ _ (stream_at_run _ _ _ H)).
  pose proof (moved_on_refl _ _ _ _ _ I) as Hself. assert (Hk : send_kept p x s) by (intros _; by exists x).
  destruct (stop_sending x); cbn [negb]; [|by eexists _, _]. destruct (want_stop_sending x); [by eexists _, _|].
  destruct (put_update_ok s m A Q G p x (set_want_stop_sending true x) I H) as (s' & E & (_ & _ & Hh) & M');
    [by split|by eapply stream_ok_ext|by split|].
  assert (Hk' : send_kept p x s') by (by eapply updated_send_kept; [eapply lookup_changed|..]).
  destruct (recv_state x) eqn:Hr; try (by eexists _, _); assignments H; rewrite (bind_ok _ _ _ _ _ E); by eexists _, s'.
Qed.

Lemma stop_sending_ok s m A Q G p x aec : sm_inv ∅ s m A Q G -> heap s !! p = Some x ->
  exists r s', ossl_quic_stream_map_stop_sending_recv_part p aec s = (Ok r, s') /\ moved_on s m Q s' /\ send_kept p x s'.
Proof.
  intros I H. destruct (inv_stream _ _ _ _ _ _ _ I H) as [Hx Hw].
  unfold ossl_quic_stream_map_stop_sending_recv_part. rewrite (bind_ok _ _ _ _ _ (stream_at_run _ _ _ H)).
  pose proof (moved_on_refl _ _ _ _ _ I) as Hself. assert (Hk : send_kept p x s) by (intros _; by exists x).
  destruct (stop_sending x) eqn:Hst; [by eexists _, _|]. set (x1 := set_stop_sending true aec x).
  assert (C1 : same_core x x1) by by split. assert (O1 : stream_ok x1) by by eapply stream_ok_ext.
  assert (V1 : evolves x x1) by by split.
  pose proof (put_inv s m A Q G p x x1 I H C1 O1) as I1. pose proof (put_moved s m A Q G p x x1 I H C1 O1 V1) as M1.
  destruct (schedule_stop_ok _ _ _ _ _ p x1 I1 ltac:(cbn; apply lookup_insert_eq)) as (r & s' & E & M' & K').
  pose proof (moved_on_trans _ _ _ _ _ M1 M').
  destruct (recv_state x); try (by eexists _, _); assignments H; by eexists _, s'.
Qed.

(** ** Streams over time *)

(** The streams of [s] that still exist in [s'] have evolved; the numbers of the streams
    that were freed are not used again. *)
Record history (s s' : SM) : Prop := {
  h_brk : (brk s <= brk s')%nat;
  h_stream p x x' : heap s !! p = Some x -> heap s' !! p = Some x' -> evolves x x';
  h_gone p : (p < brk s)%nat -> heap s !! p = None -> heap s' !! p = None
}.

#[export] Instance history_refl : Reflexive history.
Proof. split; [done| |done]. intros. by simplify_eq. Qed.

Definition sm_ok (s : SM) : Prop := exists m A Q G, sm_inv ∅ s m A Q G.

Lemma history_trans s1 s2 s3 : sm_ok s1 -> history s1 s2 -> history s2 s3 -> history s1 s3.
Proof.
  intros (m & A & Q & G & I) [B1 S1 G1] [B2 S2 G2]. split; [lia| |].
  - intros p x x3 H1 H3. destruct (heap s2 !! p) as [x2|] eqn:H2; [etrans; eauto|].
    rewrite G2 in H3; [done| |done]. destruct (i_brk _ _ _ _ _ _ I p); [by eapply in_dom|lia].
  - intros p Hp Hn. apply G2; [lia|]. by apply G1.
Qed.

Lemma evolved_history s s' : brk s' = brk s -> evolved (heap s) (heap s') -> history s s'.
Proof.
  intros Hb E. split; [lia| |].
  - intros p x x' H H'. specialize (E p). by rewrite H, H' in E.
  - intros p _ H. specialize (E p). rewrite H in E. by destruct (heap s' !! p).
Qed.

(** A run that ends in a well-formed state. *)
Definition progress (s s' : SM) : Prop := sm_ok s' /\ history s s'.

Lemma progress_trans s s1 s2 : sm_ok s -> progress s s1 -> progress s1 s2 -> progress s s2.
Proof. intros H [_ H1] [H2 H3]. split; [done|]. by eapply history_trans. Qed.

Lemma moved_progress s m Q s' : moved_on s m Q s' -> progress s s'.
Proof.
  intros ((A & G & I) & En & V). split; [by eexists _, _, _, _|]. apply evolved_history; [|done]. apply (e_brk _ _ En).
Qed.

(** ** The table *)

Definition with_table (t : LH stream_ref) (o : oracle) (s : SM) : SM := upd_orc o (upd_qsm (set_map (Some t) (qsm s)) s).

Lemma inv_table N s m m' A Q G t o : sm_inv N s m A Q G -> lh_rep t m' ->
  (forall id r, m' !! id = Some r -> r_id r = id /\ exists x, heap s !! r_ptr r = Some x /\ s_id x = id) ->
  (base.size m' <= brk s)%nat -> sm_inv N (with_table t o s) m' A Q G.
Proof. intros [] Ht He Hs. split; try done. by exists t. Qed.

Lemma in_map_run {B} (f : M (LH stream_ref) B) s t r t' : map_ (qsm s) = Some t ->
  f (mkLH (lh t) (lh_live t) (orc s)) = (r, t') -> in_map f s = (r, with_table t' (lh_oracle t') s).
Proof. intros H E. unfold in_map. rewrite H, E. done. Qed.

Lemma rep_orc t m o : lh_rep t m -> lh_rep (mkLH (lh t) (lh_live t) o) m.
Proof. by intros []. Qed.

Lemma lookup_ok N s m A Q G id q : sm_inv N s m A Q G ->
  exists t, in_map (OPENSSL_LH_retrieve (mkRef id q)) s = (Ok (m !! id), with_table t (orc s) s) /\
    sm_inv N (with_table t (orc s) s) m A Q G.
Proof.
  intros I. destruct (i_table _ _ _ _ _ _ I) as (t & Ht & Hr).
  destruct (retrieve_ok _ _ (mkRef id q) (rep_orc _ _ (orc s) Hr)) as (t' & E & Hr' & Eo). cbn in E, Eo.
  exists t'. rewrite (in_map_run _ _ _ _ _ Ht E), Eo. split; [done|].
  eapply inv_table; [done|done| |]; by apply I.
Qed.

Lemma get_by_id_ok s m A Q G id : sm_inv ∅ s m A Q G ->
  exists t, ossl_quic_stream_map_get_by_id id s = (Ok (r_ptr <$> m !! id), with_table t (orc s) s) /\
    sm_inv ∅ (with_table t (orc s) s) m A Q G.
Proof.
  intros I. destruct (lookup_ok _ _ _ _ _ _ id 0 I) as (t & E & I'). exists t. split; [|done].
  unfold ossl_quic_stream_map_get_by_id. by rewrite (bind_ok _ _ _ _ _ E).
Qed.

(** What is done for the stream with an identifier, if there is one. *)
Lemma by_id_progress s id (f : nat -> M SM unit) : sm_ok s ->
  (forall s1 m A Q G p x, sm_inv ∅ s1 m A Q G -> heap s1 !! p = Some x ->
    exists s', f p s1 = (Ok tt, s') /\ moved_on s1 m Q s') ->
  exists s', (let! q := ossl_quic_stream_map_get_by_id id in match q with None => ret tt | Some p => f p end) s
    = (Ok tt, s') /\ progress s s'.
Proof.
  intros (m & A & Q & G & I) Hf. destruct (get_by_id_ok _ _ _ _ _ id I) as (t & E & I1).
  rewrite (bind_ok _ _ _ _ _ E). assert (Hp : progress s (with_table t (orc s) s)).
  { split; [by eexists _, _, _, _|]. by apply evolved_history. }
  destruct (m !! id) as [r|] eqn:Hr; cbn.
  - destruct (i_entry _ _ _ _ _ _ I1 id r Hr) as (_ & x & Hx & _).
    destruct (Hf _ _ _ _ _ _ _ I1 Hx) as (s' & E' & M'). exists s'. split; [done|].
    eapply progress_trans; [by eexists _, _, _, _|done|by eapply moved_progress].
  - eexists. by split.
Qed.

Lemma put_update_run s m A Q G p x f : sm_inv ∅ s m A Q G -> heap s !! p = Some x -> same_core x (f x) -> stream_ok (f x) ->
  evolves x (f x) ->
  exists s', (upd_stream p f ;;; ossl_quic_stream_map_update_state p) s = (Ok tt, s') /\ moved_on s m Q s'.
Proof.
  intros I H Hc Hx He. destruct (put_update_ok s m A Q G p x (f x) I H Hc Hx He) as (s' & E & _ & M').
  exists s'. split; [|done]. by rewrite (bind_ok _ _ _ _ _ (upd_stream_run _ _ _ _ H)).
Qed.

(** An assignment to a flag, and an update. *)
Ltac flag_update := intros; eapply put_update_run;
  [eassumption|eassumption|by split|by eapply stream_ok_ext; [eapply inv_stream; eassumption|..]|by split].

Definition regen_types : list Z :=
  [OSSL_QUIC_FRAME_TYPE_HANDSHAKE_DONE; OSSL_QUIC_FRAME_TYPE_MAX_DATA; OSSL_QUIC_FRAME_TYPE_MAX_STREAMS_BIDI;
   OSSL_QUIC_FRAME_TYPE_MAX_STREAMS_UNI; OSSL_QUIC_FRAME_TYPE_ACK_WITH_ECN; OSSL_QUIC_FRAME_TYPE_MAX_STREAM_DATA;
   OSSL_QUIC_FRAME_TYPE_STOP_SENDING; OSSL_QUIC_FRAME_TYPE_RESET_STREAM].

Lemma set_want_ok s f : sm_ok s -> exists s', set_want f s = (Ok tt, s') /\ progress s s'.
Proof.
  intros (m & A & Q & G & I). eexists. split; [done|]. split; [|by apply evolved_history].
  exists m, A, Q, G. destruct I. by split.
Qed.

Lemma on_regen_ok s ft id sp : sm_ok s -> ft ∈ regen_types ->
  exists s', on_regen_notify ft id sp s = (Ok tt, s') /\ progress s s'.
Proof.
  intros I Hft. unfold regen_types in Hft. rewrite !elem_of_cons, elem_of_nil in Hft. unfold on_regen_notify.
  destruct Hft as [->|[->|[->|[->|[->|[->|[->|[->|[]]]]]]]]]; cbn -[bind set_want];
    try (by apply set_want_ok); apply by_id_progress; try done; [flag_update| |flag_update].
  intros s1 m A Q G p x I1 H. destruct (schedule_stop_ok _ _ _ _ _ p x I1 H) as (r & s' & E & M' & _).
  exists s'. by rewrite (bind_ok _ _ _ _ _ E).
Qed.

Definition confirm_types : list Z := [OSSL_QUIC_FRAME_TYPE_STOP_SENDING; OSSL_QUIC_FRAME_TYPE_RESET_STREAM].

Lemma on_confirm_ok s ft id : sm_ok s -> ft ∈ confirm_types ->
  exists s', on_confirm_notify ft id s = (Ok tt, s') /\ progress s s'.
Proof.
  intros I Hft. unfold confirm_types in Hft. rewrite !elem_of_cons, elem_of_nil in Hft. unfold on_confirm_notify.
  destruct Hft as [->|[->|[]]]; cbn -[bind]; apply by_id_progress; try done; [flag_update|].
  intros s1 m A Q G p x I1 H. destruct (reset_acked_ok _ _ _ _ _ p x I1 H) as (r & s2 & E & M2).
  rewrite (bind_ok _ _ _ _ _ E). destruct M2 as ((A2 & G2 & I2) & En2 & V2).
  destruct (evolved_lookup _ _ _ _ V2 H) as (x2 & H2 & _).
  destruct (update_moved _ _ _ _ _ p x2 I2 H2) as (s' & E' & _ & M'). exists s'. split; [done|].
  eapply moved_on_trans; [|done]. split; [by eexists _, _|]. by split.
Qed.

Lemma on_sstream_updated_ok s id : sm_ok s -> exists s', on_sstream_updated id s = (Ok tt, s') /\ progress s s'.
Proof.
  intros I. unfold on_sstream_updated. apply by_id_progress; [done|]. intros s1 m A Q G p x I1 H.
  destruct (update_moved _ _ _ _ _ p x I1 H) as (s' & E & _ & M'). by exists s'.
Qed.
