(* ===== verification/StreamMapLife.v ===== *)
(** The functions of [StreamMap] that create, reject and free streams, and those that work
    on the accept queue. *)

From stdpp Require Import base numbers gmap list relations.
From Stdlib Require Import ZArith Lia.
From S2P Require Import Prelude SafeMath Wire UintSet FlowControl RingBuf SStream Statm SFrameList RStream LHash StreamList StreamMap StreamMapTheory StreamMapOps.

#[local] Open Scope cfun_scope.

(** ** Flow control *)

(** The controllers that exist, with their parents. *)
Definition rx_parents (r : RX) : gmap nat (option nat) := parent <$> rxs r.
Definition tx_parents (t : TX) : gmap nat (option nat) := tx_parent <$> t.

Lemma rx_parents_lookup r r' p : rx_parents r' = rx_parents r -> parent <$> rxs r' !! p = parent <$> rxs r !! p.
Proof. intros E. pose proof (f_equal (lookup p) E) as H. unfold rx_parents in H. by rewrite !lookup_fmap in H. Qed.

Lemma tx_parents_lookup (t t' : TX) p : tx_parents t' = tx_parents t -> tx_parent <$> t' !! p = tx_parent <$> t !! p.
Proof. intros E. pose proof (f_equal (lookup p) E) as H. unfold tx_parents in H. by rewrite !lookup_fmap in H. Qed.

Lemma inv_rx N s m A Q G r : sm_inv N s m A Q G -> rx_parents r = rx_parents (rx s) -> sm_inv N (upd_rx r s) m A Q G.
Proof.
  intros I E. pose proof (fun p => rx_parents_lookup _ _ p E) as L.
  assert (L1 : forall p, is_Some (rxs (rx s) !! p) -> is_Some (rxs r !! p)).
  { intros p [y Hy]. specialize (L p). rewrite Hy in L. destruct (rxs r !! p); [by eexists|done]. }
  destruct I. split; try done; cbn [upd_rx rx qsm].
  - destruct i_rx_conn as (c & Hc & Hn). specialize (L conn_fc). rewrite Hc in L. cbn in L.
    destruct (rxs r !! conn_fc) as [c'|]; [|done]. exists c'. split; [done|]. cbn in L. congruence.
  - intros p y c Hy Hp. specialize (L p). rewrite Hy in L. cbn in L.
    destruct (rxs (rx s) !! p) as [y'|] eqn:Hy'; [|done]. eapply i_rx_parent; [done|]. cbn in L. congruence.
  - intros p Hp. destruct (i_rx_count p Hp). auto.
  - intros p x Hx Hn. destruct (i_streams p x Hx Hn) as (? & ? & ?). auto.
Qed.

Lemma inv_tx N s m A Q G t : sm_inv N s m A Q G -> tx_wf t -> tx_parents t = tx_parents (tx s) ->
  sm_inv N (upd_tx t s) m A Q G.
Proof.
  intros I Hw E. pose proof (fun p => tx_parents_lookup _ _ p E) as L.
  assert (L1 : forall p y z, tx s !! p = Some y -> tx_parent y = z -> exists y', t !! p = Some y' /\ tx_parent y' = z).
  { intros p y z Hy Hz. specialize (L p). rewrite Hy in L. cbn in L. destruct (t !! p) as [y'|]; [|done].
    exists y'. cbn in L. split; [done|congruence]. }
  destruct I. split; try done; cbn [upd_tx tx].
  - split; [done|]. destruct i_tx as (_ & c & Hc & Hn). eauto.
  - intros p y c Hy Hp. specialize (L p). rewrite Hy in L. cbn in L.
    destruct (tx s !! p) as [y'|] eqn:Hy'; [|done]. eapply i_tx_parent; [done|]. cbn in L. congruence.
  - intros p Hp. specialize (L p). rewrite i_tx_dom in L by done. by destruct (t !! p).
  - intros p x Hx Hn. destruct (i_streams p x Hx Hn) as (? & (y & Hy & Hp) & ?). eauto.
Qed.

Lemma inv_orc N s m A Q G o : sm_inv N s m A Q G -> sm_inv N (upd_orc o s) m A Q G.
Proof. intros []. by split. Qed.

(** *** Calls that are defined and keep the controllers *)

Definition rx_keeps {B} (P : gmap nat (option nat)) (f : M RX B) : Prop :=
  forall r, rx_parents r = P -> exists b r', f r = (Ok b, r') /\ rx_parents r' = P.

Lemma keeps_ret {B} P (b : B) : rx_keeps P (ret b).
Proof. intros r E. by eexists _, r. Qed.

Lemma keeps_bind {B C} P (f : M RX B) (k : B -> M RX C) : rx_keeps P f -> (forall b, rx_keeps P (k b)) ->
  rx_keeps P (bind f k).
Proof.
  intros Hf Hk r E. destruct (Hf r E) as (b & r1 & Ef & E1). rewrite (bind_ok _ _ _ _ _ Ef). by apply Hk.
Qed.

Lemma keeps_load {B} (P : gmap nat (option nat)) p (k : QUIC_RXFC -> M RX B) : is_Some (P !! p) ->
  (forall x, P !! p = Some (parent x) -> rx_keeps P (k x)) -> rx_keeps P (let! x := rx_load p in k x).
Proof.
  intros [o Ho] Hk r E. pose proof Ho as Hp. rewrite <-E in Ho. unfold rx_parents in Ho. rewrite lookup_fmap in Ho.
  destruct (rxs r !! p) as [x|] eqn:Hx; [|done]. cbn in Ho. rewrite (bind_ok _ _ _ _ _ (rx_load_ok _ _ _ Hx)).
  apply Hk; [|done]. congruence.
Qed.

Lemma keeps_store (P : gmap nat (option nat)) p x : P !! p = Some (parent x) -> rx_keeps P (rx_store p x).
Proof.
  intros Hx r E. eexists _, _. split; [done|]. unfold rx_parents in *. cbn [rxs]. rewrite fmap_insert, E.
  by apply insert_id.
Qed.

Lemma keeps_clock now P : rx_keeps P (read_clock now).
Proof. intros r E. by eexists _, _. Qed.

Create HintDb rx_keeps.
#[export] Hint Resolve keeps_ret keeps_clock : rx_keeps.

(** Steps through a call on the controllers. *)
Ltac keeps := repeat first
  [ progress intros
  | apply keeps_store; assumption
  | apply keeps_load; [by eauto|]
  | apply keeps_bind
  | solve [eauto with rx_keeps]
  | match goal with |- rx_keeps _ (if ?b then _ else _) => destruct b end
  | match goal with |- rx_keeps _ (let (_, _) := ?p in _) => destruct p end ].

Lemma keeps_on_retire_local now (P : gmap nat (option nat)) p n w rtt : is_Some (P !! p) ->
  rx_keeps P (rxfc_on_retire now p n w rtt).
Proof.
  intros Hp. unfold rxfc_on_retire, rxfc_start_epoch, rxfc_update_cwm, rxfc_cwm_bump_desired, rxfc_adjust_window_size,
    rxfc_should_bump_window_size, rxfc_start_epoch. keeps.
Qed.

Lemma keeps_on_retire now (P : gmap nat (option nat)) p n rtt : is_Some (P !! p) ->
  (forall c, P !! p = Some (Some c) -> is_Some (P !! c)) -> rx_keeps P (ossl_quic_rxfc_on_retire now p n rtt).
Proof.
  intros Hp Hc. unfold ossl_quic_rxfc_on_retire. apply keeps_load; [done|]. intros x Hx.
  destruct (bool_decide _ && _) eqn:Hb; [apply keeps_ret|]. destruct (n =? 0); [apply keeps_ret|].
  destruct (_ >? _); [apply keeps_ret|]. apply keeps_bind; [by apply keeps_on_retire_local|]. intros _.
  apply keeps_bind; [|intros; apply keeps_ret]. destruct (standalone x); [apply keeps_ret|]. cbn [negb].
  apply keeps_load; [done|]. intros y Hy. rewrite Hx in Hy. injection Hy as Ey. rewrite <-Ey.
  rewrite Hx in Hc. destruct (parent x) as [c|]; [|by rewrite bool_decide_true in Hb].
  apply keeps_on_retire_local. by apply Hc.
Qed.

Lemma keeps_cwm_changed (P : gmap nat (option nat)) p b : is_Some (P !! p) ->
  rx_keeps P (ossl_quic_rxfc_has_cwm_changed p b).
Proof. intros Hp. unfold ossl_quic_rxfc_has_cwm_changed. keeps. Qed.

(** ** The accept queue *)

Lemma of_dir_app b h l l' : of_dir b h (l ++ l') = of_dir b h l ++ of_dir b h l'.
Proof. apply filter_app. Qed.

Lemma of_dir_one b h p x : h !! p = Some x ->
  zlen (of_dir b h [p]) = Z.b2z (Bool.eqb (ossl_quic_stream_is_bidi x) b).
Proof.
  intros H. unfold of_dir. rewrite filter_cons, filter_nil, H. cbn.
  destruct (decide _) as [[= ->]|Hn]; [by rewrite eqb_reflx|].
  destruct (ossl_quic_stream_is_bidi x), b; done.
Qed.

Lemma of_dir_bound N s m A Q G b : sm_inv N s m A Q G -> 0 <= zlen (of_dir b (heap s) Q) <= MAX_STREAMS.
Proof.
  intros I. pose proof (heap_bound _ _ _ _ _ _ I) as Hb. rewrite zlen_length. split; [lia|].
  pose proof (i_accept _ _ _ _ _ _ I) as Hr.
  assert (Hs : (list_to_set Q : gset nat) ⊆ dom (heap s)).
  { intros p Hp. apply elem_of_list_to_set in Hp. by eapply rep_in. }
  apply subseteq_size in Hs. rewrite size_list_to_set in Hs by by eapply rep_nodup.
  pose proof (length_filter (fun p => ossl_quic_stream_is_bidi <$> heap s !! p = Some b) Q). unfold of_dir. lia.
Qed.

Lemma inv_accept N s m A Q Q' G l : sm_inv N s m A Q G -> list_rep l (dom (heap s)) Q' ->
  sm_inv N (upd_qsm (set_num_accept (zlen (of_dir true (heap s) Q')) (zlen (of_dir false (heap s) Q'))
    (set_accept_list l (qsm s))) s) m A Q' G.
Proof. intros [] Hl. by split. Qed.

Lemma push_accept_ok N s m A Q G p x : sm_inv N s m A Q G -> heap s !! p = Some x -> p ∉ Q ->
  exists s', ossl_quic_stream_map_push_accept_queue p s = (Ok tt, s') /\ sm_inv N s' m A (Q ++ [p]) G /\
    same_env s s' /\ heap s' = heap s.
Proof.
  intros I H Hp. destruct (insert_tail_ok _ _ _ _ (i_accept _ _ _ _ _ _ I) (in_dom _ _ _ H) Hp) as (l & E & Hl).
  unfold ossl_quic_stream_map_push_accept_queue.
  erewrite bind_ok by (apply zoom_run; exact E). cbn [fst].
  erewrite bind_ok by (apply stream_at_run; exact H).
  pose proof (inv_accept _ _ _ _ _ _ _ _ I Hl) as I'. rewrite !of_dir_app, !zlen_app in I'.
  rewrite !(of_dir_one _ _ _ _ H), <-(i_bidi _ _ _ _ _ _ I), <-(i_uni _ _ _ _ _ _ I) in I'.
  pose proof (of_dir_bound _ _ _ _ _ _ true I) as B1. pose proof (of_dir_bound _ _ _ _ _ _ false I) as B2.
  rewrite <-(i_bidi _ _ _ _ _ _ I) in B1. rewrite <-(i_uni _ _ _ _ _ _ I) in B2. unfold MAX_STREAMS in *.
  destruct (ossl_quic_stream_is_bidi x); cbn [Bool.eqb Z.b2z] in I'; rewrite ?Z.add_0_r in I';
    (eexists; split; [unfold mod_qsm, modify; cbn [upd_qsm set_accept_list num_accept_bidi num_accept_uni qsm];
       rewrite u64_id by lia; reflexivity|]); by split.
Qed.

(** The queue without one of its streams. *)
Lemma pop_accept_ok N s m A l r G p x : sm_inv N s m A (l ++ p :: r) G -> heap s !! p = Some x ->
  exists k, in_accept (list_remove Head (Node p)) s = (Ok tt, upd_qsm (set_accept_list k (qsm s)) s) /\
    sm_inv N (upd_qsm (set_num_accept
      (if ossl_quic_stream_is_bidi x then u64 (num_accept_bidi (qsm s) - 1) else num_accept_bidi (qsm s))
      (if ossl_quic_stream_is_bidi x then num_accept_uni (qsm s) else u64 (num_accept_uni (qsm s) - 1))
      (set_accept_list k (qsm s))) s) m A (l ++ r) G.
Proof.
  intros I H. destruct (take_out_ok _ _ _ _ _ (i_accept _ _ _ _ _ _ I)) as (k & E & Hk).
  exists k. split; [unfold in_accept, zoom; by rewrite E|]. pose proof (inv_accept _ _ _ _ _ _ _ _ I Hk) as I'.
  assert (Hc : forall b, zlen (of_dir b (heap s) (l ++ p :: r))
    = zlen (of_dir b (heap s) (l ++ r)) + Z.b2z (Bool.eqb (ossl_quic_stream_is_bidi x) b)).
  { intros b. change (p :: r) with ([p] ++ r). rewrite !of_dir_app, !zlen_app, (of_dir_one _ _ _ _ H). lia. }
  pose proof (of_dir_bound _ _ _ _ _ _ true I) as B1. pose proof (of_dir_bound _ _ _ _ _ _ false I) as B2.
  pose proof (zlen_nonneg (of_dir true (heap s) (l ++ r))). pose proof (zlen_nonneg (of_dir false (heap s) (l ++ r))).
  rewrite (i_bidi _ _ _ _ _ _ I), (i_uni _ _ _ _ _ _ I). unfold MAX_STREAMS in *.
  rewrite (Hc true) in *. rewrite (Hc false) in *.
  destruct (ossl_quic_stream_is_bidi x); cbn [Bool.eqb Z.b2z] in *; rewrite u64_id, ?Z.add_0_r, ?Z.add_simpl_r by lia; done.
Qed.

Lemma in_rx_keeps {B} N s m A Q G (f : M RX B) : sm_inv N s m A Q G -> rx_keeps (rx_parents (rx s)) f ->
  exists b r, in_rx f s = (Ok b, upd_rx r s) /\ sm_inv N (upd_rx r s) m A Q G.
Proof.
  intros I Hf. destruct (Hf (rx s) eq_refl) as (b & r & E & Hr). exists b, r.
  split; [by apply zoom_run|]. by apply inv_rx.
Qed.

Lemma remove_accept_ok now s m A l r G p x rtt : sm_inv ∅ s m A (l ++ p :: r) G -> heap s !! p = Some x ->
  exists s', ossl_quic_stream_map_remove_from_accept_queue now p rtt s = (Ok tt, s') /\
    sm_inv ∅ s' m A (l ++ r) G /\ heap s' = heap s /\ brk s' = brk s.
Proof.
  intros I H. destruct (pop_accept_ok _ _ _ _ _ _ _ _ _ I H) as (k & E & I1).
  unfold ossl_quic_stream_map_remove_from_accept_queue. rewrite (bind_ok _ _ _ _ _ E).
  erewrite bind_ok by (apply stream_at_run; exact H). match goal with I1 : sm_inv _ ?s1 _ _ _ _ |- _ => set (s2 := s1) in * end.
  rewrite (bind_ok _ _ _ tt s2) by (unfold s2; by destruct (ossl_quic_stream_is_bidi x)).
  set (fc := if ossl_quic_stream_is_bidi x then max_streams_bidi_rxfc (qsm s) else max_streams_uni_rxfc (qsm s)).
  assert (Ef : qsm_get_max_streams_rxfc p s2 = (Ok fc, s2)).
  { unfold qsm_get_max_streams_rxfc. by erewrite bind_ok by (apply stream_at_run; exact H). }
  rewrite (bind_ok _ _ _ _ _ Ef). destruct fc as [c|] eqn:Ec; [|by exists s2]. unfold fc in Ec.
  destruct (i_rx_count _ _ _ _ _ _ I c) as (_ & y & Hy); [destruct (ossl_quic_stream_is_bidi x); auto|].
  destruct (in_rx_keeps _ _ _ _ _ _ (ossl_quic_rxfc_on_retire now c 1 rtt) I1) as (b & r' & E' & I2).
  - unfold rx_parents. apply keeps_on_retire.
    + rewrite lookup_fmap. cbn [s2 upd_qsm rx]. rewrite Hy. by eexists.
    + intros d. rewrite !lookup_fmap. cbn [s2 upd_qsm rx]. rewrite Hy. intros [= Hd].
      destruct (i_rx_conn _ _ _ _ _ _ I) as (z & Hz & _). rewrite (i_rx_parent _ _ _ _ _ _ I c y d Hy Hd), Hz. by eexists.
  - rewrite (bind_ok _ _ _ _ _ E'). by eexists.
Qed.

(** *** The search *)

Lemma in_accept_query {B} s (f : M links B) r : f (accept_list (qsm s)) = (r, accept_list (qsm s)) -> in_accept f s = (r, s).
Proof. intros E. apply zoom_query; [done|]. by destruct s as [[] ? ? ? ? ? ? ?]. Qed.

Lemma find_loop_ok s m A Q G u : sm_inv ∅ s m A Q G -> forall r l fuel, Q = l ++ r ->
  of_dir (negb u) (heap s) r <> [] -> (length r <= fuel)%nat ->
  find_loop fuel u (list.head r) s = (Ok (list.head (of_dir (negb u) (heap s) r)), s).
Proof.
  intros I. induction r as [|p r IH]; intros l fuel HQ Hne Hf; [done|]. destruct fuel as [|fuel]; [cbn in Hf; lia|].
  assert (exists x, heap s !! p = Some x) as [x Hx].
  { apply elem_of_dom. eapply rep_in; [exact (i_accept _ _ _ _ _ _ I)|]. rewrite HQ. apply elem_of_app. right. left. }
  change (p :: r) with ([p] ++ r) in *. rewrite of_dir_app in *. cbn [list.head find_loop app].
  rewrite (bind_ok _ _ _ _ _ (stream_at_run _ _ _ Hx)).
  assert (Hone : of_dir (negb u) (heap s) [p] = if Bool.eqb (ossl_quic_stream_is_bidi x) (negb u) then [p] else []).
  { unfold of_dir. rewrite filter_cons, filter_nil, Hx. cbn. destruct (decide _) as [[= ->]|Hn]; [by rewrite eqb_reflx|].
    destruct (ossl_quic_stream_is_bidi x), u; done. }
  rewrite Hone in *. replace (_ || _) with (Bool.eqb (ossl_quic_stream_is_bidi x) (negb u))
    by (by destruct (ossl_quic_stream_is_bidi x), u).
  destruct (Bool.eqb _ _); [done|]. cbn [app] in *.
  pose proof (i_accept _ _ _ _ _ _ I) as Hrep. rewrite HQ in Hrep.
  rewrite (bind_ok _ _ _ _ _ (in_accept_query _ _ _ (next_ok _ _ _ _ _ Hrep))).
  destruct r as [|p' r]; [done|]. cbn [app list.head]. apply (IH (l ++ [p])); [by rewrite <-app_assoc|done|cbn in *; lia].
Qed.

Lemma find_accept_ok s m A Q G u fuel : sm_inv ∅ s m A Q G -> (length Q <= fuel)%nat ->
  ossl_quic_stream_map_find_in_accept_queue fuel u s = (Ok (list.head (of_dir (negb u) (heap s) Q)), s).
Proof.
  intros I Hf. unfold ossl_quic_stream_map_find_in_accept_queue.
  rewrite (bind_ok _ _ s (zlen (of_dir (negb u) (heap s) Q)) s).
  2:{ unfold ossl_quic_stream_map_get_accept_queue_len. rewrite (bind_ok _ _ _ _ _ (get_qsm_run _)).
      rewrite (i_bidi _ _ _ _ _ _ I), (i_uni _ _ _ _ _ _ I). by destruct u. }
  destruct (Z.eqb_spec (zlen (of_dir (negb u) (heap s) Q)) 0) as [Hz|Hz].
  - rewrite zlen_length in Hz. by destruct (of_dir _ _ _).
  - unfold ossl_quic_stream_map_peek_accept_queue.
    rewrite (bind_ok _ _ _ _ _ (in_accept_query _ _ _ (head_ok _ _ _ (i_accept _ _ _ _ _ _ I)))).
    apply (find_loop_ok _ _ _ _ _ _ I Q []); [done| |done]. intros E. by rewrite E in Hz.
Qed.

(** ** Creation *)

(** The state with a new stream [y]. *)
Definition created (y : QUIC_STREAM) (s : SM) : SM :=
  let p := brk s in
  mkSM (set_ready_for_gc_list (<[Node p := unlinked]> (ready_for_gc_list (qsm s)))
         (set_accept_list (<[Node p := unlinked]> (accept_list (qsm s)))
           (set_active_list (<[Node p := unlinked]> (active_list (qsm s))) (qsm s))))
    (ch s) (txp s) (<[p := y]> (heap s)) (<[p := zero_txfc]> (tx s))
    (mkRX (<[p := zero_rxfc]> (rxs (rx s))) (readings (rx s))) (S p) (orc s).

Lemma created_upd y y' s : upd_heap (<[brk s := y']> (heap (created y s))) (created y s) = created y' s.
Proof. unfold created, upd_heap. cbn. by rewrite insert_insert_eq. Qed.

Lemma flushing_new (h : gmap nat QUIC_STREAM) p y : h !! p = None -> shutdown_flush y = false ->
  flushing (<[p := y]> h) = flushing h.
Proof.
  intros H Hy. apply set_eq. intros q. rewrite !elem_of_flushing. split.
  - intros (x & [[<- <-]|[? ?]]%lookup_insert_Some & ?); [congruence|eauto].
  - intros (x & Hx & ?). exists x. rewrite lookup_insert_ne; [done|]. intros ->. congruence.
Qed.

Lemma of_dir_new b (h : gmap nat QUIC_STREAM) p y l : p ∉ l -> of_dir b (<[p := y]> h) l = of_dir b h l.
Proof. intros Hp. apply of_dir_ext. intros q Hq. rewrite lookup_insert_ne; [done|]. by intros ->. Qed.

Lemma fresh_ptr N s m A Q G : sm_inv N s m A Q G -> brk s ∉ dom (heap s) /\ heap s !! brk s = None.
Proof.
  intros I. assert (Hp : brk s ∉ dom (heap s)) by (intros Hp; destruct (i_brk _ _ _ _ _ _ I _ Hp); lia).
  split; [done|]. by apply not_elem_of_dom.
Qed.

Lemma inv_created s m A Q G y : sm_inv ∅ s m A Q G -> Z.of_nat (brk s) < MAX_STREAMS ->
  active y = false -> ready_for_gc y = false -> shutdown_flush y = false -> as_server y = is_server (ch s) ->
  sm_inv {[brk s]} (created y s) m A Q G.
Proof.
  intros I Hmax Ha Hg Hf Hs. pose proof (i_low _ _ _ _ _ _ I) as H2. destruct (fresh_ptr _ _ _ _ _ _ I) as [Hd Hn]. set (p := brk s) in *.
  assert (Hlist : forall k l, list_rep k (dom (heap s)) l -> p ∉ l /\ list_rep (<[Node p := unlinked]> k) (dom (<[p := y]> (heap s))) l).
  { intros k l Hk. rewrite dom_insert_L. split; [|by apply alloc_rep]. intros Hp. by eapply Hd, rep_in. }
  assert (Hlk : forall q x, <[p := y]> (heap s) !! q = Some x -> q = p /\ x = y \/ q <> p /\ heap s !! q = Some x).
  { intros q x [[<- <-]|[? ?]]%lookup_insert_Some; auto. }
  destruct I. destruct (Hlist _ _ i_active) as [PA LA], (Hlist _ _ i_accept) as [PQ LQ], (Hlist _ _ i_gc) as [PG LG].
  assert (Htp : tx s !! p = None) by by apply i_tx_dom.
  split; cbn [created qsm heap tx rx brk ch rxs]; try done.
  - intros id r Hr. destruct (i_entry id r Hr) as (E & x & Hx & Ex). split; [done|]. exists x. split; [|done].
    rewrite lookup_insert_ne; [done|]. intros E'. rewrite <-E' in Hx. fold p in Hx. congruence.
  - intros q x [[-> ->]|[? ?]]%Hlk; [by rewrite Ha|auto].
  - intros q x [[-> ->]|[? ?]]%Hlk; [by rewrite Hg|auto].
  - rewrite of_dir_new by done. done.
  - rewrite of_dir_new by done. done.
  - rewrite flushing_new by done. done.
  - intros q. rewrite dom_insert, elem_of_union, elem_of_singleton. fold p. intros [-> |Hq]; [lia|].
    specialize (i_brk q Hq). fold p in i_brk. lia.
  - fold p. lia.
  - fold p. lia.
  - fold p. lia.
  - fold p. split.
    + apply tx_wf_fresh; [apply i_tx|done|split; cbn; unfold U64_MOD; lia|done].
    + destruct i_tx as (_ & c & Hc & Hpar). exists c. rewrite lookup_insert_ne; [done|]. unfold conn_fc. lia.
  - intros q t c [[<- <-]|[? ?]]%lookup_insert_Some; [done|eauto].
  - intros q Hq. rewrite lookup_insert_ne by (fold p; lia). apply i_tx_dom. fold p. lia.
  - destruct i_rx_conn as (c & Hc & Hpar). exists c. rewrite lookup_insert_ne; [done|]. unfold conn_fc. fold p. lia.
  - intros q t c [[<- <-]|[? ?]]%lookup_insert_Some; [done|eauto].
  - intros q Hq. destruct (i_rx_count q Hq) as (? & z & Hz). split; [done|]. exists z.
    rewrite lookup_insert_ne; [done|]. fold p. lia.
  - intros q x [[-> ->]|[? ?]]%Hlk; [done|eauto].
  - intros q x [[-> ->]|[? Hx]]%Hlk Hq; [set_solver|]. fold p.
    destruct (i_streams q x Hx ltac:(set_solver)) as (? & (t & Ht & ?) & z & Hz).
    split; [done|]. split; [exists t|exists z]; by rewrite lookup_insert_ne.
Qed.

(** The stream that [ossl_quic_stream_map_alloc] makes. *)
Definition fresh_stream (id type : Z) (srv : bool) : QUIC_STREAM :=
  let y := set_identity id (u8 type) srv zero_stream in
  set_send_final_size UINT64_MAX
    (set_recv_state (if negb (ossl_quic_stream_is_local_init y) || ossl_quic_stream_is_bidi y
                     then QUIC_RSTREAM_STATE_RECV else QUIC_RSTREAM_STATE_NONE)
      (set_send_state (if ossl_quic_stream_is_local_init y || ossl_quic_stream_is_bidi y
                       then QUIC_SSTREAM_STATE_READY else QUIC_SSTREAM_STATE_NONE) y)).

(** The assignments of [ossl_quic_stream_map_alloc]. *)
Lemma alloc_assigns {B} id type s (k : nat -> M SM B) :
  (let! p := new_stream in
   let! st := get in
   upd_stream p (set_identity id (u8 type) (is_server (ch st))) ;;;
   let! s := stream_at p in
   upd_stream p (set_send_state
     (if ossl_quic_stream_is_local_init s || ossl_quic_stream_is_bidi s
      then QUIC_SSTREAM_STATE_READY else QUIC_SSTREAM_STATE_NONE)) ;;;
   upd_stream p (set_recv_state
     (if negb (ossl_quic_stream_is_local_init s) || ossl_quic_stream_is_bidi s
      then QUIC_RSTREAM_STATE_RECV else QUIC_RSTREAM_STATE_NONE)) ;;;
   upd_stream p (set_send_final_size UINT64_MAX) ;;; k p) s
  = k (brk s) (created (fresh_stream id type (is_server (ch s))) s).
Proof.
  rewrite (bind_ok new_stream _ s (brk s) (created zero_stream s) eq_refl).
  rewrite (bind_ok get _ (created zero_stream s) _ _ eq_refl).
  assert (Hl : forall y, heap (created y s) !! brk s = Some y) by (intros y; apply lookup_insert_eq).
  erewrite bind_ok by (apply upd_stream_run, Hl). rewrite created_upd.
  erewrite bind_ok by (apply stream_at_run, Hl).
  erewrite bind_ok by (apply upd_stream_run, Hl). rewrite created_upd.
  erewrite bind_ok by (apply upd_stream_run, Hl). rewrite created_upd.
  erewrite bind_ok by (apply upd_stream_run, Hl). rewrite created_upd. done.
Qed.

Lemma table_insert_ok N s m A Q G id p x : sm_inv N s m A Q G -> heap s !! p = Some x -> s_id x = id ->
  m !! id = None -> (base.size m < brk s)%nat ->
  exists r t o m', in_map (OPENSSL_LH_insert (mkRef id p)) s = (Ok r, with_table t o s) /\ o `suffix_of` orc s /\
    sm_inv N (with_table t o s) m' A Q G /\ (m' = <[id := mkRef id p]> m \/ m' = m /\ false ∈ orc s).
Proof.
  intros I H Hid Hm Hsz. destruct (i_table _ _ _ _ _ _ I) as (t & Ht & Hr).
  destruct (lh_insert_ok _ _ (mkRef id p) (rep_orc _ _ (orc s) Hr)) as (r & t' & E & Hsuf & Hc).
  { pose proof (i_max _ _ _ _ _ _ I). unfold MAX_STREAMS in *. lia. }
  destruct Hc as [(_ & _ & Hr')|(_ & _ & Hr' & Ho)].
  - exists r, t', (lh_oracle t'), (<[id := mkRef id p]> m). split_and!; [by eapply in_map_run|done| |by left].
    eapply inv_table; [done|done| |].
    + intros id' r' [[<- <-]|[? ?]]%lookup_insert_Some; [|by eapply i_entry]. split; [done|]. by exists x.
    + rewrite map_size_insert_None by done. lia.
  - exists r, t', (lh_oracle t'), m. split_and!; [by eapply in_map_run|done| |by right].
    eapply inv_table; [done|done|by apply I|lia].
Qed.

Lemma alloc_outcome (o o' : oracle) b : alloc o = (b, o') -> o' `suffix_of` o /\ (b = false -> false ∈ o).
Proof.
  destruct o as [|x o]; cbn; intros [= <- <-]; [done|]. split; [by exists [x]|]. intros ->. left.
Qed.

(** What is the same in both outcomes. *)
Record kept (s s' : SM) : Prop := {
  k_ch : ch s' = ch s;
  k_orc : orc s' `suffix_of` orc s;
  k_cb : get_stream_limit_cb (qsm s') = get_stream_limit_cb (qsm s)
}.

Lemma stream_alloc_ok s m A Q G id type : sm_inv ∅ s m A Q G -> Z.of_nat (brk s) < MAX_STREAMS ->
  exists r s', ossl_quic_stream_map_alloc id type s = (Ok r, s') /\ kept s s' /\
    match r with
    | None => sm_inv ∅ s' m A Q G /\ heap s' = heap s /\ brk s' = brk s /\ (is_Some (m !! id) \/ false ∈ orc s)
    | Some p => p = brk s /\ brk s' = S p /\ heap s' = <[p := fresh_stream id type (is_server (ch s))]> (heap s) /\
        m !! id = None /\ exists m', sm_inv {[p]} s' m' A Q G /\
          (m' = <[id := mkRef id p]> m \/ m' = m /\ false ∈ orc s)
    end.
Proof.
  intros I Hmax. destruct (lookup_ok _ _ _ _ _ _ id 0 I) as (t & E & I1). unfold ossl_quic_stream_map_alloc.
  rewrite (bind_ok _ _ _ _ _ E). set (s1 := with_table t (orc s) s) in *. destruct (m !! id) as [e|] eqn:Hm.
  { exists None, s1. split; [done|]. split; [by split|]. split_and!; try done. left. by eexists. }
  destruct (alloc (orc s)) as [b o] eqn:Ea. destruct (alloc_outcome _ _ _ Ea) as [Hsuf Hno].
  rewrite (bind_ok _ _ _ b (upd_orc o s1)) by (unfold allocate_; cbn; by rewrite Ea).
  pose proof (inv_orc _ _ _ _ _ _ o I1) as I2. set (s2 := upd_orc o s1) in *.
  destruct b; cbn [negb].
  2:{ exists None, s2. split; [done|]. split; [by split|]. split_and!; try done. right. by apply Hno. }
  rewrite alloc_assigns. change (is_server (ch s2)) with (is_server (ch s)).
  set (y := fresh_stream id type (is_server (ch s))). assert (I3 : sm_inv {[brk s]} (created y s2) m A Q G) by by apply (inv_created s2).
  destruct (table_insert_ok _ _ _ _ _ _ id (brk s) y I3) as (r & t' & o' & m' & E' & Ho' & I' & Hm'); try done.
  { apply lookup_insert_eq. }
  { pose proof (i_size _ _ _ _ _ _ I). cbn. lia. }
  rewrite (bind_ok _ _ _ _ _ E'). eexists (Some (brk s)), _. split; [reflexivity|].
  split; [split; [done|by etrans|done]|]. split_and!; try done. exists m'. split; [done|].
  destruct Hm' as [->|[-> Hf]]; [by left|]. right. split; [done|]. destruct Hsuf as [k ->]. apply elem_of_app. by right.
Qed.

(** ** Release *)

(** The state without the stream [p]; [k] are the links of the streams to collect. *)
Definition freed (p : nat) (t : LH stream_ref) (o : oracle) (k : links) (s : SM) : SM :=
  mkSM (set_ready_for_gc_list (delete (Node p) k)
         (set_accept_list (delete (Node p) (accept_list (qsm s)))
           (set_active_list (delete (Node p) (active_list (qsm s))) (set_map (Some t) (qsm s)))))
    (ch s) (txp s) (delete p (heap s)) (delete p (tx s))
    (mkRX (delete p (rxs (rx s))) (readings (rx s))) (brk s) o.

Lemma flushing_delete (h : gmap nat QUIC_STREAM) p x : h !! p = Some x -> shutdown_flush x = false ->
  flushing (delete p h) = flushing h.
Proof.
  intros H Hx. apply set_eq. intros q. rewrite !elem_of_flushing. split.
  - intros (y & [? ?]%lookup_delete_Some & ?). eauto.
  - intros (y & Hy & ?). exists y. rewrite lookup_delete_ne; [done|]. intros ->. congruence.
Qed.

Lemma of_dir_delete b (h : gmap nat QUIC_STREAM) p l : p ∉ l -> of_dir b (delete p h) l = of_dir b h l.
Proof. intros Hp. apply of_dir_ext. intros q Hq. rewrite lookup_delete_ne; [done|]. by intros ->. Qed.

Lemma inv_freed s m A Q G G' p x t o k : sm_inv {[p]} s m A Q G -> heap s !! p = Some x -> p ∉ A -> p ∉ Q ->
  shutdown_flush x = false -> list_rep k (dom (heap s)) G' -> p ∉ G' -> (forall q, q <> p -> q ∈ G' <-> q ∈ G) ->
  lh_rep t (delete (s_id x) m) -> sm_inv ∅ (freed p t o k s) (delete (s_id x) m) A Q G'.
Proof.
  intros I H PA PQ Hf HG PG HGq Ht. pose proof (i_brk _ _ _ _ _ _ I p (in_dom _ _ _ H)) as Hb.
  destruct I. assert (Hlk : forall q y, delete p (heap s) !! q = Some y -> q <> p /\ heap s !! q = Some y).
  { intros q y [? ?]%lookup_delete_Some. auto. }
  assert (Hnp : conn_fc <> p) by (unfold conn_fc; lia).
  split; cbn [freed qsm heap tx rx brk ch rxs]; try done.
  - by exists t.
  - intros id r [Hid Hr]%lookup_delete_Some. destruct (i_entry id r Hr) as (E & y & Hy & Ey). split; [done|].
    exists y. split; [|done]. rewrite lookup_delete_ne; [done|]. intros E'. rewrite <-E' in Hy. congruence.
  - rewrite dom_delete_L. by apply free_rep.
  - rewrite dom_delete_L. by apply free_rep.
  - rewrite dom_delete_L. by apply free_rep.
  - intros q y [? ?]%Hlk. eauto.
  - intros q y [? ?]%Hlk. rewrite HGq by done. eauto.
  - by rewrite of_dir_delete.
  - by rewrite of_dir_delete.
  - by rewrite (flushing_delete _ _ _ H).
  - intros q. rewrite dom_delete, elem_of_difference. intros [? _]. auto.
  - etrans; [|exact i_size]. rewrite map_size_delete. destruct (m !! s_id x); unfold Datatypes.id; lia.
  - destruct i_tx as ([Hok Hpar] & c & Hc & Hcn). split.
    + split; [intros q y [? ?]%lookup_delete_Some; eauto|]. intros q y d [_ Hy]%lookup_delete_Some Hd.
      rewrite (i_tx_parent _ _ _ Hy Hd). exists c. by rewrite lookup_delete_ne.
    + exists c. by rewrite lookup_delete_ne.
  - intros q y d [_ Hy]%lookup_delete_Some. eauto.
  - intros q Hq. rewrite lookup_delete_ne by lia. auto.
  - destruct i_rx_conn as (c & Hc & Hcn). exists c. by rewrite lookup_delete_ne.
  - intros q y d [_ Hy]%lookup_delete_Some. eauto.
  - intros q Hq. destruct (i_rx_count q Hq) as (? & z & Hz). split; [done|]. exists z. rewrite lookup_delete_ne; [done|lia].
  - intros q y [? ?]%Hlk. eauto.
  - intros q y [Hq Hy]%Hlk _. destruct (i_streams q y Hy ltac:(set_solver)) as (? & (u & Hu & ?) & z & Hz).
    split; [done|]. split; [exists u|exists z]; by rewrite lookup_delete_ne.
Qed.

Lemma unlink_skip (on : forall B, M links B -> M SM B) sel upd s D l p :
  (forall B (f : M links B), on B f = zoom sel upd f) -> (forall s, upd (sel s) s = s) ->
  list_rep (sel s) D l -> p ∈ D -> p ∉ l -> unlink_if on p s = (Ok tt, s).
Proof.
  intros Hon Hu Hr Hp Hl. destruct (rep_linked _ _ _ _ Hr Hp) as (k & Hk & Hn). unfold unlink_if. rewrite Hon.
  rewrite (bind_ok _ _ s k s); [|apply zoom_query; [unfold link_at; by rewrite Hk|done]].
  rewrite bool_decide_false by tauto. done.
Qed.

Lemma unlink_gc_ok s D l p : list_rep (ready_for_gc_list (qsm s)) D l -> p ∈ D ->
  exists k l', unlink_if (@in_gc) p s = (Ok tt, upd_qsm (set_ready_for_gc_list k (qsm s)) s) /\
    list_rep k D l' /\ p ∉ l' /\ forall q, q <> p -> q ∈ l' <-> q ∈ l.
Proof.
  intros Hr Hp. destruct (decide (p ∈ l)) as [Hl|Hl].
  - destruct (rep_linked _ _ _ _ Hr Hp) as (k & Hk & Hn). pose proof (rep_nodup _ _ _ Hr) as Hnd.
    apply list_elem_of_split in Hl as (l1 & l2 & ->). destruct (take_out_ok _ _ _ _ _ Hr) as (k' & E & Hk').
    exists k', (l1 ++ l2). split.
    + unfold unlink_if. rewrite (bind_ok _ _ s k s).
      2:{ apply zoom_query; [unfold link_at; by rewrite Hk|by destruct s as [[] ? ? ? ? ? ? ?]]. }
      rewrite bool_decide_true by (apply Hn, elem_of_app; right; left). unfold in_gc, zoom. by rewrite E.
    + split; [done|]. apply NoDup_app in Hnd as (_ & Hd & [Hn2 _]%NoDup_cons).
      split; [|intros q Hq; rewrite !elem_of_app, elem_of_cons; tauto].
      rewrite elem_of_app. intros [H1|H2]; [|done]. apply (Hd _ H1). left.
  - exists (ready_for_gc_list (qsm s)), l. split; [|done].
    rewrite (unlink_skip (@in_gc) _ _ _ D l p (fun _ _ => eq_refl)); [|by intros [[] ? ? ? ? ? ? ?]|done|done|done].
    by destruct s as [[] ? ? ? ? ? ? ?].
Qed.

Lemma stream_release_ok s m A Q G p x : sm_inv {[p]} s m A Q G -> heap s !! p = Some x -> p ∉ A -> p ∉ Q ->
  shutdown_flush x = false -> (forall q, rstream x = Some q -> refs (sfs q) ≡ₚ held (frames (fl (sfs q)))) ->
  exists s' G', ossl_quic_stream_map_release (Some p) s = (Ok tt, s') /\ sm_inv ∅ s' (delete (s_id x) m) A Q G' /\
    heap s' = delete p (heap s) /\ brk s' = brk s /\ kept s s'.
Proof.
  intros I H PA PQ Hf Hh. pose proof (in_dom _ _ _ H) as Hp. unfold ossl_quic_stream_map_release.
  rewrite (bind_ok _ _ s tt s).
  2:{ eapply (unlink_skip (@in_active) _ _ _ _ A p (fun _ _ => eq_refl)); try done; [by intros [[] ? ? ? ? ? ? ?]|apply I]. }
  rewrite (bind_ok _ _ s tt s).
  2:{ eapply (unlink_skip (@in_accept) _ _ _ _ Q p (fun _ _ => eq_refl)); try done; [by intros [[] ? ? ? ? ? ? ?]|apply I]. }
  destruct (unlink_gc_ok s _ _ p (i_gc _ _ _ _ _ _ I) Hp) as (k & G' & E & HG & PG & HGq).
  rewrite (bind_ok _ _ _ _ _ E). set (s1 := upd_qsm _ s).
  rewrite (bind_ok _ _ _ _ _ (free_sstream_run s1 p x H)). set (x1 := set_sstream None x).
  erewrite bind_ok by (apply (free_rstream_run _ p x1); [cbn; apply lookup_insert_eq|exact Hh]).
  cbn [upd_heap heap]. rewrite upd_heap_upd, insert_insert_eq. set (x2 := set_rstream None x1).
  erewrite bind_ok by (apply (stream_at_run _ p x2); cbn; apply lookup_insert_eq).
  destruct (i_table _ _ _ _ _ _ I) as (t & Ht & Hr).
  destruct (delete_ok _ _ (mkRef (s_id x) p) (rep_orc _ _ (orc s) Hr)) as (t' & E' & Hr' & Ho').
  erewrite bind_ok by (apply (in_map_run _ _ t); [exact Ht|exact E']).
  unfold free_stream. erewrite bind_ok by (apply (stream_at_run _ p x2); cbn; apply lookup_insert_eq).
  exists (freed p t' (lh_oracle t') k s), G'. split.
  - unfold modify, freed. cbn. by rewrite delete_insert_eq.
  - split; [by eapply inv_freed|]. split_and!; try done.
Qed.

(** ** Deletion *)

Lemma stream_ok_deleted x : stream_ok x -> send_state x <> QUIC_SSTREAM_STATE_READY ->
  (forall q, send_state x = QUIC_SSTREAM_STATE_SEND -> sstream x = Some q -> have_final_size q = true) ->
  stream_ok (set_deleted true x).
Proof. intros [] H1 H2. by split. Qed.

Lemma mark_deleted_ok s m A Q G p x : sm_inv ∅ s m A Q G -> heap s !! p = Some x ->
  send_state x <> QUIC_SSTREAM_STATE_READY ->
  (forall q, send_state x = QUIC_SSTREAM_STATE_SEND -> sstream x = Some q -> have_final_size q = true) ->
  exists s', (upd_stream p (set_deleted true) ;;; ossl_quic_stream_map_update_state p) s = (Ok tt, s') /\ moved_on s m Q s'.
Proof.
  intros I H H1 H2. eapply put_update_run; [done|done|by split| |by split].
  apply stream_ok_deleted; [by eapply inv_stream|done|done].
Qed.

(** A call for the stream [p], and what follows it. *)
Lemma moved_bind {B C} s m Q p x (f : M SM B) (k : B -> M SM C) r s1 : f s = (Ok r, s1) -> moved_on s m Q s1 ->
  heap s !! p = Some x ->
  (forall A G x1, sm_inv ∅ s1 m A Q G -> heap s1 !! p = Some x1 -> evolves x x1 ->
    exists b s', k r s1 = (Ok b, s') /\ moved_on s1 m Q s') ->
  exists b s', bind f k s = (Ok b, s') /\ moved_on s m Q s'.
Proof.
  intros E M1 H Hk. rewrite (bind_ok _ _ _ _ _ E). pose proof M1 as ((A & G & I1) & _ & V1).
  destruct (evolved_lookup _ _ _ _ V1 H) as (x1 & H1 & V). destruct (Hk A G x1 I1 H1 V) as (b & s' & E' & M').
  exists b, s'. split; [done|]. by eapply moved_on_trans.
Qed.

Lemma reject_ok s m A Q G p x : sm_inv ∅ s m A Q G -> heap s !! p = Some x ->
  exists b s', ossl_quic_channel_reject_stream p s = (Ok b, s') /\ moved_on s m Q s'.
Proof.
  intros I H. unfold ossl_quic_channel_reject_stream. rewrite (bind_ok get _ s s s eq_refl).
  set (aec := incoming_stream_auto_reject_aec (ch s)).
  destruct (stop_sending_ok _ _ _ _ _ p x aec I H) as (r1 & s1 & E1 & M1 & _).
  eapply (moved_bind s m Q p x); [exact E1|done|done|]. intros A1 G1 x1 I1 H1 _.
  destruct (reset_ok _ _ _ _ _ p x1 aec I1 H1) as (r2 & s2 & x2 & E2 & M2 & H2 & N1 & N2).
  eapply (moved_bind s1 m Q p x1); [exact E2|done|done|]. intros A2 G2 x2' I2 H2' _. simplify_eq.
  destruct (mark_deleted_ok s2 m A2 Q G2 p x2 I2 H2 N1) as (s3 & E3 & M3); [done|]. by exists tt, s3.
Qed.

(** ** The parts of a new stream *)

Section Channel.
Context (fresh : Z -> list Z) (now : nat -> OSSL_TIME) (fresh_len : forall n, 0 <= n -> zlen (fresh n) = n).

Lemma sstream_new_ok o : exists r o', ossl_quic_sstream_new fresh INIT_APP_BUF_LEN o = (Ok r, o') /\ o' `suffix_of` o /\
  match r with
  | Some q => SStream.sim q (init_spec INIT_APP_BUF_LEN) /\ have_final_size q = false
  | None => false ∈ o
  end.
Proof.
  destruct (new_ok fresh fresh_len INIT_APP_BUF_LEN) as (q0 & E0 & H0); [unfold INIT_APP_BUF_LEN; lia|].
  unfold ossl_quic_sstream_new in *. change (alloc []) with (true, [] : oracle) in E0. cbn [negb] in E0.
  destruct (alloc o) as [[] o1] eqn:E1; destruct (alloc_outcome _ _ _ E1) as [S1 N1]; cbn [negb].
  2:{ eexists _, _. split; [done|]. split; [done|]. by apply N1. }
  unfold resize in *. change (alloc []) with (true, [] : oracle) in E0. cbn [ring] in *.
  destruct (alloc o1) as [[] o2] eqn:E2; destruct (alloc_outcome _ _ _ E2) as [S2 N2].
  - destruct (ring_buf_resize fresh INIT_APP_BUF_LEN false true ring_buf_init) as [[[]| |] r]; try done.
    injection E0 as <-. eexists _, _. split; [done|]. split; [by etrans|]. by split.
  - assert (Hf : exists r, ring_buf_resize fresh INIT_APP_BUF_LEN false false ring_buf_init = (Err, r)) by by eexists.
    destruct Hf as [r ->]. eexists _, _. split; [done|]. split; [by etrans|]. destruct S1 as [k ->].
    apply elem_of_app. right. by apply N2.
Qed.

Lemma rstream_new_ok rx o : exists r o', ossl_quic_rstream_new fresh None None 0 rx o = (Ok r, o') /\ o' `suffix_of` o /\
  match r with Some q => refs (sfs q) ≡ₚ held (frames (fl (sfs q))) | None => false ∈ o end.
Proof.
  unfold ossl_quic_rstream_new. destruct (alloc o) as [[] o1] eqn:E1; destruct (alloc_outcome _ _ _ E1) as [S1 N1]; cbn [negb].
  2:{ eexists _, _. split; [done|]. split; [done|]. by apply N1. }
  unfold rbuf_resize. cbn [sfs sf_heap fl refs]. destruct (alloc o1) as [ok o2] eqn:E2.
  destruct (alloc_outcome _ _ _ E2) as [S2 N2]. eexists _, _. split; [reflexivity|]. split; [by etrans|]. done.
Qed.

(** A part of the stream under work. *)
Lemma put_work s m A Q G p x x' : sm_inv {[p]} s m A Q G -> heap s !! p = Some x -> same_core x x' ->
  sm_inv {[p]} (upd_heap (<[p := x']> (heap s)) s) m A Q G.
Proof. intros I H Hc. eapply inv_upd; [done|done|done|]. set_solver. Qed.

Lemma new_sstream_ok s m A Q G p x : sm_inv {[p]} s m A Q G -> heap s !! p = Some x ->
  exists (r : option QUIC_SSTREAM) s', new_sstream fresh p s = (Ok (bool_decide (r <> None)), s') /\ sm_inv {[p]} s' m A Q G /\
    heap s' = <[p := set_sstream r x]> (heap s) /\ brk s' = brk s /\ kept s s' /\
    match r with Some q => (exists a, SStream.sim q a) /\ have_final_size q = false | None => false ∈ orc s end.
Proof.
  intros I H. destruct (sstream_new_ok (orc s)) as (r & o & E & Ho & Hr). unfold new_sstream. rewrite E.
  erewrite bind_ok by (apply upd_stream_run; cbn; exact H).
  exists r. eexists. split; [reflexivity|]. split; [by apply (put_work (upd_orc o s)) with x; [apply inv_orc| |]|].
  split_and!; try done. destruct r as [q|]; [|done]. destruct Hr. split; [by eexists|done].
Qed.

Lemma new_rstream_ok s m A Q G p x : sm_inv {[p]} s m A Q G -> heap s !! p = Some x ->
  exists (r : option QUIC_RSTREAM) s', new_rstream fresh p s = (Ok (bool_decide (r <> None)), s') /\ sm_inv {[p]} s' m A Q G /\
    heap s' = <[p := set_rstream r x]> (heap s) /\ brk s' = brk s /\ kept s s' /\
    match r with Some q => refs (sfs q) ≡ₚ held (frames (fl (sfs q))) | None => false ∈ orc s end.
Proof.
  intros I H. destruct (rstream_new_ok (rx s) (orc s)) as (r & o & E & Ho & Hr). unfold new_rstream. rewrite E.
  erewrite bind_ok by (apply upd_stream_run; cbn; exact H).
  exists r. eexists. split; [reflexivity|]. split; [by apply (put_work (upd_orc o s)) with x; [apply inv_orc| |]|].
  split_and!; try done.
Qed.

Lemma inv_tx_init N s m A Q G p t : sm_inv N s m A Q G -> p ∈ dom (heap s) -> tx_ok t -> tx_parent t = Some conn_fc ->
  sm_inv N (upd_tx (<[p := t]> (tx s)) s) m A Q G.
Proof.
  intros I Hp Ht Htp. pose proof (i_brk _ _ _ _ _ _ I p Hp) as Hb. destruct I.
  assert (Hc : exists c, <[p := t]> (tx s) !! conn_fc = Some c /\ tx_parent c = None).
  { destruct i_tx as (_ & c & Hc & Hn). exists c. rewrite lookup_insert_ne; [done|]. unfold conn_fc. lia. }
  assert (Hpar : forall q y c, <[p := t]> (tx s) !! q = Some y -> tx_parent y = Some c -> c = conn_fc).
  { intros q y c [[<- <-]|[? ?]]%lookup_insert_Some Hy; [congruence|eauto]. }
  split; cbn [upd_tx tx]; try done.
  - split; [|done]. destruct i_tx as [[Hok _] _]. split.
    + intros q y [[<- <-]|[? ?]]%lookup_insert_Some; eauto.
    + intros q y c Hy Hyc. by rewrite (Hpar q y c Hy Hyc).
  - intros q Hq. rewrite lookup_insert_ne; [auto|]. cbn in Hq. lia.
  - intros q x Hx Hn. destruct (i_streams q x Hx Hn) as (? & (y & Hy & ?) & ?). split; [done|]. split; [|done].
    destruct (decide (q = p)) as [-> |]; [exists t; by rewrite lookup_insert_eq|exists y; by rewrite lookup_insert_ne].
Qed.

Lemma inv_rx_init N s m A Q G p y : sm_inv N s m A Q G -> p ∈ dom (heap s) -> parent y = Some conn_fc ->
  sm_inv N (upd_rx (mkRX (<[p := y]> (rxs (rx s))) (readings (rx s))) s) m A Q G.
Proof.
  intros I Hp Hy. pose proof (i_brk _ _ _ _ _ _ I p Hp) as Hb. destruct I.
  assert (L : forall q, is_Some (rxs (rx s) !! q) -> is_Some (<[p := y]> (rxs (rx s)) !! q)).
  { intros q [z Hz]. destruct (decide (q = p)) as [-> |]; [by rewrite lookup_insert_eq|by rewrite lookup_insert_ne]. }
  split; cbn [upd_rx rx rxs]; try done.
  - destruct i_rx_conn as (c & Hc & Hn). exists c. rewrite lookup_insert_ne; [done|]. unfold conn_fc. lia.
  - intros q z c [[<- <-]|[? ?]]%lookup_insert_Some Hz; [congruence|eauto].
  - intros q Hq. destruct (i_rx_count q Hq). auto.
  - intros q x Hx Hn. destruct (i_streams q x Hx Hn) as (? & ? & ?). auto.
Qed.

Lemma tx_init_ok N s m A Q G p : sm_inv N s m A Q G -> p ∈ dom (heap s) ->
  exists t, in_tx (ossl_quic_txfc_init p (Some conn_fc)) s = (Ok true, upd_tx (<[p := t]> (tx s)) s) /\
    sm_inv N (upd_tx (<[p := t]> (tx s)) s) m A Q G /\ tx_ok t /\ tx_parent t = Some conn_fc.
Proof.
  intros I Hp. destruct (i_tx _ _ _ _ _ _ I) as (_ & c & Hc & Hn). exists (mkTxfc (Some conn_fc) 0 0 false).
  assert (Hok : tx_ok (mkTxfc (Some conn_fc) 0 0 false)) by (split; cbn; unfold U64_MOD; lia).
  split; [|by split; [apply inv_tx_init|]]. unfold in_tx, zoom, ossl_quic_txfc_init.
  rewrite (bind_ok _ _ (tx s) false (tx s)); [done|].
  by rewrite (bind_ok _ _ _ _ _ (tx_load_ok _ _ _ Hc)), Hn, bool_decide_false by auto.
Qed.

Lemma tx_bump_ok N s m A Q G p t v : sm_inv N s m A Q G -> p ∈ dom (heap s) -> tx s !! p = Some t -> tx_ok t ->
  tx_parent t = Some conn_fc -> is_u64 v ->
  exists b t', in_tx (ossl_quic_txfc_bump_cwm p v) s = (Ok b, upd_tx (<[p := t']> (tx s)) s) /\
    sm_inv N (upd_tx (<[p := t']> (tx s)) s) m A Q G /\ tx_parent t' = Some conn_fc.
Proof.
  intros I Hp Ht Hok Hpar Hv. unfold in_tx, zoom, ossl_quic_txfc_bump_cwm. rewrite (bind_ok _ _ _ _ _ (tx_load_ok _ _ _ Ht)).
  destruct (Z.leb_spec v (tx_cwm t)).
  - exists false, t. split; [|by split; [apply inv_tx_init|]]. rewrite insert_id by done. done.
  - eexists true, _. split; [reflexivity|]. split; [|done]. apply inv_tx_init; try done.
    unfold tx_ok, is_u64 in *. cbn. lia.
Qed.

Lemma rx_init_ok N s m A Q G p w mw : sm_inv N s m A Q G -> p ∈ dom (heap s) ->
  exists y, in_rx (ossl_quic_rxfc_init p (Some conn_fc) w mw) s
    = (Ok true, upd_rx (mkRX (<[p := y]> (rxs (rx s))) (readings (rx s))) s) /\
    sm_inv N (upd_rx (mkRX (<[p := y]> (rxs (rx s))) (readings (rx s))) s) m A Q G.
Proof.
  intros I Hp. destruct (i_rx_conn _ _ _ _ _ _ I) as (c & Hc & Hn). eexists. split.
  - unfold in_rx, zoom, ossl_quic_rxfc_init. rewrite (bind_ok _ _ (rx s) false (rx s)); [reflexivity|].
    by rewrite (bind_ok _ _ _ _ _ (rx_load_ok _ _ _ Hc)), Hn, bool_decide_false by auto.
  - by apply inv_rx_init.
Qed.

(** The flow controllers of a new stream; the calls do not fail. *)
Lemma wire_ok {B} s m A Q G p x (bump : bool) v w mw (err : M SM B) (k : M SM B) : sm_inv {[p]} s m A Q G -> heap s !! p = Some x ->
  is_u64 v ->
  exists s', (let! ok := in_tx (ossl_quic_txfc_init p (Some conn_fc)) in
     if negb ok then err
     else
       (if bump then in_tx (ossl_quic_txfc_bump_cwm p v) ;;; ret tt else ret tt) ;;;
       let! ok := in_rx (ossl_quic_rxfc_init p (Some conn_fc) w mw) in
       if negb ok then err else k) s = k s' /\
    sm_inv {[p]} s' m A Q G /\ heap s' = heap s /\ brk s' = brk s /\ kept s s' /\ wired s' p.
Proof.
  intros I H Hv. pose proof (in_dom _ _ _ H) as Hp.
  destruct (tx_init_ok _ _ _ _ _ _ p I Hp) as (t & E1 & I1 & Hok & Hpar). rewrite (bind_ok _ _ _ _ _ E1). cbn [negb].
  set (s1 := upd_tx _ s) in *. assert (Ht1 : tx s1 !! p = Some t) by apply lookup_insert_eq.
  assert (E2 : exists t', (if bump then in_tx (ossl_quic_txfc_bump_cwm p v) ;;; ret tt else ret tt) s1
    = (Ok tt, upd_tx (<[p := t']> (tx s1)) s1) /\ sm_inv {[p]} (upd_tx (<[p := t']> (tx s1)) s1) m A Q G /\
      tx_parent t' = Some conn_fc).
  { destruct bump.
    - destruct (tx_bump_ok _ s1 _ _ _ _ p t v I1 Hp Ht1 Hok Hpar Hv) as (b & t' & E & I' & Hp').
      exists t'. by rewrite (bind_ok _ _ _ _ _ E).
    - exists t. rewrite insert_id by done. by split. }
  destruct E2 as (t2 & E2 & I2 & Hp2). rewrite (bind_ok _ _ _ _ _ E2).
  destruct (rx_init_ok _ _ _ _ _ _ p w mw I2 Hp) as (y & E3 & I3). rewrite (bind_ok _ _ _ _ _ E3). cbn [negb].
  eexists. split; [reflexivity|]. split; [exact I3|]. split_and!; try done. split.
  - exists t2. split; [apply lookup_insert_eq|done].
  - exists y. cbn. apply lookup_insert_eq.
Qed.

(** A stream without its buffers. *)
Record bare (x : QUIC_STREAM) : Prop := {
  b_sstream : sstream x = None;
  b_rstream : rstream x = None;
  b_send : send_state x = if ossl_quic_stream_is_local_init x || ossl_quic_stream_is_bidi x
                          then QUIC_SSTREAM_STATE_READY else QUIC_SSTREAM_STATE_NONE;
  b_recv : recv_state x = if negb (ossl_quic_stream_is_local_init x) || ossl_quic_stream_is_bidi x
                          then QUIC_RSTREAM_STATE_RECV else QUIC_RSTREAM_STATE_NONE;
  b_deleted : deleted x = false
}.

Lemma fresh_bare id type srv : bare (fresh_stream id type srv).
Proof. by split. Qed.

Lemma bare_has x : bare x ->
  ossl_quic_stream_has_send x = ossl_quic_stream_is_local_init x || ossl_quic_stream_is_bidi x /\
  ossl_quic_stream_has_recv x = negb (ossl_quic_stream_is_local_init x) || ossl_quic_stream_is_bidi x.
Proof.
  intros [_ _ Hs Hr _]. unfold ossl_quic_stream_has_send, ossl_quic_stream_has_recv. rewrite Hs, Hr.
  clear Hs Hr. split; by destruct (_ || _).
Qed.

Lemma filled_ok x qs qr : bare x -> ossl_quic_stream_has_send x = bool_decide (is_Some qs) ->
  ossl_quic_stream_has_recv x = bool_decide (is_Some qr) ->
  (forall q, qs = Some q -> (exists a, SStream.sim q a) /\ have_final_size q = false) ->
  (forall q, qr = Some q -> refs (sfs q) ≡ₚ held (frames (fl (sfs q)))) ->
  stream_ok (set_rstream qr (set_sstream qs x)).
Proof.
  intros Hb Hs Hr Fs Fr. destruct (bare_has x Hb) as [H1 H2]. destruct Hb as [_ _ Bs Br Bd].
  rewrite H1 in Hs. rewrite H2 in Hr. split; cbn; try done.
  - unfold ossl_quic_stream_has_send_buffer. cbn. rewrite Bs, Hs. destruct qs as [q|]; cbn; [done|]. split; [by intros []|done].
  - unfold ossl_quic_stream_has_recv_buffer. cbn. rewrite Br, Hr. destruct qr as [q|]; cbn; [done|]. split; [by intros []|done].
  - intros q E. by apply Fs.
  - intros q _ E. by apply Fs.
  - intros q E. rewrite Bs in E. by destruct (_ || _).
  - congruence.
Qed.

Lemma limits_u64 N s m A Q G a b : sm_inv N s m A Q G -> is_u64 (initial_cwm (ch s) a b).
Proof.
  intros I. pose proof (i_limits _ _ _ _ _ _ I) as Hl. unfold init_limits in Hl. rewrite !Forall_cons in Hl.
  unfold initial_cwm. destruct a, b; tauto.
Qed.

Lemma kept_trans s1 s2 s3 : kept s1 s2 -> kept s2 s3 -> kept s1 s3.
Proof. intros [] []. split; [congruence|by etrans|congruence]. Qed.

Lemma kept_refl s : kept s s.
Proof. by split. Qed.

Lemma part_send_ok s m A Q G p x (cs : bool) : sm_inv {[p]} s m A Q G -> heap s !! p = Some x -> sstream x = None ->
  exists b qs s', (if cs then new_sstream fresh p else ret true) s = (Ok b, s') /\ sm_inv {[p]} s' m A Q G /\
    heap s' = <[p := set_sstream qs x]> (heap s) /\ brk s' = brk s /\ kept s s' /\
    if b then cs = bool_decide (is_Some qs) /\ forall q, qs = Some q -> (exists a, SStream.sim q a) /\ have_final_size q = false
    else false ∈ orc s.
Proof.
  intros I H Hx. destruct cs.
  - destruct (new_sstream_ok _ _ _ _ _ _ _ I H) as (r & s' & E & I' & Hh & Hb & K & Hr). eexists _, r, s'.
    split; [exact E|]. split_and!; try done. destruct r as [q|]; cbn; [|done]. split; [done|]. by intros q' [= <-].
  - exists true, None, s. split_and!; try done.
    replace (set_sstream None x) with x by (destruct x; cbn in *; by subst). by rewrite insert_id.
Qed.

Lemma part_recv_ok s m A Q G p x (cr : bool) : sm_inv {[p]} s m A Q G -> heap s !! p = Some x -> rstream x = None ->
  exists b qr s', (if cr then new_rstream fresh p else ret true) s = (Ok b, s') /\ sm_inv {[p]} s' m A Q G /\
    heap s' = <[p := set_rstream qr x]> (heap s) /\ brk s' = brk s /\ kept s s' /\
    if b then cr = bool_decide (is_Some qr) /\ forall q, qr = Some q -> refs (sfs q) ≡ₚ held (frames (fl (sfs q)))
    else false ∈ orc s /\ qr = None.
Proof.
  intros I H Hx. destruct cr.
  - destruct (new_rstream_ok _ _ _ _ _ _ _ I H) as (r & s' & E & I' & Hh & Hb & K & Hr). eexists _, r, s'.
    split; [exact E|]. split_and!; try done. destruct r as [q|]; cbn; [|done]. split; [done|]. by intros q' [= <-].
  - exists true, None, s. split_and!; try done.
    replace (set_rstream None x) with x by (destruct x; cbn in *; by subst). by rewrite insert_id.
Qed.

(** The buffers are freed when the stream cannot be made. *)
Lemma unmake_ok s m A Q G p x : sm_inv {[p]} s m A Q G -> heap s !! p = Some x -> rstream x = None ->
  exists s', (free_sstream p ;;; free_rstream p ;;; ret false) s = (Ok false, s') /\ sm_inv {[p]} s' m A Q G /\
    heap s' = <[p := set_rstream None (set_sstream None x)]> (heap s) /\ brk s' = brk s /\ kept s s'.
Proof.
  intros I H Hx. rewrite (bind_ok _ _ _ _ _ (free_sstream_run _ _ _ H)).
  erewrite bind_ok by (apply free_rstream_run; [cbn; apply lookup_insert_eq|cbn; congruence]).
  cbn [upd_heap heap]. rewrite upd_heap_upd, insert_insert_eq. eexists. split; [reflexivity|].
  split_and!; try done. by eapply put_work.
Qed.

Lemma init_new_stream_ok s m A Q G p x : sm_inv {[p]} s m A Q G -> heap s !! p = Some x -> bare x ->
  exists b x' s', ch_init_new_stream fresh p (ossl_quic_stream_has_send x) (ossl_quic_stream_has_recv x) s = (Ok b, s') /\
    heap s' = <[p := x']> (heap s) /\ brk s' = brk s /\ kept s s' /\ same_core x x' /\
    if b then sm_inv ∅ s' m A Q G /\ send_state x' = send_state x /\ recv_state x' = recv_state x
    else sm_inv {[p]} s' m A Q G /\ rstream x' = None /\ false ∈ orc s.
Proof.
  intros I H Hb. destruct (part_send_ok s m A Q G p x (ossl_quic_stream_has_send x) I H (b_sstream _ Hb))
    as (b1 & qs & s1 & E1 & I1 & Hh1 & Hb1 & K1 & R1).
  unfold ch_init_new_stream. rewrite (bind_ok _ _ _ _ _ (stream_at_run _ _ _ H)), (bind_ok get _ s s s eq_refl).
  rewrite (bind_ok _ _ _ _ _ E1). pose proof (lookup_changed _ _ _ _ Hh1) as H1.
  destruct b1; cbn [negb].
  2:{ destruct (unmake_ok _ _ _ _ _ _ _ I1 H1 (b_rstream _ Hb)) as (s' & E' & I' & Hh' & Hb' & K').
      eexists false, _, s'. split; [exact E'|]. rewrite Hh', Hh1, insert_insert_eq.
      split_and!; try done; [lia|by eapply kept_trans]. }
  destruct R1 as [Rs Fs].
  destruct (part_recv_ok s1 m A Q G p (set_sstream qs x) (ossl_quic_stream_has_recv x) I1 H1 (b_rstream _ Hb))
    as (b2 & qr & s2 & E2 & I2 & Hh2 & Hb2 & K2 & R2).
  rewrite (bind_ok _ _ _ _ _ E2). pose proof (lookup_changed _ _ _ _ Hh2) as H2. rewrite Hh1, insert_insert_eq in Hh2.
  pose proof (kept_trans _ _ _ K1 K2) as K12. destruct b2; cbn [negb].
  2:{ destruct R2 as [Ho ->]. destruct (unmake_ok _ _ _ _ _ _ _ I2 H2 eq_refl) as (s' & E' & I' & Hh' & Hb' & K').
      eexists false, _, s'. split; [exact E'|]. rewrite Hh', Hh2, insert_insert_eq.
      split_and!; try done; [lia|by eapply kept_trans|].
      destruct (k_orc _ _ K1) as [k ->]. apply elem_of_app. by right. }
  destruct R2 as [Rr Fr].
  set (l := Bool.eqb (is_server (ch s)) (ossl_quic_stream_is_server_init x)). set (u := negb (ossl_quic_stream_is_bidi x)).
  set (w := initial_rxfc_wnd (ch s) (ossl_quic_stream_has_recv x) u l).
  destruct (wire_ok s2 m A Q G p _ (got_remote_transport_params (ch s) && ossl_quic_stream_has_send x)
    (initial_cwm (ch s) u l) w (u64 (DEFAULT_STREAM_RXFC_MAX_WND_MUL * w))
    (free_sstream p ;;; free_rstream p ;;; ret false) (ret true) I2 H2 ltac:(by eapply limits_u64))
    as (s' & E' & I' & Hh' & Hb' & K' & W').
  eexists true, _, s'. split; [exact E'|]. rewrite Hh', Hh2. split_and!; try done; [lia|by eapply kept_trans|].
  eapply (inv_close ∅ _ _ _ _ _ p); [by rewrite union_empty_r_L|by rewrite Hh', H2| |done]. by apply filled_ok.
Qed.

Lemma history_new s s' x : heap s !! brk s = None -> heap s' = <[brk s := x]> (heap s) -> brk s' = S (brk s) -> history s s'.
Proof.
  intros Hn Hh Hb. split; [lia| |]; rewrite Hh.
  - intros p y y' Hy [[<- <-]|[? ?]]%lookup_insert_Some; [congruence|by simplify_eq].
  - intros p Hp Hy. by rewrite lookup_insert_ne by lia.
Qed.

Lemma history_same s s' : heap s' = heap s -> (brk s <= brk s')%nat -> history s s'.
Proof. intros Hh Hb. split; [done| |]; rewrite Hh; [|done]. intros. by simplify_eq. Qed.

Lemma inv_ch N s m A Q G c : sm_inv N s m A Q G -> is_server c = is_server (ch s) -> init_limits c = init_limits (ch s) ->
  sm_inv N (upd_ch c s) m A Q G.
Proof. intros [] Es El. split; cbn [upd_ch ch]; rewrite ?Es, ?El; done. Qed.

(** A stream is made with its buffers, or not at all. *)
Lemma make_ok s m A Q G id type cs cr (k : nat -> M SM (option nat)) : sm_inv ∅ s m A Q G -> Z.of_nat (brk s) < MAX_STREAMS ->
  (forall y, y = fresh_stream id type (is_server (ch s)) ->
    ossl_quic_stream_has_send y = cs /\ ossl_quic_stream_has_recv y = cr) ->
  exists r s', (let! qs := ossl_quic_stream_map_alloc id type in
      match qs with
      | None => ret None
      | Some p =>
          let! ok := ch_init_new_stream fresh p cs cr in
          if negb ok then ossl_quic_stream_map_release (Some p) ;;; ret None else k p
      end) s = (match r with None => (Ok None, s') | Some p => k p s' end) /\ kept s s' /\
    match r with
    | None => (exists G', sm_inv ∅ s' m A Q G') /\ heap s' = heap s /\ (brk s <= brk s')%nat /\
        (is_Some (m !! id) \/ false ∈ orc s)
    | Some p => p = brk s /\ brk s' = S p /\ m !! id = None /\ exists x m', heap s' = <[p := x]> (heap s) /\
        same_core (fresh_stream id type (is_server (ch s))) x /\
        sm_inv ∅ s' m' A Q G /\ (m' = <[id := mkRef id p]> m \/ m' = m /\ false ∈ orc s)
    end.
Proof.
  intros I Hmax Hc. destruct (stream_alloc_ok _ _ _ _ _ id type I Hmax) as (r & s1 & E & K1 & Hr).
  rewrite (bind_ok _ _ _ _ _ E). destruct r as [p|].
  2:{ exists None, s1. destruct Hr as (? & ? & Hb & ?). split_and!; try done; [by eexists|lia]. }
  destruct Hr as (-> & Hb1 & Hh1 & Hm & m' & I1 & Hm'). set (y := fresh_stream id type (is_server (ch s))) in *.
  destruct (Hc y eq_refl) as [<- <-]. pose proof (lookup_changed s s1 _ _ Hh1) as H1.
  destruct (init_new_stream_ok s1 m' A Q G (brk s) y I1 H1 (fresh_bare _ _ _))
    as (b & x' & s2 & E2 & Hh2 & Hb2 & K2 & C2 & R2).
  rewrite (bind_ok _ _ _ _ _ E2). rewrite Hh1, insert_insert_eq in Hh2. pose proof (kept_trans _ _ _ K1 K2) as K12.
  pose proof (fresh_ptr _ _ _ _ _ _ I) as [Hd Hn]. destruct b; cbn [negb].
  - exists (Some (brk s)), s2. split_and!; try done; [lia|]. exists x', m'. by destruct R2.
  - destruct R2 as (I2 & Hx' & Ho). pose proof (lookup_changed s s2 _ _ Hh2) as H2. destruct C2.
    destruct (stream_release_ok s2 m' A Q G (brk s) x' I2 H2) as (s3 & G' & E3 & I3 & Hh3 & Hb3 & K3).
    + intros Hp. eapply Hd, rep_in; [exact (i_active _ _ _ _ _ _ I)|done].
    + intros Hp. eapply Hd, rep_in; [exact (i_accept _ _ _ _ _ _ I)|done].
    + by rewrite c_flush.
    + intros q. by rewrite Hx'.
    + rewrite (bind_ok _ _ _ _ _ E3). exists None, s3. split; [done|]. split; [by eapply kept_trans|].
      split_and!.
      * exists G'. cbn in c_id. rewrite c_id in I3. assert (delete id m' = m) as <-; [|done].
        destruct Hm' as [->|[-> _]]; [by rewrite delete_insert_id|by rewrite delete_id].
      * rewrite Hh3, Hh2. by rewrite delete_insert_id.
      * lia.
      * right. destruct (k_orc _ _ K1) as [l ->]. apply elem_of_app. by right.
Qed.

(** *** Local streams *)

(** The type and the identifier of the next local stream. *)
Definition local_type (c : QUIC_CHANNEL) (u : bool) : Z :=
  Z.lor (if is_server c then QUIC_STREAM_INITIATOR_SERVER else QUIC_STREAM_INITIATOR_CLIENT)
        (if u then QUIC_STREAM_DIR_UNI else QUIC_STREAM_DIR_BIDI).

Definition local_id (c : QUIC_CHANNEL) (u : bool) : Z :=
  Z.lor (u64 (Z.shiftl (ch_get_local_stream_next_ordinal u c) 2)) (local_type c u).

Lemma local_parts c u id y : y = fresh_stream id (local_type c u) (is_server c) ->
  ossl_quic_stream_has_send y = true /\ ossl_quic_stream_has_recv y = negb u.
Proof. intros ->. unfold local_type. by destruct (is_server c), u. Qed.

Lemma new_local_ok s m A Q G u : sm_inv ∅ s m A Q G -> Z.of_nat (brk s) < MAX_STREAMS ->
  exists r s', ossl_quic_channel_new_stream_local fresh u s = (Ok r, s') /\ history s s' /\
    match r with
    | None => (exists G', sm_inv ∅ s' m A Q G') /\
        (Z.shiftl 1 62 <= ch_get_local_stream_next_ordinal u (ch s) \/ is_Some (m !! local_id (ch s) u) \/ false ∈ orc s)
    | Some p => p = brk s /\ m !! local_id (ch s) u = None /\
        ch s' = set_local_stream_next_ordinal u (u64 (ch_get_local_stream_next_ordinal u (ch s) + 1)) (ch s) /\
        exists x m', heap s' = <[p := x]> (heap s) /\
          same_core (fresh_stream (local_id (ch s) u) (local_type (ch s) u) (is_server (ch s))) x /\
          sm_inv ∅ s' m' A Q G /\ (m' = <[local_id (ch s) u := mkRef (local_id (ch s) u) p]> m \/ m' = m /\ false ∈ orc s)
    end.
Proof.
  intros I Hmax. unfold ossl_quic_channel_new_stream_local. rewrite (bind_ok get _ s s s eq_refl). cbn zeta.
  fold (local_type (ch s) u). fold (local_id (ch s) u).
  destruct (Z.geb_spec (ch_get_local_stream_next_ordinal u (ch s)) (Z.shiftl 1 62)).
  { exists None, s. split; [done|]. split; [done|]. split; [by exists G|]. by left. }
  edestruct (make_ok s m A Q G (local_id (ch s) u) (local_type (ch s) u) true (negb u)) as (r & s1 & E & K & Hr);
    [done|done|apply local_parts|]. rewrite E. clear E. pose proof (fresh_ptr _ _ _ _ _ _ I) as [_ Hn].
  destruct r as [p|].
  - destruct Hr as (-> & Hb & Hm & x & m' & Hh & C & I1 & Hm').
    unfold modify, bind, ret. cbv beta iota zeta. eexists (Some (brk s)), _. split; [reflexivity|].
    split; [by apply (history_new _ _ x)|]. rewrite (k_ch _ _ K). split_and!; try done.
    exists x, m'. split_and!; try done. apply inv_ch; [done|..]; rewrite (k_ch _ _ K); by destruct u.
  - destruct Hr as ((G' & I1) & Hh & Hb & Hc). exists None, s1. split; [done|].
    split; [by apply history_same|]. split; [by exists G'|]. tauto.
Qed.

(** *** Streams of the peer *)

Definition remote_type (id : Z) : Z := Z.land id (Z.lor QUIC_STREAM_INITIATOR_MASK QUIC_STREAM_DIR_MASK).

Lemma remote_parts (srv : bool) id y : y = fresh_stream id (remote_type id) srv ->
  Z.land id QUIC_STREAM_INITIATOR_MASK = (if srv then QUIC_STREAM_INITIATOR_CLIENT else QUIC_STREAM_INITIATOR_SERVER) ->
  ossl_quic_stream_has_send y = negb (Z.land id QUIC_STREAM_DIR_MASK =? QUIC_STREAM_DIR_UNI) /\
  ossl_quic_stream_has_recv y = true.
Proof.
  intros -> Hrole. pose proof (bare_has _ (fresh_bare id (remote_type id) srv)) as [-> ->].
  assert (Ht : u8 (remote_type id) = remote_type id).
  { unfold remote_type. apply u8_id. change (Z.lor _ _) with (Z.ones 2). rewrite Z.land_ones by lia.
    change (2 ^ 2) with 4. pose proof (Z.mod_pos_bound id 4 ltac:(lia)). lia. }
  assert (H1 : Z.land (remote_type id) 1 = Z.land id 1) by (unfold remote_type; rewrite <-Z.land_assoc; done).
  assert (H2 : Z.land (remote_type id) 2 = Z.land id 2) by (unfold remote_type; rewrite <-Z.land_assoc; done).
  unfold ossl_quic_stream_is_local_init, ossl_quic_stream_is_server_init, ossl_quic_stream_is_bidi.
  cbn [fresh_stream set_send_final_size set_recv_state set_send_state set_identity s_type as_server].
  rewrite Ht. unfold QUIC_STREAM_INITIATOR_MASK, QUIC_STREAM_DIR_MASK in *. rewrite H1, H2, Hrole.
  assert (Hd : Z.land id 2 = 0 \/ Z.land id 2 = 2).
  { destruct (Z.testbit id 1) eqn:Eb; [right|left]; apply Z.bits_inj'; intros i Hi; rewrite Z.land_spec;
      (destruct (decide (i = 1)) as [-> |]; [by rewrite Eb|]); change 2 with (2 ^ 1);
      rewrite (Z.pow2_bits_false 1 i) by lia; rewrite andb_false_r; by rewrite ?Z.bits_0. }
  by destruct srv, Hd as [-> | ->].
Qed.

Lemma new_remote_ok s id : sm_ok s -> Z.of_nat (brk s) < MAX_STREAMS ->
  exists r s', ossl_quic_channel_new_stream_remote fresh id s = (Ok r, s') /\ progress s s'.
Proof.
  intros (m & A & Q & G & I) Hmax. unfold ossl_quic_channel_new_stream_remote. rewrite (bind_ok get _ s s s eq_refl). cbn zeta.
  pose proof (fresh_ptr _ _ _ _ _ _ I) as [Hd Hn]. assert (Hok : sm_ok s) by by eexists _, _, _, _.
  destruct (Z.eqb_spec (Z.land id QUIC_STREAM_INITIATOR_MASK)
    (if is_server (ch s) then QUIC_STREAM_INITIATOR_CLIENT else QUIC_STREAM_INITIATOR_SERVER)) as [Hrole|]; cbn [negb].
  2:{ exists None, s. split; [done|]. split; [done|]. apply history_refl. }
  fold (remote_type id).
  edestruct (make_ok s m A Q G id (remote_type id) (negb (Z.land id QUIC_STREAM_DIR_MASK =? QUIC_STREAM_DIR_UNI)) true)
    as (r & s1 & E & K & Hr); [done|done|intros y Hy; by eapply remote_parts|]. rewrite E. clear E.
  destruct r as [p|].
  2:{ destruct Hr as ((G' & I1) & Hh & Hb & _). exists None, s1. split; [done|]. split; [by eexists _, _, _, _|].
      by apply history_same. }
  destruct Hr as (-> & Hb & Hm & x & m' & Hh & C & I1 & Hm'). pose proof (lookup_changed s s1 _ _ Hh) as H1.
  assert (P1 : progress s s1) by (split; [by eexists _, _, _, _|by eapply history_new]).
  destruct (incoming_stream_auto_reject (ch s)).
  - destruct (reject_ok _ _ _ _ _ _ x I1 H1) as (b & s2 & E2 & M2). rewrite (bind_ok _ _ _ _ _ E2).
    eexists _, s2. split; [done|]. eapply progress_trans; [done|done|by eapply moved_progress].
  - destruct (push_accept_ok _ _ _ _ _ _ (brk s) x I1 H1) as (s2 & E2 & I2 & En & Hh2).
    { intros Hq. eapply Hd, rep_in; [exact (i_accept _ _ _ _ _ _ I)|done]. }
    rewrite (bind_ok _ _ _ _ _ E2). eexists _, s2. split; [done|]. eapply progress_trans; [done|done|].
    split; [by eexists _, _, _, _|]. apply history_same; [done|]. rewrite (e_brk _ _ En). done.
Qed.

End Channel.
