(* ===== verification/StreamMapEvents.v ===== *)
(** The functions of [StreamMap] that combine the others: the calls of the application, the
    events of the packetiser, the flush at the end of a connection, the collection and the
    iteration over the active streams. *)

From stdpp Require Import base numbers gmap list relations.
From Stdlib Require Import ZArith Lia.
From S2P Require Import Prelude SafeMath Wire UintSet FlowControl RingBuf SStream Statm SFrameList RStream LHash StreamList StreamMap StreamMapTheory StreamMapOps StreamMapLife.

#[local] Open Scope cfun_scope.

(** ** Calls of the application *)

Lemma not_finished_run s p x q : heap s !! p = Some x -> sstream x = Some q ->
  (let! q := sstream_at p in ret (bool_decide (ossl_quic_sstream_get_final_size q = None))) s
  = (Ok (negb (have_final_size q)), s).
Proof.
  intros H Hq. rewrite (bind_ok _ _ _ _ _ (sstream_at_run _ _ _ _ H Hq)). unfold ossl_quic_sstream_get_final_size, ret.
  by destruct (have_final_size q).
Qed.

Lemma validate_write_ok s m A Q G p x : sm_inv ∅ s m A Q G -> heap s !! p = Some x ->
  exists b s', quic_validate_for_write p s = (Ok b, s') /\ moved_on s m Q s' /\
    (b = true -> exists x' q, heap s' !! p = Some x' /\ sstream x' = Some q /\ have_final_size q = false /\
      send_state x' <> QUIC_SSTREAM_STATE_READY /\ ossl_quic_stream_has_send_buffer x' = true).
Proof.
  intros I H. destruct (inv_stream _ _ _ _ _ _ _ I H) as [Hx Hw]. pose proof (moved_on_refl _ _ _ _ _ I) as Hself.
  unfold quic_validate_for_write. rewrite (bind_ok _ _ _ _ _ (stream_at_run _ _ _ H)).
  destruct (ossl_quic_stream_has_send_buffer x) eqn:Hs.
  2:{ exists false, s. unfold ossl_quic_stream_has_send_buffer in Hs. by destruct (send_state x). }
  destruct (send_buffer x Hx Hs) as (q & a & Hq & _).
  assert (Hdone : send_state x <> QUIC_SSTREAM_STATE_READY -> negb (have_final_size q) = true ->
    exists x' q, heap s !! p = Some x' /\ sstream x' = Some q /\ have_final_size q = false /\
      send_state x' <> QUIC_SSTREAM_STATE_READY /\ ossl_quic_stream_has_send_buffer x' = true).
  { intros Hr Hf. exists x, q. split_and!; try done. by destruct (have_final_size q). }
  unfold ossl_quic_stream_has_send_buffer in Hs. destruct (send_state x) eqn:Est; try done.
  - destruct (ensure_ok _ _ _ _ _ p x I H) as (s1 & E1 & (I1 & En1 & Hh1) & M1). rewrite (bind_ok _ _ _ _ _ E1).
    unfold ossl_quic_stream_has_send. rewrite Est. cbn [negb]. rewrite decide_True in Hh1 by done.
    pose proof (lookup_changed _ _ _ _ Hh1) as H1.
    eexists _, s1. split; [exact (not_finished_run s1 p _ q H1 Hq)|]. split; [done|]. intros _.
    eexists _, q. split; [exact H1|]. split_and!; try done. by apply (ok_ready _ Hx).
  - rewrite (not_finished_run s p x q H Hq). eexists _, s. split; [done|]. split; [done|]. by apply Hdone.
  - rewrite (not_finished_run s p x q H Hq). eexists _, s. split; [done|]. split; [done|]. by apply Hdone.
Qed.

Lemma fin_run q a o : SStream.sim q a ->
  exists q' a', ossl_quic_sstream_fin (q, o) = (Ok tt, (q', o)) /\ SStream.sim q' a' /\ have_final_size q' = true.
Proof.
  intros H. destruct (flags_ok (fun _ => []) q a op_fin H) as (q' & E & H'); [done|]. cbn [exec_sop] in E.
  unfold attempt, ossl_quic_sstream_fin, modify in *. exists q', (snd (spec_sop op_fin a)).
  assert (Hq : have_final_size q' = true) by by rewrite (SStream.sim_have _ _ H').
  destruct (have_final_size q); injection E as <-; by split_and!.
Qed.

Lemma stream_ok_fin x q a : stream_ok x -> ossl_quic_stream_has_send_buffer x = true ->
  send_state x <> QUIC_SSTREAM_STATE_READY -> SStream.sim q a -> have_final_size q = true ->
  stream_ok (set_sstream (Some q) x).
Proof.
  intros [H1 H2 H3 H4 H5 H6 H7 H7s H8] Hs Hr Ha Hf. split; try done.
  - intros q' [= <-]. by exists a.
  - by intros q' _ [= <-].
  - cbn. intros Hd. split; [done|]. by intros q' _ [= <-].
Qed.

Lemma fin_ok s m A Q G p x : sm_inv ∅ s m A Q G -> heap s !! p = Some x -> ossl_quic_stream_has_send_buffer x = true ->
  send_state x <> QUIC_SSTREAM_STATE_READY ->
  exists s', in_sstream p ossl_quic_sstream_fin s = (Ok tt, s') /\ moved_on s m Q s'.
Proof.
  intros I H Hs Hr. destruct (inv_stream _ _ _ _ _ _ _ I H) as [Hx Hw].
  destruct (send_buffer x Hx Hs) as (q & a & Hq & Ha). destruct (fin_run q a (orc s) Ha) as (q' & a' & E & Ha' & Hf).
  exists (upd_heap (<[p := set_sstream (Some q') x]> (heap s)) s). split.
  - unfold in_sstream. rewrite (bind_ok _ _ _ _ _ (stream_at_run _ _ _ H)), Hq, E. by destruct s.
  - eapply put_moved; [done|done|by split| |by split]. by eapply stream_ok_fin.
Qed.

Lemma conclude_ok s m A Q G p x : sm_inv ∅ s m A Q G -> heap s !! p = Some x ->
  exists b s', ossl_quic_conn_stream_conclude p s = (Ok b, s') /\ moved_on s m Q s'.
Proof.
  intros I H. unfold ossl_quic_conn_stream_conclude.
  destruct (validate_write_ok _ _ _ _ _ p x I H) as (b & s1 & E1 & M1 & Hb).
  eapply (moved_bind s m Q p x); [exact E1|done|done|]. intros A1 G1 x1 I1 H1 _.
  destruct b; cbn [negb]; [|eexists _, s1; split; [done|by eapply moved_on_refl]].
  destruct Hb as (x1' & q & H1' & Hq & Hf & Hr & Hs); [done|]. simplify_eq.
  rewrite (bind_ok _ _ _ _ _ (sstream_at_run _ _ _ _ H1 Hq)). unfold ossl_quic_sstream_get_final_size. rewrite Hf.
  rewrite bool_decide_false by auto. destruct (fin_ok _ _ _ _ _ p x1 I1 H1 Hs Hr) as (s2 & E2 & M2).
  eapply (moved_bind s1 m Q p x1); [exact E2|done|done|]. intros A2 G2 x2 I2 H2 _.
  destruct (update_moved _ _ _ _ _ p x2 I2 H2) as (s3 & E3 & _ & M3). exists true, s3. split; [|done].
  unfold quic_post_write. cbn [andb]. unfold bind. by rewrite E3.
Qed.

(** The first half: the send part is concluded or reset. *)
Lemma free_send_ok s m A Q G p x : sm_inv ∅ s m A Q G -> heap s !! p = Some x ->
  exists s1 x1, (if bool_decide (send_state x = QUIC_SSTREAM_STATE_READY) || bool_decide (send_state x = QUIC_SSTREAM_STATE_SEND)
    then let! q := sstream_at p in
      if bool_decide (ossl_quic_sstream_get_final_size q = None)
      then ossl_quic_stream_map_reset_stream_send_part p 0 ;;; ret tt else ret tt
    else ret tt) s = (Ok tt, s1) /\ moved_on s m Q s1 /\ heap s1 !! p = Some x1 /\
    send_state x1 <> QUIC_SSTREAM_STATE_READY /\
    forall q, send_state x1 = QUIC_SSTREAM_STATE_SEND -> sstream x1 = Some q -> have_final_size q = true.
Proof.
  intros I H. destruct (inv_stream _ _ _ _ _ _ _ I H) as [Hx Hw]. pose proof (moved_on_refl _ _ _ _ _ I) as Hself.
  destruct (bool_decide (send_state x = QUIC_SSTREAM_STATE_READY) || _) eqn:Hb.
  2:{ exists s, x. split_and!; try done; intros; destruct (send_state x); done. }
  assert (Hs : ossl_quic_stream_has_send_buffer x = true)
    by (unfold ossl_quic_stream_has_send_buffer; by destruct (send_state x)).
  destruct (send_buffer x Hx Hs) as (q & a & Hq & _). rewrite (bind_ok _ _ _ _ _ (sstream_at_run _ _ _ _ H Hq)).
  unfold ossl_quic_sstream_get_final_size. destruct (have_final_size q) eqn:Hf.
  - rewrite bool_decide_false by done. exists s, x. split_and!; try done.
    + intros Hr. pose proof (ok_ready _ Hx q Hr Hq). congruence.
    + intros. by simplify_eq.
  - destruct (reset_ok _ _ _ _ _ p x 0 I H) as (r & s1 & x1 & E & M1 & H1 & N1 & N2).
    rewrite bool_decide_true by done. rewrite (bind_ok _ _ _ _ _ E). by exists s1, x1.
Qed.

Lemma data_sent_keeps a b : rtc send_edge a b -> a = QUIC_SSTREAM_STATE_DATA_SENT ->
  b <> QUIC_SSTREAM_STATE_READY /\ b <> QUIC_SSTREAM_STATE_SEND.
Proof. intros Hr ->. apply settled_keeps in Hr; [|done]. by destruct b. Qed.

Lemma free_stream_ok s m A Q G p x : sm_inv ∅ s m A Q G -> heap s !! p = Some x ->
  exists b s', quic_free_stream p s = (Ok b, s') /\ moved_on s m Q s'.
Proof.
  intros I H. unfold quic_free_stream. rewrite (bind_ok _ _ _ _ _ (stream_at_run _ _ _ H)).
  destruct (free_send_ok _ _ _ _ _ p x I H) as (s1 & x1 & E1 & M1 & H1 & N1 & N2).
  eapply (moved_bind s m Q p x); [exact E1|done|done|]. intros A1 G1 x1' I1 H1' _. simplify_eq.
  rewrite (bind_ok _ _ _ _ _ (stream_at_run _ _ _ H1)).
  assert (H2 : exists s2, (if bool_decide (recv_state x1 = QUIC_RSTREAM_STATE_RECV) || bool_decide (recv_state x1 = QUIC_RSTREAM_STATE_SIZE_KNOWN)
     then ossl_quic_stream_map_stop_sending_recv_part p 0 ;;; ret tt else ret tt) s1 = (Ok tt, s2) /\ moved_on s1 m Q s2 /\
     send_kept p x1 s2).
  { destruct (bool_decide (recv_state x1 = QUIC_RSTREAM_STATE_RECV) || _); [|exists s1; split; [done|]; split; [by eapply moved_on_refl|intros _; by exists x1]].
    destruct (stop_sending_ok _ _ _ _ _ p x1 0 I1 H1) as (r & s2 & E2 & M2 & K2). exists s2. by rewrite (bind_ok _ _ _ _ _ E2). }
  destruct H2 as (s2 & E2 & M2 & K2). eapply (moved_bind s1 m Q p x1); [exact E2|done|done|].
  intros A2 G2 x2 I2 H2 V2. destruct (mark_deleted_ok s2 m A2 Q G2 p x2 I2 H2) as (s3 & E3 & M3).
  - destruct (decide (send_state x1 = QUIC_SSTREAM_STATE_DATA_SENT)) as [Hd|Hd]; [by eapply data_sent_keeps; [apply V2|]|].
    destruct (K2 Hd) as (x' & Hx' & E & _). simplify_eq. congruence.
  - destruct (decide (send_state x1 = QUIC_SSTREAM_STATE_DATA_SENT)) as [Hd|Hd].
    + intros q Hq. exfalso. by eapply data_sent_keeps; [apply V2|..].
    + destruct (K2 Hd) as (x' & Hx' & E & Eb). simplify_eq. rewrite E, Eb. done.
  - by exists tt, s3.
Qed.

(** ** Events of the packetiser *)

(** The streams are the same, in a well-formed state. *)
Definition carried (s s' : SM) : Prop := sm_ok s' /\ evolved (heap s) (heap s') /\ brk s' = brk s.

Lemma carried_progress s s' : carried s s' -> progress s s'.
Proof. intros (H & V & B). split; [done|]. by apply evolved_history. Qed.

Lemma moved_carried s m Q s' : moved_on s m Q s' -> carried s s'.
Proof. intros ((A & G & I) & En & V). split_and!; [by eexists _, _, _, _|done|apply (e_brk _ _ En)]. Qed.

Lemma same_carried s s' : sm_ok s' -> heap s' = heap s -> brk s' = brk s -> carried s s'.
Proof. intros H Hh Hb. split_and!; [done|by rewrite Hh|done]. Qed.

Lemma carried_trans s1 s2 s3 : carried s1 s2 -> carried s2 s3 -> carried s1 s3.
Proof. intros (_ & V1 & B1) (H & V2 & B2). split_and!; [done|by etrans|congruence]. Qed.

Lemma carried_bind {B C} s p x (f : M SM B) (k : B -> M SM C) r s1 : f s = (Ok r, s1) -> carried s s1 -> heap s !! p = Some x ->
  (forall m A Q G x1, sm_inv ∅ s1 m A Q G -> heap s1 !! p = Some x1 -> exists b s', k r s1 = (Ok b, s') /\ carried s1 s') ->
  exists b s', bind f k s = (Ok b, s') /\ carried s s'.
Proof.
  intros E C1 H Hk. rewrite (bind_ok _ _ _ _ _ E). pose proof C1 as ((m & A & Q & G & I1) & V1 & _).
  destruct (evolved_lookup _ _ _ _ V1 H) as (x1 & H1 & _). destruct (Hk m A Q G x1 I1 H1) as (b & s' & E' & C').
  exists b, s'. split; [done|]. by eapply carried_trans.
Qed.

(** A flag that is cleared when its frame was sent. *)
Lemma flag_carried s m A Q G p x (b : bool) f : sm_inv ∅ s m A Q G -> heap s !! p = Some x ->
  same_core x (f x) -> stream_ok (f x) -> evolves x (f x) ->
  exists s', (if b then upd_stream p f else ret tt) s = (Ok tt, s') /\ carried s s'.
Proof.
  intros I H Hc Hx He. destruct b.
  - rewrite (upd_stream_run _ _ _ _ H). eexists. split; [done|]. by eapply moved_carried, put_moved.
  - exists s. split; [done|]. apply same_carried; [by eexists _, _, _, _|done|done].
Qed.

Lemma sent_fc_ok s m A Q G p x (b : bool) : sm_inv ∅ s m A Q G -> heap s !! p = Some x ->
  exists s', (if b then upd_stream p (set_want_max_stream_data false) ;;;
                        in_rx (ossl_quic_rxfc_has_cwm_changed p true) ;;; ret tt else ret tt) s = (Ok tt, s') /\ carried s s'.
Proof.
  intros I H. destruct b; [|exists s; split; [done|]; apply same_carried; [by eexists _, _, _, _|done|done]].
  destruct (inv_stream _ _ _ _ _ _ _ I H) as [Hx [_ [y Hy]]]. set (x1 := set_want_max_stream_data false x).
  assert (M1 : moved_on s m Q (upd_heap (<[p := x1]> (heap s)) s)).
  { eapply put_moved; [done|done|by split|by eapply stream_ok_ext|by split]. }
  rewrite (bind_ok _ _ _ _ _ (upd_stream_run _ _ _ _ H)). pose proof M1 as ((A1 & G1 & I1) & _).
  destruct (in_rx_keeps _ _ _ _ _ _ (ossl_quic_rxfc_has_cwm_changed p true) I1) as (b & r & E & I2).
  { apply keeps_cwm_changed. unfold rx_parents. rewrite lookup_fmap. cbn. rewrite Hy. by eexists. }
  rewrite (bind_ok _ _ _ _ _ E). eexists. split; [done|]. eapply carried_trans; [by eapply moved_carried|].
  apply same_carried; [by eexists _, _, _, _|done|done].
Qed.

Lemma consume_ok s m A Q G p x n : sm_inv ∅ s m A Q G -> heap s !! p = Some x ->
  exists r s', (if n >? 0 then in_tx (ossl_quic_txfc_consume_credit p n) else ret true) s = (Ok r, s') /\ carried s s'.
Proof.
  intros I H. destruct (Z.gtb_spec n 0) as [Hn|Hn].
  2:{ exists true, s. split; [done|]. apply same_carried; [by eexists _, _, _, _|done|done]. }
  destruct (inv_stream _ _ _ _ _ _ _ I H) as [Hx [(t & Ht & Htp) _]].
  destruct (i_tx _ _ _ _ _ _ I) as (Hwf & c & Hc & Hcp).
  pose proof (consume_credit_stream _ _ _ _ _ n Hwf Ht Htp Hc ltac:(lia)) as E.
  destruct (tx_wf_parent _ _ _ _ _ Hwf Ht Htp Hc) as [_ Hne].
  eexists _, _. split; [apply zoom_run; exact E|]. apply same_carried; [|done|done]. exists m, A, Q, G. apply inv_tx; [done|..].
  - eapply tx_wf_update; [|by rewrite lookup_insert_ne|apply tx_consume_ok; [lia|by eapply tx_wf_ok]|done].
    eapply tx_wf_update; [done|done|apply tx_consume_ok; [lia|by eapply tx_wf_ok]|done].
  - unfold tx_parents. rewrite !fmap_insert. cbn [tx_consume tx_parent].
    rewrite (insert_id _ p) by (rewrite lookup_fmap, Ht; done). rewrite insert_id by (rewrite lookup_fmap, Hc; done). done.
Qed.

Lemma pending_run s p x q a : heap s !! p = Some x -> sstream x = Some q -> SStream.sim q a ->
  exists b, in_sstream p ossl_quic_sstream_has_pending s = (Ok b, s).
Proof.
  intros H Hq Ha. destruct (next_frame_run q a (orc s) Ha) as (r & E & Hr).
  eexists (match r with Ok _ => true | _ => false end). eapply in_sstream_query; [done|done|].
  unfold ossl_quic_sstream_has_pending. rewrite E. by destruct r.
Qed.

Lemma sent_all_ok s m A Q G p x : sm_inv ∅ s m A Q G -> heap s !! p = Some x ->
  exists s', (if ossl_quic_stream_has_send_buffer x then
     let! pending := in_sstream p ossl_quic_sstream_has_pending in
     let! q := sstream_at p in
     if negb pending && bool_decide (ossl_quic_sstream_get_final_size q <> None)
     then ossl_quic_stream_map_notify_all_data_sent p ;;; ret tt
     else ret tt
   else ret tt) s = (Ok tt, s') /\ carried s s'.
Proof.
  intros I H. assert (Hself : carried s s) by (apply same_carried; [by eexists _, _, _, _|done|done]).
  destruct (inv_stream _ _ _ _ _ _ _ I H) as [Hx _].
  destruct (ossl_quic_stream_has_send_buffer x) eqn:Hs; [|by exists s].
  destruct (send_buffer x Hx Hs) as (q & a & Hq & Ha). destruct (pending_run s p x q a H Hq Ha) as (b & E).
  rewrite (bind_ok _ _ _ _ _ E), (bind_ok _ _ _ _ _ (sstream_at_run _ _ _ _ H Hq)).
  destruct (negb b && _); [|by exists s].
  destruct (all_data_sent_ok _ _ _ _ _ p x I H) as (r & s' & E' & M'). rewrite (bind_ok _ _ _ _ _ E').
  exists s'. split; [done|]. by eapply moved_carried.
Qed.

Lemma stream_sent_ok s m A Q G p x fc ss rs n : sm_inv ∅ s m A Q G -> heap s !! p = Some x ->
  exists r s', txp_stream_sent p fc ss rs n s = (Ok r, s') /\ carried s s'.
Proof.
  intros I H. unfold txp_stream_sent. destruct (sent_fc_ok _ _ _ _ _ p x fc I H) as (s1 & E1 & C1).
  eapply (carried_bind s p x); [exact E1|done|done|]. clear - p. intros m A Q G x I H.
  destruct (inv_stream _ _ _ _ _ _ _ I H) as [Hx _].
  destruct (flag_carried _ _ _ _ _ p x ss (set_want_stop_sending false) I H) as (s2 & E2 & C2);
    [by split|by eapply stream_ok_ext|by split|].
  eapply (carried_bind _ p x); [exact E2|done|done|]. clear - p. intros m A Q G x I H.
  destruct (inv_stream _ _ _ _ _ _ _ I H) as [Hx _].
  destruct (flag_carried _ _ _ _ _ p x rs (set_want_reset_stream false) I H) as (s3 & E3 & C3);
    [by split|by eapply stream_ok_ext|by split|].
  eapply (carried_bind _ p x); [exact E3|done|done|]. clear - p. intros m A Q G x I H.
  destruct (consume_ok _ _ _ _ _ p x n I H) as (rc & s4 & E4 & C4).
  eapply (carried_bind _ p x); [exact E4|done|done|]. clear - p. intros m A Q G x I H.
  destruct (update_moved _ _ _ _ _ p x I H) as (s5 & E5 & _ & M5).
  eapply (carried_bind _ p x); [exact E5|by eapply moved_carried|done|]. clear - p. intros m A Q G x I H.
  rewrite (bind_ok _ _ _ _ _ (stream_at_run _ _ _ H)).
  destruct (sent_all_ok _ _ _ _ _ p x I H) as (s6 & E6 & C6). rewrite (bind_ok _ _ _ _ _ E6). by eexists _, s6.
Qed.

(** ** Flushing *)

(** The streams whose data are not all acknowledged. *)
Definition unacked (x : QUIC_STREAM) : bool :=
  match send_state x with
  | QUIC_SSTREAM_STATE_SEND | QUIC_SSTREAM_STATE_DATA_SENT => negb (totally x)
  | _ => false
  end.

Definition flagged (x : QUIC_STREAM) : QUIC_STREAM := set_shutdown_flush (shutdown_flush x || unacked x) x.

Lemma flagged_idem x : flagged (flagged x) = flagged x.
Proof.
  unfold flagged. destruct x. unfold set_shutdown_flush, unacked, totally. cbn. by rewrite <-orb_assoc, orb_diag.
Qed.

Lemma eligible_run s p x : heap s !! p = Some x -> stream_ok x -> eligible_for_shutdown_flush p s = (Ok (unacked x), s).
Proof.
  intros H Hx. unfold eligible_for_shutdown_flush, unacked. rewrite (bind_ok _ _ _ _ _ (stream_at_run _ _ _ H)).
  destruct (send_state x) eqn:E; try done;
    by rewrite (bind_ok _ _ _ _ _ (totally_run s p x H Hx ltac:(unfold ossl_quic_stream_has_send_buffer; by rewrite E))).
Qed.

Lemma flush_each_ok s m A Q G p x : sm_inv ∅ s m A Q G -> heap s !! p = Some x ->
  exists s', begin_shutdown_flush_each p s = (Ok tt, s') /\ sm_inv ∅ s' m A Q G /\
    heap s' = <[p := flagged x]> (heap s) /\ same_env s s'.
Proof.
  intros I H. destruct (inv_stream _ _ _ _ _ _ _ I H) as [Hx Hw]. unfold begin_shutdown_flush_each.
  rewrite (bind_ok _ _ _ _ _ (eligible_run _ _ _ H Hx)), (bind_ok _ _ _ _ _ (stream_at_run _ _ _ H)).
  pose proof (flush_bound _ _ _ _ _ _ I) as Hb. unfold MAX_STREAMS in Hb. unfold flagged.
  destruct (shutdown_flush x) eqn:Hf; cbn [orb].
  { rewrite orb_true_r. exists s. split_and!; try done. rewrite insert_id; [done|]. rewrite H. f_equal.
    destruct x; cbn in *. by subst. }
  rewrite orb_false_r. destruct (unacked x); cbn [negb].
  2:{ exists s. split_and!; try done. rewrite set_flush_same by done. by rewrite insert_id. }
  rewrite (bind_ok _ _ _ _ _ (upd_stream_run _ _ _ _ H)). unfold mod_qsm, modify. cbn [upd_heap qsm].
  rewrite u64_id by lia. eexists. split; [reflexivity|]. split; [|by split; [|split]].
  eapply (inv_change ∅ s _ m A Q G A G p x (set_shutdown_flush true x)); try done; try (by apply I).
  - cbn. rewrite Hf. cbn. lia.
  - exact (i_active_iff _ _ _ _ _ _ I p x H).
  - exact (i_gc_iff _ _ _ _ _ _ I p x H).
  - intros _. by eapply stream_ok_ext.
Qed.

(** The streams [T] of [s0] are flagged in [s]; the chains of the table are those of [t]. *)
Record flag_state (s0 : SM) (t : OPENSSL_LHASH stream_ref) (m : gmap Z stream_ref) (A Q G : list nat) (T : list nat) (s : SM) : Prop := {
  f_inv : sm_inv ∅ s m A Q G;
  f_table : exists t', map_ (qsm s) = Some t' /\ lh t' = t;
  f_brk : brk s = brk s0;
  f_in p : p ∈ T -> heap s !! p = flagged <$> heap s0 !! p;
  f_out p : p ∉ T -> heap s !! p = heap s0 !! p
}.

Lemma flag_one s0 t m A Q G T s p : flag_state s0 t m A Q G T s -> is_Some (heap s0 !! p) ->
  exists s', begin_shutdown_flush_each p s = (Ok tt, s') /\ flag_state s0 t m A Q G (p :: T) s'.
Proof.
  intros [I Ht Hb Hin Hout] [x0 H0].
  assert (exists x, heap s !! p = Some x /\ flagged x = flagged x0) as (x & H & Ex).
  { destruct (decide (p ∈ T)) as [Hp|Hp].
    - rewrite (Hin p Hp), H0. eexists. split; [done|]. apply flagged_idem.
    - rewrite (Hout p Hp), H0. by eexists. }
  destruct (flush_each_ok _ _ _ _ _ p x I H) as (s' & E & I' & Hh & En). exists s'. split; [done|]. split; [done|..].
  - by rewrite (e_map _ _ En).
  - by rewrite (e_brk _ _ En).
  - intros q Hq. rewrite Hh. destruct (decide (q = p)) as [-> |Hne]; [by rewrite lookup_insert_eq, H0, Ex|].
    rewrite lookup_insert_ne by done. apply elem_of_cons in Hq as [?|?]; [done|auto].
  - intros q [Hq Hq']%not_elem_of_cons. rewrite Hh, lookup_insert_ne by done. auto.
Qed.

Lemma flag_all s0 t m A Q G l : forall T s, flag_state s0 t m A Q G T s -> (forall p, p ∈ l -> is_Some (heap s0 !! p)) ->
  exists s' T', for_each begin_shutdown_flush_each l s = (Ok tt, s') /\ flag_state s0 t m A Q G T' s' /\
    forall p, p ∈ T' <-> p ∈ l \/ p ∈ T.
Proof.
  induction l as [|q l IH]; intros T s F Hl.
  - exists s, T. split_and!; try done. intros p. rewrite elem_of_nil. tauto.
  - destruct (flag_one _ _ _ _ _ _ _ _ q F) as (s1 & E1 & F1); [apply Hl; left|].
    destruct (IH _ _ F1) as (s' & T' & E & F' & HT); [intros; apply Hl; by right|].
    exists s', T'. cbn [for_each]. rewrite (bind_ok _ _ _ _ _ E1). split_and!; try done.
    intros p. rewrite HT, !elem_of_cons. tauto.
Qed.

Lemma load_chain_run s0 t m A Q G T s k c : flag_state s0 t m A Q G T s -> b t !! k = Some c ->
  exists s', in_map (load_chain (Z.of_nat k)) s = (Ok c, s') /\ flag_state s0 t m A Q G T s'.
Proof.
  intros [I (t' & Ht & Hl) Hb Hin Hout] Hc. destruct (i_table _ _ _ _ _ _ I) as (t1 & Ht1 & Hr). simplify_eq.
  eexists. split.
  - eapply in_map_run; [done|]. apply load_chain_ok. cbn. by rewrite Nat2Z.id.
  - split; try done; [|by eexists]. eapply inv_table; [done|by apply rep_orc|by apply I|by apply I].
Qed.

Lemma visit_flag s0 t m A Q G k : forall T s, flag_state s0 t m A Q G T s -> (k <= length (b t))%nat ->
  (forall n, n ∈ concat (firstn k (b t)) -> is_Some (heap s0 !! r_ptr (n_data n))) ->
  exists s' T', visit_loop begin_shutdown_flush_each k s = (Ok tt, s') /\ flag_state s0 t m A Q G T' s' /\
    forall p, p ∈ T' <-> p ∈ ((fun n => r_ptr (n_data n)) <$> concat (firstn k (b t))) \/ p ∈ T.
Proof.
  induction k as [|k IH]; intros T s F Hk Hn.
  - exists s, T. split_and!; try done. intros p. rewrite take_0. cbn. rewrite elem_of_nil. tauto.
  - destruct (lookup_lt_is_Some_2 (b t) k) as [c Hc]; [lia|]. rewrite (concat_take_S _ _ _ Hc) in *.
    destruct (load_chain_run _ _ _ _ _ _ _ _ k c F Hc) as (s1 & E1 & F1).
    destruct (flag_all _ _ _ _ _ _ ((fun n => r_ptr (n_data n)) <$> c) _ _ F1) as (s2 & T2 & E2 & F2 & HT2).
    { intros p (n & -> & Hc')%list_elem_of_fmap. apply Hn, elem_of_app. by right. }
    destruct (IH _ _ F2) as (s' & T' & E' & F' & HT'); [lia|intros n Hn'; apply Hn, elem_of_app; by left|].
    exists s', T'. cbn [visit_loop]. rewrite (bind_ok _ _ _ _ _ E1), (bind_ok _ _ _ _ _ E2). split_and!; try done.
    intros p. rewrite HT', HT2, fmap_app, elem_of_app. tauto.
Qed.

Lemma begin_flush_ok s m A Q G : sm_inv ∅ s m A Q G -> num_shutdown_flush (qsm s) = 0 ->
  exists s', ossl_quic_stream_map_begin_shutdown_flush s = (Ok tt, s') /\ sm_inv ∅ s' m A Q G /\ brk s' = brk s /\
    (forall id r, m !! id = Some r -> heap s' !! r_ptr r = flagged <$> heap s !! r_ptr r) /\
    (forall p, (forall id r, m !! id = Some r -> r_ptr r <> p) -> heap s' !! p = heap s !! p).
Proof.
  intros I H0. destruct (i_table _ _ _ _ _ _ I) as (t & Ht & Hr). unfold ossl_quic_stream_map_begin_shutdown_flush.
  rewrite (bind_ok _ _ s tt s).
  2:{ unfold mod_qsm, modify. rewrite <-H0. by destruct s as [[] ? ? ? ? ? ? ?]. }
  unfold ossl_quic_stream_map_visit. rewrite (bind_ok _ _ _ _ _ (get_qsm_run _)), Ht.
  assert (F : flag_state s (lh t) m A Q G [] s).
  { split; try done; [by exists t|]. intros p Hp. by apply elem_of_nil in Hp. }
  assert (Hn : forall p, p ∈ (fun n => r_ptr (n_data n)) <$> nodes (lh t) <-> exists id r, m !! id = Some r /\ r_ptr r = p).
  { intros p. rewrite list_elem_of_fmap. split.
    - intros (n & -> & Hin). exists (r_id (n_data n)), (n_data n). split; [|done]. apply elem_of_map_to_list.
      rewrite <-(rep_nodes _ _ Hr). apply list_elem_of_fmap. by exists n.
    - intros (id & r & Hm & <-). apply elem_of_map_to_list in Hm. rewrite <-(rep_nodes _ _ Hr) in Hm.
      apply list_elem_of_fmap in Hm as (n & [= _ ->] & Hin). by exists n. }
  destruct (visit_flag _ _ _ _ _ _ (Z.to_nat (num_nodes (lh t))) _ _ F) as (s' & T & E & F' & HT).
  - destruct (rep_shape _ _ Hr) as [_ _ ? ? ? Hb _]. rewrite zlen_length in Hb. lia.
  - intros n Hin. destruct (proj1 (Hn (r_ptr (n_data n)))) as (id & r & Hm & <-); [apply list_elem_of_fmap; by exists n|].
    destruct (i_entry _ _ _ _ _ _ I id r Hm) as (_ & x & Hx & _). by exists x.
  - fold (nodes (lh t)) in HT. exists s'. split; [done|]. destruct F' as [I' _ Hb Hin Hout]. split_and!; try done.
    + intros id r Hm. apply Hin, HT. left. apply Hn. by exists id, r.
    + intros p Hp. apply Hout. rewrite HT, Hn. intros [(id & r & Hm & E')|Hi]; [by eapply Hp|by apply elem_of_nil in Hi].
Qed.

Lemma flagged_evolves x : evolves x (flagged x).
Proof. by split. Qed.

Lemma flag_evolved (h h' : gmap nat QUIC_STREAM) (m : gmap Z stream_ref) :
  (forall id r, m !! id = Some r -> h' !! r_ptr r = flagged <$> h !! r_ptr r) ->
  (forall p, (forall id r, m !! id = Some r -> r_ptr r <> p) -> h' !! p = h !! p) -> evolved h h'.
Proof.
  intros Hin Hout p. destruct (decide (p ∈ r_ptr <$> (map_to_list m).*2)) as [Hp|Hp].
  - apply list_elem_of_fmap in Hp as (r & -> & ([id r'] & -> & Hm)%list_elem_of_fmap). apply elem_of_map_to_list in Hm.
    cbn [snd]. rewrite (Hin _ _ Hm). destruct (h !! r_ptr _); [apply flagged_evolves|done].
  - rewrite Hout; [by destruct (h !! p)|]. intros id r Hm E. apply Hp, list_elem_of_fmap. exists r. split; [done|].
    apply list_elem_of_fmap. exists (id, r). split; [done|]. by apply elem_of_map_to_list.
Qed.

(** ** Collection *)

Lemma gc_idle s m A Q G : sm_inv ∅ s m A Q G -> ossl_quic_stream_map_gc s = (Ok tt, s).
Proof.
  intros I. unfold ossl_quic_stream_map_gc. rewrite (bind_ok _ _ s (list.head G) s).
  2:{ apply zoom_query; [apply (head_ok _ _ _ (i_gc _ _ _ _ _ _ I))|by destruct s as [[] ? ? ? ? ? ? ?]]. }
  rewrite (bind_ok _ _ _ _ _ (get_qsm_run _)). destruct (list.head G) as [p|]; [|by destruct (base.size _)].
  destruct (base.size _); cbn [gc_loop]; by rewrite bool_decide_true.
Qed.

(** ** Iteration *)

Lemma in_active_query {B} s (f : M links B) r : f (active_list (qsm s)) = (r, active_list (qsm s)) -> in_active f s = (r, s).
Proof. intros E. apply zoom_query; [done|]. by destruct s as [[] ? ? ? ? ? ? ?]. Qed.

(** The successor of [q] in the circle that starts with [p]. *)
Lemma rot_next s m A Q G l p r u q v : sm_inv ∅ s m A Q G -> A = l ++ p :: r -> p :: r ++ l = u ++ q :: v ->
  in_active (list_next Head (Node q)) s = (Ok (list.head (v ++ u ++ [q])), s).
Proof.
  intros I HA HR. apply in_active_query. pose proof (i_active _ _ _ _ _ _ I) as Hrep. rewrite HA in Hrep. clear HA I.
  assert (Hat : forall l' r', l ++ p :: r = l' ++ q :: r' -> v ++ u = r' ++ l' ->
    list_next Head (Node q) (active_list (qsm s)) = (Ok (list.head (v ++ u ++ [q])), active_list (qsm s))).
  { intros l' r' E E'. rewrite E in Hrep. rewrite (next_ok _ _ _ _ _ Hrep). do 2 f_equal. by rewrite !app_assoc, E'. }
  change (p :: r ++ l) with ((p :: r) ++ l) in HR. apply app_eq_inv in HR as [(k & E1 & E2)|(k & E1 & E2)].
  - destruct k as [|q' k]; cbn in E2; simplify_eq.
    + rewrite app_nil_r in E1. subst u. apply (Hat [] (v ++ p :: r)); [done|]. by rewrite app_nil_r.
    + apply (Hat (l ++ u) k); rewrite ?E1; by rewrite <-app_assoc.
  - subst. apply (Hat k (v ++ p :: r)); by rewrite <-app_assoc.
Qed.

(** The streams that an iteration visits. *)
Fixpoint iter_streams (fuel : nat) (it : QUIC_STREAM_ITER) : M SM (list nat) :=
  match it_stream it with
  | None => ret []
  | Some p =>
      match fuel with
      | O => undef
      | S fuel =>
          let! it := ossl_quic_stream_iter_next it in
          let! l := iter_streams fuel it in
          ret (p :: l)
      end
  end.

Lemma iter_loop s m A Q G l p r : sm_inv ∅ s m A Q G -> A = l ++ p :: r ->
  forall v u q fuel, p :: r ++ l = u ++ q :: v -> (length v < fuel)%nat ->
  iter_streams fuel (mkIter (Some p) (Some q)) s = (Ok (q :: v), s).
Proof.
  intros I HA. assert (Hnd : NoDup (p :: r ++ l)).
  { pose proof (rep_nodup _ _ _ (i_active _ _ _ _ _ _ I)) as Hnd. rewrite HA, Permutation_app_comm in Hnd. exact Hnd. }
  induction v as [|q' v IH]; intros u q fuel HR Hf; (destruct fuel as [|fuel]; [cbn in Hf; lia|]);
    cbn [iter_streams it_stream first_stream ossl_quic_stream_iter_next].
  - erewrite bind_ok by (unfold ossl_quic_stream_iter_next; cbn [it_stream]; erewrite bind_ok by (by eapply rot_next); reflexivity).
    cbn [app first_stream]. rewrite bool_decide_true by (destruct u; by injection HR as -> _).
    by destruct fuel.
  - erewrite bind_ok by (unfold ossl_quic_stream_iter_next; cbn [it_stream]; erewrite bind_ok by (by eapply rot_next); reflexivity).
    cbn [app list.head first_stream]. rewrite bool_decide_false.
    + rewrite (bind_ok _ _ s (q' :: v) s); [done|]. apply (IH (u ++ [q])); [by rewrite <-app_assoc|cbn in Hf; lia].
    + intros [= ->]. rewrite HR in Hnd. apply NoDup_app in Hnd as (_ & Hd & Hn). destruct u as [|p0 u]; injection HR as -> _.
      * apply NoDup_cons in Hn as [Hn _]. apply Hn. left.
      * apply (Hd p0); [left|]. right. left.
Qed.

(** Where the next iteration starts. *)
Lemma iter_init_ok s m A Q G adv : sm_inv ∅ s m A Q G ->
  exists s', ossl_quic_stream_iter_init adv s = (Ok (mkIter (rr_cur (qsm s)) (rr_cur (qsm s))), s') /\
    sm_inv ∅ s' m A Q G /\ heap s' = heap s /\ brk s' = brk s.
Proof.
  intros I. unfold ossl_quic_stream_iter_init. rewrite (bind_ok _ _ _ _ _ (get_qsm_run _)).
  pose proof (i_rr _ _ _ _ _ _ I) as Hrr. destruct (rr_cur (qsm s)) as [p|] eqn:Ec; [|by exists s].
  destruct adv; [|by exists s]. unfold mod_qsm at 1, modify at 1, bind at 1.
  set (s1 := upd_qsm (set_rr _ _ _) s). assert (I1 : sm_inv ∅ s1 m A Q G) by (destruct I; split; try done).
  rewrite (bind_ok _ _ _ _ _ (get_qsm_run _)). destruct (_ >=? _); [|by exists s1].
  unfold mod_qsm at 1, modify at 1, bind at 1. set (s2 := upd_qsm (set_rr _ _ _) s1).
  assert (I2 : sm_inv ∅ s2 m A Q G) by (destruct I1; split; try done).
  pose proof Hrr as (l & r & HA)%list_elem_of_split.
  rewrite (bind_ok _ _ _ _ _ (rot_next s2 m A Q G l p r [] p (r ++ l) I2 HA eq_refl)).
  eexists. split; [reflexivity|]. split; [|done]. cbn [app]. destruct I2. split; try done.
  cbn [upd_qsm set_rr_cur qsm rr_cur]. rewrite HA. destruct r as [|y r]; [destruct l as [|y l]|]; cbn [app list.head].
  - left.
  - left.
  - apply elem_of_app. right. right. left.
Qed.

(** *** Rotation *)

Definition with_rr (c : Z) (cur : option nat) (s : SM) : SM :=
  upd_qsm (set_rr_cur cur (set_rr (rr_stepping (qsm s)) c (qsm s))) s.

Lemma with_rr_rr c cur c' cur' s : with_rr c cur (with_rr c' cur' s) = with_rr c cur s.
Proof. done. Qed.

Lemma with_rr_same s : with_rr (rr_counter (qsm s)) (rr_cur (qsm s)) s = s.
Proof. by destruct s as [[] ? ? ? ? ? ? ?]. Qed.

Lemma inv_with_rr s m A Q G c q : sm_inv ∅ s m A Q G -> q ∈ A -> sm_inv ∅ (with_rr c (Some q) s) m A Q G.
Proof. intros [] Hq. by split. Qed.

Lemma iter_advance s m A Q G l q r : sm_inv ∅ s m A Q G -> A = l ++ q :: r -> rr_cur (qsm s) = Some q ->
  0 <= rr_counter (qsm s) < U64_MOD - 1 ->
  ossl_quic_stream_iter_init true s = (Ok (mkIter (Some q) (Some q)),
    if rr_counter (qsm s) + 1 >=? rr_stepping (qsm s) then with_rr 0 (list.head (r ++ l ++ [q])) s
    else with_rr (rr_counter (qsm s) + 1) (Some q) s).
Proof.
  intros I HA Hc Hb. unfold ossl_quic_stream_iter_init. rewrite (bind_ok _ _ _ _ _ (get_qsm_run _)), Hc.
  unfold mod_qsm at 1, modify at 1, bind at 1. rewrite (bind_ok _ _ _ _ _ (get_qsm_run _)).
  cbn [upd_qsm set_rr qsm rr_counter rr_stepping]. rewrite u64_id by (unfold U64_MOD in Hb; lia).
  assert (Hin : q ∈ A) by (rewrite HA; apply elem_of_app; right; left).
  destruct (_ >=? _); [|by rewrite <-Hc; destruct s as [[] ? ? ? ? ? ? ?]].
  unfold mod_qsm at 1, modify at 1, bind at 1.
  pose proof (inv_with_rr _ _ _ _ _ 0 q I Hin) as I1.
  pose proof (rot_next _ _ _ _ _ l q r [] q (r ++ l) I1 HA eq_refl) as E. rewrite <-app_assoc in E. cbn [app] in E.
  match goal with |- bind _ _ ?s1 = _ => replace s1 with (with_rr 0 (Some q) s) by (rewrite <-Hc; by destruct s as [[] ? ? ? ? ? ? ?]) end.
  rewrite (bind_ok _ _ _ _ _ E). done.
Qed.

(** The streams with which [n] iterations start. *)
Fixpoint iter_firsts (n : nat) : M SM (list (option nat)) :=
  match n with
  | O => ret []
  | S n => let! it := ossl_quic_stream_iter_init true in let! l := iter_firsts n in ret (first_stream it :: l)
  end.

Lemma firsts_app n n' s l s1 l' s2 : iter_firsts n s = (Ok l, s1) -> iter_firsts n' s1 = (Ok l', s2) ->
  iter_firsts (n + n') s = (Ok (l ++ l'), s2).
Proof.
  revert s l. induction n as [|n IH]; intros s l E E'.
  - injection E as <- <-. done.
  - cbn [iter_firsts plus] in *. unfold bind at 1 in E. unfold bind at 1.
    destruct (ossl_quic_stream_iter_init true s) as [[it| |] s0]; try done.
    unfold bind in E. destruct (iter_firsts n s0) as [[l0| |] s0'] eqn:E0; try done. injection E as <- <-.
    by rewrite (bind_ok _ _ _ _ _ (IH _ _ E0 E')).
Qed.

(** The turn of one stream: [j] iterations are left of it. *)
Lemma one_turn m A Q G l q r : A = l ++ q :: r -> forall j s, sm_inv ∅ s m A Q G -> rr_cur (qsm s) = Some q ->
  rr_counter (qsm s) = rr_stepping (qsm s) - Z.of_nat (S j) -> 0 <= rr_counter (qsm s) -> rr_stepping (qsm s) < U64_MOD ->
  iter_firsts (S j) s = (Ok (replicate (S j) (Some q)), with_rr 0 (list.head (r ++ l ++ [q])) s).
Proof.
  intros HA. assert (Hin : q ∈ A) by (rewrite HA; apply elem_of_app; right; left).
  induction j as [|j IH]; intros s I Hc Hk H0 Hb; cbn [iter_firsts];
    rewrite (bind_ok _ _ _ _ _ (iter_advance _ _ _ _ _ l q r I HA Hc ltac:(lia))).
  - replace (_ >=? _) with true by lia. done.
  - replace (_ >=? _) with false by lia.
    erewrite bind_ok by (apply IH; [by apply inv_with_rr|done|cbn; lia|cbn; lia|done]). done.
Qed.

Lemma turn_of s m A Q G l p r u q v : sm_inv ∅ s m A Q G -> A = l ++ p :: r -> 1 <= rr_stepping (qsm s) < U64_MOD ->
  p :: r ++ l = u ++ q :: v ->
  iter_firsts (Z.to_nat (rr_stepping (qsm s))) (with_rr 0 (Some q) s)
  = (Ok (replicate (Z.to_nat (rr_stepping (qsm s))) (Some q)), with_rr 0 (list.head (v ++ u ++ [q])) s).
Proof.
  intros I HA Hk HR. assert (Hq : q ∈ A) by (rewrite HA, Permutation_app_comm; cbn [app]; rewrite HR; apply elem_of_app; right; left).
  pose proof Hq as (l' & r' & HA')%list_elem_of_split. pose proof (inv_with_rr _ _ _ _ _ 0 q I Hq) as I1.
  pose proof (rot_next _ _ _ _ _ _ _ _ _ _ _ I HA HR) as E1.
  pose proof (rot_next _ _ _ _ _ l' q r' [] q (r' ++ l') I HA' eq_refl) as E2. rewrite E1 in E2. injection E2 as ->.
  rewrite <-app_assoc. cbn [app].
  replace (Z.to_nat (rr_stepping (qsm s))) with (S (Z.to_nat (rr_stepping (qsm s)) - 1)) by lia.
  rewrite (one_turn m A Q G l' q r' HA' _ (with_rr 0 (Some q) s)); try done; cbn; lia.
Qed.

Lemma full_round s m A Q G l p r : sm_inv ∅ s m A Q G -> A = l ++ p :: r -> 1 <= rr_stepping (qsm s) < U64_MOD ->
  forall v u q, p :: r ++ l = u ++ q :: v ->
  iter_firsts (length (q :: v) * Z.to_nat (rr_stepping (qsm s))) (with_rr 0 (Some q) s)
  = (Ok (concat ((fun y => replicate (Z.to_nat (rr_stepping (qsm s))) (Some y)) <$> q :: v)), with_rr 0 (Some p) s).
Proof.
  intros I HA Hk. induction v as [|q' v IH]; intros u q HR; pose proof (turn_of _ _ _ _ _ _ _ _ _ _ _ I HA Hk HR) as E.
  - cbn [length fmap list_fmap concat Nat.mul]. rewrite Nat.add_0_r, app_nil_r. rewrite E. cbn [app].
    do 2 f_equal. destruct u; by injection HR as -> _.
  - change (length (q :: q' :: v)) with (S (length (q' :: v))). cbn [fmap list_fmap concat Nat.mul].
    eapply firsts_app; [exact E|]. apply (IH (u ++ [q])). by rewrite <-app_assoc.
Qed.
