(* ===== verification/StreamMapRuns.v ===== *)
(** Runs of the stream map: any sequence of calls that respect what their callers ensure,
    with anything in between that the other components do to the buffers and the flow
    controllers of the streams. *)

From stdpp Require Import base numbers gmap list relations.
From Stdlib Require Import ZArith Lia.
From S2P Require Import Prelude SafeMath Wire UintSet FlowControl RingBuf SStream Statm SFrameList RStream LHash StreamList StreamMap StreamMapTheory StreamMapOps StreamMapLife StreamMapEvents.

#[local] Open Scope cfun_scope.

(** ** Definitions: runs *)

Inductive sm_call :=
| CUpdate (p : nat)
| CEnsureSend (p : nat)
| CAllDataSent (p : nat)
| CReset (p : nat) (aec : Z)
| CResetAcked (p : nat)
| CSizeKnown (p : nat) (final_size : Z)
| CReceived (p : nat)
| CRead (p : nat)
| CResetRecv (p : nat) (aec final_size : Z)
| CReadReset (p : nat)
| CScheduleStop (p : nat)
| CStopSending (p : nat) (aec : Z)
| CAccept (p : nat) (rtt : OSSL_TIME)
| CFind (is_uni : bool)
| CGetById (id : Z)
| CNewLocal (is_uni : bool)
| CNewRemote (id : Z)
| CReject (p : nat)
| CValidate (p : nat)
| CConclude (p : nat)
| CFree (p : nat)
| CRegen (frame_type id pkt_space : Z)
| CConfirm (frame_type id : Z)
| CUpdated (id : Z)
| CSent (p : nat) (fc stop reset : bool) (credit : Z)
| CBeginFlush
| CGc
| CStepping (n : Z)
| CIterInit (advance : bool).

Section Runs.
Context (fresh : Z -> list Z) (now : nat -> OSSL_TIME).

(** A call; its result is dropped. *)
Definition exec_call (c : sm_call) : M SM unit :=
  match c with
  | CUpdate p => ossl_quic_stream_map_update_state p
  | CEnsureSend p => ossl_quic_stream_map_ensure_send_part_id p ;;; ret tt
  | CAllDataSent p => ossl_quic_stream_map_notify_all_data_sent p ;;; ret tt
  | CReset p aec => ossl_quic_stream_map_reset_stream_send_part p aec ;;; ret tt
  | CResetAcked p => ossl_quic_stream_map_notify_reset_stream_acked p ;;; ret tt
  | CSizeKnown p n => ossl_quic_stream_map_notify_size_known_recv_part p n ;;; ret tt
  | CReceived p => ossl_quic_stream_map_notify_totally_received p ;;; ret tt
  | CRead p => ossl_quic_stream_map_notify_totally_read p ;;; ret tt
  | CResetRecv p aec n => ossl_quic_stream_map_notify_reset_recv_part p aec n ;;; ret tt
  | CReadReset p => ossl_quic_stream_map_notify_app_read_reset_recv_part p ;;; ret tt
  | CScheduleStop p => ossl_quic_stream_map_schedule_stop_sending p ;;; ret tt
  | CStopSending p aec => ossl_quic_stream_map_stop_sending_recv_part p aec ;;; ret tt
  | CAccept p rtt => ossl_quic_stream_map_remove_from_accept_queue now p rtt
  | CFind u => (let! s := get in ossl_quic_stream_map_find_in_accept_queue (base.size (heap s)) u) ;;; ret tt
  | CGetById id => ossl_quic_stream_map_get_by_id id ;;; ret tt
  | CNewLocal u => ossl_quic_channel_new_stream_local fresh u ;;; ret tt
  | CNewRemote id => ossl_quic_channel_new_stream_remote fresh id ;;; ret tt
  | CReject p => ossl_quic_channel_reject_stream p
  | CValidate p => quic_validate_for_write p ;;; ret tt
  | CConclude p => ossl_quic_conn_stream_conclude p ;;; ret tt
  | CFree p => quic_free_stream p
  | CRegen ft id sp => on_regen_notify ft id sp
  | CConfirm ft id => on_confirm_notify ft id
  | CUpdated id => on_sstream_updated id
  | CSent p fc ss rs n => txp_stream_sent p fc ss rs n ;;; ret tt
  | CBeginFlush => ossl_quic_stream_map_begin_shutdown_flush
  | CGc => ossl_quic_stream_map_gc
  | CStepping n => ossl_quic_stream_map_set_rr_stepping n
  | CIterInit adv => ossl_quic_stream_iter_init adv ;;; ret tt
  end.

(** The stream of a call. *)
Definition subject (c : sm_call) : option nat :=
  match c with
  | CUpdate p | CEnsureSend p | CAllDataSent p | CReset p _ | CResetAcked p | CSizeKnown p _ | CReceived p | CRead p
  | CResetRecv p _ _ | CReadReset p | CScheduleStop p | CStopSending p _ | CAccept p _ | CReject p | CValidate p
  | CConclude p | CFree p | CSent p _ _ _ _ => Some p
  | _ => None
  end.

(** The node of the stream is in the accept queue. *)
Definition queued (s : SM) (p : nat) : bool :=
  match accept_list (qsm s) !! Node p with Some k => bool_decide (next k <> None) | None => false end.

(** What the callers ensure: the stream exists, only a stream of the queue is accepted,
    the flush begins once, and only the frame types that the packetiser records are
    reported. At most [MAX_STREAMS] streams are created. *)
Definition legal (s : SM) (c : sm_call) : Prop :=
  (forall p, subject c = Some p -> is_Some (heap s !! p)) /\
  match c with
  | CAccept p _ => queued s p = true
  | CNewLocal _ | CNewRemote _ => Z.of_nat (brk s) < MAX_STREAMS
  | CRegen ft _ _ => ft ∈ regen_types
  | CConfirm ft _ => ft ∈ confirm_types
  | CBeginFlush => num_shutdown_flush (qsm s) = 0
  | _ => True
  end.

(** What the functions that write, send, receive and read may do to a stream: the send
    buffer stays a send buffer and keeps its FIN, which it does not get before the state
    SEND, and the receive buffer stays a receive buffer. *)
Definition env_stream (x x' : QUIC_STREAM) : Prop :=
  exists qs qr v aec, x' = set_peer_stop_sending v aec (set_rstream qr (set_sstream qs x)) /\
    match sstream x, qs with
    | Some q, Some q' => (exists a, SStream.sim q' a) /\
        (have_final_size q = true -> have_final_size q' = true) /\
        (send_state x = QUIC_SSTREAM_STATE_READY -> have_final_size q' = false)
    | None, None => True
    | _, _ => False
    end /\
    match rstream x, qr with
    | Some _, Some q' => refs (sfs q') ≡ₚ held (frames (fl (sfs q')))
    | None, None => True
    | _, _ => False
    end.

(** A step of the other components. *)
Definition env_step (s s' : SM) : Prop :=
  exists c h t r o, s' = mkSM (qsm s) c (txp s) h t r (brk s) o /\
    is_server c = is_server (ch s) /\ Forall is_u64 (init_limits c) /\
    (forall p, match heap s !! p, h !! p with
               | Some x, Some x' => env_stream x x'
               | None, None => True
               | _, _ => False
               end) /\
    tx_wf t /\ tx_parents t = tx_parents (tx s) /\ rx_parents r = rx_parents (rx s).

Inductive sm_step (s s' : SM) : Prop :=
| step_call c r : legal s c -> exec_call c s = (r, s') -> sm_step s s'
| step_env : env_step s s' -> sm_step s s'.

(** A map that was just made: there are no streams, the controllers of the connection are
    0, and 1 and 2 may count streams. *)
Definition initial (s : SM) : Prop :=
  exists s0 cb b u, ossl_quic_stream_map_init cb b u s0 = (Ok true, s) /\ map_ (qsm s) <> None /\
    heap s0 = ∅ /\ brk s0 = 3%nat /\ Forall is_u64 (init_limits (ch s0)) /\
    tx_wf (tx s0) /\ tx_parents (tx s0) = {[conn_fc := None]} /\
    rxs (rx s0) !! conn_fc <> None /\
    (forall p y, rxs (rx s0) !! p = Some y -> (p <= 2)%nat /\ parent y = None) /\
    (forall p, b = Some p \/ u = Some p -> is_Some (rxs (rx s0) !! p)).

Definition reachable (s : SM) : Prop := exists s0, initial s0 /\ rtc sm_step s0 s.

Context (fresh_len : forall n, 0 <= n -> zlen (fresh n) = n).

(** ** The invariant of runs *)

Lemma initial_ok s : initial s -> sm_ok s.
Proof.
  intros (s0 & cb & b & u & E & Hm & Hh & Hb & Hl & Hw & Htx & Hc & Hrx & Hcnt).
  unfold ossl_quic_stream_map_init in E. destruct (OPENSSL_LH_new (orc s0)) as [t o] eqn:En. injection E as <-.
  destruct t as [t|]; [|done]. destruct (new_rep _ _ _ En) as [Hr _].
  assert (Htl : forall p, tx_parent <$> tx s0 !! p = ({[conn_fc := None]} : gmap nat (option nat)) !! p).
  { intros p. rewrite <-Htx. unfold tx_parents. by rewrite lookup_fmap. }
  exists ∅, [], [], []. split; cbn [upd_orc upd_qsm qsm heap tx rx brk ch map_ active_list accept_list ready_for_gc_list
    rr_cur num_accept_bidi num_accept_uni num_shutdown_flush max_streams_bidi_rxfc max_streams_uni_rxfc]; rewrite ?Hh, ?Hb.
  all: try (by rewrite dom_empty_L; apply init_rep); try (intros p x Hx; by apply lookup_empty_Some in Hx); try done.
  - by exists t.
  - lia.
  - rewrite map_size_empty. lia.
  - split; [done|]. specialize (Htl conn_fc). rewrite lookup_singleton_eq in Htl.
    destruct (tx s0 !! conn_fc) as [c|]; [|done]. exists c. split; [done|]. by injection Htl.
  - intros p y c Hy Hp. specialize (Htl p). rewrite Hy in Htl. cbn in Htl. rewrite Hp in Htl. symmetry in Htl.
    by apply lookup_singleton_Some in Htl as [_ ?].
  - intros p Hp. specialize (Htl p). rewrite lookup_singleton_ne in Htl by (unfold conn_fc; lia). by destruct (tx s0 !! p).
  - destruct (rxs (rx s0) !! conn_fc) as [c|] eqn:Ec; [|done]. exists c. split; [done|]. by eapply Hrx.
  - intros p y c Hy Hp. destruct (Hrx p y Hy). congruence.
  - intros p Hp. destruct (Hcnt p Hp) as [y Hy]. split; [by eapply Hrx|by exists y].
Qed.

Lemma env_stream_ok x x' : stream_ok x -> env_stream x x' -> same_core x x' /\ evolves x x' /\ stream_ok x'.
Proof.
  intros [H1 H2 H3 H4 H5 H6 H7 H7s H8] (qs & qr & v & aec & -> & Hs & Hr). split; [by split|]. split; [by split|].
  split; try done; cbn.
  - change (ossl_quic_stream_has_send_buffer _) with (ossl_quic_stream_has_send_buffer x).
    rewrite <-H1. destruct (sstream x), qs; try done.
  - change (ossl_quic_stream_has_recv_buffer _) with (ossl_quic_stream_has_recv_buffer x).
    rewrite <-H2. destruct (rstream x), qr; try done.
  - intros q ->. destruct (sstream x); [|done]. by destruct Hs.
  - intros q ->. by destruct (rstream x).
  - intros q E ->. destruct (sstream x); [|done]. by apply Hs.
  - intros q E ->. destruct (sstream x) as [q0|]; [|done]. apply Hs. by apply H7s.
  - intros Hd. destruct (H8 Hd) as [Hr' Hf]. split; [done|]. intros q E ->.
    destruct (sstream x) as [q0|]; [|done]. apply Hs. by apply Hf.
Qed.

Lemma inv_channel s m A Q G c : sm_inv ∅ s m A Q G -> is_server c = is_server (ch s) -> Forall is_u64 (init_limits c) ->
  sm_inv ∅ (upd_ch c s) m A Q G.
Proof. intros [] Es El. split; cbn [upd_ch ch]; rewrite ?Es; done. Qed.

(** All streams change, but not what the lists and the counters depend on. *)
Lemma inv_heap s m A Q G h : sm_inv ∅ s m A Q G ->
  (forall p, match heap s !! p, h !! p with
             | Some x, Some x' => same_core x x' /\ stream_ok x'
             | None, None => True
             | _, _ => False
             end) -> sm_inv ∅ (upd_heap h s) m A Q G.
Proof.
  intros I Hh.
  assert (Hx : forall p x', h !! p = Some x' -> exists x, heap s !! p = Some x /\ same_core x x' /\ stream_ok x').
  { intros p x' Hp. specialize (Hh p). rewrite Hp in Hh. destruct (heap s !! p) as [x|]; [by exists x|done]. }
  assert (Hf : forall {B} (f : QUIC_STREAM -> B), (forall x x', same_core x x' -> f x' = f x) -> forall p, f <$> h !! p = f <$> heap s !! p).
  { intros B f Ef p. specialize (Hh p). destruct (heap s !! p), (h !! p); try done. cbn. f_equal. by apply Ef, Hh. }
  assert (Hd : dom h = dom (heap s)).
  { apply set_eq. intros p. rewrite !elem_of_dom. specialize (Hh p). destruct (heap s !! p), (h !! p); done. }
  destruct I. split; cbn [upd_heap heap qsm tx rx brk ch]; rewrite ?Hd; try done.
  - intros id r Hr. destruct (i_entry id r Hr) as (E & x & Hp & Ex). split; [done|]. specialize (Hh (r_ptr r)).
    rewrite Hp in Hh. destruct (h !! r_ptr r) as [x'|]; [|done]. exists x'. split; [done|]. destruct Hh as [[] _]. congruence.
  - intros p x' (x & Hp & [] & _)%Hx. rewrite c_active. eauto.
  - intros p x' (x & Hp & [] & _)%Hx. rewrite c_gc. eauto.
  - rewrite i_bidi. f_equal. symmetry. apply of_dir_ext. intros p _. apply Hf. intros x x' []. by apply bidi_same.
  - rewrite i_uni. f_equal. symmetry. apply of_dir_ext. intros p _. apply Hf. intros x x' []. by apply bidi_same.
  - rewrite i_flush. do 2 f_equal. symmetry. apply flushing_ext. intros p. apply Hf. by intros x x' [].
  - intros p x' (x & Hp & [] & _)%Hx. rewrite c_server. eauto.
  - intros p x' (x & Hp & _ & Ho)%Hx Hn. split; [done|]. by apply (i_streams p x Hp Hn).
Qed.

Lemma env_ok s s' : sm_ok s -> env_step s s' -> progress s s'.
Proof.
  intros (m & A & Q & G & I) (c & h & t & r & o & -> & Es & El & Hh & Hw & Ht & Hr).
  assert (Hall : forall p, match heap s !! p, h !! p with
    | Some x, Some x' => same_core x x' /\ evolves x x' /\ stream_ok x' | None, None => True | _, _ => False end).
  { intros p. specialize (Hh p). destruct (heap s !! p) as [x|] eqn:Hp, (h !! p) as [x'|]; try done.
    apply env_stream_ok; [|done]. by eapply inv_stream. }
  split.
  - exists m, A, Q, G. change (sm_inv ∅ (upd_orc o (upd_ch c (upd_rx r (upd_tx t (upd_heap h s))))) m A Q G).
    apply inv_orc, inv_channel; [|done|done]. apply inv_rx; [|done]. apply inv_tx; [|done|done]. apply inv_heap; [done|].
    intros p. specialize (Hall p). destruct (heap s !! p), (h !! p); naive_solver.
  - apply evolved_history; [done|]. intros p. specialize (Hall p). cbn. destruct (heap s !! p), (h !! p); naive_solver.
Qed.

(** ** Calls *)

Lemma drop_result {B} s s0 (f : M SM B) : (exists r s', f s = (Ok r, s') /\ progress s0 s') ->
  exists s', (f ;;; ret tt) s = (Ok tt, s') /\ progress s0 s'.
Proof. intros (r & s' & E & H). exists s'. by rewrite (bind_ok _ _ _ _ _ E). Qed.

Lemma moved_result {B} s m Q (f : M SM B) : (exists r s', f s = (Ok r, s') /\ moved_on s m Q s') ->
  exists s', (f ;;; ret tt) s = (Ok tt, s') /\ progress s s'.
Proof. intros (r & s' & E & H). apply drop_result. exists r, s'. split; [done|]. by eapply moved_progress. Qed.

Lemma queued_in s m A Q G p : sm_inv ∅ s m A Q G -> p ∈ dom (heap s) -> queued s p = true -> p ∈ Q.
Proof.
  intros I Hp Hq. destruct (rep_linked _ _ _ _ (i_accept _ _ _ _ _ _ I) Hp) as (k & Hk & Hn). unfold queued in Hq.
  rewrite Hk in Hq. apply Hn. by apply bool_decide_eq_true in Hq.
Qed.

Lemma accept_bound s m A Q G : sm_inv ∅ s m A Q G -> (length Q <= base.size (heap s))%nat.
Proof.
  intros I. pose proof (i_accept _ _ _ _ _ _ I) as Hr.
  assert (Hs : (list_to_set Q : gset nat) ⊆ dom (heap s)).
  { intros p Hp. apply elem_of_list_to_set in Hp. by eapply rep_in. }
  apply subseteq_size in Hs. rewrite size_list_to_set in Hs by by eapply rep_nodup. by rewrite size_dom in Hs.
Qed.

Lemma same_progress s m A Q G s' : sm_inv ∅ s' m A Q G -> heap s' = heap s -> brk s' = brk s -> progress s s'.
Proof. intros I Hh Hb. split; [by eexists _, _, _, _|]. apply history_same; [done|lia]. Qed.

(** The calls for a stream. *)
Lemma subject_ok s c p m A Q G x : sm_inv ∅ s m A Q G -> legal s c -> subject c = Some p -> heap s !! p = Some x ->
  exists s', exec_call c s = (Ok tt, s') /\ progress s s'.
Proof.
  intros I [_ Hl] Hc H. destruct c; cbn [subject] in Hc; simplify_eq; cbn [exec_call].
  all: try (eapply moved_result; first [by eapply all_data_sent_ok|by eapply reset_acked_ok|by eapply size_known_ok
    |by eapply totally_received_ok|by eapply totally_read_ok|by eapply reset_recv_ok|by eapply app_read_reset_ok|by eapply conclude_ok]).
  - destruct (update_moved _ _ _ _ _ p x I H) as (s' & E & _ & M). exists s'. split; [done|]. by eapply moved_progress.
  - destruct (ensure_ok _ _ _ _ _ p x I H) as (s' & E & _ & M). eapply moved_result. by eexists _, s'.
  - destruct (reset_ok _ _ _ _ _ p x aec I H) as (r & s' & x' & E & M & _). eapply moved_result. by eexists _, s'.
  - destruct (schedule_stop_ok _ _ _ _ _ p x I H) as (r & s' & E & M & _). eapply moved_result. by eexists _, s'.
  - destruct (stop_sending_ok _ _ _ _ _ p x aec I H) as (r & s' & E & M & _). eapply moved_result. by eexists _, s'.
  - pose proof (queued_in _ _ _ _ _ _ I (in_dom _ _ _ H) Hl) as (l & r & ->)%list_elem_of_split.
    destruct (remove_accept_ok now _ _ _ _ _ _ _ x rtt I H) as (s' & E & I' & Hh & Hb). exists s'. split; [done|].
    by eapply same_progress.
  - destruct (reject_ok _ _ _ _ _ p x I H) as ([] & s' & E & M). exists s'. split; [done|]. by eapply moved_progress.
  - destruct (validate_write_ok _ _ _ _ _ p x I H) as (r & s' & E & M & _). eapply moved_result. by eexists _, s'.
  - destruct (free_stream_ok _ _ _ _ _ p x I H) as ([] & s' & E & M). exists s'. split; [done|]. by eapply moved_progress.
  - destruct (stream_sent_ok _ _ _ _ _ p x fc stop reset credit I H) as (r & s' & E & C). apply drop_result.
    exists r, s'. split; [done|]. by apply carried_progress.
Qed.

Lemma call_ok s c : sm_ok s -> legal s c -> exists s', exec_call c s = (Ok tt, s') /\ progress s s'.
Proof.
  intros Hok Hl. pose proof Hok as (m & A & Q & G & I). destruct (subject c) as [p|] eqn:Hp.
  { destruct (proj1 Hl p Hp) as [x H]. by eapply subject_ok. }
  destruct Hl as [_ Hl]. destruct c; try done; cbn [exec_call].
  - apply drop_result. rewrite (bind_ok get _ s s s eq_refl).
    rewrite (find_accept_ok _ _ _ _ _ is_uni _ I (accept_bound _ _ _ _ _ I)). eexists _, s. split; [done|]. by eapply same_progress.
  - destruct (get_by_id_ok _ _ _ _ _ id I) as (t & E & I'). apply drop_result. eexists _, _. split; [exact E|].
    by eapply same_progress.
  - destruct (new_local_ok fresh fresh_len _ _ _ _ _ is_uni I Hl) as (r & s' & E & Hh & Hr). apply drop_result.
    exists r, s'. split; [done|]. split; [|done]. destruct r as [p|].
    + destruct Hr as (_ & _ & _ & x & m' & _ & _ & I' & _). by eexists _, _, _, _.
    + destruct Hr as ((G' & I') & _). by eexists _, _, _, _.
  - destruct (new_remote_ok fresh fresh_len _ id Hok Hl) as (r & s' & E & P). apply drop_result. by exists r, s'.
  - by apply on_regen_ok.
  - by apply on_confirm_ok.
  - by apply on_sstream_updated_ok.
  - destruct (begin_flush_ok _ _ _ _ _ I Hl) as (s' & E & I' & Hb & Hin & Hout). exists s'. split; [done|].
    split; [by eexists _, _, _, _|]. apply evolved_history; [done|]. by eapply flag_evolved.
  - exists s. rewrite (gc_idle _ _ _ _ _ I). split; [done|]. by eapply same_progress.
  - eexists. split; [done|]. destruct I. eapply (same_progress _ m A Q G); [|done|done]. by split.
  - destruct (iter_init_ok _ _ _ _ _ advance I) as (s' & E & I' & Hh & Hb). apply drop_result. eexists _, s'.
    split; [done|]. by eapply same_progress.
Qed.

Lemma reachable_ok s : reachable s -> sm_ok s.
Proof.
  intros (s0 & H0 & Hr). apply initial_ok in H0. induction Hr as [|s0 s1 s2 [c r Hl E|He] _ IH]; [done|..].
  - apply IH. destruct (call_ok _ _ H0 Hl) as (s' & E' & [P _]). congruence.
  - apply IH, (env_ok _ _ H0 He).
Qed.

Lemma run_history s s' : sm_ok s -> rtc sm_step s s' -> history s s'.
Proof.
  intros H0 Hr. induction Hr as [|s0 s1 s2 Hs _ IH]; [apply history_refl|].
  assert (P : progress s0 s1).
  { destruct Hs as [c r Hl E|He]; [|by apply env_ok]. destruct (call_ok _ _ H0 Hl) as (s' & E' & P). congruence. }
  eapply history_trans; [done|apply P|]. by apply IH, P.
Qed.

(** ** Properties *)

(** C13: In every state that a run reaches, each stream has a send buffer exactly in the states
    READY, SEND and DATA_SENT of its send part and a receive buffer exactly in the states
    RECV, SIZE_KNOWN and DATA_RECVD of its receive part, has a send part unless it is a
    unidirectional stream of the peer and a receive part unless it is a local
    unidirectional stream, and if it is deleted its final size is known. *)
Theorem stream_buffers_match_states s p x :
  reachable s -> heap s !! p = Some x ->
  (is_Some (sstream x) <-> ossl_quic_stream_has_send_buffer x = true) /\
  (is_Some (rstream x) <-> ossl_quic_stream_has_recv_buffer x = true) /\
  ossl_quic_stream_has_send x = ossl_quic_stream_is_local_init x || ossl_quic_stream_is_bidi x /\
  ossl_quic_stream_has_recv x = negb (ossl_quic_stream_is_local_init x) || ossl_quic_stream_is_bidi x /\
  (deleted x = true -> ossl_quic_stream_has_send x = true ->
    exists v, ossl_quic_stream_send_get_final_size p s = (Ok (Some v), s)).
Proof.
  intros (m & A & Q & G & I)%reachable_ok H. destruct (inv_stream _ _ _ _ _ _ _ I H) as [Hx _].
  pose proof Hx as []. split_and!; try done. intros Hd Hs. by apply (final_size_known s p x).
Qed.

(** C7: No call that respects what the callers ensure accesses a stream that was freed or a
    buffer that does not exist, corrupts a list, or runs into a failing assertion. *)
Theorem stream_map_never_undefined s c :
  reachable s -> legal s c -> exists s', exec_call c s = (Ok tt, s').
Proof. intros Hr Hl. destruct (call_ok _ _ (reachable_ok _ Hr) Hl) as (s' & E & _). by exists s'. Qed.

(** C12: In every state that a run reaches, the three circular lists are well linked, the active
    list has exactly the streams that are marked active and the collection list those that
    are ready for it; the rotation continues at an active stream if there is one; the
    accept queue has as many streams of each direction as its counters say; the flush waits
    for as many streams as are marked; and the table finds a stream of the map with the
    identifier it is asked for, or none. *)
Theorem stream_map_consistent s :
  reachable s ->
  exists A Q G m t,
    list_rep (active_list (qsm s)) (dom (heap s)) A /\
    list_rep (accept_list (qsm s)) (dom (heap s)) Q /\
    list_rep (ready_for_gc_list (qsm s)) (dom (heap s)) G /\
    (forall p x, heap s !! p = Some x -> (active x = true <-> p ∈ A) /\ (ready_for_gc x = true <-> p ∈ G)) /\
    match rr_cur (qsm s) with Some p => p ∈ A | None => A = [] end /\
    num_accept_bidi (qsm s) = zlen (of_dir true (heap s) Q) /\
    num_accept_uni (qsm s) = zlen (of_dir false (heap s) Q) /\
    num_shutdown_flush (qsm s) = Z.of_nat (base.size (flushing (heap s))) /\
    map_ (qsm s) = Some t /\ lh_rep t m /\
    forall id r, m !! id = Some r -> exists x, heap s !! r_ptr r = Some x /\ s_id x = id.
Proof.
  intros (m & A & Q & G & I)%reachable_ok. pose proof I as []. destruct i_table as (t & Ht & Hr).
  exists A, Q, G, m, t. split_and!; try done.
  - intros p x H. split; auto.
  - intros id r Hm. by apply i_entry.
Qed.

(** C6: As long as a stream exists its identifier and its type stay the same, the states of its
    parts follow the state machines of RFC 9000, the final size does not change once it is
    settled, and a stream that was deleted, stopped or found ready for collection stays
    so. *)
Theorem stream_lifecycle s s' p x x' :
  reachable s -> rtc sm_step s s' -> heap s !! p = Some x -> heap s' !! p = Some x' ->
  s_id x' = s_id x /\ s_type x' = s_type x /\
  rtc send_edge (send_state x) (send_state x') /\ rtc recv_edge (recv_state x) (recv_state x') /\
  (size_settled (send_state x) = true -> send_final_size x' = send_final_size x) /\
  (deleted x = true -> deleted x' = true) /\ (stop_sending x = true -> stop_sending x' = true) /\
  (ready_for_gc x = true -> ready_for_gc x' = true).
Proof.
  intros Hr Hs H H'. destruct (h_stream _ _ (run_history _ _ (reachable_ok _ Hr) Hs) p x x' H H') as [(? & ? & _) ? ? ? ? ? ?].
  by split_and!.
Qed.

(** C14: An update changes only the stream it is called for: acknowledged data end the send part
    and the flush of the stream, a deleted stream whose parts have ended becomes ready for
    collection, and the stream is active exactly when frames can be generated for it. *)
Theorem update_state_spec s p x :
  reachable s -> heap s !! p = Some x ->
  exists s', ossl_quic_stream_map_update_state p s = (Ok tt, s') /\ same_env s s' /\
    heap s' = <[p := updated s p x]> (heap s) /\
    exists A, list_rep (active_list (qsm s')) (dom (heap s)) A /\
      (p ∈ A <-> wanted s p (gc_upd (acked_upd x)) (local_allowed s x) = true).
Proof.
  intros (m & A & Q & G & I)%reachable_ok H.
  destruct (update_moved _ _ _ _ _ p x I H) as (s' & E & ((A' & G' & I') & En & Hh) & _).
  exists s'. split_and!; try done. exists A'. pose proof (i_active _ _ _ _ _ _ I') as Hl.
  rewrite Hh, (dom_insert_same _ _ _ _ H) in Hl. split; [done|].
  by rewrite <-(i_active_iff _ _ _ _ _ _ I' p (updated s p x)) by (by eapply lookup_changed).
Qed.

Lemma active_bound s m A Q G : sm_inv ∅ s m A Q G -> (length A <= base.size (heap s))%nat.
Proof.
  intros I. pose proof (i_active _ _ _ _ _ _ I) as Hr.
  assert (Hs : (list_to_set A : gset nat) ⊆ dom (heap s)).
  { intros p Hp. apply elem_of_list_to_set in Hp. by eapply rep_in. }
  apply subseteq_size in Hs. rewrite size_list_to_set in Hs by by eapply rep_nodup. by rewrite size_dom in Hs.
Qed.

Lemma in_active_iff s m A Q G p : sm_inv ∅ s m A Q G -> p ∈ A <-> exists x, heap s !! p = Some x /\ active x = true.
Proof.
  intros I. split.
  - intros Hp. pose proof (rep_in _ _ _ (i_active _ _ _ _ _ _ I) _ Hp) as [x Hx]%elem_of_dom. exists x.
    split; [done|]. by apply (i_active_iff _ _ _ _ _ _ I p x Hx).
  - intros (x & Hx & Ha). by apply (i_active_iff _ _ _ _ _ _ I p x Hx).
Qed.

(** C16: An iteration over the active streams ends after visiting each of them exactly once,
    beginning with the stream at which the rotation stands. *)
Theorem iteration_visits_active_once s advance :
  reachable s ->
  exists it s' l, ossl_quic_stream_iter_init advance s = (Ok it, s') /\
    iter_streams (base.size (heap s)) it s' = (Ok l, s') /\ NoDup l /\
    (forall p, p ∈ l <-> exists x, heap s !! p = Some x /\ active x = true) /\
    list.head l = rr_cur (qsm s).
Proof.
  intros (m & A & Q & G & I)%reachable_ok. destruct (iter_init_ok _ _ _ _ _ advance I) as (s' & E & I' & Hh & _).
  exists (mkIter (rr_cur (qsm s)) (rr_cur (qsm s))), s'. pose proof (i_rr _ _ _ _ _ _ I) as Hrr. pose proof (active_bound _ _ _ _ _ I) as Hb.
  pose proof (rep_nodup _ _ _ (i_active _ _ _ _ _ _ I)) as Hnd. setoid_rewrite <-(in_active_iff _ _ _ _ _ _ I).
  destruct (rr_cur (qsm s)) as [p|].
  - pose proof Hrr as (l & r & HA)%list_elem_of_split. exists (p :: r ++ l). split; [exact E|].
    assert (HP : A ≡ₚ p :: r ++ l) by (rewrite HA; by rewrite Permutation_app_comm).
    split_and!; try done.
    + apply (iter_loop _ _ _ _ _ l p r I' HA (r ++ l) []); [done|]. rewrite HP in Hb. cbn in Hb. lia.
    + by rewrite <-HP.
    + intros q. by rewrite HP.
  - exists []. split; [exact E|]. subst A. split_and!; try done; by destruct (base.size _).
Qed.

(** C15: The rotation is fair: with a stepping of [k], and no change of the active list in
    between, [k] iterations in a row start at each active stream in turn, after which the
    rotation is where it was. *)
Theorem rotation_is_fair s p :
  reachable s -> rr_cur (qsm s) = Some p -> rr_counter (qsm s) = 0 -> 1 <= rr_stepping (qsm s) < U64_MOD ->
  let k := Z.to_nat (rr_stepping (qsm s)) in
  exists R, NoDup R /\ list.head R = Some p /\
    (forall q, q ∈ R <-> exists x, heap s !! q = Some x /\ active x = true) /\
    iter_firsts (length R * k) s = (Ok (concat ((fun q => replicate k (Some q)) <$> R)), s).
Proof.
  intros (m & A & Q & G & I)%reachable_ok Hc H0 Hk k. pose proof (i_rr _ _ _ _ _ _ I) as Hrr. rewrite Hc in Hrr.
  pose proof (rep_nodup _ _ _ (i_active _ _ _ _ _ _ I)) as Hnd. setoid_rewrite <-(in_active_iff _ _ _ _ _ _ I).
  pose proof Hrr as (l & r & HA)%list_elem_of_split. exists (p :: r ++ l).
  assert (HP : A ≡ₚ p :: r ++ l) by (rewrite HA; by rewrite Permutation_app_comm).
  assert (Hs : with_rr 0 (Some p) s = s) by (rewrite <-H0, <-Hc; apply with_rr_same).
  split_and!; try done.
  - by rewrite <-HP.
  - intros q. by rewrite HP.
  - pose proof (full_round _ _ _ _ _ l p r I HA Hk (r ++ l) [] p eq_refl) as E. by rewrite Hs in E.
Qed.

(** C17: The search of the accept queue ends, although its loop goes round the circle without a
    bound: it finds the first stream of the wanted direction, or none if there is none. *)
Theorem find_in_accept_queue_terminates s :
  reachable s ->
  exists Q, list_rep (accept_list (qsm s)) (dom (heap s)) Q /\ (length Q <= base.size (heap s))%nat /\
    forall is_uni fuel, (length Q <= fuel)%nat ->
      ossl_quic_stream_map_find_in_accept_queue fuel is_uni s
      = (Ok (list.head (of_dir (negb is_uni) (heap s) Q)), s).
Proof.
  intros (m & A & Q & G & I)%reachable_ok. exists Q. split; [apply I|]. split; [by eapply accept_bound|].
  intros u fuel Hf. by eapply find_accept_ok.
Qed.

(** C18: A reset of the send part fails without a send part or when all data are acknowledged,
    and has no effect on a part that was reset before; otherwise the buffer is gone, a
    RESET_STREAM frame is wanted, the flush does not wait for the stream any more, and the
    final size is what was sent unless it was settled before. *)
Theorem reset_send_part_spec s p x aec :
  reachable s -> heap s !! p = Some x ->
  exists s', ossl_quic_stream_map_reset_stream_send_part p aec s
      = (Ok (ossl_quic_stream_has_send_buffer x || ossl_quic_stream_send_is_reset x), s') /\
    if ossl_quic_stream_has_send_buffer x
    then exists x', heap s' = <[p := x']> (heap s) /\ send_state x' = QUIC_SSTREAM_STATE_RESET_SENT /\
      sstream x' = None /\ want_reset_stream x' = true /\ reset_stream_aec x' = aec /\ shutdown_flush x' = false /\
      send_final_size x' = reset_size s p x /\ recv_state x' = recv_state x /\ deleted x' = deleted x
    else s' = s.
Proof.
  intros (m & A & Q & G & I)%reachable_ok H. destruct (ossl_quic_stream_has_send_buffer x) eqn:Hs; cbn [orb].
  - destruct (reset_buffer_ok _ _ _ _ _ p x aec I H Hs) as (s1 & s' & E & En & (_ & _ & Hh)). exists s'. split; [done|].
    eexists. split; [exact Hh|]. set (y := reset_of _ _ _).
    destruct (updated_fields s1 p y) as (-> & -> & -> & -> & ->).
    rewrite updated_send, updated_no_buffer, updated_unflushed by done. done.
  - exists s. split; [|done]. unfold ossl_quic_stream_map_reset_stream_send_part.
    rewrite (bind_ok _ _ _ _ _ (stream_at_run _ _ _ H)). unfold ossl_quic_stream_has_send_buffer in Hs.
    unfold ossl_quic_stream_send_is_reset. by destruct (send_state x).
Qed.

(** A local stream is created unless the ordinals are used up, its identifier is in use or an
    allocation fails. It has the next identifier of its type, no other stream changes, and
    when no allocation fails it is found under its identifier. *)
Theorem new_stream_local_spec s is_uni :
  reachable s -> Z.of_nat (brk s) < MAX_STREAMS -> false ∉ orc s ->
  exists r s', ossl_quic_channel_new_stream_local fresh is_uni s = (Ok r, s') /\
    match r with
    | Some p => exists x, heap s' = <[p := x]> (heap s) /\ heap s !! p = None /\ s_id x = local_id (ch s) is_uni /\
        ossl_quic_stream_is_local_init x = true /\ ossl_quic_stream_is_bidi x = negb is_uni /\
        fst (ossl_quic_stream_map_get_by_id (local_id (ch s) is_uni) s') = Ok (Some p)
    | None => Z.shiftl 1 62 <= ch_get_local_stream_next_ordinal is_uni (ch s) \/
        exists p x, heap s !! p = Some x /\ s_id x = local_id (ch s) is_uni
    end.
Proof.
  intros (m & A & Q & G & I)%reachable_ok Hmax Ho.
  destruct (new_local_ok fresh fresh_len _ _ _ _ _ is_uni I Hmax) as (r & s' & E & _ & Hr). exists r, s'. split; [done|].
  destruct r as [p|].
  - destruct Hr as (-> & _ & _ & x & m' & Hh & [C1 C2 C3 _ _ _] & I' & [->|[_ ?]]); [|done]. exists x.
    split; [done|]. split; [by eapply fresh_ptr|]. split; [done|].
    split; [|split].
    + unfold ossl_quic_stream_is_local_init, ossl_quic_stream_is_server_init. rewrite C2, C3. unfold local_type.
      by destruct (is_server (ch s)), is_uni.
    + rewrite (bidi_same _ _ C2). unfold local_type. by destruct (is_server (ch s)), is_uni.
    + destruct (get_by_id_ok _ _ _ _ _ (local_id (ch s) is_uni) I') as (t & E' & _). rewrite E', lookup_insert_eq. done.
  - destruct Hr as (_ & [?|[[r Hr]|?]]); [by left| |done]. right.
    destruct (i_entry _ _ _ _ _ _ I _ _ Hr) as (_ & x & Hx & Ex). by exists (r_ptr r), x.
Qed.

(** The flush waits for exactly the streams of the table that have data to be acknowledged,
    and their number is recorded. *)
Theorem begin_flush_spec s :
  reachable s -> num_shutdown_flush (qsm s) = 0 ->
  exists s' m t, ossl_quic_stream_map_begin_shutdown_flush s = (Ok tt, s') /\ map_ (qsm s) = Some t /\ lh_rep t m /\
    (forall id r, m !! id = Some r -> exists x, heap s !! r_ptr r = Some x /\ shutdown_flush x = false /\
      heap s' !! r_ptr r = Some (set_shutdown_flush (unacked x) x)) /\
    num_shutdown_flush (qsm s') = Z.of_nat (base.size (flushing (heap s'))).
Proof.
  intros (m & A & Q & G & I)%reachable_ok H0.
  destruct (begin_flush_ok _ _ _ _ _ I H0) as (s' & E & I' & _ & Hin & _). destruct (i_table _ _ _ _ _ _ I) as (t & Ht & Hr).
  exists s', m, t. split_and!; try done; [|apply I']. intros id r Hm.
  destruct (i_entry _ _ _ _ _ _ I id r Hm) as (_ & x & Hx & _). exists x.
  assert (Hf : shutdown_flush x = false).
  { destruct (shutdown_flush x) eqn:Hf; [|done]. pose proof (flush_pos _ _ _ _ _ _ _ _ I Hx Hf). lia. }
  split_and!; try done. rewrite (Hin _ _ Hm), Hx. cbn. unfold flagged. by rewrite Hf.
Qed.

(** The collection does nothing: its loop stops at the first stream of the list. *)
Theorem gc_collects_nothing s : reachable s -> ossl_quic_stream_map_gc s = (Ok tt, s).
Proof. intros (m & A & Q & G & I)%reachable_ok. by eapply gc_idle. Qed.

End Runs.
