(* ===== verification/StreamMapExamples.v ===== *)
(** Runs of the stream map on concrete inputs: the witnesses of its theorems, and what
    happens when an allocation fails or the application concludes an empty write. *)

From stdpp Require Import base numbers gmap list relations.
From Stdlib Require Import ZArith Lia.
From S2P Require Import Prelude SafeMath Wire UintSet FlowControl RingBuf SStream Statm SFrameList RStream LHash StreamList StreamMap StreamMapTheory StreamMapOps StreamMapLife StreamMapEvents StreamMapRuns.

#[local] Open Scope cfun_scope.

(** ** Deciding that a run is legal *)

Definition legalb (s : SM) (c : sm_call) : bool :=
  match subject c with Some p => bool_decide (is_Some (heap s !! p)) | None => true end &&
  match c with
  | CAccept p _ => queued s p
  | CNewLocal _ | CNewRemote _ => Z.of_nat (brk s) <? MAX_STREAMS
  | CRegen ft _ _ => bool_decide (ft ∈ regen_types)
  | CConfirm ft _ => bool_decide (ft ∈ confirm_types)
  | CBeginFlush => num_shutdown_flush (qsm s) =? 0
  | _ => true
  end.

Lemma legalb_ok s c : legalb s c = true -> legal s c.
Proof.
  unfold legalb. intros [H1 H2]%andb_true_iff. split.
  - intros p Hp. rewrite Hp in H1. by apply bool_decide_eq_true in H1.
  - destruct c; try done; try lia; by apply bool_decide_eq_true in H2.
Qed.

Definition mem (n : Z) : list Z := zrepeat 0 n.
Definition clock (n : nat) : OSSL_TIME := Z.of_nat n.

Fixpoint run_calls (cs : list sm_call) (s : SM) : option SM :=
  match cs with
  | [] => Some s
  | c :: cs =>
      if legalb s c then match exec_call mem clock c s with (Ok _, s') => run_calls cs s' | _ => None end else None
  end.

Lemma run_calls_rtc cs : forall s s', run_calls cs s = Some s' -> rtc (sm_step mem clock) s s'.
Proof.
  induction cs as [|c cs IH]; intros s s' E; cbn in E; [by injection E as ->|].
  destruct (legalb s c) eqn:Hl; [|done]. destruct (exec_call mem clock c s) as [[[]| |] s1] eqn:Ec; try done.
  eapply rtc_l; [|by apply IH]. by eapply step_call; [apply legalb_ok|].
Qed.

Lemma mem_len n : 0 <= n -> zlen (mem n) = n.
Proof. apply zlen_zrepeat. Qed.

(** ** A connection of a client *)

Definition channel0 : QUIC_CHANNEL := mkChannel false true false 0 10 10 0 0 1000 1000 1000 2000 2000 2000 0.

(** The controllers of the connection, and one that counts the streams of the peer. *)
Definition machine (o : oracle) : SM :=
  mkSM (mkQsm None ∅ ∅ ∅ 0 0 0 0 0 None None None None) channel0 (mkTxp false false false false 0) ∅
    {[conn_fc := mkTxfc None 0 5000 false]}
    (mkRX (<[conn_fc := mkRxfc 9000 0 0 0 0 9000 90000 0 None 0 false false false]>
            {[1%nat := mkRxfc 10 0 0 0 0 10 10 0 None 0 false false true]}) 0) 3 o.

Definition connection : SM := snd (ossl_quic_stream_map_init (Some get_stream_limit) (Some 1%nat) None (machine [])).

Lemma connection_initial : initial connection.
Proof.
  exists (machine []), (Some get_stream_limit), (Some 1%nat), None. split; [done|].
  split; [by vm_compute|]. split; [done|]. split; [done|]. split.
  { unfold init_limits, is_u64, U64_MOD. repeat constructor; cbn; lia. }
  split.
  { split.
    - cbn [machine tx]. intros p x [<- <-]%lookup_singleton_Some. split; cbn; unfold U64_MOD; lia.
    - cbn [machine tx]. intros p x c [<- <-]%lookup_singleton_Some. done. }
  split; [done|]. split; [done|]. split.
  - intros p y Hy. cbn in Hy. apply lookup_insert_Some in Hy as [[<- <-]|[_ [<- <-]%lookup_singleton_Some]];
      (split; [unfold conn_fc; lia|done]).
  - intros p [[= <-]|?]; [by eexists|done].
Qed.

(** Two local streams, two of the peer; the first one is reset, the peer is asked to stop
    sending on the third, and the fourth is accepted. *)
Definition calls : list sm_call :=
  [CNewLocal false; CNewLocal true; CNewRemote 1; CNewRemote 3; CNewRemote 5; CReset 3 7; CStopSending 5 9;
   CAccept 5 100; CUpdate 4; CStepping 2].

Definition busy : SM := default connection (run_calls calls connection).

Lemma run_defined cs s : (match run_calls cs s with Some _ => true | None => false end) = true ->
  run_calls cs s = Some (default s (run_calls cs s)).
Proof. by destruct (run_calls cs s). Qed.

Lemma busy_reachable : reachable mem clock busy.
Proof.
  exists connection. split; [apply connection_initial|]. apply (run_calls_rtc calls). apply run_defined.
  vm_compute. reflexivity.
Qed.

(** ** Witnesses *)

Definition busy_at (p : nat) : QUIC_STREAM := default zero_stream (heap busy !! p).

Lemma busy_lookup p : bool_decide (is_Some (heap busy !! p)) = true -> heap busy !! p = Some (busy_at p).
Proof. intros [x Hx]%bool_decide_eq_true. unfold busy_at. by rewrite Hx. Qed.

(** The first stream was reset: it has no send buffer, but a receive buffer. *)
Lemma stream_buffers_match_states_witness :
  send_state (busy_at 3) = QUIC_SSTREAM_STATE_RESET_SENT /\ ~ is_Some (sstream (busy_at 3)) /\ is_Some (rstream (busy_at 3)).
Proof.
  assert (Hs : send_state (busy_at 3) = QUIC_SSTREAM_STATE_RESET_SENT) by by vm_compute.
  assert (Hr : recv_state (busy_at 3) = QUIC_RSTREAM_STATE_RECV) by by vm_compute.
  destruct (stream_buffers_match_states mem clock mem_len busy 3 (busy_at 3) busy_reachable
    (busy_lookup 3 ltac:(by vm_compute))) as (H1 & H2 & _).
  split; [exact Hs|]. split.
  - intros H. apply H1 in H. unfold ossl_quic_stream_has_send_buffer in H. rewrite Hs in H. discriminate.
  - apply H2. unfold ossl_quic_stream_has_recv_buffer. rewrite Hr. reflexivity.
Defined.

Lemma stream_map_never_undefined_witness : exists s', exec_call mem clock (CFree 4) busy = (Ok tt, s').
Proof.
  apply (stream_map_never_undefined mem clock mem_len busy (CFree 4) busy_reachable). apply legalb_ok. by vm_compute.
Defined.

Lemma stream_map_consistent_witness : exists A Q,
  list_rep (active_list (qsm busy)) (dom (heap busy)) A /\ list_rep (accept_list (qsm busy)) (dom (heap busy)) Q /\
  num_accept_bidi (qsm busy) = zlen (of_dir true (heap busy) Q).
Proof.
  destruct (stream_map_consistent mem clock mem_len busy busy_reachable) as (A & Q & G & m & t & H1 & H2 & _ & _ & _ & H3 & _).
  exists A, Q. exact (conj H1 (conj H2 H3)).
Defined.

(** The reset is acknowledged, and the second stream is freed. *)
Definition more_calls : list sm_call := [CResetAcked 3; CFree 4; CFree 5].
Definition later : SM := default busy (run_calls more_calls busy).
Definition later_at (p : nat) : QUIC_STREAM := default zero_stream (heap later !! p).

Lemma later_lookup p : bool_decide (is_Some (heap later !! p)) = true -> heap later !! p = Some (later_at p).
Proof. intros [x Hx]%bool_decide_eq_true. unfold later_at. by rewrite Hx. Qed.

Lemma stream_lifecycle_witness :
  send_state (later_at 3) = QUIC_SSTREAM_STATE_RESET_RECVD /\ rtc send_edge (send_state (busy_at 3)) (send_state (later_at 3)) /\
  send_final_size (later_at 3) = send_final_size (busy_at 3).
Proof.
  destruct (stream_lifecycle mem clock mem_len busy later 3 (busy_at 3) (later_at 3) busy_reachable
    (run_calls_rtc more_calls busy later (run_defined more_calls busy ltac:(by vm_compute)))
    (busy_lookup 3 ltac:(by vm_compute)) (later_lookup 3 ltac:(by vm_compute))) as (_ & _ & H1 & _ & H2 & _).
  split; [by vm_compute|]. split; [exact H1|]. apply H2. by vm_compute.
Defined.

Lemma update_state_spec_witness : exists s', ossl_quic_stream_map_update_state 4 busy = (Ok tt, s') /\
  heap s' = <[4%nat := updated busy 4 (busy_at 4)]> (heap busy).
Proof.
  destruct (update_state_spec mem clock mem_len busy 4 (busy_at 4) busy_reachable (busy_lookup 4 ltac:(by vm_compute)))
    as (s' & H1 & _ & H2 & _). exists s'. exact (conj H1 H2).
Defined.

Lemma iteration_visits_active_once_witness : exists it s' l, ossl_quic_stream_iter_init true busy = (Ok it, s') /\
  iter_streams (base.size (heap busy)) it s' = (Ok l, s') /\ NoDup l /\ list.head l = Some 3%nat.
Proof.
  destruct (iteration_visits_active_once mem clock mem_len busy true busy_reachable) as (it & s' & l & H1 & H2 & H3 & _ & H4).
  exists it, s', l. split; [exact H1|]. split; [exact H2|]. split; [exact H3|]. rewrite H4. by vm_compute.
Defined.

(** Two streams are active, and each of them is first twice. *)
Lemma rotation_is_fair_witness : exists R, NoDup R /\ list.head R = Some 3%nat /\
  iter_firsts (length R * 2) busy = (Ok (concat ((fun q => replicate 2 (Some q)) <$> R)), busy).
Proof.
  destruct (rotation_is_fair mem clock mem_len busy 3 busy_reachable ltac:(by vm_compute) ltac:(by vm_compute)
    ltac:(split; by vm_compute)) as (R & H1 & H2 & _ & H3).
  exists R. exact (conj H1 (conj H2 H3)).
Defined.

Lemma find_in_accept_queue_terminates_witness : exists Q,
  ossl_quic_stream_map_find_in_accept_queue (length Q) true busy = (Ok (list.head (of_dir false (heap busy) Q)), busy).
Proof.
  destruct (find_in_accept_queue_terminates mem clock mem_len busy busy_reachable) as (Q & _ & _ & H).
  exists Q. exact (H true (length Q) (le_n _)).
Defined.

Lemma reset_send_part_spec_witness : exists s' x', ossl_quic_stream_map_reset_stream_send_part 4 11 busy = (Ok true, s') /\
  heap s' = <[4%nat := x']> (heap busy) /\ send_state x' = QUIC_SSTREAM_STATE_RESET_SENT /\ reset_stream_aec x' = 11.
Proof.
  assert (Hs : send_state (busy_at 4) = QUIC_SSTREAM_STATE_READY) by by vm_compute.
  destruct (reset_send_part_spec mem clock mem_len busy 4 (busy_at 4) 11 busy_reachable (busy_lookup 4 ltac:(by vm_compute)))
    as (s' & H1 & H2). unfold ossl_quic_stream_has_send_buffer in *. rewrite Hs in *.
  destruct H2 as (x' & H2 & H3 & _ & _ & H4 & _). exists s', x'. exact (conj H1 (conj H2 (conj H3 H4))).
Defined.

(** ** When things go wrong *)

Definition connection_with (o : oracle) : SM :=
  snd (ossl_quic_stream_map_init (Some get_stream_limit) (Some 1%nat) None (machine o)).

(** The two allocations of the table and that of the stream succeed; the insertion into the
    table fails. The stream is there, but cannot be found. *)
Example unlisted_stream :
  exists s', ossl_quic_channel_new_stream_local mem false (connection_with [true; true; true; false]) = (Ok (Some 3%nat), s') /\
    s_id <$> heap s' !! 3%nat = Some 0 /\ fst (ossl_quic_stream_map_get_by_id 0 s') = Ok None.
Proof. eexists. split; [vm_compute; reflexivity|]. split; vm_compute; reflexivity. Qed.

(** The initialisation succeeds without a table, which the next look-up needs. *)
Example init_without_table :
  fst (ossl_quic_stream_map_init None None None (machine [false])) = Ok true /\
  fst (ossl_quic_stream_map_get_by_id 0 (connection_with [false])) = Ub.
Proof. split; vm_compute; reflexivity. Qed.

(** A write of no bytes that concludes the stream puts a FIN into the buffer of a stream
    that is still READY; when the stream is freed after that, the assertion on its final
    size fails. *)
Example empty_conclude :
  exists s, ossl_quic_channel_new_stream_local mem false connection = (Ok (Some 3%nat), s) /\
    fst ((quic_post_write 3 false true true ;;; quic_free_stream 3) s) = Ub.
Proof. eexists. split; [vm_compute; reflexivity|]. vm_compute. reflexivity. Qed.
