(* ===== verification/StreamMapCaller.v ===== *)
(** The functions that the packetiser gives to the dispatcher of frames in flight
    (ssl/quic/quic_txp.c) do to the send buffers of the stream map what the dispatcher
    relies on, the laws of the class [Caller]. *)

From stdpp Require Import base numbers gmap list relations.
From Stdlib Require Import ZArith Lia.
From S2P Require Import Prelude SafeMath Wire UintSet FlowControl RingBuf SStream Statm NewReno SFrameList RStream LHash Fifd StreamList StreamMap StreamMapTheory StreamMapOps StreamMapLife StreamMapEvents StreamMapRuns StreamMapExamples.

#[local] Open Scope cfun_scope.

(** ** Send buffers *)

Definition buffer (s : SM) (p : nat) : option QUIC_SSTREAM := heap s !! p ≫= sstream.

(** The send part of [p] is finished: all was sent, and all is acknowledged. *)
Definition ended (s : SM) (p : nat) : Prop :=
  exists x q, heap s !! p = Some x /\ sstream x = Some q /\ send_state x = QUIC_SSTREAM_STATE_DATA_SENT /\
              finished (q, []) = true.

(** Buffers are freed, but only those that are finished; the others are as they were. *)
Record releases (s s' : SM) : Prop := {
  rl_same p q : buffer s' p = Some q -> buffer s p = Some q;
  rl_open p q : buffer s p = Some q -> finished (q, []) = false -> buffer s' p = Some q
}.

#[export] Instance releases_po : PreOrder releases.
Proof. split; [by split|]. intros s1 s2 s3 [] []. split; auto. Qed.

Lemma tot_finished q : have_final_size q = true -> tot q = finished (q, []).
Proof.
  intros Hf. unfold tot, finished. cbn [fst]. rewrite Hf. destruct (acked_final_size q) eqn:Ha; cbn [andb].
  - change (ossl_quic_sstream_is_totally_acked (q, [])) with (ossl_quic_sstream_is_totally_acked (q, [] : oracle)).
    by destruct (ossl_quic_sstream_is_totally_acked _) as [[] ?].
  - unfold ossl_quic_sstream_is_totally_acked, bind. cbn [get_qss fst]. by rewrite Hf, Ha.
Qed.

(** An update frees the buffer of a stream whose data were sent, if it is finished. *)
Lemma updated_buffer s p x : stream_ok x ->
  sstream (updated s p x)
  = if bool_decide (send_state x = QUIC_SSTREAM_STATE_DATA_SENT) && match sstream x with Some q => finished (q, []) | None => false end
    then None else sstream x.
Proof.
  intros Hx. unfold updated, gc_upd, acked_upd, totally.
  assert (Ht : bool_decide (send_state x = QUIC_SSTREAM_STATE_DATA_SENT) && match sstream x with Some q => tot q | None => false end
    = bool_decide (send_state x = QUIC_SSTREAM_STATE_DATA_SENT) && match sstream x with Some q => finished (q, []) | None => false end).
  { case_bool_decide as Hs; [|done]. cbn. destruct (sstream x) as [q|] eqn:Hq; [|done]. apply tot_finished. by apply (ok_sent x Hx). }
  rewrite Ht. destruct (_ && match sstream x with Some q => finished (q, []) | None => false end); cbn; [by destruct (ready_for_gc _)|].
  destruct (shutdown_flush x && _ && _); cbn; by destruct (ready_for_gc _).
Qed.

(** A stream is replaced by the update of one with the same buffer. *)
Lemma update_releases s s0 s' p x y : heap s !! p = Some x -> stream_ok y -> sstream y = sstream x ->
  heap s' = <[p := updated s0 p y]> (heap s) -> releases s s'.
Proof.
  intros H Hy Es Hh.
  assert (Hb : forall p', buffer s' p' = if decide (p' = p) then sstream (updated s0 p y) else buffer s p').
  { intros p'. unfold buffer. rewrite Hh. case_decide as Hp; [subst p'; by rewrite lookup_insert_eq|].
    by rewrite lookup_insert_ne by done. }
  assert (Hp : buffer s p = sstream y) by (unfold buffer; by rewrite H). pose proof (updated_buffer s0 p y Hy) as Hu.
  split; intros p' q; rewrite Hb; (destruct (decide (p' = p)) as [->|Hd]; [rewrite Hu, Hp|by intros]).
  - by destruct (_ && _).
  - intros -> ->. by rewrite andb_false_r.
Qed.

Lemma put_releases s m A Q G p x f : sm_inv ∅ s m A Q G -> heap s !! p = Some x -> same_core x (f x) -> stream_ok (f x) ->
  evolves x (f x) -> sstream (f x) = sstream x ->
  exists s', (upd_stream p f ;;; ossl_quic_stream_map_update_state p) s = (Ok tt, s') /\ releases s s'.
Proof.
  intros I H Hc Hx He Es. destruct (put_update_ok s m A Q G p x (f x) I H Hc Hx He) as (s' & E & (_ & _ & Hh) & _).
  exists s'. split; [by rewrite (bind_ok _ _ _ _ _ (upd_stream_run _ _ _ _ H))|]. by eapply update_releases.
Qed.

Lemma state_releases s m A Q G p x : sm_inv ∅ s m A Q G -> heap s !! p = Some x ->
  exists s', ossl_quic_stream_map_update_state p s = (Ok tt, s') /\ heap s' = <[p := updated s p x]> (heap s) /\ releases s s'.
Proof.
  intros I H. destruct (update_moved _ _ _ _ _ p x I H) as (s' & E & (_ & _ & Hh) & _). exists s'. split_and!; try done.
  eapply update_releases; try done. by eapply inv_stream.
Qed.

Lemma schedule_releases s m A Q G p x : sm_inv ∅ s m A Q G -> heap s !! p = Some x ->
  exists s', (ossl_quic_stream_map_schedule_stop_sending p ;;; ret tt) s = (Ok tt, s') /\ releases s s'.
Proof.
  intros I H. destruct (inv_stream _ _ _ _ _ _ _ I H) as [Hx Hw].
  assert (exists r s', ossl_quic_stream_map_schedule_stop_sending p s = (Ok r, s') /\ releases s s') as (r & s' & E & R).
  2: { exists s'. by rewrite (bind_ok _ _ _ _ _ E). }
  unfold ossl_quic_stream_map_schedule_stop_sending. rewrite (bind_ok _ _ _ _ _ (stream_at_run _ _ _ H)).
  destruct (stop_sending x); cbn [negb]; [|by eexists _, _]. destruct (want_stop_sending x); [by eexists _, _|].
  destruct (put_update_ok s m A Q G p x (set_want_stop_sending true x) I H) as (s' & E & (_ & _ & Hh) & M');
    [by split|by eapply stream_ok_ext|by split|].
  assert (R : releases s s') by (eapply (update_releases _ _ _ _ _ (set_want_stop_sending true x) H); [by eapply stream_ok_ext|done|exact Hh]).
  destruct (recv_state x) eqn:Hr; try (by eexists _, _); assignments H; rewrite (bind_ok _ _ _ _ _ E); by eexists _, s'.
Qed.

Lemma reset_acked_releases s m A Q G p x : sm_inv ∅ s m A Q G -> heap s !! p = Some x ->
  exists s', (ossl_quic_stream_map_notify_reset_stream_acked p ;;; ossl_quic_stream_map_update_state p) s = (Ok tt, s') /\
             releases s s'.
Proof.
  intros I H. destruct (reset_acked_ok _ _ _ _ _ p x I H) as (r & s1 & E1 & ((A1 & G1 & I1) & En1 & V1)).
  rewrite (bind_ok _ _ _ _ _ E1). destruct (evolved_lookup _ _ _ _ V1 H) as (x1 & H1 & _).
  destruct (state_releases _ _ _ _ _ p x1 I1 H1) as (s' & E' & _ & R'). exists s'. split; [done|].
  transitivity s1; [|done]. revert E1. unfold ossl_quic_stream_map_notify_reset_stream_acked.
  rewrite (bind_ok _ _ _ _ _ (stream_at_run _ _ _ H)).
  destruct (send_state x) eqn:Hs; try (by intros [= _ <-]). rewrite (bind_ok _ _ _ _ _ (upd_stream_run _ _ _ _ H)).
  intros [= _ <-]. assert (Hb : forall p', buffer (upd_heap (<[p := set_send_state QUIC_SSTREAM_STATE_RESET_RECVD x]> (heap s)) s) p' = buffer s p').
  { intros p'. unfold buffer. cbn. destruct (decide (p' = p)) as [->|Hne].
    - by rewrite lookup_insert_eq, H.
    - by rewrite lookup_insert_ne. }
  split; intros p' q; rewrite Hb; done.
Qed.

(** What is done for the stream with an identifier. *)
Lemma by_id_releases s id (f : nat -> M SM unit) : sm_ok s ->
  (forall s1 m A Q G p x, sm_inv ∅ s1 m A Q G -> heap s1 !! p = Some x -> exists s', f p s1 = (Ok tt, s') /\ releases s1 s') ->
  exists s', (let! q := ossl_quic_stream_map_get_by_id id in match q with None => ret tt | Some p => f p end) s
    = (Ok tt, s') /\ releases s s'.
Proof.
  intros (m & A & Q & G & I) Hf. destruct (get_by_id_ok _ _ _ _ _ id I) as (t & E & I1).
  rewrite (bind_ok _ _ _ _ _ E). assert (R : releases s (with_table t (orc s) s)) by (by split).
  destruct (m !! id) as [r|] eqn:Hr; cbn; [|by eexists].
  destruct (i_entry _ _ _ _ _ _ I1 id r Hr) as (_ & x & Hx & _).
  destruct (Hf _ _ _ _ _ _ _ I1 Hx) as (s' & E' & R'). exists s'. split; [done|]. by etrans.
Qed.

Ltac flag_releases := intros; eapply put_releases;
  [eassumption|eassumption|by split|by eapply stream_ok_ext; [eapply inv_stream; eassumption|..]|by split|done].

Lemma on_regen_releases s ft id sp : sm_ok s -> ft ∈ regen_types ->
  exists s', on_regen_notify ft id sp s = (Ok tt, s') /\ releases s s'.
Proof.
  intros I Hft. unfold regen_types in Hft. rewrite !elem_of_cons, elem_of_nil in Hft. unfold on_regen_notify.
  destruct Hft as [->|[->|[->|[->|[->|[->|[->|[->|[]]]]]]]]]; cbn -[bind set_want];
    try (by eexists); apply by_id_releases; try done; [flag_releases| |flag_releases].
  intros. by eapply schedule_releases.
Qed.

Lemma on_confirm_releases s ft id : sm_ok s -> ft ∈ confirm_types ->
  exists s', on_confirm_notify ft id s = (Ok tt, s') /\ releases s s'.
Proof.
  intros I Hft. unfold confirm_types in Hft. rewrite !elem_of_cons, elem_of_nil in Hft. unfold on_confirm_notify.
  destruct Hft as [->|[->|[]]]; cbn -[bind]; apply by_id_releases; try done; [flag_releases|].
  intros. by eapply reset_acked_releases.
Qed.

Lemma on_updated_releases s id : sm_ok s ->
  exists s', on_sstream_updated id s = (Ok tt, s') /\ releases s s' /\
    forall p, fst (ossl_quic_stream_map_get_by_id id s) = Ok (Some p) -> ended s p -> buffer s' p = None.
Proof.
  intros (m & A & Q & G & I). destruct (get_by_id_ok _ _ _ _ _ id I) as (t & E & I1).
  unfold on_sstream_updated. rewrite (bind_ok _ _ _ _ _ E), E. cbn [fst].
  assert (R : releases s (with_table t (orc s) s)) by (by split).
  destruct (m !! id) as [r|] eqn:Hr; cbn; [|by eexists].
  destruct (i_entry _ _ _ _ _ _ I1 id r Hr) as (_ & x & Hx & _).
  destruct (state_releases _ _ _ _ _ _ _ I1 Hx) as (s' & E' & Hh & R'). exists s'. split; [done|]. split; [by etrans|].
  intros p [= <-] (x' & q & Hx' & Hq & Hs & Hf). assert (x' = x) as -> by (cbn in Hx; congruence).
  unfold buffer. rewrite Hh, lookup_insert_eq.
  transitivity (sstream (updated (with_table t (orc s) s) (r_ptr r) x)); [done|].
  rewrite updated_buffer by (by eapply inv_stream).
  rewrite Hq, Hs, Hf. done.
Qed.

(** ** The theorem *)

(** C33: The functions that the packetiser registers with the dispatcher of frames in flight do
    what the dispatcher relies on: whatever they are called for, the send buffers that
    remain are those there were, and only buffers all of whose bytes and whose FIN are
    acknowledged are freed; and such a buffer is freed when the dispatcher reports that the
    stream was updated, once its send part has recorded that all was sent. *)
Theorem stream_callbacks_release fresh now (fresh_len : forall n, 0 <= n -> zlen (fresh n) = n) s :
  reachable fresh now s ->
  (forall ft id sp, ft ∈ regen_types -> exists s', on_regen_notify ft id sp s = (Ok tt, s') /\ releases s s') /\
  (forall ft id, ft ∈ confirm_types -> exists s', on_confirm_notify ft id s = (Ok tt, s') /\ releases s s') /\
  (forall id, exists s', on_sstream_updated id s = (Ok tt, s') /\ releases s s' /\
     forall p, fst (ossl_quic_stream_map_get_by_id id s) = Ok (Some p) -> ended s p -> buffer s' p = None).
Proof.
  intros Hr%reachable_ok; [|done]. split_and!; intros.
  - by apply on_regen_releases.
  - by apply on_confirm_releases.
  - by apply on_updated_releases.
Qed.

(** ** A stream that ends *)

(** The FINs of all streams are acknowledged, a step of the dispatcher. *)
Definition fin_acked (q : QUIC_SSTREAM) : QUIC_SSTREAM :=
  mkSstream (ring q) (new_set q) (acked_set q) (have_final_size q) true true (SStream.cleanse q).

Definition all_fins_acked (s : SM) : SM :=
  upd_heap ((fun x => set_sstream (fin_acked <$> sstream x) x) <$> heap s) s.

Lemma fin_acked_sim q a : SStream.sim q a -> exists a', SStream.sim (fin_acked q) a'.
Proof. intros []. exists (SStream.mkSpec (sq a) (SStream.st a) (s_have a) true true). by split. Qed.

Lemma fins_acked_env s : sm_ok s -> env_step s (all_fins_acked s).
Proof.
  intros (m & A & Q & G & I). eexists (ch s), _, (tx s), (rx s), (orc s). split; [done|]. split; [done|].
  split; [apply I|]. split; [|split; [apply I|done]]. intros p. rewrite lookup_fmap.
  destruct (heap s !! p) as [x|] eqn:Hp; [|done]. cbn. pose proof (inv_stream _ _ _ _ _ _ _ I Hp) as [[_ _ _ _ O5 O6 O7 _ _] _].
  exists (fin_acked <$> sstream x), (rstream x), (peer_stop_sending x), (peer_stop_sending_aec x).
  split; [by destruct x|]. split.
  - destruct (sstream x) as [q|]; [|done]. cbn. split; [|split; [done|by auto]].
    destruct (O5 q eq_refl) as [a Ha]. by eapply fin_acked_sim.
  - destruct (rstream x) as [q|]; [by apply O6|done].
Qed.

(** A local stream is concluded, its FIN is sent, and acknowledged. *)
Definition end_calls : list sm_call := [CNewLocal false; CEnsureSend 3; CConclude 3; CAllDataSent 3].
Definition concluded : SM := default connection (run_calls end_calls connection).
Definition ending : SM := all_fins_acked concluded.

Lemma ending_reachable : reachable mem clock ending.
Proof.
  assert (Hc : reachable mem clock concluded).
  { exists connection. split; [apply connection_initial|]. apply (run_calls_rtc end_calls), run_defined. vm_compute. reflexivity. }
  destruct Hc as (s0 & H0 & Hs). exists s0. split; [done|]. eapply rtc_r; [done|]. apply step_env, fins_acked_env.
  apply (reachable_ok mem clock mem_len). by exists s0.
Qed.

(** The stream is freed when it is reported as updated, not before. *)
Lemma stream_callbacks_release_witness :
  is_Some (buffer ending 3) /\ exists s', on_sstream_updated 0 ending = (Ok tt, s') /\ buffer s' 3 = None.
Proof.
  split; [vm_compute; eauto|].
  destruct (stream_callbacks_release mem clock mem_len ending ending_reachable) as (_ & _ & H).
  destruct (H 0) as (s' & E & _ & Hf). exists s'. split; [exact E|]. apply Hf; [vm_compute; reflexivity|].
  destruct (heap ending !! 3%nat) as [x|] eqn:Ex; [|vm_compute in Ex; discriminate].
  destruct (sstream x) as [q|] eqn:Eq; [|vm_compute in Ex; injection Ex as <-; discriminate].
  exists x, q. split; [exact Ex|]. split; [exact Eq|]. vm_compute in Ex. injection Ex as <-. injection Eq as <-.
  split; vm_compute; reflexivity.
Defined.
